(* ===== verification/_CoqProject ===== *)
-Q . S2P
Prelude.v
GoText.v
Composite.v
Failover.v
IdempotencyStore.v
Idempotency.v
StreamCircuit.v
AuthAbuse.v
ImageLimiter.v
Pacing.v
GoTime.v
SubscriptionWindow.v
KeywordMatcher.v
SpreadSchedule.v
Wallets.v
Programs.v
Redis.v
BillingStore.v
Billing.v
BillingLedger.v
BillingWallets.v
BillingQuota.v
BillingRecords.v
BatchJobs.v
BatchJobLife.v
BatchSettlement.v
BatchIndex.v
BatchProcessor.v
BatchQueue.v
BatchQueueRuns.v
BatchRequest.v
BatchPublic.v
BatchBilling.v
BatchFlows.v
Slots.v
SlotLimits.v
SlotRuns.v
Sessions.v
RateCounters.v
AccountQuota.v
AccountLimits.v
MessageQueue.v
SlotService.v
SlotWaits.v
ModelNames.v
ModelAllowlist.v
TimePricing.v
ChannelPricing.v
ChannelCache.v
ChannelLookups.v
ModelPricing.v
PricingResolver.v
TokenCosts.v
CostFacts.v
CostBounds.v
CostExamples.v
Interleave.v
PaymentStore.v
PaymentProviders.v
Redeem.v
Payments.v
PaymentLifecycle.v
PaymentMoves.v
PaymentSafety.v
PaymentFlows.v
PaymentDelivery.v
PaymentRecovery.v
PaymentExamples.v
PaymentMethods.v
PaymentBalancer.v
PaymentCreate.v
PaymentCreateRuns.v
PaymentRefunds.v
PaymentRefundRuns.v
PaymentRefundFlows.v
Subscriptions.v
SubscriptionFacts.v
SubscriptionRuns.v
SubscriptionSweeps.v
SubscriptionExamples.v
