(* ===== verification/Prelude.v ===== *)
(** * Gourd API gateway: a verification development

The gateway ([src/backend], Go) takes requests for language and image models,
picks an upstream account of some provider, forwards the request, and bills
it.  This library models the parts of the gateway whose correctness is in
their own logic - state machines, limiters, schedulers, matchers - and proves
what those parts promise to the rest.  Paths below are relative to
[src/backend/internal].

** Parts and files

How a request meets the parts: authentication is guarded by the abuse limiter;
a write request of the administration interface runs under the idempotency
coordinator; a gateway request is screened for blocked keywords, routed within
its composite group, and then goes through the account loop, which is paced
before each upstream call, limited for images, and told by the stream circuit
which proxies to avoid; its usage is priced, and charged, once, to the wallets of the user's
subscriptions within their quota windows and to the balance.  A batch of images
is a job of its own: it reserves a hold on the balance when it is submitted, a
worker follows its provider, indexes the output and settles the cost against the
hold.  Beside the requests, periodic tasks go through the accounts on a spread
schedule.  Money comes in through payment orders: a gateway reports a payment, which
completes its order by a redeem code or a subscription wallet.

- [Prelude] (this file): Go's integers, instants, durations and errors, list
  lemmas, the stable sort, totals over pools of goroutines, tactics and the hint
  databases [go].
- [GoText]: the functions of Go's [strings] package that the code calls, with
  the Unicode tables as the class [GoUnicode] and their documented laws as
  [GoUnicodeLaws]; UTF-8 validity.
- [GoTime]: Go's civil calendar: dates, weekdays, [AddDate].
- [Composite]: composite groups.  [matchCompositeRoute] and the resolver of
  [service/composite_route_resolver.go], the provider detector of
  [service/composite_platform.go], stored routes of
  [service/composite_model_route.go] and [service/admin_group.go].  The
  repository and the account catalog are function fields of the resolver.
- [Failover]: [handler/failover_loop.go] ([HandleFailoverError],
  [HandleSelectionExhausted], [RecordProfitVeto], the same-account retries) and
  the control flow of the account loop in [handler/gateway_handler.go]
  ([loop_iteration]); what selection, slots and forwarding report is a list of
  events.
- [IdempotencyStore]: the table [idempotency_records] and the statements of
  [repository/idempotency_repo.go]; [Idempotency]: the coordinator of
  [service/idempotency.go] as a program over the statements, the lease renewal
  and the clean-up of [service/idempotency_cleanup_service.go], interleaved
  statement by statement by the step relation [step].
- [StreamCircuit]: [service/openai_proxy_stream_circuit.go], one function per
  method on the map of entries, and runs of operations.
- [AuthAbuse]: [service/invalid_auth_abuse_limiter.go], shards, capacity and
  overflow counter, one function per method.
- [ImageLimiter]: [handler/image_concurrency_limiter.go], goroutines that
  interleave critical sections on one limiter.
- [Pacing]: [repository/account_pacer.go] and
  [repository/upstream_global_gate.go], reservations of time slots and the
  concurrency channel.
- [SubscriptionWindow]: [service/subscription_window.go] on the calendar of
  [GoTime].
- [KeywordMatcher]: the Aho-Corasick automaton of
  [service/content_moderation_keyword_matcher.go] with the arrays, sibling
  chains and sorted edge slices of the code, and the scan of
  [service/content_moderation.go] it replaces.
- [SpreadSchedule]: [service/spread_schedule.go]: settings, the window runner,
  the effective window, and the trigger loop.
- [Wallets]: [service/user_subscription.go], the rows of subscriptions and the
  allocation of an amount to them.
- [Programs]: a monad of programs over tables, whose statements may fail and
  whose commits may lose their answer, with weakest preconditions over all
  faults ([wp]) and for runs without any ([wp0]).
- [BillingStore], [Billing]: the tables of billing, and every operation of
  [repository/usage_billing_repo.go] as a program over them, with the commands
  of [service/usage_billing.go].  [BillingLedger] states what the operations
  promise, an abstract ledger, and proves that they refine it; [BillingWallets],
  [BillingQuota] and [BillingRecords] prove what they do to wallets, to quotas
  and to the dedup tables.
- [BatchJobs]: the tables of batch jobs and every operation of
  [repository/batch_image_repo.go] that changes them, with the state machine of
  [service/batch_image.go]; [BatchJobLife]: histories of these operations.
- [BatchSettlement]: [service/batch_image_billing_hold.go] and
  [service/batch_image_settlement.go]; [BatchIndex]: the parser of provider
  output and the index of [service/batch_image_processor.go];
  [BatchProcessor]: the processors and the recovery of
  [service/batch_image_billing_recovery.go]; [BatchRequest], [BatchPublic]:
  validation, pricing, submission, cancellation and deletion of
  [service/batch_image_public.go], and [service/batch_image_cleanup.go].
- [BatchBilling]: histories of all batch services together with other charges;
  [BatchFlows]: their runs when nothing fails.
- [Redis]: the commands that the code uses, with keys that expire, as the class
  [Redis] of servers that obey their documented laws; scripts, and clients whose
  requests may fail, may lose their answer and interleave with those of others
  ([Turn], [World]).  [MapRedis] is a server in Rocq, on which examples run.
- [BatchQueue]: [repository/batch_image_queue.go], the queue of
  [service/batch_image_queue.go] and the worker of
  [service/batch_image_worker.go].  The worker is written against the interface
  [BatchImageQueue] and proved against the class [QueueKeeps], which the queue in
  Redis implements ([redis_queue_keeps]).  [BatchQueueRuns]: histories and runs.
- [Slots]: every script and method of [repository/concurrency_cache.go];
  [SlotLimits]: histories of the scripts on the slots and leases of one account or
  user; [SlotRuns]: what histories keep and what single calls answer.
  [SlotService]: slots, waiting queues, leases and the cache of loads as
  [service/concurrency_service.go] and [handler/gateway_helper.go] use them;
  [SlotWaits]: a request that waits for its slot.
- [Sessions]: [repository/session_limit_cache.go], the sessions of an account and the
  cached cost of its window; [RateCounters]: [repository/rpm_cache.go],
  [repository/user_rpm_cache.go] and the check of a request in
  [service/billing_cache_service.go]; [AccountQuota]: the quota windows of an account
  and their fixed resets in [service/account.go]; [AccountLimits]: the checks of a
  selected account against the cost of its window, its requests per minute and its
  sessions ([service/gateway_scheduling.go]).
- [MessageQueue]: [repository/user_msg_queue_cache.go],
  [service/user_msg_queue_service.go] and [handler/user_msg_queue_helper.go].
- [ModelNames]: the spellings that count as one model; [ModelAllowlist]:
  [service/group_model_allowlist.go].
- [TimePricing]: [service/custom_channel_time_pricing.go]; [ChannelPricing]: the price
  cards of [service/channel.go] and their validation in [service/channel_service.go];
  [ChannelCache]: the snapshot of channels in [service/channel_service.go], with
  [ChannelLookups]: what it answers.  [ModelPricing]: the prices of a model in
  [service/billing_service.go]; [PricingResolver]: [service/model_pricing_resolver.go],
  [service/group_free_models.go] and [service/model_pricing_gate.go]; [TokenCosts]: the
  costs of [service/billing_service.go] and [service/billing_token_cost_request.go].
  [CostFacts], [CostBounds]: what prices and costs promise; [CostExamples].
- [Interleave]: programs as trees of statements, schedules that interleave them
  with faults, and triples that hold under interference.
- [PaymentStore]: [payment/currency.go], [payment/fee.go],
  [service/payment_amounts.go], the tables of payments and their statements;
  [PaymentProviders]: the provider of an order and the check of a notification
  ([service/payment_order_provider_snapshot.go], [payment/registry.go],
  [service/payment_webhook_provider.go]); [Redeem]: [service/redeem_service.go];
  [Payments]: [service/payment_fulfillment.go]; [PaymentLifecycle]:
  [service/payment_order_lifecycle.go].
- [PaymentMoves]: what the statements of payments may do to the tables;
  [PaymentSafety]: the triples of every payment function, for any invariant of a
  client ([Guard]); [PaymentFlows]: schedules of payment calls; [PaymentDelivery]: a
  notification that runs alone; [PaymentRecovery]: a notification after any schedule;
  [PaymentExamples].
- [PaymentMethods]: the methods that a user sees, with their limits and currencies
  ([service/payment_visible_method_instances.go], [service/payment_config_limits.go],
  [service/payment_resume_service.go]); [PaymentBalancer]: [payment/load_balancer.go];
  [PaymentCreate]: [service/payment_order.go]; [PaymentCreateRuns]: a creation that
  runs alone, and the delivery of what it created, with examples.
- [PaymentRefunds]: [service/payment_refund.go] and the days that it takes from a
  wallet ([service/subscription_service.go]); [PaymentRefundRuns]: a refund and a
  confirmation that run alone, for every answer of the gateway; [PaymentRefundFlows]:
  schedules of refunds, and examples.
- [Subscriptions]: the table of subscriptions with the statements of
  [repository/user_subscription_repo.go], [service/subscription_service.go],
  [service/subscription_claim.go], the cycle of [service/subscription_expiry_service.go]
  and the redeem codes that take days; [SubscriptionFacts]: schedules of all of them;
  [SubscriptionRuns]: charges, and what assignments, renewals, extensions,
  restorations and claims make of a term, each run alone;
  [SubscriptionSweeps]: the cycle; [SubscriptionExamples].

** What the theorems show

- Idempotency: over all interleavings and statement failures the handler of a
  key runs at most once while its record is live, and the stored answer is
  replayed; the take-over of an expired record does not have this property
  ([expired_takeover_runs_twice]).
- Failover: the loop is bounded whatever the upstream does; every branch of the
  error handling; a profit veto is never undone.
- Composite: the winner is the documented best route, in any order of the rows;
  the resolver names a concrete platform or none.
- Circuit and abuse limiter: bounded state, blocked only for cause, always for a
  limited time, and abuse is blocked.
- Limiter, pacer and gate: the limits hold over all interleavings, and no waiter
  sleeps beside a free slot.
- Windows: they partition time; usage is cleared exactly at a boundary.
- Matcher: it is the linear scan, without panics and without looping.
- Spread schedule: while the offset of the location does not change no trigger is
  lost and windows of the effective length fit between triggers; where it changes
  triggers are early or repeat for ever, a finding; calls are paced, and the
  statistics account for everyone.
- Wallets: a split takes from each wallet at most what it has and loses nothing;
  an allocation is the waterfall in the order of expiry.
- Billing: every history of transactions, with any faults, is a run of a ledger
  that posts each request at most once; retries charge once; the money of a user
  changes by what was spent, for holds on the scale of the columns; a charge leaves
  no wallet above its limit that was not above it before; quotas
  are crossed once and rate windows count what they should.  A wallet whose
  window has just rolled over is split by its old usage (a finding).
- Batch jobs: what a job is created with never changes and an ended job does not
  come back; an index leaves one row per submitted item; an accepted request is
  within its limits and its hold covers its cost up to 200 images; a completed
  job is paid for, in every history; a settlement charges exactly the images that
  succeeded; a job in settlement ends after a bounded number of runs.  Two orders
  of events in which a hold is released twice, or never, are proved as such
  (findings).
- Queue: whatever fails, no claimed job is lost, jobs come in order, a lock has
  one holder, a wait ends, and the recovery brings stale jobs back.
- Slots: over all histories the holders of an account stay within its limit and a
  holder keeps its slot, unless another process that starts clears it; admission is
  exact; waiting counts are bounded; a restart keeps the slots of the running process.
  The service never answers a load older than its time to live, and a wait that was
  counted is counted back; one whose increment failed is counted back as well (a
  finding).
- Limits of accounts and users: over all histories at most the largest limit of
  sessions has been admitted within the shortest idle timeout, and these are active;
  the increments of a minute are numbered without a gap, and a request is refused
  exactly when it is above a limit; an account is exhausted exactly when the charges
  in SQL say so; the prefetched costs decide as single checks do.
- Message queue: at most one message of an account is in flight, and the next one
  keeps its distance.
- Names and allowlist: normalising a name is idempotent; a listed model is allowed;
  a stored allowlist means what was submitted.
- Prices: validated intervals, periods and patterns never compete, so a lookup finds the
  one entry that covers; a snapshot of channels is recent; the gate agrees with what is
  billed, what it admits can be billed, and a free model costs nothing; no charge is
  negative and a cost is the sum of its parts.  A card without prices passes the gate by
  the price of another name (a finding, [empty_card_is_admitted_and_free]).
- Payments: over all schedules and faults without refunds, recharges are exactly the
  positive balance codes that have come to be used, each once; a completed order has
  been delivered; an order of which no payment is reported is not credited; and the
  next notification that runs alone to its end completes a paid order on which no
  lease is live, whatever earlier workers have left.
- Creation of orders: a selected instance admits the amount and has room for it on
  this day, the round robin is fair, and the limits shown for a method are the union
  of those of its instances; an order that was created alone is within the limits of
  its user, and once paid it is delivered, its amount times the multiplier.  A request
  of an unknown type is a recharge ([unknown_types_recharge]), and two requests at
  once exceed the limits ([pending_limit_is_exceeded]): findings.
- Refunds: a refund of a recharge that runs alone asks the gateway once, for at most
  what has been paid, and charges the user exactly if the gateway has paid; a
  confirmation that runs alone deducts once; over all schedules an order that
  has been refunded is not refunded again.  Two confirmations at once can reopen it (a
  finding, [late_failure_reopens_the_refund]).
- Subscriptions: over all schedules and faults, administration keeps the rows well
  formed and, but for the reset of a quota, takes no usage off a wallet of one amount;
  a charge reaches the wallets it names, to the unit; an assignment that is repeated
  finds what it created; a renewal gives time and not money; no reader can tell
  whether the periodic cycle has run. A plan of months that is claimed lasts days, and
  a plan that is claimed again keeps the usage of the old wallet (findings,
  [claimed_month_lasts_a_day], [reclaimed_pool_is_empty]).

** Conventions

Integers are [Z]; an operation that could leave the width of its Go type is
wrapped ([i64], [i32], [u32], [u64]), and theorems about such values carry the
bound under which the wrap is the identity.  A [time.Time] is a number of
nanoseconds since the zero time.  A nil pointer and a panic are [None].  Maps are
[gmap], or functions on association lists where the order of iteration is
visible; that order is then a parameter.  A mutex-protected section is one
step.  Logging and metrics are left out everywhere.

Fuel: the loops of the automaton use the number of edges or of nodes, which
the theorems show to be enough, since they state that a result is returned;
the trigger loop is unrolled a number of times that its theorems quantify
over; the account loop is bounded by a measure on the request, without fuel.
Random draws, clocks and the outcomes of upstream calls are inputs over which
the theorems quantify.  Money is an integer number of 10^-10 USD, the finest
scale of the code's columns, where the code computes in float64; prices of
tokens, costs and multipliers are rationals, without the rounding of float64.  The faults of a run are a list, one entry per statement,
which the theorems quantify over.  A transaction is one step: PostgreSQL's
isolation is assumed, and so are the row locks it takes.  A script of Redis is one
step as well; the scores of its sorted sets are integers, the numbers that a
script is given are passed as numbers, and the pages that [SCAN] answers are an
input.  The polls of [Reserve] have as fuel one for each second of its timeout and
two more, which [reserve_ends] shows to be enough.  In the payment code programs
interleave between any two statements; what a gateway answers to one call is an input
of that call.

** Not modelled

Network and stream relays, the conversion between provider formats, OAuth and
other credentials, the clients of payment gateways and of batch providers: what they
do is input and output with external services, whose answers are inputs of the parts
above.  The generated ORM and the migrations are generated code.  The selection of
accounts by load and affinity ([service/gateway_scheduling.go],
[service/openai_account_scheduler.go]) ranks snapshots by floating-point scores, and
the classification of upstream errors ([service/ratelimit_service.go]) is a table of
messages per platform; the account loop takes the outcome of both as inputs.
The table of built-in prices and the
search in the catalog ([service/billing_service.go], [service/pricing_service.go]) are
data with lists of name patterns: fields of the billing service here.  Of subscriptions,
the pages of the administrator's list, the in-process cache of active wallets and the
reminders by mail are left out; payments see a subscription through the columns that
[PaymentStore] keeps.  Administration,
monitoring, mail and backups store and show what the modelled parts
compute. *)
From stdpp Require Export base tactics option list gmap strings sorting numbers.
From stdpp Require Export fin_maps relations.
From Stdlib Require Export ZArith Lia Ascii.
From Stdlib Require Import Bool.

#[global] Open Scope Z_scope.

(** ** Machine integers

Go's [int] is 64 bits wide on the supported targets; every arithmetic
operation of the source that can leave the range is wrapped with [i64] (or
[i32], [u32]). *)

Definition two63 : Z := 9223372036854775808.
Definition two64 : Z := 18446744073709551616.
Definition two31 : Z := 2147483648.
Definition two32 : Z := 4294967296.

Definition i64 (z : Z) : Z := (z + two63) mod two64 - two63.
Definition i32 (z : Z) : Z := (z + two31) mod two32 - two31.
Definition u32 (z : Z) : Z := z mod two32.
Definition u64 (z : Z) : Z := z mod two64.

Definition in_i64 (z : Z) : Prop := - two63 <= z < two63.
Definition in_i32 (z : Z) : Prop := - two31 <= z < two31.

Declare Scope go_scope.
Delimit Scope go_scope with go.
Notation "x +! y" := (i64 (x + y)) (at level 50, left associativity) : go_scope.
Notation "x -! y" := (i64 (x - y)) (at level 50, left associativity) : go_scope.
Notation "x *! y" := (i64 (x * y)) (at level 40, left associativity) : go_scope.
#[global] Open Scope go_scope.

Create HintDb go.
Create Rewrite HintDb go.

Lemma i64_id z : in_i64 z -> i64 z = z.
Proof. unfold in_i64, i64, two63, two64. intros H. rewrite Z.mod_small; lia. Qed.

Lemma i64_range z : in_i64 (i64 z).
Proof.
  unfold in_i64, i64, two63, two64.
  pose proof (Z.mod_pos_bound (z + 9223372036854775808) 18446744073709551616). lia.
Qed.

(** A counter that wraps never gets ahead of the count. *)
Lemma i64_succ_le z : in_i64 z -> i64 (z + 1) <= z + 1.
Proof.
  intros H. destruct (decide (z = two63 - 1)) as [->|]; [by vm_compute|].
  rewrite i64_id; unfold in_i64, two63 in *; lia.
Qed.

Lemma i32_id z : in_i32 z -> i32 z = z.
Proof. unfold in_i32, i32, two31, two32. intros H. rewrite Z.mod_small; lia. Qed.

Lemma u32_id z : 0 <= z < two32 -> u32 z = z.
Proof. unfold u32. intros H. by rewrite Z.mod_small. Qed.

#[export] Hint Resolve i64_range : go.
#[export] Hint Rewrite i64_id i32_id u32_id using (unfold in_i64, in_i32, two63, two31, two32 in *; lia) : go.

(** [go_lia]: unfold the width bounds and solve by linear arithmetic. *)
Ltac go_lia := unfold in_i64, in_i32, two63, two64, two31, two32 in *; lia.

(** [i64_simpl]: drop every wrap-around whose argument is provably in range. *)
Ltac i64_simpl :=
  repeat match goal with
    | |- context [i64 ?z] => rewrite (i64_id z) by go_lia
    | H : context [i64 ?z] |- _ => rewrite (i64_id z) in H by go_lia
    end.

(** Case analysis on the boolean integer tests of the code. *)
Ltac case_Z :=
  match goal with
  | |- context [Z.ltb ?a ?b] => destruct (Z.ltb_spec a b)
  | |- context [Z.leb ?a ?b] => destruct (Z.leb_spec a b)
  | |- context [Z.eqb ?a ?b] => destruct (Z.eqb_spec a b)
  end.

Ltac case_Z_in H :=
  match type of H with
  | context [Z.ltb ?a ?b] => destruct (Z.ltb_spec a b)
  | context [Z.leb ?a ?b] => destruct (Z.leb_spec a b)
  | context [Z.eqb ?a ?b] => destruct (Z.eqb_spec a b)
  end.

(** Turn boolean connectives of the code into propositions. *)
Ltac bool_prop :=
  repeat match goal with
    | H : (_ && _)%bool = true |- _ => apply andb_true_iff in H as [? ?]
    | H : (_ || _)%bool = false |- _ => apply orb_false_iff in H as [? ?]
    | H : negb _ = true |- _ => apply negb_true_iff in H
    | H : negb _ = false |- _ => apply negb_false_iff in H
    | H : Z.ltb _ _ = true |- _ => apply Z.ltb_lt in H
    | H : Z.ltb _ _ = false |- _ => apply Z.ltb_ge in H
    | H : Z.leb _ _ = true |- _ => apply Z.leb_le in H
    | H : Z.leb _ _ = false |- _ => apply Z.leb_gt in H
    | H : Z.eqb _ _ = true |- _ => apply Z.eqb_eq in H
    | H : Z.eqb _ _ = false |- _ => apply Z.eqb_neq in H
    | H : String.eqb _ _ = true |- _ => apply String.eqb_eq in H
    | H : String.eqb _ _ = false |- _ => apply String.eqb_neq in H
    end.

(** ** Time

A [time.Time] is the number of nanoseconds since the Go zero time (January 1
of year 1, UTC), so that the zero value is [0]; a [time.Duration] is a 64-bit
count of nanoseconds. *)

Definition Time : Type := Z.
Definition Duration : Type := Z.

Definition Nanosecond : Duration := 1.
Definition Microsecond : Duration := 1000.
Definition Millisecond : Duration := 1000000.
Definition Second : Duration := 1000000000.
Definition Minute : Duration := 60000000000.
Definition Hour : Duration := 3600000000000.

Definition zeroTime : Time := 0.
Definition IsZero (t : Time) : bool := t =? 0.
Definition Before (t u : Time) : bool := t <? u.
Definition After (t u : Time) : bool := u <? t.
Definition Add (t : Time) (d : Duration) : Time := t + d.

(** [t.Sub(u)] saturates at the extremes of [Duration]. *)
Definition Sub (t u : Time) : Duration :=
  Z.max (- two63) (Z.min (two63 - 1) (t - u)).

Lemma Sub_exact t u : in_i64 (t - u) -> Sub t u = t - u.
Proof. unfold Sub. go_lia. Qed.

Lemma Sub_pos t u : 0 <= Sub t u <-> u <= t.
Proof. unfold Sub. go_lia. Qed.

Lemma Sub_lt t u d : in_i64 d -> Sub t u < d -> t - u < d.
Proof. unfold Sub. go_lia. Qed.

Lemma Sub_gt t u d : in_i64 d -> d < Sub t u -> d < t - u.
Proof. unfold Sub. go_lia. Qed.

(** ** Errors *)

Inductive goerr : Type :=
  | ErrMsg (msg : string)
  | ErrApp (code : Z) (reason : string)
  | ErrWrap (prefix : string) (cause : goerr).

#[global] Instance goerr_eq_dec : EqDecision goerr.
Proof. solve_decision. Defined.

Inductive res (A : Type) : Type :=
  | Ok (a : A)
  | Err (e : goerr).
Arguments Ok {A} a.
Arguments Err {A} e.

#[global] Instance res_eq_dec {A} `{EqDecision A} : EqDecision (res A).
Proof. solve_decision. Defined.

Definition is_ok {A} (r : res A) : bool := match r with Ok _ => true | Err _ => false end.

(** ** Stable sorting

[sort.SliceStable] with a [less] test: insertion sort, which keeps the order
of elements neither of which is less than the other. *)
Section StableSort.
Context {A : Type} (less : A -> A -> bool).

Fixpoint stable_insert (x : A) (l : list A) : list A :=
  match l with
  | [] => [x]
  | y :: r => if less y x then y :: stable_insert x r else x :: y :: r
  end.

Definition stable_sort (l : list A) : list A := foldr stable_insert [] l.

Lemma stable_insert_perm x l : stable_insert x l ≡ₚ x :: l.
Proof.
  induction l as [|y l IH]; simpl; [done|].
  case_match; [|done]. rewrite IH. apply Permutation_swap.
Qed.

Lemma stable_sort_perm l : stable_sort l ≡ₚ l.
Proof. induction l as [|x l IH]; simpl; [done|]. by rewrite stable_insert_perm, IH. Qed.

Lemma stable_sort_nil l : stable_sort l = [] -> l = [].
Proof. intros H. apply Permutation_nil. by rewrite <- H, stable_sort_perm. Qed.

(** [less] is a strict weak order. *)
Class StrictWeak : Prop := {
  less_asym x y : less x y = true -> less y x = false;
  less_neg_trans x y z : less x y = false -> less y z = false -> less x z = false
}.

Context `{StrictWeak}.

Lemma stable_sort_head l m r :
  stable_sort l = m :: r -> m ∈ l /\ forall y, y ∈ l -> less y m = false.
Proof.
  intros Heq. split.
  - rewrite <- (stable_sort_perm l), Heq. constructor.
  - revert m r Heq. induction l as [|x l IH]; simpl; intros m r Heq; [done|].
    assert (Hrefl : less m m = false).
    { destruct (less m m) eqn:E; [|done]. by rewrite <- (less_asym _ _ E). }
    destruct (stable_sort l) as [|z s] eqn:E; simpl in Heq.
    + apply stable_sort_nil in E as ->. injection Heq as <- <-.
      intros y [->|?%elem_of_nil]%elem_of_cons; done.
    + specialize (IH z s eq_refl). destruct (less z x) eqn:Ez; injection Heq as <- <-.
      * intros y [->|Hy]%elem_of_cons; [by apply less_asym | by apply IH].
      * intros y [->|Hy]%elem_of_cons; [done|]. eapply less_neg_trans; [by apply IH | done].
Qed.

(** The sorted list is ordered: no later element is less than an earlier one. *)
Lemma stable_sort_sorted l : StronglySorted (fun x y => less y x = false) (stable_sort l).
Proof.
  induction l as [|x l IH]; simpl; [constructor|].
  induction IH as [|z s Hs IHs Hz]; simpl; [repeat constructor|].
  destruct (less z x) eqn:E; constructor; auto.
  - rewrite stable_insert_perm. constructor; [by apply less_asym | done].
  - by constructor.
  - constructor; [done|]. eapply Forall_impl; [done|]. simpl. intros y Hy.
    eapply less_neg_trans; done.
Qed.
End StableSort.

(** ** Lexicographic order on integer keys *)

Fixpoint lex_ltb (a b : list Z) : bool :=
  match a, b with
  | x :: a', y :: b' => if x =? y then lex_ltb a' b' else x <? y
  | _, _ => false
  end.

Lemma lex_asym a b : lex_ltb a b = true -> lex_ltb b a = false.
Proof.
  revert b; induction a as [|x a IH]; intros [|y b]; simpl; try done.
  rewrite (Z.eqb_sym y x). destruct (Z.eqb_spec x y); [apply IH|].
  rewrite Z.ltb_lt, Z.ltb_ge. lia.
Qed.

Lemma lex_neg_trans a b c :
  length a = length b -> length b = length c ->
  lex_ltb a b = false -> lex_ltb b c = false -> lex_ltb a c = false.
Proof.
  revert b c; induction a as [|x a IH]; intros [|y b] [|z c]; simpl; try done.
  intros [= Hab] [= Hbc].
  destruct (Z.eqb_spec x y), (Z.eqb_spec y z), (Z.eqb_spec x z); subst;
    rewrite ?Z.ltb_ge; try lia; eauto.
Qed.

(** Two keys of one length, neither of which is below the other, are equal. *)
Lemma lex_total a b :
  length a = length b -> lex_ltb a b = false -> lex_ltb b a = false -> a = b.
Proof.
  revert b; induction a as [|x a IH]; intros [|y b]; simpl; try done.
  intros [= Hl]. rewrite (Z.eqb_sym y x).
  destruct (Z.eqb_spec x y); [|rewrite !Z.ltb_ge; lia].
  intros ??. subst. f_equal. auto.
Qed.

(** ** Pools of concurrent processes

A pool is a list indexed by process number; [total f] adds up what each
process contributes, and changing one process changes only its share. *)
Section Pools.
Context {A : Type} (f : A -> Z).

Fixpoint total (l : list A) : Z :=
  match l with [] => 0 | x :: r => f x + total r end.

Lemma total_app l k : total (l ++ k) = total l + total k.
Proof. induction l as [|x l IH]; simpl; lia. Qed.

Lemma total_snoc l x : total (l ++ [x]) = total l + f x.
Proof. rewrite total_app. simpl. lia. Qed.

Lemma total_update l i x y :
  l !! i = Some x -> total (<[i := y]> l) = total l - f x + f y.
Proof.
  revert i; induction l as [|z l IH]; intros [|i] H; simplify_eq/=; [lia|].
  rewrite (IH _ H). lia.
Qed.

Lemma total_nonneg l : (forall x, 0 <= f x) -> 0 <= total l.
Proof. intros Hf. induction l as [|x l IH]; simpl; [lia|]. specialize (Hf x). lia. Qed.

Lemma total_lookup l i x : (forall y, 0 <= f y) -> l !! i = Some x -> f x <= total l.
Proof.
  intros Hf. revert i; induction l as [|z l IH]; intros [|i] H; simplify_eq/=.
  - pose proof (total_nonneg l Hf). lia.
  - specialize (IH _ H). specialize (Hf z). lia.
Qed.

Lemma total_lookup_two l i j x y :
  (forall y, 0 <= f y) -> i <> j -> l !! i = Some x -> l !! j = Some y -> f x + f y <= total l.
Proof.
  intros Hf. revert i j; induction l as [|z l IH]; intros [|i] [|j] Hij Hi Hj; simplify_eq/=.
  - pose proof (total_lookup l j y Hf Hj). lia.
  - pose proof (total_lookup l i x Hf Hi). lia.
  - assert (Hne : i <> j) by congruence. specialize (IH i j Hne Hi Hj). specialize (Hf z). lia.
Qed.
End Pools.

Lemma total_le {A} (f g : A -> Z) l : Forall (fun x => f x <= g x) l -> total f l <= total g l.
Proof. induction 1; simpl; lia. Qed.
