(* ===== verification/GoText.v ===== *)
(** * Go's [strings] package, as far as the gateway uses it

A Go string is a sequence of bytes: here a [string] of 8-bit [ascii]
characters.  The case mapping and the trimming of Go are table driven outside
ASCII; the tables are the parameter [GoUnicode], which the functions consult
exactly where Go leaves its ASCII fast path. *)
From S2P Require Import Prelude.
From Stdlib Require Import Bool.

(** ** Bytes *)

Definition ascii_byte (a : ascii) : Z := Z.of_N (N_of_ascii a).

Definition is_ascii_byte (a : ascii) : bool := ascii_byte a <? 128.

Fixpoint is_ascii (s : string) : bool :=
  match s with
  | EmptyString => true
  | String a r => is_ascii_byte a && is_ascii r
  end.

(** [len(s)] *)
Definition len (s : string) : Z := Z.of_nat (String.length s).

(** ** Prefixes, suffixes, slices *)

Fixpoint HasPrefix (s p : string) {struct p} : bool :=
  match p, s with
  | EmptyString, _ => true
  | String a p', String b s' => Ascii.eqb a b && HasPrefix s' p'
  | String _ _, EmptyString => false
  end.

(** [s[:n]] and [s[n:]] for an [n] within bounds. *)
Fixpoint str_take (n : nat) (s : string) : string :=
  match n, s with
  | S n', String a r => String a (str_take n' r)
  | _, _ => EmptyString
  end.

Fixpoint str_drop (n : nat) (s : string) : string :=
  match n, s with
  | S n', String _ r => str_drop n' r
  | _, _ => s
  end.

Definition TrimPrefix (s p : string) : string :=
  if HasPrefix s p then str_drop (String.length p) s else s.

Definition HasSuffix (s p : string) : bool :=
  (len p <=? len s) && String.eqb (str_drop (String.length s - String.length p) s) p.

Definition TrimSuffix (s p : string) : string :=
  if HasSuffix s p then str_take (String.length s - String.length p) s else s.

(** [strings.IndexByte]: the index of the first occurrence, or -1. *)
Fixpoint IndexByte (s : string) (c : ascii) : Z :=
  match s with
  | EmptyString => -1
  | String a r =>
      if Ascii.eqb a c then 0
      else let i := IndexByte r c in if i <? 0 then -1 else i + 1
  end.

(** [strings.Contains] *)
Fixpoint Contains (s sub : string) : bool :=
  HasPrefix s sub ||
  match s with
  | EmptyString => false
  | String _ r => Contains r sub
  end.

Lemma HasPrefix_spec s p : HasPrefix s p = true <-> exists r, s = (p +:+ r).
Proof.
  revert s; induction p as [|a p IH]; intros s; simpl.
  - split; [by exists s|done].
  - destruct s as [|b s]; simpl.
    + split; [done | intros [r [=]]].
    + rewrite andb_true_iff, IH, Ascii.eqb_eq. split.
      * intros [-> [r ->]]. by exists r.
      * intros [r [= -> ->]]. eauto.
Qed.

Lemma str_drop_app p r : str_drop (String.length p) (p +:+ r) = r.
Proof. induction p; simpl; auto. Qed.

Lemma TrimPrefix_app p r : TrimPrefix (p +:+ r) p = r.
Proof.
  unfold TrimPrefix. replace (HasPrefix (p +:+ r) p) with true.
  - apply str_drop_app.
  - symmetry. apply HasPrefix_spec. by exists r.
Qed.

Lemma HasPrefix_len s p : HasPrefix s p = true -> len p <= len s.
Proof.
  intros [r ->]%HasPrefix_spec. unfold len.
  induction p; simpl; lia.
Qed.

Lemma HasPrefix_same_len s p q :
  HasPrefix s p = true -> HasPrefix s q = true -> len p = len q -> p = q.
Proof.
  unfold len. revert q s; induction p as [|a p IH]; intros [|b q] [|c s]; simpl;
    try done; try lia.
  rewrite !andb_true_iff, !Ascii.eqb_eq.
  intros [-> ?] [-> ?] ?. f_equal. apply (IH _ s); auto. lia.
Qed.

Lemma HasPrefix_refl s : HasPrefix s s = true.
Proof. induction s; simpl; [done|]. by rewrite Ascii.eqb_refl. Qed.

(** ** Case mapping and trimming *)

Definition to_lower_byte (a : ascii) : ascii :=
  let n := ascii_byte a in
  if (65 <=? n) && (n <=? 90) then ascii_of_N (N_of_ascii a + 32)%N else a.

Fixpoint to_lower_ascii (s : string) : string :=
  match s with
  | EmptyString => EmptyString
  | String a r => String (to_lower_byte a) (to_lower_ascii r)
  end.

(** The ASCII white space of [strings.TrimSpace]: \t \n \v \f \r and space. *)
Definition is_ascii_space (a : ascii) : bool :=
  let n := ascii_byte a in ((9 <=? n) && (n <=? 13)) || (n =? 32).

Fixpoint trim_left_ascii (s : string) : string :=
  match s with
  | EmptyString => EmptyString
  | String a r => if is_ascii_space a then trim_left_ascii r else s
  end.

Fixpoint trim_right_ascii (s : string) : string :=
  match s with
  | EmptyString => EmptyString
  | String a r =>
      let t := trim_right_ascii r in
      if String.eqb t "" && is_ascii_space a then EmptyString else String a t
  end.

Definition trim_ascii (s : string) : string := trim_right_ascii (trim_left_ascii s).

(** The Unicode tables: what [strings.ToLower], [strings.TrimSpace] and
[strings.EqualFold] do on a string with a byte outside ASCII. *)
Class GoUnicode : Type := {
  lower_slow : string -> string;
  trim_slow : string -> string;
  fold_slow : string -> string -> bool
}.

Definition ToLower `{GoUnicode} (s : string) : string :=
  if is_ascii s then to_lower_ascii s else lower_slow s.

Definition TrimSpace `{GoUnicode} (s : string) : string :=
  if is_ascii s then trim_ascii s else trim_slow s.

Definition EqualFold `{GoUnicode} (s t : string) : bool :=
  if is_ascii s && is_ascii t then String.eqb (to_lower_ascii s) (to_lower_ascii t)
  else fold_slow s t.

Definition to_upper_byte (a : ascii) : ascii :=
  let n := ascii_byte a in
  if (97 <=? n) && (n <=? 122) then ascii_of_N (N_of_ascii a - 32)%N else a.

Fixpoint to_upper_ascii (s : string) : string :=
  match s with
  | EmptyString => EmptyString
  | String a r => String (to_upper_byte a) (to_upper_ascii r)
  end.

(** What [strings.ToUpper] does on a string with a byte outside ASCII. *)
Class GoUpper : Type := { upper_slow : string -> string }.

Definition ToUpper `{GoUpper} (s : string) : string :=
  if is_ascii s then to_upper_ascii s else upper_slow s.

(** The documented facts about the tables that the gateway relies on: the
result of trimming has no white space left at its ends, a string that is not
empty is not lowered to the empty one, and lowering twice is lowering once. *)
Class GoUnicodeLaws `{GoUnicode} : Prop := {
  trim_slow_idem s : is_ascii s = false -> TrimSpace (trim_slow s) = trim_slow s;
  lower_slow_idem s : is_ascii s = false -> ToLower (lower_slow s) = lower_slow s;
  lower_slow_nonempty s : is_ascii s = false -> lower_slow s <> ""%string
}.

Lemma is_ascii_trim_left s : is_ascii s = true -> is_ascii (trim_left_ascii s) = true.
Proof. induction s as [|a s IH]; simpl; [done|]. intros [? ?]%andb_true_iff. case_match; simpl; auto. by rewrite H. Qed.

Lemma is_ascii_trim_right s : is_ascii s = true -> is_ascii (trim_right_ascii s) = true.
Proof.
  induction s as [|a s IH]; simpl; [done|]. intros [Ha Hs]%andb_true_iff.
  case_match; simpl; [done|]. by rewrite Ha, IH.
Qed.

Lemma is_ascii_trim s : is_ascii s = true -> is_ascii (trim_ascii s) = true.
Proof. intros. by apply is_ascii_trim_right, is_ascii_trim_left. Qed.

Lemma trim_right_idem s : trim_right_ascii (trim_right_ascii s) = trim_right_ascii s.
Proof.
  induction s as [|a s IH]; simpl; [done|].
  destruct (String.eqb (trim_right_ascii s) "" && is_ascii_space a) eqn:E; simpl; [done|].
  by rewrite IH, E.
Qed.

(** A string without leading white space keeps that property when its
trailing white space is removed. *)
Lemma trim_left_right s :
  trim_left_ascii s = s -> trim_left_ascii (trim_right_ascii s) = trim_right_ascii s.
Proof.
  destruct s as [|a s]; simpl; [done|].
  destruct (is_ascii_space a) eqn:Ea; [|rewrite andb_false_r; simpl; by rewrite Ea].
  intros Heq. exfalso.
  assert (Hlen : forall t, (String.length (trim_left_ascii t) <= String.length t)%nat).
  { induction t as [|b t IH]; simpl; [lia|]. case_match; simpl; lia. }
  specialize (Hlen s). rewrite Heq in Hlen. simpl in Hlen. lia.
Qed.

Lemma trim_left_idem s : trim_left_ascii (trim_left_ascii s) = trim_left_ascii s.
Proof. induction s as [|a s IH]; simpl; [done|]. destruct (is_ascii_space a) eqn:E; simpl; [done|]. by rewrite E. Qed.

Lemma trim_ascii_idem s : trim_ascii (trim_ascii s) = trim_ascii s.
Proof.
  unfold trim_ascii. rewrite trim_left_right by apply trim_left_idem.
  apply trim_right_idem.
Qed.

Lemma to_lower_byte_idem a : to_lower_byte (to_lower_byte a) = to_lower_byte a.
Proof. destruct a as [[] [] [] [] [] [] [] []]; reflexivity. Qed.

Lemma to_lower_byte_ascii a : is_ascii_byte a = true -> is_ascii_byte (to_lower_byte a) = true.
Proof. destruct a as [[] [] [] [] [] [] [] []]; done. Qed.

Lemma to_lower_ascii_idem s : to_lower_ascii (to_lower_ascii s) = to_lower_ascii s.
Proof. induction s; simpl; [done|]. by rewrite to_lower_byte_idem, IHs. Qed.

Lemma is_ascii_to_lower s : is_ascii s = true -> is_ascii (to_lower_ascii s) = true.
Proof.
  induction s; simpl; [done|]. intros [? ?]%andb_true_iff.
  by rewrite to_lower_byte_ascii, IHs.
Qed.

Lemma TrimSpace_empty `{GoUnicode} : TrimSpace "" = ""%string.
Proof. done. Qed.

(** *** Trimming behind a prefix *)

Lemma trim_right_cons a t :
  trim_right_ascii t <> ""%string \/ is_ascii_space a = false ->
  trim_right_ascii (String a t) = String a (trim_right_ascii t).
Proof.
  intros Hor. cbn [trim_right_ascii]. destruct (String.eqb_spec (trim_right_ascii t) "") as [E|Hne].
  - destruct Hor as [|Ha]; [done|]. by rewrite Ha, E.
  - done.
Qed.

Lemma trim_right_app p s :
  trim_right_ascii p = p -> p <> ""%string -> trim_right_ascii (p +:+ s) = p +:+ trim_right_ascii s.
Proof.
  induction p as [|a p IH]; [done|]. intros Hp _. change (String a p +:+ s) with (String a (p +:+ s)).
  assert (Hap : trim_right_ascii p = p /\ (p = "" -> is_ascii_space a = false)).
  { cbn [trim_right_ascii] in Hp. destruct (String.eqb_spec (trim_right_ascii p) "") as [E|E].
    - destruct (is_ascii_space a); [done|]. by injection Hp as Hp.
    - injection Hp as Hp. by rewrite Hp in E. }
  destruct Hap as [Hp' Ha]. destruct p as [|b p].
  - change ("" +:+ s) with s. rewrite trim_right_cons by auto. done.
  - rewrite trim_right_cons; [by rewrite IH|]. left. by rewrite IH.
Qed.

Lemma is_ascii_app s t : is_ascii (s +:+ t) = is_ascii s && is_ascii t.
Proof. induction s as [|a s IH]; [done|]. change (String a s +:+ t) with (String a (s +:+ t)). cbn [is_ascii]. by rewrite IH, andb_assoc. Qed.

(** An id that has been trimmed stays as it is behind a prefix. *)
Lemma trimmed_id `{GoUnicode} p b :
  is_ascii b = true -> is_ascii p = true -> trim_ascii p = p -> p <> ""%string ->
  TrimSpace (p +:+ TrimSpace b) = p +:+ TrimSpace b.
Proof.
  intros Hb Hp Htp Hne. unfold TrimSpace at 2 3. rewrite Hb. unfold TrimSpace.
  rewrite is_ascii_app, Hp, is_ascii_trim by done. unfold trim_ascii at 1.
  assert (Hl : trim_left_ascii (p +:+ trim_ascii b) = p +:+ trim_ascii b /\ trim_right_ascii p = p).
  { destruct p as [|a p]; [done|]. unfold trim_ascii in Htp. cbn [trim_left_ascii] in Htp.
    destruct (is_ascii_space a) eqn:Ea.
    2: { split; [|done]. change (String a p +:+ trim_ascii b) with (String a (p +:+ trim_ascii b)).
         cbn [trim_left_ascii]. by rewrite Ea. }
    exfalso. assert (Hlen : forall t, (String.length (trim_right_ascii t) <= String.length t)%nat).
    { induction t as [|c t IH]; cbn [trim_right_ascii]; [lia|]. case_match; cbn; lia. }
    assert (Hlen2 : forall t, (String.length (trim_left_ascii t) <= String.length t)%nat).
    { induction t as [|c t IH]; cbn [trim_left_ascii]; [lia|]. case_match; cbn; lia. }
    specialize (Hlen (trim_left_ascii p)). specialize (Hlen2 p). rewrite Htp in Hlen. cbn in Hlen. lia. }
  destruct Hl as [-> Hr]. rewrite trim_right_app by done. f_equal. unfold trim_ascii. apply trim_right_idem.
Qed.

Section Laws.
Context `{GoUnicodeLaws}.

Lemma TrimSpace_idem s : TrimSpace (TrimSpace s) = TrimSpace s.
Proof.
  unfold TrimSpace at 2 3. destruct (is_ascii s) eqn:E; [|by apply trim_slow_idem].
  unfold TrimSpace. by rewrite is_ascii_trim, trim_ascii_idem.
Qed.

Lemma ToLower_idem s : ToLower (ToLower s) = ToLower s.
Proof.
  unfold ToLower at 2 3. destruct (is_ascii s) eqn:E; [|by apply lower_slow_idem].
  unfold ToLower. by rewrite is_ascii_to_lower, to_lower_ascii_idem.
Qed.

Lemma ToLower_nonempty s : s <> ""%string -> ToLower s <> ""%string.
Proof.
  unfold ToLower. destruct (is_ascii s) eqn:E; [|by intros _; apply lower_slow_nonempty].
  by destruct s.
Qed.
End Laws.

#[export] Hint Rewrite @TrimSpace_idem @ToLower_idem : go.

(** The tables restricted to ASCII: every other byte is left alone, except that
white space around the string is still removed.  Used to evaluate the model
on concrete inputs. *)
#[export] Instance AsciiUnicode : GoUnicode := {
  lower_slow := to_lower_ascii;
  trim_slow := trim_ascii;
  fold_slow := fun s t => String.eqb (to_lower_ascii s) (to_lower_ascii t)
}.

#[export] Instance AsciiUnicodeLaws : @GoUnicodeLaws AsciiUnicode.
Proof.
  split; intros s Hs.
  - unfold TrimSpace. simpl. rewrite trim_ascii_idem. by case_match.
  - unfold ToLower. simpl. rewrite to_lower_ascii_idem. by case_match.
  - by destruct s.
Qed.

(** ** UTF-8

[utf8.ValidString]: after a first byte, the ranges the next bytes must lie in. *)
Definition utf8_cont : Z * Z := (128, 191).

Definition utf8_first (b : Z) : option (list (Z * Z)) :=
  if b <? 128 then Some []
  else if b <? 194 then None
  else if b <? 224 then Some [utf8_cont]
  else if b =? 224 then Some [(160, 191); utf8_cont]
  else if b =? 237 then Some [(128, 159); utf8_cont]
  else if b <? 240 then Some [utf8_cont; utf8_cont]
  else if b =? 240 then Some [(144, 191); utf8_cont; utf8_cont]
  else if b <? 244 then Some [utf8_cont; utf8_cont; utf8_cont]
  else if b =? 244 then Some [(128, 143); utf8_cont; utf8_cont]
  else None.

Fixpoint utf8_run (pending : list (Z * Z)) (s : string) : bool :=
  match s with
  | EmptyString => match pending with [] => true | _ => false end
  | String a s' =>
      let b := ascii_byte a in
      match pending with
      | [] => match utf8_first b with Some p => utf8_run p s' | None => false end
      | (lo, hi) :: p => (lo <=? b) && (b <=? hi) && utf8_run p s'
      end
  end.

Definition ValidString (s : string) : bool := utf8_run [] s.

Lemma str_take_length n s : (n <= String.length s)%nat -> String.length (str_take n s) = n.
Proof. revert s; induction n as [|n IH]; intros [|a s]; simpl; intros; try lia. rewrite IH; lia. Qed.

Lemma str_take_all n s : (String.length s <= n)%nat -> str_take n s = s.
Proof. revert s; induction n as [|n IH]; intros [|a s]; simpl; intros; try done; try lia. rewrite IH; [done|lia]. Qed.

Lemma str_take_take n m s : (n <= m)%nat -> str_take n (str_take m s) = str_take n s.
Proof.
  revert m s; induction n as [|n IH]; intros [|m] [|a s]; simpl; intros; try done; try lia.
  rewrite IH; [done|lia].
Qed.

Lemma HasPrefix_take n s : HasPrefix s (str_take n s) = true.
Proof.
  revert s; induction n as [|n IH]; intros [|a s]; simpl; try done.
  by rewrite IH, Ascii.eqb_refl.
Qed.
