(* ===== verification/Composite.v ===== *)
(** * Composite groups: model routing

[service/composite_platform.go], [service/composite_model_route.go],
[service/composite_route_resolver.go] and the route constructor of
[service/admin_group.go]: how a request made through a composite group is
given a concrete provider.  The repository and the account catalog are
interfaces of the Go code; here they are the function fields of
[CompositeRouteResolver]. *)
From S2P Require Import Prelude GoText.
From Stdlib Require Import Bool.

Local Open Scope string_scope.
Local Open Scope Z_scope.

(** ** Platforms *)

Definition PlatformAnthropic := "anthropic".
Definition PlatformOpenAI := "openai".
Definition PlatformGemini := "gemini".
Definition PlatformAntigravity := "antigravity".
Definition PlatformGrok := "grok".
Definition PlatformKimi := "kimi".
Definition PlatformZhipu := "zhipu".
Definition PlatformDeepseek := "deepseek".
Definition PlatformMiniMax := "minimax".
Definition PlatformOpenCodeGo := "opencode_go".
Definition PlatformWorkbuddy := "workbuddy".
Definition PlatformQoder := "qoder".
Definition PlatformTrae := "trae".
Definition PlatformComposite := "composite".

(** [s] is one of the constants of a Go [case] list. *)
Definition one_of (s : string) (l : list string) : bool := existsb (String.eqb s) l.

Definition any_prefix (s : string) (l : list string) : bool := existsb (HasPrefix s) l.

Definition isConcreteRequestPlatform (platform : string) : bool :=
  one_of platform
    [PlatformAnthropic; PlatformOpenAI; PlatformGemini; PlatformAntigravity; PlatformGrok;
     PlatformKimi; PlatformZhipu; PlatformDeepseek; PlatformMiniMax; PlatformOpenCodeGo;
     PlatformWorkbuddy; PlatformQoder; PlatformTrae].

Definition hasOpenAISeriesPrefix (model : string) : bool :=
  existsb (fun prefix => String.eqb model prefix || HasPrefix model (prefix +:+ "-"))
    ["o1"; "o3"; "o4"; "o5"].

(** The [switch provider] of [DetectModelPlatform]. *)
Definition provider_switch (provider : string) : option string :=
  if one_of provider ["anthropic"; "claude"] then Some PlatformAnthropic
  else if one_of provider ["openai"; "chatgpt"] then Some PlatformOpenAI
  else if one_of provider ["google"; "google-ai-studio"; "gemini"] then Some PlatformGemini
  else if one_of provider ["xai"; "x-ai"; "grok"] then Some PlatformGrok
  else if one_of provider ["kimi"; "moonshot"] then Some PlatformKimi
  else if one_of provider ["zhipu"; "glm"; "bigmodel"] then Some PlatformZhipu
  else if one_of provider ["deepseek"] then Some PlatformDeepseek
  else if one_of provider ["minimax"] then Some PlatformMiniMax
  else None.

(** The final [switch] of [DetectModelPlatform], on the normalized model. *)
Definition model_switch (normalized : string) : option string :=
  if any_prefix normalized ["anthropic.claude-"; "claude-"] then Some PlatformAnthropic
  else if any_prefix normalized
            ["gpt-"; "chatgpt-"; "codex-"; "text-embedding-"; "text-moderation-";
             "omni-moderation-"; "dall-e-"; "gpt-image-"; "tts-"; "whisper-"]
          || hasOpenAISeriesPrefix normalized then Some PlatformOpenAI
  else if any_prefix normalized ["gemini-"; "learnlm-"] then Some PlatformGemini
  else if String.eqb normalized "grok" || HasPrefix normalized "grok-" then Some PlatformGrok
  else if one_of normalized ["k3"; "k3-256k"] || any_prefix normalized ["kimi-"; "moonshot-"]
       then Some PlatformKimi
  else if HasPrefix normalized "glm-" then Some PlatformZhipu
  else if HasPrefix normalized "deepseek-" then Some PlatformDeepseek
  else if any_prefix normalized ["minimax-"; "abab5"; "abab6"; "abab7"] then Some PlatformMiniMax
  else None.

Section Composite.
Context `{GoUnicode}.

(** [DetectModelPlatform]: [None] is the Go result [("", false)]. *)
Definition DetectModelPlatform (model : string) : option string :=
  let normalized := ToLower (TrimSpace model) in
  if String.eqb normalized "" then None
  else
    let normalized := TrimPrefix normalized "models/" in
    let slash := IndexByte normalized "/" in
    if 0 <? slash then
      let provider := TrimSpace (str_take (Z.to_nat slash) normalized) in
      let rest := TrimSpace (str_drop (Z.to_nat (slash + 1)) normalized) in
      match provider_switch provider with
      | Some p => Some p
      | None =>
          model_switch (if String.eqb rest "" then normalized else TrimPrefix rest "models/")
      end
    else model_switch normalized.

(** ** Routes, decisions and inputs *)

Definition CompositeRouteMatchExact := "exact".
Definition CompositeRouteMatchPrefix := "prefix".
Definition CompositeRouteEndpointAny := "any".
Definition CompositeRouteSourceExplicit := "route".
Definition CompositeRouteSourceDetector := "detector".
Definition CompositeRouteSourceAccount := "account_model".

Definition composite_endpoints : list string :=
  ["messages"; "count_tokens"; "responses"; "chat_completions"; "embeddings"; "images"; "gemini"].

Record CompositeModelRoute : Type := mkRoute {
  ID : Z;
  GroupID : Z;
  PublicModel : string;
  MatchType : string;
  TargetPlatform : string;
  UpstreamModel : string;
  Endpoint : string;
  Priority : Z;
  Enabled : bool;
  Notes : string
}.

Record CompositeRouteInput : Type := mkInput {
  in_PublicModel : string;
  in_MatchType : string;
  in_TargetPlatform : string;
  in_UpstreamModel : string;
  in_Endpoint : string;
  in_Priority : Z;
  in_Enabled : bool;
  in_Notes : string
}.

Record CompositeRouteDecision : Type := mkDecision {
  Matched : bool;
  Source : string;
  d_GroupID : Z;
  d_PublicModel : string;
  d_TargetPlatform : string;
  d_UpstreamModel : string;
  d_Endpoint : string;
  Route : option CompositeModelRoute;
  Reason : string
}.

Record CompositeModelOwnership : Type := mkOwnership {
  o_TargetPlatform : string;
  o_Matched : bool;
  o_Ambiguous : bool
}.

Definition emptyDecision : CompositeRouteDecision :=
  mkDecision false "" 0 "" "" "" "" None "".

Definition normalizeCompositeRouteEndpoint (endpoint : string) : string :=
  let endpoint := ToLower (TrimSpace endpoint) in
  if String.eqb endpoint "" then CompositeRouteEndpointAny
  else if one_of endpoint composite_endpoints then endpoint
  else CompositeRouteEndpointAny.

Definition normalizeCompositeRouteMatchType (matchType : string) : string :=
  if String.eqb (ToLower (TrimSpace matchType)) CompositeRouteMatchPrefix
  then CompositeRouteMatchPrefix else CompositeRouteMatchExact.

Definition normalizeCompositeRouteInput (input : CompositeRouteInput) : CompositeRouteInput :=
  let publicModel := TrimSpace (in_PublicModel input) in
  let matchType := normalizeCompositeRouteMatchType (in_MatchType input) in
  let upstream := TrimSpace (in_UpstreamModel input) in
  mkInput publicModel matchType
    (TrimSpace (in_TargetPlatform input))
    (if String.eqb upstream "" && String.eqb matchType CompositeRouteMatchExact
     then publicModel else upstream)
    (normalizeCompositeRouteEndpoint (in_Endpoint input))
    (in_Priority input) (in_Enabled input)
    (TrimSpace (in_Notes input)).

(** [compositeRouteFromInput] of [admin_group.go]; the row identifier is given
by the database on insertion, here the zero value of the field. *)
Definition compositeRouteFromInput (groupID : Z) (input : CompositeRouteInput)
  : res CompositeModelRoute :=
  let input := normalizeCompositeRouteInput input in
  if String.eqb (in_PublicModel input) "" then Err (ErrMsg "public_model is required")
  else if negb (isConcreteRequestPlatform (in_TargetPlatform input))
  then Err (ErrMsg "target_platform must be a concrete provider")
  else Ok (mkRoute 0 groupID (in_PublicModel input) (in_MatchType input)
             (in_TargetPlatform input) (in_UpstreamModel input) (in_Endpoint input)
             (if in_Priority input =? 0 then 100 else in_Priority input)
             (in_Enabled input) (in_Notes input)).

(** ** Choosing among explicit routes *)

Record candidate : Type := mkCandidate {
  route : CompositeModelRoute;
  matchStrength : Z;
  endpointWeight : Z;
  prefixLen : Z
}.

Definition with_Endpoint (e : string) (r : CompositeModelRoute) : CompositeModelRoute :=
  mkRoute (ID r) (GroupID r) (PublicModel r) (MatchType r) (TargetPlatform r)
    (UpstreamModel r) e (Priority r) (Enabled r) (Notes r).

Definition with_MatchType (m : string) (r : CompositeModelRoute) : CompositeModelRoute :=
  mkRoute (ID r) (GroupID r) (PublicModel r) m (TargetPlatform r)
    (UpstreamModel r) (Endpoint r) (Priority r) (Enabled r) (Notes r).

(** The body of the candidate loop of [matchCompositeRoute]: [None] is a
[continue]. *)
Definition route_candidate (model endpoint : string) (r : CompositeModelRoute)
  : option candidate :=
  let r := with_Endpoint (normalizeCompositeRouteEndpoint (Endpoint r)) r in
  if negb (String.eqb (Endpoint r) endpoint) &&
     negb (String.eqb (Endpoint r) CompositeRouteEndpointAny) then None
  else
    let r := with_MatchType (normalizeCompositeRouteMatchType (MatchType r)) r in
    let publicModel := TrimSpace (PublicModel r) in
    if String.eqb publicModel "" then None
    else
      let weight := if String.eqb (Endpoint r) endpoint then 1 else 0 in
      if String.eqb (MatchType r) CompositeRouteMatchExact then
        if negb (String.eqb publicModel model) then None
        else Some (mkCandidate r 2 weight (len publicModel))
      else if String.eqb (MatchType r) CompositeRouteMatchPrefix then
        if negb (HasPrefix model publicModel) then None
        else Some (mkCandidate r 1 weight (len publicModel))
      else None.

(** The comparison handed to [sort.SliceStable]. *)
Definition candidate_less (a b : candidate) : bool :=
  if negb (matchStrength a =? matchStrength b) then matchStrength b <? matchStrength a
  else if negb (endpointWeight a =? endpointWeight b) then endpointWeight b <? endpointWeight a
  else if negb (prefixLen a =? prefixLen b) then prefixLen b <? prefixLen a
  else if negb (Priority (route a) =? Priority (route b))
  then Priority (route a) <? Priority (route b)
  else ID (route a) <? ID (route b).

Definition matchCompositeRoute (routes : list CompositeModelRoute) (model endpoint : string)
  : option CompositeModelRoute :=
  match stable_sort candidate_less (omap (route_candidate model endpoint) routes) with
  | [] => None
  | c :: _ => Some (route c)
  end.

(** ** The resolver *)

Record CompositeRouteResolver : Type := mkResolver {
  repo_ListByGroup : option (Z -> bool -> res (list CompositeModelRoute));
  modelOwnershipResolver : option (Z -> string -> res CompositeModelOwnership)
}.

Definition decided (source : string) (groupID : Z) (model platform upstream endpoint : string)
    (r : option CompositeModelRoute) : CompositeRouteDecision :=
  mkDecision true source groupID model platform upstream endpoint r "".

Definition undecided (groupID : Z) (model endpoint reason : string) : CompositeRouteDecision :=
  mkDecision false "" groupID model "" "" endpoint None reason.

(** The built-in detector, last resort of [Resolve]. *)
Definition resolve_detector (groupID : Z) (model endpoint : string)
  : CompositeRouteDecision * option goerr :=
  match DetectModelPlatform model with
  | Some platform =>
      (decided CompositeRouteSourceDetector groupID model platform model endpoint None, None)
  | None =>
      (undecided groupID model endpoint "no explicit route or built-in detector match", None)
  end.

(** The account catalog; [resolve_detector] when it has nothing to say. *)
Definition resolve_ownership (r : CompositeRouteResolver) (groupID : Z) (model endpoint : string)
  : CompositeRouteDecision * option goerr :=
  match modelOwnershipResolver r with
  | Some resolver =>
      if 0 <? groupID then
        match resolver groupID model with
        | Err e =>
            match DetectModelPlatform model with
            | None =>
                (undecided groupID model endpoint "",
                 Some (ErrWrap "resolve account model ownership" e))
            | Some _ => resolve_detector groupID model endpoint
            end
        | Ok ownership =>
            if o_Ambiguous ownership then
              (undecided groupID model endpoint
                 "model is exposed by multiple provider platforms", None)
            else if o_Matched ownership then
              let platform := TrimSpace (o_TargetPlatform ownership) in
              if negb (isConcreteRequestPlatform platform) then
                (undecided groupID model endpoint
                   "account model ownership has no concrete target platform", None)
              else
                (decided CompositeRouteSourceAccount groupID model platform model endpoint None,
                 None)
            else resolve_detector groupID model endpoint
        end
      else resolve_detector groupID model endpoint
  | None => resolve_detector groupID model endpoint
  end.

(** [Resolve] of a resolver pointer that may be nil. *)
Definition Resolve (r : option CompositeRouteResolver) (groupID : Z) (model endpoint : string)
  : CompositeRouteDecision * option goerr :=
  let model := TrimSpace model in
  let endpoint := normalizeCompositeRouteEndpoint endpoint in
  if String.eqb model "" then (undecided groupID model endpoint "model is required", None)
  else
    match r with
    | None => resolve_detector groupID model endpoint
    | Some r =>
        match repo_ListByGroup r with
        | Some list_by_group =>
            if 0 <? groupID then
              match list_by_group groupID false with
              | Err e =>
                  (undecided groupID model endpoint "", Some (ErrWrap "list composite routes" e))
              | Ok routes =>
                  match matchCompositeRoute routes model endpoint with
                  | Some route =>
                      let upstream := TrimSpace (UpstreamModel route) in
                      (decided CompositeRouteSourceExplicit groupID model (TargetPlatform route)
                         (if String.eqb upstream "" then model else upstream) endpoint
                         (Some route), None)
                  | None => resolve_ownership r groupID model endpoint
                  end
              end
            else resolve_ownership r groupID model endpoint
        | None => resolve_ownership r groupID model endpoint
        end
    end.

(** ** The request context

A context is nil ([None]) or a map from keys to strings (only the string
valued keys of the routing code are modelled). *)

Definition Ctx : Type := option (gmap string string).

Definition ResolvedTargetPlatform := "ctx_resolved_target_platform".
Definition ResolvedUpstreamModel := "ctx_resolved_upstream_model".
Definition RequestedPublicModel := "ctx_requested_public_model".
Definition CompositeRouteSource := "ctx_composite_route_source".

Definition WithValue (ctx : Ctx) (key value : string) : Ctx := insert key value <$> ctx.

(** The three readers share one body: a nil context, a missing key and a blank
value all read as absent. *)
Definition StringFromContext (key : string) (ctx : Ctx) : option string :=
  m ← ctx;
  v ← m !! key;
  if String.eqb (TrimSpace v) "" then None else Some (TrimSpace v).

Definition ResolvedTargetPlatformFromContext := StringFromContext ResolvedTargetPlatform.
Definition ResolvedUpstreamModelFromContext := StringFromContext ResolvedUpstreamModel.
Definition RequestedPublicModelFromContext := StringFromContext RequestedPublicModel.
Definition CompositeRouteSourceFromContext := StringFromContext CompositeRouteSource.

Definition WithResolvedTargetPlatform (ctx : Ctx) (platform : string) : Ctx :=
  let platform := TrimSpace platform in
  if String.eqb platform "" then ctx else WithValue ctx ResolvedTargetPlatform platform.

Definition WithNonBlank (ctx : Ctx) (key value : string) : Ctx :=
  let value := TrimSpace value in
  if String.eqb value "" then ctx else WithValue ctx key value.

Definition WithCompositeRouteDecision (ctx : Ctx) (decision : CompositeRouteDecision) : Ctx :=
  if negb (Matched decision) then ctx
  else
    let ctx := WithResolvedTargetPlatform ctx (d_TargetPlatform decision) in
    let ctx := WithNonBlank ctx ResolvedUpstreamModel (d_UpstreamModel decision) in
    let ctx := WithNonBlank ctx RequestedPublicModel (d_PublicModel decision) in
    WithNonBlank ctx CompositeRouteSource (Source decision).

(** A group as far as routing looks at it. *)
Record RouteGroup : Type := mkGroup { g_ID : Z; g_Platform : string }.

Definition resolveCompositeRouteDecision (resolver : option CompositeRouteResolver) (ctx : Ctx)
    (group : option RouteGroup) (requestedModel endpoint : string)
  : CompositeRouteDecision * bool * option goerr :=
  match group with
  | None => (emptyDecision, false, None)
  | Some g =>
      if negb (String.eqb (g_Platform g) PlatformComposite) then (emptyDecision, false, None)
      else
        match ResolvedTargetPlatformFromContext ctx with
        | Some platform =>
            let upstreamModel := default requestedModel (ResolvedUpstreamModelFromContext ctx) in
            let source :=
              default CompositeRouteSourceDetector (CompositeRouteSourceFromContext ctx) in
            (decided source (g_ID g) requestedModel platform upstreamModel
               (normalizeCompositeRouteEndpoint endpoint) None, true, None)
        | None =>
            match Resolve resolver (g_ID g) requestedModel endpoint with
            | (decision, Some e) => (decision, false, Some e)
            | (decision, None) => (decision, Matched decision, None)
            end
        end
  end.
End Composite.

(** ** What the routing documentation promises

[docs/COMPOSITE_GROUPS.md]: exact matches beat prefix matches, then endpoint
specific routes beat [any], then longer prefixes, then lower priority, then
lower identifier.  [route_key] orders routes by exactly that list. *)
Section RoutingSpec.
Context `{GoUnicode}.

Definition is_exact (r : CompositeModelRoute) : bool :=
  String.eqb (normalizeCompositeRouteMatchType (MatchType r)) CompositeRouteMatchExact.

Definition applicable (model endpoint : string) (r : CompositeModelRoute) : Prop :=
  let e := normalizeCompositeRouteEndpoint (Endpoint r) in
  let p := TrimSpace (PublicModel r) in
  (e = endpoint \/ e = CompositeRouteEndpointAny) /\ p <> "" /\
  (if is_exact r then p = model else HasPrefix model p = true).

Definition route_key (endpoint : string) (r : CompositeModelRoute) : list Z :=
  [ if is_exact r then 0 else 1;
    if String.eqb (normalizeCompositeRouteEndpoint (Endpoint r)) endpoint then 0 else 1;
    - len (TrimSpace (PublicModel r));
    Priority r;
    ID r ].

(** The route as the matcher hands it on: endpoint and match type normalized. *)
Definition normalized_route (r : CompositeModelRoute) : CompositeModelRoute :=
  with_MatchType (normalizeCompositeRouteMatchType (MatchType r))
    (with_Endpoint (normalizeCompositeRouteEndpoint (Endpoint r)) r).

Definition candidate_of (endpoint : string) (r : CompositeModelRoute) : candidate :=
  mkCandidate (normalized_route r)
    (if is_exact r then 2 else 1)
    (if String.eqb (normalizeCompositeRouteEndpoint (Endpoint r)) endpoint then 1 else 0)
    (len (TrimSpace (PublicModel r))).

Lemma match_type_cases m :
  normalizeCompositeRouteMatchType m = CompositeRouteMatchExact \/
  normalizeCompositeRouteMatchType m = CompositeRouteMatchPrefix.
Proof. unfold normalizeCompositeRouteMatchType. case_match; auto. Qed.

Lemma route_candidate_spec model endpoint r c :
  route_candidate model endpoint r = Some c <->
  applicable model endpoint r /\ c = candidate_of endpoint r.
Proof.
  unfold route_candidate, applicable, candidate_of, normalized_route, is_exact. simpl.
  set (e := normalizeCompositeRouteEndpoint (Endpoint r)).
  set (p := TrimSpace (PublicModel r)).
  destruct (String.eqb_spec e endpoint) as [He|He]; simpl;
    [|destruct (String.eqb_spec e CompositeRouteEndpointAny) as [Ha|Ha]; simpl;
      [|split; [done|intros [[[?|?] _] _]; done]]];
  (destruct (String.eqb_spec p "") as [Hp|Hp]; [split; [done|intros [[_ [? _]] _]; done]|];
   destruct (match_type_cases (MatchType r)) as [-> | ->]; simpl;
   [destruct (String.eqb_spec p model)|destruct (HasPrefix model p) eqn:?]; simpl;
   [split; [intros [= <-]; auto | intros [_ ->]; done]
   |split; [done | intros [[_ [_ ?]] _]; done]
   |split; [intros [= <-]; auto | intros [_ ->]; done]
   |split; [done | intros [[_ [_ ?]] _]; done]]).
Qed.

Definition candidate_key (c : candidate) : list Z :=
  [- matchStrength c; - endpointWeight c; - prefixLen c; Priority (route c); ID (route c)].

Lemma candidate_less_lex a b :
  candidate_less a b = lex_ltb (candidate_key a) (candidate_key b).
Proof.
  unfold candidate_less, candidate_key. simpl.
  repeat match goal with
    | |- context [if negb (?x =? ?y) then _ else _] =>
        destruct (Z.eqb_spec x y) as [->|]; simpl;
        [rewrite ?Z.eqb_refl|]
    end;
  repeat case_Z; try lia; try done.
Qed.

#[local] Instance candidate_less_weak : StrictWeak candidate_less.
Proof.
  split; intros *; rewrite !candidate_less_lex; [apply lex_asym | by apply lex_neg_trans].
Qed.

Lemma candidate_less_key endpoint a b :
  candidate_less (candidate_of endpoint a) (candidate_of endpoint b) =
  lex_ltb (route_key endpoint a) (route_key endpoint b).
Proof.
  rewrite candidate_less_lex. unfold candidate_key, route_key, candidate_of. simpl.
  by destruct (is_exact a), (is_exact b), (String.eqb _ endpoint), (String.eqb _ endpoint).
Qed.

Lemma elem_of_candidates model endpoint (routes : list CompositeModelRoute) c :
  c ∈ omap (route_candidate model endpoint) routes <->
  exists r, r ∈ routes /\ applicable model endpoint r /\ c = candidate_of endpoint r.
Proof.
  rewrite list_elem_of_omap. split; intros (r & Hr & Hc); exists r; split; auto;
    by apply route_candidate_spec.
Qed.

(** The winner of the matcher: an applicable route that no applicable route
precedes in the documented order. *)
Lemma match_winner routes model endpoint w :
  matchCompositeRoute routes model endpoint = Some w ->
  exists r, r ∈ routes /\ applicable model endpoint r /\ w = normalized_route r /\
    forall r', r' ∈ routes -> applicable model endpoint r' ->
      lex_ltb (route_key endpoint r') (route_key endpoint r) = false.
Proof.
  unfold matchCompositeRoute. destruct (stable_sort _ _) as [|c l] eqn:Hs; [done|].
  intros [= <-].
  destruct (stable_sort_head candidate_less _ _ _ Hs) as [Hin Hbest].
  apply elem_of_candidates in Hin as (r & Hr & Ha & ->).
  exists r. split_and!; auto. intros r' Hr' Ha'.
  rewrite <- candidate_less_key. apply Hbest, elem_of_candidates. eauto.
Qed.

Lemma match_none routes model endpoint :
  matchCompositeRoute routes model endpoint = None <->
  forall r, r ∈ routes -> ~ applicable model endpoint r.
Proof.
  unfold matchCompositeRoute. destruct (stable_sort _ _) as [|c l] eqn:Hs.
  - split; [|done]. intros _ r Hr Ha.
    apply stable_sort_nil in Hs.
    assert (Hin : candidate_of endpoint r ∈ omap (route_candidate model endpoint) routes)
      by (apply elem_of_candidates; eauto).
    rewrite Hs in Hin. by apply elem_of_nil in Hin.
  - split; [done|]. intros Hno. exfalso.
    destruct (stable_sort_head candidate_less _ _ _ Hs) as [Hin _].
    apply elem_of_candidates in Hin as (r & Hr & Ha & _). by apply (Hno r Hr).
Qed.
End RoutingSpec.

(** ** Theorems *)
Section RoutingTheorems.
Context `{GoUnicode}.

(** [matchCompositeRoute] returns a route exactly when some route applies
to the model and endpoint, and the route it returns is an applicable one that
no applicable route precedes in the documented order (exact before prefix,
endpoint specific before [any], longer prefix, lower priority, lower id). *)
Theorem matchCompositeRoute_documented_best routes model endpoint :
  match matchCompositeRoute routes model endpoint with
  | Some w =>
      exists r, r ∈ routes /\ applicable model endpoint r /\ w = normalized_route r /\
        forall r', r' ∈ routes -> applicable model endpoint r' ->
          lex_ltb (route_key endpoint r') (route_key endpoint r) = false
  | None => forall r, r ∈ routes -> ~ applicable model endpoint r
  end.
Proof.
  destruct (matchCompositeRoute routes model endpoint) as [w|] eqn:E.
  - by apply match_winner.
  - by apply match_none.
Qed.

(** The choice does not depend on the order in which the repository lists
the routes, as long as their identifiers are distinct. *)
Theorem matchCompositeRoute_order_independent routes routes' model endpoint :
  routes ≡ₚ routes' -> NoDup (ID <$> routes) ->
  matchCompositeRoute routes model endpoint = matchCompositeRoute routes' model endpoint.
Proof.
  intros Hp Hnd.
  destruct (matchCompositeRoute routes model endpoint) as [w|] eqn:E;
  destruct (matchCompositeRoute routes' model endpoint) as [w'|] eqn:E'; [| | |done].
  - apply match_winner in E as (r & Hr & Ha & -> & Hb).
    apply match_winner in E' as (r' & Hr' & Ha' & -> & Hb').
    rewrite <- Hp in Hr'.
    assert (Hk : route_key endpoint r = route_key endpoint r').
    { apply lex_total; [done | apply Hb' | by apply Hb]; rewrite <- ?Hp; done. }
    injection Hk as _ _ _ _ Hid. f_equal. f_equal.
    apply list_elem_of_lookup in Hr as [i Hi]. apply list_elem_of_lookup in Hr' as [j Hj].
    assert (i = j) as ->; [|congruence].
    apply (NoDup_lookup (ID <$> routes) i j (ID r)); [done | |];
      rewrite list_lookup_fmap, ?Hi, ?Hj; simpl; congruence.
  - exfalso. apply match_winner in E as (r & Hr & Ha & _ & _). rewrite Hp in Hr.
    eapply match_none; eauto.
  - exfalso. apply match_winner in E' as (r & Hr & Ha & _ & _). rewrite <- Hp in Hr.
    eapply match_none; eauto.
Qed.

Lemma provider_switch_concrete s p :
  provider_switch s = Some p -> isConcreteRequestPlatform p = true.
Proof. unfold provider_switch. intros. repeat case_match; simplify_eq; done. Qed.

Lemma model_switch_concrete s p :
  model_switch s = Some p -> isConcreteRequestPlatform p = true.
Proof. unfold model_switch. intros. repeat case_match; simplify_eq; done. Qed.

Lemma DetectModelPlatform_concrete m p :
  DetectModelPlatform m = Some p -> isConcreteRequestPlatform p = true.
Proof.
  unfold DetectModelPlatform. cbv zeta. case_match; [done|]. case_match; [|apply model_switch_concrete].
  destruct (provider_switch _) eqn:E; [|apply model_switch_concrete].
  intros [= <-]. by eapply provider_switch_concrete.
Qed.

Lemma compositeRouteFromInput_ok g input r :
  compositeRouteFromInput g input = Ok r ->
  isConcreteRequestPlatform (TargetPlatform r) = true /\
  PublicModel r = TrimSpace (in_PublicModel input) /\ PublicModel r <> "" /\
  MatchType r = normalizeCompositeRouteMatchType (in_MatchType input) /\
  UpstreamModel r =
    (if String.eqb (TrimSpace (in_UpstreamModel input)) "" &&
        String.eqb (MatchType r) CompositeRouteMatchExact
     then PublicModel r else TrimSpace (in_UpstreamModel input)).
Proof.
  unfold compositeRouteFromInput, normalizeCompositeRouteInput. simpl.
  destruct (String.eqb_spec (TrimSpace (in_PublicModel input)) ""); [done|].
  destruct (isConcreteRequestPlatform _) eqn:E; [|done]. simpl.
  intros [= <-]. simpl. auto.
Qed.

(** The routes of the repository come from [compositeRouteFromInput]; the
database chooses the identifier. *)
Definition stored_route (r : CompositeModelRoute) : Prop :=
  exists g input r0, compositeRouteFromInput g input = Ok r0 /\
    r = mkRoute (ID r) (GroupID r0) (PublicModel r0) (MatchType r0) (TargetPlatform r0)
          (UpstreamModel r0) (Endpoint r0) (Priority r0) (Enabled r0) (Notes r0).

Lemma stored_route_concrete r :
  stored_route r -> isConcreteRequestPlatform (TargetPlatform r) = true.
Proof.
  intros (g & input & r0 & Hok & ->). simpl.
  by apply compositeRouteFromInput_ok in Hok as [? _].
Qed.

Context {Laws : @GoUnicodeLaws _}.

(** A result of the resolver that fails closed. *)
Definition fails_closed (result : CompositeRouteDecision * option goerr) : Prop :=
  (result.2 <> None -> Matched result.1 = false) /\
  (Matched result.1 = false ->
     d_TargetPlatform result.1 = "" /\ d_UpstreamModel result.1 = "") /\
  (Matched result.1 = true ->
     isConcreteRequestPlatform (d_TargetPlatform result.1) = true /\
     d_UpstreamModel result.1 <> "" /\
     TrimSpace (d_UpstreamModel result.1) = d_UpstreamModel result.1 /\
     Source result.1 ∈
       [CompositeRouteSourceExplicit; CompositeRouteSourceAccount; CompositeRouteSourceDetector]).

Lemma undecided_closed gid m e reason err :
  fails_closed (undecided gid m e reason, err).
Proof. by split_and!. Qed.

Lemma decided_closed source gid m p u e r :
  isConcreteRequestPlatform p = true -> u <> "" -> TrimSpace u = u ->
  source ∈ [CompositeRouteSourceExplicit; CompositeRouteSourceAccount;
            CompositeRouteSourceDetector] ->
  fails_closed (decided source gid m p u e r, None).
Proof. unfold fails_closed. naive_solver. Qed.

Lemma resolve_detector_closed gid m e :
  m <> "" -> TrimSpace m = m -> fails_closed (resolve_detector gid m e).
Proof.
  intros Hm Ht. unfold resolve_detector.
  destruct (DetectModelPlatform m) eqn:E; [|apply undecided_closed].
  apply decided_closed; [by eapply DetectModelPlatform_concrete | done | done | set_solver].
Qed.

Lemma resolve_ownership_closed r gid m e :
  m <> "" -> TrimSpace m = m -> fails_closed (resolve_ownership r gid m e).
Proof.
  intros Hm Ht. unfold resolve_ownership. cbv zeta.
  repeat (case_match; eauto using resolve_detector_closed, undecided_closed).
  apply decided_closed; [by bool_prop | done | done | set_solver].
Qed.

(** Fail closed: [Resolve] never reports an error together with a match, an
undecided request carries no platform, and when the repository only holds
routes created by [compositeRouteFromInput] every platform it decides on is a
concrete provider (never [composite] itself, never an unknown string) and the
upstream model is not blank. *)
Theorem Resolve_fails_closed resolver gid model endpoint :
  (forall lbg routes r, resolver ≫= repo_ListByGroup = Some lbg ->
     lbg gid false = Ok routes -> r ∈ routes -> stored_route r) ->
  fails_closed (Resolve resolver gid model endpoint).
Proof.
  intros Hstored. unfold Resolve. cbv zeta.
  set (m := TrimSpace model). set (e := normalizeCompositeRouteEndpoint endpoint).
  destruct (String.eqb_spec m "") as [|Hm]; [apply undecided_closed|].
  assert (Ht : TrimSpace m = m) by apply TrimSpace_idem.
  destruct resolver as [r|]; [|by apply resolve_detector_closed]. simpl in Hstored.
  destruct (repo_ListByGroup r) as [lbg|] eqn:Hr; [|by apply resolve_ownership_closed].
  destruct (0 <? gid); [|by apply resolve_ownership_closed].
  destruct (lbg gid false) as [routes|] eqn:Hl; [|apply undecided_closed].
  destruct (matchCompositeRoute routes m e) as [w|] eqn:Hw; [|by apply resolve_ownership_closed].
  apply decided_closed; [|by destruct (String.eqb_spec (TrimSpace (UpstreamModel w)) "")
    |case_match; auto using TrimSpace_idem |set_solver].
  apply match_winner in Hw as (r' & Hr' & _ & -> & _).
  change (TargetPlatform (normalized_route r')) with (TargetPlatform r').
  eapply stored_route_concrete, Hstored; eauto.
Qed.

Lemma HasPrefix_empty p : HasPrefix "" p = true -> p = "".
Proof. by destruct p. Qed.

Lemma normalized_MatchType m :
  normalizeCompositeRouteMatchType (normalizeCompositeRouteMatchType m) =
  normalizeCompositeRouteMatchType m.
Proof. by destruct (match_type_cases m) as [-> | ->]. Qed.

Lemma is_exact_stored r g input r0 :
  compositeRouteFromInput g input = Ok r0 -> MatchType r = MatchType r0 ->
  is_exact r = String.eqb (MatchType r0) CompositeRouteMatchExact.
Proof.
  intros (_ & _ & _ & Hm & _)%compositeRouteFromInput_ok Heq.
  unfold is_exact. by rewrite Heq, Hm, normalized_MatchType.
Qed.

(** Upstream model of an explicit route: a route saved with a blank
[upstream_model], exact or prefix, forwards the very model the client asked
for (a prefix route does not collapse the models it covers into its own
public name), and a route saved with an [upstream_model] forwards that one. *)
Theorem explicit_route_upstream resolver lbg gid model endpoint routes w g input r0 :
  repo_ListByGroup resolver = Some lbg -> 0 < gid -> lbg gid false = Ok routes ->
  matchCompositeRoute routes (TrimSpace model) (normalizeCompositeRouteEndpoint endpoint) = Some w ->
  compositeRouteFromInput g input = Ok r0 ->
  (PublicModel w, MatchType w, UpstreamModel w) =
    (PublicModel r0, MatchType r0, UpstreamModel r0) ->
  d_UpstreamModel (Resolve (Some resolver) gid model endpoint).1 =
    if String.eqb (TrimSpace (in_UpstreamModel input)) "" then TrimSpace model
    else TrimSpace (in_UpstreamModel input).
Proof.
  intros Hr Hgid Hl Hw Hin [= Hp Hm Hu]. unfold Resolve. cbv zeta.
  pose proof (compositeRouteFromInput_ok _ _ _ Hin) as (_ & Hpub & Hne & _ & Hup).
  pose proof Hw as (r & _ & (_ & Hpne & Hmatch) & -> & _)%match_winner.
  simpl in Hp, Hu, Hm.
  change (PublicModel (normalized_route r)) with (PublicModel r) in Hp.
  change (UpstreamModel (normalized_route r)) with (UpstreamModel r) in Hu.
  change (MatchType (normalized_route r)) with (normalizeCompositeRouteMatchType (MatchType r)) in Hm.
  unfold is_exact in Hmatch. rewrite Hm, Hp, Hpub, TrimSpace_idem, <- Hpub in Hmatch.
  destruct (String.eqb_spec (TrimSpace model) "") as [He|He].
  { exfalso. rewrite He in Hmatch. case_match; [congruence|].
    by apply Hne, HasPrefix_empty. }
  rewrite Hr, Hl, Hw. destruct (Z.ltb_spec 0 gid); [|lia]. simpl.
  change (UpstreamModel (normalized_route r)) with (UpstreamModel r).
  rewrite Hu, Hup.
  destruct (String.eqb_spec (TrimSpace (in_UpstreamModel input)) "") as [Hb|Hb]; simpl.
  - destruct (String.eqb (MatchType r0) CompositeRouteMatchExact); [|by rewrite Hb, TrimSpace_empty].
    rewrite Hpub, TrimSpace_idem, <- Hpub, Hmatch.
    by destruct (String.eqb (TrimSpace model) "").
  - rewrite TrimSpace_idem. by apply String.eqb_neq in Hb as ->.
Qed.

Lemma StringFromContext_WithNonBlank k v ctx m :
  ctx = Some m ->
  exists m', WithNonBlank ctx k v = Some m' /\
    StringFromContext k (Some m') =
      (if String.eqb (TrimSpace v) "" then StringFromContext k ctx else Some (TrimSpace v)) /\
    forall k', k' <> k -> m' !! k' = m !! k'.
Proof.
  intros ->. unfold WithNonBlank. cbv zeta.
  destruct (String.eqb_spec (TrimSpace v) "") as [|Hn]; [eauto|].
  exists (<[k := TrimSpace v]> m). split_and!; [done| |intros k' Hk'; rewrite lookup_insert_ne; congruence].
  unfold StringFromContext. simpl. rewrite lookup_insert_eq. simpl. rewrite TrimSpace_idem.
  by apply String.eqb_neq in Hn as ->.
Qed.

Lemma StringFromContext_agree k m m' :
  m' !! k = m !! k -> StringFromContext k (Some m') = StringFromContext k (Some m).
Proof. unfold StringFromContext. simpl. by intros ->. Qed.

Lemma concrete_trimmed p :
  isConcreteRequestPlatform p = true -> TrimSpace p = p /\ p <> "".
Proof.
  unfold isConcreteRequestPlatform, one_of.
  rewrite existsb_exists. intros (q & Hq & ->%String.eqb_eq).
  by repeat (destruct Hq as [<-|Hq]; [done|]).
Qed.

Lemma source_trimmed s :
  s ∈ [CompositeRouteSourceExplicit; CompositeRouteSourceAccount; CompositeRouteSourceDetector] ->
  TrimSpace s = s /\ s <> "".
Proof. by intros [->|[->|[->|?%elem_of_nil]%elem_of_cons]%elem_of_cons]%elem_of_cons. Qed.

(** A request is routed once: after the decision of [Resolve] is stored in
the request context, every later resolution in that context, whatever the
repository and the catalog have become, answers the same platform, the same
upstream model and the same source, without consulting them. *)
Theorem decision_sticks_to_context resolver resolver' gid g m model model' endpoint endpoint' d :
  (forall lbg routes r, resolver ≫= repo_ListByGroup = Some lbg ->
     lbg gid false = Ok routes -> r ∈ routes -> stored_route r) ->
  Resolve resolver gid model endpoint = (d, None) -> Matched d = true ->
  g_Platform g = PlatformComposite ->
  resolveCompositeRouteDecision resolver' (WithCompositeRouteDecision (Some m) d)
      (Some g) model' endpoint' =
    (decided (Source d) (g_ID g) model' (d_TargetPlatform d) (d_UpstreamModel d)
       (normalizeCompositeRouteEndpoint endpoint') None, true, None).
Proof.
  intros Hst Hr Hm Hg. pose proof (Resolve_fails_closed _ _ model endpoint Hst) as (_ & _ & Hc).
  rewrite Hr in Hc. destruct (Hc Hm) as (Hplat & Hune & Hut & Hsrc).
  destruct (concrete_trimmed _ Hplat) as [Hpt Hpne], (source_trimmed _ Hsrc) as [Hst' Hsne].
  simpl in *. unfold WithCompositeRouteDecision. rewrite Hm. simpl.
  change WithResolvedTargetPlatform with
    (fun c p => WithNonBlank c ResolvedTargetPlatform p). cbv beta.
  destruct (StringFromContext_WithNonBlank ResolvedTargetPlatform (d_TargetPlatform d) (Some m) m)
    as (m1 & -> & H1 & K1); [done|].
  destruct (StringFromContext_WithNonBlank ResolvedUpstreamModel (d_UpstreamModel d) (Some m1) m1)
    as (m2 & -> & H2 & K2); [done|].
  destruct (StringFromContext_WithNonBlank RequestedPublicModel (d_PublicModel d) (Some m2) m2)
    as (m3 & -> & H3 & K3); [done|].
  destruct (StringFromContext_WithNonBlank CompositeRouteSource (Source d) (Some m3) m3)
    as (m4 & -> & H4 & K4); [done|].
  rewrite Hpt in H1. rewrite Hut in H2. rewrite Hst' in H4.
  apply String.eqb_neq in Hpne, Hune, Hsne. rewrite Hpne in H1. rewrite Hune in H2.
  rewrite Hsne in H4.
  rewrite <- (StringFromContext_agree _ m1 m2 (K2 ResolvedTargetPlatform ltac:(done))),
    <- (StringFromContext_agree _ m2 m3 (K3 ResolvedTargetPlatform ltac:(done))),
    <- (StringFromContext_agree _ m3 m4 (K4 ResolvedTargetPlatform ltac:(done))) in H1.
  rewrite <- (StringFromContext_agree _ m2 m3 (K3 ResolvedUpstreamModel ltac:(done))),
    <- (StringFromContext_agree _ m3 m4 (K4 ResolvedUpstreamModel ltac:(done))) in H2.
  unfold resolveCompositeRouteDecision, ResolvedTargetPlatformFromContext,
    ResolvedUpstreamModelFromContext, CompositeRouteSourceFromContext.
  rewrite Hg, H1, H2, H4. done.
Qed.
End RoutingTheorems.

(** ** Witnesses *)

Definition ex_prefix_input : CompositeRouteInput :=
  mkInput " deepseek-v4" "Prefix" "deepseek" "" "" 0 true "".
Definition ex_prefix_route : CompositeModelRoute :=
  mkRoute 11 3 "deepseek-v4" "prefix" "deepseek" "" "any" 100 true "".
Definition ex_exact_route : CompositeModelRoute :=
  mkRoute 12 3 "deepseek-v4-pro" "exact" "openai" "gpt-5" "responses" 5 true "".
Definition ex_resolver : CompositeRouteResolver :=
  mkResolver (Some (fun _ _ => Ok [ex_prefix_route; ex_exact_route])) None.

Example ex_prefix_route_saved :
  compositeRouteFromInput 3 ex_prefix_input =
    Ok (mkRoute 0 3 "deepseek-v4" "prefix" "deepseek" "" "any" 100 true "").
Proof. reflexivity. Qed.

Lemma ex_routes_stored lbg routes r :
  Some ex_resolver ≫= repo_ListByGroup = Some lbg -> lbg 3 false = Ok routes ->
  r ∈ routes -> stored_route r.
Proof.
  intros [= <-] [= <-] [->|[->|?%elem_of_nil]%elem_of_cons]%elem_of_cons; [| |done].
  - by exists 3, ex_prefix_input, (mkRoute 0 3 "deepseek-v4" "prefix" "deepseek" "" "any" 100 true "").
  - by exists 3, (mkInput "deepseek-v4-pro" "exact" "openai" "gpt-5" "responses" 5 true ""),
      (mkRoute 0 3 "deepseek-v4-pro" "exact" "openai" "gpt-5" "responses" 5 true "").
Qed.

Lemma matchCompositeRoute_order_independent_witness :
  matchCompositeRoute [ex_prefix_route; ex_exact_route] "deepseek-v4-pro" "responses" =
  matchCompositeRoute [ex_exact_route; ex_prefix_route] "deepseek-v4-pro" "responses".
Proof.
  apply matchCompositeRoute_order_independent.
  - apply Permutation_swap.
  - apply (bool_decide_unpack _). vm_compute. exact I.
Defined.

Lemma Resolve_fails_closed_witness :
  fails_closed (Resolve (Some ex_resolver) 3 " deepseek-v4-flash" "messages").
Proof. apply Resolve_fails_closed. apply ex_routes_stored. Defined.

Lemma explicit_route_upstream_witness :
  d_UpstreamModel (Resolve (Some ex_resolver) 3 "deepseek-v4-flash" "messages").1 =
    "deepseek-v4-flash".
Proof.
  exact (explicit_route_upstream ex_resolver _ 3 "deepseek-v4-flash" "messages"
    [ex_prefix_route; ex_exact_route] ex_prefix_route 3 ex_prefix_input _
    eq_refl eq_refl eq_refl eq_refl ex_prefix_route_saved eq_refl).
Defined.

Lemma decision_sticks_to_context_witness :
  let d := (Resolve (Some ex_resolver) 3 "deepseek-v4-pro" "responses").1 in
  resolveCompositeRouteDecision None (WithCompositeRouteDecision (Some ∅) d)
      (Some (mkGroup 3 PlatformComposite)) "anything" "images" =
    (decided "route" 3 "anything" "openai" "gpt-5" "images" None, true, None).
Proof.
  exact (decision_sticks_to_context (Some ex_resolver) None 3 (mkGroup 3 PlatformComposite) ∅
    "deepseek-v4-pro" "anything" "responses" "images" _ ex_routes_stored eq_refl eq_refl eq_refl).
Defined.

(** The documentation says that every [o*] model routes to OpenAI and every
[abab*] model to MiniMax; the detector knows o1, o3, o4, o5 and abab5 to
abab7 only. *)
Lemma detector_narrower_than_documented :
  DetectModelPlatform "o2-mini" = None /\ DetectModelPlatform "omni" = None /\
  DetectModelPlatform "abab8-chat" = None /\ DetectModelPlatform "o3-mini" = Some PlatformOpenAI.
Proof. done. Qed.
