(* ===== verification/Failover.v ===== *)
(** * The failover loop

[handler/failover_loop.go]: what a request does after an upstream error, and
the account loop of [handler/gateway_handler.go] that drives it.  The request
context, the clock and the sleeps are the environment of a step ([Env]); the
temporary ban of an account is an effect, returned as the list of banned
accounts. *)
From S2P Require Import Prelude.
From Stdlib Require Import Bool.

(** ** Data *)

Inductive NextAccountAction : Type := NextAccountLegacyRetry | NextAccountRetry | NextAccountStop.

(** [service.UpstreamFailoverError], the fields the loop reads. *)
Record UpstreamFailoverError : Type := mkFailoverError {
  StatusCode : Z;
  err_ForceCacheBilling : bool;
  RetryableOnSameAccount : bool;
  SameAccountRetryDelay : Duration;
  SameAccountRetryDeadline : Time;
  SameAccountRetryMax : Z;
  RequestScopedTransient : bool;
  nextAccountAction : NextAccountAction
}.

Inductive FailoverAction : Type := FailoverContinue | FailoverExhausted | FailoverCanceled.

Record FailoverState : Type := mkFailoverState {
  SwitchCount : Z;
  MaxSwitches : Z;
  FailedAccountIDs : gset Z;
  SameAccountRetryCount : gmap Z Z;
  LastFailoverErr : option UpstreamFailoverError;
  ForceCacheBilling : bool;
  hasBoundSession : bool;
  profitVetoedAccountIDs : gset Z;
  profitVetoCount : Z
}.

(** What one step sees of the world: whether the request context is cancelled
on entry, the current time, and whether a sleep of a given length runs to its
end (it does not when the context is cancelled meanwhile). *)
Record Env : Type := mkEnv {
  ctx_err : bool;
  now : Time;
  sleep_completes : Duration -> bool
}.

Definition maxSameAccountRetries : Z := 3.
Definition sameAccountRetryDelay : Duration := 500 * Millisecond.
Definition maxRequestScopedRetryDelay : Duration := 8 * Second.
Definition singleAccountBackoffDelay : Duration := 2 * Second.
Definition maxProfitVetoAttempts : Z := 10.
Definition StatusServiceUnavailable : Z := 503.

(** ** Operations *)

Definition ShouldRetryNextAccount (e : option UpstreamFailoverError) : bool :=
  match e with
  | None => false
  | Some e => match nextAccountAction e with NextAccountStop => false | _ => true end
  end.

(** The doubling loop of [sameAccountRetryDelayFor], [n] iterations left. *)
Fixpoint double_delay (n : nat) (delay : Duration) : Duration :=
  match n with
  | O => delay
  | S n' =>
      if Z.quot maxRequestScopedRetryDelay 2 <=? delay then maxRequestScopedRetryDelay
      else double_delay n' (delay *! 2)
  end.

Definition sameAccountRetryDelayFor (e : option UpstreamFailoverError) (retryCount : Z)
  : Duration :=
  match e with
  | None => sameAccountRetryDelay
  | Some e =>
      if 0 <? SameAccountRetryDelay e then SameAccountRetryDelay e
      else if negb (RequestScopedTransient e) || (retryCount <=? 1) then sameAccountRetryDelay
      else double_delay (Z.to_nat (retryCount - 1)) sameAccountRetryDelay
  end.

Definition sameAccountRetryDeadlineAllows (env : Env) (e : UpstreamFailoverError) : bool :=
  IsZero (SameAccountRetryDeadline e) || Before (now env) (SameAccountRetryDeadline e).

Definition sameAccountRetryAllowed (env : Env) (e : option UpstreamFailoverError)
    (retryCount retryLimit : Z) : bool :=
  match e with
  | None => false
  | Some e =>
      if negb (RetryableOnSameAccount e) then false
      else if negb (sameAccountRetryDeadlineAllows env e) then false
      else if 0 <? SameAccountRetryMax e then
        if retryLimit <=? 0 then false
        else
          let retryLimit :=
            if SameAccountRetryMax e <? retryLimit then SameAccountRetryMax e else retryLimit in
          retryCount <? retryLimit
      else if negb (IsZero (SameAccountRetryDeadline e)) then true
      else (0 <? retryLimit) && (retryCount <? retryLimit)
  end.

Definition effectiveSameAccountRetryLimit (e : option UpstreamFailoverError)
    (poolModeRetryCount : option Z) : Z :=
  match poolModeRetryCount with
  | None => 0
  | Some limit =>
      match e with
      | Some e =>
          if (0 <? limit) && (0 <? SameAccountRetryMax e) && (SameAccountRetryMax e <? limit)
          then SameAccountRetryMax e else limit
      | None => limit
      end
  end.

Definition NewFailoverState (maxSwitches : Z) (bound : bool) : FailoverState :=
  mkFailoverState 0 maxSwitches ∅ ∅ None false bound ∅ 0.

Definition RecordProfitVeto (s : FailoverState) (accountID : Z) : FailoverState * FailoverAction :=
  let s' :=
    mkFailoverState (SwitchCount s) (MaxSwitches s) ({[accountID]} ∪ FailedAccountIDs s)
      (SameAccountRetryCount s) (LastFailoverErr s) (ForceCacheBilling s) (hasBoundSession s)
      ({[accountID]} ∪ profitVetoedAccountIDs s) (profitVetoCount s +! 1) in
  (s', if maxProfitVetoAttempts <=? profitVetoCount s' then FailoverExhausted
       else FailoverContinue).

Definition allExclusionsAreProfitVetoed (s : FailoverState) : bool :=
  if bool_decide (profitVetoedAccountIDs s = ∅) || bool_decide (FailedAccountIDs s = ∅)
  then false
  else bool_decide (FailedAccountIDs s ⊆ profitVetoedAccountIDs s).

Definition needForceCacheBilling (bound : bool) (e : option UpstreamFailoverError)
    (sameAccountRetry : bool) : bool :=
  (bound && negb sameAccountRetry) ||
  match e with Some e => err_ForceCacheBilling e | None => false end.

Definition sleepWithContext (env : Env) (d : Duration) : bool :=
  if d <=? 0 then true else sleep_completes env d.

Definition set_LastFailoverErr (e : option UpstreamFailoverError) (s : FailoverState) :=
  mkFailoverState (SwitchCount s) (MaxSwitches s) (FailedAccountIDs s) (SameAccountRetryCount s)
    e (ForceCacheBilling s) (hasBoundSession s) (profitVetoedAccountIDs s) (profitVetoCount s).

Definition set_ForceCacheBilling (b : bool) (s : FailoverState) :=
  mkFailoverState (SwitchCount s) (MaxSwitches s) (FailedAccountIDs s) (SameAccountRetryCount s)
    (LastFailoverErr s) b (hasBoundSession s) (profitVetoedAccountIDs s) (profitVetoCount s).

Definition set_RetryCount (m : gmap Z Z) (s : FailoverState) :=
  mkFailoverState (SwitchCount s) (MaxSwitches s) (FailedAccountIDs s) m
    (LastFailoverErr s) (ForceCacheBilling s) (hasBoundSession s) (profitVetoedAccountIDs s)
    (profitVetoCount s).

Definition set_Failed (f : gset Z) (s : FailoverState) :=
  mkFailoverState (SwitchCount s) (MaxSwitches s) f (SameAccountRetryCount s)
    (LastFailoverErr s) (ForceCacheBilling s) (hasBoundSession s) (profitVetoedAccountIDs s)
    (profitVetoCount s).

Definition set_SwitchCount (n : Z) (s : FailoverState) :=
  mkFailoverState n (MaxSwitches s) (FailedAccountIDs s) (SameAccountRetryCount s)
    (LastFailoverErr s) (ForceCacheBilling s) (hasBoundSession s) (profitVetoedAccountIDs s)
    (profitVetoCount s).

(** [Account.GetPoolModeRetryCount] (service/account.go): [configured] is the
parsed [pool_mode_retry_count] of a pool mode account that has the field. *)
Definition defaultPoolModeRetryCount : Z := 3.
Definition maxPoolModeRetryCount : Z := 10.

Definition GetPoolModeRetryCount (configured : option Z) : Z :=
  match configured with
  | None => defaultPoolModeRetryCount
  | Some count =>
      if count <? 0 then 0
      else if maxPoolModeRetryCount <? count then maxPoolModeRetryCount
      else count
  end.

(** A Go map read: the zero value for a missing key. *)
Definition retries (s : FailoverState) (accountID : Z) : Z :=
  default 0 (SameAccountRetryCount s !! accountID).

(** [HandleFailoverError]: the new state, the action, and the accounts handed
to [TempUnscheduleRetryableError]. *)
Definition HandleFailoverError (env : Env) (s : FailoverState) (accountID : Z)
    (antigravity : bool) (retryLimit : Z) (e : option UpstreamFailoverError)
  : FailoverState * FailoverAction * list Z :=
  if ctx_err env then (s, FailoverCanceled, [])
  else
    let s := set_LastFailoverErr e s in
    match e with
    | None => (s, FailoverExhausted, [])
    | Some err =>
        if negb (ShouldRetryNextAccount e) then (s, FailoverExhausted, [])
        else
          let retryCount := retries s accountID in
          let sameAccountRetry := sameAccountRetryAllowed env e retryCount retryLimit in
          let s :=
            if needForceCacheBilling (hasBoundSession s) e sameAccountRetry
            then set_ForceCacheBilling true s else s in
          if sameAccountRetry then
            let s := set_RetryCount
                       (<[accountID := retryCount +! 1]> (SameAccountRetryCount s)) s in
            let retryDelay := sameAccountRetryDelayFor e (retries s accountID) in
            (s, if sleepWithContext env retryDelay then FailoverContinue else FailoverCanceled, [])
          else
            let banned := if RetryableOnSameAccount err then [accountID] else [] in
            let s := set_Failed ({[accountID]} ∪ FailedAccountIDs s) s in
            if MaxSwitches s <=? SwitchCount s then (s, FailoverExhausted, banned)
            else
              let s := set_SwitchCount (SwitchCount s +! 1) s in
              if antigravity then
                let delay := (SwitchCount s -! 1) *! Second in
                (s, if sleepWithContext env delay then FailoverContinue else FailoverCanceled,
                 banned)
              else (s, FailoverContinue, banned)
    end.

Definition HandleSelectionExhausted (env : Env) (s : FailoverState)
  : FailoverState * FailoverAction :=
  if ctx_err env then (s, FailoverCanceled)
  else
    match LastFailoverErr s with
    | None => (s, FailoverExhausted)
    | Some e =>
        if (StatusCode e =? StatusServiceUnavailable) && (SwitchCount s <=? MaxSwitches s) then
          if allExclusionsAreProfitVetoed s then (s, FailoverExhausted)
          else if negb (sleepWithContext env singleAccountBackoffDelay)
          then (s, FailoverCanceled)
          else (set_Failed (profitVetoedAccountIDs s) s, FailoverContinue)
        else (s, FailoverExhausted)
    end.

(** ** The account loop of the handler

What happens in one iteration of the loop of [Messages] between selecting an
account and the next [continue] or [return].  The selection, the slot, the
profit gate and the forwarding are outside this component: the iteration is
given their outcome. *)
Inductive Attempt : Type :=
  | SelectionFailed
  | Intercepted (accountID : Z)
  | SlotUnavailable (accountID : Z)
  | ProfitVetoed (accountID : Z)
  | ForwardFailover (accountID : Z) (antigravity : bool) (poolModeRetryCount : option Z)
      (streamWritten : bool) (e : UpstreamFailoverError)
  | ForwardFailed (accountID : Z)
  | Forwarded (accountID : Z).

Inductive LoopResult : Type :=
  | LoopContinue
  | NoAccountAvailable
  | RespondIntercepted
  | RespondCapacity
  | RespondProfitExhausted
  | RespondFailoverExhausted
  | ClientGone
  | RespondForwardError
  | Served (forceCacheBilling : bool).

Definition loop_iteration (env : Env) (fs : FailoverState) (a : Attempt)
  : FailoverState * LoopResult * list Z :=
  match a with
  | SelectionFailed =>
      if bool_decide (FailedAccountIDs fs = ∅) then (fs, NoAccountAvailable, [])
      else
        match HandleSelectionExhausted env fs with
        | (fs, FailoverContinue) => (fs, LoopContinue, [])
        | (fs, FailoverCanceled) => (fs, ClientGone, [])
        | (fs, FailoverExhausted) => (fs, RespondFailoverExhausted, [])
        end
  | Intercepted _ => (fs, RespondIntercepted, [])
  | SlotUnavailable _ => (fs, RespondCapacity, [])
  | ProfitVetoed id =>
      match RecordProfitVeto fs id with
      | (fs, FailoverExhausted) => (fs, RespondProfitExhausted, [])
      | (fs, _) => (fs, LoopContinue, [])
      end
  | ForwardFailover id antigravity configured written e =>
      if written then (fs, RespondFailoverExhausted, [])
      else
        match HandleFailoverError env fs id antigravity (GetPoolModeRetryCount configured) (Some e) with
        | (fs, FailoverContinue, banned) => (fs, LoopContinue, banned)
        | (fs, FailoverExhausted, banned) => (fs, RespondFailoverExhausted, banned)
        | (fs, FailoverCanceled, banned) => (fs, ClientGone, banned)
        end
  | ForwardFailed _ => (fs, RespondForwardError, [])
  | Forwarded _ => (fs, Served (ForceCacheBilling fs), [])
  end.


(** ** Termination

[loops pool s n s'] : from [s], [n] iterations of the loop, all ending in
[continue], lead to [s'].  The accounts come from a finite group, and account
selection honours the exclusion list it is given.  An error with a retry
deadline and no retry cap is limited by that deadline, not by a count, and is
left out here. *)
Definition admissible (pool : gset Z) (s : FailoverState) (a : Attempt) : Prop :=
  match a with
  | ProfitVetoed id => id ∈ pool /\ id ∉ FailedAccountIDs s
  | ForwardFailover id _ _ _ e =>
      id ∈ pool /\ id ∉ FailedAccountIDs s /\
      (IsZero (SameAccountRetryDeadline e) = true \/ 0 < SameAccountRetryMax e)
  | _ => True
  end.

Inductive loops (pool : gset Z) (s : FailoverState) : nat -> FailoverState -> Prop :=
  | loops_start : loops pool s 0 s
  | loops_again n s1 env a s2 banned :
      loops pool s n s1 -> admissible pool s1 a ->
      loop_iteration env s1 a = (s2, LoopContinue, banned) ->
      loops pool s (S n) s2.

(** The same-account retries left in the group. *)
Definition retry_slack (m : gmap Z Z) (ids : list Z) : Z :=
  foldr (fun id acc => acc + (maxPoolModeRetryCount - default 0 (m !! id))) 0 ids.

Definition has_plain_exclusion (s : FailoverState) : Z :=
  if bool_decide (FailedAccountIDs s ⊆ profitVetoedAccountIDs s) then 0 else 1.

Definition potential (pool : gset Z) (s : FailoverState) : Z :=
  2 * (MaxSwitches s - SwitchCount s) + has_plain_exclusion s
  + (maxProfitVetoAttempts - 1 - profitVetoCount s)
  + retry_slack (SameAccountRetryCount s) (elements pool).

Definition loop_inv (M : Z) (s : FailoverState) : Prop :=
  MaxSwitches s = M /\ 0 <= SwitchCount s <= M /\
  0 <= profitVetoCount s <= maxProfitVetoAttempts - 1 /\
  profitVetoedAccountIDs s ⊆ FailedAccountIDs s /\
  forall id, 0 <= retries s id <= maxPoolModeRetryCount.

Lemma GetPoolModeRetryCount_bound c : 0 <= GetPoolModeRetryCount c <= maxPoolModeRetryCount.
Proof.
  unfold GetPoolModeRetryCount, defaultPoolModeRetryCount, maxPoolModeRetryCount.
  destruct c; repeat case_Z; lia.
Qed.

Lemma retry_slack_not_in m id v ids :
  id ∉ ids -> retry_slack (<[id:=v]> m) ids = retry_slack m ids.
Proof.
  induction ids as [|x ids IH]; simpl; [done|].
  rewrite not_elem_of_cons. intros [? ?]. by rewrite lookup_insert_ne, IH.
Qed.

Lemma retry_slack_insert m id v ids :
  NoDup ids -> id ∈ ids ->
  retry_slack (<[id:=v]> m) ids = retry_slack m ids + default 0 (m !! id) - v.
Proof.
  induction 1 as [|x ids Hx Hnd IH]; [by intros ?%elem_of_nil|].
  intros [->|Hin]%elem_of_cons; simpl.
  - rewrite lookup_insert_eq, retry_slack_not_in by done. simpl. lia.
  - rewrite lookup_insert_ne, IH by set_solver. lia.
Qed.

Lemma retry_slack_nonneg (m : gmap Z Z) ids :
  (forall id, default 0 (m !! id) <= maxPoolModeRetryCount) -> 0 <= retry_slack m ids.
Proof. intros H. induction ids as [|x ids IH]; simpl; [lia|]. specialize (H x). lia. Qed.

Lemma retry_slack_empty ids :
  retry_slack ∅ ids = maxPoolModeRetryCount * Z.of_nat (length ids).
Proof. induction ids as [|x ids IH]; simpl; [lia|]. rewrite IH, lookup_empty. simpl. lia. Qed.

Lemma has_plain_exclusion_range s : 0 <= has_plain_exclusion s <= 1.
Proof. unfold has_plain_exclusion. case_bool_decide; lia. Qed.

(** A same-account retry allowed without a deadline is under the limit. *)
Lemma sameAccountRetryAllowed_lt env e retryCount limit :
  sameAccountRetryAllowed env (Some e) retryCount limit = true ->
  IsZero (SameAccountRetryDeadline e) = true \/ 0 < SameAccountRetryMax e ->
  retryCount < limit.
Proof.
  unfold sameAccountRetryAllowed. intros H Hd.
  destruct (RetryableOnSameAccount e); [|done].
  destruct (sameAccountRetryDeadlineAllows env e); [|done]. simpl in H.
  destruct (Z.ltb_spec 0 (SameAccountRetryMax e)).
  - destruct (Z.leb_spec limit 0); [done|].
    destruct (Z.ltb_spec (SameAccountRetryMax e) limit); bool_prop; lia.
  - destruct Hd as [Hz|?]; [|lia]. rewrite Hz in H. simpl in H. bool_prop. lia.
Qed.

Section Termination.
Context (pool : gset Z) (M : Z) (HM : 0 <= M < two31).

(** The three ways the loop continues, each with what it costs. *)
Lemma veto_step s id s' :
  loop_inv M s -> id ∉ FailedAccountIDs s ->
  RecordProfitVeto s id = (s', FailoverContinue) ->
  loop_inv M s' /\ potential pool s' + 1 <= potential pool s.
Proof.
  intros (HMax & HSw & Hv & Hsub & Hret) Hid. unfold RecordProfitVeto.
  unfold maxProfitVetoAttempts in *. simpl. i64_simpl.
  case_Z; intros [= <-].
  split; [unfold loop_inv, maxProfitVetoAttempts; simpl; split_and!; auto; try lia; set_solver|].
  unfold potential, maxProfitVetoAttempts, has_plain_exclusion; simpl. i64_simpl.
  repeat case_bool_decide; try lia. exfalso. set_solver.
Qed.

Lemma exhausted_step env s s' :
  loop_inv M s -> FailedAccountIDs s <> ∅ ->
  HandleSelectionExhausted env s = (s', FailoverContinue) ->
  loop_inv M s' /\ potential pool s' + 1 <= potential pool s.
Proof.
  intros (HMax & HSw & Hv & Hsub & Hret) Hne. unfold HandleSelectionExhausted.
  destruct (ctx_err env); [done|]. destruct (LastFailoverErr s); [|done].
  case_match; [|done]. destruct (allExclusionsAreProfitVetoed s) eqn:Ha; [done|].
  case_match; [done|]. intros [= <-].
  split; [unfold loop_inv; simpl; split_and!; auto; lia|].
  unfold potential, has_plain_exclusion; simpl.
  rewrite (bool_decide_eq_true_2 (profitVetoedAccountIDs s ⊆ profitVetoedAccountIDs s)) by done.
  unfold allExclusionsAreProfitVetoed in Ha.
  destruct (bool_decide (FailedAccountIDs s ⊆ _)) eqn:Hs; [|lia]. exfalso.
  apply bool_decide_eq_true in Hs.
  repeat case_bool_decide; try done. set_solver.
Qed.

Lemma same_account_step s id :
  loop_inv M s -> id ∈ pool -> retries s id < maxPoolModeRetryCount ->
  loop_inv M (set_RetryCount (<[id := retries s id +! 1]> (SameAccountRetryCount s)) s) /\
  potential pool (set_RetryCount (<[id := retries s id +! 1]> (SameAccountRetryCount s)) s) + 1
    <= potential pool s.
Proof.
  intros (HMax & HSw & Hv & Hsub & Hret) Hid Hlt. pose proof (Hret id) as Hr.
  unfold maxPoolModeRetryCount in *. i64_simpl. split.
  - unfold loop_inv; simpl; split_and!; auto; try lia. intros id'.
    unfold retries; simpl. rewrite lookup_insert. fold (retries s id).
    case_decide; simpl; [unfold maxPoolModeRetryCount; lia | apply (Hret id')].
  - unfold potential, has_plain_exclusion; simpl.
    rewrite retry_slack_insert; [|apply NoDup_elements | by apply elem_of_elements].
    fold (retries s id). lia.
Qed.

Lemma switch_step s id :
  loop_inv M s -> SwitchCount s < M ->
  let s' := set_SwitchCount (SwitchCount s +! 1) (set_Failed ({[id]} ∪ FailedAccountIDs s) s) in
  loop_inv M s' /\ potential pool s' + 1 <= potential pool s.
Proof.
  intros (HMax & HSw & Hv & Hsub & Hret) Hlt. i64_simpl. split.
  - unfold loop_inv; simpl; split_and!; auto; try lia; set_solver.
  - unfold potential. simpl.
    pose proof (has_plain_exclusion_range s).
    match goal with |- context [has_plain_exclusion ?x] =>
      pose proof (has_plain_exclusion_range x) end. lia.
Qed.

(** Neither invariant nor potential looks at the last error or the billing flag. *)
Lemma loop_inv_ext s s' :
  MaxSwitches s' = MaxSwitches s -> SwitchCount s' = SwitchCount s ->
  FailedAccountIDs s' = FailedAccountIDs s ->
  SameAccountRetryCount s' = SameAccountRetryCount s ->
  profitVetoedAccountIDs s' = profitVetoedAccountIDs s ->
  profitVetoCount s' = profitVetoCount s ->
  (loop_inv M s -> loop_inv M s') /\ potential pool s' = potential pool s.
Proof.
  unfold loop_inv, potential, has_plain_exclusion, retries. by intros -> -> -> -> -> ->.
Qed.

Lemma failover_step env s id ag c e s' banned :
  loop_inv M s -> id ∈ pool ->
  IsZero (SameAccountRetryDeadline e) = true \/ 0 < SameAccountRetryMax e ->
  HandleFailoverError env s id ag (GetPoolModeRetryCount c) (Some e) =
    (s', FailoverContinue, banned) ->
  loop_inv M s' /\ potential pool s' + 1 <= potential pool s.
Proof.
  intros Hinv Hid Hd. unfold HandleFailoverError.
  destruct (ctx_err env); [done|]. destruct (negb (ShouldRetryNextAccount (Some e))); [done|].
  change (retries (set_LastFailoverErr (Some e) s) id) with (retries s id).
  set (same := sameAccountRetryAllowed _ _ _ _).
  set (s0 := if needForceCacheBilling _ _ _ then _ else _).
  assert (Hext : (loop_inv M s -> loop_inv M s0) /\ potential pool s0 = potential pool s).
  { apply loop_inv_ext; unfold s0; by case_match. }
  assert (Hsame : SameAccountRetryCount s0 = SameAccountRetryCount s /\
    FailedAccountIDs s0 = FailedAccountIDs s /\ MaxSwitches s0 = MaxSwitches s /\
    SwitchCount s0 = SwitchCount s /\ retries s0 id = retries s id).
  { unfold s0; by case_match. }
  destruct Hext as [Hi <-], Hsame as (Hm & Hf & Hx & Hc & Hr). specialize (Hi Hinv).
  clearbody s0. destruct same eqn:Es.
  - apply sameAccountRetryAllowed_lt in Es; [|done].
    pose proof (GetPoolModeRetryCount_bound c). rewrite <- Hr.
    destruct (sleepWithContext _ _); [|done]. intros [= <- _].
    apply same_account_step; [done|done|]. rewrite Hr. lia.
  - assert (HMx : MaxSwitches s0 = M) by apply Hi.
    simpl. destruct (Z.leb_spec (MaxSwitches s0) (SwitchCount s0)) as [|Hlt]; [done|].
    rewrite HMx in Hlt. pose proof (switch_step s0 id Hi Hlt) as Hstep.
    destruct ag; [destruct (sleepWithContext _ _); [|done]|]; intros [= <- _]; exact Hstep.
Qed.

Lemma loops_potential bound n s :
  loops pool (NewFailoverState M bound) n s ->
  loop_inv M s /\ potential pool s + Z.of_nat n <= potential pool (NewFailoverState M bound).
Proof.
  induction 1 as [|n s1 env a s2 banned _ [Hinv Hpot] Hadm Hit].
  - split; [|lia]. unfold loop_inv, NewFailoverState, retries, maxProfitVetoAttempts; simpl.
    split_and!; try lia; [done|]. intros id. rewrite lookup_empty. simpl.
    unfold maxPoolModeRetryCount. lia.
  - enough (loop_inv M s2 /\ potential pool s2 + 1 <= potential pool s1) as [? ?]
      by (split; [done | lia]).
    destruct a as [| | |id|id ag c written e| |];
      cbn [loop_iteration] in Hit; try done.
    + case_bool_decide; [done|].
      destruct (HandleSelectionExhausted env s1) as [s' []] eqn:E; simplify_eq.
      by eapply exhausted_step.
    + destruct Hadm as [_ Hid].
      destruct (RecordProfitVeto s1 id) as [s' act] eqn:E.
      assert (act <> FailoverCanceled).
      { unfold RecordProfitVeto in E. intros ->. by case_match. }
      destruct act; simplify_eq. by apply (veto_step s1 id).
    + destruct written; [done|].
      destruct (HandleFailoverError env s1 id ag _ (Some e)) as [[s' []] b] eqn:E; simplify_eq.
      destruct Hadm as (? & ? & ?). by eapply failover_step.
Qed.
End Termination.

(** ** Theorems *)

(** C16. The failover loop of a request terminates. Let at most [M] switches be
configured, let the accounts come from a finite group, let selection and the profit gate
never offer an account that has been excluded, and let no upstream error come with a
retry deadline but without a retry cap (such retries are limited by the deadline only).
Then the loop body cannot end in [continue] more than [2 * M + 9] times plus ten times
per account, whatever else the upstream, the scheduler, the profit gate and the clock
do. *)
Theorem failover_loop_bounded (pool : gset Z) (M : Z) (bound : bool) n s :
  0 <= M < two31 ->
  loops pool (NewFailoverState M bound) n s ->
  Z.of_nat n <= 2 * M + (maxProfitVetoAttempts - 1) + maxPoolModeRetryCount * Z.of_nat (size pool).
Proof.
  intros HM [Hinv Hpot]%loops_potential; [|done].
  destruct Hinv as (HMax & HSw & Hv & _ & Hret).
  pose proof (has_plain_exclusion_range s).
  pose proof (retry_slack_nonneg (SameAccountRetryCount s) (elements pool)
    (fun id => proj2 (Hret id))).
  unfold potential at 2 in Hpot. simpl in Hpot. rewrite retry_slack_empty in Hpot.
  change (has_plain_exclusion (NewFailoverState M bound)) with 0 in Hpot.
  unfold potential, maxProfitVetoAttempts in *.
  change (length (elements pool)) with (size pool) in Hpot. lia.
Qed.

Lemma double_delay_closed n d :
  0 < d <= maxRequestScopedRetryDelay ->
  double_delay n d = Z.min (d * 2 ^ Z.of_nat n) maxRequestScopedRetryDelay.
Proof.
  change maxRequestScopedRetryDelay with 8000000000.
  revert d; induction n as [|n IH]; intros d Hd.
  - simpl double_delay. lia.
  - cbn [double_delay]. change (Z.quot maxRequestScopedRetryDelay 2) with 4000000000.
    change maxRequestScopedRetryDelay with 8000000000.
    rewrite Nat2Z.inj_succ, Z.pow_succ_r by lia.
    pose proof (Z.pow_pos_nonneg 2 (Z.of_nat n) ltac:(lia) ltac:(lia)).
    destruct (Z.leb_spec 4000000000 d); [nia|].
    i64_simpl. rewrite IH by lia. f_equal. lia.
Qed.

(** The delay before a same-account retry of a request-scoped transient
error is the exponential back-off [500ms * 2^(n-1)] capped at 8 seconds, for
every retry number: it never overflows and never exceeds the cap. *)
Theorem retry_delay_exponential e n :
  RequestScopedTransient e = true -> SameAccountRetryDelay e <= 0 -> 1 <= n ->
  sameAccountRetryDelayFor (Some e) n =
    Z.min (sameAccountRetryDelay * 2 ^ (n - 1)) maxRequestScopedRetryDelay.
Proof.
  intros Ht Hd Hn. unfold sameAccountRetryDelayFor. rewrite Ht. simpl negb.
  destruct (Z.ltb_spec 0 (SameAccountRetryDelay e)); [lia|].
  destruct (Z.leb_spec n 1); simpl orb; cbv iota.
  - replace n with 1 by lia. reflexivity.
  - rewrite double_delay_closed by (vm_compute; split; [reflexivity | discriminate]).
    by rewrite Z2Nat.id by lia.
Qed.

(** Iterations up to the first one that leaves the loop. *)
Fixpoint run_loop (steps : list (Env * Attempt)) (s : FailoverState)
  : FailoverState * LoopResult :=
  match steps with
  | [] => (s, LoopContinue)
  | (env, a) :: steps' =>
      match loop_iteration env s a with
      | (s', LoopContinue, _) => run_loop steps' s'
      | (s', r, _) => (s', r)
      end
  end.

Definition veto_inv (s : FailoverState) : Prop := profitVetoedAccountIDs s ⊆ FailedAccountIDs s.

(** A failover error never touches the profit exclusions. *)
Lemma HandleFailoverError_vetoes env s id ag limit e s' act banned :
  HandleFailoverError env s id ag limit e = (s', act, banned) ->
  profitVetoedAccountIDs s' = profitVetoedAccountIDs s /\
  FailedAccountIDs s ⊆ FailedAccountIDs s'.
Proof.
  unfold HandleFailoverError. intros H.
  repeat (case_match; simplify_eq; simpl; try (split; [done|set_solver])).
Qed.

Lemma loop_iteration_vetoes env s a s' r banned :
  veto_inv s -> loop_iteration env s a = (s', r, banned) ->
  veto_inv s' /\ profitVetoedAccountIDs s ⊆ profitVetoedAccountIDs s'.
Proof.
  unfold veto_inv. intros Hinv. destruct a; cbn [loop_iteration]; intros H; simplify_eq;
    try (split; [done|set_solver]).
  - unfold HandleSelectionExhausted in H.
    repeat (case_match; simplify_eq; simpl; try (split; [done|set_solver])).
  - unfold RecordProfitVeto in H.
    repeat (case_match; simplify_eq; simpl; try (split; set_solver)).
  - destruct streamWritten; [simplify_eq; set_solver|].
    destruct (HandleFailoverError _ _ _ _ _ _) as [[s1 act] b] eqn:E.
    apply HandleFailoverError_vetoes in E as [E1 E2].
    destruct act; simplify_eq; rewrite E1; set_solver.
Qed.

(** An account rejected by the profit gate stays excluded for the rest of
the request: whatever errors, retries, back-offs and selections follow, it is
still in the exclusion list (the 503 back-off clears every other exclusion,
never this one). *)
Theorem vetoed_account_stays_excluded steps s id :
  veto_inv s -> id ∈ profitVetoedAccountIDs s ->
  id ∈ FailedAccountIDs (run_loop steps s).1.
Proof.
  revert s; induction steps as [|[env a] steps IH]; intros s Hinv Hid; [by apply Hinv|].
  cbn [run_loop]. destruct (loop_iteration env s a) as [[s' r] b] eqn:E.
  apply loop_iteration_vetoes in E as [Hinv' Hsub]; [|done].
  destruct r; simpl; try (apply Hinv', Hsub, Hid). apply IH; [done | by apply Hsub].
Qed.

(** The error moves the request to another account: the loop is live, the
error allows another account and no same-account retry is left. *)
Definition moves_on (env : Env) (s : FailoverState) (id limit : Z) (e : UpstreamFailoverError)
  : bool :=
  negb (ctx_err env) && ShouldRetryNextAccount (Some e) &&
  negb (sameAccountRetryAllowed env (Some e) (retries s id) limit).

#[local] Arguments sameAccountRetryAllowed : simpl never.
#[local] Arguments sameAccountRetryDelayFor : simpl never.

(** What an upstream error does to the request, in every case: a cancelled
request changes nothing; an account is banned exactly when the error is
retryable on the same account and its retries are used up; the account is
excluded exactly when the request moves on; cache billing is forced exactly
when the error asks for it or a sticky session really moves to another
account; and the switch counter never passes its maximum. *)
Theorem HandleFailoverError_effects env s id ag limit e s' act banned :
  in_i64 (MaxSwitches s) -> 0 <= SwitchCount s ->
  HandleFailoverError env s id ag limit (Some e) = (s', act, banned) ->
  (ctx_err env = true -> s' = s /\ act = FailoverCanceled /\ banned = []) /\
  banned = (if moves_on env s id limit e && RetryableOnSameAccount e then [id] else []) /\
  FailedAccountIDs s' =
    (if moves_on env s id limit e then {[id]} ∪ FailedAccountIDs s else FailedAccountIDs s) /\
  ForceCacheBilling s' =
    ForceCacheBilling s ||
    (negb (ctx_err env) && ShouldRetryNextAccount (Some e) && err_ForceCacheBilling e) ||
    (hasBoundSession s && moves_on env s id limit e) /\
  SwitchCount s' =
    (if moves_on env s id limit e && (SwitchCount s <? MaxSwitches s)
     then SwitchCount s + 1 else SwitchCount s).
Proof.
  intros HM HS. unfold HandleFailoverError, moves_on.
  destruct (ctx_err env) eqn:Ec; simpl.
  { intros [= <- <- <-]. rewrite andb_false_r, !orb_false_r. auto. }
  destruct (nextAccountAction e); simpl;
    try (intros [= <- <- <-]; simpl; rewrite andb_false_r, !orb_false_r; by auto).
  all: change (retries (set_LastFailoverErr (Some e) s) id) with (retries s id).
  all: destruct (sameAccountRetryAllowed env (Some e) (retries s id) limit) eqn:Er; simpl.
  all: unfold needForceCacheBilling; simpl.
  all: try rewrite andb_false_r; try rewrite andb_true_r; simpl.
  all: destruct (hasBoundSession s), (err_ForceCacheBilling e); simpl.
  all: try (intros [= <- <- <-]; simpl; rewrite ?orb_false_r, ?orb_true_r; by auto).
  all: rewrite Z.leb_antisym; destruct (Z.ltb_spec (SwitchCount s) (MaxSwitches s)); simpl.
  all: destruct ag; intros [= <- <- <-]; simpl; rewrite ?orb_false_r, ?orb_true_r; i64_simpl; by auto.
Qed.

(** ** Witnesses *)

Definition ex_env : Env := mkEnv false 1000 (fun _ => true).
Definition ex_503 : UpstreamFailoverError :=
  mkFailoverError 503 false true 0 zeroTime 0 true NextAccountLegacyRetry.

Lemma failover_loop_bounded_witness :
  exists s, loops {[7]} (NewFailoverState 1 true) 1 s /\
    Z.of_nat 1 <= 2 * 1 + (maxProfitVetoAttempts - 1) + maxPoolModeRetryCount * Z.of_nat (size ({[7]} : gset Z)).
Proof.
  eexists.
  assert (Hl : loops {[7]} (NewFailoverState 1 true) 1
    (loop_iteration ex_env (NewFailoverState 1 true)
       (ForwardFailover 7 false None false ex_503)).1.1).
  { eapply (loops_again _ _ 0 _ ex_env (ForwardFailover 7 false None false ex_503) _ []);
      [constructor | simpl; split_and!; [set_solver | set_solver | by left] | reflexivity]. }
  split; [exact Hl|].
  refine (failover_loop_bounded {[7]} 1 true 1 _ _ Hl). by vm_compute.
Defined.

Lemma retry_delay_exponential_witness :
  sameAccountRetryDelayFor (Some ex_503) 4 = 4 * Second /\
  sameAccountRetryDelayFor (Some ex_503) 60 = 8 * Second.
Proof.
  split.
  - rewrite (retry_delay_exponential ex_503 4 eq_refl); [reflexivity | by vm_compute | lia].
  - rewrite (retry_delay_exponential ex_503 60 eq_refl); [reflexivity | by vm_compute | lia].
Defined.

Lemma vetoed_account_stays_excluded_witness :
  5 ∈ FailedAccountIDs
        (run_loop [(ex_env, ForwardFailover 7 false (Some 0) false ex_503);
                   (ex_env, SelectionFailed)]
           (RecordProfitVeto (NewFailoverState 3 false) 5).1).1.
Proof. apply vetoed_account_stays_excluded; unfold veto_inv; simpl; set_solver. Defined.

Lemma HandleFailoverError_effects_witness :
  let r := HandleFailoverError ex_env (NewFailoverState 3 true) 7 false 0 (Some ex_503) in
  r.2 = [7] /\ ForceCacheBilling r.1.1 = true /\ SwitchCount r.1.1 = 1.
Proof.
  destruct (HandleFailoverError_effects ex_env (NewFailoverState 3 true) 7 false 0 ex_503
    _ _ _ ltac:(by vm_compute) ltac:(by vm_compute) eq_refl) as (_ & H1 & _ & H2 & H3).
  split_and!; [exact H1 | exact H2 | exact H3].
Defined.
