(* ===== verification/IdempotencyStore.v ===== *)
(** * The idempotency record table

[repository/idempotency_repo.go] and [migrations/057_add_idempotency_records.sql]:
the rows of [idempotency_records] and the SQL statements of the repository as
functions on the table.  The unique index on [(scope, idempotency_key_hash)]
is the key of the finite map; [id] comes from a sequence, which a rejected
insertion also advances.  A statement with [WHERE id = ...] looks at every
row, as the database does. *)
From S2P Require Import Prelude.
From Stdlib Require Import Bool.

Local Open Scope string_scope.
Local Open Scope Z_scope.

Definition IdempotencyStatusProcessing := "processing".
Definition IdempotencyStatusSucceeded := "succeeded".
Definition IdempotencyStatusFailedRetryable := "failed_retryable".

Record IdempotencyRecord : Type := mkRecord {
  ID : Z;
  Scope : string;
  IdempotencyKeyHash : string;
  RequestFingerprint : string;
  Status : string;
  ResponseStatus : option Z;
  ResponseBody : option string;
  ErrorReason : option string;
  LockedUntil : option Time;
  ExpiresAt : Time;
  CreatedAt : Time;
  UpdatedAt : Time
}.

(** Scope and key hash. *)
Notation Key := (string * string)%type.

Definition record_key (r : IdempotencyRecord) : Key := (Scope r, IdempotencyKeyHash r).

Record Table : Type := mkTable {
  rows : gmap Key IdempotencyRecord;
  next_id : Z
}.

Definition emptyTable : Table := mkTable ∅ 1.

(** [UPDATE ... SET ... WHERE ...] and the number of rows affected. *)
Definition update_where (p : IdempotencyRecord -> bool)
    (set : IdempotencyRecord -> IdempotencyRecord) (t : Table) : Table :=
  mkTable ((fun r => if p r then set r else r) <$> rows t) (next_id t).

Definition rows_affected (p : IdempotencyRecord -> bool) (t : Table) : Z :=
  Z.of_nat (size (filter (fun kr => p kr.2 = true) (rows t))).

(** The id of the inserted row, or [None] when the key is taken. *)
Definition CreateProcessing (record : IdempotencyRecord) (dbnow : Time) (t : Table)
  : Table * option Z :=
  match rows t !! record_key record with
  | Some _ => (mkTable (rows t) (next_id t + 1), None)
  | None =>
      let r := mkRecord (next_id t) (Scope record) (IdempotencyKeyHash record)
                 (RequestFingerprint record) (Status record) None None None
                 (LockedUntil record) (ExpiresAt record) dbnow dbnow in
      (mkTable (<[record_key record := r]> (rows t)) (next_id t + 1), Some (next_id t))
  end.

Definition GetByScopeAndKeyHash (scope keyHash : string) (t : Table) : option IdempotencyRecord :=
  rows t !! (scope, keyHash).

(** [locked_until IS NULL OR locked_until <= now] *)
Definition lock_free (now : Time) (r : IdempotencyRecord) : bool :=
  match LockedUntil r with None => true | Some l => l <=? now end.

Definition TryReclaim (id : Z) (fromStatus : string) (now newLockedUntil newExpiresAt dbnow : Time)
    (t : Table) : Table * bool :=
  let p r := (ID r =? id) && String.eqb (Status r) fromStatus && lock_free now r in
  let set r :=
    mkRecord (ID r) (Scope r) (IdempotencyKeyHash r) (RequestFingerprint r)
      IdempotencyStatusProcessing (ResponseStatus r) (ResponseBody r) None
      (Some newLockedUntil) newExpiresAt (CreatedAt r) dbnow in
  (update_where p set t, 0 <? rows_affected p t).

Definition ExtendProcessingLock (id : Z) (requestFingerprint : string)
    (newLockedUntil newExpiresAt dbnow : Time) (t : Table) : Table * bool :=
  let p r := (ID r =? id) && String.eqb (Status r) IdempotencyStatusProcessing &&
             String.eqb (RequestFingerprint r) requestFingerprint in
  let set r :=
    mkRecord (ID r) (Scope r) (IdempotencyKeyHash r) (RequestFingerprint r)
      (Status r) (ResponseStatus r) (ResponseBody r) (ErrorReason r)
      (Some newLockedUntil) newExpiresAt (CreatedAt r) dbnow in
  (update_where p set t, 0 <? rows_affected p t).

Definition MarkSucceeded (id responseStatus : Z) (responseBody : string) (expiresAt dbnow : Time)
    (t : Table) : Table :=
  update_where (fun r => ID r =? id)
    (fun r => mkRecord (ID r) (Scope r) (IdempotencyKeyHash r) (RequestFingerprint r)
                IdempotencyStatusSucceeded (Some responseStatus) (Some responseBody) None
                None expiresAt (CreatedAt r) dbnow) t.

Definition MarkFailedRetryable (id : Z) (errorReason : string) (lockedUntil expiresAt dbnow : Time)
    (t : Table) : Table :=
  update_where (fun r => ID r =? id)
    (fun r => mkRecord (ID r) (Scope r) (IdempotencyKeyHash r) (RequestFingerprint r)
                IdempotencyStatusFailedRetryable (ResponseStatus r) (ResponseBody r)
                (Some errorReason) (Some lockedUntil) expiresAt (CreatedAt r) dbnow) t.

(** [expires_at <= now], oldest first, at most [limit] rows. *)
Definition DeleteExpired (now : Time) (limit : Z) (t : Table) : Table * Z :=
  let limit := if limit <=? 0 then 500 else limit in
  let expired := filter (fun kr => (ExpiresAt kr.2 <=? now) = true) (map_to_list (rows t)) in
  let victims :=
    take (Z.to_nat limit) (stable_sort (fun a b => ExpiresAt a.2 <? ExpiresAt b.2) expired) in
  (mkTable (filter (fun kr => ID kr.2 ∉ ((fun v => ID v.2) <$> victims)) (rows t)) (next_id t),
   Z.of_nat (length victims)).

(** ** Lemmas *)

(** What every statement maintains: ids come from the sequence and identify
the row, and a row sits under its own key. *)
Record table_wf (t : Table) : Prop := {
  wf_key k r : rows t !! k = Some r -> record_key r = k;
  wf_next k r : rows t !! k = Some r -> ID r < next_id t;
  wf_id k k' r r' : rows t !! k = Some r -> rows t !! k' = Some r' -> ID r = ID r' -> k = k';
  wf_pos : 0 < next_id t
}.

Lemma table_wf_empty : table_wf emptyTable.
Proof. split; simpl; intros; by simplify_map_eq || lia. Qed.

Lemma update_where_lookup p set t k :
  rows (update_where p set t) !! k = (fun r => if p r then set r else r) <$> rows t !! k.
Proof. apply lookup_fmap. Qed.

(** An update that keeps ids and keys. *)
Definition keeps_identity (set : IdempotencyRecord -> IdempotencyRecord) : Prop :=
  forall r, ID (set r) = ID r /\ record_key (set r) = record_key r.

Lemma update_where_wf p set t : keeps_identity set -> table_wf t -> table_wf (update_where p set t).
Proof.
  intros Hset [Hk Hn Hi Hp].
  assert (Hrow : forall k r, rows (update_where p set t) !! k = Some r ->
            exists r0, rows t !! k = Some r0 /\ ID r = ID r0 /\ record_key r = record_key r0).
  { intros k r. rewrite update_where_lookup. intros (r0 & E & H0)%fmap_Some.
    exists r0. split; [done|]. destruct (Hset r0). destruct (p r0); by subst. }
  split; simpl; [| | |done].
  - intros k r (r0 & H0 & _ & ->)%Hrow. eauto.
  - intros k r (r0 & H0 & -> & _)%Hrow. eauto.
  - intros k k' r r' (r0 & H0 & -> & _)%Hrow (r1 & H1 & -> & _)%Hrow. eauto.
Qed.

Lemma rows_affected_pos p t :
  (0 <? rows_affected p t) = true <-> exists k r, rows t !! k = Some r /\ p r = true.
Proof.
  unfold rows_affected. rewrite Z.ltb_lt. split.
  - intros H. destruct (map_choose (filter (fun kr => p kr.2 = true) (rows t))) as (k & r & E).
    { intros E. rewrite E, map_size_empty in H. lia. }
    apply map_lookup_filter_Some in E as [? ?]. eauto.
  - intros (k & r & E & Hp).
    assert (filter (fun kr => p kr.2 = true) (rows t) !! k = Some r) as E'
      by (by apply map_lookup_filter_Some).
    destruct (decide (filter (fun kr => p kr.2 = true) (rows t) = ∅)) as [Hz|Hz].
    + rewrite Hz in E'. by rewrite lookup_empty in E'.
    + apply map_size_non_empty_iff in Hz. lia.
Qed.

Lemma CreateProcessing_wf record now t :
  table_wf t -> table_wf (CreateProcessing record now t).1.
Proof.
  intros [Hk Hn Hi Hp]. unfold CreateProcessing. case_match eqn:E; simpl.
  - split; simpl; eauto; [|lia]. intros. by eapply Z.lt_trans; [eauto|lia].
  - split; simpl; [| | |lia].
    + intros k r [[<- <-]|[? ?]]%lookup_insert_Some; [done|eauto].
    + intros k r [[<- <-]|[? ?]]%lookup_insert_Some; simpl; [lia|].
      eapply Z.lt_trans; [eauto|lia].
    + intros k k' r r' [[<- <-]|[? H1]]%lookup_insert_Some [[<- <-]|[? H2]]%lookup_insert_Some;
        simpl; intros Hid; eauto.
      * apply Hn in H2. lia.
      * apply Hn in H1. lia.
Qed.

Lemma TryReclaim_wf id from now l e dbnow t :
  table_wf t -> table_wf (TryReclaim id from now l e dbnow t).1.
Proof. intros. by apply update_where_wf. Qed.

Lemma ExtendProcessingLock_wf id fp l e dbnow t :
  table_wf t -> table_wf (ExtendProcessingLock id fp l e dbnow t).1.
Proof. intros. by apply update_where_wf. Qed.

Lemma MarkSucceeded_wf id st body e dbnow t :
  table_wf t -> table_wf (MarkSucceeded id st body e dbnow t).
Proof. intros. by apply update_where_wf. Qed.

Lemma MarkFailedRetryable_wf id reason l e dbnow t :
  table_wf t -> table_wf (MarkFailedRetryable id reason l e dbnow t).
Proof. intros. by apply update_where_wf. Qed.

Lemma DeleteExpired_wf now limit t : table_wf t -> table_wf (DeleteExpired now limit t).1.
Proof.
  intros [Hk Hn Hi Hp]. split; simpl; [| | |done]; intros *.
  - intros [? _]%map_lookup_filter_Some. eauto.
  - intros [? _]%map_lookup_filter_Some. eauto.
  - intros [? _]%map_lookup_filter_Some [? _]%map_lookup_filter_Some. eauto.
Qed.

#[export] Hint Resolve CreateProcessing_wf TryReclaim_wf ExtendProcessingLock_wf MarkSucceeded_wf
  MarkFailedRetryable_wf DeleteExpired_wf table_wf_empty : go.

(** Clean-up never removes a live row. *)
Lemma DeleteExpired_live now limit t k r :
  table_wf t -> rows t !! k = Some r -> now < ExpiresAt r ->
  rows (DeleteExpired now limit t).1 !! k = Some r.
Proof.
  intros Hwf Hr Hlive. simpl. apply map_lookup_filter_Some. split; [done|]. simpl.
  intros ([k' r'] & Hid & Hv)%list_elem_of_fmap. simpl in Hid.
  apply elem_of_take in Hv as (i & Hi & _). apply list_elem_of_lookup_2 in Hi.
  rewrite stable_sort_perm in Hi. apply list_elem_of_filter in Hi as [Hexp Hin].
  apply elem_of_map_to_list in Hin. simpl in Hexp. apply Z.leb_le in Hexp.
  assert (k = k') as <- by (eapply wf_id; eauto). simplify_eq. lia.
Qed.

Lemma DeleteExpired_sub now limit t k r :
  rows (DeleteExpired now limit t).1 !! k = Some r -> rows t !! k = Some r.
Proof. simpl. by intros [? _]%map_lookup_filter_Some. Qed.

(** How a table may evolve: ids only grow, and a row that stays keeps its id. *)
Record table_ext (t t' : Table) : Prop := {
  ext_next : next_id t <= next_id t';
  ext_row k r' : rows t' !! k = Some r' ->
    (exists r, rows t !! k = Some r /\ ID r = ID r') \/ next_id t <= ID r'
}.

#[export] Instance table_ext_refl : Reflexive table_ext.
Proof. intros t. split; [lia|]. eauto. Qed.

Lemma update_where_ext p set t : keeps_identity set -> table_ext t (update_where p set t).
Proof.
  intros Hset. split; [simpl; lia|]. intros k r'. rewrite update_where_lookup.
  intros (r & -> & ->)%fmap_Some. left. exists r. split; [done|].
  destruct (Hset r). by destruct (p r).
Qed.

Lemma CreateProcessing_ext record now t : table_ext t (CreateProcessing record now t).1.
Proof.
  unfold CreateProcessing. case_match; simpl; (split; simpl; [lia|]); intros k r'; [eauto|].
  intros [[<- <-]|[? ?]]%lookup_insert_Some; simpl; [right; lia | eauto].
Qed.

Lemma TryReclaim_ext id from now l e dbnow t : table_ext t (TryReclaim id from now l e dbnow t).1.
Proof. by apply update_where_ext. Qed.

Lemma ExtendProcessingLock_ext id fp l e dbnow t :
  table_ext t (ExtendProcessingLock id fp l e dbnow t).1.
Proof. by apply update_where_ext. Qed.

Lemma MarkSucceeded_ext id st body e dbnow t : table_ext t (MarkSucceeded id st body e dbnow t).
Proof. by apply update_where_ext. Qed.

Lemma MarkFailedRetryable_ext id reason l e dbnow t :
  table_ext t (MarkFailedRetryable id reason l e dbnow t).
Proof. by apply update_where_ext. Qed.

Lemma DeleteExpired_ext now limit t : table_ext t (DeleteExpired now limit t).1.
Proof. split; [done|]. intros k r' ?%DeleteExpired_sub. eauto. Qed.

#[export] Hint Resolve CreateProcessing_ext TryReclaim_ext ExtendProcessingLock_ext MarkSucceeded_ext
  MarkFailedRetryable_ext DeleteExpired_ext : go.

(** An update that does not select the row of a key leaves it alone. *)
Lemma update_where_miss p set t k :
  (forall r, rows t !! k = Some r -> p r = false) ->
  rows (update_where p set t) !! k = rows t !! k.
Proof.
  intros Hp. rewrite update_where_lookup. destruct (rows t !! k) as [r|] eqn:E; [|done].
  simpl. by rewrite (Hp r).
Qed.

#[global] Arguments CreateProcessing : simpl never.
#[global] Arguments TryReclaim : simpl never.
#[global] Arguments ExtendProcessingLock : simpl never.
#[global] Arguments MarkSucceeded : simpl never.
#[global] Arguments MarkFailedRetryable : simpl never.
#[global] Arguments DeleteExpired : simpl never.
#[global] Arguments update_where : simpl never.
