(* ===== verification/Idempotency.v ===== *)
(** * Idempotent execution of write requests

[service/idempotency.go]: the coordinator.  [Execute] is written as a program
whose calls - to the clock, to the record table, to the lease renewal and to
the wrapped request handler - are constructors of [Prog], so that several
requests, the renewal goroutines and the clean-up job
([service/idempotency_cleanup_service.go]) can be interleaved call by call on
one shared table ([IdempotencyStore]).  JSON, the redaction of stored
responses and SHA-256 are parameters.  Metrics and audit logs are left out. *)
From S2P Require Import Prelude GoText IdempotencyStore.
From Stdlib Require Import Bool.

Local Open Scope string_scope.
Local Open Scope Z_scope.

Record IdempotencyConfig : Type := mkConfig {
  DefaultTTL : Duration;
  SystemOperationTTL : Duration;
  ProcessingTimeout : Duration;
  FailedRetryBackoff : Duration;
  MaxStoredResponseLen : Z;
  ObserveOnly : bool
}.

Definition DefaultIdempotencyConfig : IdempotencyConfig :=
  mkConfig (24 * Hour) (1 * Hour) (30 * Second) (5 * Second) (64 * 1024) true.

(** Application errors by reason, with the metadata or cause they carry. *)
Inductive IdempotencyError : Type :=
  | AppError (reason : string)
  | AppErrorCause (reason : string) (cause : goerr)
  | AppErrorRetryAfter (reason : string) (seconds : Z)
  | ExecutorError (e : goerr).

Definition ErrIdempotencyKeyRequired := "IDEMPOTENCY_KEY_REQUIRED".
Definition ErrIdempotencyKeyInvalid := "IDEMPOTENCY_KEY_INVALID".
Definition ErrIdempotencyKeyConflict := "IDEMPOTENCY_KEY_CONFLICT".
Definition ErrIdempotencyInProgress := "IDEMPOTENCY_IN_PROGRESS".
Definition ErrIdempotencyRetryBackoff := "IDEMPOTENCY_RETRY_BACKOFF".
Definition ErrIdempotencyStoreUnavail := "IDEMPOTENCY_STORE_UNAVAILABLE".
Definition ErrIdempotencyInvalidPayload := "IDEMPOTENCY_PAYLOAD_INVALID".

(** [infraerrors.Reason] *)
Fixpoint Reason (e : goerr) : string :=
  match e with
  | ErrMsg _ => ""
  | ErrApp _ reason => reason
  | ErrWrap _ cause => Reason cause
  end.

(** The JSON codec, the redaction filter and the hash the coordinator uses. *)
Class IdempotencyDeps (Data : Type) := {
  emptyObject : Data;
  json_marshal : Data -> res string;
  json_unmarshal : string -> res Data;
  RedactText : string -> string;
  sha256_hex : string -> string;
  ToUpper : string -> string
}.

(** [truncateUTF8]: the loop steps back from [maxBytes]. *)
Fixpoint truncate_back (n : nat) (s : string) : string :=
  if ValidString (str_take n s) then str_take n s
  else match n with O => str_take n s | S n' => truncate_back n' s end.

Definition truncateUTF8 (s : string) (maxBytes : Z) : string :=
  if (maxBytes <=? 0) || (len s <=? maxBytes) then s
  else truncate_back (Z.to_nat maxBytes) s.

(** Every rune is between 33 and 126; a byte outside ASCII belongs to a rune
above 126, so the test can be made byte by byte. *)
Fixpoint printable_key (s : string) : bool :=
  match s with
  | EmptyString => true
  | String a r => (33 <=? ascii_byte a) && (ascii_byte a <=? 126) && printable_key r
  end.

Section Coordinator.
Context `{GoUnicode} {Data : Type} `{IdempotencyDeps Data}.

Record IdempotencyExecuteOptions : Type := mkOptions {
  o_Scope : string;
  ActorScope : string;
  Method : string;
  Route : string;
  IdempotencyKey : string;
  Payload : Data;
  TTL : Duration;
  RequireKey : bool;
  ExecutionTimeout : Duration
}.

(** [Result data replayed] is [&IdempotencyExecuteResult{data, replayed}, nil]. *)
Inductive Outcome : Type :=
  | Result (data : Data) (replayed : bool)
  | Failed (e : IdempotencyError).

Record IdempotencyCoordinator : Type := mkCoordinator {
  repo_nil : bool;
  cfg : IdempotencyConfig
}.

Definition NormalizeIdempotencyKey (raw : string) : option string :=
  let key := TrimSpace raw in
  if String.eqb key "" then Some ""
  else if 128 <? len key then None
  else if printable_key key then Some key else None.

Definition HashIdempotencyKey (key : string) : string := sha256_hex key.

Definition newline : string := String (ascii_of_nat 10) "".

Definition BuildIdempotencyFingerprint (method route actorScope : string) (payload : Data)
  : res string :=
  let method := if String.eqb method "" then "POST" else method in
  let route := if String.eqb route "" then "/" else route in
  let actorScope := if String.eqb actorScope "" then "anonymous" else actorScope in
  match json_marshal payload with
  | Err e => Err e
  | Ok raw =>
      Ok (sha256_hex (ToUpper method +:+ newline +:+ route +:+ newline +:+ actorScope
                      +:+ newline +:+ raw))
  end.

Definition marshalStoredResponse (c : IdempotencyCoordinator) (data : Data) : res string :=
  match json_marshal data with
  | Err e => Err e
  | Ok raw =>
      let redacted := RedactText raw in
      let max := MaxStoredResponseLen (cfg c) in
      Ok (if (0 <? max) && (max <? len redacted)
          then truncateUTF8 redacted max +:+ "...(truncated)" else redacted)
  end.

Definition decodeStoredResponse (stored : option string) : res Data :=
  match stored with
  | None => Ok emptyObject
  | Some s =>
      if String.eqb (TrimSpace s) "" then Ok emptyObject
      else match json_unmarshal s with
           | Err e => Err (ErrWrap "decode stored response" e)
           | Ok d => Ok d
           end
  end.

(** [Duration.Seconds] is a float64; truncating it is the integer quotient for
the durations of this code (its rounding can only show beyond days). *)
Definition conflictWithRetryAfter (base : string) (lockedUntil : option Time) (now : Time)
  : IdempotencyError :=
  match lockedUntil with
  | None => AppError base
  | Some l =>
      let sec := Z.quot (Sub l now) Second in
      AppErrorRetryAfter base (if sec <=? 0 then 1 else sec)
  end.

Definition renewal_lease (c : IdempotencyCoordinator) : Duration :=
  if ProcessingTimeout (cfg c) <=? 0 then ProcessingTimeout DefaultIdempotencyConfig
  else ProcessingTimeout (cfg c).

Definition renewal_interval (c : IdempotencyCoordinator) (ttl : Duration) : Duration :=
  let interval := Z.min (Z.quot (renewal_lease c) 3) (Z.quot ttl 3) in
  if interval <? Millisecond then Millisecond else interval.

(** ** The calls of [Execute] *)

(** A lease renewal goroutine: what it needs at every tick. *)
Record Renewal : Type := mkRenewal {
  rn_id : Z;
  rn_fingerprint : string;
  rn_lease : Duration;
  rn_ttl : Duration
}.

Inductive Prog : Type :=
  | Return (r : Outcome)
  | TimeNow (k : Time -> Prog)
  | CallCreate (record : IdempotencyRecord) (k : res (option Z) -> Prog)
  | CallGet (scope keyHash : string) (k : res (option IdempotencyRecord) -> Prog)
  | CallReclaim (id : Z) (fromStatus : string) (now lockedUntil expiresAt : Time)
      (k : res bool -> Prog)
  | CallSucceeded (id status : Z) (body : string) (expiresAt : Time) (k : res unit -> Prog)
  | CallFailed (id : Z) (reason : string) (lockedUntil expiresAt : Time) (k : res unit -> Prog)
  | StartRenewal (rn : Renewal) (k : Prog)
  | StopRenewal (k : Prog)
  | RunExecutor (k : res Data -> Prog).

Definition unavailable : Outcome := Failed (AppError ErrIdempotencyStoreUnavail).
Definition unavailable_cause (e : goerr) : Outcome :=
  Failed (AppErrorCause ErrIdempotencyStoreUnavail e).

Section Execute.
Context (c : IdempotencyCoordinator) (opts : IdempotencyExecuteOptions).

Definition effective_ttl : Duration := if TTL opts <=? 0 then DefaultTTL (cfg c) else TTL opts.

(** [return r], running the deferred [stopRenewal]. *)
Definition finish (r : Outcome) : Prog :=
  if 0 <? ExecutionTimeout opts then StopRenewal (Return r) else Return r.

(** From the executor's answer to the end of [Execute]. *)
Definition exec_persist (id : Z) (expiresAt : Time) (r : res Data) : Prog :=
  match r with
  | Err e =>
      TimeNow (fun t =>
        let backoffUntil := Add t (FailedRetryBackoff (cfg c)) in
        let reason := if String.eqb (Reason e) "" then "EXECUTION_FAILED" else Reason e in
        CallFailed id reason backoffUntil expiresAt (fun _ =>
        finish (Failed (ExecutorError e))))
  | Ok data =>
      match marshalStoredResponse c data with
      | Err e => finish (unavailable_cause e)
      | Ok storedBody =>
          CallSucceeded id 200 storedBody expiresAt (fun m =>
          match m with
          | Err e => finish (unavailable_cause e)
          | Ok _ => finish (Result data false)
          end)
      end
  end.

(** The claim is won: start the renewal, run the handler, store its outcome. *)
Definition exec_run (id : Z) (fingerprint : string) (expiresAt : Time) : Prog :=
  if id =? 0 then Return unavailable
  else if 0 <? ExecutionTimeout opts then
    StartRenewal (mkRenewal id fingerprint (renewal_lease c) effective_ttl)
      (RunExecutor (fun r => TimeNow (fun t => exec_persist id (Add t effective_ttl) r)))
  else RunExecutor (fun r => exec_persist id expiresAt r).

(** The [switch existing.Status] for a record that was not taken over. *)
Definition exec_existing (existing : IdempotencyRecord) (fingerprint : string)
    (now lockedUntil expiresAt : Time) : Prog :=
  if String.eqb (Status existing) IdempotencyStatusSucceeded then
    match decodeStoredResponse (ResponseBody existing) with
    | Err e => Return (unavailable_cause e)
    | Ok data => Return (Result data true)
    end
  else if String.eqb (Status existing) IdempotencyStatusProcessing then
    Return (Failed (conflictWithRetryAfter ErrIdempotencyInProgress (LockedUntil existing) now))
  else if String.eqb (Status existing) IdempotencyStatusFailedRetryable then
    if match LockedUntil existing with Some l => After l now | None => false end then
      Return (Failed (conflictWithRetryAfter ErrIdempotencyRetryBackoff (LockedUntil existing) now))
    else
      CallReclaim (ID existing) IdempotencyStatusFailedRetryable now lockedUntil expiresAt
        (fun r => match r with
         | Err e => Return (unavailable_cause e)
         | Ok false =>
             Return (Failed (conflictWithRetryAfter ErrIdempotencyInProgress
                               (LockedUntil existing) now))
         | Ok true => exec_run (ID existing) fingerprint expiresAt
         end)
  else Return (Failed (AppError ErrIdempotencyKeyConflict)).

(** The key is taken: read the record and take it over when it has expired. *)
Definition exec_taken (keyHash fingerprint : string) (now lockedUntil expiresAt : Time) : Prog :=
  CallGet (o_Scope opts) keyHash (fun r =>
  match r with
  | Err e => Return (unavailable_cause e)
  | Ok None => Return unavailable
  | Ok (Some existing) =>
      if negb (String.eqb (RequestFingerprint existing) fingerprint)
      then Return (Failed (AppError ErrIdempotencyKeyConflict))
      else if negb (After (ExpiresAt existing) now) then
        CallReclaim (ID existing) (Status existing) now lockedUntil expiresAt (fun r =>
        match r with
        | Err e => Return (unavailable_cause e)
        | Ok true => exec_run (ID existing) fingerprint expiresAt
        | Ok false =>
            CallGet (o_Scope opts) keyHash (fun r =>
            match r with
            | Err e => Return (unavailable_cause e)
            | Ok None => Return unavailable
            | Ok (Some latest) =>
                if negb (String.eqb (RequestFingerprint latest) fingerprint)
                then Return (Failed (AppError ErrIdempotencyKeyConflict))
                else exec_existing latest fingerprint now lockedUntil expiresAt
            end)
        end)
      else exec_existing existing fingerprint now lockedUntil expiresAt
  end).

Definition Execute (execute_nil : bool) : Prog :=
  if execute_nil then Return (Failed (AppError "IDEMPOTENCY_EXECUTOR_NIL"))
  else
    match NormalizeIdempotencyKey (IdempotencyKey opts) with
    | None => Return (Failed (AppError ErrIdempotencyKeyInvalid))
    | Some key =>
        if String.eqb key "" then
          if RequireKey opts && negb (ObserveOnly (cfg c))
          then Return (Failed (AppError ErrIdempotencyKeyRequired))
          else RunExecutor (fun r =>
               match r with
               | Err e => Return (Failed (ExecutorError e))
               | Ok data => Return (Result data false)
               end)
        else if repo_nil c then Return unavailable
        else if String.eqb (o_Scope opts) ""
        then Return (Failed (AppError "IDEMPOTENCY_SCOPE_REQUIRED"))
        else
          match BuildIdempotencyFingerprint (Method opts) (Route opts) (ActorScope opts)
                  (Payload opts) with
          | Err e => Return (Failed (AppErrorCause ErrIdempotencyInvalidPayload e))
          | Ok fingerprint =>
              TimeNow (fun now =>
              let expiresAt := Add now effective_ttl in
              let lockedUntil := Add now (ProcessingTimeout (cfg c)) in
              let keyHash := HashIdempotencyKey key in
              let record :=
                mkRecord 0 (o_Scope opts) keyHash fingerprint IdempotencyStatusProcessing
                  None None None (Some lockedUntil) expiresAt zeroTime zeroTime in
              CallCreate record (fun r =>
              match r with
              | Err e => Return (unavailable_cause e)
              | Ok (Some id) => exec_run id fingerprint expiresAt
              | Ok None => exec_taken keyHash fingerprint now lockedUntil expiresAt
              end))
          end
    end.
End Execute.

(** ** Several requests on one table *)

(** How far a request has come with its claim: a history variable. *)
Inductive Phase : Type :=
  | Idle
  | Owner (id : Z)
  | Finished (id : Z) (ok : bool)
  | Marked.

(** A request in progress: the rest of its program, its renewal goroutine,
and the history of its calls (key, claim, last record and clock read). *)
Record Thread : Type := mkThread {
  prog : Prog;
  t_key : option Key;
  renewer : option Renewal;
  phase : Phase;
  seen : option IdempotencyRecord;
  t_now : Time
}.

(** [log] lists the finished runs of the handler: key and success. *)
Record World : Type := mkWorld {
  clock : Time;
  table : Table;
  threads : list Thread;
  log : list (option Key * bool)
}.

(** A statement works, fails without effect, or takes effect and its answer is
lost. *)
Inductive Fault : Type :=
  | Works
  | FailsBefore (e : goerr)
  | FailsAfter (e : goerr).

Definition faulty {A} (f : Fault) (t t' : Table) (a : A) : Table * res A :=
  match f with
  | Works => (t', Ok a)
  | FailsBefore e => (t, Err e)
  | FailsAfter e => (t', Err e)
  end.

Definition claim_phase (ph : Phase) (r : res (option Z)) : Phase :=
  match r with Ok (Some id) => Owner id | _ => ph end.

Definition reclaim_phase (ph : Phase) (id : Z) (r : res bool) : Phase :=
  match r with Ok true => Owner id | _ => ph end.

Definition next_seen (seen : option IdempotencyRecord) (r : res (option IdempotencyRecord))
  : option IdempotencyRecord :=
  match r with Ok (Some x) => Some x | _ => seen end.

Definition with_prog (p : Prog) (th : Thread) : Thread :=
  mkThread p (t_key th) (renewer th) (phase th) (seen th) (t_now th).
Definition with_phase (p : Prog) (ph : Phase) (th : Thread) : Thread :=
  mkThread p (t_key th) (renewer th) ph (seen th) (t_now th).
Definition with_seen (p : Prog) (s : option IdempotencyRecord) (th : Thread) : Thread :=
  mkThread p (t_key th) (renewer th) (phase th) s (t_now th).
Definition with_now (p : Prog) (t : Time) (th : Thread) : Thread :=
  mkThread p (t_key th) (renewer th) (phase th) None t.
Definition with_renewer (p : Prog) (rn : option Renewal) (th : Thread) : Thread :=
  mkThread p (t_key th) rn (phase th) (seen th) (t_now th).

(** The next call of one request. *)
Definition call_step (now : Time) (t : Table) (f : Fault) (th : Thread) : option (Table * Thread) :=
  match prog th with
  | Return _ | RunExecutor _ => None
  | TimeNow k => Some (t, with_now (k now) now th)
  | CallCreate record k =>
      let '(t', a) := CreateProcessing record now t in
      let '(t', r) := faulty f t t' a in
      Some (t', with_phase (k r) (claim_phase (phase th) r) th)
  | CallGet scope keyHash k =>
      let '(t', r) := faulty f t t (GetByScopeAndKeyHash scope keyHash t) in
      Some (t', with_seen (k r) (next_seen (seen th) r) th)
  | CallReclaim id from n l e k =>
      let '(t', a) := TryReclaim id from n l e now t in
      let '(t', r) := faulty f t t' a in
      Some (t', with_phase (k r) (reclaim_phase (phase th) id r) th)
  | CallSucceeded id st body e k =>
      let '(t', r) := faulty f t (MarkSucceeded id st body e now t) tt in
      Some (t', with_phase (k r) Marked th)
  | CallFailed id reason l e k =>
      let '(t', r) := faulty f t (MarkFailedRetryable id reason l e now t) tt in
      Some (t', with_phase (k r) Marked th)
  | StartRenewal rn k => Some (t, with_renewer k (Some rn) th)
  | StopRenewal k => Some (t, with_renewer k None th)
  end.

(** The handler of one request answers. *)
Definition exec_step (r : res Data) (th : Thread) : option Thread :=
  match prog th with
  | RunExecutor k =>
      Some (with_phase (k r)
              (match phase th with Owner id => Finished id (is_ok r) | ph => ph end) th)
  | _ => None
  end.

(** One tick of a renewal goroutine: it ends when its record is no longer
processing. *)
Definition renew_step (now : Time) (t : Table) (f : Fault) (th : Thread) : option (Table * Thread) :=
  match renewer th with
  | None => None
  | Some rn =>
      let '(t', a) := ExtendProcessingLock (rn_id rn) (rn_fingerprint rn)
                        (Add now (rn_lease rn)) (Add now (rn_ttl rn)) now t in
      let '(t', r) := faulty f t t' a in
      Some (t', match r with
                | Ok false => with_renewer (prog th) None th
                | _ => th
                end)
  end.

Definition request_key (opts : IdempotencyExecuteOptions) : option Key :=
  match NormalizeIdempotencyKey (IdempotencyKey opts) with
  | Some key => if String.eqb key "" then None else Some (o_Scope opts, HashIdempotencyKey key)
  | None => None
  end.

Inductive Label : Type :=
  | Tick (d : N)
  | Spawn (c : IdempotencyCoordinator) (opts : IdempotencyExecuteOptions) (execute_nil : bool)
  | Call (i : nat) (f : Fault)
  | Answer (i : nat) (r : res Data)
  | RenewTick (i : nat) (f : Fault)
  | Cleanup (limit : Z) (f : Fault).

Definition step (w : World) (l : Label) : option World :=
  match l with
  | Tick d => Some (mkWorld (clock w + Z.of_N d) (table w) (threads w) (log w))
  | Spawn c opts execute_nil =>
      Some (mkWorld (clock w) (table w)
              (threads w ++ [mkThread (Execute c opts execute_nil) (request_key opts) None Idle
                               None (clock w)])
              (log w))
  | Call i f =>
      th ← threads w !! i;
      r ← call_step (clock w) (table w) f th;
      Some (mkWorld (clock w) r.1 (<[i := r.2]> (threads w)) (log w))
  | Answer i r =>
      th ← threads w !! i;
      th' ← exec_step r th;
      Some (mkWorld (clock w) (table w) (<[i := th']> (threads w)) ((t_key th, is_ok r) :: log w))
  | RenewTick i f =>
      th ← threads w !! i;
      r ← renew_step (clock w) (table w) f th;
      Some (mkWorld (clock w) r.1 (<[i := r.2]> (threads w)) (log w))
  | Cleanup limit f =>
      let '(t', _) := faulty f (table w) (DeleteExpired (clock w) limit (table w)).1 tt in
      Some (mkWorld (clock w) t' (threads w) (log w))
  end.

Definition init (now : Time) : World := mkWorld now emptyTable [] [].

(** ** The calling discipline of [Execute]

What the interleaving proofs use of a request's program: it claims its own
key, takes over only a record it has read (one that had failed, or one that
had expired at the time it read), runs the handler under a claim and at most
once, and stores the outcome the handler had. *)
Fixpoint obeys (key : Key) (tn : Time) (ph : Phase) (seen : option IdempotencyRecord) (p : Prog)
  : Prop :=
  match p with
  | Return _ => True
  | TimeNow k => forall t, obeys key t ph None (k t)
  | CallCreate record k =>
      ph = Idle /\ record_key record = key /\ Status record = IdempotencyStatusProcessing /\
      forall r, obeys key tn (claim_phase ph r) seen (k r)
  | CallGet scope keyHash k =>
      ph = Idle /\ (scope, keyHash) = key /\
      forall r, obeys key tn ph (next_seen seen r) (k r)
  | CallReclaim id from n _ _ k =>
      ph = Idle /\ n = tn /\
      (exists x, seen = Some x /\ ID x = id /\
         (from = IdempotencyStatusFailedRetryable \/ ExpiresAt x <= n)) /\
      forall r, obeys key tn (reclaim_phase ph id r) seen (k r)
  | CallSucceeded id _ _ _ k =>
      ph = Finished id true /\ forall r, obeys key tn Marked seen (k r)
  | CallFailed id _ _ _ k =>
      ph = Finished id false /\ forall r, obeys key tn Marked seen (k r)
  | StartRenewal rn k => ph = Owner (rn_id rn) /\ obeys key tn ph seen k
  | StopRenewal k => obeys key tn ph seen k
  | RunExecutor k =>
      exists id, ph = Owner id /\ forall r, obeys key tn (Finished id (is_ok r)) seen (k r)
  end.

Lemma finish_obeys opts key tn ph s o : obeys key tn ph s (finish opts o).
Proof. unfold finish. by case_match. Qed.

Lemma exec_persist_obeys c opts key tn id e r s :
  obeys key tn (Finished id (is_ok r)) s (exec_persist c opts id e r).
Proof.
  unfold exec_persist. destruct r as [d|e']; simpl.
  - case_match; [|apply finish_obeys]. simpl. split; [done|].
    intros []; apply finish_obeys.
  - intros t. split; [done|]. intros _. apply finish_obeys.
Qed.

Lemma exec_run_obeys c opts key tn id fp e s :
  obeys key tn (Owner id) s (exec_run c opts id fp e).
Proof.
  unfold exec_run. repeat case_match; simpl; [done| |].
  - split; [done|]. exists id. split; [done|]. intros r t. apply exec_persist_obeys.
  - exists id. split; [done|]. intros r. apply exec_persist_obeys.
Qed.

Lemma exec_existing_obeys c opts key tn x fp l e :
  obeys key tn Idle (Some x) (exec_existing c opts x fp tn l e).
Proof.
  unfold exec_existing. repeat case_match; try done; simpl.
  all: split_and!; [done|done|by eauto|].
  all: intros [[]|]; simpl; try done; apply exec_run_obeys.
Qed.

Lemma exec_taken_obeys c opts h tn fp l e :
  obeys (o_Scope opts, h) tn Idle None (exec_taken c opts h fp tn l e).
Proof.
  unfold exec_taken. simpl. split_and!; [done|done|].
  intros [[x|]|]; simpl; try done. case_match; [done|]. case_match.
  - simpl. split_and!; [done|done| |].
    + exists x. split_and!; [done|done|]. right. bool_prop. unfold After in *. bool_prop. done.
    + intros [[]|]; simpl; try done; [apply exec_run_obeys|].
      split_and!; [done|done|]. intros [[y|]|]; simpl; try done.
      case_match; [done|]. apply exec_existing_obeys.
  - apply exec_existing_obeys.
Qed.

Lemma Execute_obeys c opts n key tn :
  request_key opts = Some key -> obeys key tn Idle None (Execute c opts n).
Proof.
  unfold request_key, Execute. destruct n; [done|].
  destruct (NormalizeIdempotencyKey _) as [k|]; [|done].
  destruct (String.eqb k ""); [done|]. intros [= <-]. repeat case_match; try done.
  simpl. intros t. split_and!; [done|done|done|].
  intros [[id|]|]; simpl; try done; [apply exec_run_obeys | apply exec_taken_obeys].
Qed.

(** A request without a key only runs its handler. *)
Definition unkeyed (p : Prog) : Prop :=
  match p with
  | Return _ => True
  | RunExecutor k => forall r, exists o, k r = Return o
  | _ => False
  end.

Lemma Execute_unkeyed c opts n : request_key opts = None -> unkeyed (Execute c opts n).
Proof.
  unfold request_key, Execute. destruct n; [done|].
  destruct (NormalizeIdempotencyKey _) as [k|]; [|done].
  destruct (String.eqb k ""); [|done]. intros _. case_match; [done|]. intros []; eauto.
Qed.

(** ** What every interleaving maintains *)

Definition disciplined (th : Thread) : Prop :=
  match t_key th with
  | None => unkeyed (prog th) /\ renewer th = None /\ phase th = Idle /\ seen th = None
  | Some key => obeys key (t_now th) (phase th) (seen th) (prog th)
  end.

(** The record ids a request holds. *)
Definition phase_ids (ph : Phase) : list Z :=
  match ph with Owner id | Finished id _ => [id] | _ => [] end.

Definition thread_ids (th : Thread) : list Z :=
  phase_ids (phase th) ++ (ID <$> option_list (seen th)) ++ (rn_id <$> option_list (renewer th)).

Lemma thread_ids_phase p ph th id :
  id ∈ thread_ids (with_phase p ph th) -> id ∈ phase_ids ph \/ id ∈ thread_ids th.
Proof. unfold thread_ids; simpl. rewrite !elem_of_app. tauto. Qed.

Lemma thread_ids_seen p s th id :
  id ∈ thread_ids (with_seen p s th) ->
  (exists x, s = Some x /\ id = ID x) \/ id ∈ thread_ids th.
Proof.
  unfold thread_ids; simpl. rewrite !elem_of_app. destruct s as [x|]; simpl.
  - intros [?|[Hs|?]]; [tauto| |tauto]. apply list_elem_of_singleton in Hs. eauto.
  - intros [?|[Hs|?]]; [tauto| |tauto]. by apply elem_of_nil in Hs.
Qed.

Lemma thread_ids_now p t th id : id ∈ thread_ids (with_now p t th) -> id ∈ thread_ids th.
Proof. unfold thread_ids; simpl. rewrite !elem_of_app. tauto. Qed.

Lemma thread_ids_renewer p rn th id :
  id ∈ thread_ids (with_renewer p rn th) ->
  (exists x, rn = Some x /\ id = rn_id x) \/ id ∈ thread_ids th.
Proof.
  unfold thread_ids; simpl. rewrite !elem_of_app. destruct rn as [x|]; simpl.
  - intros [?|[?|Hs]]; [tauto|tauto|]. apply list_elem_of_singleton in Hs. eauto.
  - intros [?|[?|Hs]]; [tauto|tauto|]. by apply elem_of_nil in Hs.
Qed.

(** An id held for [key] was issued and is no other key's row. *)
Definition id_ok (t : Table) (key : option Key) (id : Z) : Prop :=
  id < next_id t /\ forall k r, rows t !! k = Some r -> ID r = id -> key = Some k.

Record thread_wf (now : Time) (t : Table) (th : Thread) : Prop := {
  tw_disciplined : disciplined th;
  tw_now : t_now th <= now;
  tw_ids id : id ∈ thread_ids th -> id_ok t (t_key th) id
}.

Lemma id_ok_ext t t' key id : table_ext t t' -> id_ok t key id -> id_ok t' key id.
Proof.
  intros [Hn Hr] [Hlt Hk]. split; [lia|]. intros k r Hr' Hid.
  destruct (Hr k r Hr') as [(r0 & E & E')|?]; [|lia]. apply (Hk k r0 E). congruence.
Qed.

Lemma thread_wf_ext now now' t t' th :
  table_ext t t' -> now <= now' -> thread_wf now t th -> thread_wf now' t' th.
Proof. intros He Hle [Hd Hn Hi]. split; [done|lia|]. intros. eapply id_ok_ext; eauto. Qed.

Lemma faulty_table {A} (P : Table -> Prop) f t t' (a : A) :
  P t -> P t' -> P (faulty f t t' a).1.
Proof. by destruct f. Qed.

(** A claim that succeeds holds the id of the row it inserted. *)
Lemma CreateProcessing_id_ok record now t id :
  table_wf t -> (CreateProcessing record now t).2 = Some id ->
  id_ok (CreateProcessing record now t).1 (Some (record_key record)) id.
Proof.
  intros Hwf. unfold CreateProcessing. case_match; simpl; [done|]. intros [= <-].
  split; simpl; [lia|]. intros k r [[<- _]|[_ Hk]]%lookup_insert_Some; [done|].
  intros Hid. apply (wf_next _ Hwf) in Hk. lia.
Qed.

Lemma GetByScopeAndKeyHash_id_ok scope hash t x :
  table_wf t -> GetByScopeAndKeyHash scope hash t = Some x ->
  id_ok t (Some (scope, hash)) (ID x).
Proof.
  intros Hwf Hx. split; [by eapply wf_next|]. intros k r Hr Hid.
  f_equal. by eapply (wf_id _ Hwf).
Qed.

(** The discipline of a continuation, at the answer it was given. *)
Ltac use_cont Hk :=
  match goal with |- obeys _ _ _ _ (_ ?r) => exact (Hk r) end.

Lemma call_step_wf now t f th t' th' :
  table_wf t -> thread_wf now t th -> call_step now t f th = Some (t', th') ->
  table_wf t' /\ table_ext t t' /\ thread_wf now t' th'.
Proof.
  intros Ht Hth Hstep. pose proof Hth as [Hd Hn Hi]. unfold call_step in Hstep.
  unfold disciplined in Hd. destruct (t_key th) as [key|] eqn:Hkey.
  2:{ destruct Hd as (Hu & _). destruct (prog th); done. }
  assert (Hkeep : forall t1, table_ext t t1 -> forall id, id ∈ thread_ids th -> id_ok t1 (Some key) id)
    by (intros; eapply id_ok_ext; eauto).
  destruct (prog th) as [o|k|rec k|s h k|id from n l e k|id st body e k|id reason l e k|rn k|k|k];
    simpl in Hd; try done.
  - simplify_eq. split_and!; [done..|]. split; unfold disciplined; simpl; rewrite ?Hkey;
      [apply Hd|done|]. intros id Hid%thread_ids_now. auto.
  - destruct Hd as (Hph & Hrec & _ & Hk). rewrite <- Hrec in *.
    pose proof (CreateProcessing_wf rec now t Ht) as Hw1.
    pose proof (CreateProcessing_ext rec now t) as He1.
    pose proof (fun id => CreateProcessing_id_ok rec now t id Ht) as Hok.
    destruct (CreateProcessing rec now t) as [t1 a]. simpl in Hw1, He1, Hok.
    destruct f; simpl in Hstep; simplify_eq; (split_and!; [done..|]);
      (split; unfold disciplined; simpl; rewrite ?Hkey; [use_cont Hk|done|]);
      intros id [Hid|Hid]%thread_ids_phase; try (by apply Hkeep).
    all: rewrite Hph in Hid; try (by apply elem_of_nil in Hid).
    destruct a as [id'|]; [|by apply elem_of_nil in Hid].
    apply list_elem_of_singleton in Hid as ->. by apply Hok.
  - destruct Hd as (Hph & Hsh & Hk).
    pose proof (fun x => GetByScopeAndKeyHash_id_ok s h t x Ht) as Hok. rewrite Hsh in Hok.
    destruct f; simpl in Hstep; simplify_eq; (split_and!; [done..|]);
      (split; unfold disciplined; simpl; rewrite ?Hkey; [use_cont Hk|done|]);
      intros id [(x & Hx & ->)|Hid]%thread_ids_seen; try (by apply Hkeep).
    all: try (apply Hkeep; [done|]; unfold thread_ids; rewrite Hx, !elem_of_app; right; left;
              by apply list_elem_of_singleton).
    destruct (GetByScopeAndKeyHash s h _) as [y|]; [simplify_eq; by apply Hok|].
    apply Hkeep; [done|]; unfold thread_ids. rewrite Hx, !elem_of_app. right; left.
    by apply list_elem_of_singleton.
  - destruct Hd as (Hph & Hn' & (x & Hx & Hid' & _) & Hk).
    pose proof (TryReclaim_wf id from n l e now t Ht) as Hw1.
    pose proof (TryReclaim_ext id from n l e now t) as He1.
    destruct (TryReclaim id from n l e now t) as [t1 a]. simpl in Hw1, He1.
    assert (Hin : id ∈ thread_ids th).
    { unfold thread_ids. rewrite Hx, !elem_of_app. right; left. by apply list_elem_of_singleton. }
    destruct f; simpl in Hstep; simplify_eq; (split_and!; [done..|]);
      (split; unfold disciplined; simpl; rewrite ?Hkey; [use_cont Hk|done|]);
      intros i [Hi'|Hi']%thread_ids_phase; try (by apply Hkeep).
    all: rewrite Hph in Hi'; try (by apply elem_of_nil in Hi').
    destruct a; [|by apply elem_of_nil in Hi']. apply list_elem_of_singleton in Hi' as ->.
    by apply Hkeep.
  - destruct Hd as (Hph & Hk).
    pose proof (MarkSucceeded_wf id st body e now t Ht) as Hw1.
    pose proof (MarkSucceeded_ext id st body e now t) as He1.
    destruct f; simpl in Hstep; simplify_eq; (split_and!; [done..|]);
      (split; unfold disciplined; simpl; rewrite ?Hkey; [use_cont Hk|done|]);
      intros i [Hi'%elem_of_nil|Hi']%thread_ids_phase; try done; by apply Hkeep.
  - destruct Hd as (Hph & Hk).
    pose proof (MarkFailedRetryable_wf id reason l e now t Ht) as Hw1.
    pose proof (MarkFailedRetryable_ext id reason l e now t) as He1.
    destruct f; simpl in Hstep; simplify_eq; (split_and!; [done..|]);
      (split; unfold disciplined; simpl; rewrite ?Hkey; [use_cont Hk|done|]);
      intros i [Hi'%elem_of_nil|Hi']%thread_ids_phase; try done; by apply Hkeep.
  - destruct Hd as (Hph & Hk). simplify_eq. split_and!; [done..|].
    split; unfold disciplined; simpl; rewrite ?Hkey; [done|done|].
    intros i [(x & [= <-] & ->)|Hi']%thread_ids_renewer; [|auto].
    apply Hi. unfold thread_ids. rewrite Hph, !elem_of_app. left. by apply list_elem_of_singleton.
  - simplify_eq. split_and!; [done..|].
    split; unfold disciplined; simpl; rewrite ?Hkey; [done|done|].
    intros i [(x & ? & ->)|Hi']%thread_ids_renewer; [done|auto].
Qed.

Lemma exec_step_wf now t r th th' :
  thread_wf now t th -> exec_step r th = Some th' -> thread_wf now t th'.
Proof.
  intros [Hd Hn Hi] Hstep. unfold exec_step in Hstep. unfold disciplined in Hd.
  destruct (prog th) as [| | | | | | | | |k]; try done. simplify_eq.
  destruct (t_key th) as [key|] eqn:Hkey.
  - destruct Hd as (id & Hph & Hk). rewrite Hph.
    split; unfold disciplined; simpl; rewrite ?Hkey; [use_cont Hk|done|].
    intros i [Hi'|Hi']%thread_ids_phase; [|auto].
    apply Hi. unfold thread_ids. rewrite Hph, elem_of_app. by left.
  - destruct Hd as (Hu & Hr & Hph & Hs). rewrite Hph.
    split; unfold disciplined; simpl; rewrite ?Hkey; [|done|].
    + destruct (Hu r) as [o ->]. done.
    + intros i Hi'. unfold thread_ids in Hi'. simpl in Hi'. rewrite Hs, Hr in Hi'.
      by apply elem_of_nil in Hi'.
Qed.

Lemma renew_step_wf now t f th t' th' :
  table_wf t -> thread_wf now t th -> renew_step now t f th = Some (t', th') ->
  table_wf t' /\ table_ext t t' /\ thread_wf now t' th'.
Proof.
  intros Ht Hth Hstep. unfold renew_step in Hstep.
  destruct (renewer th) as [rn|] eqn:Hrn; [|done].
  set (l := Add now (rn_lease rn)) in *. set (e := Add now (rn_ttl rn)) in *.
  pose proof (ExtendProcessingLock_wf (rn_id rn) (rn_fingerprint rn) l e now t Ht) as Hw.
  pose proof (ExtendProcessingLock_ext (rn_id rn) (rn_fingerprint rn) l e now t) as He.
  destruct (ExtendProcessingLock _ _ _ _ _ _) as [t1 a]. simpl in *.
  destruct f; simpl in Hstep; simplify_eq; (split_and!; [done..|]);
    try exact Hth; try (by eapply thread_wf_ext; eauto; lia).
  destruct a; [by eapply thread_wf_ext; eauto; lia|].
  pose proof (thread_wf_ext now now _ _ th He ltac:(lia) Hth) as [Hd Hn Hi].
  split; [|done|intros i [(x & ? & _)|?]%thread_ids_renewer; [done|by auto]].
  unfold disciplined in *. simpl. destruct (t_key th); [done|]. by destruct Hd as (? & ? & ?).
Qed.

Record world_wf (w : World) : Prop := {
  ww_table : table_wf (table w);
  ww_threads : Forall (thread_wf (clock w) (table w)) (threads w)
}.

(** A step changes at most one request, and the table only as statements do. *)
Lemma world_wf_update w t' ths' lg' i th th' :
  world_wf w -> threads w !! i = Some th ->
  table_wf t' /\ table_ext (table w) t' /\ thread_wf (clock w) t' th' ->
  ths' = <[i := th']> (threads w) ->
  world_wf (mkWorld (clock w) t' ths' lg').
Proof.
  intros [_ Hths] Hi (Ht' & He & Hth') ->. split; [done|]. simpl. apply Forall_insert; [|done].
  eapply Forall_impl; [exact Hths|]. intros x Hx. eapply thread_wf_ext; eauto. lia.
Qed.

Lemma step_wf w l w' : world_wf w -> step w l = Some w' -> world_wf w'.
Proof.
  intros Hw Hstep. pose proof Hw as [Ht Hths].
  assert (Hat : forall i th, threads w !! i = Some th -> thread_wf (clock w) (table w) th)
    by (intros; by eapply Forall_lookup_1).
  destruct l as [d|c opts n|i f|i r|i f|limit f]; unfold step in Hstep.
  - simplify_eq. split; [done|]. simpl. eapply Forall_impl; [exact Hths|].
    intros x Hx. eapply thread_wf_ext; eauto; [reflexivity|lia].
  - simplify_eq. split; [done|]. simpl. apply Forall_app. split; [done|]. constructor; [|constructor].
    split; simpl; [|lia|intros id Hid; by apply elem_of_nil in Hid].
    unfold disciplined. simpl. destruct (request_key opts) eqn:E;
      [by apply Execute_obeys | split_and!; [by apply Execute_unkeyed|done..]].
  - destruct (threads w !! i) as [th|] eqn:E; simpl in Hstep; [|done].
    destruct (call_step _ _ _ _) as [[t' th']|] eqn:Ec; simpl in Hstep; [|done]. simplify_eq.
    eapply world_wf_update; eauto. eapply call_step_wf; eauto.
  - destruct (threads w !! i) as [th|] eqn:E; simpl in Hstep; [|done].
    destruct (exec_step _ _) as [th'|] eqn:Ec; simpl in Hstep; [|done]. simplify_eq.
    eapply world_wf_update; eauto. split_and!; [done|done|]. eapply exec_step_wf; eauto.
  - destruct (threads w !! i) as [th|] eqn:E; simpl in Hstep; [|done].
    destruct (renew_step _ _ _ _) as [[t' th']|] eqn:Ec; simpl in Hstep; [|done]. simplify_eq.
    eapply world_wf_update; eauto. eapply renew_step_wf; eauto.
  - destruct (faulty _ _ _ _) as [t' r] eqn:Ef.
    pose proof (faulty_table (fun t' => table_wf t' /\ table_ext (table w) t') f (table w)
      (DeleteExpired (clock w) limit (table w)).1 tt) as Hf. rewrite Ef in Hf. cbn [fst] in Hf.
    destruct Hf as [Hw1 He1]; [split; [done|reflexivity]|
      split; [by apply DeleteExpired_wf|apply DeleteExpired_ext]|].
    simplify_eq. split; [done|]. simpl. eapply Forall_impl; [exact Hths|].
    intros x Hx. eapply thread_wf_ext; eauto; lia.
Qed.

(** ** One key *)

Section OneKey.
Context (K : Key).

(** The record of [K], if any, has not expired. *)
Definition unexpired (w : World) : Prop :=
  forall r, rows (table w) !! K = Some r -> clock w < ExpiresAt r.

(** A handler for [K] is running. *)
Definition running (th : Thread) : Z :=
  match prog th with
  | RunExecutor _ => if decide (t_key th = Some K) then 1 else 0
  | _ => 0
  end.

(** Successful runs of the handler for [K]. *)
Definition successes (lg : list (option Key * bool)) : Z :=
  total (fun e : option Key * bool =>
           if decide (e.1 = Some K) then if e.2 then 1 else 0 else 0) lg.

(** A claim on [K] that has not ended in a success. *)
Definition pending (th : Thread) : Z :=
  match phase th with
  | Owner _ | Finished _ false => if decide (t_key th = Some K) then 1 else 0
  | _ => 0
  end.

(** [n] claims and successes are allowed for the row of [K]. *)
Definition row_ok (t : Table) (n : Z) : Prop :=
  match rows t !! K with
  | None => n = 0
  | Some r => n <= 1 /\ (Status r = IdempotencyStatusFailedRetryable -> n = 0)
  end.

(** What a request has read of the row of [K] had not expired when it read
the clock. *)
Definition seen_fresh (th : Thread) : Prop :=
  forall x, t_key th = Some K -> seen th = Some x -> t_now th < ExpiresAt x.

Definition claims (w : World) : Z := total pending (threads w) + successes (log w).

Lemma pending_nonneg th : 0 <= pending th.
Proof. unfold pending. repeat case_match; lia. Qed.

Lemma pending_other th : t_key th <> Some K -> pending th = 0.
Proof. unfold pending. intros. repeat case_match; congruence || lia. Qed.

Lemma pending_phase p ph th :
  t_key th = Some K ->
  pending (with_phase p ph th) = match ph with Owner _ | Finished _ false => 1 | _ => 0 end.
Proof. unfold pending; simpl. intros. repeat case_match; congruence || lia. Qed.

Lemma successes_cons e lg :
  successes (e :: lg) = (if decide (e.1 = Some K) then if e.2 then 1 else 0 else 0) + successes lg.
Proof. done. Qed.

Lemma successes_nonneg lg : 0 <= successes lg.
Proof. apply total_nonneg. intros. repeat case_match; lia. Qed.

(** Statements on a row of another key leave the row of [K] alone. *)
Lemma row_ok_update p set t n key id :
  (forall r, p r = true -> ID r = id) -> key <> Some K -> id_ok t key id ->
  row_ok t n -> row_ok (update_where p set t) n.
Proof.
  intros Hp Hkey [_ Hid]. unfold row_ok. rewrite update_where_miss; [done|].
  intros r Hr. destruct (p r) eqn:E; [|done]. by destruct (Hkey (Hid K r Hr (Hp r E))).
Qed.

(** A statement that does not set the failed status. *)
Lemma row_ok_keep p set t n :
  (forall r, Status (set r) <> IdempotencyStatusFailedRetryable \/ Status (set r) = Status r) ->
  row_ok t n -> row_ok (update_where p set t) n.
Proof.
  intros Hset. unfold row_ok. rewrite update_where_lookup.
  destruct (rows t !! K) as [r|]; simpl; [|done]. intros [Hn Hf]. split; [done|].
  destruct (p r); [|done]. destruct (Hset r) as [?|Hs]; [done|]. by rewrite Hs.
Qed.

Lemma row_ok_MarkFailed id reason l e now t :
  row_ok t 1 -> row_ok (MarkFailedRetryable id reason l e now t) 0.
Proof.
  unfold row_ok, MarkFailedRetryable. rewrite update_where_lookup.
  destruct (rows t !! K); simpl; [|lia]. intros _. split; [lia|done].
Qed.

Lemma row_ok_drop t n m : 0 <= m <= n -> row_ok t n -> row_ok t m.
Proof. unfold row_ok. intros ?. case_match; [|lia]. intros [? Hf]. split; [lia|]. intros E. apply Hf in E. lia. Qed.

Ltac use_row H := eapply row_ok_drop; [|exact H]; lia.

Lemma row_ok_le t n : row_ok t n -> n <= 1.
Proof. unfold row_ok. case_match; lia. Qed.

(** Taking over a failed record of [K]: nothing was pending. *)
Lemma row_ok_reclaim id from now l e dbnow t n :
  id_ok t (Some K) id -> from = IdempotencyStatusFailedRetryable ->
  (TryReclaim id from now l e dbnow t).2 = true -> row_ok t n ->
  n = 0 /\ row_ok (TryReclaim id from now l e dbnow t).1 1.
Proof.
  intros [_ Hid] -> Htaken Hn. unfold TryReclaim in *. cbn [fst snd] in *.
  apply rows_affected_pos in Htaken as (k & r & Hr & Hp).
  apply andb_true_iff in Hp as [Hp Hl]. apply andb_true_iff in Hp as [Hid' Hs].
  apply Z.eqb_eq in Hid'. pose proof (Hid k r Hr Hid') as [= <-].
  unfold row_ok in *. rewrite update_where_lookup, Hr in *. simpl.
  apply String.eqb_eq in Hs. destruct Hn as [Hn Hf]. split; [by apply Hf|].
  rewrite Hl, Hid', Z.eqb_refl, Hs. simpl. split; [lia|discriminate].
Qed.

(** Inserting a row: for [K], nothing was pending. *)
Lemma row_ok_create record now t n :
  Status record = IdempotencyStatusProcessing -> 0 <= n -> row_ok t n ->
  row_ok (CreateProcessing record now t).1
    (match (CreateProcessing record now t).2 with
     | Some _ => if decide (record_key record = K) then n + 1 else n
     | None => n
     end).
Proof.
  intros Hs Hpos. unfold CreateProcessing, row_ok. destruct (rows t !! record_key record) eqn:E; [done|].
  simpl. destruct (decide (record_key record = K)) as [Hk|Hne].
  - rewrite Hk in *. rewrite lookup_insert_eq, E. simpl. rewrite Hs. intros ->. split; [lia|discriminate].
  - by rewrite lookup_insert_ne.
Qed.

(** A call of a request on another key does not disturb the row of [K]. *)
Lemma call_step_other now t f th t' th' n :
  table_wf t -> thread_wf now t th -> t_key th <> Some K -> 0 <= n ->
  row_ok t n -> call_step now t f th = Some (t', th') -> row_ok t' n /\ t_key th' = t_key th.
Proof.
  intros Ht [Hd _ Hids] Hkey Hn Hrow Hstep. unfold disciplined in Hd. unfold call_step in Hstep.
  destruct (t_key th) as [key|] eqn:Hk0.
  2:{ destruct Hd as (Hu & _). destruct (prog th); done. }
  assert (Hphid : forall id, id ∈ phase_ids (phase th) -> id_ok t (Some key) id).
  { intros id Hid. apply Hids. unfold thread_ids. rewrite elem_of_app. by left. }
  destruct (prog th) as [o|k|rec k|s h k|id from nw l e k|id st body e k|id reason l e k|rn k|k|k];
    simpl in Hd; try done.
  - by simplify_eq.
  - destruct Hd as (_ & Hrec & Hs & _).
    pose proof (row_ok_create rec now t n Hs Hn Hrow) as Hc.
    destruct (decide (record_key rec = K)) as [Heq|_]; [congruence|].
    destruct (CreateProcessing rec now t) as [t1 a]. cbn [fst snd] in Hc.
    assert (row_ok t1 n) by (by destruct a).
    destruct f; simpl in Hstep; by simplify_eq.
  - destruct f; simpl in Hstep; by simplify_eq.
  - destruct Hd as (_ & _ & (x & Hx & Hxid & _) & _).
    assert (Hid : id_ok t (Some key) id).
    { apply Hids. unfold thread_ids. rewrite Hx, !elem_of_app. right; left.
      subst. by apply list_elem_of_singleton. }
    assert (Hr : row_ok (TryReclaim id from nw l e now t).1 n).
    { eapply row_ok_update; eauto. intros r Hp. by bool_prop. }
    destruct (TryReclaim id from nw l e now t) as [t1 a]. cbn [fst] in Hr.
    destruct f; simpl in Hstep; by simplify_eq.
  - destruct Hd as (Hph & _). rewrite Hph in Hphid.
    assert (Hr : row_ok (MarkSucceeded id st body e now t) n).
    { apply row_ok_keep; [|done]. intros r. by left. }
    destruct f; simpl in Hstep; by simplify_eq.
  - destruct Hd as (Hph & _). rewrite Hph in Hphid.
    assert (Hr : row_ok (MarkFailedRetryable id reason l e now t) n).
    { eapply (row_ok_update _ _ _ _ _ id); eauto; [intros r Hp; by bool_prop|].
      apply Hphid. by apply list_elem_of_singleton. }
    destruct f; simpl in Hstep; by simplify_eq.
  - by simplify_eq.
  - by simplify_eq.
Qed.

Definition claim_of (ph : Phase) : Z :=
  match ph with Owner _ | Finished _ false => 1 | _ => 0 end.

Lemma pending_own th : t_key th = Some K -> pending th = claim_of (phase th).
Proof. unfold pending, claim_of. intros. repeat case_match; congruence || lia. Qed.

Lemma seen_fresh_same th th' :
  t_key th' = t_key th -> seen th' = seen th -> t_now th' = t_now th ->
  seen_fresh th -> seen_fresh th'.
Proof. unfold seen_fresh. intros -> -> -> Hf. exact Hf. Qed.

(** A call of a request on [K] keeps the row in step with its claim; [n]
counts the other claims and the successes. *)
Lemma call_step_own now t f th t' th' n :
  thread_wf now t th -> t_key th = Some K -> seen_fresh th -> 0 <= n ->
  (forall r, rows t !! K = Some r -> now < ExpiresAt r) ->
  row_ok t (n + claim_of (phase th)) -> call_step now t f th = Some (t', th') ->
  row_ok t' (n + claim_of (phase th')) /\ seen_fresh th'.
Proof.
  intros [Hd Hnow Hids] Hkey Hfresh Hn Hlive Hrow Hstep.
  unfold disciplined in Hd. rewrite Hkey in Hd. unfold call_step in Hstep.
  destruct (prog th) as [o|k|rec k|s h k|id from nw l e k|id st body e k|id reason l e k|rn k|k|k];
    simpl in Hd; try done.
  - simplify_eq. split; [exact Hrow|]. intros x _ [=].
  - destruct Hd as (Hph & Hrec & Hs & _). rewrite Hph in *. simpl in Hrow.
    rewrite Z.add_0_r in Hrow. pose proof (row_ok_create rec now t n Hs Hn Hrow) as Hc.
    destruct (decide (record_key rec = K)); [|congruence].
    destruct (CreateProcessing rec now t) as [t1 a]. cbn [fst snd] in Hc.
    assert (row_ok t1 n) by (destruct a; [use_row Hc|done]).
    destruct f; simpl in Hstep; simplify_eq; simpl; rewrite ?Hph; simpl; rewrite ?Z.add_0_r;
      (split; [|by eapply seen_fresh_same]); try done.
    destruct a; simpl; [done|by rewrite Z.add_0_r].
  - destruct Hd as (Hph & Hsh & _).
    destruct f; simpl in Hstep; simplify_eq; simpl; (split; [done|]); try done.
    intros x _ Hx. simpl in *.
    destruct (GetByScopeAndKeyHash s h _) as [y|] eqn:Ey; simpl in Hx; [|by apply Hfresh].
    unfold GetByScopeAndKeyHash in Ey. rewrite Hsh in Ey. simplify_eq. specialize (Hlive x Ey). simpl. lia.
  - destruct Hd as (Hph & -> & (x & Hx & Hxid & Hwhy) & _). rewrite Hph in *. simpl in Hrow.
    rewrite Z.add_0_r in Hrow.
    assert (Hid : id_ok t (Some K) id).
    { rewrite <- Hkey. apply Hids. unfold thread_ids. rewrite Hx, !elem_of_app. right; left.
      subst. by apply list_elem_of_singleton. }
    assert (Hfrom : from = IdempotencyStatusFailedRetryable).
    { destruct Hwhy as [?|Hexp]; [done|]. specialize (Hfresh x Hkey Hx). lia. }
    assert (Hr : row_ok (TryReclaim id from (t_now th) l e now t).1 n).
    { apply row_ok_keep; [|done]. intros r. by left. }
    pose proof (fun Ha => row_ok_reclaim id from (t_now th) l e now t n Hid Hfrom Ha Hrow) as Hrec.
    destruct (TryReclaim id from (t_now th) l e now t) as [t1 a]. cbn [fst snd] in *.
    destruct f; simpl in Hstep; simplify_eq; simpl; rewrite ?Hph; simpl; rewrite ?Z.add_0_r;
      (split; [|by eapply seen_fresh_same]); try done.
    destruct a; simpl; [|by rewrite Z.add_0_r]. by destruct (Hrec eq_refl) as [-> ?].
  - destruct Hd as (Hph & _). rewrite Hph in *. simpl in Hrow.
    assert (Hr : row_ok (MarkSucceeded id st body e now t) (n + 0)).
    { apply row_ok_keep; [|done]. intros r. by left. }
    destruct f; simpl in Hstep; simplify_eq; simpl; (split; [|by eapply seen_fresh_same]); done.
  - destruct Hd as (Hph & _). rewrite Hph in *. simpl in Hrow.
    assert (Hn0 : n = 0) by (apply row_ok_le in Hrow; lia). subst n.
    pose proof (row_ok_MarkFailed id reason l e now t Hrow) as Hr.
    destruct f; simpl in Hstep; simplify_eq; simpl; (split; [|by eapply seen_fresh_same]);
      try done; use_row Hrow.
  - destruct Hd as (Hph & _). simplify_eq. simpl. split; [done|by eapply seen_fresh_same].
  - simplify_eq. simpl. split; [done|by eapply seen_fresh_same].
Qed.

Record key_inv (w : World) : Prop := {
  ki_row : row_ok (table w) (claims w);
  ki_seen : Forall seen_fresh (threads w)
}.

(** Changing request [i], the rest of the bookkeeping being given. *)
Lemma key_inv_update w t' lg' i th th' :
  key_inv w -> threads w !! i = Some th ->
  row_ok t' (total pending (threads w) - pending th + pending th' + successes lg') ->
  seen_fresh th' -> key_inv (mkWorld (clock w) t' (<[i := th']> (threads w)) lg').
Proof.
  intros [_ Hseen] Hi Hrow Hth'. split; [|by apply Forall_insert].
  unfold claims; simpl. by rewrite (total_update _ _ _ _ _ Hi).
Qed.

Lemma call_key_inv w i f th t' th' :
  world_wf w -> unexpired w -> key_inv w -> threads w !! i = Some th ->
  call_step (clock w) (table w) f th = Some (t', th') ->
  key_inv (mkWorld (clock w) t' (<[i := th']> (threads w)) (log w)).
Proof.
  intros [Ht Hths] Hun Hinv Hi Hstep. pose proof Hinv as [Hrow Hseen].
  pose proof (proj1 (Forall_lookup _ _) Hths i th Hi) as Hth.
  pose proof (proj1 (Forall_lookup _ _) Hseen i th Hi) as Hf.
  pose proof (total_lookup _ _ _ _ pending_nonneg Hi) as Hle.
  pose proof (successes_nonneg (log w)) as Hs. unfold claims in Hrow.
  destruct (decide (t_key th = Some K)) as [Hkey|Hkey].
  - rewrite (pending_own _ Hkey) in Hle.
    destruct (call_step_own (clock w) (table w) f th t' th'
      (total pending (threads w) + successes (log w) - claim_of (phase th)))
      as [Hr Hf']; try done; [lia|by eapply eq_rect; [exact Hrow|lia]|].
    assert (Hkey' : t_key th' = Some K).
    { clear -Hstep Hkey. unfold call_step in Hstep.
      repeat (case_match; simplify_eq; try done). }
    eapply key_inv_update; eauto. rewrite (pending_own _ Hkey), (pending_own _ Hkey').
    eapply eq_rect; [exact Hr|lia].
  - destruct (call_step_other (clock w) (table w) f th t' th'
      (total pending (threads w) + successes (log w))) as [Hr Hk]; try done.
    { pose proof (pending_nonneg th). lia. }
    eapply key_inv_update; eauto; [|intros x Hx; by rewrite Hk in Hx].
    rewrite !pending_other by (by rewrite ?Hk). eapply eq_rect; [exact Hr|lia].
Qed.

Lemma exec_key_inv w i r th th' :
  world_wf w -> key_inv w -> threads w !! i = Some th -> exec_step r th = Some th' ->
  key_inv (mkWorld (clock w) (table w) (<[i := th']> (threads w)) ((t_key th, is_ok r) :: log w)).
Proof.
  intros [Ht Hths] Hinv Hi Hstep. pose proof Hinv as [Hrow Hseen].
  pose proof (proj1 (Forall_lookup _ _) Hths i th Hi) as [Hd _ _].
  pose proof (proj1 (Forall_lookup _ _) Hseen i th Hi) as Hf.
  unfold exec_step in Hstep. unfold disciplined in Hd.
  destruct (prog th) as [| | | | | | | | |k]; try done. simplify_eq.
  eapply key_inv_update; eauto. rewrite successes_cons. simpl. unfold claims in Hrow.
  destruct (decide (t_key th = Some K)) as [Hkey|Hkey].
  - rewrite Hkey in Hd. destruct Hd as (id & Hph & _). rewrite Hph.
    rewrite (pending_own _ Hkey), pending_phase, Hph by done. simpl.
    eapply eq_rect; [exact Hrow|]. destruct (is_ok r); lia.
  - rewrite !pending_other by done. eapply eq_rect; [exact Hrow|lia].
Qed.

Lemma renew_key_inv w i f th t' th' :
  key_inv w -> threads w !! i = Some th ->
  renew_step (clock w) (table w) f th = Some (t', th') ->
  key_inv (mkWorld (clock w) t' (<[i := th']> (threads w)) (log w)).
Proof.
  intros Hinv Hi Hstep. pose proof Hinv as [Hrow Hseen].
  pose proof (proj1 (Forall_lookup _ _) Hseen i th Hi) as Hf.
  unfold renew_step in Hstep. destruct (renewer th) as [rn|]; [|done].
  assert (Hext : row_ok (ExtendProcessingLock (rn_id rn) (rn_fingerprint rn)
      (Add (clock w) (rn_lease rn)) (Add (clock w) (rn_ttl rn)) (clock w) (table w)).1 (claims w)).
  { apply row_ok_keep; [|done]. intros r. by right. }
  destruct (ExtendProcessingLock _ _ _ _ _ _) as [t1 a]. cbn [fst] in Hext.
  assert (Hsame : row_ok t' (claims w) /\ pending th' = pending th /\ seen_fresh th').
  { destruct f; simpl in Hstep; simplify_eq; try done. by destruct a. }
  destruct Hsame as (Hr & Hp & Hf'). eapply key_inv_update; eauto.
  unfold claims in Hr. eapply eq_rect; [exact Hr|lia].
Qed.

Lemma step_key_inv w l w' :
  world_wf w -> unexpired w -> key_inv w -> step w l = Some w' -> key_inv w'.
Proof.
  intros Hw Hun Hinv Hstep. pose proof Hw as [Ht Hths]. pose proof Hinv as [Hrow Hseen].
  destruct l as [d|c opts n|i f|i r|i f|limit f]; unfold step in Hstep.
  - by simplify_eq.
  - simplify_eq. split; simpl; [|apply Forall_app; split; [done|repeat constructor; intros x _ [=]]].
    unfold claims in *; simpl. rewrite total_snoc. by rewrite Z.add_0_r.
  - destruct (threads w !! i) as [th|] eqn:E; simpl in Hstep; [|done].
    destruct (call_step _ _ _ _) as [[t' th']|] eqn:Ec; simpl in Hstep; [|done]. simplify_eq.
    by eapply call_key_inv.
  - destruct (threads w !! i) as [th|] eqn:E; simpl in Hstep; [|done].
    destruct (exec_step _ _) as [th'|] eqn:Ec; simpl in Hstep; [|done]. simplify_eq.
    by eapply exec_key_inv.
  - destruct (threads w !! i) as [th|] eqn:E; simpl in Hstep; [|done].
    destruct (renew_step _ _ _ _) as [[t' th']|] eqn:Ec; simpl in Hstep; [|done]. simplify_eq.
    by eapply renew_key_inv.
  - destruct (faulty _ _ _ _) as [t' r] eqn:Ef.
    assert (Hk : rows t' !! K = rows (table w) !! K).
    { pose proof (faulty_table (fun t' => rows t' !! K = rows (table w) !! K) f (table w)
        (DeleteExpired (clock w) limit (table w)).1 tt) as Hf. rewrite Ef in Hf. apply Hf; [done|].
      destruct (rows (table w) !! K) as [r0|] eqn:E.
      - apply DeleteExpired_live; auto.
      - apply eq_None_not_Some. intros [x Hx%DeleteExpired_sub]. congruence. }
    simplify_eq. split; [|done]. unfold row_ok, claims in *. simpl. by rewrite Hk.
Qed.

(** Runs in which the record of [K] never expires. *)
Inductive reach : World -> Prop :=
  | reach_init now : reach (init now)
  | reach_step w l w' : reach w -> unexpired w -> step w l = Some w' -> reach w'.

Lemma reach_inv w : reach w -> world_wf w /\ key_inv w.
Proof.
  induction 1 as [now|w l w' _ [Hw Hk] Hun Hstep].
  - split; split; simpl; auto with go; constructor.
  - split; [by eapply step_wf|by eapply step_key_inv].
Qed.

(** C1. At most once: however the calls of any number of requests, lease
renewals and clean-ups interleave, and whichever statements fail or lose
their answer, as long as the record of a key has not expired its handler is
run by at most one request at a time, and once it has succeeded it is never
run again. *)
Theorem handler_at_most_once w :
  reach w -> total running (threads w) + successes (log w) <= 1.
Proof.
  intros [[_ Hths] [Hrow _]]%reach_inv. apply row_ok_le in Hrow. unfold claims in Hrow.
  assert (total running (threads w) <= total pending (threads w)); [|lia].
  apply total_le. eapply Forall_impl; [exact Hths|]. intros th [Hd _ _]. simpl in *.
  unfold running, pending, disciplined in *. destruct (prog th); try (repeat case_match; lia).
  destruct (decide (t_key th = Some K)) as [Hk|]; [|repeat case_match; lia].
  rewrite Hk in Hd. destruct Hd as (id & -> & _). lia.
Qed.
End OneKey.

(** ** One request at a time *)

(** Run a request to its end, alone, at one instant: the table it leaves, its
outcome and how often the handler ran ([answer] is what the handler says). *)
Fixpoint run_alone (now : Time) (answer : res Data) (t : Table) (p : Prog)
  : Table * Outcome * Z :=
  match p with
  | Return o => (t, o, 0)
  | TimeNow k => run_alone now answer t (k now)
  | CallCreate record k =>
      let r := CreateProcessing record now t in run_alone now answer r.1 (k (Ok r.2))
  | CallGet scope keyHash k => run_alone now answer t (k (Ok (GetByScopeAndKeyHash scope keyHash t)))
  | CallReclaim id from n l e k =>
      let r := TryReclaim id from n l e now t in run_alone now answer r.1 (k (Ok r.2))
  | CallSucceeded id st body e k =>
      run_alone now answer (MarkSucceeded id st body e now t) (k (Ok tt))
  | CallFailed id reason l e k =>
      run_alone now answer (MarkFailedRetryable id reason l e now t) (k (Ok tt))
  | StartRenewal _ k => run_alone now answer t k
  | StopRenewal k => run_alone now answer t k
  | RunExecutor k => let '(t', o, n) := run_alone now answer t (k answer) in (t', o, n + 1)
  end.

(** The options a client that repeats a request shares with its first
attempt. *)
Definition keyed_request (c : IdempotencyCoordinator) (opts : IdempotencyExecuteOptions)
    (key : Key) (fingerprint : string) : Prop :=
  repo_nil c = false /\ o_Scope opts <> "" /\ request_key opts = Some key /\
  BuildIdempotencyFingerprint (Method opts) (Route opts) (ActorScope opts) (Payload opts)
    = Ok fingerprint.

(** The part of [Execute] behind its argument checks. *)
Lemma Execute_keyed c opts key fp :
  keyed_request c opts key fp ->
  key.1 = o_Scope opts /\
  Execute c opts false =
    TimeNow (fun now =>
      let expiresAt := Add now (effective_ttl c opts) in
      let lockedUntil := Add now (ProcessingTimeout (cfg c)) in
      CallCreate (mkRecord 0 key.1 key.2 fp IdempotencyStatusProcessing None None None
                    (Some lockedUntil) expiresAt zeroTime zeroTime) (fun r =>
      match r with
      | Err e => Return (unavailable_cause e)
      | Ok (Some id) => exec_run c opts id fp expiresAt
      | Ok None => exec_taken c opts key.2 fp now lockedUntil expiresAt
      end)).
Proof.
  intros (Hrepo & Hscope & Hkey & Hfp). unfold Execute, request_key in *.
  destruct (NormalizeIdempotencyKey _) as [k|]; [|done].
  destruct (String.eqb k ""); [done|]. simplify_eq. simpl.
  rewrite Hrepo, Hfp. apply String.eqb_neq in Hscope as ->. done.
Qed.

(** A taken key, with [r] in its row: what the request does once it has read it. *)
Lemma run_alone_get c opts key fp now answer t r :
  keyed_request c opts key fp -> rows t !! key = Some r ->
  now < ExpiresAt r ->
  exists t', rows t' = rows t /\
  run_alone now answer t (Execute c opts false) =
    run_alone now answer t'
      (if negb (String.eqb (RequestFingerprint r) fp)
       then Return (Failed (AppError ErrIdempotencyKeyConflict))
       else exec_existing c opts r fp now (Add now (ProcessingTimeout (cfg c)))
              (Add now (effective_ttl c opts))).
Proof.
  intros Hreq Hrow Hlive. destruct (Execute_keyed _ _ _ _ Hreq) as [Hk ->].
  exists (mkTable (rows t) (next_id t + 1)). split; [done|].
  destruct key as [scope h]. cbn [fst snd] in *. subst scope.
  cbn [run_alone]. unfold CreateProcessing, record_key. cbn [Scope IdempotencyKeyHash].
  rewrite Hrow. cbn [fst snd]. unfold exec_taken. cbn [run_alone].
  unfold GetByScopeAndKeyHash. cbn [rows]. rewrite Hrow. unfold After.
  rewrite (proj2 (Z.ltb_lt _ _) Hlive). by case_match.
Qed.

(** The same request on a live record. *)
Lemma run_alone_taken c opts key fp now answer t r :
  keyed_request c opts key fp -> rows t !! key = Some r -> now < ExpiresAt r ->
  RequestFingerprint r = fp ->
  exists t', rows t' = rows t /\
  run_alone now answer t (Execute c opts false) =
    run_alone now answer t'
      (exec_existing c opts r fp now (Add now (ProcessingTimeout (cfg c)))
         (Add now (effective_ttl c opts))).
Proof.
  intros Hreq Hrow Hlive Hfp.
  destruct (run_alone_get c opts key fp now answer t r Hreq Hrow Hlive) as (t' & Ht' & ->).
  exists t'. split; [done|]. by rewrite Hfp, String.eqb_refl.
Qed.

Lemma replay_row c opts key fp now answer t r d :
  keyed_request c opts key fp -> rows t !! key = Some r -> now < ExpiresAt r ->
  RequestFingerprint r = fp -> Status r = IdempotencyStatusSucceeded ->
  decodeStoredResponse (ResponseBody r) = Ok d ->
  exists t', rows t' = rows t /\
    run_alone now answer t (Execute c opts false) = (t', Result d true, 0).
Proof.
  intros Hreq Hrow Hlive Hfp Hs Hd.
  destruct (run_alone_taken c opts key fp now answer t r) as (t' & Ht' & ->); try done.
  exists t'. split; [done|]. unfold exec_existing. by rewrite Hs, Hd.
Qed.

(** What a record, live at [now], makes of a repeated request. *)
Definition repeated_outcome (r : IdempotencyRecord) (fp : string) (now : Time) : Outcome :=
  if negb (String.eqb (RequestFingerprint r) fp) then Failed (AppError ErrIdempotencyKeyConflict)
  else if String.eqb (Status r) IdempotencyStatusSucceeded then
    match decodeStoredResponse (ResponseBody r) with
    | Ok d => Result d true
    | Err e => unavailable_cause e
    end
  else if String.eqb (Status r) IdempotencyStatusProcessing then
    Failed (conflictWithRetryAfter ErrIdempotencyInProgress (LockedUntil r) now)
  else Failed (conflictWithRetryAfter ErrIdempotencyRetryBackoff (LockedUntil r) now).

(** A key in use: while the record of a key is unexpired and is processing,
succeeded, or failed and backing off, a request with that key never runs the
handler and leaves every record as it is.  The same request replays a stored
success, and is told to retry otherwise; a different request under the same
key is refused as a conflict, before any stored response is looked at. *)
Theorem live_key_never_reruns c opts key fp now answer t r :
  keyed_request c opts key fp -> rows t !! key = Some r -> now < ExpiresAt r ->
  (Status r = IdempotencyStatusSucceeded \/ Status r = IdempotencyStatusProcessing \/
   Status r = IdempotencyStatusFailedRetryable /\ exists l, LockedUntil r = Some l /\ now < l) ->
  exists t', rows t' = rows t /\
    run_alone now answer t (Execute c opts false) = (t', repeated_outcome r fp now, 0).
Proof.
  intros Hreq Hrow Hlive Hst. unfold repeated_outcome.
  destruct (String.eqb_spec (RequestFingerprint r) fp) as [Hfp|Hfp]; cbn [negb].
  - destruct (run_alone_taken c opts key fp now answer t r) as (t' & Ht' & ->); try done.
    exists t'. split; [done|]. unfold exec_existing.
    destruct Hst as [Hs|[Hs|(Hs & l & Hl & Hlt)]]; rewrite Hs; cbn [String.eqb].
    + by destruct (decodeStoredResponse _).
    + done.
    + rewrite Hl. unfold After. by rewrite (proj2 (Z.ltb_lt _ _) Hlt).
  - destruct (run_alone_get c opts key fp now answer t r) as (t' & Ht' & ->); try done.
    exists t'. split; [done|]. by rewrite (proj2 (String.eqb_neq _ _) Hfp).
Qed.

(** The row [MarkSucceeded] leaves. *)
Definition mark_row (r : IdempotencyRecord) (status : Z) (body : string) (e now : Time) :=
  mkRecord (ID r) (Scope r) (IdempotencyKeyHash r) (RequestFingerprint r)
    IdempotencyStatusSucceeded (Some status) (Some body) None None e (CreatedAt r) now.

Lemma MarkSucceeded_row t k r st body e now :
  rows t !! k = Some r ->
  rows (MarkSucceeded (ID r) st body e now t) !! k = Some (mark_row r st body e now).
Proof. intros Hr. unfold MarkSucceeded. rewrite update_where_lookup, Hr. simpl. by rewrite Z.eqb_refl. Qed.

(** C10. First request and its repetition: on a free key the handler runs once,
its answer is returned and stored, and the same request sent again before the
record expires gets the stored form of that very answer back, without a
second run of the handler. *)
Theorem execute_then_replay c opts key fp now now' data answer' body d t t1 o n :
  keyed_request c opts key fp -> table_wf t -> rows t !! key = None ->
  marshalStoredResponse c data = Ok body -> decodeStoredResponse (Some body) = Ok d ->
  now' < now + effective_ttl c opts ->
  run_alone now (Ok data) t (Execute c opts false) = (t1, o, n) ->
  o = Result data false /\ n = 1 /\
  (run_alone now' answer' t1 (Execute c opts false)).1.2 = Result d true /\
  (run_alone now' answer' t1 (Execute c opts false)).2 = 0.
Proof.
  intros Hreq Hwf Hfree Hm Hd Hlive. destruct (Execute_keyed _ _ _ _ Hreq) as [Hk Heq].
  rewrite Heq at 1. cbn [run_alone].
  set (record := mkRecord _ _ _ _ _ _ _ _ _ _ _ _).
  assert (Hkey : record_key record = key) by (by destruct key).
  set (r0 := mkRecord (next_id t) key.1 key.2 fp IdempotencyStatusProcessing None None None
               (LockedUntil record) (ExpiresAt record) now now).
  assert (HC : CreateProcessing record now t =
            (mkTable (<[key := r0]> (rows t)) (next_id t + 1), Some (next_id t))).
  { unfold CreateProcessing. by rewrite Hkey, Hfree. }
  rewrite HC. cbn [fst snd]. unfold exec_run.
  assert (Hpos : next_id t =? 0 = false) by (apply Z.eqb_neq; pose proof (wf_pos _ Hwf); lia).
  rewrite Hpos. intros Hrun.
  assert (H1 : (o, n) = (Result data false, 1) /\
    t1 = MarkSucceeded (next_id t) 200 body (Add now (effective_ttl c opts)) now
           (mkTable (<[key := r0]> (rows t)) (next_id t + 1))).
  { revert Hrun. destruct (0 <? ExecutionTimeout opts) eqn:E; cbn [run_alone];
      unfold exec_persist; rewrite Hm; cbn [run_alone]; unfold finish; rewrite E; cbn [run_alone];
      intros [= <- <- <-]; done. }
  destruct H1 as [[= -> ->] ->].
  destruct (replay_row c opts key fp now' answer'
    (MarkSucceeded (next_id t) 200 body (Add now (effective_ttl c opts)) now
       (mkTable (<[key := r0]> (rows t)) (next_id t + 1)))
    (mark_row r0 200 body (Add now (effective_ttl c opts)) now) d)
    as (t' & _ & ->); try done.
  apply (MarkSucceeded_row (mkTable _ _) key r0), lookup_insert_eq.
Qed.
End Coordinator.

(** ** Truncated responses *)

Lemma truncate_back_spec n s :
  exists m, (m <= n)%nat /\ truncate_back n s = str_take m s /\
    ValidString (str_take m s) = true /\
    forall k, (m < k <= n)%nat -> ValidString (str_take k s) = false.
Proof.
  induction n as [|n (m & Hm & IH & Hv & Hk)]; cbn [truncate_back].
  - exists 0%nat. cbn [str_take]. split_and!; [lia| |done|intros k ?; lia]. by case_match.
  - destruct (ValidString (str_take (S n) s)) eqn:E.
    + exists (S n). split_and!; [lia|done|done|intros k ?; lia].
    + exists m. split_and!; [lia|done|done|]. intros k Hle.
      destruct (decide (k = S n)) as [->|]; [done|]. apply Hk. lia.
Qed.

(** A stored response is cut to the longest prefix within the limit that is
valid UTF-8: never in the middle of a character, never beyond the limit, and
never shorter than it has to be; a response within the limit is kept whole. *)
Theorem truncateUTF8_longest s maxBytes :
  0 < maxBytes < len s ->
  exists m, Z.of_nat m <= maxBytes /\ truncateUTF8 s maxBytes = str_take m s /\
    len (truncateUTF8 s maxBytes) = Z.of_nat m /\
    ValidString (truncateUTF8 s maxBytes) = true /\
    forall k, Z.of_nat m < Z.of_nat k <= maxBytes -> ValidString (str_take k s) = false.
Proof.
  intros Hmax. unfold truncateUTF8.
  rewrite (proj2 (Z.leb_gt _ _)), (proj2 (Z.leb_gt (len s) _)) by lia. cbn [orb].
  destruct (truncate_back_spec (Z.to_nat maxBytes) s) as (m & Hm & -> & Hv & Hk).
  exists m. unfold len in *. split_and!; [lia|done| |done|].
  - rewrite str_take_length; lia.
  - intros k Hle. apply Hk. lia.
Qed.

(** ** Witnesses *)

Definition ex_deps : IdempotencyDeps string :=
  {| emptyObject := "{}"; json_marshal := Ok; json_unmarshal := Ok;
     RedactText := fun s => s; sha256_hex := fun s => s; ToUpper := fun s => s |}.

Section Examples.
#[local] Existing Instance ex_deps.

Definition ex_coordinator : IdempotencyCoordinator := mkCoordinator false DefaultIdempotencyConfig.
Definition ex_opts : IdempotencyExecuteOptions (Data := string) :=
  mkOptions "pay" "user-1" "POST" "/orders" "k1" "{1}" (10 * Second) true 0.
Definition ex_key : Key := ("pay", "k1").

Fixpoint run_trace (w : World (Data := string)) (ls : list Label) : option World :=
  match ls with [] => Some w | l :: ls' => w' ← step w l; run_trace w' ls' end.

Definition unexpired_b (K : Key) (w : World (Data := string)) : bool :=
  match rows (table w) !! K with Some r => clock w <? ExpiresAt r | None => true end.

Fixpoint run_checked (K : Key) (w : World (Data := string)) (ls : list Label) : option World :=
  match ls with
  | [] => Some w
  | l :: ls' => if unexpired_b K w then w' ← step w l; run_checked K w' ls' else None
  end.

Lemma run_checked_reach K w ls w' : reach K w -> run_checked K w ls = Some w' -> reach K w'.
Proof.
  revert w; induction ls as [|l ls IH]; intros w Hw; cbn [run_checked]; [by intros [= <-]|].
  destruct (unexpired_b K w) eqn:E; [|done].
  destruct (step w l) as [w1|] eqn:Es; [|done]. apply IH. eapply reach_step; eauto.
  unfold unexpired_b, unexpired in *. intros r Hr. rewrite Hr in E. by apply Z.ltb_lt.
Qed.

(** Two requests with one key: the second is refused while the first runs. *)
Definition ex_two_requests : list Label :=
  [Spawn ex_coordinator ex_opts false; Spawn ex_coordinator ex_opts false;
   Call 0 Works; Call 1 Works; Call 0 Works; Call 1 Works; Call 1 Works].

Lemma handler_at_most_once_witness :
  exists w, reach ex_key w /\ total (running ex_key) (threads w) = 1 /\
    total (running ex_key) (threads w) + successes ex_key (log w) <= 1.
Proof.
  assert (Ho : (fun w => total (running ex_key) (threads w))
                 <$> run_checked ex_key (init 0) ex_two_requests = Some 1) by reflexivity.
  destruct (run_checked ex_key (init 0) ex_two_requests) as [w|] eqn:E; [|done].
  exists w. pose proof (run_checked_reach _ _ _ _ (reach_init ex_key 0) E) as Hr.
  injection Ho as Ho. split; [exact Hr|]. split; [exact Ho|].
  exact (handler_at_most_once ex_key w Hr).
Defined.

Lemma ex_keyed : keyed_request ex_coordinator ex_opts ex_key
  ("POST" +:+ newline +:+ "/orders" +:+ newline +:+ "user-1" +:+ newline +:+ "{1}").
Proof. split_and!; [reflexivity|discriminate|reflexivity|reflexivity]. Qed.

Definition ex_done_table : Table :=
  (run_alone 5 (Ok "{2}") emptyTable (Execute ex_coordinator ex_opts false)).1.1.

Lemma live_key_never_reruns_witness :
  exists t', rows t' = rows ex_done_table /\
    run_alone 7 (Ok "{3}") ex_done_table (Execute ex_coordinator ex_opts false)
    = (t', Result "{2}" true, 0).
Proof.
  destruct (rows ex_done_table !! ex_key) as [r|] eqn:E; [|by vm_compute in E].
  destruct (live_key_never_reruns ex_coordinator ex_opts ex_key _ 7 (Ok "{3}") ex_done_table r
    ex_keyed E) as (t' & Ht & H1).
  - vm_compute in E. injection E as <-. reflexivity.
  - vm_compute in E. injection E as <-. by left.
  - exists t'. split; [exact Ht|]. rewrite H1. vm_compute in E. injection E as <-. reflexivity.
Defined.

Lemma execute_then_replay_witness :
  (run_alone 6 (Ok "{3}") ex_done_table (Execute ex_coordinator ex_opts false)).1.2
  = Result "{2}" true.
Proof.
  destruct (run_alone 5 (Ok "{2}") emptyTable (Execute ex_coordinator ex_opts false))
    as [[t1 o] n] eqn:E.
  pose proof (execute_then_replay ex_coordinator ex_opts ex_key _ 5 6 "{2}" (Ok "{3}") "{2}" "{2}"
    emptyTable t1 o n ex_keyed table_wf_empty eq_refl eq_refl eq_refl eq_refl E) as (_ & _ & H1 & _).
  unfold ex_done_table. rewrite E. exact H1.
Defined.

Lemma truncateUTF8_longest_witness :
  exists m, Z.of_nat m <= 2 /\ truncateUTF8 "abc" 2 = str_take m "abc".
Proof.
  destruct (truncateUTF8_longest "abc" 2 ltac:(split; reflexivity)) as (m & H1 & H2 & _).
  exists m. split; [exact H1|exact H2].
Defined.

(** The take-over of an expired record compares its status and lock, not its
expiry: a request that read the record before another one renewed it still
takes it over, if the other has finished by then. *)
Definition ex_expired : list Label :=
  [Spawn ex_coordinator ex_opts false; Call 0 Works; Call 0 Works; Answer 0 (Ok "{1}");
   Call 0 Works; Tick 20000000000;
   Spawn ex_coordinator ex_opts false; Spawn ex_coordinator ex_opts false;
   Call 1 Works; Call 2 Works; Call 1 Works; Call 2 Works; Call 1 Works; Call 2 Works;
   Call 1 Works; Answer 1 (Ok "{2}"); Call 1 Works].

(** Run [ls], then [ls']: the record of [K] is succeeded and live after [ls],
and [ls'] runs the handler successfully once more at the same instant. *)
Definition reruns (K : Key) (w w' : World (Data := string)) : Prop :=
  exists r, rows (table w) !! K = Some r /\ Status r = IdempotencyStatusSucceeded /\
    clock w < ExpiresAt r /\ clock w' = clock w /\
    successes K (log w') = successes K (log w) + 1.

Definition reruns_b (K : Key) (o : option World) (ls : list Label) : bool :=
  match o with
  | Some w =>
      match rows (table w) !! K, run_trace w ls with
      | Some r, Some w' =>
          String.eqb (Status r) IdempotencyStatusSucceeded &&
          (clock w <? ExpiresAt r) && (clock w' =? clock w) &&
          (successes K (log w') =? successes K (log w) + 1)
      | _, _ => false
      end
  | None => false
  end.

Lemma reruns_b_spec K o ls :
  reruns_b K o ls = true -> exists w w', o = Some w /\ run_trace w ls = Some w' /\ reruns K w w'.
Proof.
  unfold reruns_b. destruct o as [w|]; [|done].
  destruct (rows (table w) !! K) as [r|] eqn:Er; [|done].
  destruct (run_trace w ls) as [w'|] eqn:Ew; [|done]. intros. bool_prop.
  exists w, w'. do 2 (split; [done|]). exists r. by repeat (split; [assumption|]).
Qed.

(** The limit of the guarantee: there is an interleaving of two requests
on an expired record, with no failing statement, in which the handler is run
again for a key whose record is already succeeded and unexpired. *)
Theorem expired_takeover_runs_twice :
  exists w w', run_trace (init 0) ex_expired = Some w /\
    run_trace w [Call 2 Works; Answer 2 (Ok "{3}")] = Some w' /\ reruns ex_key w w'.
Proof. apply reruns_b_spec. vm_compute. reflexivity. Qed.
End Examples.
