(* ===== verification/StreamCircuit.v ===== *)
(** * Proxy stream circuit breaker

[service/openai_proxy_stream_circuit.go]: an in-process circuit per proxy.
Repeated stream disconnects quarantine a proxy for a while; a burst of
disconnects counts once.  The order in which Go ranges over the map is the
parameter [range]. *)
From S2P Require Import Prelude Composite.
From Stdlib Require Import Bool.

Local Open Scope Z_scope.

Definition defaultOpenAIProxyStreamFailureThreshold : Z := 2.
Definition defaultOpenAIProxyStreamFailureWindow : Duration := Minute.
Definition defaultOpenAIProxyStreamQuarantineTTL : Duration := 10 * Minute.
Definition defaultOpenAIProxyStreamCircuitMaxEntries : Z := 4096.
Definition defaultOpenAIProxyStreamFailureCollapse : Duration := 3 * Second.

Record Settings : Type := mkSettings {
  disabled : bool;
  failureThreshold : Z;
  failureWindow : Duration;
  quarantineTTL : Duration;
  collapseInterval : Duration;
  maxEntries : Z
}.

Record Entry : Type := mkEntry {
  failureCount : Z;
  windowStart : Time;
  lastFailureAt : Time;
  blockedUntil : Time;
  lastTouched : Time
}.

Record Circuit : Type := mkCircuit {
  settings : Settings;
  entries : gmap Z Entry
}.

(** The zero entry of a missing key. *)
Definition zeroEntry : Entry := mkEntry 0 zeroTime zeroTime zeroTime zeroTime.

(** The circuit section of the gateway configuration. *)
Record CircuitConfig : Type := mkCircuitConfig {
  Disabled : bool;
  FailureThreshold : Z;
  WindowSeconds : Z;
  TTLSeconds : Z
}.

Definition resolveOpenAIProxyStreamCircuitSettings (cfg : option CircuitConfig) : Settings :=
  match cfg with
  | None =>
      mkSettings false defaultOpenAIProxyStreamFailureThreshold
        defaultOpenAIProxyStreamFailureWindow defaultOpenAIProxyStreamQuarantineTTL
        defaultOpenAIProxyStreamFailureCollapse defaultOpenAIProxyStreamCircuitMaxEntries
  | Some cfg =>
      mkSettings (Disabled cfg)
        (if 0 <? FailureThreshold cfg then FailureThreshold cfg
         else defaultOpenAIProxyStreamFailureThreshold)
        (if 0 <? WindowSeconds cfg then WindowSeconds cfg *! Second
         else defaultOpenAIProxyStreamFailureWindow)
        (if 0 <? TTLSeconds cfg then TTLSeconds cfg *! Second
         else defaultOpenAIProxyStreamQuarantineTTL)
        defaultOpenAIProxyStreamFailureCollapse defaultOpenAIProxyStreamCircuitMaxEntries
  end.

Definition newOpenAIProxyStreamCircuit (s : Settings) : Circuit :=
  mkCircuit
    (mkSettings (disabled s)
       (if failureThreshold s <=? 0 then defaultOpenAIProxyStreamFailureThreshold
        else failureThreshold s)
       (if failureWindow s <=? 0 then defaultOpenAIProxyStreamFailureWindow else failureWindow s)
       (if quarantineTTL s <=? 0 then defaultOpenAIProxyStreamQuarantineTTL else quarantineTTL s)
       (if collapseInterval s <? 0 then 0 else collapseInterval s)
       (if maxEntries s <=? 0 then defaultOpenAIProxyStreamCircuitMaxEntries else maxEntries s))
    ∅.

Section Circuit.
Context (range : gmap Z Entry -> list (Z * Entry)).

Definition put (c : Circuit) (proxyID : Z) (e : Entry) : Circuit :=
  mkCircuit (settings c) (<[proxyID := e]> (entries c)).

Definition remove (c : Circuit) (proxyID : Z) : Circuit :=
  mkCircuit (settings c) (delete proxyID (entries c)).

(** The entries a full circuit drops first. *)
Definition evictable (st : Settings) (now : Time) (e : Entry) : bool :=
  let staleObservation :=
    IsZero (blockedUntil e) && (failureWindow st <? Sub now (lastTouched e)) in
  let expiredQuarantine := negb (IsZero (blockedUntil e)) && negb (Before now (blockedUntil e)) in
  staleObservation || expiredQuarantine.

(** The loop looking for the least recently touched entry. *)
Definition oldest_step (acc : Z * Time) (kv : Z * Entry) : Z * Time :=
  if (acc.1 =? 0) || Before (lastTouched kv.2) acc.2 then (kv.1, lastTouched kv.2) else acc.

Definition ensureCapacityLocked (c : Circuit) (now : Time) : Circuit :=
  let st := settings c in
  if Z.of_nat (size (entries c)) <? maxEntries st then c
  else
    let m := filter (fun kv => evictable st now kv.2 = false) (entries c) in
    if Z.of_nat (size m) <? maxEntries st then mkCircuit st m
    else
      let oldestProxyID := (fold_left oldest_step (range m) (0, zeroTime)).1 in
      mkCircuit st (if 0 <? oldestProxyID then delete oldestProxyID m else m).

(** The new circuit, whether this failure tripped it, and the end of the
quarantine. *)
Definition recordFailure (c : Circuit) (proxyID : Z) (now : Time) : Circuit * bool * Time :=
  let st := settings c in
  if disabled st || (proxyID <=? 0) then (c, false, zeroTime)
  else
    let entry := default zeroEntry (entries c !! proxyID) in
    let exists_ := bool_decide (is_Some (entries c !! proxyID)) in
    if exists_ && Before now (blockedUntil entry) then
      (put c proxyID
         (mkEntry (failureCount entry) (windowStart entry) (lastFailureAt entry)
            (blockedUntil entry) now), false, blockedUntil entry)
    else
      let c := if exists_ then c else ensureCapacityLocked c now in
      let entry :=
        if IsZero (windowStart entry) || Before now (windowStart entry) ||
           (failureWindow st <? Sub now (windowStart entry))
        then mkEntry 0 now (lastFailureAt entry) zeroTime (lastTouched entry)
        else entry in
      if (0 <? collapseInterval st) && negb (IsZero (lastFailureAt entry)) &&
         (0 <=? Sub now (lastFailureAt entry)) &&
         (Sub now (lastFailureAt entry) <? collapseInterval st) then
        (put c proxyID
           (mkEntry (failureCount entry) (windowStart entry) (lastFailureAt entry)
              (blockedUntil entry) now), false, zeroTime)
      else
        let failureCount' := failureCount entry +! 1 in
        let tripped := failureThreshold st <=? failureCount' in
        let blockedUntil' :=
          if tripped then Add now (quarantineTTL st) else blockedUntil entry in
        (put c proxyID (mkEntry failureCount' (windowStart entry) now blockedUntil' now),
         tripped, blockedUntil').

Definition recordSuccess (c : Circuit) (proxyID : Z) : Circuit * bool :=
  if proxyID <=? 0 then (c, false)
  else
    match entries c !! proxyID with
    | None => (c, false)
    | Some _ => (remove c proxyID, true)
    end.

Definition isBlocked (c : Circuit) (proxyID : Z) (now : Time) : Circuit * bool :=
  if disabled (settings c) || (proxyID <=? 0) then (c, false)
  else
    match entries c !! proxyID with
    | None => (c, false)
    | Some entry =>
        if IsZero (blockedUntil entry) then (c, false)
        else if negb (Before now (blockedUntil entry)) then (remove c proxyID, false)
        else (c, true)
    end.

Definition active (now : Time) (e : Entry) : bool :=
  negb (IsZero (blockedUntil e)) && Before now (blockedUntil e).

Definition activeBlockCount (c : Circuit) (now : Time) : Z :=
  if disabled (settings c) then 0
  else
    fold_left (fun count kv => if active now kv.2 then count +! 1 else count)
      (range (entries c)) 0.

(** ** The gateway service around the circuit *)

(** The account fields the circuit looks at. *)
Record StreamAccount : Type := mkAccount {
  a_Platform : string;
  a_ProxyID : option Z
}.

(** How a stream ended, as [errors.Is] classifies it. *)
Inductive StreamErr : Type := NoError | Canceled | DeadlineExceeded | OtherError.

(** The configuration and the circuit created on first use. *)
Record StreamService : Type := mkService {
  s_cfg : option CircuitConfig;
  s_circuit : option Circuit
}.

Definition getOpenAIProxyStreamCircuit (s : StreamService) : Circuit :=
  match s_circuit s with
  | Some c => c
  | None => newOpenAIProxyStreamCircuit (resolveOpenAIProxyStreamCircuitSettings (s_cfg s))
  end.

Definition openAIProxyStreamCircuitProxyID (account : option StreamAccount) : option Z :=
  match account with
  | None => None
  | Some a =>
      if negb (String.eqb (a_Platform a) PlatformOpenAI) then None
      else match a_ProxyID a with
           | None => None
           | Some id => if id <=? 0 then None else Some id
           end
  end.

Definition recordOpenAIProxyStreamDisconnect (s : StreamService) (account : option StreamAccount)
    (streamErr : StreamErr) (now : Time) : StreamService :=
  match openAIProxyStreamCircuitProxyID account, streamErr with
  | Some proxyID, OtherError =>
      mkService (s_cfg s)
        (Some (recordFailure (getOpenAIProxyStreamCircuit s) proxyID now).1.1)
  | _, _ => s
  end.

Definition clearOpenAIProxyStreamDisconnect (s : StreamService) (account : option StreamAccount)
  : StreamService :=
  match openAIProxyStreamCircuitProxyID account with
  | Some proxyID =>
      mkService (s_cfg s) (Some (recordSuccess (getOpenAIProxyStreamCircuit s) proxyID).1)
  | None => s
  end.

(** [bypassed]: the selection pass carries the quarantine bypass. *)
Definition isOpenAIProxyStreamQuarantined (s : StreamService) (bypassed : bool)
    (account : option StreamAccount) (now : Time) : StreamService * bool :=
  match openAIProxyStreamCircuitProxyID account with
  | None => (s, false)
  | Some proxyID =>
      if bypassed then (s, false)
      else
        let r := isBlocked (getOpenAIProxyStreamCircuit s) proxyID now in
        (mkService (s_cfg s) (Some r.1), r.2)
  end.

(** ** Runs of a circuit *)

Inductive Op : Type :=
  | Failure (proxyID : Z)
  | Success (proxyID : Z)
  | Query (proxyID : Z).

Definition apply (c : Circuit) (op : Op) (now : Time) : Circuit :=
  match op with
  | Failure p => (recordFailure c p now).1.1
  | Success p => (recordSuccess c p).1
  | Query p => (isBlocked c p now).1
  end.

(** [run c0 h c]: the operations [h], latest first, with their times, which do
not decrease. *)
Inductive run (c0 : Circuit) : list (Op * Time) -> Circuit -> Prop :=
  | run_start : run c0 [] c0
  | run_op h c op now :
      run c0 h c -> 0 < now -> (forall e, e ∈ h -> e.2 <= now) ->
      run c0 ((op, now) :: h) (apply c op now).

Hypothesis range_perm : forall m, range m ≡ₚ map_to_list m.

(** ** Capacity *)

Lemma oldest_pos (l : list (Z * Entry)) acc :
  (forall kv, kv ∈ l -> 0 < kv.1) -> (0 < acc.1 \/ acc.1 = 0 /\ l <> []) ->
  let r := (fold_left oldest_step l acc).1 in
  0 < r /\ (r = acc.1 \/ exists kv, kv ∈ l /\ kv.1 = r).
Proof.
  revert acc. induction l as [|kv l IH]; simpl; intros acc Hpos Hacc.
  { destruct Hacc as [?|[_ ?]]; [auto|done]. }
  assert (Hkv : 0 < kv.1) by (apply Hpos; left).
  destruct (IH (oldest_step acc kv)) as [Hr Hin].
  - intros kv' ?. apply Hpos. by right.
  - left. unfold oldest_step. destruct (Z.eqb_spec acc.1 0), (Before (lastTouched kv.2) acc.2);
      simpl; lia.
  - split; [done|]. destruct Hin as [Hin|(kv' & ? & ?)].
    + rewrite Hin. assert (oldest_step acc kv = (kv.1, lastTouched kv.2) \/
        oldest_step acc kv = acc) as [-> | ->] by (unfold oldest_step; case_match; auto); [|by left].
      right. exists kv. split; [left|done].
    + right. exists kv'. split; [by right|done].
Qed.

Definition keys_pos (c : Circuit) : Prop := forall p e, entries c !! p = Some e -> 0 < p.

Lemma ensureCapacity_sub c now p e :
  entries (ensureCapacityLocked c now) !! p = Some e -> entries c !! p = Some e.
Proof.
  unfold ensureCapacityLocked. repeat case_match; simpl; try done.
  - by intros [? _]%map_lookup_filter_Some.
  - by intros [_ [? _]%map_lookup_filter_Some]%lookup_delete_Some.
  - by intros [? _]%map_lookup_filter_Some.
Qed.

Lemma ensureCapacity_settings c now : settings (ensureCapacityLocked c now) = settings c.
Proof. unfold ensureCapacityLocked. by repeat case_match. Qed.

(** A full circuit makes room for one entry. *)
Lemma ensureCapacity_room c now :
  keys_pos c -> 0 < maxEntries (settings c) ->
  Z.of_nat (size (entries c)) <= maxEntries (settings c) ->
  Z.of_nat (size (entries (ensureCapacityLocked c now))) < maxEntries (settings c).
Proof.
  intros Hpos Hmax Hsize. unfold ensureCapacityLocked.
  destruct (Z.ltb_spec (Z.of_nat (size (entries c))) (maxEntries (settings c))); [done|].
  set (m := filter _ _).
  destruct (Z.ltb_spec (Z.of_nat (size m)) (maxEntries (settings c))); [done|]. simpl.
  assert (Hne : range m <> []).
  { intros E. pose proof (range_perm m) as Hp. rewrite E in Hp.
    symmetry in Hp. apply Permutation_nil_r in Hp.
    apply map_to_list_empty_iff in Hp. rewrite Hp, map_size_empty in *. lia. }
  destruct (oldest_pos (range m) (0, zeroTime)) as [Hr Hin].
  { intros [p e] Hkv. rewrite range_perm in Hkv. apply elem_of_map_to_list in Hkv.
    apply map_lookup_filter_Some in Hkv as [? _]. by eapply Hpos. }
  { by right. }
  apply Z.ltb_lt in Hr as Hr'. rewrite Hr'.
  destruct Hin as [Hin|([p e] & Hkv & Heq)]; [simpl in Hin; lia|].
  rewrite range_perm in Hkv. apply elem_of_map_to_list in Hkv. simpl in Heq. rewrite <- Heq.
  rewrite map_size_delete, Hkv.
  assert (size m <= size (entries c))%nat by (apply map_subseteq_size, map_filter_subseteq). lia.
Qed.

(** The settings of a circuit after [newOpenAIProxyStreamCircuit]. *)
Record settings_ok (st : Settings) : Prop := {
  so_threshold : 0 < failureThreshold st;
  so_window : 0 < failureWindow st;
  so_ttl : 0 < quarantineTTL st;
  so_collapse : 0 <= collapseInterval st;
  so_max : 0 < maxEntries st
}.

Lemma new_settings_ok s : settings_ok (settings (newOpenAIProxyStreamCircuit s)).
Proof.
  split; simpl; case_Z; try lia; by vm_compute.
Qed.

(** What every operation maintains. *)
Record circuit_wf (st : Settings) (c : Circuit) : Prop := {
  cw_settings : settings c = st;
  cw_keys : keys_pos c;
  cw_size : Z.of_nat (size (entries c)) <= maxEntries st
}.

Lemma new_circuit_wf s :
  circuit_wf (settings (newOpenAIProxyStreamCircuit s)) (newOpenAIProxyStreamCircuit s).
Proof.
  split; [done| |].
  - intros p e. cbn [newOpenAIProxyStreamCircuit entries]. by rewrite lookup_empty.
  - cbn [newOpenAIProxyStreamCircuit entries]. rewrite map_size_empty.
    pose proof (so_max _ (new_settings_ok s)). lia.
Qed.

Lemma ensureCapacity_wf st c now :
  settings_ok st -> circuit_wf st c ->
  circuit_wf st (ensureCapacityLocked c now) /\
  Z.of_nat (size (entries (ensureCapacityLocked c now))) < maxEntries st.
Proof.
  intros Hst [Hs Hk Hm]. rewrite <- Hs in *.
  pose proof (ensureCapacity_room c now Hk (so_max _ Hst) Hm) as Hroom.
  split; [|done]. split; [apply ensureCapacity_settings| |lia].
  intros p e ?%ensureCapacity_sub. by eapply Hk.
Qed.

Lemma put_wf st c p e :
  circuit_wf st c -> 0 < p ->
  is_Some (entries c !! p) \/ Z.of_nat (size (entries c)) < maxEntries st ->
  circuit_wf st (put c p e).
Proof.
  intros [Hs Hk Hm] Hp Hroom. split; [done| |].
  - intros q f. simpl. intros [[<- _]|[_ ?]]%lookup_insert_Some; [done|by eapply Hk].
  - simpl. rewrite map_size_insert. destruct Hroom as [[x ->]|Hlt]; [done|].
    destruct (entries c !! p); unfold id; lia.
Qed.

Lemma remove_wf st c p : circuit_wf st c -> circuit_wf st (remove c p).
Proof.
  intros [Hs Hk Hm]. split; [done| |].
  - intros q f. simpl. intros [_ ?]%lookup_delete_Some. by eapply Hk.
  - simpl. rewrite map_size_delete. destruct (entries c !! p); simpl; lia.
Qed.

(** The circuit an entry is put into by [recordFailure]. *)
Definition roomy (c : Circuit) (p : Z) (now : Time) : Circuit :=
  if bool_decide (is_Some (entries c !! p)) then c else ensureCapacityLocked c now.

Lemma roomy_wf st c p now :
  settings_ok st -> circuit_wf st c ->
  circuit_wf st (roomy c p now) /\
  (is_Some (entries (roomy c p now) !! p) \/
   Z.of_nat (size (entries (roomy c p now))) < maxEntries st).
Proof.
  intros Hst Hc. unfold roomy. case_bool_decide as Hp; [by auto|].
  destruct (ensureCapacity_wf st c now Hst Hc). auto.
Qed.

Lemma recordFailure_wf st c p now :
  settings_ok st -> circuit_wf st c -> circuit_wf st (recordFailure c p now).1.1.
Proof.
  intros Hst Hc. unfold recordFailure.
  destruct (disabled _ || (p <=? 0)) eqn:Hg; [done|]. bool_prop.
  destruct (_ && _) eqn:Hb.
  { apply andb_true_iff in Hb as [Hb _]. apply bool_decide_eq_true in Hb.
    apply put_wf; [done|lia|by left]. }
  fold (roomy c p now). destruct (roomy_wf st c p now Hst Hc) as [Hr Hroom].
  destruct (_ && (_ <? collapseInterval _)); apply put_wf; auto; lia.
Qed.

Lemma apply_wf st c op now : settings_ok st -> circuit_wf st c -> circuit_wf st (apply c op now).
Proof.
  intros Hst Hc. destruct op as [p|p|p]; simpl; [by apply recordFailure_wf| |].
  - unfold recordSuccess. repeat case_match; simpl; by try apply remove_wf.
  - unfold isBlocked. repeat case_match; simpl; by try apply remove_wf.
Qed.

Lemma run_wf s h c :
  run (newOpenAIProxyStreamCircuit s) h c ->
  circuit_wf (settings (newOpenAIProxyStreamCircuit s)) c.
Proof.
  induction 1; [apply new_circuit_wf|]. apply apply_wf; [apply new_settings_ok|done].
Qed.

(** Bounded memory: whatever proxies fail, the circuit never holds more
than its maximum number of entries, and its settings never change. *)
Theorem circuit_bounded s h c :
  run (newOpenAIProxyStreamCircuit s) h c ->
  Z.of_nat (size (entries c)) <= maxEntries (settings (newOpenAIProxyStreamCircuit s)) /\
  settings c = settings (newOpenAIProxyStreamCircuit s).
Proof. intros H%run_wf. split; apply H. Qed.

Section Run.
Context (st : Settings) (Hst : settings_ok st).

(** ** Tripping *)

(** The failures of [p] since its last success, latest first. *)
Fixpoint failures_since_success (p : Z) (h : list (Op * Time)) : list Time :=
  match h with
  | [] => []
  | (Success q, _) :: h' => if q =? p then [] else failures_since_success p h'
  | (Failure q, t) :: h' =>
      if q =? p then t :: failures_since_success p h' else failures_since_success p h'
  | (Query _, _) :: h' => failures_since_success p h'
  end.

(** Times, latest first, at least [d] apart. *)
Fixpoint spaced (d : Duration) (ts : list Time) : Prop :=
  match ts with
  | t :: ((u :: _) as r) => d <= t - u /\ spaced d r
  | _ => True
  end.

(** The failures an entry has counted. *)
Record counted (h : list (Op * Time)) (p : Z) (e : Entry) (ts : list Time) : Prop := {
  ct_count : failureCount e <= Z.of_nat (length ts);
  ct_range : in_i64 (failureCount e);
  ct_events t : t ∈ ts -> t ∈ failures_since_success p h /\ windowStart e <= t;
  ct_last t : t ∈ ts -> t <= lastFailureAt e;
  ct_head : ts <> [] -> hd_error ts = Some (lastFailureAt e);
  ct_spaced : spaced (collapseInterval st) ts;
  ct_pos : 0 < windowStart e
}.

Definition explained (h : list (Op * Time)) (c : Circuit) : Prop :=
  forall p e, entries c !! p = Some e -> exists ts, counted h p e ts.

(** An operation on another proxy, or a query, keeps an explanation. *)
Lemma counted_mono h p e ts x :
  counted h p e ts ->
  (forall t, t ∈ failures_since_success p h -> t ∈ failures_since_success p (x :: h)) ->
  counted (x :: h) p e ts.
Proof.
  intros [H1 Hr H2 H3 H4 H5 H6] Hsub. split; auto. intros t Ht. destruct (H2 t Ht). auto.
Qed.

Lemma counted_touch h p e ts b now :
  counted h p e ts ->
  counted h p (mkEntry (failureCount e) (windowStart e) (lastFailureAt e) b now) ts.
Proof. intros []. by split. Qed.

(** The window test of [recordFailure]. *)
Definition refreshed (e : Entry) (now : Time) : Entry :=
  if IsZero (windowStart e) || Before now (windowStart e) ||
     (failureWindow st <? Sub now (windowStart e))
  then mkEntry 0 now (lastFailureAt e) zeroTime (lastTouched e) else e.

Lemma refreshed_counted h p e now :
  0 < now -> (exists ts, counted h p e ts) \/ e = zeroEntry ->
  exists ts', counted h p (refreshed e now) ts' /\
    Sub now (windowStart (refreshed e now)) <= failureWindow st.
Proof.
  intros Hnow He. assert (Hpos : 0 < failureWindow st) by apply Hst.
  unfold refreshed. destruct (_ || _) eqn:Hw.
  - exists []. split; [|simpl; unfold Sub; go_lia].
    split; simpl; try done; try (by intros t ?%elem_of_nil); go_lia.
  - bool_prop. destruct He as [[ts He]| ->]; [|by simpl in *]. by exists ts.
Qed.

(** Counting one more failure. *)
Lemma counted_more h p e ts now b x :
  counted h p e ts -> windowStart e <= now -> (forall t, t ∈ ts -> t <= now) ->
  (ts <> [] -> collapseInterval st <= now - lastFailureAt e) ->
  now ∈ failures_since_success p (x :: h) ->
  (forall t, t ∈ failures_since_success p h -> t ∈ failures_since_success p (x :: h)) ->
  counted (x :: h) p (mkEntry (failureCount e +! 1) (windowStart e) now b now) (now :: ts).
Proof.
  intros [H1 Hr H2 H3 H4 H5 H6] Hws Hle Hgap Hin Hsub.
  pose proof (i64_succ_le _ Hr) as Hs. split; simpl.
  - lia.
  - apply i64_range.
  - intros t [->|Ht]%elem_of_cons; [done|]. destruct (H2 t Ht). auto.
  - intros t [->|Ht]%elem_of_cons; [done|]. auto.
  - done.
  - destruct ts as [|u ts]; [done|]. specialize (H4 ltac:(done)). injection H4 as ->.
    split; [by apply Hgap|done].
  - done.
Qed.

(** Every recorded time is at most the latest one. *)
Lemma failures_since_elem p h t :
  t ∈ failures_since_success p h -> (Failure p, t) ∈ h.
Proof.
  induction h as [|[[q|q|q] u] h IH]; simpl; [by intros ?%elem_of_nil| | |].
  - destruct (Z.eqb_spec q p) as [->|].
    + intros [->|?]%elem_of_cons; [left | right; auto].
    + right; auto.
  - destruct (Z.eqb_spec q p) as [->|]; [by intros ?%elem_of_nil | right; auto].
  - right; auto.
Qed.

Lemma refreshed_start e now : windowStart (refreshed e now) <= now.
Proof.
  unfold refreshed. destruct (_ || _) eqn:Hw; simpl; [lia|]. bool_prop. unfold Before in *. bool_prop.
  lia.
Qed.

(** A failure that is not collapsed comes [collapseInterval] after the last
one. *)
Lemma not_collapsed h p e ts now :
  counted h p e ts -> (forall x, x ∈ h -> x.2 <= now) ->
  (0 <? collapseInterval st) && negb (IsZero (lastFailureAt e)) &&
    (0 <=? Sub now (lastFailureAt e)) && (Sub now (lastFailureAt e) <? collapseInterval st) = false ->
  (forall t, t ∈ ts -> t <= now) /\
  (ts <> [] -> collapseInterval st <= now - lastFailureAt e).
Proof.
  intros Hc Htimes Htest.
  assert (Hle : forall t, t ∈ ts -> t <= now).
  { intros t [Ht _]%(ct_events _ _ _ _ Hc). apply failures_since_elem in Ht. apply (Htimes _ Ht). }
  split; [done|]. intros Hne. pose proof (ct_head _ _ _ _ Hc Hne) as Hh.
  destruct ts as [|u ts]; [done|]. injection Hh as ->.
  specialize (Hle _ ltac:(left)) as Hu.
  pose proof (proj2 (ct_events _ _ _ _ Hc _ ltac:(left))) as Hws.
  pose proof (ct_pos _ _ _ _ Hc) as Hpos.
  pose proof (proj2 (Sub_pos now (lastFailureAt e)) Hu) as Hsub.
  unfold IsZero in Htest. rewrite (proj2 (Z.eqb_neq _ _)), (proj2 (Z.leb_le _ _) Hsub) in Htest by lia.
  cbn [negb] in Htest. rewrite !andb_true_r in Htest.
  apply andb_false_iff in Htest as [Hl|Hl]; bool_prop; [lia|]. unfold Sub in *. go_lia.
Qed.

(** What a failure does to the explanation of the circuit, and what it takes
to trip. *)
Lemma recordFailure_explained h c p now :
  circuit_wf st c -> explained h c -> 0 < now ->
  (forall e, e ∈ h -> e.2 <= now) ->
  explained ((Failure p, now) :: h) (recordFailure c p now).1.1 /\
  ((recordFailure c p now).1.2 = true ->
   exists e ts, counted ((Failure p, now) :: h) p e ts /\ failureThreshold st <= failureCount e /\
    Sub now (windowStart e) <= failureWindow st /\
    (recordFailure c p now).2 = Add now (quarantineTTL st)).
Proof.
  intros Hc Hex Hnow Htimes. pose proof (cw_settings _ _ Hc) as Hset.
  assert (Hother : forall q t, t ∈ failures_since_success q h ->
            t ∈ failures_since_success q ((Failure p, now) :: h)).
  { intros q t Ht. simpl. case_match; [by right|done]. }
  assert (Hkeep : forall q e, entries c !! q = Some e ->
            exists ts, counted ((Failure p, now) :: h) q e ts).
  { intros q e He. destruct (Hex q e He) as [ts Hts]. exists ts. eapply counted_mono; eauto. }
  unfold recordFailure. rewrite Hset.
  destruct (disabled _ || (p <=? 0)); [split; [exact Hkeep|done]|].
  set (e0 := default zeroEntry (entries c !! p)).
  assert (He0 : (exists ts, counted h p e0 ts) \/ e0 = zeroEntry).
  { unfold e0. destruct (entries c !! p) as [e|] eqn:E; [left; by eapply Hex|by right]. }
  destruct (bool_decide (is_Some (entries c !! p)) && Before now (blockedUntil e0)) eqn:Hb.
  { split; [|done]. apply andb_true_iff in Hb as [[e Hse]%bool_decide_eq_true _].
    intros q e'. simpl. intros [[<- <-]|[_ ?]]%lookup_insert_Some; [|by eapply Hkeep].
    destruct (Hkeep p e Hse) as [ts Hts]. exists ts. unfold e0. rewrite Hse. simpl.
    by apply counted_touch. }
  fold (roomy c p now). fold (refreshed e0 now).
  assert (Hroomy : forall q e, entries (roomy c p now) !! q = Some e ->
            exists ts, counted ((Failure p, now) :: h) q e ts).
  { intros q e Hq. apply Hkeep. revert Hq. unfold roomy. case_match; [done|].
    apply ensureCapacity_sub. }
  destruct (refreshed_counted h p e0 now Hnow He0) as (ts & Hts & Hwin).
  destruct (_ && (_ <? collapseInterval _)) eqn:Hcol.
  { split; [|done]. intros q e'. simpl.
    intros [[<- <-]|[_ ?]]%lookup_insert_Some; [|by eapply Hroomy].
    exists ts. apply counted_touch. eapply counted_mono; eauto. }
  destruct (not_collapsed _ _ _ _ _ Hts Htimes Hcol) as [Hle Hgap].
  assert (Hmore : forall b, counted ((Failure p, now) :: h) p
            (mkEntry (failureCount (refreshed e0 now) +! 1) (windowStart (refreshed e0 now)) now
               b now) (now :: ts)).
  { intros b. apply counted_more; auto; [apply refreshed_start|].
    simpl. rewrite Z.eqb_refl. left. }
  split.
  - intros q e'. simpl. intros [[<- <-]|[_ ?]]%lookup_insert_Some; [|by eapply Hroomy]. eauto.
  - cbn [fst snd]. intros Htrip. rewrite Htrip. apply Z.leb_le in Htrip.
    eexists _, _. split; [apply (Hmore (Add now (quarantineTTL st)))|]. done.
Qed.

Lemma recordSuccess_explained h c q now :
  circuit_wf st c -> explained h c -> explained ((Success q, now) :: h) (recordSuccess c q).1.
Proof.
  intros Hc Hex p e He.
  assert (Hp : p <> q /\ entries c !! p = Some e).
  { revert He. unfold recordSuccess. destruct (Z.leb_spec q 0) as [Hq|Hq]; simpl.
    - intros He. split; [|done]. intros ->. apply (cw_keys _ _ Hc) in He. lia.
    - destruct (entries c !! q) eqn:E; simpl; [by intros [? ?]%lookup_delete_Some|].
      intros He. split; [|done]. intros ->. congruence. }
  destruct Hp as [Hp Hep]. destruct (Hex p e Hep) as [ts Hts]. exists ts.
  eapply counted_mono; eauto. intros t. simpl. by rewrite (proj2 (Z.eqb_neq q p)).
Qed.

Lemma isBlocked_explained h c q now :
  explained h c -> explained ((Query q, now) :: h) (isBlocked c q now).1.
Proof.
  intros Hex p e He.
  assert (Hep : entries c !! p = Some e).
  { revert He. unfold isBlocked. repeat case_match; simpl; try done.
    by intros [_ ?]%lookup_delete_Some. }
  destruct (Hex p e Hep) as [ts Hts]. exists ts. by eapply counted_mono.
Qed.

Lemma run_explained h c :
  run (mkCircuit st ∅) h c -> circuit_wf st c /\ explained h c.
Proof.
  induction 1 as [|h c op now Hrun [Hc Hex] Hnow Htimes].
  - split; [|intros p e; simpl; by rewrite lookup_empty]. split; [done| |].
    + intros p e. simpl. by rewrite lookup_empty.
    + simpl. rewrite map_size_empty. pose proof (so_max _ Hst). lia.
  - split; [by apply apply_wf|]. destruct op; simpl.
    + by apply recordFailure_explained.
    + by apply recordSuccess_explained.
    + by apply isBlocked_explained.
Qed.
End Run.

(** Tripping: a proxy is quarantined only after as many failures as the
threshold since its last success, all within one failure window and each at
least the collapse interval after the one before, so that a burst of
disconnects of one connection never trips the circuit; the quarantine then
ends [quarantineTTL] after the failure that tripped it. *)
Theorem trip_needs_distinct_failures s h c p now c' until :
  let st := settings (newOpenAIProxyStreamCircuit s) in
  run (newOpenAIProxyStreamCircuit s) h c -> 0 < now -> (forall e, e ∈ h -> e.2 <= now) ->
  recordFailure c p now = (c', true, until) ->
  until = Add now (quarantineTTL st) /\
  exists ts, failureThreshold st <= Z.of_nat (length ts) /\
    spaced (collapseInterval st) ts /\
    (forall t, t ∈ ts -> t ∈ failures_since_success p ((Failure p, now) :: h)) /\
    (forall t, t ∈ ts -> Sub now t <= failureWindow st).
Proof.
  intros st Hrun Hnow Htimes Hrec. pose proof (new_settings_ok s) as Hok.
  destruct (run_explained st Hok h c Hrun) as [Hc Hex].
  destruct (recordFailure_explained st Hok h c p now Hc Hex Hnow Htimes) as [_ Htrip].
  rewrite Hrec in Htrip. destruct (Htrip eq_refl) as (e & ts & Hts & Hn & Hwin & Hu).
  split; [exact Hu|]. exists ts. pose proof (ct_count _ _ _ _ _ Hts).
  split_and!; [lia|apply Hts| |].
  - intros t Ht. by apply (ct_events _ _ _ _ _ Hts).
  - intros t Ht. pose proof (proj2 (ct_events _ _ _ _ _ Hts t Ht)). unfold Sub in *. lia.
Qed.

(** ** Quarantine *)

(** No quarantine reaches further than one TTL past the clock. *)
Definition quarantines_end (c : Circuit) (latest : Time) : Prop :=
  forall p e, entries c !! p = Some e ->
    blockedUntil e <= Z.max latest 0 + quarantineTTL (settings c).

Lemma recordFailure_quarantine st c p now :
  settings_ok st -> settings c = st -> 0 < now -> quarantines_end c now ->
  quarantines_end (recordFailure c p now).1.1 now.
Proof.
  intros Hst Hset Hnow Hq. pose proof (so_ttl _ Hst) as Httl. subst st.
  unfold recordFailure. destruct (disabled _ || _); [done|].
  set (e0 := default zeroEntry (entries c !! p)).
  assert (He0 : blockedUntil e0 <= Z.max now 0 + quarantineTTL (settings c)).
  { unfold e0. destruct (entries c !! p) eqn:E; simpl; [by eapply Hq|]. unfold zeroTime. lia. }
  destruct (_ && Before _ _).
  { intros q e. simpl. intros [[<- <-]|[_ ?]]%lookup_insert_Some; [done|by eapply Hq]. }
  fold (roomy c p now).
  assert (Hr : forall q e, entries (roomy c p now) !! q = Some e ->
            blockedUntil e <= Z.max now 0 + quarantineTTL (settings c)).
  { intros q e Hqe. apply (Hq q e). revert Hqe. unfold roomy. case_match; [done|].
    apply ensureCapacity_sub. }
  assert (Hs : settings (roomy c p now) = settings c).
  { unfold roomy. case_match; [done|]. apply ensureCapacity_settings. }
  match goal with |- context [if ?b then mkEntry 0 now _ zeroTime _ else e0] => set (w := b) end.
  destruct (_ && (_ <? collapseInterval _)); intros q e; simpl; rewrite Hs;
    intros [[<- <-]|[_ ?]]%lookup_insert_Some; try (by eapply Hr); simpl.
  - destruct w; simpl; [unfold zeroTime; lia|done].
  - case_match; [unfold Add; lia|]. destruct w; simpl; [unfold zeroTime; lia|done].
Qed.

Lemma run_quarantine s h c latest :
  run (newOpenAIProxyStreamCircuit s) h c -> (forall e, e ∈ h -> e.2 <= latest) ->
  quarantines_end c latest.
Proof.
  intros Hrun. revert latest. induction Hrun as [|h c op now Hrun IH Hnow Htimes]; intros latest Hl.
  - intros p e. simpl. by rewrite lookup_empty.
  - assert (Hle : now <= latest) by (apply (Hl (op, now)); left).
    assert (Hq : quarantines_end (apply c op now) now).
    { specialize (IH now Htimes). destruct op as [p|p|p]; simpl.
      - pose proof (cw_settings _ _ (run_wf _ _ _ Hrun)) as Hs.
        by apply (recordFailure_quarantine _ c p now (new_settings_ok s) Hs).
      - unfold recordSuccess. repeat case_match; simpl; try done.
        intros q x. simpl. intros [_ ?]%lookup_delete_Some. by eapply IH.
      - unfold isBlocked. repeat case_match; simpl; try done.
        intros q x. simpl. intros [_ ?]%lookup_delete_Some. by eapply IH. }
    intros p e He. specialize (Hq p e He). lia.
Qed.

(** Quarantine is temporary: from the moment a failure trips the circuit
the proxy is blocked for exactly [quarantineTTL] if nothing else happens, and
after any history no proxy is blocked any more one [quarantineTTL] after the
last operation, however many failures came in while it was blocked. *)
Theorem quarantine_is_temporary s h c p now :
  let st := settings (newOpenAIProxyStreamCircuit s) in
  run (newOpenAIProxyStreamCircuit s) h c -> 0 < now -> (forall e, e ∈ h -> e.2 <= now) ->
  (forall later, now + quarantineTTL st <= later -> (isBlocked c p later).2 = false) /\
  ((recordFailure c p now).1.2 = true ->
   forall later, (isBlocked (recordFailure c p now).1.1 p later).2 =
     (later <? now + quarantineTTL st)).
Proof.
  intros st Hrun Hnow Htimes. pose proof (run_quarantine s h c now Hrun Htimes) as Hq.
  pose proof (cw_settings _ _ (run_wf _ _ _ Hrun)) as Hs.
  pose proof (so_ttl _ (new_settings_ok s)) as Httl. split.
  - intros later Hlater. unfold isBlocked. destruct (_ || _); [done|].
    destruct (entries c !! p) as [e|] eqn:E; [|done]. destruct (IsZero _); [done|].
    specialize (Hq p e E). rewrite Hs in Hq. unfold Before.
    rewrite (proj2 (Z.ltb_ge _ _)); [done|]. fold st in Hq. lia.
  - unfold recordFailure. rewrite Hs. fold st. destruct (disabled st || (p <=? 0)) eqn:Hg; [done|].
    destruct (_ && Before _ _); [done|]. fold (roomy c p now).
    assert (Hrs : settings (roomy c p now) = st).
    { unfold roomy. case_match; [done|]. by rewrite ensureCapacity_settings. }
    destruct (_ && (_ <? collapseInterval _)); [done|]. cbn [fst snd]. intros -> later.
    unfold isBlocked, put. cbn [settings entries]. rewrite Hrs, Hg, lookup_insert_eq.
    cbn [blockedUntil]. unfold IsZero, Before, Add.
    rewrite (proj2 (Z.eqb_neq _ _)) by (fold st in Httl; lia).
    by destruct (later <? now + quarantineTTL st).
Qed.

(** Fail-open gate: the number of active blocks is positive exactly when
the circuit withholds some proxy, so that the quarantine-blind second
selection pass is made exactly when it can matter. *)
Theorem activeBlockCount_withholds s h c now :
  run (newOpenAIProxyStreamCircuit s) h c ->
  in_i64 (maxEntries (settings (newOpenAIProxyStreamCircuit s))) ->
  (0 < activeBlockCount c now <-> exists p, (isBlocked c p now).2 = true).
Proof.
  intros Hrun Hmax. pose proof (run_wf _ _ _ Hrun) as [Hs Hkeys Hsize].
  assert (Hcount : forall (l : list (Z * Entry)) n, 0 <= n -> n + Z.of_nat (length l) < two63 ->
    fold_left (fun count (kv : Z * Entry) => if active now kv.2 then count +! 1 else count) l n
    = n + Z.of_nat (length (filter (fun kv : Z * Entry => active now kv.2 = true) l))).
  { induction l as [|kv l IH]; simpl; intros n Hn Hl; [lia|].
    rewrite filter_cons. destruct (active now kv.2); simpl.
    - rewrite i64_id by go_lia. rewrite IH by lia. lia.
    - rewrite IH by lia. lia. }
  unfold activeBlockCount, isBlocked. rewrite Hs. destruct (disabled _); simpl.
  { split; [lia|by intros [? ?]]. }
  rewrite Hcount by (rewrite ?range_perm, ?length_map_to_list; unfold in_i64 in Hmax; lia).
  split.
  - destruct (filter _ _) as [|[p e] l] eqn:E; simpl; [lia|]. intros _.
    assert (Hin : (p, e) ∈ (p, e) :: l) by left. rewrite <- E in Hin.
    apply list_elem_of_filter in Hin as [Ha Hin]. rewrite range_perm in Hin.
    apply elem_of_map_to_list in Hin. exists p. simpl in Ha.
    rewrite (proj2 (Z.leb_gt _ _) (Hkeys _ _ Hin)), Hin. unfold active in Ha. bool_prop.
    rewrite H. by rewrite H0.
  - intros [p Hp]. destruct (p <=? 0); [done|]. destruct (entries c !! p) as [e|] eqn:E; [|done].
    assert (Hin : (p, e) ∈ filter (fun kv : Z * Entry => active now kv.2 = true) (range (entries c))).
    { apply list_elem_of_filter. rewrite range_perm, elem_of_map_to_list. split; [|done].
      unfold active. simpl. destruct (IsZero _), (Before _ _); done. }
    destruct (filter _ _); [by apply elem_of_nil in Hin|simpl; lia].
Qed.
End Circuit.

(** ** Witnesses *)

Definition ex_settings : Settings := mkSettings false 0 0 0 (3 * Second) 0.
Definition ex_history : list (Op * Time) :=
  [(Failure 7, 1500000000); (Failure 7, 1000000000)].
Definition ex_circuit : Circuit :=
  apply map_to_list (apply map_to_list (newOpenAIProxyStreamCircuit ex_settings)
    (Failure 7) 1000000000) (Failure 7) 1500000000.

Lemma circuit_ex_run : run map_to_list (newOpenAIProxyStreamCircuit ex_settings) ex_history ex_circuit.
Proof.
  apply run_op; [apply run_op; [constructor|done|]|done|].
  - by intros e ?%elem_of_nil.
  - intros e [->|?%elem_of_nil]%elem_of_cons; [by simpl|done].
Qed.

Lemma circuit_ex_times now : 1500000000 <= now -> forall e, e ∈ ex_history -> e.2 <= now.
Proof.
  intros Hn e. unfold ex_history.
  intros [->|[->|?%elem_of_nil]%elem_of_cons]%elem_of_cons; simpl; [lia|lia|done].
Qed.

Lemma circuit_bounded_witness : Z.of_nat (size (entries ex_circuit)) <= 4096.
Proof. exact (proj1 (circuit_bounded map_to_list ltac:(done) _ _ _ circuit_ex_run)). Defined.

Lemma trip_needs_distinct_failures_witness :
  exists ts, 2 <= Z.of_nat (length ts) /\ spaced (3 * Second) ts /\
    (forall t, t ∈ ts -> t ∈ [5000000000; 1500000000; 1000000000]) /\
    (forall t, t ∈ ts -> Sub 5000000000 t <= Minute).
Proof.
  destruct (recordFailure map_to_list ex_circuit 7 5000000000) as [[c' b] u] eqn:E.
  assert (b = true) as -> by (vm_compute in E; congruence).
  destruct (trip_needs_distinct_failures map_to_list ltac:(done) ex_settings ex_history ex_circuit 7
    5000000000 c' u circuit_ex_run eq_refl (circuit_ex_times 5000000000 ltac:(lia)) E) as [_ H]. exact H.
Defined.

Lemma quarantine_is_temporary_witness :
  (isBlocked ex_circuit 7 700000000000).2 = false /\
  (isBlocked (recordFailure map_to_list ex_circuit 7 5000000000).1.1 7 6000000000).2 = true.
Proof.
  destruct (quarantine_is_temporary map_to_list ltac:(done) ex_settings ex_history ex_circuit 7
    5000000000 circuit_ex_run eq_refl (circuit_ex_times 5000000000 ltac:(lia))) as [H1 H2].
  split; [apply H1; by vm_compute|]. rewrite H2; reflexivity.
Defined.

Lemma activeBlockCount_withholds_witness :
  0 < activeBlockCount map_to_list ex_circuit 2 <-> exists p, (isBlocked ex_circuit p 2).2 = true.
Proof.
  refine (activeBlockCount_withholds map_to_list _ ex_settings ex_history ex_circuit 2 circuit_ex_run _);
    [done|by vm_compute].
Defined.
