(* ===== verification/AuthAbuse.v ===== *)
(** * Invalid authentication abuse limiter

[service/invalid_auth_abuse_limiter.go]: failed authentications per client
key, in sixteen shards that share one capacity; clients that do not fit are
counted together.  An operation here is one call: its critical sections are
taken in program order. *)
From S2P Require Import Prelude GoText.
From Stdlib Require Import Bool.

Local Open Scope Z_scope.

Definition invalidAuthAbuseShardCount : Z := 16.

Record Entry : Type := mkEntry {
  failures : Z;
  windowStart : Time;
  blockedUntil : Time
}.

(** The atomic statistics of the limiter. *)
Record Counters : Type := mkCounters {
  recorded : Z;
  blocked : Z;
  rejected : Z;
  expired : Z;
  overflowed : Z;
  globalBlocked : Z
}.

Record Limiter : Type := mkLimiter {
  threshold : Z;
  window : Duration;
  block : Duration;
  capacity : Z;
  shards : list (gmap string Entry);
  overflow : Entry;
  tracked : Z;
  counters : Counters;
  cleanupNext : Z;
  cleanupCursor : Z
}.

(** The configuration section of the limiter. *)
Record AbuseConfig : Type := mkAbuseConfig {
  Enabled : bool;
  Threshold : Z;
  WindowSeconds : Z;
  BlockSeconds : Z;
  Capacity : Z
}.

Definition newInvalidAuthAbuseLimiter (cfg : option AbuseConfig) : option Limiter :=
  match cfg with
  | None => None
  | Some c =>
      if negb (Enabled c) then None
      else if (Threshold c <=? 0) || (WindowSeconds c <=? 0) || (BlockSeconds c <=? 0) ||
              (Capacity c <=? 0) then None
      else
        Some (mkLimiter (Threshold c) (WindowSeconds c *! Second) (BlockSeconds c *! Second)
                (Capacity c) (replicate (Z.to_nat invalidAuthAbuseShardCount) ∅)
                (mkEntry 0 zeroTime zeroTime) 0 (mkCounters 0 0 0 0 0 0) 0 0)
  end.

(** ** Small updates *)

Definition set_shards (s : list (gmap string Entry)) (l : Limiter) : Limiter :=
  mkLimiter (threshold l) (window l) (block l) (capacity l) s (overflow l) (tracked l)
    (counters l) (cleanupNext l) (cleanupCursor l).

Definition add_tracked (n : Z) (l : Limiter) : Limiter :=
  mkLimiter (threshold l) (window l) (block l) (capacity l) (shards l) (overflow l) (tracked l +! n)
    (counters l) (cleanupNext l) (cleanupCursor l).

Definition set_overflow (o : Entry) (l : Limiter) : Limiter :=
  mkLimiter (threshold l) (window l) (block l) (capacity l) (shards l) o (tracked l)
    (counters l) (cleanupNext l) (cleanupCursor l).

Definition set_cleanup (next cursor : Z) (l : Limiter) : Limiter :=
  mkLimiter (threshold l) (window l) (block l) (capacity l) (shards l) (overflow l) (tracked l)
    (counters l) next cursor.

Definition count (f : Counters -> Counters) (l : Limiter) : Limiter :=
  mkLimiter (threshold l) (window l) (block l) (capacity l) (shards l) (overflow l) (tracked l)
    (f (counters l)) (cleanupNext l) (cleanupCursor l).

Definition inc_recorded (c : Counters) : Counters :=
  mkCounters (u64 (recorded c + 1)) (blocked c) (rejected c) (expired c) (overflowed c)
    (globalBlocked c).
Definition inc_blocked (c : Counters) : Counters :=
  mkCounters (recorded c) (u64 (blocked c + 1)) (rejected c) (expired c) (overflowed c)
    (globalBlocked c).
Definition inc_rejected (c : Counters) : Counters :=
  mkCounters (recorded c) (blocked c) (u64 (rejected c + 1)) (expired c) (overflowed c)
    (globalBlocked c).
Definition add_expired (n : Z) (c : Counters) : Counters :=
  mkCounters (recorded c) (blocked c) (rejected c) (u64 (expired c + n)) (overflowed c)
    (globalBlocked c).
Definition inc_overflowed (c : Counters) : Counters :=
  mkCounters (recorded c) (blocked c) (rejected c) (expired c) (u64 (overflowed c + 1))
    (globalBlocked c).
Definition inc_globalBlocked (c : Counters) : Counters :=
  mkCounters (recorded c) (blocked c) (rejected c) (expired c) (overflowed c)
    (u64 (globalBlocked c + 1)).

(** ** Operations *)

(** The FNV-1a loop of [shard]. *)
Fixpoint fnv (hash : Z) (s : string) : Z :=
  match s with
  | EmptyString => hash
  | String a r => fnv (u32 (Z.lxor hash (ascii_byte a) * 16777619)) r
  end.

Definition shard_index (clientKey : string) : nat :=
  Z.to_nat (fnv 2166136261 clientKey mod invalidAuthAbuseShardCount).

Definition shard (l : Limiter) (clientKey : string) : gmap string Entry :=
  default ∅ (shards l !! shard_index clientKey).

Definition entryExpired (l : Limiter) (e : Entry) (now : Time) : bool :=
  negb (After (blockedUntil e) now) && negb (After (windowStart e) now) &&
  negb (Before now (Add (windowStart e) (window l))).

Definition maybeCleanupAtCapacity (l : Limiter) (now : Time) : Limiter :=
  if tracked l <? capacity l then l
  else if now <? cleanupNext l then l
  else
    let index := cleanupCursor l in
    let l := set_cleanup (Add now (100 * Millisecond)) (u32 (cleanupCursor l + 1)) l in
    let i := Z.to_nat (index mod invalidAuthAbuseShardCount) in
    let m := default ∅ (shards l !! i) in
    let kept := filter (fun kv => entryExpired l kv.2 now = false) m in
    let removed := Z.of_nat (size m) - Z.of_nat (size kept) in
    count (add_expired removed) (add_tracked (- removed) (set_shards (<[i := kept]> (shards l)) l)).

(** Both operations first drop an expired entry of the client. *)
Definition drop_expired (l : Limiter) (clientKey : string) (now : Time) : Limiter * option Entry :=
  match shard l clientKey !! clientKey with
  | Some e =>
      if entryExpired l e now then
        (count (add_expired 1)
           (add_tracked (-1)
              (set_shards (<[shard_index clientKey := delete clientKey (shard l clientKey)]>
                             (shards l)) l)), None)
      else (l, Some e)
  | None => (l, None)
  end.

Definition checkOverflow (l : Limiter) (now : Time) : option Duration :=
  if After (blockedUntil (overflow l)) now then Some (Sub (blockedUntil (overflow l)) now) else None.

Definition recordOverflow (l : Limiter) (now : Time) : Limiter :=
  let l := count inc_overflowed l in
  let o := overflow l in
  if After (blockedUntil o) now then l
  else
    let o :=
      if IsZero (windowStart o) || negb (Before now (Add (windowStart o) (window l)))
      then mkEntry 0 now (blockedUntil o) else o in
    let f := failures o +! 1 in
    if threshold l <=? f then
      let until := Add now (block l) in
      count inc_blocked (set_overflow (mkEntry 0 until until) l)
    else set_overflow (mkEntry f (windowStart o) (blockedUntil o)) l.

(** The limiter afterwards, and the retry delay of a rejected client. *)
Definition check (l : option Limiter) (clientKey : string) (now : Time)
  : option Limiter * option Duration :=
  match l with
  | None => (None, None)
  | Some l =>
      if String.eqb clientKey "" then (Some l, None)
      else
        let l := maybeCleanupAtCapacity l now in
        let '(l, entry) := drop_expired l clientKey now in
        match entry with
        | Some e =>
            if After (blockedUntil e) now
            then (Some (count inc_rejected l), Some (Sub (blockedUntil e) now))
            else (Some l, None)
        | None =>
            if capacity l <=? tracked l then
              match checkOverflow l now with
              | Some retry => (Some (count inc_globalBlocked (count inc_rejected l)), Some retry)
              | None => (Some l, None)
              end
            else (Some l, None)
        end
  end.

(** [None] when the capacity is used up. *)
Definition reserveEntry (l : Limiter) : option Limiter :=
  if capacity l <=? tracked l then None else Some (add_tracked 1 l).

Definition put_entry (l : Limiter) (clientKey : string) (e : Entry) : Limiter :=
  set_shards (<[shard_index clientKey := <[clientKey := e]> (shard l clientKey)]> (shards l)) l.

(** The end of [record], on the client's entry. *)
Definition record_entry (l : Limiter) (clientKey : string) (entry : Entry) (now : Time) : Limiter :=
  if After (blockedUntil entry) now then put_entry l clientKey entry
  else
    let entry :=
      if After (windowStart entry) now || negb (Before now (Add (windowStart entry) (window l)))
      then mkEntry 0 now (blockedUntil entry) else entry in
    let f := failures entry +! 1 in
    if threshold l <=? f then
      let until := Add now (block l) in
      count inc_blocked (put_entry l clientKey (mkEntry 0 until until))
    else put_entry l clientKey (mkEntry f (windowStart entry) (blockedUntil entry)).

Definition record (l : option Limiter) (clientKey : string) (now : Time) : option Limiter :=
  match l with
  | None => None
  | Some l =>
      if String.eqb clientKey "" then Some l
      else
        let l := count inc_recorded l in
        let l := maybeCleanupAtCapacity l now in
        let '(l, entry) := drop_expired l clientKey now in
        match entry with
        | Some e => Some (record_entry l clientKey e now)
        | None =>
            match reserveEntry l with
            | None => Some (recordOverflow l now)
            | Some l => Some (record_entry l clientKey (mkEntry 0 now zeroTime) now)
            end
        end
  end.

(** ** The shards *)

Definition client (l : Limiter) (k : string) : option Entry := shard l k !! k.

Definition shards_size (s : list (gmap string Entry)) : Z :=
  total (fun m => Z.of_nat (size m)) s.

(** An entry is in the shard of its key and below the threshold. *)
Definition shard_ok (thr : Z) (i : nat) (m : gmap string Entry) : Prop :=
  forall k e, m !! k = Some e -> shard_index k = i /\ 0 <= failures e < thr.

Record limiter_wf (l : Limiter) : Prop := {
  lw_threshold : 0 < threshold l;
  lw_capacity : 0 < capacity l < two63;
  lw_length : length (shards l) = Z.to_nat invalidAuthAbuseShardCount;
  lw_shards i m : shards l !! i = Some m -> shard_ok (threshold l) i m;
  lw_tracked : tracked l = shards_size (shards l) /\ tracked l <= capacity l
}.

Lemma shards_size_nonneg s : 0 <= shards_size s.
Proof. apply total_nonneg. lia. Qed.

Lemma shard_index_bound k : (shard_index k < Z.to_nat invalidAuthAbuseShardCount)%nat.
Proof.
  unfold shard_index, invalidAuthAbuseShardCount.
  pose proof (Z.mod_pos_bound (fnv 2166136261 k) 16). lia.
Qed.

Lemma shard_lookup l k : limiter_wf l -> shards l !! shard_index k = Some (shard l k).
Proof.
  intros Hw. unfold shard.
  destruct (shards l !! shard_index k) eqn:E; [done|]. apply lookup_ge_None in E.
  rewrite (lw_length _ Hw) in E. pose proof (shard_index_bound k). lia.
Qed.

Lemma replicate_shards : shards_size (replicate (Z.to_nat invalidAuthAbuseShardCount) ∅) = 0.
Proof. reflexivity. Qed.

Lemma new_limiter_wf c l :
  in_i64 (Capacity c) -> newInvalidAuthAbuseLimiter (Some c) = Some l -> limiter_wf l.
Proof.
  unfold newInvalidAuthAbuseLimiter. intros Hc H. destruct (negb _); [done|].
  destruct (_ || _) eqn:Hg; [done|]. apply (inj Some) in H. subst l. bool_prop.
  split; cbn [threshold capacity shards tracked].
  - lia.
  - go_lia.
  - by rewrite length_replicate.
  - intros i m [-> _]%lookup_replicate k e. by rewrite lookup_empty.
  - rewrite replicate_shards. lia.
Qed.

Lemma new_limiter_facts c l :
  newInvalidAuthAbuseLimiter (Some c) = Some l ->
  threshold l = Threshold c /\ capacity l = Capacity c /\
  window l = WindowSeconds c *! Second /\ block l = BlockSeconds c *! Second /\
  forall k, client l k = None.
Proof.
  unfold newInvalidAuthAbuseLimiter. intros H. destruct (negb _); [done|].
  destruct (_ || _); [done|]. apply (inj Some) in H. subst l. split_and!; try done.
  intros k. unfold client, shard. cbn [shards].
  destruct (replicate _ _ !! shard_index k) as [m|] eqn:E; simpl; [|by rewrite lookup_empty].
  apply lookup_replicate in E as [-> _]. by rewrite lookup_empty.
Qed.

Lemma new_limiter_empty c l :
  newInvalidAuthAbuseLimiter (Some c) = Some l -> shards_size (shards l) = 0 /\ tracked l = 0.
Proof.
  unfold newInvalidAuthAbuseLimiter. intros H. destruct (negb _); [done|].
  destruct (_ || _); [done|]. apply (inj Some) in H. by subst l.
Qed.

(** Replacing shard [i] by [m'] and adjusting [tracked] by [d]. *)
Lemma set_shard_wf l l' i m m' :
  limiter_wf l -> shards l !! i = Some m -> shard_ok (threshold l) i m' ->
  threshold l' = threshold l -> capacity l' = capacity l ->
  shards l' = <[i := m']> (shards l) ->
  tracked l' = i64 (tracked l + (Z.of_nat (size m') - Z.of_nat (size m))) ->
  tracked l + (Z.of_nat (size m') - Z.of_nat (size m)) <= capacity l ->
  limiter_wf l'.
Proof.
  intros Hw Hi Hm Ht Hc Hs Htr Hcap. pose proof (lw_tracked _ Hw) as [Htot _].
  assert (Hsize : shards_size (<[i := m']> (shards l)) =
            tracked l + (Z.of_nat (size m') - Z.of_nat (size m))).
  { unfold shards_size in *. rewrite (total_update _ _ _ _ _ Hi). lia. }
  split.
  - rewrite Ht. apply Hw.
  - rewrite Hc. apply Hw.
  - rewrite Hs, length_insert. apply Hw.
  - intros j mj. rewrite Hs, Ht. intros [[<- [<- _]]|[_ ?]]%list_lookup_insert_Some; [done|].
    by eapply lw_shards.
  - rewrite Htr, Hs, Hc. pose proof (shards_size_nonneg (<[i := m']> (shards l))).
    pose proof (lw_capacity _ Hw). rewrite i64_id by go_lia. lia.
Qed.

Lemma client_set l l' i m' k :
  limiter_wf l -> shards l' = <[i := m']> (shards l) -> is_Some (shards l !! i) ->
  client l' k = if decide (i = shard_index k) then m' !! k else client l k.
Proof.
  intros Hw Hs [m Hm]. unfold client, shard. rewrite Hs.
  destruct (decide (i = shard_index k)) as [->|Hne].
  - rewrite list_lookup_insert_eq; [done|]. by eapply lookup_lt_Some.
  - by rewrite list_lookup_insert_ne.
Qed.

(** What a change of the limiter may do to the clients: only remove. *)
Definition shrinks (l l' : Limiter) : Prop :=
  limiter_wf l' /\ threshold l' = threshold l /\ window l' = window l /\ block l' = block l /\
  capacity l' = capacity l /\ overflow l' = overflow l /\
  forall k e, client l' k = Some e -> client l k = Some e.

Lemma shrinks_trans l1 l2 l3 : shrinks l1 l2 -> shrinks l2 l3 -> shrinks l1 l3.
Proof.
  intros (H1 & H2 & H3 & H4 & H5 & H6 & H7) (K1 & K2 & K3 & K4 & K5 & K6 & K7).
  unfold shrinks. rewrite K2, K3, K4, K5, K6. split_and!; auto.
Qed.

Lemma cleanup_shrinks l now : limiter_wf l -> shrinks l (maybeCleanupAtCapacity l now).
Proof.
  intros Hw. unfold maybeCleanupAtCapacity.
  destruct (tracked l <? capacity l); [by split_and!|].
  destruct (now <? cleanupNext l); [by split_and!|].
  set (i := Z.to_nat (cleanupCursor l mod invalidAuthAbuseShardCount)).
  cbn [shards set_cleanup].
  assert (Hi : shards l !! i = Some (default ∅ (shards l !! i))).
  { destruct (shards l !! i) eqn:E; [done|]. apply lookup_ge_None in E.
    rewrite (lw_length _ Hw) in E. unfold i, invalidAuthAbuseShardCount in *.
    pose proof (Z.mod_pos_bound (cleanupCursor l) 16). lia. }
  set (m := default ∅ (shards l !! i)) in *.
  set (kept := filter _ m).
  assert (Hsize : (size kept <= size m)%nat) by apply map_subseteq_size, map_filter_subseteq.
  pose proof (lw_tracked _ Hw).
  set (l' := count _ _). assert (Hs : shards l' = <[i := kept]> (shards l)) by done.
  split_and!; try done.
  - eapply (set_shard_wf l l' i m kept); eauto; try done; [|simpl; f_equal; lia|lia].
    intros k e [Hk _]%map_lookup_filter_Some. by eapply lw_shards.
  - intros k e. rewrite (client_set l l' i kept k) by eauto.
    destruct (decide (i = shard_index k)) as [->|]; [|done].
    intros [Hk _]%map_lookup_filter_Some. unfold client, shard. done.
Qed.

Lemma drop_expired_shrinks l k now l' o :
  limiter_wf l -> drop_expired l k now = (l', o) -> shrinks l l' /\ client l' k = o.
Proof.
  intros Hw. unfold drop_expired. fold (client l k).
  destruct (client l k) as [e|] eqn:E; [|intros [= <- <-]; by split; [split_and!|]].
  destruct (entryExpired l e now); [|intros [= <- <-]; by split; [split_and!|]].
  pose proof (shard_lookup l k Hw) as Hsh. pose proof (lw_tracked _ Hw).
  intros [= <- <-].
  assert (Hdel : Z.of_nat (size (delete k (shard l k))) - Z.of_nat (size (shard l k)) = -1).
  { rewrite map_size_delete. unfold client in E. rewrite E. simpl.
    assert (size (shard l k) <> 0%nat); [|lia].
    apply map_size_ne_0_lookup. eauto. }
  set (l' := count _ _).
  assert (Hs : shards l' = <[shard_index k := delete k (shard l k)]> (shards l)) by done.
  assert (Hcl : forall k', client l' k' = if decide (shard_index k = shard_index k')
            then delete k (shard l k) !! k' else client l k') by (intros; by apply client_set; eauto).
  split; [|rewrite Hcl, decide_True by done; by rewrite lookup_delete_eq].
  split_and!; try done.
  - eapply (set_shard_wf l l' _ _ _ Hw Hsh); eauto; try done; [|simpl; f_equal; lia|lia].
    intros k' e' [_ Hk']%lookup_delete_Some. by eapply (lw_shards _ Hw).
  - intros k' e'. rewrite Hcl. case_decide as Hd; [|done].
    intros [_ Hk']%lookup_delete_Some. unfold client, shard. rewrite <- Hd. done.
Qed.

(** ** Storing a client's entry *)

(** The entry [record_entry] stores. *)
Definition bumped (l : Limiter) (entry : Entry) (now : Time) : Entry :=
  if After (blockedUntil entry) now then entry
  else
    let entry :=
      if After (windowStart entry) now || negb (Before now (Add (windowStart entry) (window l)))
      then mkEntry 0 now (blockedUntil entry) else entry in
    if threshold l <=? failures entry +! 1
    then mkEntry 0 (Add now (block l)) (Add now (block l))
    else mkEntry (failures entry +! 1) (windowStart entry) (blockedUntil entry).

Lemma bumped_ok l e now :
  limiter_wf l -> in_i64 (threshold l) -> 0 <= failures e < threshold l ->
  0 <= failures (bumped l e now) < threshold l.
Proof.
  intros Hw Hth He. pose proof (lw_threshold _ Hw). unfold bumped.
  destruct (After _ _); [done|].
  match goal with |- context [threshold l <=? failures ?x +! 1] => set (e1 := x) end.
  assert (He1 : 0 <= failures e1 < threshold l) by (unfold e1; case_match; simpl; lia).
  destruct (Z.leb_spec (threshold l) (failures e1 +! 1)); simpl; [lia|].
  rewrite i64_id in * by go_lia. lia.
Qed.

(** [record_entry] for a client with an entry, and for one whose entry was
just reserved. *)
Lemma record_entry_wf l k e now (fresh : bool) :
  limiter_wf l -> in_i64 (threshold l) -> 0 <= failures e < threshold l ->
  (if fresh then client l k = None /\ tracked l < capacity l else client l k <> None) ->
  let l1 := if fresh then add_tracked 1 l else l in
  let l' := record_entry l1 k e now in
  limiter_wf l' /\
  threshold l' = threshold l /\ window l' = window l /\ block l' = block l /\
  capacity l' = capacity l /\
  forall q, client l' q = if decide (q = k) then Some (bumped l e now) else client l q.
Proof.
  intros Hw Hth He Hfresh l1 l'.
  assert (Hsp : shards l' = <[shard_index k := <[k := bumped l e now]> (shard l k)]> (shards l) /\
    threshold l' = threshold l /\ window l' = window l /\ block l' = block l /\
    capacity l' = capacity l /\ tracked l' = tracked l1).
  { unfold l', l1, record_entry, bumped. destruct fresh, (After _ _); try done;
      by destruct (threshold _ <=? _). }
  destruct Hsp as (Hs & Ht & Hwin & Hb & Hc & Htr).
  pose proof (shard_lookup l k Hw) as Hsh. pose proof (lw_tracked _ Hw) as [Htot Hcap].
  pose proof (lw_capacity _ Hw). pose proof (shards_size_nonneg (shards l)).
  assert (Hsize : Z.of_nat (size (<[k := bumped l e now]> (shard l k))) -
            Z.of_nat (size (shard l k)) = if fresh then 1 else 0).
  { rewrite map_size_insert. fold (client l k). destruct fresh.
    - destruct Hfresh as [-> _]. lia.
    - destruct (client l k); [unfold id; lia|done]. }
  split_and!; try done.
  - eapply (set_shard_wf l l' _ _ _ Hw Hsh); eauto.
    + intros q x [[<- <-]|[_ Hq]]%lookup_insert_Some; [|by eapply lw_shards].
      split; [done|]. by apply bumped_ok.
    + rewrite Htr, Hsize. unfold l1. destruct fresh; simpl; [done|]. rewrite i64_id; go_lia.
    + rewrite Hsize. destruct fresh; lia.
  - intros q. rewrite (client_set l l' (shard_index k) (<[k := bumped l e now]> (shard l k)) q Hw Hs)
      by eauto.
    destruct (decide (q = k)) as [->|Hne]; [by rewrite decide_True, lookup_insert_eq|].
    case_decide as Hi; [|done]. rewrite lookup_insert_ne by done. unfold client, shard. by rewrite Hi.
Qed.

(** What [record] does to the client it is called for, and to nobody else. *)
Lemma record_clients l k now :
  limiter_wf l -> in_i64 (threshold l) -> k <> ""%string ->
  exists l', record (Some l) k now = Some l' /\ limiter_wf l' /\
    threshold l' = threshold l /\ window l' = window l /\ block l' = block l /\
    capacity l' = capacity l /\
    forall q e, client l' q = Some e ->
      q <> k /\ client l q = Some e \/
      q = k /\ ((exists e0, client l k = Some e0 /\ e = bumped l e0 now) \/
                e = bumped l (mkEntry 0 now zeroTime) now).
Proof.
  intros Hw Hth Hk. unfold record. rewrite (proj2 (String.eqb_neq _ _) Hk).
  set (l0 := count inc_recorded l).
  assert (Hw0 : limiter_wf l0) by (destruct Hw; by split).
  pose proof (cleanup_shrinks l0 now Hw0) as Hc. set (l1 := maybeCleanupAtCapacity l0 now) in *.
  destruct (drop_expired l1 k now) as [l2 o] eqn:Ed.
  destruct (drop_expired_shrinks l1 k now l2 o (proj1 Hc) Ed) as [Hd Ho].
  destruct (shrinks_trans _ _ _ Hc Hd) as (Hw2 & Ht2 & Hwin2 & Hb2 & Hcap2 & Hov2 & Hsub2).
  change (threshold l0) with (threshold l) in *. change (window l0) with (window l) in *.
  change (block l0) with (block l) in *. change (capacity l0) with (capacity l) in *.
  assert (Hbump : forall e, bumped l2 e now = bumped l e now).
  { intros e. unfold bumped. by rewrite Ht2, Hwin2, Hb2. }
  assert (Hsub : forall q e, client l2 q = Some e -> client l q = Some e) by exact Hsub2.
  pose proof (lw_threshold _ Hw).
  destruct o as [e0|].
  - pose proof (lw_shards _ Hw2 _ _ (shard_lookup l2 k Hw2) k e0 Ho) as [_ He0].
    destruct (record_entry_wf l2 k e0 now false Hw2 ltac:(by rewrite Ht2) He0 ltac:(by rewrite Ho))
      as (Hw' & Ht' & Hwin' & Hb' & Hcap' & Hcl').
    eexists. split; [done|]. split_and!; try congruence; try done.
    intros q e. rewrite Hcl'. destruct (decide (q = k)) as [->|]; [|left; auto].
    intros [= <-]. right. split; [done|]. left. exists e0. auto.
  - unfold reserveEntry. destruct (Z.leb_spec (capacity l2) (tracked l2)).
    + eexists. split; [done|].
      assert (Hov : forall x, shards (recordOverflow x now) = shards x /\
        threshold (recordOverflow x now) = threshold x /\ window (recordOverflow x now) = window x /\
        block (recordOverflow x now) = block x /\ capacity (recordOverflow x now) = capacity x /\
        tracked (recordOverflow x now) = tracked x).
      { intros x. unfold recordOverflow. destruct (After _ _); [done|]. by case_match. }
      destruct (Hov l2) as (Hs3 & Ht3 & Hwin3 & Hb3 & Hcap3 & Htr3).
      split_and!; try congruence.
      * destruct Hw2. split; by rewrite ?Hs3, ?Ht3, ?Hcap3, ?Htr3.
      * intros q e. unfold client, shard. rewrite Hs3. intros Hq. left.
        split; [|by apply Hsub]. intros ->. change (client l2 k = Some e) in Hq. congruence.
    + destruct (record_entry_wf l2 k (mkEntry 0 now zeroTime) now true Hw2 ltac:(by rewrite Ht2)
        ltac:(simpl; lia) ltac:(done)) as (Hw' & Ht' & Hwin' & Hb' & Hcap' & Hcl').
      eexists. split; [done|]. split_and!; try congruence; try done.
      intros q e. rewrite Hcl'. destruct (decide (q = k)) as [->|]; [|left; auto].
      intros [= <-]. right. split; [done|]. right. by rewrite Hbump.
Qed.

Lemma check_shrinks l k now :
  limiter_wf l -> exists l' r, check (Some l) k now = (Some l', r) /\
  limiter_wf l' /\ threshold l' = threshold l /\ window l' = window l /\ block l' = block l /\
  capacity l' = capacity l /\ forall q e, client l' q = Some e -> client l q = Some e.
Proof.
  intros Hw. unfold check. destruct (String.eqb k ""); [eexists _, _; split; [done|by split_and!]|].
  pose proof (cleanup_shrinks l now Hw) as Hc. set (l1 := maybeCleanupAtCapacity l now) in *.
  destruct (drop_expired l1 k now) as [l2 o] eqn:Ed.
  destruct (drop_expired_shrinks l1 k now l2 o (proj1 Hc) Ed) as [Hd Ho].
  destruct (shrinks_trans _ _ _ Hc Hd) as (Hw2 & Ht2 & Hwin2 & Hb2 & Hcap2 & Hov2 & Hsub2).
  destruct Hw2. repeat case_match; (eexists _, _; split; [done|]); split_and!; try done; by split.
Qed.

(** ** Histories *)

Inductive Op : Type :=
  | Check (clientKey : string)
  | Record_ (clientKey : string).

Definition apply (l : Limiter) (op : Op) (now : Time) : option Limiter :=
  match op with
  | Check k => (check (Some l) k now).1
  | Record_ k => record (Some l) k now
  end.

Definition op_key (op : Op) : string := match op with Check k => k | Record_ k => k end.

(** [run l0 h l]: the calls [h], latest first, with their times, which do not
decrease; a blank client key is ignored by the code and left out. *)
Inductive run (l0 : Limiter) : list (Op * Time) -> Limiter -> Prop :=
  | run_start : run l0 [] l0
  | run_op h l op now l' :
      run l0 h l -> 0 <= now -> (forall e, e ∈ h -> e.2 <= now) -> op_key op <> ""%string ->
      apply l op now = Some l' -> run l0 ((op, now) :: h) l'.

(** The failures recorded for a client, latest first. *)
Fixpoint events (k : string) (h : list (Op * Time)) : list Time :=
  match h with
  | [] => []
  | (Record_ q, t) :: h' => if String.eqb q k then t :: events k h' else events k h'
  | _ :: h' => events k h'
  end.

Lemma events_elem k h t : t ∈ events k h -> (Record_ k, t) ∈ h.
Proof.
  induction h as [|[[q|q] u] h IH]; simpl; [by intros ?%elem_of_nil|right; auto|].
  destruct (String.eqb_spec q k) as [->|]; [|right; auto].
  intros [->|?]%elem_of_cons; [left|right; auto].
Qed.

(** The latest failures of the client are the ones its entry counts. *)
Record counted (h : list (Op * Time)) (k : string) (e : Entry) : Prop := {
  ct_length : failures e <= Z.of_nat (length (events k h));
  ct_window t : t ∈ take (Z.to_nat (failures e)) (events k h) -> windowStart e <= t;
  ct_unblocked : failures e = 0 \/ exists t, hd_error (events k h) = Some t /\ blockedUntil e <= t
}.

(** The entry the new failure is counted in. *)
Definition rewound (l : Limiter) (e : Entry) (now : Time) : Entry :=
  if After (windowStart e) now || negb (Before now (Add (windowStart e) (window l)))
  then mkEntry 0 now (blockedUntil e) else e.

Lemma rewound_cases l e now :
  rewound l e now = mkEntry 0 now (blockedUntil e) \/
  rewound l e now = e /\ windowStart e <= now < windowStart e + window l.
Proof.
  unfold rewound. destruct (_ || _) eqn:E; [by left|]. right. bool_prop.
  unfold After, Before, Add in *. bool_prop. split; [done|lia].
Qed.

Lemma bumped_counted l h k e now :
  0 <= failures e < threshold l -> in_i64 (threshold l) ->
  counted h k e \/ failures e = 0 -> (forall x, x ∈ h -> x.2 <= now) ->
  counted ((Record_ k, now) :: h) k (bumped l e now).
Proof.
  intros Hf Hth He Htimes.
  assert (Hev : events k ((Record_ k, now) :: h) = now :: events k h)
    by (simpl; by rewrite String.eqb_refl).
  assert (Hzero : forall e', failures e' = 0 -> counted ((Record_ k, now) :: h) k e').
  { intros e' He'. split; rewrite ?Hev, ?He'; simpl; [lia| |by left]. by intros t ?%elem_of_nil. }
  unfold bumped. destruct (After (blockedUntil e) now) eqn:Hb.
  { apply Hzero. destruct He as [[_ _ [?|(t & Ht & Hle)]]|?]; try done.
    unfold After in Hb. bool_prop.
    assert (t ∈ events k h) by (destruct (events k h); [done|injection Ht as ->; left]).
    assert (t <= now) by (apply (Htimes (Record_ k, t)), events_elem; done). lia. }
  fold (rewound l e now). unfold After in Hb. bool_prop.
  destruct (Z.leb_spec (threshold l) (failures (rewound l e now) +! 1)); [by apply Hzero|].
  destruct (rewound_cases l e now) as [Hr|[Hr Hw]]; rewrite Hr in *;
    cbn [failures windowStart blockedUntil] in *.
  - split; rewrite Hev; simpl.
    + change (0 +! 1) with 1. lia.
    + intros t Ht. change (Z.to_nat (0 +! 1)) with 1%nat in Ht. simpl in Ht.
      apply list_elem_of_singleton in Ht. lia.
    + right. exists now. split; [done|lia].
  - rewrite i64_id in * by go_lia. split; rewrite Hev; simpl.
    + destruct He as [[Hl _ _]|?]; lia.
    + rewrite Z2Nat.inj_add by lia. rewrite Nat.add_comm. simpl.
      intros t [->|Ht]%elem_of_cons; [lia|]. destruct He as [[_ Hin _]|H0]; [by apply Hin|].
      rewrite H0 in Ht. simpl in Ht. by apply elem_of_nil in Ht.
    + right. exists now. split; [done|lia].
Qed.

Section History.
Context (l0 : Limiter) (Hw0 : limiter_wf l0) (Hth0 : in_i64 (threshold l0))
  (Hempty : forall k, client l0 k = None).

(** What holds after any history. *)
Record reached (h : list (Op * Time)) (l : Limiter) : Prop := {
  rd_wf : limiter_wf l;
  rd_threshold : threshold l = threshold l0;
  rd_window : window l = window l0;
  rd_block : block l = block l0;
  rd_capacity : capacity l = capacity l0;
  rd_counted k e : client l k = Some e -> counted h k e
}.

Lemma counted_other h k e op now :
  (forall q, op = Record_ q -> q <> k) -> counted h k e -> counted ((op, now) :: h) k e.
Proof.
  intros Hop [H1 H2 H3].
  assert (E : events k ((op, now) :: h) = events k h).
  { destruct op as [q|q]; simpl; [done|]. by rewrite (proj2 (String.eqb_neq q k) (Hop q eq_refl)). }
  by split; rewrite E.
Qed.

Lemma run_reached h l : run l0 h l -> reached h l.
Proof.
  induction 1 as [|h l op now l' Hrun IH Hnow Htimes Hkey Happ].
  - split; try done. intros k e. by rewrite Hempty.
  - destruct IH as [Hw Ht Hwin Hb Hc Hcnt]. destruct op as [q|q]; cbn [apply op_key] in Happ, Hkey.
    + destruct (check_shrinks l q now Hw) as (l1 & r & E & Hw1 & Ht1 & Hwin1 & Hb1 & Hc1 & Hsub).
      rewrite E in Happ. cbn [fst] in Happ. injection Happ as <-. split; try congruence; try done.
      intros k e He. apply counted_other; [done|]. by apply Hcnt, Hsub.
    + destruct (record_clients l q now Hw ltac:(by rewrite Ht) Hkey)
        as (l1 & E & Hw1 & Ht1 & Hwin1 & Hb1 & Hc1 & Hcl).
      rewrite E in Happ. injection Happ as <-. split; try congruence; try done.
      intros k e He. destruct (Hcl k e He) as [[Hne Hk]|[-> [(e0 & Hk & ->)| ->]]].
      * apply counted_other; [congruence|]. by apply Hcnt.
      * pose proof (lw_shards _ Hw _ _ (shard_lookup l q Hw) q e0 Hk) as [_ Hf].
        apply bumped_counted; auto. by rewrite Ht.
      * pose proof (lw_threshold _ Hw). apply bumped_counted; simpl; auto; [lia|by rewrite Ht].
Qed.
End History.

(** Bounded memory: after any sequence of checks and failures, from any
number of client keys, the tracked counter is the number of entries and stays
within the capacity, and every entry is in the shard of its key. *)
Theorem limiter_bounded cfg l0 h l :
  newInvalidAuthAbuseLimiter (Some cfg) = Some l0 ->
  in_i64 (Capacity cfg) -> in_i64 (Threshold cfg) -> run l0 h l ->
  tracked l = shards_size (shards l) /\ tracked l <= Capacity cfg /\
  forall i m k e, shards l !! i = Some m -> m !! k = Some e -> shard_index k = i.
Proof.
  intros Hnew Hcap Hth Hrun. pose proof (new_limiter_wf cfg l0 Hcap Hnew) as Hw0.
  destruct (new_limiter_facts cfg l0 Hnew) as (Ht & Hc & _ & _ & Hempty).
  destruct (run_reached l0 Hw0 ltac:(by rewrite Ht) Hempty h l Hrun) as [Hw _ _ _ Hcl _].
  destruct (lw_tracked _ Hw). split_and!; [done|congruence|].
  intros i m k e Hi Hk. by apply (lw_shards _ Hw i m Hi k e).
Qed.

(** No block without abuse: a client becomes blocked only by a failure that
completes a row of [Threshold] consecutive failures of that very client, all
less than one window old, and then for exactly the block duration. *)
Theorem block_needs_failures cfg l0 h l k now l' e' :
  newInvalidAuthAbuseLimiter (Some cfg) = Some l0 ->
  in_i64 (Capacity cfg) -> in_i64 (Threshold cfg) -> 0 < window l0 ->
  run l0 h l -> 0 <= now -> (forall x, x ∈ h -> x.2 <= now) -> k <> ""%string ->
  (forall e, client l k = Some e -> blockedUntil e <= now) ->
  record (Some l) k now = Some l' -> client l' k = Some e' -> now < blockedUntil e' ->
  blockedUntil e' = now + block l0 /\
  Threshold cfg <= Z.of_nat (length (now :: events k h)) /\
  forall t, t ∈ take (Z.to_nat (Threshold cfg)) (now :: events k h) -> now - window l0 < t.
Proof.
  intros Hnew Hcap Hth Hwpos Hrun Hnow Htimes Hk Hfree Hrec He' Hblk.
  pose proof (new_limiter_wf cfg l0 Hcap Hnew) as Hw0.
  destruct (new_limiter_facts cfg l0 Hnew) as (Ht0 & Hc0 & _ & _ & Hempty).
  destruct (run_reached l0 Hw0 ltac:(by rewrite Ht0) Hempty h l Hrun) as [Hw Ht Hwin Hb _ Hcnt].
  destruct (record_clients l k now Hw ltac:(by rewrite Ht, Ht0) Hk)
    as (l1 & E & _ & _ & _ & _ & _ & Hcl).
  rewrite E in Hrec. injection Hrec as ->.
  assert (Hbump : exists e0, e' = bumped l e0 now /\ blockedUntil e0 <= now /\
            0 <= failures e0 < threshold l /\ (counted h k e0 \/ failures e0 = 0)).
  { destruct (Hcl k e' He') as [[? _]|[_ [(e0 & Hk0 & ->)| ->]]]; [done| |].
    - exists e0. pose proof (lw_shards _ Hw _ _ (shard_lookup l k Hw) k e0 Hk0) as [_ ?].
      split_and!; auto; lia.
    - exists (mkEntry 0 now zeroTime). pose proof (lw_threshold _ Hw).
      split_and!; simpl; auto; unfold zeroTime; lia. }
  destruct Hbump as (e0 & -> & Hle & Hf & Hc).
  assert (Hthr : threshold l = Threshold cfg) by congruence. rewrite Hthr in Hf.
  revert Hblk. unfold bumped.
  assert (Ha : After (blockedUntil e0) now = false) by (apply Z.ltb_ge; lia). rewrite Ha.
  fold (rewound l e0 now).
  destruct (rewound_cases l e0 now) as [Hr|[Hr Hwn]]; rewrite Hr; cbn [failures windowStart blockedUntil].
  - change (0 +! 1) with 1. rewrite Hthr. destruct (Z.leb_spec (Threshold cfg) 1); simpl; [|lia].
    intros _. rewrite Hb. split_and!; [done|cbn [length]; lia|]. intros t.
    assert (Z.to_nat (Threshold cfg) = 1%nat) as -> by lia. simpl.
    intros ->%list_elem_of_singleton. lia.
  - rewrite i64_id by go_lia. rewrite Hthr.
    destruct (Z.leb_spec (Threshold cfg) (failures e0 + 1)); simpl; [|lia]. intros _. rewrite Hb.
    assert (Threshold cfg = failures e0 + 1) as -> by lia.
    split_and!; [done|cbn [length]; destruct Hc as [[Hl _ _]|?]; unfold Time in *; lia|].
    rewrite Z2Nat.inj_add, Nat.add_comm by lia. simpl. rewrite Hwin in Hwn.
    intros t [->|Hin]%elem_of_cons; [lia|]. destruct Hc as [[_ Hws _]|H0].
    + specialize (Hws t Hin). lia.
    + rewrite H0 in Hin. simpl in Hin. by apply elem_of_nil in Hin.
Qed.

(** ** Abuse is blocked *)

Lemma cleanup_keeps l now k e :
  limiter_wf l -> client l k = Some e -> entryExpired l e now = false ->
  client (maybeCleanupAtCapacity l now) k = Some e.
Proof.
  intros Hw Hk He. unfold maybeCleanupAtCapacity.
  destruct (tracked l <? capacity l); [done|]. destruct (now <? cleanupNext l); [done|].
  cbn [shards set_cleanup].
  set (i := Z.to_nat (cleanupCursor l mod invalidAuthAbuseShardCount)).
  set (kept := filter _ _). set (l' := count _ _).
  destruct (decide (is_Some (shards l !! i))) as [Hi|Hi].
  - rewrite (client_set l l' i kept k Hw eq_refl Hi). case_decide as Hd; [|done].
    apply map_lookup_filter_Some. split; [|done]. rewrite Hd, shard_lookup by done. done.
  - unfold client, shard, l'. cbn [shards count add_tracked set_shards].
    rewrite list_insert_ge; [done|]. apply lookup_ge_None. by apply eq_None_not_Some.
Qed.

(** A failure of a client with a live entry. *)
Lemma record_live l k e now :
  limiter_wf l -> in_i64 (threshold l) -> k <> ""%string ->
  client l k = Some e -> entryExpired l e now = false ->
  exists l', record (Some l) k now = Some l' /\ limiter_wf l' /\ threshold l' = threshold l /\
    window l' = window l /\ block l' = block l /\ client l' k = Some (bumped l e now).
Proof.
  intros Hw Hth Hk He Hexp.
  destruct (record_clients l k now Hw Hth Hk) as (l' & E & Hw' & Ht & Hwin & Hb & _ & Hcl).
  exists l'. split_and!; try done. revert E. unfold record.
  rewrite (proj2 (String.eqb_neq _ _) Hk). set (l0 := count inc_recorded l).
  assert (Hw0 : limiter_wf l0) by (destruct Hw; by split).
  pose proof (cleanup_keeps l0 now k e Hw0 He Hexp) as Hk1.
  pose proof (cleanup_shrinks l0 now Hw0) as (Hw1 & Ht1 & Hwin1 & Hb1 & _ & _ & _).
  set (l1 := maybeCleanupAtCapacity l0 now) in *. unfold drop_expired. fold (client l1 k).
  assert (Hexp1 : entryExpired l1 e now = false) by (unfold entryExpired in *; by rewrite Hwin1).
  rewrite Hk1, Hexp1. intros [= <-].
  pose proof (lw_shards _ Hw1 _ _ (shard_lookup l1 k Hw1) k e Hk1) as [_ Hf].
  destruct (record_entry_wf l1 k e now false Hw1 ltac:(by rewrite Ht1) Hf ltac:(by rewrite Hk1))
    as (_ & _ & _ & _ & _ & Hcl1).
  rewrite Hcl1, decide_True by done. unfold bumped. by rewrite Ht1, Hwin1, Hb1.
Qed.

(** The first failure of a client, with room left. *)
Lemma record_first l k now :
  limiter_wf l -> in_i64 (threshold l) -> k <> ""%string ->
  client l k = None -> tracked l < capacity l ->
  exists l', record (Some l) k now = Some l' /\ limiter_wf l' /\ threshold l' = threshold l /\
    window l' = window l /\ block l' = block l /\
    client l' k = Some (bumped l (mkEntry 0 now zeroTime) now).
Proof.
  intros Hw Hth Hk He Hroom.
  destruct (record_clients l k now Hw Hth Hk) as (l' & E & Hw' & Ht & Hwin & Hb & _ & Hcl).
  exists l'. split_and!; try done. revert E. unfold record, maybeCleanupAtCapacity.
  rewrite (proj2 (String.eqb_neq _ _) Hk). set (l0 := count inc_recorded l).
  change (tracked l0) with (tracked l). change (capacity l0) with (capacity l).
  rewrite (proj2 (Z.ltb_lt _ _) Hroom). unfold drop_expired. fold (client l0 k).
  assert (client l0 k = None) as -> by done. unfold reserveEntry.
  change (tracked l0) with (tracked l). change (capacity l0) with (capacity l).
  rewrite (proj2 (Z.leb_gt _ _) Hroom). intros [= <-].
  assert (Hw0 : limiter_wf l0) by (destruct Hw; by split).
  destruct (record_entry_wf l0 k (mkEntry 0 now zeroTime) now true Hw0 Hth) as (_ & _ & _ & _ & _ & Hcl1);
    [pose proof (lw_threshold _ Hw); simpl; change (threshold l0) with (threshold l); lia|done|].
  rewrite Hcl1, decide_True by done. done.
Qed.

(** Failures of one client, in order. *)
Definition record_all (l : option Limiter) (k : string) (ts : list Time) : option Limiter :=
  fold_left (fun l t => record l k t) ts l.

Lemma record_all_counts k t1 ts l n :
  limiter_wf l -> in_i64 (threshold l) -> k <> ""%string -> 0 <= t1 ->
  client l k = Some (mkEntry n t1 zeroTime) -> 1 <= n ->
  n + Z.of_nat (length ts) = threshold l ->
  (forall t, t ∈ ts -> t1 <= t < t1 + window l) -> ts <> [] ->
  exists l', record_all (Some l) k ts = Some l' /\
    client l' k = Some (mkEntry 0 (Add (default 0 (last ts)) (block l))
                                  (Add (default 0 (last ts)) (block l))).
Proof.
  revert l n. induction ts as [|t ts IH]; intros l n Hw Hth Hk Ht1 Hc Hn Hlen Hts Hne; [done|].
  pose proof (Hts t ltac:(left)) as Ht. cbn [length] in Hlen.
  assert (Hexp : entryExpired l (mkEntry n t1 zeroTime) t = false).
  { unfold entryExpired, After, Before, Add; simpl.
    rewrite (proj2 (Z.ltb_lt t (t1 + window l))) by lia. by rewrite andb_false_r. }
  destruct (record_live l k _ t Hw Hth Hk Hc Hexp) as (l' & E & Hw' & Hth' & Hwin' & Hb' & Hc').
  assert (Hbump : bumped l (mkEntry n t1 zeroTime) t =
            if threshold l <=? n + 1 then mkEntry 0 (Add t (block l)) (Add t (block l))
            else mkEntry (n + 1) t1 zeroTime).
  { unfold bumped, After, Before, Add, zeroTime; simpl.
    rewrite (proj2 (Z.ltb_ge t 0)), (proj2 (Z.ltb_ge t t1)),
      (proj2 (Z.ltb_lt t (t1 + window l))) by lia. simpl.
    by rewrite i64_id by go_lia. }
  rewrite Hbump in Hc'. unfold record_all. cbn [fold_left]. rewrite E.
  destruct (Z.leb_spec (threshold l) (n + 1)).
  - destruct ts as [|u ts]; [|cbn [length] in Hlen; lia]. exists l'. split; [done|]. exact Hc'.
  - rewrite <- Hb'. replace (last (t :: ts)) with (last ts) by (destruct ts; [cbn in *; lia|done]).
    apply (IH l' (n + 1)); rewrite ?Hth', ?Hwin'; auto; [lia|lia| |].
    + intros u Hu. apply Hts. by right.
    + intros ->. simpl in Hlen. lia.
Qed.

(** Abuse is blocked: with room in the limiter, a client that fails
[threshold] times within one window is rejected from the last of these
failures on, until the block duration has passed, and not afterwards. *)
Theorem abuse_is_blocked cfg l0 k (t1 : Time) (ts : list Time) :
  newInvalidAuthAbuseLimiter (Some cfg) = Some l0 ->
  in_i64 (Capacity cfg) -> in_i64 (Threshold cfg) -> k <> ""%string -> 0 <= t1 ->
  Z.of_nat (length (t1 :: ts)) = Threshold cfg -> 2 <= Threshold cfg ->
  (forall t, t ∈ ts -> t1 <= t < t1 + window l0) ->
  let until := default 0 (last ts) + block l0 in
  exists l, record_all (Some l0) k (t1 :: ts) = Some l /\
    client l k = Some (mkEntry 0 until until).
Proof.
  intros Hnew Hcap Hth Hk Ht1 Hlen Hthr Hts until.
  pose proof (new_limiter_wf cfg l0 Hcap Hnew) as Hw0.
  destruct (new_limiter_facts cfg l0 Hnew) as (Ht0 & Hc0 & _ & _ & Hempty).
  destruct (record_first l0 k t1 Hw0 ltac:(by rewrite Ht0) Hk (Hempty k)) as
    (l1 & E & Hw1 & Hth1 & Hwin1 & Hb1 & Hc1).
  { destruct (lw_tracked _ Hw0) as [Htr _]. rewrite Htr. pose proof (lw_capacity _ Hw0).
    destruct (new_limiter_empty cfg l0 Hnew). lia. }
  assert (Hbump : bumped l0 (mkEntry 0 t1 zeroTime) t1 = mkEntry 1 t1 zeroTime).
  { unfold bumped, After, Before, Add, zeroTime; simpl. cbn [length] in Hlen.
    rewrite (proj2 (Z.ltb_ge t1 0)), (proj2 (Z.ltb_ge t1 t1)) by lia. simpl.
    destruct (negb _); simpl; change (0 +! 1) with 1;
      by rewrite Ht0, (proj2 (Z.leb_gt (Threshold cfg) 1)) by lia. }
  rewrite Hbump in Hc1. unfold record_all. cbn [fold_left]. rewrite E.
  unfold until. rewrite <- Hb1. cbn [length] in Hlen.
  apply (record_all_counts k t1 ts l1 1); rewrite ?Hth1, ?Hwin1, ?Ht0; auto; try lia.
  intros ->. simpl in Hlen. lia.
Qed.

(** Who is rejected: as long as the limiter has room, a client is rejected
exactly while its own entry is blocked, with the time left as retry delay;
what other clients do is of no effect. *)
Theorem check_own_entry l k now :
  limiter_wf l -> tracked l < capacity l -> k <> ""%string ->
  (check (Some l) k now).2 =
    match client l k with
    | Some e => if now <? blockedUntil e then Some (Sub (blockedUntil e) now) else None
    | None => None
    end.
Proof.
  intros Hw Hroom Hk. unfold check, maybeCleanupAtCapacity.
  rewrite (proj2 (String.eqb_neq _ _) Hk), (proj2 (Z.ltb_lt _ _) Hroom).
  unfold drop_expired. fold (client l k). destruct (client l k) as [e|] eqn:E.
  - destruct (entryExpired l e now) eqn:Hexp.
    + unfold entryExpired, After in Hexp. bool_prop. rewrite (proj2 (Z.ltb_ge _ _)) by lia.
      cbn [capacity tracked count add_tracked set_shards].
      pose proof (shards_size_nonneg (shards l)). destruct (lw_tracked _ Hw) as [Htr _].
      pose proof (lw_capacity _ Hw). rewrite i64_id by go_lia.
      by rewrite (proj2 (Z.leb_gt _ _)) by lia.
    + unfold After. by destruct (now <? blockedUntil e).
  - by rewrite (proj2 (Z.leb_gt _ _)) by lia.
Qed.

(** ** Witnesses *)

Definition ex_cfg : AbuseConfig := mkAbuseConfig true 3 60 300 100.
Definition ex_limiter : Limiter := default (mkLimiter 0 0 0 0 [] (mkEntry 0 0 0) 0
  (mkCounters 0 0 0 0 0 0) 0 0) (newInvalidAuthAbuseLimiter (Some ex_cfg)).

Lemma ex_capacity_fits : in_i64 (Capacity ex_cfg).
Proof. by vm_compute. Qed.

Lemma ex_threshold_fits : in_i64 (Threshold ex_cfg).
Proof. by vm_compute. Qed.

Lemma abuse_is_blocked_witness :
  exists l, record_all (Some ex_limiter) "10.0.0.1" [1; 2; 3] = Some l /\
    client l "10.0.0.1" = Some (mkEntry 0 (3 + 300 * Second) (3 + 300 * Second)).
Proof.
  assert (Hts : forall t, t ∈ [2; 3] -> 1 <= t < 1 + window ex_limiter).
  { intros t [->|[->|?%elem_of_nil]%elem_of_cons]%elem_of_cons; [by vm_compute|by vm_compute|done]. }
  destruct (abuse_is_blocked ex_cfg ex_limiter "10.0.0.1" 1 [2; 3] eq_refl ex_capacity_fits
    ex_threshold_fits ltac:(discriminate) ltac:(lia) eq_refl ltac:(discriminate) Hts)
    as (l & H1 & H2).
  exists l. split; [exact H1|]. rewrite H2. vm_compute. reflexivity.
Defined.

Definition ex_after1 : Limiter := default ex_limiter (record (Some ex_limiter) "a" 1).
Definition ex_after2 : Limiter := default ex_limiter (record (Some ex_after1) "a" 2).

Lemma auth_ex_run : run ex_limiter [(Record_ "a", 2); (Record_ "a", 1)] ex_after2.
Proof.
  apply (run_op _ _ ex_after1).
  - apply (run_op _ _ ex_limiter); [constructor|lia|by intros e ?%elem_of_nil|done|].
    by vm_compute.
  - lia.
  - intros e [->|?%elem_of_nil]%elem_of_cons; [by simpl|done].
  - done.
  - by vm_compute.
Qed.

Lemma auth_ex_times x : x ∈ [(Record_ "a", 2); (Record_ "a", 1)] -> x.2 <= 3.
Proof. intros [->|[->|?%elem_of_nil]%elem_of_cons]%elem_of_cons; simpl; [lia|lia|done]. Qed.

Lemma limiter_bounded_witness : tracked ex_after2 <= 100.
Proof.
  exact (proj1 (proj2 (limiter_bounded ex_cfg ex_limiter _ ex_after2 eq_refl
    ex_capacity_fits ex_threshold_fits auth_ex_run))).
Defined.

Lemma block_needs_failures_witness :
  exists l' e', record (Some ex_after2) "a" 3 = Some l' /\ client l' "a" = Some e' /\
    blockedUntil e' = 3 + 300 * Second.
Proof.
  destruct (record (Some ex_after2) "a" 3) as [l'|] eqn:E; [|by vm_compute in E].
  destruct (client l' "a") as [e'|] eqn:Ee;
    [|vm_compute in E; injection E as <-; by vm_compute in Ee].
  exists l', e'. split; [done|]. split; [done|].
  refine (proj1 (block_needs_failures ex_cfg ex_limiter _ ex_after2 "a" 3 l' e' eq_refl
    ex_capacity_fits ex_threshold_fits ltac:(by vm_compute) auth_ex_run ltac:(done) _ ltac:(done)
    _ E Ee _)).
  - exact auth_ex_times.
  - intros e He. vm_compute in He. injection He as <-. by vm_compute.
  - vm_compute in E. injection E as <-. vm_compute in Ee. injection Ee as <-. by vm_compute.
Defined.

Lemma check_own_entry_witness :
  (check (Some ex_after2) "b" 3).2 = None.
Proof.
  rewrite check_own_entry; [reflexivity| |by vm_compute|done].
  apply (run_reached ex_limiter) with (h := [(Record_ "a", 2); (Record_ "a", 1)]).
  - by apply (new_limiter_wf ex_cfg).
  - by vm_compute.
  - by apply (new_limiter_facts ex_cfg).
  - apply auth_ex_run.
Defined.
