(* ===== verification/ImageLimiter.v ===== *)
(** * Image concurrency limiter

[handler/image_concurrency_limiter.go]: a counting semaphore whose waiters are
woken by closing a channel.  The limiter is shared by goroutines; each
critical section under [mu] is one step, and the goroutines interleave.  A
channel is a number: [notify] is the current one, a smaller one is closed. *)
From S2P Require Import Prelude.
From Stdlib Require Import Bool.

Local Open Scope Z_scope.

Record Limiter : Type := mkLimiter {
  notify : nat;
  limit : Z;
  active : Z;
  waiting : Z;
  enabled : bool
}.

Definition zeroLimiter : Limiter := mkLimiter 0 0 0 0 false.

(** The arguments of [Acquire], with [timeout] as the code tests it. *)
Record Request : Type := mkRequest {
  r_enabled : bool;
  r_limit : Z;
  wait : bool;
  timeout : Duration;
  maxWaiting : Z
}.

(** [TryAcquire] *)
Definition try_request (enabled : bool) (limit : Z) : Request := mkRequest enabled limit false 0 0.

(** The answer of [tryAcquireLocked]: a slot, a refusal, or a place in the
queue with the channel to wait on. *)
Inductive Try : Type :=
  | Got
  | Refused
  | Queued (ch : nat).

Definition tryAcquireLocked (l : Limiter) (en : bool) (lim : Z) (wt : bool) (maxw : Z)
  : Limiter * Try :=
  if active l <? lim then
    (mkLimiter (notify l) lim (active l +! 1) (waiting l) en, Got)
  else
    let l := mkLimiter (notify l) lim (active l) (waiting l) en in
    if negb wt then (l, Refused)
    else if (0 <? maxw) && (maxw <=? waiting l) then (l, Refused)
    else (mkLimiter (notify l) lim (active l) (waiting l +! 1) en, Queued (notify l)).

(** The body of the function returned by [releaseFunc], run once. *)
Definition release_slot (l : Limiter) : Limiter :=
  mkLimiter (S (notify l)) (limit l)
    (if 0 <? active l then active l -! 1 else active l) (waiting l) (enabled l).

(** The body of the function returned by [waiterReleaseFunc], run once. *)
Definition release_waiter (l : Limiter) : Limiter :=
  mkLimiter (notify l) (limit l) (active l)
    (if 0 <? waiting l then waiting l -! 1 else waiting l) (enabled l).

(** Where a goroutine stands: before [tryAcquireLocked]; waiting on a channel
(its place in the queue not given back yet); woken or cancelled, about to give
it back; holding a slot; or done ([Unlimited] when the limiter does not apply,
[Rejected], [Released] after its release function ran). *)
Inductive Stage : Type :=
  | Trying
  | Waiting (ch : nat)
  | Leaving (retry : bool)
  | Holding
  | Unlimited
  | Rejected
  | Released.

Record Goroutine : Type := mkGoroutine {
  request : Request;
  stage : Stage
}.

(** [acquire] up to its loop. *)
Definition enter (r : Request) : Goroutine :=
  mkGoroutine r
    (if negb (r_enabled r) || (r_limit r <=? 0) then Unlimited
     else if wait r && (timeout r <=? 0) then Rejected
     else Trying).

(** One step of a goroutine.  [Wake] is the channel case of [waitForSlot] and
[Expire] its context case; [Release] is a call of the release function, which
the caller may repeat. *)
Inductive Event : Type := Run | Wake | Expire | Release.

Definition goroutine_step (l : Limiter) (g : Goroutine) (e : Event) : option (Limiter * Goroutine) :=
  let r := request g in
  let to st := mkGoroutine r st in
  match stage g, e with
  | Trying, Run =>
      let maxw := if maxWaiting r <? 0 then 0 else maxWaiting r in
      match tryAcquireLocked l (r_enabled r) (r_limit r) (wait r) maxw with
      | (l, Got) => Some (l, to Holding)
      | (l, Refused) => Some (l, to Rejected)
      | (l, Queued ch) => Some (l, to (Waiting ch))
      end
  | Waiting ch, Wake => if bool_decide (ch < notify l)%nat then Some (l, to (Leaving true)) else None
  | Waiting _, Expire => Some (l, to (Leaving false))
  | Leaving retry, Run => Some (release_waiter l, to (if retry then Trying else Rejected))
  | Holding, Release => Some (release_slot l, to Released)
  | Released, Release => Some (l, g)
  | _, _ => None
  end.

Record World : Type := mkWorld {
  limiter : Limiter;
  goroutines : list Goroutine
}.

Inductive step : World -> World -> Prop :=
  | step_enter w r :
      step w (mkWorld (limiter w) (goroutines w ++ [enter r]))
  | step_run w i g e l' g' :
      goroutines w !! i = Some g -> goroutine_step (limiter w) g e = Some (l', g') ->
      step w (mkWorld l' (<[i := g']> (goroutines w))).

Definition reachable : World -> Prop := rtc step (mkWorld zeroLimiter []).

(** ** Accounting *)

Definition holds (g : Goroutine) : Z := match stage g with Holding => 1 | _ => 0 end.
Definition queues (g : Goroutine) : Z :=
  match stage g with Waiting _ | Leaving _ => 1 | _ => 0 end.

Definition few (w : World) : Prop := Z.of_nat (length (goroutines w)) < two63 - 1.

Lemma total_holds_le gs : 0 <= total holds gs <= Z.of_nat (length gs).
Proof.
  induction gs as [|g gs IH]; cbn [total length]; [lia|].
  assert (0 <= holds g <= 1) by (unfold holds; destruct (stage g); lia). lia.
Qed.

Lemma total_queues_le gs : 0 <= total queues gs <= Z.of_nat (length gs).
Proof.
  induction gs as [|g gs IH]; cbn [total length]; [lia|].
  assert (0 <= queues g <= 1) by (unfold queues; destruct (stage g); lia). lia.
Qed.

Lemma holds_le gs i g : gs !! i = Some g -> holds g <= total holds gs.
Proof. apply total_lookup. intros x. unfold holds. destruct (stage x); lia. Qed.

Lemma queues_le gs i g : gs !! i = Some g -> queues g <= total queues gs.
Proof. apply total_lookup. intros x. unfold queues. destruct (stage x); lia. Qed.

(** The counters count the goroutines. *)
Definition counted (w : World) : Prop :=
  active (limiter w) = total holds (goroutines w) /\
  waiting (limiter w) = total queues (goroutines w).

Lemma goroutine_step_counts l g e l' g' :
  goroutine_step l g e = Some (l', g') ->
  holds g <= active l < two63 - 1 -> queues g <= waiting l < two63 - 1 ->
  active l' = active l - holds g + holds g' /\ waiting l' = waiting l - queues g + queues g'.
Proof.
  unfold goroutine_step, tryAcquireLocked, holds, queues. intros H Ha Hw.
  destruct (stage g) eqn:Hs, e; simplify_eq/=; try lia.
  - repeat (case_match; simplify_eq/=); i64_simpl; lia.
  - case_bool_decide; simplify_eq/=; lia.
  - rewrite (proj2 (Z.ltb_lt 0 (waiting l))) by lia. i64_simpl. destruct retry; simpl; lia.
  - rewrite (proj2 (Z.ltb_lt 0 (active l))) by lia. i64_simpl. lia.
  - rewrite Hs. lia.
Qed.

Lemma step_counted w w' : few w' -> counted w -> step w w' -> counted w'.
Proof.
  unfold counted, few. intros Hfew [Ha Hw] Hstep. destruct Hstep as [w r|w i g e l' g' Hi Hg]; simpl in *.
  - assert (holds (enter r) = 0 /\ queues (enter r) = 0) as [H1 H2]
      by (unfold enter, holds, queues; simpl; repeat case_match; done).
    by rewrite !total_snoc, H1, H2, !Z.add_0_r.
  - rewrite length_insert in Hfew.
    pose proof (total_holds_le (goroutines w)). pose proof (total_queues_le (goroutines w)).
    pose proof (holds_le _ _ _ Hi). pose proof (queues_le _ _ _ Hi).
    rewrite !(total_update _ _ _ _ _ Hi).
    destruct (goroutine_step_counts _ _ _ _ _ Hg); [go_lia|go_lia|]. lia.
Qed.

(** ** One limit for all requests *)

Section OneLimit.
Context (L : Z).

Definition one_limit (w : World) : Prop :=
  forall i g, goroutines w !! i = Some g -> r_limit (request g) = L.

Record inv (w : World) : Prop := {
  inv_counted : counted w;
  inv_active : active (limiter w) <= Z.max 0 L;
  inv_waiter i g ch : goroutines w !! i = Some g -> stage g = Waiting ch ->
    (ch <= notify (limiter w))%nat /\ (ch = notify (limiter w) -> L <= active (limiter w))
}.

Lemma step_shrinks w w' : step w w' -> (few w' -> few w) /\ (one_limit w' -> one_limit w).
Proof.
  unfold few, one_limit. intros Hstep.
  destruct Hstep as [w r|w i g e l' g' Hi Hg]; simpl.
  - rewrite length_app. simpl. split; [lia|]. intros HH j x Hj. apply (HH j x).
    by apply lookup_app_l_Some.
  - rewrite length_insert. split; [done|]. intros HH j x Hj.
    destruct (decide (j = i)) as [->|Hne].
    + assert (x = g) as -> by congruence.
      assert (request g = request g') as ->
        by (unfold goroutine_step in Hg; repeat (case_match; simplify_eq/=); done).
      apply (HH i g'). apply list_lookup_insert_eq. by eapply lookup_lt_Some.
    + apply (HH j x). by rewrite list_lookup_insert_ne.
Qed.

(** What one step does to the channel, the active count and its goroutine. *)
Lemma goroutine_step_channel l g e l' g' ch :
  goroutine_step l g e = Some (l', g') -> r_limit (request g) = L ->
  active l <= Z.max 0 L -> 0 <= active l < two63 - 1 ->
  active l' <= Z.max 0 L /\
  ((notify l < notify l')%nat \/ notify l = notify l' /\ active l <= active l') /\
  (stage g' = Waiting ch -> ch = notify l' /\ L <= active l').
Proof.
  unfold goroutine_step, tryAcquireLocked. intros H HL Ha Hb. rewrite HL in H. clear HL.
  destruct (stage g) eqn:Hs, e; simplify_eq/=.
  - destruct (Z.ltb_spec (active l) L); simplify_eq/=; [i64_simpl; split_and!; [lia|right; lia|done]|].
    destruct (wait (request g)); simplify_eq/=; [|split_and!; [lia|right; lia|done]].
    destruct (_ && _); simplify_eq/=; (split_and!; [lia|right; lia|]); [done|].
    intros [= <-]. split; [done|lia].
  - case_bool_decide; simplify_eq/=. split_and!; [lia|right; lia|done].
  - split_and!; [lia|right; lia|done].
  - split_and!; [lia|right; lia|by destruct retry].
  - destruct (0 <? active l) eqn:E; i64_simpl; split_and!; try done; try lia; left; lia.
  - split_and!; [lia|right; lia|]. by rewrite Hs.
Qed.

Lemma reachable_inv w : reachable w -> few w -> one_limit w -> inv w.
Proof.
  revert w. apply (rtc_ind_r (fun w => few w -> one_limit w -> inv w)).
  { intros _ _. split; simpl; [done|lia|]. by intros i g ch. }
  intros w w' Hrtc Hstep IH Hfew Hone. destruct (step_shrinks _ _ Hstep) as [Hf Ho].
  destruct (IH (Hf Hfew) (Ho Hone)) as [Hc Ha Hwt].
  pose proof (step_counted _ _ Hfew Hc Hstep) as Hc'. split; [done| |].
  - destruct Hstep as [w r|w i g e l' g' Hi Hg]; [done|]. simpl.
    pose proof Hc as [Hact _]. pose proof (total_holds_le (goroutines w)).
    specialize (Hf Hfew). unfold few in Hf.
    destruct (goroutine_step_channel _ _ _ _ _ 0%nat Hg (Ho Hone i g Hi) Ha) as (? & _); [lia|done].
  - destruct Hstep as [w r|w i g e l' g' Hi Hg]; simpl; intros j x ch Hj Hx.
    + apply lookup_app_Some in Hj as [Hj|[_ Hj]]; [by eapply Hwt|].
      apply list_lookup_singleton_Some in Hj as [_ <-].
      unfold enter in Hx. simpl in Hx. by repeat case_match.
    + pose proof Hc as [Hact _]. pose proof (total_holds_le (goroutines w)).
      specialize (Hf Hfew). unfold few in Hf.
      destruct (goroutine_step_channel _ _ _ _ _ ch Hg (Ho Hone i g Hi) Ha) as (_ & Hn & Hq); [lia|].
      destruct (decide (j = i)) as [->|Hne].
      * rewrite list_lookup_insert_eq in Hj by (by eapply lookup_lt_Some). simplify_eq.
        destruct (Hq Hx) as [-> ?]. auto.
      * rewrite list_lookup_insert_ne in Hj by done. destruct (Hwt j x ch Hj Hx) as [Hle Heq].
        destruct Hn as [?|[Hn Hm]]; [split; [lia|intros ->; lia]|]. rewrite <- Hn.
        split; [done|]. intros E. specialize (Heq E). lia.
Qed.
End OneLimit.

(** The semaphore: however any number of requests with one limit enter,
wait, time out, retry, and call their release functions (repeatedly), no more
than [L] of them hold a slot, and the counters are exactly the numbers of
holders and of queued requests, so no slot is ever lost or returned twice. *)
Theorem slots_within_limit L w :
  0 < L -> reachable w -> few w -> one_limit L w ->
  total holds (goroutines w) <= L /\
  active (limiter w) = total holds (goroutines w) /\
  waiting (limiter w) = total queues (goroutines w).
Proof.
  intros HL Hr Hf Ho. destruct (reachable_inv L w Hr Hf Ho) as [[Ha Hw] Hm _].
  split_and!; [lia|done|done].
Qed.

(** C36. No lost wake-up: in every reachable state, as soon as a slot is free
every waiting request is awake, that is, the channel it waits on is closed
and it can go on; a request only sleeps while all [L] slots are held. *)
Theorem no_lost_wakeup L w i g ch :
  reachable w -> few w -> one_limit L w ->
  goroutines w !! i = Some g -> stage g = Waiting ch -> active (limiter w) < L ->
  is_Some (goroutine_step (limiter w) g Wake).
Proof.
  intros Hr Hf Ho Hi Hs Hfree. destruct (reachable_inv L w Hr Hf Ho) as [_ _ Hw].
  destruct (Hw i g ch Hi Hs) as [Hle Heq]. unfold goroutine_step. rewrite Hs.
  rewrite bool_decide_eq_true_2; [done|].
  destruct (decide (ch = notify (limiter w))) as [->|]; [|lia]. specialize (Heq eq_refl). lia.
Qed.

(** ** Witnesses *)

Definition ex_request : Request := mkRequest true 1 true Second 5.

Fixpoint run (w : World) (es : list (nat * Event)) : option World :=
  match es with
  | [] => Some w
  | (i, e) :: es' =>
      g ← goroutines w !! i;
      r ← goroutine_step (limiter w) g e;
      run (mkWorld r.1 (<[i := r.2]> (goroutines w))) es'
  end.

Lemma run_steps w es w' : run w es = Some w' -> rtc step w w'.
Proof.
  revert w. induction es as [|[i e] es IH]; simpl; intros w; [by intros [= ->]|].
  destruct (goroutines w !! i) as [g|] eqn:Hi; [|done]. simpl.
  destruct (goroutine_step (limiter w) g e) as [[l' g']|] eqn:Hg; [|done]. simpl. intros H.
  eapply rtc_l; [|by apply IH]. by eapply step_run.
Qed.

Definition ex_two : World := mkWorld zeroLimiter [enter ex_request; enter ex_request].

(** The first request gets the slot, the second queues, the first releases. *)
Definition ex_world : World :=
  default ex_two (run ex_two [(0, Run); (1, Run); (0, Release)]%nat).

Lemma ex_reachable : reachable ex_world.
Proof.
  eapply rtc_l; [apply (step_enter _ ex_request)|].
  eapply rtc_l; [apply (step_enter _ ex_request)|].
  apply (run_steps _ [(0, Run); (1, Run); (0, Release)]%nat). reflexivity.
Qed.

Lemma ex_one_limit : one_limit 1 ex_world.
Proof. intros [|[|i]] g; intros [= <-]; reflexivity. Qed.

Lemma slots_within_limit_witness : total holds (goroutines ex_world) <= 1.
Proof.
  refine (proj1 (slots_within_limit 1 ex_world _ ex_reachable _ ex_one_limit)); by vm_compute.
Defined.

Lemma no_lost_wakeup_witness :
  exists g, goroutines ex_world !! 1%nat = Some g /\
    is_Some (goroutine_step (limiter ex_world) g Wake).
Proof.
  eexists. split; [reflexivity|].
  refine (no_lost_wakeup 1 ex_world 1 _ 0 ex_reachable _ ex_one_limit eq_refl eq_refl _);
    by vm_compute.
Defined.
