(* ===== verification/Pacing.v ===== *)
(** * Outbound pacing

[repository/account_pacer.go] and [repository/upstream_global_gate.go]: the
minimum interval between the requests of one account, and the process-wide
gate (concurrency slots, then a global minimum interval).  Both reserve a time
slot under their mutex and sleep afterwards; a reservation is a step here, and
reservations come in any order and with any clock readings. *)
From S2P Require Import Prelude.
From Stdlib Require Import Bool.

Local Open Scope Z_scope.

(** Reserved times, latest first, at least [d] apart. *)
Fixpoint spaced (d : Duration) (ts : list Time) : Prop :=
  match ts with
  | t :: ((u :: _) as r) => u + d <= t /\ spaced d r
  | _ => True
  end.

(** In a spaced list, the [i]-th latest and the [j]-th latest are [j - i]
intervals apart. *)
Lemma spaced_lookup d ts i j (t u : Time) :
  0 <= d -> spaced d ts -> (i <= j)%nat -> ts !! i = Some t -> ts !! j = Some u ->
  u + Z.of_nat (j - i) * d <= t.
Proof.
  intros Hd. revert i j t u. induction ts as [|x ts IH]; intros i j t u Hs Hij Hi Hj; [done|].
  destruct i as [|i], j as [|j]; simpl in Hi, Hj; simplify_eq; try lia.
  - destruct ts as [|y ts]; [done|]. destruct Hs as [Hxy Hs].
    specialize (IH 0%nat j y u Hs ltac:(lia) eq_refl Hj). rewrite Nat.sub_0_r in *. nia.
  - assert (Hs' : spaced d ts) by (destruct ts; [done|apply Hs]).
    apply (IH i j t u Hs' ltac:(lia) Hi Hj).
Qed.

(** What becomes of a caller that has reserved [target] and reads the clock at
[later]: it goes on at once, sleeps until its slot, or is cancelled. *)
Inductive Waited : Type :=
  | Sent (at_ : Time)
  | Cancelled.

Definition sleep_until (target later : Time) (ctx_done : bool) : Waited :=
  let delay := Sub target later in
  if delay <=? 0 then Sent later
  else if ctx_done then Cancelled else Sent (Add later delay).

Lemma sleep_until_not_early target later c t :
  in_i64 (target - later) -> sleep_until target later c = Sent t -> target <= t.
Proof.
  unfold sleep_until. intros Hr. rewrite Sub_exact by done. unfold Add.
  destruct (Z.leb_spec (target - later) 0); [intros [= <-]; lia|].
  destruct c; [done|]. intros [= <-]. lia.
Qed.

(** ** The account pacer *)

Record accountPacer : Type := mkPacer {
  minInterval : Duration;
  jitter : Duration;
  lastAt : gmap Z Time
}.

Definition newAccountPacer (minInterval jitter : Duration) : option accountPacer :=
  if minInterval <=? 0 then None
  else Some (mkPacer minInterval (if jitter <? 0 then 0 else jitter) ∅).

(** The critical section of [wait]: [extra] is the random part of the step. *)
Definition reserve (p : accountPacer) (accountID : Z) (now : Time) (extra : Duration)
  : accountPacer * Time :=
  let step := minInterval p +! extra in
  let target :=
    match lastAt p !! accountID with
    | None => now
    | Some last =>
        let target := Add last step in
        if negb (After target now) then now else target
    end in
  (mkPacer (minInterval p) (jitter p) (<[accountID := target]> (lastAt p)), target).

(** The random part of a step: [rand.Int63n(jitter)]. *)
Definition extra_ok (jitter extra : Duration) : Prop :=
  if 0 <? jitter then 0 <= extra < jitter else extra = 0.

Definition forget (p : accountPacer) (accountID : Z) : accountPacer :=
  mkPacer (minInterval p) (jitter p) (delete accountID (lastAt p)).

(** [wait] of a pacer that may be nil: the pacer afterwards and what the
caller does; [later] is the clock after the critical section. *)
Definition wait (p : option accountPacer) (accountID : Z) (now : Time) (extra : Duration)
    (later : Time) (ctx_done : bool) : option accountPacer * Waited :=
  match p with
  | None => (None, Sent now)
  | Some p =>
      if accountID <=? 0 then (Some p, Sent now)
      else
        let '(p', target) := reserve p accountID now extra in
        (Some p', sleep_until target later ctx_done)
  end.

(** Reservations and forgets on a shared pacer; the log of every account's
slots since it was last forgotten, latest first. *)
Inductive PacerOp : Type :=
  | Reserve (accountID : Z) (now : Time) (extra : Duration)
  | Forget (accountID : Z).

Definition pacer_step (s : accountPacer * gmap Z (list Time)) (op : PacerOp)
  : accountPacer * gmap Z (list Time) :=
  let '(p, log) := s in
  match op with
  | Reserve id now extra =>
      let '(p', target) := reserve p id now extra in
      (p', <[id := target :: default [] (log !! id)]> log)
  | Forget id => (forget p id, delete id log)
  end.

Definition pacer_run (p : accountPacer) (ops : list PacerOp)
  : accountPacer * gmap Z (list Time) := fold_left pacer_step ops (p, ∅).

Definition op_ok (j : Duration) (op : PacerOp) : Prop :=
  match op with Reserve _ _ extra => extra_ok j extra | Forget _ => True end.

(** The pacer remembers the latest slot of each account. *)
Definition pacer_inv (m : Duration) (s : accountPacer * gmap Z (list Time)) : Prop :=
  minInterval s.1 = m /\
  forall id, match lastAt s.1 !! id with
             | Some last => exists r, s.2 !! id = Some (last :: r) /\ spaced m (last :: r)
             | None => s.2 !! id = None
             end.

Lemma pacer_step_inv m j s op :
  0 < m -> 0 <= j -> m + j < two63 -> jitter s.1 = j -> pacer_inv m s -> op_ok j op ->
  pacer_inv m (pacer_step s op) /\ jitter (pacer_step s op).1 = j.
Proof.
  intros Hm Hj Hmj Hjit [Hmin Hlog] Hop. destruct s as [p log]. destruct op as [id now extra|id];
    cbn [pacer_step reserve forget fst snd] in *.
  - split; [|done]. split; [done|]. intros id'. cbn [lastAt fst snd].
    assert (Hstep : minInterval p +! extra = m + extra /\ 0 <= extra).
    { cbn [op_ok] in Hop. unfold extra_ok in Hop. rewrite Hmin.
      destruct (Z.ltb_spec 0 j); [|subst extra]; rewrite i64_id by go_lia; lia. }
    destruct Hstep as [-> Hextra].
    destruct (decide (id = id')) as [<-|Hne].
    + rewrite !lookup_insert_eq. specialize (Hlog id).
      destruct (lastAt p !! id) as [last|]; [|exists []; by rewrite Hlog].
      destruct Hlog as (r & -> & Hs). exists (last :: r). split; [done|]. split; [|done].
      unfold After, Add. destruct (Z.ltb_spec now (last + (m + extra))); simpl; lia.
    + rewrite !lookup_insert_ne by done. apply Hlog.
  - split; [|done]. split; [done|]. intros id'. cbn [lastAt fst snd forget].
    destruct (decide (id = id')) as [<-|Hne]; [by rewrite !lookup_delete_eq|].
    rewrite !lookup_delete_ne by done. apply Hlog.
Qed.

Lemma pacer_run_inv m j p ops :
  newAccountPacer m j = Some p -> m + Z.max 0 j < two63 -> Forall (op_ok (jitter p)) ops ->
  0 < m /\ pacer_inv m (pacer_run p ops).
Proof.
  unfold newAccountPacer. destruct (Z.leb_spec m 0); [done|]. intros [= <-] Hmj Hops.
  cbn [jitter] in Hops. set (j' := if j <? 0 then 0 else j) in *.
  assert (Hj' : j' = Z.max 0 j) by (unfold j'; case_Z; lia). rewrite <- Hj' in Hmj.
  split; [done|]. unfold pacer_run.
  assert (Hgen : forall s, pacer_inv m s -> jitter s.1 = j' -> pacer_inv m (fold_left pacer_step ops s)).
  { induction Hops as [|op ops Hop Hops IH]; intros s Hs Hjit; [done|]. cbn [fold_left].
    destruct (pacer_step_inv m j' s op) as [? ?]; try done; [lia|]. by apply IH. }
  apply Hgen; [|done]. split; [done|]. intros id. cbn [lastAt fst snd]. by rewrite !lookup_empty.
Qed.

(** Account pacing: however the requests of any accounts interleave, and
whatever clocks they read, any two slots reserved for one account are at least
[minInterval] apart for every reservation between them, so an account sends at
most one request per interval; nobody sends before its slot. *)
Theorem pacer_spaces_accounts m j p ops id ts a b (t u : Time) :
  newAccountPacer m j = Some p -> m + Z.max 0 j < two63 -> Forall (op_ok (jitter p)) ops ->
  (pacer_run p ops).2 !! id = Some ts -> (a <= b)%nat ->
  ts !! a = Some t -> ts !! b = Some u ->
  u + Z.of_nat (b - a) * m <= t /\
  forall later c sent, in_i64 (t - later) -> sleep_until t later c = Sent sent ->
    u + Z.of_nat (b - a) * m <= sent.
Proof.
  intros Hnew Hmj Hops Hts Hab Ha Hb.
  destruct (pacer_run_inv m j p ops Hnew Hmj Hops) as [Hm [_ Hinv]].
  specialize (Hinv id). rewrite Hts in Hinv.
  destruct (lastAt _ !! id) as [last|]; [|done]. destruct Hinv as (r & [= ->] & Hs).
  pose proof (spaced_lookup m _ a b t u ltac:(lia) Hs Hab Ha Hb). split; [done|].
  intros later c sent Hr Hsent. pose proof (sleep_until_not_early _ _ _ _ Hr Hsent). lia.
Qed.

(** Pacing delays no more than it must: an account whose last slot is at
least one step old is served at once, and otherwise exactly one step after its
last slot, the random part included. *)
Theorem reserve_exact p id now extra :
  0 < minInterval p -> 0 <= jitter p -> extra_ok (jitter p) extra ->
  minInterval p + jitter p < two63 ->
  (reserve p id now extra).2 =
    match lastAt p !! id with
    | None => now
    | Some last => Z.max now (last + minInterval p + extra)
    end.
Proof.
  intros Hm Hj He Hmj. unfold reserve, extra_ok in *. cbn [snd].
  destruct (lastAt p !! id) as [last|]; [|done].
  assert (0 <= extra < two63 - minInterval p) by (destruct (Z.ltb_spec 0 (jitter p)); go_lia).
  rewrite i64_id by go_lia. unfold After, Add.
  destruct (Z.ltb_spec now (last + (minInterval p + extra))); simpl; lia.
Qed.

(** ** The process-wide gate *)

Record upstreamGlobalGate : Type := mkGate {
  g_minInterval : Duration;
  g_jitter : Duration;
  maxWait : Duration;
  nextAt : Time;
  capacity : option Z
}.

(** [capacity] is the size of the [slots] channel, [None] for a nil channel. *)
Definition newUpstreamGlobalGate (minInterval jitter : Duration) (maxConcurrent : Z)
  : option upstreamGlobalGate :=
  if (minInterval <=? 0) && (jitter <=? 0) && (maxConcurrent <=? 0) then None
  else Some (mkGate minInterval (if jitter <? 0 then 0 else jitter) 0 zeroTime
               (if 0 <? maxConcurrent then Some maxConcurrent else None)).

(** The critical section of [waitInterval]. *)
Definition reserve_gate (g : upstreamGlobalGate) (now : Time) (extra : Duration)
  : upstreamGlobalGate * Time :=
  let step := if 0 <? g_jitter g then g_minInterval g +! extra else g_minInterval g in
  let target := if negb (IsZero (nextAt g)) && After (nextAt g) now then nextAt g else now in
  (mkGate (g_minInterval g) (g_jitter g) (maxWait g) (Add target step) (capacity g), target).

(** Where a caller of [acquireWithin] stands: before its slot; with a slot (or
no slot needed), before its interval; sleeping until its time; let through,
with the release function not yet run; done, released or failed. *)
Inductive Stage : Type :=
  | Entering
  | SlotTaken
  | Sleeping (target : Time)
  | Through
  | Finished
  | FailedWithoutSlot.

(** A caller's events.  [Proceed] goes on; [ContextDone] is the cancellation of
its context, while it waits; [CallRelease] is a call of the function it was
given, which it may repeat. *)
Inductive Event : Type :=
  | Proceed (now : Time) (extra : Duration)
  | ContextDone
  | CallRelease.

(** The gate, the length of the slots channel, and the reserved times. *)
Record GateState : Type := mkState {
  gate : upstreamGlobalGate;
  used : Z;
  slots_log : list Time
}.

Definition take_slot (s : GateState) : option GateState :=
  match capacity (gate s) with
  | None => Some s
  | Some c => if used s <? c then Some (mkState (gate s) (used s + 1) (slots_log s)) else None
  end.

(** [release], once: receive from the channel if there is one. *)
Definition give_back (s : GateState) : option GateState :=
  match capacity (gate s) with
  | None => Some s
  | Some _ => if 0 <? used s then Some (mkState (gate s) (used s - 1) (slots_log s)) else None
  end.

(** One event of a caller; [None] when it cannot happen (a full or an empty
channel blocks). *)
Definition caller_step (s : GateState) (st : Stage) (e : Event) : option (GateState * Stage) :=
  match st, e with
  | Entering, Proceed _ _ => s' ← take_slot s; Some (s', SlotTaken)
  | Entering, ContextDone =>
      match capacity (gate s) with None => None | Some _ => Some (s, FailedWithoutSlot) end
  | SlotTaken, Proceed now extra =>
      if g_minInterval (gate s) <=? 0 then Some (s, Through)
      else
        let '(g, target) := reserve_gate (gate s) now extra in
        Some (mkState g (used s) (target :: slots_log s), Sleeping target)
  | Sleeping target, Proceed now _ => if target <=? now then Some (s, Through) else None
  | Sleeping _, ContextDone => s' ← give_back s; Some (s', Finished)
  | Through, CallRelease => s' ← give_back s; Some (s', Finished)
  | Finished, CallRelease => Some (s, Finished)
  | FailedWithoutSlot, CallRelease => Some (s, FailedWithoutSlot)
  | _, _ => None
  end.

Record World : Type := mkWorld {
  state : GateState;
  callers : list Stage
}.

Inductive step (j : Duration) : World -> World -> Prop :=
  | step_enter w : step j w (mkWorld (state w) (callers w ++ [Entering]))
  | step_caller w i st e s' st' :
      callers w !! i = Some st ->
      (forall now extra, e = Proceed now extra -> 0 < now /\ extra_ok j extra) ->
      caller_step (state w) st e = Some (s', st') ->
      step j w (mkWorld s' (<[i := st']> (callers w))).

(** Callers that hold a place in the channel. *)
Definition holds (st : Stage) : Z :=
  match st with SlotTaken | Sleeping _ | Through => 1 | _ => 0 end.

Record gate_inv (m j : Duration) (c : option Z) (w : World) : Prop := {
  gi_min : g_minInterval (gate (state w)) = m;
  gi_jitter : g_jitter (gate (state w)) = j;
  gi_cap : capacity (gate (state w)) = c;
  gi_used : match c with
            | Some n => used (state w) = total holds (callers w) /\ used (state w) <= n
            | None => True
            end;
  gi_log : match slots_log (state w) with
           | [] => nextAt (gate (state w)) = zeroTime
           | t :: _ => 0 < t /\ t + m <= nextAt (gate (state w))
           end;
  gi_spaced : spaced m (slots_log (state w))
}.

Lemma holds_nonneg st : 0 <= holds st.
Proof. destruct st; simpl; lia. Qed.

Lemma give_back_used s s' :
  give_back s = Some s' ->
  gate s' = gate s /\ slots_log s' = slots_log s /\
  (forall n, capacity (gate s) = Some n -> used s' = used s - 1).
Proof.
  unfold give_back. destruct (capacity (gate s)) as [n|].
  - destruct (0 <? used s); [|done]. by intros [= <-].
  - intros [= <-]. split_and!; done.
Qed.

Lemma take_slot_used s s' :
  take_slot s = Some s' ->
  gate s' = gate s /\ slots_log s' = slots_log s /\
  (forall n, capacity (gate s) = Some n -> used s' = used s + 1 /\ used s' <= n).
Proof.
  unfold take_slot. destruct (capacity (gate s)) as [n|].
  - destruct (Z.ltb_spec (used s) n); [|done]. intros [= <-]. split_and!; try done.
    intros k [= <-]. simpl. lia.
  - intros [= <-]. split_and!; done.
Qed.

(** A step that leaves the gate itself alone. *)
Lemma gate_inv_slots m j c w i st st' s' :
  gate_inv m j c w -> callers w !! i = Some st ->
  gate s' = gate (state w) -> slots_log s' = slots_log (state w) ->
  (forall n, c = Some n -> used s' = used (state w) - holds st + holds st' /\ used s' <= n) ->
  gate_inv m j c (mkWorld s' (<[i := st']> (callers w))).
Proof.
  intros [Hm Hj Hc Hu Hl Hs] Hi Hg Hlog Hused. split; simpl; rewrite ?Hg, ?Hlog; try done.
  destruct c as [n|]; [|done]. destruct (Hused n eq_refl). destruct Hu.
  rewrite (total_update _ _ _ _ _ Hi). split; lia.
Qed.

(** Reserving a time keeps the reserved times spaced. *)
Lemma reserve_gate_inv m j c w i now extra g target :
  0 < m -> 0 <= j -> m + j < two63 -> 0 < now -> extra_ok j extra ->
  gate_inv m j c w -> callers w !! i = Some SlotTaken ->
  reserve_gate (gate (state w)) now extra = (g, target) ->
  gate_inv m j c (mkWorld (mkState g (used (state w)) (target :: slots_log (state w)))
                    (<[i := Sleeping target]> (callers w))).
Proof.
  intros Hm Hj Hmj Hnow He [Gm Gj Gc Gu Gl Gs] Hi. unfold reserve_gate. rewrite Gm, Gj.
  assert (Hstep : exists x, (if 0 <? j then m +! extra else m) = m + x /\ 0 <= x).
  { unfold extra_ok in He. destruct (Z.ltb_spec 0 j); [|exists 0; lia].
    exists extra. rewrite i64_id by go_lia. lia. }
  destruct Hstep as (x & -> & Hx). intros [= <- <-].
  unfold IsZero, After, Add. split; simpl; try done.
  - destruct c as [n|]; [|done]. rewrite (total_update _ _ _ _ _ Hi). simpl. lia.
  - destruct (slots_log (state w)) as [|u r].
    + rewrite Gl. simpl. lia.
    + rewrite (proj2 (Z.eqb_neq _ _)) by lia. simpl.
      destruct (Z.ltb_spec now (nextAt (gate (state w)))); lia.
  - destruct (slots_log (state w)) as [|u r]; [done|]. split; [|done].
    rewrite (proj2 (Z.eqb_neq _ _)) by lia. simpl.
    destruct (Z.ltb_spec now (nextAt (gate (state w)))); lia.
Qed.

Lemma step_gate_inv m j c w w' :
  0 <= j -> m + j < two63 -> gate_inv m j c w -> step j w w' -> gate_inv m j c w'.
Proof.
  intros Hj Hmj Hinv Hstep. destruct Hstep as [w|w i st e s' st' Hi Hev Hc].
  - destruct Hinv as [Gm Gj Gc Gu Gl Gs]. split; simpl; try done.
    destruct c; [|done]. by rewrite total_snoc, Z.add_0_r.
  - pose proof Hinv as [Gm Gj Gc Gu _ _]. pose proof (total_lookup _ _ _ _ holds_nonneg Hi) as Hle.
    destruct st, e; cbn [caller_step mbind option_bind] in Hc; try done.
    + destruct (take_slot (state w)) as [s1|] eqn:E; [|done]. injection Hc as <- <-.
      destruct (take_slot_used _ _ E) as (Hg & Hl & Hu). eapply gate_inv_slots; eauto.
      intros n ->. simpl. specialize (Hu n Gc). lia.
    + destruct (capacity (gate (state w))); [|done]. injection Hc as <- <-.
      eapply gate_inv_slots; eauto. intros n' ->. simpl. lia.
    + rewrite Gm in Hc. destruct (Z.leb_spec m 0).
      * injection Hc as <- <-. eapply gate_inv_slots; eauto. intros n ->. simpl. lia.
      * destruct (reserve_gate _ _ _) as [g target] eqn:E. injection Hc as <- <-.
        destruct (Hev _ _ eq_refl). eapply reserve_gate_inv; eauto.
    + destruct (_ <=? _); [|done]. injection Hc as <- <-. eapply gate_inv_slots; eauto.
      intros n ->. simpl. lia.
    + destruct (give_back (state w)) as [s1|] eqn:E; [|done]. injection Hc as <- <-.
      destruct (give_back_used _ _ E) as (Hg & Hl & Hu). eapply gate_inv_slots; eauto.
      intros n ->. simpl. specialize (Hu n Gc). lia.
    + destruct (give_back (state w)) as [s1|] eqn:E; [|done]. injection Hc as <- <-.
      destruct (give_back_used _ _ E) as (Hg & Hl & Hu). eapply gate_inv_slots; eauto.
      intros n ->. simpl. specialize (Hu n Gc). lia.
    + injection Hc as <- <-. eapply gate_inv_slots; eauto. intros n ->. simpl. lia.
    + injection Hc as <- <-. eapply gate_inv_slots; eauto. intros n ->. simpl. lia.
Qed.

(** The gate: however callers enter, are cancelled and release (possibly
more than once), at most [maxConcurrent] of them hold a slot, the channel
holds exactly one token per holder, so that a release never blocks, and any
two of the reserved times are [minInterval] apart per reservation between
them. *)
Theorem gate_limits m j n g w :
  newUpstreamGlobalGate m j n = Some g -> m + Z.max 0 j < two63 -> 0 < n ->
  rtc (step (Z.max 0 j)) (mkWorld (mkState g 0 []) []) w ->
  total holds (callers w) <= n /\
  (forall i st, callers w !! i = Some st -> holds st = 1 -> is_Some (give_back (state w))) /\
  (0 < m -> forall a b (t u : Time), (a <= b)%nat ->
     slots_log (state w) !! a = Some t -> slots_log (state w) !! b = Some u ->
     u + Z.of_nat (b - a) * m <= t).
Proof.
  intros Hnew Hmj Hn Hr.
  assert (Hinv : gate_inv m (Z.max 0 j) (Some n) w).
  { revert w Hr. apply (rtc_ind_r (gate_inv m (Z.max 0 j) (Some n))).
    - unfold newUpstreamGlobalGate in Hnew. destruct (_ && _); [done|]. simplify_eq/=.
      rewrite (proj2 (Z.ltb_lt 0 n) Hn). split; simpl; try done; [|lia].
      destruct (Z.ltb_spec j 0); lia.
    - intros w w' _ Hstep Hw. eapply step_gate_inv; eauto. lia. }
  destruct Hinv as [_ _ Gc [Gu Gn] _ Gs]. split_and!; [lia| |].
  - intros i st Hi Hst. unfold give_back. rewrite Gc.
    pose proof (total_lookup _ _ _ _ holds_nonneg Hi).
    rewrite (proj2 (Z.ltb_lt _ _)); [done|lia].
  - intros Hm a b t u Hab Ha Hb. eapply spaced_lookup; eauto. lia.
Qed.

(** ** Witnesses *)

Definition ex_ops : list PacerOp := [Reserve 7 1000 0; Reserve 9 1001 0; Reserve 7 1002 0].

Lemma pacer_spaces_accounts_witness :
  exists p, newAccountPacer 500 0 = Some p /\
    (pacer_run p ex_ops).2 !! 7 = Some [1500; 1000] /\ 1000 + Z.of_nat (1 - 0) * 500 <= 1500.
Proof.
  eexists. split; [reflexivity|]. split; [reflexivity|].
  refine (proj1 (pacer_spaces_accounts 500 0 _ ex_ops 7 [1500; 1000] 0 1 1500 1000 eq_refl
    ltac:(done) _ eq_refl ltac:(lia) eq_refl eq_refl)).
  by repeat constructor.
Defined.

Lemma reserve_exact_witness :
  (reserve (mkPacer 500 0 {[7 := 1000]}) 7 1002 0).2 = 1500.
Proof. rewrite reserve_exact; [reflexivity|done|done|done|done]. Defined.

Definition ex_gate : upstreamGlobalGate := mkGate 100 0 0 zeroTime (Some 1).

Lemma gate_limits_witness :
  exists w, rtc (step 0) (mkWorld (mkState ex_gate 0 []) []) w /\ total holds (callers w) <= 1.
Proof.
  assert (Hr : rtc (step 0) (mkWorld (mkState ex_gate 0 []) [])
                 (mkWorld (mkState ex_gate 1 []) [SlotTaken])).
  { eapply rtc_l; [apply step_enter|]. eapply rtc_l; [|apply rtc_refl].
    apply (step_caller 0 (mkWorld (mkState ex_gate 0 []) [Entering]) 0 Entering (Proceed 5 0)
             (mkState ex_gate 1 []) SlotTaken); [reflexivity| |reflexivity].
    intros now extra [= <- <-]. done. }
  eexists. split; [exact Hr|].
  exact (proj1 (gate_limits 100 0 1 ex_gate _ eq_refl ltac:(done) ltac:(done) Hr)).
Defined.
