(* ===== verification/GoTime.v ===== *)
(** * Go's civil calendar

[time.Date], [Time.Date], [Time.Weekday] and [Time.AddDate] in UTC, on the
instants of [Prelude]: nanoseconds since January 1 of year 1, which was a
Monday.  A day is its number since then; a month is counted from 1. *)
From S2P Require Import Prelude.
From Stdlib Require Import Bool.

Local Open Scope Z_scope.

Definition Day : Duration := 86400000000000.

Definition day_of (t : Time) : Z := t / Day.

(** The first day of year [y]. *)
Definition year_start (y : Z) : Z :=
  365 * (y - 1) + (y - 1) / 4 - (y - 1) / 100 + (y - 1) / 400.

Definition is_leap (y : Z) : bool :=
  (y mod 4 =? 0) && (negb (y mod 100 =? 0) || (y mod 400 =? 0)).

Definition year_length (y : Z) : Z := if is_leap y then 366 else 365.

(** Days of the year before month [m], 1 to 13. *)
Definition month_offset (leap : bool) (m : Z) : Z :=
  let l := if leap then 1 else 0 in
  if m <=? 1 then 0 else if m =? 2 then 31 else if m =? 3 then 59 + l
  else if m =? 4 then 90 + l else if m =? 5 then 120 + l else if m =? 6 then 151 + l
  else if m =? 7 then 181 + l else if m =? 8 then 212 + l else if m =? 9 then 243 + l
  else if m =? 10 then 273 + l else if m =? 11 then 304 + l else if m =? 12 then 334 + l
  else 365 + l.

(** The year of a day: a first estimate, and a step where it is off. *)
Definition year_of (n : Z) : Z :=
  let y := 400 * n / 146097 + 1 in
  if n <? year_start y then y - 1
  else if year_start (y + 1) <=? n then y + 1 else y.

(** The month of a day of the year. *)
Definition month_of (leap : bool) (yday : Z) : Z :=
  if yday <? month_offset leap 2 then 1 else if yday <? month_offset leap 3 then 2
  else if yday <? month_offset leap 4 then 3 else if yday <? month_offset leap 5 then 4
  else if yday <? month_offset leap 6 then 5 else if yday <? month_offset leap 7 then 6
  else if yday <? month_offset leap 8 then 7 else if yday <? month_offset leap 9 then 8
  else if yday <? month_offset leap 10 then 9 else if yday <? month_offset leap 11 then 10
  else if yday <? month_offset leap 12 then 11 else 12.

Definition civil : Type := Z * Z * Z.

(** [t.Date()] *)
Definition Date_of (t : Time) : civil :=
  let n := day_of t in
  let y := year_of n in
  let yday := n - year_start y in
  let m := month_of (is_leap y) yday in
  (y, m, yday - month_offset (is_leap y) m + 1).

(** [time.Date(y, m, d, 0, 0, 0, 0, time.UTC)]: the month is normalised into
its year, and the day may leave the month. *)
Definition Date (y m d : Z) : Time :=
  let y' := y + (m - 1) / 12 in
  let m' := (m - 1) mod 12 + 1 in
  (year_start y' + month_offset (is_leap y') m' + (d - 1)) * Day.

(** [t.Weekday()], Sunday being 0. *)
Definition Weekday (t : Time) : Z := (day_of t + 1) mod 7.

(** [t.AddDate(years, months, days)] *)
Definition AddDate (t : Time) (years months days : Z) : Time :=
  let '(y, m, d) := Date_of t in
  Date (y + years) (m + months) (d + days) + t mod Day.

(** ** Lemmas *)

Lemma year_start_next y : year_start (y + 1) = year_start y + year_length y.
Proof.
  unfold year_start, year_length, is_leap.
  destruct (Z.eqb_spec (y mod 4) 0), (Z.eqb_spec (y mod 100) 0), (Z.eqb_spec (y mod 400) 0);
    simpl; Z.div_mod_to_equations; lia.
Qed.

Lemma year_length_bounds y : 365 <= year_length y <= 366.
Proof. unfold year_length. case_match; lia. Qed.

Lemma year_start_mono y y' : y <= y' -> year_start y + 365 * (y' - y) <= year_start y'.
Proof. unfold year_start. Z.div_mod_to_equations; lia. Qed.

(** The estimate of [year_of] is off by one at most. *)
Lemma year_of_spec n : year_start (year_of n) <= n < year_start (year_of n + 1).
Proof.
  unfold year_of. set (y := 400 * n / 146097 + 1).
  assert (Hlow : year_start (y - 1) <= n).
  { unfold year_start, y. Z.div_mod_to_equations; lia. }
  assert (Hhigh : n < year_start (y + 2)).
  { unfold year_start, y. Z.div_mod_to_equations; lia. }
  destruct (Z.ltb_spec n (year_start y)); [replace (y - 1 + 1) with y by lia; lia|].
  destruct (Z.leb_spec (year_start (y + 1)) n); [|lia].
  replace (y + 1 + 1) with (y + 2) by lia. lia.
Qed.

Lemma year_of_unique n y : year_start y <= n < year_start (y + 1) -> year_of n = y.
Proof.
  intros Hy. pose proof (year_of_spec n) as Hs.
  destruct (Z.lt_trichotomy (year_of n) y) as [H|[H|H]]; [|done|].
  - pose proof (year_start_mono (year_of n + 1) y ltac:(lia)). lia.
  - pose proof (year_start_mono (y + 1) (year_of n) ltac:(lia)). lia.
Qed.

Lemma month_offset_13 (leap : bool) : month_offset leap 13 = if leap then 366 else 365.
Proof. by destruct leap. Qed.

(** Replace the month offsets of a goal by their values. *)
Ltac eval_offsets :=
  repeat match goal with
    | |- context [month_offset ?b ?k] =>
        let v := eval vm_compute in (month_offset b k) in change (month_offset b k) with v
    | H : context [month_offset ?b ?k] |- _ =>
        let v := eval vm_compute in (month_offset b k) in change (month_offset b k) with v in H
    end.

Lemma month_of_exists (leap : bool) (yday : Z) :
  0 <= yday < (if leap then 366 else 365) ->
  exists m, month_of leap yday = m /\ 1 <= m <= 12 /\
    month_offset leap m <= yday < month_offset leap (m + 1).
Proof.
  intros H. unfold month_of. destruct leap; cbv iota in H; eval_offsets;
    repeat match goal with |- context [if yday <? ?o then _ else _] =>
      destruct (Z.ltb_spec yday o) end;
    (eexists; split; [reflexivity|]; eval_offsets; lia).
Qed.

Lemma month_of_spec (leap : bool) (yday : Z) :
  0 <= yday < (if leap then 366 else 365) ->
  1 <= month_of leap yday <= 12 /\
  month_offset leap (month_of leap yday) <= yday < month_offset leap (month_of leap yday + 1).
Proof. intros H. by destruct (month_of_exists leap yday H) as (m & -> & ?). Qed.

Lemma month_of_unique (leap : bool) (yday m : Z) :
  1 <= m <= 12 -> month_offset leap m <= yday < month_offset leap (m + 1) ->
  month_of leap yday = m.
Proof.
  intros Hm Hy.
  assert (Hc : m = 1 \/ m = 2 \/ m = 3 \/ m = 4 \/ m = 5 \/ m = 6 \/ m = 7 \/ m = 8 \/ m = 9 \/
               m = 10 \/ m = 11 \/ m = 12) by lia.
  unfold month_of. decompose [or] Hc; subst m; destruct leap; cbn [Z.add Pos.add] in Hy;
    eval_offsets;
    repeat match goal with |- context [if yday <? ?o then _ else _] =>
      destruct (Z.ltb_spec yday o) end; lia.
Qed.

(** The civil date of a day counts back to it. *)
Lemma Date_of_spec t :
  let '(y, m, d) := Date_of t in
  1 <= m <= 12 /\ 1 <= d /\
  year_start y + month_offset (is_leap y) m + (d - 1) = day_of t /\
  day_of t < year_start y + month_offset (is_leap y) (m + 1).
Proof.
  unfold Date_of. set (n := day_of t). set (y := year_of n).
  pose proof (year_of_spec n) as Hy. fold y in Hy. rewrite year_start_next in Hy.
  unfold year_length in Hy.
  destruct (month_of_spec (is_leap y) (n - year_start y)) as [Hm Ho];
    [destruct (is_leap y); lia|]. lia.
Qed.

Lemma month_offset_bounds (leap : bool) (m : Z) :
  1 <= m <= 12 -> 0 <= month_offset leap m /\ month_offset leap m < month_offset leap (m + 1) /\
  month_offset leap (m + 1) <= (if leap then 366 else 365).
Proof.
  intros Hm.
  assert (Hc : m = 1 \/ m = 2 \/ m = 3 \/ m = 4 \/ m = 5 \/ m = 6 \/ m = 7 \/ m = 8 \/ m = 9 \/
               m = 10 \/ m = 11 \/ m = 12) by lia.
  decompose [or] Hc; subst m; destruct leap; cbn [Z.add Pos.add]; eval_offsets; lia.
Qed.

(** The day decides the date within its month. *)
Lemma Date_of_unique t y m d :
  1 <= m <= 12 -> 1 <= d ->
  day_of t = year_start y + month_offset (is_leap y) m + (d - 1) ->
  day_of t < year_start y + month_offset (is_leap y) (m + 1) ->
  Date_of t = (y, m, d).
Proof.
  intros Hm Hd Hn Hlt. unfold Date_of.
  pose proof (month_offset_bounds (is_leap y) m Hm).
  assert (Hy : year_of (day_of t) = y).
  { apply year_of_unique. rewrite year_start_next. unfold year_length.
    destruct (is_leap y); lia. }
  rewrite Hy, (month_of_unique _ _ m) by lia. f_equal. lia.
Qed.

Lemma Date_in_year y m d :
  1 <= m <= 12 -> Date y m d = (year_start y + month_offset (is_leap y) m + (d - 1)) * Day.
Proof.
  intros Hm. unfold Date. rewrite Z.div_small, Z.mod_small by lia.
  by replace (y + 0) with y by lia; replace (m - 1 + 1) with m by lia.
Qed.

(** The first of the following month. *)
Lemma Date_next_month y m :
  1 <= m <= 12 ->
  Date y (m + 1) 1 = (year_start y + month_offset (is_leap y) (m + 1)) * Day.
Proof.
  intros Hm. destruct (decide (m = 12)) as [->|Hne].
  - unfold Date. change ((12 + 1 - 1) / 12) with 1. change ((12 + 1 - 1) mod 12 + 1) with 1.
    rewrite year_start_next. change (12 + 1) with 13. rewrite month_offset_13.
    change (month_offset (is_leap (y + 1)) 1) with 0. unfold year_length. f_equal. lia.
  - rewrite Date_in_year by lia. f_equal. lia.
Qed.

Lemma day_of_Day n : day_of (n * Day) = n.
Proof. unfold day_of. apply Z.div_mul. done. Qed.

Lemma day_of_bounds t : day_of t * Day <= t < (day_of t + 1) * Day.
Proof.
  unfold day_of. pose proof (Z.div_mod t Day ltac:(done)).
  pose proof (Z.mod_pos_bound t Day ltac:(done)). nia.
Qed.

(** The midnight of a date. *)
Lemma Date_of_day t : let '(y, m, d) := Date_of t in Date y m d = day_of t * Day.
Proof.
  pose proof (Date_of_spec t) as H. destruct (Date_of t) as [[y m] d].
  rewrite Date_in_year by lia. f_equal. lia.
Qed.
