(* ===== verification/SubscriptionWindow.v ===== *)
(** * Subscription quota windows

[service/subscription_window.go]: the daily, weekly and monthly windows in
which a subscription's quota is issued anew.  An amount of money is an element
of [Usage], of which the code only uses the zero. *)
From S2P Require Import Prelude GoTime.
From Stdlib Require Import Bool.

Local Open Scope string_scope.
Local Open Scope Z_scope.

Definition SubscriptionResetPeriodNone := "none".
Definition SubscriptionResetPeriodDaily := "daily".
Definition SubscriptionResetPeriodWeekly := "weekly".
Definition SubscriptionResetPeriodMonthly := "monthly".

Definition NormalizeSubscriptionResetPeriod (raw : string) : string :=
  if String.eqb raw SubscriptionResetPeriodDaily || String.eqb raw SubscriptionResetPeriodWeekly ||
     String.eqb raw SubscriptionResetPeriodMonthly then raw
  else SubscriptionResetPeriodNone.

Definition IsRecurringSubscriptionResetPeriod (period : string) : bool :=
  negb (String.eqb (NormalizeSubscriptionResetPeriod period) SubscriptionResetPeriodNone).

Definition SubscriptionWindowStart (period : string) (now : Time) : Time :=
  let period := NormalizeSubscriptionResetPeriod period in
  if String.eqb period SubscriptionResetPeriodNone then zeroTime
  else
    let '(y, m, d) := Date_of now in
    let dayStart := Date y m d in
    if String.eqb period SubscriptionResetPeriodDaily then dayStart
    else if String.eqb period SubscriptionResetPeriodWeekly then
      let offset := (Weekday now + 6) mod 7 in AddDate dayStart 0 0 (- offset)
    else if String.eqb period SubscriptionResetPeriodMonthly then Date y m 1
    else zeroTime.

Definition NextSubscriptionWindowStart (period : string) (current now : Time) : Time :=
  let period := NormalizeSubscriptionResetPeriod period in
  if String.eqb period SubscriptionResetPeriodNone then zeroTime
  else
    let base := if IsZero current then SubscriptionWindowStart period now else current in
    let windowStart := SubscriptionWindowStart period base in
    if String.eqb period SubscriptionResetPeriodDaily then AddDate windowStart 0 0 1
    else if String.eqb period SubscriptionResetPeriodWeekly then AddDate windowStart 0 0 7
    else if String.eqb period SubscriptionResetPeriodMonthly then AddDate windowStart 0 1 0
    else zeroTime.

Definition SubscriptionWindowExpired (period : string) (usageWindowStart now : Time) : bool :=
  let period := NormalizeSubscriptionResetPeriod period in
  if String.eqb period SubscriptionResetPeriodNone then false
  else if IsZero usageWindowStart then true
  else Before usageWindowStart (SubscriptionWindowStart period now).

Section Usage.
Context {Usage : Type} (zeroUsage : Usage).

(** The fields of a subscription that the code computes with; a nil limit is
[None], an absent plan the name [None].  Timestamps of the row itself, the
assigning administrator and notes are left out. *)
Record UserSubscription : Type := mkSubscription {
  ID : Z;
  UserID : Z;
  Status : string;
  ExpiresAt : Time;
  TotalLimitUSD : option Usage;
  TotalUsageUSD : Usage;
  ResetPeriod : string;
  UsageWindowStart : Time;
  PlanName : option string
}.

(** The row with another window and usage. *)
Definition with_window (s : UserSubscription) (start : Time) (usage : Usage) : UserSubscription :=
  mkSubscription (ID s) (UserID s) (Status s) (ExpiresAt s) (TotalLimitUSD s) usage
    (ResetPeriod s) start (PlanName s).

Definition subscriptionWindowEffectiveUsage (period : string) (usageWindowStart : Time)
    (usage : Usage) (now : Time) : Usage :=
  if SubscriptionWindowExpired period usageWindowStart now then zeroUsage else usage.

(** [None] is the nil pointer result. *)
Definition SubscriptionWindowResetsAt (s : UserSubscription) (now : Time) : option Time :=
  if negb (IsRecurringSubscriptionResetPeriod (ResetPeriod s)) then None
  else if negb (After (ExpiresAt s) now) then None
  else
    let current :=
      if SubscriptionWindowExpired (ResetPeriod s) (UsageWindowStart s) now
      then SubscriptionWindowStart (ResetPeriod s) now else UsageWindowStart s in
    let next := NextSubscriptionWindowStart (ResetPeriod s) current now in
    if IsZero next || After next (ExpiresAt s) then None else Some next.

(** The subscription afterwards, and [needPersist]. *)
Definition NormalizeUsageWindow (s : UserSubscription) (now : Time) : UserSubscription * bool :=
  if negb (IsRecurringSubscriptionResetPeriod (ResetPeriod s)) then (s, false)
  else
    let start := SubscriptionWindowStart (ResetPeriod s) now in
    if IsZero (UsageWindowStart s) then
      (with_window s start (TotalUsageUSD s), true)
    else if negb (SubscriptionWindowExpired (ResetPeriod s) (UsageWindowStart s) now)
    then (s, false)
    else (with_window s start zeroUsage, true).

Definition EffectiveWindowUsageUSD (s : UserSubscription) (now : Time) : Usage :=
  subscriptionWindowEffectiveUsage (ResetPeriod s) (UsageWindowStart s) (TotalUsageUSD s) now.
End Usage.
Arguments UserSubscription : clear implicits.

(** ** Windows as intervals of days *)

(** The recurring periods. *)
Inductive Period : Type := Daily | Weekly | Monthly.

Definition period_name (p : Period) : string :=
  match p with
  | Daily => SubscriptionResetPeriodDaily
  | Weekly => SubscriptionResetPeriodWeekly
  | Monthly => SubscriptionResetPeriodMonthly
  end.

Lemma normalize_period raw :
  NormalizeSubscriptionResetPeriod raw = SubscriptionResetPeriodNone /\
    IsRecurringSubscriptionResetPeriod raw = false \/
  exists p, raw = period_name p.
Proof.
  unfold NormalizeSubscriptionResetPeriod, IsRecurringSubscriptionResetPeriod.
  destruct (String.eqb_spec raw SubscriptionResetPeriodDaily) as [->|]; [right; by exists Daily|].
  destruct (String.eqb_spec raw SubscriptionResetPeriodWeekly) as [->|]; [right; by exists Weekly|].
  destruct (String.eqb_spec raw SubscriptionResetPeriodMonthly) as [->|];
    [right; by exists Monthly|].
  left. unfold NormalizeSubscriptionResetPeriod.
  repeat match goal with H : raw <> _ |- _ => apply String.eqb_neq in H; rewrite H; clear H end.
  done.
Qed.

Lemma recurring_name p : IsRecurringSubscriptionResetPeriod (period_name p) = true.
Proof. by destruct p. Qed.

Lemma normalize_name p : NormalizeSubscriptionResetPeriod (period_name p) = period_name p.
Proof. by destruct p. Qed.

(** The days of the window that holds day [n]: the first one, and the first
one of the next window. *)
Definition window_days (p : Period) (n : Z) : Z * Z :=
  match p with
  | Daily => (n, n + 1)
  | Weekly => (n - n mod 7, n - n mod 7 + 7)
  | Monthly =>
      let y := year_of n in
      let m := month_of (is_leap y) (n - year_start y) in
      (year_start y + month_offset (is_leap y) m,
       year_start y + month_offset (is_leap y) (m + 1))
  end.

Lemma window_days_contain p n : (window_days p n).1 <= n < (window_days p n).2.
Proof.
  destruct p; cbn [window_days fst snd]; [lia|pose proof (Z.mod_pos_bound n 7); lia|].
  pose proof (year_of_spec n) as Hy. rewrite year_start_next in Hy. unfold year_length in Hy.
  destruct (month_of_spec (is_leap (year_of n)) (n - year_start (year_of n))) as [Hm Ho];
    [destruct (is_leap _); lia|]. lia.
Qed.

(** The windows partition the days. *)
Lemma window_days_same p n n' :
  (window_days p n).1 <= n' < (window_days p n).2 -> window_days p n' = window_days p n.
Proof.
  destruct p; cbn [window_days fst snd]; intros H.
  - f_equal; lia.
  - assert (n' - n' mod 7 = n - n mod 7) as ->; [|done].
    Z.div_mod_to_equations; lia.
  - pose proof (year_of_spec n) as Hy. rewrite year_start_next in Hy. unfold year_length in Hy.
    destruct (month_of_spec (is_leap (year_of n)) (n - year_start (year_of n))) as [Hm Ho];
      [destruct (is_leap _); lia|].
    pose proof (month_offset_bounds (is_leap (year_of n)) _ Hm) as Hb.
    assert (Hy' : year_of n' = year_of n).
    { apply year_of_unique. rewrite year_start_next. unfold year_length.
      destruct (is_leap _); lia. }
    rewrite Hy'. rewrite (month_of_unique _ (n' - _) _ Hm) by lia. done.
Qed.

Lemma AddDate_days n d : AddDate (n * Day) 0 0 d = (n + d) * Day.
Proof.
  unfold AddDate. pose proof (Date_of_spec (n * Day)) as H.
  destruct (Date_of (n * Day)) as [[y m] k]. rewrite day_of_Day in H.
  rewrite Z.mod_mul by done. rewrite !Z.add_0_r, Date_in_year by lia. f_equal. lia.
Qed.

Lemma AddDate_month y m :
  1 <= m <= 12 ->
  AddDate (Date y m 1) 0 1 0 = (year_start y + month_offset (is_leap y) (m + 1)) * Day.
Proof.
  intros Hm. unfold AddDate. pose proof (month_offset_bounds (is_leap y) m Hm) as Hb.
  assert (Hd : day_of (Date y m 1) = year_start y + month_offset (is_leap y) m)
    by (rewrite Date_in_year, day_of_Day by lia; lia).
  rewrite (Date_of_unique (Date y m 1) y m 1) by lia.
  rewrite (Date_in_year y m 1) by lia. rewrite Z.mod_mul by done.
  rewrite !Z.add_0_r, Date_next_month by lia. lia.
Qed.

(** The day after a window starts a window. *)
Lemma window_days_next p n : (window_days p (window_days p n).2).1 = (window_days p n).2.
Proof.
  destruct p; cbn [window_days fst snd]; [done|Z.div_mod_to_equations; lia|].
  pose proof (year_of_spec n) as Hy. rewrite year_start_next in Hy. unfold year_length in Hy.
  destruct (month_of_spec (is_leap (year_of n)) (n - year_start (year_of n))) as [Hm Ho];
    [destruct (is_leap _); lia|].
  set (y := year_of n) in *. set (m := month_of _ _) in *.
  pose proof (month_offset_bounds (is_leap y) m Hm) as Hb.
  destruct (decide (m = 12)) as [->|Hne].
  - change (12 + 1) with 13. rewrite month_offset_13.
    pose proof (year_start_next y) as Hn. unfold year_length in Hn. rewrite <- Hn.
    rewrite (year_of_unique (year_start (y + 1)) (y + 1)).
    2: { rewrite (year_start_next (y + 1)). pose proof (year_length_bounds (y + 1)). lia. }
    rewrite (month_of_unique _ _ 1); [by rewrite Z.add_0_r|lia|].
    rewrite Z.sub_diag. by destruct (is_leap (y + 1)).
  - pose proof (month_offset_bounds (is_leap y) (m + 1) ltac:(lia)) as Hb'.
    rewrite (year_of_unique _ y).
    2: { rewrite year_start_next. unfold year_length. destruct (is_leap y); lia. }
    rewrite (month_of_unique _ _ (m + 1)); lia.
Qed.

Lemma window_start_spec p now :
  SubscriptionWindowStart (period_name p) now = (window_days p (day_of now)).1 * Day.
Proof.
  unfold SubscriptionWindowStart. rewrite normalize_name. pose proof (Date_of_day now) as Hd.
  pose proof (Date_of_spec now) as Hs.
  destruct (Date_of now) as [[y m] d] eqn:E. destruct p; cbn [period_name]; simpl String.eqb;
    cbv iota; simpl window_days; cbn [fst].
  - exact Hd.
  - rewrite Hd, AddDate_days. f_equal. unfold Weekday. Z.div_mod_to_equations; lia.
  - unfold Date_of in E. injection E as <- <- _. rewrite Date_in_year by lia. f_equal. lia.
Qed.

Lemma window_start_day p now : day_of (SubscriptionWindowStart (period_name p) now) =
  (window_days p (day_of now)).1.
Proof. by rewrite window_start_spec, day_of_Day. Qed.

(** The start of a window is in the window it starts. *)
Lemma window_start_days p now :
  window_days p (day_of (SubscriptionWindowStart (period_name p) now)) =
  window_days p (day_of now).
Proof.
  rewrite window_start_day. apply window_days_same. pose proof (window_days_contain p (day_of now)).
  lia.
Qed.

Lemma next_window_spec p base now :
  base <> 0 ->
  NextSubscriptionWindowStart (period_name p) base now = (window_days p (day_of base)).2 * Day.
Proof.
  intros Hb. unfold NextSubscriptionWindowStart. rewrite normalize_name. unfold IsZero.
  rewrite (proj2 (Z.eqb_neq _ _) Hb). pose proof (window_start_spec p base) as Hs.
  destruct p; cbn [period_name] in *; simpl String.eqb; cbv iota.
  - rewrite Hs, AddDate_days. done.
  - rewrite Hs, AddDate_days. done.
  - pose proof (Date_of_spec base) as Hd. rewrite Hs. simpl window_days. cbn [fst snd].
    unfold Date_of in Hd. cbv zeta in Hd.
    rewrite <- AddDate_month by lia. rewrite Date_in_year by lia. f_equal. lia.
Qed.

(** ** Properties *)

(** One window at a time: for every recurring period, the instant [now] lies
in exactly one window; its start is not after [now], the next start is after
it, and every instant between the two has this very start, so that the window
depends on the instant alone and not on who asks, or how often. *)
Theorem window_partitions_time p now t :
  0 < SubscriptionWindowStart (period_name p) now ->
  let start := SubscriptionWindowStart (period_name p) now in
  let next := NextSubscriptionWindowStart (period_name p) start now in
  start <= now < next /\
  (SubscriptionWindowStart (period_name p) t = start <-> start <= t < next).
Proof.
  intros Hpos start next. pose proof (window_days_contain p (day_of now)) as Hn.
  assert (Hs : start = (window_days p (day_of now)).1 * Day) by apply window_start_spec.
  assert (Hx : next = (window_days p (day_of now)).2 * Day).
  { unfold next. rewrite next_window_spec by (fold start in Hpos; lia).
    unfold start. by rewrite window_start_days. }
  pose proof (day_of_bounds now) as Hb. pose proof (day_of_bounds t) as Ht.
  assert (Hd : 0 < Day) by done.
  split; [rewrite Hs, Hx; split; nia|]. rewrite window_start_spec, Hs, Hx. split.
  - intros Heq. apply Z.mul_reg_r in Heq; [|done].
    pose proof (window_days_contain p (day_of t)) as Hc.
    assert (Hw : window_days p (day_of now) = window_days p (day_of t)).
    { rewrite <- (window_days_same p (day_of now) (window_days p (day_of now)).1) by lia.
      rewrite <- Heq. apply window_days_same. lia. }
    rewrite Hw. split; nia.
  - intros Hin. rewrite (window_days_same p (day_of now) (day_of t)); [done|]. nia.
Qed.

Lemma expired_name p start now :
  SubscriptionWindowExpired (period_name p) start now =
    (start =? 0) || (start <? SubscriptionWindowStart (period_name p) now).
Proof.
  unfold SubscriptionWindowExpired. rewrite normalize_name. unfold IsZero, Before.
  destruct p; cbn [period_name]; simpl String.eqb; cbv iota; by case_match.
Qed.

Lemma next_window_after p now base :
  0 < SubscriptionWindowStart (period_name p) now -> base <> 0 ->
  SubscriptionWindowStart (period_name p) now <= base ->
  now < NextSubscriptionWindowStart (period_name p) base now.
Proof.
  intros Hpos Hb Hle. rewrite next_window_spec by done.
  pose proof (window_days_contain p (day_of now)) as Hn.
  pose proof (window_days_contain p (day_of base)) as Hc.
  pose proof (day_of_bounds now). pose proof (day_of_bounds base). rewrite window_start_spec in *.
  assert (Hd : 0 < Day) by done.
  destruct (Z.lt_ge_cases (day_of base) (window_days p (day_of now)).2) as [Hlt|Hge]; [|nia].
  rewrite (window_days_same p (day_of now) (day_of base)) by nia. nia.
Qed.

Lemma window_start_le p now : SubscriptionWindowStart (period_name p) now <= now.
Proof.
  rewrite window_start_spec. pose proof (window_days_contain p (day_of now)).
  pose proof (day_of_bounds now). assert (0 < Day) by done. nia.
Qed.

Section Properties.
Context {Usage : Type} (zero : Usage).
Implicit Types s : UserSubscription Usage.

(** No carry-over: after normalisation at [now] the subscription is in the
window of [now]; its usage is the old one if it was already there (or had no
window yet) and zero if it had crossed a boundary, however many windows ago;
doing it again changes nothing and asks for no write. *)
Theorem NormalizeUsageWindow_spec s now p :
  ResetPeriod s = period_name p -> 0 < SubscriptionWindowStart (period_name p) now ->
  UsageWindowStart s <= SubscriptionWindowStart (period_name p) now ->
  let s' := (NormalizeUsageWindow zero s now).1 in
  UsageWindowStart s' = SubscriptionWindowStart (period_name p) now /\
  TotalUsageUSD s' =
    (if (UsageWindowStart s =? 0) ||
        (UsageWindowStart s =? SubscriptionWindowStart (period_name p) now)
     then TotalUsageUSD s else zero) /\
  NormalizeUsageWindow zero s' now = (s', false) /\
  EffectiveWindowUsageUSD zero s' now = TotalUsageUSD s'.
Proof.
  intros Hp Hpos Hle s'.
  assert (Hdone : forall x, ResetPeriod x = period_name p ->
    UsageWindowStart x = SubscriptionWindowStart (period_name p) now ->
    NormalizeUsageWindow zero x now = (x, false) /\
    EffectiveWindowUsageUSD zero x now = TotalUsageUSD x).
  { intros x Hx Hs. unfold NormalizeUsageWindow, EffectiveWindowUsageUSD,
      subscriptionWindowEffectiveUsage. rewrite Hx, recurring_name, Hs, expired_name.
    unfold IsZero. rewrite (proj2 (Z.eqb_neq _ _)), Z.ltb_irrefl by lia. done. }
  unfold s', NormalizeUsageWindow. rewrite Hp, recurring_name, expired_name. cbn [negb].
  unfold IsZero. destruct (Z.eqb_spec (UsageWindowStart s) 0) as [Hz|Hz]; cbn [orb fst].
  - split_and!; [done|done|apply Hdone..]; done.
  - destruct (Z.ltb_spec (UsageWindowStart s) (SubscriptionWindowStart (period_name p) now));
      cbn [negb fst].
    + rewrite (proj2 (Z.eqb_neq (UsageWindowStart s) _)) by lia.
      split_and!; [done|done|apply Hdone..]; done.
    + assert (Heq : UsageWindowStart s = SubscriptionWindowStart (period_name p) now) by lia.
      rewrite <- Heq, Z.eqb_refl. destruct (Hdone s Hp Heq) as [Hn He].
      split_and!; [done|done|exact Hn|exact He].
Qed.

(** The refresh time shown to a user is in the future, not after the
expiry of the subscription, and is the start of a window; a subscription that
is one-off or has expired shows none.  For a row whose window is not ahead of
[now] it is shown exactly when the window of [now] ends before the expiry, and
is that end. *)
Theorem ResetsAt_spec s now :
  (forall p, ResetPeriod s = period_name p -> 0 < SubscriptionWindowStart (period_name p) now) ->
  match SubscriptionWindowResetsAt s now with
  | Some next =>
      exists p, ResetPeriod s = period_name p /\ now < next <= ExpiresAt s /\
        SubscriptionWindowStart (period_name p) next = next
  | None => True
  end /\
  (IsRecurringSubscriptionResetPeriod (ResetPeriod s) = false \/ ExpiresAt s <= now ->
   SubscriptionWindowResetsAt s now = None) /\
  (forall p, ResetPeriod s = period_name p ->
   UsageWindowStart s <= SubscriptionWindowStart (period_name p) now ->
   let next := NextSubscriptionWindowStart (period_name p)
     (SubscriptionWindowStart (period_name p) now) now in
   SubscriptionWindowResetsAt s now = if next <=? ExpiresAt s then Some next else None).
Proof.
  intros Hpos. split_and!.
  - unfold SubscriptionWindowResetsAt.
    destruct (normalize_period (ResetPeriod s)) as [[_ Hn]|[p Hp]]; [by rewrite Hn|].
    specialize (Hpos p Hp). rewrite Hp, recurring_name, expired_name. cbn [negb].
    destruct (After (ExpiresAt s) now); cbn [negb]; [|done].
    set (cur := if _ || _ then _ else UsageWindowStart s).
    assert (Hcur : cur <> 0 /\ SubscriptionWindowStart (period_name p) now <= cur).
    { unfold cur. destruct (_ || _) eqn:E; [lia|]. bool_prop. lia. }
    destruct Hcur as [Hc0 Hcle]. pose proof (next_window_after p now cur Hpos Hc0 Hcle) as Hlt.
    destruct (IsZero _ || _) eqn:E; [done|]. bool_prop. unfold After in *. bool_prop.
    exists p. split_and!; [done|done|done|].
    rewrite window_start_spec, next_window_spec, day_of_Day by done.
    pose proof (window_days_next p (day_of cur)) as ->. done.
  - unfold SubscriptionWindowResetsAt. intros [->|Hexp]; [done|].
    destruct (IsRecurringSubscriptionResetPeriod _); [|done]. unfold After.
    by rewrite (proj2 (Z.ltb_ge _ _)) by lia.
  - intros p Hp Hle next. specialize (Hpos p Hp).
    assert (Hlt : now < next) by (apply next_window_after; lia).
    pose proof (window_start_le p now) as Hnow.
    unfold SubscriptionWindowResetsAt. rewrite Hp, recurring_name, expired_name. cbn [negb].
    assert (Hcur : (if (UsageWindowStart s =? 0) ||
                       (UsageWindowStart s <? SubscriptionWindowStart (period_name p) now)
                    then SubscriptionWindowStart (period_name p) now else UsageWindowStart s) =
                   SubscriptionWindowStart (period_name p) now).
    { destruct (_ || _) eqn:E; [done|]. bool_prop. lia. }
    rewrite Hcur. fold next. unfold After, IsZero.
    rewrite (proj2 (Z.eqb_neq next 0)), Z.leb_antisym by lia. cbn [orb].
    destruct (Z.ltb_spec now (ExpiresAt s)), (Z.ltb_spec (ExpiresAt s) next); cbn [negb];
      (done || lia).
Qed.

(** The two readings of a row differ on a window that has not been
established: normalisation keeps the recorded usage, the effective usage is
zero. *)
Theorem unestablished_window_readings_differ s now p :
  ResetPeriod s = period_name p -> UsageWindowStart s = 0 ->
  TotalUsageUSD (NormalizeUsageWindow zero s now).1 = TotalUsageUSD s /\
  EffectiveWindowUsageUSD zero s now = zero.
Proof.
  intros Hp Hz. unfold NormalizeUsageWindow, EffectiveWindowUsageUSD,
    subscriptionWindowEffectiveUsage. rewrite Hp, recurring_name, expired_name, Hz. done.
Qed.
End Properties.

(** ** Witnesses *)

(** 2024-02-29 12:00 UTC *)
Definition ex_now : Time := Date 2024 2 29 + 12 * Hour.

Lemma window_partitions_time_witness :
  SubscriptionWindowStart "monthly" (Date 2024 2 3) = SubscriptionWindowStart "monthly" ex_now.
Proof.
  apply (window_partitions_time Monthly ex_now (Date 2024 2 3)); [by vm_compute|].
  split; by vm_compute.
Defined.

Definition ex_row (period : string) (expires start : Time) : UserSubscription Z :=
  mkSubscription 1 7 "active" expires (Some 9) 5 period start None.

Definition ex_sub : UserSubscription Z := ex_row "weekly" (Date 2024 3 31) (Date 2024 1 1).

Lemma NormalizeUsageWindow_spec_witness :
  TotalUsageUSD (NormalizeUsageWindow 0 ex_sub ex_now).1 = 0.
Proof.
  refine (proj1 (proj2 (NormalizeUsageWindow_spec 0 ex_sub ex_now Weekly eq_refl _ _)));
    by vm_compute.
Defined.

Lemma ResetsAt_spec_witness :
  SubscriptionWindowResetsAt (ex_row "daily" (Date 2024 1 1) (Date 2024 1 1)) ex_now = None.
Proof.
  apply ResetsAt_spec; [|right; by vm_compute]. intros p _. destruct p; by vm_compute.
Defined.

Lemma unestablished_window_readings_differ_witness :
  TotalUsageUSD (NormalizeUsageWindow 0 (ex_row "daily" (Date 2024 3 1) 0) ex_now).1 = 5 /\
  EffectiveWindowUsageUSD 0 (ex_row "daily" (Date 2024 3 1) 0) ex_now = 0.
Proof.
  exact (unestablished_window_readings_differ 0 (ex_row "daily" (Date 2024 3 1) 0) ex_now
    Daily eq_refl eq_refl).
Defined.
