(* ===== verification/KeywordMatcher.v ===== *)
(** * The blocked-keyword matcher of content moderation

[service/content_moderation_keyword_matcher.go]: the Aho-Corasick automaton
that [service/content_moderation.go] builds from the blocked keywords, and the
linear scan it falls back on.  The automaton is kept the way the code keeps
it: growing arrays of nodes and of edges, the edges of a node chained through
sibling indices while the trie is built and copied into a sorted slice at the
end.  An index out of range (a panic) and a loop that outlasts its fuel are
[None]; the theorems show that neither happens. *)
From S2P Require Import Prelude GoText.
From Stdlib Require Import Bool.

Local Open Scope Z_scope.

(** ** Arrays

[a[i]] and [a[i] = x]. *)
Definition at_ {A} (l : list A) (i : Z) : option A :=
  if i <? 0 then None else l !! Z.to_nat i.

Definition set_at {A} (l : list A) (i : Z) (x : A) : option (list A) :=
  if (0 <=? i) && (i <? Z.of_nat (length l)) then Some (<[Z.to_nat i := x]> l) else None.

Definition zlen {A} (l : list A) : Z := Z.of_nat (length l).

Fixpoint foldM {A S} (f : S -> A -> option S) (s : S) (l : list A) : option S :=
  match l with
  | [] => Some s
  | x :: l' => s' ← f s x; foldM f s' l'
  end.

Definition u16 (z : Z) : Z := z mod 65536.

(** [[]byte(s)] *)
Definition bytes (s : string) : list ascii := String.list_ascii_of_string s.

(** ** Data *)

Record contentModerationKeywordNode : Type := mkNode {
  failure : Z;
  bestKeyword : Z;
  edgeStart : Z;
  edgeCount : Z
}.

Record contentModerationKeywordEdge : Type := mkEdge {
  target : Z;
  label : ascii
}.

Record contentModerationKeywordBuildEdge : Type := mkBuildEdge {
  b_target : Z;
  nextSibling : Z;
  b_label : ascii
}.

Record contentModerationKeywordMatcher : Type := mkMatcher {
  nodes : list contentModerationKeywordNode;
  edges : list contentModerationKeywordEdge;
  rootTransitions : list Z;
  keywords : list string
}.

Notation Node := contentModerationKeywordNode.
Notation Edge := contentModerationKeywordEdge.
Notation BuildEdge := contentModerationKeywordBuildEdge.

Definition set_failure (n : Node) (f : Z) : Node :=
  mkNode f (bestKeyword n) (edgeStart n) (edgeCount n).
Definition set_best (n : Node) (b : Z) : Node :=
  mkNode (failure n) b (edgeStart n) (edgeCount n).
Definition set_edges (n : Node) (start count : Z) : Node :=
  mkNode (failure n) (bestKeyword n) start count.

(** ** Building the trie *)

Definition newContentModerationKeywordNode : Node := mkNode 0 (-1) 0 0.

Definition contentModerationKeywordBuildFirstEdge (node : Node) : Z :=
  if edgeStart node =? 0 then -1 else i32 (edgeStart node - 1).

(** The edges a loop [for i := first; i >= 0; i = edges[i].nextSibling] meets. *)
Fixpoint siblings (fuel : nat) (es : list BuildEdge) (i : Z) : option (list BuildEdge) :=
  if i <? 0 then Some []
  else match fuel with
       | O => None
       | S fuel' =>
           e ← at_ es i;
           r ← siblings fuel' es (nextSibling e);
           Some (e :: r)
       end.

Definition node_siblings (es : list BuildEdge) (n : Node) : option (list BuildEdge) :=
  siblings (length es) es (contentModerationKeywordBuildFirstEdge n).

Definition contentModerationKeywordBuildTransition (ns : list Node) (es : list BuildEdge)
    (state : Z) (c : ascii) : option Z :=
  if (state <? 0) || (zlen ns <=? state) then Some (-1)
  else
    n ← at_ ns state;
    l ← node_siblings es n;
    Some (match list_find (fun e => Ascii.eqb (b_label e) c) l with
          | Some (_, e) => b_target e
          | None => -1
          end).

(** One turn of the loop over the bytes of a keyword. *)
Definition add_byte (st : list Node * list BuildEdge * Z) (c : ascii) :
    option (list Node * list BuildEdge * Z) :=
  let '(ns, es, state) := st in
  next ← contentModerationKeywordBuildTransition ns es state c;
  if next <? 0 then
    let next := i32 (zlen ns) in
    let ns := ns ++ [newContentModerationKeywordNode] in
    n ← at_ ns state;
    let es := es ++ [mkBuildEdge next (contentModerationKeywordBuildFirstEdge n) c] in
    ns ← set_at ns state (set_edges n (u32 (zlen es)) (edgeCount n));
    Some (ns, es, next)
  else Some (ns, es, next).

Section Build.
Context `{GoUnicode}.

(** One turn of the loop over the keywords; the index is carried along. *)
Definition add_keyword (st : list Node * list BuildEdge * Z) (keyword : string) :
    option (list Node * list BuildEdge * Z) :=
  let '(ns, es, keywordIndex) := st in
  if String.eqb keyword "" then Some (ns, es, keywordIndex + 1)
  else
    '(ns, es, state) ← foldM add_byte (ns, es, 0) (bytes (ToLower keyword));
    n ← at_ ns state;
    let current := bestKeyword n in
    if (current <? 0) || (i32 keywordIndex <? current) then
      ns ← set_at ns state (set_best n (i32 keywordIndex));
      Some (ns, es, keywordIndex + 1)
    else Some (ns, es, keywordIndex + 1).

Definition build_trie (kws : list string) : option (list Node * list BuildEdge * Z) :=
  foldM add_keyword ([newContentModerationKeywordNode], [], 0) kws.
End Build.

(** ** Failure links *)

Definition minKeywordIndex (left right : Z) : Z :=
  if left <? 0 then right
  else if (right <? 0) || (left <? right) then left
  else right.

(** The loop over the edges of the root. *)
Definition root_edge (st : list Z * list Z) (e : BuildEdge) : option (list Z * list Z) :=
  let '(root, queue) := st in
  root ← set_at root (ascii_byte (b_label e)) (b_target e);
  Some (root, queue ++ [b_target e]).

(** [fallback] after the loop that follows the failure links of [f]. *)
Fixpoint fallback_of (fuel : nat) (ns : list Node) (es : list BuildEdge) (f : Z) (c : ascii) :
    option Z :=
  fallback ← contentModerationKeywordBuildTransition ns es f c;
  if (fallback <? 0) && negb (f =? 0) then
    match fuel with
    | O => None
    | S fuel' => n ← at_ ns f; fallback_of fuel' ns es (failure n) c
    end
  else Some fallback.

Definition link_edge (es : list BuildEdge) (state : Z) (st : list Node * list Z)
    (e : BuildEdge) : option (list Node * list Z) :=
  let '(ns, queue) := st in
  n ← at_ ns state;
  fallback ← fallback_of (length ns) ns es (failure n) (b_label e);
  t ← at_ ns (b_target e);
  let t := if 0 <=? fallback then set_failure t fallback else t in
  ns ← set_at ns (b_target e) t;
  fn ← at_ ns (failure t);
  ns ← set_at ns (b_target e) (set_best t (minKeywordIndex (bestKeyword t) (bestKeyword fn)));
  Some (ns, queue ++ [b_target e]).

(** The breadth-first loop; [queue] is what is left of the queue. *)
Fixpoint link_nodes (fuel : nat) (es : list BuildEdge) (ns : list Node) (queue : list Z) :
    option (list Node) :=
  match queue with
  | [] => Some ns
  | state :: rest =>
      match fuel with
      | O => None
      | S fuel' =>
          n ← at_ ns state;
          l ← node_siblings es n;
          '(ns, queue) ← foldM (link_edge es state) (ns, rest) l;
          link_nodes fuel' es ns queue
      end
  end.

(** ** Sorted edges *)

(** Insertion into [outgoing[:index]], held in reverse: the larger labels move up. *)
Fixpoint shift_in (current : Edge) (outgoing : list Edge) : list Edge :=
  match outgoing with
  | e :: rest =>
      if ascii_byte (label current) <? ascii_byte (label e) then e :: shift_in current rest
      else current :: outgoing
  | [] => [current]
  end.

Definition sort_outgoing (outgoing : list Edge) : list Edge :=
  rev (foldl (fun done e => shift_in e done) [] outgoing).

(** One turn of the loop over the nodes; the array [outgoing] has 256 slots. *)
Definition flatten_node (es : list BuildEdge) (st : list Node * list Edge) (nodeIndex : Z) :
    option (list Node * list Edge) :=
  let '(ns, out) := st in
  n ← at_ ns nodeIndex;
  l ← node_siblings es n;
  if 256 <? zlen l then None
  else
    let outgoing := sort_outgoing (map (fun e => mkEdge (b_target e) (b_label e)) l) in
    ns ← set_at ns nodeIndex (set_edges n (u32 (zlen out)) (u16 (zlen l)));
    Some (ns, out ++ outgoing).

(** ** The matcher *)

Section Matcher.
Context `{GoUnicode}.

(** The inner [option] is the pointer, [None] being nil. *)
Definition newContentModerationKeywordMatcher (kws : list string) :
    option (option contentModerationKeywordMatcher) :=
  match kws with
  | [] => Some None
  | _ =>
      '(ns, es, _) ← build_trie kws;
      if zlen ns =? 1 then Some None
      else
        root ← at_ ns 0;
        l ← node_siblings es root;
        '(rootTransitions, queue) ← foldM root_edge (replicate 256 0, []) l;
        ns ← link_nodes (length ns) es ns queue;
        '(ns, out) ← foldM (flatten_node es) (ns, []) (seqZ 0 (zlen ns));
        Some (Some (mkMatcher ns out rootTransitions kws))
  end.

(** The binary search of [next]: the final [left]. *)
Fixpoint lower_bound (fuel : nat) (es : list Edge) (left right : Z) (c : ascii) : option Z :=
  if left <? right then
    match fuel with
    | O => None
    | S fuel' =>
        let middle := left + (right - left) / 2 in
        e ← at_ es middle;
        if ascii_byte (label e) <? ascii_byte c then lower_bound fuel' es (middle + 1) right c
        else lower_bound fuel' es left middle c
    end
  else Some left.

Definition next (m : contentModerationKeywordMatcher) (state : Z) (c : ascii) : option Z :=
  if state =? 0 then at_ (rootTransitions m) (ascii_byte c)
  else if (state <? 0) || (zlen (nodes m) <=? state) then Some 0
  else
    node ← at_ (nodes m) state;
    let stop := edgeStart node + edgeCount node in
    left ← lower_bound (Z.to_nat (edgeCount node)) (edges m) (edgeStart node) stop c;
    if left <? stop then
      e ← at_ (edges m) left;
      Some (if Ascii.eqb (label e) c then target e else 0)
    else Some 0.

(** The inner loop of [Match]: the state after byte [c]. *)
Fixpoint advance (fuel : nat) (m : contentModerationKeywordMatcher) (state : Z) (c : ascii) :
    option Z :=
  t ← next m state c;
  if negb (t =? 0) then Some t
  else if state =? 0 then Some state
  else match fuel with
       | O => None
       | S fuel' => n ← at_ (nodes m) state; advance fuel' m (failure n) c
       end.

(** The loop over the text; [inl kw] is the early return. *)
Fixpoint match_loop (m : contentModerationKeywordMatcher) (text : list ascii) (state best : Z) :
    option (string + Z) :=
  match text with
  | [] => Some (inr best)
  | c :: text' =>
      state ← advance (length (nodes m)) m state c;
      n ← at_ (nodes m) state;
      let best := minKeywordIndex best (bestKeyword n) in
      if best =? 0 then kw ← at_ (keywords m) 0; Some (inl kw)
      else match_loop m text' state best
  end.

Definition Match (m : option contentModerationKeywordMatcher) (text : string) :
    option (string * bool) :=
  match m with
  | None => Some (""%string, false)
  | Some m =>
      if String.eqb text "" || (zlen (nodes m) =? 0) || (zlen (keywords m) =? 0)
      then Some (""%string, false)
      else
        r ← match_loop m (bytes (ToLower text)) 0 (-1);
        match r with
        | inl kw => Some (kw, true)
        | inr best =>
            if (best <? 0) || (zlen (keywords m) <=? best) then Some (""%string, false)
            else kw ← at_ (keywords m) best; Some (kw, true)
        end
  end.

(** [content_moderation.go]: the scan of every keyword in turn. *)
Fixpoint scan_keywords (lower : string) (kws : list string) : string * bool :=
  match kws with
  | [] => (""%string, false)
  | kw :: rest =>
      if String.eqb kw "" then scan_keywords lower rest
      else if Contains lower (ToLower kw) then (kw, true)
      else scan_keywords lower rest
  end.

Definition matchBlockedKeyword (text : string) (kws : list string) : string * bool :=
  if String.eqb text "" || (zlen kws =? 0) then (""%string, false)
  else scan_keywords (ToLower text) kws.

(** The fields of the runtime snapshot that decide a match: the configured
keywords and the matcher built from them. *)
Record contentModerationRuntimeSnapshot : Type := mkSnapshot {
  BlockedKeywords : list string;
  keywordMatcher : option contentModerationKeywordMatcher
}.

(** What [replaceRuntimeConfig] and the refresh store for a configuration. *)
Definition newSnapshot (kws : list string) : option contentModerationRuntimeSnapshot :=
  m ← newContentModerationKeywordMatcher kws;
  Some (mkSnapshot kws m).

Definition snapshot_matchBlockedKeyword (s : contentModerationRuntimeSnapshot) (text : string) :
    option (string * bool) :=
  match keywordMatcher s with
  | Some m => Match (Some m) text
  | None => Some (matchBlockedKeyword text (BlockedKeywords s))
  end.
End Matcher.

(** ** Arrays: lemmas *)

Lemma at_Some {A} (l : list A) i x : at_ l i = Some x <-> 0 <= i /\ l !! Z.to_nat i = Some x.
Proof. unfold at_. destruct (Z.ltb_spec i 0); split; [done|lia| |]; naive_solver lia. Qed.

Lemma at_nat {A} (l : list A) (i : nat) : at_ l (Z.of_nat i) = l !! i.
Proof. unfold at_. rewrite (proj2 (Z.ltb_ge _ _)) by lia. by rewrite Nat2Z.id. Qed.

Lemma at_range {A} (l : list A) i x : at_ l i = Some x -> 0 <= i < zlen l.
Proof. intros [H Hl]%at_Some. apply lookup_lt_Some in Hl. unfold zlen. lia. Qed.

Lemma at_is_Some {A} (l : list A) i : 0 <= i < zlen l -> exists x, at_ l i = Some x.
Proof.
  intros H. unfold zlen in H. destruct (lookup_lt_is_Some_2 l (Z.to_nat i)) as [x Hx]; [lia|].
  exists x. apply at_Some. split; [lia|done].
Qed.

Lemma at_app_l {A} (l k : list A) i x : at_ l i = Some x -> at_ (l ++ k) i = Some x.
Proof. rewrite !at_Some. intros [? ?]. split; [done|]. by apply lookup_app_l_Some. Qed.

Lemma at_app_r {A} (l : list A) x : at_ (l ++ [x]) (zlen l) = Some x.
Proof. unfold zlen. rewrite at_nat. apply list_lookup_middle. done. Qed.

Lemma at_app_inv {A} (l : list A) x i y :
  at_ (l ++ [x]) i = Some y -> at_ l i = Some y \/ i = zlen l /\ y = x.
Proof.
  rewrite !at_Some. intros [Hi [Hl|[Hl Hx]]%lookup_app_Some]; [by left|right].
  apply list_lookup_singleton_Some in Hx as [H0 ->]. unfold zlen. split; [lia|done].
Qed.

Lemma at_fun {A} (l : list A) i x y : at_ l i = Some x -> at_ l i = Some y -> x = y.
Proof. congruence. Qed.

Lemma at_inj {A} (l : list A) i j x : NoDup l -> at_ l i = Some x -> at_ l j = Some x -> i = j.
Proof.
  rewrite !at_Some. intros Hd [Hi Hx] [Hj Hy]. pose proof (NoDup_lookup _ _ _ _ Hd Hx Hy). lia.
Qed.

Lemma at_elem {A} (l : list A) x : x ∈ l <-> exists i, at_ l i = Some x.
Proof.
  split.
  - intros [i Hi]%list_elem_of_lookup. exists (Z.of_nat i). by rewrite at_nat.
  - intros [i [_ Hi]%at_Some]. by eapply list_elem_of_lookup_2.
Qed.

Lemma set_at_Some {A} (l : list A) i x :
  0 <= i < zlen l -> set_at l i x = Some (<[Z.to_nat i := x]> l).
Proof. intros H. unfold set_at, zlen in *. by rewrite (proj2 (Z.leb_le _ _)), (proj2 (Z.ltb_lt _ _)) by lia. Qed.

Lemma zlen_set {A} (l : list A) i x : zlen (<[i := x]> l) = zlen l.
Proof. unfold zlen. by rewrite length_insert. Qed.

Lemma zlen_snoc {A} (l : list A) x : zlen (l ++ [x]) = zlen l + 1.
Proof. unfold zlen. rewrite length_app. simpl. lia. Qed.

Lemma at_set_eq {A} (l : list A) i x : 0 <= i < zlen l -> at_ (<[Z.to_nat i := x]> l) i = Some x.
Proof.
  intros H. apply at_Some. split; [lia|]. apply list_lookup_insert_eq. unfold zlen in H. lia.
Qed.

Lemma at_set_ne {A} (l : list A) i j x :
  0 <= i -> i <> j -> at_ (<[Z.to_nat i := x]> l) j = at_ l j.
Proof.
  intros Hi Hne. unfold at_. destruct (Z.ltb_spec j 0); [done|].
  apply list_lookup_insert_ne. lia.
Qed.

Lemma fmap_at {A B} (f : A -> B) (l : list A) i : at_ (f <$> l) i = f <$> at_ l i.
Proof. unfold at_. case_match; [done|]. by rewrite list_lookup_fmap. Qed.

(** An update that keeps a field keeps the column of that field. *)
Lemma fmap_set_same {A B} (f : A -> B) (l : list A) i x y :
  at_ l i = Some x -> f y = f x -> f <$> <[Z.to_nat i := y]> l = f <$> l.
Proof.
  intros [_ Hl]%at_Some Hf. rewrite list_fmap_insert. apply list_insert_id.
  by rewrite list_lookup_fmap, Hl, Hf.
Qed.

(** The loop rule: an invariant over the elements done. *)
Lemma foldM_inv {A S} (f : S -> A -> option S) (I : list A -> S -> Prop) (l : list A) (s : S) :
  I [] s ->
  (forall pre x post s, l = pre ++ x :: post -> I pre s ->
     exists s', f s x = Some s' /\ I (pre ++ [x]) s') ->
  exists s', foldM f s l = Some s' /\ I l s'.
Proof.
  intros H0 Hstep.
  cut (forall post pre s, l = pre ++ post -> I pre s ->
    exists s', foldM f s post = Some s' /\ I l s').
  { intros H. by apply (H l []). }
  induction post as [|x post IH]; intros pre s1 Hl HI; simpl.
  - rewrite app_nil_r in Hl. subst. eauto.
  - destruct (Hstep pre x post s1 Hl HI) as (s2 & -> & HI2). simpl.
    apply (IH (pre ++ [x])); [by rewrite <- app_assoc|done].
Qed.

(** ** The first keyword that satisfies a test *)

Fixpoint first_idx (f : string -> bool) (kws : list string) (i : Z) : Z :=
  match kws with
  | [] => -1
  | kw :: rest => if f kw then i else first_idx f rest (i + 1)
  end.

Lemma first_idx_range f kws i :
  0 <= i -> first_idx f kws i = -1 \/ i <= first_idx f kws i < i + zlen kws.
Proof.
  revert i; induction kws as [|kw kws IH]; intros i Hi; simpl; [by left|].
  unfold zlen in *. cbn [length]. destruct (f kw); [right; lia|].
  destruct (IH (i + 1) ltac:(lia)) as [->|]; [by left|right; lia].
Qed.

Lemma first_idx_ext f g kws i :
  (forall kw, kw ∈ kws -> f kw = g kw) -> first_idx f kws i = first_idx g kws i.
Proof.
  revert i; induction kws as [|kw kws IH]; intros i H; simpl; [done|].
  rewrite (H kw) by set_solver. case_match; [done|]. apply IH. set_solver.
Qed.

Lemma first_idx_snoc f kws kw i :
  0 <= i ->
  first_idx f (kws ++ [kw]) i =
    if 0 <=? first_idx f kws i then first_idx f kws i else if f kw then i + zlen kws else -1.
Proof.
  unfold zlen. revert i; induction kws as [|k kws IH]; intros i Hi; simpl.
  - destruct (f kw); [f_equal; lia|done].
  - destruct (f k); [by rewrite (proj2 (Z.leb_le _ _))|]. rewrite IH by lia.
    destruct (0 <=? _); [done|]. destruct (f kw); [cbn [length]; lia|done].
Qed.

(** [minKeywordIndex] of two first indices. *)
Lemma first_idx_or f g kws i :
  0 <= i ->
  minKeywordIndex (first_idx f kws i) (first_idx g kws i) = first_idx (fun kw => f kw || g kw) kws i.
Proof.
  revert i; induction kws as [|kw kws IH]; intros i Hi; simpl; [done|].
  pose proof (first_idx_range f kws (i + 1) ltac:(lia)) as Hf.
  pose proof (first_idx_range g kws (i + 1) ltac:(lia)) as Hg.
  unfold minKeywordIndex in *. unfold zlen in *.
  destruct (f kw), (g kw); cbn [orb]; [| | |by apply IH; lia];
    repeat (case_Z; cbn [orb]); lia.
Qed.

Lemma first_idx_none f kws i :
  0 <= i -> first_idx f kws i < 0 -> forall kw, kw ∈ kws -> f kw = false.
Proof.
  revert i; induction kws as [|kw kws IH]; intros i Hi; simpl; [set_solver|].
  destruct (f kw) eqn:E; [lia|]. intros Hlt k [->|Hk]%elem_of_cons; [done|].
  by apply (IH (i + 1)); [lia|..].
Qed.

Lemma first_idx_all f kws i :
  (forall kw, kw ∈ kws -> f kw = false) -> first_idx f kws i = -1.
Proof.
  revert i; induction kws as [|kw kws IH]; intros i H; simpl; [done|].
  rewrite (H kw) by set_solver. apply IH. set_solver.
Qed.

(** A smaller set of matches has no earlier first index. *)
Lemma first_idx_zero f g kws :
  (forall kw, f kw = true -> g kw = true) -> first_idx f kws 0 = 0 -> first_idx g kws 0 = 0.
Proof.
  intros Hfg. destruct kws as [|kw kws]; simpl; [done|].
  destruct (f kw) eqn:E; [by rewrite Hfg|].
  intros H. pose proof (first_idx_range f kws (0 + 1) ltac:(lia)). lia.
Qed.

(** ** Longest suffixes

[lss T p u]: [u] is the longest suffix of [p] in [T]. *)
Definition word : Type := list ascii.

Definition lss (T : word -> Prop) (p u : word) : Prop :=
  u `suffix_of` p /\ T u /\ forall v, v `suffix_of` p -> T v -> (length v <= length u)%nat.

(** The candidates for an extension by [c]: [u] is in [T], and no longer suffix
of [p] extends by [c]. *)
Definition lext (T : word -> Prop) (p : word) (c : ascii) (u : word) : Prop :=
  u `suffix_of` p /\ T u /\
  forall v, v `suffix_of` p -> T (v ++ [c]) -> (length v <= length u)%nat.

Section Suffixes.
Context (T : word -> Prop) (Tnil : T []) (Tprefix : forall w c, T (w ++ [c]) -> T w).

Lemma suffix_snoc_inv (v p : word) c :
  v `suffix_of` p ++ [c] -> v = [] \/ exists v', v = v' ++ [c] /\ v' `suffix_of` p.
Proof.
  destruct v as [|x v' _] using rev_ind; [by left|]. intros H. right.
  exists v'. apply suffix_snoc_inv_1 in H as Hx. apply suffix_snoc_inv_2 in H. by subst.
Qed.

Lemma lss_lext p c u : lss T p u -> lext T p c u.
Proof. intros (Hs & Hu & Hmax). split_and!; [done..|]. eauto. Qed.

Lemma lext_hit p c u : lext T p c u -> T (u ++ [c]) -> lss T (p ++ [c]) (u ++ [c]).
Proof.
  intros (Hs & Hu & Hmax) Hc. split_and!; [by apply suffix_app|done|].
  intros v [->|(v' & -> & Hv')]%suffix_snoc_inv Hv; [simpl; lia|].
  rewrite !length_app. specialize (Hmax v' Hv' Hv). lia.
Qed.

Lemma lext_miss p c : lext T p c [] -> ~ T [c] -> lss T (p ++ [c]) [].
Proof.
  intros (Hs & Hu & Hmax) Hc. split_and!; [apply suffix_nil|done|].
  intros v [->|(v' & -> & Hv')]%suffix_snoc_inv Hv; [done|].
  specialize (Hmax v' Hv' Hv). destruct v'; [done|simpl in Hmax; lia].
Qed.

(** Two suffixes of one word. *)
Lemma suffix_of_shorter (v u p : word) :
  v `suffix_of` p -> u `suffix_of` p -> (length v <= length u)%nat -> v `suffix_of` u.
Proof.
  intros Hv Hu Hle. destruct (suffix_weak_total v u p Hv Hu) as [H|H]; [done|].
  pose proof (suffix_length _ _ H). destruct H as [k ->]. rewrite length_app in *.
  destruct k; [done|simpl in *; lia].
Qed.

Lemma suffix_cons_inv_r (v : word) a w : v `suffix_of` a :: w -> v = a :: w \/ v `suffix_of` w.
Proof.
  intros [[|b k] Hk]; [by left|right]. simpl in Hk. injection Hk as _ ->. by exists k.
Qed.

Lemma suffix_cons_ne (v : word) a w : v `suffix_of` a :: w -> v <> a :: w -> v `suffix_of` w.
Proof. intros H Hne. by destruct (suffix_cons_inv_r _ _ _ H). Qed.

(** Following a failure link. *)
Lemma lext_fail p c a u u2 :
  lext T p c (a :: u) -> ~ T ((a :: u) ++ [c]) -> lss T u u2 -> lext T p c u2.
Proof.
  intros (Hs & Hu & Hmax) Hc (Hs2 & Hu2 & Hmax2). split_and!; [|done|].
  - etrans; [done|]. etrans; [|done]. by exists [a].
  - intros v Hv Hvc. pose proof (suffix_of_shorter v (a :: u) p Hv Hs (Hmax v Hv Hvc)) as Hvu.
    apply Hmax2; [|eauto]. eapply suffix_cons_ne; [done|]. by intros ->.
Qed.

Lemma lss_suffix p u v : lss T p u -> T v -> v `suffix_of` p -> v `suffix_of` u.
Proof. intros (Hs & _ & Hmax) Hv Hvp. by eapply suffix_of_shorter; eauto. Qed.
End Suffixes.

(** ** The trie

[ws] lists the word each node stands for. *)
Record Trie (ns : list Node) (es : list BuildEdge) (ws : list word) : Prop := {
  t_len : zlen ws = zlen ns;
  t_edges : zlen ns = zlen es + 1;
  t_small : zlen ns < two31;
  t_root : at_ ws 0 = Some [];
  t_nodup : NoDup ws;
  t_prefix : forall w c, w ++ [c] ∈ ws -> w ∈ ws;
  t_chain : forall i e, at_ es i = Some e -> -1 <= nextSibling e < i;
  t_start : forall s n, at_ ns s = Some n -> 0 <= edgeStart n <= zlen es;
  t_sibs : forall s n w, at_ ns s = Some n -> at_ ws s = Some w ->
    exists l, node_siblings es n = Some l /\ NoDup (b_label <$> l) /\
      (forall e, e ∈ l -> at_ ws (b_target e) = Some (w ++ [b_label e])) /\
      (forall c, w ++ [c] ∈ ws -> exists e, e ∈ l /\ b_label e = c)
}.

Lemma first_edge_spec n :
  0 <= edgeStart n < two31 -> contentModerationKeywordBuildFirstEdge n = edgeStart n - 1.
Proof.
  intros H. unfold contentModerationKeywordBuildFirstEdge.
  destruct (Z.eqb_spec (edgeStart n) 0); [lia|]. apply i32_id. go_lia.
Qed.

(** A sibling chain is decided by the edges below its head. *)
Lemma siblings_more es k i fuel fuel' :
  (forall j e, at_ es j = Some e -> -1 <= nextSibling e < j) -> i < zlen es ->
  (Z.to_nat (i + 1) <= fuel)%nat -> (Z.to_nat (i + 1) <= fuel')%nat ->
  siblings fuel (es ++ k) i = siblings fuel' es i.
Proof.
  intros Hc. revert i fuel'. induction fuel as [|fuel IH]; intros i fuel' Hi Hf Hf'; simpl.
  - destruct (Z.ltb_spec i 0); [|lia]. destruct fuel'; simpl; by rewrite (proj2 (Z.ltb_lt i 0)).
  - destruct (Z.ltb_spec i 0).
    + destruct fuel'; simpl; by rewrite (proj2 (Z.ltb_lt i 0)).
    + destruct fuel' as [|fuel']; [lia|]. simpl. rewrite (proj2 (Z.ltb_ge i 0)) by lia.
      destruct (at_is_Some es i) as [e He]; [lia|]. rewrite (at_app_l _ k _ _ He), He. simpl.
      pose proof (Hc i e He). rewrite (IH _ fuel'); [done|lia..].
Qed.

Lemma node_siblings_more es e n :
  (forall j x, at_ es j = Some x -> -1 <= nextSibling x < j) -> zlen es < two31 ->
  0 <= edgeStart n <= zlen es -> node_siblings (es ++ [e]) n = node_siblings es n.
Proof.
  intros Hc Hs Hn. unfold node_siblings. rewrite first_edge_spec by lia. unfold zlen in *.
  apply siblings_more; [done|unfold zlen; lia|rewrite length_app; simpl; lia|lia].
Qed.

(** The chain of a node that has just been given a new first edge. *)
Lemma node_siblings_new es e n :
  (forall j x, at_ es j = Some x -> -1 <= nextSibling x < j) -> zlen es + 1 < two31 ->
  edgeStart n = zlen es + 1 -> -1 <= nextSibling e < zlen es ->
  node_siblings (es ++ [e]) n = l ← siblings (length es) es (nextSibling e); Some (e :: l).
Proof.
  intros Hc Hs Hn He. unfold node_siblings. unfold zlen in *.
  rewrite first_edge_spec, length_app by lia. simpl. rewrite Nat.add_1_r. simpl.
  rewrite Hn. replace (Z.of_nat (length es) + 1 - 1) with (zlen es) by (unfold zlen; lia).
  rewrite (proj2 (Z.ltb_ge _ _)) by (unfold zlen; lia). rewrite at_app_r. simpl.
  rewrite (siblings_more es [e] _ (length es) (length es)); [done..| | |];
    unfold zlen; lia.
Qed.

Lemma word_at_node ns es ws s w : Trie ns es ws -> at_ ws s = Some w -> exists n, at_ ns s = Some n.
Proof. intros HT Hw. apply at_is_Some. rewrite <- (t_len _ _ _ HT). by apply at_range in Hw. Qed.

Lemma word_at_root ns es ws s : Trie ns es ws -> at_ ws s = Some [] -> s = 0.
Proof. intros HT Hs. eapply at_inj; [apply (t_nodup _ _ _ HT)|done|apply (t_root _ _ _ HT)]. Qed.

Lemma transition_spec ns es ws s w c :
  Trie ns es ws -> at_ ws s = Some w ->
  exists t, contentModerationKeywordBuildTransition ns es s c = Some t /\
    (t = -1 /\ w ++ [c] ∉ ws \/ 0 < t /\ at_ ws t = Some (w ++ [c])).
Proof.
  intros HT Hw. destruct (word_at_node _ _ _ _ _ HT Hw) as [n Hn].
  pose proof (at_range _ _ _ Hn) as Hr. unfold contentModerationKeywordBuildTransition.
  rewrite (proj2 (Z.ltb_ge s 0)), (proj2 (Z.leb_gt _ s)) by lia. cbn [orb]. rewrite Hn. simpl.
  destruct (t_sibs _ _ _ HT s n w Hn Hw) as (l & -> & Hd & Ht & Hall). simpl.
  destruct (list_find _ l) as [[i e]|] eqn:Hf; eexists; (split; [reflexivity|]).
  - right. apply list_find_Some in Hf as (Hl & He & _). apply Is_true_true, Ascii.eqb_eq in He.
    pose proof (Ht e (list_elem_of_lookup_2 _ _ _ Hl)) as Hte. rewrite He in Hte.
    split; [|done]. destruct (Z.eq_dec (b_target e) 0) as [E|].
    + rewrite E, (t_root _ _ _ HT) in Hte. apply (inj Some) in Hte. by destruct w.
    + apply at_range in Hte. lia.
  - left. split; [done|]. intros Hin. destruct (Hall c Hin) as (e & He & Hc).
    apply list_find_None in Hf. rewrite Forall_forall in Hf. specialize (Hf e He).
    apply Hf, Is_true_true, Ascii.eqb_eq. done.
Qed.

(** The trie is in the edge starts. *)
Lemma trie_static ns ns' es ws :
  Trie ns es ws -> edgeStart <$> ns' = edgeStart <$> ns -> Trie ns' es ws.
Proof.
  intros HT Heq.
  assert (Hlen : zlen ns' = zlen ns).
  { apply (f_equal length) in Heq. rewrite !length_fmap in Heq. unfold zlen. lia. }
  assert (Hat : forall t n', at_ ns' t = Some n' ->
    exists n, at_ ns t = Some n /\ edgeStart n = edgeStart n').
  { intros t n' Hn'. pose proof (fmap_at edgeStart ns' t) as H'. rewrite Heq, fmap_at, Hn' in H'.
    destruct (at_ ns t) as [n|]; [|done]. exists n. split; [done|]. by injection H'. }
  destruct HT. constructor; rewrite ?Hlen; try done.
  - intros s n' (n & Hn & <-)%Hat. eauto.
  - intros s n' w (n & Hn & He)%Hat Hw. unfold node_siblings,
      contentModerationKeywordBuildFirstEdge. rewrite <- He. by eapply t_sibs0.
Qed.

(** What insertion adds: nodes at the end, without failure link and keyword;
the others keep theirs. *)
Definition grows (ns : list Node) (ws : list word) (ns' : list Node) (ws' : list word) : Prop :=
  (exists k, ws' = ws ++ k) /\
  forall t n', at_ ns' t = Some n' ->
    match at_ ns t with
    | Some n => failure n' = failure n /\ bestKeyword n' = bestKeyword n
    | None => failure n' = 0 /\ bestKeyword n' = -1
    end.

Lemma grows_refl ns ws : grows ns ws ns ws.
Proof. split; [exists []; by rewrite app_nil_r|]. intros t n' ->. done. Qed.

Lemma grows_trans ns ws ns1 ws1 ns2 ws2 :
  zlen ns <= zlen ns1 -> grows ns ws ns1 ws1 -> grows ns1 ws1 ns2 ws2 -> grows ns ws ns2 ws2.
Proof.
  intros Hle [[k ->] H1] [[k' ->] H2]. split; [exists (k ++ k'); by rewrite app_assoc|].
  intros t n' Hn'. specialize (H2 t n' Hn'). destruct (at_ ns1 t) as [n1|] eqn:E1.
  - specialize (H1 t n1 E1). destruct (at_ ns t); destruct H1, H2; split; congruence.
  - destruct (at_ ns t) as [n|] eqn:E; [|done]. apply at_range in E.
    destruct (at_is_Some ns1 t) as [? ?]; [lia|congruence].
Qed.

Lemma grows_at ns ws ns' ws' t w : grows ns ws ns' ws' -> at_ ws t = Some w -> at_ ws' t = Some w.
Proof. intros [[k ->] _]. apply at_app_l. Qed.

(** Adding the missing edge for [c] below node [s]. *)
Lemma trie_extend ns es ws s n w c :
  Trie ns es ws -> zlen ns + 1 < two31 -> at_ ns s = Some n -> at_ ws s = Some w ->
  w ++ [c] ∉ ws ->
  let es' := es ++ [mkBuildEdge (zlen ns) (edgeStart n - 1) c] in
  let ns' := <[Z.to_nat s := set_edges n (zlen es') (edgeCount n)]>
    (ns ++ [newContentModerationKeywordNode]) in
  Trie ns' es' (ws ++ [w ++ [c]]).
Proof.
  intros HT Hsmall Hn Hw Hnew es' ns'. pose proof (at_range _ _ _ Hn) as Hs.
  pose proof (t_len _ _ _ HT) as Hlen. pose proof (t_edges _ _ _ HT) as Hel.
  pose proof (t_start _ _ _ HT _ _ Hn) as Hst.
  assert (Hes' : zlen es' = zlen es + 1) by apply zlen_snoc.
  assert (Hns' : zlen ns' = zlen ns + 1) by (unfold ns'; by rewrite zlen_set, zlen_snoc).
  assert (Hlook : forall t x, at_ ns' t = Some x ->
    t = s /\ x = set_edges n (zlen es') (edgeCount n) \/ t <> s /\ at_ ns t = Some x \/
    t = zlen ns /\ t <> s /\ x = newContentModerationKeywordNode).
  { intros t x. unfold ns'. destruct (Z.eq_dec s t) as [->|Hne].
    - rewrite at_set_eq by (rewrite zlen_snoc; lia). intros [= <-]. by left.
    - rewrite at_set_ne by lia. intros [Hx|[-> ->]]%at_app_inv; right; [by left|by right]. }
  constructor.
  - rewrite zlen_snoc. lia.
  - lia.
  - lia.
  - apply at_app_l, (t_root _ _ _ HT).
  - apply NoDup_app. split; [apply (t_nodup _ _ _ HT)|]. split; [|apply NoDup_singleton].
    intros x Hx ->%list_elem_of_singleton. done.
  - intros x d [Hx|Hx%list_elem_of_singleton]%elem_of_app.
    + apply elem_of_app. left. by eapply (t_prefix _ _ _ HT).
    + apply app_inj_tail in Hx as [-> _]. apply elem_of_app. left. apply at_elem. eauto.
  - intros i e [He|[-> ->]]%at_app_inv; [by eapply (t_chain _ _ _ HT)|]. simpl. lia.
  - intros t x [[-> ->]|[[_ Hx]|(_ & _ & ->)]]%Hlook; simpl; [lia| |lia].
    pose proof (t_start _ _ _ HT _ _ Hx). lia.
  - intros t x v Hx Hv.
    apply Hlook in Hx as [[-> ->]|[[Hne Hx]|(-> & Hne & ->)]].
    + assert (v = w) as ->.
      { apply (at_app_l _ [w ++ [c]]) in Hw. unfold word in *. rewrite Hw in Hv.
        by injection Hv. }
      destruct (t_sibs _ _ _ HT s n w Hn Hw) as (l & Hl & Hd & Ht & Hall).
      exists (mkBuildEdge (zlen ns) (edgeStart n - 1) c :: l). split_and!.
      * unfold es'. rewrite node_siblings_new; [|apply (t_chain _ _ _ HT)|lia|exact Hes'|cbn [nextSibling]; lia].
        simpl. unfold node_siblings in Hl. rewrite first_edge_spec in Hl by lia. by rewrite Hl.
      * simpl. apply NoDup_cons. split; [|done]. intros (e & Hc & He)%list_elem_of_fmap.
        apply Hnew. rewrite Hc. apply at_elem. eexists. by apply Ht.
      * intros e [->|He]%elem_of_cons; simpl; [rewrite <- Hlen; apply at_app_r|].
        by apply at_app_l, Ht.
      * intros d [Hd'|Hd'%list_elem_of_singleton]%elem_of_app.
        -- destruct (Hall d Hd') as (e & He & <-). exists e. split; [by right|done].
        -- apply app_inj_tail in Hd' as [_ ->]. eexists. split; [by left|done].
    + assert (Hv' : at_ ws t = Some v).
      { apply at_app_inv in Hv as [Hv|[-> _]]; [done|]. apply at_range in Hx. lia. }
      destruct (t_sibs _ _ _ HT t x v Hx Hv') as (l & Hl & Hd & Ht & Hall). exists l. split_and!.
      * unfold es'. rewrite node_siblings_more; [done|apply (t_chain _ _ _ HT)|lia|].
        by eapply (t_start _ _ _ HT).
      * done.
      * intros e He. by apply at_app_l, Ht.
      * intros d [Hd'|Hd'%list_elem_of_singleton]%elem_of_app; [by apply Hall|].
        apply app_inj_tail in Hd' as [-> _]. destruct Hne.
        eapply at_inj; [apply (t_nodup _ _ _ HT)|done..].
    + assert (v = w ++ [c]) as ->.
      { rewrite <- Hlen, at_app_r in Hv. by injection Hv. }
      exists []. split_and!; [|constructor|intros e He; by apply not_elem_of_nil in He|].
      * unfold node_siblings. cbn. by destruct (length es').
      * intros d [Hd'|Hd'%list_elem_of_singleton]%elem_of_app.
        -- destruct Hnew. by eapply (t_prefix _ _ _ HT).
        -- apply app_inj_tail in Hd' as [Hd' _]. exfalso.
           apply (f_equal length) in Hd'. rewrite length_app in Hd'. simpl in Hd'. lia.
Qed.

Lemma add_byte_spec ns es ws s w c :
  Trie ns es ws -> zlen ns + 1 < two31 -> at_ ws s = Some w ->
  exists ns' es' s' ws', add_byte (ns, es, s) c = Some (ns', es', s') /\ Trie ns' es' ws' /\
    at_ ws' s' = Some (w ++ [c]) /\ zlen ns <= zlen ns' <= zlen ns + 1 /\ grows ns ws ns' ws'.
Proof.
  intros HT Hsmall Hw. unfold add_byte. pose proof (at_range _ _ _ Hw) as Hr.
  pose proof (t_len _ _ _ HT) as Hlen. pose proof (t_edges _ _ _ HT) as Hel.
  destruct (transition_spec _ _ _ _ _ c HT Hw) as (t & -> & [[-> Hnew]|[Ht Htw]]); simpl.
  - destruct (word_at_node _ _ _ _ _ HT Hw) as [n Hn].
    rewrite (at_app_l _ _ _ _ Hn). simpl.
    pose proof (t_start _ _ _ HT _ _ Hn) as Hst.
    rewrite first_edge_spec, i32_id by go_lia.
    pose proof (trie_extend _ _ _ _ _ _ _ HT Hsmall Hn Hw Hnew) as HT'. cbv zeta in HT'.
    rewrite u32_id by (rewrite zlen_snoc; go_lia). rewrite set_at_Some by (rewrite zlen_snoc; lia).
    simpl. do 4 eexists. split; [reflexivity|]. split; [exact HT'|].
    split; [rewrite <- Hlen; apply at_app_r|]. rewrite zlen_set, zlen_snoc. split; [lia|].
    split; [by eexists|]. intros t n'. destruct (Z.eq_dec s t) as [->|Hne].
    + rewrite at_set_eq by (rewrite zlen_snoc; lia). intros [= <-]. by rewrite Hn.
    + rewrite at_set_ne by lia. intros [Hn'|[-> ->]]%at_app_inv; [by rewrite Hn'|].
      destruct (at_ ns (zlen ns)) eqn:E; [apply at_range in E; lia|done].
  - rewrite (proj2 (Z.ltb_ge _ _)) by lia. exists ns, es, t, ws.
    split_and!; [done..|lia|lia|apply grows_refl].
Qed.

Lemma add_bytes_spec ns es ws l :
  Trie ns es ws -> zlen ns + zlen l < two31 ->
  exists ns' es' s' ws', foldM add_byte (ns, es, 0) l = Some (ns', es', s') /\ Trie ns' es' ws' /\
    at_ ws' s' = Some l /\ zlen ns' <= zlen ns + zlen l /\ grows ns ws ns' ws'.
Proof.
  intros HT Hsmall.
  destruct (foldM_inv add_byte (fun pre st => exists ws', let '(ns', es', s') := st in
    Trie ns' es' ws' /\ at_ ws' s' = Some pre /\ zlen ns <= zlen ns' <= zlen ns + zlen pre /\
    grows ns ws ns' ws') l (ns, es, 0)) as ([[ns' es'] s'] & Hf & ws' & H1 & H2 & H3 & H4).
  - exists ws. split_and!; [done|apply (t_root _ _ _ HT)|lia|unfold zlen; cbn [length]; lia|apply grows_refl].
  - intros pre c post [[ns1 es1] s1] Hl (ws1 & HT1 & Hs1 & Hb1 & Hg1).
    assert (Hpl : zlen pre + 1 <= zlen l).
    { subst l. unfold zlen. rewrite length_app. simpl. lia. }
    destruct (add_byte_spec _ _ _ _ _ c HT1 ltac:(lia) Hs1)
      as (ns2 & es2 & s2 & ws2 & -> & HT2 & Hs2 & Hb2 & Hg2).
    eexists. split; [reflexivity|]. exists ws2. rewrite zlen_snoc.
    split_and!; [done..|lia|lia|]. eapply grows_trans; [|done..]. lia.
  - exists ns', es', s', ws'. split_and!; [done..|lia|done].
Qed.

(** ** The words of the keywords *)

Section Spec.
Context `{GoUnicodeLaws}.

Definition kw_bytes (kw : string) : word := bytes (ToLower kw).

(** The keyword has the word [w]; its word is a suffix of [w]. *)
Definition is_word (w : word) (kw : string) : bool :=
  negb (String.eqb kw "") && bool_decide (kw_bytes kw = w).
Definition ends_word (w : word) (kw : string) : bool :=
  negb (String.eqb kw "") && bool_decide (kw_bytes kw `suffix_of` w).

Fixpoint total_bytes (kws : list string) : Z :=
  match kws with
  | [] => 0
  | kw :: rest => zlen (kw_bytes kw) + total_bytes rest
  end.

(** Node and keyword numbers fit in 32 bits. *)
Definition fits (kws : list string) : Prop := total_bytes kws + zlen kws + 1 < two31.

Lemma total_bytes_app k1 k2 : total_bytes (k1 ++ k2) = total_bytes k1 + total_bytes k2.
Proof. induction k1; simpl; lia. Qed.

Lemma total_bytes_nonneg k : 0 <= total_bytes k.
Proof. induction k; simpl; [lia|]. unfold zlen. lia. Qed.

Lemma kw_bytes_nonempty kw : kw <> ""%string -> kw_bytes kw <> [].
Proof.
  intros Hk Hb. apply (ToLower_nonempty kw Hk). unfold kw_bytes, bytes in Hb.
  by destruct (ToLower kw).
Qed.

(** The trie of the first keywords: every node carries the first of them that
has its word. *)
Definition TrieOf (kws : list string) (ns : list Node) (es : list BuildEdge) (ws : list word) :
    Prop :=
  Trie ns es ws /\
  (forall kw, kw ∈ kws -> kw <> ""%string -> kw_bytes kw ∈ ws) /\
  forall t n w, at_ ns t = Some n -> at_ ws t = Some w ->
    failure n = 0 /\ bestKeyword n = first_idx (is_word w) kws 0.

Lemma is_word_first_none kws (ws : list word) w :
  (forall kw, kw ∈ kws -> kw <> ""%string -> kw_bytes kw ∈ ws) -> w ∉ ws ->
  first_idx (is_word w) kws 0 = -1.
Proof.
  intros Hin Hw. apply first_idx_all. intros kw Hkw. unfold is_word.
  destruct (String.eqb_spec kw ""); [done|]. apply bool_decide_eq_false.
  intros <-. by apply Hw, Hin.
Qed.

Lemma trie_of_nil : TrieOf [] [newContentModerationKeywordNode] [] [[]].
Proof.
  assert (H1 : forall i n, at_ [newContentModerationKeywordNode] i = Some n ->
    i = 0 /\ n = newContentModerationKeywordNode).
  { intros i n Hn. apply (at_app_inv [] newContentModerationKeywordNode) in Hn as [Hn|]; [|done].
    apply at_range in Hn. unfold zlen in Hn. cbn [length] in Hn. lia. }
  split_and!; [|by intros ? ?%not_elem_of_nil|].
  - constructor; try done.
    + apply NoDup_singleton.
    + intros w c Hw%list_elem_of_singleton. by destruct w.
    + intros i e He%at_range. unfold zlen in He. cbn [length] in He. lia.
    + by intros s n [-> ->]%H1.
    + intros s n w [-> ->]%H1 [= <-]. exists []. split_and!; [done|constructor|..].
      * by intros e ?%not_elem_of_nil.
      * by intros c ?%list_elem_of_singleton.
  - by intros t n w [-> ->]%H1 _.
Qed.

Lemma trie_of_grow kws ns es ws ns' es' ws' :
  TrieOf kws ns es ws -> Trie ns' es' ws' -> grows ns ws ns' ws' -> TrieOf kws ns' es' ws'.
Proof.
  intros (HT & Hin & Hb) HT' [[k ->] Hg]. split_and!; [done| |].
  - intros kw Hkw Hne. apply elem_of_app. left. by apply Hin.
  - intros t n' w Hn' Hw. specialize (Hg t n' Hn'). destruct (at_ ns t) as [n|] eqn:Hn.
    + destruct Hg as [-> ->]. apply Hb with (t := t); [done|].
      destruct (at_is_Some ws t) as [w' Hw'].
      { rewrite (t_len _ _ _ HT). by eapply at_range. }
      rewrite (at_app_l _ k _ _ Hw') in Hw. congruence.
    + destruct Hg as [-> ->]. split; [done|]. symmetry. eapply is_word_first_none; [done|].
      intros [j Hj]%at_elem.
      pose proof (at_inj _ _ _ _ (t_nodup _ _ _ HT') (at_app_l _ k _ _ Hj) Hw) as ->.
      destruct (word_at_node _ _ _ _ _ HT Hj). congruence.
Qed.

(** Recording the keyword at the node of its word. *)
Lemma trie_of_best kws kw ns es ws s n b :
  TrieOf kws ns es ws -> at_ ws s = Some (kw_bytes kw) -> at_ ns s = Some n -> kw <> ""%string ->
  b = (if bestKeyword n <? 0 then zlen kws else bestKeyword n) ->
  TrieOf (kws ++ [kw]) (<[Z.to_nat s := set_best n b]> ns) es ws.
Proof.
  intros (HT & Hin & Hb) Hw Hn Hne Hbb. pose proof (at_range _ _ _ Hn) as Hs. split_and!.
  - eapply trie_static; [done|]. by eapply fmap_set_same.
  - intros k [Hk| ->%list_elem_of_singleton]%elem_of_app Hkne; [by apply Hin|].
    apply at_elem. by exists s.
  - intros t n' w Hn' Hw'. rewrite first_idx_snoc by lia.
    assert (Hkw : is_word w kw = bool_decide (kw_bytes kw = w)).
    { unfold is_word. by rewrite (proj2 (String.eqb_neq _ _) Hne). }
    rewrite Hkw. destruct (Z.eq_dec s t) as [->|Hst].
    + rewrite at_set_eq in Hn' by lia. injection Hn' as <-.
      destruct (Hb _ _ _ Hn Hw') as [Hf He]. split; [done|]. simpl. rewrite Hbb, He.
      pose proof (at_fun _ _ _ _ Hw Hw') as <-. rewrite bool_decide_true by done.
      destruct (Z.ltb_spec (first_idx (is_word (kw_bytes kw)) kws 0) 0);
        [rewrite (proj2 (Z.leb_gt _ _)) by lia; lia|by rewrite (proj2 (Z.leb_le _ _)) by lia].
    + rewrite at_set_ne in Hn' by lia. destruct (Hb _ _ _ Hn' Hw') as [-> ->]. split; [done|].
      rewrite bool_decide_false.
      2: { intros <-. apply Hst. eapply at_inj; [apply (t_nodup _ _ _ HT)|done..]. }
      destruct (first_idx_range (is_word w) kws 0) as [->|?]; [done|done|].
      by rewrite (proj2 (Z.leb_le _ _)) by lia.
Qed.

Lemma trie_of_skip kws ns es ws : TrieOf kws ns es ws -> TrieOf (kws ++ [""%string]) ns es ws.
Proof.
  intros (HT & Hin & Hb). split_and!; [done| |].
  - intros k [Hk| ->%list_elem_of_singleton]%elem_of_app Hkne; [by apply Hin|done].
  - intros t n w Hn Hw. destruct (Hb t n w Hn Hw) as [-> ->]. split; [done|].
    rewrite first_idx_snoc by lia. simpl.
    destruct (first_idx_range (is_word w) kws 0) as [->|?]; [done|done|].
    by rewrite (proj2 (Z.leb_le _ _)) by lia.
Qed.

(** One more keyword. *)
Lemma add_keyword_spec kws kw ns es ws :
  TrieOf kws ns es ws -> zlen ns <= 1 + total_bytes kws -> fits (kws ++ [kw]) ->
  exists ns' es' ws', add_keyword (ns, es, zlen kws) kw = Some (ns', es', zlen (kws ++ [kw])) /\
    TrieOf (kws ++ [kw]) ns' es' ws' /\ zlen ns' <= 1 + total_bytes (kws ++ [kw]).
Proof.
  intros HT Hsize Hfits. unfold add_keyword. rewrite zlen_snoc.
  destruct (String.eqb_spec kw "") as [->|Hne].
  { exists ns, es, ws. split_and!; [done|by apply trie_of_skip|].
    rewrite total_bytes_app. pose proof (total_bytes_nonneg [""%string]). lia. }
  unfold fits in Hfits. rewrite total_bytes_app, zlen_snoc in Hfits. simpl in Hfits.
  destruct (add_bytes_spec ns es ws (kw_bytes kw)) as (ns' & es' & s & ws' & Hf & HT' & Hs & Hz & Hg).
  { apply HT. } { unfold zlen in *. lia. }
  unfold kw_bytes in Hf. rewrite Hf. simpl. fold (kw_bytes kw) in *.
  destruct (word_at_node _ _ _ _ _ HT' Hs) as [n Hn]. rewrite Hn. simpl.
  pose proof (trie_of_grow _ _ _ _ _ _ _ HT HT' Hg) as HTg.
  pose proof (trie_of_best kws kw ns' es' ws' s n _ HTg Hs Hn Hne eq_refl) as Hbest.
  pose proof (proj2 (proj2 HTg) _ _ _ Hn Hs) as [_ Hbn].
  rewrite i32_id by (unfold zlen in *; go_lia). rewrite Hbn in *.
  rewrite total_bytes_app. simpl.
  destruct (first_idx_range (is_word (kw_bytes kw)) kws 0) as [E|Hr]; [done|rewrite E in *|].
  - simpl in *. rewrite set_at_Some by (by eapply at_range). simpl.
    do 3 eexists. split; [reflexivity|]. split; [done|]. rewrite zlen_set. unfold zlen in *. lia.
  - rewrite (proj2 (Z.ltb_ge _ 0)) in * by lia.
    rewrite (proj2 (Z.ltb_ge _ _)) by lia. cbn [orb].
    do 3 eexists. split; [reflexivity|]. split; [|unfold zlen in *; lia].
    replace ns' with (<[Z.to_nat s:=set_best n (first_idx (is_word (kw_bytes kw)) kws 0)]> ns');
      [done|].
    apply list_insert_id. apply at_Some in Hn as [_ Hn]. rewrite Hn. rewrite <- Hbn. by destruct n.
Qed.

Lemma build_trie_spec kws :
  fits kws ->
  exists ns es ws, build_trie kws = Some (ns, es, zlen kws) /\ TrieOf kws ns es ws.
Proof.
  intros Hfits. unfold build_trie.
  destruct (foldM_inv add_keyword (fun pre st => exists ns es ws, st = (ns, es, zlen pre) /\
    TrieOf pre ns es ws /\ zlen ns <= 1 + total_bytes pre) kws
    ([newContentModerationKeywordNode], [], 0)) as (st & -> & ns & es & ws & -> & HT & _).
  - do 3 eexists. split_and!; [done|apply trie_of_nil|done].
  - intros pre kw post st -> (ns & es & ws & -> & HT & Hz).
    destruct (add_keyword_spec pre kw ns es ws HT Hz) as (ns' & es' & ws' & -> & HT' & Hz').
    { unfold fits in *. rewrite !total_bytes_app in *. simpl in *. unfold zlen in *.
      rewrite !length_app in *. simpl in *. pose proof (total_bytes_nonneg post). lia. }
    eexists. split; [done|]. by exists ns', es', ws'.
  - by exists ns, es, ws.
Qed.

(** ** Failure links *)

(** A node whose link and keyword are final: the link leads to the longest
proper suffix of its word, the keyword is the first one ending its word. *)
Definition finished (kws : list string) (ws : list word) (n : Node) (w : word) : Prop :=
  (exists fw, at_ ws (failure n) = Some fw /\ lss (.∈ ws) (tail w) fw) /\
  bestKeyword n = first_idx (ends_word w) kws 0.

Definition fresh_node (kws : list string) (n : Node) (w : word) : Prop :=
  failure n = 0 /\ bestKeyword n = first_idx (is_word w) kws 0.

(** [done] lists the finished nodes. *)
Definition Linked (kws : list string) (ws : list word) (ns : list Node) (done : list Z) : Prop :=
  forall t n w, at_ ns t = Some n -> at_ ws t = Some w ->
    (t ∈ done -> finished kws ws n w) /\ (t ∉ done -> fresh_node kws n w).

Lemma linked_equiv kws ws ns d1 d2 :
  (forall t, t ∈ d1 <-> t ∈ d2) -> Linked kws ws ns d1 -> Linked kws ws ns d2.
Proof. intros Hd HL t n w Hn Hw. rewrite <- !Hd. by eapply HL. Qed.

(** A word that ends [w] is [w], or ends its longest proper suffix in the trie. *)
Lemma ends_word_split (ws : list word) w fw kw :
  w <> [] -> lss (.∈ ws) (tail w) fw -> (kw <> ""%string -> kw_bytes kw ∈ ws) ->
  ends_word w kw = is_word w kw || ends_word fw kw.
Proof.
  intros Hne Hl Hin. unfold ends_word, is_word. destruct (String.eqb_spec kw ""); [done|].
  cbn [negb andb]. destruct w as [|a w]; [done|]. cbn [tail] in Hl.
  specialize (Hin n). apply eq_true_iff_eq. rewrite orb_true_iff, !bool_decide_eq_true. split.
  - intros [->|Hs]%suffix_cons_inv_r; [by left|right]. by eapply lss_suffix.
  - intros [->|Hs]; [done|]. destruct Hl as (Hf & _). etrans; [done|]. etrans; [done|]. by exists [a].
Qed.

Lemma word_length ns es ws t w : Trie ns es ws -> at_ ws t = Some w -> (length w < length ws)%nat.
Proof.
  intros HT Hw.
  assert (Hpre : forall k, take k w ∈ ws).
  { assert (Hlen : forall v u, w = v ++ u -> v ∈ ws).
    { intros v u. revert v. induction u as [|c u IH]; intros v ->.
      - rewrite app_nil_r in *. apply at_elem. by exists t.
      - apply (t_prefix _ _ _ HT v c), IH. by rewrite <- app_assoc. }
    intros k. eapply (Hlen _ (drop k w)). by rewrite take_drop. }
  assert (Hd : NoDup ((fun k => take k w) <$> seq 0 (S (length w)))).
  { apply NoDup_fmap_2_strong; [|apply NoDup_seq]. intros x y Hx%elem_of_seq Hy%elem_of_seq Hxy.
    apply (f_equal length) in Hxy. rewrite !length_take in Hxy. lia. }
  apply NoDup_submseteq with (k := ws) in Hd.
  - apply submseteq_length in Hd. rewrite length_fmap, length_seq in Hd. lia.
  - intros x (k & -> & _)%list_elem_of_fmap. apply Hpre.
Qed.

Section Links.
Context (kws : list string) (es : list BuildEdge) (ws : list word).
Context (Hkws : forall kw, kw ∈ kws -> kw <> ""%string -> kw_bytes kw ∈ ws).

Lemma trie_T ns : Trie ns es ws -> ([] : word) ∈ ws /\ forall w c, w ++ [c] ∈ ws -> w ∈ ws.
Proof.
  intros HT. split; [|apply (t_prefix _ _ _ HT)]. apply at_elem. exists 0. apply (t_root _ _ _ HT).
Qed.

(** All words up to length [d] are finished. *)
Definition upto (d : nat) (done : list Z) : Prop :=
  forall t w, at_ ws t = Some w -> (length w <= d)%nat -> t ∈ done.

Lemma fallback_spec fuel ns done d p c f u :
  Trie ns es ws -> Linked kws ws ns done -> upto d done ->
  at_ ws f = Some u -> (length u <= d)%nat -> (length u <= fuel)%nat -> lext (.∈ ws) p c u ->
  exists fb, fallback_of fuel ns es f c = Some fb /\
    ((exists v, 0 <= fb /\ at_ ws fb = Some v /\ lss (.∈ ws) (p ++ [c]) v) \/
     fb = -1 /\ lss (.∈ ws) (p ++ [c]) []).
Proof.
  intros HT HL Hup. destruct (trie_T _ HT) as [Tnil Tpre].
  revert f u. induction fuel as [|fuel IH]; intros f u Hu Hd Hf Hext; simpl;
    destruct (transition_spec _ _ _ _ _ c HT Hu) as (t & -> & [[-> Hnew]|[Ht Htw]]); simpl.
  2, 4: rewrite (proj2 (Z.ltb_ge _ _)) by lia; exists t; split; [done|]; left;
    exists (u ++ [c]); split_and!; [lia|done|]; apply lext_hit; [done..|];
    apply at_elem; by exists t.
  - destruct u; [|simpl in Hf; lia]. rewrite (word_at_root _ _ _ _ HT Hu). simpl.
    exists (-1). split; [done|]. right. split; [done|]. by apply lext_miss.
  - destruct (Z.eqb_spec f 0) as [->|Hf0]; simpl.
    + exists (-1). split; [done|]. right. split; [done|].
      rewrite (t_root _ _ _ HT) in Hu. injection Hu as <-. by apply lext_miss.
    + destruct (word_at_node _ _ _ _ _ HT Hu) as [n Hn]. rewrite Hn. simpl.
      destruct u as [|a u]; [by rewrite (word_at_root _ _ _ _ HT Hu) in Hf0|].
      destruct (proj1 (HL f n _ Hn Hu) (Hup _ _ Hu Hd)) as [(fw & Hfw & Hls) _].
      cbn [tail] in Hls. pose proof (suffix_length _ _ (proj1 Hls)) as Hlen. simpl in Hf, Hd.
      apply (IH (failure n) fw Hfw); [lia|lia|]. eapply lext_fail; eauto.
Qed.

Lemma link_edge_spec ns done s wa e q :
  Trie ns es ws -> Linked kws ws ns done -> upto (length wa) done -> wa <> [] ->
  at_ ws s = Some wa -> at_ ws (b_target e) = Some (wa ++ [b_label e]) -> b_target e ∉ done ->
  exists ns', link_edge es s (ns, q) e = Some (ns', q ++ [b_target e]) /\
    edgeStart <$> ns' = edgeStart <$> ns /\ Linked kws ws ns' (b_target e :: done).
Proof.
  intros HT HL Hup Hne Hs Ht Hnew. unfold link_edge.
  destruct (word_at_node _ _ _ _ _ HT Hs) as [n Hn]. rewrite Hn. simpl.
  destruct (proj1 (HL s n wa Hn Hs) (Hup _ _ Hs (le_n _))) as [(fw & Hfw & Hls) _].
  pose proof (suffix_length _ _ (proj1 Hls)) as Hlen.
  assert (Htl : length wa = S (length (tail wa))) by (by destruct wa).
  destruct (fallback_spec (length ns) ns done (length wa) (tail wa) (b_label e) (failure n) fw)
    as (fb & -> & Hfb); try done; [lia| |eapply lss_lext; [apply (t_prefix _ _ _ HT)|done]|].
  { pose proof (word_length _ _ _ _ _ HT Hfw). pose proof (t_len _ _ _ HT). unfold zlen in *. lia. }
  simpl. destruct (word_at_node _ _ _ _ _ HT Ht) as [tn Htn]. rewrite Htn. simpl.
  pose proof (at_range _ _ _ Htn) as Hr.
  destruct (proj2 (HL _ _ _ Htn Ht) Hnew) as [Hf0 Hb0].
  set (t' := if 0 <=? fb then set_failure tn fb else tn).
  assert (Ht' : exists v, at_ ws (failure t') = Some v /\
    lss (.∈ ws) (tail (wa ++ [b_label e])) v).
  { replace (tail (wa ++ [b_label e])) with (tail wa ++ [b_label e]) by (by destruct wa).
    unfold t'. destruct Hfb as [(v & Hfb0 & Hv & Hl)|[-> Hl]].
    - rewrite (proj2 (Z.leb_le _ _)) by done. simpl. eauto.
    - simpl. rewrite Hf0. exists []. split; [apply (t_root _ _ _ HT)|done]. }
  assert (Hb' : bestKeyword t' = bestKeyword tn) by (unfold t'; by case_match).
  assert (He' : edgeStart t' = edgeStart tn) by (unfold t'; by case_match).
  destruct Ht' as (v & Hv & Hlv). rewrite set_at_Some by done. simpl.
  assert (Hlenv : (length v <= length wa)%nat).
  { pose proof (suffix_length _ _ (proj1 Hlv)) as Hx.
    destruct wa; [done|]. simpl in *. rewrite length_app in Hx. simpl in Hx. lia. }
  assert (Hne' : b_target e <> failure t').
  { intros E. rewrite <- E in Hv. pose proof (at_fun _ _ _ _ Ht Hv) as <-.
    rewrite length_app in Hlenv. simpl in Hlenv. lia. }
  destruct (word_at_node _ _ _ _ _ HT Hv) as [fn Hfn]. rewrite at_set_ne by (done || lia).
  rewrite Hfn. simpl. rewrite set_at_Some by (rewrite zlen_set; done). simpl.
  rewrite list_insert_insert_eq.
  eexists. split; [reflexivity|]. split; [eapply fmap_set_same; [exact Htn|exact He']|].
  intros t x w Hx Hw. destruct (Z.eq_dec (b_target e) t) as [<-|Hnt].
  - rewrite at_set_eq in Hx by done. injection Hx as <-. pose proof (at_fun _ _ _ _ Ht Hw) as <-. split; [intros _|set_solver]. split; [by exists v|]. simpl.
    rewrite Hb', Hb0. destruct (proj1 (HL _ _ _ Hfn Hv) (Hup _ _ Hv Hlenv)) as [_ ->].
    rewrite first_idx_or by lia. apply first_idx_ext. intros kw Hkw. symmetry.
    eapply ends_word_split; [by destruct wa|done|by apply Hkws].
  - rewrite at_set_ne in Hx by (done || lia). destruct (HL _ _ _ Hx Hw) as [H1 H2].
    split; intros Hin; [apply H1|apply H2]; set_solver.
Qed.

(** The breadth-first search: [V] has been visited, [A] is what is left of the
nodes of depth [d] in the queue, [B] the nodes of the next depth behind them. *)
Record BFS (ns : list Node) (V A B : list Z) (d : nat) : Prop := {
  q_trie : Trie ns es ws;
  q_linked : Linked kws ws ns (0 :: V ++ A ++ B);
  q_depth : upto d (0 :: V ++ A ++ B);
  q_pos : (0 < d)%nat;
  q_children : forall t w c t', t ∈ 0 :: V -> at_ ws t = Some w -> at_ ws t' = Some (w ++ [c]) ->
    t' ∈ 0 :: V ++ A ++ B;
  q_A : forall t, t ∈ A -> exists w, at_ ws t = Some w /\ length w = d;
  q_B : forall t, t ∈ B -> exists w, at_ ws t = Some w /\ length w = S d;
  q_V : forall t, t ∈ 0 :: V -> exists w, at_ ws t = Some w /\ (length w <= d)%nat;
  q_parent : forall t, t ∈ V ++ A ++ B ->
    exists s w c, s ∈ 0 :: V /\ at_ ws s = Some w /\ at_ ws t = Some (w ++ [c]);
  q_nodup : NoDup (0 :: V ++ A ++ B)
}.

Lemma bfs_shift ns V B d : BFS ns V [] B d -> BFS ns V B [] (S d).
Proof.
  intros [HT HL Hup Hpos Hch HA HB HV Hpar Hnd]. cbn [app] in *.
  constructor; rewrite ?app_nil_r; try done.
  - intros t w Hw Hlen. destruct (decide (length w <= d)%nat); [by eapply Hup|].
    destruct w as [|c w _] using rev_ind; [simpl in *; lia|].
    rewrite length_app in *. simpl in *.
    assert (Hin : w ∈ ws) by (apply (t_prefix _ _ _ HT w c), at_elem; by exists t).
    apply at_elem in Hin as [s Hs]. apply (Hch s w c t); [|done..].
    assert (Hs' : s ∈ 0 :: V ++ B) by (apply (Hup s w Hs); lia).
    apply elem_of_cons in Hs' as [->|[HsV|HsB]%elem_of_app]; [by left|by right|].
    destruct (HB s HsB) as (w' & Hw' & Hl'). pose proof (at_fun _ _ _ _ Hs Hw') as <-. lia.
  - lia.
  - by intros t ?%not_elem_of_nil.
  - intros t Ht. destruct (HV t Ht) as (w & ? & ?). exists w. split; [done|lia].
Qed.

(** The queue entries are distinct nodes. *)
Lemma bfs_size ns V A B d : BFS ns V A B d -> (1 + length V + length (A ++ B) <= length ws)%nat.
Proof.
  intros [HT HL Hup Hpos Hch HA HB HV Hpar Hnd].
  assert (Hsub : 0 :: V ++ A ++ B ⊆+ seqZ 0 (zlen ws)).
  { apply NoDup_submseteq; [done|]. intros t Ht. apply elem_of_seqZ.
    assert (Hw : exists w, at_ ws t = Some w).
    { apply elem_of_cons in Ht as [->|Ht]; [exists []; apply (t_root _ _ _ HT)|].
      destruct (Hpar t Ht) as (? & ? & ? & _ & _ & ?). eauto. }
    destruct Hw as [w Hw%at_range]. lia. }
  apply submseteq_length in Hsub. rewrite length_seqZ in Hsub. simpl in Hsub.
  rewrite !length_app in *. unfold zlen in Hsub. lia.
Qed.

(** The children of a node, as its sibling chain lists them. *)
Definition children (a : Z) (wa : word) (l : list BuildEdge) : Prop :=
  at_ ws a = Some wa /\ NoDup (b_label <$> l) /\
  (forall e, e ∈ l -> at_ ws (b_target e) = Some (wa ++ [b_label e])) /\
  (forall c, wa ++ [c] ∈ ws -> exists e, e ∈ l /\ b_label e = c).

Lemma children_nodup a wa l : children a wa l -> NoDup (b_target <$> l).
Proof.
  intros (Ha & Hnl & Ht & Hall). apply NoDup_fmap_1 with (f := at_ ws).
  assert (E : at_ ws <$> (b_target <$> l) = (fun c => Some (wa ++ [c])) <$> (b_label <$> l)).
  { rewrite <- !list_fmap_compose. apply list_fmap_ext. intros i e He. simpl. apply Ht.
    by eapply list_elem_of_lookup_2. }
  rewrite E. apply NoDup_fmap_2; [|done]. intros x y Hxy. apply (inj Some) in Hxy.
  by apply app_inj_tail in Hxy as [_ ?].
Qed.

(** The children of the head of the queue have not been in the queue. *)
Lemma children_new ns V a A B d wa l :
  BFS ns V (a :: A) B d -> children a wa l ->
  forall e, e ∈ l -> b_target e ∉ 0 :: V ++ (a :: A) ++ B.
Proof.
  intros [HT HL Hup Hpos Hch HA HB HV Hpar Hnd] (Ha & Hnl & Ht & Hall) e He.
  specialize (Ht e He). intros [E|Hin]%elem_of_cons.
  - rewrite E, (t_root _ _ _ HT) in Ht. apply (inj Some) in Ht. by destruct wa.
  - destruct (Hpar _ Hin) as (s & w & c & Hs & Hsw & Hw).
    apply (at_fun _ _ _ _ Ht), app_inj_tail in Hw as [-> _].
    pose proof (proj1 (NoDup_app (0 :: V) _) Hnd) as (_ & Hd & _).
    apply (Hd s Hs). rewrite (at_inj _ _ _ _ (t_nodup _ _ _ HT) Hsw Ha). by left.
Qed.

(** The loop over the children of the head of the queue. *)
Lemma link_children ns V a A B d wa l :
  BFS ns V (a :: A) B d -> length wa = d -> children a wa l ->
  exists ns', foldM (link_edge es a) (ns, A ++ B) l = Some (ns', (A ++ B) ++ (b_target <$> l)) /\
    edgeStart <$> ns' = edgeStart <$> ns /\
    Linked kws ws ns' ((0 :: V ++ (a :: A) ++ B) ++ (b_target <$> l)).
Proof.
  intros HB Hla Hc. pose proof (children_new _ _ _ _ _ _ _ _ HB Hc) as Hnew.
  pose proof (children_nodup _ _ _ Hc) as Hnd. destruct HB as [HT HL Hup Hpos _ _ _ _ _ _].
  destruct Hc as (Ha & _ & Ht & _). set (G := 0 :: V ++ (a :: A) ++ B) in *.
  destruct (foldM_inv (link_edge es a) (fun pre st => exists ns',
    st = (ns', (A ++ B) ++ (b_target <$> pre)) /\ edgeStart <$> ns' = edgeStart <$> ns /\
    Linked kws ws ns' (G ++ (b_target <$> pre))) l (ns, A ++ B)) as (st & Hf & ns' & -> & ? & ?).
  - exists ns. cbn [fmap list_fmap]. by rewrite !app_nil_r.
  - intros pre e post st El (ns1 & -> & Hs1 & HL1).
    assert (He : e ∈ l) by (rewrite El; set_solver).
    assert (HT1 : Trie ns1 es ws) by (by eapply trie_static).
    destruct (link_edge_spec ns1 _ a wa e ((A ++ B) ++ (b_target <$> pre)) HT1 HL1)
      as (ns2 & Hl2 & Hs2 & HL2); [| |done|by apply Ht| |].
    + intros t w Hw Hlen. apply elem_of_app. left. apply (Hup t w Hw). lia.
    + intros ->. simpl in Hla. lia.
    + intros [Hin|Hin]%elem_of_app; [by apply (Hnew e He)|].
      rewrite El, fmap_app in Hnd. apply NoDup_app in Hnd as (_ & Hd & _).
      apply (Hd _ Hin). by left.
    + eexists. split; [exact Hl2|]. exists ns2. rewrite fmap_app, !app_assoc. split; [done|].
      split; [congruence|]. eapply linked_equiv; [|exact HL2]. set_solver.
  - by exists ns'.
Qed.

(** One turn of the breadth-first loop. *)
Lemma bfs_step ns V a A B d :
  BFS ns V (a :: A) B d ->
  exists n l ns' C, at_ ns a = Some n /\ node_siblings es n = Some l /\
    foldM (link_edge es a) (ns, A ++ B) l = Some (ns', (A ++ B) ++ C) /\
    edgeStart <$> ns' = edgeStart <$> ns /\ BFS ns' (V ++ [a]) A (B ++ C) d.
Proof.
  intros HB. destruct (q_A _ _ _ _ _ HB a ltac:(by left)) as (wa & Ha & Hla).
  destruct (word_at_node _ _ _ _ _ (q_trie _ _ _ _ _ HB) Ha) as [n Hn].
  destruct (t_sibs _ _ _ (q_trie _ _ _ _ _ HB) a n wa Hn Ha) as (l & Hl & Hnl & Ht & Hall).
  pose proof (conj Ha (conj Hnl (conj Ht Hall)) : children a wa l) as Hc.
  pose proof (children_new _ _ _ _ _ _ _ _ HB Hc) as Hnew. pose proof (children_nodup _ _ _ Hc).
  destruct (link_children _ _ _ _ _ _ _ _ HB Hla Hc) as (ns' & Hf & Hst & HL').
  destruct HB as [HT HL Hup Hpos Hch HA HB HV Hpar Hnd].
  exists n, l, ns', (b_target <$> l). split_and!; [done..|].
  set (G := 0 :: V ++ (a :: A) ++ B) in *.
  assert (HG : forall t, t ∈ G \/ t ∈ b_target <$> l <-> t ∈ 0 :: (V ++ [a]) ++ A ++ B ++ (b_target <$> l))
    by (unfold G; set_solver).
  constructor.
  - by eapply trie_static.
  - eapply linked_equiv; [|exact HL']. intros t. rewrite <- HG. apply elem_of_app.
  - intros t w Hw Hlen. apply HG. left. by eapply Hup.
  - done.
  - intros t w c t' Hin Hw Hw'. apply HG.
    assert (Hcase : t ∈ 0 :: V \/ t = a) by set_solver. destruct Hcase as [HtV| ->].
    + left. by eapply Hch.
    + right. pose proof (at_fun _ _ _ _ Ha Hw) as <-.
      destruct (Hall c) as (e & He & <-); [apply at_elem; by exists t'|].
      rewrite <- (at_inj _ _ _ _ (t_nodup _ _ _ HT) (Ht e He) Hw'). by apply list_elem_of_fmap_2.
  - intros t HtA. apply HA. by right.
  - intros t [HtB|(e & -> & He)%list_elem_of_fmap]%elem_of_app; [by apply HB|].
    eexists. split; [by apply Ht|]. rewrite length_app. simpl. lia.
  - intros t Hin. assert (Hcase : t ∈ 0 :: V \/ t = a) by set_solver.
    destruct Hcase as [HtV| ->]; [by apply HV|]. exists wa. split; [done|lia].
  - intros t Hin.
    assert (Hcase : t ∈ V ++ (a :: A) ++ B \/ t ∈ b_target <$> l) by set_solver.
    destruct Hcase as [Hold|(e & -> & He)%list_elem_of_fmap].
    + destruct (Hpar t Hold) as (s & w & c & Hs & ? & ?). exists s, w, c.
      split_and!; [set_solver|done..].
    + exists a, wa, (b_label e). split_and!; [set_solver|done|by apply Ht].
  - replace (0 :: (V ++ [a]) ++ A ++ B ++ (b_target <$> l)) with (G ++ (b_target <$> l))
      by (unfold G; cbn [app]; rewrite <- !app_assoc; cbn [app]; by rewrite <- ?app_assoc).
    apply NoDup_app. split_and!; [done| |done].
    intros t HtG (e & -> & He)%list_elem_of_fmap. by apply (Hnew e He).
Qed.

(** When the queue is empty every node has been visited. *)
Lemma bfs_done ns V d t w : BFS ns V [] [] d -> at_ ws t = Some w -> t ∈ 0 :: V ++ [] ++ [].
Proof.
  intros HB. pose proof (q_trie _ _ _ _ _ HB) as HT. cbn [app]. rewrite app_nil_r. revert t.
  induction w as [|c w IH] using rev_ind; intros t Hw.
  - rewrite (word_at_root _ _ _ _ HT Hw). by left.
  - assert (Hin : w ∈ ws) by (apply (t_prefix _ _ _ HT w c), at_elem; by exists t).
    apply at_elem in Hin as [s Hs].
    pose proof (q_children _ _ _ _ _ HB s w c t (IH s Hs) Hs Hw) as Hr. cbn [app] in Hr.
    by rewrite app_nil_r in Hr.
Qed.

Definition all_finished (ns : list Node) : Prop :=
  forall t n w, at_ ns t = Some n -> at_ ws t = Some w -> finished kws ws n w.

Lemma link_nodes_spec fuel ns V A B d :
  BFS ns V A B d -> (length ws <= fuel + 1 + length V)%nat ->
  exists ns', link_nodes fuel es ns (A ++ B) = Some ns' /\ edgeStart <$> ns' = edgeStart <$> ns /\
    all_finished ns'.
Proof.
  assert (Hend : forall fuel ns V d, BFS ns V [] [] d ->
    exists ns', link_nodes fuel es ns [] = Some ns' /\ edgeStart <$> ns' = edgeStart <$> ns /\
      all_finished ns').
  { intros fuel' ns' V' d' HB. exists ns'. split; [by destruct fuel'|]. split; [done|].
    intros t n w Hn Hw. apply (q_linked _ _ _ _ _ HB t n w Hn Hw). by eapply bfs_done. }
  revert ns V A B d. induction fuel as [|fuel IH]; intros ns V A B d HB Hfuel.
  { pose proof (bfs_size _ _ _ _ _ HB) as Hsize. destruct A; [|simpl in *; lia].
    destruct B; [|simpl in *; lia]. by eapply Hend. }
  assert (Hstep : forall a A B d, BFS ns V (a :: A) B d ->
    exists ns', link_nodes (S fuel) es ns (a :: A ++ B) = Some ns' /\
      edgeStart <$> ns' = edgeStart <$> ns /\ all_finished ns').
  { clear A B d HB. intros a A B d HB.
    destruct (bfs_step _ _ _ _ _ _ HB) as (n & l & ns' & C & Hn & Hl & Hf & Hs & HB').
    cbn [link_nodes]. rewrite Hn. cbn [mbind option_bind]. rewrite Hl. cbn [mbind option_bind].
    rewrite Hf. cbn [mbind option_bind]. rewrite <- app_assoc.
    destruct (IH _ _ _ _ _ HB') as (ns2 & ? & ? & ?); [rewrite length_app; simpl; lia|].
    exists ns2. split_and!; [done|congruence|done]. }
  destruct A as [|a A]; [|by eapply Hstep].
  destruct B as [|a B]; [by eapply Hend|]. apply bfs_shift, Hstep in HB.
  by rewrite app_nil_r in HB.
Qed.

(** The search starts below the root. *)
Lemma bfs_start ns l :
  TrieOf kws ns es ws -> children 0 [] l -> BFS ns [] (b_target <$> l) [] 1.
Proof.
  intros (HT & _ & Hfresh) Hc. pose proof (children_nodup _ _ _ Hc) as Hnd.
  destruct Hc as (Hroot & Hnl & Ht & Hall).
  assert (Hone : forall t w, at_ ws t = Some w -> (length w <= 1)%nat ->
    w = [] /\ t = 0 \/ exists c, w = [c] /\ t ∈ b_target <$> l).
  { intros t w Hw Hlen. destruct w as [|c [|? ?]]; [|right|simpl in Hlen; lia].
    - left. split; [done|]. by eapply word_at_root.
    - exists c. split; [done|]. destruct (Hall c) as (e & He & <-); [apply at_elem; by exists t|].
      rewrite <- (at_inj _ _ _ _ (t_nodup _ _ _ HT) (Ht e He) Hw). by apply list_elem_of_fmap_2. }
  assert (Htl : forall t, t ∈ b_target <$> l -> exists c, at_ ws t = Some [c]).
  { intros t (e & -> & He)%list_elem_of_fmap. eexists. by apply Ht. }
  constructor; cbn [app]; rewrite ?app_nil_r; try done.
  - intros t n w Hn Hw. destruct (Hfresh t n w Hn Hw) as [Hf Hb]. split; [|done].
    intros Hin.
    assert (Hw1 : (length w <= 1)%nat).
    { apply elem_of_cons in Hin as [->|Hin].
      - rewrite (at_fun _ _ _ _ Hw Hroot). simpl. lia.
      - destruct (Htl t Hin) as [c Hcw]. rewrite (at_fun _ _ _ _ Hw Hcw). simpl. lia. }
    split.
    + rewrite Hf. exists []. split; [done|]. destruct w as [|? [|? ?]]; [..|simpl in Hw1; lia];
        (split_and!; [done|apply at_elem; by exists 0|]; by intros v ->%suffix_nil_inv).
    + rewrite Hb. apply first_idx_ext. intros kw Hkw. unfold is_word, ends_word.
      destruct (String.eqb_spec kw ""); [done|]. cbn [negb andb]. apply bool_decide_ext.
      pose proof (kw_bytes_nonempty kw ltac:(done)) as Hkb. split; [by intros ->|].
      destruct w as [|c [|? ?]]; [by intros ?%suffix_nil_inv| |simpl in Hw1; lia].
      intros [|?%suffix_nil_inv]%suffix_cons_inv_r; done.
  - intros t w Hw Hlen. destruct (Hone t w Hw Hlen) as [[_ ->]|(c & _ & Hin)]; [by left|by right].
  - lia.
  - intros t w c t' ->%list_elem_of_singleton Hw Hw'. pose proof (at_fun _ _ _ _ Hroot Hw) as <-.
    destruct (Hone t' _ Hw') as [[? _]|(? & _ & Hin)]; [simpl; lia|done|by right].
  - intros t Hin. destruct (Htl t Hin) as [c Hc]. by exists [c].
  - by intros t ?%not_elem_of_nil.
  - intros t ->%list_elem_of_singleton. exists []. split; [done|simpl; lia].
  - intros t Hin. destruct (Htl t Hin) as [c Hc]. exists 0, [], c. split_and!; [by left|done..].
  - apply NoDup_cons. split; [|done]. intros Hin. destruct (Htl 0 Hin) as [c Hc].
    by pose proof (at_fun _ _ _ _ Hroot Hc).
Qed.

(** ** The transitions of the root *)

Lemma ascii_byte_range c : 0 <= ascii_byte c < 256.
Proof. unfold ascii_byte. pose proof (N_ascii_bounded c). lia. Qed.

Lemma ascii_byte_inj c d : ascii_byte c = ascii_byte d -> c = d.
Proof.
  unfold ascii_byte. intros Hn%N2Z.inj. rewrite <- (ascii_N_embedding c), Hn.
  apply ascii_N_embedding.
Qed.

(** [t] is the target of [c] from the node of [w], 0 if there is none. *)
Definition goes (w : word) (c : ascii) (t : Z) : Prop :=
  t = 0 /\ w ++ [c] ∉ ws \/ t <> 0 /\ at_ ws t = Some (w ++ [c]).

Lemma goes_child a wa l e : at_ ws 0 = Some [] -> children a wa l -> e ∈ l ->
  goes wa (b_label e) (b_target e).
Proof.
  intros Hroot (_ & _ & Ht & _) He. right. specialize (Ht e He). split; [|done].
  intros E. rewrite E in Ht. pose proof (at_fun _ _ _ _ Hroot Ht) as Hx. by destruct wa.
Qed.

Lemma root_edges_spec l :
  at_ ws 0 = Some [] -> children 0 [] l ->
  exists root, foldM root_edge (replicate 256 0, []) l = Some (root, b_target <$> l) /\
    forall c, exists t, at_ root (ascii_byte c) = Some t /\ goes [] c t.
Proof.
  intros Hroot Hc. pose proof Hc as (_ & Hnl & _ & Hall).
  destruct (foldM_inv root_edge (fun pre st => exists root, st = (root, b_target <$> pre) /\
    zlen root = 256 /\ (forall e, e ∈ pre -> at_ root (ascii_byte (b_label e)) = Some (b_target e)) /\
    forall c, c ∉ b_label <$> pre -> at_ root (ascii_byte c) = Some 0) l (replicate 256 0, []))
    as (st & Hf & root & -> & Hz & Hin & Hout).
  - eexists. split_and!; [done|by vm_compute|by intros e ?%not_elem_of_nil|].
    intros c _. pose proof (ascii_byte_range c). apply at_Some. split; [lia|].
    apply lookup_replicate_2. lia.
  - intros pre e post st El (root & -> & Hz & Hin & Hout). unfold root_edge.
    pose proof (ascii_byte_range (b_label e)). rewrite set_at_Some by lia. simpl.
    eexists. split; [reflexivity|]. eexists. rewrite fmap_app. split; [done|].
    rewrite zlen_set. split; [done|].
    rewrite El, fmap_app in Hnl. apply NoDup_app in Hnl as (_ & Hd & _). split.
    + intros e' [He'| ->%list_elem_of_singleton]%elem_of_app; [|apply at_set_eq; lia].
      rewrite at_set_ne; [by apply Hin|lia|]. intros E%ascii_byte_inj.
      apply (Hd (b_label e')); [by apply list_elem_of_fmap_2|]. rewrite <- E. simpl. by left.
    + intros c Hc'. rewrite fmap_app in Hc'. rewrite at_set_ne; [apply Hout; set_solver|lia|].
      intros E%ascii_byte_inj. apply Hc'. rewrite <- E. set_solver.
  - exists root. split; [done|]. intros c.
    destruct (decide (c ∈ b_label <$> l)) as [(e & -> & He)%list_elem_of_fmap|Hno].
    + exists (b_target e). split; [by apply Hin|]. by eapply goes_child.
    + exists 0. split; [by apply Hout|]. left. split; [done|]. intros (e & He & <-)%Hall.
      by apply Hno, list_elem_of_fmap_2.
Qed.

(** ** Sorted edge slices *)

Definition edge_le (e f : Edge) : Prop := ascii_byte (label e) <= ascii_byte (label f).

Lemma shift_in_perm e l : shift_in e l ≡ₚ e :: l.
Proof. induction l as [|f l IH]; simpl; [done|]. case_match; [|done]. rewrite IH. constructor. Qed.

Lemma shift_in_sorted e l :
  StronglySorted (flip edge_le) l -> StronglySorted (flip edge_le) (shift_in e l).
Proof.
  induction 1 as [|f l Hs IH Hf]; simpl; [by repeat constructor|].
  destruct (Z.ltb_spec (ascii_byte (label e)) (ascii_byte (label f))).
  - constructor; [done|]. rewrite shift_in_perm. constructor; [|done]. unfold flip, edge_le. lia.
  - constructor; [by constructor|]. constructor; [unfold flip, edge_le; lia|].
    eapply Forall_impl; [exact Hf|]. unfold flip, edge_le. intros; simpl in *. lia.
Qed.

Lemma sort_outgoing_perm l : sort_outgoing l ≡ₚ l.
Proof.
  unfold sort_outgoing. rewrite <- Permutation_rev.
  cut (forall d, foldl (fun done e => shift_in e done) d l ≡ₚ l ++ d).
  { intros Hd. by rewrite Hd, app_nil_r. }
  induction l as [|e l IH]; intros d; simpl; [done|].
  rewrite IH, shift_in_perm. by rewrite <- Permutation_middle.
Qed.

Lemma sorted_lookup {A} (R : A -> A -> Prop) l i j x y :
  StronglySorted R l -> (i < j)%nat -> l !! i = Some x -> l !! j = Some y -> R x y.
Proof.
  intros Hs. revert i j. induction Hs as [|z l Hs IH Hz]; intros i j Hij Hi Hj; [done|].
  destruct j as [|j]; [lia|]. destruct i as [|i]; simpl in *.
  - injection Hi as <-. rewrite Forall_forall in Hz. apply Hz. by eapply list_elem_of_lookup_2.
  - apply (IH i j); [lia|done..].
Qed.

(** Sorted in the order of the array. *)
Lemma sort_outgoing_lookup l i j e f :
  (i < j)%nat -> sort_outgoing l !! i = Some e -> sort_outgoing l !! j = Some f -> edge_le e f.
Proof.
  assert (Hs : forall d, StronglySorted (flip edge_le) d ->
    StronglySorted (flip edge_le) (foldl (fun done e => shift_in e done) d l)).
  { induction l as [|x l IH]; intros d Hd; simpl; [done|]. by apply IH, shift_in_sorted. }
  specialize (Hs [] (SSorted_nil _)). unfold sort_outgoing. revert Hs.
  generalize (foldl (fun done e => shift_in e done) [] l). clear l. intros l Hs Hij Hi Hj.
  assert (Hlt : (j < length l)%nat).
  { apply lookup_lt_Some in Hj. by rewrite length_rev in Hj. }
  assert (Hr : rev l = reverse l) by apply rev_alt.
  rewrite Hr in *. rewrite reverse_lookup in Hi by lia. rewrite reverse_lookup in Hj by lia.
  apply (sorted_lookup (flip edge_le) l (length l - S j) (length l - S i) _ _ Hs); [lia|done..].
Qed.

(** [sorted] is in the array from [start] on. *)
Definition slice_at (out : list Edge) (start : Z) (sorted : list Edge) : Prop :=
  forall k e, sorted !! k = Some e -> at_ out (start + Z.of_nat k) = Some e.

Definition out_edge (e : BuildEdge) : Edge := mkEdge (b_target e) (b_label e).

(** The edges of node [t] are in its slice. *)
Definition flat (out : list Edge) (t : Z) (w : word) (n : Node) : Prop :=
  exists l, children t w l /\ edgeCount n = zlen l /\ 0 <= edgeStart n /\
    slice_at out (edgeStart n) (sort_outgoing (map out_edge l)).

Lemma children_count a wa l : children a wa l -> zlen l <= 256.
Proof.
  intros (_ & Hnl & _).
  assert (Hinj : Inj (=) (=) ascii_byte) by (intros x y; apply ascii_byte_inj).
  apply (NoDup_fmap_2 ascii_byte) in Hnl. apply (NoDup_submseteq _ (seqZ 0 256)) in Hnl.
  - apply submseteq_length in Hnl. rewrite !length_fmap, length_seqZ in Hnl. unfold zlen. lia.
  - intros b (c & -> & _)%list_elem_of_fmap. apply elem_of_seqZ. pose proof (ascii_byte_range c). lia.
Qed.

Lemma slice_app out out' start l : slice_at out start l -> slice_at (out ++ out') start l.
Proof. intros Hs k e Hk. by apply at_app_l, Hs. Qed.

Lemma slice_end out l : slice_at (out ++ l) (zlen out) l.
Proof.
  intros k e Hk. apply at_Some. unfold zlen. split; [lia|].
  rewrite lookup_app_r by lia. replace (Z.to_nat _ - length out)%nat with k by lia. done.
Qed.

(** The state of the flattening loop after the nodes [pre]. *)
Record Flattening (ns : list Node) (pre : list Z) (ns' : list Node) (out : list Edge) : Prop := {
  f_len : zlen ns' = zlen ns;
  f_todo : forall t, t ∉ pre -> at_ ns' t = at_ ns t;
  f_done : forall t n' w, t ∈ pre -> at_ ns' t = Some n' -> at_ ws t = Some w ->
    flat out t w n' /\ exists n, at_ ns t = Some n /\ failure n' = failure n /\
      bestKeyword n' = bestKeyword n;
  f_nodup : NoDup (target <$> out);
  f_parent : forall e, e ∈ out -> exists s w, s ∈ pre /\ at_ ws s = Some w /\
    at_ ws (target e) = Some (w ++ [label e])
}.

Lemma flattening_size ns pre ns' out : Flattening ns pre ns' out -> zlen out <= zlen ws.
Proof.
  intros HF. pose proof (f_nodup _ _ _ _ HF) as Hd.
  apply (NoDup_submseteq _ (seqZ 0 (zlen ws))) in Hd.
  - apply submseteq_length in Hd. rewrite length_fmap, length_seqZ in Hd. unfold zlen in *. lia.
  - intros t (e & -> & He)%list_elem_of_fmap. apply elem_of_seqZ.
    destruct (f_parent _ _ _ _ HF e He) as (? & ? & _ & _ & Hw%at_range). lia.
Qed.

Lemma flatten_step ns pre ns' out x :
  Trie ns es ws -> Flattening ns pre ns' out -> x ∉ pre -> 0 <= x < zlen ns ->
  exists ns2 out2, flatten_node es (ns', out) x = Some (ns2, out2) /\
    Flattening ns (pre ++ [x]) ns2 out2.
Proof.
  intros HT HF Hx Hr. pose proof (flattening_size _ _ _ _ HF) as Hsize.
  pose proof (t_small _ _ _ HT) as Hsmall. pose proof (t_len _ _ _ HT) as Hlen.
  destruct HF as [Hz Htodo Hdone Hnd Hpar]. unfold flatten_node. rewrite Htodo by done.
  destruct (at_is_Some ns x Hr) as [n Hn]. destruct (at_is_Some ws x) as [w Hw]; [lia|].
  destruct (t_sibs _ _ _ HT x n w Hn Hw) as (l & Hl & Hnl & Ht & Hall).
  pose proof (conj Hw (conj Hnl (conj Ht Hall)) : children x w l) as Hc.
  rewrite Hn. cbn [mbind option_bind]. rewrite Hl. cbn [mbind option_bind].
  pose proof (children_count _ _ _ Hc) as H256. rewrite (proj2 (Z.ltb_ge _ _)) by done.
  rewrite set_at_Some by lia. cbn [mbind option_bind].
  do 2 eexists. split; [reflexivity|].
  set (srt := sort_outgoing _).
  assert (Hperm : srt ≡ₚ map out_edge l) by apply sort_outgoing_perm.
  assert (Hsrt : forall e, e ∈ srt -> at_ ws (target e) = Some (w ++ [label e])).
  { intros e He. rewrite Hperm in He. apply list_elem_of_fmap in He as (b & -> & Hb). by apply Ht. }
  constructor.
  - by rewrite zlen_set.
  - intros t Hin. rewrite at_set_ne; [apply Htodo; set_solver|lia|]. intros ->. set_solver.
  - intros t n' v Hin Hn' Hv. destruct (Z.eq_dec x t) as [<-|Hne].
    + rewrite at_set_eq in Hn' by lia. injection Hn' as <-.
      pose proof (at_fun _ _ _ _ Hw Hv) as <-. split; [|by exists n].
      assert (0 <= zlen out) by (unfold zlen; lia). assert (0 <= zlen l) by (unfold zlen; lia).
      exists l. cbn [edgeCount edgeStart set_edges]. unfold u16.
      rewrite Z.mod_small by lia. rewrite u32_id by go_lia. split_and!; [done..|].
      apply slice_end.
    + rewrite at_set_ne in Hn' by lia. assert (Hin' : t ∈ pre) by set_solver.
      destruct (Hdone t n' v Hin' Hn' Hv) as [(k & ? & ? & ? & ?) ?]. split; [|done].
      exists k. split_and!; [done..|]. by apply slice_app.
  - rewrite fmap_app. apply NoDup_app. split; [done|]. split.
    + intros t (e & -> & He)%list_elem_of_fmap (f & Hf & Hfs)%list_elem_of_fmap.
      destruct (Hpar e He) as (s & v & Hs & Hsv & Hev). specialize (Hsrt f Hfs).
      rewrite <- Hf in Hsrt. apply (at_fun _ _ _ _ Hev), app_inj_tail in Hsrt as [-> _].
      apply Hx. by rewrite (at_inj _ _ _ _ (t_nodup _ _ _ HT) Hw Hsv).
    + assert (Hp : target <$> srt ≡ₚ b_target <$> l).
      { rewrite Hperm. unfold fmap, list_fmap. change (map target (map out_edge l) ≡ₚ map b_target l).
        by rewrite map_map. }
      rewrite Hp. by eapply children_nodup.
  - intros e [He|He]%elem_of_app.
    + destruct (Hpar e He) as (s & v & ? & ? & ?). exists s, v. split_and!; [set_solver|done..].
    + exists x, w. split_and!; [set_solver|done|by apply Hsrt].
Qed.

Lemma flatten_spec ns :
  Trie ns es ws -> all_finished ns ->
  exists ns' out, foldM (flatten_node es) (ns, []) (seqZ 0 (zlen ns)) = Some (ns', out) /\
    zlen ns' = zlen ns /\ all_finished ns' /\
    forall t n w, at_ ns' t = Some n -> at_ ws t = Some w -> flat out t w n.
Proof.
  intros HT Hfin.
  destruct (foldM_inv (flatten_node es) (fun pre st => exists ns' out, st = (ns', out) /\
    Flattening ns pre ns' out) (seqZ 0 (zlen ns)) (ns, [])) as (st & Hf & ns' & out & -> & HF).
  - do 2 eexists. split; [done|]. constructor;
    [done|done|by intros ? ? ? ?%not_elem_of_nil|by apply NoDup_nil|by intros ? ?%not_elem_of_nil].
  - intros pre x post st Hs (ns' & out & -> & HF).
    assert (Hx : x ∉ pre).
    { pose proof (NoDup_seqZ 0 (zlen ns)) as Hd. rewrite Hs in Hd.
      apply NoDup_app in Hd as (_ & Hd & _). intros Hin. apply (Hd x Hin). by left. }
    assert (Hr : 0 <= x < 0 + zlen ns) by (apply elem_of_seqZ; rewrite Hs; set_solver).
    destruct (flatten_step ns pre ns' out x HT HF Hx) as (ns2 & out2 & -> & HF2); [lia|].
    eexists. split; [done|]. by exists ns2, out2.
  - exists ns', out. split; [done|]. split; [apply HF|].
    assert (Hall : forall t n w, at_ ns' t = Some n -> at_ ws t = Some w ->
      flat out t w n /\ finished kws ws n w).
    { intros t n w Hn Hw.
      destruct (f_done _ _ _ _ HF t n w) as [Hfl (n0 & Hn0 & Hf0 & Hb0)]; [|done..|].
      - apply elem_of_seqZ. apply at_range in Hn. rewrite (f_len _ _ _ _ HF) in Hn. lia.
      - split; [done|]. destruct (Hfin t n0 w Hn0 Hw) as [(fw & ? & ?) ?].
        split; [exists fw; by rewrite Hf0|by rewrite Hb0]. }
    split; [intros t n w Hn Hw|intros t n w Hn Hw]; by apply (Hall t).
Qed.

(** ** Transitions of the matcher *)

(** The slice is sorted, and the search ends where the labels reach [c]. *)
Lemma lower_bound_spec out start srt c fuel left right :
  slice_at out start srt ->
  (forall i j e f, (i < j)%nat -> srt !! i = Some e -> srt !! j = Some f -> edge_le e f) ->
  start <= left <= right -> right <= start + zlen srt -> right - left <= Z.of_nat fuel ->
  (forall k e, srt !! k = Some e -> start + Z.of_nat k < left -> ascii_byte (label e) < ascii_byte c) ->
  (forall k e, srt !! k = Some e -> right <= start + Z.of_nat k -> ascii_byte c <= ascii_byte (label e)) ->
  exists i, lower_bound fuel out left right c = Some i /\ left <= i <= right /\
    (forall k e, srt !! k = Some e -> start + Z.of_nat k < i -> ascii_byte (label e) < ascii_byte c) /\
    (forall k e, srt !! k = Some e -> i <= start + Z.of_nat k -> ascii_byte c <= ascii_byte (label e)).
Proof.
  intros Hsl Hs. revert left right. induction fuel as [|fuel IH]; intros left right Hl Hr Hf Hlo Hhi;
    cbn [lower_bound].
  - rewrite (proj2 (Z.ltb_ge _ _)) by lia. exists left. split_and!; [done|lia|lia|done|].
    intros k e Hk Hi. apply (Hhi k e Hk). lia.
  - destruct (Z.ltb_spec left right) as [Hlt|Hge].
    2: { exists left. split_and!; [done|lia|lia|done|]. intros k e Hk Hi. apply (Hhi k e Hk). lia. }
    set (mid := left + (right - left) / 2).
    assert (Hmid : left <= mid < right) by (unfold mid; Z.div_mod_to_equations; lia).
    destruct (lookup_lt_is_Some_2 srt (Z.to_nat (mid - start))) as [e He]; [unfold zlen in Hr; lia|].
    clearbody mid.
    pose proof (Hsl _ _ He) as Hat. replace (start + _) with mid in Hat by lia.
    rewrite Hat. cbn [mbind option_bind].
    destruct (Z.ltb_spec (ascii_byte (label e)) (ascii_byte c)) as [Hc|Hc].
    + destruct (IH (mid + 1) right) as (i & -> & Hi & H1 & H2); [lia|lia|lia| |done|].
      * intros k f Hk Hkm. destruct (decide (k = Z.to_nat (mid - start))) as [->|Hne]; [congruence|].
        specialize (Hs k (Z.to_nat (mid - start)) f e ltac:(lia) Hk He). unfold edge_le in Hs. lia.
      * exists i. split_and!; [done|lia|lia|done|done].
    + destruct (IH left mid) as (i & -> & Hi & H1 & H2); [lia|lia|lia|done| |].
      * intros k f Hk Hkm. destruct (decide (k = Z.to_nat (mid - start))) as [->|Hne]; [congruence|].
        specialize (Hs (Z.to_nat (mid - start)) k e f ltac:(lia) He Hk). unfold edge_le in Hs. lia.
      * exists i. split_and!; [done|lia|lia|done|done].
Qed.

(** What the matcher knows of the words. *)
Record Automaton (m : contentModerationKeywordMatcher) : Prop := {
  m_keywords : keywords m = kws;
  m_len : zlen (nodes m) = zlen ws;
  m_root : at_ ws 0 = Some [];
  m_nodup : NoDup ws;
  m_prefix : forall w c, w ++ [c] ∈ ws -> w ∈ ws;
  m_depth : forall t w, at_ ws t = Some w -> (length w < length ws)%nat;
  m_rootTransitions : forall c, exists t, at_ (rootTransitions m) (ascii_byte c) = Some t /\ goes [] c t;
  m_finished : all_finished (nodes m);
  m_flat : forall t n w, at_ (nodes m) t = Some n -> at_ ws t = Some w -> flat (edges m) t w n
}.

Lemma next_spec m s w c :
  Automaton m -> at_ ws s = Some w -> exists t, next m s c = Some t /\ goes w c t.
Proof.
  intros HA Hw. unfold next. destruct (Z.eqb_spec s 0) as [->|Hs0].
  { rewrite (at_fun _ _ _ _ Hw (m_root _ HA)). apply (m_rootTransitions _ HA). }
  pose proof (at_range _ _ _ Hw) as Hr. rewrite <- (m_len _ HA) in Hr.
  rewrite (proj2 (Z.ltb_ge s 0)), (proj2 (Z.leb_gt _ s)) by lia. cbn [orb].
  destruct (at_is_Some _ _ Hr) as [n Hn]. rewrite Hn. cbn [mbind option_bind].
  destruct (m_flat _ HA s n w Hn Hw) as (l & Hc & Hcount & Hstart & Hsl).
  set (srt := sort_outgoing (map out_edge l)) in *.
  assert (Hperm : srt ≡ₚ map out_edge l) by apply sort_outgoing_perm.
  assert (Hz : zlen srt = zlen l).
  { unfold zlen. by rewrite Hperm, length_map. }
  destruct (lower_bound_spec (edges m) (edgeStart n) srt c (Z.to_nat (edgeCount n)) (edgeStart n)
    (edgeStart n + edgeCount n) Hsl) as (i & -> & Hi & Hlo & Hhi).
  { intros ? ? ? ?. apply sort_outgoing_lookup. } 1-3: unfold zlen in *; lia. { lia. }
  { intros k e Hk%lookup_lt_Some. unfold zlen in *. lia. }
  cbn [mbind option_bind]. destruct (Z.ltb_spec i (edgeStart n + edgeCount n)) as [Hin|Hend].
  - destruct (lookup_lt_is_Some_2 srt (Z.to_nat (i - edgeStart n))) as [e He]; [unfold zlen in *; lia|].
    pose proof (Hsl _ _ He) as Hat. replace (edgeStart n + _) with i in Hat by lia.
    rewrite Hat. cbn [mbind option_bind]. eexists. split; [reflexivity|].
    assert (Hel : e ∈ map out_edge l) by (rewrite <- Hperm; by eapply list_elem_of_lookup_2).
    apply list_elem_of_fmap in Hel as (b & -> & Hb).
    destruct (Ascii.eqb_spec (label (out_edge b)) c) as [<-|Hne]; [by eapply goes_child; [apply HA|..]|].
    left. split; [done|]. intros (e' & He' & <-)%(proj2 (proj2 (proj2 Hc))).
    assert (Hel' : out_edge e' ∈ srt) by (rewrite Hperm; by apply list_elem_of_fmap_2).
    apply list_elem_of_lookup in Hel' as [k Hk]. cbn [label out_edge] in *.
    apply Hne, ascii_byte_inj.
    pose proof (Hhi _ _ He ltac:(lia)) as H1. cbn [label out_edge] in H1.
    destruct (Z.lt_ge_cases (edgeStart n + Z.of_nat k) i) as [Hki|Hki].
    + pose proof (Hlo _ _ Hk Hki) as H2. cbn [label out_edge] in H2. lia.
    + destruct (decide (k = Z.to_nat (i - edgeStart n))) as [->|Hnk].
      * unfold srt in *. rewrite He in Hk. by injection Hk as _ ->.
      * pose proof (sort_outgoing_lookup _ (Z.to_nat (i - edgeStart n)) k _ _ ltac:(lia) He Hk) as H2.
        unfold edge_le in H2. cbn [label out_edge] in H2. lia.
  - exists 0. split; [done|]. left. split; [done|].
    intros (e' & He' & <-)%(proj2 (proj2 (proj2 Hc))).
    assert (Hel' : out_edge e' ∈ srt) by (rewrite Hperm; by apply list_elem_of_fmap_2).
    apply list_elem_of_lookup in Hel' as [k Hk].
    pose proof (lookup_lt_Some _ _ _ Hk) as Hklt.
    pose proof (Hlo _ _ Hk ltac:(unfold zlen in *; lia)) as Hk1. cbn [label out_edge] in Hk1. lia.
Qed.

Lemma advance_spec fuel m p c s u :
  Automaton m -> at_ ws s = Some u -> (length u <= fuel)%nat -> lext (.∈ ws) p c u ->
  exists t v, advance fuel m s c = Some t /\ at_ ws t = Some v /\ lss (.∈ ws) (p ++ [c]) v.
Proof.
  intros HA. pose proof (m_root _ HA) as Hroot.
  assert (Tnil : ([] : word) ∈ ws) by (apply at_elem; by exists 0).
  revert s u. induction fuel as [|fuel IH]; intros s u Hu Hf Hext; cbn [advance];
    destruct (next_spec m s u c HA Hu) as (t & -> & [[-> Hnew]|[Ht Htw]]); cbn [mbind option_bind].
  2, 4: rewrite (proj2 (Z.eqb_neq t 0)) by done; exists t, (u ++ [c]); split_and!; [done..|];
    apply lext_hit; [done|apply at_elem; by exists t].
  - destruct u; [|simpl in Hf; lia]. rewrite (at_inj _ _ _ _ (m_nodup _ HA) Hu Hroot). simpl.
    exists 0, []. split_and!; [done..|]. by apply lext_miss.
  - cbn [Z.eqb negb]. destruct (Z.eqb_spec s 0) as [->|Hs0].
    + exists 0, []. split_and!; [done..|]. apply (at_fun _ _ _ _ Hroot) in Hu as <-. by apply lext_miss.
    + destruct (at_is_Some (nodes m) s) as [n Hn].
      { rewrite (m_len _ HA). by eapply at_range. }
      rewrite Hn. cbn [mbind option_bind].
      destruct u as [|a u]; [by rewrite (at_inj _ _ _ _ (m_nodup _ HA) Hu Hroot) in Hs0|].
      destruct (m_finished _ HA s n _ Hn Hu) as [(fw & Hfw & Hls) _]. cbn [tail] in Hls.
      pose proof (suffix_length _ _ (proj1 Hls)). simpl in Hf.
      apply (IH (failure n) fw Hfw); [lia|]. eapply lext_fail; eauto. apply (m_prefix _ HA).
Qed.

(** ** Occurrences *)

(** [w] occurs in [p]. *)
Definition occurs (w p : word) : Prop := exists q r, p = q ++ w ++ r.

Definition occursb (w p : word) : bool :=
  existsb (fun k => bool_decide (w `suffix_of` take k p)) (seq 0 (S (length p))).

Lemma occursb_spec w p : occursb w p = true <-> occurs w p.
Proof.
  unfold occursb. rewrite existsb_exists. split.
  - intros (k & _ & [q Hq]%bool_decide_eq_true). exists q, (drop k p).
    by rewrite app_assoc, <- Hq, take_drop.
  - intros (q & r & ->). exists (length (q ++ w)). split.
    + apply in_seq. rewrite !length_app. lia.
    + apply bool_decide_eq_true. exists q. by rewrite app_assoc, take_app_length.
Qed.

Lemma occurs_snoc w p c : occurs w (p ++ [c]) <-> occurs w p \/ w `suffix_of` p ++ [c].
Proof.
  split.
  - intros (q & r & Hp). destruct r as [|d r _] using rev_ind.
    + right. exists q. by rewrite app_nil_r in Hp.
    + left. rewrite !app_assoc in Hp. apply app_inj_tail in Hp as [Hp _].
      exists q, r. by rewrite app_assoc.
  - intros [(q & r & ->)|[q Hq]].
    + exists q, (r ++ [c]). by rewrite <- !app_assoc.
    + exists q, []. by rewrite app_nil_r.
Qed.

(** The keyword occurs in the lower-cased text [p]. *)
Definition hits (p : word) (kw : string) : bool :=
  negb (String.eqb kw "") && occursb (kw_bytes kw) p.

Lemma hits_snoc p c v kw :
  lss (.∈ ws) (p ++ [c]) v -> kw ∈ kws -> hits (p ++ [c]) kw = hits p kw || ends_word v kw.
Proof.
  intros Hl Hkw. unfold hits, ends_word. destruct (String.eqb_spec kw "") as [|Hne]; [done|].
  cbn [negb andb]. apply eq_true_iff_eq.
  rewrite orb_true_iff, bool_decide_eq_true, !occursb_spec, occurs_snoc. split.
  - intros [?|Hs]; [by left|right]. eapply lss_suffix; [done|by apply Hkws|done].
  - intros [?|Hs]; [by left|right]. etrans; [done|]. apply Hl.
Qed.

Lemma match_loop_spec m text p s u b :
  Automaton m -> at_ ws s = Some u -> lss (.∈ ws) p u -> b = first_idx (hits p) kws 0 ->
  exists r, match_loop m text s b = Some r /\
    match r with
    | inl kw => first_idx (hits (p ++ text)) kws 0 = 0 /\ at_ kws 0 = Some kw
    | inr best => best = first_idx (hits (p ++ text)) kws 0
    end.
Proof.
  intros HA. revert p s u b. induction text as [|c text IH]; intros p s u b Hu Hls Hb;
    cbn [match_loop].
  { exists (inr b). split; [done|]. by rewrite app_nil_r. }
  destruct (advance_spec (length (nodes m)) m p c s u HA Hu) as (t & v & -> & Ht & Hv).
  { pose proof (m_depth _ HA _ _ Hu). pose proof (m_len _ HA). unfold zlen in *. lia. }
  { apply lss_lext; [apply (m_prefix _ HA)|done]. }
  cbn [mbind option_bind]. destruct (at_is_Some (nodes m) t) as [n Hn].
  { rewrite (m_len _ HA). by eapply at_range. }
  rewrite Hn. cbn [mbind option_bind]. destruct (m_finished _ HA t n v Hn Ht) as [_ Hbest].
  assert (Hmin : minKeywordIndex b (bestKeyword n) = first_idx (hits (p ++ [c])) kws 0).
  { rewrite Hb, Hbest, first_idx_or by lia. apply first_idx_ext. intros kw Hkw.
    symmetry. by apply hits_snoc. }
  rewrite Hmin. replace (p ++ c :: text) with ((p ++ [c]) ++ text) by (by rewrite <- app_assoc).
  destruct (Z.eqb_spec (first_idx (hits (p ++ [c])) kws 0) 0) as [E|]; [|by eapply IH].
  rewrite (m_keywords _ HA). destruct (at_is_Some kws 0) as [kw Hkw].
  { destruct kws; [done|]. unfold zlen. cbn [length]. lia. }
  rewrite Hkw. cbn [mbind option_bind]. exists (inl kw). split; [done|]. split; [|done].
  eapply first_idx_zero; [|exact E]. intros k. unfold hits.
  rewrite !andb_true_iff, !occursb_spec. intros [? (q & r & ->)]. split; [done|].
  exists q, (r ++ text). by rewrite <- !app_assoc.
Qed.
End Links.

(** ** The linear scan *)

Lemma bytes_app s1 s2 : bytes (s1 +:+ s2) = bytes s1 ++ bytes s2.
Proof.
  induction s1 as [|a s1 IH]; [done|].
  change (a :: bytes (s1 +:+ s2) = a :: (bytes s1 ++ bytes s2)). by rewrite IH.
Qed.

Lemma bytes_string l : exists s, bytes s = l.
Proof. exists (String.string_of_list_ascii l). apply String.list_ascii_of_string_of_list_ascii. Qed.

Lemma bytes_inj s1 s2 : bytes s1 = bytes s2 -> s1 = s2.
Proof.
  intros Hb. rewrite <- (String.string_of_list_ascii_of_string s1),
    <- (String.string_of_list_ascii_of_string s2). unfold bytes in Hb. by rewrite Hb.
Qed.

Lemma HasPrefix_bytes s sub : HasPrefix s sub = true <-> exists r, bytes s = bytes sub ++ r.
Proof.
  rewrite HasPrefix_spec. split.
  - intros [r ->]. exists (bytes r). apply bytes_app.
  - intros [r Hr]. destruct (bytes_string r) as [t <-]. exists t. apply bytes_inj.
    by rewrite bytes_app.
Qed.

Lemma Contains_spec s sub : Contains s sub = true <-> occurs (bytes sub) (bytes s).
Proof.
  induction s as [|a s IH]; cbn [Contains]; rewrite orb_true_iff, HasPrefix_bytes.
  - split; [intros [[r Hr]|]; [by exists [], r|done]|].
    intros (q & r & Hq). left. exists r. by destruct q.
  - rewrite IH. split.
    + intros [[r Hr]|(q & r & Hq)]; [by exists [], r|]. exists (a :: q), r.
      change (a :: bytes s = a :: (q ++ bytes sub ++ r)). by rewrite Hq.
    + intros ([|b q] & r & Hq); [left; by exists r|right]. exists q, r. by injection Hq as _ Hq.
Qed.

(** The keyword of an index, if it is one. *)
Definition pick (kws : list string) (i : Z) : string * bool :=
  match at_ kws i with Some kw => (kw, true) | None => (""%string, false) end.

Lemma scan_spec lower kws :
  scan_keywords lower kws = pick kws (first_idx (hits (bytes lower)) kws 0).
Proof.
  assert (Hneg : forall k, k < 0 -> pick kws k = (""%string, false)).
  { intros k Hk. unfold pick, at_. by rewrite (proj2 (Z.ltb_lt _ _)). }
  cut (forall i, 0 <= i -> scan_keywords lower kws =
    if first_idx (hits (bytes lower)) kws i <? 0 then (""%string, false)
    else pick kws (first_idx (hits (bytes lower)) kws i - i)).
  { intros Hcut. rewrite (Hcut 0) by done. rewrite Z.sub_0_r. case_Z; [by rewrite Hneg|done]. }
  clear Hneg. induction kws as [|kw kws IH]; intros i Hi; [done|]. cbn [scan_keywords first_idx].
  assert (Hhit : hits (bytes lower) kw = negb (String.eqb kw "") && Contains lower (ToLower kw)).
  { unfold hits. f_equal. apply eq_true_iff_eq. by rewrite occursb_spec, Contains_spec. }
  assert (Hrest : scan_keywords lower kws =
    if first_idx (hits (bytes lower)) kws (i + 1) <? 0 then (""%string, false)
    else pick (kw :: kws) (first_idx (hits (bytes lower)) kws (i + 1) - i)).
  { rewrite (IH (i + 1)) by lia. case_Z; [done|]. unfold pick.
    destruct (first_idx_range (hits (bytes lower)) kws (i + 1)) as [?|Hr]; [lia|lia|].
    replace (at_ (kw :: kws) _) with (at_ kws (first_idx (hits (bytes lower)) kws (i + 1) - (i + 1)));
      [done|].
    unfold at_. rewrite !(proj2 (Z.ltb_ge _ _)) by lia.
    replace (Z.to_nat (_ - i)) with (S (Z.to_nat (first_idx (hits (bytes lower)) kws (i + 1) - (i + 1))))
      by lia. done. }
  rewrite Hhit. destruct (String.eqb kw ""); [exact Hrest|].
  destruct (Contains lower (ToLower kw)); cbn [negb andb]; [|exact Hrest].
  rewrite (proj2 (Z.ltb_ge _ _)) by lia. by rewrite Z.sub_diag.
Qed.

(** ** The matcher that is built *)

(** Building ends, without a panic, in no matcher or in an automaton for the
words of the keywords. *)
Lemma newMatcher_spec kws :
  fits kws ->
  exists m, newContentModerationKeywordMatcher kws = Some m /\
    match m with
    | Some m => exists ws, (forall kw, kw ∈ kws -> kw <> ""%string -> kw_bytes kw ∈ ws) /\
        Automaton kws ws m
    | None => True
    end.
Proof.
  intros Hfits. unfold newContentModerationKeywordMatcher.
  destruct kws as [|kw0 kws0] eqn:Ek; [by exists None|]. rewrite <- Ek in *. clear Ek kw0 kws0.
  destruct (build_trie_spec kws Hfits) as (ns & es & ws & -> & HTO). cbn [mbind option_bind].
  destruct (Z.eqb_spec (zlen ns) 1); [by exists None|].
  pose proof HTO as (HT & Hin & _). pose proof (t_root _ _ _ HT) as Hroot.
  destruct (word_at_node _ _ _ _ _ HT Hroot) as [rn Hrn]. rewrite Hrn. cbn [mbind option_bind].
  destruct (t_sibs _ _ _ HT 0 rn [] Hrn Hroot) as (l & -> & Hnl & Ht & Hall).
  cbn [mbind option_bind]. pose proof (conj Hroot (conj Hnl (conj Ht Hall)) : children ws 0 [] l) as Hc.
  destruct (root_edges_spec kws ws Hin l Hroot Hc) as (root & -> & Hgoes). cbn [mbind option_bind].
  pose proof (bfs_start kws es ws ns l HTO Hc) as HB.
  pose proof (t_len _ _ _ HT) as Hlen.
  destruct (link_nodes_spec kws es ws Hin (length ns) ns [] _ [] 1 HB) as (ns1 & Hlink & Hst & Hfin).
  { unfold zlen in Hlen. simpl. lia. }
  rewrite app_nil_r in Hlink. rewrite Hlink. cbn [mbind option_bind].
  assert (HT1 : Trie ns1 es ws) by (by eapply trie_static).
  destruct (flatten_spec kws es ws Hin ns1 HT1 Hfin) as (ns2 & out & -> & Hz & Hfin2 & Hflat).
  cbn [mbind option_bind]. eexists. split; [reflexivity|]. exists ws. split; [done|].
  constructor; cbn [keywords nodes edges rootTransitions]; try done.
  - rewrite Hz. by rewrite (t_len _ _ _ HT1).
  - apply (t_nodup _ _ _ HT).
  - apply (t_prefix _ _ _ HT).
  - intros t w Hw. by eapply word_length.
Qed.

Lemma match_scan kws ws m text :
  (forall kw, kw ∈ kws -> kw <> ""%string -> kw_bytes kw ∈ ws) -> Automaton kws ws m ->
  Match (Some m) text = Some (matchBlockedKeyword text kws).
Proof.
  intros Hin HA. unfold Match, matchBlockedKeyword.
  pose proof (m_root _ _ _ HA) as Hroot. pose proof (m_len _ _ _ HA) as Hlen.
  rewrite (m_keywords _ _ _ HA). pose proof (at_range _ _ _ Hroot).
  rewrite (proj2 (Z.eqb_neq (zlen (nodes m)) 0)), orb_false_r by lia.
  destruct (_ || _); [done|].
  destruct (match_loop_spec kws ws Hin m (bytes (ToLower text)) [] 0 [] (-1) HA Hroot)
    as (r & -> & Hr).
  { split_and!; [done|apply at_elem; by exists 0|]. by intros v ->%suffix_nil_inv. }
  { symmetry. apply first_idx_all. intros kw Hkw. unfold hits.
    destruct (String.eqb_spec kw "") as [|Hne]; [done|]. cbn [negb andb].
    apply not_true_iff_false. rewrite occursb_spec. intros (q & r & Hq).
    apply (kw_bytes_nonempty kw Hne). by destruct q, (kw_bytes kw). }
  cbn [mbind option_bind]. rewrite scan_spec. cbn [app] in Hr. destruct r as [kw|best].
  - destruct Hr as [-> Hkw]. unfold pick. by rewrite Hkw.
  - rewrite Hr. unfold pick.
    destruct (first_idx_range (hits (bytes (ToLower text))) kws 0) as [->|Hb]; [done|done|].
    rewrite (proj2 (Z.ltb_ge _ _)), (proj2 (Z.leb_gt _ _)) by lia. cbn [orb].
    destruct (at_is_Some kws _ Hb) as [kw ->]. done.
Qed.

Lemma snapshot_scan kws :
  fits kws -> exists s, newSnapshot kws = Some s /\
    forall text, snapshot_matchBlockedKeyword s text = Some (matchBlockedKeyword text kws).
Proof.
  intros Hfits. destruct (newMatcher_spec kws Hfits) as (m & Hm & Hspec).
  unfold newSnapshot. rewrite Hm. cbn [mbind option_bind]. eexists. split; [reflexivity|].
  intros text. unfold snapshot_matchBlockedKeyword. cbn [keywordMatcher BlockedKeywords].
  destruct m as [m|]; [|done]. destruct Hspec as (ws & Hin & HA). by eapply match_scan.
Qed.

Lemma scan_result lower kws :
  (exists kw, scan_keywords lower kws = (kw, true) /\ kw ∈ kws /\ kw <> ""%string /\
     Contains lower (ToLower kw) = true) \/
  scan_keywords lower kws = (""%string, false) /\
    forall kw, kw ∈ kws -> kw <> ""%string -> Contains lower (ToLower kw) = false.
Proof.
  induction kws as [|k kws IH]; cbn [scan_keywords].
  { right. split; [done|]. by intros ? ?%not_elem_of_nil. }
  destruct (String.eqb_spec k "") as [|Hne]; [|destruct (Contains lower (ToLower k)) eqn:E].
  2: { left. exists k. split_and!; [done|by left|done..]. }
  all: destruct IH as [(kw & ? & ? & ? & ?)|[? Hno]]; [left; exists kw; split_and!; [done|by right|done..]|].
  all: right; split; [done|]; intros kw [->|Hkw]%elem_of_cons ?; [done|by apply Hno].
Qed.

(** C18. The automaton is the linear scan: for every list of keywords (whose
bytes and number fit the 32-bit indices of the automaton) building the
snapshot succeeds, and for every text the automaton, if there is one, finds
exactly what trying the keywords one by one finds, without a panic and without
looping. *)
Theorem matcher_agrees_with_scan kws text :
  fits kws ->
  exists s, newSnapshot kws = Some s /\
    snapshot_matchBlockedKeyword s text = Some (matchBlockedKeyword text kws).
Proof. intros (s & Hs & Ht)%snapshot_scan. by exists s. Qed.

(** C23. A text is blocked exactly when one of the keywords that are not empty
occurs in it, letter case aside, and the keyword reported is one of those. *)
Theorem blocked_iff_keyword_occurs kws text s :
  fits kws -> newSnapshot kws = Some s -> text <> ""%string ->
  (exists kw, snapshot_matchBlockedKeyword s text = Some (kw, true) /\ kw ∈ kws /\
     kw <> ""%string /\ Contains (ToLower text) (ToLower kw) = true) \/
  snapshot_matchBlockedKeyword s text = Some (""%string, false) /\
    forall kw, kw ∈ kws -> kw <> ""%string -> Contains (ToLower text) (ToLower kw) = false.
Proof.
  intros (s' & Hs' & Ht)%snapshot_scan Hs Htext. rewrite Hs in Hs'. injection Hs' as <-.
  rewrite Ht. unfold matchBlockedKeyword. rewrite (proj2 (String.eqb_neq _ _)) by done.
  destruct (Z.eqb_spec (zlen kws) 0) as [Hz|]; cbn [orb].
  { right. split; [done|]. intros kw [k Hk]%at_elem. apply at_range in Hk. lia. }
  destruct (scan_result (ToLower text) kws) as [(kw & -> & ? & ? & ?)|[-> ?]];
    [left; by exists kw|by right].
Qed.
End Spec.

(** ** Witnesses *)

Definition ex_keywords : list string := ["his"; "She"; "he"; "hers"; ""]%string.

Lemma ex_fits : fits ex_keywords.
Proof. by vm_compute. Qed.

Lemma matcher_agrees_with_scan_witness :
  exists s, newSnapshot ex_keywords = Some s /\
    snapshot_matchBlockedKeyword s "uSHErs" = Some ("She"%string, true).
Proof.
  destruct (matcher_agrees_with_scan ex_keywords "uSHErs" ex_fits) as (s & Hs & Ht).
  exists s. split; [exact Hs|]. etransitivity; [exact Ht|]. vm_compute. reflexivity.
Defined.

Lemma blocked_iff_keyword_occurs_witness :
  exists s, newSnapshot ["a"%string] = Some s /\
    snapshot_matchBlockedKeyword s "xyz" = Some (""%string, false).
Proof.
  destruct (newSnapshot ["a"%string]) as [s|] eqn:E; [|by vm_compute in E].
  exists s. split; [reflexivity|].
  destruct (blocked_iff_keyword_occurs ["a"%string] "xyz" s ltac:(by vm_compute) E ltac:(done))
    as [(kw & _ & Hkw & _ & Hc)|[H _]]; [|exact H].
  apply list_elem_of_singleton in Hkw. subst kw. by vm_compute in Hc.
Defined.
