(* ===== verification/SpreadSchedule.v ===== *)
(** * Spread scheduling of periodic tasks

[service/spread_schedule.go]: the settings, the window runner that goes through
the accounts one by one with random gaps, and the trigger loop that opens a
window at each of the configured hours.  The clock moves while the code waits
and while it runs an account's task, not in between; the location of the
process is a function from instants to their offset from UTC, with daylight
saving time or without; random draws, the stop channel and the context are
inputs. *)
From S2P Require Import Prelude GoTime.
From Stdlib Require Import Bool.

Local Open Scope Z_scope.

Definition spreadDefaultWindow : Duration := 12 * Hour.
Definition spreadDefaultAccountGapMin : Duration := 3 * Minute.
Definition spreadDefaultAccountGapMax : Duration := 8 * Minute.
Definition spreadStartJitterMax : Duration := 90 * Second.
Definition spreadFireGapMargin : Duration := 5 * Minute.

(** ** Settings *)

Record spreadSettings : Type := mkSettings {
  Window : Duration;
  GapMin : Duration;
  GapMax : Duration
}.

Record spreadTuning : Type := mkTuning {
  WindowSeconds : Z;
  GapMinSeconds : Z;
  GapMaxSeconds : Z
}.

Definition normalizeSpreadSettings (t : spreadTuning) : spreadSettings :=
  let window := if 0 <? WindowSeconds t then WindowSeconds t *! Second else spreadDefaultWindow in
  let gapMin := if 0 <? GapMinSeconds t then GapMinSeconds t *! Second
                else spreadDefaultAccountGapMin in
  let gapMax := if 0 <? GapMaxSeconds t then GapMaxSeconds t *! Second
                else spreadDefaultAccountGapMax in
  let gapMax := if gapMax <? gapMin then gapMin else gapMax in
  let window := if window <=? 0 then spreadDefaultWindow else window in
  mkSettings window gapMin gapMax.

(** The keys of one platform in the gateway configuration. *)
Record PlatformSpread : Type := mkPlatformSpread {
  SpreadWindowSeconds : Z;
  AccountGapMinSeconds : Z;
  AccountGapMaxSeconds : Z
}.

Record Config : Type := mkConfig {
  Workbuddy : PlatformSpread;
  Trae : PlatformSpread;
  Qoder : PlatformSpread
}.

Definition tuning_of (p : PlatformSpread) : spreadTuning :=
  mkTuning (SpreadWindowSeconds p) (AccountGapMinSeconds p) (AccountGapMaxSeconds p).

Definition workbuddySpreadSettingsFrom (cfg : option Config) : spreadSettings :=
  match cfg with
  | None => normalizeSpreadSettings (mkTuning 0 0 0)
  | Some c => normalizeSpreadSettings (tuning_of (Workbuddy c))
  end.

Definition traeSpreadSettingsFrom (cfg : option Config) : spreadSettings :=
  match cfg with
  | None => normalizeSpreadSettings (mkTuning 0 0 0)
  | Some c => normalizeSpreadSettings (tuning_of (Trae c))
  end.

Definition qoderSpreadSettingsFrom (cfg : option Config) : spreadSettings :=
  match cfg with
  | None => normalizeSpreadSettings (mkTuning 0 0 0)
  | Some c => normalizeSpreadSettings (tuning_of (Qoder c))
  end.

(** [rand.Int63n]: [Int63n k n] is the [k]-th draw below [n]. *)
Definition Draws : Type := nat -> Z -> Z.

Definition spreadGapFn (Int63n : Draws) (k : nat) (s : spreadSettings) : Duration :=
  if GapMax s <=? GapMin s then GapMin s else GapMin s + Int63n k (GapMax s - GapMin s).

Definition spreadStartJitterFn (Int63n : Draws) (k : nat) : Duration :=
  Int63n k spreadStartJitterMax.

(** ** The window runner *)

Inductive spreadRunOutcome : Type := spreadRunOK | spreadRunFail | spreadRunSkipped.

Record spreadStats : Type := mkStats {
  Candidates : Z;
  Already : Z;
  Attempted : Z;
  OK : Z;
  Fail : Z;
  Skipped : Z;
  Remaining : Z
}.

Definition add_skipped (s : spreadStats) : spreadStats :=
  mkStats (Candidates s) (Already s) (Attempted s) (OK s) (Fail s) (Skipped s + 1) (Remaining s).
Definition add_already (s : spreadStats) : spreadStats :=
  mkStats (Candidates s) (Already s + 1) (Attempted s) (OK s) (Fail s) (Skipped s) (Remaining s).
Definition set_remaining (s : spreadStats) (r : Z) : spreadStats :=
  mkStats (Candidates s) (Already s) (Attempted s) (OK s) (Fail s) (Skipped s) r.
Definition add_outcome (s : spreadStats) (o : spreadRunOutcome) : spreadStats :=
  match o with
  | spreadRunOK => mkStats (Candidates s) (Already s) (Attempted s + 1) (OK s + 1) (Fail s)
      (Skipped s) (Remaining s)
  | spreadRunFail => mkStats (Candidates s) (Already s) (Attempted s + 1) (OK s) (Fail s + 1)
      (Skipped s) (Remaining s)
  | spreadRunSkipped => mkStats (Candidates s) (Already s) (Attempted s + 1) (OK s) (Fail s)
      (Skipped s + 1) (Remaining s)
  end.

Record spreadRunner : Type := mkRunner {
  window : Duration;
  gapMin : Duration;
  gapMax : Duration
}.

(** What the process and the context do: the instants from which the stop
channel is closed and the context is done, if ever, and who wins when a timer
fires at that very instant. *)
Record World : Type := mkWorld {
  stopAt : option Time;
  doneAt : option Time;
  timerFirst : Time -> bool
}.

Definition reached (o : option Time) (t : Time) : bool :=
  match o with Some x => x <=? t | None => false end.

Definition spreadDone (w : World) (now : Time) : bool := reached (stopAt w) now.
Definition ctxDone (w : World) (now : Time) : bool := reached (doneAt w) now.

(** The instant a wait of [d] from [now] is interrupted, if it is. *)
Definition interrupted_at (w : World) (o : option Time) (now fire : Time) : option Time :=
  match o with
  | Some x =>
      if (x <? fire) || ((x =? fire) && negb (timerFirst w fire)) then Some (Z.max x now) else None
  | None => None
  end.

(** The result, and the clock when it is returned. *)
Definition spreadWait (w : World) (now : Time) (d : Duration) : bool * Time :=
  if d <=? 0 then (true, now)
  else
    let fire := Add now d in
    match interrupted_at w (stopAt w) now fire, interrupted_at w (doneAt w) now fire with
    | None, None => (true, fire)
    | Some x, None | None, Some x => (false, x)
    | Some x, Some y => (false, Z.min x y)
    end.

Section Run.
Context {Account : Type}.

(** One execution of an account's task: its start and its end. *)
Record Call : Type := mkCall {
  c_account : Account;
  c_start : Time;
  c_end : Time
}.

Record RunState : Type := mkRun {
  r_now : Time;
  r_executed : Z;
  r_draws : nat;
  r_stats : spreadStats;
  r_calls : list Call
}.

Context (w : World) (Int63n : Draws).
Context (skip : option (Account -> bool)).
(** The outcome of a task started at an instant, and how long it takes. *)
Context (exec : Account -> Time -> spreadRunOutcome * Duration).

Definition skips (a : Account) : bool :=
  match skip with Some f => f a | None => false end.

(** [executed++] and what follows it. *)
Definition run_account (a : Account) (st : RunState) : RunState :=
  let '(o, d) := exec a (r_now st) in
  mkRun (Add (r_now st) d) (r_executed st + 1) (r_draws st) (add_outcome (r_stats st) o)
    (r_calls st ++ [mkCall a (r_now st) (Add (r_now st) d)]).

(** The loop over the accounts ([None] is a nil pointer); [left] accounts
remain, the current one included. *)
Fixpoint run_accounts (settings : spreadSettings) (deadline : Time) (accounts : list (option Account))
    (st : RunState) : RunState :=
  match accounts with
  | [] => st
  | None :: rest =>
      run_accounts settings deadline rest
        (mkRun (r_now st) (r_executed st) (r_draws st) (add_skipped (r_stats st)) (r_calls st))
  | Some a :: rest =>
      let stop :=
        mkRun (r_now st) (r_executed st) (r_draws st)
          (set_remaining (r_stats st) (Z.of_nat (length accounts))) (r_calls st) in
      if spreadDone w (r_now st) || ctxDone w (r_now st) then stop
      else if After (r_now st) deadline then stop
      else if skips a then
        run_accounts settings deadline rest
          (mkRun (r_now st) (r_executed st) (r_draws st) (add_already (r_stats st)) (r_calls st))
      else if 0 <? r_executed st then
        let gap := spreadGapFn Int63n (r_draws st) settings in
        let remaining := Sub deadline (r_now st) in
        let gap := if remaining <? gap then remaining else gap in
        let '(ok, now) := if 0 <? gap then spreadWait w (r_now st) gap else (true, r_now st) in
        let st' := mkRun now (r_executed st) (S (r_draws st)) (r_stats st) (r_calls st) in
        if ok then run_accounts settings deadline rest (run_account a st')
        else
          mkRun now (r_executed st) (S (r_draws st))
            (set_remaining (r_stats st) (Z.of_nat (length accounts))) (r_calls st)
      else run_accounts settings deadline rest (run_account a st)
  end.

(** The settings of a run: the window and gaps of the runner, repaired. *)
Definition run_settings (r : spreadRunner) : spreadSettings :=
  let win := if window r <=? 0 then spreadDefaultWindow else window r in
  let lo := if gapMin r <=? 0 then spreadDefaultAccountGapMin else gapMin r in
  let hi := if gapMax r <? lo then lo else gapMax r in
  mkSettings win lo hi.

(** [run], started at [now]: the statistics, the calls, and the clock. *)
Definition run (r : spreadRunner) (accounts : list (option Account)) (now : Time) : RunState :=
  let n := Z.of_nat (length accounts) in
  let stats := mkStats n 0 0 0 0 0 0 in
  match accounts with
  | [] => mkRun now 0 0 stats []
  | _ =>
      let settings := run_settings r in
      let jitter := spreadStartJitterFn Int63n 0 in
      let jitter := if (0 <? jitter) && (Z.quot (Window settings) 2 <? jitter)
                    then Z.quot (Window settings) 2 else jitter in
      let '(ok, now) := if 0 <? jitter then spreadWait w now jitter else (true, now) in
      if negb ok then mkRun now 0 1 (set_remaining stats n) []
      else
        run_accounts settings (Add now (Window settings - jitter)) accounts
          (mkRun now 0 1 stats [])
  end.
End Run.
Arguments Call : clear implicits.
Arguments RunState : clear implicits.

(** ** The window and the trigger hours *)

Definition valid_hour (h : Z) : bool := (0 <=? h) && (h <=? 23).

Definition single_window (window : Duration) : Duration :=
  let gap := 24 * Hour in
  if gap - spreadFireGapMargin <? window then gap - spreadFireGapMargin else window.

(** The smallest distance between neighbours, starting from [gap]. *)
Fixpoint min_gap (gap : Duration) (sorted : list Z) : Duration :=
  match sorted with
  | a :: ((b :: _) as rest) =>
      let d := (b - a) * Hour in min_gap (if d <? gap then d else gap) rest
  | _ => gap
  end.

Definition spreadEffectiveWindow (window : Duration) (hours : list Z) : Duration :=
  let window := if window <=? 0 then spreadDefaultWindow else window in
  if (length hours <? 2)%nat then single_window window
  else
    let sorted := List.filter valid_hour hours in
    if (length sorted <? 2)%nat then single_window window
    else
      let sorted := merge_sort Z.le sorted in
      let gap := min_gap ((hd 0 sorted + 24 - List.last sorted 0) * Hour) sorted in
      let limit := gap - spreadFireGapMargin in
      let limit := if limit <=? 0 then Z.quot gap 2 else limit in
      let limit := if limit <=? 0 then Minute else limit in
      if limit <? window then limit else window.

Section Triggers.
(** [now.Location()]: the nanoseconds east of UTC in effect at an instant. *)
Context (loc : Time -> Duration).

(** How [time.Date] reads a wall clock in the location: [wall] is that clock
taken for UTC.  The offset at [wall] is tried, and the one at the instant it
leads to is the one that counts. *)
Definition in_location (wall : Time) : Time := wall - loc (wall - loc wall).

Definition fire_at (now : Time) (h : Z) : Time :=
  let '(y, m, d) := Date_of (now + loc now) in
  let t := in_location (Date y m d + h * Hour) in
  if negb (After t now) then Add t (24 * Hour) else t.

Definition nextSpreadFire (now : Time) (hours : list Z) : Time :=
  foldl (fun earliest h =>
    if (h <? 0) || (23 <? h) then earliest
    else
      let t := fire_at now h in
      if IsZero earliest || Before t earliest then t else earliest) zeroTime hours.

(** One turn of the trigger loop: the trigger served and when its window
opens; [None] when there is no trigger or the wait is interrupted. *)
Definition trigger_step (w : World) (hours : list Z) (served clock : Time) :
    option (Time * Time) :=
  let next := if IsZero served then nextSpreadFire clock hours else nextSpreadFire served hours in
  if IsZero next then None
  else
    let wait := Sub next clock in
    if 0 <? wait then
      let '(ok, now) := spreadWait (mkWorld (stopAt w) None (timerFirst w)) clock wait in
      if ok then Some (next, now) else None
    else Some (next, clock).

(** The windows opened, each with its trigger and its start; [run] tells how
long the window opened at an instant keeps the loop, [fuel] bounds the turns. *)
Fixpoint spreadTriggerLoop (fuel : nat) (w : World) (hours : list Z) (run : Time -> Duration)
    (served clock : Time) : list (Time * Time) :=
  match fuel with
  | O => []
  | S fuel' =>
      match hours with
      | [] => []
      | _ =>
          match trigger_step w hours served clock with
          | None => []
          | Some (next, start) =>
              let clock := Add start (run start) in
              (next, start) ::
              (if spreadDone w clock then [] else spreadTriggerLoop fuel' w hours run next clock)
          end
      end
  end.
End Triggers.

(** ** The runner *)

Section RunLemmas.
Context {Account : Type} (w : World) (Int63n : Draws) (skip : option (Account -> bool)).
Context (exec : Account -> Time -> spreadRunOutcome * Duration).
Implicit Types (st : RunState Account) (accounts : list (option Account)).

(** What [math/rand] documents: a draw below [n] is below [n]. *)
Definition draws_ok : Prop := forall k n, 0 < n -> 0 <= Int63n k n < n.

Lemma spreadGapFn_bounds k s :
  draws_ok -> GapMin s <= GapMax s -> GapMin s <= spreadGapFn Int63n k s <= GapMax s.
Proof.
  intros Hd Hs. unfold spreadGapFn. destruct (Z.leb_spec (GapMax s) (GapMin s)); [lia|].
  specialize (Hd k (GapMax s - GapMin s)). lia.
Qed.

Lemma spreadWait_true now d t : spreadWait w now d = (true, t) -> t = now + Z.max 0 d.
Proof.
  unfold spreadWait, Add. destruct (Z.leb_spec d 0); [intros [= <-]; lia|].
  destruct (interrupted_at _ (stopAt w) _ _), (interrupted_at _ (doneAt w) _ _);
    intros Hw; try discriminate. injection Hw as <-. lia.
Qed.

(** The accounts of a list that are still to be accounted for, and the counts. *)
Definition counted (s : spreadStats) : Z := Already s + OK s + Fail s + Skipped s + Remaining s.

Definition counts_ok (s : spreadStats) : Prop :=
  0 <= Already s /\ 0 <= Attempted s /\ 0 <= OK s /\ 0 <= Fail s /\ 0 <= Skipped s /\ 0 <= Remaining s.

Lemma run_account_stats a st :
  let st' := run_account exec a st in
  counted (r_stats st') = counted (r_stats st) + 1 /\
  Remaining (r_stats st') = Remaining (r_stats st) /\
  Attempted (r_stats st') = Attempted (r_stats st) + 1 /\
  Candidates (r_stats st') = Candidates (r_stats st) /\
  length (r_calls st') = S (length (r_calls st)) /\
  (counts_ok (r_stats st) -> counts_ok (r_stats st')).
Proof.
  unfold run_account, counted, counts_ok. destruct (exec a (r_now st)) as [[] d]; simpl;
    rewrite length_app; simpl; repeat split; lia.
Qed.

Lemma run_accounts_counts settings deadline accounts st :
  Remaining (r_stats st) = 0 -> counts_ok (r_stats st) ->
  Attempted (r_stats st) = Z.of_nat (length (r_calls st)) ->
  let res := run_accounts w Int63n skip exec settings deadline accounts st in
  counted (r_stats res) = counted (r_stats st) + Z.of_nat (length accounts) /\
  counts_ok (r_stats res) /\ Candidates (r_stats res) = Candidates (r_stats st) /\
  Attempted (r_stats res) = Z.of_nat (length (r_calls res)).
Proof.
  revert st. induction accounts as [|o accounts IH]; intros st HR Hok Hatt; cbn [run_accounts].
  { cbn [length]. split_and!; [lia|done..]. }
  assert (Hexec : forall a st', r_stats st' = r_stats st -> r_calls st' = r_calls st ->
    let res := run_accounts w Int63n skip exec settings deadline accounts (run_account exec a st') in
    counted (r_stats res) = counted (r_stats st) + Z.of_nat (S (length accounts)) /\
    counts_ok (r_stats res) /\ Candidates (r_stats res) = Candidates (r_stats st) /\
    Attempted (r_stats res) = Z.of_nat (length (r_calls res))).
  { intros a st' Hs Hc. destruct (run_account_stats a st') as (H1 & H2 & H3 & H4 & H5 & H6).
    rewrite Hs, Hc in *. destruct (IH (run_account exec a st')) as (? & ? & ? & ?);
      [lia|auto|lia|]. split_and!; [lia|done|congruence|done]. }
  assert (Hmore : forall st', r_calls st' = r_calls st ->
    (r_stats st' = add_skipped (r_stats st) \/ r_stats st' = add_already (r_stats st)) ->
    let res := run_accounts w Int63n skip exec settings deadline accounts st' in
    counted (r_stats res) = counted (r_stats st) + Z.of_nat (S (length accounts)) /\
    counts_ok (r_stats res) /\ Candidates (r_stats res) = Candidates (r_stats st) /\
    Attempted (r_stats res) = Z.of_nat (length (r_calls res))).
  { intros st' Hc Hs. unfold counts_ok in Hok.
    destruct (IH st') as (H1 & H2 & H3 & H4); [destruct Hs as [->| ->]; simpl; [done..]| |
      rewrite Hc; destruct Hs as [->| ->]; simpl; lia|].
    - unfold counts_ok. destruct Hs as [->| ->]; simpl; lia.
    - split_and!; [rewrite H1|done|rewrite H3|done]; destruct Hs as [->| ->];
        unfold counted; simpl; lia || done. }
  assert (Hstop : forall now k d,
    let res := mkRun now k d (set_remaining (r_stats st) (Z.of_nat (S (length accounts)))) (r_calls st) in
    counted (r_stats res) = counted (r_stats st) + Z.of_nat (S (length accounts)) /\
    counts_ok (r_stats res) /\ Candidates (r_stats res) = Candidates (r_stats st) /\
    Attempted (r_stats res) = Z.of_nat (length (r_calls res))).
  { intros. unfold counted, counts_ok in *. simpl. split_and!; lia || done. }
  cbn [length]. destruct o as [a|]; [|apply Hmore; [done|by left]].
  destruct (_ || _); [apply Hstop|]. destruct (After _ _); [apply Hstop|].
  destruct (skips skip a); [apply Hmore; [done|by right]|].
  destruct (0 <? r_executed st); [|by apply Hexec].
  destruct (if 0 <? _ then _ else _) as [ok now]. destruct ok; [by apply Hexec|apply Hstop].
Qed.

(** Two consecutive calls are the gap apart, or the second is at the deadline. *)
Fixpoint spaced (deadline : Time) (gap : Duration) (calls : list (Call Account)) : Prop :=
  match calls with
  | c1 :: ((c2 :: _) as rest) =>
      (c_end c1 + gap <= c_start c2 \/ c_start c2 = deadline) /\ spaced deadline gap rest
  | _ => True
  end.

Lemma spaced_snoc deadline gap calls c :
  spaced deadline gap calls ->
  (forall c1, last calls = Some c1 -> c_end c1 + gap <= c_start c \/ c_start c = deadline) ->
  spaced deadline gap (calls ++ [c]).
Proof.
  induction calls as [|c1 [|c2 calls] IH]; intros Hs Hl; [done| |].
  - split; [by apply Hl|done].
  - destruct Hs as [? ?]. split; [done|]. by apply IH.
Qed.

(** The calls are well spaced, within the window, and of accounts to be served. *)
Definition calls_ok (settings : spreadSettings) (start deadline : Time) (calls : list (Call Account)) :
    Prop :=
  spaced deadline (GapMin settings) calls /\
  Forall (fun c => start <= c_start c <= deadline /\ c_start c <= c_end c) calls /\
  Forall (fun c => skips skip (c_account c) = false) calls.

Context (Hdraws : draws_ok) (Hexec : forall a t, 0 <= (exec a t).2).

(** Between two accounts the clock is at the end of the last call. *)
Definition loop_ok (settings : spreadSettings) (start deadline : Time) st : Prop :=
  calls_ok settings start deadline (r_calls st) /\
  (forall c, last (r_calls st) = Some c -> c_end c = r_now st) /\
  r_executed st = Z.of_nat (length (r_calls st)) /\ start <= r_now st.

Lemma run_account_ok settings start deadline a st now k :
  loop_ok settings start deadline st -> skips skip a = false -> r_now st <= now <= deadline ->
  r_calls st = [] \/ r_now st + GapMin settings <= now \/ now = deadline ->
  loop_ok settings start deadline
    (run_account exec a (mkRun now (r_executed st) k (r_stats st) (r_calls st))).
Proof.
  intros ((Hs & Hw & Hk) & Hl & He & Hn) Hskip Hnow Hgap. unfold run_account. cbn [r_now].
  specialize (Hexec a now). destruct (exec a now) as [o d]. cbn [snd] in Hexec.
  unfold loop_ok, calls_ok, Add. cbn [r_calls r_now r_executed].
  split_and!.
  - apply spaced_snoc; [done|]. intros c1 Hc1. cbn [c_start]. rewrite (Hl c1 Hc1).
    destruct Hgap as [E|Hgap]; [by rewrite E in Hc1|]. lia.
  - apply Forall_app. split; [done|]. constructor; [|done]. cbn [c_start c_end]. lia.
  - apply Forall_app. split; [done|]. by constructor.
  - intros c. rewrite last_snoc. by intros [= <-].
  - rewrite length_app. simpl. lia.
  - lia.
Qed.

(** The wait before an account ends a gap later, or at the deadline. *)
Lemma clipped_wait settings deadline st now gap :
  GapMin settings <= GapMax settings <= two63 - 1 -> r_now st <= deadline ->
  gap = spreadGapFn Int63n (r_draws st) settings ->
  (let remaining := Sub deadline (r_now st) in
   let gap := if remaining <? gap then remaining else gap in
   if 0 <? gap then spreadWait w (r_now st) gap else (true, r_now st)) = (true, now) ->
  0 <= GapMin settings ->
  r_now st <= now <= deadline /\ (r_now st + GapMin settings <= now \/ now = deadline).
Proof.
  intros Hset Hd -> Hw H0.
  pose proof (spreadGapFn_bounds (r_draws st) settings Hdraws ltac:(lia)) as Hg. cbv zeta in Hw.
  set (gap := spreadGapFn _ _ _) in *. unfold Sub in Hw.
  destruct (Z.ltb_spec (Z.max (- two63) (Z.min (two63 - 1) (deadline - r_now st))) gap);
    case_Z_in Hw;
    first [apply spreadWait_true in Hw | injection Hw as Hw]; subst now; unfold two63 in *; lia.
Qed.

Lemma run_accounts_ok settings start deadline accounts st :
  0 <= GapMin settings <= GapMax settings -> GapMax settings <= two63 - 1 ->
  loop_ok settings start deadline st ->
  exists calls, r_calls (run_accounts w Int63n skip exec settings deadline accounts st) =
      r_calls st ++ calls /\ c_account <$> calls `sublist_of` omap id accounts /\
    calls_ok settings start deadline (r_calls st ++ calls).
Proof.
  intros Hset Hmax. revert st. induction accounts as [|o accounts IH]; intros st Hok;
    cbn [run_accounts].
  { exists []. rewrite app_nil_r. split_and!; [done..|apply Hok]. }
  assert (Hstop : exists calls, r_calls st = r_calls st ++ calls /\
    c_account <$> calls `sublist_of` omap id (o :: accounts) /\
    calls_ok settings start deadline (r_calls st ++ calls)).
  { exists []. rewrite app_nil_r. split_and!; [done|apply sublist_nil_l|apply Hok]. }
  assert (Hskip : forall st', r_now st' = r_now st -> r_executed st' = r_executed st ->
    r_calls st' = r_calls st ->
    exists calls, r_calls (run_accounts w Int63n skip exec settings deadline accounts st') =
      r_calls st ++ calls /\ c_account <$> calls `sublist_of` omap id (o :: accounts) /\
    calls_ok settings start deadline (r_calls st ++ calls)).
  { intros st' H1 H2 H3. destruct (IH st') as (calls & Hc & Hsub & Hcalls).
    - unfold loop_ok. by rewrite H1, H2, H3.
    - rewrite H3 in *. exists calls. split_and!; [done| |done].
      destruct o; simpl; [by constructor|done]. }
  destruct o as [a|]; [|by apply Hskip].
  destruct (_ || _); [done|]. unfold After. destruct (Z.ltb_spec deadline (r_now st)); [done|].
  destruct (skips skip a) eqn:Hsk; [by apply Hskip|].
  assert (Hrun : forall now k, r_now st <= now <= deadline ->
    r_calls st = [] \/ r_now st + GapMin settings <= now \/ now = deadline ->
    exists calls, r_calls (run_accounts w Int63n skip exec settings deadline accounts
        (run_account exec a (mkRun now (r_executed st) k (r_stats st) (r_calls st)))) =
      r_calls st ++ calls /\ c_account <$> calls `sublist_of` omap id (Some a :: accounts) /\
    calls_ok settings start deadline (r_calls st ++ calls)).
  { intros now k Hn Hg.
    destruct (IH _ (run_account_ok _ _ _ a st now k Hok Hsk Hn Hg)) as (calls & Hc & Hsub & Hcalls).
    revert Hc Hcalls. unfold run_account. cbn [r_now r_calls].
    destruct (exec a now) as [oc d]. cbn [r_calls]. intros Hc Hcalls.
    exists (mkCall a now (Add now d) :: calls). rewrite Hc, <- app_assoc in *. cbn [app] in *.
    split_and!; [done|simpl; by constructor|done]. }
  destruct Hok as (Hcalls & Hl & He & Hn).
  destruct (Z.ltb_spec 0 (r_executed st)).
  - destruct (if 0 <? _ then _ else _) as [ok now] eqn:E. destruct ok; [|done].
    destruct (clipped_wait settings deadline st now _ ltac:(lia) ltac:(lia) eq_refl E ltac:(lia)).
    apply Hrun; [done|by right].
  - destruct st as [now ex dr sts cs]. cbn [r_now r_executed r_draws r_stats r_calls] in *.
    apply Hrun; [lia|]. left. destruct cs; [done|]. simpl in *. lia.
Qed.
End RunLemmas.

Lemma run_settings_ok r :
  in_i64 (window r) -> in_i64 (gapMin r) -> in_i64 (gapMax r) ->
  let s := run_settings r in
  0 < Window s <= two63 - 1 /\ 0 < GapMin s <= GapMax s /\ GapMax s <= two63 - 1.
Proof.
  unfold run_settings. cbn [Window GapMin GapMax]. intros Hw Hl Hh.
  assert (0 < spreadDefaultWindow < two63 - 1) by done.
  assert (0 < spreadDefaultAccountGapMin < two63 - 1) by done.
  unfold in_i64 in *. destruct (Z.leb_spec (window r) 0), (Z.leb_spec (gapMin r) 0); case_Z; lia.
Qed.

(** ** Trigger points *)

(** A location whose offset does not change any more: from two days before
[from] on it is [off]. *)
Definition settled (loc : Time -> Duration) (off : Duration) (from : Time) : Prop :=
  - Day <= off <= Day /\ forall t, from - 2 * Day <= t -> loc t = off.

Lemma settled_later loc off from t : settled loc off from -> from <= t -> settled loc off t.
Proof. intros [Ho Hl] Hle. split; [done|]. intros u Hu. apply Hl. lia. Qed.

Lemma settled_fixed off from : - Day <= off <= Day -> settled (fun _ => off) off from.
Proof. by split. Qed.

Lemma fire_at_spec loc off now h :
  settled loc off now -> valid_hour h = true ->
  fire_at loc now h =
    let t := day_of (now + off) * Day + h * Hour - off in if t <=? now then t + Day else t.
Proof.
  intros [Hoff Hloc] Hv. unfold fire_at. pose proof (Date_of_day (now + off)) as Hd.
  pose proof (day_of_bounds (now + off)) as Hb.
  unfold valid_hour in Hv. apply andb_true_iff in Hv as [H0 H23]. apply Z.leb_le in H0, H23.
  rewrite (Hloc now) by (unfold Day; lia).
  destruct (Date_of (now + off)) as [[y m] d]. rewrite Hd. cbv zeta. unfold in_location, After, Add.
  rewrite (Hloc (_ + h * Hour)) by (unfold Hour, Day in *; lia).
  rewrite Hloc by (unfold Hour, Day in *; lia).
  rewrite Z.leb_antisym. change (24 * Hour) with Day. reflexivity.
Qed.

(** The instants at which a window is due. *)
Definition is_trigger (off : Duration) (hours : list Z) (t : Time) : Prop :=
  exists d h, h ∈ hours /\ valid_hour h = true /\ t = d * Day + h * Hour - off.

Lemma fire_at_first loc off now h :
  settled loc off now -> valid_hour h = true ->
  is_trigger off [h] (fire_at loc now h) /\ now < fire_at loc now h /\
  forall t, is_trigger off [h] t -> now < t -> fire_at loc now h <= t.
Proof.
  intros Hset Hv. rewrite (fire_at_spec _ off) by done. cbv zeta. set (d := day_of (now + off)).
  pose proof (day_of_bounds (now + off)) as Hb. fold d in Hb.
  unfold valid_hour in Hv. apply andb_true_iff in Hv as [H0 H23].
  apply Z.leb_le in H0, H23. unfold Day, Hour in *.
  assert (Hlow : forall t, is_trigger off [h] t -> exists e, t = e * 86400000000000 + h * 3600000000000 - off).
  { intros t (e & h' & ->%list_elem_of_singleton & _ & ->). by exists e. }
  clear Hset. assert (Hv : valid_hour h = true) by (unfold valid_hour; lia).
  destruct (Z.leb_spec (d * 86400000000000 + h * 3600000000000 - off) now).
  - split_and!; [|lia|].
    + exists (d + 1), h. split_and!; [by left|done|unfold Day, Hour; lia].
    + intros t [e ->]%Hlow Hlt. nia.
  - split_and!; [|lia|].
    + exists d, h. split_and!; [by left|done|done].
    + intros t [e ->]%Hlow Hlt. nia.
Qed.

Lemma is_trigger_single off hours t :
  is_trigger off hours t <-> exists h, h ∈ hours /\ valid_hour h = true /\ is_trigger off [h] t.
Proof.
  split.
  - intros (d & h & Hh & Hv & ->). exists h. split_and!; [done..|].
    exists d, h. split_and!; [by left|done..].
  - intros (h & Hh & Hv & d & h' & ->%list_elem_of_singleton & _ & ->). by exists d, h.
Qed.

(** The next trigger: nothing is due before it. *)
Definition first_after (off : Duration) (hours : list Z) (now t : Time) : Prop :=
  is_trigger off hours t /\ now < t /\ forall x, is_trigger off hours x -> now < x -> t <= x.

Lemma nextSpreadFire_first loc off now hours :
  settled loc off now -> 0 <= now ->
  if existsb valid_hour hours then first_after off hours now (nextSpreadFire loc now hours)
  else nextSpreadFire loc now hours = 0.
Proof.
  intros Hset Hnow. unfold nextSpreadFire.
  cut (forall pre e, (if existsb valid_hour pre then first_after off pre now e else e = 0) ->
    let r := foldl (fun earliest h => if (h <? 0) || (23 <? h) then earliest
      else let t := fire_at loc now h in
        if IsZero earliest || Before t earliest then t else earliest) e hours in
    if existsb valid_hour (pre ++ hours) then first_after off (pre ++ hours) now r else r = 0).
  { intros Hcut. by apply (Hcut [] 0). }
  induction hours as [|h hours IH]; intros pre e He; cbn [foldl]; [by rewrite app_nil_r|].
  replace (pre ++ h :: hours) with ((pre ++ [h]) ++ hours) by (by rewrite <- app_assoc).
  apply IH. clear IH. rewrite existsb_app. cbn [existsb]. rewrite orb_false_r.
  assert (Hval : valid_hour h = negb ((h <? 0) || (23 <? h))).
  { unfold valid_hour. repeat case_Z; cbn; lia || done. }
  rewrite Hval. destruct ((h <? 0) || (23 <? h)) eqn:Eh; cbn [negb] in *.
  - rewrite orb_false_r. destruct (existsb valid_hour pre); [|done].
    destruct He as (Ht & Hlt & Hmin). split_and!; [|done|].
    + apply is_trigger_single in Ht as (k & ? & ? & ?). apply is_trigger_single. exists k.
      split_and!; [set_solver|done..].
    + intros x (k & [Hk| ->%list_elem_of_singleton]%elem_of_app & Hv & Hx)%is_trigger_single;
        [|congruence]. apply Hmin. apply is_trigger_single. eauto.
  - rewrite orb_true_r. destruct (fire_at_first loc off now h Hset Hval) as (Hft & Hflt & Hfmin).
    cbv zeta. unfold IsZero, Before.
    assert (Hin : forall k, k ∈ pre -> k ∈ pre ++ [h]) by set_solver.
    destruct (existsb valid_hour pre) eqn:Epre.
    + destruct He as (Ht & Hlt & Hmin). rewrite (proj2 (Z.eqb_neq e 0)) by lia. cbn [orb].
      assert (Hall : forall x, is_trigger off (pre ++ [h]) x -> now < x ->
        e <= x \/ fire_at loc now h <= x).
      { intros x (k & [Hk| ->%list_elem_of_singleton]%elem_of_app & Hv & Hx)%is_trigger_single Hl;
          [left|right; by apply Hfmin]. apply Hmin; [|done]. apply is_trigger_single. eauto. }
      destruct (Z.ltb_spec (fire_at loc now h) e); (split_and!; [|done|]).
      * apply is_trigger_single. exists h. split_and!; [set_solver|done..].
      * intros x Hx Hl. destruct (Hall x Hx Hl); lia.
      * apply is_trigger_single in Ht as (k & ? & ? & ?). apply is_trigger_single. eauto.
      * intros x Hx Hl. destruct (Hall x Hx Hl); lia.
    + subst e. cbn [Z.eqb orb]. split_and!; [|done|].
      * apply is_trigger_single. exists h. split_and!; [set_solver|done..].
      * intros x (k & [Hk| ->%list_elem_of_singleton]%elem_of_app & Hv & Hx)%is_trigger_single Hl;
          [|by apply Hfmin].
        assert (Hex : existsb valid_hour pre = true).
        { apply existsb_exists. exists k. split; [by apply list_elem_of_In|done]. }
        congruence.
Qed.

Lemma first_after_day off hours now t :
  - Day <= off <= Day -> first_after off hours now t -> t <= now + Day.
Proof.
  intros Ho (Ht & _ & Hmin). apply is_trigger_single in Ht as (h & Hh & Hv & _).
  pose proof (settled_fixed off now Ho) as Hset.
  destruct (fire_at_first _ off now h Hset Hv) as (Hf & Hlt & _).
  etrans; [apply Hmin; [apply is_trigger_single; eauto|done]|].
  rewrite (fire_at_spec _ off) in * by done. cbv zeta in *. pose proof (day_of_bounds (now + off)) as Hb.
  unfold valid_hour in Hv. apply andb_true_iff in Hv as [H0 H23]. apply Z.leb_le in H0, H23.
  unfold Day, Hour in *. case_Z; lia.
Qed.

(** Two triggers of one hour are a day apart, any two an hour. *)
Lemma trigger_hour_apart off hours x y :
  is_trigger off hours x -> is_trigger off hours y -> x < y -> x + Hour <= y.
Proof. intros (d & h & _ & _ & ->) (e & k & _ & _ & ->). unfold Day, Hour. lia. Qed.

(** ** The effective window *)

Lemma min_gap_le gap l : min_gap gap l <= gap.
Proof.
  revert gap. induction l as [|a [|b l] IH]; intros gap; [done..|].
  cbn [min_gap] in *. etrans; [apply IH|]. case_Z; lia.
Qed.

Lemma min_gap_nonneg gap l : 0 <= gap -> StronglySorted Z.le l -> 0 <= min_gap gap l.
Proof.
  revert gap. induction l as [|a [|b l] IH]; intros gap Hg Hs; [done..|]. cbn [min_gap] in *.
  apply StronglySorted_inv in Hs as [Hs Hab]. inversion Hab; subst. apply IH; [|done].
  unfold Hour. case_Z; lia.
Qed.

(** No two hours of the list are closer. *)
Lemma min_gap_pair gap l x y :
  StronglySorted Z.le l -> x ∈ l -> y ∈ l -> x < y -> min_gap gap l <= (y - x) * Hour.
Proof.
  revert gap. induction l as [|a [|b l] IH]; intros gap Hs Hx Hy Hlt.
  - by apply not_elem_of_nil in Hx.
  - apply list_elem_of_singleton in Hx, Hy. lia.
  - apply StronglySorted_inv in Hs as [Hs Hab]. cbn [min_gap] in *.
    rewrite Forall_forall in Hab. set (g := if _ <? gap then _ else gap).
    pose proof (min_gap_le g (b :: l)) as Hle.
    assert (Hg : g <= (b - a) * Hour) by (unfold g; case_Z; lia).
    apply elem_of_cons in Hx as [->|Hx], Hy as [->|Hy]; [lia| | |by apply IH].
    + apply StronglySorted_inv in Hs as [_ Hbl]. rewrite Forall_forall in Hbl.
      assert (b <= y) by (apply elem_of_cons in Hy as [->|Hy]; [lia|by apply Hbl]).
      etrans; [exact Hle|]. etrans; [exact Hg|]. unfold Hour. lia.
    + specialize (Hab x Hx). lia.
Qed.

Lemma sorted_ends l x : StronglySorted Z.le l -> x ∈ l -> hd 0 l <= x <= List.last l 0.
Proof.
  intros Hs Hx. split.
  - destruct Hs as [|a l Hs Ha]; [by apply not_elem_of_nil in Hx|]. cbn [hd].
    apply elem_of_cons in Hx as [->|Hx]; [lia|]. rewrite Forall_forall in Ha. by apply Ha.
  - revert x Hx. induction Hs as [|a l Hs IH Ha]; intros x Hx; [by apply not_elem_of_nil in Hx|].
    destruct l as [|b l]; [apply list_elem_of_singleton in Hx; subst; cbn; lia|].
    change (List.last (a :: b :: l) 0) with (List.last (b :: l) 0).
    apply elem_of_cons in Hx as [->|Hx]; [|by apply IH]. rewrite Forall_forall in Ha.
    etrans; [apply (Ha b); by left|apply IH; by left].
Qed.

Lemma valid_hours_in l h : h ∈ List.filter valid_hour l <-> h ∈ l /\ valid_hour h = true.
Proof. rewrite !list_elem_of_In, filter_In. done. Qed.

Lemma short_list_single {A} (l : list A) x y : (length l < 2)%nat -> x ∈ l -> y ∈ l -> x = y.
Proof.
  destruct l as [|a [|b l]]; simpl; [by intros _ ?%not_elem_of_nil| |lia].
  by intros _ ->%list_elem_of_singleton ->%list_elem_of_singleton.
Qed.

(** The distance the code computes is a lower bound for all triggers. *)
Lemma trigger_gap off hours x y :
  let sorted := merge_sort Z.le (List.filter valid_hour hours) in
  is_trigger off hours x -> is_trigger off hours y -> x < y ->
  x + min_gap ((hd 0 sorted + 24 - List.last sorted 0) * Hour) sorted <= y.
Proof.
  intros sorted (d & h & Hh & Hv & ->) (e & k & Hk & Hw & ->) Hlt.
  assert (Hs : StronglySorted Z.le sorted).
  { apply StronglySorted_merge_sort; [apply _|]. intros a b. lia. }
  assert (Hin : forall v, v ∈ hours -> valid_hour v = true -> v ∈ sorted).
  { intros v Hv1 Hv2. unfold sorted. rewrite merge_sort_Permutation. by apply valid_hours_in. }
  pose proof (Hin h Hh Hv) as Hhs. pose proof (Hin k Hk Hw) as Hks.
  pose proof (sorted_ends _ _ Hs Hhs) as Hhe. pose proof (sorted_ends _ _ Hs Hks) as Hke.
  pose proof (min_gap_le ((hd 0 sorted + 24 - List.last sorted 0) * Hour) sorted) as Hle.
  destruct (Z.lt_ge_cases h k) as [Hhk|Hhk].
  - pose proof (min_gap_pair ((hd 0 sorted + 24 - List.last sorted 0) * Hour) sorted h k Hs Hhs Hks Hhk).
    unfold valid_hour in *. apply andb_true_iff in Hv as [Hv1 Hv2], Hw as [Hw1 Hw2].
    apply Z.leb_le in Hv1, Hv2, Hw1, Hw2. unfold Day, Hour in *. lia.
  - unfold valid_hour in *. apply andb_true_iff in Hv as [Hv1 Hv2], Hw as [Hw1 Hw2].
    apply Z.leb_le in Hv1, Hv2, Hw1, Hw2. unfold Day, Hour in *. lia.
Qed.

Lemma effective_window_bound win off hours x y :
  is_trigger off hours x -> is_trigger off hours y -> x < y ->
  0 < spreadEffectiveWindow win hours /\
  x + spreadEffectiveWindow win hours + spreadFireGapMargin <= y.
Proof.
  intros Hx Hy Hlt. pose proof (trigger_hour_apart _ _ _ _ Hx Hy Hlt) as Hhour.
  pose proof (trigger_gap _ _ _ _ Hx Hy Hlt) as Hgap. cbv zeta in Hgap.
  unfold spreadEffectiveWindow. cbv zeta. set (w := if win <=? 0 then _ else win).
  assert (Hw : 0 < w) by (unfold w; case_Z; [done|lia]). clearbody w.
  assert (Hsingle : (exists l : list Z, (length l < 2)%nat /\
      forall h, h ∈ hours -> valid_hour h = true -> h ∈ l) ->
    0 < single_window w /\ x + single_window w + spreadFireGapMargin <= y).
  { intros (l & Hlen & Hl).
    assert (Hday : x + Day <= y).
    { destruct Hx as (d & h & Hh & Hv & ->), Hy as (e & k & Hk & Hv' & ->).
      rewrite (short_list_single l h k Hlen (Hl h Hh Hv) (Hl k Hk Hv')) in *.
      unfold Day in *. lia. }
    unfold single_window, spreadFireGapMargin, Day, Hour, Minute in *. cbv zeta. case_Z; lia. }
  destruct (Nat.ltb_spec (length hours) 2); [apply Hsingle; exists hours; done|].
  destruct (Nat.ltb_spec (length (List.filter valid_hour hours)) 2).
  { apply Hsingle. exists (List.filter valid_hour hours). split; [done|]. intros.
    by apply valid_hours_in. }
  set (g := min_gap _ _) in *. unfold spreadFireGapMargin, Hour, Minute in *.
  assert (Hq : Z.quot g 2 <= Z.max 0 g) by (Z.quot_rem_to_equations; lia).
  destruct (Z.leb_spec (g - 5 * 60000000000) 0).
  - destruct (Z.leb_spec (Z.quot g 2) 0); case_Z; lia.
  - rewrite (proj2 (Z.leb_gt (g - 5 * 60000000000) 0)) by lia. case_Z; lia.
Qed.

(** ** The trigger loop *)

(** Every window serves the trigger after the one before it, not before it is
due. *)
Fixpoint serves (off : Duration) (hours : list Z) (prev : Time) (fires : list (Time * Time)) : Prop :=
  match fires with
  | [] => True
  | (t, s) :: rest => first_after off hours prev t /\ t <= s /\ serves off hours t rest
  end.

Lemma serves_all off hours prev fires x t s :
  serves off hours prev fires -> last fires = Some (t, s) ->
  is_trigger off hours x -> prev < x <= t -> exists s', (x, s') ∈ fires.
Proof.
  revert prev. induction fires as [|[u v] fires IH]; intros prev Hs Hl Hx Hr; [done|].
  destruct Hs as ((Hu & Hlt & Hmin) & _ & Hs).
  destruct (Z.eq_dec x u) as [->|Hne]; [exists v; by left|].
  destruct fires as [|p fires].
  - simpl in Hl. injection Hl as <- <-. specialize (Hmin x Hx ltac:(lia)). lia.
  - destruct (IH u Hs Hl Hx) as [s' Hs']; [specialize (Hmin x Hx ltac:(lia)); lia|].
    exists s'. by right.
Qed.

Lemma spreadWait_free w now d :
  stopAt w = None -> doneAt w = None -> 0 < d -> spreadWait w now d = (true, now + d).
Proof.
  intros Hs Hd Hpos. unfold spreadWait, interrupted_at. rewrite Hs, Hd.
  by rewrite (proj2 (Z.leb_gt _ _)).
Qed.

(** The trigger of the next window, and when it opens, in a process that is not
stopped. *)
Lemma trigger_step_spec loc off w hours served clock :
  let from := if served =? 0 then clock else served in
  settled loc off from ->
  stopAt w = None -> existsb valid_hour hours = true -> 0 <= served <= clock ->
  exists t, trigger_step loc w hours served clock = Some (t, Z.max t clock) /\
    first_after off hours from t.
Proof.
  intros from Hset Hw Hv Hsc. exists (nextSpreadFire loc from hours). unfold trigger_step, IsZero.
  pose proof (nextSpreadFire_first loc off from hours Hset) as Hf. rewrite Hv in Hf.
  assert (Hfrom : 0 <= from <= clock) by (unfold from; case_Z; lia).
  specialize (Hf (proj1 Hfrom)). pose proof Hf as (_ & Hlt & _).
  pose proof (first_after_day _ _ _ _ (proj1 Hset) Hf) as Hday.
  replace (if served =? 0 then nextSpreadFire loc clock hours else nextSpreadFire loc served hours)
    with (nextSpreadFire loc from hours) by (unfold from; by case_Z).
  set (t := nextSpreadFire loc from hours) in *.
  rewrite (proj2 (Z.eqb_neq t 0)) by lia. split; [|done].
  assert (Hsub : 0 < Sub t clock <-> clock < t) by (unfold Sub; go_lia).
  destruct (Z.ltb_spec 0 (Sub t clock)) as [Hp|Hp].
  - rewrite spreadWait_free by done. rewrite Sub_exact; [do 2 f_equal; lia|].
    unfold Day in Hday. go_lia.
  - do 2 f_equal. lia.
Qed.

Lemma spreadTriggerLoop_serves loc off w hours run fuel served clock :
  settled loc off (if served =? 0 then clock else served) ->
  stopAt w = None -> existsb valid_hour hours = true -> (forall t, 0 <= run t) ->
  0 <= served <= clock -> 0 <= clock ->
  let fires := spreadTriggerLoop loc fuel w hours run served clock in
  length fires = fuel /\ serves off hours (if served =? 0 then clock else served) fires.
Proof.
  intros Hset Hw Hv Hrun. revert served clock Hset.
  induction fuel as [|fuel IH]; intros served clock Hset Hsc Hc; cbn [spreadTriggerLoop]; [done|].
  destruct hours as [|h hours]; [done|].
  destruct (trigger_step_spec loc off w (h :: hours) served clock Hset Hw Hv Hsc) as (t & -> & Hf).
  unfold spreadDone. rewrite Hw. cbn [reached]. pose proof Hf as (_ & Hlt & _).
  assert (Ht : 0 < t) by (revert Hlt; case_Z; lia).
  specialize (Hrun (Z.max t clock)). unfold Add.
  destruct (IH t (Z.max t clock + run (Z.max t clock))) as [Hlen Hs].
  { rewrite (proj2 (Z.eqb_neq t 0)) by lia. apply (settled_later _ _ _ _ Hset), Z.lt_le_incl, Hlt. }
  { lia. } { lia. }
  rewrite (proj2 (Z.eqb_neq t 0)) in Hs by lia. cbn [length serves].
  split; [by rewrite Hlen|]. split_and!; [done|lia|done].
Qed.

(** The loop opens its windows on time when no window outlasts the effective
one and its margin. *)
Lemma trigger_loop_on_time loc off w win hours run fuel served clock :
  settled loc off (if served =? 0 then clock else served) ->
  stopAt w = None -> existsb valid_hour hours = true ->
  (forall t, 0 <= run t <= spreadEffectiveWindow win hours + spreadFireGapMargin) ->
  0 <= served <= clock -> 0 <= clock ->
  (served <> 0 -> is_trigger off hours served /\
     clock <= served + spreadEffectiveWindow win hours + spreadFireGapMargin) ->
  Forall (fun f => f.2 = f.1) (spreadTriggerLoop loc fuel w hours run served clock).
Proof.
  intros Hset Hw Hv Hrun. revert served clock Hset.
  induction fuel as [|fuel IH]; intros served clock Hset Hsc Hc Hlate;
    cbn [spreadTriggerLoop]; [constructor|].
  destruct hours as [|h hours]; [constructor|]. set (hs := h :: hours) in *.
  destruct (trigger_step_spec loc off w hs served clock Hset Hw Hv Hsc) as (t & -> & Hf).
  unfold spreadDone. rewrite Hw. cbn [reached]. pose proof Hf as (Htr & Hlt & _).
  assert (Hmax : Z.max t clock = t).
  { destruct (Z.eqb_spec served 0) as [->|Hne]; [lia|].
    destruct (Hlate Hne) as [Hsv Hcl].
    destruct (effective_window_bound win off hs served t Hsv Htr Hlt). lia. }
  rewrite Hmax. assert (Ht : 0 < t) by (revert Hlt; case_Z; lia).
  specialize (Hrun t) as Hr. unfold Add. constructor; [done|].
  apply IH; [|lia|lia|intros _; split; [done|lia]].
  rewrite (proj2 (Z.eqb_neq t 0)) by lia. apply (settled_later _ _ _ _ Hset), Z.lt_le_incl, Hlt.
Qed.

(** ** Properties *)

(** C25. No trigger is lost where the offset of the location does not change:
when the location is settled from two days before the start of the loop, and as
long as the process is not stopped, the loop keeps opening windows, however long
each one takes; every trigger point between the start of the loop and the last
one served has its window, none is served before it is due, and each one serves
the very next trigger after the one before. *)
Theorem trigger_loop_serves_all loc off w hours run fuel clock :
  settled loc off clock ->
  stopAt w = None -> existsb valid_hour hours = true -> (forall t, 0 <= run t) -> 0 <= clock ->
  let fires := spreadTriggerLoop loc fuel w hours run zeroTime clock in
  length fires = fuel /\ serves off hours clock fires /\
  forall x t s, last fires = Some (t, s) -> is_trigger off hours x -> clock < x <= t ->
    exists s', (x, s') ∈ fires.
Proof.
  intros Hset Hw Hv Hrun Hc fires.
  destruct (spreadTriggerLoop_serves loc off w hours run fuel zeroTime clock) as [Hlen Hs];
    [done..|unfold zeroTime; lia|done|].
  split; [done|]. split; [done|]. intros x t s Hl Hx Hr. by eapply serves_all.
Qed.

(** The effective window leaves room: between any two trigger points there
is time for a window and the margin, so that in a settled location a loop whose
windows respect it opens each of them at its trigger, never late. *)
Theorem effective_window_fits off win hours :
  (forall x y, is_trigger off hours x -> is_trigger off hours y -> x < y ->
     0 < spreadEffectiveWindow win hours /\
     x + spreadEffectiveWindow win hours + spreadFireGapMargin <= y) /\
  forall loc w run fuel clock, settled loc off clock ->
    stopAt w = None -> existsb valid_hour hours = true -> 0 <= clock ->
    (forall t, 0 <= run t <= spreadEffectiveWindow win hours + spreadFireGapMargin) ->
    Forall (fun f => f.2 = f.1) (spreadTriggerLoop loc fuel w hours run zeroTime clock).
Proof.
  split; [intros; by eapply effective_window_bound|].
  intros loc w run fuel clock Hset Hw Hv Hc Hrun. apply (trigger_loop_on_time loc off w win hours run);
    try done; unfold zeroTime; lia.
Qed.

(** A trigger that is its own successor is served again and again: the loop
never gets past it, and no other trigger has a window any more. *)
Theorem trigger_that_repeats loc w hours run fuel t clock :
  nextSpreadFire loc t hours = t -> hours <> [] -> t <> 0 -> stopAt w = None ->
  (forall u, 0 <= run u) -> t <= clock ->
  let fires := spreadTriggerLoop loc fuel w hours run t clock in
  length fires = fuel /\ Forall (fun f => f.1 = t) fires.
Proof.
  intros Ht Hh H0 Hw Hrun. revert clock. induction fuel as [|fuel IH]; intros clock Hc;
    cbn [spreadTriggerLoop]; [done|].
  destruct hours as [|h hours]; [done|]. unfold trigger_step, IsZero.
  rewrite (proj2 (Z.eqb_neq t 0) H0), Ht, (proj2 (Z.eqb_neq t 0) H0).
  assert (Hs : Sub t clock <= 0) by (unfold Sub; go_lia).
  rewrite (proj2 (Z.ltb_ge _ _) Hs). unfold spreadDone. rewrite Hw. cbn [reached].
  specialize (Hrun clock). destruct (IH (Add clock (run clock))) as [Hl Hf]; [unfold Add; lia|].
  cbn [length]. split; [by rewrite Hl|by constructor].
Qed.

Section RunProperties.
Context {Account : Type} (w : World) (Int63n : Draws) (skip : option (Account -> bool)).
Context (exec : Account -> Time -> spreadRunOutcome * Duration).

(** The statistics of a window account for every candidate exactly once:
done before, succeeded, failed, skipped or left for the next window. *)
Theorem run_accounts_for_everyone r accounts now :
  let res := run w Int63n skip exec r accounts now in
  Candidates (r_stats res) = Z.of_nat (length accounts) /\
  counted (r_stats res) = Candidates (r_stats res) /\ counts_ok (r_stats res) /\
  Attempted (r_stats res) = Z.of_nat (length (r_calls res)).
Proof.
  unfold run. destruct accounts as [|o accounts]; [by vm_compute|].
  set (n := Z.of_nat (length (o :: accounts))). assert (Hn : 0 <= n) by (unfold n; lia).
  destruct (if 0 <? _ then spreadWait _ _ _ else _) as [[] t]; cbn [negb].
  - destruct (run_accounts_counts w Int63n skip exec (run_settings r)
      (Add t (Window (run_settings r) -
        (if (0 <? spreadStartJitterFn Int63n 0) &&
            (Z.quot (Window (run_settings r)) 2 <? spreadStartJitterFn Int63n 0)
         then Z.quot (Window (run_settings r)) 2 else spreadStartJitterFn Int63n 0)))
      (o :: accounts) (mkRun t 0 1 (mkStats n 0 0 0 0 0 0) [])) as (H1 & H2 & H3 & H4);
      [done|unfold counts_ok; cbn; lia|done|].
    cbv zeta. rewrite H1, H3. unfold counted at 1. cbn [r_stats Candidates Already OK Fail Skipped Remaining].
    split_and!; [done|unfold n; lia|done|done].
  - unfold counted, counts_ok. cbn. lia.
Qed.

(** The pace of a window: only accounts that are not done are called, in
order and once each; every call starts within the window, and two consecutive
calls are at least the minimum gap apart, unless the second one is at the very
end of the window. *)
Theorem run_paces_calls r accounts now :
  draws_ok Int63n -> (forall a t, 0 <= (exec a t).2) ->
  in_i64 (window r) -> in_i64 (gapMin r) -> in_i64 (gapMax r) ->
  let calls := r_calls (run w Int63n skip exec r accounts now) in
  c_account <$> calls `sublist_of` omap id accounts /\
  calls_ok skip (run_settings r) now (now + Window (run_settings r)) calls.
Proof.
  intros Hd He Hw Hl Hh. destruct (run_settings_ok r Hw Hl Hh) as (HW & HG & HM). unfold run.
  assert (Hnil : c_account <$> ([] : list (Call Account)) `sublist_of` omap id accounts /\
    calls_ok skip (run_settings r) now (now + Window (run_settings r)) []).
  { split; [apply sublist_nil_l|done]. }
  destruct accounts as [|o accounts]; [exact Hnil|].
  set (jit := if (0 <? spreadStartJitterFn Int63n 0) && _ then _ else _).
  assert (Hj : 0 <= jit <= Window (run_settings r)).
  { pose proof (Hd 0%nat spreadStartJitterMax ltac:(done)) as Hr. cbv zeta in HW.
    assert (Hq : forall W, 0 < W -> 0 <= Z.quot W 2 <= W) by (intros; Z.quot_rem_to_equations; lia).
    specialize (Hq (Window (run_settings r)) ltac:(lia)). unfold jit, spreadStartJitterFn.
    destruct (Z.ltb_spec 0 (Int63n 0%nat spreadStartJitterMax)); cbn [andb]; [|lia].
    case_Z; lia. }
  clearbody jit.
  destruct (if 0 <? jit then spreadWait w now jit else (true, now)) as [ok t] eqn:E.
  destruct ok; cbn [negb]; [|exact Hnil].
  assert (Ht : t = now + jit).
  { destruct (Z.ltb_spec 0 jit); [apply spreadWait_true in E; lia|injection E as <-; lia]. }
  destruct (run_accounts_ok w Int63n skip exec Hd He (run_settings r) now
    (now + Window (run_settings r)) (o :: accounts)
    (mkRun t 0 1 (mkStats (Z.of_nat (length (o :: accounts))) 0 0 0 0 0 0) []))
    as (calls & Hc & Hsub & Hok); [lia|lia| |].
  { split_and!; [done|done|done|cbn [r_now]; lia]. }
  unfold Add. replace (t + (Window (run_settings r) - jit)) with (now + Window (run_settings r)) by lia.
  cbn [r_calls app] in *. rewrite Hc. done.
Qed.
End RunProperties.

(** Settings that make sense: whatever is configured (up to the 292 years a
duration can hold), the window and the gaps are positive and the gaps are an
interval; a positive value is taken as it is, except that the upper gap is
raised to the lower one, and any other value means the default. *)
Theorem normalizeSpreadSettings_ok t :
  WindowSeconds t <= 9223372036 -> GapMinSeconds t <= 9223372036 -> GapMaxSeconds t <= 9223372036 ->
  let s := normalizeSpreadSettings t in
  0 < Window s /\ 0 < GapMin s <= GapMax s /\
  Window s = (if 0 <? WindowSeconds t then WindowSeconds t * Second else spreadDefaultWindow) /\
  GapMin s = (if 0 <? GapMinSeconds t then GapMinSeconds t * Second else spreadDefaultAccountGapMin) /\
  GapMax s = Z.max (GapMin s)
    (if 0 <? GapMaxSeconds t then GapMaxSeconds t * Second else spreadDefaultAccountGapMax).
Proof.
  intros H1 H2 H3. unfold normalizeSpreadSettings. cbn [Window GapMin GapMax].
  unfold spreadDefaultWindow, spreadDefaultAccountGapMin, spreadDefaultAccountGapMax, Hour, Minute, Second.
  destruct (Z.ltb_spec 0 (WindowSeconds t)), (Z.ltb_spec 0 (GapMinSeconds t)),
    (Z.ltb_spec 0 (GapMaxSeconds t)); i64_simpl; repeat case_Z; lia.
Qed.

(** ** Witnesses *)

Definition ex_world : World := mkWorld None None (fun _ => true).
Definition ex_start : Time := Date 2025 10 3 + 7 * Hour.

(** Central Europe around the end of daylight saving time of 2025, on October
26 at 01:00 UTC. *)
Definition ex_berlin : Time -> Duration :=
  fun t => if t <? Date 2025 10 26 + Hour then 2 * Hour else Hour.

Lemma trigger_loop_serves_all_witness :
  exists s, (Date 2025 11 4 + 8 * Hour, s) ∈
    spreadTriggerLoop ex_berlin 3 ex_world [9; 21] (fun _ => 30 * Hour) zeroTime
      (Date 2025 11 3 + 7 * Hour + 30 * Minute).
Proof.
  refine (proj2 (proj2 (trigger_loop_serves_all ex_berlin Hour ex_world [9; 21] (fun _ => 30 * Hour) 3
    (Date 2025 11 3 + 7 * Hour + 30 * Minute) _ eq_refl eq_refl _ _)) (Date 2025 11 4 + 8 * Hour)
    (Date 2025 11 4 + 8 * Hour) (Date 2025 11 3 + 68 * Hour) _ _ _);
    [|by intros|by vm_compute|by vm_compute| |by vm_compute].
  - split; [by vm_compute|]. intros t Ht. unfold ex_berlin. case_Z; [|done]. exfalso.
    assert (Date 2025 10 26 + Hour <= Date 2025 11 3 + 7 * Hour + 30 * Minute - 2 * Day) by (by vm_compute).
    lia.
  - exists (day_of (Date 2025 11 4)), 9. split; [by left|]. split; [reflexivity|by vm_compute].
Defined.

Lemma effective_window_fits_witness :
  spreadEffectiveWindow (12 * Hour) [9; 21] = 12 * Hour - 5 * Minute /\
  Forall (fun f => f.2 = f.1)
    (spreadTriggerLoop (fun _ => 0) 3 ex_world [9; 21] (fun _ => 12 * Hour - 5 * Minute) zeroTime ex_start).
Proof.
  split; [by vm_compute|].
  apply (proj2 (effective_window_fits 0 (12 * Hour) [9; 21])); [by split| |..]; try reflexivity; by vm_compute.
Defined.

(** Where the offset changes the triggers are off: on the evening before the
clocks go back the next morning's trigger, a day after this morning's, is at
08:00, and that of 09:00 follows it. *)
Example clocks_go_back :
  fst <$> spreadTriggerLoop ex_berlin 4 ex_world [9; 21] (fun _ => 0) zeroTime
    (Date 2025 10 25 + 12 * Hour) =
  [Date 2025 10 25 + 21 * Hour - 2 * Hour; Date 2025 10 26 + 8 * Hour - Hour;
   Date 2025 10 26 + 9 * Hour - Hour; Date 2025 10 26 + 21 * Hour - Hour].
Proof. vm_compute. reflexivity. Qed.

(** The day of 25 hours has a second trigger of its midnight, at 23:00, and a
day after the midnight of that day is 23:00 again: a loop with the hour 0 serves
this trigger for ever. *)
Lemma midnight_repeats fuel :
  fst <$> spreadTriggerLoop ex_berlin 6 ex_world [0; 9; 21] (fun _ => Hour) zeroTime
    (Date 2025 10 25 + 12 * Hour) =
  [Date 2025 10 25 + 21 * Hour - 2 * Hour; Date 2025 10 26 - 2 * Hour;
   Date 2025 10 26 + 9 * Hour - Hour; Date 2025 10 26 + 21 * Hour - Hour;
   Date 2025 10 26 + 23 * Hour - Hour; Date 2025 10 26 + 23 * Hour - Hour] /\
  Forall (fun f => f.1 = Date 2025 10 26 + 23 * Hour - Hour)
    (spreadTriggerLoop ex_berlin fuel ex_world [0; 9; 21] (fun _ => Hour)
      (Date 2025 10 26 + 23 * Hour - Hour) (Date 2025 10 27)).
Proof.
  split; [vm_compute; reflexivity|].
  apply (trigger_that_repeats ex_berlin ex_world [0; 9; 21] (fun _ => Hour) fuel); try done; by vm_compute.
Qed.

Definition ex_exec (a : Z) (_ : Time) : spreadRunOutcome * Duration := (spreadRunOK, Second).

Lemma run_paces_calls_witness :
  c_account <$> r_calls (run ex_world (fun _ _ => 0) (Some (fun a => a =? 2)) ex_exec
    (mkRunner Hour Minute (2 * Minute)) [Some 1; None; Some 2; Some 3] ex_start) = [1; 3] /\
  [1; 3] `sublist_of` [1; 2; 3].
Proof.
  assert (Hr : c_account <$> r_calls (run ex_world (fun _ _ => 0) (Some (fun a => a =? 2)) ex_exec
    (mkRunner Hour Minute (2 * Minute)) [Some 1; None; Some 2; Some 3] ex_start) = [1; 3])
    by (vm_compute; reflexivity).
  split; [exact Hr|].
  pose proof (run_paces_calls ex_world (fun _ _ => 0) (Some (fun a => a =? 2)) ex_exec
    (mkRunner Hour Minute (2 * Minute)) [Some 1; None; Some 2; Some 3] ex_start) as Hp.
  cbv zeta in Hp. rewrite Hr in Hp. refine (proj1 (Hp _ _ _ _ _)); [intros k n; lia|by intros|by vm_compute..].
Defined.

Lemma normalizeSpreadSettings_ok_witness :
  GapMax (normalizeSpreadSettings (mkTuning 0 600 (-1))) = 600 * Second.
Proof.
  refine (proj2 (proj2 (proj2 (proj2 (normalizeSpreadSettings_ok (mkTuning 0 600 (-1)) _ _ _)))));
    by vm_compute.
Defined.
