(* ===== verification/Wallets.v ===== *)
(** * Subscription wallets

[service/user_subscription.go]: a subscription as a wallet of one amount, and
the distribution of a cost over the wallets of a user, soonest to expire first.
Amounts are exact decimals, counted in units of 10^-10 USD (the scale of
[user_subscriptions.total_usage_usd]); the rounding of [float64], which the
tolerance [subscriptionAllocationEpsilon] is there for, is not modelled.  The
readings of [time.Now] inside one call of an operation are one instant [wall]. *)
From S2P Require Import Prelude GoTime SubscriptionWindow.
From Stdlib Require Import Bool.

Local Open Scope string_scope.
Local Open Scope Z_scope.

Notation Amount := Z (only parsing).
Definition subscriptionDayDuration : Duration := 24 * Hour.
Definition SubscriptionStatusActive := "active".

(** 1e-9 USD. *)
Definition subscriptionAllocationEpsilon : Amount := 10.

Notation Sub_ := (UserSubscription Amount).

Definition IsActive (s : Sub_) (wall : Time) : bool :=
  String.eqb (Status s) SubscriptionStatusActive && Before wall (ExpiresAt s).

Definition IsExpired (s : Sub_) (wall : Time) : bool := After wall (ExpiresAt s).

Definition daysRemainingAt (s : Sub_) (now : Time) : Z :=
  let remaining := Sub (ExpiresAt s) now in
  if remaining <=? 0 then 0
  else
    let days := Z.quot remaining subscriptionDayDuration in
    if negb (Z.rem remaining subscriptionDayDuration =? 0) then days + 1 else days.

Definition normalizeSubLimit (v : option Amount) : option Amount :=
  match v with
  | None => None
  | Some x => if x <=? 0 then None else Some x
  end.

Definition EffectiveTotalLimit (s : Sub_) : option Amount := normalizeSubLimit (TotalLimitUSD s).

Definition HasEffectiveLimit (s : Sub_) : bool :=
  match EffectiveTotalLimit s with None => false | Some _ => true end.

Definition IsUnlimited (s : Sub_) : bool := negb (HasEffectiveLimit s).

Definition RemainingUSDAt (s : Sub_) (now : Time) : option Amount :=
  match EffectiveTotalLimit s with
  | None => None
  | Some limit =>
      let remaining := limit - EffectiveWindowUsageUSD 0 s now in
      Some (if remaining <? 0 then 0 else remaining)
  end.

Definition CheckLimitAt (s : Sub_) (additionalCost : Amount) (now : Time) : bool :=
  match EffectiveTotalLimit s with
  | None => true
  | Some limit => EffectiveWindowUsageUSD 0 s now + additionalCost <=? limit
  end.

Definition ExpiryTime (s : option Sub_) : Time :=
  match s with None => zeroTime | Some s => ExpiresAt s end.

Definition DisplayName (s : option Sub_) : string :=
  match s with
  | None => ""
  | Some s =>
      match PlanName s with
      | Some name => if negb (String.eqb name "") then name else "个人订阅"
      | None => "个人订阅"
      end
  end.

Record SubscriptionAllocation : Type := mkAlloc { SubscriptionID : Z; AllocAmount : Amount }.

#[global] Instance alloc_eq_dec : EqDecision SubscriptionAllocation.
Proof. solve_decision. Defined.

(** The insertion sort of the code moves the next element to the left past every
element that expires later: an insertion into the reversed sorted prefix. *)
Definition expires_later (y x : Sub_) : bool := After (ExpiresAt y) (ExpiresAt x).

Definition byExpiry (l : list Sub_) : list Sub_ :=
  rev (foldl (fun sorted x => stable_insert expires_later x sorted) [] l).

(** What a limited wallet can still take; [None] for one without a limit. *)
Definition available (now : Time) (s : Sub_) : option Amount :=
  match EffectiveTotalLimit s with
  | None => None
  | Some capacity => Some (capacity - EffectiveWindowUsageUSD 0 s now)
  end.

(** The loop over the limited wallets: the allocations and what remains. *)
Fixpoint allocate_limited (now : Time) (l : list Sub_) (remaining : Amount)
    : list SubscriptionAllocation * Amount :=
  match l with
  | [] => ([], remaining)
  | sub :: r =>
      if remaining <=? subscriptionAllocationEpsilon then ([], remaining)
      else
        let capacity := default 0 (EffectiveTotalLimit sub) in
        let avail := capacity - EffectiveWindowUsageUSD 0 sub now in
        if avail <=? subscriptionAllocationEpsilon then allocate_limited now r remaining
        else
          let take := if avail <? remaining then avail else remaining in
          let '(allocations, rest) := allocate_limited now r (remaining - take) in
          (mkAlloc (ID sub) take :: allocations, rest)
  end.

(** A nil row is [None]. *)
Definition active_rows (wall : Time) (subs : list (option Sub_)) : list Sub_ :=
  omap (fun sub => match sub with
                   | Some s => if IsActive s wall then Some s else None
                   | None => None
                   end) subs.

Definition AllocateSubscriptionUsageAt (wall : Time) (subs : list (option Sub_)) (cost : Amount)
    (now : Time) : list SubscriptionAllocation * bool :=
  if cost <=? 0 then ([], true)
  else
    let limited := byExpiry (List.filter HasEffectiveLimit (active_rows wall subs)) in
    let unlimited := byExpiry (List.filter (fun s => negb (HasEffectiveLimit s)) (active_rows wall subs)) in
    let '(allocations, remaining) := allocate_limited now limited cost in
    let '(allocations, remaining) :=
      match unlimited with
      | u :: _ =>
          if subscriptionAllocationEpsilon <? remaining
          then ((allocations ++ [mkAlloc (ID u) remaining])%list, 0)
          else (allocations, remaining)
      | [] => (allocations, remaining)
      end in
    if subscriptionAllocationEpsilon <? remaining then ([], false) else (allocations, true).

Definition AllocateSubscriptionUsage (wall : Time) (subs : list (option Sub_)) (cost : Amount) :=
  AllocateSubscriptionUsageAt wall subs cost wall.

Definition pick (wall : Time) (subs : list (option Sub_)) (wantLimited wantActive : bool)
    : option Sub_ :=
  foldl (fun best sub =>
    match sub with
    | None => best
    | Some s =>
        if wantActive && negb (IsActive s wall) then best
        else if wantLimited && negb (HasEffectiveLimit s) then best
        else match best with
             | None => Some s
             | Some b => if Before (ExpiresAt s) (ExpiresAt b) then Some s else best
             end
    end) None subs.

Definition FirstBillableSubscription (wall : Time) (subs : list (option Sub_)) : option Sub_ :=
  match pick wall subs true true with
  | Some s => Some s
  | None =>
      match pick wall subs false true with
      | Some s => Some s
      | None => pick wall subs false false
      end
  end.

Definition sortedLimitedSubscriptions (wall : Time) (subs : list (option Sub_)) : list Sub_ :=
  byExpiry (omap (fun sub => match sub with
                             | Some s => if negb (IsActive s wall) || negb (HasEffectiveLimit s)
                                         then None else Some s
                             | None => None
                             end) subs).

(** The loop of [SplitSubscriptionUsageAt], on the amount [filled] so far. *)
Fixpoint split_limited (now : Time) (cost : Amount) (l : list Sub_) (filled : Amount)
    : list SubscriptionAllocation * Amount :=
  match l with
  | [] => ([], filled)
  | sub :: r =>
      if cost - subscriptionAllocationEpsilon <=? filled then ([], filled)
      else
        match EffectiveTotalLimit sub with
        | None => split_limited now cost r filled
        | Some capacity =>
            let avail := capacity - EffectiveWindowUsageUSD 0 sub now in
            if avail <=? subscriptionAllocationEpsilon then split_limited now cost r filled
            else
              let take := if avail <? cost - filled then avail else cost - filled in
              let '(partial, filled) := split_limited now cost r (filled + take) in
              (mkAlloc (ID sub) take :: partial, filled)
        end
  end.

Definition SplitSubscriptionUsageAt (wall : Time) (subs : list (option Sub_)) (cost : Amount)
    (now : Time) : list SubscriptionAllocation * Amount :=
  if cost <=? 0 then ([], 0)
  else
    let '(allocations, ok) := AllocateSubscriptionUsageAt wall subs cost now in
    if ok : bool then (allocations, 0)
    else
      let '(partial, filled) := split_limited now cost (sortedLimitedSubscriptions wall subs) 0 in
      let remainder := cost - filled in
      (partial, if remainder <? subscriptionAllocationEpsilon then 0 else remainder).

Definition SplitSubscriptionUsage (wall : Time) (subs : list (option Sub_)) (cost : Amount) :=
  SplitSubscriptionUsageAt wall subs cost wall.

Definition AllocateSubscriptionRecordingsAt (wall : Time) (subs : list (option Sub_))
    (cost : Amount) (now : Time) : list SubscriptionAllocation :=
  if cost <=? 0 then []
  else
    let '(allocations, ok) := AllocateSubscriptionUsageAt wall subs cost now in
    if ok : bool then allocations
    else match FirstBillableSubscription wall subs with
         | None => []
         | Some primary => [mkAlloc (ID primary) cost]
         end.

Definition AllocateSubscriptionRecordings (wall : Time) (subs : list (option Sub_)) (cost : Amount) :=
  AllocateSubscriptionRecordingsAt wall subs cost wall.

Local Open Scope list_scope.

(** ** Accounting *)

Definition paid (l : list SubscriptionAllocation) : Amount := total AllocAmount l.

(** Each wallet gives all it has; less than the tolerance counts as nothing. *)
Definition drain (now : Time) (l : list Sub_) : list SubscriptionAllocation :=
  omap (fun s => match available now s with
                 | Some a => if a <=? subscriptionAllocationEpsilon then None
                             else Some (mkAlloc (ID s) a)
                 | None => None
                 end) l.

Definition limited_wallets (wall : Time) (subs : list (option Sub_)) : list Sub_ :=
  byExpiry (List.filter HasEffectiveLimit (active_rows wall subs)).

Definition unlimited_wallets (wall : Time) (subs : list (option Sub_)) : list Sub_ :=
  byExpiry (List.filter (fun s => negb (HasEffectiveLimit s)) (active_rows wall subs)).

Definition limited (s : Sub_) : Prop := HasEffectiveLimit s = true.

Lemma byExpiry_sort l : byExpiry l = rev (stable_sort expires_later (rev l)).
Proof.
  unfold byExpiry, stable_sort. f_equal. induction l as [|x l IH] using rev_ind; [done|].
  rewrite foldl_app, rev_app_distr. simpl. by rewrite IH.
Qed.

Lemma byExpiry_perm l : byExpiry l ≡ₚ l.
Proof.
  rewrite byExpiry_sort, <- Permutation_rev, stable_sort_perm. symmetry. apply Permutation_rev.
Qed.

#[global] Instance expires_later_order : StrictWeak expires_later.
Proof.
  split; unfold expires_later, After.
  - intros x y. rewrite Z.ltb_lt, Z.ltb_ge. lia.
  - intros x y z. rewrite !Z.ltb_ge. lia.
Qed.

Lemma StronglySorted_snoc {A} (R : A -> A -> Prop) l x :
  StronglySorted R l -> Forall (fun y => R y x) l -> StronglySorted R (l ++ [x]).
Proof.
  induction 1 as [|y l Hs IH Hy]; intros Hx; simpl; [repeat constructor|].
  inversion_clear Hx. constructor; [auto|]. apply Forall_app; split; [done|by constructor].
Qed.

Lemma byExpiry_sorted l :
  StronglySorted (fun x y => ExpiresAt x <= ExpiresAt y) (byExpiry l).
Proof.
  rewrite byExpiry_sort.
  assert (Hrev : forall k, StronglySorted (fun x y => expires_later y x = false) k ->
    StronglySorted (fun x y => ExpiresAt x <= ExpiresAt y) (rev k)).
  { induction 1 as [|x k Hs IH Hx]; simpl; [constructor|].
    apply StronglySorted_snoc; [done|]. rewrite <- Permutation_rev.
    eapply Forall_impl; [exact Hx|]. simpl. unfold expires_later, After. intros y.
    rewrite Z.ltb_ge. lia. }
  apply Hrev, stable_sort_sorted, _.
Qed.

Lemma sortedLimited_eq wall subs :
  sortedLimitedSubscriptions wall subs = limited_wallets wall subs.
Proof.
  unfold sortedLimitedSubscriptions, limited_wallets, active_rows. f_equal.
  induction subs as [|[s|] subs IH]; simpl; [done| |done].
  destruct (IsActive s wall); simpl; [|done].
  destruct (HasEffectiveLimit s); simpl; [f_equal|]; exact IH.
Qed.

Lemma elem_of_active_rows wall subs s :
  s ∈ active_rows wall subs <-> Some s ∈ subs /\ IsActive s wall = true.
Proof.
  unfold active_rows. rewrite list_elem_of_omap. split.
  - intros ([t|] & Hin & Heq); [|done]. destruct (IsActive t wall) eqn:E; by simplify_eq.
  - intros [Hin Ha]. exists (Some s). by rewrite Ha.
Qed.

Lemma elem_of_limited_wallets wall subs s :
  s ∈ limited_wallets wall subs <-> Some s ∈ subs /\ IsActive s wall = true /\ limited s.
Proof.
  unfold limited_wallets, limited. rewrite byExpiry_perm, list_elem_of_In, filter_In,
    <- list_elem_of_In, elem_of_active_rows. tauto.
Qed.

Lemma elem_of_unlimited_wallets wall subs s :
  s ∈ unlimited_wallets wall subs <->
  Some s ∈ subs /\ IsActive s wall = true /\ HasEffectiveLimit s = false.
Proof.
  unfold unlimited_wallets. rewrite byExpiry_perm, list_elem_of_In, filter_In,
    <- list_elem_of_In, elem_of_active_rows, negb_true_iff. tauto.
Qed.

Lemma limited_wallets_limited wall subs : Forall limited (limited_wallets wall subs).
Proof. apply Forall_forall. intros s ?%elem_of_limited_wallets. tauto. Qed.

Lemma limited_available now s :
  limited s -> exists a, available now s = Some a /\
    default 0 (EffectiveTotalLimit s) - EffectiveWindowUsageUSD 0 s now = a /\
    EffectiveTotalLimit s = Some (a + EffectiveWindowUsageUSD 0 s now).
Proof.
  unfold limited, HasEffectiveLimit, available. intros H.
  destruct (EffectiveTotalLimit s) as [c|]; [|done]. simpl.
  eexists; split_and!; [done|done|f_equal; lia].
Qed.

Lemma drain_cons now s l a :
  available now s = Some a ->
  drain now (s :: l) =
    if a <=? subscriptionAllocationEpsilon then drain now l
    else mkAlloc (ID s) a :: drain now l.
Proof. intros H. unfold drain. simpl. rewrite H. by destruct (a <=? _). Qed.

Lemma paid_cons x l : paid (x :: l) = AllocAmount x + paid l.
Proof. done. Qed.

Lemma paid_app l k : paid (l ++ k) = paid l + paid k.
Proof. apply total_app. Qed.

Lemma drain_amounts now l :
  Forall (fun x => subscriptionAllocationEpsilon < AllocAmount x) (drain now l).
Proof.
  induction l as [|s l IH]; [constructor|]. unfold drain. simpl.
  destruct (available now s) as [a|]; [|done]. destruct (Z.leb_spec a subscriptionAllocationEpsilon);
    [done|]. by constructor.
Qed.

Lemma paid_nonneg l :
  Forall (fun x => subscriptionAllocationEpsilon < AllocAmount x) l -> 0 <= paid l.
Proof.
  induction 1 as [|x l Hx _ IH]; [done|]. rewrite paid_cons.
  unfold subscriptionAllocationEpsilon in *. lia.
Qed.

Lemma drain_nonneg now l : 0 <= paid (drain now l).
Proof. apply paid_nonneg, drain_amounts. Qed.

(** The loop drains the wallets of a prefix; the next one, if any is needed,
pays what is left. *)
Lemma allocate_limited_spec now l rem :
  Forall limited l -> 0 < rem ->
  exists pre post tail,
    l = pre ++ post /\
    allocate_limited now l rem =
      (drain now pre ++ tail, rem - paid (drain now pre) - paid tail) /\
    0 < rem - paid (drain now pre) /\
    (tail = [] /\ (post = [] \/ rem - paid (drain now pre) <= subscriptionAllocationEpsilon) \/
     exists s r a, post = s :: r /\ tail = [mkAlloc (ID s) (rem - paid (drain now pre))] /\
       available now s = Some a /\
       subscriptionAllocationEpsilon < rem - paid (drain now pre) <= a).
Proof.
  intros Hl. revert rem. induction Hl as [|s l Hs Hl IH]; intros rem Hrem.
  { exists [], [], []. cbn. split_and!; [done|f_equal; lia|lia|]. left. auto. }
  cbn [allocate_limited].
  destruct (Z.leb_spec rem subscriptionAllocationEpsilon) as [Hsmall|Hbig].
  { exists [], (s :: l), []. cbn. split_and!; [done|f_equal; lia|lia|]. left. split; [done|right; lia]. }
  destruct (limited_available now s Hs) as (a & Ha & -> & _).
  destruct (Z.leb_spec a subscriptionAllocationEpsilon) as [Hlow|Hhas].
  { destruct (IH rem Hrem) as (pre & post & tail & -> & Heq & Hpos & Hcase).
    exists (s :: pre), post, tail. rewrite (drain_cons _ _ _ _ Ha).
    rewrite (proj2 (Z.leb_le _ _)) by done. auto. }
  destruct (Z.ltb_spec a rem) as [Hlt|Hge].
  - destruct (IH (rem - a)) as (pre & post & tail & -> & Heq & Hpos & Hcase); [lia|].
    exists (s :: pre), post, tail. rewrite (drain_cons _ _ _ _ Ha).
    rewrite (proj2 (Z.leb_gt _ _)) by done. rewrite Heq, paid_cons. cbn [AllocAmount].
    replace (rem - (a + paid (drain now pre))) with (rem - a - paid (drain now pre)) by lia.
    split_and!; auto.
  - exists [], (s :: l), [mkAlloc (ID s) rem].
    assert (H0 : allocate_limited now l (rem - rem) = ([], 0)).
    { replace (rem - rem) with 0 by lia. by destruct l. }
    rewrite H0. cbn. rewrite Z.sub_0_r.
    split_and!; [done|f_equal; lia|lia|]. right. exists s, l, a. auto.
Qed.

Lemma allocate_limited_drain now l rem :
  Forall limited l -> paid (drain now l) + subscriptionAllocationEpsilon < rem ->
  allocate_limited now l rem = (drain now l, rem - paid (drain now l)).
Proof.
  intros Hl. revert rem. induction Hl as [|s l Hs Hl IH]; intros rem Hrem; cbn [allocate_limited].
  { cbn. f_equal; lia. }
  pose proof (drain_nonneg now (s :: l)). rewrite (proj2 (Z.leb_gt _ _)) by lia.
  destruct (limited_available now s Hs) as (a & Ha & -> & _).
  rewrite (drain_cons _ _ _ _ Ha) in *. destruct (Z.leb_spec a subscriptionAllocationEpsilon);
    [auto|]. rewrite paid_cons in Hrem. cbn [AllocAmount] in Hrem.
  pose proof (drain_nonneg now l).
  rewrite (proj2 (Z.ltb_lt _ _)) by (unfold subscriptionAllocationEpsilon in *; lia).
  rewrite IH by lia. rewrite paid_cons. cbn [AllocAmount]. f_equal; lia.
Qed.

Lemma split_limited_drain now cost l filled :
  Forall limited l -> filled + paid (drain now l) + subscriptionAllocationEpsilon < cost ->
  split_limited now cost l filled = (drain now l, filled + paid (drain now l)).
Proof.
  intros Hl. revert filled.
  induction Hl as [|s l Hs Hl IH]; intros filled Hf; cbn [split_limited].
  { cbn. f_equal; lia. }
  pose proof (drain_nonneg now (s :: l)). rewrite (proj2 (Z.leb_gt _ _)) by lia.
  destruct (limited_available now s Hs) as (a & Ha & Hd & ->).
  replace (a + EffectiveWindowUsageUSD 0 s now - EffectiveWindowUsageUSD 0 s now) with a by lia.
  rewrite (drain_cons _ _ _ _ Ha) in *. destruct (Z.leb_spec a subscriptionAllocationEpsilon);
    [auto|]. rewrite paid_cons in Hf. cbn [AllocAmount] in Hf.
  pose proof (drain_nonneg now l).
  rewrite (proj2 (Z.ltb_lt _ _)) by (unfold subscriptionAllocationEpsilon in *; lia).
  rewrite IH by lia. rewrite paid_cons. cbn [AllocAmount]. f_equal; lia.
Qed.

Lemma not_positive_false cost : 0 < cost -> (cost <=? 0) = false.
Proof. apply Z.leb_gt. Qed.

(** The allocation fails exactly when there is no unlimited wallet and the
limited ones, emptied, do not cover the cost. *)
Lemma allocation_fails_iff wall subs cost now :
  0 < cost ->
  (AllocateSubscriptionUsageAt wall subs cost now).2 = false <->
  unlimited_wallets wall subs = [] /\
    paid (drain now (limited_wallets wall subs)) + subscriptionAllocationEpsilon < cost.
Proof.
  intros Hc. unfold AllocateSubscriptionUsageAt. rewrite (not_positive_false cost Hc).
  fold (limited_wallets wall subs). fold (unlimited_wallets wall subs).
  destruct (allocate_limited_spec now (limited_wallets wall subs) cost) as
    (pre & post & tail & Hl & -> & Hpos & Hcase); [apply limited_wallets_limited|done|].
  assert (Hdrain : paid (drain now (limited_wallets wall subs)) =
                   paid (drain now pre) + paid (drain now post)).
  { rewrite Hl. unfold drain. rewrite omap_app, paid_app. done. }
  pose proof (drain_nonneg now post).
  assert (Hshort : subscriptionAllocationEpsilon < cost - paid (drain now pre) - paid tail <->
    paid (drain now (limited_wallets wall subs)) + subscriptionAllocationEpsilon < cost).
  { rewrite Hdrain.
    destruct Hcase as [[-> [->|Hle]] | (s & r & a & -> & -> & Ha & Hgt & Hle)].
    - cbn. lia.
    - change (paid []) with 0. split; lia.
    - rewrite paid_cons. change (paid []) with 0. cbn [AllocAmount].
      split; [unfold subscriptionAllocationEpsilon; lia|].
      rewrite (drain_cons _ _ _ _ Ha). rewrite (proj2 (Z.leb_gt _ _)) by lia.
      rewrite paid_cons. cbn [AllocAmount]. pose proof (drain_nonneg now r). lia. }
  rewrite <- Hshort. clear Hshort Hcase Hdrain.
  destruct (unlimited_wallets wall subs) as [|u us];
    destruct (Z.ltb_spec subscriptionAllocationEpsilon (cost - paid (drain now pre) - paid tail)) as [Hgt|Hle];
    [tauto|split; [done|lia]| |rewrite (proj2 (Z.ltb_ge _ _)) by done];
    (split; [done|intros [? ?]; done]).
Qed.

(** The shape of an allocation: a prefix of the limited wallets is emptied, and a
[tail] of at most one allocation pays what is left. *)
Definition waterfall (wall : Time) (subs : list (option Sub_)) (cost : Amount) (now : Time)
    (allocs : list SubscriptionAllocation) : Prop :=
  exists pre post tail,
    limited_wallets wall subs = pre ++ post /\
    StronglySorted (fun x y => ExpiresAt x <= ExpiresAt y) (pre ++ post) /\
    allocs = drain now pre ++ tail /\
    (tail = [] \/
     (exists s r a, post = s :: r /\ available now s = Some a /\
        tail = [mkAlloc (ID s) (cost - paid (drain now pre))] /\
        subscriptionAllocationEpsilon < cost - paid (drain now pre) <= a) \/
     (exists u us, post = [] /\ unlimited_wallets wall subs = u :: us /\
        tail = [mkAlloc (ID u) (cost - paid (drain now pre))] /\
        subscriptionAllocationEpsilon < cost - paid (drain now pre) /\
        forall v, v ∈ us -> ExpiresAt u <= ExpiresAt v)).

Lemma allocation_spec wall subs cost now :
  0 < cost ->
  let '(allocs, ok) := AllocateSubscriptionUsageAt wall subs cost now in
  (ok = true ->
   cost - subscriptionAllocationEpsilon <= paid allocs <= cost /\
   waterfall wall subs cost now allocs) /\
  (ok = false <->
   unlimited_wallets wall subs = [] /\
   paid (drain now (limited_wallets wall subs)) + subscriptionAllocationEpsilon < cost).
Proof.
  intros Hc. pose proof (allocation_fails_iff wall subs cost now Hc) as Hfail.
  destruct (AllocateSubscriptionUsageAt wall subs cost now) as [allocs ok] eqn:Heq.
  split; [|exact Hfail]. intros ->. clear Hfail. revert Heq.
  unfold AllocateSubscriptionUsageAt. rewrite (not_positive_false cost Hc).
  fold (limited_wallets wall subs). fold (unlimited_wallets wall subs).
  destruct (allocate_limited_spec now (limited_wallets wall subs) cost) as
    (pre & post & tail & Hl & -> & Hpos & Hcase); [apply limited_wallets_limited|done|].
  assert (Hsort : StronglySorted (fun x y => ExpiresAt x <= ExpiresAt y) (pre ++ post)).
  { rewrite <- Hl. apply byExpiry_sorted. }
  assert (Hdone : forall al, drain now pre ++ tail = al ->
    cost - paid (drain now pre) - paid tail <= subscriptionAllocationEpsilon ->
    cost - subscriptionAllocationEpsilon <= paid al <= cost /\ waterfall wall subs cost now al).
  { intros al <- Hle. rewrite paid_app. split.
    - destruct Hcase as [[-> _]|(s & r & a & -> & -> & _)]; cbn in *; lia.
    - exists pre, post, tail. split_and!; try done.
      destruct Hcase as [[-> _]|(s & r & a & -> & -> & Ha & Hgt & Hleq)]; [by left|].
      right; left. exists s, r, a. done. }
  assert (Hus : StronglySorted (fun x y => ExpiresAt x <= ExpiresAt y) (unlimited_wallets wall subs))
    by apply byExpiry_sorted.
  destruct (unlimited_wallets wall subs) as [|u us] eqn:Eu;
    destruct (Z.ltb_spec subscriptionAllocationEpsilon (cost - paid (drain now pre) - paid tail)) as [Hgt|Hle];
    try (intros [= Hal]; by apply Hdone).
  - intros [= Hal]. clear Hdone.
    destruct Hcase as [[-> Hpost]|(s & r & a & -> & -> & _)];
      [|cbn in Hgt; unfold subscriptionAllocationEpsilon in Hgt; lia].
    change (paid []) with 0 in *. destruct Hpost as [->|]; [|lia]. rewrite !app_nil_r in *.
    rewrite <- Hal, paid_app, paid_cons. change (paid []) with 0. cbn [AllocAmount].
    unfold subscriptionAllocationEpsilon in *. split; [lia|].
    exists pre, [], [mkAlloc (ID u) (cost - paid (drain now pre))].
    rewrite app_nil_r. split_and!; [done|done|do 3 f_equal; lia|].
    right; right. exists u, us. split_and!; [done|done|done|unfold subscriptionAllocationEpsilon; lia|]. intros v Hv.
    inversion_clear Hus as [|? ? _ Hall]. by rewrite Forall_forall in Hall; apply Hall.
  - rewrite (proj2 (Z.ltb_ge _ _)) by done. intros [= Hal]. by apply Hdone.
Qed.

(** First to expire, first to be used.  An allocation that succeeds pays the
cost up to the tolerance, and never more.  The active wallets with a limit, in
the order of expiry, are emptied one by one; what is then left is paid by the
next of them, within what it has, or, when they are all empty, by the one
unlimited wallet that expires first.  It fails exactly when there is no
unlimited wallet and all limited ones together do not cover the cost. *)
Theorem allocation_soonest_first wall subs cost now :
  0 < cost ->
  let '(allocs, ok) := AllocateSubscriptionUsageAt wall subs cost now in
  (ok = true ->
   cost - subscriptionAllocationEpsilon <= paid allocs <= cost /\
   waterfall wall subs cost now allocs) /\
  (ok = false <->
   unlimited_wallets wall subs = [] /\
   paid (drain now (limited_wallets wall subs)) + subscriptionAllocationEpsilon < cost).
Proof. apply allocation_spec. Qed.

(** ** Splitting *)

(** An amount that the wallet can take. *)
Definition takes (now : Time) (s : Sub_) (x : SubscriptionAllocation) : Prop :=
  ID s = SubscriptionID x /\ subscriptionAllocationEpsilon < AllocAmount x /\
  forall a, available now s = Some a -> AllocAmount x <= a.

(** Every amount is taken by a wallet of its own. *)
Definition taken_from (now : Time) (rows : list Sub_) (allocs : list SubscriptionAllocation) : Prop :=
  exists ws, ws ⊆+ rows /\ Forall2 (takes now) ws allocs.

Lemma drain_taken now l : exists ws, ws `sublist_of` l /\ Forall2 (takes now) ws (drain now l).
Proof.
  induction l as [|s l (ws & Hsub & Hws)]; [exists []; by repeat constructor|].
  unfold drain. simpl. destruct (available now s) as [a|] eqn:Ea.
  - destruct (Z.leb_spec a subscriptionAllocationEpsilon).
    + exists ws. split; [by constructor|done].
    + exists (s :: ws). split; [by constructor|]. constructor; [|done].
      split_and!; [done|done|]. rewrite Ea. by intros ? [= ->].
  - exists ws. split; [by constructor|done].
Qed.

Lemma wallets_of_active wall subs :
  limited_wallets wall subs ++ unlimited_wallets wall subs ≡ₚ active_rows wall subs.
Proof.
  unfold limited_wallets, unlimited_wallets. rewrite !byExpiry_perm.
  induction (active_rows wall subs) as [|s l IH]; simpl; [done|].
  destruct (HasEffectiveLimit s); simpl; [by rewrite IH|].
  rewrite <- Permutation_middle. by rewrite IH.
Qed.

Lemma waterfall_taken wall subs cost now allocs :
  waterfall wall subs cost now allocs -> taken_from now (active_rows wall subs) allocs.
Proof.
  intros (pre & post & tail & Hl & _ & -> & Htail).
  destruct (drain_taken now pre) as (ws & Hsub%sublist_submseteq & Hws). unfold taken_from.
  setoid_rewrite <- (wallets_of_active wall subs). rewrite Hl.
  destruct Htail as [-> | [(s & r & a & -> & Ha & -> & Hgt & Hle) | (u & us & -> & Hu & -> & Hgt & _)]].
  - exists ws. rewrite app_nil_r. split; [|done]. rewrite <- app_assoc.
    by apply submseteq_inserts_r.
  - exists (ws ++ [s]). split.
    + rewrite <- (app_assoc pre). apply submseteq_app; [done|].
      apply submseteq_skip, submseteq_nil_l.
    + apply Forall2_app; [done|]. constructor; [|done]. split_and!; [done|done|].
      rewrite Ha. intros ? [= <-]. exact Hle.
  - exists (ws ++ [u]). rewrite Hu. split.
    + rewrite app_nil_r. apply submseteq_app; [done|]. apply submseteq_skip, submseteq_nil_l.
    + apply Forall2_app; [done|]. constructor; [|done]. split_and!; [done|done|].
      intros a Ha. exfalso.
      assert (Hin : u ∈ unlimited_wallets wall subs) by (rewrite Hu; constructor).
      apply elem_of_unlimited_wallets in Hin as (_ & _ & Hno).
      unfold HasEffectiveLimit in Hno. unfold available in Ha.
      by destruct (EffectiveTotalLimit u).
Qed.

Lemma split_spec wall subs cost now :
  0 < cost ->
  let '(allocs, remainder) := SplitSubscriptionUsageAt wall subs cost now in
  (remainder = 0 /\ cost - subscriptionAllocationEpsilon <= paid allocs <= cost /\
     AllocateSubscriptionUsageAt wall subs cost now = (allocs, true) \/
   subscriptionAllocationEpsilon < remainder /\ paid allocs + remainder = cost /\
     allocs = drain now (limited_wallets wall subs) /\ unlimited_wallets wall subs = []) /\
  taken_from now (active_rows wall subs) allocs.
Proof.
  intros Hc. unfold SplitSubscriptionUsageAt. rewrite (not_positive_false cost Hc).
  pose proof (allocation_spec wall subs cost now Hc) as Halloc.
  destruct (AllocateSubscriptionUsageAt wall subs cost now) as [allocs [|]] eqn:E; simpl in Halloc.
  - destruct Halloc as [[Hpaid Hw] _]; [done|]. split; [by left|]. by eapply waterfall_taken.
  - destruct Halloc as [_ Hiff]. destruct (proj1 Hiff eq_refl) as [Hu Hshort].
    rewrite sortedLimited_eq, split_limited_drain; [|apply limited_wallets_limited|lia].
    set (d := drain now (limited_wallets wall subs)) in *.
    rewrite (proj2 (Z.ltb_ge _ _)) by lia. split; [right; split_and!; [lia|lia|done|done]|].
    destruct (drain_taken now (limited_wallets wall subs)) as (ws & Hsub%sublist_submseteq & Hws).
    exists ws. split; [|exact Hws]. rewrite <- (wallets_of_active wall subs).
    by apply submseteq_inserts_r.
Qed.

(** Nothing is lost between the wallets and the balance.  Either the
wallets pay the whole cost (up to the tolerance) and nothing is left, by the
allocation above; or there is no unlimited wallet, every limited wallet is
emptied, and what is left for the balance is exactly the rest of the cost.  No
wallet pays more than it has, and none pays twice. *)
Theorem split_accounts wall subs cost now :
  0 < cost ->
  let '(allocs, remainder) := SplitSubscriptionUsageAt wall subs cost now in
  (remainder = 0 /\ cost - subscriptionAllocationEpsilon <= paid allocs <= cost /\
     AllocateSubscriptionUsageAt wall subs cost now = (allocs, true) \/
   subscriptionAllocationEpsilon < remainder /\ paid allocs + remainder = cost /\
     allocs = drain now (limited_wallets wall subs) /\ unlimited_wallets wall subs = []) /\
  taken_from now (active_rows wall subs) allocs.
Proof. apply split_spec. Qed.

(** ** The first wallet to charge *)

Definition wanted (wall : Time) (wantLimited wantActive : bool) (s : Sub_) : Prop :=
  (wantActive = true -> IsActive s wall = true) /\
  (wantLimited = true -> HasEffectiveLimit s = true).

(** The loop keeps the wanted row that expires first, the earlier one of equals. *)
Lemma pick_spec wall subs wl wa :
  match pick wall subs wl wa with
  | Some s => Some s ∈ subs /\ wanted wall wl wa s /\
      forall t, Some t ∈ subs -> wanted wall wl wa t -> ExpiresAt s <= ExpiresAt t
  | None => forall t, Some t ∈ subs -> ~ wanted wall wl wa t
  end.
Proof.
  unfold pick. induction subs as [|sub subs IH] using rev_ind.
  { simpl. by intros t ?%elem_of_nil. }
  rewrite foldl_snoc. cbv beta.
  set (best := foldl _ None subs) in *. clearbody best.
  assert (Hskip : (forall s, sub = Some s -> ~ wanted wall wl wa s) ->
    match best with
    | Some s => Some s ∈ subs ++ [sub] /\ wanted wall wl wa s /\
        forall t, Some t ∈ subs ++ [sub] -> wanted wall wl wa t -> ExpiresAt s <= ExpiresAt t
    | None => forall t, Some t ∈ subs ++ [sub] -> ~ wanted wall wl wa t
    end).
  { intros Hno. destruct best as [b|].
    - destruct IH as (Hin & Hw & Hmin). split_and!; [set_solver|done|].
      intros t [Ht|Heq%list_elem_of_singleton]%elem_of_app Hwt; [by apply Hmin|].
      by destruct (Hno t).
    - intros t [Ht|Heq%list_elem_of_singleton]%elem_of_app; [by apply IH|].
      by apply Hno. }
  destruct sub as [s|]; [|apply Hskip; by intros].
  destruct (wa && negb (IsActive s wall)) eqn:Ea.
  { apply Hskip. intros ? [= <-] [H _]. destruct wa; [|done]. by rewrite H in Ea. }
  destruct (wl && negb (HasEffectiveLimit s)) eqn:El.
  { apply Hskip. intros ? [= <-] [_ H]. destruct wl; [|done]. by rewrite H in El. }
  assert (Hs : wanted wall wl wa s).
  { split; intros ->; [destruct (IsActive s wall)|destruct (HasEffectiveLimit s)]; done. }
  clear Hskip. destruct best as [b|].
  - destruct IH as (Hin & Hw & Hmin). unfold Before.
    destruct (Z.ltb_spec (ExpiresAt s) (ExpiresAt b)) as [Hlt|Hge].
    + split_and!; [set_solver|done|].
      intros t [Ht|Heq%list_elem_of_singleton]%elem_of_app Hwt; [|by simplify_eq].
      specialize (Hmin t Ht Hwt). lia.
    + split_and!; [set_solver|done|].
      intros t [Ht|Heq%list_elem_of_singleton]%elem_of_app Hwt; [by apply Hmin|by simplify_eq].
  - split_and!; [set_solver|done|].
    intros t [Ht|Heq%list_elem_of_singleton]%elem_of_app Hwt; [by destruct (IH t Ht)|by simplify_eq].
Qed.

(** [t] is of a better class than [s]: active with a limit, then active, then
any. *)
Definition billing_class (wall : Time) (s : Sub_) : Z :=
  if IsActive s wall then if HasEffectiveLimit s then 0 else 1 else 2.

(** The first billable wallet is of the best class there is, and the first of
that class to expire; there is none only if there is no row. *)
Lemma FirstBillable_spec wall subs :
  match FirstBillableSubscription wall subs with
  | Some s => Some s ∈ subs /\ forall t, Some t ∈ subs ->
      billing_class wall s <= billing_class wall t /\
      (billing_class wall s = billing_class wall t -> ExpiresAt s <= ExpiresAt t)
  | None => forall t, Some t ∉ subs
  end.
Proof.
  unfold FirstBillableSubscription, billing_class.
  pose proof (pick_spec wall subs true true) as H1.
  pose proof (pick_spec wall subs false true) as H2.
  pose proof (pick_spec wall subs false false) as H3.
  assert (Hall : forall t, wanted wall false false t) by (intros t; split; done).
  destruct (pick wall subs true true) as [s|].
  { destruct H1 as (Hin & [Ha Hl] & Hmin). split; [done|]. intros t Ht.
    rewrite Ha, Hl by done. destruct (IsActive t wall) eqn:Et; [|lia].
    destruct (HasEffectiveLimit t) eqn:Elt; [|lia].
    assert (Hwt : wanted wall true true t) by (split; done). specialize (Hmin t Ht Hwt). lia. }
  destruct (pick wall subs false true) as [s|].
  { destruct H2 as (Hin & [Ha _] & Hmin). split; [done|]. intros t Ht. specialize (Ha eq_refl).
    assert (Hls : HasEffectiveLimit s = false).
    { destruct (HasEffectiveLimit s) eqn:E; [|done]. by destruct (H1 s Hin). }
    rewrite Ha, Hls. destruct (IsActive t wall) eqn:Et; [|lia].
    assert (Hwt : wanted wall false true t) by (split; done). specialize (Hmin t Ht Hwt).
    destruct (HasEffectiveLimit t) eqn:Elt; [by destruct (H1 t Ht)|lia]. }
  destruct (pick wall subs false false) as [s|].
  - destruct H3 as (Hin & _ & Hmin). split; [done|]. intros t Ht.
    assert (Hno : forall u, Some u ∈ subs -> IsActive u wall = false).
    { intros u Hu. destruct (IsActive u wall) eqn:Eu; [|done]. by destruct (H2 u Hu). }
    rewrite (Hno s Hin), (Hno t Ht). specialize (Hmin t Ht (Hall t)). lia.
  - intros t Ht. exact (H3 t Ht (Hall t)).
Qed.

Lemma taken_rows now wall subs allocs :
  taken_from now (active_rows wall subs) allocs -> allocs <> [] -> exists s, Some s ∈ subs.
Proof.
  intros (ws & Hsub & Hws) Hne. destruct Hws as [|s x ws allocs _ _]; [done|].
  exists s. eapply elem_of_submseteq in Hsub; [|by left]. by apply elem_of_active_rows in Hsub as [? _].
Qed.

(** A cost that has been incurred is recorded.  Unless it is within the
tolerance, the recorded amounts add up to it whenever the user has a
subscription row at all: by the allocation when the wallets cover it, else in
full on one row, which then exceeds its limit: the one that expires first among
the active rows with a limit, else among the active rows, else among all. *)
Theorem recordings_lose_nothing wall subs cost now :
  subscriptionAllocationEpsilon < cost ->
  let allocs := AllocateSubscriptionRecordingsAt wall subs cost now in
  (allocs = [] <-> forall s, Some s ∉ subs) /\
  (allocs <> [] -> cost - subscriptionAllocationEpsilon <= paid allocs <= cost) /\
  ((AllocateSubscriptionUsageAt wall subs cost now).2 = false -> allocs <> [] ->
   exists s, Some s ∈ subs /\ allocs = [mkAlloc (ID s) cost] /\
     forall t, Some t ∈ subs -> billing_class wall s <= billing_class wall t /\
       (billing_class wall s = billing_class wall t -> ExpiresAt s <= ExpiresAt t)).
Proof.
  intros Heps allocs. subst allocs. unfold AllocateSubscriptionRecordingsAt.
  assert (Hc : 0 < cost) by (unfold subscriptionAllocationEpsilon in Heps; lia).
  rewrite (not_positive_false cost Hc).
  pose proof (allocation_spec wall subs cost now Hc) as Halloc.
  destruct (AllocateSubscriptionUsageAt wall subs cost now) as [allocs [|]]; cbn [snd].
  - destruct Halloc as [[Hpaid Hw] _]; [done|]. split_and!; [|done|done].
    assert (Hne : allocs <> []) by (intros ->; cbn in *; lia).
    split; [done|]. intros Hno. apply waterfall_taken in Hw.
    destruct (taken_rows _ _ _ _ Hw Hne) as [s Hs]. by destruct (Hno s).
  - clear Halloc. pose proof (FirstBillable_spec wall subs) as HF.
    destruct (FirstBillableSubscription wall subs) as [s|].
    + destruct HF as [Hin Hbest]. split_and!; [|intros _; unfold subscriptionAllocationEpsilon; cbn; lia|intros _ _; by exists s].
      split; [done|]. intros Hno. by destruct (Hno s).
    + split_and!; done.
Qed.

(** ** Examples *)

Definition ex_wallet (id expires : Z) (limit : option Amount) (used : Amount) : Sub_ :=
  mkSubscription id 7 "active" expires limit used "none" 0 None.

(** Two limited wallets, the later one first, and one without a limit. *)
Definition ex_wallets : list (option Sub_) :=
  [Some (ex_wallet 1 300 (Some 5000) 1000); None; Some (ex_wallet 2 200 (Some 3000) 0);
   Some (ex_wallet 3 250 None 0); Some (ex_wallet 4 50 (Some 9000) 0)].

Example wallets_ex_split :
  SplitSubscriptionUsageAt 100 ex_wallets 6000 100 = ([mkAlloc 2 3000; mkAlloc 1 3000], 0) /\
  SplitSubscriptionUsageAt 100 ex_wallets 9000 100 =
    ([mkAlloc 2 3000; mkAlloc 1 4000; mkAlloc 3 2000], 0) /\
  SplitSubscriptionUsageAt 260 ex_wallets 9000 260 = ([mkAlloc 1 4000], 5000).
Proof. by vm_compute. Qed.

Lemma allocation_soonest_first_witness :
  (AllocateSubscriptionUsageAt 260 ex_wallets 9000 260).2 = false.
Proof.
  destruct (allocation_soonest_first 260 ex_wallets 9000 260 eq_refl) as [_ Hfail].
  apply Hfail. by vm_compute.
Defined.

Lemma split_accounts_witness :
  taken_from 100 (active_rows 100 ex_wallets) [mkAlloc 2 3000; mkAlloc 1 4000; mkAlloc 3 2000].
Proof. exact (proj2 (split_accounts 100 ex_wallets 9000 100 eq_refl)). Defined.

Lemma recordings_lose_nothing_witness :
  exists s : Sub_, AllocateSubscriptionRecordingsAt 260 ex_wallets 9000 260 = [mkAlloc (ID s) 9000].
Proof.
  destruct (recordings_lose_nothing 260 ex_wallets 9000 260 eq_refl) as (_ & _ & Hfirst).
  destruct Hfirst as (s & _ & Heq & _); [by vm_compute|by vm_compute|]. by exists s.
Defined.
