(* ===== verification/Programs.v ===== *)
(** * Programs over tables

A small monad for code that talks to a database: a program transforms a state
and may fail.  A statement may fail, a transaction that fails leaves the state
as it was, and the answer to a commit may be lost after the commit has taken
effect; which of them fail is an input, a list of faults.  [wp] is the weakest
precondition of a program over all lists of faults. *)
From S2P Require Import Prelude.
From Stdlib Require Import Bool.

Local Open Scope Z_scope.

(** What the driver reports for a statement; for a commit, [AnswerLost] is an
error of a commit that has taken effect. *)
Inductive fault : Type :=
  | Refused (msg : string)
  | AnswerLost (msg : string).

(** The faults of the statements to come, [None] for success; when the list ends
all succeed. *)
Definition faults : Type := list (option fault).

Definition next_fault (fs : faults) : option fault * faults :=
  match fs with [] => (None, []) | f :: r => (f, r) end.

Definition DriverErr (f : fault) : goerr :=
  match f with Refused m | AnswerLost m => ErrWrap "driver" (ErrMsg m) end.

Section Programs.
Context {S : Type}.
Implicit Types db : S.

Definition Txn (A : Type) : Type := S -> faults -> res A * S * faults.

Definition tret {A} (a : A) : Txn A := fun db fs => (Ok a, db, fs).
Definition tfail {A} (e : goerr) : Txn A := fun db fs => (Err e, db, fs).
Definition tbind {A B} (m : Txn A) (k : A -> Txn B) : Txn B := fun db fs =>
  match m db fs with
  | (Ok a, db', fs') => k a db' fs'
  | (Err e, db', fs') => (Err e, db', fs')
  end.

(** A call whose error the caller looks at. *)
Definition ttry {A} (m : Txn A) : Txn (res A) := fun db fs =>
  match m db fs with (r, db', fs') => (Ok r, db', fs') end.

Definition stmt {A} (f : S -> A * S) : Txn A := fun db fs =>
  match next_fault fs with
  | (Some e, fs') => (Err (DriverErr e), db, fs')
  | (None, fs') => let '(a, db') := f db in (Ok a, db', fs')
  end.

(** A statement outside a transaction commits by itself, so its answer can be
lost after it has taken effect. *)
Definition autocommit {A} (f : S -> A * S) : Txn A := fun db fs =>
  match next_fault fs with
  | (Some (Refused m), fs') => (Err (DriverErr (Refused m)), db, fs')
  | (Some (AnswerLost m), fs') => (Err (DriverErr (AnswerLost m)), (f db).2, fs')
  | (None, fs') => let '(a, db') := f db in (Ok a, db', fs')
  end.

(** [None] is [sql.ErrNoRows]. *)
Definition query {A} (f : S -> A) : Txn A := stmt (fun db => (f db, db)).

(** [BeginTx], the body, and [Commit] if the body asks for it; the deferred
[Rollback] otherwise. *)
Definition transaction {A} (body : Txn (bool * A)) (db : S) (fs : faults) : res A * S * faults :=
  match next_fault fs with
  | (Some e, fs) => (Err (DriverErr e), db, fs)
  | (None, fs) =>
      match body db fs with
      | (Err e, _, fs) => (Err e, db, fs)
      | (Ok (false, a), _, fs) => (Ok a, db, fs)
      | (Ok (true, a), db', fs) =>
          match next_fault fs with
          | (Some (Refused m), fs) => (Err (DriverErr (Refused m)), db, fs)
          | (Some (AnswerLost m), fs) => (Err (DriverErr (AnswerLost m)), db', fs)
          | (None, fs) => (Ok a, db', fs)
          end
      end
  end.

(** ** Reasoning about transactions: weakest preconditions over all faults *)

Definition wp {A} (m : Txn A) (Q : res A -> S -> Prop) (db : S) : Prop :=
  forall fs, match m db fs with (r, db', _) => Q r db' end.

(** [Q] holds of a result that is not an error. *)
Definition ensures {A} (Q : A -> S -> Prop) (r : res A) (db : S) : Prop :=
  match r with Ok a => Q a db | Err _ => True end.

Lemma wp_ret {A} (a : A) Q db : Q (Ok a) db -> wp (tret a) Q db.
Proof. by intros H fs. Qed.

Lemma wp_fail {A} e (Q : res A -> S -> Prop) db : Q (Err e) db -> wp (tfail e) Q db.
Proof. by intros H fs. Qed.

Lemma wp_mono {A} (m : Txn A) (P Q : res A -> S -> Prop) db :
  wp m P db -> (forall r db', P r db' -> Q r db') -> wp m Q db.
Proof.
  intros Hm HPQ fs. specialize (Hm fs). destruct (m db fs) as [[r db'] fs']. auto.
Qed.

Lemma wp_bind {A B} (m : Txn A) (k : A -> Txn B) Q db :
  wp m (fun r db' => match r with Ok a => wp (k a) Q db' | Err e => Q (Err e) db' end) db ->
  wp (tbind m k) Q db.
Proof.
  intros Hm fs. specialize (Hm fs). unfold tbind.
  destruct (m db fs) as [[[a|e] db'] fs']; [apply Hm|exact Hm].
Qed.

Lemma wp_try {A} (m : Txn A) Q db : wp m (fun r db' => Q (Ok r) db') db -> wp (ttry m) Q db.
Proof.
  intros Hm fs. specialize (Hm fs). unfold ttry. by destruct (m db fs) as [[r db'] fs'].
Qed.

Lemma wp_stmt {A} (f : S -> A * S) Q db :
  (forall e, Q (Err (DriverErr e)) db) -> Q (Ok (f db).1) (f db).2 -> wp (stmt f) Q db.
Proof.
  intros Herr Hok fs. unfold stmt. destruct (next_fault fs) as [[e|] fs']; [apply Herr|].
  by destruct (f db).
Qed.

Lemma wp_query {A} (f : S -> A) Q db :
  (forall e, Q (Err (DriverErr e)) db) -> Q (Ok (f db)) db -> wp (query f) Q db.
Proof. intros Herr Hok. by apply wp_stmt. Qed.

Lemma wp_autocommit {A} (f : S -> A * S) Q db :
  (forall e, Q (Err (DriverErr e)) db) -> (forall e, Q (Err (DriverErr e)) (f db).2) ->
  Q (Ok (f db).1) (f db).2 -> wp (autocommit f) Q db.
Proof.
  intros Hno Hlost Hok fs. unfold autocommit.
  destruct (next_fault fs) as [[[m|m]|] fs']; [apply Hno|apply Hlost|]. by destruct (f db).
Qed.

(** The rules for results that are not errors. *)
Lemma ensures_bind {A B} (m : Txn A) (k : A -> Txn B) P Q db :
  wp m (ensures P) db -> (forall a db', P a db' -> wp (k a) (ensures Q) db') ->
  wp (tbind m k) (ensures Q) db.
Proof.
  intros Hm Hk. apply wp_bind. eapply wp_mono; [exact Hm|].
  intros [a|e] db' Hr; [by apply Hk|done].
Qed.

Lemma ensures_ret {A} (a : A) (Q : A -> S -> Prop) db : Q a db -> wp (tret a) (ensures Q) db.
Proof. by intros HQ fs. Qed.

Lemma ensures_fail {A} e (Q : A -> S -> Prop) db : wp (tfail e) (ensures Q) db.
Proof. by intros fs. Qed.

Lemma ensures_stmt {A} (f : S -> A * S) (Q : A -> S -> Prop) db :
  Q (f db).1 (f db).2 -> wp (stmt f) (ensures Q) db.
Proof. intros HQ. by apply wp_stmt. Qed.

Lemma ensures_bind_stmt {A B} (f : S -> A * S) (k : A -> Txn B) Q db :
  wp (k (f db).1) (ensures Q) (f db).2 -> wp (tbind (stmt f) k) (ensures Q) db.
Proof. intros Hk. apply wp_bind. by apply wp_stmt. Qed.

Lemma ensures_bind_query {A B} (f : S -> A) (k : A -> Txn B) Q db :
  wp (k (f db)) (ensures Q) db -> wp (tbind (query f) k) (ensures Q) db.
Proof. intros Hk. by apply ensures_bind_stmt. Qed.

Lemma ensures_mono {A} (m : Txn A) (P Q : A -> S -> Prop) db :
  wp m (ensures P) db -> (forall a db', P a db' -> Q a db') -> wp m (ensures Q) db.
Proof. intros Hm HPQ. eapply wp_mono; [exact Hm|]. intros [a|e] db'; simpl; auto. Qed.

(** A transaction ends with the tables of its body or with those it found. *)
Lemma transaction_spec {A} (body : Txn (bool * A)) db fs Q :
  wp body (ensures Q) db ->
  match transaction body db fs with
  | (Ok a, db', _) => exists db1, Q (true, a) db1 /\ db' = db1 \/ Q (false, a) db1 /\ db' = db
  | (Err _, db', _) => db' = db \/ exists a, Q (true, a) db'
  end.
Proof.
  intros Hb. unfold transaction. destruct (next_fault fs) as [[e|] fs1]; [by left|].
  specialize (Hb fs1). destruct (body db fs1) as [[[[c a]|e] db1] fs2]; [|by left].
  cbn in Hb. destruct c; [|by exists db1; right].
  destruct (next_fault fs2) as [[[m|m]|] fs3]; [by left|right; by exists a|].
  exists db1. by left.
Qed.

Lemma wp_transaction {A} (body : Txn (bool * A)) db Q (P : res A -> S -> Prop) :
  wp body (ensures Q) db -> (forall e, P (Err e) db) ->
  (forall a db', Q (false, a) db' -> P (Ok a) db) ->
  (forall a db', Q (true, a) db' -> P (Ok a) db' /\ forall e, P (Err e) db') ->
  wp (transaction body) P db.
Proof.
  intros Hb Herr Hno Hyes fs. pose proof (transaction_spec body db fs Q Hb) as Hs.
  destruct (transaction body db fs) as [[[a|e] db'] fs'].
  - destruct Hs as (db1 & [[HQ ->]|[HQ ->]]); [by apply Hyes|by eapply Hno].
  - destruct Hs as [->|[a HQ]]; [apply Herr|]. by apply (Hyes a).
Qed.

(** ** Runs in which nothing fails *)

(** What holds after a run without faults. *)
Definition wp0 {A} (m : Txn A) (Q : res A -> S -> Prop) (db : S) : Prop :=
  match m db [] with (r, db', fs) => fs = [] /\ Q r db' end.

Lemma wp0_ret {A} (a : A) (Q : res A -> S -> Prop) db : Q (Ok a) db -> wp0 (tret a) Q db.
Proof. done. Qed.

Lemma wp0_fail {A} e (Q : res A -> S -> Prop) db : Q (Err e) db -> wp0 (tfail e) Q db.
Proof. done. Qed.

Lemma wp0_mono {A} (m : Txn A) (P Q : res A -> S -> Prop) db :
  wp0 m P db -> (forall r db', P r db' -> Q r db') -> wp0 m Q db.
Proof. unfold wp0. destruct (m db []) as [[r db'] fs]. intros [-> HP] HPQ. auto. Qed.

Lemma wp0_bind {A B} (m : Txn A) (k : A -> Txn B) Q db :
  wp0 m (fun r db' => match r with Ok a => wp0 (k a) Q db' | Err e => Q (Err e) db' end) db ->
  wp0 (tbind m k) Q db.
Proof. unfold wp0, tbind. destruct (m db []) as [[[a|e] db'] fs]; by intros [-> Hk]. Qed.

Lemma wp0_try {A} (m : Txn A) Q db : wp0 m (fun r db' => Q (Ok r) db') db -> wp0 (ttry m) Q db.
Proof. unfold wp0, ttry. by destruct (m db []) as [[r db'] fs]. Qed.

Lemma wp0_stmt {A} (f : S -> A * S) (Q : res A -> S -> Prop) db :
  Q (Ok (f db).1) (f db).2 -> wp0 (stmt f) Q db.
Proof. unfold wp0, stmt. cbn. by destruct (f db). Qed.

Lemma wp0_autocommit {A} (f : S -> A * S) (Q : res A -> S -> Prop) db :
  Q (Ok (f db).1) (f db).2 -> wp0 (autocommit f) Q db.
Proof. unfold wp0, autocommit. cbn. by destruct (f db). Qed.

Lemma wp0_query {A} (f : S -> A) (Q : res A -> S -> Prop) db : Q (Ok (f db)) db -> wp0 (query f) Q db.
Proof. done. Qed.

Lemma wp0_transaction {A} (body : Txn (bool * A)) (P : res A -> S -> Prop) db :
  wp0 body (fun r db' => match r with
                         | Ok (true, a) => P (Ok a) db'
                         | Ok (false, a) => P (Ok a) db
                         | Err e => P (Err e) db
                         end) db ->
  wp0 (transaction body) P db.
Proof.
  unfold wp0, transaction. cbn. destruct (body db []) as [[[[[] a]|e] db'] fs]; by intros [-> HP].
Qed.

End Programs.
Arguments Txn : clear implicits.

Notation "'let!' x := m 'in' k" := (tbind m (fun x => k))
  (at level 200, x name, m at level 100, k at level 200).

(** [tx_step]: one step of a transaction's program. *)
Ltac tx_step :=
  match goal with
  | |- wp (tret _) (ensures _) _ => apply ensures_ret
  | |- wp (tfail _) (ensures _) _ => apply ensures_fail
  | |- wp (tbind (stmt _) _) (ensures _) _ => apply ensures_bind_stmt; cbn [fst snd]
  | |- wp (tbind (query _) _) (ensures _) _ => apply ensures_bind_query
  | |- wp (stmt _) (ensures _) _ => apply ensures_stmt; cbn [fst snd]
  end.

(** [run_step]: one step of a program that meets no failure. *)
Ltac run_step :=
  match goal with
  | |- wp0 (tret _) _ _ => apply wp0_ret
  | |- wp0 (tfail _) _ _ => apply wp0_fail
  | |- wp0 (tbind _ _) _ _ => apply wp0_bind
  | |- wp0 (ttry _) _ _ => apply wp0_try
  | |- wp0 (stmt _) _ _ => apply wp0_stmt; cbn [fst snd]
  | |- wp0 (query _) _ _ => apply wp0_query
  | |- wp0 (autocommit _) _ _ => apply wp0_autocommit; cbn [fst snd]
  | |- wp0 (transaction _) _ _ => apply wp0_transaction
  end; cbn [negb].
