(* ===== verification/Redis.v ===== *)
(** * Redis, as the code uses it

Redis is a service outside the repository.  [Redis] is the interface the code
relies on: the commands it sends, each with the documented effect on its key
([effect]), the server's clock and expiry.  [MapRedis] is a concrete server that
has these laws, on which examples run.

On the interface: Lua scripts ([Script]), and clients ([Client]) whose requests
may fail or lose their answer, and between whose requests other clients act and
time passes. *)
From S2P Require Import Prelude GoText Programs.
From Stdlib Require Import Bool.

Local Open Scope string_scope.
Local Open Scope Z_scope.

(** ** Decimal numbers *)

Definition digit_of (c : ascii) : option Z :=
  let d := ascii_byte c - 48 in if (0 <=? d) && (d <=? 9) then Some d else None.

Definition digit (d : Z) : ascii := ascii_of_N (Z.to_N (48 + d)).

Fixpoint format_digits (fuel : nat) (n : Z) (acc : string) : string :=
  match fuel with
  | O => acc
  | S f => let acc := String (digit (n mod 10)) acc in
           if n <? 10 then acc else format_digits f (n / 10) acc
  end.

(** [strconv.FormatInt(z, 10)]; 64-bit integers have at most 19 digits. *)
Definition FormatInt (z : Z) : string :=
  if z <? 0 then String "-" (format_digits 20 (- z) "") else format_digits 20 z "".

Fixpoint parse_digits (s : string) (n : Z) : option Z :=
  match s with
  | EmptyString => Some n
  | String c r => match digit_of c with Some d => parse_digits r (10 * n + d) | None => None end
  end.

Definition parse_unsigned (s : string) : option Z :=
  if String.eqb s "" then None else parse_digits s 0.

(** [strconv.ParseInt(s, 10, 64)], [None] for its errors. *)
Definition ParseInt (s : string) : option Z :=
  let n := match s with
           | String c r => if Ascii.eqb c "-" then option_map Z.opp (parse_unsigned r)
                           else if Ascii.eqb c "+" then parse_unsigned r
                           else parse_unsigned s
           | EmptyString => None
           end in
  match n with
  | Some z => if (- two63 <=? z) && (z <? two63) then Some z else None
  | None => None
  end.

(** ** Values, commands and replies *)

(** Scores are integers: the code uses seconds and milliseconds, which a double
represents exactly. *)
Notation zset := (gmap string Z).

Inductive RedisValue : Type :=
  | RString (s : string)
  | RList (l : list string)
  | RZSet (z : zset).

#[global] Instance RedisValue_eq_dec : EqDecision RedisValue.
Proof. solve_decision. Defined.

Inductive Command : Type :=
  | GET (key : string)
  | SET (key value : string) (nx : bool) (px : option Z)
  | DEL (key : string)
  | EXISTS (key : string)
  | PEXPIRE (key : string) (ms : Z)
  | PTTL (key : string)
  | INCR (key : string) (by_ : Z)
  | LPUSH (key value : string)
  | RPOP (key : string)
  | ZADD (key : string) (score : Z) (member : string)
  | ZADDXX (key : string) (score : Z) (member : string)
  | ZREM (key member : string)
  | ZSCORE (key member : string)
  | ZCARD (key : string)
  | ZREMRANGEBYSCORE (key : string) (max : Z)
  | ZRANGEBYSCORE (key : string) (max limit : Z)
  | ZRANGE (key : string).

Inductive Reply : Type :=
  | Nil
  | StatusOK
  | Int (z : Z)
  | Bulk (s : string)
  | Array (l : list string)
  | ReplyErr (msg : string).

Definition key_of (c : Command) : string :=
  match c with
  | GET k | SET k _ _ _ | DEL k | EXISTS k | PEXPIRE k _ | PTTL k | INCR k _ | LPUSH k _ | RPOP k
  | ZADD k _ _ | ZADDXX k _ _ | ZREM k _ | ZSCORE k _ | ZCARD k | ZREMRANGEBYSCORE k _
  | ZRANGEBYSCORE k _ _ | ZRANGE k => k
  end.

(** The members in order: by score, then by name. *)
Definition zset_before (a b : string * Z) : bool :=
  (a.2 <? b.2) || ((a.2 =? b.2) && String.ltb a.1 b.1).
Definition zset_order (z : zset) : list (string * Z) := stable_sort zset_before (map_to_list z).

Definition zset_upto (z : zset) (max : Z) : list (string * Z) :=
  filter (fun p => p.2 <= max) (zset_order z).

Lemma elem_of_zset_upto z max m s :
  (m, s) ∈ zset_upto z max <-> z !! m = Some s /\ s <= max.
Proof.
  unfold zset_upto, zset_order. rewrite list_elem_of_filter, stable_sort_perm, elem_of_map_to_list.
  simpl. tauto.
Qed.

Lemma NoDup_zset_upto z max : NoDup (map fst (zset_upto z max)).
Proof.
  unfold zset_upto, zset_order.
  assert (Hnd : NoDup (map fst (stable_sort zset_before (map_to_list z)))).
  { change (NoDup (fst <$> stable_sort zset_before (map_to_list z))).
    rewrite stable_sort_perm. apply NoDup_fst_map_to_list. }
  revert Hnd. generalize (stable_sort zset_before (map_to_list z)). intros l.
  induction l as [|[m s] l IH]; simpl; [done|]. intros [Hm Hl]%NoDup_cons.
  rewrite filter_cons. case_decide; [|auto]. simpl. constructor; [|auto].
  intros [p [-> [_ Hp]%list_elem_of_filter]]%list_elem_of_fmap. apply Hm.
  apply list_elem_of_fmap. eauto.
Qed.

(** A key without elements does not exist. *)
Definition of_zset (z : zset) : option RedisValue := if decide (z = ∅) then None else Some (RZSet z).
Definition of_list (l : list string) : option RedisValue :=
  match l with [] => None | _ => Some (RList l) end.

Definition WRONGTYPE : Reply := ReplyErr "WRONGTYPE".

(** The entry of a key: its value, and the server time in milliseconds at which
it expires. *)
Definition entry : Type := option RedisValue * option Z.

(** A key that is gone has no expiry. *)
Definition entry_of (v : option RedisValue) (e : option Z) : entry :=
  (v, match v with Some _ => e | None => None end).

Definition on_list (en : entry) (f : list string -> list string * Reply) : entry * Reply :=
  match en with
  | (None, e) => let '(l, r) := f [] in (entry_of (of_list l) e, r)
  | (Some (RList l), e) => let '(l, r) := f l in (entry_of (of_list l) e, r)
  | _ => (en, WRONGTYPE)
  end.

Definition on_zset (en : entry) (f : zset -> zset * Reply) : entry * Reply :=
  match en with
  | (None, e) => let '(z, r) := f ∅ in (entry_of (of_zset z) e, r)
  | (Some (RZSet z), e) => let '(z, r) := f z in (entry_of (of_zset z) e, r)
  | _ => (en, WRONGTYPE)
  end.

(** The documented effect of a command on the entry of its key, at a server time
in milliseconds. *)
Definition effect (now : Z) (c : Command) (en : entry) : entry * Reply :=
  match c with
  | GET _ => (en, match en.1 with
                  | None => Nil | Some (RString s) => Bulk s | Some _ => WRONGTYPE end)
  | SET _ v nx px =>
      if match px with Some ms => ms <=? 0 | None => false end
      then (en, ReplyErr "ERR invalid expire time in 'set' command")
      else if nx && bool_decide (en.1 <> None) then (en, Nil)
      else ((Some (RString v), option_map (Z.add now) px), StatusOK)
  | DEL _ => ((None, None), Int (if decide (en.1 = None) then 0 else 1))
  | EXISTS _ => (en, Int (if decide (en.1 = None) then 0 else 1))
  | PEXPIRE _ ms =>
      if decide (en.1 = None) then (en, Int 0)
      else if ms <=? 0 then ((None, None), Int 1)
      else ((en.1, Some (now + ms)), Int 1)
  | PTTL _ => (en, match en with
                   | (None, _) => Int (-2)
                   | (Some _, None) => Int (-1)
                   | (Some _, Some e) => Int (e - now)
                   end)
  | INCR _ n =>
      let add z := if (- two63 <=? z + n) && (z + n <? two63)
                   then ((Some (RString (FormatInt (z + n))), en.2), Int (z + n))
                   else (en, ReplyErr "ERR increment or decrement would overflow") in
      match en.1 with
      | None => add 0
      | Some (RString s) => match ParseInt s with
                            | Some z => add z
                            | None => (en, ReplyErr "ERR value is not an integer or out of range")
                            end
      | Some _ => (en, WRONGTYPE)
      end
  | LPUSH _ v => on_list en (fun l => (v :: l, Int (Z.of_nat (S (length l)))))
  | RPOP _ => on_list en (fun l => match last l with
                                   | Some v => (take (length l - 1) l, Bulk v)
                                   | None => ([], Nil)
                                   end)
  | ZADD _ s m => on_zset en (fun z => (<[m := s]> z, Int (if decide (is_Some (z !! m)) then 0 else 1)))
  | ZADDXX _ s m => on_zset en (fun z => (if decide (is_Some (z !! m)) then <[m := s]> z else z, Int 0))
  | ZREM _ m => on_zset en (fun z => (delete m z, Int (if decide (is_Some (z !! m)) then 1 else 0)))
  | ZSCORE _ m => on_zset en (fun z => (z, match z !! m with Some s => Int s | None => Nil end))
  | ZCARD _ => on_zset en (fun z => (z, Int (Z.of_nat (size z))))
  | ZREMRANGEBYSCORE _ max =>
      on_zset en (fun z => (filter (fun p => max < p.2) z,
                            Int (Z.of_nat (size (filter (fun p => p.2 <= max) z)))))
  | ZRANGEBYSCORE _ max limit =>
      on_zset en (fun z => (z, Array (take (Z.to_nat limit) (map fst (zset_upto z max)))))
  | ZRANGE _ => on_zset en (fun z => (z, Array (map fst (zset_order z))))
  end.

(** [ZSCORE] answers a string; the code only compares it with nil or turns it into
a number, and the number is what is kept here. *)

(** ** The interface *)

(** A key is gone when its time has passed. *)
Definition alive (now : Z) (e : option Z) : bool :=
  match e with Some t => now <=? t | None => true end.

Class Redis (Db : Type) : Type := {
  peek : Db -> string -> entry;
  micros : Db -> Z;
  exec : Command -> Db -> Db * Reply;
  elapse : Z -> Db -> Db;
  peek_gone db k : (peek db k).1 = None -> (peek db k).2 = None;
  exec_reply c db : (exec c db).2 = (effect (micros db / 1000) c (peek db (key_of c))).2;
  exec_key c db : peek (exec c db).1 (key_of c) = (effect (micros db / 1000) c (peek db (key_of c))).1;
  exec_other c db k : k <> key_of c -> peek (exec c db).1 k = peek db k;
  exec_micros c db : micros (exec c db).1 = micros db;
  elapse_micros d db : micros (elapse d db) = micros db + Z.max 0 d;
  elapse_peek d db k :
    peek (elapse d db) k =
    if alive (micros (elapse d db) / 1000) (peek db k).2 then peek db k else (None, None)
}.

(** ** A concrete server *)

Record MapRedis : Type := mkMapRedis { entries : gmap string (RedisValue * option Z); map_micros : Z }.

Definition map_peek (db : MapRedis) (k : string) : entry :=
  match entries db !! k with Some (v, e) => (Some v, e) | None => (None, None) end.

Definition map_put (k : string) (en : entry) (db : MapRedis) : MapRedis :=
  mkMapRedis (match en with
              | (Some v, e) => <[k := (v, e)]> (entries db)
              | (None, _) => delete k (entries db)
              end) (map_micros db).

Definition map_exec (c : Command) (db : MapRedis) : MapRedis * Reply :=
  let '(en, r) := effect (map_micros db / 1000) c (map_peek db (key_of c)) in
  (map_put (key_of c) en db, r).

Definition map_elapse (d : Z) (db : MapRedis) : MapRedis :=
  let now := map_micros db + Z.max 0 d in
  mkMapRedis (filter (fun p => alive (now / 1000) p.2.2 = true) (entries db)) now.

(** A command leaves no expiry on a key that is gone. *)
Definition proper_entry (en : entry) : Prop := en.1 = None -> en.2 = None.

Lemma effect_proper now c en : proper_entry en -> proper_entry (effect now c en).1.
Proof.
  unfold proper_entry, effect, on_list, on_zset, entry_of. destruct en as [[v|] e]; intros Hp;
    destruct c; simpl in *; repeat (case_match; simplify_eq/=; try done); auto.
Qed.

Lemma map_peek_put k en db k' : proper_entry en ->
  map_peek (map_put k en db) k' = if decide (k' = k) then en else map_peek db k'.
Proof.
  unfold map_peek, map_put, proper_entry. destruct en as [[v|] e]; simpl; intros Hp; case_decide; subst.
  - by rewrite lookup_insert_eq.
  - by rewrite lookup_insert_ne.
  - rewrite lookup_delete_eq. by rewrite Hp.
  - by rewrite lookup_delete_ne.
Qed.

Lemma map_peek_proper db k : proper_entry (map_peek db k).
Proof. unfold proper_entry, map_peek. by destruct (entries db !! k) as [[v e]|]. Qed.

#[export] Program Instance map_redis : Redis MapRedis := {
  peek := map_peek; micros := map_micros; exec := map_exec; elapse := map_elapse
}.
Next Obligation. apply map_peek_proper. Qed.
Next Obligation. intros c db. unfold map_exec. by destruct (effect _ _ _). Qed.
Next Obligation.
  intros c db. unfold map_exec. destruct (effect _ _ _) as [en r] eqn:E. simpl.
  rewrite map_peek_put, decide_True; [done|done|].
  pose proof (effect_proper (map_micros db / 1000) c _ (map_peek_proper db (key_of c))) as Hp.
  by rewrite E in Hp.
Qed.
Next Obligation.
  intros c db k Hk. unfold map_exec. destruct (effect _ _ _) as [en r] eqn:E. simpl.
  rewrite map_peek_put, decide_False; [done|done|].
  pose proof (effect_proper (map_micros db / 1000) c _ (map_peek_proper db (key_of c))) as Hp.
  by rewrite E in Hp.
Qed.
Next Obligation. intros c db. unfold map_exec. by destruct (effect _ _ _). Qed.
Next Obligation. done. Qed.
Next Obligation.
  intros d db k. unfold map_peek, map_elapse. simpl. rewrite map_lookup_filter.
  destruct (entries db !! k) as [[v e]|] eqn:E; simpl; [|done].
  destruct (alive _ e) eqn:Ea; by rewrite ?option_guard_True, ?option_guard_False by (rewrite ?Ea; done).
Qed.

Definition empty_redis : MapRedis := mkMapRedis ∅ 0.

(** ** What a command does *)

Section Commands.
Context `{Redis Db}.
Implicit Types db : Db.

Definition server_ms (db : Db) : Z := micros db / 1000.
Definition server_s (db : Db) : Z := micros db / 1000000.

Definition value_of (db : Db) (k : string) : option RedisValue := (peek db k).1.
Definition expiry_of (db : Db) (k : string) : option Z := (peek db k).2.

Lemma peek_exec c db k :
  peek (exec c db).1 k =
  if decide (k = key_of c) then (effect (server_ms db) c (peek db (key_of c))).1 else peek db k.
Proof. case_decide; subst; [by rewrite exec_key|by apply exec_other]. Qed.

Lemma exec_ms c db : server_ms (exec c db).1 = server_ms db.
Proof. unfold server_ms. by rewrite exec_micros. Qed.

(** The sorted set of a key, empty when the key does not exist; [None] when it
holds something else. *)
Definition zset_at (db : Db) (k : string) : option zset :=
  match value_of db k with None => Some ∅ | Some (RZSet z) => Some z | _ => None end.

Definition list_at (db : Db) (k : string) : option (list string) :=
  match value_of db k with None => Some [] | Some (RList l) => Some l | _ => None end.

Lemma of_zset_at (z : zset) :
  match of_zset z with None => Some ∅ | Some (RZSet z) => Some z | _ => None end = Some z.
Proof. unfold of_zset. case_decide; by subst. Qed.

Lemma of_list_at l :
  match of_list l with None => Some [] | Some (RList l) => Some l | _ => None end = Some l.
Proof. by destruct l. Qed.

(** ** Lua scripts

The commands of a script run without interruption; an error ends the script, and
what it has done stays. *)
Definition Script (A : Type) : Type := Db -> Db * res A.

Definition sret {A} (a : A) : Script A := fun db => (db, Ok a).
Definition sfail {A} (e : goerr) : Script A := fun db => (db, Err e).
Definition sbind {A B} (m : Script A) (k : A -> Script B) : Script B := fun db =>
  match m db with
  | (db', Ok a) => k a db'
  | (db', Err e) => (db', Err e)
  end.

(** [redis.call] *)
Definition call (c : Command) : Script Reply := fun db =>
  match exec c db with
  | (db', ReplyErr msg) => (db', Err (ErrMsg msg))
  | (db', r) => (db', Ok r)
  end.

(** The commands of [MULTI] and [EXEC]: all of them run; the error of the first
that fails is reported. *)
Fixpoint multi (cs : list Command) : Script (list Reply) := fun db =>
  match cs with
  | [] => (db, Ok [])
  | c :: cs => let '(db1, r) := call c db in
               let '(db2, rs) := multi cs db1 in
               (db2, match r, rs with
                     | Err e, _ => Err e
                     | _, Err e => Err e
                     | Ok r, Ok rs => Ok (r :: rs)
                     end)
  end.

(** [EXPIRE], in seconds, and [TIME] in seconds and in milliseconds. *)
Definition EXPIRE (key : string) (s : Z) : Command := PEXPIRE key (1000 * s).
Definition time_s : Script Z := fun db => (db, Ok (server_s db)).
Definition time_ms : Script Z := fun db => (db, Ok (server_ms db)).

(** A command whose reply the script uses as a number. *)
Definition call_int (c : Command) : Script Z :=
  sbind (call c) (fun r =>
    match r with
    | Int z => sret z
    | _ => sfail (ErrMsg "attempt to perform arithmetic on a nil value")
    end).

(** The reply as a number, as [Cmd.Int] reads it. *)
Definition reply_int (r : Reply) : res Z :=
  match r with
  | Int z => Ok z
  | Bulk s => match ParseInt s with Some z => Ok z | None => Err (ErrMsg "strconv") end
  | Nil => Err (ErrMsg "redis: nil")
  | _ => Err (ErrMsg "redis: unexpected type")
  end.

Definition reply_members (r : Reply) : list string := match r with Array l => l | _ => [] end.

Lemma call_ok c db : (forall m, (exec c db).2 <> ReplyErr m) ->
  call c db = ((exec c db).1, Ok (exec c db).2).
Proof. unfold call. destruct (exec c db) as [db' []]; simpl; intros Hn; try done. by destruct (Hn msg). Qed.

Lemma call_db c db : (call c db).1 = (exec c db).1.
Proof. unfold call. by destruct (exec c db) as [db' []]. Qed.

(** Scripts take no time. *)
Definition quiet {A} (s : Script A) : Prop := forall db, micros (s db).1 = micros db.

Lemma quiet_call c : quiet (call c).
Proof. intros db. rewrite call_db. apply exec_micros. Qed.

Lemma quiet_bind {A B} (m : Script A) (k : A -> Script B) :
  quiet m -> (forall a, quiet (k a)) -> quiet (sbind m k).
Proof.
  intros Hm Hk db. unfold sbind. specialize (Hm db). destruct (m db) as [db' [a|e]]; [|done].
  rewrite Hk. exact Hm.
Qed.

Lemma quiet_ret {A} (a : A) : quiet (sret a).
Proof. done. Qed.

Lemma quiet_multi cs : quiet (multi cs).
Proof.
  induction cs as [|c cs IH]; intros db; [done|]. cbn [multi].
  pose proof (quiet_call c db) as Hc. destruct (call c db) as [db1 r].
  specialize (IH db1). destruct (multi cs db1) as [db2 rs]. cbn in *. by rewrite IH.
Qed.

Lemma quiet_fail {A} e : quiet (sfail e : Script A).
Proof. done. Qed.

Lemma quiet_time : quiet time_s /\ quiet time_ms.
Proof. done. Qed.

Lemma quiet_call_int c : quiet (call_int c).
Proof.
  apply quiet_bind; [apply quiet_call|]. intros r. destruct r; first [apply quiet_ret|apply quiet_fail].
Qed.

(** *** Reasoning about scripts *)

Definition swp {A} (m : Script A) (Q : res A -> Db -> Prop) (db : Db) : Prop := Q (m db).2 (m db).1.

Lemma swp_ret {A} (a : A) (Q : res A -> Db -> Prop) db : Q (Ok a) db -> swp (sret a) Q db.
Proof. done. Qed.

Lemma swp_bind {A B} (m : Script A) (k : A -> Script B) Q db :
  swp m (fun r db' => match r with Ok a => swp (k a) Q db' | Err e => Q (Err e) db' end) db ->
  swp (sbind m k) Q db.
Proof. unfold swp, sbind. by destruct (m db) as [db' [a|e]]. Qed.

Lemma swp_mono {A} (m : Script A) (P Q : res A -> Db -> Prop) db :
  swp m P db -> (forall r db', P r db' -> Q r db') -> swp m Q db.
Proof. unfold swp. auto. Qed.

(** [db'] is [db] with another entry at one key. *)
Definition upd (k : string) (en : entry) (db db' : Db) : Prop :=
  peek db' k = en /\ (forall k', k' <> k -> peek db' k' = peek db k') /\ micros db' = micros db.

Lemma upd_exec c db :
  upd (key_of c) (effect (server_ms db) c (peek db (key_of c))).1 db (exec c db).1.
Proof. split; [apply exec_key|split; [intros k; apply exec_other|apply exec_micros]]. Qed.

(** What a script sees of a reply. *)
Definition reply_res (r : Reply) : res Reply :=
  match r with ReplyErr m => Err (ErrMsg m) | _ => Ok r end.

Lemma swp_call c en r (Q : res Reply -> Db -> Prop) db :
  effect (server_ms db) c (peek db (key_of c)) = (en, r) ->
  (forall db', upd (key_of c) en db db' -> Q (reply_res r) db') ->
  swp (call c) Q db.
Proof.
  intros He HQ. unfold swp, call.
  pose proof (exec_reply c db) as Hrep. pose proof (upd_exec c db) as Hu.
  unfold server_ms in He, Hu. rewrite He in Hrep, Hu.
  destruct (exec c db) as [db' r']. simpl in *. subst r'. specialize (HQ db' Hu). by destruct r.
Qed.

Lemma swp_multi_nil (Q : res (list Reply) -> Db -> Prop) db : Q (Ok []) db -> swp (multi []) Q db.
Proof. done. Qed.

(** Commands of a transaction, none of which fails. *)
Lemma swp_multi_cons c cs (Q : res (list Reply) -> Db -> Prop) db :
  swp (call c) (fun r db' => exists x, r = Ok x /\
    swp (multi cs) (fun rs db'' => Q (match rs with Ok rs => Ok (x :: rs) | Err e => Err e end) db'')
      db') db ->
  swp (multi (c :: cs)) Q db.
Proof.
  unfold swp. cbn [multi]. destruct (call c db) as [db1 r]. cbn [fst snd].
  intros (x & -> & Hm). by destruct (multi cs db1) as [db2 [rs|e]].
Qed.

Lemma upd_ms k en db db' : upd k en db db' -> server_ms db' = server_ms db.
Proof. intros (_ & _ & Hm). unfold server_ms. by rewrite Hm. Qed.

(** The entry of a list, and of a sorted set, with an expiry. *)
Definition list_entry (l : list string) (e : option Z) : entry := entry_of (of_list l) e.
Definition zset_entry (z : zset) (e : option Z) : entry := entry_of (of_zset z) e.

Lemma on_list_entry l e (f : list string -> list string * Reply) :
  on_list (list_entry l e) f =
  (list_entry (f l).1 (match l with [] => None | _ => e end), (f l).2).
Proof. unfold list_entry, on_list, entry_of. destruct l; simpl; by destruct (f _) as [[] r]. Qed.

Lemma on_zset_entry z e (f : zset -> zset * Reply) :
  on_zset (zset_entry z e) f = (zset_entry (f z).1 (if decide (z = ∅) then None else e), (f z).2).
Proof.
  unfold zset_entry, on_zset, of_zset at 1, entry_of.
  case_decide as Hz; [subst|]; by destruct (f _) as [z' r].
Qed.

(** The same for keys that never expire. *)
Lemma on_list_forever l (f : list string -> list string * Reply) :
  on_list (list_entry l None) f = (list_entry (f l).1 None, (f l).2).
Proof. rewrite on_list_entry. by destruct l. Qed.

Lemma on_zset_forever z (f : zset -> zset * Reply) :
  on_zset (zset_entry z None) f = (zset_entry (f z).1 None, (f z).2).
Proof. rewrite on_zset_entry. by case_decide. Qed.

End Commands.
Arguments Script : clear implicits.

Notation "'do!' x := m 'in' k" := (sbind m (fun x => k))
  (at level 200, x name, m at level 100, k at level 200).

(** [quiet_step]: one step of the proof that a script takes no time. *)
Ltac quiet_step :=
  first [ apply quiet_call | apply quiet_ret | apply quiet_fail | apply quiet_multi
        | apply quiet_call_int | apply quiet_time | apply quiet_bind; [|intros ?] | case_match ].

(** ** Clients *)

(** What happens until the next request reaches the server: other clients act on
it and its time passes, the client's clock runs, and the client's context may be
cancelled. *)
Record Turn (Db : Type) : Type := mkTurn { others : Db -> Db; passes : Duration; cancels : bool }.
Arguments mkTurn {_}.
Arguments others {_}.
Arguments passes {_}.
Arguments cancels {_}.

Record World (Db : Type) : Type := mkWorld {
  server : Db;
  clock : Time;
  ctx_done : bool;
  turns : list (Turn Db)
}.
Arguments mkWorld {_}.
Arguments server {_}.
Arguments clock {_}.
Arguments ctx_done {_}.
Arguments turns {_}.

Definition with_server {Db} (db : Db) (w : World Db) : World Db :=
  mkWorld db (clock w) (ctx_done w) (turns w).

(** When the list of turns has ended nothing else happens. *)
Definition arrive {Db} (w : World Db) : World Db :=
  match turns w with
  | [] => w
  | t :: ts => mkWorld (others t (server w)) (clock w + Z.max 0 (passes t))
                 (ctx_done w || cancels t) ts
  end.

Definition ErrContextCanceled : goerr := ErrMsg "context canceled".

(** [t.UnixMilli()] *)
Definition unixEpoch : Time := 62135596800 * Second.
Definition UnixMilli (t : Time) : Z := (t - unixEpoch) / Millisecond.
(** [d.Milliseconds()] *)
Definition Milliseconds (d : Duration) : Z := Z.quot d Millisecond.

(** The expiration that the client library sends for a duration: none for zero,
and at least a millisecond. *)
Definition expiration (d : Duration) : option Z :=
  if d =? 0 then None
  else Some (if (0 <? d) && (d <? Millisecond) then 1 else Milliseconds d).

Section Clients.
Context `{Redis Db}.

Definition Client (A : Type) : Type := Txn (World Db) A.

(** One request: a script, a transaction or a command. *)
Definition request {A} (s : Script Db A) : Client A :=
  let! r := autocommit (fun w =>
    let w := arrive w in
    let '(db, r) := s (server w) in (r, with_server db w)) in
  match r with Ok a => tret a | Err e => tfail e end.

(** A pipeline is one request of commands between which others may act; every
reply is kept, errors too. *)
Fixpoint pipe_run (cs : list Command) (w : World Db) : list Reply * World Db :=
  match cs with
  | [] => ([], w)
  | c :: cs =>
      let w := arrive w in
      let '(db, r) := exec c (server w) in
      let '(rs, w) := pipe_run cs (with_server db w) in (r :: rs, w)
  end.

(** The first error, [redis.Nil] among them. *)
Fixpoint pipe_error (rs : list Reply) : option Reply :=
  match rs with
  | [] => None
  | Nil :: _ => Some Nil
  | ReplyErr m :: _ => Some (ReplyErr m)
  | _ :: rs => pipe_error rs
  end.

(** [Exec] by callers that do not mind [redis.Nil]. *)
Definition pipeline (cs : list Command) : Client (list Reply) :=
  let! rs := autocommit (pipe_run cs) in
  match pipe_error rs with
  | Some (ReplyErr m) => tfail (ErrWrap "pipeline exec" (ErrMsg m))
  | _ => tret rs
  end.

(** [cmd.Val()] of a number, zero after an error. *)
Definition int_val (r : Reply) : Z := match r with Int z => z | _ => 0 end.

(** [time.Now()] *)
Definition time_now : Client Time := fun w fs => (Ok (clock w), w, fs).

Definition with_clock (t : Time) (w : World Db) : World Db :=
  mkWorld (server w) t (ctx_done w) (turns w).

(** The wait for a timer, or for the end of the context if that comes first; it
tells which. *)
Definition paused (d : Duration) (w : World Db) : World Db :=
  let w' := arrive w in
  if ctx_done w' then w' else with_clock (Z.max (clock w') (clock w + d)) w'.
Definition pause (d : Duration) : Client bool := fun w fs =>
  (Ok (ctx_done (paused d w)), paused d w, fs).

(** *** Reasoning about clients: all faults, all turns *)

Lemma wp_request {A} (s : Script Db A) Q w :
  (forall e, Q (Err e) w) ->
  (let w' := arrive w in
   Q (s (server w')).2 (with_server (s (server w')).1 w') /\
   forall e, Q (Err e) (with_server (s (server w')).1 w')) ->
  wp (request s) Q w.
Proof.
  intros Hno [Hok Hlost]. unfold request. apply wp_bind, wp_autocommit; [done| |].
  - intros e. destruct (s (server (arrive w))) as [db r]. apply Hlost.
  - destruct (s (server (arrive w))) as [db [a|e]]; simpl in *; [by apply wp_ret|by apply wp_fail].
Qed.

Lemma wp0_request {A} (s : Script Db A) Q w :
  (let w' := arrive w in Q (s (server w')).2 (with_server (s (server w')).1 w')) ->
  wp0 (request s) Q w.
Proof.
  intros Hok. cbv zeta in Hok. unfold request. apply wp0_bind, wp0_autocommit.
  destruct (s (server (arrive w))) as [db [a|e]]; exact (conj eq_refl Hok).
Qed.

(** Alone, a request finds the server as it is. *)
Lemma wp0_alone {A} (s : Script Db A) Q w : turns w = [] ->
  swp s (fun r db => Q r (with_server db w)) (server w) -> wp0 (request s) Q w.
Proof. intros Hw Hs. apply wp0_request. unfold arrive. by rewrite Hw. Qed.

Lemma wp_now Q w : Q (Ok (clock w)) w -> wp time_now Q w.
Proof. by intros HQ fs. Qed.

Lemma wp_pause d Q w : Q (Ok (ctx_done (paused d w))) (paused d w) -> wp (pause d) Q w.
Proof. by intros HQ fs. Qed.

Lemma wp0_now (Q : res Time -> World Db -> Prop) w : Q (Ok (clock w)) w -> wp0 time_now Q w.
Proof. done. Qed.

(** A state of the server that all others keep too. *)
Definition kept (I : Db -> Prop) (w : World Db) : Prop :=
  I (server w) /\ Forall (fun t => forall db, I db -> I (others t db)) (turns w).

(** The program keeps an invariant of the server at every request, whatever fails
and whatever others do that keep it. *)
Definition keeps {A} (I : Db -> Prop) (m : Client A) : Prop :=
  forall w, kept I w -> wp m (fun _ w' => kept I w') w.

Lemma kept_arrive I w : kept I w -> kept I (arrive w).
Proof.
  intros [Hi Ht]. unfold arrive. destruct (turns w) as [|t ts] eqn:E; [by split; rewrite ?E|].
  apply Forall_cons in Ht as [Ht Hts]. split; simpl; auto.
Qed.

Lemma keeps_ret {A} I (a : A) : keeps I (tret a).
Proof. intros w Hw. by apply wp_ret. Qed.

Lemma keeps_fail {A} I e : keeps I (tfail e : Client A).
Proof. intros w Hw. by apply wp_fail. Qed.

Lemma keeps_bind {A B} I (m : Client A) (k : A -> Client B) :
  keeps I m -> (forall a, keeps I (k a)) -> keeps I (tbind m k).
Proof.
  intros Hm Hk w Hw. apply wp_bind. eapply wp_mono; [by apply Hm|].
  intros [a|e] w' Hw'; [by apply Hk|done].
Qed.

Lemma keeps_try {A} I (m : Client A) : keeps I m -> keeps I (ttry m).
Proof. intros Hm w Hw. apply wp_try. by apply Hm. Qed.

Lemma keeps_now I : keeps I time_now.
Proof. intros w Hw. by apply wp_now. Qed.

Lemma keeps_pause I d : keeps I (pause d).
Proof.
  intros w Hw. apply wp_pause. apply kept_arrive in Hw as [Hi Ht]. unfold paused. by case_match.
Qed.

Lemma keeps_request {A} (I : Db -> Prop) (s : Script Db A) :
  (forall db, I db -> I (s db).1) -> keeps I (request s).
Proof.
  intros Hs w Hw. pose proof (kept_arrive I w Hw) as [Hi Ht].
  apply wp_request; [done|]. split; [|intros e]; (split; [by apply Hs|done]).
Qed.

End Clients.
Arguments Client : clear implicits.

#[export] Hint Resolve keeps_ret keeps_fail keeps_try keeps_now keeps_pause : go.

(** [keeps_step]: one step of a program that keeps an invariant. *)
Ltac keeps_step :=
  first
    [ apply keeps_bind; [|intros ?]
    | apply keeps_try
    | apply keeps_ret
    | apply keeps_fail
    | apply keeps_now
    | apply keeps_pause
    | case_match ].

(** ** Numbers *)

Lemma digit_of_digit d : 0 <= d < 10 -> digit_of (digit d) = Some d.
Proof.
  intros Hd. assert (Hc : d = 0 \/ d = 1 \/ d = 2 \/ d = 3 \/ d = 4 \/ d = 5 \/ d = 6 \/ d = 7 \/
                          d = 8 \/ d = 9) by lia.
  by decompose [or] Hc; subst.
Qed.

Lemma parse_format_digits fuel n acc :
  0 <= n < 10 ^ Z.of_nat fuel -> parse_digits (format_digits fuel n acc) 0 = parse_digits acc n.
Proof.
  revert n acc; induction fuel as [|f IH]; intros n acc Hn.
  - simpl in *. by replace n with 0 by lia.
  - rewrite Nat2Z.inj_succ, Z.pow_succ_r in Hn by lia. simpl.
    pose proof (digit_of_digit (n mod 10) ltac:(apply Z.mod_pos_bound; lia)) as Hd.
    destruct (Z.ltb_spec n 10).
    + simpl. rewrite Hd. rewrite Z.mod_small by lia. done.
    + rewrite IH by (split; [apply Z.div_pos; lia|apply Z.div_lt_upper_bound; lia]).
      simpl. rewrite Hd. f_equal. pose proof (Z.div_mod n 10). lia.
Qed.

Lemma format_digits_head fuel n acc :
  (0 < fuel)%nat -> 0 <= n ->
  exists c r d, format_digits fuel n acc = String c r /\ digit_of c = Some d.
Proof.
  revert n acc; induction fuel as [|f IH]; intros n acc Hf Hn; [lia|]. simpl.
  pose proof (digit_of_digit (n mod 10) ltac:(apply Z.mod_pos_bound; lia)) as Hd.
  destruct (Z.ltb_spec n 10); [by repeat eexists|].
  destruct f; [by repeat eexists|]. apply IH; [lia|]. apply Z.div_pos; lia.
Qed.

(** [ParseInt] reads what [FormatInt] writes. *)
Lemma ParseInt_FormatInt z : in_i64 z -> ParseInt (FormatInt z) = Some z.
Proof.
  unfold in_i64, two63. intros Hz. unfold ParseInt, FormatInt.
  assert (H20 : 10 ^ Z.of_nat 20 = 100000000000000000000) by done.
  assert (Hrange : (- two63 <=? z) && (z <? two63) = true)
    by (unfold two63; apply andb_true_iff; split; [apply Z.leb_le|apply Z.ltb_lt]; lia).
  assert (Hun : forall n, 0 <= n < 10 ^ Z.of_nat 20 ->
    parse_unsigned (format_digits 20 n "") = Some n).
  { intros n Hn. unfold parse_unsigned.
    destruct (format_digits_head 20 n "" ltac:(lia) ltac:(lia)) as (c & r & d & E & _).
    assert (Hne : String.eqb (format_digits 20 n "") "" = false) by by rewrite E.
    by rewrite Hne, parse_format_digits. }
  destruct (Z.ltb_spec z 0).
  - rewrite Hun by (rewrite H20; lia). simpl. by rewrite Z.opp_involutive, Hrange.
  - destruct (format_digits_head 20 z "" ltac:(lia) ltac:(lia)) as (c & r & d & E & Hd).
    rewrite E. destruct (Ascii.eqb_spec c "-"); [by subst; vm_compute in Hd|].
    destruct (Ascii.eqb_spec c "+"); [by subst; vm_compute in Hd|].
    by rewrite <- E, Hun, Hrange by (rewrite H20; lia).
Qed.

Lemma FormatInt_inj a b : in_i64 a -> in_i64 b -> FormatInt a = FormatInt b -> a = b.
Proof.
  intros Ha Hb E. pose proof (ParseInt_FormatInt a Ha) as H. rewrite E, ParseInt_FormatInt in H by done.
  by injection H.
Qed.
