(* ===== verification/BillingStore.v ===== *)
(** * The tables that billing writes

The rows of [users], [user_subscriptions], [api_keys], [accounts],
[usage_billing_dedup] (with its archive) and [scheduler_outbox] that
[repository/usage_billing_repo.go] touches.  Transactions ([Programs]) over
them are serial, as the row locks and the unique index make them.  Amounts are decimals in units of 10^-10 USD, the scale of
[total_usage_usd]; a column of scale 8 rounds what is stored in it. *)
From S2P Require Import Prelude GoText GoTime SubscriptionWindow Wallets.
From S2P Require Export Programs.
From Stdlib Require Import Bool.

Local Open Scope string_scope.
Local Open Scope Z_scope.

(** ** Decimals *)

(** One unit of a NUMERIC(20,8) column. *)
Definition cent8 : Amount := 100.

(** PostgreSQL and [decimal.Round] round a half away from zero. *)
Definition round8 (x : Amount) : Amount :=
  if 0 <=? x then (x + 50) / cent8 * cent8 else - ((- x + 50) / cent8 * cent8).

Definition on_grid (x : Amount) : Prop := (cent8 | x).

Lemma round8_grid x : on_grid (round8 x).
Proof.
  unfold on_grid, round8. destruct (0 <=? x); [by apply Z.divide_factor_r|].
  apply Z.divide_opp_r, Z.divide_factor_r.
Qed.

Lemma round8_id x : on_grid x -> round8 x = x.
Proof.
  unfold on_grid, round8, cent8. intros [k ->].
  destruct (Z.leb_spec 0 (k * 100)).
  - replace ((k * 100 + 50) / 100) with k; [lia|]. apply Z.div_unique with 50; lia.
  - replace ((- (k * 100) + 50) / 100) with (- k); [lia|]. apply Z.div_unique with 50; lia.
Qed.

(** Within half a unit of the scale. *)
Definition near (x y : Amount) : Prop := -50 <= x - y <= 50.

Lemma round8_near x : near (round8 x) x.
Proof.
  unfold near, round8, cent8. destruct (Z.leb_spec 0 x).
  - pose proof (Z.div_mod (x + 50) 100). pose proof (Z.mod_pos_bound (x + 50) 100). lia.
  - pose proof (Z.div_mod (- x + 50) 100). pose proof (Z.mod_pos_bound (- x + 50) 100). lia.
Qed.

Lemma round8_nonneg x : 0 <= x -> 0 <= round8 x.
Proof.
  intros H. unfold round8, cent8. rewrite (proj2 (Z.leb_le _ _)) by done.
  pose proof (Z.div_pos (x + 50) 100). lia.
Qed.

Lemma grid_add x y : on_grid x -> on_grid y -> on_grid (x + y).
Proof. apply Z.divide_add_r. Qed.

Lemma grid_sub x y : on_grid x -> on_grid y -> on_grid (x - y).
Proof. apply Z.divide_sub_r. Qed.

Lemma grid_0 : on_grid 0.
Proof. apply Z.divide_0_r. Qed.

Lemma round8_pos_grid x : on_grid x -> 0 < x -> cent8 <= x.
Proof. unfold on_grid, cent8. intros [k ->] H. lia. Qed.

#[export] Hint Resolve round8_grid grid_add grid_sub grid_0 : go.

(** ** Rows *)

Record user_row : Type := mkUser {
  balance : Amount;
  frozen_balance : Amount;
  user_deleted : bool
}.

(** A NULL limit or window start is [None]. *)
Record subscription_row : Type := mkSubRow {
  sub_user : Z;
  sub_status : string;
  sub_expires_at : Time;
  total_limit_usd : option Amount;
  total_usage_usd : Amount;
  reset_period : string;
  usage_window_start : option Time;
  sub_deleted : bool
}.

Record api_key_row : Type := mkKeyRow {
  key_status : string;
  quota : Amount;
  quota_used : Amount;
  usage_5h : Amount;
  usage_1d : Amount;
  usage_7d : Amount;
  window_5h_start : option Time;
  window_1d_start : option Time;
  window_7d_start : option Time;
  key_deleted : bool
}.

(** One recurring quota inside [accounts.extra]; an absent key is [None]. *)
Record extra_window : Type := mkWindow {
  w_limit : option Amount;
  w_used : option Amount;
  w_start : option Time;
  w_reset_mode : option string;
  w_reset_at : option Time;
  w_reset_hour : option Z;
  w_reset_day : option Z
}.

Record account_row : Type := mkAccount {
  extra_quota_used : option Amount;
  extra_quota_limit : option Amount;
  extra_daily : extra_window;
  extra_weekly : extra_window;
  quota_reset_timezone : option string;
  account_deleted : bool
}.

(** The dedup tables are unique in (request_id, api_key_id) and hold the
fingerprint; the outbox holds the accounts with a pending change event. *)
Record DB : Type := mkDB {
  users : gmap Z user_row;
  user_subscriptions : gmap Z subscription_row;
  api_keys : gmap Z api_key_row;
  accounts : gmap Z account_row;
  usage_billing_dedup : gmap (string * Z) string;
  usage_billing_dedup_archive : gmap (string * Z) string;
  scheduler_outbox : gset Z
}.

Definition set_users (f : gmap Z user_row -> gmap Z user_row) (db : DB) : DB :=
  mkDB (f (users db)) (user_subscriptions db) (api_keys db) (accounts db)
    (usage_billing_dedup db) (usage_billing_dedup_archive db) (scheduler_outbox db).
Definition set_subscriptions (f : gmap Z subscription_row -> gmap Z subscription_row) (db : DB) : DB :=
  mkDB (users db) (f (user_subscriptions db)) (api_keys db) (accounts db)
    (usage_billing_dedup db) (usage_billing_dedup_archive db) (scheduler_outbox db).
Definition set_keys (f : gmap Z api_key_row -> gmap Z api_key_row) (db : DB) : DB :=
  mkDB (users db) (user_subscriptions db) (f (api_keys db)) (accounts db)
    (usage_billing_dedup db) (usage_billing_dedup_archive db) (scheduler_outbox db).
Definition set_accounts (f : gmap Z account_row -> gmap Z account_row) (db : DB) : DB :=
  mkDB (users db) (user_subscriptions db) (api_keys db) (f (accounts db))
    (usage_billing_dedup db) (usage_billing_dedup_archive db) (scheduler_outbox db).
Definition set_dedup (f : gmap (string * Z) string -> gmap (string * Z) string) (db : DB) : DB :=
  mkDB (users db) (user_subscriptions db) (api_keys db) (accounts db)
    (f (usage_billing_dedup db)) (usage_billing_dedup_archive db) (scheduler_outbox db).
Definition set_outbox (f : gset Z -> gset Z) (db : DB) : DB :=
  mkDB (users db) (user_subscriptions db) (api_keys db) (accounts db)
    (usage_billing_dedup db) (usage_billing_dedup_archive db) (f (scheduler_outbox db)).

Notation Tx := (Txn DB).
