(* ===== verification/Billing.v ===== *)
(** * Billing transactions

[repository/usage_billing_repo.go] with the commands of
[service/usage_billing.go] and [service/batch_image_billing_hold.go]: a charge
([Apply]), and the hold, capture and release of a batch image job.  Each is one
transaction on the tables of [BillingStore], claimed by the key (request id,
API key id).

Parameters: SHA-256, and the zone database of PostgreSQL.  The instants are
those of one transaction: [sql_now] is [NOW()], [lock_now] and [split_now] are
the readings of [time.Now] in [lockUserSubscriptionWallets] and in
[SplitSubscriptionUsage]. *)
From S2P Require Import Prelude GoText GoTime SubscriptionWindow Wallets BillingStore.
From Stdlib Require Import Bool.
From stdpp Require Import pretty.

Local Open Scope string_scope.
Local Open Scope Z_scope.

(** SHA-256 in hexadecimal, and the conversions of [AT TIME ZONE]. *)
Class BillingParams : Type := {
  sha256_hex : string -> string;
  at_zone : string -> Time -> Time;
  from_zone : string -> Time -> Time
}.

(** A digest is not blank. *)
Class BillingParamsLaws `{GoUnicode} `{BillingParams} : Prop := {
  sha256_not_blank s : TrimSpace (sha256_hex s) <> ""
}.

Record TxEnv : Type := mkEnv { sql_now : Time; lock_now : Time; split_now : Time }.

(** ** Commands *)

Record UsageBillingCommand : Type := mkCommand {
  RequestID : string;
  APIKeyID : Z;
  RequestFingerprint : string;
  RequestPayloadHash : string;
  cmd_UserID : Z;
  AccountID : Z;
  cmd_SubscriptionID : option Z;
  AccountType : string;
  Model : string;
  ServiceTier : string;
  ReasoningEffort : string;
  BillingType : Z;
  InputTokens : Z;
  OutputTokens : Z;
  CacheCreationTokens : Z;
  CacheReadTokens : Z;
  ImageCount : Z;
  MediaType : string;
  BalanceCost : Amount;
  SubscriptionCost : Amount;
  APIKeyQuotaCost : Amount;
  APIKeyRateLimitCost : Amount;
  AccountQuotaCost : Amount
}.

Record BatchImageBalanceHoldCommand : Type := mkHold {
  hold_RequestID : string;
  hold_APIKeyID : Z;
  hold_RequestFingerprint : string;
  hold_RequestPayloadHash : string;
  hold_UserID : Z;
  BatchID : string;
  HoldAmount : Amount;
  ActualAmount : Amount
}.

Record AccountQuotaState : Type := mkQuotaState {
  TotalUsed : Amount; TotalLimit : Amount;
  DailyUsed : Amount; DailyLimit : Amount;
  WeeklyUsed : Amount; WeeklyLimit : Amount
}.

Record UsageBillingApplyResult : Type := mkResult {
  Applied : bool;
  APIKeyQuotaExhausted : bool;
  NewBalance : option Amount;
  BalanceOverdrafted : bool;
  QuotaState : option AccountQuotaState;
  SubscriptionFallbackAmount : Amount;
  DeductedBalanceAmount : Amount
}.

Definition emptyResult : UsageBillingApplyResult := mkResult false false None false None 0 0.

Record BatchImageBalanceHoldResult : Type := mkHoldResult {
  hold_Applied : bool;
  hold_NewBalance : option Amount;
  FrozenBalance : option Amount
}.

Definition emptyHoldResult : BatchImageBalanceHoldResult := mkHoldResult false None None.

(** [%d] and [%0.10f]. *)
Definition fmt_d (z : Z) : string := pretty z.

Fixpoint zeros (n : nat) : string :=
  match n with O => "" | S n => ("0" +:+ zeros n) end.

Definition fmt_f10 (x : Amount) : string :=
  let unit := 10000000000 in
  let frac := pretty (Z.abs x mod unit) in
  ((if x <? 0 then "-" else "") +:+ pretty (Z.abs x / unit) +:+ "." +:+
   zeros (10 - String.length frac) +:+ frac).

Definition valueOrZero (v : option Z) : Z := default 0 v.

(** The literals of the errors; those of [infraerrors] carry their status. *)
Definition ErrUsageBillingRequestIDRequired : goerr := ErrMsg "usage billing request_id is required".
Definition ErrUsageBillingRequestConflict : goerr :=
  ErrMsg "usage billing request fingerprint conflict".
Definition ErrSubscriptionNotFound : goerr :=
  ErrApp 404 "SUBSCRIPTION_NOT_FOUND" .
Definition ErrUserNotFound : goerr := ErrApp 404 "USER_NOT_FOUND".
Definition ErrAPIKeyNotFound : goerr := ErrApp 404 "API_KEY_NOT_FOUND".
Definition ErrAccountNotFound : goerr := ErrApp 404 "ACCOUNT_NOT_FOUND".
Definition ErrBatchImageInsufficientBalance : goerr :=
  ErrApp 402 "BATCH_IMAGE_INSUFFICIENT_BALANCE".
Definition ErrBatchImageSettlementCostExceedsHold : goerr :=
  ErrApp 409 "BATCH_IMAGE_SETTLEMENT_COST_EXCEEDS_HOLD".
Definition ErrFrozenInsufficient : goerr := ErrMsg "batch image frozen balance is insufficient".

Definition StatusAPIKeyActive := "active".
Definition StatusAPIKeyQuotaExhausted := "quota_exhausted".
Definition AccountTypeAPIKey := "apikey".
Definition AccountTypeBedrock := "bedrock".

Section Billing.
Context `{GoUnicode} `{BillingParams}.

Definition join (l : list string) : string :=
  match l with
  | [] => ""
  | x :: r => foldl (fun acc y => acc +:+ "|" +:+ y) x r
  end.

Definition buildUsageBillingFingerprint (c : UsageBillingCommand) : string :=
  let raw := join
    [fmt_d (cmd_UserID c); fmt_d (AccountID c); fmt_d (APIKeyID c);
     TrimSpace (AccountType c); TrimSpace (Model c); TrimSpace (ServiceTier c);
     TrimSpace (ReasoningEffort c); fmt_d (BillingType c); fmt_d (InputTokens c);
     fmt_d (OutputTokens c); fmt_d (CacheCreationTokens c); fmt_d (CacheReadTokens c);
     fmt_d (ImageCount c); TrimSpace (MediaType c); fmt_d (valueOrZero (cmd_SubscriptionID c));
     fmt_f10 (BalanceCost c); fmt_f10 (SubscriptionCost c); fmt_f10 (APIKeyQuotaCost c);
     fmt_f10 (APIKeyRateLimitCost c); fmt_f10 (AccountQuotaCost c)] in
  let payloadHash := TrimSpace (RequestPayloadHash c) in
  sha256_hex (if negb (String.eqb payloadHash "") then raw +:+ "|" +:+ payloadHash else raw).

Definition buildBatchImageBalanceHoldFingerprint (c : BatchImageBalanceHoldCommand) : string :=
  let raw := join
    [fmt_d (hold_UserID c); fmt_d (hold_APIKeyID c); TrimSpace (BatchID c);
     fmt_f10 (HoldAmount c); fmt_f10 (ActualAmount c)] in
  let payloadHash := TrimSpace (hold_RequestPayloadHash c) in
  sha256_hex (if negb (String.eqb payloadHash "") then raw +:+ "|" +:+ payloadHash else raw).

Definition QuantizeUsageBillingAmount (v : Amount) : Amount := if v =? 0 then v else round8 v.

(** The fields of [Normalize] and [quantizeMonetaryFields]. *)
Definition quantizeMonetaryFields (c : UsageBillingCommand) : UsageBillingCommand :=
  mkCommand (RequestID c) (APIKeyID c) (RequestFingerprint c) (RequestPayloadHash c)
    (cmd_UserID c) (AccountID c) (cmd_SubscriptionID c) (AccountType c) (Model c) (ServiceTier c)
    (ReasoningEffort c) (BillingType c) (InputTokens c) (OutputTokens c) (CacheCreationTokens c)
    (CacheReadTokens c) (ImageCount c) (MediaType c)
    (QuantizeUsageBillingAmount (BalanceCost c))
    (QuantizeUsageBillingAmount (SubscriptionCost c))
    (QuantizeUsageBillingAmount (APIKeyQuotaCost c))
    (QuantizeUsageBillingAmount (APIKeyRateLimitCost c))
    (QuantizeUsageBillingAmount (AccountQuotaCost c)).

Definition with_request (c : UsageBillingCommand) (id fingerprint : string) : UsageBillingCommand :=
  mkCommand id (APIKeyID c) fingerprint (RequestPayloadHash c)
    (cmd_UserID c) (AccountID c) (cmd_SubscriptionID c) (AccountType c) (Model c) (ServiceTier c)
    (ReasoningEffort c) (BillingType c) (InputTokens c) (OutputTokens c) (CacheCreationTokens c)
    (CacheReadTokens c) (ImageCount c) (MediaType c) (BalanceCost c) (SubscriptionCost c)
    (APIKeyQuotaCost c) (APIKeyRateLimitCost c) (AccountQuotaCost c).

Definition Normalize (c : UsageBillingCommand) : UsageBillingCommand :=
  let c := with_request c (TrimSpace (RequestID c)) (RequestFingerprint c) in
  let c := if String.eqb (TrimSpace (RequestFingerprint c)) ""
           then with_request c (RequestID c) (buildUsageBillingFingerprint c) else c in
  quantizeMonetaryFields c.

Definition NormalizeHold (c : BatchImageBalanceHoldCommand) : BatchImageBalanceHoldCommand :=
  let c := mkHold (TrimSpace (hold_RequestID c)) (hold_APIKeyID c) (hold_RequestFingerprint c)
    (hold_RequestPayloadHash c) (hold_UserID c) (TrimSpace (BatchID c)) (HoldAmount c)
    (ActualAmount c) in
  if String.eqb (TrimSpace (hold_RequestFingerprint c)) ""
  then mkHold (hold_RequestID c) (hold_APIKeyID c) (buildBatchImageBalanceHoldFingerprint c)
    (hold_RequestPayloadHash c) (hold_UserID c) (BatchID c) (HoldAmount c) (ActualAmount c)
  else c.

(** ** Claiming a request *)

Definition claim_insert (key : string * Z) (fingerprint : string) (db : DB) : bool * DB :=
  match usage_billing_dedup db !! key with
  | Some _ => (false, db)
  | None => (true, set_dedup (fun t => <[key := fingerprint]> t) db)
  end.

Definition claimUsageBillingRequest (requestID : string) (apiKeyID : Z)
    (requestFingerprint : string) : Tx bool :=
  let key := (requestID, apiKeyID) in
  let! inserted := stmt (claim_insert key requestFingerprint) in
  if negb inserted then
    let! existing := query (fun db => usage_billing_dedup db !! key) in
    match existing with
    | None => tfail (ErrMsg "sql: no rows in result set")
    | Some existingFingerprint =>
        if negb (String.eqb (TrimSpace existingFingerprint) (TrimSpace requestFingerprint))
        then tfail ErrUsageBillingRequestConflict
        else tret false
    end
  else
    let! archived := query (fun db => usage_billing_dedup_archive db !! key) in
    match archived with
    | Some archivedFingerprint =>
        if negb (String.eqb (TrimSpace archivedFingerprint) (TrimSpace requestFingerprint))
        then tfail ErrUsageBillingRequestConflict
        else tret false
    | None => tret true
    end.

Definition claimUsageBillingKey (cmd : UsageBillingCommand) : Tx bool :=
  claimUsageBillingRequest (RequestID cmd) (APIKeyID cmd) (RequestFingerprint cmd).

(** ** Subscriptions *)

(** The locking read: the rows in the order of [expires_at]. *)
Definition lockUserSubscriptionWalletsSQL (now : Time) (userID : Z) (db : DB)
    : list (Z * subscription_row) :=
  stable_sort (fun x y => sub_expires_at x.2 <? sub_expires_at y.2)
    (List.filter (fun '(_, r) =>
       (sub_user r =? userID) && negb (sub_deleted r) && String.eqb (sub_status r) "active" &&
       (now <? sub_expires_at r)) (map_to_list (user_subscriptions db))).

(** A row as the code scans it. *)
Definition scanned (userID : Z) (row : Z * subscription_row) : UserSubscription Amount :=
  let '(id, r) := row in
  mkSubscription id userID SubscriptionStatusActive (sub_expires_at r) (total_limit_usd r)
    (total_usage_usd r) (reset_period r) (default zeroTime (usage_window_start r)) None.

(** The row after the normalisation of the loop: the window start is moved
first, and the usage is read against the moved start. *)
Definition loaded (now : Time) (sub : UserSubscription Amount) : UserSubscription Amount :=
  if IsRecurringSubscriptionResetPeriod (ResetPeriod sub) then
    let sub := with_window sub (SubscriptionWindowStart (ResetPeriod sub) now) (TotalUsageUSD sub) in
    with_window sub (UsageWindowStart sub) (EffectiveWindowUsageUSD 0 sub now)
  else sub.

Definition dirtyWindow (now : Time) (sub : UserSubscription Amount) : option (Z * Time) :=
  if IsRecurringSubscriptionResetPeriod (ResetPeriod sub) &&
     SubscriptionWindowExpired (ResetPeriod sub) (UsageWindowStart sub) now
  then Some (ID sub, SubscriptionWindowStart (ResetPeriod sub) now) else None.

Definition update_sub (f : subscription_row -> subscription_row) (id : Z) : DB -> DB :=
  set_subscriptions (alter f id).

Definition reset_row (windowStart : Time) (r : subscription_row) : subscription_row :=
  mkSubRow (sub_user r) (sub_status r) (sub_expires_at r) (total_limit_usd r) 0 (reset_period r)
    (Some windowStart) (sub_deleted r).

Fixpoint resetWindows (dirty : list (Z * Time)) : Tx unit :=
  match dirty with
  | [] => tret tt
  | (id, windowStart) :: r =>
      let! _ := stmt (fun db => (tt, update_sub (reset_row windowStart) id db)) in
      resetWindows r
  end.

Definition lockUserSubscriptionWallets (E : TxEnv) (userID : Z)
    : Tx (list (UserSubscription Amount)) :=
  let! rows := query (lockUserSubscriptionWalletsSQL (sql_now E) userID) in
  let scans := map (scanned userID) rows in
  let! _ := resetWindows (omap (dirtyWindow (lock_now E)) scans) in
  tret (map (loaded (lock_now E)) scans).

Definition add_usage (costUSD : Amount) (r : subscription_row) : subscription_row :=
  mkSubRow (sub_user r) (sub_status r) (sub_expires_at r) (total_limit_usd r)
    (total_usage_usd r + costUSD) (reset_period r) (usage_window_start r) (sub_deleted r).

Definition live_sub (db : DB) (id : Z) : bool :=
  match user_subscriptions db !! id with Some r => negb (sub_deleted r) | None => false end.

Definition incrementUsageBillingSubscription (subscriptionID : Z) (costUSD : Amount) : Tx unit :=
  let! affected := stmt (fun db =>
    if live_sub db subscriptionID
    then (1, update_sub (add_usage costUSD) subscriptionID db) else (0, db)) in
  if 0 <? affected then tret tt else tfail ErrSubscriptionNotFound.

Fixpoint incrementAllocations (allocations : list SubscriptionAllocation) (remainder : Amount)
    : Tx Amount :=
  match allocations with
  | [] => tret remainder
  | alloc :: r =>
      let! res := ttry (incrementUsageBillingSubscription (SubscriptionID alloc) (AllocAmount alloc)) in
      match res with
      | Ok _ => incrementAllocations r remainder
      | Err err =>
          if decide (err = ErrSubscriptionNotFound)
          then incrementAllocations r (remainder + AllocAmount alloc)
          else tfail err
      end
  end.

(** The amount that no wallet took. *)
Definition applySubscriptionCost (E : TxEnv) (cmd : UsageBillingCommand) : Tx Amount :=
  let! subs := lockUserSubscriptionWallets E (cmd_UserID cmd) in
  let '(allocations, remainder) :=
    SplitSubscriptionUsage (split_now E) (map Some subs) (SubscriptionCost cmd) in
  if (length allocations =? 0)%nat && (0 <? remainder) && (length subs =? 0)%nat then
    match cmd_SubscriptionID cmd with
    | Some id =>
        let! res := ttry (incrementUsageBillingSubscription id (SubscriptionCost cmd)) in
        match res with
        | Ok _ => tret 0
        | Err fallbackErr =>
            if decide (fallbackErr = ErrSubscriptionNotFound) then tret (SubscriptionCost cmd)
            else tfail fallbackErr
        end
    | None => tret (SubscriptionCost cmd)
    end
  else incrementAllocations allocations remainder.

(** ** Balances *)

Definition live_user (db : DB) (id : Z) : option user_row :=
  match users db !! id with
  | Some r => if user_deleted r then None else Some r
  | None => None
  end.

(** [UPDATE users ... WHERE guard RETURNING]: the stored row. *)
Definition update_user (id : Z) (guard : user_row -> bool) (f : user_row -> user_row) (db : DB)
    : option user_row * DB :=
  match live_user db id with
  | Some r => if guard r then (Some (f r), set_users (fun t => <[id := f r]> t) db) else (None, db)
  | None => (None, db)
  end.

Definition deducted (amount : Amount) (r : user_row) : user_row :=
  mkUser (round8 (balance r - amount)) (frozen_balance r) (user_deleted r).

Definition deductUsageBillingBalance (userID : Z) (amount : Amount) : Tx (Amount * bool) :=
  let! row := stmt (update_user userID (fun r => amount <=? balance r) (deducted amount)) in
  match row with
  | Some r => tret (balance r, true)
  | None =>
      let! row := stmt (update_user userID (fun _ => true) (deducted amount)) in
      match row with
      | Some r => tret (balance r, false)
      | None => tfail ErrUserNotFound
      end
  end.

Definition userExistsForBilling (userID : Z) : Tx bool :=
  query (fun db => match live_user db userID with Some _ => true | None => false end).

(** What follows a guarded update of a balance that found no row. *)
Definition no_row (userID : Z) (e : goerr) : Tx BatchImageBalanceHoldResult :=
  let! exists_ := userExistsForBilling userID in
  if negb exists_ then tfail ErrUserNotFound else tfail e.

Definition hold_result (row : user_row) : BatchImageBalanceHoldResult :=
  mkHoldResult false (Some (balance row)) (Some (frozen_balance row)).

Definition reserved (hold : Amount) (r : user_row) : user_row :=
  mkUser (round8 (balance r - hold)) (round8 (frozen_balance r + hold)) (user_deleted r).

Definition reserveUsageBillingBatchImageBalance (cmd : BatchImageBalanceHoldCommand)
    : Tx BatchImageBalanceHoldResult :=
  if HoldAmount cmd <=? 0 then tret emptyHoldResult
  else
    let! row := stmt (update_user (hold_UserID cmd) (fun r => HoldAmount cmd <=? balance r)
                        (reserved (HoldAmount cmd))) in
    match row with
    | Some r => tret (hold_result r)
    | None => no_row (hold_UserID cmd) ErrBatchImageInsufficientBalance
    end.

Definition captured (hold actual : Amount) (r : user_row) : user_row :=
  mkUser (round8 (balance r + (if actual <? hold then hold - actual else 0) -
                  (if hold <? actual then actual - hold else 0)))
    (round8 (frozen_balance r - hold)) (user_deleted r).

(** 0.00000001 USD. *)
Definition captureTolerance : Amount := 100.

Definition captureUsageBillingBatchImageBalance (cmd : BatchImageBalanceHoldCommand)
    : Tx BatchImageBalanceHoldResult :=
  if (HoldAmount cmd <=? 0) && (ActualAmount cmd <=? 0) then tret emptyHoldResult
  else if captureTolerance <? ActualAmount cmd - HoldAmount cmd
  then tfail ErrBatchImageSettlementCostExceedsHold
  else
    let! row := stmt (update_user (hold_UserID cmd) (fun r => HoldAmount cmd <=? frozen_balance r)
                        (captured (HoldAmount cmd) (ActualAmount cmd))) in
    match row with
    | Some r => tret (hold_result r)
    | None => no_row (hold_UserID cmd) ErrFrozenInsufficient
    end.

Definition batchImageHoldClaimExists (holdRequestID : string) (apiKeyID : Z) : Tx bool :=
  let! found := query (fun db => usage_billing_dedup db !! (holdRequestID, apiKeyID)) in
  match found with
  | Some _ => tret true
  | None =>
      let! found := query (fun db => usage_billing_dedup_archive db !! (holdRequestID, apiKeyID)) in
      match found with Some _ => tret true | None => tret false end
  end.

Definition batchImageHoldRequestPrefix := "batch_image_hold:".
Definition batchImageCaptureRequestPrefix := "batch_image_capture:".
Definition batchImageReleaseRequestPrefix := "batch_image_release:".

Definition BatchImageHoldRequestID (batchID : string) : string :=
  batchImageHoldRequestPrefix +:+ TrimSpace batchID.
Definition BatchImageCaptureRequestID (batchID : string) : string :=
  batchImageCaptureRequestPrefix +:+ TrimSpace batchID.
Definition BatchImageReleaseRequestID (batchID : string) : string :=
  batchImageReleaseRequestPrefix +:+ TrimSpace batchID.

Definition released (hold : Amount) (r : user_row) : user_row :=
  mkUser (round8 (balance r + hold)) (round8 (frozen_balance r - hold)) (user_deleted r).

Definition releaseUsageBillingBatchImageBalance (cmd : BatchImageBalanceHoldCommand)
    : Tx BatchImageBalanceHoldResult :=
  if HoldAmount cmd <=? 0 then tret emptyHoldResult
  else
    let! held := batchImageHoldClaimExists (BatchImageHoldRequestID (BatchID cmd))
                   (hold_APIKeyID cmd) in
    if negb held then tret emptyHoldResult
    else
      let! row := stmt (update_user (hold_UserID cmd) (fun r => HoldAmount cmd <=? frozen_balance r)
                          (released (HoldAmount cmd))) in
      match row with
      | Some r => tret (hold_result r)
      | None => no_row (hold_UserID cmd) ErrFrozenInsufficient
      end.

(** ** Quotas of keys and accounts *)

Definition live_key (db : DB) (id : Z) : option api_key_row :=
  match api_keys db !! id with
  | Some r => if key_deleted r then None else Some r
  | None => None
  end.

Definition quota_charged (amount : Amount) (r : api_key_row) : api_key_row :=
  mkKeyRow
    (if (0 <? quota r) && String.eqb (key_status r) StatusAPIKeyActive && (quota_used r <? quota r) &&
        (quota r <=? quota_used r + amount)
     then StatusAPIKeyQuotaExhausted else key_status r)
    (quota r) (round8 (quota_used r + amount)) (usage_5h r) (usage_1d r) (usage_7d r)
    (window_5h_start r) (window_1d_start r) (window_7d_start r) (key_deleted r).

(** The [RETURNING] expression, on the stored row. *)
Definition quota_crossed (amount : Amount) (r : api_key_row) : bool :=
  (0 <? quota r) && (quota r <=? quota_used r) && (quota_used r - amount <? quota r).

Definition update_key (id : Z) (f : api_key_row -> api_key_row) (db : DB)
    : option api_key_row * DB :=
  match live_key db id with
  | Some r => (Some (f r), set_keys (fun t => <[id := f r]> t) db)
  | None => (None, db)
  end.

Definition incrementUsageBillingAPIKeyQuota (apiKeyID : Z) (amount : Amount) : Tx bool :=
  let! row := stmt (update_key apiKeyID (quota_charged amount)) in
  match row with
  | Some r => tret (quota_crossed amount r)
  | None => tfail ErrAPIKeyNotFound
  end.

(** [date_trunc('day', NOW())], in a session that runs in UTC. *)
Definition trunc_day (t : Time) : Time := t / (24 * Hour) * (24 * Hour).

(** [start + INTERVAL period <= NOW()]. *)
Definition window_over (now : Time) (period : Duration) (start : option Time) : bool :=
  match start with Some s => s + period <=? now | None => false end.

Definition next_usage (now : Time) (period : Duration) (start : option Time) (usage cost : Amount)
    : Amount :=
  round8 (if window_over now period start then cost else usage + cost).

Definition next_start (now : Time) (period : Duration) (start : option Time) (fresh : Time)
    : option Time :=
  match start with
  | None => Some fresh
  | Some s => if s + period <=? now then Some fresh else Some s
  end.

Definition rate_charged (now : Time) (cost : Amount) (r : api_key_row) : api_key_row :=
  mkKeyRow (key_status r) (quota r) (quota_used r)
    (next_usage now (5 * Hour) (window_5h_start r) (usage_5h r) cost)
    (next_usage now (24 * Hour) (window_1d_start r) (usage_1d r) cost)
    (next_usage now (168 * Hour) (window_7d_start r) (usage_7d r) cost)
    (next_start now (5 * Hour) (window_5h_start r) now)
    (next_start now (24 * Hour) (window_1d_start r) (trunc_day now))
    (next_start now (168 * Hour) (window_7d_start r) (trunc_day now))
    (key_deleted r).

Definition incrementUsageBillingAPIKeyRateLimit (E : TxEnv) (apiKeyID : Z) (cost : Amount)
    : Tx unit :=
  let! row := stmt (update_key apiKeyID (rate_charged (sql_now E) cost)) in
  match row with
  | Some _ => tret tt
  | None => tfail ErrAPIKeyNotFound
  end.

(** [nowUTC] keeps microseconds, a reset time whole seconds. *)
Definition nowUTC (now : Time) : Time := now / Microsecond * Microsecond.
Definition to_seconds (t : Time) : Time := t / Second * Second.
Definition epoch : Time := Date 1970 1 1.

(** [dailyExpiredExpr] (24 hours) and [weeklyExpiredExpr] (168 hours). *)
Definition expiredExpr (now : Time) (period : Duration) (w : extra_window) : bool :=
  if String.eqb (default "rolling" (w_reset_mode w)) "fixed"
  then default epoch (w_reset_at w) <=? now
  else default epoch (w_start w) + period <=? now.

(** Today's reset point of the configured zone and hour, as a local time. *)
Definition reset_point (zone : string) (now : Time) (w : extra_window) : Time :=
  trunc_day (at_zone zone now) + default 0 (w_reset_hour w) * Hour.

Definition nextDailyResetAtExpr (zone : string) (now : Time) (w : extra_window) : option Time :=
  if String.eqb (default "rolling" (w_reset_mode w)) "fixed" then
    Some (to_seconds
      (if from_zone zone (reset_point zone now w) <=? now
       then from_zone zone (reset_point zone now w + 24 * Hour)
       else from_zone zone (reset_point zone now w)))
  else None.

(** [%] of PostgreSQL truncates. *)
Definition days_forward (zone : string) (now : Time) (w : extra_window) : Z :=
  Z.rem (default 1 (w_reset_day w) - Weekday (at_zone zone now) + 7) 7.

Definition nextWeeklyResetAtExpr (zone : string) (now : Time) (w : extra_window) : option Time :=
  if String.eqb (default "rolling" (w_reset_mode w)) "fixed" then
    Some (to_seconds
      (if (days_forward zone now w =? 0) && (from_zone zone (reset_point zone now w) <=? now)
       then from_zone zone (reset_point zone now w + 168 * Hour)
       else from_zone zone (reset_point zone now w + days_forward zone now w * (24 * Hour))))
  else None.

Definition charge_window (now : Time) (period : Duration) (nextResetAt : option Time)
    (amount : Amount) (w : extra_window) : extra_window :=
  if 0 <? default 0 (w_limit w) then
    let expired := expiredExpr now period w in
    mkWindow (w_limit w)
      (Some (if expired then amount else default 0 (w_used w) + amount))
      (Some (if expired then nowUTC now else default (nowUTC now) (w_start w)))
      (w_reset_mode w)
      (match nextResetAt with
       | Some t => if expired then Some t else w_reset_at w
       | None => w_reset_at w
       end)
      (w_reset_hour w) (w_reset_day w)
  else w.

Definition charge_account (now : Time) (amount : Amount) (a : account_row) : account_row :=
  let zone := default "UTC" (quota_reset_timezone a) in
  mkAccount (Some (default 0 (extra_quota_used a) + amount)) (extra_quota_limit a)
    (charge_window now (24 * Hour) (nextDailyResetAtExpr zone now (extra_daily a)) amount
       (extra_daily a))
    (charge_window now (168 * Hour) (nextWeeklyResetAtExpr zone now (extra_weekly a)) amount
       (extra_weekly a))
    (quota_reset_timezone a) (account_deleted a).

Definition quota_state (a : account_row) : AccountQuotaState :=
  mkQuotaState (default 0 (extra_quota_used a)) (default 0 (extra_quota_limit a))
    (default 0 (w_used (extra_daily a))) (default 0 (w_limit (extra_daily a)))
    (default 0 (w_used (extra_weekly a))) (default 0 (w_limit (extra_weekly a))).

Definition update_account (id : Z) (f : account_row -> account_row) (db : DB)
    : option account_row * DB :=
  match accounts db !! id with
  | Some r =>
      if account_deleted r then (None, db)
      else (Some (f r), set_accounts (fun t => <[id := f r]> t) db)
  | None => (None, db)
  end.

Definition crossed (used limit amount : Amount) : bool :=
  (0 <? limit) && (limit <=? used) && (used - amount <? limit).

(** An event of the kind account-changed is deduplicated by the account. *)
Definition enqueueSchedulerOutbox (accountID : Z) : Tx unit :=
  stmt (fun db => (tt, set_outbox (fun o => {[accountID]} ∪ o) db)).

Definition incrementUsageBillingAccountQuota (E : TxEnv) (accountID : Z) (amount : Amount)
    : Tx AccountQuotaState :=
  let! row := stmt (update_account accountID (charge_account (sql_now E) amount)) in
  match row with
  | None => tfail ErrAccountNotFound
  | Some r =>
      let state := quota_state r in
      if crossed (TotalUsed state) (TotalLimit state) amount ||
         crossed (DailyUsed state) (DailyLimit state) amount ||
         crossed (WeeklyUsed state) (WeeklyLimit state) amount
      then let! _ := enqueueSchedulerOutbox accountID in tret state
      else tret state
  end.

(** ** The transactions *)

Definition when_pos {A} (x : Amount) (m : Tx A) (d : A) : Tx A := if 0 <? x then m else tret d.

Definition applyUsageBillingEffects (E : TxEnv) (cmd : UsageBillingCommand)
    : Tx UsageBillingApplyResult :=
  let! fallbackAmount := when_pos (SubscriptionCost cmd) (applySubscriptionCost E cmd) 0 in
  let balanceCost := BalanceCost cmd + fallbackAmount in
  let! deduction := when_pos balanceCost
    (let! r := deductUsageBillingBalance (cmd_UserID cmd) balanceCost in tret (Some r)) None in
  let! exhausted := when_pos (APIKeyQuotaCost cmd)
    (incrementUsageBillingAPIKeyQuota (APIKeyID cmd) (APIKeyQuotaCost cmd)) false in
  let! _ := when_pos (APIKeyRateLimitCost cmd)
    (incrementUsageBillingAPIKeyRateLimit E (APIKeyID cmd) (APIKeyRateLimitCost cmd)) tt in
  let! quotaState :=
    if (0 <? AccountQuotaCost cmd) &&
       (EqualFold (AccountType cmd) AccountTypeAPIKey || EqualFold (AccountType cmd) AccountTypeBedrock)
    then let! s := incrementUsageBillingAccountQuota E (AccountID cmd) (AccountQuotaCost cmd) in
         tret (Some s)
    else tret None in
  tret (mkResult true exhausted
    (match deduction with Some (newBalance, _) => Some newBalance | None => None end)
    (match deduction with Some (_, sufficient) => negb sufficient | None => false end)
    quotaState
    (if 0 <? fallbackAmount then fallbackAmount else 0)
    (match deduction with Some _ => balanceCost | None => 0 end)).

(** A nil command is [None]; the receiver has its database. *)
Definition Apply (E : TxEnv) (cmd : option UsageBillingCommand) (db : DB) (fs : faults)
    : res UsageBillingApplyResult * DB * faults :=
  match cmd with
  | None => (Ok emptyResult, db, fs)
  | Some cmd =>
      let cmd := Normalize cmd in
      if String.eqb (RequestID cmd) "" then (Err ErrUsageBillingRequestIDRequired, db, fs)
      else
        transaction
          (let! applied := claimUsageBillingKey cmd in
           if negb applied then tret (false, emptyResult)
           else let! result := applyUsageBillingEffects E cmd in tret (true, result)) db fs
  end.

Definition mark_applied (r : BatchImageBalanceHoldResult) : BatchImageBalanceHoldResult :=
  mkHoldResult true (hold_NewBalance r) (FrozenBalance r).

Definition applyBatchImageBalanceHold
    (apply : BatchImageBalanceHoldCommand -> Tx BatchImageBalanceHoldResult)
    (cmd : option BatchImageBalanceHoldCommand) (db : DB) (fs : faults)
    : res BatchImageBalanceHoldResult * DB * faults :=
  match cmd with
  | None => (Ok emptyHoldResult, db, fs)
  | Some cmd =>
      let cmd := NormalizeHold cmd in
      if String.eqb (hold_RequestID cmd) "" then (Err ErrUsageBillingRequestIDRequired, db, fs)
      else
        transaction
          (let! applied := claimUsageBillingRequest (hold_RequestID cmd) (hold_APIKeyID cmd)
                             (hold_RequestFingerprint cmd) in
           if negb applied then tret (false, emptyHoldResult)
           else let! result := apply cmd in tret (true, mark_applied result)) db fs
  end.

Definition ReserveBatchImageBalance := applyBatchImageBalanceHold reserveUsageBillingBatchImageBalance.
Definition CaptureBatchImageBalance := applyBatchImageBalanceHold captureUsageBillingBatchImageBalance.
Definition ReleaseBatchImageBalance := applyBatchImageBalanceHold releaseUsageBillingBatchImageBalance.

(** ** What the steps establish *)

Lemma quantize_grid x : on_grid (QuantizeUsageBillingAmount x).
Proof.
  unfold QuantizeUsageBillingAmount. destruct (Z.eqb_spec x 0) as [->|]; auto with go.
Qed.

Lemma quantize_idem x :
  QuantizeUsageBillingAmount (QuantizeUsageBillingAmount x) = QuantizeUsageBillingAmount x.
Proof.
  generalize (quantize_grid x). generalize (QuantizeUsageBillingAmount x). intros y Hy.
  unfold QuantizeUsageBillingAmount. destruct (y =? 0); [done|by apply round8_id].
Qed.

(** The command is normalised in place, so a retry normalises it again. *)
Lemma Normalize_idempotent `{!GoUnicodeLaws} `{!BillingParamsLaws} c :
  Normalize (Normalize c) = Normalize c.
Proof.
  assert (Hform : exists fp, TrimSpace fp <> "" /\
    Normalize c = quantizeMonetaryFields (with_request c (TrimSpace (RequestID c)) fp)).
  { unfold Normalize. cbn. destruct (String.eqb_spec (TrimSpace (RequestFingerprint c)) "") as [|Hne].
    - eexists; split; [apply sha256_not_blank|done].
    - by exists (RequestFingerprint c). }
  destruct Hform as (fp & Hfp%String.eqb_neq & ->).
  unfold Normalize. cbn. rewrite Hfp. unfold quantizeMonetaryFields, with_request. cbn.
  by rewrite TrimSpace_idem, !quantize_idem.
Qed.

Lemma NormalizeHold_request c : hold_RequestID (NormalizeHold c) = TrimSpace (hold_RequestID c).
Proof. unfold NormalizeHold. by case_match. Qed.

Lemma Normalize_key c :
  RequestID (Normalize c) = TrimSpace (RequestID c) /\ APIKeyID (Normalize c) = APIKeyID c /\
  cmd_UserID (Normalize c) = cmd_UserID c.
Proof. unfold Normalize. by case_match. Qed.

Lemma Normalize_costs c :
  BalanceCost (Normalize c) = QuantizeUsageBillingAmount (BalanceCost c) /\
  SubscriptionCost (Normalize c) = QuantizeUsageBillingAmount (SubscriptionCost c) /\
  APIKeyQuotaCost (Normalize c) = QuantizeUsageBillingAmount (APIKeyQuotaCost c) /\
  APIKeyRateLimitCost (Normalize c) = QuantizeUsageBillingAmount (APIKeyRateLimitCost c).
Proof. unfold Normalize. by case_match. Qed.

(** A claim succeeds for a key in neither table, and records it; it is refused
quietly for a key already there with the same fingerprint. *)
Lemma claim_spec requestID apiKeyID fp db :
  wp (claimUsageBillingRequest requestID apiKeyID fp)
    (ensures (fun (applied : bool) db' =>
       if applied then
         usage_billing_dedup db !! (requestID, apiKeyID) = None /\
         usage_billing_dedup_archive db !! (requestID, apiKeyID) = None /\
         db' = set_dedup (fun t => <[(requestID, apiKeyID) := fp]> t) db
       else exists f,
         (usage_billing_dedup db !! (requestID, apiKeyID) = Some f \/
          usage_billing_dedup_archive db !! (requestID, apiKeyID) = Some f) /\
         TrimSpace f = TrimSpace fp)) db.
Proof.
  unfold claimUsageBillingRequest. tx_step. unfold claim_insert.
  destruct (usage_billing_dedup db !! (requestID, apiKeyID)) as [f|] eqn:Ed; cbn [fst snd negb].
  - tx_step. rewrite Ed. destruct (String.eqb_spec (TrimSpace f) (TrimSpace fp)) as [Heq|];
      cbn [negb]; tx_step. exists f. auto.
  - tx_step. cbn. destruct (usage_billing_dedup_archive db !! (requestID, apiKeyID)) as [f|] eqn:Ea.
    + destruct (String.eqb_spec (TrimSpace f) (TrimSpace fp)); cbn [negb]; tx_step. exists f. auto.
    + by tx_step.
Qed.

(** *** Subscription rows *)

Definition reset_all (dirty : list (Z * Time)) (t : gmap Z subscription_row) : gmap Z subscription_row :=
  foldl (fun t d => alter (reset_row d.2) d.1 t) t dirty.

Definition add_all (adds : list SubscriptionAllocation) (t : gmap Z subscription_row)
    : gmap Z subscription_row :=
  foldl (fun t a => alter (add_usage (AllocAmount a)) (SubscriptionID a) t) t adds.

Lemma set_subscriptions_compose f g db :
  set_subscriptions g (set_subscriptions f db) = set_subscriptions (fun t => g (f t)) db.
Proof. by destruct db. Qed.

Lemma resetWindows_spec dirty db :
  wp (resetWindows dirty) (ensures (fun _ db' => db' = set_subscriptions (reset_all dirty) db)) db.
Proof.
  revert db. induction dirty as [|[id start] dirty IH]; intros db; simpl.
  - tx_step. by destruct db.
  - tx_step. eapply ensures_mono; [apply IH|]. intros _ db' ->. unfold update_sub.
    by rewrite set_subscriptions_compose.
Qed.

Definition dirty_of (E : TxEnv) (userID : Z) (db : DB) : list (Z * Time) :=
  omap (dirtyWindow (lock_now E))
    (map (scanned userID) (lockUserSubscriptionWalletsSQL (sql_now E) userID db)).

Definition wallets_of (E : TxEnv) (userID : Z) (db : DB) : list (UserSubscription Amount) :=
  map (loaded (lock_now E))
    (map (scanned userID) (lockUserSubscriptionWalletsSQL (sql_now E) userID db)).

Lemma lock_spec E userID db :
  wp (lockUserSubscriptionWallets E userID)
    (ensures (fun subs db' => subs = wallets_of E userID db /\
       db' = set_subscriptions (reset_all (dirty_of E userID db)) db)) db.
Proof.
  unfold lockUserSubscriptionWallets. tx_step.
  eapply ensures_bind; [apply resetWindows_spec|]. intros _ db' ->. by tx_step.
Qed.

Lemma increment_spec id cost db :
  wp (incrementUsageBillingSubscription id cost) (fun r db' =>
    match r with
    | Ok _ => live_sub db id = true /\ db' = update_sub (add_usage cost) id db
    | Err e => db' = db /\ (e = ErrSubscriptionNotFound -> live_sub db id = false)
    end) db.
Proof.
  unfold incrementUsageBillingSubscription. apply wp_bind, wp_stmt.
  - intros [m|m]; split; try done; by intros [=].
  - destruct (live_sub db id) eqn:E; simpl; [by apply wp_ret|]. by apply wp_fail.
Qed.

(** What a wallet no longer takes is added to the remainder. *)
Lemma incrementAllocations_spec allocs rem db :
  wp (incrementAllocations allocs rem)
    (ensures (fun rest db' => exists adds, adds `sublist_of` allocs /\
       rest + paid adds = rem + paid allocs /\
       (Forall (fun a => 0 <= AllocAmount a) allocs -> rem <= rest) /\
       db' = set_subscriptions (add_all adds) db)) db.
Proof.
  revert rem db. induction allocs as [|a allocs IH]; intros rem db; cbn [incrementAllocations].
  - tx_step. exists []. split_and!; [apply sublist_nil_l|done|by intros|by destruct db].
  - apply wp_bind, wp_try. eapply wp_mono; [apply increment_spec|].
    intros [[]|e] db'; cbv beta iota.
    + intros [_ ->]. eapply ensures_mono; [apply IH|].
      intros rest db' (adds & Hsub & Heq & Hpos & ->). exists (a :: adds).
      rewrite !paid_cons. split_and!; [by constructor|lia| |].
      * intros Hall. inversion_clear Hall. auto.
      * unfold update_sub. by rewrite set_subscriptions_compose.
    + intros [-> _]. destruct (decide (e = ErrSubscriptionNotFound)); [|tx_step].
      eapply ensures_mono; [apply IH|].
      intros rest db' (adds & Hsub & Heq & Hpos & ->). exists adds.
      rewrite !paid_cons. split_and!; [by constructor|lia| |done].
      intros Hall. inversion_clear Hall. specialize (Hpos ltac:(done)). lia.
Qed.

Lemma taken_amounts now rows allocs :
  taken_from now rows allocs -> Forall (fun a => 0 <= AllocAmount a) allocs.
Proof.
  intros (ws & _ & Hws). induction Hws as [|s a ws allocs (_ & Ha & _) _ IH]; constructor; [|done].
  unfold subscriptionAllocationEpsilon in Ha. lia.
Qed.

(** The wallets and the remainder account for the whole subscription cost, up to
the tolerance. *)
Definition subscription_charged (E : TxEnv) (cmd : UsageBillingCommand) (db : DB)
    (fallback : Amount) (adds : list SubscriptionAllocation) : Prop :=
  0 <= fallback /\
  SubscriptionCost cmd - subscriptionAllocationEpsilon <= paid adds + fallback <= SubscriptionCost cmd /\
  (wallets_of E (cmd_UserID cmd) db = [] /\
     (adds = [] \/ exists id, cmd_SubscriptionID cmd = Some id /\ adds = [mkAlloc id (SubscriptionCost cmd)]) \/
   exists allocs, adds `sublist_of` allocs /\
     taken_from (split_now E)
       (active_rows (split_now E) (map Some (wallets_of E (cmd_UserID cmd) db))) allocs).

Lemma applySubscriptionCost_spec E cmd db :
  0 < SubscriptionCost cmd ->
  wp (applySubscriptionCost E cmd)
    (ensures (fun fallback db' => exists adds,
       subscription_charged E cmd db fallback adds /\
       db' = set_subscriptions (fun t => add_all adds
               (reset_all (dirty_of E (cmd_UserID cmd) db) t)) db)) db.
Proof.
  intros Hcost. unfold applySubscriptionCost. eapply ensures_bind; [apply lock_spec|].
  intros subs db1 [-> ->]. set (subs := wallets_of E (cmd_UserID cmd) db).
  set (db1 := set_subscriptions _ db).
  pose proof (split_spec (split_now E) (map Some subs) (SubscriptionCost cmd) (split_now E) Hcost)
    as Hsplit. unfold SplitSubscriptionUsage.
  destruct (SplitSubscriptionUsageAt _ _ _ _) as [allocs rem]. destruct Hsplit as [Hsums Htaken].
  assert (Hrem : 0 <= rem /\
    SubscriptionCost cmd - subscriptionAllocationEpsilon <= paid allocs + rem <= SubscriptionCost cmd).
  { unfold subscriptionAllocationEpsilon in *. destruct Hsums as [(-> & ? & _)|(? & ? & _)]; lia. }
  destruct ((length allocs =? 0)%nat && (0 <? rem) && (length subs =? 0)%nat) eqn:Enone.
  - bool_prop. assert (Hsubs : subs = []) by (destruct subs; done).
    assert (Hwhole : forall db2, db2 = db1 -> exists adds,
      subscription_charged E cmd db (SubscriptionCost cmd) adds /\
      db2 = set_subscriptions (fun t => add_all adds
               (reset_all (dirty_of E (cmd_UserID cmd) db) t)) db).
    { intros db2 ->. exists []. split; [|done].
      split_and!; [lia|cbn; unfold subscriptionAllocationEpsilon; lia..|]. left. auto. }
    destruct (cmd_SubscriptionID cmd) as [id|] eqn:Eid; [|tx_step; by apply Hwhole].
    apply wp_bind, wp_try. eapply wp_mono; [apply increment_spec|].
    intros [[]|e] db2; cbn [ensures].
    + intros [_ ->]. tx_step. exists [mkAlloc id (SubscriptionCost cmd)].
      split; [|unfold update_sub, db1; by rewrite set_subscriptions_compose].
      split_and!; [lia|cbn; unfold subscriptionAllocationEpsilon; lia..|].
      left. split; [done|]. right. by exists id.
    + intros [-> _]. destruct (decide (e = ErrSubscriptionNotFound)); tx_step. by apply Hwhole.
  - eapply ensures_mono; [apply incrementAllocations_spec|].
    intros rest db2 (adds & Hsub & Heq & Hpos & ->). exists adds.
    specialize (Hpos (taken_amounts _ _ _ Htaken)).
    split; [|unfold db1; by rewrite set_subscriptions_compose].
    split_and!; [lia|lia|lia|]. right. by exists allocs.
Qed.

(** *** Users, keys and accounts *)

Lemma insert_alter_eq {A} (f : A -> A) (t : gmap Z A) id r :
  t !! id = Some r -> <[id := f r]> t = alter f id t.
Proof.
  intros Hr. apply map_eq. intros j. destruct (decide (id = j)) as [<-|Hne].
  - by rewrite lookup_insert_eq, lookup_alter_eq, Hr.
  - by rewrite lookup_insert_ne, lookup_alter_ne.
Qed.

Lemma live_user_lookup db id r : live_user db id = Some r -> users db !! id = Some r /\ user_deleted r = false.
Proof. unfold live_user. repeat case_match; naive_solver. Qed.

Lemma update_user_some id guard f db r db' :
  update_user id guard f db = (Some r, db') ->
  exists row, live_user db id = Some row /\ guard row = true /\ r = f row /\
    db' = set_users (alter f id) db.
Proof.
  unfold update_user. destruct (live_user db id) as [row|] eqn:E; [|done].
  destruct (guard row) eqn:Eg; [|done]. intros [= <- <-]. exists row. split_and!; try done.
  apply live_user_lookup in E as [Hr _]. unfold set_users. f_equal. by apply insert_alter_eq.
Qed.

Lemma update_user_none id guard f db db' :
  update_user id guard f db = (None, db') ->
  db' = db /\ forall row, live_user db id = Some row -> guard row = false.
Proof.
  unfold update_user. destruct (live_user db id) as [row|] eqn:E; [|by intros [= <-]].
  destruct (guard row) eqn:Eg; [done|]. intros [= <-]. split; [done|]. by intros ? [= <-].
Qed.

Lemma deduct_spec u amount db :
  wp (deductUsageBillingBalance u amount)
    (ensures (fun r db' => exists row, live_user db u = Some row /\
       r = (balance (deducted amount row), amount <=? balance row) /\
       db' = set_users (alter (deducted amount) u) db)) db.
Proof.
  unfold deductUsageBillingBalance. tx_step.
  destruct (update_user u _ _ db) as [[r|] db1] eqn:E1; cbn [fst snd].
  - apply update_user_some in E1 as (row & Hr & Hg & -> & ->). tx_step. exists row.
    by rewrite Hg.
  - apply update_user_none in E1 as [-> Hg]. tx_step.
    destruct (update_user u _ _ db) as [[r|] db2] eqn:E2; cbn [fst snd]; [|tx_step].
    apply update_user_some in E2 as (row & Hr & _ & -> & ->). tx_step. exists row.
    by rewrite (Hg row Hr).
Qed.

Lemma update_key_spec id f db r db' :
  update_key id f db = (Some r, db') ->
  exists row, live_key db id = Some row /\ r = f row /\ db' = set_keys (alter f id) db.
Proof.
  unfold update_key. destruct (live_key db id) as [row|] eqn:E; [|done].
  intros [= <- <-]. exists row. split_and!; try done. unfold live_key in E.
  destruct (api_keys db !! id) as [row'|] eqn:Hr; [|done]. destruct (key_deleted row'); [done|].
  injection E as ->. unfold set_keys. f_equal. by apply insert_alter_eq.
Qed.

Lemma key_quota_spec id amount db :
  wp (incrementUsageBillingAPIKeyQuota id amount)
    (ensures (fun r db' => exists row, live_key db id = Some row /\
       r = quota_crossed amount (quota_charged amount row) /\
       db' = set_keys (alter (quota_charged amount) id) db)) db.
Proof.
  unfold incrementUsageBillingAPIKeyQuota. tx_step.
  destruct (update_key _ _ db) as [[r|] db1] eqn:E; cbn [fst snd]; [|tx_step].
  apply update_key_spec in E as (row & Hr & -> & ->). tx_step. by exists row.
Qed.

Lemma key_rate_spec E id cost db :
  wp (incrementUsageBillingAPIKeyRateLimit E id cost)
    (ensures (fun _ db' => db' = set_keys (alter (rate_charged (sql_now E) cost) id) db)) db.
Proof.
  unfold incrementUsageBillingAPIKeyRateLimit. tx_step.
  destruct (update_key _ _ db) as [[r|] db1] eqn:Eu; cbn [fst snd]; [|tx_step].
  apply update_key_spec in Eu as (row & _ & -> & ->). by tx_step.
Qed.

(** The account's row is charged; it is put in the outbox exactly when one of its
quotas has been crossed. *)
Lemma account_quota_spec E id amount db :
  wp (incrementUsageBillingAccountQuota E id amount)
    (ensures (fun state db' => exists row, accounts db !! id = Some row /\
       account_deleted row = false /\
       state = quota_state (charge_account (sql_now E) amount row) /\
       db' = set_outbox (fun o =>
               if crossed (TotalUsed state) (TotalLimit state) amount ||
                  crossed (DailyUsed state) (DailyLimit state) amount ||
                  crossed (WeeklyUsed state) (WeeklyLimit state) amount
               then {[id]} ∪ o else o)
             (set_accounts (alter (charge_account (sql_now E) amount) id) db))) db.
Proof.
  unfold incrementUsageBillingAccountQuota. tx_step. unfold update_account.
  destruct (accounts db !! id) as [row|] eqn:Er; cbn [fst snd]; [|tx_step].
  destruct (account_deleted row) eqn:Ed; cbn [fst snd]; [tx_step|].
  set (state := quota_state _).
  assert (Hset : forall t, <[id:=charge_account (sql_now E) amount row]> (accounts db) = t ->
    t = alter (charge_account (sql_now E) amount) id (accounts db)).
  { intros t <-. by apply insert_alter_eq. }
  destruct (_ || _ || _) eqn:Ec.
  - unfold enqueueSchedulerOutbox. tx_step. tx_step. exists row. fold state. rewrite Ec.
    split_and!; try done. unfold set_accounts, set_outbox. cbn. f_equal. by apply Hset.
  - tx_step. exists row. fold state. rewrite Ec. split_and!; try done.
    unfold set_accounts, set_outbox. cbn. f_equal. by apply Hset.
Qed.

(** ** The effect of a charge *)

Definition if_pos (x : Amount) {A} (f : A -> A) (a : A) : A := if 0 <? x then f a else a.

Definition keys_charged (E : TxEnv) (cmd : UsageBillingCommand) (t : gmap Z api_key_row)
    : gmap Z api_key_row :=
  if_pos (APIKeyRateLimitCost cmd)
    (alter (rate_charged (sql_now E) (APIKeyRateLimitCost cmd)) (APIKeyID cmd))
    (if_pos (APIKeyQuotaCost cmd) (alter (quota_charged (APIKeyQuotaCost cmd)) (APIKeyID cmd)) t).

(** What a posted charge does to the tables of users and subscriptions, and what
it reports. *)
Record charged (E : TxEnv) (cmd : UsageBillingCommand) (db : DB) (r : UsageBillingApplyResult)
    (adds : list SubscriptionAllocation) (db' : DB) : Prop := {
  ch_fallback : SubscriptionCost cmd <= 0 -> SubscriptionFallbackAmount r = 0 /\ adds = [];
  ch_split : 0 < SubscriptionCost cmd ->
    subscription_charged E cmd db (SubscriptionFallbackAmount r) adds;
  ch_subs : user_subscriptions db' =
    add_all adds (if_pos (SubscriptionCost cmd) (reset_all (dirty_of E (cmd_UserID cmd) db))
                    (user_subscriptions db));
  ch_deducted : DeductedBalanceAmount r =
    Z.max 0 (BalanceCost cmd + SubscriptionFallbackAmount r);
  ch_users : users db' =
    if_pos (DeductedBalanceAmount r) (alter (deducted (DeductedBalanceAmount r)) (cmd_UserID cmd))
      (users db);
  ch_live : 0 < DeductedBalanceAmount r -> exists row, live_user db (cmd_UserID cmd) = Some row /\
    NewBalance r = Some (balance (deducted (DeductedBalanceAmount r) row)) /\
    BalanceOverdrafted r = (balance row <? DeductedBalanceAmount r);
  ch_keys : api_keys db' = keys_charged E cmd (api_keys db);
  ch_dedup : usage_billing_dedup db' = usage_billing_dedup db;
  ch_archive : usage_billing_dedup_archive db' = usage_billing_dedup_archive db;
  ch_applied : Applied r = true
}.

Lemma effects_spec E cmd db :
  wp (applyUsageBillingEffects E cmd)
    (ensures (fun r db' => exists adds, charged E cmd db r adds db')) db.
Proof.
  unfold applyUsageBillingEffects.
  eapply (ensures_bind _ _ (fun fallback db1 => exists adds,
    (SubscriptionCost cmd <= 0 -> fallback = 0 /\ adds = []) /\
    (0 < SubscriptionCost cmd -> subscription_charged E cmd db fallback adds) /\ 0 <= fallback /\
    db1 = set_subscriptions (fun t => add_all adds
      (if_pos (SubscriptionCost cmd) (reset_all (dirty_of E (cmd_UserID cmd) db)) t)) db)).
  { unfold when_pos, if_pos. destruct (Z.ltb_spec 0 (SubscriptionCost cmd)) as [Hpos|Hle].
    - eapply ensures_mono; [by apply applySubscriptionCost_spec|].
      intros f db1 (adds & Hc & ->). exists adds. split_and!; [lia|done|apply Hc|done].
    - tx_step. exists []. split_and!; [done|lia|lia|by destruct db]. }
  intros fallback db1 (adds & Hno & Hyes & Hf & ->). set (bc := BalanceCost cmd + fallback).
  eapply (ensures_bind _ _ (fun d db2 =>
    db2 = set_users (if_pos bc (alter (deducted bc) (cmd_UserID cmd)))
            (set_subscriptions (fun t => add_all adds
               (if_pos (SubscriptionCost cmd) (reset_all (dirty_of E (cmd_UserID cmd) db)) t)) db) /\
    (if 0 <? bc then exists row, live_user db (cmd_UserID cmd) = Some row /\
       d = Some (balance (deducted bc row), bc <=? balance row) else d = None))).
  { unfold when_pos, if_pos. destruct (Z.ltb_spec 0 bc) as [Hpos|Hle].
    - eapply ensures_bind; [apply deduct_spec|]. intros r db2 (row & Hr & -> & ->). tx_step.
      split; [done|]. by exists row.
    - tx_step. split; [by destruct db|done]. }
  intros d db2 [Hdb2 Hd].
  eapply (ensures_bind _ _ (fun _ db3 => db3 = set_keys (if_pos (APIKeyQuotaCost cmd)
    (alter (quota_charged (APIKeyQuotaCost cmd)) (APIKeyID cmd))) db2)).
  { unfold when_pos, if_pos. destruct (0 <? APIKeyQuotaCost cmd).
    - eapply ensures_mono; [apply key_quota_spec|]. by intros r db3 (row & _ & _ & ->).
    - tx_step. by destruct db2. }
  intros exhausted db3 Hdb3.
  eapply (ensures_bind _ _ (fun _ db4 => db4 = set_keys (if_pos (APIKeyRateLimitCost cmd)
    (alter (rate_charged (sql_now E) (APIKeyRateLimitCost cmd)) (APIKeyID cmd))) db3)).
  { unfold when_pos, if_pos. destruct (0 <? APIKeyRateLimitCost cmd).
    - apply key_rate_spec.
    - tx_step. by destruct db3. }
  intros _ db4 Hdb4.
  eapply (ensures_bind _ _ (fun _ db5 => users db5 = users db4 /\
    user_subscriptions db5 = user_subscriptions db4 /\ api_keys db5 = api_keys db4 /\
    usage_billing_dedup db5 = usage_billing_dedup db4 /\
    usage_billing_dedup_archive db5 = usage_billing_dedup_archive db4)).
  { destruct (_ && _); [|by tx_step].
    eapply ensures_bind; [apply account_quota_spec|]. intros st db5 (row & _ & _ & _ & ->).
    by tx_step. }
  intros qs db5 (Hu & Hs & Hk & Hdd & Ha). subst db2 db3 db4. cbn in Hu, Hs, Hk, Hdd, Ha.
  tx_step. exists adds.
  match goal with |- charged _ _ _ ?res _ _ => set (r := res) end.
  assert (Hfb : SubscriptionFallbackAmount r = fallback)
    by (cbn; destruct (Z.ltb_spec 0 fallback); lia).
  assert (Hded : DeductedBalanceAmount r = Z.max 0 bc).
  { cbn. destruct (Z.ltb_spec 0 bc); [destruct Hd as (row & _ & ->)|subst d]; lia. }
  assert (Hmax : forall A (f : Amount -> A -> A) a, if_pos (Z.max 0 bc) (f (Z.max 0 bc)) a =
    if_pos bc (f bc) a).
  { intros A f a. unfold if_pos. destruct (Z.ltb_spec 0 bc).
    - by rewrite Z.max_r, (proj2 (Z.ltb_lt 0 bc)) by lia.
    - by rewrite Z.max_l by lia. }
  split; rewrite ?Hfb, ?Hded; fold bc; try done.
  - rewrite Hu. symmetry. apply (Hmax _ (fun x => alter (deducted x) (cmd_UserID cmd))).
  - intros Hpos. rewrite (proj2 (Z.ltb_lt 0 bc)) in Hd by lia. destruct Hd as (row & Hr & Hd).
    exists row. subst r. cbn. rewrite Hd, Z.max_r by lia.
    by rewrite Z.leb_antisym, negb_involutive.
Qed.
End Billing.

(** An instance to evaluate the model with: the digest is the text itself with a
mark, and every zone is UTC. *)
#[export] Instance PlainParams : BillingParams := {
  sha256_hex s := ("#" +:+ s)%string;
  at_zone _ t := t;
  from_zone _ t := t
}.

(** One dollar. *)
Definition usd (n : Z) : Amount := n * 10000000000.

(** User 7 with five dollars and two wallets of one dollar, one that renews every
day and was used up the day before, one that lasts; user 8 with nothing. *)
Definition ex_now : Time := Date 2026 3 10 + 5 * Hour.

Definition ex_db : DB := mkDB
  {[7 := mkUser (usd 5) 0 false; 8 := mkUser 0 0 false]}
  {[1 := mkSubRow 7 "active" (Date 2026 6 1) (Some (usd 1)) (usd 1) "daily" (Some (Date 2026 3 9)) false;
    2 := mkSubRow 7 "active" (Date 2026 9 1) (Some (usd 1)) 0 "none" None false]}
  {[70 := mkKeyRow "active" (usd 2) 0 0 0 0 None None None false]} ∅ ∅ ∅ ∅.

Definition ex_env : TxEnv := mkEnv ex_now ex_now ex_now.

Definition ex_charge (id : string) (balanceCost subscriptionCost : Amount) : UsageBillingCommand :=
  mkCommand id 70 "" "" 7 500 (Some 2) "apikey" "m" "" "" 0 10 20 0 0 0 "" balanceCost
    subscriptionCost (usd 1) (usd 1) 0.

Definition ex_hold (prefix batch : string) (hold actual : Amount) : BatchImageBalanceHoldCommand :=
  mkHold (prefix +:+ batch)%string 70 "" "" 7 batch hold actual.

Example billing_ex_apply :
  let '(r, db, _) := Apply ex_env (Some (ex_charge " r1 " 0 (usd 3))) ex_db [] in
  r = Ok (mkResult true false (Some (usd 3)) false None (usd 2) (usd 2)) /\
  total_usage_usd <$> user_subscriptions db = {[1 := 0; 2 := usd 1]}.
Proof. by vm_compute. Qed.

(** The same request again, and the same id with another amount. *)
Example billing_ex_replay :
  let '(_, db, _) := Apply ex_env (Some (ex_charge "r1" 0 (usd 3))) ex_db [] in
  (Apply ex_env (Some (ex_charge "r1" 0 (usd 3))) db []).1 = (Ok emptyResult, db) /\
  (Apply ex_env (Some (ex_charge "r1" 0 (usd 4))) db []).1 = (Err ErrUsageBillingRequestConflict, db).
Proof. by vm_compute. Qed.
