(* ===== verification/BillingLedger.v ===== *)
(** * Billing as a ledger

The specification of the billing transactions: a ledger that knows which
request keys have been posted and what every user and wallet stands at, and is
only changed by posting an entry under a new key.  The transactions of
[Billing], with any failures of their statements and commits, refine it. *)
From S2P Require Import Prelude GoText GoTime SubscriptionWindow Wallets BillingStore Billing.
From Stdlib Require Import Bool.

Local Open Scope string_scope.
Local Open Scope Z_scope.
Local Open Scope list_scope.

(** ** The abstract machine *)

Notation key := (string * Z)%type.

Record ledger : Type := mkLedger {
  l_posted : gset key;
  l_balance : gmap Z Amount;
  l_frozen : gmap Z Amount;
  l_usage : gmap Z Amount
}.

(** An entry: the amounts by which the balance and the frozen balance of a user
change, the wallets whose window is renewed, and what is charged to wallets. *)
Record entry : Type := mkEntry {
  e_key : key;
  e_user : Z;
  e_balance : Amount;
  e_frozen : Amount;
  e_renewed : list Z;
  e_wallets : list SubscriptionAllocation
}.

Definition usage_after (e : entry) (t : gmap Z Amount) : gmap Z Amount :=
  foldl (fun t a => alter (fun u => u + AllocAmount a) (SubscriptionID a) t)
    (foldl (fun t id => alter (fun _ => 0) id t) t (e_renewed e)) (e_wallets e).

Definition post (e : entry) (l : ledger) : ledger :=
  mkLedger ({[e_key e]} ∪ l_posted l)
    (alter (fun b => b + e_balance e) (e_user e) (l_balance l))
    (alter (fun f => f + e_frozen e) (e_user e) (l_frozen l))
    (usage_after e (l_usage l)).

Inductive op : Type :=
  | OpApply (E : TxEnv) (cmd : UsageBillingCommand)
  | OpReserve (cmd : BatchImageBalanceHoldCommand)
  | OpCapture (cmd : BatchImageBalanceHoldCommand)
  | OpRelease (cmd : BatchImageBalanceHoldCommand)
  | OpCleanup (rounds : list (list key)).

(** ** The concrete machine *)

(** One row of a round of [CleanupUsageBillingDedup]: it moves to the archive,
which keeps the row it has. *)
Definition archive_row (db : DB) (k : key) : DB :=
  match usage_billing_dedup db !! k with
  | None => db
  | Some fp =>
      mkDB (users db) (user_subscriptions db) (api_keys db) (accounts db)
        (delete k (usage_billing_dedup db))
        (match usage_billing_dedup_archive db !! k with
         | Some _ => usage_billing_dedup_archive db
         | None => <[k := fp]> (usage_billing_dedup_archive db)
         end) (scheduler_outbox db)
  end.

(** The rounds of the loop, each with the old rows its statement selects. *)
Fixpoint CleanupUsageBillingDedup (rounds : list (list key)) : Tx unit :=
  match rounds with
  | [] => tret tt
  | victims :: rounds =>
      let! _ := autocommit (fun db => (tt, foldl archive_row db victims)) in
      CleanupUsageBillingDedup rounds
  end.

Section Ledger.
Context `{GoUnicode} `{BillingParams}.

(** Whether the operation applied, and the tables. *)
Definition run_op (o : op) (db : DB) (fs : faults) : res bool * DB :=
  match o with
  | OpApply E cmd =>
      let '(r, db', _) := Apply E (Some cmd) db fs in
      (match r with Ok a => Ok (Applied a) | Err e => Err e end, db')
  | OpReserve cmd =>
      let '(r, db', _) := ReserveBatchImageBalance (Some cmd) db fs in
      (match r with Ok a => Ok (hold_Applied a) | Err e => Err e end, db')
  | OpCapture cmd =>
      let '(r, db', _) := CaptureBatchImageBalance (Some cmd) db fs in
      (match r with Ok a => Ok (hold_Applied a) | Err e => Err e end, db')
  | OpRelease cmd =>
      let '(r, db', _) := ReleaseBatchImageBalance (Some cmd) db fs in
      (match r with Ok a => Ok (hold_Applied a) | Err e => Err e end, db')
  | OpCleanup rounds =>
      let '(r, db', _) := CleanupUsageBillingDedup rounds db fs in
      (match r with Ok _ => Ok false | Err e => Err e end, db')
  end.

Definition op_key (o : op) : option key :=
  match o with
  | OpApply _ cmd => Some (TrimSpace (RequestID cmd), APIKeyID cmd)
  | OpReserve cmd | OpCapture cmd | OpRelease cmd =>
      Some (TrimSpace (hold_RequestID cmd), hold_APIKeyID cmd)
  | OpCleanup _ => None
  end.

(** ** What each operation may post *)

(** A charge takes what the wallets do not pay from the balance; both together
are the cost, up to the tolerance.  A balance may become negative. *)
Definition charge_entry (cmd : UsageBillingCommand) (l : ledger) (e : entry) : Prop :=
  e_user e = cmd_UserID cmd /\ e_frozen e = 0 /\
  exists deducted : Amount,
    (0 <= BalanceCost cmd -> 0 <= SubscriptionCost cmd ->
     BalanceCost cmd + SubscriptionCost cmd - subscriptionAllocationEpsilon <=
       paid (e_wallets e) + deducted <= BalanceCost cmd + SubscriptionCost cmd) /\
    (SubscriptionCost cmd <= 0 -> e_wallets e = [] /\ e_renewed e = []) /\
    (deducted <= 0 /\ e_balance e = 0 \/
     exists b, l_balance l !! e_user e = Some b /\ e_balance e = round8 (b - deducted) - b).

(** The changes of balance and frozen balance by [x] and [y]. *)
Definition moves (l : ledger) (e : entry) (x y : Amount) : Prop :=
  exists b f, l_balance l !! e_user e = Some b /\ l_frozen l !! e_user e = Some f /\
    e_balance e = round8 (b + x) - b /\ e_frozen e = round8 (f + y) - f.

Definition nothing (e : entry) : Prop := e_balance e = 0 /\ e_frozen e = 0.

Definition covers (t : gmap Z Amount) (u : Z) (x : Amount) : Prop :=
  exists b, t !! u = Some b /\ x <= b.

Definition hold_entry (cmd : BatchImageBalanceHoldCommand) (e : entry) : Prop :=
  e_user e = hold_UserID cmd /\ e_renewed e = [] /\ e_wallets e = [].

Definition permitted (o : op) (l : ledger) (e : entry) : Prop :=
  match o with
  | OpApply _ cmd => charge_entry (Normalize cmd) l e
  | OpReserve cmd => hold_entry cmd e /\
      (HoldAmount cmd <= 0 /\ nothing e \/
       0 < HoldAmount cmd /\ covers (l_balance l) (e_user e) (HoldAmount cmd) /\
         moves l e (- HoldAmount cmd) (HoldAmount cmd))
  | OpCapture cmd => hold_entry cmd e /\
      (HoldAmount cmd <= 0 /\ ActualAmount cmd <= 0 /\ nothing e \/
       (0 < HoldAmount cmd \/ 0 < ActualAmount cmd) /\
         ActualAmount cmd <= HoldAmount cmd + captureTolerance /\
         covers (l_frozen l) (e_user e) (HoldAmount cmd) /\
         moves l e (HoldAmount cmd - ActualAmount cmd) (- HoldAmount cmd))
  | OpRelease cmd => hold_entry cmd e /\
      ((HoldAmount cmd <= 0 \/
        (BatchImageHoldRequestID (BatchID cmd), hold_APIKeyID cmd) ∉ l_posted l) /\ nothing e \/
       0 < HoldAmount cmd /\
         ((BatchImageHoldRequestID (BatchID cmd), hold_APIKeyID cmd) ∈ l_posted l \/
          (BatchImageHoldRequestID (BatchID cmd), hold_APIKeyID cmd) = e_key e) /\
         covers (l_frozen l) (e_user e) (HoldAmount cmd) /\
         moves l e (HoldAmount cmd) (- HoldAmount cmd))
  | OpCleanup _ => False
  end.

(** One step of the ledger: an entry of the operation, under its key, which is
new and not blank. *)
Definition ledger_step (o : op) (e : entry) (l l' : ledger) : Prop :=
  op_key o = Some (e_key e) /\ (e_key e).1 <> "" /\ e_key e ∉ l_posted l /\
  permitted o l e /\ l' = post e l.

(** ** The abstraction *)

Definition posted_keys (db : DB) : gset key :=
  dom (usage_billing_dedup db) ∪ dom (usage_billing_dedup_archive db).

Definition abs (db : DB) : ledger :=
  mkLedger (posted_keys db) (balance <$> users db) (frozen_balance <$> users db)
    (total_usage_usd <$> user_subscriptions db).

(** ** Simulation *)

Lemma fmap_alter_shift {A} (g : A -> Amount) (f : A -> A) (t : gmap Z A) u row :
  t !! u = Some row ->
  g <$> alter f u t = alter (fun b => b + (g (f row) - g row)) u (g <$> t).
Proof.
  intros Hr. apply map_eq. intros j. rewrite lookup_fmap.
  destruct (decide (u = j)) as [<-|Hne].
  - rewrite !lookup_alter_eq, lookup_fmap, Hr. simpl. f_equal. lia.
  - by rewrite !lookup_alter_ne, lookup_fmap by done.
Qed.

Lemma alter_same {A} (f : A -> A) (t : gmap Z A) u : (forall x, f x = x) -> alter f u t = t.
Proof.
  intros Hf. apply map_eq. intros j. destruct (decide (u = j)) as [<-|Hne].
  - rewrite lookup_alter_eq. destruct (t !! u); simpl; [by rewrite Hf|done].
  - by rewrite lookup_alter_ne.
Qed.

Lemma fmap_alter_commute {A B} (g : A -> B) (f : A -> A) (h : B -> B) (t : gmap Z A) u :
  (forall x, g (f x) = h (g x)) -> g <$> alter f u t = alter h u (g <$> t).
Proof.
  intros Hc. apply map_eq. intros j. rewrite lookup_fmap.
  destruct (decide (u = j)) as [<-|Hne].
  - rewrite !lookup_alter_eq, lookup_fmap. destruct (t !! u); simpl; [by rewrite Hc|done].
  - by rewrite !lookup_alter_ne, lookup_fmap by done.
Qed.

Lemma usage_fmap dirty adds t :
  total_usage_usd <$> add_all adds (reset_all dirty t) =
  foldl (fun t a => alter (fun u => u + AllocAmount a) (SubscriptionID a) t)
    (foldl (fun t id => alter (fun _ => 0) id t) (total_usage_usd <$> t) (map fst dirty)) adds.
Proof.
  unfold add_all, reset_all.
  assert (Hr : total_usage_usd <$> foldl (fun t d => alter (reset_row d.2) d.1 t) t dirty =
    foldl (fun t id => alter (fun _ => 0) id t) (total_usage_usd <$> t) (map fst dirty)).
  { revert t. induction dirty as [|d dirty IH]; intros t; simpl; [done|].
    rewrite IH. f_equal. by apply fmap_alter_commute. }
  rewrite <- Hr. generalize (foldl (fun t d => alter (reset_row d.2) d.1 t) t dirty).
  induction adds as [|a adds IH]; intros t'; simpl; [done|].
  rewrite IH. f_equal. by apply fmap_alter_commute.
Qed.

(** The tables with the key claimed. *)
Definition claimed (k : key) (fp : string) (db : DB) : DB := set_dedup (fun t => <[k := fp]> t) db.

Lemma posted_claimed k fp db : posted_keys (claimed k fp db) = {[k]} ∪ posted_keys db.
Proof. unfold posted_keys, claimed. cbn. rewrite dom_insert_L. set_solver. Qed.

Lemma elem_of_posted k db :
  k ∈ posted_keys db <->
  is_Some (usage_billing_dedup db !! k) \/ is_Some (usage_billing_dedup_archive db !! k).
Proof. unfold posted_keys. by rewrite elem_of_union, !elem_of_dom. Qed.

Lemma not_posted k db :
  usage_billing_dedup db !! k = None -> usage_billing_dedup_archive db !! k = None ->
  k ∉ posted_keys db.
Proof. intros H1 H2. rewrite elem_of_posted, H1, H2. intros [[? [=]]|[? [=]]]. Qed.

(** A transaction that claims its key and then runs [body]. *)
Lemma claimed_transaction {R A} (requestID : string) (apiKeyID : Z) fp (body : Tx R) (d : A)
    (f : R -> A) (P : R -> DB -> Prop) db fs :
  wp body (ensures P) (claimed (requestID, apiKeyID) fp db) ->
  match transaction
    (let! applied := claimUsageBillingRequest requestID apiKeyID fp in
     if negb applied then tret (false, d)
     else let! r := body in tret (true, f r)) db fs with
  | (Ok a, db', _) =>
      (exists r, a = f r /\ (requestID, apiKeyID) ∉ posted_keys db /\ P r db') \/
      a = d /\ db' = db /\ (requestID, apiKeyID) ∈ posted_keys db
  | (Err _, db', _) =>
      db' = db \/ exists r, (requestID, apiKeyID) ∉ posted_keys db /\ P r db'
  end.
Proof.
  intros Hbody.
  set (Q := fun (ca : bool * A) db' =>
    if ca.1 then exists r, ca.2 = f r /\ (requestID, apiKeyID) ∉ posted_keys db /\ P r db'
    else ca.2 = d /\ (requestID, apiKeyID) ∈ posted_keys db).
  pose proof (transaction_spec
    (let! applied := claimUsageBillingRequest requestID apiKeyID fp in
     if negb applied then tret (false, d)
     else let! r := body in tret (true, f r)) db fs (fun ca => Q ca)) as Htx.
  match type of Htx with ?X -> _ => assert (HX : X) end.
  { eapply ensures_bind; [apply claim_spec|]. intros [|] db1; cbn [negb].
    - intros (Hd & Ha & ->). eapply ensures_bind; [exact Hbody|]. intros r db2 Hr. tx_step.
      exists r. split_and!; [done|by apply not_posted|done].
    - intros (g & Hin & _). tx_step. split; [done|].
      rewrite elem_of_posted. unfold is_Some. naive_solver. }
  specialize (Htx HX). clear HX.
  destruct (transaction _ db fs) as [[[a|e] db'] fs'].
  - destruct Htx as (db1 & [[HQ ->]|[HQ ->]]); unfold Q in HQ; cbn in HQ; [by left|right; tauto].
  - destruct Htx as [->|[a HQ]]; [by left|right]. destruct HQ as (r & _ & ? & ?). by exists r.
Qed.

(** The outcome of an operation against the ledger. *)
Definition simulated (o : op) (r : res bool) (db db' : DB) : Prop :=
  match r with
  | Ok true => exists e, ledger_step o e (abs db) (abs db')
  | Ok false => abs db' = abs db /\ (forall k, op_key o = Some k -> k ∈ l_posted (abs db))
  | Err _ => abs db' = abs db \/ exists e, ledger_step o e (abs db) (abs db')
  end.

(** A change of one user's row, in terms of the ledger. *)
Lemma abs_user_step k fp u f db row renewed wallets :
  users db !! u = Some row ->
  let e := mkEntry k u (balance (f row) - balance row) (frozen_balance (f row) - frozen_balance row)
             renewed wallets in
  usage_after e (total_usage_usd <$> user_subscriptions db) =
    total_usage_usd <$> user_subscriptions db ->
  abs (set_users (alter f u) (claimed k fp db)) = post e (abs db).
Proof.
  intros Hr e Husage. unfold abs, post. cbn [l_posted l_balance l_frozen l_usage e_key e_user e_balance e_frozen e].
  f_equal.
  - exact (posted_claimed k fp db).
  - cbn. by rewrite (fmap_alter_shift balance f _ u row).
  - cbn. by rewrite (fmap_alter_shift frozen_balance f _ u row).
  - cbn. symmetry. exact Husage.
Qed.

(** No change but the claim. *)
Lemma abs_claim k fp u db : abs (claimed k fp db) = post (mkEntry k u 0 0 [] []) (abs db).
Proof.
  unfold abs, post. cbn [l_posted l_balance l_frozen l_usage e_key e_user e_balance e_frozen].
  f_equal; [apply posted_claimed|cbn; rewrite alter_same by lia; done..].
Qed.

Lemma lookup_abs db u row :
  users db !! u = Some row ->
  l_balance (abs db) !! u = Some (balance row) /\ l_frozen (abs db) !! u = Some (frozen_balance row).
Proof. intros Hr. cbn. by rewrite !lookup_fmap, Hr. Qed.

(** *** Holds *)

(** A guarded update of the user of a hold. *)
Lemma guarded_update_spec u guard f e db :
  wp (let! row := stmt (update_user u guard f) in
      match row with
      | Some r => tret (hold_result r)
      | None => no_row u e
      end)
    (ensures (fun _ db' => exists row, users db !! u = Some row /\ guard row = true /\
       db' = set_users (alter f u) db)) db.
Proof.
  tx_step. destruct (update_user u guard f db) as [[r|] db1] eqn:Eu; cbn [fst snd].
  - apply update_user_some in Eu as (row & [Hr _]%live_user_lookup & Hg & -> & ->).
    tx_step. by exists row.
  - unfold no_row, userExistsForBilling. tx_step. by case_match; tx_step.
Qed.

Lemma reserve_spec cmd db :
  wp (reserveUsageBillingBatchImageBalance cmd)
    (ensures (fun _ db' => HoldAmount cmd <= 0 /\ db' = db \/
       0 < HoldAmount cmd /\ exists row, users db !! hold_UserID cmd = Some row /\
         HoldAmount cmd <= balance row /\
         db' = set_users (alter (reserved (HoldAmount cmd)) (hold_UserID cmd)) db)) db.
Proof.
  unfold reserveUsageBillingBatchImageBalance.
  destruct (Z.leb_spec (HoldAmount cmd) 0); [tx_step; by left|].
  eapply ensures_mono; [apply guarded_update_spec|]. intros _ db' (row & Hr & Hg & ->).
  bool_prop. right. split; [done|]. by exists row.
Qed.

Lemma capture_spec cmd db :
  wp (captureUsageBillingBatchImageBalance cmd)
    (ensures (fun _ db' => HoldAmount cmd <= 0 /\ ActualAmount cmd <= 0 /\ db' = db \/
       (0 < HoldAmount cmd \/ 0 < ActualAmount cmd) /\
       ActualAmount cmd <= HoldAmount cmd + captureTolerance /\
       exists row, users db !! hold_UserID cmd = Some row /\
         HoldAmount cmd <= frozen_balance row /\
         db' = set_users (alter (captured (HoldAmount cmd) (ActualAmount cmd)) (hold_UserID cmd)) db)) db.
Proof.
  unfold captureUsageBillingBatchImageBalance.
  destruct ((HoldAmount cmd <=? 0) && (ActualAmount cmd <=? 0)) eqn:E0.
  { bool_prop. tx_step. by left. }
  apply andb_false_iff in E0. rewrite !Z.leb_gt in E0.
  destruct (Z.ltb_spec captureTolerance (ActualAmount cmd - HoldAmount cmd)); [tx_step|].
  eapply ensures_mono; [apply guarded_update_spec|]. intros _ db' (row & Hr & Hg & ->).
  bool_prop. right. split; [done|]. split; [lia|]. by exists row.
Qed.

Lemma claim_exists_spec id k db :
  wp (batchImageHoldClaimExists id k)
    (ensures (fun (b : bool) db' => db' = db /\ (b = true <-> (id, k) ∈ posted_keys db))) db.
Proof.
  unfold batchImageHoldClaimExists. tx_step.
  destruct (usage_billing_dedup db !! (id, k)) eqn:E1.
  { tx_step. split; [done|]. rewrite elem_of_posted, E1. unfold is_Some. naive_solver. }
  tx_step.
  destruct (usage_billing_dedup_archive db !! (id, k)) eqn:E2; tx_step;
    (split; [done|]); rewrite elem_of_posted, E1, E2; unfold is_Some; naive_solver.
Qed.

Lemma release_spec cmd db :
  wp (releaseUsageBillingBatchImageBalance cmd)
    (ensures (fun _ db' =>
       (HoldAmount cmd <= 0 \/
        (BatchImageHoldRequestID (BatchID cmd), hold_APIKeyID cmd) ∉ posted_keys db) /\ db' = db \/
       0 < HoldAmount cmd /\
       (BatchImageHoldRequestID (BatchID cmd), hold_APIKeyID cmd) ∈ posted_keys db /\
       exists row, users db !! hold_UserID cmd = Some row /\
         HoldAmount cmd <= frozen_balance row /\
         db' = set_users (alter (released (HoldAmount cmd)) (hold_UserID cmd)) db)) db.
Proof.
  unfold releaseUsageBillingBatchImageBalance.
  destruct (Z.leb_spec (HoldAmount cmd) 0); [tx_step; left; auto|].
  eapply ensures_bind; [apply claim_exists_spec|]. intros [|] db1 [-> Hheld]; cbn [negb].
  - eapply ensures_mono; [apply guarded_update_spec|]. intros _ db' (row & Hr & Hg & ->).
    bool_prop. right. split; [done|]. split; [by apply Hheld|]. by exists row.
  - tx_step. left. split; [|done]. right. intros Hin. by apply Hheld in Hin.
Qed.

Lemma NormalizeHold_fields c :
  hold_APIKeyID (NormalizeHold c) = hold_APIKeyID c /\ hold_UserID (NormalizeHold c) = hold_UserID c /\
  HoldAmount (NormalizeHold c) = HoldAmount c /\ ActualAmount (NormalizeHold c) = ActualAmount c /\
  BatchID (NormalizeHold c) = TrimSpace (BatchID c).
Proof. unfold NormalizeHold. by case_match. Qed.

(** A hold operation simulates its entries, given what its body does. *)
Lemma hold_simulated (o : op) (cmd : BatchImageBalanceHoldCommand)
    (body : BatchImageBalanceHoldCommand -> Tx BatchImageBalanceHoldResult)
    db fs :
  op_key o = Some (TrimSpace (hold_RequestID cmd), hold_APIKeyID cmd) ->
  (forall fp, wp (body (NormalizeHold cmd))
    (ensures (fun _ db' => exists e,
       e_key e = (TrimSpace (hold_RequestID cmd), hold_APIKeyID cmd) /\
       ((TrimSpace (hold_RequestID cmd), hold_APIKeyID cmd) ∉ posted_keys db ->
        permitted o (abs db) e) /\ abs db' = post e (abs db)))
    (claimed (TrimSpace (hold_RequestID cmd), hold_APIKeyID cmd) fp db)) ->
  let '(r, db', _) := applyBatchImageBalanceHold body (Some cmd) db fs in
  simulated o (match r with Ok a => Ok (hold_Applied a) | Err e => Err e end) db db'.
Proof.
  intros Hkey Hbody. unfold applyBatchImageBalanceHold. rewrite NormalizeHold_request.
  destruct (String.eqb_spec (TrimSpace (hold_RequestID cmd)) "") as [|Hne]; [by left|].
  destruct (NormalizeHold_fields cmd) as (Hk & _). rewrite Hk.
  specialize (Hbody (hold_RequestFingerprint (NormalizeHold cmd))).
  pose proof (claimed_transaction (TrimSpace (hold_RequestID cmd)) (hold_APIKeyID cmd)
    (hold_RequestFingerprint (NormalizeHold cmd)) (body (NormalizeHold cmd)) emptyHoldResult
    mark_applied _ db fs Hbody) as Htx.
  destruct (transaction _ db fs) as [[[a|e] db'] fs'].
  - destruct Htx as [(r & -> & Hfresh & e & Hek & Hp & Habs) | (-> & -> & Hin)].
    + cbn. exists e. unfold ledger_step. rewrite Hek. split_and!; auto.
    + cbn. split; [done|]. rewrite Hkey. by intros ? [= <-].
  - destruct Htx as [-> | (r & Hfresh & e' & Hek & Hp & Habs)]; [by left|].
    right. exists e'. unfold ledger_step. rewrite Hek. split_and!; auto.
Qed.

Lemma reserve_simulated cmd db fs :
  let '(r, db') := run_op (OpReserve cmd) db fs in simulated (OpReserve cmd) r db db'.
Proof.
  set (k := (TrimSpace (hold_RequestID cmd), hold_APIKeyID cmd)).
  pose proof (hold_simulated (OpReserve cmd) cmd reserveUsageBillingBatchImageBalance
    db fs eq_refl) as Hsim.
  cbn [run_op]. unfold ReserveBatchImageBalance.
  destruct (applyBatchImageBalanceHold _ _ db fs) as [[r db'] fs']. apply Hsim. clear Hsim.
  intros fp. eapply ensures_mono; [apply reserve_spec|].
  destruct (NormalizeHold_fields cmd) as (_ & -> & -> & _).
  intros _ db1 [[Hle ->] | (Hpos & row & Hr & Hle & ->)].
  - exists (mkEntry k (hold_UserID cmd) 0 0 [] []).
    split_and!; [done| |apply abs_claim]. intros _. by split; [|left].
  - eexists. split_and!; [| |apply (abs_user_step k fp _ _ _ row [] []); done]; [done|].
    intros _. destruct (lookup_abs db _ _ Hr) as [Hb Hf].
    split; [done|]. right. split_and!; [done|by eexists|]. eexists _, _. cbn. split_and!; done.
Qed.

Lemma capture_simulated cmd db fs :
  let '(r, db') := run_op (OpCapture cmd) db fs in simulated (OpCapture cmd) r db db'.
Proof.
  set (k := (TrimSpace (hold_RequestID cmd), hold_APIKeyID cmd)).
  pose proof (hold_simulated (OpCapture cmd) cmd captureUsageBillingBatchImageBalance
    db fs eq_refl) as Hsim.
  cbn [run_op]. unfold CaptureBatchImageBalance.
  destruct (applyBatchImageBalanceHold _ _ db fs) as [[r db'] fs']. apply Hsim. clear Hsim.
  intros fp. eapply ensures_mono; [apply capture_spec|].
  destruct (NormalizeHold_fields cmd) as (_ & -> & -> & -> & _).
  intros _ db1 [(Hle & Hle' & ->) | (Hpos & Htol & row & Hr & Hle & ->)].
  - exists (mkEntry k (hold_UserID cmd) 0 0 [] []).
    split_and!; [done| |apply abs_claim]. intros _. by split; [|left].
  - eexists. split_and!; [| |apply (abs_user_step k fp _ _ _ row [] []); done]; [done|].
    intros _. destruct (lookup_abs db _ _ Hr) as [Hb Hf].
    split; [done|]. right. split_and!; [done|done|by eexists|]. eexists _, _. cbn.
    split_and!; [done|done| |done]. do 2 f_equal. repeat case_Z; lia.
Qed.

Lemma release_simulated `{!GoUnicodeLaws} cmd db fs :
  let '(r, db') := run_op (OpRelease cmd) db fs in simulated (OpRelease cmd) r db db'.
Proof.
  set (k := (TrimSpace (hold_RequestID cmd), hold_APIKeyID cmd)).
  pose proof (hold_simulated (OpRelease cmd) cmd releaseUsageBillingBatchImageBalance
    db fs eq_refl) as Hsim.
  cbn [run_op]. unfold ReleaseBatchImageBalance.
  destruct (applyBatchImageBalanceHold _ _ db fs) as [[r db'] fs']. apply Hsim. clear Hsim.
  intros fp. eapply ensures_mono; [apply release_spec|].
  destruct (NormalizeHold_fields cmd) as (Hk & -> & -> & _ & Hb).
  rewrite Hk, Hb, posted_claimed. unfold BatchImageHoldRequestID. rewrite TrimSpace_idem.
  intros _ db1 [[Hno ->] | (Hpos & Hheld & row & Hr & Hle & ->)].
  - exists (mkEntry k (hold_UserID cmd) 0 0 [] []).
    split_and!; [done| |apply abs_claim]. intros _. split; [done|]. left. split; [|done].
    destruct Hno as [?|Hno]; [by left|right]. cbn. set_solver.
  - eexists. split_and!; [| |apply (abs_user_step k fp _ _ _ row [] []); done]; [done|].
    intros _. destruct (lookup_abs db _ _ Hr) as [Hbal Hf].
    split; [done|]. right. split_and!; [done| |by eexists|eexists _, _; cbn; split_and!; done].
    apply elem_of_union in Hheld as [Heq%elem_of_singleton|Hin]; [by right|by left].
Qed.

(** The entry of a charge. *)
Lemma charge_posts E cmd db k fp r adds db' :
  charged E cmd (claimed k fp db) r adds db' ->
  exists e, e_key e = k /\ charge_entry cmd (abs db) e /\ abs db' = post e (abs db).
Proof.
  intros [Hno Hsplit Hsubs Hded Husers Hlive _ Hdd Harch _].
  set (D := DeductedBalanceAmount r) in *. set (u := cmd_UserID cmd) in *.
  set (renewed := if 0 <? SubscriptionCost cmd
                  then map fst (dirty_of E u (claimed k fp db)) else []).
  assert (Hposted : posted_keys db' = {[k]} ∪ posted_keys db).
  { rewrite <- (posted_claimed k fp db). unfold posted_keys. by rewrite Hdd, Harch. }
  assert (Husage : total_usage_usd <$> user_subscriptions db' =
    usage_after (mkEntry k u 0 0 renewed adds) (total_usage_usd <$> user_subscriptions db)).
  { rewrite Hsubs. unfold if_pos, usage_after, renewed. cbn [e_renewed e_wallets].
    destruct (0 <? SubscriptionCost cmd); [apply usage_fmap|apply (usage_fmap [])]. }
  assert (Hfrozen : frozen_balance <$> users db' =
    alter (fun f => f + 0) u (frozen_balance <$> users db)).
  { rewrite Husers. unfold if_pos. destruct (0 <? D).
    - apply fmap_alter_commute. intros x. cbn. lia.
    - rewrite alter_same by lia. done. }
  assert (Hcost : 0 <= BalanceCost cmd -> 0 <= SubscriptionCost cmd ->
    BalanceCost cmd + SubscriptionCost cmd - subscriptionAllocationEpsilon <=
      paid adds + D <= BalanceCost cmd + SubscriptionCost cmd).
  { intros Hb Hs. destruct (decide (0 < SubscriptionCost cmd)) as [Hpos|Hz].
    - destruct (Hsplit Hpos) as (Hf & Hsum & _). rewrite Hded. lia.
    - destruct Hno as [Hf ->]; [lia|]. rewrite Hded, Hf. unfold subscriptionAllocationEpsilon.
      cbn. lia. }
  assert (Hwallets : SubscriptionCost cmd <= 0 -> adds = [] /\ renewed = []).
  { intros Hle. split; [by apply Hno|]. unfold renewed. by rewrite (proj2 (Z.ltb_ge _ _)). }
  destruct (decide (0 < D)) as [HD|HD].
  - destruct (Hlive HD) as (row & [Hrow _]%live_user_lookup & _). cbn in Hrow.
    exists (mkEntry k u (round8 (balance row - D) - balance row) 0 renewed adds).
    split_and!; [done| |].
    + split_and!; [done|done|]. exists D. split_and!; [done|done|]. right.
      exists (balance row). split; [|done]. by apply (lookup_abs db u row).
    + unfold abs, post. cbn [l_posted l_balance l_frozen l_usage e_key e_user e_balance e_frozen].
      rewrite Hposted, Husage, Hfrozen. f_equal. rewrite Husers. unfold if_pos.
      rewrite (proj2 (Z.ltb_lt _ _)) by done. by rewrite (fmap_alter_shift balance _ _ u row).
  - exists (mkEntry k u 0 0 renewed adds). split_and!; [done| |].
    + split_and!; [done|done|]. exists D. split_and!; [done|done|]. left. split; [lia|done].
    + unfold abs, post. cbn [l_posted l_balance l_frozen l_usage e_key e_user e_balance e_frozen].
      rewrite Hposted, Husage, Hfrozen. f_equal. rewrite Husers. unfold if_pos.
      rewrite (proj2 (Z.ltb_ge _ _)) by lia. rewrite (alter_same _ _ u) by lia. done.
Qed.

Lemma charge_simulated E cmd db fs :
  let '(r, db') := run_op (OpApply E cmd) db fs in simulated (OpApply E cmd) r db db'.
Proof.
  cbn [run_op Apply]. destruct (Normalize_key cmd) as (Hid & Hk & _).
  rewrite Hid. destruct (String.eqb_spec (TrimSpace (RequestID cmd)) "") as [|Hne]; [by left|].
  set (c := Normalize cmd) in *. unfold claimUsageBillingKey. rewrite Hid, Hk.
  pose proof (claimed_transaction (TrimSpace (RequestID cmd)) (APIKeyID cmd) (RequestFingerprint c)
    (applyUsageBillingEffects E c) emptyResult (fun r => r) _ db fs (effects_spec E c _)) as Htx.
  assert (Hstep : forall r db' adds,
    (TrimSpace (RequestID cmd), APIKeyID cmd) ∉ posted_keys db ->
    charged E c (claimed (TrimSpace (RequestID cmd), APIKeyID cmd) (RequestFingerprint c) db) r adds db' ->
    exists e, ledger_step (OpApply E cmd) e (abs db) (abs db')).
  { intros r db' adds Hfresh (e & Hek & Hent & Habs)%charge_posts. exists e.
    unfold ledger_step. rewrite Hek. by split_and!. }
  destruct (transaction _ db fs) as [[[a|e] db'] fs'].
  - destruct Htx as [(r & -> & Hfresh & adds & Hch) | (-> & -> & Hin)].
    + cbn. rewrite (ch_applied _ _ _ _ _ _ Hch). by eapply Hstep.
    + cbn. split; [done|]. by intros ? [= <-].
  - destruct Htx as [-> | (r & Hfresh & adds & Hch)]; [by left|right]. by eapply Hstep.
Qed.

(** A charge that reports [Applied] has had its effect. *)
Lemma Apply_charged E cmd db fs r db' fs' :
  Apply E (Some cmd) db fs = (Ok r, db', fs') -> Applied r = true ->
  exists fp adds, charged E (Normalize cmd)
    (claimed (TrimSpace (RequestID cmd), APIKeyID cmd) fp db) r adds db'.
Proof.
  cbn [Apply]. destruct (Normalize_key cmd) as (Hid & Hk & _).
  rewrite Hid. destruct (String.eqb_spec (TrimSpace (RequestID cmd)) "") as [|Hne]; [done|].
  set (c := Normalize cmd) in *. unfold claimUsageBillingKey. rewrite Hid, Hk.
  pose proof (claimed_transaction (TrimSpace (RequestID cmd)) (APIKeyID cmd) (RequestFingerprint c)
    (applyUsageBillingEffects E c) emptyResult (fun r => r) _ db fs (effects_spec E c _)) as Htx.
  destruct (transaction _ db fs) as [[[a|e] db1] fs1]; [|done]. intros [= -> -> ->] Happ.
  destruct Htx as [(r' & -> & _ & adds & Hch) | (-> & _)]; [|done].
  by exists (RequestFingerprint c), adds.
Qed.

Lemma archive_row_abs db k : abs (archive_row db k) = abs db.
Proof.
  unfold archive_row. destruct (usage_billing_dedup db !! k) as [fp|] eqn:Ed; [|done].
  unfold abs. cbn. f_equal. unfold posted_keys. cbn. rewrite dom_delete_L.
  assert (Hk : k ∈ dom (usage_billing_dedup db)) by (apply elem_of_dom; by eexists).
  destruct (usage_billing_dedup_archive db !! k) eqn:Ea.
  - assert (k ∈ dom (usage_billing_dedup_archive db)) by (apply elem_of_dom; by eexists).
    apply set_eq. intros x. destruct (decide (x = k)); set_solver.
  - rewrite dom_insert_L. apply set_eq. intros x. destruct (decide (x = k)); set_solver.
Qed.

Lemma archive_rows_abs victims db : abs (foldl archive_row db victims) = abs db.
Proof.
  revert db. induction victims as [|k victims IH]; intros db; simpl; [done|].
  rewrite IH. apply archive_row_abs.
Qed.

Lemma cleanup_abs rounds db : wp (CleanupUsageBillingDedup rounds) (fun _ db' => abs db' = abs db) db.
Proof.
  revert db. induction rounds as [|victims rounds IH]; intros db; [by apply wp_ret|].
  apply wp_bind, wp_autocommit; cbn [fst snd]; [done|intros _; apply archive_rows_abs|].
  eapply wp_mono; [apply IH|]. intros r db' ->. apply archive_rows_abs.
Qed.

Lemma cleanup_simulated rounds db fs :
  let '(r, db') := run_op (OpCleanup rounds) db fs in simulated (OpCleanup rounds) r db db'.
Proof.
  cbn [run_op]. pose proof (cleanup_abs rounds db fs) as Habs.
  destruct (CleanupUsageBillingDedup rounds db fs) as [[[u|e] db'] fs']; [by split|by left].
Qed.

(** Every operation, with any failures, is a step of the ledger or no step. *)
Lemma op_simulated `{!GoUnicodeLaws} o db fs :
  let '(r, db') := run_op o db fs in simulated o r db db'.
Proof.
  destruct o.
  - apply charge_simulated.
  - apply reserve_simulated.
  - apply capture_simulated.
  - apply release_simulated.
  - apply cleanup_simulated.
Qed.

(** ** Histories *)

(** Operations with the faults they meet, one after the other: the results and
the tables at the end. *)
Fixpoint exec (h : list (op * faults)) (db : DB) : list (res bool) * DB :=
  match h with
  | [] => ([], db)
  | (o, fs) :: h =>
      let '(r, db1) := run_op o db fs in
      let '(rs, db2) := exec h db1 in (r :: rs, db2)
  end.

(** A run of the ledger: each operation posts one entry or none. *)
Inductive ledger_run : list op -> list (op * entry) -> ledger -> ledger -> Prop :=
  | run_nil l : ledger_run [] [] l l
  | run_stutter o os J l l' : ledger_run os J l l' -> ledger_run (o :: os) J l l'
  | run_post o os e J l l1 l' :
      ledger_step o e l l1 -> ledger_run os J l1 l' -> ledger_run (o :: os) ((o, e) :: J) l l'.

Definition posted_by (J : list (op * entry)) : list key := map (fun x => e_key x.2) J.

Lemma ledger_run_posted os J l l' :
  ledger_run os J l l' -> l_posted l' = list_to_set (posted_by J) ∪ l_posted l.
Proof.
  induction 1 as [l|o os J l l' _ IH|o os e J l l1 l' (_ & _ & _ & _ & ->) _ IH].
  - unfold posted_by. simpl. set_solver.
  - exact IH.
  - rewrite IH. unfold posted_by. simpl. set_solver.
Qed.

Lemma ledger_run_keys os J l l' :
  ledger_run os J l l' -> NoDup (posted_by J) /\ forall k, k ∈ posted_by J -> k ∉ l_posted l.
Proof.
  induction 1 as [l|o os J l l' _ IH|o os e J l l1 l' (_ & _ & Hnew & _ & ->) _ [IHn IHk]].
  - split; [constructor|]. by intros k ?%elem_of_nil.
  - exact IH.
  - cbn [posted_by map snd]. fold (posted_by J). split.
    + constructor; [|done]. intros Hin. apply (IHk _ Hin). cbn. set_solver.
    + intros k [->|Hin]%elem_of_cons; [done|]. specialize (IHk _ Hin). cbn in IHk. set_solver.
Qed.

Lemma exec_run `{!GoUnicodeLaws} h db :
  exists J, ledger_run (map fst h) J (abs db) (abs (exec h db).2) /\
    forall i o fs b k, h !! i = Some (o, fs) -> (exec h db).1 !! i = Some (Ok b) ->
      op_key o = Some k ->
      k ∈ l_posted (abs (exec h db).2) /\ (b = true -> exists e, (o, e) ∈ J /\ e_key e = k).
Proof.
  revert db. induction h as [|[o fs] h IH]; intros db; cbn [exec map fst].
  { exists []. split; [constructor|]. by intros [|i] ? ? ? ? Hi. }
  pose proof (op_simulated o db fs) as Hsim. destruct (run_op o db fs) as [r db1].
  destruct (IH db1) as (J & Hrun & Hok). destruct (exec h db1) as [rs db2]. cbn [fst snd] in *.
  assert (Hmono : forall k, k ∈ l_posted (abs db1) -> k ∈ l_posted (abs db2)).
  { intros k Hk. rewrite (ledger_run_posted _ _ _ _ Hrun). set_solver. }
  assert (Hstut : abs db1 = abs db -> r <> Ok true ->
    (forall k, r = Ok false -> op_key o = Some k -> k ∈ l_posted (abs db1)) ->
    exists J, ledger_run (o :: map fst h) J (abs db) (abs db2) /\
      forall i o0 fs0 b k, ((o, fs) :: h) !! i = Some (o0, fs0) -> (r :: rs) !! i = Some (Ok b) ->
        op_key o0 = Some k ->
        k ∈ l_posted (abs db2) /\ (b = true -> exists e, (o0, e) ∈ J /\ e_key e = k)).
  { intros Habs Hne Hposted. exists J. split; [constructor; by rewrite <- Habs|].
    intros [|i] o0 fs0 b k Hi Hr Hk; simplify_eq/=; [|by eapply Hok].
    destruct b; [done|]. split; [|done]. apply Hmono. by apply Hposted. }
  assert (Hpost : forall e, ledger_step o e (abs db) (abs db1) ->
    exists J, ledger_run (o :: map fst h) J (abs db) (abs db2) /\
      forall i o0 fs0 b k, ((o, fs) :: h) !! i = Some (o0, fs0) -> (r :: rs) !! i = Some (Ok b) ->
        op_key o0 = Some k ->
        k ∈ l_posted (abs db2) /\ (b = true -> exists e, (o0, e) ∈ J /\ e_key e = k)).
  { intros e Hstep. exists ((o, e) :: J). split; [by econstructor|].
    assert (Hek : op_key o = Some (e_key e)) by apply Hstep.
    intros [|i] o0 fs0 b k Hi Hr Hk; simplify_eq/=.
    - split; [apply Hmono|intros _; exists e; split; [by left|done]].
      destruct Hstep as (_ & _ & _ & _ & Heq). change (e_key e ∈ l_posted (abs db1)).
      rewrite Heq. cbn. set_solver.
    - destruct (Hok _ _ _ _ _ Hi Hr Hk) as [Hin Hex]. split; [done|].
      intros Hb. destruct (Hex Hb) as (e' & He' & Hk'). exists e'. split; [by right|done]. }
  destruct r as [[|]|err]; cbn in Hsim.
  - destruct Hsim as [e Hstep]. by apply (Hpost e).
  - destruct Hsim as [Habs Hin]. apply Hstut; [done|done|]. intros k _ Hk. rewrite Habs. auto.
  - destruct Hsim as [Habs|[e Hstep]]; [|by apply (Hpost e)]. by apply Hstut.
Qed.

(** C2. Refinement.  A history of billing operations of any users - charges, holds,
captures, releases, clean-up of the dedup table - in which any statement may
fail and the answer to any commit may be lost, is a run of the ledger: there is
a journal of entries, each posted by an operation of the history that permits
it, under pairwise different keys that were all new at the beginning, and the
tables end where the journal says.  An operation that reports [Applied] has its
entry in the journal; one that answers without an error has its key posted. *)
Theorem billing_refines_ledger `{!GoUnicodeLaws} h db :
  exists J, ledger_run (map fst h) J (abs db) (abs (exec h db).2) /\
    NoDup (posted_by J) /\ (forall k, k ∈ posted_by J -> k ∉ posted_keys db) /\
    forall i o fs b k, h !! i = Some (o, fs) -> (exec h db).1 !! i = Some (Ok b) ->
      op_key o = Some k ->
      k ∈ posted_keys (exec h db).2 /\ (b = true -> exists e, (o, e) ∈ J /\ e_key e = k).
Proof.
  destruct (exec_run h db) as (J & Hrun & Hok). exists J.
  destruct (ledger_run_keys _ _ _ _ Hrun) as [Hnd Hnew]. by split_and!.
Qed.

(** ** Consequences for every history *)

Lemma ledger_run_ops os J l l' : ledger_run os J l l' -> forall o e, (o, e) ∈ J -> o ∈ os /\ op_key o = Some (e_key e).
Proof.
  induction 1 as [l|o os J l l' _ IH|o os e J l l1 l' (Hk & _) _ IH]; intros o' e' Hin.
  - by apply elem_of_nil in Hin.
  - destruct (IH _ _ Hin). split; [by right|done].
  - apply elem_of_cons in Hin as [[= -> ->]|Hin]; [split; [by left|done]|].
    destruct (IH _ _ Hin). split; [by right|done].
Qed.

(** C3. Exactly once.  However often the worker retries a charge, at whatever
instants and with whatever failures, it is posted at most once; once a call has
answered without an error it has been posted, by one of these calls or before
them. *)
Theorem retries_charge_once `{!GoUnicodeLaws} cmd calls db :
  let o E := OpApply E cmd in
  let h := map (fun '(E, fs) => (o E, fs)) calls in
  exists J, ledger_run (map fst h) J (abs db) (abs (exec h db).2) /\
    (J = [] \/ exists E e, J = [(o E, e)]) /\
    ((exists i b, (exec h db).1 !! i = Some (Ok b) /\ (i < length calls)%nat) ->
     (TrimSpace (RequestID cmd), APIKeyID cmd) ∈ posted_keys db /\ J = [] \/
     exists E e, J = [(o E, e)]).
Proof.
  intros o h. destruct (exec_run h db) as (J & Hrun & Hok). exists J. split; [done|].
  destruct (ledger_run_keys _ _ _ _ Hrun) as [Hnd Hnew].
  pose proof (ledger_run_ops _ _ _ _ Hrun) as Hops.
  assert (Hall : forall o' e, (o', e) ∈ J ->
    exists E, o' = o E /\ e_key e = (TrimSpace (RequestID cmd), APIKeyID cmd)).
  { intros o' e Hin. destruct (Hops _ _ Hin) as [Ho Hk].
    apply list_elem_of_fmap in Ho as ([o1 fs] & -> & Hx).
    apply list_elem_of_fmap in Hx as ([E fs'] & [= -> ->] & _). exists E. split; [done|].
    cbn in Hk. by simplify_eq. }
  assert (Hshape : J = [] \/ exists E e, J = [(o E, e)]).
  { destruct J as [|[o1 e1] J]; [by left|right].
    destruct (Hall o1 e1) as (E & -> & He1); [by left|].
    destruct J as [|[o2 e2] J]; [by exists E, e1|].
    destruct (Hall o2 e2) as (E2 & -> & He2); [by right; left|].
    exfalso. cbn in Hnd. inversion_clear Hnd as [|? ? Hni _]. apply Hni. rewrite He1, He2. by left. }
  split; [done|]. intros (i & b & Hr & Hlt).
  destruct Hshape as [->|HJ]; [left|by right]. split; [|done].
  destruct (lookup_lt_is_Some_2 calls i Hlt) as [[E fs] HE].
  destruct (Hok i (o E) fs b (TrimSpace (RequestID cmd), APIKeyID cmd)) as [Hin _]; [|done|done|].
  { unfold h. by rewrite list_lookup_fmap, HE. }
  pose proof (ledger_run_posted _ _ _ _ Hrun) as Hposted. rewrite Hposted in Hin.
  cbn in Hin. set_solver.
Qed.

(** *** Well-formed columns *)

(** Balances are multiples of 10^-8, and no frozen balance is negative. *)
Definition ledger_wf (l : ledger) : Prop :=
  (forall u b, l_balance l !! u = Some b -> on_grid b) /\
  (forall u f, l_frozen l !! u = Some f -> on_grid f /\ 0 <= f).

Lemma shift_wf (P : Amount -> Prop) (t : gmap Z Amount) u d :
  (forall v b, t !! v = Some b -> P b) -> (forall b, t !! u = Some b -> P (b + d)) ->
  forall v b, alter (fun b => b + d) u t !! v = Some b -> P b.
Proof.
  intros Hall Hu v b. destruct (decide (u = v)) as [<-|Hne].
  - rewrite lookup_alter_eq. destruct (t !! u) as [x|] eqn:E; simpl; [|done].
    intros [= <-]. by apply Hu.
  - rewrite lookup_alter_ne by done. apply Hall.
Qed.

Lemma same_entry_wf (P : Amount -> Prop) (t : gmap Z Amount) u :
  (forall v b, t !! v = Some b -> P b) -> forall b, t !! u = Some b -> P (b + 0).
Proof. intros Hall b Hb. rewrite Z.add_0_r. by eapply Hall. Qed.

Lemma post_wf o e l : ledger_wf l -> permitted o l e -> ledger_wf (post e l).
Proof.
  intros [Hb Hf] Hp.
  assert (Hmoves : forall x y, moves l e x y ->
    (forall f, l_frozen l !! e_user e = Some f -> 0 <= f + y) -> ledger_wf (post e l)).
  { intros x y (b & f & Eb & Ef & Hxb & Hyf) Hpos.
    split; unfold post; cbn [l_balance l_frozen].
    - apply shift_wf; [done|]. intros b' Eb'. replace b' with b by congruence.
      rewrite Hxb. replace (b + (round8 (b + x) - b)) with (round8 (b + x)) by lia. auto with go.
    - apply (shift_wf (fun f => on_grid f /\ 0 <= f)); [done|]. intros f' Ef'.
      replace f' with f by congruence. rewrite Hyf.
      replace (f + (round8 (f + y) - f)) with (round8 (f + y)) by lia.
      split; [auto with go|]. apply round8_nonneg. by apply Hpos. }
  assert (Hnothing : nothing e -> ledger_wf (post e l)).
  { intros [H1 H2]. split; unfold post; cbn [l_balance l_frozen]; rewrite ?H1, ?H2.
    - apply shift_wf; [done|]. by apply same_entry_wf.
    - apply (shift_wf (fun f => on_grid f /\ 0 <= f)); [done|].
      by apply (same_entry_wf (fun f => on_grid f /\ 0 <= f)). }
  destruct o as [E cmd|cmd|cmd|cmd|vs]; cbn in Hp.
  - destruct Hp as (_ & Hfr & d & _ & _ & Hcase). split; unfold post; cbn [l_balance l_frozen].
    + apply shift_wf; [done|]. destruct Hcase as [[_ H1]|(b & Eb & H1)]; rewrite H1.
      * by apply same_entry_wf.
      * intros b' Eb'. replace b' with b by congruence.
        replace (b + (round8 (b - d) - b)) with (round8 (b - d)) by lia. auto with go.
    + rewrite Hfr. apply (shift_wf (fun f => on_grid f /\ 0 <= f)); [done|].
      by apply (same_entry_wf (fun f => on_grid f /\ 0 <= f)).
  - destruct Hp as [_ [[_ Hn]|(Hpos & _ & Hm)]]; [auto|]. apply (Hmoves _ _ Hm).
    intros f Ef. destruct (Hf _ _ Ef). lia.
  - destruct Hp as [_ [(_ & _ & Hn)|(_ & _ & (f0 & Ef0 & Hle) & Hm)]]; [auto|].
    apply (Hmoves _ _ Hm). intros f Ef. replace f with f0 by congruence. lia.
  - destruct Hp as [_ [[_ Hn]|(Hpos & _ & (f0 & Ef0 & Hle) & Hm)]]; [auto|].
    apply (Hmoves _ _ Hm). intros f Ef. replace f with f0 by congruence. lia.
  - done.
Qed.

Lemma ledger_run_wf os J l l' : ledger_run os J l l' -> ledger_wf l -> ledger_wf l'.
Proof.
  induction 1 as [l|o os J l l' _ IH|o os e J l l1 l' (_ & _ & _ & Hp & ->) _ IH]; auto.
  intros Hwf. apply IH. by eapply post_wf.
Qed.

(** C40. The columns keep their type: in every history all balances stay multiples
of 10^-8 USD, and no frozen balance ever becomes negative. *)
Theorem columns_wf `{!GoUnicodeLaws} h db :
  (forall u r, users db !! u = Some r ->
     on_grid (balance r) /\ on_grid (frozen_balance r) /\ 0 <= frozen_balance r) ->
  forall u r, users (exec h db).2 !! u = Some r ->
    on_grid (balance r) /\ on_grid (frozen_balance r) /\ 0 <= frozen_balance r.
Proof.
  intros Hwf u r Hr. destruct (exec_run h db) as (J & Hrun & _).
  destruct (ledger_run_wf _ _ _ _ Hrun) as [Hb Hf].
  { split; intros v x; cbn; rewrite lookup_fmap; intros (r0 & Hr0 & ->)%fmap_Some;
      destruct (Hwf _ _ Hr0) as (? & ? & ?); auto. }
  destruct (lookup_abs _ _ _ Hr) as [Eb Ef]. specialize (Hb _ _ Eb). specialize (Hf _ _ Ef). tauto.
Qed.

(** *** Where the money goes *)

(** What an entry takes from a user's balance and frozen balance together. *)
Definition spent (o : op) (e : entry) : Amount :=
  match o with
  | OpApply _ _ => - e_balance e
  | OpCapture cmd =>
      if (HoldAmount cmd <=? 0) && (ActualAmount cmd <=? 0) then 0 else ActualAmount cmd
  | _ => 0
  end.

(** The amounts of a hold command are multiples of 10^-8. *)
Definition op_grid (o : op) : Prop :=
  match o with
  | OpReserve cmd | OpCapture cmd | OpRelease cmd =>
      on_grid (HoldAmount cmd) /\ on_grid (ActualAmount cmd)
  | _ => True
  end.

Lemma moves_grid l e x y :
  ledger_wf l -> moves l e x y -> on_grid x -> on_grid y -> e_balance e = x /\ e_frozen e = y.
Proof.
  intros [Hb Hf] (b & f & Eb & Ef & -> & ->) Hx Hy.
  destruct (Hf _ _ Ef) as [Hgf _]. specialize (Hb _ _ Eb).
  rewrite !round8_id by auto with go. lia.
Qed.

Lemma entry_spent o l e :
  ledger_wf l -> op_grid o -> permitted o l e -> e_balance e + e_frozen e = - spent o e.
Proof.
  intros Hwf Hg Hp. destruct o as [E cmd|cmd|cmd|cmd|vs]; cbn in Hp, Hg |- *.
  - destruct Hp as (_ & -> & _). lia.
  - destruct Hg as [Hgh _]. destruct Hp as [_ [[_ [-> ->]]|(_ & _ & Hm)]]; [lia|].
    destruct (moves_grid _ _ _ _ Hwf Hm) as [-> ->]; [by apply Z.divide_opp_r|done|]. lia.
  - destruct Hg as [Hgh Hga]. destruct Hp as [_ [(H1 & H2 & [-> ->])|(Hpos & _ & _ & Hm)]].
    + by rewrite (proj2 (Z.leb_le _ _) H1), (proj2 (Z.leb_le _ _) H2).
    + destruct (moves_grid _ _ _ _ Hwf Hm) as [-> ->];
        [by apply grid_sub|by apply Z.divide_opp_r|].
      repeat case_Z; cbn; lia.
  - destruct Hg as [Hgh _]. destruct Hp as [_ [[_ [-> ->]]|(_ & _ & _ & Hm)]]; [lia|].
    destruct (moves_grid _ _ _ _ Hwf Hm) as [-> ->]; [done|by apply Z.divide_opp_r|]. lia.
  - done.
Qed.

(** What the entries of a journal take from user [u]. *)
Definition spent_by (u : Z) (J : list (op * entry)) : Amount :=
  total (fun x => if e_user x.2 =? u then spent x.1 x.2 else 0) J.

Lemma post_user e l u b f :
  l_balance l !! u = Some b -> l_frozen l !! u = Some f ->
  exists b' f', l_balance (post e l) !! u = Some b' /\ l_frozen (post e l) !! u = Some f' /\
    b' + f' = b + f + (if e_user e =? u then e_balance e + e_frozen e else 0).
Proof.
  intros Eb Ef. unfold post. cbn [l_balance l_frozen]. destruct (Z.eqb_spec (e_user e) u) as [<-|Hne].
  - rewrite !lookup_alter_eq, Eb, Ef. eexists _, _. split_and!; [done|done|lia].
  - rewrite !lookup_alter_ne, Eb, Ef by done. eexists _, _. split_and!; [done|done|lia].
Qed.

Lemma ledger_run_money os J l l' u b f :
  ledger_run os J l l' -> ledger_wf l -> Forall op_grid os ->
  l_balance l !! u = Some b -> l_frozen l !! u = Some f ->
  exists b' f', l_balance l' !! u = Some b' /\ l_frozen l' !! u = Some f' /\
    b' + f' + spent_by u J = b + f.
Proof.
  intros Hrun. revert b f. induction Hrun as [l|o os J l l' _ IH|o os e J l l1 l' (_ & _ & _ & Hp & ->) _ IH];
    intros b f Hwf Hg Eb Ef.
  - exists b, f. split_and!; [done|done|]. unfold spent_by. simpl. lia.
  - inversion_clear Hg. by apply IH.
  - inversion_clear Hg as [|? ? Hgo Hgs]. destruct (post_user e l u b f Eb Ef) as (b1 & f1 & Eb1 & Ef1 & Hsum).
    destruct (IH b1 f1 (post_wf o e l Hwf Hp) Hgs Eb1 Ef1) as (b' & f' & Eb' & Ef' & Hsum').
    exists b', f'. split_and!; [done|done|]. unfold spent_by in *. cbn [total fst snd].
    pose proof (entry_spent o l e Hwf Hgo Hp). destruct (e_user e =? u); lia.
Qed.

(** C6. Money is neither made nor lost. In every history whose hold amounts are
multiples of 10^-8, from balances that are and with nothing frozen below zero, the
balance and the frozen balance of a user together fall by exactly what the journal
spends: the deductions of charges and the actual amounts of captures. Holds and releases
only move money between the two. *)
Theorem money_accounted `{!GoUnicodeLaws} h db u row :
  (forall u r, users db !! u = Some r ->
     on_grid (balance r) /\ on_grid (frozen_balance r) /\ 0 <= frozen_balance r) ->
  Forall op_grid (map fst h) -> users db !! u = Some row ->
  exists J row', ledger_run (map fst h) J (abs db) (abs (exec h db).2) /\
    users (exec h db).2 !! u = Some row' /\
    balance row' + frozen_balance row' + spent_by u J = balance row + frozen_balance row.
Proof.
  intros Hwf Hg Hrow. destruct (exec_run h db) as (J & Hrun & _).
  assert (Hlw : ledger_wf (abs db)).
  { split; intros v x; cbn; rewrite lookup_fmap; intros (r0 & Hr0 & ->)%fmap_Some;
      destruct (Hwf _ _ Hr0) as (? & ? & ?); auto. }
  destruct (lookup_abs _ _ _ Hrow) as [Eb Ef].
  destruct (ledger_run_money _ _ _ _ u _ _ Hrun Hlw Hg Eb Ef) as (b' & f' & Eb' & Ef' & Hsum).
  cbn in Eb', Ef'. rewrite lookup_fmap in Eb', Ef'.
  destruct (users (exec h db).2 !! u) as [row'|] eqn:E; [|done]. simplify_eq/=.
  by exists J, row'.
Qed.
End Ledger.

(** ** Examples *)

(** A charge whose commit's answer is lost, its retry, a hold and its capture. *)
Definition ex_history : list (op * faults) :=
  [(OpApply ex_env (ex_charge "r1" (usd 1) 0),
      [None; None; None; None; None; None; Some (AnswerLost "eof")]);
   (OpApply ex_env (ex_charge "r1" (usd 1) 0), []);
   (OpReserve (ex_hold "batch_image_hold:" "b1" (usd 2) 0), []);
   (OpCapture (ex_hold "batch_image_capture:" "b1" (usd 2) (usd 1)), [])].

Example ledger_ex_exec :
  (exec ex_history ex_db).1 = [Err (ErrWrap "driver" (ErrMsg "eof")); Ok false; Ok true; Ok true] /\
  users (exec ex_history ex_db).2 !! 7 = Some (mkUser (usd 3) 0 false).
Proof. by vm_compute. Qed.

Lemma billing_refines_ledger_witness :
  exists J, ledger_run (map fst ex_history) J (abs ex_db) (abs (exec ex_history ex_db).2) /\
    NoDup (posted_by J).
Proof.
  destruct (billing_refines_ledger ex_history ex_db) as (J & Hrun & Hnd & _). by exists J.
Defined.

Lemma retries_charge_once_witness :
  let calls := [(ex_env, [None; None; None; None; None; None; Some (AnswerLost "eof")]); (ex_env, [])] in
  exists J, J <> [] /\ ledger_run (map (fun '(E, _) => OpApply E (ex_charge "r1" (usd 1) 0)) calls) J
    (abs ex_db) (abs (exec (map (fun '(E, fs) => (OpApply E (ex_charge "r1" (usd 1) 0), fs)) calls) ex_db).2).
Proof.
  intros calls. destruct (retries_charge_once (ex_charge "r1" (usd 1) 0) calls ex_db) as
    (J & Hrun & _ & Honce).
  exists J. split; [|exact Hrun].
  destruct Honce as [[Hin _]|(E & e & ->)]; [|exfalso|done].
  - exists 1%nat, false. split; [by vm_compute|unfold calls; simpl; lia].
  - revert Hin. by vm_compute.
Defined.

Lemma ex_db_wf u r : users ex_db !! u = Some r ->
  on_grid (balance r) /\ on_grid (frozen_balance r) /\ 0 <= frozen_balance r.
Proof.
  unfold ex_db. cbn [users]. intros [[<- <-]|[_ [<- <-]%lookup_singleton_Some]]%lookup_insert_Some;
    cbn; (split; [|split; [apply grid_0|lia]]).
  - exists 500000000. reflexivity.
  - apply grid_0.
Defined.

Lemma columns_wf_witness :
  0 <= frozen_balance (mkUser (usd 3) 0 false) /\ on_grid (usd 3).
Proof.
  destruct (columns_wf ex_history ex_db ex_db_wf 7 (mkUser (usd 3) 0 false)) as (Hg & _ & Hf);
    [by vm_compute|]. by split.
Defined.

Lemma money_accounted_witness :
  exists J, balance (mkUser (usd 3) 0 false) + 0 + spent_by 7 J = usd 5 + 0.
Proof.
  destruct (money_accounted ex_history ex_db 7 (mkUser (usd 5) 0 false) ex_db_wf) as
    (J & row & _ & Hrow & Hsum); [|by vm_compute|].
  - cbn. repeat constructor; by apply Z.mod_divide.
  - exists J. assert (row = mkUser (usd 3) 0 false) as ->; [|exact Hsum].
    assert (Hex : users (exec ex_history ex_db).2 !! 7 = Some (mkUser (usd 3) 0 false)) by by vm_compute.
    congruence.
Defined.
