(* ===== verification/BillingWallets.v ===== *)
(** * Charges against wallets

What a charge of [Billing] does to the rows of [user_subscriptions]: a wallet
is never charged beyond its limit, and the usage that a charge is split
against is the one that was stored, even when the window it belongs to is
over. *)
From S2P Require Import Prelude GoText GoTime SubscriptionWindow Wallets BillingStore Billing.
From S2P Require Import BillingLedger.
From Stdlib Require Import Bool.

Local Open Scope string_scope.
Local Open Scope Z_scope.
Local Open Scope list_scope.

Section BillingWallets.
Context `{GoUnicode} `{BillingParams}.

(** The two readings of the clock in a charge fall into the same windows (and
not into the first windows of year 1). *)
Definition same_window (E : TxEnv) : Prop :=
  forall p : Period, 0 < SubscriptionWindowStart (period_name p) (lock_now E) /\
    SubscriptionWindowStart (period_name p) (split_now E) =
    SubscriptionWindowStart (period_name p) (lock_now E).

(** The usage that a charge is split against is the stored one, whatever window
it belongs to. *)
Lemma loaded_usage E u id r :
  same_window E ->
  EffectiveWindowUsageUSD 0 (loaded (lock_now E) (scanned u (id, r))) (split_now E) =
    total_usage_usd r.
Proof.
  intros Hsame. unfold loaded, scanned. cbn [ResetPeriod].
  destruct (normalize_period (reset_period r)) as [[Hnorm Hnone]|[p Hp]].
  - rewrite Hnone. unfold EffectiveWindowUsageUSD, subscriptionWindowEffectiveUsage. cbn.
    unfold SubscriptionWindowExpired. by rewrite Hnorm.
  - rewrite Hp, recurring_name. destruct (Hsame p) as [Hpos Heq].
    unfold EffectiveWindowUsageUSD, subscriptionWindowEffectiveUsage. cbn.
    rewrite !expired_name, Heq. unfold IsZero.
    rewrite (proj2 (Z.eqb_neq _ 0)), Z.ltb_irrefl by lia. done.
Qed.

Lemma loaded_id now u x : ID (loaded now (scanned u x)) = x.1.
Proof. destruct x as [id r]. unfold loaded, scanned. cbn. by case_match. Qed.

Lemma loaded_limit now u id r :
  EffectiveTotalLimit (loaded now (scanned u (id, r))) = normalizeSubLimit (total_limit_usd r).
Proof. unfold loaded, scanned. cbn. by case_match. Qed.

Lemma locked_rows now u db id r :
  (id, r) ∈ lockUserSubscriptionWalletsSQL now u db -> user_subscriptions db !! id = Some r.
Proof.
  unfold lockUserSubscriptionWalletsSQL. rewrite stable_sort_perm, list_elem_of_In, filter_In,
    <- list_elem_of_In, elem_of_map_to_list. by intros [? _].
Qed.

Lemma locked_nodup now u db : NoDup (map fst (lockUserSubscriptionWalletsSQL now u db)).
Proof.
  unfold lockUserSubscriptionWalletsSQL. rewrite stable_sort_perm.
  pose proof (NoDup_fst_map_to_list (user_subscriptions db)) as Hnd.
  induction (map_to_list (user_subscriptions db)) as [|[id r] l IH]; simpl; [constructor|].
  inversion_clear Hnd as [|? ? Hni Hnd']. specialize (IH Hnd').
  case_match; [|done]. constructor; [|done]. intros Hin. apply Hni.
  apply list_elem_of_fmap in Hin as (y & Heq & Hy). apply list_elem_of_fmap. exists y. split; [exact Heq|].
  apply list_elem_of_In, filter_In in Hy as [Hy _]. by apply list_elem_of_In.
Qed.

(** What the allocations charge to one wallet. *)
Definition charged_to (id : Z) (adds : list SubscriptionAllocation) : Amount :=
  total (fun a => if SubscriptionID a =? id then AllocAmount a else 0) adds.

Lemma add_all_lookup adds t id :
  add_all adds t !! id = add_usage (charged_to id adds) <$> t !! id.
Proof.
  unfold add_all, charged_to. revert t. induction adds as [|a adds IH]; intros t; cbn [foldl total].
  - destruct (t !! id) as [r|]; simpl; [|done]. f_equal. destruct r. unfold add_usage. cbn.
    f_equal. lia.
  - rewrite IH. destruct (Z.eqb_spec (SubscriptionID a) id) as [<-|Hne].
    + rewrite lookup_alter_eq. destruct (t !! _) as [r|]; simpl; [|done]. unfold add_usage. cbn.
      do 2 f_equal. lia.
    + by rewrite lookup_alter_ne.
Qed.

Lemma reset_all_lookup dirty t id r :
  t !! id = Some r ->
  exists r', reset_all dirty t !! id = Some r' /\ total_limit_usd r' = total_limit_usd r /\
    (total_usage_usd r' = total_usage_usd r \/ total_usage_usd r' = 0).
Proof.
  unfold reset_all. revert t r. induction dirty as [|[i start] dirty IH]; intros t r Hr; cbn [foldl fst snd].
  { exists r. auto. }
  destruct (decide (i = id)) as [->|Hne].
  - destruct (IH (alter (reset_row start) id t) (reset_row start r)) as (r' & Hr' & Hl & Hu).
    { by rewrite lookup_alter_eq, Hr. }
    exists r'. split_and!; [done|by rewrite Hl|]. destruct Hu as [Hu|]; [right; by rewrite Hu|by right].
  - apply IH. by rewrite lookup_alter_ne.
Qed.

Lemma charged_to_sublist id adds allocs :
  Forall (fun a => 0 <= AllocAmount a) allocs -> adds `sublist_of` allocs ->
  charged_to id adds <= charged_to id allocs.
Proof.
  unfold charged_to. intros Hpos Hsub. induction Hsub as [|a l1 l2 _ IH|a l1 l2 _ IH]; cbn [total].
  - lia.
  - inversion_clear Hpos. specialize (IH ltac:(done)). lia.
  - inversion_clear Hpos. specialize (IH ltac:(done)). case_match; lia.
Qed.

(** Wallets of different ids take at most what one of them has. *)
Lemma charged_to_takes now id ws allocs :
  Forall2 (takes now) ws allocs -> NoDup (map ID ws) ->
  charged_to id allocs = 0 \/
  exists s, s ∈ ws /\ ID s = id /\
    forall a, available now s = Some a -> charged_to id allocs <= a.
Proof.
  unfold charged_to. induction 1 as [|s x ws allocs (Hid & _ & Hle) Hws IH]; cbn [total map]; [by left|].
  intros Hnd. inversion_clear Hnd as [|? ? Hni Hnd'].
  destruct (Z.eqb_spec (SubscriptionID x) id) as [Heq|Hne].
  - right. exists s. split_and!; [by left|congruence|]. intros a Ha. specialize (Hle a Ha).
    assert (Hz : total (fun a => if SubscriptionID a =? id then AllocAmount a else 0) allocs = 0).
    { clear IH Hnd'. assert (Hno : id ∉ map ID ws) by congruence. clear Hni.
      induction Hws as [|s' x' ws allocs (Hid' & _) Hws IH]; cbn [total]; [done|].
      cbn [map] in Hno. apply not_elem_of_cons in Hno as [Hne' Hno].
      rewrite (proj2 (Z.eqb_neq _ _)) by congruence. by apply IH. }
    lia.
  - destruct (IH Hnd') as [Hz|(s' & Hin & Hs' & Hmax)]; [left; lia|].
    right. exists s'. split_and!; [by right|done|]. intros a Ha. specialize (Hmax a Ha). lia.
Qed.

Lemma charged_within_limit E cmd db r adds db' id row limit :
  charged E cmd db r adds db' -> same_window E ->
  wallets_of E (cmd_UserID cmd) db <> [] ->
  user_subscriptions db !! id = Some row -> 0 <= total_usage_usd row ->
  normalizeSubLimit (total_limit_usd row) = Some limit ->
  exists row', user_subscriptions db' !! id = Some row' /\
    total_limit_usd row' = total_limit_usd row /\
    total_usage_usd row' <= Z.max limit (total_usage_usd row).
Proof.
  intros Hch Hsame Hsome Hrow Hpos Hlim.
  assert (Hbase : exists row1, if_pos (SubscriptionCost cmd)
      (reset_all (dirty_of E (cmd_UserID cmd) db)) (user_subscriptions db) !! id = Some row1 /\
      total_limit_usd row1 = total_limit_usd row /\ total_usage_usd row1 <= total_usage_usd row).
  { unfold if_pos. destruct (0 <? SubscriptionCost cmd); [|by exists row].
    destruct (reset_all_lookup (dirty_of E (cmd_UserID cmd) db) _ id row Hrow) as (r1 & Hr1 & Hl & Hu).
    exists r1. split_and!; [done|done|]. destruct Hu as [->| ->]; lia. }
  destruct Hbase as (row1 & Hrow1 & Hl1 & Hu1).
  exists (add_usage (charged_to id adds) row1).
  rewrite (ch_subs _ _ _ _ _ _ Hch), add_all_lookup, Hrow1. split_and!; [done|done|]. cbn.
  destruct (decide (0 < SubscriptionCost cmd)) as [Hcost|Hcost].
  2:{ destruct (ch_fallback _ _ _ _ _ _ Hch) as [_ ->]; [lia|]. cbn. lia. }
  destruct (ch_split _ _ _ _ _ _ Hch Hcost) as (_ & _ & [[Hnil _]|(allocs & Hsub & Htaken)]); [done|].
  pose proof (charged_to_sublist id adds allocs (taken_amounts _ _ _ Htaken) Hsub) as Hle.
  destruct Htaken as (ws & Hws & Htakes).
  assert (Hnd : NoDup (map ID (wallets_of E (cmd_UserID cmd) db))).
  { unfold wallets_of. rewrite !map_map.
    rewrite (map_ext _ fst) by (intros x; apply loaded_id). apply locked_nodup. }
  assert (Hsubws : ws ⊆+ wallets_of E (cmd_UserID cmd) db).
  { etrans; [exact Hws|]. unfold active_rows.
    clear. induction (wallets_of E (cmd_UserID cmd) db) as [|s l IH]; simpl; [done|].
    destruct (IsActive s (split_now E)); [by apply submseteq_skip|by apply submseteq_cons]. }
  assert (Hndws : NoDup (map ID ws)).
  { destruct (submseteq_Permutation _ _ Hsubws) as [k Hk]. rewrite Hk, map_app in Hnd.
    by apply NoDup_app in Hnd as [? _]. }
  destruct (charged_to_takes _ id _ _ Htakes Hndws) as [Hz|(s & Hs & Hid & Hmax)]; [lia|].
  pose proof (elem_of_submseteq _ _ _ Hs Hsubws) as Hs1.
  unfold wallets_of in Hs1. apply list_elem_of_fmap in Hs1 as (s0 & -> & Hs0).
  apply list_elem_of_fmap in Hs0 as ([id' row'] & -> & Hin). rewrite loaded_id in Hid. cbn in Hid.
  subst id'. apply locked_rows in Hin. assert (row' = row) as -> by congruence.
  unfold available in Hmax. rewrite loaded_limit, Hlim in Hmax. specialize (Hmax _ eq_refl).
  rewrite (loaded_usage E _ id row Hsame) in Hmax. lia.
Qed.

(** C17. Wallets are not overdrawn. When a charge that is applied finds wallets of the
user, and its two readings of the clock are in the same windows, a row that has a limit
and whose usage is not negative keeps that limit and ends with a usage not above it,
unless it was above before; then it has not grown. *)
Theorem wallets_not_overdrawn E cmd db fs r db' fs' id row limit :
  Apply E (Some cmd) db fs = (Ok r, db', fs') -> Applied r = true -> same_window E ->
  wallets_of E (cmd_UserID cmd) db <> [] ->
  user_subscriptions db !! id = Some row -> 0 <= total_usage_usd row ->
  normalizeSubLimit (total_limit_usd row) = Some limit ->
  exists row', user_subscriptions db' !! id = Some row' /\
    total_limit_usd row' = total_limit_usd row /\
    total_usage_usd row' <= Z.max limit (total_usage_usd row).
Proof.
  intros Happly Happ Hsame Hsome Hrow Hpos Hlim.
  destruct (Apply_charged _ _ _ _ _ _ _ Happly Happ) as (fp & adds & Hch).
  eapply charged_within_limit; [exact Hch|done| |done|done|done].
  destruct (Normalize_key cmd) as (_ & _ & ->). exact Hsome.
Qed.

(** The first charge of a new window is split against the usage of the old
one.  For a recurring wallet whose window is over, the usage that counts is
zero and the row is reset to zero, and yet the amount available to the charge
that does so is the limit less the old usage; a wallet that was used up in the
old window does not pay, and the balance does, although the wallet is full. *)
Theorem new_window_split_uses_old_usage E u id r p limit cost :
  same_window E -> reset_period r = period_name p ->
  SubscriptionWindowExpired (reset_period r) (default zeroTime (usage_window_start r)) (lock_now E) = true ->
  normalizeSubLimit (total_limit_usd r) = Some limit ->
  let sub := scanned u (id, r) in
  available (lock_now E) sub = Some limit /\
  (exists start, dirtyWindow (lock_now E) sub = Some (id, start)) /\
  available (split_now E) (loaded (lock_now E) sub) = Some (limit - total_usage_usd r) /\
  (limit <= total_usage_usd r -> 0 < cost -> subscriptionAllocationEpsilon < cost ->
   SplitSubscriptionUsage (split_now E) [Some (loaded (lock_now E) sub)] cost = ([], cost)).
Proof.
  intros Hsame Hp Hexp Hlim sub.
  assert (Hav : available (split_now E) (loaded (lock_now E) sub) = Some (limit - total_usage_usd r)).
  { unfold available, sub. by rewrite loaded_limit, Hlim, loaded_usage. }
  split_and!; [| |done|].
  - unfold available, EffectiveTotalLimit, sub, scanned, EffectiveWindowUsageUSD,
      subscriptionWindowEffectiveUsage.
    cbn [TotalLimitUSD ResetPeriod UsageWindowStart TotalUsageUSD]. rewrite Hlim, Hexp.
    f_equal. lia.
  - unfold dirtyWindow, sub, scanned. cbn [ResetPeriod UsageWindowStart ID]. rewrite Hexp, Hp, recurring_name.
    by eexists.
  - intros Hused Hc Heps. set (s := loaded (lock_now E) sub) in *.
    assert (Hlimited : HasEffectiveLimit s = true).
    { unfold HasEffectiveLimit, s, sub. by rewrite loaded_limit, Hlim. }
    assert (Hdrain : drain (split_now E) (limited_wallets (split_now E) [Some s]) = []).
    { unfold limited_wallets, active_rows. simpl.
      destruct (IsActive s (split_now E)); [|done]. simpl. rewrite Hlimited.
      change (byExpiry [s]) with [s]. rewrite (drain_cons _ _ _ _ Hav).
      rewrite (proj2 (Z.leb_le _ _)); [done|]. unfold subscriptionAllocationEpsilon. lia. }
    assert (Hunlimited : unlimited_wallets (split_now E) [Some s] = []).
    { unfold unlimited_wallets, active_rows. simpl.
      destruct (IsActive s (split_now E)); [|done]. simpl. by rewrite Hlimited. }
    assert (Hfail : (AllocateSubscriptionUsageAt (split_now E) [Some s] cost (split_now E)).2 = false).
    { apply allocation_fails_iff; [done|]. rewrite Hdrain. split; [done|exact Heps]. }
    unfold SplitSubscriptionUsage. pose proof (split_spec (split_now E) [Some s] cost (split_now E) Hc) as Hs.
    destruct (SplitSubscriptionUsageAt _ _ _ _) as [allocs rem]. destruct Hs as [[(_ & _ & Hok)|Hs] _].
    + by rewrite Hok in Hfail.
    + destruct Hs as (_ & Hsum & -> & _). rewrite Hdrain in *. f_equal. cbn in Hsum. lia.
Qed.
End BillingWallets.

(** ** Examples *)

Lemma ex_same_window : same_window ex_env.
Proof. intros p. destruct p; split; by vm_compute. Defined.

Definition ex_result := (Apply ex_env (Some (ex_charge "r1" 0 (usd 3))) ex_db []).

Lemma wallets_not_overdrawn_witness :
  exists row, user_subscriptions ex_result.1.2 !! 2 = Some row /\ total_usage_usd row <= usd 1.
Proof.
  destruct (wallets_not_overdrawn ex_env (ex_charge "r1" 0 (usd 3)) ex_db []
    (mkResult true false (Some (usd 3)) false None (usd 2) (usd 2)) ex_result.1.2 ex_result.2
    2 (mkSubRow 7 "active" (Date 2026 9 1) (Some (usd 1)) 0 "none" None false) (usd 1))
    as (row & Hrow & _ & Hle);
    [by vm_compute|done|exact ex_same_window|by vm_compute|by vm_compute|by vm_compute|by vm_compute|].
  exists row. split; [exact Hrow|exact Hle].
Defined.

(** A full daily wallet of one dollar does not pay half a dollar. *)
Lemma new_window_split_uses_old_usage_witness :
  SplitSubscriptionUsage ex_now
    [Some (loaded ex_now (scanned 7
       (1, mkSubRow 7 "active" (Date 2026 6 1) (Some (usd 1)) (usd 1) "daily" (Some (Date 2026 3 9)) false)))]
    5000000000 = ([], 5000000000).
Proof.
  apply (new_window_split_uses_old_usage ex_env 7 1
    (mkSubRow 7 "active" (Date 2026 6 1) (Some (usd 1)) (usd 1) "daily" (Some (Date 2026 3 9)) false)
    Daily (usd 1) 5000000000 ex_same_window); by vm_compute.
Defined.
