(* ===== verification/BillingQuota.v ===== *)
(** * Quotas of API keys and accounts

The statements of [Billing] on [api_keys] and [accounts], one after the other:
a key's quota is reported exhausted exactly once, the usage of its rate-limit
windows is what the requests of the window cost, and an account's quota that
is crossed is noticed, also when the window has just been renewed. *)
From S2P Require Import Prelude GoText GoTime SubscriptionWindow Wallets BillingStore Billing.
From Stdlib Require Import Bool.

Local Open Scope string_scope.
Local Open Scope Z_scope.
Local Open Scope list_scope.

(** ** The quota of a key *)

(** The row after charges, and how many of them reported exhaustion. *)
Definition charge_key (amounts : list Amount) (r : api_key_row) : api_key_row * Z :=
  foldl (fun '(r, n) amount =>
    let r := quota_charged amount r in (r, n + Z.b2z (quota_crossed amount r))) (r, 0) amounts.

Definition key_grid (r : api_key_row) : Prop := on_grid (quota_used r).

Lemma quota_charged_used amount r :
  key_grid r -> on_grid amount ->
  quota_used (quota_charged amount r) = quota_used r + amount /\
  quota (quota_charged amount r) = quota r.
Proof. intros Hr Ha. unfold quota_charged. cbn. split; [|done]. apply round8_id. auto with go. Qed.

(** A quota is exhausted once.  Over any sequence of charges to an active key
that is below its quota, the stored usage is the sum of the charges; the key is
marked exhausted exactly when the usage has reached the quota, and exactly one
charge reports it, the one that got there. *)
Theorem quota_exhausted_once amounts r :
  key_grid r -> Forall (fun a => on_grid a /\ 0 < a) amounts ->
  0 < quota r -> quota_used r < quota r -> key_status r = StatusAPIKeyActive ->
  let '(r', reports) := charge_key amounts r in
  quota_used r' = quota_used r + total (fun a => a) amounts /\
  (quota_used r' < quota r -> key_status r' = StatusAPIKeyActive /\ reports = 0) /\
  (quota r <= quota_used r' -> key_status r' = StatusAPIKeyQuotaExhausted /\ reports = 1).
Proof.
  intros Hgrid Hall Hq Hlow Hact.
  assert (Hinv : forall l, Forall (fun a => on_grid a /\ 0 < a) l ->
    let '(r', n) := charge_key l r in
    key_grid r' /\ quota r' = quota r /\ quota_used r' = quota_used r + total (fun a => a) l /\
    (quota_used r' < quota r -> key_status r' = StatusAPIKeyActive /\ n = 0) /\
    (quota r <= quota_used r' -> key_status r' = StatusAPIKeyQuotaExhausted /\ n = 1)).
  { intros l. induction l as [|a l IH] using rev_ind; intros Hl.
    { cbn. split_and!; [done|done|lia|done|lia]. }
    apply Forall_app in Hl as [Hl Ha]. inversion_clear Ha as [|? ? [Hag Hap] _]. specialize (IH Hl).
    unfold charge_key in *. rewrite foldl_snoc. destruct (foldl _ (r, 0) l) as [r' n].
    destruct IH as (Hg' & Hq' & Hu' & Hbelow & Habove).
    destruct (quota_charged_used a r' Hg' Hag) as [Hu Hqq]. cbv zeta.
    assert (Hst : key_status (quota_charged a r') =
      if (0 <? quota r') && String.eqb (key_status r') StatusAPIKeyActive &&
         (quota_used r' <? quota r') && (quota r' <=? quota_used r' + a)
      then StatusAPIKeyQuotaExhausted else key_status r') by done.
    rewrite total_snoc. unfold key_grid. rewrite Hu, Hqq, Hq'.
    split_and!; [by apply grid_add|done|lia| |].
    - intros Hlt. destruct Hbelow as [Hs ->]; [lia|].
      rewrite Hst, Hq', Hs. rewrite (proj2 (Z.leb_gt (quota r) _)), andb_false_r by lia.
      split; [done|]. unfold quota_crossed. rewrite Hu, Hqq, Hq'.
      rewrite (proj2 (Z.leb_gt (quota r) _)), andb_false_r by lia. done.
    - intros Hge. unfold quota_crossed. rewrite Hu, Hqq, Hq', Hst, Hq'.
      rewrite (proj2 (Z.leb_le (quota r) _)), (proj2 (Z.ltb_lt 0 _)), !andb_true_r by lia.
      replace (quota_used r' + a - a) with (quota_used r') by lia. cbn [andb].
      destruct (Z.ltb_spec (quota_used r') (quota r)) as [Hlt|Hge'].
      + destruct Hbelow as [Hs ->]; [done|]. by rewrite Hs.
      + destruct Habove as [Hs ->]; [done|]. by rewrite Hs, andb_false_r. }
  specialize (Hinv amounts Hall). destruct (charge_key amounts r) as [r' n]. tauto.
Qed.

(** ** Rate-limit windows *)

(** A request at an instant. *)
Record request : Type := mkRequest { req_at : Time; req_cost : Amount }.

(** One window of a key: its start and the usage in it. *)
Definition window_step (period : Duration) (fresh : Time -> Time) (w : option Time * Amount)
    (x : request) : option Time * Amount :=
  (next_start (req_at x) period w.1 (fresh (req_at x)), next_usage (req_at x) period w.1 w.2 (req_cost x)).

Lemma rate_charged_windows now cost r :
  let r' := rate_charged now cost r in
  (window_5h_start r', usage_5h r') =
    window_step (5 * Hour) (fun t => t) (window_5h_start r, usage_5h r) (mkRequest now cost) /\
  (window_1d_start r', usage_1d r') =
    window_step (24 * Hour) trunc_day (window_1d_start r, usage_1d r) (mkRequest now cost) /\
  (window_7d_start r', usage_7d r') =
    window_step (168 * Hour) trunc_day (window_7d_start r, usage_7d r) (mkRequest now cost).
Proof. done. Qed.

(** The costs of the requests from [start] on. *)
Definition since (start : Time) (l : list request) : Amount :=
  total (fun x => if start <=? (req_at x) then (req_cost x) else 0) l.

(** A window, when it is renewed, starts at or after the end of the one before. *)
Definition aligned (period : Duration) (fresh : Time -> Time) : Prop :=
  (forall t, fresh t <= t < fresh t + period) /\
  (forall s t, fresh s + period <= t -> fresh s + period <= fresh t).

Lemma aligned_5h : aligned (5 * Hour) (fun t => t).
Proof. split; intros; cbv beta in *; unfold Hour in *; lia. Qed.

Lemma trunc_day_le t : trunc_day t <= t < trunc_day t + 24 * Hour.
Proof.
  unfold trunc_day. pose proof (Z.div_mod t (24 * Hour)). pose proof (Z.mod_pos_bound t (24 * Hour)).
  unfold Hour in *. lia.
Qed.

Lemma aligned_days k : 0 < k -> aligned (k * (24 * Hour)) trunc_day.
Proof.
  intros Hk. split; [intros t; pose proof (trunc_day_le t); unfold Hour in *; nia|].
  intros s t Hle. unfold trunc_day in *. rewrite <- Z.mul_add_distr_r in *.
  apply Z.mul_le_mono_nonneg_r; [done|]. apply Z.div_le_lower_bound; [done|lia].
Qed.

Section Window.
Context (period : Duration) (fresh : Time -> Time) (Haligned : aligned period fresh).

(** The window holds exactly the requests since its start, and all of them came
before its end. *)
Definition window_inv (seen : list request) (w : option Time * Amount) : Prop :=
  match w.1 with
  | None => seen = [] /\ w.2 = 0
  | Some start => w.2 = since start seen /\ Forall (fun x => (req_at x) < start + period) seen /\
      (exists t, start = fresh t) /\ exists y, y ∈ seen /\ start <= (req_at y)
  end.

Lemma since_snoc s l x : since s (l ++ [x]) = since s l + (if s <=? (req_at x) then (req_cost x) else 0).
Proof. apply total_snoc. Qed.

Lemma since_none s l : Forall (fun x => (req_at x) < s) l -> since s l = 0.
Proof.
  induction 1 as [|x l Hx _ IH]; [done|]. unfold since in *. cbn [total]. rewrite IH.
  rewrite (proj2 (Z.leb_gt _ _)) by done. lia.
Qed.

Lemma window_step_inv seen w x :
  window_inv seen w -> Forall (fun y => (req_at y) <= (req_at x)) seen ->
  on_grid w.2 -> on_grid (req_cost x) ->
  window_inv (seen ++ [x]) (window_step period fresh w x).
Proof.
  destruct Haligned as [Hfresh Hnext]. intros Hinv Hord Hgw Hgx.
  destruct w as [[start|] usage]; unfold window_inv, window_step, next_start, next_usage, window_over in *;
    cbn [fst snd] in *.
  - destruct Hinv as (Hu & Hall & [t Ht] & y & Hy & Hsy).
    rewrite Forall_forall in Hord. specialize (Hord y Hy).
    destruct (Z.leb_spec (start + period) (req_at x)) as [Hover|Hin].
    + assert (Hend : start + period <= fresh (req_at x)) by (rewrite Ht in *; by apply Hnext).
      assert (Hold : Forall (fun y => (req_at y) < fresh (req_at x)) seen).
      { eapply Forall_impl; [exact Hall|]. simpl. intros z Hz. lia. }
      pose proof (Hfresh (req_at x)). rewrite round8_id by done. rewrite since_snoc, since_none by exact Hold.
      rewrite (proj2 (Z.leb_le _ _)) by lia.
      split_and!; [done| |by exists (req_at x)|exists x; split; [set_solver|lia]].
      apply Forall_app. split; [|constructor; [lia|done]].
      eapply Forall_impl; [exact Hold|]. simpl. intros z Hz. lia.
    + rewrite round8_id by auto with go. rewrite since_snoc, Hu, (proj2 (Z.leb_le start _)) by lia.
      split_and!; [done|apply Forall_app; split; [done|by constructor]|by exists t|].
      exists y. split; [set_solver|done].
  - destruct Hinv as [-> ->]. rewrite round8_id by (rewrite Z.add_0_l; done).
    pose proof (Hfresh (req_at x)). cbn. unfold since. cbn. rewrite (proj2 (Z.leb_le _ _)) by lia.
    split_and!; [lia|constructor; [lia|done]|by exists (req_at x)|exists x; split; [by left|lia]].
Qed.

Lemma window_step_grid w x : on_grid (window_step period fresh w x).2.
Proof. unfold window_step, next_usage. cbn. auto with go. Qed.

Lemma window_run seen w l :
  window_inv seen w -> on_grid w.2 -> Forall (fun x => on_grid (req_cost x)) l ->
  StronglySorted (fun x y => (req_at x) <= (req_at y)) (seen ++ l) ->
  window_inv (seen ++ l) (foldl (window_step period fresh) w l).
Proof.
  revert seen w. induction l as [|x l IH]; intros seen w Hinv Hgw Hg Hord; cbn [foldl].
  - by rewrite app_nil_r.
  - inversion_clear Hg. rewrite cons_middle, app_assoc. apply IH.
    + apply window_step_inv; [done| |done|done]. apply Forall_forall. intros y Hy.
      eapply (StronglySorted_app_1_elem_of _ _ _ y x) in Hord; [done|done|by left].
    + apply window_step_grid.
    + done.
    + by rewrite <- app_assoc.
Qed.
End Window.

(** The three windows of a row. *)
Definition windows (r : api_key_row) : list (option Time * Amount * Duration) :=
  [(window_5h_start r, usage_5h r, 5 * Hour);
   (window_1d_start r, usage_1d r, 24 * Hour);
   (window_7d_start r, usage_7d r, 168 * Hour)].

Definition charge_rates (l : list request) (r : api_key_row) : api_key_row :=
  foldl (fun r x => rate_charged (req_at x) (req_cost x) r) r l.

Lemma charge_rates_windows l r :
  let r' := charge_rates l r in
  (window_5h_start r', usage_5h r') =
    foldl (window_step (5 * Hour) (fun t => t)) (window_5h_start r, usage_5h r) l /\
  (window_1d_start r', usage_1d r') =
    foldl (window_step (24 * Hour) trunc_day) (window_1d_start r, usage_1d r) l /\
  (window_7d_start r', usage_7d r') =
    foldl (window_step (168 * Hour) trunc_day) (window_7d_start r, usage_7d r) l.
Proof.
  unfold charge_rates. revert r. induction l as [|x l IH]; intros r; cbn [foldl]; [done|].
  specialize (IH (rate_charged (req_at x) (req_cost x) r)). cbv zeta in IH |- *.
  destruct IH as (-> & -> & ->). done.
Qed.

(** The usage of a rate-limit window is the cost of the requests in it.  For a
key that starts unused, after requests in the order of their times, each of the
three windows either has not begun, and no request has been made, or it holds
exactly the costs of the requests made since its start, all of which came
before its end, the last one included. *)
Theorem rate_windows_count l r :
  window_5h_start r = None -> window_1d_start r = None -> window_7d_start r = None ->
  usage_5h r = 0 -> usage_1d r = 0 -> usage_7d r = 0 ->
  Forall (fun x => on_grid (req_cost x)) l -> StronglySorted (fun x y => (req_at x) <= (req_at y)) l ->
  Forall (fun '(start, usage, period) =>
    match start with
    | None => l = [] /\ usage = 0
    | Some s => usage = since s l /\ Forall (fun x => (req_at x) < s + period) l
    end) (windows (charge_rates l r)).
Proof.
  intros H5 H1 H7 U5 U1 U7 Hg Hord.
  destruct (charge_rates_windows l r) as (E5 & E1 & E7). rewrite H5, U5 in E5. rewrite H1, U1 in E1.
  rewrite H7, U7 in E7.
  assert (Hw : forall period fresh, aligned period fresh ->
    window_inv period fresh l (foldl (window_step period fresh) (None, 0) l)).
  { intros period fresh Hal. apply (window_run period fresh Hal []); [done|apply grid_0|done|done]. }
  pose proof (Hw _ _ aligned_5h) as W5.
  pose proof (Hw _ _ (aligned_days 1 eq_refl)) as W1. pose proof (Hw _ _ (aligned_days 7 eq_refl)) as W7.
  change (1 * (24 * Hour)) with (24 * Hour) in W1. change (7 * (24 * Hour)) with (168 * Hour) in W7.
  rewrite <- E5 in W5. rewrite <- E1 in W1. rewrite <- E7 in W7. unfold windows, window_inv in *.
  repeat apply Forall_cons_2; [| | |constructor]; cbn [fst snd] in *.
  - destruct (window_5h_start (charge_rates l r)); [by destruct W5 as (? & ? & _)|exact W5].
  - destruct (window_1d_start (charge_rates l r)); [by destruct W1 as (? & ? & _)|exact W1].
  - destruct (window_7d_start (charge_rates l r)); [by destruct W7 as (? & ? & _)|exact W7].
Qed.

(** ** Quotas of accounts *)

Section AccountQuota.
Context `{GoUnicode} `{BillingParams}.

(** The usage of a window of an account that counts at [now]. *)
Definition effective_used (now : Time) (period : Duration) (w : extra_window) : Amount :=
  if expiredExpr now period w then 0 else default 0 (w_used w).

Lemma charge_window_used now period next amount w :
  0 < default 0 (w_limit w) ->
  default 0 (w_used (charge_window now period next amount w)) = effective_used now period w + amount /\
  w_limit (charge_window now period next amount w) = w_limit w.
Proof.
  intros Hl. unfold charge_window, effective_used. rewrite (proj2 (Z.ltb_lt _ _)) by done. cbn.
  split; [|done]. by case_match.
Qed.

Definition reaches (before limit amount : Amount) : bool :=
  (0 <? limit) && (before <? limit) && (limit <=? before + amount).

Lemma crossed_reaches before limit amount :
  crossed (before + amount) limit amount = reaches before limit amount.
Proof.
  unfold crossed, reaches. replace (before + amount - amount) with before by lia.
  destruct (0 <? limit), (before <? limit), (limit <=? before + amount); done.
Qed.

Lemma window_crossed now period next amount w :
  let w' := charge_window now period next amount w in
  crossed (default 0 (w_used w')) (default 0 (w_limit w')) amount =
    reaches (effective_used now period w) (default 0 (w_limit w)) amount.
Proof.
  intros w'. subst w'. destruct (decide (0 < default 0 (w_limit w))) as [Hl|Hl].
  - destruct (charge_window_used now period next amount w Hl) as [-> ->]. apply crossed_reaches.
  - unfold charge_window. rewrite (proj2 (Z.ltb_ge 0 _)) by lia. unfold crossed, reaches.
    by rewrite (proj2 (Z.ltb_ge 0 _)) by lia.
Qed.

(** A quota of an account that is used up does not go unnoticed.  A charge that
takes the total, the daily or the weekly usage of an account from below its
limit to the limit or above puts the account in the scheduler's outbox, where
the usage before is zero if the charge has just renewed the window; no other
charge does.  The usage stored in each window is the effective one and the
charge. *)
Theorem account_crossing_enqueued E acc amount db :
  wp (incrementUsageBillingAccountQuota E acc amount)
    (ensures (fun state db' => exists a, accounts db !! acc = Some a /\
       let now := sql_now E in
       let hit :=
         reaches (default 0 (extra_quota_used a)) (default 0 (extra_quota_limit a)) amount ||
         reaches (effective_used now (24 * Hour) (extra_daily a)) (default 0 (w_limit (extra_daily a))) amount ||
         reaches (effective_used now (168 * Hour) (extra_weekly a)) (default 0 (w_limit (extra_weekly a))) amount in
       scheduler_outbox db' = (if hit then {[acc]} ∪ scheduler_outbox db else scheduler_outbox db) /\
       TotalUsed state = default 0 (extra_quota_used a) + amount /\
       (0 < default 0 (w_limit (extra_daily a)) ->
        DailyUsed state = effective_used now (24 * Hour) (extra_daily a) + amount) /\
       (0 < default 0 (w_limit (extra_weekly a)) ->
        WeeklyUsed state = effective_used now (168 * Hour) (extra_weekly a) + amount))) db.
Proof.
  eapply ensures_mono; [apply account_quota_spec|]. intros st db' (a & Ha & _ & -> & ->).
  exists a. split; [done|]. cbv zeta. unfold quota_state.
  cbn [TotalUsed TotalLimit DailyUsed DailyLimit WeeklyUsed WeeklyLimit].
  unfold charge_account at 1 2 3 4 5 6 7 8.
  cbn [extra_quota_used extra_quota_limit extra_daily extra_weekly from_option id].
  rewrite !window_crossed. rewrite crossed_reaches.
  split_and!; [done|done| |]; intros Hl; by apply charge_window_used.
Qed.
End AccountQuota.

(** ** Examples *)

Definition ex_key : api_key_row := mkKeyRow "active" (usd 2) 0 0 0 0 None None None false.

Lemma grid_usd n : on_grid (usd n).
Proof. exists (n * 100000000). unfold usd, cent8. lia. Qed.

Lemma quota_exhausted_once_witness :
  key_status (charge_key [usd 1; usd 1; usd 1] ex_key).1 = StatusAPIKeyQuotaExhausted /\
  (charge_key [usd 1; usd 1; usd 1] ex_key).2 = 1.
Proof.
  assert (Hall : Forall (fun a => on_grid a /\ 0 < a) [usd 1; usd 1; usd 1])
    by (repeat constructor; apply grid_usd).
  destruct (quota_exhausted_once [usd 1; usd 1; usd 1] ex_key grid_0 Hall eq_refl eq_refl eq_refl)
    as (_ & _ & Hex). apply Hex. by vm_compute.
Defined.

Definition ex_requests : list request :=
  [mkRequest (Date 2026 3 9 + 20 * Hour) (usd 1); mkRequest (Date 2026 3 10) (usd 2);
   mkRequest (Date 2026 3 10 + 2 * Hour) (usd 4)].

Lemma rate_windows_count_witness :
  windows (charge_rates ex_requests ex_key) =
    [(Some (Date 2026 3 10 + 2 * Hour), usd 4, 5 * Hour);
     (Some (Date 2026 3 10), usd 6, 24 * Hour);
     (Some (Date 2026 3 9), usd 7, 168 * Hour)] /\
  usd 6 = since (Date 2026 3 10) ex_requests.
Proof.
  split; [by vm_compute|].
  assert (Hw := rate_windows_count ex_requests ex_key eq_refl eq_refl eq_refl eq_refl eq_refl eq_refl).
  assert (Hg : Forall (fun x => on_grid (req_cost x)) ex_requests)
    by (repeat constructor; apply grid_usd).
  assert (Hs : StronglySorted (fun x y => req_at x <= req_at y) ex_requests)
    by (repeat constructor; vm_compute; discriminate).
  specialize (Hw Hg Hs). apply Forall_lookup_1 with (i := 1%nat) (x := (Some (Date 2026 3 10), usd 6,
    24 * Hour)) in Hw; [|by vm_compute]. apply Hw.
Defined.
