(* ===== verification/BillingRecords.v ===== *)
(** * Which requests are on record

The dedup tables, with the fingerprints that [BillingLedger] leaves out: a
request that has been answered without an error is on record with its
fingerprint, and no billing operation removes or changes a record. *)
From S2P Require Import Prelude GoText GoTime SubscriptionWindow Wallets BillingStore Billing.
From S2P Require Import BillingLedger.
From Stdlib Require Import Bool.

Local Open Scope string_scope.
Local Open Scope Z_scope.

(** No key is in both tables. *)
Definition dedup_ok (db : DB) : Prop :=
  forall k f, usage_billing_dedup db !! k = Some f -> usage_billing_dedup_archive db !! k = None.

Definition same_records (db db' : DB) : Prop :=
  usage_billing_dedup db' = usage_billing_dedup db /\
  usage_billing_dedup_archive db' = usage_billing_dedup_archive db.

Section Records.
Context `{GoUnicode} `{BillingParams}.

(** The key is on record with the fingerprint. *)
Definition recorded (k : key) (fp : string) (db : DB) : Prop :=
  exists f, (usage_billing_dedup db !! k = Some f \/ usage_billing_dedup_archive db !! k = Some f) /\
    TrimSpace f = TrimSpace fp.

Definition keeps_records (db db' : DB) : Prop :=
  dedup_ok db -> dedup_ok db' /\ forall k fp, recorded k fp db -> recorded k fp db'.

Lemma keeps_refl db : keeps_records db db.
Proof. by intros Hok. Qed.

Lemma keeps_trans db1 db2 db3 : keeps_records db1 db2 -> keeps_records db2 db3 -> keeps_records db1 db3.
Proof. intros H12 H23 Hok. destruct (H12 Hok) as [Hok2 Hr2]. destruct (H23 Hok2). auto. Qed.

Lemma keeps_same db db' : same_records db db' -> keeps_records db db'.
Proof.
  intros [Hd Ha] Hok. unfold dedup_ok, recorded. rewrite Hd, Ha. by split.
Qed.

Lemma keeps_claim k fp db db' :
  usage_billing_dedup db !! k = None -> usage_billing_dedup_archive db !! k = None ->
  same_records (claimed k fp db) db' -> keeps_records db db' /\ recorded k fp db'.
Proof.
  intros Hd Ha Hs. split.
  - apply (keeps_trans _ (claimed k fp db)); [|by apply keeps_same]. intros Hok. split.
    + intros k' f. cbn. destruct (decide (k = k')) as [<-|Hne]; [done|].
      rewrite lookup_insert_ne by done. apply Hok.
    + intros k' fp' (f & Hf & Heq). exists f. split; [|done]. cbn.
      rewrite lookup_insert_ne; [done|]. intros <-. destruct Hf; congruence.
  - destruct Hs as [Hd' Ha']. exists fp. split; [left|done]. rewrite Hd'. cbn. apply lookup_insert_eq.
Qed.

(** A transaction that claims its key before [body]. *)
Lemma claimed_records {R A} (requestID : string) (apiKeyID : Z) fp (body : Tx R) (d : A)
    (f : R -> A) db :
  let k := (requestID, apiKeyID) in
  wp body (ensures (fun _ => same_records (claimed k fp db))) (claimed k fp db) ->
  wp (transaction
    (let! applied := claimUsageBillingRequest requestID apiKeyID fp in
     if negb applied then tret (false, d)
     else let! r := body in tret (true, f r)))
    (fun r db' => keeps_records db db' /\ (is_ok r = true -> dedup_ok db -> recorded k fp db')) db.
Proof.
  intros k Hbody.
  set (Q := fun (ca : bool * A) db' => if ca.1
    then keeps_records db db' /\ recorded k fp db' else recorded k fp db).
  apply (wp_transaction _ _ (fun ca => Q ca)).
  - eapply ensures_bind; [apply claim_spec|]. intros [|] db1; cbn [negb].
    + intros (Hd & Ha & ->). eapply ensures_bind; [exact Hbody|]. intros r db2 Hr. tx_step.
      by apply (keeps_claim k fp db).
    + intros (g & Hin & Heq). tx_step. by exists g.
  - intros e. split; [apply keeps_refl|done].
  - intros a db' Hrec. split; [apply keeps_refl|done].
  - intros a db' [Hk Hrec]. split; [by split|]. intros e. split; [done|done].
Qed.

Lemma update_user_records u guard f e db :
  wp (let! row := stmt (update_user u guard f) in
      match row with
      | Some r => tret (hold_result r)
      | None => no_row u e
      end) (ensures (fun _ => same_records db)) db.
Proof.
  eapply ensures_mono; [apply guarded_update_spec|]. by intros _ db' (row & _ & _ & ->).
Qed.

Lemma reserve_records cmd db :
  wp (reserveUsageBillingBatchImageBalance cmd) (ensures (fun _ => same_records db)) db.
Proof.
  eapply ensures_mono; [apply reserve_spec|]. by intros _ db' [[_ ->]|(_ & row & _ & _ & ->)].
Qed.

Lemma capture_records cmd db :
  wp (captureUsageBillingBatchImageBalance cmd) (ensures (fun _ => same_records db)) db.
Proof.
  eapply ensures_mono; [apply capture_spec|].
  by intros _ db' [(_ & _ & ->)|(_ & _ & row & _ & _ & ->)].
Qed.

Lemma release_records cmd db :
  wp (releaseUsageBillingBatchImageBalance cmd) (ensures (fun _ => same_records db)) db.
Proof.
  eapply ensures_mono; [apply release_spec|].
  by intros _ db' [[_ ->]|(_ & _ & row & _ & _ & ->)].
Qed.

(** The key of a hold command, and the fingerprint it is recorded with. *)
Definition hold_key (cmd : BatchImageBalanceHoldCommand) : key :=
  (TrimSpace (hold_RequestID cmd), hold_APIKeyID cmd).

Definition hold_fingerprint (cmd : BatchImageBalanceHoldCommand) : string :=
  hold_RequestFingerprint (NormalizeHold cmd).

(** What an operation on a hold does to the records, whatever fails. *)
Definition hold_records (cmd : BatchImageBalanceHoldCommand) (db : DB)
    (r : res BatchImageBalanceHoldResult) (db' : DB) : Prop :=
  keeps_records db db' /\
  (is_ok r = true -> dedup_ok db -> recorded (hold_key cmd) (hold_fingerprint cmd) db').

Lemma apply_hold_records body cmd db :
  (forall c db, wp (body c) (ensures (fun _ => same_records db)) db) ->
  wp (applyBatchImageBalanceHold body (Some cmd)) (hold_records cmd db) db.
Proof.
  intros Hbody. unfold applyBatchImageBalanceHold. rewrite NormalizeHold_request.
  intros fs. destruct (String.eqb_spec (TrimSpace (hold_RequestID cmd)) "") as [|Hne].
  { split; [apply keeps_refl|done]. }
  destruct (NormalizeHold_fields cmd) as (Hk & _). rewrite Hk. revert fs.
  apply (claimed_records (TrimSpace (hold_RequestID cmd)) (hold_APIKeyID cmd)
    (hold_fingerprint cmd) (body (NormalizeHold cmd)) emptyHoldResult mark_applied db), Hbody.
Qed.

Lemma apply_records E cmd db :
  wp (Apply E (Some cmd)) (fun _ db' => keeps_records db db') db.
Proof.
  intros fs. cbn [Apply]. destruct (String.eqb (RequestID (Normalize cmd)) ""); [apply keeps_refl|].
  revert fs. set (c := Normalize cmd).
  eapply wp_mono; [apply (claimed_records (RequestID c) (APIKeyID c) (RequestFingerprint c)
    (applyUsageBillingEffects E c) emptyResult (fun r => r) db)|by intros r db' [? _]].
  eapply ensures_mono; [apply effects_spec|]. intros r db' [adds Hch].
  by split; [apply (ch_dedup _ _ _ _ _ _ Hch)|apply (ch_archive _ _ _ _ _ _ Hch)].
Qed.

Lemma archive_row_records db k : keeps_records db (archive_row db k).
Proof.
  intros Hok. unfold archive_row. destruct (usage_billing_dedup db !! k) as [fp|] eqn:Ed; [|done].
  rewrite (Hok k fp Ed). split.
  - intros k' f. cbn. destruct (decide (k = k')) as [<-|Hne]; [by rewrite lookup_delete_eq|].
    rewrite lookup_delete_ne, lookup_insert_ne by done. apply Hok.
  - intros k' fp' (f & Hf & Heq). exists f. split; [|done]. cbn.
    destruct (decide (k = k')) as [<-|Hne].
    + right. rewrite lookup_insert_eq. specialize (Hok _ _ Ed). destruct Hf; congruence.
    + rewrite lookup_delete_ne, lookup_insert_ne by done. done.
Qed.

Lemma cleanup_records rounds db :
  wp (CleanupUsageBillingDedup rounds) (fun _ db' => keeps_records db db') db.
Proof.
  assert (Hrows : forall victims db, keeps_records db (foldl archive_row db victims)).
  { intros victims. induction victims as [|k victims IH]; intros db0; [apply keeps_refl|].
    eapply keeps_trans; [apply archive_row_records|apply IH]. }
  revert db. induction rounds as [|victims rounds IH]; intros db; [apply wp_ret, keeps_refl|].
  apply wp_bind, wp_autocommit; cbn [fst snd]; [intros; apply keeps_refl|intros; apply Hrows|].
  eapply wp_mono; [apply IH|]. intros r db' Hk. eapply keeps_trans; [apply Hrows|exact Hk].
Qed.

(** No operation loses a record. *)
Lemma run_op_records o db fs : keeps_records db (run_op o db fs).2.
Proof.
  assert (Hhold : forall body cmd, (forall c db, wp (body c) (ensures (fun _ => same_records db)) db) ->
    let '(r, db', _) := applyBatchImageBalanceHold body (Some cmd) db fs in keeps_records db db').
  { intros body cmd Hb. pose proof (apply_hold_records body cmd db Hb fs) as Hr.
    destruct (applyBatchImageBalanceHold _ _ db fs) as [[r db'] fs']. apply Hr. }
  destruct o as [E cmd|cmd|cmd|cmd|rounds]; cbn [run_op].
  - pose proof (apply_records E cmd db fs) as Hr. by destruct (Apply E _ db fs) as [[r db'] fs'].
  - specialize (Hhold _ cmd reserve_records). unfold ReserveBatchImageBalance.
    by destruct (applyBatchImageBalanceHold _ _ db fs) as [[r db'] fs'].
  - specialize (Hhold _ cmd capture_records). unfold CaptureBatchImageBalance.
    by destruct (applyBatchImageBalanceHold _ _ db fs) as [[r db'] fs'].
  - specialize (Hhold _ cmd release_records). unfold ReleaseBatchImageBalance.
    by destruct (applyBatchImageBalanceHold _ _ db fs) as [[r db'] fs'].
  - pose proof (cleanup_records rounds db fs) as Hr.
    by destruct (CleanupUsageBillingDedup rounds db fs) as [[r db'] fs'].
Qed.
End Records.
