(* ===== verification/BatchJobs.v ===== *)
(** * Batch image jobs

The tables of jobs, items and events of [repository/batch_image_repo.go] and
the state machine of [service/batch_image.go].  A job's row is in three parts:
the columns written when it is created ([JobSpec]), the references the provider
returns, and the times.  Texts of error messages, and columns that no modelled
code reads, are left out.  An operation that is not a transaction is a sequence
of statements that commit one by one.  Every operation reads the clock once
([now]). *)
From S2P Require Import Prelude GoText GoTime SubscriptionWindow Wallets BillingStore.
From Stdlib Require Import Bool.

Local Open Scope string_scope.
Local Open Scope Z_scope.

(** ** Statuses *)

Definition BatchImageJobStatusCreated := "created".
Definition BatchImageJobStatusUploading := "uploading".
Definition BatchImageJobStatusSubmitted := "submitted".
Definition BatchImageJobStatusRunning := "running".
Definition BatchImageJobStatusIndexing := "indexing".
Definition BatchImageJobStatusSettling := "settling".
Definition BatchImageJobStatusCompleted := "completed".
Definition BatchImageJobStatusFailed := "failed".
Definition BatchImageJobStatusCancelled := "cancelled".
Definition BatchImageJobStatusOutputDeleted := "output_deleted".

Definition IsTerminalBatchImageJobStatus (status : string) : bool :=
  String.eqb status BatchImageJobStatusCompleted || String.eqb status BatchImageJobStatusFailed ||
  String.eqb status BatchImageJobStatusCancelled || String.eqb status BatchImageJobStatusOutputDeleted.

(** The map literal of [CanTransitionBatchImageJob]. *)
Definition allowed : list (string * list string) :=
  [(BatchImageJobStatusCreated,
      [BatchImageJobStatusUploading; BatchImageJobStatusSubmitted; BatchImageJobStatusCancelled]);
   (BatchImageJobStatusUploading,
      [BatchImageJobStatusSubmitted; BatchImageJobStatusCancelled]);
   (BatchImageJobStatusSubmitted,
      [BatchImageJobStatusRunning; BatchImageJobStatusIndexing; BatchImageJobStatusFailed;
       BatchImageJobStatusCancelled]);
   (BatchImageJobStatusRunning,
      [BatchImageJobStatusRunning; BatchImageJobStatusIndexing; BatchImageJobStatusFailed;
       BatchImageJobStatusCancelled]);
   (BatchImageJobStatusIndexing,
      [BatchImageJobStatusSettling; BatchImageJobStatusFailed]);
   (BatchImageJobStatusSettling,
      [BatchImageJobStatusCompleted])].

Definition CanTransitionBatchImageJob (from to : string) : bool :=
  if String.eqb from "" || String.eqb to "" then false
  else if IsTerminalBatchImageJobStatus from then
    String.eqb to BatchImageJobStatusOutputDeleted &&
    negb (String.eqb from BatchImageJobStatusOutputDeleted) &&
    (String.eqb from BatchImageJobStatusCompleted || String.eqb from BatchImageJobStatusFailed ||
     String.eqb from BatchImageJobStatusCancelled)
  else if String.eqb to BatchImageJobStatusFailed then true
  else match find (fun p => String.eqb p.1 from) allowed with
       | Some (_, tos) => existsb (String.eqb to) tos
       | None => false
       end.

Definition BatchImageProviderGeminiAPI := "gemini_api".
Definition BatchImageProviderVertex := "vertex".

Definition IsSupportedBatchImageProvider (provider : string) : bool :=
  String.eqb provider BatchImageProviderGeminiAPI || String.eqb provider BatchImageProviderVertex.

(** ** Rows *)

Record JobSpec : Type := mkSpec {
  JobID : Z;
  BatchID : string;
  UserID : Z;
  APIKeyID : option Z;
  AccountID : option Z;
  Provider : string;
  Model : string;
  TaskName : string;
  ParentBatchID : option string;
  ItemCount : Z;
  EstimatedCost : Amount;
  HoldAmount : option Amount;
  BillableUnitPrice : Amount;
  PricingSnapshotVersion : Z;
  IdempotencyKey : option string;
  RequestHash : option string
}.

(** The references that the provider returns. *)
Record ProviderRefs : Type := mkRefs {
  ProviderJobName : option string;
  ProviderInputRef : option string;
  ProviderOutputRef : option string;
  GCSInputURI : option string;
  GCSOutputURI : option string
}.

Record JobTimes : Type := mkTimes {
  UpdatedAt : Time;
  SubmittedAt : option Time;
  StartedAt : option Time;
  FinishedAt : option Time;
  SettledAt : option Time;
  OutputDeletedAt : option Time;
  OutputExpiresAt : option Time;
  UserDeletedAt : option Time;
  InputDeletedAt : option Time;
  DownloadedAt : option Time
}.

Record BatchImageJob : Type := mkJob {
  spec :> JobSpec;
  refs :> ProviderRefs;
  times :> JobTimes;
  Status : string;
  SuccessCount : Z;
  FailCount : Z;
  ActualCost : option Amount;
  ManifestHash : option string;
  RetryCount : Z;
  LastErrorCode : option string;
  Version : Z
}.

Definition BatchImageItemStatusPending := "pending".
Definition BatchImageItemStatusSuccess := "success".
Definition BatchImageItemStatusFailed := "failed".

Record BatchImageItem : Type := mkItem {
  CustomID : string;
  ItemStatus : string;
  ImageCount : Z;
  ErrorCode : option string
}.

(** What the services do besides the tables. *)
Inductive effect : Type :=
  | UsageLogged (requestID : string) (apiKeyID userID accountID : Z) (imageCount : Z) (cost : Amount)
  | AuthInvalidated (userID : Z)
  | Enqueued (batchID : string).

Record World : Type := mkWorld {
  w_db : DB;
  batch_image_jobs : gmap string BatchImageJob;
  batch_image_items : gmap string (list BatchImageItem);
  batch_image_events : list (string * string);
  effects : list effect
}.

Definition set_db (db : DB) (w : World) : World :=
  mkWorld db (batch_image_jobs w) (batch_image_items w) (batch_image_events w) (effects w).
Definition set_jobs (f : gmap string BatchImageJob -> gmap string BatchImageJob) (w : World) : World :=
  mkWorld (w_db w) (f (batch_image_jobs w)) (batch_image_items w) (batch_image_events w) (effects w).
Definition set_items (f : gmap string (list BatchImageItem) -> gmap string (list BatchImageItem))
    (w : World) : World :=
  mkWorld (w_db w) (batch_image_jobs w) (f (batch_image_items w)) (batch_image_events w) (effects w).
Definition add_event (batchID eventType : string) (w : World) : World :=
  mkWorld (w_db w) (batch_image_jobs w) (batch_image_items w)
    (batch_image_events w ++ [(batchID, eventType)])%list (effects w).
Definition add_effect (e : effect) (w : World) : World :=
  mkWorld (w_db w) (batch_image_jobs w) (batch_image_items w) (batch_image_events w)
    (effects w ++ [e])%list.

Notation Prog := (Txn World).

(** ** Errors *)

Definition ErrBatchImageJobNotFound : goerr := ErrApp 404 "BATCH_IMAGE_JOB_NOT_FOUND".
Definition ErrBatchImageJobExists : goerr := ErrApp 409 "BATCH_IMAGE_JOB_EXISTS".
Definition ErrBatchImageItemExists : goerr := ErrApp 409 "BATCH_IMAGE_ITEM_EXISTS".
Definition ErrBatchImageInvalidTransition : goerr := ErrApp 400 "BATCH_IMAGE_INVALID_TRANSITION".
Definition ErrBatchImageInvalidProvider : goerr := ErrApp 400 "BATCH_IMAGE_INVALID_PROVIDER".
Definition ErrBatchImageUnsupportedProvider : goerr :=
  ErrApp 400 "BATCH_IMAGE_UNSUPPORTED_PROVIDER".
Definition ErrBatchImageAlreadySettled : goerr := ErrApp 409 "BATCH_IMAGE_ALREADY_SETTLED".
Definition ErrBatchImageSettlementInvalidStatus : goerr :=
  ErrApp 400 "BATCH_IMAGE_SETTLEMENT_INVALID_STATUS".
Definition ErrBatchImageSettlementManifestConflict : goerr :=
  ErrApp 409 "BATCH_IMAGE_SETTLEMENT_MANIFEST_CONFLICT".
Definition ErrBatchImageIndexStateConflict : goerr := ErrApp 409 "BATCH_IMAGE_INDEX_STATE_CONFLICT".
Definition ErrBatchImageRecordDeleteNotReady : goerr :=
  ErrApp 409 "BATCH_IMAGE_RECORD_DELETE_NOT_READY".

(** ** Updates of a row *)

Definition first_time (o : option Time) (now : Time) : option Time :=
  match o with None => Some now | Some t => Some t end.

Definition when (c : bool) {A} (x y : A) : A := if c then x else y.

(** The row with new times; with a new status, error code and version. *)
Definition with_times (t : JobTimes) (j : BatchImageJob) : BatchImageJob :=
  mkJob (spec j) (refs j) t (Status j) (SuccessCount j) (FailCount j) (ActualCost j)
    (ManifestHash j) (RetryCount j) (LastErrorCode j) (Version j).

Definition with_status (status : string) (code : option string) (version : Z) (j : BatchImageJob)
    : BatchImageJob :=
  mkJob (spec j) (refs j) (times j) status (SuccessCount j) (FailCount j) (ActualCost j)
    (ManifestHash j) (RetryCount j) code version.

(** The times with [updated_at] set to [now], and the columns of the life of a
job set as given. *)
Definition life (now : Time) (submitted started finished settled : option Time) (j : BatchImageJob)
    : JobTimes :=
  mkTimes now submitted started finished settled (OutputDeletedAt j) (OutputExpiresAt j)
    (UserDeletedAt j) (InputDeletedAt j) (DownloadedAt j).

Definition touched_row (now : Time) (j : BatchImageJob) : BatchImageJob :=
  with_times (life now (SubmittedAt j) (StartedAt j) (FinishedAt j) (SettledAt j) j) j.

(** The UPDATE of [transitionBatchImageJobStatusWithSQL]. *)
Definition transition_row (toStatus : string) (now : Time) (errorCode : option string)
    (j : BatchImageJob) : BatchImageJob :=
  let goes s := String.eqb toStatus s in
  with_status toStatus (when (goes "failed") errorCode (LastErrorCode j)) (Version j + 1)
    (with_times
       (mkTimes now
          (when (goes "submitted") (first_time (SubmittedAt j) now) (SubmittedAt j))
          (when (goes "running") (first_time (StartedAt j) now) (StartedAt j))
          (when (goes "completed" || goes "failed" || goes "cancelled")
             (first_time (FinishedAt j) now) (FinishedAt j))
          (when (goes "completed") (first_time (SettledAt j) now) (SettledAt j))
          (when (goes "output_deleted") (first_time (OutputDeletedAt j) now) (OutputDeletedAt j))
          (OutputExpiresAt j) (UserDeletedAt j) (InputDeletedAt j) (DownloadedAt j)) j).

Definition nullif (s : string) : option string := if String.eqb s "" then None else Some s.

Definition with_refs (r : ProviderRefs) (j : BatchImageJob) : BatchImageJob :=
  mkJob (spec j) r (times j) (Status j) (SuccessCount j) (FailCount j) (ActualCost j)
    (ManifestHash j) (RetryCount j) (LastErrorCode j) (Version j).

Definition submitted_row (providerJobName inputRef outputRef gcsInput gcsOutput : string)
    (now : Time) (j : BatchImageJob) : BatchImageJob :=
  with_refs (mkRefs (Some providerJobName) (nullif inputRef) (nullif outputRef) (nullif gcsInput)
               (nullif gcsOutput))
    (with_status "submitted" (LastErrorCode j) (Version j + 1)
       (with_times (life now (first_time (SubmittedAt j) now) (StartedAt j) (FinishedAt j)
                      (SettledAt j) j) j)).

Definition submit_failed_row (code : string) (markFailed : bool) (now : Time) (j : BatchImageJob)
    : BatchImageJob :=
  let status := when markFailed "failed" (Status j) in
  with_status status (Some code) (Version j + 1)
    (with_times (life now (SubmittedAt j) (StartedAt j)
       (when (String.eqb status "failed") (first_time (FinishedAt j) now) (FinishedAt j))
       (SettledAt j) j) j).

Definition stale_row (code : string) (now : Time) (j : BatchImageJob) : BatchImageJob :=
  with_status "failed" (Some code) (Version j + 1)
    (with_times (life now (SubmittedAt j) (StartedAt j) (first_time (FinishedAt j) now)
                   (SettledAt j) j) j).

Definition settled_row (actualCost : Amount) (manifestHash : string) (now : Time)
    (outputExpiresAt : option Time) (j : BatchImageJob) : BatchImageJob :=
  mkJob (spec j) (refs j)
    (mkTimes now (SubmittedAt j) (StartedAt j) (first_time (FinishedAt j) now)
       (first_time (SettledAt j) now) (OutputDeletedAt j)
       (match OutputExpiresAt j with None => outputExpiresAt | Some t => Some t end)
       (UserDeletedAt j) (InputDeletedAt j) (DownloadedAt j))
    "completed" (SuccessCount j) (FailCount j) (Some actualCost) (Some manifestHash) (RetryCount j)
    (LastErrorCode j) (Version j + 1).

(** One more failed attempt of a settlement or of a clean-up. *)
Definition attempt_failed_row (code : string) (now : Time) (j : BatchImageJob) : BatchImageJob :=
  let t := touched_row now j in
  mkJob (spec j) (refs j) (times t) (Status j) (SuccessCount j) (FailCount j) (ActualCost j)
    (ManifestHash j) (RetryCount j + 1) (Some code) (Version j).

Definition counted_row (success fail : Z) (now : Time) (j : BatchImageJob) : BatchImageJob :=
  let t := touched_row now j in
  mkJob (spec j) (refs j) (times t) (Status j) success fail (ActualCost j) (ManifestHash j)
    (RetryCount j) (LastErrorCode j) (Version j).

Definition output_ref_row (ref : string) (now : Time) (j : BatchImageJob) : BatchImageJob :=
  with_refs (mkRefs (ProviderJobName j) (ProviderInputRef j) (Some ref) (GCSInputURI j)
               (GCSOutputURI j)) (touched_row now j).

Definition input_deleted_row (now : Time) (j : BatchImageJob) : BatchImageJob :=
  with_status (Status j) (LastErrorCode j) (Version j + 1)
    (with_times (mkTimes now (SubmittedAt j) (StartedAt j) (FinishedAt j) (SettledAt j)
       (OutputDeletedAt j) (OutputExpiresAt j) (UserDeletedAt j)
       (first_time (InputDeletedAt j) now) (DownloadedAt j)) j).

Definition output_deleted_row (now : Time) (j : BatchImageJob) : BatchImageJob :=
  let completed := String.eqb (Status j) "completed" in
  with_status (when completed "output_deleted" (Status j)) (LastErrorCode j) (Version j + 1)
    (with_times (mkTimes now (SubmittedAt j) (StartedAt j)
       (when completed (first_time (FinishedAt j) now) (FinishedAt j)) (SettledAt j)
       (first_time (OutputDeletedAt j) now) (OutputExpiresAt j) (UserDeletedAt j)
       (InputDeletedAt j) (DownloadedAt j)) j).

Definition downloaded_row (now : Time) (j : BatchImageJob) : BatchImageJob :=
  with_times (mkTimes now (SubmittedAt j) (StartedAt j) (FinishedAt j) (SettledAt j)
    (OutputDeletedAt j) (OutputExpiresAt j) (UserDeletedAt j) (InputDeletedAt j)
    (first_time (DownloadedAt j) now)) j.

Definition user_deleted_row (now : Time) (j : BatchImageJob) : BatchImageJob :=
  with_times (mkTimes now (SubmittedAt j) (StartedAt j) (FinishedAt j) (SettledAt j)
    (OutputDeletedAt j) (OutputExpiresAt j) (first_time (UserDeletedAt j) now) (InputDeletedAt j)
    (DownloadedAt j)) j.

Definition expiring_row (expiresAt now : Time) (j : BatchImageJob) : BatchImageJob :=
  with_times (mkTimes now (SubmittedAt j) (StartedAt j) (FinishedAt j) (SettledAt j)
    (OutputDeletedAt j) (first_time (OutputExpiresAt j) expiresAt) (UserDeletedAt j)
    (InputDeletedAt j) (DownloadedAt j)) j.

(** The row that [createBatchImageJobWithSQL] inserts for a new job. *)
Definition created_row (s : JobSpec) (now : Time) : BatchImageJob :=
  mkJob s (mkRefs None None None None None)
    (mkTimes now None None None None None None None None None)
    BatchImageJobStatusCreated 0 0 None None 0 None 0.

(** ** Operations of the repository *)

Definition update_job (batchID : string) (guard : BatchImageJob -> bool)
    (f : BatchImageJob -> BatchImageJob) (w : World) : option BatchImageJob * World :=
  match batch_image_jobs w !! batchID with
  | Some j => if guard j then (Some (f j), set_jobs (fun t => <[batchID := f j]> t) w) else (None, w)
  | None => (None, w)
  end.

Definition GetBatchImageJobByBatchID (batchID : string) : Prog BatchImageJob :=
  let! row := query (fun w => batch_image_jobs w !! batchID) in
  match row with Some j => tret j | None => tfail ErrBatchImageJobNotFound end.

(** The job that was created last with the key. *)
Definition GetBatchImageJobByIdempotencyKey (userID apiKeyID : Z) (key : string)
    : Prog BatchImageJob :=
  let! rows := query (fun w => stable_sort (fun x y : BatchImageJob => JobID y <? JobID x)
    (List.filter (fun j : BatchImageJob => (UserID j =? userID) && bool_decide (APIKeyID j = Some apiKeyID) &&
                           bool_decide (IdempotencyKey j = Some key))
       (map snd (map_to_list (batch_image_jobs w))))) in
  match rows with j :: _ => tret j | [] => tfail ErrBatchImageJobNotFound end.

Definition ownerRow (userID apiKeyID : Z) (batchID : string) (w : World) : option BatchImageJob :=
  match (batch_image_jobs w !! batchID : option BatchImageJob) with
  | Some j =>
      if (UserID j =? userID) && bool_decide (APIKeyID j = Some apiKeyID) &&
         match UserDeletedAt j with None => true | Some _ => false end
      then Some j else None
  | None => None
  end.

Definition GetBatchImageJobByBatchIDForOwner (userID apiKeyID : Z) (batchID : string)
    : Prog BatchImageJob :=
  let! row := query (ownerRow userID apiKeyID batchID) in
  match row with Some j => tret j | None => tfail ErrBatchImageJobNotFound end.

Definition appendBatchImageEventWithSQL (batchID eventType : string) : Prog unit :=
  stmt (fun w => (tt, add_event batchID eventType w)).

(** The same statement outside a transaction. *)
Definition AppendBatchImageEvent (batchID eventType : string) : Prog unit :=
  autocommit (fun w => (tt, add_event batchID eventType w)).

Definition transitionBatchImageJobStatusWithSQL (batchID toStatus : string)
    (errorCode : option string) (eventType : string) (now : Time) : Prog unit :=
  let! current := query (fun w => Status <$> batch_image_jobs w !! batchID) in
  match current with
  | None => tfail ErrBatchImageJobNotFound
  | Some current =>
      if negb (CanTransitionBatchImageJob current toStatus) then tfail ErrBatchImageInvalidTransition
      else
        let! _ := stmt (update_job batchID (fun _ => true) (transition_row toStatus now errorCode)) in
        if negb (String.eqb eventType "") then appendBatchImageEventWithSQL batchID eventType
        else tret tt
  end.

(** A transaction that always asks for the commit. *)
Definition in_tx {A} (body : Prog A) : Prog A := transaction (let! a := body in tret (true, a)).

Definition TransitionBatchImageJobStatus (batchID toStatus : string) (errorCode : option string)
    (eventType : string) (now : Time) : Prog unit :=
  in_tx (transitionBatchImageJobStatusWithSQL batchID toStatus errorCode eventType now).

Definition TouchBatchImageJobSubmitting (batchID : string) (now : Time) : Prog unit :=
  autocommit (fun w => (tt,
    (update_job batchID (fun j => String.eqb (Status j) "created" || String.eqb (Status j) "uploading")
       (touched_row now) w).2)).

(** Whether the row was failed, and the error if any: the event may fail after
the row has been committed. *)
Definition FailStaleUnsubmittedBatchImageJob (batchID : string) (cutoff : Time) (code : string)
    (now : Time) : Prog (bool * option goerr) :=
  let! r := ttry (autocommit (update_job batchID
    (fun j => (String.eqb (Status j) "created" || String.eqb (Status j) "uploading") &&
              (match ProviderJobName j with None => true | Some _ => false end) &&
              (UpdatedAt j <=? cutoff)) (stale_row code now))) in
  match r with
  | Err e => tret (false, Some e)
  | Ok None => tret (false, None)
  | Ok (Some _) =>
      let! r := ttry (AppendBatchImageEvent batchID "billing_hold_recovery_failed_unsubmitted") in
      tret (true, match r with Ok _ => None | Err e => Some e end)
  end.

Definition UpdateBatchImageJobProviderOutputRef (batchID ref : string) (now : Time) : Prog unit :=
  let! row := autocommit (update_job batchID (fun _ => true) (output_ref_row ref now)) in
  match row with None => tfail ErrBatchImageJobNotFound | Some _ => tret tt end.

Definition updateBatchImageJobProviderSubmitWithSQL (batchID providerJobName inputRef outputRef
    gcsInput gcsOutput : string) (now : Time) : Prog unit :=
  let! current := query (fun w => Status <$> batch_image_jobs w !! batchID) in
  match current with
  | None => tfail ErrBatchImageJobNotFound
  | Some current =>
      if negb (CanTransitionBatchImageJob current BatchImageJobStatusSubmitted)
      then tfail ErrBatchImageInvalidTransition
      else
        let! _ := stmt (update_job batchID (fun _ => true)
          (submitted_row providerJobName inputRef outputRef gcsInput gcsOutput now)) in
        appendBatchImageEventWithSQL batchID "provider_submitted"
  end.

Definition UpdateBatchImageJobProviderSubmit (batchID providerJobName inputRef outputRef
    gcsInput gcsOutput : string) (now : Time) : Prog unit :=
  in_tx (updateBatchImageJobProviderSubmitWithSQL batchID providerJobName inputRef outputRef
    gcsInput gcsOutput now).

Definition RecordBatchImageJobSubmitFailure (batchID code : string) (markFailed : bool)
    (now : Time) : Prog unit :=
  let! _ := autocommit (update_job batchID (fun _ => true) (submit_failed_row code markFailed now)) in
  AppendBatchImageEvent batchID (if negb markFailed then "queue_failed" else "submit_failed").

Definition markBatchImageJobSettledWithSQL (batchID : string) (actualCost : Amount)
    (manifestHash : string) (now : Time) (outputExpiresAt : option Time) : Prog unit :=
  let! row := stmt (update_job batchID
    (fun j => String.eqb (Status j) "settling" &&
              match ManifestHash j with
              | None => true
              | Some h => String.eqb h "" || String.eqb h manifestHash
              end) (settled_row actualCost manifestHash now outputExpiresAt)) in
  match row with
  | Some _ => appendBatchImageEventWithSQL batchID "settlement_completed"
  | None =>
      let! job := query (fun w => batch_image_jobs w !! batchID) in
      match job with
      | None => tfail ErrBatchImageJobNotFound
      | Some job =>
          if negb (String.eqb (Status job) BatchImageJobStatusSettling) then
            if String.eqb (Status job) BatchImageJobStatusCompleted
            then tfail ErrBatchImageAlreadySettled
            else tfail ErrBatchImageSettlementInvalidStatus
          else tfail ErrBatchImageSettlementManifestConflict
      end
  end.

Definition MarkBatchImageJobSettled (batchID : string) (actualCost : Amount)
    (manifestHash : string) (now : Time) (outputExpiresAt : option Time) : Prog unit :=
  in_tx (markBatchImageJobSettledWithSQL batchID actualCost manifestHash now outputExpiresAt).

Definition SetBatchImageJobSettlementFailed (batchID code : string) (now : Time) : Prog Z :=
  let! row := autocommit (update_job batchID (fun _ => true) (attempt_failed_row code now)) in
  match row with
  | None => tfail ErrBatchImageJobNotFound
  | Some j =>
      let! _ := AppendBatchImageEvent batchID "settlement_failed" in
      tret (RetryCount j)
  end.

(** *** Creation *)

Definition insert_job (s : JobSpec) (now : Time) (w : World) : option BatchImageJob * World :=
  match batch_image_jobs w !! BatchID s with
  | Some _ => (None, w)
  | None => (Some (created_row s now), set_jobs (fun t => <[BatchID s := created_row s now]> t) w)
  end.

(** For a given batch id and the status [created], as its caller passes them. *)
Definition CreateBatchImageJob (s : JobSpec) (now : Time) : Prog BatchImageJob :=
  if negb (IsSupportedBatchImageProvider (Provider s)) then tfail ErrBatchImageInvalidProvider
  else
    let! row := autocommit (insert_job s now) in
    match row with Some j => tret j | None => tfail ErrBatchImageJobExists end.

(** *** Items *)

Definition items_of (batchID : string) (w : World) : list BatchImageItem :=
  default [] (batch_image_items w !! batchID).

Definition insert_item (batchID : string) (item : BatchImageItem) (w : World) : bool * World :=
  if existsb (fun i => String.eqb (CustomID i) (CustomID item)) (items_of batchID w) then (false, w)
  else (true, set_items (fun t => <[batchID := (items_of batchID w ++ [item])%list]> t) w).

Definition CreateBatchImageItem (batchID : string) (item : BatchImageItem) : Prog unit :=
  let! inserted := autocommit (insert_item batchID item) in
  if negb inserted then tfail ErrBatchImageItemExists else tret tt.

Fixpoint createBatchImageItems (batchID : string) (items : list BatchImageItem) : Prog unit :=
  match items with
  | [] => tret tt
  | item :: items =>
      let! inserted := stmt (insert_item batchID item) in
      if negb inserted then tfail ErrBatchImageItemExists else createBatchImageItems batchID items
  end.

Definition BulkCreateBatchImageItems (batchID : string) (items : list BatchImageItem) : Prog unit :=
  match items with
  | [] => tret tt
  | _ => in_tx (createBatchImageItems batchID items)
  end.

Definition replaceBatchImageItemsForJobWithSQL (batchID : string) (items : list BatchImageItem)
    (success fail : Z) (now : Time) : Prog unit :=
  let! status := query (fun w => Status <$> batch_image_jobs w !! batchID) in
  match status with
  | None => tfail ErrBatchImageJobNotFound
  | Some status =>
      if negb (String.eqb status BatchImageJobStatusIndexing) then tfail ErrBatchImageIndexStateConflict
      else
        let! _ := query (items_of batchID) in
        let! _ := stmt (fun w => (tt, set_items (fun t => delete batchID t) w)) in
        let! _ := createBatchImageItems batchID items in
        let! _ := stmt (update_job batchID (fun _ => true) (counted_row success fail now)) in tret tt
  end.

Definition ReplaceBatchImageItemsForJob (batchID : string) (items : list BatchImageItem)
    (success fail : Z) (now : Time) : Prog unit :=
  in_tx (replaceBatchImageItemsForJobWithSQL batchID items success fail now).

(** The rows in the order of their ids, without the filter by status. *)
Definition ListBatchImageItems (batchID : string) (Limit Offset : Z) : Prog (list BatchImageItem) :=
  let limit := if (Limit <=? 0) || (500 <? Limit) then 100 else Limit in
  let offset := if Offset <? 0 then 0 else Offset in
  query (fun w => take (Z.to_nat limit) (drop (Z.to_nat offset) (items_of batchID w))).

(** *** After the end of a job *)

(** A guarded update outside a transaction, an error if it finds no row, and an
event. *)
Definition mark (batchID : string) (guard : BatchImageJob -> bool)
    (f : BatchImageJob -> BatchImageJob) (missing : goerr) (event : string) : Prog unit :=
  let! row := autocommit (update_job batchID guard f) in
  match row with
  | None => tfail missing
  | Some _ => AppendBatchImageEvent batchID event
  end.

Definition MarkBatchImageInputDeleted (batchID : string) (deletedAt : Time) : Prog unit :=
  mark batchID (fun _ => true) (input_deleted_row deletedAt) ErrBatchImageJobNotFound
    "input_cleanup_completed".

Definition MarkBatchImageOutputDeleted (batchID : string) (deletedAt : Time) : Prog unit :=
  mark batchID (fun _ => true) (output_deleted_row deletedAt) ErrBatchImageJobNotFound
    "output_cleanup_completed".

Definition MarkBatchImageDownloaded (batchID : string) (downloadedAt : Time) : Prog unit :=
  mark batchID (fun _ => true) (downloaded_row downloadedAt) ErrBatchImageJobNotFound
    "download_completed".

Definition MarkBatchImageJobUserDeleted (userID apiKeyID : Z) (batchID : string) (deletedAt : Time)
    : Prog unit :=
  mark batchID (fun j => (UserID j =? userID) && bool_decide (APIKeyID j = Some apiKeyID) &&
                         (match UserDeletedAt j with None => true | Some _ => false end) &&
                         IsTerminalBatchImageJobStatus (Status j))
    (user_deleted_row deletedAt) ErrBatchImageRecordDeleteNotReady "user_record_deleted".

Definition SetBatchImageOutputExpiresAt (batchID : string) (expiresAt now : Time) : Prog unit :=
  let! row := autocommit (update_job batchID (fun _ => true) (expiring_row expiresAt now)) in
  match row with None => tfail ErrBatchImageJobNotFound | Some _ => tret tt end.

Definition RecordBatchImageCleanupFailure (batchID code : string) (now : Time) : Prog unit :=
  let! _ := autocommit (update_job batchID (fun _ => true) (attempt_failed_row code now)) in
  AppendBatchImageEvent batchID "output_cleanup_failed".

(** *** Lists of jobs *)

Definition page_limit (limit : Z) : nat :=
  Z.to_nat (if (limit <=? 0) || (1000 <? limit) then 100 else limit).

(** The jobs that satisfy a condition, in the order of a time and then of the
id. *)
Definition jobs_where (p : BatchImageJob -> bool) (order : BatchImageJob -> Time) (w : World)
    : list BatchImageJob :=
  stable_sort (fun x y => (order x <? order y) || (order x =? order y) && (JobID x <? JobID y))
    (List.filter p (map snd (map_to_list (batch_image_jobs w)))).

Definition isSomeb {A} (o : option A) : bool := match o with Some _ => true | None => false end.

Definition ListStaleUnsubmittedBatchImageJobs (cutoff : Time) (limit : Z)
    : Prog (list BatchImageJob) :=
  query (fun w => take (page_limit limit)
    (jobs_where (fun j => (String.eqb (Status j) "created" || String.eqb (Status j) "uploading") &&
       negb (isSomeb (ProviderJobName j)) && (0 <? default (EstimatedCost j) (HoldAmount j)) &&
       (UpdatedAt j <=? cutoff)) UpdatedAt w)).

Definition ended_at (j : BatchImageJob) : Time :=
  match FinishedAt j with Some t => t | None => default (UpdatedAt j) (SettledAt j) end.

Definition ListBatchImageJobsDueForInputCleanup (cutoff : Time) (limit : Z)
    : Prog (list BatchImageJob) :=
  query (fun w => take (page_limit limit)
    (jobs_where (fun j => negb (isSomeb (InputDeletedAt j)) && isSomeb (ProviderInputRef j) &&
       IsTerminalBatchImageJobStatus (Status j) && (ended_at j <=? cutoff)) (fun _ => 0) w)).

Definition ListBatchImageJobsDueForOutputCleanup (now : Time) (limit : Z)
    : Prog (list BatchImageJob) :=
  query (fun w => take (page_limit limit)
    (jobs_where (fun j => negb (isSomeb (OutputDeletedAt j)) && isSomeb (ProviderOutputRef j) &&
       String.eqb (Status j) "completed" &&
       match OutputExpiresAt j with Some t => t <=? now | None => false end)
       (fun j => default 0 (OutputExpiresAt j)) w)).
