(* ===== verification/BatchJobLife.v ===== *)
(** * The life of a batch image job

The operations of [BatchJobs] as the steps of a history, how each may move a
job, and what follows for every history. *)
From S2P Require Import Prelude GoText GoTime SubscriptionWindow Wallets BillingStore BatchJobs.
From Stdlib Require Import Bool.

Local Open Scope string_scope.
Local Open Scope Z_scope.

(** ** The life of a job *)

Inductive job_op : Type :=
  | OpCreate (s : JobSpec) (now : Time)
  | OpTransition (batchID toStatus : string) (errorCode : option string) (eventType : string) (now : Time)
  | OpTouch (batchID : string) (now : Time)
  | OpFailStale (batchID : string) (cutoff : Time) (code : string) (now : Time)
  | OpOutputRef (batchID ref : string) (now : Time)
  | OpSubmitted (batchID providerJobName inputRef outputRef gcsInput gcsOutput : string) (now : Time)
  | OpSubmitFailure (batchID code : string) (markFailed : bool) (now : Time)
  | OpSettled (batchID : string) (actualCost : Amount) (manifestHash : string) (now : Time)
      (outputExpiresAt : option Time)
  | OpSettlementFailed (batchID code : string) (now : Time)
  | OpCreateItem (batchID : string) (item : BatchImageItem)
  | OpCreateItems (batchID : string) (items : list BatchImageItem)
  | OpReplaceItems (batchID : string) (items : list BatchImageItem) (success fail : Z) (now : Time)
  | OpInputDeleted (batchID : string) (now : Time)
  | OpOutputDeleted (batchID : string) (now : Time)
  | OpDownloaded (batchID : string) (now : Time)
  | OpUserDeleted (userID apiKeyID : Z) (batchID : string) (now : Time)
  | OpExpires (batchID : string) (expiresAt now : Time)
  | OpCleanupFailed (batchID code : string) (now : Time)
  | OpEvent (batchID eventType : string).

Definition ignore {A} (m : Prog A) : Prog unit := let! _ := m in tret tt.

Definition run_job_op (o : job_op) : Prog unit :=
  match o with
  | OpCreate s now => ignore (CreateBatchImageJob s now)
  | OpTransition b s c e now => TransitionBatchImageJobStatus b s c e now
  | OpTouch b now => TouchBatchImageJobSubmitting b now
  | OpFailStale b cutoff c now => ignore (FailStaleUnsubmittedBatchImageJob b cutoff c now)
  | OpOutputRef b r now => UpdateBatchImageJobProviderOutputRef b r now
  | OpSubmitted b n i o gi go now => UpdateBatchImageJobProviderSubmit b n i o gi go now
  | OpSubmitFailure b c m now => RecordBatchImageJobSubmitFailure b c m now
  | OpSettled b a h now ex => MarkBatchImageJobSettled b a h now ex
  | OpSettlementFailed b c now => ignore (SetBatchImageJobSettlementFailed b c now)
  | OpCreateItem b item => CreateBatchImageItem b item
  | OpCreateItems b items => BulkCreateBatchImageItems b items
  | OpReplaceItems b items s f now => ReplaceBatchImageItemsForJob b items s f now
  | OpInputDeleted b now => MarkBatchImageInputDeleted b now
  | OpOutputDeleted b now => MarkBatchImageOutputDeleted b now
  | OpDownloaded b now => MarkBatchImageDownloaded b now
  | OpUserDeleted u k b now => MarkBatchImageJobUserDeleted u k b now
  | OpExpires b ex now => SetBatchImageOutputExpiresAt b ex now
  | OpCleanupFailed b c now => RecordBatchImageCleanupFailure b c now
  | OpEvent b e => AppendBatchImageEvent b e
  end.

Definition is_set {A} (o : option A) : Prop := o <> None.

(** The timestamps that a status implies. *)
Definition job_wf (j : BatchImageJob) : Prop :=
  (Status j ∈ [BatchImageJobStatusCompleted; BatchImageJobStatusFailed; BatchImageJobStatusCancelled] ->
     is_set (FinishedAt j)) /\
  (Status j = BatchImageJobStatusCompleted -> is_set (SettledAt j)) /\
  (Status j = BatchImageJobStatusRunning -> is_set (StartedAt j)) /\
  (Status j ∈ [BatchImageJobStatusSubmitted; BatchImageJobStatusRunning; BatchImageJobStatusIndexing;
               BatchImageJobStatusSettling; BatchImageJobStatusCompleted] -> is_set (SubmittedAt j)).

Definition marks_failed (o : job_op) : bool :=
  match o with OpSubmitFailure _ _ m _ => m | _ => false end.

(** The cost is written by the settlement only, which also completes the job. *)
Definition cost_moved (o : job_op) (b : string) (j j' : BatchImageJob) : Prop :=
  (ActualCost j' = ActualCost j /\ ManifestHash j' = ManifestHash j /\
   (Status j' = BatchImageJobStatusCompleted -> Status j = BatchImageJobStatusCompleted \/
      exists c e now, o = OpTransition b BatchImageJobStatusCompleted c e now)) \/
  exists a h now ex, o = OpSettled b a h now ex /\ ActualCost j' = Some a /\ ManifestHash j' = Some h.

(** How one operation may change a job. *)
Definition moved (o : job_op) (b : string) (j j' : BatchImageJob) : Prop :=
  spec j' = spec j /\ RetryCount j <= RetryCount j' /\ Version j <= Version j' /\
  (Status j' = Status j \/ CanTransitionBatchImageJob (Status j) (Status j') = true \/
   marks_failed o = true /\ Status j' = BatchImageJobStatusFailed) /\
  cost_moved o b j j' /\ (job_wf j -> job_wf j').

Definition row_moved (o : job_op) (b : string) (r r' : option BatchImageJob) : Prop :=
  match r, r' with
  | Some j, Some j' => moved o b j j'
  | Some _, None => False
  | None, Some j' => exists s now, o = OpCreate s now /\ b = BatchID s /\ j' = created_row s now
  | None, None => True
  end.

Definition jobs_moved (o : job_op) (w w' : World) : Prop :=
  w_db w' = w_db w /\
  forall b, row_moved o b (batch_image_jobs w !! b) (batch_image_jobs w' !! b).

Lemma moved_refl o b j : moved o b j j.
Proof. split_and!; [done|lia|lia|by left|left; auto|done]. Qed.

Lemma row_moved_refl o b r : row_moved o b r r.
Proof. destruct r; [apply moved_refl|done]. Qed.

Lemma jobs_moved_refl o w : jobs_moved o w w.
Proof. split; [done|]. intros b. apply row_moved_refl. Qed.

Lemma jobs_moved_event o w w' b e : jobs_moved o w w' -> jobs_moved o w (add_event b e w').
Proof. intros H. exact H. Qed.

Lemma jobs_moved_items o w w' f : jobs_moved o w w' -> jobs_moved o w (set_items f w').
Proof. intros H. exact H. Qed.

Lemma jobs_moved_update o w batchID guard f w1 :
  w_db w1 = w_db w -> batch_image_jobs w1 = batch_image_jobs w ->
  (forall j, batch_image_jobs w !! batchID = Some j -> guard j = true -> moved o batchID j (f j)) ->
  jobs_moved o w (update_job batchID guard f w1).2.
Proof.
  intros Hdb Hjobs Hf. unfold update_job. rewrite Hjobs.
  assert (Hrefl : jobs_moved o w w1).
  { split; [done|]. intros b. rewrite Hjobs. apply row_moved_refl. }
  destruct (batch_image_jobs w !! batchID) as [j0|] eqn:E0; [|done].
  destruct (guard j0) eqn:Eg; [|done].
  split; [done|]. intros b. cbn. rewrite Hjobs. destruct (decide (batchID = b)) as [<-|Hne].
  - rewrite lookup_insert_eq, E0. cbn. auto.
  - rewrite lookup_insert_ne by done. apply row_moved_refl.
Qed.

Lemma first_time_set o now : is_set (first_time o now).
Proof. by destruct o. Qed.

Lemma first_time_keeps o now : is_set o -> is_set (first_time o now).
Proof. by destruct o. Qed.

#[local] Hint Resolve first_time_set first_time_keeps : core.

Ltac by_elem :=
  repeat match goal with
    | H : _ ∈ _ :: _ |- _ => apply elem_of_cons in H as [H|H]
    | H : _ ∈ [] |- _ => by apply elem_of_nil in H
    end.

(** Which statuses lead to a status. *)
Lemma reaches_later from to :
  CanTransitionBatchImageJob from to = true ->
  to ∈ [BatchImageJobStatusRunning; BatchImageJobStatusIndexing;
        BatchImageJobStatusSettling; BatchImageJobStatusCompleted] ->
  from ∈ [BatchImageJobStatusSubmitted; BatchImageJobStatusRunning; BatchImageJobStatusIndexing;
          BatchImageJobStatusSettling].
Proof.
  intros Hcan Hto. unfold CanTransitionBatchImageJob in Hcan.
  destruct (String.eqb from "" || String.eqb to ""); [done|].
  destruct (IsTerminalBatchImageJobStatus from).
  { bool_prop. by_elem; subst; done. }
  destruct (String.eqb_spec to BatchImageJobStatusFailed) as [Heq|Hnf]; [by_elem; subst; done|].
  unfold allowed in Hcan. cbn [find fst] in Hcan.
  repeat match goal with
    | H : context [String.eqb ?a from] |- _ =>
        destruct (String.eqb_spec a from) as [<-|]; [by_elem; subst; (set_solver || done)|]
    end.
  done.
Qed.

Lemma transition_moved b s c e now j :
  CanTransitionBatchImageJob (Status j) s = true ->
  moved (OpTransition b s c e now) b j (transition_row s now c j).
Proof.
  intros Hcan. split_and!; [done|cbn; lia|cbn; lia|by right; left| |].
  { left. split_and!; [done|done|]. cbn. intros ->. right. by exists c, e, now. }
  intros (Hfin & Hset & Hst & Hsub). unfold job_wf, transition_row, when. cbn. split_and!.
  - intros Hs. by_elem; subst s; cbn; auto.
  - intros ->. cbn. auto.
  - intros ->. cbn. auto.
  - intros Hs. destruct (String.eqb_spec s "submitted") as [->|Hne]; [auto|].
    apply Hsub. assert (Hlater : s ∈ [BatchImageJobStatusRunning; BatchImageJobStatusIndexing;
      BatchImageJobStatusSettling; BatchImageJobStatusCompleted]).
    { apply elem_of_cons in Hs as [->|Hs]; done. }
    pose proof (reaches_later _ _ Hcan Hlater). set_solver.
Qed.

(** An update that keeps the status, the cost and the timestamps of the life. *)
Lemma kept_moved o b j j' :
  spec j' = spec j -> RetryCount j <= RetryCount j' -> Version j <= Version j' ->
  Status j' = Status j -> ActualCost j' = ActualCost j -> ManifestHash j' = ManifestHash j ->
  SubmittedAt j' = SubmittedAt j -> StartedAt j' = StartedAt j ->
  FinishedAt j' = FinishedAt j -> SettledAt j' = SettledAt j -> moved o b j j'.
Proof.
  intros Hs Hr Hv Hst Ha Hm H1 H2 H3 H4. split_and!; [done|done|done|by left|left; rewrite Hst; auto|].
  unfold job_wf. by rewrite Hst, H1, H2, H3, H4.
Qed.

Ltac kept := intros; apply kept_moved; cbn; first [done|lia].

Lemma failed_wf j : Status j = "failed" -> is_set (FinishedAt j) -> job_wf j.
Proof.
  intros Hs Hf. unfold job_wf. rewrite Hs. split_and!; [done|done|done|].
  intros Hin. by_elem; done.
Qed.

(** The rules for the programs of the repository. *)
Definition moves_jobs {A} (o : job_op) (w : World) (m : Prog A) (w1 : World) : Prop :=
  wp m (fun _ w' => jobs_moved o w w') w1.

Lemma tx_moved o w (body : Prog unit) :
  wp body (ensures (fun _ w' => jobs_moved o w w')) w -> moves_jobs o w (in_tx body) w.
Proof.
  intros Hb. unfold moves_jobs, in_tx. pose proof (jobs_moved_refl o w).
  apply (wp_transaction _ _ (fun _ w' => jobs_moved o w w')); auto.
  eapply ensures_bind; [exact Hb|]. intros a w' Hw. by tx_step.
Qed.

Lemma event_moved o w b e w' : jobs_moved o w w' -> moves_jobs o w (AppendBatchImageEvent b e) w'.
Proof. intros Hw. by apply wp_autocommit. Qed.

Lemma update_moved o w {A} b guard f (k : option BatchImageJob -> Prog A) :
  (forall j, batch_image_jobs w !! b = Some j -> guard j = true -> moved o b j (f j)) ->
  (forall r w', jobs_moved o w w' -> moves_jobs o w (k r) w') ->
  moves_jobs o w (let! row := autocommit (update_job b guard f) in k row) w.
Proof.
  intros Hf Hk. pose proof (jobs_moved_refl o w).
  pose proof (jobs_moved_update o w b guard f w eq_refl eq_refl Hf).
  apply wp_bind, wp_autocommit; auto. by apply Hk.
Qed.

Lemma mark_moved o w b guard f missing e :
  (forall j, batch_image_jobs w !! b = Some j -> guard j = true -> moved o b j (f j)) ->
  moves_jobs o w (mark b guard f missing e) w.
Proof.
  intros Hf. apply update_moved; [done|]. intros [j|] w' Hw; [by apply event_moved|by apply wp_fail].
Qed.

Lemma status_query_moved o w b (k : string -> Prog unit) :
  (forall j, batch_image_jobs w !! b = Some j ->
     wp (k (Status j)) (ensures (fun _ w' => jobs_moved o w w')) w) ->
  moves_jobs o w (in_tx (let! current := query (fun w => Status <$> batch_image_jobs w !! b) in
                         match current with
                         | None => tfail ErrBatchImageJobNotFound
                         | Some current => k current
                         end)) w.
Proof.
  intros Hk. apply tx_moved. tx_step.
  destruct (batch_image_jobs w !! b) as [j|]; cbn [fmap option_fmap option_map]; [|tx_step]. by apply Hk.
Qed.

Lemma create_op_moved s now w :
  moves_jobs (OpCreate s now) w (ignore (CreateBatchImageJob s now)) w.
Proof.
  pose proof (jobs_moved_refl (OpCreate s now) w) as Hrefl.
  assert (Hm : jobs_moved (OpCreate s now) w (insert_job s now w).2).
  { unfold insert_job. destruct (batch_image_jobs w !! BatchID s) eqn:E; [done|].
    split; [done|]. intros b. cbn. destruct (decide (BatchID s = b)) as [<-|Hne].
    - rewrite lookup_insert_eq, E. by exists s, now.
    - rewrite lookup_insert_ne by done. apply row_moved_refl. }
  unfold ignore, CreateBatchImageJob. apply wp_bind. case_match; [by apply wp_fail|].
  apply wp_bind, wp_autocommit; [done|done|].
  destruct (insert_job s now w) as [[j|] w1]; cbn [fst snd] in *;
    [apply wp_ret; by apply wp_ret|by apply wp_fail].
Qed.

Lemma transition_op_moved b s c e now w :
  moves_jobs (OpTransition b s c e now) w (TransitionBatchImageJobStatus b s c e now) w.
Proof.
  apply status_query_moved. intros j Ej.
  destruct (CanTransitionBatchImageJob (Status j) s) eqn:Ec; cbn [negb]; [|tx_step]. tx_step.
  assert (Hm : jobs_moved (OpTransition b s c e now) w
    (update_job b (fun _ => true) (transition_row s now c) w).2).
  { apply jobs_moved_update; [done..|]. intros j' Hj' _. simplify_eq. by apply transition_moved. }
  destruct (negb (String.eqb e "")); [unfold appendBatchImageEventWithSQL|]; tx_step; exact Hm.
Qed.

Lemma submitted_op_moved b n i ou gi go now w :
  moves_jobs (OpSubmitted b n i ou gi go now) w (UpdateBatchImageJobProviderSubmit b n i ou gi go now) w.
Proof.
  apply status_query_moved. intros j Ej.
  destruct (CanTransitionBatchImageJob (Status j) BatchImageJobStatusSubmitted) eqn:Ec; cbn [negb]; [|tx_step].
  tx_step. unfold appendBatchImageEventWithSQL. tx_step. apply jobs_moved_event, jobs_moved_update; [done..|].
  intros j' Hj' _. simplify_eq. split_and!; [done|done|cbn; lia|by right; left|by left; split_and!|].
  intros _. unfold job_wf. cbn. split_and!; [intros Hin; by_elem; done|done|done|auto].
Qed.

(** The rows of items do not matter for the jobs; their custom ids are new. *)
Lemma createItems_spec b items w :
  wp (createBatchImageItems b items)
    (ensures (fun _ w' => w_db w' = w_db w /\ batch_image_jobs w' = batch_image_jobs w /\
       items_of b w' = (items_of b w ++ items)%list)) w.
Proof.
  revert w. induction items as [|item items IH]; intros w; cbn [createBatchImageItems].
  { tx_step. by rewrite app_nil_r. }
  tx_step. unfold insert_item. destruct (existsb _ _); cbn [fst snd negb]; [tx_step|].
  eapply ensures_mono; [apply IH|]. intros _ w' (-> & -> & ->). split_and!; [done|done|].
  unfold items_of at 1. cbn. rewrite lookup_insert_eq. cbn. by rewrite <- app_assoc.
Qed.

Lemma create_item_op_moved b item w :
  moves_jobs (OpCreateItem b item) w (CreateBatchImageItem b item) w.
Proof.
  pose proof (jobs_moved_refl (OpCreateItem b item) w) as Hrefl.
  apply wp_bind, wp_autocommit; unfold insert_item; repeat case_match; cbn [fst snd negb]; intros;
    first [done | by apply wp_fail | by apply wp_ret].
Qed.

Lemma create_items_op_moved b items w :
  moves_jobs (OpCreateItems b items) w (BulkCreateBatchImageItems b items) w.
Proof.
  unfold BulkCreateBatchImageItems. destruct items as [|item items];
    [apply wp_ret, jobs_moved_refl|].
  apply tx_moved. eapply ensures_mono; [apply createItems_spec|]. intros _ w' (Hdb & Hj & _).
  split; [done|]. intros b'. rewrite Hj. apply row_moved_refl.
Qed.

Lemma items_op_moved b items s f now w :
  moves_jobs (OpReplaceItems b items s f now) w (ReplaceBatchImageItemsForJob b items s f now) w.
Proof.
  apply status_query_moved. intros j Ej. case_match; [tx_step|]. tx_step. tx_step.
  eapply ensures_bind; [apply createItems_spec|]. intros _ w1 (Hdb & Hj & _). cbn in Hdb, Hj. tx_step. tx_step.
  apply jobs_moved_update; [done..|]. kept.
Qed.

Lemma stale_op_moved b cutoff c now w :
  moves_jobs (OpFailStale b cutoff c now) w (FailStaleUnsubmittedBatchImageJob b cutoff c now) w.
Proof.
  pose proof (jobs_moved_refl (OpFailStale b cutoff c now) w) as Hrefl.
  unfold FailStaleUnsubmittedBatchImageJob. set (guard := fun j : BatchImageJob => _).
  assert (Hm : jobs_moved (OpFailStale b cutoff c now) w (update_job b guard (stale_row c now) w).2).
  { apply jobs_moved_update; [done..|]. intros j _ Hg. apply andb_true_iff in Hg as [Hg _].
    apply andb_true_iff in Hg as [Hg _].
    split_and!; [done|done|cbn; lia| |by left; split_and!|intros _; apply failed_wf; [done|apply first_time_set]].
    right; left. apply orb_true_iff in Hg as [Hg|Hg]; apply String.eqb_eq in Hg; by rewrite Hg. }
  apply wp_bind, wp_try, wp_autocommit; [intros e; by apply wp_ret..|].
  destruct (update_job b guard _ w) as [[j|] w1]; cbn [fst snd] in *; [|by apply wp_ret].
  apply wp_bind, wp_try. eapply wp_mono; [by apply event_moved|]. intros r w2 Hw2. by apply wp_ret.
Qed.

Lemma submit_failure_op_moved b c m now w :
  moves_jobs (OpSubmitFailure b c m now) w (RecordBatchImageJobSubmitFailure b c m now) w.
Proof.
  apply update_moved; [|intros r w' Hw; by apply event_moved]. intros j _ _. destruct m.
  - split_and!; [done|done|cbn; lia|by right; right|by left; split_and!|]. intros _. apply failed_wf; [done|]. cbn. auto.
  - split_and!; [done|done|cbn; lia|by left|left; auto|]. intros (Hfin & Hset & Hst & Hsub).
    unfold job_wf, submit_failed_row, when. cbn. split_and!; [|done|done|done].
    intros Hin. destruct (String.eqb (Status j) "failed"); auto.
Qed.

Lemma settled_op_moved b a h now ex w :
  moves_jobs (OpSettled b a h now ex) w (MarkBatchImageJobSettled b a h now ex) w.
Proof.
  apply tx_moved. unfold markBatchImageJobSettledWithSQL. tx_step.
  match goal with |- context [update_job b ?g _ w] => set (guard := g) end.
  assert (Hm : jobs_moved (OpSettled b a h now ex) w (update_job b guard (settled_row a h now ex) w).2).
  { apply jobs_moved_update; [done..|]. intros j _ Hg. apply andb_true_iff in Hg as [Hg%String.eqb_eq _].
    split_and!; [done|done|cbn; lia|right; left; by rewrite Hg| |].
    - right. by exists a, h, now, ex.
    - intros (_ & _ & _ & Hsub). unfold job_wf, settled_row. cbn. split_and!; [auto|auto|done|].
      intros _. apply Hsub. rewrite Hg. set_solver. }
  destruct (update_job b guard _ w) as [[j|] w1]; cbn [fst snd] in *.
  - unfold appendBatchImageEventWithSQL. tx_step. by apply jobs_moved_event.
  - tx_step. destruct (batch_image_jobs w1 !! b); repeat case_match; tx_step.
Qed.

Lemma settlement_failed_op_moved b c now w :
  moves_jobs (OpSettlementFailed b c now) w (SetBatchImageJobSettlementFailed b c now) w.
Proof.
  apply update_moved; [kept|].
  intros [j|] w' Hw; [|by apply wp_fail]. apply wp_bind.
  eapply wp_mono; [by apply event_moved|]. intros [u|e] w2 Hw2; [by apply wp_ret|done].
Qed.

Lemma output_deleted_moved o b now j : moved o b j (output_deleted_row now j).
Proof.
  unfold output_deleted_row, when. destruct (String.eqb_spec (Status j) "completed") as [Hc|Hne].
  - split_and!; [done|cbn; lia|cbn; lia|right; left; by rewrite Hc|by left; split_and!|].
    intros _. unfold job_wf. cbn. split_and!; [intros Hin; by_elem; done|done|done|intros Hin; by_elem; done].
  - kept.
Qed.

Lemma job_op_moved o w : wp (run_job_op o) (fun _ w' => jobs_moved o w w') w.
Proof.
  assert (Hignore : forall A (m : Prog A), moves_jobs o w m w -> moves_jobs o w (ignore m) w).
  { intros A m Hm. apply wp_bind. eapply wp_mono; [exact Hm|].
    intros [a|e] w' Hw; [by apply wp_ret|done]. }
  destruct o; cbn [run_job_op].
  - apply create_op_moved.
  - apply transition_op_moved.
  - apply wp_autocommit; cbn [fst snd]; intros;
      first [apply jobs_moved_refl | apply jobs_moved_update; [done..|]; kept].
  - apply Hignore, stale_op_moved.
  - apply update_moved; [kept|]. intros [j|] w' Hw; [by apply wp_ret|by apply wp_fail].
  - apply submitted_op_moved.
  - apply submit_failure_op_moved.
  - apply settled_op_moved.
  - apply Hignore, settlement_failed_op_moved.
  - apply create_item_op_moved.
  - apply create_items_op_moved.
  - apply items_op_moved.
  - apply mark_moved; kept.
  - apply mark_moved. intros. apply output_deleted_moved.
  - apply mark_moved; kept.
  - apply mark_moved; kept.
  - apply update_moved; [kept|]. intros [j|] w' Hw; [by apply wp_ret|by apply wp_fail].
  - apply update_moved; [kept|]. intros r w' Hw. by apply event_moved.
  - apply event_moved, jobs_moved_refl.
Qed.

(** Operations one after the other, with the faults they meet. *)
Fixpoint run_jobs (h : list (job_op * faults)) (w : World) : World :=
  match h with
  | [] => w
  | (o, fs) :: h => run_jobs h (run_job_op o w fs).1.2
  end.

Lemma terminal_move from to :
  IsTerminalBatchImageJobStatus from = true -> CanTransitionBatchImageJob from to = true ->
  to = BatchImageJobStatusOutputDeleted.
Proof.
  intros Ht. unfold CanTransitionBatchImageJob. rewrite Ht. case_match; [done|].
  intros Hc. bool_prop. done.
Qed.

(** C30. The life of a job.  In every history of operations on the job table, with
any failures and lost answers, no job disappears and what it was created with
never changes; its version and its count of failed attempts never decrease; the
timestamps that its status implies are set; and a job that has ended does not
come back: it stays as it is, or its output is deleted, or, by the record of a
failed submission, it is failed.  Nothing of this touches the billing tables. *)
Theorem job_lifecycle h w b j :
  batch_image_jobs w !! b = Some j ->
  w_db (run_jobs h w) = w_db w /\
  exists j', batch_image_jobs (run_jobs h w) !! b = Some j' /\
    spec j' = spec j /\ Version j <= Version j' /\ RetryCount j <= RetryCount j' /\
    (job_wf j -> job_wf j') /\
    (IsTerminalBatchImageJobStatus (Status j) = true ->
     Status j' = Status j \/ Status j' = BatchImageJobStatusOutputDeleted \/
     Status j' = BatchImageJobStatusFailed /\ exists o fs, (o, fs) ∈ h /\ marks_failed o = true).
Proof.
  revert w j. induction h as [|[o fs] h IH]; intros w j Hj; cbn [run_jobs].
  { split; [done|]. exists j. split_and!; [done|done|lia|lia|done|by left]. }
  pose proof (job_op_moved o w fs) as Hm. destruct (run_job_op o w fs) as [[r w1] fs1].
  cbn [fst snd]. destruct Hm as [Hdb Hm]. specialize (Hm b). rewrite Hj in Hm.
  destruct (batch_image_jobs w1 !! b) as [j1|] eqn:Hj1; [|done].
  destruct Hm as (Hs1 & Hr1 & Hv1 & Hst1 & _ & Hwf1).
  destruct (IH w1 j1 Hj1) as (Hdb2 & j2 & Hj2 & Hs2 & Hv2 & Hr2 & Hwf2 & Hst2).
  split; [by rewrite Hdb2|]. exists j2. split_and!; [done|by rewrite Hs2|lia|lia|auto|].
  intros Ht.
  assert (Hlater : (Status j2 = BatchImageJobStatusFailed /\
      exists o fs, (o, fs) ∈ h /\ marks_failed o = true) ->
    Status j2 = BatchImageJobStatusFailed /\
      exists o0 fs0, (o0, fs0) ∈ (o, fs) :: h /\ marks_failed o0 = true).
  { intros (? & o' & fs' & ? & ?). split; [done|]. exists o', fs'. split; [by right|done]. }
  destruct Hst1 as [Heq|[Hcan|[Hmark Hfail]]].
  - rewrite <- Heq in Ht |- *. destruct (Hst2 Ht) as [?|[?|?]]; auto.
  - apply (terminal_move _ _ Ht) in Hcan. rewrite Hcan in Hst2. destruct Hst2 as [?|[?|?]]; auto.
  - rewrite Hfail in Hst2. destruct Hst2 as [Heq|[?|?]]; auto.
    right; right. split; [done|]. exists o, fs. split; [by left|done].
Qed.

(** ** Examples *)

Definition ex_spec : JobSpec :=
  mkSpec 1 "b1" 7 (Some 70) (Some 500) "vertex" "imagen" "t" None 4 (2 * 10000000000) None
    5000000000 1 None (Some "h").

Definition ex_times : JobTimes :=
  mkTimes 100 (Some 20) (Some 30) None None None None None None None.

Definition ex_job (status : string) (retry : Z) : BatchImageJob :=
  mkJob ex_spec (mkRefs (Some "projects/p/jobs/1") None (Some "gs://out") None None)
    ex_times status 2 0 None None retry None 5.

Definition ex_world (status : string) (retry : Z) (db : DB) : World :=
  mkWorld db {["b1" := ex_job status retry]} ∅ [] [].

Definition ex_job_history : list (job_op * faults) :=
  [(OpTransition "b1" "settling" None "indexing_completed" 110, []);
   (OpSettled "b1" 10000000000 "m" 120 None, [None; None; None; Some (AnswerLost "eof")]);
   (OpTransition "b1" "cancelled" None "job_cancelled" 130, []);
   (OpSettlementFailed "b1" "SETTLEMENT_BILLING_FAILED" 140, [])].

Example jobs_ex_run :
  (fun j => (Status j, RetryCount j, Version j, ActualCost j)) <$>
    batch_image_jobs (run_jobs ex_job_history (ex_world "indexing" 0 (mkDB ∅ ∅ ∅ ∅ ∅ ∅ ∅))) !! "b1" =
  Some ("completed", 1, 7, Some 10000000000).
Proof. by vm_compute. Qed.

Lemma job_lifecycle_witness :
  exists j', batch_image_jobs (run_jobs ex_job_history (ex_world "indexing" 0 (mkDB ∅ ∅ ∅ ∅ ∅ ∅ ∅))) !! "b1" =
    Some j' /\ job_wf j'.
Proof.
  destruct (job_lifecycle ex_job_history (ex_world "indexing" 0 (mkDB ∅ ∅ ∅ ∅ ∅ ∅ ∅)) "b1"
    (ex_job "indexing" 0) ltac:(by vm_compute)) as (_ & j' & Hj' & _ & _ & _ & Hwf & _).
  exists j'. split; [exact Hj'|]. apply Hwf. split_and!; try done.
  intros Hin. by_elem; done.
Defined.
