(* ===== verification/BatchSettlement.v ===== *)
(** * Holds and settlement of batch image jobs

[service/batch_image_billing_hold.go] and [service/batch_image_settlement.go]:
programs over the job table ([BatchJobs]) and the billing transactions
([Billing]).

The price resolver is a parameter, as the interface of the code is; repositories
and cache are configured.  An error made by [WithCause] is [ErrWrap] around its
cause.  An instant [now] stands for the readings of the clock in one call. *)
From S2P Require Import Prelude GoText GoTime SubscriptionWindow Wallets BillingStore Billing.
From S2P Require Import BatchJobs.
From Stdlib Require Import Bool.
From stdpp Require Import pretty.

Local Open Scope string_scope.
Local Open Scope Z_scope.

Definition ErrBatchImageSettlementPricingMissing : goerr :=
  ErrApp 400 "BATCH_IMAGE_SETTLEMENT_PRICING_MISSING".
Definition ErrBatchImageSettlementMissingAPIKeyID : goerr :=
  ErrApp 400 "BATCH_IMAGE_SETTLEMENT_MISSING_API_KEY_ID".
Definition ErrBatchImageSettlementMissingAccountID : goerr :=
  ErrApp 400 "BATCH_IMAGE_SETTLEMENT_MISSING_ACCOUNT_ID".
Definition ErrBatchImageSettlementInvalidCounts : goerr :=
  ErrApp 400 "BATCH_IMAGE_SETTLEMENT_INVALID_COUNTS".

(** The errors that may carry a cause. *)
Definition billingFailed := "BATCH_IMAGE_SETTLEMENT_BILLING_FAILED".
Definition holdFailed := "BATCH_IMAGE_BILLING_HOLD_FAILED".
Definition ErrBatchImageSettlementBillingFailed : goerr := ErrApp 502 billingFailed.
Definition ErrBatchImageBillingHoldFailed : goerr := ErrApp 502 holdFailed.
Definition WithCause (reason : string) (cause : goerr) : goerr := ErrWrap reason cause.

(** [errors.Is] against an application error: the same reason. *)
Fixpoint is_reason (reason : string) (e : goerr) : bool :=
  match e with
  | ErrApp _ r => String.eqb r reason
  | ErrWrap r cause => String.eqb r reason || is_reason reason cause
  | ErrMsg _ => false
  end.

Definition batchImageSettlementMaxRetries : Z := 5.
Definition batchImageSettlementRetryDelay : Duration := Minute.

(** 0.00000001 USD. *)
Definition batchImageCostEpsilon : Amount := 100.

Record BatchImageSettlementResult : Type := mkSettlement {
  res_BatchID : string;
  res_SuccessCount : Z;
  res_FailCount : Z;
  res_ActualCost : Amount;
  res_ManifestHash : string;
  res_RequestID : string;
  AlreadySettled : bool
}.

(** A call of the billing repository. *)
Definition billing {A} (m : DB -> faults -> res A * DB * faults) : Prog A := fun w fs =>
  let '(r, db, fs) := m (w_db w) fs in (r, set_db db w, fs).

(** A side effect that does not fail. *)
Definition emit (e : effect) : Prog unit := fun w fs => (Ok tt, add_effect e w, fs).

(** A side effect of which only the attempt matters: its error is logged. *)
Definition best_effort (e : effect) : Prog unit :=
  let! _ := ttry (autocommit (fun w => (tt, add_effect e w))) in tret tt.

Section BatchSettlement.
Context `{GoUnicode} `{BillingParams}.

Definition batchImageDerefString (v : option string) : string :=
  match v with None => "" | Some v => TrimSpace v end.

(** ** Holds *)

Definition max0 (x : Amount) : Amount := if x <? 0 then 0 else x.

Definition buildBatchImageHoldCommand (job : BatchImageJob) (requestID : string)
    (actualAmount : Amount) (payloadHash : string) : res BatchImageBalanceHoldCommand :=
  match APIKeyID job with
  | None => Err ErrBatchImageSettlementMissingAPIKeyID
  | Some apiKeyID =>
      if apiKeyID <=? 0 then Err ErrBatchImageSettlementMissingAPIKeyID
      else
        let holdAmount := default (EstimatedCost job) (HoldAmount job) in
        Ok (mkHold requestID apiKeyID "" (TrimSpace payloadHash) (UserID job) (BatchID job)
              (max0 holdAmount) (max0 actualAmount))
  end.

Definition reserveBatchImageBalanceHold (job : BatchImageJob) (payloadHash : string) : Prog unit :=
  match buildBatchImageHoldCommand job (BatchImageHoldRequestID (BatchID job)) 0 payloadHash with
  | Err e => tfail e
  | Ok cmd =>
      if Billing.HoldAmount cmd <=? 0 then tret tt
      else
        let! r := ttry (billing (ReserveBatchImageBalance (Some cmd))) in
        match r with
        | Ok _ => tret tt
        | Err e =>
            if decide (e = ErrBatchImageInsufficientBalance)
            then tfail ErrBatchImageInsufficientBalance else tfail (WithCause holdFailed e)
        end
  end.

Definition captureBatchImageBalanceHold (job : BatchImageJob) (actualAmount : Amount)
    (payloadHash : string) : Prog unit :=
  match buildBatchImageHoldCommand job (BatchImageCaptureRequestID (BatchID job)) actualAmount
          payloadHash with
  | Err e => tfail e
  | Ok cmd =>
      let! r := ttry (billing (CaptureBatchImageBalance (Some cmd))) in
      match r with
      | Ok _ => tret tt
      | Err e => tfail (WithCause billingFailed e)
      end
  end.

Definition releaseBatchImageBalanceHold (job : BatchImageJob) (payloadHash : string) : Prog unit :=
  match buildBatchImageHoldCommand job (BatchImageReleaseRequestID (BatchID job)) 0 payloadHash with
  | Err e => tfail e
  | Ok cmd =>
      if Billing.HoldAmount cmd <=? 0 then tret tt
      else
        let! r := ttry (billing (ReleaseBatchImageBalance (Some cmd))) in
        match r with
        | Ok _ => tret tt
        | Err e =>
            if decide (e = ErrUsageBillingRequestConflict) then tret tt
            else tfail (WithCause holdFailed e)
        end
  end.

(** ** Settlement *)

Definition nul : string := String "000"%char "".

Definition BuildBatchImageSettlementManifestHash (job : BatchImageJob) : string :=
  let parts :=
    [TrimSpace (BatchID job); TrimSpace (Provider job); TrimSpace (Model job);
     batchImageDerefString (ProviderJobName job); batchImageDerefString (ProviderOutputRef job);
     pretty (SuccessCount job); pretty (FailCount job); pretty (ItemCount job)] in
  sha256_hex (String.concat nul parts).

Definition isBatchImageSettlementRetryExhausted (job : BatchImageJob) : bool :=
  String.eqb (Status job) BatchImageJobStatusSettling &&
  (batchImageSettlementMaxRetries <=? RetryCount job) &&
  HasPrefix (batchImageDerefString (LastErrorCode job)) "SETTLEMENT_".

Definition invalidateAuthCache (userID : Z) : Prog unit :=
  if 0 <? userID then emit (AuthInvalidated userID) else tret tt.

Definition failExhaustedSettlement (job : BatchImageJob) (now : Time) : Prog unit :=
  let! r := ttry (releaseBatchImageBalanceHold job (batchImageDerefString (RequestHash job))) in
  match r with
  | Err e =>
      let! _ := ttry (SetBatchImageJobSettlementFailed (BatchID job) "SETTLEMENT_RELEASE_FAILED" now) in
      tfail (WithCause billingFailed e)
  | Ok _ =>
      let! _ := invalidateAuthCache (UserID job) in
      let! _ := TransitionBatchImageJobStatus (BatchID job) BatchImageJobStatusFailed
                  (Some "SETTLEMENT_BILLING_RETRY_EXHAUSTED") "settlement_retry_exhausted" now in
      tfail ErrBatchImageSettlementBillingFailed
  end.

(** [tret tt] is the nil error. *)
Definition recordSettlementFailure (job : BatchImageJob) (code : string) (now : Time) : Prog unit :=
  let! r := ttry (SetBatchImageJobSettlementFailed (BatchID job) code now) in
  match r with
  | Err _ => tret tt
  | Ok retryCount =>
      if batchImageSettlementMaxRetries <=? retryCount
      then failExhaustedSettlement (attempt_failed_row code now job) now
      else tret tt
  end.

Section Service.
Context (BatchImageUnitPrice : BatchImageJob -> res Amount) (retention : Duration).

Definition settlementUnitPrice (job : BatchImageJob) : res Amount :=
  if 1 <=? PricingSnapshotVersion job then
    if BillableUnitPrice job <? 0 then Err ErrBatchImageSettlementPricingMissing
    else Ok (BillableUnitPrice job)
  else BatchImageUnitPrice job.

(** The price after the check of [Settle]. *)
Definition checkedUnitPrice (job : BatchImageJob) : res Amount :=
  match settlementUnitPrice job with
  | Ok p => if p <? 0 then Err ErrBatchImageSettlementPricingMissing else Ok p
  | Err e => Err e
  end.

(** A failure that is recorded, and then returned unless the record of it ended
the job. *)
Definition settlement_failure {A} (job : BatchImageJob) (code : string) (e : goerr) (now : Time)
    : Prog A :=
  let! _ := recordSettlementFailure job code now in tfail e.

Definition Settle (batchID : string) (now : Time) : Prog BatchImageSettlementResult :=
  let! job := GetBatchImageJobByBatchID batchID in
  let manifestHash := BuildBatchImageSettlementManifestHash job in
  let result cost settled :=
    mkSettlement (BatchID job) (SuccessCount job) (FailCount job) cost manifestHash
      (BatchImageCaptureRequestID (BatchID job)) settled in
  if String.eqb (Status job) BatchImageJobStatusCompleted then
    tret (result (default 0 (ActualCost job)) true)
  else if negb (String.eqb (Status job) BatchImageJobStatusSettling) then
    tfail ErrBatchImageSettlementInvalidStatus
  else if default 0 (APIKeyID job) <=? 0 then tfail ErrBatchImageSettlementMissingAPIKeyID
  else if default 0 (AccountID job) <=? 0 then tfail ErrBatchImageSettlementMissingAccountID
  else if isBatchImageSettlementRetryExhausted job then
    let! _ := failExhaustedSettlement job now in tret (result 0 false)
  else if (SuccessCount job <? 0) || (FailCount job <? 0) || (ItemCount job <? 0) ||
          (ItemCount job <? SuccessCount job + FailCount job) then
    settlement_failure job "SETTLEMENT_INVALID_COUNTS" ErrBatchImageSettlementInvalidCounts now
  else if negb (String.eqb (TrimSpace (batchImageDerefString (ManifestHash job))) "") &&
          negb (String.eqb (batchImageDerefString (ManifestHash job)) manifestHash) then
    settlement_failure job "SETTLEMENT_MANIFEST_CONFLICT" ErrBatchImageSettlementManifestConflict now
  else
    match checkedUnitPrice job with
    | Err e => settlement_failure job "SETTLEMENT_PRICING_MISSING" e now
    | Ok unitPrice =>
        let actualCost := SuccessCount job * unitPrice in
        let holdAmount := default (EstimatedCost job) (HoldAmount job) in
        if batchImageCostEpsilon <? actualCost - holdAmount then
          settlement_failure job "SETTLEMENT_COST_EXCEEDS_HOLD"
            ErrBatchImageSettlementCostExceedsHold now
        else
          let! r := ttry (captureBatchImageBalanceHold job actualCost manifestHash) in
          match r with
          | Err e => settlement_failure job "SETTLEMENT_BILLING_FAILED" e now
          | Ok _ =>
              let! _ := invalidateAuthCache (UserID job) in
              let! _ := MarkBatchImageJobSettled (BatchID job) actualCost manifestHash now
                          (Some (now + retention)) in
              let! _ := best_effort (UsageLogged (TrimSpace (BatchImageCaptureRequestID (BatchID job)))
                          (default 0 (APIKeyID job)) (UserID job) (default 0 (AccountID job))
                          (SuccessCount job) actualCost) in
              tret (result actualCost false)
          end
    end.
End Service.
End BatchSettlement.
