(* ===== verification/BatchIndex.v ===== *)
(** * Indexing the results of a batch image job

The result lines of a provider and [BatchImageResultIndexer] of
[service/batch_image_processor.go].  Parameters: the JSON parser, and what
[OpenResult] of the provider returns, as the lines of the scanner and the error
that ended it, if any.  Source positions and messages of items are left out. *)
From S2P Require Import Prelude GoText GoTime SubscriptionWindow Wallets BillingStore Billing.
From S2P Require Import BatchJobs BatchJobLife BatchSettlement.
From Stdlib Require Import Bool.
From stdpp Require Import pretty.

Local Open Scope string_scope.
Local Open Scope Z_scope.

(** ** Result lines *)

(** What [encoding/json] stores in an [any]; a number as [int64] of it. *)
Inductive json : Type :=
  | JNull
  | JBool (b : bool)
  | JNumber (z : Z)
  | JString (s : string)
  | JArray (l : list json)
  | JObject (m : list (string * json)).

(** [json.Unmarshal] into a [map[string]any]. *)
Class GoJSON : Type := { UnmarshalMap : string -> option (list (string * json)) }.

(** [m[key]], which is nil for a key that is not there. *)
Definition map_get (m : list (string * json)) (key : string) : json :=
  match find (fun p => String.eqb p.1 key) m with Some (_, v) => v | None => JNull end.

Definition map_has (m : list (string * json)) (key : string) : bool :=
  existsb (fun p => String.eqb p.1 key) m.

Definition ErrBatchImageIndexNoResultLines : goerr :=
  ErrApp 502 "BATCH_IMAGE_INDEX_NO_RESULT_LINES".
Definition indexOutputMissing := "BATCH_IMAGE_INDEX_OUTPUT_MISSING".
Definition indexParseFailed := "BATCH_IMAGE_INDEX_PARSE_FAILED".
Definition duplicateCustomID := "DUPLICATE_CUSTOM_ID_IN_OUTPUT".
Definition ErrUnexpectedEOF : goerr := ErrMsg "unexpected EOF".

Definition BatchImageParsedStatusSucceeded := "succeeded".
Definition BatchImageParsedStatusFailed := "failed".
Definition batchImageMaxErrorMessageLength : Z := 1000.

Record ParsedBatchImageResult : Type := mkParsed {
  p_CustomID : string;
  p_Status : string;
  p_MimeType : string;
  p_FileExtension : string;
  p_ImageCount : Z;
  p_ErrorCode : string;
  p_ErrorMessage : string
}.

Record BatchImageIndexResult : Type := mkIndexResult {
  ir_SuccessCount : Z;
  ir_FailCount : Z;
  ir_TotalCount : Z
}.

Section BatchIndex.
Context `{GoUnicode} `{BillingParams} `{GoJSON}.

Definition truncateBatchImageMessage (message : string) (limit : Z) : string :=
  let message := TrimSpace message in
  if (limit <=? 0) || (len message <=? limit) then message else str_take (Z.to_nat limit) message.

Definition batchImageOptionalStringPtr (v : string) : option string :=
  let v := TrimSpace v in if String.eqb v "" then None else Some v.

Fixpoint batchImageFirstNonEmptyString (values : list string) : string :=
  match values with
  | [] => ""
  | value :: values =>
      if negb (String.eqb (TrimSpace value) "") then TrimSpace value
      else batchImageFirstNonEmptyString values
  end.

Definition batchImageMapString (m : list (string * json)) (key : string) : string :=
  match map_get m key with
  | JString v => TrimSpace v
  | JNumber v => pretty v
  | _ => ""
  end.

Fixpoint batchImageNestedAny (current : json) (keys : list string) : json :=
  match keys with
  | [] => current
  | key :: keys =>
      match current with
      | JObject m => batchImageNestedAny (map_get m key) keys
      | _ => JNull
      end
  end.

Definition batchImageNestedString (m : list (string * json)) (keys : list string) : string :=
  match batchImageNestedAny (JObject m) keys with JString v => TrimSpace v | _ => "" end.

Definition firstMap (values : list json) : option (list (string * json)) :=
  head (omap (fun v => match v with JObject m => Some m | _ => None end) values).

Definition batchImageFileExtension (mimeType : string) : string :=
  let m := ToLower (TrimSpace mimeType) in
  if String.eqb m "image/png" then "png"
  else if String.eqb m "image/jpeg" || String.eqb m "image/jpg" then "jpg"
  else if String.eqb m "image/webp" then "webp" else "".

(** The MIME type of a part that holds an image, which may not be blank. *)
Definition image_part (part : json) : option string :=
  match part with
  | JObject part =>
      match firstMap [map_get part "inlineData"; map_get part "inline_data"] with
      | Some inline =>
          let data := TrimSpace (batchImageMapString inline "data") in
          let mime := batchImageFirstNonEmptyString
            [batchImageMapString inline "mimeType"; batchImageMapString inline "mime_type"] in
          if String.eqb data "" || negb (HasPrefix (ToLower (TrimSpace mime)) "image/") then None
          else Some mime
      | None => None
      end
  | _ => None
  end.

Definition candidate_images (candidate : json) : list string :=
  match candidate with
  | JObject candidate =>
      match batchImageNestedAny (JObject candidate) ["content"; "parts"] with
      | JArray parts => omap image_part parts
      | _ => []
      end
  | _ => []
  end.

Definition batchImageFindImagePartsInCandidates (raw : json) : Z * string :=
  match raw with
  | JArray candidates =>
      let mimes := concat (map candidate_images candidates) in
      (Z.of_nat (length mimes), TrimSpace (default "" (head mimes)))
  | _ => (0, "")
  end.

Definition batchImageFindImageParts (obj : list (string * json)) : Z * string :=
  let r := batchImageFindImagePartsInCandidates
             (batchImageNestedAny (JObject obj) ["response"; "candidates"]) in
  if 0 <? r.1 then r else batchImageFindImagePartsInCandidates (map_get obj "candidates").

Definition batchImageMapFailureCode (code message : string) : string :=
  let text := ToLower (TrimSpace (code +:+ " " +:+ message)) in
  let has := existsb (Contains text) in
  if has ["safety"; "policy"; "blocked"; "prohibited"] then "SAFETY_BLOCKED"
  else if has ["invalid_argument"; "invalid argument"; "bad request"] then "INVALID_ARGUMENT"
  else if has ["quota"; "rate"; "resource_exhausted"; "too many requests"]
  then "PROVIDER_RATE_LIMITED" else "PROVIDER_ITEM_FAILED".

Definition failure_of (m : list (string * json)) : string * string :=
  let message := batchImageFirstNonEmptyString
    [batchImageMapString m "message"; batchImageMapString m "details"] in
  let code := batchImageFirstNonEmptyString
    [batchImageMapString m "code"; batchImageMapString m "status"] in
  (batchImageMapFailureCode code message, message).

Definition batchImageFailureFromProviderFields (obj : list (string * json))
    : option (string * string) :=
  match map_get obj "status" with
  | JObject status => Some (failure_of status)
  | _ =>
      match map_get obj "error" with
      | JObject err => Some (failure_of err)
      | _ => None
      end
  end.

Definition batchImageHasCandidates (obj : list (string * json)) : bool :=
  map_has obj "candidates" ||
  match batchImageNestedAny (JObject obj) ["response"; "candidates"] with
  | JArray _ => true
  | _ => false
  end.

Definition ParseBatchImageResultLine (line : string) : res ParsedBatchImageResult :=
  match UnmarshalMap line with
  | None => Err (WithCause indexParseFailed (ErrMsg "invalid JSON"))
  | Some obj =>
      let customID := batchImageFirstNonEmptyString
        [batchImageMapString obj "key"; batchImageMapString obj "custom_id";
         batchImageMapString obj "customId"; batchImageNestedString obj ["request"; "key"]] in
      if String.eqb customID "" then Err (WithCause indexParseFailed (ErrMsg "missing custom id"))
      else
        let failed code message :=
          Ok (mkParsed customID BatchImageParsedStatusFailed "" "" 0 code message) in
        let '(imageCount, mimeType) := batchImageFindImageParts obj in
        if 0 <? imageCount then
          Ok (mkParsed customID BatchImageParsedStatusSucceeded mimeType
                (batchImageFileExtension mimeType) imageCount "" "")
        else match batchImageFailureFromProviderFields obj with
        | Some (code, message) =>
            failed code (truncateBatchImageMessage message batchImageMaxErrorMessageLength)
        | None =>
            if map_has obj "response" || batchImageHasCandidates obj
            then failed "EMPTY_IMAGE_OUTPUT" "provider response contained no image output"
            else failed "PROVIDER_ITEM_FAILED" "provider result line contained no image output"
        end
  end.

(** ** The expected custom ids *)

(** One page after the other, until a page is not full. *)
Fixpoint list_pages (fuel : nat) (batchID : string) (offset : Z) (expected : gset string)
    : Prog (gset string) :=
  match fuel with
  | O => tret expected
  | S fuel =>
      let! page := ListBatchImageItems batchID 500 offset in
      let expected := list_to_set (map CustomID page) ∪ expected in
      if (length page <? 500)%nat then tret expected
      else list_pages fuel batchID (offset + Z.of_nat (length page)) expected
  end.

Definition listExpectedCustomIDs (batchID : string) : Prog (gset string) := fun w =>
  list_pages (S (length (items_of batchID w))) batchID 0 ∅ w.

(** ** The index *)

(** The loop over the lines: the custom ids seen, the rows so far, and the count
of lines that belong to no item. *)
Record scan_state : Type := mkScan {
  seen : gset string;
  scan_items : list BatchImageItem;
  scan_success : Z;
  scan_fail : Z;
  unknownCount : Z
}.

Definition item_of_line (parsed : ParsedBatchImageResult) : BatchImageItem :=
  if String.eqb (p_Status parsed) BatchImageParsedStatusSucceeded
  then mkItem (p_CustomID parsed) BatchImageItemStatusSuccess (p_ImageCount parsed) None
  else mkItem (p_CustomID parsed) BatchImageItemStatusFailed (p_ImageCount parsed)
         (batchImageOptionalStringPtr (p_ErrorCode parsed)).

Definition scan_line (expected : gset string) (line : string) (st : scan_state) : res scan_state :=
  let line := TrimSpace line in
  if String.eqb line "" then Ok st
  else match ParseBatchImageResultLine line with
  | Err e => Err e
  | Ok parsed =>
      let id := p_CustomID parsed in
      if negb (bool_decide (expected = ∅)) && negb (bool_decide (id ∈ expected)) then
        Ok (mkScan (seen st) (scan_items st) (scan_success st) (scan_fail st) (unknownCount st + 1))
      else if bool_decide (id ∈ seen st) then Err (WithCause duplicateCustomID (ErrMsg id))
      else
        let ok := String.eqb (p_Status parsed) BatchImageParsedStatusSucceeded in
        Ok (mkScan ({[id]} ∪ seen st) (scan_items st ++ [item_of_line parsed])%list
              (if ok then scan_success st + 1 else scan_success st)
              (if ok then scan_fail st else scan_fail st + 1) (unknownCount st))
  end.

Fixpoint scan_lines (expected : gset string) (lines : list string) (st : scan_state)
    : res scan_state :=
  match lines with
  | [] => Ok st
  | line :: lines =>
      match scan_line expected line st with
      | Err e => Err e
      | Ok st => scan_lines expected lines st
      end
  end.

Definition missing_item (customID : string) : BatchImageItem :=
  mkItem customID BatchImageItemStatusFailed 0 (Some "PROVIDER_RESULT_MISSING").

Section Index.
Context (OpenResult : BatchImageJob -> res (list string * option goerr)).

Definition Index (job : BatchImageJob) (now : Time) : Prog BatchImageIndexResult :=
  let! expected := listExpectedCustomIDs (BatchID job) in
  match OpenResult job with
  | Err e => tfail (WithCause indexOutputMissing e)
  | Ok (lines, readErr) =>
      match scan_lines expected lines (mkScan ∅ [] 0 0 0) with
      | Err e => tfail e
      | Ok st =>
          match readErr with
          | Some e =>
              if decide (e = ErrUnexpectedEOF) then tfail (WithCause indexParseFailed e) else tfail e
          | None =>
              let missingIDs := stable_sort String.ltb (elements (expected ∖ seen st)) in
              let items := (scan_items st ++ map missing_item missingIDs)%list in
              let missing := Z.of_nat (length missingIDs) in
              let success := scan_success st in
              let fail := scan_fail st + missing in
              if success + fail =? 0 then tfail ErrBatchImageIndexNoResultLines
              else
                let! _ := (if (0 <? unknownCount st) || (0 <? missing)
                           then let! _ := ttry (AppendBatchImageEvent (BatchID job) "index_reconciled") in
                                tret tt
                           else tret tt) in
                let! _ := ReplaceBatchImageItemsForJob (BatchID job) items success fail now in
                tret (mkIndexResult success fail (success + fail))
          end
      end
  end.

(** ** What an index establishes *)

Definition succeeded (i : BatchImageItem) : bool := String.eqb (ItemStatus i) BatchImageItemStatusSuccess.

Definition count_success (items : list BatchImageItem) : Z :=
  Z.of_nat (length (List.filter succeeded items)).

Definition ids (items : list BatchImageItem) : gset string := list_to_set (map CustomID items).

Record scan_ok (expected : gset string) (st : scan_state) : Prop := {
  so_seen : seen st = ids (scan_items st);
  so_nodup : NoDup (map CustomID (scan_items st));
  so_success : scan_success st = count_success (scan_items st);
  so_total : scan_success st + scan_fail st = Z.of_nat (length (scan_items st));
  so_known : expected <> ∅ -> ids (scan_items st) ⊆ expected
}.

Lemma ids_app l k : ids (l ++ k) = ids l ∪ ids k.
Proof. unfold ids. by rewrite map_app, list_to_set_app_L. Qed.

Lemma count_success_app l k : count_success (l ++ k) = count_success l + count_success k.
Proof. unfold count_success. rewrite List.filter_app, length_app. lia. Qed.

Lemma elem_of_ids x items : x ∈ ids items <-> x ∈ map CustomID items.
Proof. unfold ids. by rewrite elem_of_list_to_set. Qed.

Lemma NoDup_snoc {A} (l : list A) x : NoDup l -> x ∉ l -> NoDup (l ++ [x]).
Proof.
  intros Hl Hx. apply NoDup_app. split; [done|]. split; [|apply NoDup_singleton].
  intros y Hy ->%list_elem_of_singleton. done.
Qed.

Lemma item_of_line_id p : CustomID (item_of_line p) = p_CustomID p.
Proof. unfold item_of_line. by case_match. Qed.

Lemma item_of_line_success p :
  succeeded (item_of_line p) = String.eqb (p_Status p) BatchImageParsedStatusSucceeded.
Proof. unfold item_of_line. by case_match. Qed.

Lemma scan_line_ok expected line st st' :
  scan_ok expected st -> scan_line expected line st = Ok st' -> scan_ok expected st'.
Proof.
  intros Hok. unfold scan_line. destruct (String.eqb _ ""); [by intros [= <-]|].
  destruct (ParseBatchImageResultLine _) as [p|e]; [|done].
  destruct (negb (bool_decide (expected = ∅)) && _) eqn:Eknown; [by intros [= <-]; destruct Hok|].
  destruct (bool_decide (p_CustomID p ∈ seen st)) eqn:Hseen; [done|].
  apply bool_decide_eq_false in Hseen. intros [= <-]. destruct Hok as [Hs Hn Hsu Ht Hk].
  assert (Hids : ids [item_of_line p] = {[p_CustomID p]}).
  { unfold ids. cbn. rewrite item_of_line_id. set_solver. }
  split; cbn [seen scan_items scan_success scan_fail].
  - rewrite ids_app, Hids, Hs. set_solver.
  - rewrite map_app. apply NoDup_snoc; [done|]. cbn. rewrite item_of_line_id, <- elem_of_ids. by rewrite <- Hs.
  - rewrite count_success_app, <- Hsu. unfold count_success. cbn. rewrite item_of_line_success.
    case_match; cbn; lia.
  - rewrite length_app. cbn. case_match; lia.
  - intros Hne. rewrite ids_app, Hids. specialize (Hk Hne).
    apply andb_false_iff in Eknown as [E|E].
    + apply negb_false_iff, bool_decide_eq_true in E. done.
    + apply negb_false_iff, bool_decide_eq_true in E. set_solver.
Qed.

Lemma scan_lines_ok expected lines st st' :
  scan_ok expected st -> scan_lines expected lines st = Ok st' -> scan_ok expected st'.
Proof.
  revert st. induction lines as [|line lines IH]; intros st Hok; cbn [scan_lines]; [by intros [= <-]|].
  destruct (scan_line expected line st) as [st1|e] eqn:E; [|done].
  apply IH. by eapply scan_line_ok.
Qed.

Lemma scan_start expected : scan_ok expected (mkScan ∅ [] 0 0 0).
Proof. split; cbn; first [done | constructor | set_solver]. Qed.

(** *** The pages *)

Lemma take_drop_length {A} n (l : list A) : (take n l ++ drop (length (take n l)) l)%list = l.
Proof.
  rewrite length_take. destruct (Nat.le_ge_cases n (length l)) as [Hl|Hl].
  - rewrite Nat.min_l by done. apply take_drop.
  - rewrite Nat.min_r, drop_all, take_ge by done. apply app_nil_r.
Qed.

Lemma list_pages_spec fuel b k expected w :
  (length (items_of b w) < fuel + k)%nat ->
  wp (list_pages fuel b (Z.of_nat k) expected)
    (fun r w' => w' = w /\ forall s, r = Ok s -> s = ids (drop k (items_of b w)) ∪ expected) w.
Proof.
  revert k expected. induction fuel as [|fuel IH]; intros k expected Hfuel; cbn [list_pages].
  { apply wp_ret. split; [done|]. intros s [= <-]. rewrite drop_ge by lia. cbn. set_solver. }
  apply wp_bind. unfold ListBatchImageItems. cbn [Z.leb Z.ltb].
  replace (Z.of_nat k <? 0) with false by (symmetry; apply Z.ltb_ge; lia).
  change (Z.to_nat (if _ : bool then 100 else 500)) with 500%nat. rewrite Nat2Z.id.
  apply wp_query; [done|]. set (page := take 500 (drop k (items_of b w))).
  assert (Hsplit : ids page ∪ ids (drop (k + length page) (items_of b w)) = ids (drop k (items_of b w))).
  { rewrite <- ids_app, <- drop_drop. unfold page. by rewrite take_drop_length. }
  change (list_to_set (map CustomID page)) with (ids page).
  destruct (Nat.ltb_spec (length page) 500) as [Hlt|Hge].
  - apply wp_ret. split; [done|]. intros s [= <-]. rewrite <- Hsplit.
    unfold page in Hlt. rewrite length_take in Hlt.
    rewrite drop_ge; [cbn; set_solver|]. unfold page. rewrite length_take.
    rewrite length_drop in *. lia.
  - replace (Z.of_nat k + Z.of_nat (length page)) with (Z.of_nat (k + length page)) by lia.
    eapply wp_mono; [apply IH; lia|]. intros r w' [-> Hr]. split; [done|]. intros s Hs.
    rewrite (Hr s Hs), <- Hsplit. set_solver.
Qed.

Lemma listExpected_spec b w :
  wp (listExpectedCustomIDs b)
    (fun r w' => w' = w /\ forall s, r = Ok s -> s = ids (items_of b w)) w.
Proof.
  pose proof (list_pages_spec (S (length (items_of b w))) b 0 ∅ w ltac:(lia)) as Hp.
  eapply wp_mono; [exact Hp|]. intros r w' [-> Hr]. split; [done|].
  intros s Hs. rewrite (Hr s Hs). rewrite drop_0. set_solver.
Qed.

(** *** The new rows *)

(** What a successful index leaves: rows with pairwise different custom ids,
those of the job if it had rows, and the counts of the job. *)
Definition indexed (b : string) (w : World) (r : BatchImageIndexResult) (w' : World) : Prop :=
  w_db w' = w_db w /\
  NoDup (map CustomID (items_of b w')) /\
  (items_of b w <> [] -> ids (items_of b w') = ids (items_of b w)) /\
  ir_TotalCount r = Z.of_nat (length (items_of b w')) /\ 0 < ir_TotalCount r /\
  ir_TotalCount r = ir_SuccessCount r + ir_FailCount r /\
  ir_SuccessCount r = count_success (items_of b w') /\
  exists j now, batch_image_jobs w !! b = Some j /\ Status j = BatchImageJobStatusIndexing /\
    batch_image_jobs w' =
      <[b := counted_row (ir_SuccessCount r) (ir_FailCount r) now j]> (batch_image_jobs w).

Lemma replace_spec b items s f now w :
  wp (replaceBatchImageItemsForJobWithSQL b items s f now)
    (ensures (fun _ w' => w_db w' = w_db w /\ items_of b w' = items /\
       exists j, batch_image_jobs w !! b = Some j /\ Status j = BatchImageJobStatusIndexing /\
         batch_image_jobs w' = <[b := counted_row s f now j]> (batch_image_jobs w))) w.
Proof.
  unfold replaceBatchImageItemsForJobWithSQL. tx_step.
  destruct (batch_image_jobs w !! b) as [j|] eqn:Ej; cbn [fmap option_fmap option_map]; [|tx_step].
  destruct (String.eqb_spec (Status j) BatchImageJobStatusIndexing) as [Hst|]; cbn [negb]; [|tx_step].
  tx_step. tx_step. eapply ensures_bind; [apply createItems_spec|]. intros _ w1 (Hdb & Hj & Hi).
  cbn in Hdb, Hj. tx_step. tx_step. unfold update_job. rewrite Hj, Ej.
  cbn [fst snd]. split_and!; [done| |exists j; cbn; by rewrite Hj].
  change (items_of b w1 = items). rewrite Hi. unfold items_of. cbn. by rewrite lookup_delete_eq.
Qed.

Lemma missing_ids l : map CustomID (map missing_item l) = l.
Proof. rewrite map_map. cbn. apply map_id. Qed.

Lemma missing_success l : count_success (map missing_item l) = 0.
Proof. unfold count_success. by induction l. Qed.

(** The rows that the index writes. *)
Lemma reconciled expected st missing :
  scan_ok expected st -> missing ≡ₚ elements (expected ∖ seen st) ->
  let items := (scan_items st ++ map missing_item missing)%list in
  NoDup (map CustomID items) /\ (expected <> ∅ -> ids items = expected) /\
  scan_success st = count_success items /\
  scan_success st + (scan_fail st + Z.of_nat (length missing)) = Z.of_nat (length items).
Proof.
  intros [Hs Hn Hsu Ht Hk] Hm items. unfold items.
  assert (Hin : forall x, x ∈ missing <-> x ∈ expected /\ x ∉ ids (scan_items st)).
  { intros x. rewrite Hm, elem_of_elements, elem_of_difference. by rewrite Hs. }
  split_and!.
  - rewrite map_app, missing_ids. apply NoDup_app. split; [done|]. split.
    + intros x Hx Hx2. apply Hin in Hx2 as [_ Hx2]. by rewrite elem_of_ids in Hx2.
    + rewrite Hm. apply NoDup_elements.
  - intros Hne. rewrite ids_app. specialize (Hk Hne). apply set_eq. intros x.
    rewrite elem_of_union, (elem_of_ids x (map _ _)), missing_ids, Hin.
    destruct (decide (x ∈ ids (scan_items st))); set_solver.
  - rewrite count_success_app, missing_success. lia.
  - rewrite length_app, length_map. lia.
Qed.

Lemma Index_spec job now w :
  wp (Index job now) (fun r w' => match r with
    | Ok r => indexed (BatchID job) w r w'
    | Err _ => (w_db w' = w_db w /\ batch_image_jobs w' = batch_image_jobs w /\
                batch_image_items w' = batch_image_items w) \/
               exists r, indexed (BatchID job) w r w'
    end) w.
Proof.
  unfold Index. apply wp_bind. eapply wp_mono; [apply listExpected_spec|].
  intros [expected|e] w1 [-> Hexp]; [|by left]. specialize (Hexp expected eq_refl).
  destruct (OpenResult job) as [[lines readErr]|e]; [|apply wp_fail; by left].
  destruct (scan_lines expected lines _) as [st|e] eqn:Escan; [|apply wp_fail; by left].
  pose proof (scan_lines_ok _ _ _ _ (scan_start expected) Escan) as Hok.
  destruct readErr as [e|]; [case_match; apply wp_fail; by left|].
  set (missing := stable_sort _ _). set (items := (scan_items st ++ _)%list).
  destruct (reconciled expected st missing Hok (stable_sort_perm _ _)) as (Hn & Hids & Hsu & Ht).
  fold items in Hn, Hids, Hsu, Ht.
  destruct (Z.eqb_spec (scan_success st + (scan_fail st + Z.of_nat (length missing))) 0) as [|Hne];
    [apply wp_fail; by left|].
  apply wp_bind. eapply (wp_mono _ (fun r w' => (exists u, r = Ok u) /\ w_db w' = w_db w /\
    batch_image_jobs w' = batch_image_jobs w /\ batch_image_items w' = batch_image_items w)).
  { destruct (_ || _); [|apply wp_ret; split_and!; [by eexists|done..]].
    apply wp_bind, wp_try, wp_autocommit; intros; apply wp_ret; (split_and!; [by eexists|done..]). }
  intros _ w1 ([u ->] & Hdb & Hj & Hi). apply wp_bind. unfold ReplaceBatchImageItemsForJob, in_tx.
  assert (Hdone : forall s f w2, s = scan_success st ->
    f = scan_fail st + Z.of_nat (length missing) ->
    w_db w2 = w_db w1 /\ items_of (BatchID job) w2 = items /\
    (exists j, batch_image_jobs w1 !! BatchID job = Some j /\ Status j = BatchImageJobStatusIndexing /\
       batch_image_jobs w2 = <[BatchID job := counted_row s f now j]> (batch_image_jobs w1)) ->
    indexed (BatchID job) w (mkIndexResult s f (s + f)) w2).
  { intros s f w2 -> -> (Hdb2 & Hi2 & j & Hj2 & Hst & Hjs). unfold indexed. cbn [ir_TotalCount ir_SuccessCount ir_FailCount].
    rewrite Hi2, Hdb2. rewrite Hj in Hj2, Hjs. split_and!; try done; try lia.
    - intros Hitems. rewrite Hids; [done|]. rewrite Hexp. intros Hempty.
      destruct (items_of (BatchID job) w) as [|i l]; [done|].
      assert (CustomID i ∈ ids (i :: l)) as Hx; [|by rewrite Hempty in Hx; apply not_elem_of_empty in Hx].
      rewrite elem_of_ids. by left.
    - by exists j, now. }
  apply (wp_transaction _ _ (fun ca w2 => ca.1 = true /\ w_db w2 = w_db w1 /\ items_of (BatchID job) w2 = items /\
    exists j, batch_image_jobs w1 !! BatchID job = Some j /\ Status j = BatchImageJobStatusIndexing /\
      batch_image_jobs w2 = <[BatchID job := counted_row (scan_success st)
        (scan_fail st + Z.of_nat (length missing)) now j]> (batch_image_jobs w1))).
  - eapply ensures_bind; [apply replace_spec|]. intros u2 w2 Hw2. by tx_step.
  - intros e. by left.
  - by intros a w2 [Hf _].
  - intros a w2 [_ Hw2]. split; [apply wp_ret; by apply Hdone|]. intros e. right.
    eexists. by apply (Hdone _ _ _ eq_refl eq_refl).
Qed.

(** C26. Reconciliation. However many of the lines of a provider's output are missing,
repeated, unknown or malformed, and whatever statements fail: an index that succeeds
leaves exactly one row for each item that was submitted, and no other; its counts are
those of the rows, so that they add up to the number of items, and are stored in the
job, which was being indexed. An index that reports an error has changed no job and no
item, unless only the answer to its commit was lost, when jobs and items are as after a
success; events may have been appended in either case. *)
Theorem index_reconciles job now w fs :
  match Index job now w fs with
  | (Ok r, w', _) => indexed (BatchID job) w r w'
  | (Err _, w', _) =>
      (w_db w' = w_db w /\ batch_image_jobs w' = batch_image_jobs w /\
       batch_image_items w' = batch_image_items w) \/
      exists r, indexed (BatchID job) w r w'
  end.
Proof.
  pose proof (Index_spec job now w fs) as Hs.
  by destruct (Index job now w fs) as [[[r|e] w'] fs'].
Qed.
End Index.
End BatchIndex.

(** A parser of flat objects to evaluate the model with: [id] for an image,
[!id] for a result without one. *)
#[export] Instance PlainJSON : GoJSON := {
  UnmarshalMap s :=
    match s with
    | "" => None
    | String "!"%char id => Some [("key", JString id)]
    | id => Some [("key", JString id);
                  ("candidates", JArray [JObject [("content", JObject [("parts", JArray
                     [JObject [("inlineData", JObject [("mimeType", JString "image/PNG");
                                                       ("data", JString "aGk=")])]])])]])]
    end
}.

(** One item is missing, one line is unknown. *)
Example index_ex_run :
  let w := mkWorld (mkDB ∅ ∅ ∅ ∅ ∅ ∅ ∅) {["b1" := ex_job "indexing" 0]}
    {["b1" := map (fun id => mkItem id BatchImageItemStatusPending 0 None) ["x"; "y"; "z"]]} [] [] in
  let '(r, w', _) := Index (fun _ => Ok (["z"; " "; "q"; "!x"], None)) (ex_job "indexing" 0) 50 w [] in
  r = Ok (mkIndexResult 1 2 3) /\
  items_of "b1" w' = [mkItem "z" "success" 1 None;
                      mkItem "x" "failed" 0 (Some "PROVIDER_ITEM_FAILED");
                      mkItem "y" "failed" 0 (Some "PROVIDER_RESULT_MISSING")].
Proof. by vm_compute. Qed.
