(* ===== verification/BatchProcessor.v ===== *)
(** * Processing batch image jobs

The processors of [service/batch_image_processor.go] and
[service/batch_image_settlement.go], which a worker calls for a job until it has
ended, and the recovery of [service/batch_image_billing_recovery.go].

The upstream provider and the lookup of accounts are parameters, a record per
call, so that they may answer differently each time. *)
From S2P Require Import Prelude GoText GoTime SubscriptionWindow Wallets BillingStore Billing.
From S2P Require Import BatchJobs BatchSettlement BatchIndex.
From Stdlib Require Import Bool.

Local Open Scope string_scope.
Local Open Scope Z_scope.

Record BatchImageProcessResult : Type := mkProcess { RequeueAfter : Duration; Terminal : bool }.

Inductive BatchProviderInternalState : Type :=
  | BatchProviderStateQueued
  | BatchProviderStateRunning
  | BatchProviderStateSucceeded
  | BatchProviderStateFailed
  | BatchProviderStateCancelled
  | BatchProviderStateExpired
  | BatchProviderStateOther (state : string).

Record BatchProviderStatus : Type := mkProviderStatus {
  InternalState : BatchProviderInternalState;
  status_OutputRef : string;
  status_ErrorCode : string;
  SuggestedRequeueAfter : Duration
}.

Record BatchProviderJob : Type := mkProviderJob {
  job_ProviderJobName : string;
  job_ProviderInputRef : string;
  job_ProviderOutputRef : string
}.

Inductive CleanupTarget : Type := CleanupTargetInput | CleanupTargetOutput.

(** What the services use of a provider, for accounts of type [Account]. *)
Record BatchImageProvider (Account : Type) : Type := mkProvider {
  SupportsAccount : Account -> bool;
  provider_Submit : BatchImageJob -> Account -> res (option BatchProviderJob);
  provider_Get : BatchImageJob -> Account -> res (option BatchProviderStatus);
  provider_Cancel : BatchImageJob -> Account -> res unit;
  OpenResult : BatchImageJob -> Account -> res (list string * option goerr);
  provider_Cleanup : BatchImageJob -> Account -> CleanupTarget -> res unit
}.
Arguments mkProvider {_}.
Arguments SupportsAccount {_}.
Arguments provider_Submit {_}.
Arguments provider_Get {_}.
Arguments provider_Cancel {_}.
Arguments OpenResult {_}.
Arguments provider_Cleanup {_}.

(** The collaborators of one call. *)
Record Collaborators (Account : Type) : Type := mkCollaborators {
  ProviderRegistry : string -> option (BatchImageProvider Account);
  ResolveBatchImageAccount : Z -> res Account;
  BatchImageUnitPrice : BatchImageJob -> res Amount;
  outputRetentionAfterTerminal : Duration;
  DefaultRequeue : Duration;
  RetryDelay : Duration
}.
Arguments mkCollaborators {_}.
Arguments ProviderRegistry {_}.
Arguments ResolveBatchImageAccount {_}.
Arguments BatchImageUnitPrice {_}.
Arguments outputRetentionAfterTerminal {_}.
Arguments DefaultRequeue {_}.
Arguments RetryDelay {_}.

Definition ErrBatchImageMissingAccountID : goerr := ErrApp 400 "BATCH_IMAGE_MISSING_ACCOUNT_ID".
Definition ErrBatchImageMissingProviderJobName : goerr :=
  ErrApp 400 "BATCH_IMAGE_MISSING_PROVIDER_JOB_NAME".
Definition ErrBatchImageProviderUnsupportedAccount : goerr :=
  ErrApp 400 "BATCH_IMAGE_PROVIDER_UNSUPPORTED_ACCOUNT".

Definition defaultBatchImageProcessorRequeue : Duration := 30 * Second.
Definition batchImageProviderErrorRequeue : Duration := Minute.

Definition isBatchImageProcessorDoneStatus (status : string) : bool :=
  String.eqb status BatchImageJobStatusSettling || IsTerminalBatchImageJobStatus status.

Section BatchProcessor.
Context `{GoUnicode} `{BillingParams} `{GoJSON} {Account : Type}.

Definition releaseTerminalHold (job : BatchImageJob) : Prog unit :=
  if negb (String.eqb (Status job) BatchImageJobStatusFailed) &&
     negb (String.eqb (Status job) BatchImageJobStatusCancelled) then tret tt
  else
    let! _ := releaseBatchImageBalanceHold job (batchImageDerefString (RequestHash job)) in
    invalidateAuthCache (UserID job).

(** The job as the processor holds it after it has moved it. *)
Definition moved_to (status : string) (job : BatchImageJob) : BatchImageJob :=
  with_status status (LastErrorCode job) (Version job) job.

Section Call.
Context (C : Collaborators Account).

Definition requeueDelay (suggested : Duration) : Duration :=
  if 0 <? suggested then suggested
  else if 0 <? DefaultRequeue C then DefaultRequeue C else defaultBatchImageProcessorRequeue.

(** The job with the reference. *)
Definition persistProviderOutputRef (job : BatchImageJob) (ref : string) (now : Time)
    : Prog BatchImageJob :=
  let ref := TrimSpace ref in
  if String.eqb ref "" || String.eqb (batchImageDerefString (ProviderOutputRef job)) ref
  then tret job
  else
    let! _ := UpdateBatchImageJobProviderOutputRef (BatchID job) ref now in
    tret (with_refs (mkRefs (ProviderJobName job) (ProviderInputRef job) (Some ref)
                       (GCSInputURI job) (GCSOutputURI job)) job).

Definition indexAndSettle (job : BatchImageJob) (provider : BatchImageProvider Account)
    (account : Account) (now : Time) : Prog BatchImageProcessResult :=
  let! r := ttry (Index (fun j => OpenResult provider j account) job now) in
  match r with
  | Err e =>
      if is_reason indexOutputMissing e then tfail e
      else if is_reason "BATCH_IMAGE_INDEX_STATE_CONFLICT" e
      then tret (mkProcess Millisecond false)
      else
        let code := if is_reason duplicateCustomID e then duplicateCustomID
                    else "INDEX_PARSE_FAILED" in
        let! _ := TransitionBatchImageJobStatus (BatchID job) BatchImageJobStatusFailed (Some code)
                    "indexing_failed" now in
        let! _ := releaseTerminalHold (moved_to BatchImageJobStatusFailed job) in
        tret (mkProcess 0 true)
  | Ok _ =>
      let! _ := TransitionBatchImageJobStatus (BatchID job) BatchImageJobStatusSettling None
                  "indexing_completed" now in
      tret (mkProcess Millisecond false)
  end.

(** The end of a job that its provider has given up. *)
Definition endJob (job : BatchImageJob) (status : string) (code : option string) (now : Time)
    : Prog BatchImageProcessResult :=
  let! _ := TransitionBatchImageJobStatus (BatchID job) status code "job_failed" now in
  let! _ := releaseTerminalHold (moved_to status job) in
  tret (mkProcess 0 true).

(** The switch over the provider's state. *)
Definition processStatus (job : BatchImageJob) (provider : BatchImageProvider Account)
    (account : Account) (status : BatchProviderStatus) (now : Time)
    : Prog BatchImageProcessResult :=
  let again := mkProcess (requeueDelay (SuggestedRequeueAfter status)) false in
  match InternalState status with
  | BatchProviderStateQueued | BatchProviderStateOther _ => tret again
  | BatchProviderStateRunning =>
      if negb (String.eqb (Status job) BatchImageJobStatusRunning) then
        let! _ := TransitionBatchImageJobStatus (BatchID job) BatchImageJobStatusRunning None
                    "provider_status_checked" now in
        tret again
      else tret again
  | BatchProviderStateSucceeded =>
      let! job := (if negb (String.eqb (Status job) BatchImageJobStatusIndexing) then
                     let! _ := TransitionBatchImageJobStatus (BatchID job)
                                 BatchImageJobStatusIndexing None "indexing_started" now in
                     tret (moved_to BatchImageJobStatusIndexing job)
                   else tret job) in
      indexAndSettle job provider account now
  | BatchProviderStateFailed | BatchProviderStateExpired =>
      let code := TrimSpace (status_ErrorCode status) in
      let code := if String.eqb code "" then
                    match InternalState status with
                    | BatchProviderStateExpired => "PROVIDER_BATCH_EXPIRED"
                    | _ => "PROVIDER_BATCH_FAILED"
                    end
                  else code in
      endJob job BatchImageJobStatusFailed (Some code) now
  | BatchProviderStateCancelled => endJob job BatchImageJobStatusCancelled None now
  end.

(** [BatchImageProviderProcessor.Process]. *)
Definition ProviderProcess (batchID : string) (now : Time) : Prog BatchImageProcessResult :=
  let! job := GetBatchImageJobByBatchID batchID in
  if isBatchImageProcessorDoneStatus (Status job) then
    let! _ := releaseTerminalHold job in tret (mkProcess 0 true)
  else match ProviderRegistry C (Provider job) with
  | None => tfail ErrBatchImageUnsupportedProvider
  | Some provider =>
      if default 0 (AccountID job) <=? 0 then tfail ErrBatchImageMissingAccountID
      else match ResolveBatchImageAccount C (default 0 (AccountID job)) with
      | Err e => tfail e
      | Ok account =>
          if negb (SupportsAccount provider account) then tfail ErrBatchImageProviderUnsupportedAccount
          else if String.eqb (TrimSpace (batchImageDerefString (ProviderJobName job))) ""
          then tfail ErrBatchImageMissingProviderJobName
          else if String.eqb (Status job) BatchImageJobStatusIndexing
          then indexAndSettle job provider account now
          else match provider_Get provider job account with
          | Err _ => tret (mkProcess batchImageProviderErrorRequeue false)
          | Ok None => tret (mkProcess (requeueDelay 0) false)
          | Ok (Some status) =>
              let! job := persistProviderOutputRef job (status_OutputRef status) now in
              processStatus job provider account status now
          end
      end
  end.

(** [BatchImagePipelineProcessor.Process]. *)
Definition Process (batchID : string) (now : Time) : Prog BatchImageProcessResult :=
  let! job := GetBatchImageJobByBatchID batchID in
  if String.eqb (Status job) BatchImageJobStatusSettling then
    let! r := ttry (Settle (BatchImageUnitPrice C) (outputRetentionAfterTerminal C) batchID now) in
    match r with
    | Ok _ => tret (mkProcess 0 true)
    | Err e =>
        if is_reason billingFailed e then
          let! updated := ttry (GetBatchImageJobByBatchID batchID) in
          let delay := if RetryDelay C <=? 0 then batchImageSettlementRetryDelay else RetryDelay C in
          match updated with
          | Ok updated =>
              if IsTerminalBatchImageJobStatus (Status updated) then tret (mkProcess 0 true)
              else tret (mkProcess delay false)
          | Err _ => tret (mkProcess delay false)
          end
        else tfail e
    end
  else ProviderProcess batchID now.
End Call.

(** ** Recovery of submissions that died *)

(** One stale job: whether it was released, and the error it leaves. *)
Definition release_stale_job (job : BatchImageJob) (cutoff now : Time) : Prog (bool * option goerr) :=
  let! r := FailStaleUnsubmittedBatchImageJob (BatchID job) cutoff "SUBMIT_STALE_BEFORE_PROVIDER" now in
  match r with
  | (false, e) => tret (false, e)
  | (true, _) =>
      let! r := ttry (releaseBatchImageBalanceHold job (batchImageDerefString (RequestHash job))) in
      match r with
      | Err e => let! _ := best_effort (Enqueued (BatchID job)) in tret (false, Some e)
      | Ok _ => let! _ := invalidateAuthCache (UserID job) in tret (true, None)
      end
  end.

Fixpoint release_stale_jobs (jobs : list BatchImageJob) (cutoff now : Time) (released : Z)
    (lastErr : option goerr) : Prog (Z * option goerr) :=
  match jobs with
  | [] => tret (released, lastErr)
  | job :: jobs =>
      let! x := release_stale_job job cutoff now in
      release_stale_jobs jobs cutoff now (if x.1 then released + 1 else released)
        (match x.2 with Some e => Some e | None => lastErr end)
  end.

Definition defaultBatchImageBillingRecoveryStaleAfter : Duration := 10 * Minute.
Definition defaultBatchImageBillingRecoveryLimit : Z := 100.

Definition ReleaseStaleUnsubmittedOnce (StaleAfter : Duration) (Limit : Z) (now : Time)
    : Prog (Z * option goerr) :=
  let staleAfter := if StaleAfter <=? 0 then defaultBatchImageBillingRecoveryStaleAfter else StaleAfter in
  let limit := if Limit <=? 0 then defaultBatchImageBillingRecoveryLimit else Limit in
  let cutoff := now - staleAfter in
  let! jobs := ListStaleUnsubmittedBatchImageJobs cutoff limit in
  release_stale_jobs jobs cutoff now 0 None.
End BatchProcessor.
