(* ===== verification/BatchQueue.v ===== *)
(** * The queue of batch image jobs and its worker

[repository/batch_image_queue.go], the queue in Redis and the lock of a job,
[service/batch_image_queue.go], and the worker of
[service/batch_image_worker.go].

A job is reserved from a list of ready jobs into a set of active ones, and goes
back through a set of delayed ones until its processor has ended it; a claim, a
key per job, keeps it from being queued twice.  The worker is written against
the interface [BatchImageQueue], which the code has as a Go interface. *)
From S2P Require Import Prelude GoText Programs Redis.
From S2P Require BatchProcessor.
From Stdlib Require Import Bool.

Local Open Scope string_scope.
Local Open Scope Z_scope.

Definition ErrBatchImageQueueEmpty : goerr := ErrApp 404 "BATCH_IMAGE_QUEUE_EMPTY".
Definition ErrBatchImageAlreadyQueued : goerr := ErrApp 409 "BATCH_IMAGE_ALREADY_QUEUED".
Definition ErrInvalidBatchImageQueuePayload : goerr :=
  ErrApp 400 "BATCH_IMAGE_QUEUE_INVALID_PAYLOAD".
Definition ErrBatchImageQueueNotConfigured : goerr :=
  ErrApp 500 "BATCH_IMAGE_QUEUE_NOT_CONFIGURED".

Definition IsValidBatchImageID (batchID : string) : bool :=
  HasPrefix batchID "imgbatch_" && (len "imgbatch_" <? len batchID).

(** ** Options *)

Record batchImageQueueOptions : Type := mkQueueOptions {
  ReadyKey : string;
  DelayedKey : string;
  ActiveKey : string;
  InflightPrefix : string;
  LockPrefix : string;
  InflightTTL : Duration;
  LockTTL : Duration
}.

Definition defaultBatchImageReadyKey := "batch_image:queue:ready".
Definition defaultBatchImageDelayedKey := "batch_image:queue:delayed".
Definition defaultBatchImageActiveKey := "batch_image:queue:active".
Definition defaultBatchImageInflightPrefix := "batch_image:queue:inflight:".
Definition defaultBatchImageLockPrefix := "batch_image:queue:lock:".
Definition defaultBatchImageInflightTTL : Duration := 7 * 24 * Hour.
Definition defaultBatchImageJobLockTTL : Duration := 5 * Minute.
Definition batchImageReservePollInterval : Duration := Second.

(** The fields of [config.BatchImageConfig] that the queue and the worker read. *)
Record BatchImageConfig : Type := mkBatchImageConfig {
  QueueReadyKey : string;
  QueueDelayedKey : string;
  QueueActiveKey : string;
  InflightKeyPrefix : string;
  LockKeyPrefix : string;
  InflightTTLSeconds : Z;
  JobLockTTLSeconds : Z;
  DefaultRequeueDelaySeconds : Z;
  ErrorRetryDelaySeconds : Z;
  LockConflictDelaySeconds : Z;
  StaleActiveAfterSeconds : Z;
  DelayedMoverIntervalSeconds : Z;
  RecoveryIntervalSeconds : Z;
  cfg_DelayedMoveLimit : Z;
  cfg_RecoverLimit : Z
}.

Definition batchImageQueueOptionsFromConfig (cfg : option BatchImageConfig) : batchImageQueueOptions :=
  match cfg with
  | None => mkQueueOptions "" "" "" "" "" 0 0
  | Some c => mkQueueOptions (QueueReadyKey c) (QueueDelayedKey c) (QueueActiveKey c)
                (InflightKeyPrefix c) (LockKeyPrefix c)
                (InflightTTLSeconds c *! Second) (JobLockTTLSeconds c *! Second)
  end.

Definition or_default_string (s d : string) : string := if String.eqb s "" then d else s.
Definition or_default (v d : Z) : Z := if v <=? 0 then d else v.

Definition normalizeBatchImageQueueOptions (opts : batchImageQueueOptions) : batchImageQueueOptions :=
  mkQueueOptions
    (or_default_string (ReadyKey opts) defaultBatchImageReadyKey)
    (or_default_string (DelayedKey opts) defaultBatchImageDelayedKey)
    (or_default_string (ActiveKey opts) defaultBatchImageActiveKey)
    (or_default_string (InflightPrefix opts) defaultBatchImageInflightPrefix)
    (or_default_string (LockPrefix opts) defaultBatchImageLockPrefix)
    (or_default (InflightTTL opts) defaultBatchImageInflightTTL)
    (or_default (LockTTL opts) defaultBatchImageJobLockTTL).

(** [NewBatchImageQueue]: a queue is its normalised options. *)
Definition NewBatchImageQueue (cfg : option BatchImageConfig) : batchImageQueueOptions :=
  normalizeBatchImageQueueOptions (batchImageQueueOptionsFromConfig cfg).

Definition inflightKey (q : batchImageQueueOptions) (batchID : string) : string :=
  InflightPrefix q +:+ batchID.
Definition lockKey (q : batchImageQueueOptions) (batchID : string) : string :=
  LockPrefix q +:+ batchID.

(** ** Scripts *)

Section Scripts.
Context `{Redis Db}.

(** The loop of the scripts that move members of a sorted set to a list. *)
Fixpoint move_jobs (from to : string) (jobs : list string) : Script Db unit :=
  match jobs with
  | [] => sret tt
  | job :: jobs =>
      do! _ := call (ZREM from job) in
      do! _ := call (LPUSH to job) in
      move_jobs from to jobs
  end.

Definition batchImageMoveDueDelayedScript (delayed ready : string) (max limit : Z) : Script Db Z :=
  do! r := call (ZRANGEBYSCORE delayed max limit) in
  do! _ := move_jobs delayed ready (reply_members r) in
  sret (Z.of_nat (length (reply_members r))).

Definition batchImageRecoverStaleActiveScript (active ready : string) (max limit : Z) : Script Db Z :=
  do! r := call (ZRANGEBYSCORE active max limit) in
  do! _ := move_jobs active ready (reply_members r) in
  sret (Z.of_nat (length (reply_members r))).

Definition batchImageReleaseLockScript (key token : string) : Script Db Reply :=
  do! cur := call (GET key) in
  match cur with
  | Bulk t => if String.eqb t token then call (DEL key) else sret (Int 0)
  | _ => sret (Int 0)
  end.

Definition batchImageRefreshLockScript (key token : string) (ms : Z) : Script Db Reply :=
  do! cur := call (GET key) in
  match cur with
  | Bulk t => if String.eqb t token then call (PEXPIRE key ms) else sret (Int 0)
  | _ => sret (Int 0)
  end.

Definition batchImageReserveScript (ready active : string) (now : Z) : Script Db Reply :=
  do! job := call (RPOP ready) in
  match job with
  | Bulk b => do! _ := call (ZADD active now b) in sret job
  | _ => sret Nil
  end.

Definition batchImageEnqueueScript (inflight ready batchID : string) (ms : Z) : Script Db Reply :=
  do! r := call (SET inflight batchID true (Some ms)) in
  match r with
  | StatusOK => do! _ := call (LPUSH ready batchID) in sret (Int 1)
  | _ => sret (Int 0)
  end.

End Scripts.

(** ** The interface of the queue *)

Record BatchImageJobLock (Db : Type) : Type := mkLock {
  Release : Client Db unit;
  Refresh : option (Duration -> Client Db unit)
}.
Arguments mkLock {_}.
Arguments Release {_}.
Arguments Refresh {_}.

Record ReservedBatchImageJob : Type := mkReserved { BatchID : string }.

Record BatchImageQueue (Db : Type) : Type := mkQueue {
  Enqueue : string -> Client Db unit;
  Reserve : Duration -> Client Db ReservedBatchImageJob;
  RequeueAfter : string -> Duration -> Client Db unit;
  Ack : string -> Client Db unit;
  Heartbeat : string -> Client Db unit;
  MoveDueDelayedToReady : Z -> Client Db Z;
  RecoverStaleActive : Duration -> Z -> Client Db Z;
  TryAcquireJobLock : string -> Duration -> Client Db (option (BatchImageJobLock Db))
}.
Arguments mkQueue {_}.
Arguments Enqueue {_}.
Arguments Reserve {_}.
Arguments RequeueAfter {_}.
Arguments Ack {_}.
Arguments Heartbeat {_}.
Arguments MoveDueDelayedToReady {_}.
Arguments RecoverStaleActive {_}.
Arguments TryAcquireJobLock {_}.

(** [EnqueueBatchImageJob] of the service; the lookup of the job is an input. *)
Definition EnqueueBatchImageJob {Db} (repo : option (string -> res unit))
    (queue : option (BatchImageQueue Db)) (batchID : string) : Client Db unit :=
  if negb (IsValidBatchImageID batchID) then tfail ErrInvalidBatchImageQueuePayload
  else match queue with
  | None => tfail ErrBatchImageQueueNotConfigured
  | Some q =>
      match repo with
      | Some get => match get batchID with Err e => tfail e | Ok _ => Enqueue q batchID end
      | None => Enqueue q batchID
      end
  end.

(** ** The queue in Redis *)

Module Queue.
Section Queue.
Context `{Redis Db} (q : batchImageQueueOptions).

Definition Enqueue (batchID : string) : Client Db unit :=
  if negb (IsValidBatchImageID batchID) then tfail ErrInvalidBatchImageQueuePayload
  else
    let! r := request (batchImageEnqueueScript (inflightKey q batchID) (ReadyKey q) batchID
                         (Milliseconds (InflightTTL q))) in
    match reply_int r with
    | Err e => tfail e
    | Ok applied => if applied =? 0 then tfail ErrBatchImageAlreadyQueued else tret tt
    end.

Definition reserveOnce : Client Db string :=
  let! now := time_now in
  let! raw := request (batchImageReserveScript (ReadyKey q) (ActiveKey q) (UnixMilli now)) in
  match raw with
  | Nil => tfail ErrBatchImageQueueEmpty
  | Bulk batchID =>
      if IsValidBatchImageID batchID then tret batchID
      else
        let! _ := (if String.eqb batchID "" then tret tt
                   else let! _ := ttry (request (call (ZREM (ActiveKey q) batchID))) in tret tt) in
        tfail ErrInvalidBatchImageQueuePayload
  | _ => tfail ErrInvalidBatchImageQueuePayload
  end.

(** The polls of [Reserve], [None] when the fuel ends. *)
Fixpoint reserve_polls (fuel : nat) (deadline : Time) : Client Db (option ReservedBatchImageJob) :=
  match fuel with
  | O => tret None
  | S f =>
      let! r := ttry reserveOnce in
      match r with
      | Ok batchID => tret (Some (mkReserved batchID))
      | Err e =>
          if negb (bool_decide (e = ErrBatchImageQueueEmpty)) then tfail e
          else
            let! now := time_now in
            let remaining := Sub deadline now in
            if remaining <=? 0 then tfail ErrBatchImageQueueEmpty
            else
              let wait := if remaining <? batchImageReservePollInterval then remaining
                          else batchImageReservePollInterval in
              let! cancelled := pause wait in
              if cancelled then tfail ErrContextCanceled else reserve_polls f deadline
      end
  end.

(** One poll at once, and one after each interval of the timeout. *)
Definition polls_of (blockTimeout : Duration) : nat :=
  S (S (Z.to_nat (blockTimeout / batchImageReservePollInterval))).

Definition Reserve (blockTimeout : Duration) : Client Db ReservedBatchImageJob :=
  let! now := time_now in
  let! r := reserve_polls (polls_of blockTimeout) (Add now blockTimeout) in
  match r with Some job => tret job | None => tfail (ErrMsg "out of fuel") end.

Definition RequeueAfter (batchID : string) (delay : Duration) : Client Db unit :=
  if negb (IsValidBatchImageID batchID) then tfail ErrInvalidBatchImageQueuePayload
  else
    let! now := time_now in
    let back := if delay <=? 0 then LPUSH (ReadyKey q) batchID
                else ZADD (DelayedKey q) (UnixMilli (Add now delay)) batchID in
    let! _ := request (multi [ZREM (ActiveKey q) batchID; ZREM (DelayedKey q) batchID; back]) in
    tret tt.

Definition Ack (batchID : string) : Client Db unit :=
  if negb (IsValidBatchImageID batchID) then tfail ErrInvalidBatchImageQueuePayload
  else
    let! _ := request (multi [ZREM (ActiveKey q) batchID; ZREM (DelayedKey q) batchID;
                              DEL (inflightKey q batchID)]) in
    tret tt.

Definition Heartbeat (batchID : string) : Client Db unit :=
  if negb (IsValidBatchImageID batchID) then tfail ErrInvalidBatchImageQueuePayload
  else
    let! now := time_now in
    let! _ := request (call (ZADDXX (ActiveKey q) (UnixMilli now) batchID)) in
    tret tt.

Definition MoveDueDelayedToReady (limit : Z) : Client Db Z :=
  let limit := if limit <=? 0 then 100 else limit in
  let! now := time_now in
  request (batchImageMoveDueDelayedScript (DelayedKey q) (ReadyKey q) (UnixMilli now) limit).

Definition RecoverStaleActive (staleAfter : Duration) (limit : Z) : Client Db Z :=
  if staleAfter <=? 0 then tfail ErrInvalidBatchImageQueuePayload
  else
    let limit := if limit <=? 0 then 100 else limit in
    let! now := time_now in
    let cutoff := UnixMilli (Add now (- staleAfter)) in
    request (batchImageRecoverStaleActiveScript (ActiveKey q) (ReadyKey q) cutoff limit).

(** [batchImageRedisJobLock]; a lock that the queue makes has its client. *)
Record batchImageRedisJobLock : Type := mkRedisLock { key : string; token : string }.

Definition Release (l : batchImageRedisJobLock) : Client Db unit :=
  if String.eqb (key l) "" || String.eqb (token l) "" then tret tt
  else let! _ := request (batchImageReleaseLockScript (key l) (token l)) in tret tt.

Definition Refresh (l : batchImageRedisJobLock) (ttl : Duration) : Client Db unit :=
  if String.eqb (key l) "" || String.eqb (token l) "" then tret tt
  else
    let ttl := or_default ttl defaultBatchImageJobLockTTL in
    let! _ := request (batchImageRefreshLockScript (key l) (token l) (Milliseconds ttl)) in
    tret tt.

Definition job_lock (l : batchImageRedisJobLock) : BatchImageJobLock Db :=
  mkLock (Release l) (Some (Refresh l)).

(** The token is what [newBatchImageLockToken] draws, or its error. *)
Definition TryAcquireJobLock (newToken : res string) (batchID : string) (ttl : Duration)
    : Client Db (option (BatchImageJobLock Db)) :=
  if negb (IsValidBatchImageID batchID) then tfail ErrInvalidBatchImageQueuePayload
  else
    let ttl := if ttl <=? 0 then LockTTL q else ttl in
    match newToken with
    | Err e => tfail e
    | Ok token =>
        let key := lockKey q batchID in
        let! r := request (call (SET key token true (expiration ttl))) in
        match r with
        | StatusOK => tret (Some (job_lock (mkRedisLock key token)))
        | _ => tret None
        end
    end.

Definition queue (newToken : res string) : BatchImageQueue Db :=
  mkQueue Enqueue Reserve RequeueAfter Ack Heartbeat MoveDueDelayedToReady RecoverStaleActive
    (TryAcquireJobLock newToken).

End Queue.
End Queue.

(** ** The worker *)

Record BatchImageWorkerOptions : Type := mkWorkerOptions {
  ReserveBlockTimeout : Duration;
  JobLockTTL : Duration;
  LockConflictDelay : Duration;
  DefaultRequeueDelay : Duration;
  ErrorRetryDelay : Duration;
  ErrorBackoff : Duration;
  DelayedPollInterval : Duration;
  RecoveryInterval : Duration;
  StaleActiveAfter : Duration;
  DelayedMoveLimit : Z;
  RecoverLimit : Z
}.

Definition normalizeBatchImageWorkerOptions (opts : BatchImageWorkerOptions) : BatchImageWorkerOptions :=
  mkWorkerOptions
    (or_default (ReserveBlockTimeout opts) (5 * Second))
    (or_default (JobLockTTL opts) (5 * Minute))
    (or_default (LockConflictDelay opts) (5 * Second))
    (or_default (DefaultRequeueDelay opts) (30 * Second))
    (or_default (ErrorRetryDelay opts) Minute)
    (or_default (ErrorBackoff opts) Second)
    (or_default (DelayedPollInterval opts) (5 * Second))
    (or_default (RecoveryInterval opts) (5 * Minute))
    (or_default (StaleActiveAfter opts) (10 * Minute))
    (or_default (DelayedMoveLimit opts) 100)
    (or_default (RecoverLimit opts) 100).

Definition NewBatchImageWorkerOptionsFromConfig (cfg : option BatchImageConfig)
    : BatchImageWorkerOptions :=
  normalizeBatchImageWorkerOptions
    match cfg with
    | None => mkWorkerOptions 0 0 0 0 0 0 0 0 0 0 0
    | Some c => mkWorkerOptions 0 (JobLockTTLSeconds c *! Second)
                  (LockConflictDelaySeconds c *! Second) (DefaultRequeueDelaySeconds c *! Second)
                  (ErrorRetryDelaySeconds c *! Second) 0 (DelayedMoverIntervalSeconds c *! Second)
                  (RecoveryIntervalSeconds c *! Second) (StaleActiveAfterSeconds c *! Second)
                  (cfg_DelayedMoveLimit c) (cfg_RecoverLimit c)
    end.

Definition heartbeatInterval (opts : BatchImageWorkerOptions) : Duration :=
  let interval := if StaleActiveAfter opts <? JobLockTTL opts then StaleActiveAfter opts
                  else JobLockTTL opts in
  let interval := Z.quot interval 3 in
  if interval <? Second then Second else interval.

Section Worker.
Context `{Redis Db} (queue : BatchImageQueue Db) (opts : BatchImageWorkerOptions).

(** The ticks of [runJobHeartbeat] while a job is processed. *)
Fixpoint heartbeats (n : nat) (batchID : string) (lock : BatchImageJobLock Db) : Client Db unit :=
  match n with
  | O => tret tt
  | S n =>
      let! _ := ttry (Heartbeat queue batchID) in
      let! _ := match Refresh lock with
                | Some refresh => let! _ := ttry (refresh (JobLockTTL opts)) in tret tt
                | None => tret tt
                end in
      heartbeats n batchID lock
  end.

(** What follows the processor's answer. *)
Definition settle_job (batchID : string) (result : res BatchProcessor.BatchImageProcessResult)
    : Client Db unit :=
  match result with
  | Err _ => RequeueAfter queue batchID (ErrorRetryDelay opts)
  | Ok result =>
      if BatchProcessor.Terminal result then Ack queue batchID
      else
        let delay := if BatchProcessor.RequeueAfter result <=? 0 then DefaultRequeueDelay opts
                     else BatchProcessor.RequeueAfter result in
        RequeueAfter queue batchID delay
  end.

(** [RunOnce]; what the processor answers is an input, and so is the number of
heartbeats until it does. *)
Definition RunOnce (process : string -> res BatchProcessor.BatchImageProcessResult) (beats : nat)
    : Client Db unit :=
  let! reserved := ttry (Reserve queue (ReserveBlockTimeout opts)) in
  match reserved with
  | Err e => if bool_decide (e = ErrBatchImageQueueEmpty) then tret tt else tfail e
  | Ok reserved =>
      let b := BatchID reserved in
      let! lock := ttry (TryAcquireJobLock queue b (JobLockTTL opts)) in
      match lock with
      | Err e =>
          let! _ := RequeueAfter queue b (LockConflictDelay opts) in
          tfail e
      | Ok None => RequeueAfter queue b (LockConflictDelay opts)
      | Ok (Some lock) =>
          let! _ := heartbeats beats b lock in
          let! r := ttry (settle_job b (process b)) in
          let! _ := ttry (Release lock) in
          match r with Ok _ => tret tt | Err e => tfail e end
      end
  end.

Definition MoveDueDelayedOnce : Client Db Z := MoveDueDelayedToReady queue (DelayedMoveLimit opts).

Definition RecoverStaleActiveOnce : Client Db Z :=
  RecoverStaleActive queue (StaleActiveAfter opts) (RecoverLimit opts).

Definition sleepOrDone (d : Duration) : Client Db unit :=
  if d <=? 0 then tret tt else let! _ := pause d in tret tt.

Definition ctx_err : Client Db bool := fun w fs => (Ok (ctx_done w), w, fs).

(** The loops of the worker, for a number of turns. *)
Fixpoint Run (turns : list ((string -> res BatchProcessor.BatchImageProcessResult) * nat))
    : Client Db unit :=
  match turns with
  | [] => tret tt
  | (process, beats) :: turns =>
      let! stopped := ctx_err in
      if stopped then tret tt
      else
        let! r := ttry (RunOnce process beats) in
        let! stopped := ctx_err in
        let! _ := match r with
                  | Err _ => if stopped then tret tt else sleepOrDone (ErrorBackoff opts)
                  | Ok _ => tret tt
                  end in
        Run turns
  end.

Fixpoint RunDelayedMover (n : nat) : Client Db unit :=
  match n with
  | O => tret tt
  | S n =>
      let! stopped := ctx_err in
      if stopped then tret tt
      else
        let! moved := ttry MoveDueDelayedOnce in
        let! _ := (if 0 <? match moved with Ok m => m | Err _ => 0 end then tret tt
                   else sleepOrDone (DelayedPollInterval opts)) in
        RunDelayedMover n
  end.

Fixpoint RunStaleActiveRecovery (n : nat) : Client Db unit :=
  match n with
  | O => tret tt
  | S n =>
      let! stopped := ctx_err in
      if stopped then tret tt
      else
        let! _ := ttry RecoverStaleActiveOnce in
        let! _ := sleepOrDone (RecoveryInterval opts) in
        RunStaleActiveRecovery n
  end.

End Worker.

(** ** The keys of a queue *)

(** The keys of the queue are apart; so they are for the default options. *)
Record keys_ok (q : batchImageQueueOptions) : Prop := {
  ready_delayed : ReadyKey q <> DelayedKey q;
  ready_active : ReadyKey q <> ActiveKey q;
  delayed_active : DelayedKey q <> ActiveKey q;
  inflight_apart b : inflightKey q b <> ReadyKey q /\ inflightKey q b <> DelayedKey q /\
                     inflightKey q b <> ActiveKey q;
  lock_apart b : lockKey q b <> ReadyKey q /\ lockKey q b <> DelayedKey q /\
                 lockKey q b <> ActiveKey q;
  lock_inflight b b' : lockKey q b <> inflightKey q b'
}.

Lemma default_keys_ok : keys_ok (NewBatchImageQueue None).
Proof.
  split; try (vm_compute; discriminate);
    intros b; unfold inflightKey, lockKey; cbn; repeat split; discriminate.
Qed.

Lemma inflightKey_inj q b b' : inflightKey q b = inflightKey q b' -> b = b'.
Proof. unfold inflightKey. apply (inj (String.append _)). Qed.

Lemma lockKey_inj q b b' : lockKey q b = lockKey q b' -> b = b'.
Proof. unfold lockKey. apply (inj (String.append _)). Qed.

Section Theory.
Context `{Redis Db} (q : batchImageQueueOptions) (Hq : keys_ok q).
Implicit Types (db : Db) (l : list string) (d a : zset) (b : string).

(** The three collections of the queue; they never expire. *)
Record queue_at (db : Db) (l : list string) (d a : zset) : Prop := {
  at_ready : peek db (ReadyKey q) = list_entry l None;
  at_delayed : peek db (DelayedKey q) = zset_entry d None;
  at_active : peek db (ActiveKey q) = zset_entry a None
}.

(** The entries of the keys of the single jobs. *)
Definition claim_of (db : Db) (b : string) : entry := peek db (inflightKey q b).
Definition lock_of (db : Db) (b : string) : entry := peek db (lockKey q b).

Definition same_locks (db db' : Db) : Prop := forall b, lock_of db' b = lock_of db b.
Definition same_claims (db db' : Db) : Prop := forall b, claim_of db' b = claim_of db b.

(** What the steps of a queue change: the collections only. *)
Definition moved (db db' : Db) (l : list string) (d a : zset) : Prop :=
  queue_at db' l d a /\ same_locks db db' /\ same_claims db db' /\ micros db' = micros db.

Lemma queue_moved_refl db l d a : queue_at db l d a -> moved db db l d a.
Proof. by intros Ha. Qed.

Lemma moved_trans db db1 db2 l1 d1 a1 l2 d2 a2 :
  moved db db1 l1 d1 a1 -> moved db1 db2 l2 d2 a2 -> moved db db2 l2 d2 a2.
Proof.
  intros (_ & Hl1 & Hc1 & Hm1) (Ha & Hl2 & Hc2 & Hm2). split; [done|].
  split; [intros b; by rewrite Hl2|split; [intros b; by rewrite Hc2|by rewrite Hm2]].
Qed.

Lemma upd_ready l' db db' l d a :
  queue_at db l d a -> upd (ReadyKey q) (list_entry l' None) db db' -> moved db db' l' d a.
Proof.
  destruct Hq as [Hrd Hra Hda Hi Hl Hli]. intros [Hr Hd Ha] (Hk & Ho & Hm).
  split; [|split; [|split; [|done]]].
  - split; [done| |]; by rewrite Ho.
  - intros b. apply Ho. apply Hl.
  - intros b. apply Ho. apply Hi.
Qed.

Lemma upd_delayed d' db db' l d a :
  queue_at db l d a -> upd (DelayedKey q) (zset_entry d' None) db db' -> moved db db' l d' a.
Proof.
  destruct Hq as [Hrd Hra Hda Hi Hl Hli]. intros [Hr Hd Ha] (Hk & Ho & Hm).
  split; [|split; [|split; [|done]]].
  - split; [|done|]; by rewrite Ho.
  - intros b. apply Ho. apply Hl.
  - intros b. apply Ho. apply Hi.
Qed.

Lemma upd_active a' db db' l d a :
  queue_at db l d a -> upd (ActiveKey q) (zset_entry a' None) db db' -> moved db db' l d a'.
Proof.
  destruct Hq as [Hrd Hra Hda Hi Hl Hli]. intros [Hr Hd Ha] (Hk & Ho & Hm).
  split; [|split; [|split; [|done]]].
  - split; [| |done]; by rewrite Ho.
  - intros b. apply Ho. apply Hl.
  - intros b. apply Ho. apply Hi.
Qed.

(** A command on one of the collections. *)
Lemma swp_ready f c (Q : res Reply -> Db -> Prop) db l d a :
  queue_at db l d a -> key_of c = ReadyKey q ->
  (forall en, effect (server_ms db) c en = on_list en f) ->
  (forall db', moved db db' (f l).1 d a -> Q (reply_res (f l).2) db') ->
  swp (call c) Q db.
Proof.
  intros Ha Hk Hf HQ. eapply swp_call.
  - by rewrite Hk, (at_ready _ _ _ _ Ha), Hf, on_list_forever.
  - intros db' Hu. rewrite Hk in Hu. apply HQ. by eapply upd_ready.
Qed.

Lemma swp_delayed f c (Q : res Reply -> Db -> Prop) db l d a :
  queue_at db l d a -> key_of c = DelayedKey q ->
  (forall en, effect (server_ms db) c en = on_zset en f) ->
  (forall db', moved db db' l (f d).1 a -> Q (reply_res (f d).2) db') ->
  swp (call c) Q db.
Proof.
  intros Ha Hk Hf HQ. eapply swp_call.
  - by rewrite Hk, (at_delayed _ _ _ _ Ha), Hf, on_zset_forever.
  - intros db' Hu. rewrite Hk in Hu. apply HQ. by eapply upd_delayed.
Qed.

Lemma swp_active f c (Q : res Reply -> Db -> Prop) db l d a :
  queue_at db l d a -> key_of c = ActiveKey q ->
  (forall en, effect (server_ms db) c en = on_zset en f) ->
  (forall db', moved db db' l d (f a).1 -> Q (reply_res (f a).2) db') ->
  swp (call c) Q db.
Proof.
  intros Ha Hk Hf HQ. eapply swp_call.
  - by rewrite Hk, (at_active _ _ _ _ Ha), Hf, on_zset_forever.
  - intros db' Hu. rewrite Hk in Hu. apply HQ. by eapply upd_active.
Qed.

(** *** What the scripts do *)

Lemma move_jobs_spec (from to : string) jobs z l (Q : res unit -> Db -> Prop) db :
  from <> to -> peek db from = zset_entry z None -> peek db to = list_entry l None ->
  (forall db', peek db' from = zset_entry (filter (fun p => p.1 ∉ jobs) z) None ->
     peek db' to = list_entry (reverse jobs ++ l) None ->
     (forall k, k <> from -> k <> to -> peek db' k = peek db k) -> micros db' = micros db ->
     Q (Ok tt) db') ->
  swp (move_jobs from to jobs) Q db.
Proof.
  intros Hne. revert z l db; induction jobs as [|j jobs IH]; intros z l db Hz Hl HQ.
  - apply swp_ret. apply HQ; [|done..]. rewrite Hz. f_equal. symmetry. apply map_filter_id.
    intros k v _. apply not_elem_of_nil.
  - cbn [move_jobs]. apply swp_bind. eapply swp_call; [cbn; by rewrite Hz, on_zset_forever|].
    intros db1 (Hz1 & Ho1 & Hm1). cbn in Hz1, Ho1 |- *.
    apply swp_bind. eapply swp_call; [cbn; by rewrite Ho1, Hl, on_list_forever by done|].
    intros db2 (Hl2 & Ho2 & Hm2). cbn in Hl2, Ho2 |- *.
    apply (IH (delete j z) (j :: l)); [by rewrite Ho2 by done|done|].
    intros db' Hz' Hl' Ho' Hm'. apply HQ.
    + rewrite Hz'. f_equal. apply map_eq. intros k. rewrite !map_lookup_filter, lookup_delete.
      case_decide; [subst|]; simpl; [|].
      * destruct (z !! k); simpl; [|done]. rewrite option_guard_False; [done|]. set_solver.
      * destruct (z !! k); simpl; [|done].
        destruct (decide (k ∈ jobs)); [rewrite !option_guard_False|rewrite !option_guard_True]; set_solver.
    + by rewrite Hl', reverse_cons, <- app_assoc.
    + intros k H1 H2. rewrite Ho', Ho2, Ho1; done.
    + by rewrite Hm', Hm2, Hm1.
Qed.

(** Nothing has changed. *)
Definition same (db db' : Db) : Prop := (forall k, peek db' k = peek db k) /\ micros db' = micros db.

Lemma upd_same k db db' : upd k (peek db k) db db' -> same db db'.
Proof.
  intros (Hk & Ho & Hm). split; [|done]. intros k'. destruct (decide (k' = k)) as [->|]; auto.
Qed.

Lemma same_moved db db' l d a : queue_at db l d a -> same db db' -> moved db db' l d a.
Proof.
  intros [Hr Hd Ha] [Hp Hm]. split; [by split; rewrite Hp|].
  split; [intros b; apply Hp|split; [intros b; apply Hp|done]].
Qed.

(** A command on the claim or on the lock of a job. *)
Lemma upd_claim b en db db' l d a :
  queue_at db l d a -> upd (inflightKey q b) en db db' ->
  queue_at db' l d a /\ same_locks db db' /\ claim_of db' b = en /\
  (forall b', b' <> b -> claim_of db' b' = claim_of db b').
Proof.
  destruct Hq as [Hrd Hra Hda Hi Hlk Hli]. intros [Hr Hd Ha] (Hk & Ho & Hm).
  destruct (Hi b) as (H1 & H2 & H3). split; [split; rewrite Ho by congruence; done|].
  split; [intros b'; apply Ho; apply Hli|split; [done|]].
  intros b' Hb. apply Ho. intros E. by apply inflightKey_inj in E.
Qed.

Lemma upd_lock b en db db' l d a :
  queue_at db l d a -> upd (lockKey q b) en db db' ->
  queue_at db' l d a /\ same_claims db db' /\ lock_of db' b = en /\
  (forall b', b' <> b -> lock_of db' b' = lock_of db b').
Proof.
  destruct Hq as [Hrd Hra Hda Hi Hlk Hli]. intros [Hr Hd Ha] (Hk & Ho & Hm).
  destruct (Hlk b) as (H1 & H2 & H3). split; [split; rewrite Ho by congruence; done|].
  split; [intros b'; apply Ho; intros E; by eapply Hli|split; [done|]].
  intros b' Hb. apply Ho. intros E. by apply lockKey_inj in E.
Qed.

Lemma enqueue_claimed b ms db (Q : res Reply -> Db -> Prop) :
  0 < ms -> (claim_of db b).1 <> None -> (forall db', same db db' -> Q (Ok (Int 0)) db') ->
  swp (batchImageEnqueueScript (inflightKey q b) (ReadyKey q) b ms) Q db.
Proof.
  intros Hms Hc HQ. unfold batchImageEnqueueScript. apply swp_bind.
  eapply (swp_call _ (claim_of db b)).
  - cbn [effect key_of]. rewrite (proj2 (Z.leb_gt ms 0)) by lia. cbn.
    by rewrite bool_decide_eq_true_2 by done.
  - intros db' Hu%upd_same. by apply HQ.
Qed.

Lemma enqueue_fresh b ms db l d a (Q : res Reply -> Db -> Prop) :
  queue_at db l d a -> 0 < ms -> (claim_of db b).1 = None ->
  (forall db', queue_at db' (b :: l) d a -> same_locks db db' ->
     claim_of db' b = (Some (RString b), Some (server_ms db + ms)) ->
     (forall b', b' <> b -> claim_of db' b' = claim_of db b') ->
     Q (Ok (Int 1)) db') ->
  swp (batchImageEnqueueScript (inflightKey q b) (ReadyKey q) b ms) Q db.
Proof.
  intros Ha Hms Hc HQ. unfold batchImageEnqueueScript. apply swp_bind.
  eapply (swp_call _ (Some (RString b), Some (server_ms db + ms))).
  { cbn [effect key_of]. rewrite (proj2 (Z.leb_gt ms 0)) by lia. cbn.
    by rewrite bool_decide_eq_false_2 by tauto. }
  intros db1 Hu. apply (upd_claim b _ _ _ _ _ _ Ha) in Hu as (Ha1 & Hl1 & Hc1 & Ho1). cbn.
  apply swp_bind. eapply swp_ready; [exact Ha1|done|cbn; done|].
  intros db2 (Ha2 & Hl2 & Hc2 & Hm2). cbn in Ha2 |- *. apply swp_ret, HQ; [done| | |].
  - intros b'. by rewrite Hl2, Hl1.
  - by rewrite Hc2.
  - intros b' Hb'. by rewrite Hc2, Ho1.
Qed.

Lemma reserve_empty now db d a (Q : res Reply -> Db -> Prop) :
  queue_at db [] d a -> (forall db', moved db db' [] d a -> Q (Ok Nil) db') ->
  swp (batchImageReserveScript (ReadyKey q) (ActiveKey q) now) Q db.
Proof.
  intros Ha HQ. unfold batchImageReserveScript. apply swp_bind.
  eapply swp_ready; [exact Ha|done|cbn; done|]. intros db' Hm. cbn in *. by apply swp_ret, HQ.
Qed.

Lemma reserve_job b now db l d a (Q : res Reply -> Db -> Prop) :
  queue_at db (l ++ [b]) d a ->
  (forall db', moved db db' l d (<[b := now]> a) -> Q (Ok (Bulk b)) db') ->
  swp (batchImageReserveScript (ReadyKey q) (ActiveKey q) now) Q db.
Proof.
  intros Ha HQ. unfold batchImageReserveScript. apply swp_bind.
  eapply swp_ready; [exact Ha|done|cbn; done|]. intros db1 Hm1.
  cbn in Hm1 |- *. rewrite last_snoc in *. cbn in Hm1 |- *.
  rewrite length_app, Nat.add_sub, take_app_length in Hm1.
  apply swp_bind. eapply swp_active; [exact (proj1 Hm1)|done|cbn; done|].
  intros db2 Hm2. cbn in Hm2 |- *. apply swp_ret, HQ. by eapply moved_trans.
Qed.

(** The transactions of [RequeueAfter] and [Ack]. *)
Lemma unschedule b cs (Q : res (list Reply) -> Db -> Prop) db l d a :
  queue_at db l d a ->
  (forall db' x y, moved db db' l (delete b d) (delete b a) ->
     swp (multi cs) (fun rs db'' => Q (match rs with Ok rs => Ok (x :: y :: rs) | Err e => Err e end) db'')
       db') ->
  swp (multi (ZREM (ActiveKey q) b :: ZREM (DelayedKey q) b :: cs)) Q db.
Proof.
  intros Ha HQ. apply swp_multi_cons. eapply swp_active; [exact Ha|done|cbn; done|].
  intros db1 Hm1. cbn in Hm1 |- *. eexists. split; [done|].
  apply swp_multi_cons. eapply swp_delayed; [exact (proj1 Hm1)|done|cbn; done|].
  intros db2 Hm2. cbn in Hm2 |- *. eexists. split; [done|].
  eapply swp_mono; [apply HQ; by eapply moved_trans|]. intros [rs|e] db'; simpl; eauto.
Qed.

Lemma requeue_now b db l d a (Q : res (list Reply) -> Db -> Prop) :
  queue_at db l d a ->
  (forall db' rs, moved db db' (b :: l) (delete b d) (delete b a) -> Q (Ok rs) db') ->
  swp (multi [ZREM (ActiveKey q) b; ZREM (DelayedKey q) b; LPUSH (ReadyKey q) b]) Q db.
Proof.
  intros Ha HQ. eapply unschedule; [exact Ha|]. intros db1 x y Hm1. apply swp_multi_cons.
  eapply swp_ready; [exact (proj1 Hm1)|done|cbn; done|]. intros db2 Hm2. cbn in Hm2 |- *.
  eexists. split; [done|]. apply swp_multi_nil, HQ. by eapply moved_trans.
Qed.

Lemma requeue_later b t db l d a (Q : res (list Reply) -> Db -> Prop) :
  queue_at db l d a ->
  (forall db' rs, moved db db' l (<[b := t]> d) (delete b a) -> Q (Ok rs) db') ->
  swp (multi [ZREM (ActiveKey q) b; ZREM (DelayedKey q) b; ZADD (DelayedKey q) t b]) Q db.
Proof.
  intros Ha HQ. eapply unschedule; [exact Ha|]. intros db1 x y Hm1. apply swp_multi_cons.
  eapply swp_delayed; [exact (proj1 Hm1)|done|cbn; done|]. intros db2 Hm2.
  cbn in Hm2 |- *. rewrite insert_delete_eq in Hm2.
  eexists. split; [done|]. apply swp_multi_nil, HQ. by eapply moved_trans.
Qed.

Lemma ack_job b db l d a (Q : res (list Reply) -> Db -> Prop) :
  queue_at db l d a ->
  (forall db' rs, queue_at db' l (delete b d) (delete b a) -> same_locks db db' ->
     (claim_of db' b).1 = None -> (forall b', b' <> b -> claim_of db' b' = claim_of db b') ->
     Q (Ok rs) db') ->
  swp (multi [ZREM (ActiveKey q) b; ZREM (DelayedKey q) b; DEL (inflightKey q b)]) Q db.
Proof.
  intros Ha HQ. eapply unschedule; [exact Ha|]. intros db1 x y (Ha1 & Hl1 & Hc1 & Hm1).
  apply swp_multi_cons. eapply swp_call; [cbn; done|].
  intros db2 Hu. apply (upd_claim b _ _ _ _ _ _ Ha1) in Hu as (Ha2 & Hl2 & Hc2 & Ho2).
  eexists. split; [done|]. apply swp_multi_nil, HQ; [done| | |].
  - intros b'. by rewrite Hl2, Hl1.
  - by rewrite Hc2.
  - intros b' Hb. by rewrite Ho2, Hc1.
Qed.

(** The jobs that a move takes: the first by their scores, up to a limit. *)
Definition due_jobs (z : zset) (max limit : Z) : list string :=
  take (Z.to_nat limit) (map fst (zset_upto z max)).

Definition without (jobs : list string) (z : zset) : zset := filter (fun p => p.1 ∉ jobs) z.

Lemma move_due max limit db l d a (Q : res Z -> Db -> Prop) :
  queue_at db l d a ->
  (let jobs := due_jobs d max limit in forall db',
   moved db db' (reverse jobs ++ l) (without jobs d) a -> Q (Ok (Z.of_nat (length jobs))) db') ->
  swp (batchImageMoveDueDelayedScript (DelayedKey q) (ReadyKey q) max limit) Q db.
Proof.
  destruct Hq as [Hrd Hra Hda Hi Hlk Hli]. intros Ha HQ. cbv zeta in HQ.
  unfold batchImageMoveDueDelayedScript. apply swp_bind.
  eapply swp_delayed; [exact Ha|done|cbn; done|]. intros db1 (Ha1 & Hl1 & Hc1 & Hm1).
  cbn in Ha1 |- *. apply swp_bind.
  eapply move_jobs_spec; [|apply (at_delayed _ _ _ _ Ha1)|apply (at_ready _ _ _ _ Ha1)|]; [done|].
  intros db2 Hz2 Hl2 Ho2 Hm2. apply swp_ret, HQ. destruct Ha1.
  split; [split; [done|done|by rewrite Ho2]|].
  split; [intros b; rewrite <- Hl1; apply Ho2; apply Hlk|].
  split; [intros b; rewrite <- Hc1; apply Ho2; apply Hi|]. by rewrite Hm2.
Qed.

Lemma recover_stale max limit db l d a (Q : res Z -> Db -> Prop) :
  queue_at db l d a ->
  (let jobs := due_jobs a max limit in forall db',
   moved db db' (reverse jobs ++ l) d (without jobs a) -> Q (Ok (Z.of_nat (length jobs))) db') ->
  swp (batchImageRecoverStaleActiveScript (ActiveKey q) (ReadyKey q) max limit) Q db.
Proof.
  destruct Hq as [Hrd Hra Hda Hi Hlk Hli]. intros Ha HQ. cbv zeta in HQ.
  unfold batchImageRecoverStaleActiveScript. apply swp_bind.
  eapply swp_active; [exact Ha|done|cbn; done|]. intros db1 (Ha1 & Hl1 & Hc1 & Hm1).
  cbn in Ha1 |- *. apply swp_bind.
  eapply move_jobs_spec; [|apply (at_active _ _ _ _ Ha1)|apply (at_ready _ _ _ _ Ha1)|]; [done|].
  intros db2 Hz2 Hl2 Ho2 Hm2. apply swp_ret, HQ. destruct Ha1.
  split; [split; [done|by rewrite Ho2|done]|].
  split; [intros b; rewrite <- Hl1; apply Ho2; apply Hlk|].
  split; [intros b; rewrite <- Hc1; apply Ho2; apply Hi|]. by rewrite Hm2.
Qed.

(** *** No job is lost *)

(** A job that is claimed can be found in the queue. *)
Definition queued (l : list string) (d a : zset) (b : string) : Prop :=
  b ∈ l \/ is_Some (d !! b) \/ is_Some (a !! b).

Definition tracked (db : Db) : Prop :=
  exists l d a, queue_at db l d a /\
    forall b, IsValidBatchImageID b = true -> (claim_of db b).1 <> None -> queued l d a b.

(** A step that does not touch the locks. *)
Definition steps_to (db db' : Db) : Prop := tracked db' /\ same_locks db db'.

Lemma tracked_moved db db' l d a l' d' a' :
  queue_at db l d a ->
  (forall b, IsValidBatchImageID b = true -> (claim_of db b).1 <> None -> queued l d a b) ->
  moved db db' l' d' a' ->
  (forall b, IsValidBatchImageID b = true -> queued l d a b -> queued l' d' a' b) ->
  steps_to db db'.
Proof.
  intros Ha Hcov (Ha' & Hl & Hc & _) Himp. split; [|done]. exists l', d', a'. split; [done|].
  intros b Hv Hb. apply Himp; [done|]. apply Hcov; [done|]. by rewrite <- Hc.
Qed.

Lemma tracked_same db db' : tracked db -> same db db' -> steps_to db db'.
Proof.
  intros (l & d & a & Ha & Hcov) Hs. eapply tracked_moved; [done|done|by apply same_moved|done].
Qed.

Lemma queued_without b l (z : zset) (jobs : list string) :
  b ∈ l \/ is_Some (z !! b) -> b ∈ (reverse jobs ++ l)%list \/ is_Some (without jobs z !! b).
Proof.
  intros Hb. destruct (decide (b ∈ jobs)) as [Hj|Hj].
  - left. rewrite elem_of_app. left. by rewrite elem_of_reverse || (rewrite <- (reverse_reverse jobs); by rewrite ?elem_of_reverse).
  - destruct Hb as [Hb|Hb]; [left; set_solver|right].
    destruct Hb as [v Hv]. exists v. unfold without. apply map_lookup_filter_Some. by split.
Qed.

Lemma tracked_lock b en db db' : tracked db -> upd (lockKey q b) en db db' -> tracked db'.
Proof.
  intros (l & d & a & Ha & Hcov) Hu.
  destruct (upd_lock b en db db' l d a Ha Hu) as (Ha' & Hc & _). exists l, d, a. split; [done|].
  intros b' Hv Hb. apply Hcov; [done|]. by rewrite <- Hc.
Qed.

Lemma enqueue_tracked b ms db : tracked db ->
  swp (batchImageEnqueueScript (inflightKey q b) (ReadyKey q) b ms) (fun _ => steps_to db) db.
Proof.
  intros Ht. destruct (Z.leb_spec ms 0) as [Hms|Hms].
  - unfold batchImageEnqueueScript. apply swp_bind. eapply (swp_call _ (claim_of db b)).
    + cbn [effect key_of]. by rewrite (proj2 (Z.leb_le ms 0)) by lia.
    + intros db' Hu%upd_same. cbn. by eapply tracked_same.
  - destruct (decide ((claim_of db b).1 = None)) as [Hc|Hc].
    + destruct Ht as (l & d & a & Ha & Hcov). eapply enqueue_fresh; [done|lia|done|].
      intros db' Ha' Hl Hb Ho. split; [|done]. exists (b :: l), d, a. split; [done|]. intros b' Hv Hb'.
      destruct (decide (b' = b)) as [->|Hne]; [left; constructor|].
      rewrite Ho in Hb' by done. destruct (Hcov b' Hv Hb') as [?|?]; [left; by constructor|by right].
    + apply enqueue_claimed; [lia|done|]. intros db' Hs. by eapply tracked_same.
Qed.

Lemma reserve_tracked now db : tracked db ->
  swp (batchImageReserveScript (ReadyKey q) (ActiveKey q) now) (fun _ => steps_to db) db.
Proof.
  intros (l & d & a & Ha & Hcov). destruct l as [|b l _] using rev_ind.
  - eapply reserve_empty; [done|]. intros db' Hm. by eapply tracked_moved.
  - eapply reserve_job; [done|]. intros db' Hm. eapply tracked_moved; [done..|].
    intros b' _ [[Hb|Hb%list_elem_of_singleton]%elem_of_app|[Hb|Hb]].
    + by left.
    + subst. right. right. rewrite lookup_insert_eq. by eexists.
    + by right; left.
    + right. right. destruct (decide (b' = b)) as [->|]; [rewrite lookup_insert_eq; by eexists|].
      by rewrite lookup_insert_ne.
Qed.

(** Only an identifier that is not valid is dropped. *)
Lemma drop_tracked b db : IsValidBatchImageID b = false -> tracked db ->
  swp (call (ZREM (ActiveKey q) b)) (fun _ => steps_to db) db.
Proof.
  intros Hb (l & d & a & Ha & Hcov). eapply swp_active; [done|done|cbn; done|].
  intros db' Hm. cbn in Hm. eapply tracked_moved; [done..|].
  intros b' Hv [?|[?|?]]; [by left|by right; left|]. right. right.
  rewrite lookup_delete_ne; [done|]. congruence.
Qed.

Lemma requeue_now_tracked b db : tracked db ->
  swp (multi [ZREM (ActiveKey q) b; ZREM (DelayedKey q) b; LPUSH (ReadyKey q) b])
    (fun _ => steps_to db) db.
Proof.
  intros (l & d & a & Ha & Hcov). eapply requeue_now; [done|]. intros db' rs Hm.
  eapply tracked_moved; [done..|]. intros b' _ Hb. unfold queued in *.
  destruct (decide (b' = b)) as [->|]; [left; constructor|].
  rewrite !lookup_delete_ne by done. set_solver.
Qed.

Lemma requeue_later_tracked b t db : tracked db ->
  swp (multi [ZREM (ActiveKey q) b; ZREM (DelayedKey q) b; ZADD (DelayedKey q) t b])
    (fun _ => steps_to db) db.
Proof.
  intros (l & d & a & Ha & Hcov). eapply requeue_later; [done|]. intros db' rs Hm.
  eapply tracked_moved; [done..|]. intros b' _ Hb. unfold queued in *.
  destruct (decide (b' = b)) as [->|]; [right; left; rewrite lookup_insert_eq; by eexists|].
  by rewrite lookup_insert_ne, lookup_delete_ne.
Qed.

(** A job that is acknowledged is no longer claimed. *)
Lemma ack_tracked b db : tracked db ->
  swp (multi [ZREM (ActiveKey q) b; ZREM (DelayedKey q) b; DEL (inflightKey q b)])
    (fun _ => steps_to db) db.
Proof.
  intros (l & d & a & Ha & Hcov). eapply ack_job; [done|]. intros db' rs Ha' Hl Hb Ho.
  split; [|done]. exists l, (delete b d), (delete b a). split; [done|]. intros b' Hv Hb'.
  destruct (decide (b' = b)) as [->|]; [done|]. rewrite Ho in Hb' by done.
  unfold queued. rewrite !lookup_delete_ne by done. by apply Hcov.
Qed.

Lemma heartbeat_tracked b now db : tracked db ->
  swp (call (ZADDXX (ActiveKey q) now b)) (fun _ => steps_to db) db.
Proof.
  intros (l & d & a & Ha & Hcov). eapply swp_active; [done|done|cbn; done|].
  intros db' Hm. cbn in Hm. eapply tracked_moved; [done..|].
  intros b' _ [?|[?|Hb]]; [by left|by right; left|]. right. right. case_decide; [|done].
  destruct (decide (b' = b)) as [->|]; [rewrite lookup_insert_eq; by eexists|].
  by rewrite lookup_insert_ne.
Qed.

Lemma move_due_tracked max limit db : tracked db ->
  swp (batchImageMoveDueDelayedScript (DelayedKey q) (ReadyKey q) max limit) (fun _ => steps_to db) db.
Proof.
  intros (l & d & a & Ha & Hcov). eapply move_due; [done|]. intros jobs db' Hm.
  eapply tracked_moved; [done..|]. intros b' _ [Hb|[Hb|Hb]]; [..|by right; right].
  - left. set_solver.
  - destruct (queued_without b' l d (due_jobs d max limit) (or_intror Hb)); [by left|by right; left].
Qed.

Lemma recover_tracked max limit db : tracked db ->
  swp (batchImageRecoverStaleActiveScript (ActiveKey q) (ReadyKey q) max limit) (fun _ => steps_to db) db.
Proof.
  intros (l & d & a & Ha & Hcov). eapply recover_stale; [done|]. intros jobs db' Hm.
  eapply tracked_moved; [done..|]. intros b' _ [Hb|[Hb|Hb]]; [|by right; left|].
  - left. set_solver.
  - destruct (queued_without b' l a (due_jobs a max limit) (or_intror Hb)); [by left|by right; right].
Qed.

(** The commands on a lock. *)
Lemma lock_call_tracked b c db : key_of c = lockKey q b -> tracked db ->
  swp (call c) (fun _ => tracked) db.
Proof.
  intros Hk Ht. eapply swp_call; [apply surjective_pairing|]. intros db' Hu. rewrite Hk in Hu.
  by eapply tracked_lock.
Qed.

Lemma release_tracked b t db : tracked db ->
  swp (batchImageReleaseLockScript (lockKey q b) t) (fun _ => tracked) db.
Proof.
  intros Ht. apply swp_bind. eapply swp_mono; [by apply (lock_call_tracked b)|].
  intros [r|e] db' Ht'; [|done]. repeat case_match; try done. by apply (lock_call_tracked b).
Qed.

Lemma refresh_tracked b t ms db : tracked db ->
  swp (batchImageRefreshLockScript (lockKey q b) t ms) (fun _ => tracked) db.
Proof.
  intros Ht. apply swp_bind. eapply swp_mono; [by apply (lock_call_tracked b)|].
  intros [r|e] db' Ht'; [|done]. repeat case_match; try done. by apply (lock_call_tracked b).
Qed.

(** Time takes claims and locks away, and nothing else. *)
Lemma elapse_tracked n db : tracked db -> tracked (elapse n db).
Proof.
  intros (l & d & a & [Hr Hd Ha] & Hcov).
  assert (Hkeep : forall k v, peek db k = entry_of v None -> peek (elapse n db) k = entry_of v None).
  { intros k v Hk. rewrite elapse_peek, Hk. by destruct v. }
  exists l, d, a. split; [split; by apply Hkeep|]. intros b Hv Hb. apply Hcov; [done|].
  unfold claim_of in *. rewrite elapse_peek in Hb. by case_match.
Qed.

End Theory.

(** ** What the worker asks of a queue

The worker keeps whatever the operations of its queue keep. *)

Definition lock_keeps {Db} (I : Db -> Prop) (lock : BatchImageJobLock Db) : Prop :=
  keeps I (Release lock) /\
  match Refresh lock with Some refresh => forall ttl, keeps I (refresh ttl) | None => True end.

Class QueueKeeps {Db} (I : Db -> Prop) (queue : BatchImageQueue Db) : Prop := {
  Enqueue_keeps b : keeps I (Enqueue queue b);
  Reserve_keeps timeout : keeps I (Reserve queue timeout);
  RequeueAfter_keeps b delay : keeps I (RequeueAfter queue b delay);
  Ack_keeps b : keeps I (Ack queue b);
  Heartbeat_keeps b : keeps I (Heartbeat queue b);
  MoveDueDelayedToReady_keeps limit : keeps I (MoveDueDelayedToReady queue limit);
  RecoverStaleActive_keeps stale limit : keeps I (RecoverStaleActive queue stale limit);
  TryAcquireJobLock_keeps b ttl w : kept I w ->
    wp (TryAcquireJobLock queue b ttl)
      (fun r w' => kept I w' /\ forall lock, r = Ok (Some lock) -> lock_keeps I lock) w
}.

#[export] Hint Resolve Enqueue_keeps Reserve_keeps RequeueAfter_keeps Ack_keeps Heartbeat_keeps
  MoveDueDelayedToReady_keeps RecoverStaleActive_keeps : go.

Section WorkerKeeps.
Context `{Redis Db} (I : Db -> Prop) (queue : BatchImageQueue Db) `{!QueueKeeps I queue}.
Context (opts : BatchImageWorkerOptions).

Lemma heartbeats_keeps n b lock : lock_keeps I lock -> keeps I (heartbeats queue opts n b lock).
Proof.
  intros [Hrel Href]. induction n as [|n IH]; cbn [heartbeats]; [auto with go|].
  apply keeps_bind; [auto with go|]. intros _. apply keeps_bind; [|intros _; exact IH].
  destruct (Refresh lock); [|auto with go]. apply keeps_bind; auto with go.
Qed.

Lemma settle_job_keeps b r : keeps I (settle_job queue opts b r).
Proof. unfold settle_job. repeat case_match; auto with go. Qed.

Lemma RunOnce_keeps process beats : keeps I (RunOnce queue opts process beats).
Proof.
  apply keeps_bind; [auto with go|]. intros [[b]|e]; [|case_match; auto with go].
  intros w Hw. apply wp_bind, wp_try. eapply wp_mono; [by apply TryAcquireJobLock_keeps|].
  intros r w' [Hw' Hlock]. destruct r as [[lock|]|e]; cbn [BatchID].
  - specialize (Hlock lock eq_refl). assert (Hk : keeps I (
      let! _ := heartbeats queue opts beats b lock in
      let! r := ttry (settle_job queue opts b (process b)) in
      let! _ := ttry (Release lock) in
      match r with Ok _ => tret tt | Err e => tfail e end)); [|by apply Hk].
    apply keeps_bind; [by apply heartbeats_keeps|]. intros _.
    apply keeps_bind; [apply keeps_try, settle_job_keeps|]. intros r.
    apply keeps_bind; [apply keeps_try, Hlock|]. intros _. case_match; auto with go.
  - by apply RequeueAfter_keeps.
  - assert (Hk : keeps I (let! _ := RequeueAfter queue b (LockConflictDelay opts) in
      tfail e : Client Db unit)); [|by apply Hk].
    apply keeps_bind; auto with go.
Qed.

Lemma sleepOrDone_keeps d : keeps I (sleepOrDone (Db := Db) d).
Proof. unfold sleepOrDone. case_match; [auto with go|]. apply keeps_bind; auto with go. Qed.

Lemma ctx_err_keeps : keeps I (ctx_err (Db := Db)).
Proof. by intros w Hw fs. Qed.

Lemma Run_keeps ts : keeps I (Run queue opts ts).
Proof.
  induction ts as [|[process beats] ts IH]; cbn [Run]; [auto with go|].
  apply keeps_bind; [apply ctx_err_keeps|]. intros stopped. case_match; [auto with go|].
  apply keeps_bind; [apply keeps_try, RunOnce_keeps|]. intros r.
  apply keeps_bind; [apply ctx_err_keeps|]. intros stopped'.
  apply keeps_bind; [|intros _; exact IH].
  repeat case_match; auto using sleepOrDone_keeps with go.
Qed.

Lemma RunDelayedMover_keeps n : keeps I (RunDelayedMover queue opts n).
Proof.
  induction n as [|n IH]; cbn [RunDelayedMover]; [auto with go|].
  apply keeps_bind; [apply ctx_err_keeps|]. intros stopped. case_match; [auto with go|].
  apply keeps_bind; [unfold MoveDueDelayedOnce; auto with go|]. intros r.
  apply keeps_bind; [|intros _; exact IH]. repeat case_match; auto using sleepOrDone_keeps with go.
Qed.

Lemma RunStaleActiveRecovery_keeps n : keeps I (RunStaleActiveRecovery queue opts n).
Proof.
  induction n as [|n IH]; cbn [RunStaleActiveRecovery]; [auto with go|].
  apply keeps_bind; [apply ctx_err_keeps|]. intros stopped. case_match; [auto with go|].
  apply keeps_bind; [unfold RecoverStaleActiveOnce; auto with go|]. intros r.
  apply keeps_bind; [apply sleepOrDone_keeps|]. intros _. exact IH.
Qed.

End WorkerKeeps.

(** ** The queue in Redis loses no job *)

Section Tracking.
Context `{Redis Db} (q : batchImageQueueOptions) (Hq : keys_ok q).

Lemma keeps_swp {A} (s : Script Db A) :
  (forall db, tracked q db -> swp s (fun _ => tracked q) db) -> keeps (tracked q) (request s).
Proof. intros Hs. apply keeps_request. intros db. apply Hs. Qed.

Lemma keeps_steps {A} (s : Script Db A) :
  (forall db, tracked q db -> swp s (fun _ => steps_to q db) db) -> keeps (tracked q) (request s).
Proof. intros Hs. apply keeps_request. intros db Ht. by apply Hs. Qed.

Lemma reserveOnce_keeps : keeps (tracked q) (Queue.reserveOnce q).
Proof.
  unfold Queue.reserveOnce. apply keeps_bind; [auto with go|]. intros now.
  apply keeps_bind; [apply keeps_steps; intros; by apply reserve_tracked|].
  intros raw. destruct raw; try (auto with go; fail).
  destruct (IsValidBatchImageID s) eqn:Hv; [auto with go|].
  apply keeps_bind; [|auto with go]. case_match; [auto with go|].
  apply keeps_bind; [|auto with go]. apply keeps_try, keeps_steps. intros. by apply drop_tracked.
Qed.

Lemma reserve_polls_keeps n deadline : keeps (tracked q) (Queue.reserve_polls q n deadline).
Proof.
  induction n as [|n IH]; cbn [Queue.reserve_polls]; [auto with go|].
  apply keeps_bind; [apply keeps_try, reserveOnce_keeps|]. intros [b|e]; [auto with go|].
  case_match; [auto with go|]. apply keeps_bind; [auto with go|]. intros now.
  case_match; [auto with go|]. apply keeps_bind; [auto with go|]. intros c. case_match; auto with go.
Qed.

#[export] Instance redis_queue_keeps tok : QueueKeeps (tracked q) (Queue.queue q tok).
Proof.
  split; cbn [Enqueue Reserve RequeueAfter Ack Heartbeat MoveDueDelayedToReady RecoverStaleActive
              TryAcquireJobLock Queue.queue].
  - intros b. unfold Queue.Enqueue. case_match; [auto with go|].
    apply keeps_bind; [apply keeps_steps; intros; by apply enqueue_tracked|].
    intros r. repeat case_match; auto with go.
  - intros timeout. unfold Queue.Reserve. apply keeps_bind; [auto with go|]. intros now.
    apply keeps_bind; [apply reserve_polls_keeps|]. intros r. case_match; auto with go.
  - intros b delay. unfold Queue.RequeueAfter. case_match; [auto with go|].
    apply keeps_bind; [auto with go|]. intros now. apply keeps_bind; [|auto with go].
    apply keeps_steps. intros db Ht. case_match; [by apply requeue_now_tracked|by apply requeue_later_tracked].
  - intros b. unfold Queue.Ack. case_match; [auto with go|].
    apply keeps_bind; [|auto with go]. apply keeps_steps. intros. by apply ack_tracked.
  - intros b. unfold Queue.Heartbeat. case_match; [auto with go|].
    apply keeps_bind; [auto with go|]. intros now. apply keeps_bind; [|auto with go].
    apply keeps_steps. intros. by apply heartbeat_tracked.
  - intros limit. unfold Queue.MoveDueDelayedToReady. apply keeps_bind; [auto with go|]. intros now.
    apply keeps_steps. intros. by apply move_due_tracked.
  - intros stale limit. unfold Queue.RecoverStaleActive. case_match; [auto with go|].
    apply keeps_bind; [auto with go|]. intros now. apply keeps_steps. intros. by apply recover_tracked.
  - intros b ttl w Hw. unfold Queue.TryAcquireJobLock.
    case_match; [apply wp_fail; by split|]. destruct tok as [t|e]; [|apply wp_fail; by split].
    apply wp_bind. eapply wp_mono.
    { apply keeps_swp; [|exact Hw]. intros. by apply (lock_call_tracked q Hq b). }
    intros [r|e] w' Hw'; [|by split]. destruct r; apply wp_ret; (split; [done|]); try done.
    intros lock [= <-]. split; cbn.
    + unfold Queue.Release. case_match; [auto with go|]. apply keeps_bind; [|auto with go].
      apply keeps_swp. intros. by apply release_tracked.
    + intros d. unfold Queue.Refresh. case_match; [auto with go|]. apply keeps_bind; [|auto with go].
      apply keeps_swp. intros. by apply refresh_tracked.
Qed.

End Tracking.
