(* ===== verification/BatchQueueRuns.v ===== *)
(** * Histories of the queue and runs of its worker

What the queue of [BatchQueue] promises: over all histories of requests, with
faults and with any number of clients, no claimed job leaves the queue and a lock
has one holder; and what a run of the worker does when it is alone. *)
From S2P Require Import Prelude GoText Programs Redis BatchQueue.
From S2P Require BatchProcessor.
From Stdlib Require Import Bool.

Local Open Scope string_scope.
Local Open Scope Z_scope.

(** ** Histories

The requests that clients of the queue send, the commands of others on keys that
are not the queue's, and the passing of time in microseconds. *)
Inductive QueueOp : Type :=
  | OpEnqueue (b : string) (ms : Z)
  | OpReserve (now : Z)
  | OpDrop (b : string)
  | OpRequeueNow (b : string)
  | OpRequeueAt (b : string) (t : Z)
  | OpAck (b : string)
  | OpHeartbeat (b : string) (now : Z)
  | OpMoveDue (max limit : Z)
  | OpRecover (max limit : Z)
  | OpAcquire (b token : string) (px : option Z)
  | OpRelease (b token : string)
  | OpRefresh (b token : string) (ms : Z)
  | OpElapse (n : Z)
  | OpForeign (c : Command).

Definition queue_key (q : batchImageQueueOptions) (k : string) : Prop :=
  k = ReadyKey q \/ k = DelayedKey q \/ k = ActiveKey q \/
  exists b, k = inflightKey q b \/ k = lockKey q b.

(** Only invalid identifiers are dropped, and others keep to their keys. *)
Definition legal (q : batchImageQueueOptions) (op : QueueOp) : Prop :=
  match op with
  | OpDrop b => IsValidBatchImageID b = false
  | OpForeign c => ~ queue_key q (key_of c)
  | _ => True
  end.

Section Histories.
Context `{Redis Db} (q : batchImageQueueOptions).

Definition run_op (op : QueueOp) (db : Db) : Db :=
  match op with
  | OpEnqueue b ms => (batchImageEnqueueScript (inflightKey q b) (ReadyKey q) b ms db).1
  | OpReserve now => (batchImageReserveScript (ReadyKey q) (ActiveKey q) now db).1
  | OpDrop b => (call (ZREM (ActiveKey q) b) db).1
  | OpRequeueNow b =>
      (multi [ZREM (ActiveKey q) b; ZREM (DelayedKey q) b; LPUSH (ReadyKey q) b] db).1
  | OpRequeueAt b t =>
      (multi [ZREM (ActiveKey q) b; ZREM (DelayedKey q) b; ZADD (DelayedKey q) t b] db).1
  | OpAck b =>
      (multi [ZREM (ActiveKey q) b; ZREM (DelayedKey q) b; DEL (inflightKey q b)] db).1
  | OpHeartbeat b now => (call (ZADDXX (ActiveKey q) now b) db).1
  | OpMoveDue max limit =>
      (batchImageMoveDueDelayedScript (DelayedKey q) (ReadyKey q) max limit db).1
  | OpRecover max limit =>
      (batchImageRecoverStaleActiveScript (ActiveKey q) (ReadyKey q) max limit db).1
  | OpAcquire b token px => (call (SET (lockKey q b) token true px) db).1
  | OpRelease b token => (batchImageReleaseLockScript (lockKey q b) token db).1
  | OpRefresh b token ms => (batchImageRefreshLockScript (lockKey q b) token ms db).1
  | OpElapse n => elapse n db
  | OpForeign c => (exec c db).1
  end.

Definition run_ops (ops : list QueueOp) (db : Db) : Db := foldl (fun db op => run_op op db) db ops.

Lemma quiet_move_jobs from to jobs : quiet (move_jobs from to jobs).
Proof.
  induction jobs as [|j jobs IH]; [apply quiet_ret|]. cbn [move_jobs].
  repeat (apply quiet_bind; [apply quiet_call|intros _]). exact IH.
Qed.

Lemma run_op_micros op db : micros db <= micros (run_op op db).
Proof.
  destruct op; cbn [run_op];
    try (match goal with |- _ <= micros (?s db).1 =>
           assert (Hs : quiet s) by (unfold batchImageEnqueueScript, batchImageReserveScript,
             batchImageMoveDueDelayedScript, batchImageRecoverStaleActiveScript,
             batchImageReleaseLockScript, batchImageRefreshLockScript;
             repeat first [apply quiet_move_jobs | quiet_step]);
           rewrite Hs; lia end).
  - rewrite elapse_micros. lia.
  - rewrite exec_micros. lia.
Qed.

Lemma run_ops_micros ops db : micros db <= micros (run_ops ops db).
Proof.
  revert db; induction ops as [|op ops IH]; intros db; cbn; [lia|].
  pose proof (run_op_micros op db). specialize (IH (run_op op db)). unfold run_ops in IH. lia.
Qed.

Context (Hq : keys_ok q).

Lemma foreign_upd c db : ~ queue_key q (key_of c) -> tracked q db -> steps_to q db (exec c db).1.
Proof.
  intros Hk (l & d & a & [Hr Hd Ha] & Hcov).
  assert (Ho : forall k, queue_key q k -> peek (exec c db).1 k = peek db k).
  { intros k Hqk. apply exec_other. by intros ->. }
  split; [|intros b; apply Ho; unfold queue_key; eauto 7].
  exists l, d, a. split; [split; rewrite Ho; unfold queue_key; tauto|].
  intros b Hv Hb. apply Hcov; [done|]. unfold claim_of in *. rewrite Ho in Hb; [done|].
  unfold queue_key. eauto 7.
Qed.

(** The operations that do not work on locks. *)
Lemma op_steps op db : legal q op -> tracked q db ->
  match op with
  | OpAcquire b _ _ | OpRelease b _ | OpRefresh b _ _ => True
  | OpElapse _ => True
  | _ => steps_to q db (run_op op db)
  end.
Proof.
  intros Hl Ht. destruct op; cbn [run_op] in *; try done.
  - by apply enqueue_tracked.
  - by apply reserve_tracked.
  - by apply drop_tracked.
  - by apply requeue_now_tracked.
  - by apply requeue_later_tracked.
  - by apply ack_tracked.
  - by apply heartbeat_tracked.
  - by apply move_due_tracked.
  - by apply recover_tracked.
  - by apply foreign_upd.
Qed.

Lemma op_tracked op db : legal q op -> tracked q db -> tracked q (run_op op db).
Proof.
  intros Hl Ht. pose proof (op_steps op db Hl Ht) as Hs. destruct op; try apply Hs; cbn [run_op].
  - by apply (lock_call_tracked q Hq b).
  - by apply release_tracked.
  - by apply refresh_tracked.
  - by apply elapse_tracked.
Qed.

Lemma ops_tracked ops db : Forall (legal q) ops -> tracked q db -> tracked q (run_ops ops db).
Proof.
  intros Hl. revert db; induction Hl as [|op ops Hop _ IH]; intros db Ht; [done|].
  apply IH. by apply op_tracked.
Qed.

End Histories.

(** ** The lock of a job *)

(** The operation is not one of the holder of the lock. *)
Definition not_by (b token : string) (op : QueueOp) : Prop :=
  match op with
  | OpRelease b' t | OpRefresh b' t _ => b' = b -> t <> token
  | _ => True
  end.

Section Locks.
Context `{Redis Db} (q : batchImageQueueOptions) (Hq : keys_ok q).

Lemma lock_other b b' en db db' : b' <> b -> upd (lockKey q b') en db db' ->
  lock_of q db' b = lock_of q db b.
Proof. intros Hb (_ & Ho & _). apply Ho. intros E. apply lockKey_inj in E. congruence. Qed.

(** A script that works on the lock of another job. *)
Lemma lock_other_call b b' c db : key_of c = lockKey q b' -> b' <> b ->
  lock_of q (call c db).1 b = lock_of q db b.
Proof.
  intros Hk Hb. rewrite call_db. apply exec_other. rewrite Hk. intros E.
  apply lockKey_inj in E. congruence.
Qed.

(** A read of the lock and what follows, for another token. *)
Lemma guarded_lock b b' t t' e db (c : Command) :
  lock_of q db b = (Some (RString t), e) -> key_of c = lockKey q b' -> (b' = b -> t' <> t) ->
  lock_of q (sbind (call (GET (lockKey q b'))) (fun cur => match cur with
    | Bulk s => if String.eqb s t' then call c else sret (Int 0)
    | _ => sret (Int 0)
    end) db).1 b = (Some (RString t), e).
Proof.
  intros Hlock Hk Ht.
  assert (Hget : swp (call (GET (lockKey q b'))) (fun r db' => lock_of q db' b = lock_of q db b /\
    (b' = b -> r = Ok (Bulk t))) db).
  { eapply swp_call; [done|]. intros db' Hu%upd_same. split; [apply Hu|].
    intros ->. unfold lock_of in Hlock. cbn. by rewrite Hlock. }
  unfold swp, sbind in *. destruct (call (GET _) db) as [db1 [r|er]]; destruct Hget as [Hl Hr];
    cbn in *; [|by rewrite Hl].
  destruct (decide (b' = b)) as [->|Hb].
  - specialize (Hr eq_refl). injection Hr as ->. specialize (Ht eq_refl).
    destruct (String.eqb_spec t t'); [congruence|]. cbn. by rewrite Hl.
  - destruct r; cbn; try by rewrite Hl. case_match; cbn; [|by rewrite Hl].
    rewrite (lock_other_call b b') by done. by rewrite Hl.
Qed.

(** An operation of someone else leaves a lock that has not expired. *)
Lemma lock_step op b t e db :
  legal q op -> not_by b t op -> tracked q db -> lock_of q db b = (Some (RString t), Some e) ->
  server_ms (run_op q op db) <= e -> lock_of q (run_op q op db) b = (Some (RString t), Some e).
Proof.
  intros Hl Hn Ht Hlock He. pose proof (op_steps q Hq op db Hl Ht) as Hs.
  destruct op; try (by rewrite <- Hlock; apply Hs); cbn [run_op] in *.
  - destruct (decide (b0 = b)) as [->|Hb]; [|by rewrite (lock_other_call b b0)].
    assert (Hk : swp (call (SET (lockKey q b) token true px))
                   (fun _ db' => lock_of q db' b = (Some (RString t), Some e)) db); [|exact Hk].
    unfold lock_of in Hlock. eapply (swp_call _ (Some (RString t), Some e)
      (match match px with Some ms => ms <=? 0 | None => false end with
       | true => ReplyErr "ERR invalid expire time in 'set' command" | false => Nil end)).
    + cbn [effect key_of]. rewrite Hlock. destruct px as [ms|]; [cbn; by destruct (ms <=? 0)|done].
    + intros db' (Hk & _). exact Hk.
  - by apply guarded_lock.
  - by apply guarded_lock.
  - unfold lock_of in *. rewrite elapse_peek, Hlock. cbn.
    unfold server_ms in He. by rewrite (proj2 (Z.leb_le _ _) He).
Qed.

Lemma lock_held ops b t e db :
  Forall (legal q) ops -> Forall (not_by b t) ops -> tracked q db ->
  lock_of q db b = (Some (RString t), Some e) -> server_ms (run_ops q ops db) <= e ->
  lock_of q (run_ops q ops db) b = (Some (RString t), Some e).
Proof.
  intros Hl. revert db; induction Hl as [|op ops Hop Hl IH]; intros db Hn Ht Hlock He; [done|].
  apply Forall_cons in Hn as [Hno Hn]. cbn in *.
  assert (Hms : server_ms (run_op q op db) <= e).
  { pose proof (run_ops_micros q ops (run_op q op db)) as Hm.
    apply (Z.div_le_mono _ _ 1000) in Hm; [|lia]. unfold server_ms, run_ops in *. lia. }
  apply IH; [done|by apply op_tracked| |done]. by apply lock_step.
Qed.

Lemma acquire_held tok b ttl w t e (Q : res (option (BatchImageJobLock Db)) -> World Db -> Prop) :
  turns w = [] -> lock_of q (server w) b = (Some (RString t), e) ->
  (forall r w', (forall lock, r <> Ok (Some lock)) -> Q r w') ->
  wp (Queue.TryAcquireJobLock q tok b ttl) Q w.
Proof.
  intros Hw Hlock HQ. unfold Queue.TryAcquireJobLock.
  case_match; [by apply wp_fail, HQ|]. destruct tok as [t'|er]; [|by apply wp_fail, HQ].
  apply wp_bind, wp_request; [by intros; apply HQ|]. cbn zeta. unfold arrive. rewrite Hw.
  assert (Hset : forall px, swp (call (SET (lockKey q b) t' true px))
    (fun r _ => match r with Ok StatusOK => False | _ => True end) (server w)).
  { intros px. unfold lock_of in Hlock. eapply (swp_call _ (Some (RString t), e)
      (match match px with Some ms => ms <=? 0 | None => false end with
       | true => ReplyErr "ERR invalid expire time in 'set' command" | false => Nil end)).
    - cbn [effect key_of]. rewrite Hlock. destruct px as [ms|]; [cbn; by destruct (ms <=? 0)|done].
    - intros db' _. destruct px as [ms|]; [cbn; by destruct (ms <=? 0)|done]. }
  specialize (Hset (expiration (if ttl <=? 0 then LockTTL q else ttl))).
  unfold swp in Hset. destruct (call _ _) as [db' [r|er]]; cbn in *; [|split; by intros; apply HQ].
  split; [|by intros; apply HQ]. destruct r; try done; by apply wp_ret, HQ.
Qed.

End Locks.

(** ** Runs of a client that is alone *)

Section Alone.
Context `{Redis Db} (q : batchImageQueueOptions) (Hq : keys_ok q).
Implicit Types (w : World Db) (l : list string) (d a : zset).

(** Nothing but the server has changed. *)
Definition server_only (w w' : World Db) : Prop := w' = with_server (server w') w.

Lemma server_only_trans w1 w2 w3 : server_only w1 w2 -> server_only w2 w3 -> server_only w1 w3.
Proof. unfold server_only. intros -> ->. done. Qed.

Lemma reserveOnce_alone b l d a Q w : turns w = [] ->
  queue_at q (server w) (l ++ [b]) d a -> IsValidBatchImageID b = true ->
  (forall db', moved q (server w) db' l d (<[b := UnixMilli (clock w)]> a) ->
     Q (Ok b) (with_server db' w)) ->
  wp0 (Queue.reserveOnce q) Q w.
Proof.
  intros Hw Ha Hb HQ. unfold Queue.reserveOnce. apply wp0_bind, wp0_now.
  apply wp0_bind, wp0_alone; [done|]. eapply (reserve_job q Hq); [done|]. intros db' Hm.
  rewrite Hb. by apply wp0_ret, HQ.
Qed.

Lemma Reserve_alone b timeout l d a Q w : turns w = [] ->
  queue_at q (server w) (l ++ [b]) d a -> IsValidBatchImageID b = true ->
  (forall db', moved q (server w) db' l d (<[b := UnixMilli (clock w)]> a) ->
     Q (Ok (mkReserved b)) (with_server db' w)) ->
  wp0 (Queue.Reserve q timeout) Q w.
Proof.
  intros Hw Ha Hb HQ. unfold Queue.Reserve. apply wp0_bind, wp0_now.
  apply wp0_bind. unfold Queue.polls_of. cbn [Queue.reserve_polls]. apply wp0_bind, wp0_try.
  eapply reserveOnce_alone; [done..|]. intros db' Hm. by apply wp0_ret, wp0_ret, HQ.
Qed.

(** Where a job goes that is not put back at once. *)
Lemma RequeueAfter_alone b delay l d a Q w : turns w = [] -> 0 < delay ->
  queue_at q (server w) l d a -> IsValidBatchImageID b = true ->
  (forall db', moved q (server w) db' l (<[b := UnixMilli (clock w + delay)]> d) (delete b a) ->
     Q (Ok tt) (with_server db' w)) ->
  wp0 (Queue.RequeueAfter q b delay) Q w.
Proof.
  intros Hw Hd Ha Hb HQ. unfold Queue.RequeueAfter. rewrite Hb. cbn [negb].
  apply wp0_bind, wp0_now. rewrite (proj2 (Z.leb_gt delay 0)) by lia.
  apply wp0_bind, wp0_alone; [done|]. eapply (requeue_later q Hq); [done|]. intros db' rs Hm.
  by apply wp0_ret, HQ.
Qed.

Lemma Ack_alone b l d a Q w : turns w = [] ->
  queue_at q (server w) l d a -> IsValidBatchImageID b = true ->
  (forall db', queue_at q db' l (delete b d) (delete b a) -> same_locks q (server w) db' ->
     (claim_of q db' b).1 = None ->
     (forall b', b' <> b -> claim_of q db' b' = claim_of q (server w) b') ->
     Q (Ok tt) (with_server db' w)) ->
  wp0 (Queue.Ack q b) Q w.
Proof.
  intros Hw Ha Hb HQ. unfold Queue.Ack. rewrite Hb. cbn [negb].
  apply wp0_bind, wp0_alone; [done|]. eapply (ack_job q Hq); [done|]. intros db' rs Ha' Hl Hc Ho.
  by apply wp0_ret, HQ.
Qed.

Lemma expiration_pos ttl : 0 < ttl -> exists ms, expiration ttl = Some ms /\ 0 < ms.
Proof.
  intros Httl. unfold expiration, Milliseconds, Millisecond. destruct (Z.eqb_spec ttl 0); [lia|].
  destruct (Z.ltb_spec 0 ttl); [|lia]. destruct (Z.ltb_spec ttl 1000000); cbn; [by exists 1|].
  eexists. split; [done|]. rewrite Z.quot_div_nonneg by lia. apply Z.div_str_pos. lia.
Qed.

(** The lock of a job, free, taken, and while its holder refreshes it. *)
Lemma acquire_alone b t ttl l d a Q w : turns w = [] -> 0 < ttl ->
  queue_at q (server w) l d a -> IsValidBatchImageID b = true ->
  (lock_of q (server w) b).1 = None ->
  (forall db' e, queue_at q db' l d a -> same_claims q (server w) db' ->
     lock_of q db' b = (Some (RString t), e) ->
     (forall b', b' <> b -> lock_of q db' b' = lock_of q (server w) b') ->
     Q (Ok (Some (Queue.job_lock (Queue.mkRedisLock (lockKey q b) t)))) (with_server db' w)) ->
  wp0 (Queue.TryAcquireJobLock q (Ok t) b ttl) Q w.
Proof.
  intros Hw Httl Ha Hb Hfree HQ. unfold Queue.TryAcquireJobLock. rewrite Hb. cbn [negb].
  rewrite (proj2 (Z.leb_gt ttl 0)) by lia. apply wp0_bind, wp0_alone; [done|].
  destruct (expiration_pos ttl Httl) as (ms & -> & Hms).
  eapply (swp_call _ (Some (RString t), Some (server_ms (server w) + ms)) StatusOK).
  - cbn [effect key_of]. rewrite (proj2 (Z.leb_gt ms 0)) by lia. cbn.
    unfold lock_of in Hfree. by rewrite bool_decide_eq_false_2 by tauto.
  - intros db' Hu. destruct (upd_lock q Hq b _ _ _ _ _ _ Ha Hu) as (Ha' & Hc & Hl & Ho).
    by eapply wp0_ret, HQ.
Qed.

Lemma acquire_busy b t ttl v e Q w : turns w = [] -> 0 < ttl -> IsValidBatchImageID b = true ->
  lock_of q (server w) b = (Some v, e) ->
  (forall db', same (server w) db' -> Q (Ok None) (with_server db' w)) ->
  wp0 (Queue.TryAcquireJobLock q (Ok t) b ttl) Q w.
Proof.
  intros Hw Httl Hb Hlock HQ. unfold Queue.TryAcquireJobLock. rewrite Hb. cbn [negb].
  rewrite (proj2 (Z.leb_gt ttl 0)) by lia. apply wp0_bind, wp0_alone; [done|].
  destruct (expiration_pos ttl Httl) as (ms & -> & Hms). unfold lock_of in Hlock.
  eapply (swp_call _ (Some v, e) Nil).
  - cbn [effect key_of]. rewrite Hlock, (proj2 (Z.leb_gt ms 0)) by lia. done.
  - intros db' Hu. cbn in Hu. rewrite <- Hlock in Hu. apply upd_same in Hu. by apply wp0_ret, HQ.
Qed.

(** A guarded script of the holder of a lock. *)
Lemma guarded_alone b t e c en r db (Q : res Reply -> Db -> Prop) :
  lock_of q db b = (Some (RString t), e) -> key_of c = lockKey q b ->
  (forall now, effect now c (Some (RString t), e) = (en now, Int r)) ->
  (forall db' now, upd (lockKey q b) (en now) db db' -> Q (Ok (Int r)) db') ->
  swp (sbind (call (GET (lockKey q b))) (fun cur => match cur with
    | Bulk s => if String.eqb s t then call c else sret (Int 0)
    | _ => sret (Int 0)
    end)) Q db.
Proof.
  unfold lock_of. intros Hlock Hk He HQ. apply swp_bind.
  eapply (swp_call _ (Some (RString t), e) (Bulk t)); [cbn; by rewrite Hlock|].
  intros db1 Hu1. cbn. rewrite String.eqb_refl.
  destruct Hu1 as (Hk1 & Ho1 & Hm1). cbn in Hk1, Ho1.
  eapply swp_call; [rewrite Hk, Hk1; apply He|].
  intros db2 (Hk2 & Ho2 & Hm2). rewrite Hk in *. apply (HQ db2 (server_ms db1)).
  split; [done|]. split; [intros k Hne; by rewrite Ho2, Ho1|by rewrite Hm2].
Qed.

Lemma key_not_empty b : IsValidBatchImageID b = true -> String.eqb (lockKey q b) "" = false.
Proof.
  unfold IsValidBatchImageID, lockKey. intros Hb. apply String.eqb_neq.
  destruct (LockPrefix q); [|done]. destruct b; [|done]. done.
Qed.

Lemma Release_alone b t e l d a Q w : turns w = [] -> t <> "" ->
  queue_at q (server w) l d a -> IsValidBatchImageID b = true ->
  lock_of q (server w) b = (Some (RString t), e) ->
  (forall db', (forall l d a, queue_at q (server w) l d a -> queue_at q db' l d a) ->
     same_claims q (server w) db' ->
     (lock_of q db' b).1 = None -> (forall b', b' <> b -> lock_of q db' b' = lock_of q (server w) b') ->
     Q (Ok tt) (with_server db' w)) ->
  wp0 (Queue.Release (Queue.mkRedisLock (lockKey q b) t)) Q w.
Proof.
  intros Hw Ht Ha Hb Hlock HQ. unfold Queue.Release. cbn [Queue.key Queue.token].
  rewrite key_not_empty by done. rewrite (proj2 (String.eqb_neq t "")) by done. cbn [orb].
  apply wp0_bind, wp0_alone; [done|].
  eapply (guarded_alone b t e (DEL _) (fun _ => (None, None)) 1); [done|done|done|].
  intros db' now Hu. destruct (upd_lock q Hq b _ _ _ _ _ _ Ha Hu) as (Ha' & Hc & Hl & Ho).
  apply wp0_ret, HQ; [|done|by rewrite Hl|done].
  intros l1 d1 a1 Ha1. by destruct (upd_lock q Hq b _ _ _ _ _ _ Ha1 Hu).
Qed.

Lemma Refresh_alone b t e ttl l d a Q w : turns w = [] -> t <> "" -> Millisecond <= ttl ->
  queue_at q (server w) l d a -> IsValidBatchImageID b = true ->
  lock_of q (server w) b = (Some (RString t), e) ->
  (forall db' e', queue_at q db' l d a -> same_claims q (server w) db' ->
     lock_of q db' b = (Some (RString t), e') ->
     (forall b', b' <> b -> lock_of q db' b' = lock_of q (server w) b') ->
     Q (Ok tt) (with_server db' w)) ->
  wp0 (Queue.Refresh (Queue.mkRedisLock (lockKey q b) t) ttl) Q w.
Proof.
  intros Hw Ht Httl Ha Hb Hlock HQ. unfold Queue.Refresh. cbn [Queue.key Queue.token].
  rewrite key_not_empty by done. rewrite (proj2 (String.eqb_neq t "")) by done. cbn [orb].
  unfold Millisecond in Httl. unfold or_default. rewrite (proj2 (Z.leb_gt ttl 0)) by lia.
  apply wp0_bind, wp0_alone; [done|].
  assert (Hms : 0 < Milliseconds ttl).
  { unfold Milliseconds, Millisecond. rewrite Z.quot_div_nonneg by lia. apply Z.div_str_pos. lia. }
  eapply (guarded_alone b t e (PEXPIRE _ _) (fun now => (Some (RString t), Some (now + Milliseconds ttl))) 1);
    [done|done| |].
  - intros now. cbn. by rewrite (proj2 (Z.leb_gt _ 0)) by lia.
  - intros db' now Hu. destruct (upd_lock q Hq b _ _ _ _ _ _ Ha Hu) as (Ha' & Hc & Hl & Ho).
    by eapply wp0_ret, HQ.
Qed.

Lemma Heartbeat_alone b l d a Q w : turns w = [] ->
  queue_at q (server w) l d a -> IsValidBatchImageID b = true ->
  (forall db' a', moved q (server w) db' l d a' -> delete b a' = delete b a ->
     Q (Ok tt) (with_server db' w)) ->
  wp0 (Queue.Heartbeat q b) Q w.
Proof.
  intros Hw Ha Hb HQ. unfold Queue.Heartbeat. rewrite Hb. cbn [negb].
  apply wp0_bind, wp0_now. apply wp0_bind, wp0_alone; [done|].
  eapply (swp_active q Hq); [done|done|cbn; done|]. intros db' Hm. cbn in Hm |- *.
  apply wp0_ret. eapply HQ; [exact Hm|]. case_decide; [|done]. by rewrite delete_insert_eq.
Qed.

Section Worker.
Context (opts : BatchImageWorkerOptions) (b t : string) (l : list string) (d : zset).
Context (Hb : IsValidBatchImageID b = true) (Ht : t <> "") (Httl : Millisecond <= JobLockTTL opts).
Let lock := Queue.job_lock (Db := Db) (Queue.mkRedisLock (lockKey q b) t).

(** The holder at work: its job is active, and the lock is its own. *)
Definition holds (w : World Db) (a : zset) (db : Db) : Prop :=
  (exists a', queue_at q db l d a' /\ delete b a' = delete b a) /\
  same_claims q (server w) db /\
  (exists e, lock_of q db b = (Some (RString t), e)) /\
  forall b', b' <> b -> lock_of q db b' = lock_of q (server w) b'.

Lemma heartbeats_alone n a w0 db Q : turns w0 = [] -> holds w0 a db ->
  (forall db', holds w0 a db' -> Q (Ok tt) (with_server db' w0)) ->
  wp0 (heartbeats (Queue.queue q (Ok t)) opts n b lock) Q (with_server db w0).
Proof.
  intros Hw. revert db; induction n as [|n IH]; intros db Hh HQ; [by apply wp0_ret, HQ|].
  destruct Hh as ((a1 & Ha1 & Hd1) & Hc1 & (e1 & Hl1) & Ho1).
  cbn [heartbeats]. apply wp0_bind, wp0_try.
  eapply Heartbeat_alone; [done|exact Ha1|done|]. intros db2 a2 (Ha2 & Hl2 & Hc2 & _) Hd2.
  cbn [Refresh lock Queue.job_lock]. apply wp0_bind, wp0_bind, wp0_try. cbn in Hl2, Hc2.
  eapply (Refresh_alone b t e1); [done|done|done|exact Ha2|done|by cbn; rewrite Hl2|].
  intros db3 e3 Ha3 Hc3 Hl3 Ho3. cbn in Hc3, Ho3. apply wp0_ret.
  apply IH; [|exact HQ]. split; [|split; [|split]].
  - exists a2. split; [done|]. congruence.
  - intros b'. by rewrite Hc3, Hc2.
  - by exists e3.
  - intros b' Hb'. by rewrite Ho3, Hl2, Ho1.
Qed.

(** Where the answer of the processor sends the job. *)
Definition settled (w : World Db) (a : zset) (r : res BatchProcessor.BatchImageProcessResult)
    (db : Db) : Prop :=
  let delayed delay :=
    queue_at q db l (<[b := UnixMilli (clock w + delay)]> d) (delete b a) /\
    same_claims q (server w) db in
  match r with
  | Err _ => delayed (ErrorRetryDelay opts)
  | Ok r =>
      if BatchProcessor.Terminal r then
        queue_at q db l (delete b d) (delete b a) /\ (claim_of q db b).1 = None /\
        forall b', b' <> b -> claim_of q db b' = claim_of q (server w) b'
      else delayed (if BatchProcessor.RequeueAfter r <=? 0 then DefaultRequeueDelay opts
                    else BatchProcessor.RequeueAfter r)
  end.

Lemma settle_job_alone r a w db Q : turns w = [] ->
  0 < DefaultRequeueDelay opts -> 0 < ErrorRetryDelay opts -> holds w a db ->
  (forall db', settled w a r db' -> same_locks q db db' -> Q (Ok tt) (with_server db' w)) ->
  wp0 (settle_job (Queue.queue q (Ok t)) opts b r) Q (with_server db w).
Proof.
  intros Hw Hd He ((a1 & Ha1 & Hd1) & Hc1 & _ & _) HQ.
  assert (Hdelay : forall delay, 0 < delay ->
    (forall db', queue_at q db' l (<[b := UnixMilli (clock w + delay)]> d) (delete b a) /\
       same_claims q (server w) db' -> same_locks q db db' -> Q (Ok tt) (with_server db' w)) ->
    wp0 (Queue.RequeueAfter q b delay) Q (with_server db w)).
  { intros delay Hdelay HQ'. eapply RequeueAfter_alone; [done|done|exact Ha1|done|].
    intros db' (Ha' & Hl' & Hc' & _). cbn in Hl', Hc'. rewrite Hd1 in Ha'.
    apply HQ'; [|done]. split; [done|]. intros b'. by rewrite Hc'. }
  unfold settle_job. cbn [Ack RequeueAfter Queue.queue]. unfold settled in HQ.
  destruct r as [r|e]; [|by apply Hdelay].
  destruct (BatchProcessor.Terminal r).
  - eapply Ack_alone; [done|exact Ha1|done|]. intros db' Ha' Hl' Hc' Ho'. cbn in Hl', Ho'.
    rewrite Hd1 in Ha'. apply HQ; [|done]. split; [done|split; [done|]].
    intros b' Hb'. by rewrite Ho'.
  - apply Hdelay; [|done]. case_Z; lia.
Qed.

Lemma settled_release w a r db db' :
  settled w a r db -> (forall l d a, queue_at q db l d a -> queue_at q db' l d a) ->
  same_claims q db db' -> settled w a r db'.
Proof.
  unfold settled. intros Hs Hat Hc.
  destruct r as [r|e]; [destruct (BatchProcessor.Terminal r)|]; destruct Hs as [H1 H2];
    (split; [by apply Hat|]); try (intros b'; by rewrite Hc).
  destruct H2 as [H2 H3]. split; [by rewrite Hc|]. intros b' Hb'. by rewrite Hc, H3.
Qed.

End Worker.
End Alone.

Section Theorems.
Context `{Redis Db} (q : batchImageQueueOptions).

(** C22. Over any history of legal requests from any number of clients, whatever fails
and whenever, a worker that runs on the queue leaves every claimed job in it:
ready, delayed or active.  A crash is a run whose later requests all fail. *)
Theorem worker_loses_no_job tok opts jobs w :
  keys_ok q -> tracked q (server w) ->
  Forall (fun t => exists ops, Forall (legal q) ops /\ others t = run_ops q ops) (turns w) ->
  wp (Run (Queue.queue q tok) opts jobs) (fun _ w' => tracked q (server w')) w.
Proof.
  intros Hq Ht Hturns. eapply wp_mono.
  - apply (Run_keeps (tracked q) _ (QueueKeeps0 := redis_queue_keeps q Hq tok)). split; [done|].
    eapply Forall_impl; [done|]. intros t (ops & Hl & ->) db. by apply ops_tracked.
  - by intros r w' [Hk _].
Qed.

(** While a lock has not expired and its holder does not release it, it stays the
holder's, whatever other clients do, and no other client acquires it. *)
Theorem job_lock_is_exclusive ops b t e db tok ttl :
  keys_ok q -> tracked q db -> lock_of q db b = (Some (RString t), Some e) ->
  Forall (legal q) ops -> Forall (not_by b t) ops -> server_ms (run_ops q ops db) <= e ->
  lock_of q (run_ops q ops db) b = (Some (RString t), Some e) /\
  forall now, wp (Queue.TryAcquireJobLock q tok b ttl) (fun r _ => forall lock, r <> Ok (Some lock))
    (mkWorld (run_ops q ops db) now false []).
Proof.
  intros Hq Ht Hlock Hl Hn He. pose proof (lock_held q Hq ops b t e db Hl Hn Ht Hlock He) as Hheld.
  split; [done|]. intros now. by eapply acquire_held.
Qed.

End Theorems.

Section Theorems2.
Context `{Redis Db} (q : batchImageQueueOptions).

(** A worker that reserves a job whose lock is free, alone and without faults:
whatever its processor answers, after any number of heartbeats, the job is
acknowledged or delayed as the answer says, every other job stays where it was,
and the lock is free again. *)
Theorem run_once_outcome opts process beats t b l d a w :
  keys_ok q -> turns w = [] -> queue_at q (server w) (l ++ [b]) d a ->
  IsValidBatchImageID b = true -> (lock_of q (server w) b).1 = None -> t <> "" ->
  Millisecond <= JobLockTTL opts -> 0 < DefaultRequeueDelay opts -> 0 < ErrorRetryDelay opts ->
  wp0 (RunOnce (Queue.queue q (Ok t)) opts process beats)
    (fun r w' => r = Ok tt /\ settled q opts b l d w a (process b) (server w') /\
       (lock_of q (server w') b).1 = None /\
       forall b', b' <> b -> lock_of q (server w') b' = lock_of q (server w) b') w.
Proof.
  intros Hq Hw Ha Hb Hfree Ht Httl Hdr Her. unfold RunOnce. apply wp0_bind, wp0_try.
  eapply (Reserve_alone q Hq); [done|exact Ha|done|]. intros db1 (Ha1 & Hl1 & Hc1 & _).
  apply wp0_bind, wp0_try. cbn [BatchID].
  eapply (acquire_alone q Hq); [done|unfold Millisecond in *; lia|exact Ha1|done|by cbn; rewrite Hl1|].
  intros db2 e Ha2 Hc2 Hl2 Ho2. cbn in Hc2, Ho2. apply wp0_bind.
  apply (heartbeats_alone q Hq opts b t l d Hb Ht Httl beats a w); [done| |].
  { split; [|split; [|split]].
    - eexists. split; [exact Ha2|]. apply delete_insert_eq.
    - intros b'. by rewrite Hc2, Hc1.
    - by exists e.
    - intros b' Hb'. by rewrite Ho2, Hl1. }
  intros db3 Hh3. pose proof Hh3 as ((a3 & Ha3 & _) & _ & (e3 & Hl3) & Ho3).
  apply wp0_bind, wp0_try. eapply (settle_job_alone q Hq); [done..|exact Hh3|].
  intros db4 Hs4 Hl4. apply wp0_bind, wp0_try.
  assert (Hat : exists d4 a4, queue_at q db4 l d4 a4).
  { unfold settled in Hs4. destruct (process b) as [r|er]; [destruct (BatchProcessor.Terminal r)|];
      destruct Hs4 as [Hs4 _]; by eexists _, _. }
  destruct Hat as (d4 & a4 & Ha4).
  eapply (Release_alone q Hq b t e3); [done|done|exact Ha4|done|by cbn; rewrite Hl4|].
  intros db5 Hat5 Hc5 Hl5 Ho5. cbn in Hat5, Hc5, Ho5. apply wp0_ret. cbn [server with_server].
  split; [done|]. split; [by eapply settled_release|]. split; [done|].
  intros b' Hb'. by rewrite Ho5, Hl4, Ho3.
Qed.

End Theorems2.

(** ** The wait of [Reserve] ends *)

Section Waiting.
Context `{Redis Db} (q : batchImageQueueOptions).

Lemma arrive_clock (w : World Db) : clock w <= clock (arrive w).
Proof. unfold arrive. destruct (turns w); cbn; lia. Qed.

Lemma request_clock {A} (s : Script Db A) w : wp (request s) (fun _ w' => clock w <= clock w') w.
Proof.
  pose proof (arrive_clock w). apply wp_request; [intros; lia|]. cbn. by split.
Qed.

Lemma reserveOnce_clock w : wp (Queue.reserveOnce q) (fun _ w' => clock w <= clock w') w.
Proof.
  unfold Queue.reserveOnce. apply wp_bind, wp_now, wp_bind.
  eapply wp_mono; [apply request_clock|]. intros [raw|e] w1 H1; [|done].
  destruct raw; try (by apply wp_fail).
  destruct (IsValidBatchImageID s); [by apply wp_ret|].
  apply wp_bind. destruct (String.eqb s ""); [by apply wp_ret, wp_fail|].
  apply wp_bind, wp_try. eapply wp_mono; [apply request_clock|].
  intros r w2 H2. cbn in H1, H2. apply wp_ret, wp_fail. lia.
Qed.

Lemma paused_clock d (w : World Db) : ctx_done (paused d w) = false -> clock w + d <= clock (paused d w).
Proof. unfold paused. destruct (ctx_done (arrive w)) eqn:E; [congruence|]. cbn. lia. Qed.

(** Enough fuel for the time that is left. *)
Lemma reserve_polls_end fuel deadline w :
  (1 <= fuel)%nat ->
  (0 < deadline - clock w -> (2 + Z.to_nat ((deadline - clock w) / Second) <= fuel)%nat) ->
  wp (Queue.reserve_polls q fuel deadline) (fun r _ => r <> Ok None) w.
Proof.
  revert w; induction fuel as [|f IH]; intros w Hf Hleft; [lia|]. cbn [Queue.reserve_polls].
  apply wp_bind, wp_try. eapply wp_mono; [apply reserveOnce_clock|]. intros r w1 H1. cbn beta iota.
  destruct r as [b|e]; [by apply wp_ret|]. destruct (negb _); [by apply wp_fail|].
  apply wp_bind, wp_now. destruct (Z.leb_spec (Sub deadline (clock w1)) 0) as [|Hpos];
    [by apply wp_fail|].
  assert (Hrem : 0 < deadline - clock w1) by (unfold Sub in Hpos; go_lia).
  assert (Hwait : Z.min Second (deadline - clock w1) <=
    (if Sub deadline (clock w1) <? batchImageReservePollInterval
     then Sub deadline (clock w1) else batchImageReservePollInterval)).
  { change batchImageReservePollInterval with Second.
    unfold Sub, Second in *. case_Z; go_lia. }
  apply wp_bind, wp_pause. set (wait := if _ <? _ then _ else _) in *.
  destruct (ctx_done (paused wait w1)) eqn:Ec; [by apply wp_fail|].
  pose proof (paused_clock wait w1 Ec) as Hp. specialize (Hleft ltac:(lia)).
  assert (Hdiv : (Z.to_nat ((deadline - clock w1) / Second) <= Z.to_nat ((deadline - clock w) / Second))%nat).
  { apply Z2Nat.inj_le; [apply Z.div_pos; unfold Second; lia..|].
    apply Z.div_le_mono; unfold Second; lia. }
  apply IH; [lia|]. intros Hmore.
  assert (Hsec : Second <= deadline - clock w1) by lia.
  assert (Hless : (deadline - clock (paused wait w1)) / Second <= (deadline - clock w1) / Second - 1).
  { transitivity ((deadline - clock w1 - Second) / Second).
    { apply Z.div_le_mono; [done|]. unfold Second in *. lia. }
    replace (deadline - clock w1 - Second) with (deadline - clock w1 + (-1) * Second) by lia.
    rewrite Z.div_add by done. lia. }
  assert (0 <= (deadline - clock (paused wait w1)) / Second) by (apply Z.div_pos; unfold Second; lia).
  lia.
Qed.

(** Whatever fails, whatever others do and however fast the clock runs, [Reserve]
answers within the polls that its timeout allows for: the loop needs no more. *)
Theorem reserve_ends timeout w :
  wp (Queue.reserve_polls q (Queue.polls_of timeout) (Add (clock w) timeout))
    (fun r _ => r <> Ok None) w.
Proof.
  unfold Add, Queue.polls_of. change batchImageReservePollInterval with Second.
  apply reserve_polls_end; [lia|]. intros _. replace (clock w + timeout - clock w) with timeout by lia. lia.
Qed.

End Waiting.

(** ** The movers *)

Lemma elem_of_due_jobs z max limit b : b ∈ due_jobs z max limit -> exists s, z !! b = Some s /\ s <= max.
Proof.
  unfold due_jobs. intros Hb. apply elem_of_take in Hb as (i & Hi & _).
  apply list_elem_of_lookup_2 in Hi. change (b ∈ fst <$> zset_upto z max) in Hi.
  apply list_elem_of_fmap in Hi as ([m s] & -> & Hm). apply elem_of_zset_upto in Hm. eauto.
Qed.

Lemma due_jobs_all z max limit b s :
  0 < limit -> z !! b = Some s -> s <= max ->
  b ∈ due_jobs z max limit \/ Z.of_nat (length (due_jobs z max limit)) = limit.
Proof.
  intros Hlim Hb Hs. unfold due_jobs. set (l := map fst (zset_upto z max)).
  assert (Hin : b ∈ l).
  { change (b ∈ fst <$> zset_upto z max). apply list_elem_of_fmap. exists (b, s).
    split; [done|]. by apply elem_of_zset_upto. }
  destruct (Nat.le_gt_cases (length l) (Z.to_nat limit)) as [Hle|Hgt].
  - left. by rewrite take_ge.
  - right. rewrite length_take. lia.
Qed.

Lemma NoDup_due_jobs z max limit : NoDup (due_jobs z max limit).
Proof. unfold due_jobs. apply (sublist_NoDup _ _ (NoDup_zset_upto z max)). apply sublist_take. Qed.

Lemma lookup_without jobs z b : b ∉ jobs -> without jobs z !! b = z !! b.
Proof.
  intros Hb. unfold without. rewrite map_lookup_filter. destruct (z !! b); [|done]. simpl.
  by rewrite option_guard_True.
Qed.

Lemma size_without jobs z b s : b ∈ jobs -> z !! b = Some s -> (size (without jobs z) < size z)%nat.
Proof.
  intros Hb Hz. apply map_subset_size. split; [apply map_filter_subseteq|]. intros Hsub.
  apply (lookup_weaken _ _ _ _ Hz) in Hsub. unfold without in Hsub.
  by apply map_lookup_filter_Some in Hsub as [_ Hn].
Qed.

Section Movers.
Context `{Redis Db} (q : batchImageQueueOptions) (Hq : keys_ok q) (tok : res string).
Context (opts : BatchImageWorkerOptions).
Implicit Types (w : World Db) (l : list string) (d a : zset).

Lemma MoveDue_alone limit l d a Q w : turns w = [] -> queue_at q (server w) l d a ->
  (let limit := if limit <=? 0 then 100 else limit in
   let jobs := due_jobs d (UnixMilli (clock w)) limit in
   forall db', moved q (server w) db' (reverse jobs ++ l) (without jobs d) a ->
   Q (Ok (Z.of_nat (length jobs))) (with_server db' w)) ->
  wp0 (Queue.MoveDueDelayedToReady q limit) Q w.
Proof.
  intros Hw Ha HQ. cbv zeta in HQ. unfold Queue.MoveDueDelayedToReady. cbv zeta.
  apply wp0_bind, wp0_now, wp0_alone; [done|]. eapply (move_due q Hq); [exact Ha|].
  intros jobs db' Hm. by apply HQ.
Qed.

(** Sleeping changes the clock only, and not backwards. *)
Lemma sleep_alone delay (Q : res unit -> World Db -> Prop) w : turns w = [] -> ctx_done w = false ->
  (forall t, clock w <= t -> Q (Ok tt) (with_clock t w)) -> wp0 (sleepOrDone delay) Q w.
Proof.
  intros Hw Hc HQ. unfold sleepOrDone.
  destruct (delay <=? 0); [apply wp0_ret; specialize (HQ (clock w) (Z.le_refl _)); by destruct w|].
  apply wp0_bind. unfold pause, wp0, paused, arrive. rewrite Hw, Hc. split; [done|].
  cbn. split; [done|]. apply HQ. lia.
Qed.

(** What is due is in the ready list, or still waits for the mover. *)
Definition due_waits (now : Z) (d0 : zset) (l : list string) (d : zset) : Prop :=
  forall b s, d0 !! b = Some s -> s <= now -> b ∈ l \/ d !! b = Some s.

Lemma UnixMilli_mono t u : t <= u -> UnixMilli t <= UnixMilli u.
Proof. intros Htu. unfold UnixMilli. apply Z.div_le_mono; [done|lia]. Qed.

Lemma mover_drains start n d0 l d a w : turns w = [] -> ctx_done w = false ->
  start <= UnixMilli (clock w) -> queue_at q (server w) l d a -> due_waits start d0 l d ->
  (size d <= n)%nat \/ due_waits start d0 l ∅ ->
  wp0 (RunDelayedMover (Queue.queue q tok) opts n)
    (fun r w' => r = Ok tt /\ exists l' d', queue_at q (server w') l' d' a /\
       due_waits start d0 l' ∅) w.
Proof.
  revert w l d; induction n as [|n IH]; intros w l d Hw Hc Hstart Ha Hdue Hsize.
  - apply wp0_ret. split; [done|]. exists l, d. split; [done|].
    destruct Hsize as [Hsize|]; [|done]. replace ∅ with d; [done|]. apply map_size_empty_inv. lia.
  - cbn [RunDelayedMover]. apply wp0_bind. split; [done|]. rewrite Hc. cbn beta iota.
    apply wp0_bind, wp0_try. unfold MoveDueDelayedOnce. cbn [MoveDueDelayedToReady Queue.queue].
    eapply MoveDue_alone; [done|exact Ha|]. intros limit jobs db' (Ha' & _).
    assert (Hdue' : due_waits start d0 (reverse jobs ++ l) (without jobs d)).
    { intros b s Hb Hs. destruct (decide (b ∈ jobs)) as [Hj|Hj]; [left; set_solver|].
      destruct (Hdue b s Hb Hs) as [|Hd]; [left; set_solver|right; by rewrite lookup_without]. }
    assert (Hnone : due_waits start d0 l ∅ -> due_waits start d0 (reverse jobs ++ l) ∅).
    { intros Hd b s Hb Hs. destruct (Hd b s Hb Hs) as [|Hd']; [left; set_solver|done]. }
    destruct jobs as [|b jobs'] eqn:E.
    + cbn [length]. cbn beta iota. apply wp0_bind. apply sleep_alone; [done|done|]. intros t Ht.
      cbn in Ht. pose proof (UnixMilli_mono _ _ Ht) as Hm.
      eapply (IH (with_clock t (with_server db' w))); [done|done|cbn; lia|exact Ha'|exact Hdue'|].
      right. intros b s Hb Hs. destruct (Hdue b s Hb Hs) as [|Hd]; [by left|].
      destruct (due_jobs_all d (UnixMilli (clock w)) limit b s) as [Hin|Hlen]; [|done|lia|..].
      * unfold limit. case_Z; lia.
      * unfold jobs in E. rewrite E in Hin. by apply not_elem_of_nil in Hin.
      * unfold jobs in E. rewrite E in Hlen. unfold limit in Hlen. revert Hlen. case_Z; simpl; lia.
    + rewrite <- E in *. rewrite (proj2 (Z.ltb_lt 0 _)) by (rewrite E; simpl; lia).
      apply wp0_bind, wp0_ret. eapply (IH (with_server db' w)); [done..|exact Ha'|exact Hdue'|].
      destruct Hsize as [Hsize|Hd]; [left|by right; apply Hnone].
      assert (Hin : b ∈ jobs) by (rewrite E; constructor).
      destruct (elem_of_due_jobs _ _ _ _ Hin) as (s & Hb & _).
      pose proof (size_without jobs d b s Hin Hb). lia.
Qed.

End Movers.

Section Lines.
Context `{Redis Db} (q : batchImageQueueOptions) (Hq : keys_ok q).
Implicit Types (w : World Db) (l : list string) (d a : zset).

Lemma Enqueue_alone b l d a Q w : turns w = [] -> queue_at q (server w) l d a ->
  IsValidBatchImageID b = true -> 0 < Milliseconds (InflightTTL q) ->
  (claim_of q (server w) b).1 = None ->
  (forall db', queue_at q db' (b :: l) d a ->
     (forall b', b' <> b -> claim_of q db' b' = claim_of q (server w) b') ->
     Q (Ok tt) (with_server db' w)) ->
  wp0 (Queue.Enqueue q b) Q w.
Proof.
  intros Hw Ha Hb Httl Hc HQ. unfold Queue.Enqueue. rewrite Hb. cbn [negb].
  apply wp0_bind, wp0_alone; [done|]. eapply (enqueue_fresh q Hq); [exact Ha|lia|done|].
  intros db' Ha' _ _ Ho. cbn. by apply wp0_ret, HQ.
Qed.

Fixpoint enqueue_all (bs : list string) : Client Db unit :=
  match bs with
  | [] => tret tt
  | b :: bs => let! _ := Queue.Enqueue q b in enqueue_all bs
  end.

Fixpoint reserve_all (n : nat) (timeout : Duration) : Client Db (list string) :=
  match n with
  | O => tret []
  | S n =>
      let! r := Queue.Reserve q timeout in
      let! rs := reserve_all n timeout in
      tret (BatchID r :: rs)
  end.

Lemma enqueue_all_alone bs l d a Q w : turns w = [] -> queue_at q (server w) l d a ->
  NoDup bs -> 0 < Milliseconds (InflightTTL q) ->
  Forall (fun b => IsValidBatchImageID b = true /\ (claim_of q (server w) b).1 = None) bs ->
  (forall db', queue_at q db' (reverse bs ++ l) d a -> Q (Ok tt) (with_server db' w)) ->
  wp0 (enqueue_all bs) Q w.
Proof.
  revert l w; induction bs as [|b bs IH]; intros l w Hw Ha Hnd Httl Hall HQ.
  - apply wp0_ret. specialize (HQ (server w) Ha). by destruct w.
  - apply NoDup_cons in Hnd as [Hb Hnd]. apply Forall_cons in Hall as [[Hv Hc] Hall].
    cbn [enqueue_all]. apply wp0_bind. eapply Enqueue_alone; [done|exact Ha|done..|].
    intros db' Ha' Ho. eapply (IH _ (with_server db' w)); [done|exact Ha'|done..| |].
    + apply Forall_forall. intros b' Hb'. rewrite Forall_forall in Hall.
      destruct (Hall b' Hb') as [Hv' Hc']. split; [done|]. cbn. rewrite Ho; [done|].
      intros ->. done.
    + intros db2 Ha2. apply (HQ db2). by rewrite reverse_cons, <- app_assoc.
Qed.

Lemma reserve_all_alone bs timeout d a w : turns w = [] ->
  queue_at q (server w) (reverse bs) d a -> Forall (fun b => IsValidBatchImageID b = true) bs ->
  wp0 (reserve_all (length bs) timeout) (fun r _ => r = Ok bs) w.
Proof.
  revert a w; induction bs as [|b bs IH]; intros a w Hw Ha Hall; [by apply wp0_ret|].
  apply Forall_cons in Hall as [Hv Hall]. cbn [reserve_all length]. rewrite reverse_cons in Ha.
  apply wp0_bind. eapply (Reserve_alone q Hq); [done|exact Ha|done|]. intros db' (Ha' & _).
  apply wp0_bind. eapply wp0_mono; [eapply (IH _ (with_server db' w)); [done|exact Ha'|done]|].
  intros r w' ->. by apply wp0_ret.
Qed.

End Lines.

Section Theorems3.
Context `{Redis Db} (q : batchImageQueueOptions).

(** Jobs are reserved in the order in which they were enqueued. *)
Theorem jobs_are_first_in_first_out bs timeout d a w :
  keys_ok q -> 0 < Milliseconds (InflightTTL q) -> turns w = [] ->
  queue_at q (server w) [] d a -> NoDup bs ->
  Forall (fun b => IsValidBatchImageID b = true /\ (claim_of q (server w) b).1 = None) bs ->
  wp0 (let! _ := enqueue_all q bs in reserve_all q (length bs) timeout) (fun r _ => r = Ok bs) w.
Proof.
  intros Hq Httl Hw Ha Hnd Hall. apply wp0_bind.
  eapply (enqueue_all_alone q Hq); [done|exact Ha|done..|]. intros db' Ha'.
  rewrite app_nil_r in Ha'. eapply (reserve_all_alone q Hq); [done|exact Ha'|].
  eapply Forall_impl; [exact Hall|]. by intros b [Hv _].
Qed.

(** A worker that finds the lock of its job taken puts the job back for later and
leaves the lock alone. *)
Theorem run_once_conflict opts process beats t b v e l d a w :
  keys_ok q -> turns w = [] -> queue_at q (server w) (l ++ [b]) d a ->
  IsValidBatchImageID b = true -> lock_of q (server w) b = (Some v, e) ->
  0 < JobLockTTL opts -> 0 < LockConflictDelay opts ->
  wp0 (RunOnce (Queue.queue q (Ok t)) opts process beats)
    (fun r w' => r = Ok tt /\
       queue_at q (server w') l (<[b := UnixMilli (clock w + LockConflictDelay opts)]> d) (delete b a) /\
       same_locks q (server w) (server w') /\ same_claims q (server w) (server w')) w.
Proof.
  intros Hq Hw Ha Hb Hlock Httl Hdelay. unfold RunOnce. apply wp0_bind, wp0_try.
  eapply (Reserve_alone q Hq); [done|exact Ha|done|]. intros db1 (Ha1 & Hl1 & Hc1 & _).
  apply wp0_bind, wp0_try. cbn [BatchID].
  eapply (acquire_busy q b t); [done|done|done|by cbn; rewrite Hl1|]. intros db2 Hs2.
  destruct (same_moved q _ _ _ _ _ Ha1 Hs2) as (Ha2 & Hl2 & Hc2 & _).
  eapply (RequeueAfter_alone q Hq); [done|done|exact Ha2|done|].
  intros db3 (Ha3 & Hl3 & Hc3 & _). cbn in Hl3, Hc3. rewrite delete_insert_eq in Ha3.
  split; [done|]. split; [exact Ha3|].
  split; intros b'; cbn; [by rewrite Hl3, Hl2, Hl1|by rewrite Hc3, Hc2, Hc1].
Qed.

(** The recovery brings back the jobs whose workers have not been heard of for a
while: all of them if the limit allows, only them, and each once. *)
Theorem stale_jobs_come_back stale limit l d a w :
  keys_ok q -> turns w = [] -> queue_at q (server w) l d a -> 0 < stale -> 0 < limit ->
  wp0 (Queue.RecoverStaleActive q stale limit)
    (fun r w' => exists jobs, r = Ok (Z.of_nat (length jobs)) /\ NoDup jobs /\
       queue_at q (server w') (reverse jobs ++ l) d (without jobs a) /\
       (forall b, b ∈ jobs -> exists s, a !! b = Some s /\ s <= UnixMilli (clock w - stale)) /\
       (Z.of_nat (length jobs) <> limit -> forall b s, a !! b = Some s ->
          s <= UnixMilli (clock w - stale) -> b ∈ jobs)) w.
Proof.
  intros Hq Hw Ha Hs Hlim. unfold Queue.RecoverStaleActive.
  rewrite (proj2 (Z.leb_gt stale 0)), (proj2 (Z.leb_gt limit 0)) by lia. cbv zeta.
  apply wp0_bind, wp0_now, wp0_alone; [done|]. unfold Add. rewrite Z.add_opp_r.
  eapply (recover_stale q Hq); [exact Ha|]. intros jobs db' (Ha' & _).
  exists jobs. split; [done|]. split; [apply NoDup_due_jobs|]. split; [done|]. split.
  - intros b Hb. by apply elem_of_due_jobs in Hb.
  - intros Hlen b s Hb Hsb. destruct (due_jobs_all a _ limit b s Hlim Hb Hsb); [done|].
    by destruct Hlen.
Qed.

(** The mover empties what is due: after as many turns as there are delayed jobs,
every job that was due at the start is ready, while the clock runs on. *)
Theorem due_jobs_become_ready opts tok l d a w n :
  keys_ok q -> turns w = [] -> ctx_done w = false -> queue_at q (server w) l d a ->
  (size d <= n)%nat ->
  wp0 (RunDelayedMover (Queue.queue q tok) opts n)
    (fun _ w' => exists l' d', queue_at q (server w') l' d' a /\
       forall b s, d !! b = Some s -> s <= UnixMilli (clock w) -> b ∈ l') w.
Proof.
  intros Hq Hw Hc Ha Hn. eapply wp0_mono.
  - eapply (mover_drains q Hq tok opts (UnixMilli (clock w)) n d); [done|done|lia|exact Ha| |by left].
    intros b s Hb _. by right.
  - intros r w' (_ & l' & d' & Ha' & Hd). exists l', d'. split; [done|]. intros b s Hb Hs.
    destruct (Hd b s Hb Hs) as [|Hx]; [done|]. by rewrite lookup_empty in Hx.
Qed.

End Theorems3.

(** ** Examples: one server, the default queue *)

Definition ex_queue : batchImageQueueOptions := NewBatchImageQueue None.
Definition ex_opts : BatchImageWorkerOptions := NewBatchImageWorkerOptionsFromConfig None.
Definition ex_job : string := "imgbatch_1".
Definition ex_token : string := "0123456789abcdef".
Definition ex_start : Time := unixEpoch + 1000 * Second.

Definition ex_world (db : MapRedis) : World MapRedis := mkWorld db ex_start false [].

(** A server after a client, without faults. *)
Definition after {A} (m : Client MapRedis A) (db : MapRedis) : MapRedis :=
  server (m (ex_world db) []).1.2.
Definition answer {A} (m : Client MapRedis A) (db : MapRedis) : res A := (m (ex_world db) []).1.1.

Definition ex_queued : MapRedis := after (Queue.Enqueue ex_queue ex_job) empty_redis.

(** The job goes through the queue twice and ends. *)
Definition ex_wait : string -> res BatchProcessor.BatchImageProcessResult :=
  fun _ => Ok (BatchProcessor.mkProcess (10 * Second) false).
Definition ex_done : string -> res BatchProcessor.BatchImageProcessResult :=
  fun _ => Ok (BatchProcessor.mkProcess 0 true).

Definition ex_waiting : MapRedis :=
  after (RunOnce (Queue.queue ex_queue (Ok ex_token)) ex_opts ex_wait 3) ex_queued.

Example ex_delayed_job :
  peek ex_waiting (DelayedKey ex_queue) = (Some (RZSet {[ex_job := 1010000]}), None) /\
  value_of ex_waiting (ActiveKey ex_queue) = None /\
  value_of ex_waiting (lockKey ex_queue ex_job) = None /\
  answer (Queue.Enqueue ex_queue ex_job) ex_waiting = Err ErrBatchImageAlreadyQueued.
Proof. vm_compute. repeat split. Qed.

Definition ex_later : World MapRedis :=
  mkWorld (elapse 10000000 ex_waiting) (ex_start + 10 * Second) false [].

Example ex_mover :
  match Queue.MoveDueDelayedToReady ex_queue 5 ex_later [] with
  | (r, w, _) => r = Ok 1 /\
      value_of (server w) (ReadyKey ex_queue) = Some (RList [ex_job]) /\
      entries (after (RunOnce (Queue.queue ex_queue (Ok ex_token)) ex_opts ex_done 1) (server w)) = ∅
  end.
Proof. vm_compute. repeat split. Qed.

(** A crash after the job is reserved: every later request fails.  The job is
active, and the recovery brings it back. *)
Definition ex_crashed : MapRedis :=
  match RunOnce (Queue.queue ex_queue (Ok ex_token)) ex_opts ex_done 0 (ex_world ex_queued)
          (None :: repeat (Some (Refused "broken pipe")) 5) with
  | (_, w, _) => server w
  end.

Example ex_crash :
  value_of ex_crashed (ActiveKey ex_queue) = Some (RZSet {[ex_job := 1000000]}) /\
  match RecoverStaleActiveOnce (Queue.queue ex_queue (Ok ex_token)) ex_opts
          (mkWorld ex_crashed (ex_start + 600 * Second) false []) [] with
  | (r, w, _) => r = Ok 1 /\ value_of (server w) (ReadyKey ex_queue) = Some (RList [ex_job])
  end.
Proof. vm_compute. repeat split. Qed.

(** A job that was recovered while its worker still ran is ready without a claim
when the worker has acknowledged it; it may then be queued twice. *)
Example recovered_job_acked_stays_ready :
  let db := after (let! _ := Queue.Reserve ex_queue 0 in
                   let! _ := pause Second in
                   let! _ := Queue.RecoverStaleActive ex_queue Second 10 in
                   Queue.Ack ex_queue ex_job) ex_queued in
  value_of db (ReadyKey ex_queue) = Some (RList [ex_job]) /\
  value_of (after (Queue.Enqueue ex_queue ex_job) db) (ReadyKey ex_queue) = Some (RList [ex_job; ex_job]).
Proof. vm_compute. repeat split. Qed.

Lemma ex_queue_at : queue_at ex_queue ex_queued ([] ++ [ex_job]) ∅ ∅.
Proof. split; reflexivity. Qed.

Lemma ex_tracked : tracked ex_queue empty_redis.
Proof.
  exists [], ∅, ∅. split; [split; reflexivity|]. intros b _ Hb. by destruct Hb.
Qed.

Lemma worker_loses_no_job_witness :
  wp (Run (Queue.queue ex_queue (Ok ex_token)) ex_opts [(ex_wait, 2%nat)])
    (fun _ w' => tracked ex_queue (server w'))
    (mkWorld empty_redis ex_start false
       [mkTurn (run_ops ex_queue [OpEnqueue ex_job 1000; OpElapse 5]) Second false]).
Proof.
  apply (worker_loses_no_job ex_queue (Ok ex_token) ex_opts [(ex_wait, 2%nat)]);
    [apply default_keys_ok|apply ex_tracked|].
  repeat constructor. exists [OpEnqueue ex_job 1000; OpElapse 5]. split; [repeat constructor|reflexivity].
Defined.

Definition ex_locked : MapRedis :=
  after (Queue.TryAcquireJobLock ex_queue (Ok ex_token) ex_job Second) empty_redis.

Lemma ex_locked_tracked : tracked ex_queue ex_locked.
Proof.
  assert (Hk : keeps (tracked ex_queue) (let! _ := Queue.TryAcquireJobLock ex_queue (Ok ex_token)
    ex_job Second in tret tt : Client MapRedis unit)).
  { intros w Hw. apply wp_bind. eapply wp_mono.
    - apply (TryAcquireJobLock_keeps (QueueKeeps := redis_queue_keeps ex_queue default_keys_ok (Ok ex_token))).
      exact Hw.
    - intros r w' [Hw' _]. destruct r; [by apply wp_ret|done]. }
  assert (Hw : kept (tracked ex_queue) (ex_world empty_redis)) by (split; [apply ex_tracked|constructor]).
  specialize (Hk _ Hw []). exact (proj1 Hk).
Qed.

Lemma job_lock_is_exclusive_witness :
  lock_of ex_queue (run_ops ex_queue [OpElapse 1000; OpAcquire ex_job "other" (Some 5);
    OpRelease ex_job "other"] ex_locked) ex_job = (Some (RString ex_token), Some 1000).
Proof.
  apply (job_lock_is_exclusive ex_queue [OpElapse 1000; OpAcquire ex_job "other" (Some 5);
    OpRelease ex_job "other"] ex_job ex_token 1000 ex_locked (Ok "x") Second default_keys_ok
    ex_locked_tracked eq_refl).
  - repeat constructor.
  - repeat constructor; discriminate.
  - vm_compute. discriminate.
Defined.

Lemma run_once_outcome_witness :
  wp0 (RunOnce (Queue.queue ex_queue (Ok ex_token)) ex_opts ex_wait 2)
    (fun r w' => r = Ok tt /\ settled ex_queue ex_opts ex_job [] ∅ (ex_world ex_queued) ∅
       (ex_wait ex_job) (server w') /\
       (lock_of ex_queue (server w') ex_job).1 = None /\
       forall b', b' <> ex_job -> lock_of ex_queue (server w') b' = lock_of ex_queue ex_queued b')
    (ex_world ex_queued).
Proof.
  apply (run_once_outcome ex_queue ex_opts ex_wait 2 ex_token ex_job [] ∅ ∅ (ex_world ex_queued)
    default_keys_ok eq_refl ex_queue_at eq_refl eq_refl); vm_compute; discriminate || reflexivity.
Defined.

Lemma run_once_conflict_witness :
  let db := after (Queue.Enqueue ex_queue ex_job) ex_locked in
  wp0 (RunOnce (Queue.queue ex_queue (Ok "other")) ex_opts ex_wait 2)
    (fun r w' => r = Ok tt /\ queue_at ex_queue (server w') []
       (<[ex_job := UnixMilli (ex_start + LockConflictDelay ex_opts)]> ∅) (delete ex_job ∅) /\
       same_locks ex_queue db (server w') /\ same_claims ex_queue db (server w'))
    (ex_world db).
Proof.
  apply (run_once_conflict ex_queue ex_opts ex_wait 2 "other" ex_job (RString ex_token) (Some 1000)
    [] ∅ ∅ (ex_world (after (Queue.Enqueue ex_queue ex_job) ex_locked)) default_keys_ok eq_refl);
    [split; reflexivity|reflexivity..].
Defined.

Lemma jobs_are_first_in_first_out_witness :
  wp0 (let! _ := enqueue_all ex_queue ["imgbatch_2"; "imgbatch_1"] in reserve_all ex_queue 2 Second)
    (fun r _ => r = Ok ["imgbatch_2"; "imgbatch_1"]) (ex_world empty_redis).
Proof.
  apply (jobs_are_first_in_first_out ex_queue ["imgbatch_2"; "imgbatch_1"] Second ∅ ∅
    (ex_world empty_redis) default_keys_ok eq_refl eq_refl); [split; reflexivity|..].
  - repeat constructor; vm_compute; intros Hx; repeat (inversion Hx as [|? ? ? Hy]; subst; clear Hx; rename Hy into Hx).
  - repeat constructor.
Defined.

Definition ex_active : MapRedis := after (Queue.Reserve ex_queue 0) ex_queued.

Lemma stale_jobs_come_back_witness :
  wp0 (Queue.RecoverStaleActive ex_queue Minute 10)
    (fun r w' => exists jobs, r = Ok (Z.of_nat (length jobs)) /\ NoDup jobs /\
       queue_at ex_queue (server w') (reverse jobs ++ []) ∅ (without jobs {[ex_job := 1000000]}) /\
       (forall b, b ∈ jobs -> exists s, ({[ex_job := 1000000]} : zset) !! b = Some s /\
          s <= UnixMilli (ex_start - Minute)) /\
       (Z.of_nat (length jobs) <> 10 -> forall b s, ({[ex_job := 1000000]} : zset) !! b = Some s ->
          s <= UnixMilli (ex_start - Minute) -> b ∈ jobs)) (ex_world ex_active).
Proof.
  apply (stale_jobs_come_back ex_queue Minute 10 [] ∅ {[ex_job := 1000000]} (ex_world ex_active)
    default_keys_ok eq_refl); [split; reflexivity|reflexivity..].
Defined.

Lemma due_jobs_become_ready_witness :
  wp0 (RunDelayedMover (Queue.queue ex_queue (Ok ex_token)) ex_opts 3)
    (fun _ w' => exists l' d', queue_at ex_queue (server w') l' d' ∅ /\
       forall b s, ({[ex_job := 1010000]} : zset) !! b = Some s -> s <= UnixMilli (clock ex_later) ->
       b ∈ l') ex_later.
Proof.
  apply (due_jobs_become_ready ex_queue ex_opts (Ok ex_token) [] {[ex_job := 1010000]} ∅ ex_later 3
    default_keys_ok eq_refl eq_refl); [split; reflexivity|]. vm_compute. lia.
Defined.
