(* ===== verification/BatchRequest.v ===== *)
(** * Requests for batch images

Validation and pricing of a request, the pure part of
[service/batch_image_public.go].  Parameters: the JSON form of a request and
the date format of task names.  Prices and multipliers are rationals, where the
code has float64; what is stored is rounded to DECIMAL(20,10), as PostgreSQL
does. *)
From S2P Require Import Prelude GoText GoTime SubscriptionWindow Wallets BillingStore Billing.
From S2P Require Import BatchJobs BatchSettlement BatchIndex.
From Stdlib Require Import Bool QArith Qround Lqa.
From stdpp Require Import pretty.

Local Open Scope string_scope.
Local Open Scope Z_scope.

Definition ErrBatchImageInvalidModel : goerr := ErrApp 400 "BATCH_IMAGE_INVALID_MODEL".
Definition ErrBatchImageInvalidItems : goerr := ErrApp 400 "BATCH_IMAGE_INVALID_ITEMS".
Definition ErrBatchImageDuplicateCustomIDInRequest : goerr :=
  ErrApp 400 "BATCH_IMAGE_DUPLICATE_CUSTOM_ID".
Definition ErrBatchImagePromptTooLong : goerr := ErrApp 400 "BATCH_IMAGE_PROMPT_TOO_LONG".
Definition ErrBatchImageInvalidReferenceImage : goerr :=
  ErrApp 400 "BATCH_IMAGE_INVALID_REFERENCE_IMAGE".
Definition ErrBatchImageTooManyReferenceImages : goerr :=
  ErrApp 400 "BATCH_IMAGE_TOO_MANY_REFERENCE_IMAGES".
Definition ErrBatchImageReferenceImagesTooLarge : goerr :=
  ErrApp 400 "BATCH_IMAGE_REFERENCE_IMAGES_TOO_LARGE".
Definition ErrBatchImageTooManyOutputImages : goerr :=
  ErrApp 400 "BATCH_IMAGE_TOO_MANY_OUTPUT_IMAGES".
Definition ErrBatchImageGroupDisabled : goerr := ErrApp 403 "BATCH_IMAGE_GROUP_DISABLED".

Record BatchImageReferenceInput : Type := mkReference {
  ref_ID : string;
  ref_Type : string;
  ref_MimeType : string;
  Data : string;
  FileURI : string
}.

Record BatchImageSubmitItem : Type := mkSubmitItem {
  sub_CustomID : string;
  Prompt : string;
  OutputCount : Z;
  ReferenceImages : list BatchImageReferenceInput
}.

Record BatchImageSubmitRequest : Type := mkRequest {
  req_Model : string;
  req_TaskName : string;
  req_ParentBatchID : string;
  req_Provider : string;
  Items : list BatchImageSubmitItem;
  ResponseMimeType : string;
  AspectRatio : string;
  ImageSize : string;
  Metadata : option (gmap string string)
}.

(** The settings of [Config.BatchImage] that bound a request. *)
Record BatchLimits : Type := mkLimits {
  MaxItemsPerJobDefault : Z;
  MaxOutputImagesPerJob : Z;
  MaxOutputImagesPerItem : Z;
  MaxPromptCharsPerItem : Z;
  MaxReferenceImagesPerJob : Z;
  MaxReferenceInlineBytesPerJob : Z;
  DefaultResponseMimeType : string;
  DefaultImageSize : string
}.

Definition positive_or (v d : Z) : Z := if 0 <? v then v else d.
Definition maxItems (L : BatchLimits) : Z := positive_or (MaxItemsPerJobDefault L) 200.
Definition maxOutputImagesPerJob (L : BatchLimits) : Z := positive_or (MaxOutputImagesPerJob L) 200.
Definition maxOutputImagesPerItem (L : BatchLimits) : Z := positive_or (MaxOutputImagesPerItem L) 4.
Definition maxPromptChars (L : BatchLimits) : Z := positive_or (MaxPromptCharsPerItem L) 8000.
Definition maxReferenceImagesPerJob (L : BatchLimits) : Z :=
  positive_or (MaxReferenceImagesPerJob L) 1000.
Definition maxReferenceInlineBytesPerJob (L : BatchLimits) : Z :=
  positive_or (MaxReferenceInlineBytesPerJob L) (128 * 1024 * 1024).
Definition maxBatchImageReferenceImageBytes : Z := 10 * 1024 * 1024.
Definition defaultBatchImageImageSize := "1K".

Class RequestCodec : Type := {
  MarshalRequest : BatchImageSubmitRequest -> string;
  FormatDateTime : Time -> string
}.

(** [%0*d] of a number that is not negative. *)
Definition fmt_0d (width n : Z) : string :=
  zeros (Z.to_nat width - String.length (pretty n)) +:+ pretty n.

Section BatchRequest.
Context `{GoUnicode} `{BillingParams} `{RequestCodec}.

Definition defaultResponseMimeType (L : BatchLimits) : string :=
  let v := TrimSpace (DefaultResponseMimeType L) in if String.eqb v "" then "image/png" else v.
Definition defaultImageSize (L : BatchLimits) : string :=
  let v := TrimSpace (DefaultImageSize L) in
  if String.eqb v "" then defaultBatchImageImageSize else v.

(** ** Metadata *)

Fixpoint sanitize_keys (input : gmap string string) (keys : list string) (out : gmap string string)
    : gmap string string :=
  match keys with
  | [] => out
  | k :: keys =>
      let key := TrimSpace k in
      if String.eqb key "" || (64 <? len key) then sanitize_keys input keys out
      else
        let value := TrimSpace (default "" (input !! k)) in
        let value := if 256 <? len value then str_take 256 value else value in
        let out := <[key := value]> out in
        if (20 <=? size out)%nat then out else sanitize_keys input keys out
  end.

Definition sanitizeBatchImageMetadata (input : option (gmap string string))
    : option (gmap string string) :=
  match input with
  | None => None
  | Some m =>
      if (size m =? 0)%nat then None
      else Some (sanitize_keys m (stable_sort String.ltb (map fst (map_to_list m))) ∅)
  end.

Definition with_metadata (m : option (gmap string string)) (r : BatchImageSubmitRequest)
    : BatchImageSubmitRequest :=
  mkRequest (req_Model r) (req_TaskName r) (req_ParentBatchID r) (req_Provider r) (Items r)
    (ResponseMimeType r) (AspectRatio r) (ImageSize r) m.

Definition HashBatchImageSubmitRequest (r : BatchImageSubmitRequest) : string :=
  sha256_hex (MarshalRequest (with_metadata (sanitizeBatchImageMetadata (Metadata r)) r)).

(** ** Reference images *)

Definition normalizeBatchImageReferenceMimeType (v : string) : string :=
  let v := ToLower (TrimSpace v) in
  if String.eqb v "image/jpeg" || String.eqb v "image/jpg" then "image/jpeg"
  else if String.eqb v "image/png" then "image/png"
  else if String.eqb v "image/webp" then "image/webp" else "".

Definition maxBatchImageReferenceImagesForModel (model : string) : Z :=
  let model := ToLower (TrimSpace model) in
  if Contains model "pro-image" then 14 else if Contains model "flash-image" then 3 else 0.

Definition normalize_reference (ref : BatchImageReferenceInput) : res BatchImageReferenceInput :=
  let ref := mkReference (truncateBatchImageMessage (TrimSpace (ref_ID ref)) 80)
    (truncateBatchImageMessage (TrimSpace (ref_Type ref)) 40)
    (normalizeBatchImageReferenceMimeType (ref_MimeType ref)) (Data ref) (TrimSpace (FileURI ref)) in
  let noData := len (Data ref) =? 0 in
  let noURI := String.eqb (FileURI ref) "" in
  if String.eqb (ref_MimeType ref) "" || noData && noURI || negb noData && negb noURI ||
     (maxBatchImageReferenceImageBytes <? len (Data ref)) ||
     negb noURI && negb (HasPrefix (FileURI ref) "gs://")
  then Err ErrBatchImageInvalidReferenceImage else Ok ref.

Fixpoint normalize_references (refs : list BatchImageReferenceInput)
    : res (list BatchImageReferenceInput * Z) :=
  match refs with
  | [] => Ok ([], 0)
  | ref :: refs =>
      match normalize_reference ref with
      | Err e => Err e
      | Ok ref =>
          match normalize_references refs with
          | Err e => Err e
          | Ok (out, bytes) => Ok (ref :: out, len (Data ref) + bytes)
          end
      end
  end.

(** The references and the sum of their inline bytes. *)
Definition normalizeBatchImageReferenceInputs (model : string) (item : BatchImageSubmitItem)
    : res (list BatchImageReferenceInput * Z) :=
  match ReferenceImages item with
  | [] => Ok ([], 0)
  | refs =>
      let maxRefs := maxBatchImageReferenceImagesForModel model in
      if (maxRefs <=? 0) || (maxRefs <? Z.of_nat (length refs))
      then Err ErrBatchImageTooManyReferenceImages else normalize_references refs
  end.

(** ** Items *)

Definition batchImageRepeatSuffixWidth (count : Z) : Z :=
  if count <? 10 then 2 else len (pretty count).

(** The variables of the loop over the items. *)
Record expansion : Type := mkExpansion {
  totalReferenceImages : Z;
  totalInlineReferenceBytes : Z;
  totalOutputImages : Z;
  seen_ids : gset string;
  expandedItems : list BatchImageSubmitItem
}.

Definition copy_ids (customID : string) (outputCount : Z) : list string :=
  if 1 <? outputCount then
    map (fun k => customID +:+ "_" +:+
                  fmt_0d (batchImageRepeatSuffixWidth outputCount) (Z.of_nat k))
      (seq 1 (Z.to_nat outputCount))
  else [customID].

Fixpoint add_copies (item : BatchImageSubmitItem) (ids : list string) (x : expansion)
    : res expansion :=
  match ids with
  | [] => Ok x
  | id :: ids =>
      if bool_decide (id ∈ seen_ids x) then Err ErrBatchImageDuplicateCustomIDInRequest
      else add_copies item ids
        (mkExpansion (totalReferenceImages x) (totalInlineReferenceBytes x) (totalOutputImages x)
           ({[id]} ∪ seen_ids x)
           (expandedItems x ++ [mkSubmitItem id (Prompt item) 0 (ReferenceImages item)])%list)
  end.

Definition expand_item (L : BatchLimits) (model : string) (i : Z) (item : BatchImageSubmitItem)
    (x : expansion) : res expansion :=
  let customID := TrimSpace (sub_CustomID item) in
  let customID := if String.eqb customID "" then "item_" +:+ fmt_0d 6 (i + 1) else customID in
  let outputCount := if OutputCount item =? 0 then 1 else OutputCount item in
  if (outputCount <? 1) || (maxOutputImagesPerItem L <? outputCount) then Err ErrBatchImageInvalidItems
  else
    let out := totalOutputImages x + outputCount in
    if maxOutputImagesPerJob L <? out then Err ErrBatchImageTooManyOutputImages
    else
      let prompt := TrimSpace (Prompt item) in
      if String.eqb prompt "" then Err ErrBatchImageInvalidItems
      else if maxPromptChars L <? len prompt then Err ErrBatchImagePromptTooLong
      else match normalizeBatchImageReferenceInputs model item with
      | Err e => Err e
      | Ok (refs, bytes) =>
          let refsTotal := totalReferenceImages x + Z.of_nat (length refs) * outputCount in
          if maxReferenceImagesPerJob L <? refsTotal then Err ErrBatchImageTooManyReferenceImages
          else
            let bytesTotal := totalInlineReferenceBytes x + bytes * outputCount in
            if maxReferenceInlineBytesPerJob L <? bytesTotal
            then Err ErrBatchImageReferenceImagesTooLarge
            else add_copies (mkSubmitItem customID prompt outputCount refs)
                   (copy_ids customID outputCount)
                   (mkExpansion refsTotal bytesTotal out (seen_ids x) (expandedItems x))
      end.

Fixpoint expand_items (L : BatchLimits) (model : string) (i : Z) (items : list BatchImageSubmitItem)
    (x : expansion) : res expansion :=
  match items with
  | [] => Ok x
  | item :: items =>
      match expand_item L model i item x with
      | Err e => Err e
      | Ok x => expand_items L model (i + 1) items x
      end
  end.

(** [now] is not the zero time. *)
Definition validateSubmitRequest (L : BatchLimits) (now : Time) (req : BatchImageSubmitRequest)
    : res BatchImageSubmitRequest :=
  let model := TrimSpace (req_Model req) in
  if String.eqb model "" then Err ErrBatchImageInvalidModel
  else
    let taskName := TrimSpace (req_TaskName req) in
    let taskName := if String.eqb taskName "" then FormatDateTime now else taskName in
    let taskName := if 255 <? len taskName then truncateBatchImageMessage taskName 255 else taskName in
    let provider := TrimSpace (req_Provider req) in
    if negb (String.eqb provider "") && negb (IsSupportedBatchImageProvider provider)
    then Err ErrBatchImageUnsupportedProvider
    else if (length (Items req) =? 0)%nat || (maxItems L <? Z.of_nat (length (Items req)))
    then Err ErrBatchImageInvalidItems
    else
      let mime := TrimSpace (ResponseMimeType req) in
      let mime := if String.eqb mime "" then defaultResponseMimeType L else mime in
      let size := TrimSpace (ImageSize req) in
      let size := if String.eqb size "" then defaultImageSize L else size in
      if negb (EqualFold size defaultBatchImageImageSize) then Err ErrBatchImageInvalidItems
      else match expand_items L model 0 (Items req) (mkExpansion 0 0 0 ∅ []) with
      | Err e => Err e
      | Ok x =>
          Ok (mkRequest model taskName (TrimSpace (req_ParentBatchID req)) provider
                (expandedItems x) mime (TrimSpace (AspectRatio req)) defaultBatchImageImageSize
                (sanitizeBatchImageMetadata (Metadata req)))
      end.

(** ** What a valid request is *)

#[local] Notation total := Prelude.total.

Definition item_ok (L : BatchLimits) (item : BatchImageSubmitItem) : Prop :=
  Prompt item <> "" /\ len (Prompt item) <= maxPromptChars L /\ OutputCount item = 0.

Definition item_ids (items : list BatchImageSubmitItem) : list string := map sub_CustomID items.

(** The number of references over all items. *)
Definition references (items : list BatchImageSubmitItem) : Z :=
  total (fun item => Z.of_nat (length (ReferenceImages item))) items.

(** The state of the loop, except for the totals that an item adds before its
copies. *)
Record copies_ok (L : BatchLimits) (x : expansion) : Prop := {
  co_seen : seen_ids x = list_to_set (item_ids (expandedItems x));
  co_nodup : NoDup (item_ids (expandedItems x));
  co_items : Forall (item_ok L) (expandedItems x)
}.

Lemma add_copies_ok L item ids x x' :
  item_ok L (mkSubmitItem "" (Prompt item) 0 (ReferenceImages item)) -> copies_ok L x ->
  add_copies item ids x = Ok x' ->
  copies_ok L x' /\ totalReferenceImages x' = totalReferenceImages x /\
  totalOutputImages x' = totalOutputImages x /\
  references (expandedItems x') = references (expandedItems x) +
    Z.of_nat (length (ReferenceImages item)) * Z.of_nat (length ids) /\
  length (expandedItems x') = (length (expandedItems x) + length ids)%nat /\
  item_ids (expandedItems x') = (item_ids (expandedItems x) ++ ids)%list.
Proof.
  intros Hitem. revert x. induction ids as [|id ids IH]; intros x Hx; cbn [add_copies].
  { intros [= <-]. cbn. rewrite app_nil_r. split_and!; try done; lia. }
  case_bool_decide as Hseen; [done|]. intros Hadd. destruct Hx as [Hs Hn Hi].
  apply IH in Hadd as (Hok & Hr & Ho & Href & Hl & Hids).
  - cbn in Hr, Ho, Href, Hl, Hids. unfold references in *.
    rewrite total_snoc in Href. rewrite length_app in Hl. cbn in Hl, Href.
    split_and!; [done|done|done|cbn [length]; lia|cbn [length]; lia|].
    rewrite Hids. unfold item_ids. rewrite map_app, <- app_assoc. done.
  - split; cbn [seen_ids expandedItems]; unfold item_ids in *.
    + rewrite map_app, list_to_set_app_L, Hs. cbn. set_solver.
    + rewrite map_app. apply NoDup_snoc; [done|]. cbn. intros Hin. apply Hseen.
      rewrite Hs. by apply elem_of_list_to_set.
    + apply Forall_app. split; [done|]. by repeat constructor; destruct Hitem as (? & ? & ?).
Qed.

Lemma copy_ids_length id n : 1 <= n -> Z.of_nat (length (copy_ids id n)) = n.
Proof.
  intros Hn. unfold copy_ids. destruct (Z.ltb_spec 1 n); cbn [length]; [|lia].
  rewrite length_map, length_seq. lia.
Qed.

Record expansion_ok (L : BatchLimits) (x : expansion) : Prop := {
  eo_copies : copies_ok L x;
  eo_out : totalOutputImages x = Z.of_nat (length (expandedItems x));
  eo_refs : totalReferenceImages x = references (expandedItems x);
  eo_out_max : totalOutputImages x <= maxOutputImagesPerJob L;
  eo_refs_max : totalReferenceImages x <= maxReferenceImagesPerJob L
}.

(** The images that an item of a request asks for. *)
Definition wanted_images (item : BatchImageSubmitItem) : Z :=
  if OutputCount item =? 0 then 1 else OutputCount item.

Lemma expand_item_ok L model i item x x' :
  expansion_ok L x -> expand_item L model i item x = Ok x' ->
  expansion_ok L x' /\ 1 <= wanted_images item /\
  totalOutputImages x' = totalOutputImages x + wanted_images item.
Proof.
  intros [Hc Ho Hr Hom Hrm]. unfold expand_item. fold (wanted_images item).
  set (n := wanted_images item). set (id := if String.eqb (TrimSpace (sub_CustomID item)) "" then _ else _).
  destruct ((n <? 1) || (maxOutputImagesPerItem L <? n)) eqn:En; [done|].
  apply orb_false_iff in En as [En _]. apply Z.ltb_ge in En.
  destruct (Z.ltb_spec (maxOutputImagesPerJob L) (totalOutputImages x + n)) as [|Hout]; [done|].
  destruct (String.eqb_spec (TrimSpace (Prompt item)) "") as [|Hprompt]; [done|].
  destruct (Z.ltb_spec (maxPromptChars L) (len (TrimSpace (Prompt item)))) as [|Hlen]; [done|].
  destruct (normalizeBatchImageReferenceInputs model item) as [[refs bytes]|e]; [|done].
  set (refsTotal := _ + _ * n).
  destruct (Z.ltb_spec (maxReferenceImagesPerJob L) refsTotal) as [|Hrefs]; [done|].
  destruct (maxReferenceInlineBytesPerJob L <? _); [done|]. intros Hadd.
  eapply (add_copies_ok L) in Hadd as (Hc' & Hr' & Ho' & Href & Hl & _).
  - cbn in Hr', Ho', Href, Hl. pose proof (copy_ids_length id n En) as Hn.
    split_and!; [|done|lia]. split; [done|lia| |lia|lia].
    fold (references (expandedItems x)) in Href. rewrite Hn in Href. unfold refsTotal in *. lia.
  - done.
  - by destruct Hc.
Qed.

Lemma expand_items_ok L model i items x x' :
  expansion_ok L x -> expand_items L model i items x = Ok x' ->
  expansion_ok L x' /\ totalOutputImages x' = totalOutputImages x + total wanted_images items /\
  Forall (fun item => 1 <= wanted_images item) items.
Proof.
  revert i x. induction items as [|item items IH]; intros i x Hx; cbn [expand_items].
  { intros [= <-]. split_and!; [done|cbn; lia|constructor]. }
  destruct (expand_item L model i item x) as [x1|e] eqn:E; [|done]. intros Hr.
  apply expand_item_ok in E as (Hx1 & Hw & Ht); [|done].
  destruct (IH _ _ Hx1 Hr) as (Hx' & Ht' & Hf).
  split_and!; [done|cbn [total]; lia|by constructor].
Qed.

Lemma expand_start L : expansion_ok L (mkExpansion 0 0 0 ∅ []).
Proof.
  assert (Hpos : forall v d, 0 <= d -> 0 <= positive_or v d).
  { intros v d Hd. unfold positive_or. case_Z; lia. }
  split; cbn; [split; cbn; [done|constructor|constructor]|lia|done| |]; apply Hpos; lia.
Qed.

Lemma total_zero {A} (l : list A) : total (fun _ => 0) l = 0.
Proof. by induction l. Qed.

(** A request that passes validation has at least one item and at most as
many as a job may have: the sum of the images its items asked for; their custom
ids are pairwise different, their prompts neither blank nor too long; the
references do not exceed the limit of a job; the size is the one supported. *)
Theorem validated_request L now req r :
  validateSubmitRequest L now req = Ok r ->
  0 < Z.of_nat (length (Items r)) <= maxOutputImagesPerJob L /\
  Z.of_nat (length (Items r)) = total wanted_images (Items req) /\
  NoDup (item_ids (Items r)) /\ Forall (item_ok L) (Items r) /\
  references (Items r) <= maxReferenceImagesPerJob L /\
  ImageSize r = defaultBatchImageImageSize /\ req_Model r <> "".
Proof.
  unfold validateSubmitRequest.
  destruct (String.eqb_spec (TrimSpace (req_Model req)) "") as [|Hmodel]; [done|].
  destruct (_ && _); [done|].
  destruct ((length (Items req) =? 0)%nat || _) eqn:El; [done|].
  destruct (negb (EqualFold _ _)); [done|].
  destruct (expand_items _ _ _ _ _) as [x|e] eqn:Ex; [|done]. intros [= <-].
  apply expand_items_ok in Ex as ([[Hs Hn Hi] Ho Hr Hom Hrm] & Ht & Hw); [|apply expand_start].
  cbn [Items ImageSize req_Model totalOutputImages] in *. split_and!; try done; try lia.
  apply orb_false_iff in El as [El _]. apply Nat.eqb_neq in El.
  destruct (Items req) as [|item items]; [done|]. inversion_clear Hw. cbn in Ht.
  assert (0 <= total wanted_images items); [|lia].
  rewrite <- (total_zero items). apply total_le. eapply Forall_impl; [done|]. cbn. lia.
Qed.
End BatchRequest.

(** ** Prices *)

Record Group : Type := mkGroup {
  group_ID : Z;
  AllowBatchImageGeneration : bool;
  group_Platform : string;
  RateMultiplier : Q;
  ImageRateIndependent : bool;
  ImageRateMultiplier : Q;
  BatchImageDiscountMultiplier : Q;
  BatchImageHoldMultiplier : Q;
  ImagePrice1K : option Q;
  ImagePrice2K : option Q;
  ImagePrice4K : option Q
}.

Definition PlatformGemini := "gemini".

Definition GetImagePrice (g : Group) (imageSize : string) : option Q :=
  if String.eqb imageSize "1K" then ImagePrice1K g
  else if String.eqb imageSize "4K" then ImagePrice4K g else ImagePrice2K g.

Record BatchImageOwner : Type := mkOwner {
  owner_UserID : Z;
  owner_APIKeyID : Z;
  GroupID : option Z
}.

Record BatchImagePricingSnapshot : Type := mkSnapshot {
  BaseUnitPrice : Q;
  GroupRateMultiplier : Q;
  AccountRateMultiplier : Q;
  BatchDiscountMultiplier : Q;
  HoldMultiplier : Q;
  snap_BillableUnitPrice : Q;
  HoldUnitPrice : Q;
  snap_EstimatedCost : Q;
  snap_HoldAmount : Q
}.

Definition Q_lt (x y : Q) : bool := negb (Qle_bool y x).

(** [if x < 0 { x = 0 }]. *)
Definition atleast0 (x : Q) : Q := if Q_lt x 0 then 0%Q else x.

(** The value of a DECIMAL(20,10) column, in units of 10^-10. *)
Definition round10 (x : Q) : Amount :=
  if Q_lt x 0 then - Qfloor (- x * (10000000000 # 1) + (1 # 2))
  else Qfloor (x * (10000000000 # 1) + (1 # 2)).

Definition defaultBatchImageDiscountMultiplier : Q := 1 # 2.
Definition defaultBatchImageHoldMultiplier : Q := 3 # 5.

Section Pricing.
Context (GetByIDLite : Z -> res Group) (GetByUserAndGroup : Z -> Z -> res (option Q))
  (BatchImageUnitPrice : string -> string -> res Q).

Definition ensureGroupAllowsBatchImage (groupID : option Z) : res unit :=
  if default 0 groupID <=? 0 then Ok tt
  else match GetByIDLite (default 0 groupID) with
  | Err _ => Err ErrBatchImageSettlementPricingMissing
  | Ok group =>
      if negb (AllowBatchImageGeneration group) then Err ErrBatchImageGroupDisabled
      else if negb (String.eqb (group_Platform group) PlatformGemini)
      then Err ErrBatchImageGroupDisabled else Ok tt
  end.

(** The multipliers of a group, and its price if one is set. *)
Definition group_pricing (userID : Z) (imageSize : string) (group : Group)
    : res (Q * Q * Q * option Q) :=
  if negb (AllowBatchImageGeneration group) then Err ErrBatchImageGroupDisabled
  else
    match GetByUserAndGroup userID (group_ID group) with
    | Err _ => Err ErrBatchImageSettlementPricingMissing
    | Ok userRate =>
        let effective := default (atleast0 (RateMultiplier group)) userRate in
        let multiplier :=
          if ImageRateIndependent group then ImageRateMultiplier group else effective in
        Ok (atleast0 multiplier, atleast0 (BatchImageDiscountMultiplier group),
            (if Qle_bool 0 (BatchImageHoldMultiplier group) then BatchImageHoldMultiplier group
             else defaultBatchImageHoldMultiplier),
            match GetImagePrice group imageSize with
            | Some p => if Qle_bool 0 p then Some p else None
            | None => None
            end)
    end.

(** For [items] items on an account with multiplier [accountMultiplier]. *)
Definition resolvePricingSnapshot (owner : BatchImageOwner) (model imageSize provider : string)
    (items : Z) (accountMultiplier : Q) : res BatchImagePricingSnapshot :=
  let fromGroup :=
    if default 0 (GroupID owner) <=? 0
    then Ok (1%Q, defaultBatchImageDiscountMultiplier, defaultBatchImageHoldMultiplier, None)
    else match GetByIDLite (default 0 (GroupID owner)) with
    | Err _ => Err ErrBatchImageSettlementPricingMissing
    | Ok group => group_pricing (owner_UserID owner) imageSize group
    end in
  match fromGroup with
  | Err e => Err e
  | Ok (groupMultiplier, discountMultiplier, holdMultiplier, configuredUnit) =>
      let unitPrice :=
        match configuredUnit with
        | Some p => Ok p
        | None =>
            match BatchImageUnitPrice provider model with
            | Err _ => Err ErrBatchImageSettlementPricingMissing
            | Ok p => if Q_lt p 0 then Err ErrBatchImageSettlementPricingMissing else Ok p
            end
        end in
      match unitPrice with
      | Err e => Err e
      | Ok unit =>
          let holdMultiplier :=
            if Q_lt holdMultiplier discountMultiplier then discountMultiplier else holdMultiplier in
          let accountMultiplier := atleast0 accountMultiplier in
          let standardUnitPrice := (unit * groupMultiplier * accountMultiplier)%Q in
          let billableUnitPrice := (standardUnitPrice * discountMultiplier)%Q in
          let holdUnitPrice := (standardUnitPrice * holdMultiplier)%Q in
          Ok (mkSnapshot unit groupMultiplier accountMultiplier discountMultiplier holdMultiplier
                billableUnitPrice holdUnitPrice (billableUnitPrice * inject_Z items)%Q
                (holdUnitPrice * inject_Z items)%Q)
      end
  end.

Lemma Q_lt_true x y : Q_lt x y = true <-> (x < y)%Q.
Proof.
  unfold Q_lt. rewrite negb_true_iff. split; intros Hx.
  - apply Qnot_le_lt. intros Hle%Qle_bool_iff. congruence.
  - apply not_true_iff_false. rewrite Qle_bool_iff. by apply Qlt_not_le.
Qed.

Lemma Q_lt_false x y : Q_lt x y = false <-> (y <= x)%Q.
Proof. unfold Q_lt. by rewrite negb_false_iff, Qle_bool_iff. Qed.

Lemma atleast0_nonneg x : (0 <= atleast0 x)%Q.
Proof. unfold atleast0. destruct (Q_lt x 0) eqn:E; [lra|by apply Q_lt_false]. Qed.

Lemma round10_nonneg x : (0 <= x)%Q ->
  (inject_Z (round10 x) <= x * (10000000000 # 1) + (1 # 2) < inject_Z (round10 x) + 1)%Q.
Proof.
  intros Hx. unfold round10. apply Q_lt_false in Hx. rewrite Hx. split; [apply Qfloor_le|].
  pose proof (Qlt_floor (x * (10000000000 # 1) + (1 # 2))) as Hf.
  rewrite inject_Z_plus in Hf. exact Hf.
Qed.

(** What a snapshot has been computed from. *)
Lemma snapshot_bounds owner model size provider n acc s :
  resolvePricingSnapshot owner model size provider n acc = Ok s ->
  (0 <= snap_BillableUnitPrice s <= HoldUnitPrice s)%Q /\
  snap_EstimatedCost s = (snap_BillableUnitPrice s * inject_Z n)%Q /\
  snap_HoldAmount s = (HoldUnitPrice s * inject_Z n)%Q.
Proof.
  unfold resolvePricingSnapshot.
  set (fromGroup := if default 0 (GroupID owner) <=? 0 then _ else _).
  assert (Hg : forall g d h u, fromGroup = Ok (g, d, h, u) ->
    (0 <= g)%Q /\ (0 <= d)%Q /\ match u with Some p => (0 <= p)%Q | None => True end).
  { unfold fromGroup, group_pricing. intros g d h u.
    destruct (default 0 (GroupID owner) <=? 0); [intros [= <- <- <- <-]; split_and!; done|].
    destruct (GetByIDLite _) as [group|]; [|done]. destruct (negb _); [done|].
    destruct (GetByUserAndGroup _ _) as [rate|]; [|done]. intros [= <- <- <- <-].
    split_and!; [apply atleast0_nonneg..|]. destruct (GetImagePrice _ _) as [p|]; [|done].
    destruct (Qle_bool 0 p) eqn:E; [by apply Qle_bool_iff|done]. }
  destruct fromGroup as [[[[g d] h] u]|e]; [|done]. destruct (Hg _ _ _ _ eq_refl) as (Hg0 & Hd0 & Hu).
  set (unitPrice := match u with Some p => _ | None => _ end).
  assert (Hp : forall p, unitPrice = Ok p -> (0 <= p)%Q).
  { unfold unitPrice. intros p. destruct u; [by intros [= <-]|].
    destruct (BatchImageUnitPrice provider model) as [q|]; [|done].
    destruct (Q_lt q 0) eqn:E; [done|]. intros [= <-]. by apply Q_lt_false. }
  destruct unitPrice as [p|e]; [|done]. specialize (Hp p eq_refl). intros [= <-]. cbn.
  pose proof (atleast0_nonneg acc) as Ha.
  set (st := (p * g * atleast0 acc)%Q).
  assert (Hst : (0 <= st)%Q) by (apply Qmult_le_0_compat; [by apply Qmult_le_0_compat|done]).
  split_and!; [by apply Qmult_le_0_compat| |done|done].
  rewrite !(Qmult_comm st). apply Qmult_le_compat_r; [|done].
  destruct (Q_lt h d) eqn:E; [lra|by apply Q_lt_false].
Qed.

(** The hold covers the cost.  For a job of at most 200 items, the default
limit, however its owner's group and account are priced: what the settlement
charges for any number of successful items, at the stored unit price, exceeds
the stored hold by at most the tolerance of the settlement, so that a job with
a price snapshot is never refused for its cost. *)
Theorem hold_covers_cost owner model size provider n acc s success :
  resolvePricingSnapshot owner model size provider n acc = Ok s ->
  0 <= success <= n -> n <= 200 ->
  success * round10 (snap_BillableUnitPrice s) - round10 (snap_HoldAmount s) <= batchImageCostEpsilon.
Proof.
  intros Hs Hn H200. apply snapshot_bounds in Hs as ([Hb Hbh] & _ & Hhold).
  set (b := snap_BillableUnitPrice s) in *. set (h := HoldUnitPrice s) in *.
  assert (HnQ : (0 <= inject_Z n)%Q) by (change 0%Q with (inject_Z 0); rewrite <- Zle_Qle; lia).
  assert (Hh : (b * inject_Z n <= h * inject_Z n)%Q) by (apply Qmult_le_compat_r; lra).
  assert (Hbn : (0 <= b * inject_Z n)%Q) by (apply Qmult_le_0_compat; lra).
  rewrite Hhold. pose proof (round10_nonneg b Hb) as [Hb1 Hb2].
  pose proof (round10_nonneg (h * inject_Z n) ltac:(lra)) as [Hh1 Hh2].
  set (B := round10 b) in *. set (HH := round10 (h * inject_Z n)) in *.
  assert (HB : 0 <= B).
  { assert (HB' : (0 < inject_Z B + 1)%Q) by lra. change 1%Q with (inject_Z 1) in HB'.
    change 0%Q with (inject_Z 0) in HB'. rewrite <- inject_Z_plus, <- Zlt_Qlt in HB'. lia. }
  assert (Hmax : success * B <= n * B) by nia.
  assert (HnB : (inject_Z (n * B) <= b * inject_Z n * (10000000000 # 1) + inject_Z n * (1 # 2))%Q).
  { rewrite inject_Z_mult. apply (Qle_trans _ (inject_Z n * (b * (10000000000 # 1) + (1 # 2))));
      [|apply Qle_lteq; right; ring].
    rewrite !(Qmult_comm (inject_Z n)). by apply Qmult_le_compat_r. }
  assert (Hn200 : (inject_Z n <= inject_Z 200)%Q) by (rewrite <- Zle_Qle; lia).
  assert (Hlt : (inject_Z (n * B) < inject_Z (HH + 101))%Q).
  { rewrite inject_Z_plus. change (inject_Z 101) with (101 # 1)%Q.
    change (inject_Z 200) with (200 # 1)%Q in Hn200.
    assert ((b * inject_Z n) * (10000000000 # 1) <= (h * inject_Z n) * (10000000000 # 1))%Q.
    { apply Qmult_le_compat_r; [done|lra]. }
    lra. }
  rewrite <- Zlt_Qlt in Hlt. unfold batchImageCostEpsilon. lia.
Qed.
End Pricing.

(** A group whose discount and hold are the same, and a price that the column
rounds up: with the limit of a job raised to 202 images the hold is too small. *)
Definition ex_group : Group := mkGroup 3 true "gemini" 1 false 1 1 1 (Some (300000001 # 20000000000)) None None.

Example hold_too_small_for_202 :
  match resolvePricingSnapshot (fun _ => Ok ex_group) (fun _ _ => Ok None) (fun _ _ => Ok 0%Q)
          (mkOwner 7 70 (Some 3)) "m" "1K" "vertex" 202 1 with
  | Ok s => (batchImageCostEpsilon <?
             202 * round10 (snap_BillableUnitPrice s) - round10 (snap_HoldAmount s)) = true
  | Err _ => False
  end.
Proof. by vm_compute. Qed.

Lemma hold_covers_cost_witness :
  exists s, resolvePricingSnapshot (fun _ => Ok ex_group) (fun _ _ => Ok None) (fun _ _ => Ok 0%Q)
              (mkOwner 7 70 (Some 3)) "m" "1K" "vertex" 200 1 = Ok s /\
    199 * round10 (snap_BillableUnitPrice s) - round10 (snap_HoldAmount s) <= batchImageCostEpsilon.
Proof.
  eexists. split; [reflexivity|].
  apply (hold_covers_cost (fun _ => Ok ex_group) (fun _ _ => Ok None) (fun _ _ => Ok 0%Q)
    (mkOwner 7 70 (Some 3)) "m" "1K" "vertex" 200 1); [reflexivity|lia|lia].
Defined.

(** A codec to evaluate the model with: it shows the model, the name and the
custom ids. *)
#[export] Instance PlainCodec : RequestCodec := {
  MarshalRequest r := req_Model r +:+ "/" +:+ req_TaskName r +:+ "/" +:+ String.concat "," (item_ids (Items r));
  FormatDateTime t := pretty (t / Second)
}.

Definition ex_limits : BatchLimits := mkLimits 0 0 0 0 0 0 "" "".

Definition ex_request : BatchImageSubmitRequest :=
  mkRequest " gemini-3-pro-image " "" "" "vertex"
    [mkSubmitItem "a" "a cat" 2 []; mkSubmitItem "" " a dog " 0 []] "" "" "1k" None.

Example request_ex_valid :
  match validateSubmitRequest ex_limits (5 * Second) ex_request with
  | Ok r => item_ids (Items r) = ["a_01"; "a_02"; "item_000002"] /\ req_TaskName r = "5"
  | Err _ => False
  end.
Proof. by vm_compute. Qed.

Definition ex_validated : BatchImageSubmitRequest :=
  match validateSubmitRequest ex_limits (5 * Second) ex_request with Ok r => r | Err _ => ex_request end.

Lemma validated_request_witness :
  validateSubmitRequest ex_limits (5 * Second) ex_request = Ok ex_validated /\
  0 < Z.of_nat (length (Items ex_validated)) <= 200 /\ NoDup (item_ids (Items ex_validated)).
Proof.
  assert (E : validateSubmitRequest ex_limits (5 * Second) ex_request = Ok ex_validated)
    by (vm_compute; reflexivity).
  destruct (validated_request ex_limits (5 * Second) ex_request ex_validated E) as (Hn & _ & Hnd & _).
  split; [exact E|]. split; [exact Hn|exact Hnd].
Defined.
