(* ===== verification/BatchPublic.v ===== *)
(** * The public operations on batch images

Submission, cancellation and deletion of [service/batch_image_public.go], and
the clean-up of [service/batch_image_cleanup.go]: programs over the tables.  A
submission is in two phases, before and after the call of the provider, so that
a history can put other operations between them.  An operation returns the row
of the job, from which the code makes the public view. *)
From S2P Require Import Prelude GoText GoTime SubscriptionWindow Wallets BillingStore Billing.
From S2P Require Import BatchJobs BatchSettlement BatchIndex BatchProcessor BatchRequest.
From Stdlib Require Import Bool QArith.

Local Open Scope string_scope.
Local Open Scope Z_scope.

Definition ErrBatchImageDisabled : goerr := ErrApp 404 "BATCH_IMAGE_DISABLED".
Definition ErrBatchImageNoAccountAvailable : goerr := ErrApp 502 "BATCH_IMAGE_NO_ACCOUNT_AVAILABLE".
Definition ErrBatchImageIdempotencyConflict : goerr := ErrApp 409 "BATCH_IMAGE_IDEMPOTENCY_CONFLICT".
Definition ErrBatchImageQueueFailed : goerr := ErrApp 502 "BATCH_IMAGE_QUEUE_FAILED".
Definition ErrBatchImageProviderSubmitFailed : goerr :=
  ErrApp 502 "BATCH_IMAGE_PROVIDER_SUBMIT_FAILED".
Definition ErrBatchImageVertexGCSBucketMissing : goerr :=
  ErrApp 502 "BATCH_IMAGE_VERTEX_GCS_BUCKET_MISSING".
Definition ErrBatchImageProviderMissingAPIKey : goerr :=
  ErrApp 400 "BATCH_IMAGE_PROVIDER_MISSING_API_KEY".
Definition ErrBatchImageProviderMissingServiceAccount : goerr :=
  ErrApp 400 "BATCH_IMAGE_PROVIDER_MISSING_SERVICE_ACCOUNT".
Definition ErrBatchImageCancelFailed : goerr := ErrApp 502 "BATCH_IMAGE_CANCEL_FAILED".
Definition ErrBatchImageOutputDeleteNotReady : goerr :=
  ErrApp 409 "BATCH_IMAGE_OUTPUT_DELETE_NOT_READY".
Definition ErrBatchImageCleanupFailed : goerr := ErrApp 502 "BATCH_IMAGE_CLEANUP_FAILED".
Definition ErrBatchImageCleanupUnsafePath : goerr := ErrApp 400 "BATCH_IMAGE_CLEANUP_UNSAFE_PATH".
Definition ErrBatchImageProviderCleanupFailed : goerr :=
  ErrApp 502 "BATCH_IMAGE_PROVIDER_CLEANUP_FAILED".
Definition unsafeCleanupPath := "VERTEX_UNSAFE_CLEANUP_PATH".

(** [infraerrors.Reason]: that of the outermost application error. *)
Definition Reason (e : goerr) : string :=
  match e with ErrApp _ r => r | ErrWrap r _ => r | ErrMsg _ => "" end.

(** What the services read of an account. *)
Record AccountView (Account : Type) : Type := mkAccountView {
  acc_ID : Account -> Z;
  Priority : Account -> Z;
  IsSchedulable : Account -> bool;
  IsModelSupported : Account -> string -> bool;
  RateMultiplier : Account -> option Q
}.
Arguments mkAccountView {_}.
Arguments acc_ID {_}.
Arguments Priority {_}.
Arguments IsSchedulable {_}.
Arguments IsModelSupported {_}.
Arguments RateMultiplier {_}.

(** The collaborators of one submission; [newID] is a new batch id, [serial] the
next value of the sequence of the table. *)
Record SubmitEnv (Account : Type) : Type := mkSubmitEnv {
  collaborators : Collaborators Account;
  view : AccountView Account;
  Enabled : bool;
  limits : BatchLimits;
  GetByIDLite : Z -> res Group;
  GetByUserAndGroup : Z -> Z -> res (option Q);
  UnitPrice : string -> string -> res Q;
  ListSchedulable : option Z -> string -> res (list Account);
  newID : res string;
  serial : Z
}.
Arguments mkSubmitEnv {_}.
Arguments collaborators {_}.
Arguments view {_}.
Arguments Enabled {_}.
Arguments limits {_}.
Arguments GetByIDLite {_}.
Arguments GetByUserAndGroup {_}.
Arguments UnitPrice {_}.
Arguments ListSchedulable {_}.
Arguments newID {_}.
Arguments serial {_}.

Section BatchPublic.
Context `{GoUnicode} `{BillingParams} `{RequestCodec} {Account : Type}.

(** ** Selection *)

Definition BillingRateMultiplier (V : AccountView Account) (a : Account) : Q :=
  match RateMultiplier V a with
  | None => 1%Q
  | Some r => if Q_lt r 0 then 1%Q else r
  end.

Definition batchImageProviderSelectionOrder (requestedProvider : string) : list string :=
  let p := TrimSpace requestedProvider in
  if negb (String.eqb p "") then [p] else [BatchImageProviderGeminiAPI; BatchImageProviderVertex].

Definition listCandidateAccounts (E : SubmitEnv Account) (groupID : option Z) (platform : string)
    : res (list Account) :=
  if 0 <? default 0 groupID then ListSchedulable E groupID platform
  else ListSchedulable E None platform.

(** A smaller priority comes first, then a smaller id. *)
Definition account_less (V : AccountView Account) (x y : Account) : bool :=
  if negb (Priority V x =? Priority V y) then Priority V x <? Priority V y
  else acc_ID V x <? acc_ID V y.

Fixpoint select_provider (E : SubmitEnv Account) (owner : BatchImageOwner) (providers : list string)
    (model : string) : res (string * BatchImageProvider Account * Account) :=
  match providers with
  | [] => Err ErrBatchImageNoAccountAvailable
  | name :: providers =>
      match ProviderRegistry (collaborators E) name with
      | None => select_provider E owner providers model
      | Some provider =>
          match listCandidateAccounts E (GroupID owner) PlatformGemini with
          | Err e => Err e
          | Ok accounts =>
              match find (fun a => IsSchedulable (view E) a && IsModelSupported (view E) a model &&
                                   SupportsAccount provider a)
                      (stable_sort (account_less (view E)) accounts) with
              | Some account => Ok (name, provider, account)
              | None => select_provider E owner providers model
              end
          end
      end
  end.

Definition selectProviderAndAccount (E : SubmitEnv Account) (owner : BatchImageOwner)
    (requestedProvider model : string) : res (string * BatchImageProvider Account * Account) :=
  select_provider E owner (batchImageProviderSelectionOrder requestedProvider) model.

(** ** Shared steps *)

Definition Enqueue (batchID : string) : Prog unit :=
  autocommit (fun w => (tt, add_effect (Enqueued batchID) w)).

Definition enqueueBillingRetry (batchID : string) : Prog unit :=
  let! r := ttry (Enqueue batchID) in
  match r with
  | Ok _ => tret tt
  | Err _ => let! _ := ttry (AppendBatchImageEvent batchID "billing_retry_enqueue_failed") in tret tt
  end.

Definition hidePreUpstreamSubmitFailure (owner : BatchImageOwner) (job : BatchImageJob) (now : Time)
    : Prog unit :=
  match ProviderJobName job with
  | Some _ => tret tt
  | None =>
      let! _ := ttry (MarkBatchImageJobUserDeleted (owner_UserID owner) (owner_APIKeyID owner)
                        (BatchID job) now) in tret tt
  end.

(** The record of a submission that failed before it reached the provider. *)
Definition submit_failed {A} (owner : BatchImageOwner) (job : BatchImageJob) (code : string)
    (e : goerr) (now : Time) : Prog A :=
  let! _ := ttry (RecordBatchImageJobSubmitFailure (BatchID job) code true now) in
  let! _ := hidePreUpstreamSubmitFailure owner job now in
  tfail e.

Definition releaseFailedSubmitHold (job : BatchImageJob) (requestHash : string) (now : Time)
    : Prog unit :=
  let! r := ttry (releaseBatchImageBalanceHold job requestHash) in
  match r with
  | Err _ =>
      let! _ := ttry (RecordBatchImageJobSubmitFailure (BatchID job) "BILLING_RELEASE_FAILED" true now) in
      let! _ := enqueueBillingRetry (BatchID job) in
      tfail ErrBatchImageBillingHoldFailed
  | Ok _ => invalidateAuthCache (UserID job)
  end.

Definition createPendingItems (batchID : string) (items : list BatchImageSubmitItem) : Prog unit :=
  BulkCreateBatchImageItems batchID
    (map (fun item => mkItem (sub_CustomID item) BatchImageItemStatusPending 0 None) items).

Definition batchImageGCSRef (provider ref : string) : string :=
  if String.eqb provider BatchImageProviderVertex && HasPrefix (TrimSpace ref) "gs://"
  then TrimSpace ref else "".

Definition batchImageProviderSubmitPublicError (e : goerr) : goerr :=
  let reason := TrimSpace (Reason e) in
  if String.eqb reason "VERTEX_MANAGED_GCS_BUCKET_MISSING" then ErrBatchImageVertexGCSBucketMissing
  else if String.eqb reason "BATCH_IMAGE_PROVIDER_MISSING_API_KEY"
  then ErrBatchImageProviderMissingAPIKey
  else if String.eqb reason "BATCH_IMAGE_PROVIDER_MISSING_SERVICE_ACCOUNT"
  then ErrBatchImageProviderMissingServiceAccount
  else if String.eqb reason "BATCH_IMAGE_PROVIDER_UNSUPPORTED_ACCOUNT"
  then ErrBatchImageProviderUnsupportedAccount
  else ErrBatchImageProviderSubmitFailed.

Definition batchImageProviderSubmitRecordCode (e : goerr) : string :=
  let reason := TrimSpace (Reason e) in
  if String.eqb reason "" || String.eqb reason "BATCH_IMAGE_PROVIDER_SUBMIT_FAILED"
  then "PROVIDER_SUBMIT_FAILED" else reason.

(** ** Submission *)

(** A submission that is about to call its provider. *)
Record Pending : Type := mkPending {
  pending_job : BatchImageJob;
  pending_hash : string;
  pending_name : string;
  pending_provider : BatchImageProvider Account;
  pending_account : Account
}.

Definition job_spec (E : SubmitEnv Account) (owner : BatchImageOwner) (r : BatchImageSubmitRequest)
    (batchID name : string) (account : Account) (parent : option string)
    (snapshot : BatchImagePricingSnapshot) (idempotencyKey requestHash : string) : JobSpec :=
  mkSpec (serial E) batchID (owner_UserID owner) (Some (owner_APIKeyID owner))
    (Some (acc_ID (view E) account)) name (req_Model r) (req_TaskName r) parent
    (Z.of_nat (length (Items r))) (round10 (snap_EstimatedCost snapshot))
    (Some (round10 (snap_HoldAmount snapshot))) (round10 (snap_BillableUnitPrice snapshot)) 1
    (batchImageOptionalStringPtr idempotencyKey) (Some requestHash).

(** The batch that a new one belongs to. *)
Definition parent_of (owner : BatchImageOwner) (r : BatchImageSubmitRequest) : Prog (option string) :=
  match batchImageOptionalStringPtr (req_ParentBatchID r) with
  | None => tret None
  | Some parentBatchID =>
      let! parent := GetBatchImageJobByBatchIDForOwner (owner_UserID owner) (owner_APIKeyID owner)
                       parentBatchID in
      match ParentBatchID parent with
      | Some p => if negb (String.eqb (TrimSpace p) "") then tret (batchImageOptionalStringPtr p)
                  else tret (Some parentBatchID)
      | None => tret (Some parentBatchID)
      end
  end.

(** From the created row to the call of the provider. *)
Definition submit_reserve (owner : BatchImageOwner) (job : BatchImageJob) (requestHash : string)
    (items : list BatchImageSubmitItem) (now : Time) : Prog unit :=
  let! r := ttry (reserveBatchImageBalanceHold job requestHash) in
  match r with
  | Err e =>
      let code := if is_reason "BATCH_IMAGE_INSUFFICIENT_BALANCE" e then "INSUFFICIENT_BALANCE"
                  else "BILLING_HOLD_FAILED" in
      submit_failed owner job code e now
  | Ok _ =>
      let! _ := invalidateAuthCache (owner_UserID owner) in
      let! r := ttry (createPendingItems (BatchID job) items) in
      match r with
      | Err _ =>
          let! _ := releaseFailedSubmitHold job requestHash now in
          submit_failed owner job "ITEM_CREATE_FAILED" ErrBatchImageQueueFailed now
      | Ok _ =>
          let! r := ttry (TransitionBatchImageJobStatus (BatchID job) BatchImageJobStatusUploading
                            None "upload_started" now) in
          match r with
          | Err e =>
              let! _ := releaseFailedSubmitHold job requestHash now in
              if negb (is_reason "BATCH_IMAGE_INVALID_TRANSITION" e)
              then submit_failed owner job "UPLOAD_TRANSITION_FAILED" e now
              else tfail e
          | Ok _ => tret tt
          end
      end
  end.

Definition submit_new (E : SubmitEnv Account) (owner : BatchImageOwner) (r : BatchImageSubmitRequest)
    (requestHash idempotencyKey : string) (now : Time) : Prog (BatchImageJob + Pending) :=
  match selectProviderAndAccount E owner (req_Provider r) (req_Model r) with
  | Err e => tfail e
  | Ok (name, provider, account) =>
      match resolvePricingSnapshot (GetByIDLite E) (GetByUserAndGroup E) (UnitPrice E) owner
              (req_Model r) (ImageSize r) name (Z.of_nat (length (Items r)))
              (BillingRateMultiplier (view E) account) with
      | Err e => tfail e
      | Ok snapshot =>
          let! parent := parent_of owner r in
          match newID E with
          | Err e => tfail e
          | Ok batchID =>
              let! job := CreateBatchImageJob (job_spec E owner r batchID name account parent snapshot
                                                 idempotencyKey requestHash) now in
              let! _ := submit_reserve owner job requestHash (Items r) now in
              tret (inr (mkPending (moved_to BatchImageJobStatusUploading job) requestHash name
                           provider account))
          end
      end
  end.

(** The job that a key has created, and that is submitted again. *)
Definition submit_again (existing : BatchImageJob) (requestHash : string) (now : Time)
    : Prog BatchImageJob :=
  if negb (String.eqb (batchImageDerefString (RequestHash existing)) requestHash)
  then tfail ErrBatchImageIdempotencyConflict
  else if String.eqb (Status existing) BatchImageJobStatusSubmitted then
    let! r := ttry (Enqueue (BatchID existing)) in
    match r with
    | Ok _ => tret existing
    | Err _ =>
        let! _ := ttry (RecordBatchImageJobSubmitFailure (BatchID existing) "QUEUE_FAILED" false now) in
        tfail ErrBatchImageQueueFailed
    end
  else tret existing.

(** The first phase: an existing job, or a submission that is pending. *)
Definition SubmitBegin (E : SubmitEnv Account) (owner : BatchImageOwner)
    (req : BatchImageSubmitRequest) (idempotencyKey : string) (now : Time)
    : Prog (BatchImageJob + Pending) :=
  if negb (Enabled E) then tfail ErrBatchImageDisabled
  else match validateSubmitRequest (limits E) now req with
  | Err e => tfail e
  | Ok r =>
      match ensureGroupAllowsBatchImage (GetByIDLite E) (GroupID owner) with
      | Err e => tfail e
      | Ok _ =>
          let requestHash := HashBatchImageSubmitRequest r in
          let idempotencyKey := TrimSpace idempotencyKey in
          let! found := (if String.eqb idempotencyKey "" then tret (Err ErrBatchImageJobNotFound)
                         else ttry (GetBatchImageJobByIdempotencyKey (owner_UserID owner)
                                      (owner_APIKeyID owner) idempotencyKey)) in
          match found with
          | Ok existing => let! job := submit_again existing requestHash now in tret (inl job)
          | Err e =>
              if negb (is_reason "BATCH_IMAGE_JOB_NOT_FOUND" e) then tfail e
              else submit_new E owner r requestHash idempotencyKey now
          end
      end
  end.

Definition runSubmitHeartbeat (batchID : string) (ticks : list Time) : Prog unit :=
  foldr (fun now k => let! _ := ttry (TouchBatchImageJobSubmitting batchID now) in k) (tret tt) ticks.

(** The second phase: what the provider has answered. *)
Definition SubmitFinish (owner : BatchImageOwner) (p : Pending)
    (answer : res (option BatchProviderJob)) (now : Time) : Prog BatchImageJob :=
  let job := pending_job p in
  match answer with
  | Err e =>
      let! _ := releaseFailedSubmitHold job (pending_hash p) now in
      let publicErr := batchImageProviderSubmitPublicError e in
      submit_failed owner job (batchImageProviderSubmitRecordCode publicErr) publicErr now
  | Ok providerJob =>
      let name := match providerJob with Some j => TrimSpace (job_ProviderJobName j) | None => "" end in
      match providerJob, String.eqb name "" with
      | Some j, false =>
          let! r := ttry (UpdateBatchImageJobProviderSubmit (BatchID job) (job_ProviderJobName j)
            (job_ProviderInputRef j) (job_ProviderOutputRef j)
            (batchImageGCSRef (pending_name p) (job_ProviderInputRef j))
            (batchImageGCSRef (pending_name p) (job_ProviderOutputRef j)) now) in
          match r with
          | Err e =>
              let! _ := ttry (AppendBatchImageEvent (BatchID job) "provider_job_aborted_after_submit") in
              tfail e
          | Ok _ =>
              let! r := ttry (Enqueue (BatchID job)) in
              match r with
              | Err _ =>
                  let! _ := ttry (RecordBatchImageJobSubmitFailure (BatchID job) "QUEUE_FAILED" false now) in
                  tfail ErrBatchImageQueueFailed
              | Ok _ => GetBatchImageJobByBatchID (BatchID job)
              end
          end
      | _, _ =>
          let! _ := releaseFailedSubmitHold job (pending_hash p) now in
          submit_failed owner job "PROVIDER_SUBMIT_FAILED" ErrBatchImageProviderSubmitFailed now
      end
  end.

(** [ticks] are the instants of the heartbeat while the provider works. *)
Definition Submit (E : SubmitEnv Account) (owner : BatchImageOwner) (req : BatchImageSubmitRequest)
    (idempotencyKey : string) (now : Time) (ticks : list Time) : Prog BatchImageJob :=
  let! s := SubmitBegin E owner req idempotencyKey now in
  match s with
  | inl job => tret job
  | inr p =>
      let! _ := runSubmitHeartbeat (BatchID (pending_job p)) ticks in
      SubmitFinish owner p (provider_Submit (pending_provider p) (pending_job p) (pending_account p)) now
  end.

(** ** Cancellation and deletion *)

Definition Cancel (C : Collaborators Account) (owner : BatchImageOwner) (batchID : string)
    (now : Time) : Prog BatchImageJob :=
  let get := GetBatchImageJobByBatchIDForOwner (owner_UserID owner) (owner_APIKeyID owner) batchID in
  let! job := get in
  let release := fun k : Prog BatchImageJob =>
    let! r := ttry (releaseBatchImageBalanceHold job (batchImageDerefString (RequestHash job))) in
    match r with
    | Err _ => let! _ := enqueueBillingRetry (BatchID job) in tfail ErrBatchImageCancelFailed
    | Ok _ => let! _ := invalidateAuthCache (owner_UserID owner) in k
    end in
  if isBatchImageProcessorDoneStatus (Status job) then
    if String.eqb (Status job) BatchImageJobStatusFailed ||
       String.eqb (Status job) BatchImageJobStatusCancelled
    then release (tret job) else tret job
  else if negb (String.eqb (TrimSpace (default "" (ProviderJobName job))) "") then
    match ProviderRegistry C (Provider job) with
    | None => tfail ErrBatchImageUnsupportedProvider
    | Some provider =>
        match AccountID job with
        | None => tfail ErrBatchImageCancelFailed
        | Some accountID =>
            match ResolveBatchImageAccount C accountID with
            | Err _ => tfail ErrBatchImageCancelFailed
            | Ok account =>
                match provider_Cancel provider job account with
                | Err _ => tfail ErrBatchImageCancelFailed
                | Ok _ =>
                    let! _ := ttry (AppendBatchImageEvent (BatchID job) "job_cancel_requested") in
                    let! r := ttry (Enqueue (BatchID job)) in
                    match r with
                    | Err _ => tfail ErrBatchImageCancelFailed
                    | Ok _ => get
                    end
                end
            end
        end
    end
  else
    let! _ := TransitionBatchImageJobStatus (BatchID job) BatchImageJobStatusCancelled None
                "job_cancelled" now in
    release get.

Definition MarkDownloaded (owner : BatchImageOwner) (batchID : string) (now : Time) : Prog unit :=
  let! job := GetBatchImageJobByBatchIDForOwner (owner_UserID owner) (owner_APIKeyID owner) batchID in
  MarkBatchImageDownloaded (BatchID job) now.

Definition DeleteRecord (owner : BatchImageOwner) (batchID : string) (now : Time) : Prog unit :=
  let! job := GetBatchImageJobByBatchIDForOwner (owner_UserID owner) (owner_APIKeyID owner) batchID in
  if negb (isBatchImageProcessorDoneStatus (Status job)) then tfail ErrBatchImageRecordDeleteNotReady
  else MarkBatchImageJobUserDeleted (owner_UserID owner) (owner_APIKeyID owner) (BatchID job) now.

(** ** Clean-up *)

(** The part of a message that [cleanupErrorIsNotFound] searches, in upper case,
is a parameter: whether the error says that there is nothing to delete. *)
Section Cleanup.
Context (C : Collaborators Account) (cleanupErrorIsNotFound : goerr -> bool).

Definition appendCleanupEvent (batchID eventType : string) : Prog unit :=
  let! _ := ttry (AppendBatchImageEvent batchID eventType) in tret tt.

Definition callProviderCleanup (job : BatchImageJob) (target : CleanupTarget) : res unit :=
  match ProviderRegistry C (Provider job) with
  | None => Err ErrBatchImageUnsupportedProvider
  | Some provider =>
      if default 0 (AccountID job) <=? 0 then Err ErrBatchImageMissingAccountID
      else match ResolveBatchImageAccount C (default 0 (AccountID job)) with
      | Err e => Err e
      | Ok account =>
          match provider_Cleanup provider job account target with
          | Err e => if cleanupErrorIsNotFound e then Ok tt else Err e
          | Ok _ => Ok tt
          end
      end
  end.

Definition cleanupFailureCode (e : goerr) : string :=
  if is_reason unsafeCleanupPath e then "BATCH_IMAGE_CLEANUP_UNSAFE_PATH"
  else
    let reason := TrimSpace (Reason e) in
    if negb (String.eqb reason "") then reason else "BATCH_IMAGE_PROVIDER_CLEANUP_FAILED".

(** What follows the checks of [cleanupJob]. *)
Definition runCleanup (job : BatchImageJob) (target : CleanupTarget) (now : Time) : Prog unit :=
  let prefix := match target with CleanupTargetInput => "input" | CleanupTargetOutput => "output" end in
  let! _ := appendCleanupEvent (BatchID job) (prefix +:+ "_cleanup_started") in
  match callProviderCleanup job target with
  | Err e =>
      let! _ := ttry (RecordBatchImageCleanupFailure (BatchID job) (cleanupFailureCode e) now) in
      let! _ := appendCleanupEvent (BatchID job) (prefix +:+ "_cleanup_failed") in
      if is_reason unsafeCleanupPath e then tfail ErrBatchImageCleanupUnsafePath
      else tfail ErrBatchImageProviderCleanupFailed
  | Ok _ =>
      match target with
      | CleanupTargetInput => MarkBatchImageInputDeleted (BatchID job) now
      | CleanupTargetOutput => MarkBatchImageOutputDeleted (BatchID job) now
      end
  end.

Definition cleanupJob (job : BatchImageJob) (target : CleanupTarget) (now : Time) : Prog unit :=
  match target with
  | CleanupTargetInput =>
      if isSomeb (InputDeletedAt job) then tret tt
      else if negb (IsTerminalBatchImageJobStatus (Status job)) then tfail ErrBatchImageCleanupFailed
      else runCleanup job target now
  | CleanupTargetOutput =>
      if isSomeb (OutputDeletedAt job) || String.eqb (Status job) BatchImageJobStatusOutputDeleted
      then tret tt
      else if negb (String.eqb (Status job) BatchImageJobStatusCompleted) &&
              negb (String.eqb (Status job) BatchImageJobStatusFailed) &&
              negb (String.eqb (Status job) BatchImageJobStatusCancelled)
      then tfail ErrBatchImageOutputDeleteNotReady
      else runCleanup job target now
  end.

Definition DeleteOutputsForOwner (owner : BatchImageOwner) (batchID : string) (now : Time)
    : Prog BatchImageJob :=
  let get := GetBatchImageJobByBatchIDForOwner (owner_UserID owner) (owner_APIKeyID owner) batchID in
  let! job := get in
  if String.eqb (Status job) BatchImageJobStatusOutputDeleted || isSomeb (OutputDeletedAt job)
  then tret job
  else if negb (String.eqb (Status job) BatchImageJobStatusCompleted)
  then tfail ErrBatchImageOutputDeleteNotReady
  else
    let! _ := appendCleanupEvent (BatchID job) "manual_output_delete_requested" in
    let! _ := cleanupJob job CleanupTargetOutput now in
    get.

Definition CleanupInput (batchID : string) (now : Time) : Prog unit :=
  let! job := GetBatchImageJobByBatchID batchID in cleanupJob job CleanupTargetInput now.

Definition CleanupOutput (batchID : string) (now : Time) : Prog unit :=
  let! job := GetBatchImageJobByBatchID batchID in cleanupJob job CleanupTargetOutput now.

(** The jobs cleaned up, and the failures. *)
Fixpoint cleanup_all (jobs : list BatchImageJob) (target : CleanupTarget) (now : Time)
    (cleaned failures : Z) : Prog (Z * Z) :=
  match jobs with
  | [] => tret (cleaned, failures)
  | job :: jobs =>
      let! r := ttry (cleanupJob job target now) in
      match r with
      | Err _ => cleanup_all jobs target now cleaned (failures + 1)
      | Ok _ => cleanup_all jobs target now (cleaned + 1) failures
      end
  end.

Record BatchImageCleanupRunResult : Type := mkCleanupRun {
  InputCleaned : Z;
  OutputCleaned : Z;
  Failures : Z
}.

(** [RunOnce]; [retention] and [batchSize] are those of the settings. *)
Definition CleanupRunOnce (retention : Duration) (batchSize : Z) (now : Time)
    : Prog BatchImageCleanupRunResult :=
  let! inputJobs := ListBatchImageJobsDueForInputCleanup (now - retention) batchSize in
  let! x := cleanup_all inputJobs CleanupTargetInput now 0 0 in
  let! outputJobs := ListBatchImageJobsDueForOutputCleanup now batchSize in
  let! y := cleanup_all outputJobs CleanupTargetOutput now 0 x.2 in
  tret (mkCleanupRun x.1 y.1 y.2).
End Cleanup.
End BatchPublic.
