(* ===== verification/BatchBilling.v ===== *)
(** * Jobs and money

The invariant that ties the job table to the billing tables: a job has a cost
only if the capture of its hold at exactly that cost is on record.  Every
program of the batch services keeps it, whatever fails ([evo]), and so does
every history of their calls together with the charges of other services. *)
From S2P Require Import Prelude GoText GoTime SubscriptionWindow Wallets BillingStore Billing.
From S2P Require Import BillingLedger BillingRecords BatchJobs BatchJobLife BatchSettlement.
From S2P Require Import BatchIndex BatchProcessor BatchRequest BatchPublic.
From Stdlib Require Import Bool QArith.

Local Open Scope string_scope.
Local Open Scope Z_scope.

#[local] Hint Unfold is_set : core.

Section BatchBilling.
Context `{GoUnicode} `{BillingParams} `{GoJSON} `{RequestCodec} {Account : Type}.

(** The capture of the job's hold at cost [c] and with manifest hash [h]. *)
Definition capture_of (j : BatchImageJob) (c : Amount) (h : string)
    : res BatchImageBalanceHoldCommand :=
  buildBatchImageHoldCommand j (BatchImageCaptureRequestID (BatchID j)) c h.

Definition on_record (cmd : BatchImageBalanceHoldCommand) (db : DB) : Prop :=
  recorded (hold_key cmd) (hold_fingerprint cmd) db.

Definition paid (db : DB) (j : BatchImageJob) (c : Amount) : Prop :=
  exists h cmd, ManifestHash j = Some h /\ capture_of j c h = Ok cmd /\ on_record cmd db.

Definition job_ok (db : DB) (b : string) (j : BatchImageJob) : Prop :=
  BatchID j = b /\ (forall c, ActualCost j = Some c -> paid db j c) /\
  (Status j = BatchImageJobStatusCompleted -> is_set (ActualCost j)).

Definition sys_ok (w : World) : Prop :=
  dedup_ok (w_db w) /\ forall b j, batch_image_jobs w !! b = Some j -> job_ok (w_db w) b j.

(** How a program may change the tables. *)
Definition evolves (w w' : World) : Prop :=
  sys_ok w ->
  keeps_records (w_db w) (w_db w') /\
  (forall b j, batch_image_jobs w !! b = Some j ->
     exists j', batch_image_jobs w' !! b = Some j' /\ spec j' = spec j) /\
  sys_ok w'.

Definition evo {A} (m : Prog A) : Prop := forall w, wp m (fun _ w' => evolves w w') w.

Lemma capture_of_spec j j' c h : spec j' = spec j -> capture_of j' c h = capture_of j c h.
Proof. intros Hs. unfold capture_of, buildBatchImageHoldCommand. by rewrite Hs. Qed.

Lemma evolves_refl w : evolves w w.
Proof. intros Hok. split_and!; [apply keeps_refl|eauto|done]. Qed.

Lemma evolves_trans w1 w2 w3 : evolves w1 w2 -> evolves w2 w3 -> evolves w1 w3.
Proof.
  intros He He2 Hok. destruct (He Hok) as (Hk & Hj & Hok2). destruct (He2 Hok2) as (Hk' & Hj' & Hok3).
  split_and!; [by eapply keeps_trans| |done].
  intros b j Hb. destruct (Hj _ _ Hb) as (j1 & Hb1 & Hs1).
  destruct (Hj' _ _ Hb1) as (j2 & Hb2 & Hs2). exists j2. by rewrite Hs2.
Qed.

Lemma paid_keeps db db' j c : dedup_ok db -> keeps_records db db' -> paid db j c -> paid db' j c.
Proof.
  intros Hok Hk (h & cmd & Hm & Hc & Hr). exists h, cmd. split_and!; [done..|]. by apply Hk.
Qed.

Lemma job_ok_keeps db db' b j : dedup_ok db -> keeps_records db db' -> job_ok db b j -> job_ok db' b j.
Proof.
  intros Hok Hk (Hid & Hp & Hc). split_and!; [done| |done]. intros c Hcost.
  eapply paid_keeps; [done..|]. auto.
Qed.

(** *** The rules *)

Lemma evolves_tables w w' :
  w_db w' = w_db w -> batch_image_jobs w' = batch_image_jobs w -> evolves w w'.
Proof.
  intros Hdb Hj Hok. split_and!.
  - rewrite Hdb. apply keeps_refl.
  - rewrite Hj. eauto.
  - unfold sys_ok in *. by rewrite Hdb, Hj.
Qed.

Lemma evolves_billing w db : keeps_records (w_db w) db -> evolves w (set_db db w).
Proof.
  intros Hk [Hok Hjobs]. split_and!; [done|eauto|]. split; [by apply Hk|].
  intros b j Hj. eapply job_ok_keeps; [done..|]. by apply Hjobs.
Qed.

Lemma evo_at {A} (m : Prog A) w : evo m -> wp m (fun _ w' => evolves w w') w.
Proof. intros Hm. apply Hm. Qed.

Lemma evo_ret {A} (a : A) : evo (tret a).
Proof. intros w. apply wp_ret, evolves_refl. Qed.

Lemma evo_fail {A} e : evo (@tfail World A e).
Proof. intros w. apply wp_fail, evolves_refl. Qed.

Lemma wp_evolves_bind {A B} (m : Prog A) (k : A -> Prog B) w :
  wp m (fun r w1 => evolves w w1 /\
    forall a, r = Ok a -> wp (k a) (fun _ w' => evolves w1 w') w1) w ->
  wp (tbind m k) (fun _ w' => evolves w w') w.
Proof.
  intros Hm. apply wp_bind. eapply wp_mono; [exact Hm|]. intros [a|e] w1 [He Hk]; [|done].
  eapply wp_mono; [by apply Hk|]. intros r w2 He2. by eapply evolves_trans.
Qed.

Lemma evo_bind {A B} (m : Prog A) (k : A -> Prog B) : evo m -> (forall a, evo (k a)) -> evo (tbind m k).
Proof.
  intros Hm Hk w. apply wp_evolves_bind. eapply wp_mono; [apply Hm|]. intros r w1 He.
  split; [done|]. intros a _. apply Hk.
Qed.

Lemma evo_try {A} (m : Prog A) : evo m -> evo (ttry m).
Proof. intros Hm w. apply wp_try, Hm. Qed.

Lemma evo_query {A} (f : World -> A) : evo (query f).
Proof. intros w. apply wp_query; [intros|]; apply evolves_refl. Qed.

Lemma evo_autocommit {A} (f : World -> A * World) :
  (forall w, w_db (f w).2 = w_db w /\ batch_image_jobs (f w).2 = batch_image_jobs w) ->
  evo (autocommit f).
Proof.
  intros Hf w. destruct (Hf w). apply wp_autocommit; intros;
    first [apply evolves_refl | by apply evolves_tables].
Qed.

Lemma evo_emit e : evo (emit e).
Proof. intros w fs. by apply evolves_tables. Qed.

Lemma evo_billing {A} (m : DB -> faults -> res A * DB * faults) :
  (forall db, wp m (fun _ db' => keeps_records db db') db) -> evo (billing m).
Proof.
  intros Hm w fs. specialize (Hm (w_db w) fs). unfold billing.
  destruct (m (w_db w) fs) as [[r db'] fs']. by apply evolves_billing.
Qed.

(** The tables at the start may be taken to be in order. *)
Lemma wp_assume {A} (m : Prog A) w :
  (sys_ok w -> wp m (fun _ w' => evolves w w') w) -> wp m (fun _ w' => evolves w w') w.
Proof.
  intros Hm fs. destruct (m w fs) as [[r w'] fs'] eqn:E. intros Hok.
  specialize (Hm Hok fs). rewrite E in Hm. by apply Hm.
Qed.

Lemma wp_ignore {A} (m : Prog A) (P : World -> Prop) w :
  wp (ignore m) (fun _ w' => P w') w -> wp m (fun _ w' => P w') w.
Proof.
  intros Hm fs. specialize (Hm fs). unfold ignore, tbind, tret in Hm.
  by destruct (m w fs) as [[[a|e] w'] fs'].
Qed.

(** *** The operations on jobs *)

(** An operation that does not settle a job. *)
Definition plain (o : job_op) : Prop :=
  match o with
  | OpSettled _ _ _ _ _ => False
  | OpTransition _ s _ _ _ => s <> BatchImageJobStatusCompleted
  | _ => True
  end.

Lemma moved_ok o w w' (Q : string -> Prop) :
  jobs_moved o w w' ->
  (forall b j, Q b -> batch_image_jobs w !! b = Some j -> sys_ok w ->
     forall j', moved o b j j' -> job_ok (w_db w) b j') ->
  (forall b, Q b \/ forall j j', moved o b j j' ->
     ActualCost j' = ActualCost j /\ ManifestHash j' = ManifestHash j /\
     (Status j' = BatchImageJobStatusCompleted -> Status j = BatchImageJobStatusCompleted)) ->
  evolves w w'.
Proof.
  intros [Hdb Hm] HQ Hplain Hok. split_and!.
  - rewrite Hdb. apply keeps_refl.
  - intros b j Hj. specialize (Hm b). rewrite Hj in Hm.
    destruct (batch_image_jobs w' !! b) as [j'|]; [|done]. exists j'. split; [done|apply Hm].
  - split; [rewrite Hdb; apply Hok|]. intros b j' Hj'. rewrite Hdb.
    specialize (Hm b). rewrite Hj' in Hm. destruct (batch_image_jobs w !! b) as [j|] eqn:Ej.
    + destruct (Hplain b) as [Hb|Hp]; [by eapply HQ|].
      destruct (Hp _ _ Hm) as (Ha & Hh & Hst). destruct Hm as (Hs & _).
      destruct Hok as [_ Hjobs]. destruct (Hjobs _ _ Ej) as (Hid & Hpaid & Hcost).
      split_and!; [by rewrite Hs|intros c Hc|intros Hc; rewrite Ha; auto].
      rewrite Ha in Hc. destruct (Hpaid c Hc) as (h & cmd & Hmh & Hcap & Hrec).
      exists h, cmd. rewrite Hh, (capture_of_spec j) by done. done.
    + destruct Hm as (s & now & _ & -> & ->). by split_and!.
Qed.

Lemma plain_evolves o w w' : plain o -> jobs_moved o w w' -> evolves w w'.
Proof.
  intros Ho Hm. apply (moved_ok o w w' (fun _ => False) Hm); [done|]. intros b. right.
  intros j j' (_ & _ & _ & _ & [(Ha & Hh & Hst)|(a & h & now & ex & -> & _)] & _); [|done].
  split_and!; [done|done|]. intros Hc. destruct (Hst Hc) as [?|(c & e & now & ->)]; [done|].
  by cbn in Ho.
Qed.

Lemma evo_job_op o : plain o -> evo (run_job_op o).
Proof.
  intros Ho w. eapply wp_mono; [apply job_op_moved|]. intros r w' Hm. by eapply plain_evolves.
Qed.

(** The settlement of a job whose capture is on record. *)
Lemma settled_evolves b a h now ex w :
  (sys_ok w -> forall j, batch_image_jobs w !! b = Some j ->
     exists cmd, capture_of j a h = Ok cmd /\ on_record cmd (w_db w)) ->
  wp (MarkBatchImageJobSettled b a h now ex) (fun _ w' => evolves w w') w.
Proof.
  intros Hrec. eapply wp_mono; [apply (job_op_moved (OpSettled b a h now ex))|].
  intros r w' Hm. apply (moved_ok _ w w' (fun b' => b' = b) Hm).
  - intros b' j -> Hj Hok j' (Hs & _ & _ & _ & Hcost & _).
    destruct (proj2 Hok _ _ Hj) as (Hid & Hpaid & Hcomp).
    destruct Hcost as [(Ha & Hh & Hst)|(a' & h' & now' & ex' & Heq & Ha & Hh)].
    + split_and!; [by rewrite Hs| |].
      * intros c Hc. rewrite Ha in Hc. destruct (Hpaid c Hc) as (h1 & cmd & Hmh & Hcap & Hr).
        exists h1, cmd. rewrite Hh, (capture_of_spec j) by done. done.
      * intros Hc. rewrite Ha. apply Hcomp. by destruct (Hst Hc) as [?|(? & ? & ? & ?)].
    + injection Heq as <- <- <- <-.
      destruct (Hrec Hok _ Hj) as (cmd & Hcap & Hr). split_and!; [by rewrite Hs| |by rewrite Ha].
      intros c Hc. rewrite Ha in Hc. injection Hc as <-. exists h, cmd.
      rewrite (capture_of_spec j) by done. done.
  - intros b'. destruct (decide (b' = b)) as [|Hne]; [by left|right].
    intros j j' (_ & _ & _ & _ & [(Ha & Hh & Hst)|(a' & h' & now' & ex' & Heq & _)] & _);
      [|congruence].
    split_and!; [done|done|]. intros Hc. by destruct (Hst Hc) as [?|(? & ? & ? & ?)].
Qed.

(** *** The operations on holds *)

Lemma reserve_keeps cmd db : wp (ReserveBatchImageBalance (Some cmd)) (fun _ db' => keeps_records db db') db.
Proof.
  eapply wp_mono; [apply apply_hold_records, reserve_records|]. by intros r db' [? _].
Qed.

Lemma release_keeps cmd db : wp (ReleaseBatchImageBalance (Some cmd)) (fun _ db' => keeps_records db db') db.
Proof.
  eapply wp_mono; [apply apply_hold_records, release_records|]. by intros r db' [? _].
Qed.
Lemma evo_reserve cmd : evo (billing (ReserveBatchImageBalance (Some cmd))).
Proof. apply evo_billing, reserve_keeps. Qed.

Lemma evo_release cmd : evo (billing (ReleaseBatchImageBalance (Some cmd))).
Proof. apply evo_billing, release_keeps. Qed.

(** *** The programs of the services *)

Create HintDb evo discriminated.

Lemma evo_ignore {A} (m : Prog A) : evo (ignore m) -> evo m.
Proof. intros Hm w. apply wp_ignore, Hm. Qed.

Lemma evo_transition b s c e now :
  s <> BatchImageJobStatusCompleted -> evo (TransitionBatchImageJobStatus b s c e now).
Proof. intros Hs. by apply (evo_job_op (OpTransition b s c e now)). Qed.

(** [evo_op o]: the program of [o]. *)
Ltac evo_op o := first [exact (evo_job_op o I) | exact (evo_ignore _ (evo_job_op o I))].

(** [evo_go]: a program keeps the invariant if its parts do. *)
Ltac evo_step :=
  match goal with
  | |- evo (tret _) => apply evo_ret
  | |- evo (tfail _) => apply evo_fail
  | |- evo (tbind _ _) => apply evo_bind; [|intros ?]
  | |- evo (ttry _) => apply evo_try
  | |- evo (query _) => apply evo_query
  | |- evo (emit _) => apply evo_emit
  | |- evo (autocommit (fun w => (_, add_effect _ w))) => by apply evo_autocommit
  | |- evo (billing (ReserveBatchImageBalance _)) => apply evo_reserve
  | |- evo (billing (ReleaseBatchImageBalance _)) => apply evo_release
  | |- evo (CreateBatchImageJob ?s ?n) => evo_op (OpCreate s n)
  | |- evo (TransitionBatchImageJobStatus _ _ _ _ _) => by apply evo_transition
  | |- evo (TouchBatchImageJobSubmitting ?b ?n) => evo_op (OpTouch b n)
  | |- evo (FailStaleUnsubmittedBatchImageJob ?b ?c ?e ?n) => evo_op (OpFailStale b c e n)
  | |- evo (UpdateBatchImageJobProviderOutputRef ?b ?r ?n) => evo_op (OpOutputRef b r n)
  | |- evo (UpdateBatchImageJobProviderSubmit ?b ?j ?i ?o ?gi ?go ?n) => evo_op (OpSubmitted b j i o gi go n)
  | |- evo (RecordBatchImageJobSubmitFailure ?b ?c ?m ?n) => evo_op (OpSubmitFailure b c m n)
  | |- evo (SetBatchImageJobSettlementFailed ?b ?c ?n) => evo_op (OpSettlementFailed b c n)
  | |- evo (BulkCreateBatchImageItems ?b ?i) => evo_op (OpCreateItems b i)
  | |- evo (ReplaceBatchImageItemsForJob ?b ?i ?s ?f ?n) => evo_op (OpReplaceItems b i s f n)
  | |- evo (MarkBatchImageInputDeleted ?b ?n) => evo_op (OpInputDeleted b n)
  | |- evo (MarkBatchImageOutputDeleted ?b ?n) => evo_op (OpOutputDeleted b n)
  | |- evo (MarkBatchImageDownloaded ?b ?n) => evo_op (OpDownloaded b n)
  | |- evo (MarkBatchImageJobUserDeleted ?u ?k ?b ?n) => evo_op (OpUserDeleted u k b n)
  | |- evo (RecordBatchImageCleanupFailure ?b ?c ?n) => evo_op (OpCleanupFailed b c n)
  | |- evo (AppendBatchImageEvent ?b ?e) => evo_op (OpEvent b e)
  | |- evo (match ?x with _ => _ end) => destruct x
  | |- evo _ => solve [eauto with evo]
  end.
Ltac evo_go := repeat (cbn zeta; evo_step).

Lemma evo_get b : evo (GetBatchImageJobByBatchID b).
Proof. unfold GetBatchImageJobByBatchID. evo_go. Qed.

Lemma evo_get_key u k key : evo (GetBatchImageJobByIdempotencyKey u k key).
Proof. unfold GetBatchImageJobByIdempotencyKey. evo_go. Qed.

Lemma evo_get_owner u k b : evo (GetBatchImageJobByBatchIDForOwner u k b).
Proof. unfold GetBatchImageJobByBatchIDForOwner. evo_go. Qed.

Lemma evo_invalidate u : evo (invalidateAuthCache u).
Proof. unfold invalidateAuthCache. evo_go. Qed.

Lemma evo_best_effort e : evo (best_effort e).
Proof. unfold best_effort. evo_go. Qed.

Lemma evo_enqueue b : evo (Enqueue b).
Proof. unfold Enqueue. evo_go. Qed.

Lemma evo_hold j h : evo (reserveBatchImageBalanceHold j h).
Proof. unfold reserveBatchImageBalanceHold. evo_go. Qed.

Lemma evo_release_hold j h : evo (releaseBatchImageBalanceHold j h).
Proof. unfold releaseBatchImageBalanceHold. evo_go. Qed.

#[local] Hint Resolve evo_get evo_get_key evo_get_owner evo_invalidate evo_best_effort evo_enqueue
  evo_hold evo_release_hold : evo.

Lemma evo_exhausted j now : evo (failExhaustedSettlement j now).
Proof. unfold failExhaustedSettlement. evo_go. Qed.

#[local] Hint Resolve evo_exhausted : evo.

Lemma evo_settlement_failure {A} j c e now : evo (@settlement_failure _ _ A j c e now).
Proof. unfold settlement_failure, recordSettlementFailure. evo_go. Qed.

#[local] Hint Resolve evo_settlement_failure : evo.

(** A capture that answers is on record. *)
Lemma capture_evolves j c h w :
  wp (captureBatchImageBalanceHold j c h) (fun r w' => evolves w w' /\
    (is_ok r = true -> sys_ok w ->
     exists cmd, capture_of j c h = Ok cmd /\ on_record cmd (w_db w'))) w.
Proof.
  unfold captureBatchImageBalanceHold. fold (capture_of j c h).
  destruct (capture_of j c h) as [cmd|e] eqn:Ec; [|by apply wp_fail; split; [apply evolves_refl|]].
  apply wp_bind, wp_try. intros fs. unfold billing.
  pose proof (apply_hold_records captureUsageBillingBatchImageBalance cmd (w_db w)
    capture_records fs) as Hr.
  unfold CaptureBatchImageBalance.
  destruct (applyBatchImageBalanceHold captureUsageBillingBatchImageBalance (Some cmd) (w_db w) fs)
    as [[r db'] fs'].
  destruct Hr as [Hk Hr]. pose proof (evolves_billing w db' Hk) as He.
  destruct r as [a|e]; cbn; (split; [done|]); [|done].
  intros _ Hok. exists cmd. split; [done|]. by apply Hr, Hok.
Qed.
Lemma get_spec b w :
  wp (GetBatchImageJobByBatchID b) (fun r w' => w' = w /\
    forall j, r = Ok j -> batch_image_jobs w !! b = Some j) w.
Proof.
  apply wp_bind, wp_query; [by intros e|]. destruct (batch_image_jobs w !! b) as [j|] eqn:E;
    [apply wp_ret|by apply wp_fail]. split; [done|]. by intros j' [= <-].
Qed.

Lemma evo_settle P retention b now : evo (Settle P retention b now).
Proof.
  intros w. apply wp_assume. intros Hok. unfold Settle. apply wp_evolves_bind.
  eapply wp_mono; [apply get_spec|]. intros r w1 [-> Hj]. split; [apply evolves_refl|].
  intros job ->. specialize (Hj _ eq_refl). destruct (proj2 Hok _ _ Hj) as (Hid & _).
  set (h := BuildBatchImageSettlementManifestHash job). cbn zeta.
  repeat (case_match; [solve [apply evo_at; evo_go]|]). case_match; [|apply evo_at; evo_go].
  case_match; [apply evo_at; evo_go|].
  apply wp_evolves_bind, wp_try. eapply wp_mono; [apply capture_evolves|].
  intros r w1 [He Hrec]. split; [done|]. intros r' [= <-]. destruct r as [u|e]; [|apply evo_at; evo_go].
  destruct (Hrec eq_refl Hok) as (cmd & Hcap & Hr).
  destruct (He Hok) as (_ & Hspec & Hok1).
  apply wp_evolves_bind. eapply wp_mono; [apply evo_invalidate|]. intros r2 w2 He2. split; [done|].
  intros _ _. destruct (He2 Hok1) as (Hk2 & Hspec2 & _).
  apply wp_evolves_bind. eapply wp_mono; [apply settled_evolves|].
  - intros _ j2 Hj2. rewrite Hid in Hj2. exists cmd.
    destruct (Hspec _ _ Hj) as (j1 & Hj1 & Hs1). destruct (Hspec2 _ _ Hj1) as (j2' & Hj2' & Hs2).
    simplify_eq. rewrite (capture_of_spec job) by congruence. split; [done|]. apply Hk2; [apply Hok1|done].
  - intros r3 w3 He3. split; [done|]. intros _ _. apply evo_at; evo_go.
Qed.

#[local] Hint Resolve evo_settle : evo.
Lemma evo_list_pages fuel b offset expected : evo (list_pages fuel b offset expected).
Proof.
  revert offset expected. induction fuel as [|fuel IH]; intros offset expected; cbn [list_pages];
    unfold ListBatchImageItems; evo_go.
Qed.

Lemma evo_expected b : evo (listExpectedCustomIDs b).
Proof. intros w. apply evo_list_pages. Qed.

#[local] Hint Resolve evo_expected : evo.

Lemma evo_index (Open : BatchImageJob -> res (list string * option goerr)) j now :
  evo (Index Open j now).
Proof. unfold Index. evo_go. Qed.

Lemma evo_terminal j : evo (releaseTerminalHold j).
Proof. unfold releaseTerminalHold. evo_go. Qed.

#[local] Hint Resolve evo_index evo_terminal : evo.

(** **** The processor *)

Section Processor.
Context (C : Collaborators Account).

Lemma evo_index_and_settle j p (a : Account) now : evo (indexAndSettle j p a now).
Proof. unfold indexAndSettle. evo_go. Qed.

Lemma evo_end j status c now :
  status <> BatchImageJobStatusCompleted -> evo (endJob j status c now).
Proof. intros Hs. unfold endJob. evo_go. Qed.

Lemma evo_persist j ref now : evo (persistProviderOutputRef j ref now).
Proof. unfold persistProviderOutputRef. evo_go. Qed.

#[local] Hint Resolve evo_index_and_settle evo_persist : evo.

Lemma evo_status j p (a : Account) status now : evo (processStatus C j p a status now).
Proof. unfold processStatus. evo_go; by apply evo_end. Qed.

#[local] Hint Resolve evo_status : evo.

Lemma evo_provider_process b now : evo (ProviderProcess C b now).
Proof. unfold ProviderProcess. evo_go. Qed.

#[local] Hint Resolve evo_provider_process : evo.

Lemma evo_process b now : evo (Process C b now).
Proof. unfold Process. evo_go. Qed.
End Processor.

Lemma evo_release_stale jobs cutoff now n e : evo (release_stale_jobs jobs cutoff now n e).
Proof.
  revert n e. induction jobs as [|j jobs IH]; intros n e; cbn [release_stale_jobs]; [evo_go|].
  apply evo_bind; [unfold release_stale_job; evo_go|]. intros x. apply IH.
Qed.

#[local] Hint Resolve evo_process evo_release_stale : evo.

Lemma evo_recover after limit now : evo (ReleaseStaleUnsubmittedOnce after limit now).
Proof. unfold ReleaseStaleUnsubmittedOnce, ListStaleUnsubmittedBatchImageJobs. evo_go. Qed.

(** **** The public operations *)

Lemma evo_hide owner j now : evo (hidePreUpstreamSubmitFailure owner j now).
Proof. unfold hidePreUpstreamSubmitFailure. evo_go. Qed.

#[local] Hint Resolve evo_recover evo_hide : evo.

Lemma evo_submit_failed {A} owner j c e now : evo (@submit_failed A owner j c e now).
Proof. unfold submit_failed. evo_go. Qed.

Lemma evo_enqueue_retry b : evo (enqueueBillingRetry b).
Proof. unfold enqueueBillingRetry. evo_go. Qed.

#[local] Hint Resolve evo_submit_failed evo_enqueue_retry : evo.

Lemma evo_failed_submit_hold j h now : evo (releaseFailedSubmitHold j h now).
Proof. unfold releaseFailedSubmitHold. evo_go. Qed.

Lemma evo_pending_items b items : evo (createPendingItems b items).
Proof. unfold createPendingItems. evo_go. Qed.

#[local] Hint Resolve evo_failed_submit_hold evo_pending_items : evo.

Lemma evo_submit_reserve owner j h items now : evo (submit_reserve owner j h items now).
Proof. unfold submit_reserve. evo_go. Qed.

Lemma evo_submit_again j h now : evo (submit_again j h now).
Proof. unfold submit_again. evo_go. Qed.

Lemma evo_parent owner r : evo (parent_of owner r).
Proof. unfold parent_of. evo_go. Qed.

#[local] Hint Resolve evo_submit_reserve evo_submit_again evo_parent : evo.

Lemma evo_submit_begin (E : SubmitEnv Account) owner req key now :
  evo (SubmitBegin E owner req key now).
Proof. unfold SubmitBegin, submit_new. evo_go. Qed.

Lemma evo_submit_finish owner (p : Pending) answer now : evo (SubmitFinish (Account := Account) owner p answer now).
Proof. unfold SubmitFinish. evo_go. Qed.

Lemma evo_heartbeat b ticks : evo (runSubmitHeartbeat b ticks).
Proof.
  induction ticks as [|now ticks IH]; unfold runSubmitHeartbeat in *; cbn [foldr]; evo_go.
Qed.

#[local] Hint Resolve evo_submit_begin evo_submit_finish evo_heartbeat : evo.

Lemma evo_submit (E : SubmitEnv Account) owner req key now ticks : evo (Submit E owner req key now ticks).
Proof. unfold Submit. evo_go. Qed.

Lemma evo_cancel (C : Collaborators Account) owner b now : evo (Cancel C owner b now).
Proof. unfold Cancel. evo_go. Qed.

Lemma evo_downloaded owner b now : evo (MarkDownloaded owner b now).
Proof. unfold MarkDownloaded. evo_go. Qed.

Lemma evo_delete owner b now : evo (DeleteRecord owner b now).
Proof. unfold DeleteRecord. evo_go. Qed.

Lemma evo_cleanup_event b e : evo (appendCleanupEvent b e).
Proof. unfold appendCleanupEvent. evo_go. Qed.

#[local] Hint Resolve evo_submit evo_cancel evo_downloaded evo_delete evo_cleanup_event : evo.

Lemma evo_cleanup_job (C : Collaborators Account) nf j target now : evo (cleanupJob C nf j target now).
Proof. unfold cleanupJob, runCleanup. evo_go. Qed.

#[local] Hint Resolve evo_cleanup_job : evo.

Lemma evo_delete_outputs (C : Collaborators Account) nf owner b now :
  evo (DeleteOutputsForOwner C nf owner b now).
Proof. unfold DeleteOutputsForOwner. evo_go. Qed.

Lemma evo_cleanup_all (C : Collaborators Account) nf jobs target now x y :
  evo (cleanup_all C nf jobs target now x y).
Proof.
  revert x y. induction jobs as [|j jobs IH]; intros x y; cbn [cleanup_all]; evo_go.
Qed.

#[local] Hint Resolve evo_delete_outputs evo_cleanup_all : evo.

Lemma evo_cleanup_run (C : Collaborators Account) nf retention size now :
  evo (CleanupRunOnce C nf retention size now).
Proof.
  unfold CleanupRunOnce, ListBatchImageJobsDueForInputCleanup, ListBatchImageJobsDueForOutputCleanup.
  evo_go.
Qed.

#[local] Hint Resolve evo_cleanup_run : evo.

(** ** Histories of the system *)

(** The calls of the batch services, of the worker, and of the services that
charge for other requests.  A submission is in two calls, so that others can
come between; what the provider answers is in the calls. *)
Inductive sys_op : Type :=
  | SysBilling (o : op)
  | SysSubmitBegin (E : SubmitEnv Account) (owner : BatchImageOwner) (req : BatchImageSubmitRequest)
      (idempotencyKey : string) (now : Time)
  | SysHeartbeat (batchID : string) (ticks : list Time)
  | SysSubmitFinish (owner : BatchImageOwner) (p : Pending (Account := Account))
      (answer : res (option BatchProviderJob)) (now : Time)
  | SysProcess (C : Collaborators Account) (batchID : string) (now : Time)
  | SysRecover (StaleAfter : Duration) (Limit : Z) (now : Time)
  | SysCancel (C : Collaborators Account) (owner : BatchImageOwner) (batchID : string) (now : Time)
  | SysDownloaded (owner : BatchImageOwner) (batchID : string) (now : Time)
  | SysDelete (owner : BatchImageOwner) (batchID : string) (now : Time)
  | SysDeleteOutputs (C : Collaborators Account) (nf : goerr -> bool) (owner : BatchImageOwner)
      (batchID : string) (now : Time)
  | SysCleanup (C : Collaborators Account) (nf : goerr -> bool) (retention : Duration)
      (batchSize : Z) (now : Time).

Definition billing_step (o : op) : Prog unit := fun w fs =>
  (Ok tt, set_db (run_op o (w_db w) fs).2 w, []).

Definition run_sys_op (o : sys_op) : Prog unit :=
  match o with
  | SysBilling o => billing_step o
  | SysSubmitBegin E owner req key now => ignore (SubmitBegin E owner req key now)
  | SysHeartbeat b ticks => runSubmitHeartbeat b ticks
  | SysSubmitFinish owner p answer now => ignore (SubmitFinish owner p answer now)
  | SysProcess C b now => ignore (Process C b now)
  | SysRecover after limit now => ignore (ReleaseStaleUnsubmittedOnce after limit now)
  | SysCancel C owner b now => ignore (Cancel C owner b now)
  | SysDownloaded owner b now => MarkDownloaded owner b now
  | SysDelete owner b now => DeleteRecord owner b now
  | SysDeleteOutputs C nf owner b now => ignore (DeleteOutputsForOwner C nf owner b now)
  | SysCleanup C nf retention size now => ignore (CleanupRunOnce C nf retention size now)
  end.

Fixpoint run_sys (h : list (sys_op * faults)) (w : World) : World :=
  match h with
  | [] => w
  | (o, fs) :: h => run_sys h (run_sys_op o w fs).1.2
  end.

Lemma evo_billing_step o : evo (billing_step o).
Proof. intros w fs. cbn. apply evolves_billing, run_op_records. Qed.

#[local] Hint Resolve evo_billing_step : evo.

Lemma evo_sys_op o : evo (run_sys_op o).
Proof. destruct o; cbn [run_sys_op]; unfold ignore; evo_go. Qed.

Lemma run_sys_evolves h w : evolves w (run_sys h w).
Proof.
  revert w. induction h as [|[o fs] h IH]; intros w; cbn [run_sys]; [apply evolves_refl|].
  pose proof (evo_sys_op o w fs) as He. destruct (run_sys_op o w fs) as [[r w1] fs1]. cbn [fst snd].
  by eapply evolves_trans.
Qed.

(** C5. No job completes unpaid.  In every history of submissions, worker runs,
cancellations, recoveries, deletions, clean-ups and charges of other services,
in any order, with any failures and lost answers and whatever the providers
answer: each job is kept with what it was created with, and a completed job has
a cost and a manifest hash for which the capture of its hold, with exactly that
cost, is on record in the billing tables; by the refinement of the ledger such a
record is there if and only if the capture was applied, once. *)
Theorem completed_jobs_are_paid h w :
  sys_ok w ->
  sys_ok (run_sys h w) /\
  (forall b j, batch_image_jobs w !! b = Some j ->
     exists j', batch_image_jobs (run_sys h w) !! b = Some j' /\ spec j' = spec j) /\
  forall b j, batch_image_jobs (run_sys h w) !! b = Some j ->
    Status j = BatchImageJobStatusCompleted ->
    exists cost hash cmd,
      ActualCost j = Some cost /\ ManifestHash j = Some hash /\
      buildBatchImageHoldCommand j (BatchImageCaptureRequestID b) cost hash = Ok cmd /\
      recorded (TrimSpace (hold_RequestID cmd), hold_APIKeyID cmd)
        (hold_RequestFingerprint (NormalizeHold cmd)) (w_db (run_sys h w)).
Proof.
  intros Hok. destruct (run_sys_evolves h w Hok) as (_ & Hspec & Hok').
  split; [done|]. split; [exact Hspec|]. intros b j Hj Hst.
  destruct (proj2 Hok' _ _ Hj) as (<- & Hpaid & Hcost).
  destruct (ActualCost j) as [cost|] eqn:Ec; [|by destruct (Hcost Hst)].
  destruct (Hpaid cost eq_refl) as (hash & cmd & Hm & Hc & Hr). by exists cost, hash, cmd.
Qed.
End BatchBilling.

(** ** A world to evaluate the model in *)

(** A Vertex provider that has done the batch and returns three lines; account
500, and a price of half a dollar for an image. *)
Definition ex_provider : BatchImageProvider Z :=
  mkProvider (fun _ => true) (fun _ _ => Ok (Some (mkProviderJob "projects/p/jobs/1" "gs://in" "gs://out")))
    (fun _ _ => Ok (Some (mkProviderStatus BatchProviderStateSucceeded "gs://out" "" 0)))
    (fun _ _ => Ok tt) (fun _ _ => Ok (["a_01"; "!a_02"; "unknown"], None)) (fun _ _ _ => Ok tt).

Definition ex_collaborators : Collaborators Z :=
  mkCollaborators (fun name => if String.eqb name "vertex" then Some ex_provider else None)
    (fun id => Ok id) (fun _ => Ok 0) (24 * Hour) 0 0.

Definition ex_submit_group : Group := mkGroup 3 true "gemini" 1 false 1 1 1 (Some (1 # 2)%Q) None None.

Definition ex_submit_env : SubmitEnv Z :=
  mkSubmitEnv ex_collaborators
    (mkAccountView (fun a : Z => a) (fun _ => 0) (fun _ => true) (fun _ _ => true) (fun _ => None))
    true ex_limits (fun _ => Ok ex_submit_group) (fun _ _ => Ok None) (fun _ _ => Ok 0%Q)
    (fun _ _ => Ok [500]) (Ok "b1") 1.

Definition ex_owner : BatchImageOwner := mkOwner 7 70 (Some 3).

Definition ex_start : World := mkWorld ex_db ∅ ∅ [] [].

(** What the first phase of the submission of [ex_request] leaves pending. *)
Definition ex_pending : Pending (Account := Z) :=
  match (SubmitBegin ex_submit_env ex_owner ex_request "key" (5 * Second) ex_start []).1.1 with
  | Ok (inr p) => p
  | _ => mkPending (ex_job "" 0) "" "" ex_provider 0
  end.

Definition ex_answer : res (option BatchProviderJob) :=
  Ok (Some (mkProviderJob "projects/p/jobs/1" "gs://in" "gs://out")).

(** The submission, the run that indexes the output, a run whose settlement fails
because the answer to the capture is lost, and the run that settles the job. *)
Definition ex_sys_history : list (sys_op (Account := Z) * faults) :=
  [(SysSubmitBegin ex_submit_env ex_owner ex_request "key" (5 * Second), []);
   (SysHeartbeat "b1" [6 * Second], []);
   (SysSubmitFinish ex_owner ex_pending ex_answer (7 * Second), []);
   (SysProcess ex_collaborators "b1" (8 * Second), []);
   (SysProcess ex_collaborators "b1" (9 * Second),
      [None; None; None; None; None; None; Some (AnswerLost "eof")]);
   (SysProcess ex_collaborators "b1" (69 * Second), [])].

Definition ex_end : World := run_sys ex_sys_history ex_start.

Definition ex_summary (w : World) : option (string * Z * Z * option Amount * Z) :=
  (fun j : BatchImageJob => (Status j, SuccessCount j, FailCount j, ActualCost j, RetryCount j)) <$>
    batch_image_jobs w !! "b1".

(** The capture is in effect although its answer was lost; the retry settles. *)
Example sys_ex_run :
  ex_summary ex_end = Some ("completed", 1, 2, Some 5000000000, 1) /\
  users (w_db ex_end) !! 7 = Some (mkUser 45000000000 0 false) /\
  effects ex_end = [AuthInvalidated 7; Enqueued "b1"; AuthInvalidated 7;
                    UsageLogged "batch_image_capture:b1" 70 7 500 1 5000000000].
Proof. by vm_compute. Qed.

Lemma ex_start_ok : sys_ok ex_start.
Proof. split; [intros k fp Hk|intros b j Hj]; done. Qed.

Lemma completed_jobs_are_paid_witness :
  sys_ok ex_start /\
  exists j cost hash cmd, batch_image_jobs ex_end !! "b1" = Some j /\ ActualCost j = Some cost /\
    buildBatchImageHoldCommand j (BatchImageCaptureRequestID "b1") cost hash = Ok cmd /\
    recorded (TrimSpace (hold_RequestID cmd), hold_APIKeyID cmd)
        (hold_RequestFingerprint (NormalizeHold cmd)) (w_db ex_end).
Proof.
  split; [exact ex_start_ok|].
  destruct (completed_jobs_are_paid ex_sys_history ex_start ex_start_ok) as (_ & _ & Hpaid).
  assert (Hj : exists j, batch_image_jobs ex_end !! "b1" = Some j /\
    Status j = BatchImageJobStatusCompleted) by (eexists; split; vm_compute; reflexivity).
  destruct Hj as (j & Hj & Hst). destruct (Hpaid "b1" j Hj Hst) as (cost & hash & cmd & Hc & _ & Hb & Hr).
  exists j, cost, hash, cmd. split; [exact Hj|]. split; [exact Hc|]. split; [exact Hb|exact Hr].
Defined.
