(* ===== verification/BatchFlows.v ===== *)
(** * Whole runs of the batch services

What [BatchSettlement] and [BatchProcessor] do when no statement fails: a job
that can be paid is paid in one run, and a job that cannot be paid is failed and
its hold given back after a bounded number of runs.  Then two orders of events
in which a hold is not accounted for, and one request that is not recognised as
a retry. *)
From S2P Require Import Prelude GoText GoTime SubscriptionWindow Wallets BillingStore Programs.
From S2P Require Import Billing BillingLedger BillingRecords BatchJobs BatchJobLife.
From S2P Require Import BatchSettlement BatchIndex BatchProcessor BatchRequest BatchPublic.
From S2P Require Import BatchBilling.
From Stdlib Require Import Bool.

Local Open Scope string_scope.
Local Open Scope Z_scope.

Section BatchFlows.
Context `{GoUnicode} `{BillingParams}.

(** ** Holds without failures *)

(** The key is in neither table. *)
Definition new_key (k : key) (db : DB) : Prop :=
  usage_billing_dedup db !! k = None /\ usage_billing_dedup_archive db !! k = None.

Lemma hold_new body cmd (Q : res BatchImageBalanceHoldResult -> DB -> Prop) db :
  TrimSpace (hold_RequestID cmd) <> "" -> new_key (hold_key cmd) db ->
  wp0 (body (NormalizeHold cmd)) (fun r db' => match r with
                                               | Ok a => Q (Ok (mark_applied a)) db'
                                               | Err e => Q (Err e) db
                                               end) (claimed (hold_key cmd) (hold_fingerprint cmd) db) ->
  wp0 (applyBatchImageBalanceHold body (Some cmd)) Q db.
Proof.
  intros Hid [Hd Ha] Hbody. unfold wp0, applyBatchImageBalanceHold. rewrite NormalizeHold_request.
  destruct (String.eqb_spec (TrimSpace (hold_RequestID cmd)) "") as [|_]; [done|].
  destruct (NormalizeHold_fields cmd) as (Hk & _). rewrite Hk.
  apply (wp0_transaction _ Q db). run_step. unfold claimUsageBillingRequest, claim_insert.
  do 2 run_step. change (TrimSpace (hold_RequestID cmd), hold_APIKeyID cmd) with (hold_key cmd).
  rewrite Hd. cbn [fst snd negb]. do 2 run_step.
  cbn [set_dedup usage_billing_dedup_archive]. rewrite Ha. run_step. cbn [negb].
  apply wp0_bind. eapply wp0_mono; [exact Hbody|]. intros [a|e] db' Hr; [by run_step|done].
Qed.

(** A claim that finds its key. *)
Lemma hold_known body cmd db :
  TrimSpace (hold_RequestID cmd) <> "" -> ~ new_key (hold_key cmd) db ->
  wp0 (applyBatchImageBalanceHold body (Some cmd)) (fun r db' => db' = db /\
    (r = Ok emptyHoldResult \/ r = Err ErrUsageBillingRequestConflict) /\
    (usage_billing_dedup db !! hold_key cmd = Some (hold_fingerprint cmd) -> r = Ok emptyHoldResult)) db.
Proof.
  intros Hid Hnew.
  set (P := fun (r : res BatchImageBalanceHoldResult) db' => db' = db /\ _).
  unfold wp0, applyBatchImageBalanceHold. rewrite NormalizeHold_request.
  destruct (String.eqb_spec (TrimSpace (hold_RequestID cmd)) "") as [|_]; [done|].
  destruct (NormalizeHold_fields cmd) as (Hk & _). rewrite Hk.
  apply (wp0_transaction _ P). subst P.
  run_step. unfold claimUsageBillingRequest, claim_insert.
  do 2 run_step. change (TrimSpace (hold_RequestID cmd), hold_APIKeyID cmd) with (hold_key cmd).
  change (hold_RequestFingerprint (NormalizeHold cmd)) with (hold_fingerprint cmd).
  destruct (usage_billing_dedup db !! hold_key cmd) as [f|] eqn:Ed; cbn [fst snd negb].
  - do 2 run_step. rewrite Ed. destruct (String.eqb_spec (TrimSpace f) (TrimSpace (hold_fingerprint cmd)))
      as [Heq|Hne]; cbn [negb]; repeat run_step; (split_and!; [done|auto|]); [done|by intros [= ->]].
  - do 2 run_step. cbn [set_dedup usage_billing_dedup_archive].
    destruct (usage_billing_dedup_archive db !! hold_key cmd) as [f|] eqn:Ea;
      [|by exfalso; apply Hnew].
    destruct (String.eqb (TrimSpace f) _); cbn [negb]; repeat run_step; (split_and!; [done|auto|done]).
Qed.

Lemma update_user_live id guard f db r :
  live_user db id = Some r -> guard r = true ->
  update_user id guard f db = (Some (f r), set_users (fun t => <[id := f r]> t) db).
Proof. intros Hr Hg. unfold update_user. by rewrite Hr, Hg. Qed.

(** The job [j] of a user with row [r] has a key [k] and a hold [hold]. *)
Definition holder (j : BatchImageJob) (k : Z) (hold : Amount) (r : user_row) (db : DB) : Prop :=
  APIKeyID j = Some k /\ 0 < k /\ default (EstimatedCost j) (HoldAmount j) = hold /\ 0 < hold /\
  is_ascii (BatchID j) = true /\ live_user db (UserID j) = Some r.

Definition hold_cmd (j : BatchImageJob) (k : Z) (hold : Amount) (id : string) (actual : Amount)
    (payloadHash : string) : BatchImageBalanceHoldCommand :=
  mkHold id k "" (TrimSpace payloadHash) (UserID j) (BatchID j) hold (max0 actual).

Lemma build_hold j k hold r db id actual payloadHash :
  holder j k hold r db ->
  buildBatchImageHoldCommand j id actual payloadHash = Ok (hold_cmd j k hold id actual payloadHash).
Proof.
  intros (Hk & Hpos & Hh & Hh0 & _). unfold buildBatchImageHoldCommand. rewrite Hk.
  rewrite (proj2 (Z.leb_gt k 0)) by lia. rewrite Hh. unfold max0 at 1.
  by rewrite (proj2 (Z.ltb_ge hold 0)) by lia.
Qed.

(** The request ids need no more trimming. *)
Lemma request_ids j k hold r db :
  holder j k hold r db ->
  TrimSpace (BatchImageHoldRequestID (BatchID j)) = BatchImageHoldRequestID (BatchID j) /\
  TrimSpace (BatchImageCaptureRequestID (BatchID j)) = BatchImageCaptureRequestID (BatchID j) /\
  TrimSpace (BatchImageReleaseRequestID (BatchID j)) = BatchImageReleaseRequestID (BatchID j).
Proof. intros (_ & _ & _ & _ & Ha & _). split_and!; by apply trimmed_id. Qed.

Lemma wp0_billing {A} (m : Tx A) (Q : res A -> World -> Prop) w :
  wp0 m (fun r db => Q r (set_db db w)) (w_db w) -> wp0 (billing m) Q w.
Proof. unfold wp0, billing. by destruct (m (w_db w) []) as [[r db] fs]. Qed.

(** The tables after an operation of the request [id] has changed the row of the
user of [j] to [r]. *)
Definition hold_done (j : BatchImageJob) (cmd : BatchImageBalanceHoldCommand) (r : user_row) (db : DB) : DB :=
  set_users (fun t => <[UserID j := r]> t) (claimed (hold_key cmd) (hold_fingerprint cmd) db).

Lemma hold_update_run j cmd guard f e r (Q : res BatchImageBalanceHoldResult -> DB -> Prop) db :
  live_user db (UserID j) = Some r -> guard r = true ->
  (forall a, Q (Ok a) (set_users (fun t => <[UserID j := f r]> t) (claimed (hold_key cmd) (hold_fingerprint cmd) db))) ->
  wp0 (let! row := stmt (update_user (UserID j) guard f) in
       match row with
       | Some r => tret (hold_result r)
       | None => no_row (UserID j) e
       end) Q (claimed (hold_key cmd) (hold_fingerprint cmd) db).
Proof.
  intros Hr Hg HQ. do 2 run_step.
  rewrite (update_user_live _ _ _ (claimed _ _ db) r) by done. cbn [fst snd]. run_step. apply HQ.
Qed.

Lemma reserve_run j k hold r h w :
  holder j k hold r (w_db w) -> hold <= balance r ->
  new_key (BatchImageHoldRequestID (BatchID j), k) (w_db w) ->
  let cmd := hold_cmd j k hold (BatchImageHoldRequestID (BatchID j)) 0 h in
  wp0 (reserveBatchImageBalanceHold j h)
    (fun x w' => x = Ok tt /\ w' = set_db (hold_done j cmd (reserved hold r) (w_db w)) w) w.
Proof.
  intros Hj Hb Hnew cmd. unfold reserveBatchImageBalanceHold.
  rewrite (build_hold _ _ _ _ _ _ _ _ Hj). destruct (request_ids _ _ _ _ _ Hj) as (Hid & _).
  destruct (Hj) as (_ & _ & _ & Hpos & _ & Hu). fold cmd.
  change (Billing.HoldAmount cmd) with hold. rewrite (proj2 (Z.leb_gt hold 0)) by lia.
  do 2 run_step. apply wp0_billing, hold_new.
  - change (hold_RequestID cmd) with (BatchImageHoldRequestID (BatchID j)). by rewrite Hid.
  - unfold hold_key. change (hold_RequestID cmd) with (BatchImageHoldRequestID (BatchID j)). by rewrite Hid.
  - destruct (NormalizeHold_fields cmd) as (_ & Hcu & Hch & _).
    unfold reserveUsageBillingBatchImageBalance. rewrite Hcu, Hch.
    change (Billing.HoldAmount cmd) with hold. change (hold_UserID cmd) with (UserID j).
    rewrite (proj2 (Z.leb_gt hold 0)) by lia.
    apply (hold_update_run j cmd _ _ _ r); [done|by apply Z.leb_le|]. intros a. by run_step.
Qed.

Definition capture_key (j : BatchImageJob) (k : Z) : key := (BatchImageCaptureRequestID (BatchID j), k).
Definition release_key (j : BatchImageJob) (k : Z) : key := (BatchImageReleaseRequestID (BatchID j), k).
Definition reserve_key (j : BatchImageJob) (k : Z) : key := (BatchImageHoldRequestID (BatchID j), k).

Lemma capture_run j k hold r actual h w :
  holder j k hold r (w_db w) -> hold <= frozen_balance r ->
  0 <= actual <= hold + captureTolerance -> new_key (capture_key j k) (w_db w) ->
  let cmd := hold_cmd j k hold (BatchImageCaptureRequestID (BatchID j)) actual h in
  wp0 (captureBatchImageBalanceHold j actual h)
    (fun x w' => x = Ok tt /\ w' = set_db (hold_done j cmd (captured hold actual r) (w_db w)) w) w.
Proof.
  intros Hj Hf Hact Hnew cmd. unfold captureBatchImageBalanceHold.
  rewrite (build_hold _ _ _ _ _ _ _ _ Hj). destruct (request_ids _ _ _ _ _ Hj) as (_ & Hid & _).
  destruct (Hj) as (_ & _ & _ & Hpos & _ & Hu). fold cmd.
  do 2 run_step. apply wp0_billing, hold_new.
  - change (hold_RequestID cmd) with (BatchImageCaptureRequestID (BatchID j)). by rewrite Hid.
  - unfold hold_key. change (hold_RequestID cmd) with (BatchImageCaptureRequestID (BatchID j)). by rewrite Hid.
  - destruct (NormalizeHold_fields cmd) as (_ & Hcu & Hch & Hca & _).
    unfold captureUsageBillingBatchImageBalance. rewrite Hcu, Hch, Hca.
    change (Billing.HoldAmount cmd) with hold. change (hold_UserID cmd) with (UserID j).
    change (ActualAmount cmd) with (max0 actual). unfold max0. rewrite (proj2 (Z.ltb_ge actual 0)) by lia.
    rewrite (proj2 (Z.leb_gt hold 0)) by lia. cbn [andb].
    rewrite (proj2 (Z.ltb_ge captureTolerance (actual - hold))) by lia.
    apply (hold_update_run j cmd _ _ _ r); [done|by apply Z.leb_le|]. intros a. by run_step.
Qed.

Definition release_cmd (j : BatchImageJob) (k : Z) (hold : Amount) (h : string) :=
  hold_cmd j k hold (BatchImageReleaseRequestID (BatchID j)) 0 h.

Lemma release_cmd_key j k hold r db h : holder j k hold r db -> hold_key (release_cmd j k hold h) = release_key j k.
Proof.
  intros Hj. destruct (request_ids _ _ _ _ _ Hj) as (_ & _ & Hid). unfold hold_key, release_key.
  change (hold_RequestID (release_cmd j k hold h)) with (BatchImageReleaseRequestID (BatchID j)).
  by rewrite Hid.
Qed.

Definition known (k : key) (db : DB) : bool :=
  isSomeb (usage_billing_dedup db !! k) || isSomeb (usage_billing_dedup_archive db !! k).

Lemma known_new k db : new_key k db <-> known k db = false.
Proof.
  unfold new_key, known. destruct (usage_billing_dedup db !! k), (usage_billing_dedup_archive db !! k);
    cbn; naive_solver.
Qed.

Lemma held_run k db (Q : res bool -> DB -> Prop) :
  Q (Ok (known k db)) db -> wp0 (batchImageHoldClaimExists k.1 k.2) Q db.
Proof.
  unfold batchImageHoldClaimExists, known. intros HQ. do 2 run_step. rewrite <- surjective_pairing.
  destruct (usage_billing_dedup db !! k) as [f|]; [by run_step|]. do 2 run_step.
  by destruct (usage_billing_dedup_archive db !! k); run_step.
Qed.

(** The first release of a hold. *)
Lemma release_run j k hold r h w :
  holder j k hold r (w_db w) -> (known (reserve_key j k) (w_db w) = true -> hold <= frozen_balance r) ->
  new_key (release_key j k) (w_db w) ->
  let cmd := release_cmd j k hold h in
  wp0 (releaseBatchImageBalanceHold j h)
    (fun x w' => x = Ok tt /\
       w' = set_db (if known (reserve_key j k) (w_db w)
                    then hold_done j cmd (released hold r) (w_db w)
                    else claimed (hold_key cmd) (hold_fingerprint cmd) (w_db w)) w) w.
Proof.
  intros Hj Hf Hnew cmd. pose proof (release_cmd_key _ _ _ _ _ h Hj) as Hkey. fold cmd in Hkey.
  unfold releaseBatchImageBalanceHold. rewrite (build_hold _ _ _ _ _ _ _ _ Hj).
  destruct (request_ids _ _ _ _ _ Hj) as (_ & _ & Hid). destruct (Hj) as (_ & _ & _ & Hpos & Hasc & Hu).
  change (hold_cmd j k hold (BatchImageReleaseRequestID (BatchID j)) 0 h) with cmd.
  change (Billing.HoldAmount cmd) with hold. rewrite (proj2 (Z.leb_gt hold 0)) by lia.
  do 2 run_step. apply wp0_billing, hold_new.
  - change (hold_RequestID cmd) with (BatchImageReleaseRequestID (BatchID j)). by rewrite Hid.
  - by rewrite Hkey.
  - destruct (NormalizeHold_fields cmd) as (Hck & Hcu & Hch & _ & Hcb).
    unfold releaseUsageBillingBatchImageBalance. rewrite Hck, Hcu, Hch, Hcb.
    change (Billing.HoldAmount cmd) with hold. change (hold_UserID cmd) with (UserID j).
    change (hold_APIKeyID cmd) with k. change (Billing.BatchID cmd) with (BatchJobs.BatchID j).
    rewrite (proj2 (Z.leb_gt hold 0)) by lia. run_step.
    replace (BatchImageHoldRequestID (TrimSpace (BatchID j))) with (BatchImageHoldRequestID (BatchID j)).
    2: { unfold BatchImageHoldRequestID, TrimSpace. rewrite Hasc.
         by rewrite is_ascii_trim, trim_ascii_idem. }
    apply (held_run (reserve_key j k)).
    replace (known (reserve_key j k) (claimed (hold_key cmd) (hold_fingerprint cmd) (w_db w)))
      with (known (reserve_key j k) (w_db w)).
    2: { unfold known, claimed. cbn. rewrite lookup_insert_ne; [done|]. by rewrite Hkey. }
    destruct (known (reserve_key j k) (w_db w)); cbn [negb]; [|by run_step].
    apply (hold_update_run j cmd _ _ _ r); [done|by apply Z.leb_le, Hf|]. intros a. by run_step.
Qed.

Lemma holder_same j j' k hold r db db' :
  holder j k hold r db -> spec j' = spec j -> users db' = users db -> holder j' k hold r db'.
Proof. unfold holder, live_user. intros Hj Hs Hu. by rewrite Hs, Hu. Qed.

Lemma holder_done j k hold r cmd r' db :
  holder j k hold r db -> user_deleted r' = user_deleted r -> holder j k hold r' (hold_done j cmd r' db).
Proof.
  intros (Hk & Hk0 & Hh & Hh0 & Hasc & Hu) Hr. split_and!; try done. unfold live_user, hold_done. cbn.
  rewrite lookup_insert_eq, Hr. unfold live_user in Hu. destruct (users db !! UserID j) as [r0|]; [|done].
  destruct (user_deleted r0) eqn:Ed; [done|]. injection Hu as ->. by rewrite Ed.
Qed.

Lemma known_claimed k fp db : known k (claimed k fp db) = true.
Proof. unfold known, claimed. cbn. by rewrite lookup_insert_eq. Qed.

(** A release whose key is known: its own retry, or one that conflicts. *)
Lemma release_known j k hold r h w :
  holder j k hold r (w_db w) -> ~ new_key (release_key j k) (w_db w) ->
  wp0 (releaseBatchImageBalanceHold j h) (fun x w' => x = Ok tt /\ w' = w) w.
Proof.
  intros Hj Hnew. pose proof (release_cmd_key _ _ _ _ _ h Hj) as Hkey. set (cmd := release_cmd j k hold h) in Hkey.
  unfold releaseBatchImageBalanceHold. rewrite (build_hold _ _ _ _ _ _ _ _ Hj).
  destruct (request_ids _ _ _ _ _ Hj) as (_ & _ & Hid). destruct Hj as (_ & _ & _ & Hpos & _).
  change (hold_cmd j k hold (BatchImageReleaseRequestID (BatchID j)) 0 h) with cmd.
  change (Billing.HoldAmount cmd) with hold. rewrite (proj2 (Z.leb_gt hold 0)) by lia.
  do 2 run_step. apply wp0_billing. eapply wp0_mono; [apply hold_known|].
  - change (hold_RequestID cmd) with (BatchImageReleaseRequestID (BatchID j)). by rewrite Hid.
  - by rewrite Hkey.
  - intros x db (-> & Hx & _). replace (set_db (w_db w) w) with w by by destruct w.
    destruct Hx as [->| ->]; cbv beta iota; [|rewrite decide_True by done]; by run_step.
Qed.

(** ** Two orders in which a hold is not accounted for *)

(** A captured hold can be released.  A release looks only for the claim of
the reservation, not for that of the capture: if the hold of a job has been
captured and is then released, as happens when the answer to the capture of the
last attempt is lost, the release succeeds too and takes the amount of the hold
once more, out of what is frozen for the user's other jobs. *)
Theorem captured_hold_released_again j k hold r cost h h' w :
  holder j k hold r (w_db w) -> on_grid hold -> on_grid cost -> on_grid (balance r) ->
  on_grid (frozen_balance r) -> 0 <= cost <= hold -> 2 * hold <= frozen_balance r ->
  known (reserve_key j k) (w_db w) = true ->
  new_key (capture_key j k) (w_db w) -> new_key (release_key j k) (w_db w) ->
  wp0 (let! _ := captureBatchImageBalanceHold j cost h in releaseBatchImageBalanceHold j h')
    (fun x w' => x = Ok tt /\
       users (w_db w') !! UserID j =
         Some (mkUser (balance r + (hold - cost) + hold) (frozen_balance r - 2 * hold) (user_deleted r))) w.
Proof.
  intros Hj Gh Gc Gb Gf Hcost Hf Hres Hcap Hrel. destruct (Hj) as (Hk & Hk0 & Hh & Hh0 & Hasc & Hu).
  assert (Hcaprow : captured hold cost r =
    mkUser (balance r + (hold - cost)) (frozen_balance r - hold) (user_deleted r)).
  { unfold captured. rewrite (proj2 (Z.ltb_ge hold cost)) by lia.
    rewrite (round8_id (frozen_balance r - hold)) by auto with go. destruct (Z.ltb_spec cost hold).
    - rewrite round8_id; [f_equal; lia|]. rewrite Z.sub_0_r. auto with go.
    - rewrite round8_id; [f_equal; lia|]. rewrite Z.add_0_r, Z.sub_0_r. auto with go. }
  run_step. eapply wp0_mono; [apply (capture_run j k hold r cost h); try done|].
  { lia. } { unfold captureTolerance. lia. }
  intros x w1 [-> ->]. rewrite Hcaprow.
  set (r1 := mkUser (balance r + (hold - cost)) (frozen_balance r - hold) (user_deleted r)). set (cmd := hold_cmd _ _ _ _ _ _).
  set (db1 := hold_done j cmd r1 (w_db w)).
  assert (Hkey : hold_key cmd = capture_key j k).
  { destruct (request_ids _ _ _ _ _ Hj) as (_ & Hid & _). unfold hold_key, capture_key.
    change (hold_RequestID cmd) with (BatchImageCaptureRequestID (BatchID j)). by rewrite Hid. }
  assert (Hsame : forall k', k' <> capture_key j k -> known k' db1 = known k' (w_db w)).
  { intros k' Hne. unfold known, db1, hold_done, claimed. cbn. by rewrite Hkey, lookup_insert_ne. }
  eapply wp0_mono; [apply (release_run j k hold r1 h')|].
  - by apply (holder_done _ _ _ r).
  - intros _. subst r1. cbn. lia.
  - apply known_new. change (w_db (set_db db1 w)) with db1. rewrite Hsame by done. by apply (proj1 (known_new _ _)).
  - intros x w2 [-> ->]. split; [done|]. change (w_db (set_db db1 w)) with db1. rewrite (Hsame (reserve_key j k)) by done.
    rewrite Hres. cbn. rewrite lookup_insert_eq. f_equal. unfold released. subst r1. cbn.
    rewrite !round8_id by auto with go. f_equal. lia.
Qed.

(** An early release is the only one.  A release that comes before the
reservation of the hold, as that of a cancellation between the creation of a job
and its reservation, gives nothing back but claims its request: the reservation
still succeeds, and every later release, of any payload, finds the claim and
leaves the hold frozen. *)
Theorem early_release_leaks j k hold r h w :
  holder j k hold r (w_db w) -> hold <= balance r ->
  new_key (reserve_key j k) (w_db w) -> new_key (release_key j k) (w_db w) ->
  wp0 (let! _ := releaseBatchImageBalanceHold j h in reserveBatchImageBalanceHold j h)
    (fun x w' => x = Ok tt /\ users (w_db w') !! UserID j = Some (reserved hold r) /\
       forall h', wp0 (releaseBatchImageBalanceHold j h') (fun x w'' => x = Ok tt /\ w'' = w') w') w.
Proof.
  intros Hj Hb Hres Hrel. destruct (Hj) as (Hk & Hk0 & Hh & Hh0 & Hasc & Hu).
  run_step. eapply wp0_mono; [apply (release_run j k hold r h); try done|].
  { by rewrite (proj1 (known_new _ _) Hres). }
  rewrite (proj1 (known_new _ _) Hres). intros x w1 [-> ->].
  rewrite (release_cmd_key _ _ _ _ _ h Hj). set (fp := hold_fingerprint _).
  set (w1 := set_db _ w).
  assert (Hj1 : holder j k hold r (w_db w1)) by done.
  eapply wp0_mono; [apply (reserve_run j k hold r h w1 Hj1 Hb)|].
  - destruct Hres as [Hd Ha]. split; [|done]. cbn. by rewrite lookup_insert_ne.
  - intros x w2 [-> ->]. set (cmd := hold_cmd _ _ _ _ _ _).
    assert (Hkey : hold_key cmd = reserve_key j k).
    { destruct (request_ids _ _ _ _ _ Hj) as (Hid & _). unfold hold_key, reserve_key.
      change (hold_RequestID cmd) with (BatchImageHoldRequestID (BatchID j)). by rewrite Hid. }
    split; [done|]. split; [cbn; by rewrite lookup_insert_eq|]. intros h'.
    apply (release_known j k hold (reserved hold r)).
    + by apply (holder_done _ _ _ r).
    + rewrite known_new. unfold known. cbn. rewrite Hkey, lookup_insert_ne, lookup_insert_eq by done. done.
Qed.

(** ** Settlement without failures *)

Lemma get_run b j w : batch_image_jobs w !! b = Some j ->
  wp0 (GetBatchImageJobByBatchID b) (fun x w' => x = Ok j /\ w' = w) w.
Proof. intros Hj. unfold GetBatchImageJobByBatchID. do 2 run_step. rewrite Hj. by run_step. Qed.

Lemma invalidate_run u w :
  wp0 (invalidateAuthCache u) (fun x w' => x = Ok tt /\ w_db w' = w_db w /\
    batch_image_jobs w' = batch_image_jobs w) w.
Proof. unfold invalidateAuthCache. destruct (0 <? u); [done|by run_step]. Qed.

Lemma update_job_live b guard f j w :
  batch_image_jobs w !! b = Some j -> guard j = true ->
  update_job b guard f w = (Some (f j), set_jobs (fun t => <[b := f j]> t) w).
Proof. intros Hj Hg. unfold update_job. by rewrite Hj, Hg. Qed.

Lemma transition_run b s c e now j w :
  batch_image_jobs w !! b = Some j -> CanTransitionBatchImageJob (Status j) s = true -> e <> "" ->
  wp0 (TransitionBatchImageJobStatus b s c e now) (fun x w' => x = Ok tt /\ w_db w' = w_db w /\
    batch_image_jobs w' = <[b := transition_row s now c j]> (batch_image_jobs w)) w.
Proof.
  intros Hj Hcan He. unfold TransitionBatchImageJobStatus, in_tx, transitionBatchImageJobStatusWithSQL.
  do 4 run_step. rewrite Hj. cbn [fmap option_fmap option_map]. rewrite Hcan. cbn [negb].
  do 2 run_step. rewrite (update_job_live _ _ _ j w) by done. cbn [fst snd].
  destruct (String.eqb_spec e ""); [done|]. cbn [negb]. unfold appendBatchImageEventWithSQL.
  do 2 run_step. done.
Qed.

Lemma attempt_run b c now j w :
  batch_image_jobs w !! b = Some j ->
  wp0 (SetBatchImageJobSettlementFailed b c now) (fun x w' => x = Ok (RetryCount j + 1) /\
    w_db w' = w_db w /\ batch_image_jobs w' = <[b := attempt_failed_row c now j]> (batch_image_jobs w)) w.
Proof.
  intros Hj. unfold SetBatchImageJobSettlementFailed, AppendBatchImageEvent. do 2 run_step.
  rewrite (update_job_live _ _ _ j w) by done. cbn [fst snd]. do 2 run_step. by run_step.
Qed.

Lemma settled_run b a h now ex j w :
  batch_image_jobs w !! b = Some j -> Status j = BatchImageJobStatusSettling -> ManifestHash j = None ->
  wp0 (MarkBatchImageJobSettled b a h now ex) (fun x w' => x = Ok tt /\ w_db w' = w_db w /\
    batch_image_jobs w' = <[b := settled_row a h now ex j]> (batch_image_jobs w)) w.
Proof.
  intros Hj Hs Hm. unfold MarkBatchImageJobSettled, in_tx, markBatchImageJobSettledWithSQL.
  do 4 run_step. rewrite (update_job_live _ _ _ j w) by (rewrite ?Hs, ?Hm; done). cbn [fst snd].
  unfold appendBatchImageEventWithSQL. do 2 run_step. done.
Qed.

(** A release of a job whose hold is frozen goes through and is on record. *)
Lemma release_goes j k hold r h w :
  holder j k hold r (w_db w) -> hold <= frozen_balance r ->
  wp0 (releaseBatchImageBalanceHold j h) (fun x w' => x = Ok tt /\
    batch_image_jobs w' = batch_image_jobs w /\ known (release_key j k) (w_db w') = true /\
    exists r', holder j k hold r' (w_db w')) w.
Proof.
  intros Hj Hf. destruct (known (release_key j k) (w_db w)) eqn:Ekn.
  - eapply wp0_mono; [apply (release_known j k hold r h w Hj)|].
    + rewrite known_new. by rewrite Ekn.
    + intros x w' [-> ->]. eauto.
  - eapply wp0_mono; [apply (release_run j k hold r h w Hj); [done|by apply known_new]|].
    intros x w' [-> ->]. cbv zeta. rewrite (release_cmd_key _ _ _ _ _ h Hj).
    split; [done|]. split; [done|]. destruct (known (reserve_key j k) (w_db w)); cbn [w_db set_db].
    + split; [|eexists; by apply (holder_done _ _ _ r)].
      unfold hold_done. rewrite (release_cmd_key _ _ _ _ _ h Hj). apply (known_claimed (release_key j k)).
    + split; [apply known_claimed|]. by exists r.
Qed.

(** A job that has failed, with its hold released, or that has completed. *)
Definition ended (b : string) (s : JobSpec) (k : Z) (hold : Amount) (w : World) : Prop :=
  exists j r, batch_image_jobs w !! b = Some j /\ spec j = s /\ holder j k hold r (w_db w) /\
    (Status j = BatchImageJobStatusCompleted \/
     Status j = BatchImageJobStatusFailed /\ known (release_key j k) (w_db w) = true).

(** A job in settlement for which nothing stands in the way of the release. *)
Definition settling (j : BatchImageJob) (b : string) (k : Z) (hold : Amount) (r : user_row) (w : World) : Prop :=
  batch_image_jobs w !! b = Some j /\ BatchID j = b /\ Status j = BatchImageJobStatusSettling /\
  ManifestHash j = None /\ 0 < default 0 (AccountID j) /\
  holder j k hold r (w_db w) /\ hold <= frozen_balance r.

Lemma exhausted_run j j' b k hold r now w :
  settling j b k hold r w -> spec j' = spec j ->
  wp0 (failExhaustedSettlement j' now) (fun x w' => (exists e, x = Err e) /\ ended b (spec j) k hold w') w.
Proof.
  intros (Hrow & Hb & Hst & _ & _ & Hj & Hf) Hs. unfold failExhaustedSettlement. rewrite Hs, Hb.
  assert (Hj' : holder j' k hold r (w_db w)) by by apply (holder_same j _ _ _ _ (w_db w)).
  do 2 run_step. eapply wp0_mono; [by apply (release_goes j' k hold r)|].
  intros x w1 (-> & Hjobs & Hkn & r1 & Hr1). run_step. eapply wp0_mono; [apply invalidate_run|].
  intros x w2 (-> & Hdb & Hjobs2). run_step.
  eapply wp0_mono; [apply (transition_run _ _ _ _ _ j); [by rewrite Hjobs2, Hjobs|by rewrite Hst|done]|].
  intros x w3 (-> & Hdb3 & Hjobs3). run_step. split; [eauto|].
  eexists (transition_row _ _ _ j), r1. rewrite Hjobs3, lookup_insert_eq.
  split_and!; [done|done| |right; split; [done|]].
  - apply (holder_same j' _ _ _ _ (w_db w1)); [done|by rewrite Hs|by rewrite Hdb3, Hdb].
  - rewrite Hdb3, Hdb. unfold release_key in *. cbn [transition_row with_status with_times spec]. by rewrite <- Hs.
Qed.

(** One attempt more, and still in settlement. *)
Definition retried (j : BatchImageJob) (b : string) (k : Z) (hold : Amount) (r : user_row) (w' : World) : Prop :=
  exists j', settling j' b k hold r w' /\ spec j' = spec j /\ RetryCount j' = RetryCount j + 1 /\
    RetryCount j' < batchImageSettlementMaxRetries.

Lemma settling_attempt j b k hold r c now w w' :
  settling j b k hold r w -> w_db w' = w_db w ->
  batch_image_jobs w' = <[b := attempt_failed_row c now j]> (batch_image_jobs w) ->
  settling (attempt_failed_row c now j) b k hold r w'.
Proof.
  intros (Hrow & Hb & Hst & Hm & Ha & Hj & Hf) Hdb Hjobs.
  split_and!; try done; [by rewrite Hjobs, lookup_insert_eq|].
  by apply (holder_same j _ _ _ _ (w_db w)); [| |rewrite Hdb].
Qed.

Lemma failure_run {A} j b k hold r c e now w :
  settling j b k hold r w ->
  wp0 (@settlement_failure _ _ A j c e now) (fun x w' => (exists e', x = Err e') /\
    (ended b (spec j) k hold w' \/ retried j b k hold r w')) w.
Proof.
  intros Hs. destruct (Hs) as (Hrow & Hb & _). unfold settlement_failure, recordSettlementFailure. rewrite Hb.
  do 3 run_step. eapply wp0_mono; [by apply attempt_run|]. intros x w1 (-> & Hdb & Hjobs).
  pose proof (settling_attempt _ _ _ _ _ _ _ _ _ Hs Hdb Hjobs) as Hs1.
  destruct (Z.leb_spec batchImageSettlementMaxRetries (RetryCount j + 1)) as [Hmax|Hlt].
  - eapply wp0_mono; [by apply (exhausted_run _ _ _ _ _ _ _ _ Hs1)|].
    intros x w2 [[e' ->] Hend]. split; [eauto|by left].
  - do 2 run_step. split; [eauto|]. right. by eexists.
Qed.

(** The shape of the row that [Settle] writes. *)
Lemma ended_settled j b k hold r a h now ex r' w w' :
  settling j b k hold r w -> holder j k hold r' (w_db w') ->
  batch_image_jobs w' = <[b := settled_row a h now ex j]> (batch_image_jobs w) ->
  ended b (spec j) k hold w'.
Proof.
  intros (Hrow & Hb & _) Hj Hjobs. exists (settled_row a h now ex j), r'.
  rewrite Hjobs, lookup_insert_eq. split_and!; [done|done| |by left]. by apply (holder_same j _ _ _ _ (w_db w')).
Qed.

(** A capture within the hold goes through, is known, or conflicts. *)
Lemma capture_goes j k hold r actual h w :
  holder j k hold r (w_db w) -> hold <= frozen_balance r -> 0 <= actual <= hold + captureTolerance ->
  wp0 (captureBatchImageBalanceHold j actual h) (fun x w' => batch_image_jobs w' = batch_image_jobs w /\
    (x = Ok tt /\ (exists r', holder j k hold r' (w_db w')) \/ (exists e, x = Err e) /\ w' = w)) w.
Proof.
  intros Hj Hf Hact. destruct (known (capture_key j k) (w_db w)) eqn:Ekn.
  - unfold captureBatchImageBalanceHold. rewrite (build_hold _ _ _ _ _ _ _ _ Hj).
    destruct (request_ids _ _ _ _ _ Hj) as (_ & Hid & _). set (cmd := hold_cmd _ _ _ _ _ _).
    assert (Hreq : TrimSpace (hold_RequestID cmd) = BatchImageCaptureRequestID (BatchID j)) by exact Hid.
    do 2 run_step. apply wp0_billing. eapply wp0_mono; [apply hold_known|].
    + by rewrite Hreq.
    + unfold hold_key. rewrite Hreq, known_new. change (hold_APIKeyID cmd) with k.
      change (BatchImageCaptureRequestID (BatchID j), k) with (capture_key j k). by rewrite Ekn.
    + intros x db (-> & Hx & _). replace (set_db (w_db w) w) with w by by destruct w.
      destruct Hx as [->| ->]; cbv beta iota; run_step; (split; [done|]); [left|right]; eauto.
  - eapply wp0_mono; [apply (capture_run j k hold r actual h w Hj Hf Hact); by apply known_new|].
    intros x w' [-> ->]. split; [done|]. left. split; [done|]. eexists. by apply (holder_done _ _ _ r).
Qed.

(** The checks of [Settle] before it looks at the price; the attempts so far are
not used up. *)
Lemma settle_run P retention b now j k hold r w :
  settling j b k hold r w ->
  wp0 (Settle P retention b now) (fun x w' => ended b (spec j) k hold w' \/
    (exists e, x = Err e) /\ retried j b k hold r w') w.
Proof.
  intros Hs. destruct (Hs) as (Hrow & Hb & Hst & Hm & Ha & Hj & Hf).
  destruct (Hj) as (Hk & Hk0 & Hh & Hh0 & _). unfold Settle. run_step.
  eapply wp0_mono; [by apply get_run|]. intros x w0 [-> ->]. cbn zeta. rewrite Hst. cbn [String.eqb negb].
  change (String.eqb BatchImageJobStatusSettling BatchImageJobStatusCompleted) with false.
  change (String.eqb BatchImageJobStatusSettling BatchImageJobStatusSettling) with true. cbn [negb].
  rewrite Hk. change (default 0 (Some k)) with k. rewrite (proj2 (Z.leb_gt k 0)), (proj2 (Z.leb_gt (default 0 (AccountID j)) 0)) by lia.
  assert (Hfail : forall A c e, wp0 (@settlement_failure _ _ A j c e now) (fun x w' => ended b (spec j) k hold w' \/
    (exists e', x = Err e') /\ retried j b k hold r w') w).
  { intros A c e. eapply wp0_mono; [by apply (failure_run j b k hold r)|]. intros x w' [He [Hen|Hre]]; auto. }
  destruct (isBatchImageSettlementRetryExhausted j).
  { run_step. eapply wp0_mono; [by apply (exhausted_run j j b k hold r now w Hs)|].
    intros x w' [[e ->] Hend]. by left. }
  destruct (_ || _ || _ || _) eqn:Ec; [apply Hfail|]. rewrite Hm. cbn [batchImageDerefString].
  change (negb (String.eqb (TrimSpace "") "")) with false. cbn [andb].
  destruct (checkedUnitPrice P j) as [p|e] eqn:Ep; [|apply Hfail]. rewrite Hh.
  destruct (Z.ltb_spec batchImageCostEpsilon (SuccessCount j * p - hold)) as [|Hle]; [apply Hfail|].
  assert (Hp : 0 <= p).
  { unfold checkedUnitPrice in Ep. destruct (settlementUnitPrice P j) as [q|]; [|done].
    destruct (Z.ltb_spec q 0); [done|]. by injection Ep as <-. }
  bool_prop. do 2 run_step. eapply wp0_mono; [apply (capture_goes j k hold r); [done|done|]|].
  { unfold captureTolerance. unfold batchImageCostEpsilon in Hle. split; [apply Z.mul_nonneg_nonneg|]; lia. }
  intros x w1 [Hjobs [[-> [r1 Hr1]]|[[e ->] ->]]]; [|apply Hfail].
  run_step. eapply wp0_mono; [apply invalidate_run|]. intros x w2 (-> & Hdb2 & Hjobs2). run_step. rewrite Hb.
  eapply wp0_mono; [apply (settled_run _ _ _ _ _ j); [by rewrite Hjobs2, Hjobs|done|done]|].
  intros x w3 (-> & Hdb3 & Hjobs3). unfold best_effort. repeat run_step. left.
  eapply (ended_settled j b k hold r _ _ _ _ r1 w); cbn [w_db add_effect batch_image_jobs];
    [done|by rewrite Hdb3, Hdb2|by rewrite Hjobs3, Hjobs2, Hjobs].
Qed.

(** C21. What a settlement does. If the job is in settlement with attempts left, has an
account, a key and a user that exist and no manifest hash yet, its counts are
consistent, its price is known, its cost is covered by the hold that is frozen, and no
capture has been posted for it, then one run, if nothing fails, charges the number of
successful images times the price: the hold leaves the frozen balance, the part of it
that was not spent returns to the balance, both as the columns round them to eight
decimals, and no other user changes; the job is completed with that cost and with the
manifest hash, and no other job changes. (The claim of the request, events and a usage
record are written.) A second settlement finds the job settled, reports the same cost
and changes nothing. *)
Theorem settlement_charges P P' retention b now now' (j : BatchImageJob) k hold r p w :
  let cost := SuccessCount j * p in
  let hash := BuildBatchImageSettlementManifestHash j in
  let result := mkSettlement (BatchID j) (SuccessCount j) (FailCount j) cost hash
                  (BatchImageCaptureRequestID (BatchID j)) in
  settling j b k hold r w -> isBatchImageSettlementRetryExhausted j = false ->
  0 <= SuccessCount j -> 0 <= FailCount j -> SuccessCount j + FailCount j <= ItemCount j ->
  checkedUnitPrice P j = Ok p -> cost <= hold + batchImageCostEpsilon ->
  new_key (capture_key j k) (w_db w) ->
  wp0 (Settle P retention b now) (fun x w' => x = Ok (result false) /\
    users (w_db w') = <[UserID j := captured hold cost r]> (users (w_db w)) /\
    batch_image_jobs w' =
      <[b := settled_row cost hash now (Some (now + retention)) j]> (batch_image_jobs w) /\
    wp0 (Settle P' retention b now') (fun x w'' => x = Ok (result true) /\ w'' = w') w') w.
Proof.
  intros cost hash result Hs Hex Hsu Hfa Hit Hp Hcov Hnew.
  destruct (Hs) as (Hrow & Hb & Hst & Hm & Ha & Hj & Hf). destruct (Hj) as (Hk & Hk0 & Hh & Hh0 & _).
  assert (Hp0 : 0 <= p).
  { unfold checkedUnitPrice in Hp. destruct (settlementUnitPrice P j) as [q|]; [|done].
    destruct (Z.ltb_spec q 0); [done|]. by injection Hp as <-. }
  unfold Settle at 1. run_step. eapply wp0_mono; [by apply get_run|]. intros x w0 [-> ->]. cbn zeta.
  rewrite Hst, Hk, Hex, Hm, Hp, Hh.
  change (String.eqb BatchImageJobStatusSettling BatchImageJobStatusCompleted) with false.
  change (String.eqb BatchImageJobStatusSettling BatchImageJobStatusSettling) with true. cbn [negb].
  change (default 0 (Some k)) with k. rewrite (proj2 (Z.leb_gt k 0)), (proj2 (Z.leb_gt (default 0 (AccountID j)) 0)) by lia.
  rewrite (proj2 (Z.ltb_ge (SuccessCount j) 0)), (proj2 (Z.ltb_ge (FailCount j) 0)),
    (proj2 (Z.ltb_ge (ItemCount j) 0)), (proj2 (Z.ltb_ge (ItemCount j) _)) by lia.
  cbn [orb batchImageDerefString].
  change (negb (String.eqb (TrimSpace "") "")) with false. cbn [andb]. fold cost hash.
  rewrite (proj2 (Z.ltb_ge batchImageCostEpsilon _)) by lia. do 2 run_step.
  assert (Hact : 0 <= cost <= hold + captureTolerance).
  { split; [by apply Z.mul_nonneg_nonneg|exact Hcov]. }
  eapply wp0_mono; [by apply (capture_run j k hold r)|]. intros x w1 [-> ->]. run_step.
  eapply wp0_mono; [apply invalidate_run|]. intros x w2 (-> & Hdb2 & Hjobs2). run_step. rewrite Hb.
  eapply wp0_mono; [apply (settled_run _ _ _ _ _ j); [by rewrite Hjobs2|done|done]|].
  intros x w3 (-> & Hdb3 & Hjobs3). unfold best_effort. repeat run_step.
  split; [subst result; by rewrite Hb|]. rewrite Hjobs2 in Hjobs3.
  split_and!; [cbn; by rewrite Hdb3, Hdb2|exact Hjobs3|].
  unfold Settle. run_step. eapply wp0_mono; [apply get_run; cbn; by rewrite Hjobs3, lookup_insert_eq|].
  intros x w4 [-> ->]. cbn zeta. set (j' := settled_row _ _ _ _ j).
  change (Status j') with BatchImageJobStatusCompleted. change (BuildBatchImageSettlementManifestHash j') with hash.
  change (String.eqb BatchImageJobStatusCompleted BatchImageJobStatusCompleted) with true. cbv iota.
  run_step. by split.
Qed.

Section Runs.
Context `{GoJSON} `{RequestCodec} {Account : Type} (C : Collaborators Account).

Lemma process_settling b now j k hold r w :
  settling j b k hold r w ->
  wp0 (Process C b now) (fun x w' => ended b (spec j) k hold w' \/ retried j b k hold r w') w.
Proof.
  intros Hs. destruct (Hs) as (Hrow & _ & Hst & _). unfold Process. run_step.
  eapply wp0_mono; [by apply get_run|]. intros x w0 [-> ->]. rewrite Hst.
  change (String.eqb BatchImageJobStatusSettling BatchImageJobStatusSettling) with true. cbv iota.
  do 2 run_step. eapply wp0_mono; [by apply (settle_run _ _ _ _ j k hold r)|].
  intros x w1 Hout. assert (Hor : ended b (spec j) k hold w1 \/ retried j b k hold r w1) by naive_solver.
  destruct x as [y|e]; [by run_step|]. destruct (is_reason billingFailed e); [|by run_step].
  do 2 run_step.
  assert (Hget : wp0 (GetBatchImageJobByBatchID b) (fun _ w' => w' = w1) w1).
  { unfold GetBatchImageJobByBatchID. do 2 run_step. case_match; by run_step. }
  eapply wp0_mono; [exact Hget|]. intros x w2 ->. repeat case_match; by run_step.
Qed.

(** The worker leaves a job that has ended as it is. *)
Lemma process_ended b now s k hold w :
  ended b s k hold w -> wp0 (Process C b now) (fun _ w' => ended b s k hold w') w.
Proof.
  intros Hen. destruct (Hen) as (j & r & Hrow & Hs & Hj & Hst). unfold Process. run_step.
  eapply wp0_mono; [by apply get_run|]. intros x w0 [-> ->].
  replace (String.eqb (Status j) BatchImageJobStatusSettling) with false
    by (destruct Hst as [->|[-> _]]; done).
  cbv iota. unfold ProviderProcess. run_step. eapply wp0_mono; [by apply get_run|]. intros x w0 [-> ->].
  replace (isBatchImageProcessorDoneStatus (Status j)) with true
    by (destruct Hst as [->|[-> _]]; done).
  cbv iota. run_step. unfold releaseTerminalHold. destruct Hst as [Hc|[Hf Hkn]].
  - rewrite Hc. cbv iota. change (negb _ && negb _) with true. cbv iota. by repeat run_step.
  - rewrite Hf. change (negb _ && negb _) with false. cbv iota. run_step.
    eapply wp0_mono; [apply (release_known j k hold r); [done|]|].
    { rewrite known_new. by rewrite Hkn. }
    intros x w1 [-> ->]. eapply wp0_mono; [apply invalidate_run|]. intros x w1 (-> & Hdb & Hjobs).
    run_step. exists j, r. rewrite Hjobs, Hdb. split_and!; [done|done|done|by right].
Qed.

Definition runs (b : string) (nows : list Time) : list (sys_op (Account := Account) * faults) :=
  map (fun now => (SysProcess C b now, [])) nows.

Lemma runs_cons b now nows w (Q : World -> Prop) :
  wp0 (Process C b now) (fun _ w' => Q (run_sys (runs b nows) w')) w -> Q (run_sys (runs b (now :: nows)) w).
Proof.
  unfold wp0. cbn [runs map run_sys run_sys_op]. unfold ignore, tbind, tret.
  by destruct (Process C b now w []) as [[[x|e] w'] fs]; intros [_ HQ].
Qed.

Lemma runs_ended b nows s k hold w :
  ended b s k hold w -> ended b s k hold (run_sys (runs b nows) w).
Proof.
  revert w. induction nows as [|now nows IH]; intros w Hen; [done|]. apply runs_cons.
  eapply wp0_mono; [by apply process_ended|]. intros x w'. apply IH.
Qed.

(** Settlement ends.  A worker that runs for a job in settlement ends it when
its attempts are used up, whatever stands in the way of the payment (a missing
price, counts that do not add up, a cost beyond the hold, a capture that
conflicts), provided only that no statement fails and that the hold is still
frozen: after as many runs as attempts remain, and after one run if none do, the
job has completed, or it has failed and the release of its hold is on record.
Further runs leave it so. *)
Theorem settlement_ends b nows (j : BatchImageJob) k hold r w :
  batch_image_jobs w !! b = Some j -> BatchID j = b -> Status j = BatchImageJobStatusSettling ->
  ManifestHash j = None -> 0 < default 0 (AccountID j) ->
  holder j k hold r (w_db w) -> hold <= frozen_balance r ->
  nows <> [] -> batchImageSettlementMaxRetries <= RetryCount j + Z.of_nat (length nows) ->
  exists j', batch_image_jobs (run_sys (runs b nows) w) !! b = Some j' /\ spec j' = spec j /\
    (Status j' = BatchImageJobStatusCompleted \/
     Status j' = BatchImageJobStatusFailed /\
       known (release_key j k) (w_db (run_sys (runs b nows) w)) = true).
Proof.
  intros Hrow Hb Hst Hm Ha Hj Hf Hne Hlen.
  assert (Hend : ended b (spec j) k hold (run_sys (runs b nows) w)).
  { assert (Hs : settling j b k hold r w) by (by split_and!). clear Hrow Hb Hst Hm Ha Hj.
    revert w j Hs Hlen Hne. induction nows as [|now nows IH]; [done|]. intros w j Hs Hlen _.
    apply runs_cons. eapply wp0_mono; [by apply process_settling|].
    intros x w' [Hen|(j' & Hs' & Hsp & Hn & Hlt)]; [by apply runs_ended|].
    cbn [length] in Hlen. rewrite <- Hsp. unfold batchImageSettlementMaxRetries in *.
    apply IH; [done|lia|]. intros ->. cbn in Hlen. lia. }
  destruct Hend as (j' & r' & Hrow' & Hs & Hj' & Hst'). exists j'. split_and!; [done|done|].
  destruct Hst' as [?|[? Hkn]]; [by left|right]. split; [done|]. unfold release_key in *. by rewrite <- Hs.
Qed.
End Runs.
End BatchFlows.

(** ** Examples *)

(** The submission of [ex_sys_history] after its output has been indexed. *)
Definition ex_settling : World := run_sys (take 4 ex_sys_history) ex_start.

Definition ex_settling_job : BatchImageJob :=
  default (ex_job "" 0) (batch_image_jobs ex_settling !! "b1").

Definition ex_held : user_row := mkUser 35000000000 15000000000 false.

Lemma ex_settling_ok : settling ex_settling_job "b1" 70 15000000000 ex_held ex_settling.
Proof. by vm_compute. Qed.

Lemma settlement_charges_witness :
  settling ex_settling_job "b1" 70 15000000000 ex_held ex_settling /\
  wp0 (Settle (fun _ => Ok 0) (24 * Hour) "b1" (9 * Second)) (fun x w' => is_ok x = true /\
    users (w_db w') !! 7 = Some (mkUser 45000000000 0 false)) ex_settling.
Proof.
  split; [exact ex_settling_ok|].
  eapply wp0_mono; [apply (settlement_charges (fun _ => Ok 0) (fun _ => Ok 0) (24 * Hour) "b1" (9 * Second) 0
    ex_settling_job 70 15000000000 ex_held 5000000000 ex_settling ex_settling_ok)|].
  - by vm_compute.
  - by vm_compute.
  - by vm_compute.
  - by vm_compute.
  - by vm_compute.
  - by vm_compute.
  - split; by vm_compute.
  - intros x w' (-> & Hu & _). split; [done|]. rewrite Hu. by vm_compute.
Defined.

(** The same job with counts that do not add up: five runs end it. *)
Definition ex_bad_job : BatchImageJob := counted_row 9 0 0 ex_settling_job.
Definition ex_bad : World := set_jobs (fun t => <["b1" := ex_bad_job]> t) ex_settling.
Definition ex_nows : list Time := [60 * Second; 120 * Second; 180 * Second; 240 * Second; 300 * Second].

Example settlement_ex_fails :
  ex_summary (run_sys (runs ex_collaborators "b1" (take 4 ex_nows)) ex_bad) = Some ("settling", 9, 0, None, 4) /\
  ex_summary (run_sys (runs ex_collaborators "b1" ex_nows) ex_bad) = Some ("failed", 9, 0, None, 5) /\
  users (w_db (run_sys (runs ex_collaborators "b1" ex_nows) ex_bad)) !! 7 = Some (mkUser (usd 5) 0 false).
Proof. by vm_compute. Qed.

Lemma settlement_ends_witness :
  exists j', batch_image_jobs (run_sys (runs ex_collaborators "b1" ex_nows) ex_bad) !! "b1" = Some j' /\
    spec j' = spec ex_bad_job.
Proof.
  destruct (settlement_ends ex_collaborators "b1" ex_nows ex_bad_job 70 15000000000 ex_held ex_bad) as (j' & Hj & Hs & _).
  - by vm_compute.
  - by vm_compute.
  - by vm_compute.
  - by vm_compute.
  - by vm_compute.
  - by vm_compute.
  - by vm_compute.
  - done.
  - by vm_compute.
  - exists j'. split; [exact Hj|exact Hs].
Defined.

(** A second batch of the user has frozen as much. *)
Definition ex_two_holds : World :=
  run_sys (Account := Z) [(SysBilling (OpReserve (ex_hold "batch_image_hold:" "b2" 15000000000 0)), [])] ex_settling.

(** The answers to the commits of four captures are failures, and that of the
fifth is lost. *)
Definition ex_lost_history : list (sys_op (Account := Z) * faults) :=
  map (fun f => (SysProcess ex_collaborators "b1" (9 * Second), [None; None; None; None; None; None; Some f]))
    [Refused "down"; Refused "down"; Refused "down"; Refused "down"; AnswerLost "down"].

(** The job has failed, the capture and the release are both in effect, and
nothing is frozen any more for the second batch. *)
Example captured_and_released :
  let w := run_sys ex_lost_history ex_two_holds in
  users (w_db ex_two_holds) !! 7 = Some (mkUser (usd 2) (usd 3) false) /\
  ex_summary w = Some ("failed", 1, 2, None, 5) /\
  users (w_db w) !! 7 = Some (mkUser 45000000000 0 false).
Proof. by vm_compute. Qed.

Lemma captured_hold_released_again_witness :
  wp0 (let! _ := captureBatchImageBalanceHold ex_settling_job 5000000000 "m" in
       releaseBatchImageBalanceHold ex_settling_job "")
    (fun x w' => x = Ok tt /\ users (w_db w') !! 7 = Some (mkUser 45000000000 0 false)) ex_two_holds.
Proof.
  eapply wp0_mono; [apply (captured_hold_released_again ex_settling_job 70 15000000000
    (mkUser (usd 2) (usd 3) false) 5000000000 "m" "" ex_two_holds)|].
  - by vm_compute.
  - by exists 150000000.
  - by exists 50000000.
  - by exists 200000000.
  - by exists 300000000.
  - done.
  - by vm_compute.
  - by vm_compute.
  - split; by vm_compute.
  - split; by vm_compute.
  - intros x w' [Hx Hu]. split; [exact Hx|exact Hu].
Defined.

(** A cancellation between the creation of a job and its reservation: the hold
of the submission is never given back. *)
Definition ex_created : World :=
  (CreateBatchImageJob (spec ex_settling_job) (5 * Second) ex_start []).1.2.

Example cancelled_before_reservation :
  let w := (Cancel ex_collaborators ex_owner "b1" (6 * Second) ex_created []).1.2 in
  let w := (submit_reserve ex_owner (pending_job ex_pending) (pending_hash ex_pending) [] (7 * Second) w []).1.2 in
  let w := (Cancel ex_collaborators ex_owner "b1" (8 * Second) w []).1.2 in
  Status <$> batch_image_jobs w !! "b1" = Some "cancelled" /\
  users (w_db w) !! 7 = Some (mkUser 35000000000 15000000000 false).
Proof. by vm_compute. Qed.

Lemma early_release_leaks_witness :
  wp0 (let! _ := releaseBatchImageBalanceHold ex_settling_job "h" in
       reserveBatchImageBalanceHold ex_settling_job "h")
    (fun x w' => x = Ok tt /\ users (w_db w') !! 7 = Some ex_held) ex_created.
Proof.
  eapply wp0_mono; [apply (early_release_leaks ex_settling_job 70 15000000000
    (mkUser (usd 5) 0 false) "h" ex_created)|].
  - by vm_compute.
  - by vm_compute.
  - split; by vm_compute.
  - split; by vm_compute.
  - intros x w' (Hx & Hu & _). split; [exact Hx|exact Hu].
Defined.

(** ** A retry that is refused *)

(** A request without a task name is given the time of the submission as its
name before it is hashed, so the same request with the same key, one second
later, is taken for a different one. *)
Example unnamed_retry_conflicts :
  let submit now w := SubmitBegin ex_submit_env ex_owner ex_request "key" now w [] in
  let w := (submit (5 * Second) ex_start).1.2 in
  is_ok (submit (5 * Second) w).1.1 = true /\
  (submit (6 * Second) w).1.1 = Err ErrBatchImageIdempotencyConflict.
Proof. by vm_compute. Qed.
