(* ===== verification/Slots.v ===== *)
(** * Concurrency slots

[repository/concurrency_cache.go]: the slots of accounts, users and API keys, the
leases of live connections, the counters of waiting requests, and the indexes of
what is active, all of them in Redis.  The policy on top of it is in
[SlotService]. *)
From S2P Require Import Prelude GoText Programs Redis.
From Stdlib Require Import Bool.

Local Open Scope string_scope.
Local Open Scope Z_scope.

(** ** Keys *)

Definition accountSlotKeyPrefix := "concurrency:account:".
Definition userSlotKeyPrefix := "concurrency:user:".
Definition apiKeySlotKeyPrefix := "concurrency:api_key:".
Definition liveAccountSlotKeyPrefix := "concurrency:live:account:".
Definition liveUserSlotKeyPrefix := "concurrency:live:user:".
Definition liveAPIKeySlotKeyPrefix := "concurrency:live:api_key:".
Definition openAIWSIngressLeaseKeyPrefix := "concurrency:openai_ws_ingress:api_key:".
Definition openAIWSIngressLeaseTTLSeconds : Z := 60.
Definition liveLeaseTTLSeconds : Z := 60.
Definition waitQueueKeyPrefix := "concurrency:wait:".
Definition accountWaitKeyPrefix := "wait:account:".
Definition defaultSlotTTLMinutes : Z := 15.
Definition accountActiveIndexKey := "concurrency:account:active_index".
Definition userActiveIndexKey := "concurrency:user:active_index".
Definition activeIndexCleanupBatchSize : Z := 1000.
Definition activeIndexPipelineChunkSize : nat := 500.
Definition legacyWaitSweepMarkerKey := "concurrency:startup:legacy_wait_sweep:v1".

Definition accountSlotKey (id : Z) : string := accountSlotKeyPrefix +:+ FormatInt id.
Definition userSlotKey (id : Z) : string := userSlotKeyPrefix +:+ FormatInt id.
Definition apiKeySlotKey (id : Z) : string := apiKeySlotKeyPrefix +:+ FormatInt id.
Definition liveAccountSlotKey (id : Z) : string := liveAccountSlotKeyPrefix +:+ FormatInt id.
Definition liveUserSlotKey (id : Z) : string := liveUserSlotKeyPrefix +:+ FormatInt id.
Definition liveAPIKeySlotKey (id : Z) : string := liveAPIKeySlotKeyPrefix +:+ FormatInt id.
Definition openAIWSIngressLeaseKey (id : Z) : string := openAIWSIngressLeaseKeyPrefix +:+ FormatInt id.
Definition waitQueueKey (id : Z) : string := waitQueueKeyPrefix +:+ FormatInt id.
Definition accountWaitKey (id : Z) : string := accountWaitKeyPrefix +:+ FormatInt id.

(** ** Scripts *)

Section Scripts.
Context `{Redis Db}.

(** The last two commands of a script that admits a member. *)
Definition admit_member (key : string) (now ttl : Z) (member : string) : Script Db unit :=
  do! _ := call (ZADD key now member) in
  do! _ := call (EXPIRE key ttl) in
  sret tt.

Definition is_member (key member : string) : Script Db bool :=
  do! r := call (ZSCORE key member) in
  sret (match r with Nil => false | _ => true end).

(** The answer and the server's time. *)
Definition acquireScript (key liveKey : string) (maxConcurrency ttl : Z) (requestID : string)
    : Script Db (Z * Z) :=
  do! now := time_s in
  let expireBefore := now - ttl in
  do! _ := call (ZREMRANGEBYSCORE key expireBefore) in
  do! _ := call (ZREMRANGEBYSCORE liveKey (now - 60)) in
  do! exists_ := is_member key requestID in
  if exists_ then
    do! _ := admit_member key now ttl requestID in sret (1, now)
  else
    do! regular := call_int (ZCARD key) in
    do! live := call_int (ZCARD liveKey) in
    let count := regular + live in
    if count <? maxConcurrency then
      do! _ := admit_member key now ttl requestID in sret (1, now)
    else sret (0, now).

Definition getCountScript (key liveKey : string) (ttl : Z) : Script Db Z :=
  do! now := time_s in
  let expireBefore := now - ttl in
  do! _ := call (ZREMRANGEBYSCORE key expireBefore) in
  do! _ := call (ZREMRANGEBYSCORE liveKey (now - 60)) in
  do! regular := call_int (ZCARD key) in
  do! live := call_int (ZCARD liveKey) in
  sret (regular + live).

Definition acquireLiveLeaseScript (accountRegular accountLive userRegular userLive apiLive : string)
    (accountMax userMax ttl : Z) (leaseID : string) (replacing : Z) : Script Db Z :=
  do! now := time_s in
  let liveExpireBefore := now - ttl in
  do! _ := call (ZREMRANGEBYSCORE accountLive liveExpireBefore) in
  do! _ := call (ZREMRANGEBYSCORE userLive liveExpireBefore) in
  do! _ := call (ZREMRANGEBYSCORE apiLive liveExpireBefore) in
  do! held := is_member accountLive leaseID in
  if held then sret 1
  else
    do! a1 := call_int (ZCARD accountRegular) in
    do! a2 := call_int (ZCARD accountLive) in
    do! u1 := call_int (ZCARD userRegular) in
    do! u2 := call_int (ZCARD userLive) in
    let accountCount := a1 + a2 in
    let userCount := u1 + u2 in
    let allowance := if replacing =? 1 then 1 else 0 in
    if (0 <? accountMax) && (accountMax + allowance <=? accountCount) then sret 0
    else if (0 <? userMax) && (userMax + allowance <=? userCount) then sret 0
    else
      do! _ := call (ZADD accountLive now leaseID) in
      do! _ := call (ZADD userLive now leaseID) in
      do! _ := call (ZADD apiLive now leaseID) in
      do! _ := call (EXPIRE accountLive ttl) in
      do! _ := call (EXPIRE userLive ttl) in
      do! _ := call (EXPIRE apiLive ttl) in
      sret 1.

(** The first loop of the refresh: is the lease in every set. *)
Fixpoint lease_everywhere (keys : list string) (expireBefore : Z) (leaseID : string) : Script Db bool :=
  match keys with
  | [] => sret true
  | key :: keys =>
      do! _ := call (ZREMRANGEBYSCORE key expireBefore) in
      do! held := is_member key leaseID in
      if held then lease_everywhere keys expireBefore leaseID else sret false
  end.

Fixpoint admit_everywhere (keys : list string) (now ttl : Z) (leaseID : string) : Script Db unit :=
  match keys with
  | [] => sret tt
  | key :: keys =>
      do! _ := admit_member key now ttl leaseID in admit_everywhere keys now ttl leaseID
  end.

Definition refreshLiveLeaseScript (keys : list string) (ttl : Z) (leaseID : string) : Script Db Z :=
  do! now := time_s in
  let expireBefore := now - ttl in
  do! held := lease_everywhere keys expireBefore leaseID in
  if held then do! _ := admit_everywhere keys now ttl leaseID in sret 1 else sret 0.

Definition trackSlotScript (key : string) (ttl : Z) (requestID : string) : Script Db Z :=
  do! now := time_s in
  let expireBefore := now - ttl in
  do! _ := call (ZREMRANGEBYSCORE key expireBefore) in
  do! _ := admit_member key now ttl requestID in
  sret 1.

Definition acquireOpenAIWSIngressLeaseScript (key : string) (maxConnections ttl : Z) (leaseID : string)
    : Script Db Z :=
  do! now := time_s in
  let expireBefore := now - ttl in
  do! _ := call (ZREMRANGEBYSCORE key expireBefore) in
  do! held := is_member key leaseID in
  if held then
    do! _ := admit_member key now ttl leaseID in sret 1
  else
    do! count := call_int (ZCARD key) in
    if count <? maxConnections then
      do! _ := admit_member key now ttl leaseID in sret 1
    else sret 0.

Definition refreshOpenAIWSIngressLeaseScript (key : string) (ttl : Z) (leaseID : string) : Script Db Z :=
  do! now := time_s in
  let expireBefore := now - ttl in
  do! _ := call (ZREMRANGEBYSCORE key expireBefore) in
  do! held := is_member key leaseID in
  if held then do! _ := admit_member key now ttl leaseID in sret 1 else sret 0.

(** [tonumber] of what [GET] answers, for the decimal integers that [INCR] writes;
[None] for a missing key. *)
Definition get_number (key : string) : Script Db (option Z) :=
  do! r := call (GET key) in
  match r with
  | Bulk s => match ParseInt s with
              | Some z => sret (Some z)
              | None => sfail (ErrMsg "attempt to compare nil with number")
              end
  | _ => sret None
  end.

(** [incrementWaitScript] and [incrementAccountWaitScript] have one text. *)
Definition incrementWaitScript (key : string) (maxWait ttl : Z) : Script Db (Z * Z) :=
  do! current := get_number key in
  let current := default 0 current in
  do! now := time_s in
  if maxWait <=? current then sret (0, now)
  else
    do! _ := call (INCR key 1) in
    do! _ := call (EXPIRE key ttl) in
    sret (1, now).

Definition incrementAccountWaitScript (key : string) (maxWait ttl : Z) : Script Db (Z * Z) :=
  incrementWaitScript key maxWait ttl.

Definition decrementWaitScript (key : string) : Script Db Z :=
  do! current := get_number key in
  match current with
  | Some n => if 0 <? n then do! _ := call (INCR key (-1)) in sret 1 else sret 1
  | None => sret 1
  end.

Definition cleanupExpiredSlotsScript (key : string) (ttl : Z) : Script Db Z :=
  do! now := time_s in
  let expireBefore := now - ttl in
  do! _ := call (ZREMRANGEBYSCORE key expireBefore) in
  do! count := call_int (ZCARD key) in
  if count =? 0 then do! _ := call (DEL key) in sret 1
  else do! _ := call (EXPIRE key ttl) in sret 1.

(** The loop of the start-up clean-up: the members without the prefix go. *)
Fixpoint remove_foreign (key activePrefix : string) (members : list string) (removed : Z) : Script Db Z :=
  match members with
  | [] => sret removed
  | member :: members =>
      if HasPrefix member activePrefix then remove_foreign key activePrefix members removed
      else
        do! n := call_int (ZREM key member) in
        remove_foreign key activePrefix members (removed + n)
  end.

Definition startupCleanupSlotScript (key activePrefix : string) (slotTTL : Z) : Script Db (Z * Z) :=
  do! members := call (ZRANGE key) in
  do! removed := remove_foreign key activePrefix (reply_members members) 0 in
  do! remaining := call_int (ZCARD key) in
  do! _ := (if remaining =? 0 then call (DEL key) else call (EXPIRE key slotTTL)) in
  sret (removed, remaining).

End Scripts.

(** ** The cache *)

Record concurrencyCache : Type := mkCache { slotTTLSeconds : Z; waitQueueTTLSeconds : Z }.

Definition NewConcurrencyCache (slotTTLMinutes waitQueueTTL : Z) : concurrencyCache :=
  let slotTTLMinutes := if slotTTLMinutes <=? 0 then defaultSlotTTLMinutes else slotTTLMinutes in
  let waitQueueTTL := if waitQueueTTL <=? 0 then slotTTLMinutes *! 60 else waitQueueTTL in
  mkCache (slotTTLMinutes *! 60) waitQueueTTL.

Record slotIndexSpec : Type := mkSpec { indexKey : string; slotKey : Z -> string; waitKey : Z -> string }.

Definition accountSlotIndex : slotIndexSpec :=
  mkSpec accountActiveIndexKey accountSlotKey accountWaitKey.
Definition userSlotIndex : slotIndexSpec := mkSpec userActiveIndexKey userSlotKey waitQueueKey.

Record activeIndexLoad : Type := mkLoad {
  load_id : Z; load_member : string; slotCount : Z; waitCount : Z
}.

Record AccountWithConcurrency : Type := mkWithConcurrency { ID : Z; MaxConcurrency : Z }.
Record AccountLoadInfo : Type := mkLoadInfo {
  AccountID : Z; CurrentConcurrency : Z; WaitingCount : Z; LoadRate : Z
}.

Section Cache.
Context `{Redis Db} (c : concurrencyCache).

(** A call whose error is only logged. *)
Definition best_effort {A} (m : Client Db A) : Client Db unit := let! _ := ttry m in tret tt.

Definition redisUnixSeconds : Client Db Z := request time_s.

Definition touchActiveIndexAt (indexKey : string) (id expireAt : Z) : Client Db unit :=
  if (id <=? 0) || (expireAt <=? 0) then tret tt
  else best_effort (request (call (ZADD indexKey expireAt (FormatInt id)))).

Definition activeIndexTTL (slotCount waitCount : Z) : Z :=
  let ttlSeconds := if 0 <? slotCount then slotTTLSeconds c else 0 in
  if (0 <? waitCount) && (ttlSeconds <? waitQueueTTLSeconds c) then waitQueueTTLSeconds c
  else ttlSeconds.

(** The waiting count of a reply to [GET]. *)
Definition wait_of (r : Reply) : Z :=
  match reply_int r with Ok v => if 0 <? v then v else 0 | Err _ => 0 end.

Definition readActiveLoadForKey (id : Z) (slotKey waitKey : string) (now : Z)
    : Client Db activeIndexLoad :=
  let cutoffTime := now - slotTTLSeconds c in
  let! rs := pipeline [ZREMRANGEBYSCORE slotKey cutoffTime; ZCARD slotKey; GET waitKey] in
  match rs with
  | [_; card; wait] => tret (mkLoad id (FormatInt id) (int_val card) (wait_of wait))
  | _ => tfail (ErrMsg "pipeline")
  end.

Definition refreshActiveIndex (indexKey : string) (id : Z) (slotKey waitKey : string) : Client Db unit :=
  if id <=? 0 then tret tt
  else
    let! now := ttry redisUnixSeconds in
    match now with
    | Err _ => tret tt
    | Ok now =>
        let! load := ttry (readActiveLoadForKey id slotKey waitKey now) in
        match load with
        | Err _ => tret tt
        | Ok load =>
            let member := FormatInt id in
            if (slotCount load =? 0) && (waitCount load <=? 0) then
              best_effort (request (call (ZREM indexKey member)))
            else
              let ttlSeconds := activeIndexTTL (slotCount load) (waitCount load) in
              if ttlSeconds <=? 0 then tret tt
              else touchActiveIndexAt indexKey id (now + ttlSeconds)
        end
    end.

Definition refreshAccountActiveIndex (id : Z) : Client Db unit :=
  refreshActiveIndex accountActiveIndexKey id (accountSlotKey id) (accountWaitKey id).
Definition refreshUserActiveIndex (id : Z) : Client Db unit :=
  refreshActiveIndex userActiveIndexKey id (userSlotKey id) (waitQueueKey id).

(** The commands of a batch for one candidate, and its three replies. *)
Definition load_commands (spec : slotIndexSpec) (cutoffTime : Z) (candidate : Z * string) : list Command :=
  [ZREMRANGEBYSCORE (slotKey spec candidate.1) cutoffTime; ZCARD (slotKey spec candidate.1);
   GET (waitKey spec candidate.1)].

Fixpoint loads_of (chunk : list (Z * string)) (rs : list Reply) : list activeIndexLoad :=
  match chunk, rs with
  | (id, member) :: chunk, _ :: card :: wait :: rs =>
      mkLoad id member (int_val card) (wait_of wait) :: loads_of chunk rs
  | _, _ => []
  end.

(** One pipeline per chunk; the fuel is the number of candidates. *)
Fixpoint read_chunks (fuel : nat) (spec : slotIndexSpec) (cutoffTime : Z)
    (candidates : list (Z * string)) : Client Db (list activeIndexLoad) :=
  match fuel, candidates with
  | S fuel, _ :: _ =>
      let chunk := take activeIndexPipelineChunkSize candidates in
      let! rs := pipeline (flat_map (load_commands spec cutoffTime) chunk) in
      let! loads := read_chunks fuel spec cutoffTime (drop activeIndexPipelineChunkSize candidates) in
      tret (app (loads_of chunk rs) loads)
  | _, _ => tret []
  end.

(** The members that name a positive number, and the others. *)
Definition parse_member (member : string) : option Z :=
  match ParseInt member with Some id => if id <=? 0 then None else Some id | None => None end.

Definition candidates_of (members : list string) : list (Z * string) :=
  omap (fun member => option_map (fun id => (id, member)) (parse_member member)) members.
Definition stale_of (members : list string) : list string :=
  filter (fun member => parse_member member = None) members.

Definition readIndexLoads (spec : slotIndexSpec) (members : list string) (now : Z)
    : Client Db (list activeIndexLoad * list string) :=
  let cutoffTime := now - slotTTLSeconds c in
  let candidates := candidates_of members in
  let! loads := read_chunks (length candidates) spec cutoffTime candidates in
  tret (loads, stale_of members).

Definition removeActiveIndexMembers (indexKey : string) (members : list string) : Client Db unit :=
  match members with
  | [] => tret tt
  | _ => best_effort (request (multi (map (ZREM indexKey) members)))
  end.

(** The scores that are written back, if there are any. *)
Definition refreshIndexMembers (indexKey : string) (refreshed : list (string * Z)) : Client Db unit :=
  match refreshed with
  | [] => tret tt
  | _ => best_effort (request (multi (map (fun p => ZADD indexKey p.2 p.1) refreshed)))
  end.

(** *** Slots of accounts and users *)

Definition AcquireAccountSlot (accountID maxConcurrency : Z) (requestID : string) : Client Db bool :=
  let! r := request (acquireScript (accountSlotKey accountID) (liveAccountSlotKey accountID)
                       maxConcurrency (slotTTLSeconds c) requestID) in
  let! _ := (if r.1 =? 1 then
               touchActiveIndexAt accountActiveIndexKey accountID (r.2 + slotTTLSeconds c)
             else tret tt) in
  tret (r.1 =? 1).

Definition ReleaseAccountSlot (accountID : Z) (requestID : string) : Client Db unit :=
  let! _ := request (call (ZREM (accountSlotKey accountID) requestID)) in
  refreshAccountActiveIndex accountID.

Definition GetAccountConcurrency (accountID : Z) : Client Db Z :=
  request (getCountScript (accountSlotKey accountID) (liveAccountSlotKey accountID) (slotTTLSeconds c)).

Definition AcquireUserSlot (userID maxConcurrency : Z) (requestID : string) : Client Db bool :=
  let! r := request (acquireScript (userSlotKey userID) (liveUserSlotKey userID)
                       maxConcurrency (slotTTLSeconds c) requestID) in
  let! _ := (if r.1 =? 1 then
               touchActiveIndexAt userActiveIndexKey userID (r.2 + slotTTLSeconds c)
             else tret tt) in
  tret (r.1 =? 1).

Definition ReleaseUserSlot (userID : Z) (requestID : string) : Client Db unit :=
  let! _ := request (call (ZREM (userSlotKey userID) requestID)) in
  refreshUserActiveIndex userID.

Definition GetUserConcurrency (userID : Z) : Client Db Z :=
  request (getCountScript (userSlotKey userID) (liveUserSlotKey userID) (slotTTLSeconds c)).

(** The counts of a batch: slots and live leases of every identifier. *)
Definition count_commands (slotKey liveKey : Z -> string) (now id : Z) : list Command :=
  [ZREMRANGEBYSCORE (slotKey id) (now - slotTTLSeconds c);
   ZREMRANGEBYSCORE (liveKey id) (now - liveLeaseTTLSeconds);
   ZCARD (slotKey id); ZCARD (liveKey id)].

Fixpoint counts_of (ids : list Z) (rs : list Reply) : gmap Z Z :=
  match ids, rs with
  | id :: ids, _ :: _ :: regular :: live :: rs =>
      let rest := counts_of ids rs in
      if decide (is_Some (rest !! id)) then rest
      else <[id := int_val regular + int_val live]> rest
  | _, _ => ∅
  end.

Definition concurrency_batch (slotKey liveKey : Z -> string) (ids : list Z) : Client Db (gmap Z Z) :=
  match ids with
  | [] => tret ∅
  | _ =>
      let! now := redisUnixSeconds in
      let! rs := pipeline (flat_map (count_commands slotKey liveKey now) ids) in
      tret (counts_of ids rs)
  end.

Definition GetAccountConcurrencyBatch (ids : list Z) : Client Db (gmap Z Z) :=
  concurrency_batch accountSlotKey liveAccountSlotKey ids.
Definition GetAPIKeyConcurrencyBatch (ids : list Z) : Client Db (gmap Z Z) :=
  concurrency_batch apiKeySlotKey liveAPIKeySlotKey ids.

(** *** Slots of API keys, leases of WebSocket sessions and of live connections *)

Definition TrackAPIKeySlot (apiKeyID : Z) (requestID : string) : Client Db unit :=
  let! _ := request (trackSlotScript (apiKeySlotKey apiKeyID) (slotTTLSeconds c) requestID) in tret tt.

Definition ReleaseAPIKeySlot (apiKeyID : Z) (requestID : string) : Client Db unit :=
  let! _ := request (call (ZREM (apiKeySlotKey apiKeyID) requestID)) in tret tt.

Definition AcquireOpenAIWSIngressLease (apiKeyID maxConnections : Z) (leaseID : string) : Client Db bool :=
  if (apiKeyID <=? 0) || (maxConnections <=? 0) || String.eqb leaseID "" then tret false
  else
    let! r := request (acquireOpenAIWSIngressLeaseScript (openAIWSIngressLeaseKey apiKeyID)
                         maxConnections openAIWSIngressLeaseTTLSeconds leaseID) in
    tret (r =? 1).

Definition RefreshOpenAIWSIngressLease (apiKeyID : Z) (leaseID : string) : Client Db bool :=
  if (apiKeyID <=? 0) || String.eqb leaseID "" then tret false
  else
    let! r := request (refreshOpenAIWSIngressLeaseScript (openAIWSIngressLeaseKey apiKeyID)
                         openAIWSIngressLeaseTTLSeconds leaseID) in
    tret (r =? 1).

Definition ReleaseOpenAIWSIngressLease (apiKeyID : Z) (leaseID : string) : Client Db unit :=
  if (apiKeyID <=? 0) || String.eqb leaseID "" then tret tt
  else let! _ := request (call (ZREM (openAIWSIngressLeaseKey apiKeyID) leaseID)) in tret tt.

Definition AcquireLiveLease (accountID accountMax userID userMax apiKeyID : Z) (leaseID : string)
    (replacingRegularSlots : bool) : Client Db bool :=
  if (accountID <=? 0) || (userID <=? 0) || (apiKeyID <=? 0) || String.eqb leaseID "" then tret false
  else
    let replacing := if replacingRegularSlots then 1 else 0 in
    let! r := request (acquireLiveLeaseScript (accountSlotKey accountID)
                         (liveAccountSlotKey accountID) (userSlotKey userID) (liveUserSlotKey userID)
                         (liveAPIKeySlotKey apiKeyID) accountMax userMax liveLeaseTTLSeconds leaseID
                         replacing) in
    tret (r =? 1).

Definition RefreshLiveLease (accountID userID apiKeyID : Z) (leaseID : string) : Client Db bool :=
  if String.eqb leaseID "" then tret false
  else
    let! r := request (refreshLiveLeaseScript
                         [liveAccountSlotKey accountID; liveUserSlotKey userID; liveAPIKeySlotKey apiKeyID]
                         liveLeaseTTLSeconds leaseID) in
    tret (r =? 1).

Definition ReleaseLiveLease (accountID userID apiKeyID : Z) (leaseID : string) : Client Db unit :=
  if String.eqb leaseID "" then tret tt
  else
    let! _ := request (multi [ZREM (liveAccountSlotKey accountID) leaseID;
                              ZREM (liveUserSlotKey userID) leaseID;
                              ZREM (liveAPIKeySlotKey apiKeyID) leaseID]) in
    tret tt.

(** *** Waiting requests *)

Definition IncrementWaitCount (userID maxWait : Z) : Client Db bool :=
  let! r := request (incrementWaitScript (waitQueueKey userID) maxWait (waitQueueTTLSeconds c)) in
  let! _ := (if r.1 =? 1 then
               touchActiveIndexAt userActiveIndexKey userID (r.2 + waitQueueTTLSeconds c)
             else tret tt) in
  tret (r.1 =? 1).

Definition DecrementWaitCount (userID : Z) : Client Db unit :=
  let! _ := request (decrementWaitScript (waitQueueKey userID)) in
  refreshUserActiveIndex userID.

Definition IncrementAccountWaitCount (accountID maxWait : Z) : Client Db bool :=
  let! r := request (incrementAccountWaitScript (accountWaitKey accountID) maxWait
                       (waitQueueTTLSeconds c)) in
  let! _ := (if r.1 =? 1 then
               touchActiveIndexAt accountActiveIndexKey accountID (r.2 + waitQueueTTLSeconds c)
             else tret tt) in
  tret (r.1 =? 1).

Definition DecrementAccountWaitCount (accountID : Z) : Client Db unit :=
  let! _ := request (decrementWaitScript (accountWaitKey accountID)) in
  refreshAccountActiveIndex accountID.

Definition GetAccountWaitingCount (accountID : Z) : Client Db Z :=
  let! r := request (call (GET (accountWaitKey accountID))) in
  match r with
  | Nil => tret 0
  | _ => match reply_int r with Ok v => tret v | Err e => tfail e end
  end.

(** *** Loads *)

Definition load_rate (current waiting max : Z) : Z :=
  if 0 <? max then Z.quot ((current +! waiting) *! 100) max else 0.

Definition load_batch_commands (slotKey liveKey waitKey : Z -> string) (now : Z)
    (a : AccountWithConcurrency) : list Command :=
  [ZREMRANGEBYSCORE (slotKey (ID a)) (now - slotTTLSeconds c);
   ZREMRANGEBYSCORE (liveKey (ID a)) (now - liveLeaseTTLSeconds);
   ZCARD (slotKey (ID a)); ZCARD (liveKey (ID a)); GET (waitKey (ID a))].

Definition load_info (a : AccountWithConcurrency) (regular live wait : Reply) : AccountLoadInfo :=
  let current := int_val regular + int_val live in
  let waiting := match reply_int wait with Ok v => v | Err _ => 0 end in
  mkLoadInfo (ID a) current waiting (load_rate current waiting (MaxConcurrency a)).

(** A later entry for one identifier replaces an earlier one. *)
Fixpoint load_infos (l : list AccountWithConcurrency) (rs : list Reply) : gmap Z AccountLoadInfo :=
  match l, rs with
  | a :: l, _ :: _ :: regular :: live :: wait :: rs =>
      let rest := load_infos l rs in
      if decide (is_Some (rest !! ID a)) then rest else <[ID a := load_info a regular live wait]> rest
  | _, _ => ∅
  end.

Definition load_batch (slotKey liveKey waitKey : Z -> string) (l : list AccountWithConcurrency)
    : Client Db (gmap Z AccountLoadInfo) :=
  match l with
  | [] => tret ∅
  | _ =>
      let! now := redisUnixSeconds in
      let! rs := pipeline (flat_map (load_batch_commands slotKey liveKey waitKey now) l) in
      tret (load_infos l rs)
  end.

Definition GetAccountsLoadBatch (accounts : list AccountWithConcurrency)
    : Client Db (gmap Z AccountLoadInfo) :=
  load_batch accountSlotKey liveAccountSlotKey accountWaitKey accounts.
(** The records of users are those of accounts under other names. *)
Definition GetUsersLoadBatch (users : list AccountWithConcurrency)
    : Client Db (gmap Z AccountLoadInfo) :=
  load_batch userSlotKey liveUserSlotKey waitQueueKey users.

(** *** Clean-up *)

Definition CleanupExpiredAccountSlots (accountID : Z) : Client Db unit :=
  let! _ := request (cleanupExpiredSlotsScript (accountSlotKey accountID) (slotTTLSeconds c)) in
  refreshAccountActiveIndex accountID.

(** A load without slots and without waiting requests. *)
Definition idle (load : activeIndexLoad) : bool := (slotCount load =? 0) && (waitCount load <=? 0).

Definition reconcileExpiredIndexCandidates (spec : slotIndexSpec) : Client Db unit :=
  let! now := redisUnixSeconds in
  let! members := request (call (ZRANGEBYSCORE (indexKey spec) now activeIndexCleanupBatchSize)) in
  let! loads := readIndexLoads spec (reply_members members) now in
  let busy := filter (fun load => idle load = false) loads.1 in
  let refreshed := map (fun load =>
    (load_member load, now + activeIndexTTL (slotCount load) (waitCount load))) busy in
  let stale := app loads.2 (map load_member (filter (fun load => idle load = true) loads.1)) in
  let! _ := refreshIndexMembers (indexKey spec) refreshed in
  removeActiveIndexMembers (indexKey spec) stale.

Definition CleanupExpiredAccountSlotKeys : Client Db unit :=
  let! _ := reconcileExpiredIndexCandidates accountSlotIndex in
  reconcileExpiredIndexCandidates userSlotIndex.

(** The pages that [SCAN] answers for a pattern are an input. *)
Fixpoint delete_pages (pages : list (list string)) : Client Db unit :=
  match pages with
  | [] => tret tt
  | keys :: pages =>
      let! _ := match keys with
                | [] => tret tt
                | _ => let! _ := request (multi (map DEL keys)) in tret tt
                end in
      delete_pages pages
  end.

Definition sweepLegacyWaitKeysOnce (scan : string -> list (list string)) : Client Db unit :=
  let! found := request (call_int (EXISTS legacyWaitSweepMarkerKey)) in
  if 0 <? found then tret tt
  else
    let! _ := delete_pages (scan (accountWaitKeyPrefix +:+ "*")) in
    let! _ := delete_pages (scan (waitQueueKeyPrefix +:+ "*")) in
    let! _ := request (call (SET legacyWaitSweepMarkerKey "1" false None)) in
    tret tt.

Definition allIndexMembers (indexKey : string) : Client Db (list string) :=
  let! r := request (call (ZRANGE indexKey)) in tret (reply_members r).

(** The loop over the members of an index: those to refresh, those to drop. *)
Fixpoint cleanup_members (spec : slotIndexSpec) (members : list string) (activeRequestPrefix : string)
    (now : Z) : Client Db (list (string * Z) * list string) :=
  match members with
  | [] => tret ([], [])
  | member :: members =>
      match parse_member member with
      | None =>
          let! rest := cleanup_members spec members activeRequestPrefix now in
          tret (rest.1, member :: rest.2)
      | Some id =>
          let! r := request (startupCleanupSlotScript (slotKey spec id) activeRequestPrefix
                               (slotTTLSeconds c)) in
          let! _ := request (call (DEL (waitKey spec id))) in
          let! rest := cleanup_members spec members activeRequestPrefix now in
          if 0 <? r.2 then tret ((member, now + slotTTLSeconds c) :: rest.1, rest.2)
          else tret (rest.1, member :: rest.2)
      end
  end.

Definition cleanupStaleProcessSlotsForIndex (spec : slotIndexSpec) (members : list string)
    (activeRequestPrefix : string) (now : Z) : Client Db unit :=
  let! r := cleanup_members spec members activeRequestPrefix now in
  let! _ := refreshIndexMembers (indexKey spec) r.1 in
  removeActiveIndexMembers (indexKey spec) r.2.

Definition CleanupStaleProcessSlots (scan : string -> list (list string)) (activeRequestPrefix : string)
    : Client Db unit :=
  if String.eqb activeRequestPrefix "" then tret tt
  else
    let! _ := sweepLegacyWaitKeysOnce scan in
    let! now := redisUnixSeconds in
    let! accountMembers := allIndexMembers accountActiveIndexKey in
    let! _ := cleanupStaleProcessSlotsForIndex accountSlotIndex accountMembers activeRequestPrefix now in
    let! userMembers := allIndexMembers userActiveIndexKey in
    cleanupStaleProcessSlotsForIndex userSlotIndex userMembers activeRequestPrefix now.

End Cache.
