(* ===== verification/SlotLimits.v ===== *)
(** * The limits of concurrency slots

Histories of the scripts of [Slots] on one pair of keys, the slots and the live
leases of an account or of a user: the number of unexpired holders stays within
the limit, and a holder keeps its slot for its time to live. *)
From S2P Require Import Prelude GoText Programs Redis Slots.
From Stdlib Require Import Bool.

Local Open Scope string_scope.
Local Open Scope Z_scope.

(** The members that have not expired at a cutoff. *)
Definition unexpired (z : zset) (cutoff : Z) : zset := filter (fun p => cutoff < p.2) z.
Definition count (z : zset) : Z := Z.of_nat (size z).

Lemma unexpired_size z c : (size (unexpired z c) <= size z)%nat.
Proof. apply map_subseteq_size, map_filter_subseteq. Qed.

Lemma unexpired_mono z c c' : c <= c' -> (size (unexpired z c') <= size (unexpired z c))%nat.
Proof.
  intros Hc. apply map_subseteq_size, map_subseteq_spec. intros m s.
  unfold unexpired. rewrite !map_lookup_filter_Some. simpl. intros [? ?]. split; [done|lia].
Qed.

Lemma unexpired_twice z c c' : c <= c' -> unexpired (unexpired z c) c' = unexpired z c'.
Proof.
  intros Hc. apply map_eq. intros m. apply option_eq. intros s.
  unfold unexpired. rewrite !map_lookup_filter_Some. simpl. split; [tauto|].
  intros [? ?]. repeat split; try done. lia.
Qed.

Lemma unexpired_delete z c m : (size (unexpired (delete m z) c) <= size (unexpired z c))%nat.
Proof.
  apply map_subseteq_size, map_subseteq_spec. intros m' s.
  unfold unexpired. rewrite !map_lookup_filter_Some, lookup_delete_Some. tauto.
Qed.

Lemma unexpired_insert z c m s : (size (unexpired (<[m := s]> z) c) <= S (size (unexpired z c)))%nat.
Proof.
  assert (Hsub : unexpired (<[m := s]> z) c ⊆ <[m := s]> (unexpired z c)).
  { apply map_subseteq_spec. intros m' s'. unfold unexpired. rewrite map_lookup_filter_Some.
    destruct (decide (m' = m)) as [->|Hne].
    - rewrite !lookup_insert_eq. tauto.
    - rewrite !lookup_insert_ne by done. rewrite map_lookup_filter_Some. tauto. }
  apply map_subseteq_size in Hsub. etrans; [exact Hsub|].
  rewrite map_size_insert. case_match; simpl; lia.
Qed.

(** A refresh of an unexpired member adds nothing. *)
Lemma unexpired_refresh z c m s s' : z !! m = Some s -> c < s ->
  (size (unexpired (<[m := s']> z) c) <= size (unexpired z c))%nat.
Proof.
  intros Hm Hs.
  assert (Hsub : unexpired (<[m := s']> z) c ⊆ <[m := s']> (unexpired z c)).
  { apply map_subseteq_spec. intros m' s1. unfold unexpired. rewrite map_lookup_filter_Some.
    destruct (decide (m' = m)) as [->|Hne].
    - rewrite !lookup_insert_eq. tauto.
    - rewrite !lookup_insert_ne by done. rewrite map_lookup_filter_Some. tauto. }
  apply map_subseteq_size in Hsub. etrans; [exact Hsub|].
  assert (Hin : unexpired z c !! m = Some s) by (apply map_lookup_filter_Some; done).
  rewrite map_size_insert_Some; [done|]. by rewrite Hin.
Qed.

Section Pair.
Context `{Redis Db} (K L : string) (HKL : K <> L) (T : Z) (HT : 0 < T).
Implicit Types (db : Db) (z : zset) (e : option Z).

(** The slots and the live leases, with the expiry of their keys. *)
Definition pair_at (db : Db) (z : zset) (e : option Z) (z' : zset) (e' : option Z) : Prop :=
  peek db K = zset_entry z e /\ peek db L = zset_entry z' e'.

Definition holders (z z' : zset) (now : Z) : Z :=
  count (unexpired z (now - T)) + count (unexpired z' (now - 60)).

Lemma swp_slots f c (Q : res Reply -> Db -> Prop) db z e z' e' :
  pair_at db z e z' e' -> key_of c = K -> (forall en, effect (server_ms db) c en = on_zset en f) ->
  (forall db', pair_at db' (f z).1 (if decide (z = ∅) then None else e) z' e' ->
     micros db' = micros db -> Q (reply_res (f z).2) db') ->
  swp (call c) Q db.
Proof.
  intros [Hz Hz'] Hk Hf HQ. eapply swp_call; [by rewrite Hk, Hz, Hf, on_zset_entry|].
  intros db' (Hk' & Ho & Hm). rewrite Hk in *. apply HQ; [|done].
  split; [done|]. by rewrite Ho.
Qed.

Lemma swp_leases f c (Q : res Reply -> Db -> Prop) db z e z' e' :
  pair_at db z e z' e' -> key_of c = L -> (forall en, effect (server_ms db) c en = on_zset en f) ->
  (forall db', pair_at db' z e (f z').1 (if decide (z' = ∅) then None else e') ->
     micros db' = micros db -> Q (reply_res (f z').2) db') ->
  swp (call c) Q db.
Proof.
  intros [Hz Hz'] Hk Hf HQ. eapply swp_call; [by rewrite Hk, Hz', Hf, on_zset_entry|].
  intros db' (Hk' & Ho & Hm). rewrite Hk in *. apply HQ; [|done].
  split; [|done]. by rewrite Ho.
Qed.

Lemma swp_other c (Q : res Reply -> Db -> Prop) db z e z' e' :
  pair_at db z e z' e' -> key_of c <> K -> key_of c <> L ->
  (forall r db', pair_at db' z e z' e' -> micros db' = micros db -> Q r db') ->
  swp (call c) Q db.
Proof.
  intros [Hz Hz'] HK HL HQ. eapply swp_call; [apply surjective_pairing|].
  intros db' (Hk' & Ho & Hm). apply HQ; [|done]. split; by rewrite Ho by congruence.
Qed.

(** An expiry that outlasts what was admitted until a time. *)
Definition outlasts (e : option Z) (t : Z) : Prop :=
  match e with Some x => 1000 * (t + T) <= x | None => True end.

(** What a step from [z], [e], [z'], [e'] may do: at most [M] unexpired holders
unless there were more, no slot lost that was not released, and no earlier expiry. *)
Definition stepped (M : Z) (released : string -> Prop) (z : zset) (e : option Z) (z' : zset) (db' : Db)
    : Prop :=
  let now := server_s db' in
  exists z2 e2 z2' e2', pair_at db' z2 e2 z2' e2' /\
    holders z2 z2' now <= Z.max (holders z z' now) M /\
    (forall r s, ~ released r -> z !! r = Some s -> now - T < s -> s <= now ->
       exists s2, z2 !! r = Some s2 /\ s <= s2 <= now) /\
    (forall t, t <= now -> outlasts e t -> outlasts e2 t).

(** The same for a state that only lost expired members. *)
Definition pruned (db : Db) (z : zset) (e : option Z) (z' : zset) (db' : Db) : Prop :=
  let now := server_s db in micros db' = micros db /\
  exists z2 e2 z2' e2', pair_at db' z2 e2 z2' e2' /\
    (z2 = z \/ z2 = unexpired z (now - T)) /\ (e2 = e \/ e2 = None) /\
    (z2' = z' \/ z2' = unexpired z' (now - 60)).

Lemma now_same db db' : micros db' = micros db -> server_s db' = server_s db.
Proof. unfold server_s. by intros ->. Qed.

Lemma outlasts_none t : outlasts None t.
Proof. done. Qed.

Lemma outlasts_set db t : t <= server_s db -> outlasts (Some (server_ms db + 1000 * T)) t.
Proof.
  unfold outlasts, server_s, server_ms. intros Ht.
  assert (micros db / 1000000 = micros db / 1000 / 1000) by (rewrite Z.div_div; done).
  pose proof (Z.mul_div_le (micros db / 1000) 1000). lia.
Qed.

Lemma stepped_shrink M released db z e z' db' z2 e2 z2' e2' :
  micros db' = micros db -> pair_at db' z2 e2 z2' e2' ->
  (size (unexpired z2 (server_s db - T)) <= size (unexpired z (server_s db - T)))%nat ->
  (size (unexpired z2' (server_s db - 60)) <= size (unexpired z' (server_s db - 60)))%nat ->
  (forall r s, ~ released r -> z !! r = Some s -> server_s db - T < s -> z2 !! r = Some s) ->
  (forall t, t <= server_s db -> outlasts e t -> outlasts e2 t) ->
  stepped M released z e z' db'.
Proof.
  intros Hm Hp Hz Hz' Hkeep He. pose proof (now_same _ _ Hm) as Hnow.
  exists z2, e2, z2', e2'. rewrite Hnow. split; [done|]. split; [|split; [|done]].
  - unfold holders, count. lia.
  - intros r s Hr Hs Ht Hle. exists s. split; [by apply Hkeep|lia].
Qed.

Lemma stepped_pruned M released db z e z' db' : pruned db z e z' db' -> stepped M released z e z' db'.
Proof.
  intros (Hm & z2 & e2 & z2' & e2' & Hp & Hz & He & Hz').
  eapply (stepped_shrink M released db); [done|exact Hp| | | |].
  - destruct Hz as [->| ->]; [done|]. by rewrite unexpired_twice by lia.
  - destruct Hz' as [->| ->]; [done|]. by rewrite unexpired_twice by lia.
  - intros r s _ Hr Hs. destruct Hz as [->| ->]; [done|]. by apply map_lookup_filter_Some.
  - intros t _ Ht. by destruct He as [->| ->].
Qed.

(** Two commands of the same kind on the slots. *)
Lemma prune_slots c (Q : res Reply -> Db -> Prop) db z e z' e' :
  pair_at db z e z' e' ->
  (forall r db' e1, pair_at db' (unexpired z c) e1 z' e' -> (e1 = e \/ e1 = None) ->
     micros db' = micros db -> Q (Ok (Int r)) db') ->
  swp (call (ZREMRANGEBYSCORE K c)) Q db.
Proof.
  intros Hp HQ. eapply swp_slots; [exact Hp|done|cbn; done|]. intros db' Hp' Hm. cbn in Hp' |- *.
  eapply HQ; [exact Hp'| |done]. case_decide; auto.
Qed.

Lemma prune_leases c (Q : res Reply -> Db -> Prop) db z e z' e' :
  pair_at db z e z' e' ->
  (forall r db' e1', pair_at db' z e (unexpired z' c) e1' -> micros db' = micros db ->
     Q (Ok (Int r)) db') ->
  swp (call (ZREMRANGEBYSCORE L c)) Q db.
Proof.
  intros Hp HQ. eapply swp_leases; [exact Hp|done|cbn; done|]. intros db' Hp' Hm. cbn in Hp' |- *.
  eapply HQ; [exact Hp'|done].
Qed.

(** Reading one of the two keys changes nothing. *)
Lemma read_slots f c (Q : res Reply -> Db -> Prop) db z e z' e' :
  pair_at db z e z' e' -> key_of c = K ->
  (forall en, effect (server_ms db) c en = on_zset en (fun z => (z, f z))) ->
  (forall db', pair_at db' z (if decide (z = ∅) then None else e) z' e' -> micros db' = micros db ->
     Q (reply_res (f z)) db') ->
  swp (call c) Q db.
Proof. intros Hp Hk Hf HQ. eapply swp_slots; [exact Hp|done|exact Hf|]. intros db'. apply HQ. Qed.

Lemma empty_expiry z e : zset_entry z (if decide (z = ∅) then None else e) = zset_entry z e.
Proof. case_decide; [subst|]; done. Qed.

Lemma pair_at_expiry db z e z' e' :
  pair_at db z (if decide (z = ∅) then None else e) z' e' -> pair_at db z e z' e'.
Proof. unfold pair_at. by rewrite empty_expiry. Qed.

Lemma pair_at_expiry' db z e z' e' :
  pair_at db z e z' (if decide (z' = ∅) then None else e') -> pair_at db z e z' e'.
Proof. unfold pair_at. by rewrite empty_expiry. Qed.

Lemma card_slots (Q : res Z -> Db -> Prop) db z e z' e' :
  pair_at db z e z' e' ->
  (forall db', pair_at db' z e z' e' -> micros db' = micros db -> Q (Ok (count z)) db') ->
  swp (call_int (ZCARD K)) Q db.
Proof.
  intros Hp HQ. unfold call_int. apply swp_bind. eapply swp_slots; [exact Hp|done|cbn; done|].
  intros db' Hp' Hm. cbn in Hp' |- *. apply swp_ret, HQ; [by apply pair_at_expiry|done].
Qed.

Lemma card_leases (Q : res Z -> Db -> Prop) db z e z' e' :
  pair_at db z e z' e' ->
  (forall db', pair_at db' z e z' e' -> micros db' = micros db -> Q (Ok (count z')) db') ->
  swp (call_int (ZCARD L)) Q db.
Proof.
  intros Hp HQ. unfold call_int. apply swp_bind. eapply swp_leases; [exact Hp|done|cbn; done|].
  intros db' Hp' Hm. cbn in Hp' |- *. apply swp_ret, HQ; [by apply pair_at_expiry'|done].
Qed.

Lemma member_slots m (Q : res bool -> Db -> Prop) db z e z' e' :
  pair_at db z e z' e' ->
  (forall db', pair_at db' z e z' e' -> micros db' = micros db ->
     Q (Ok (bool_decide (is_Some (z !! m)))) db') ->
  swp (is_member K m) Q db.
Proof.
  intros Hp HQ. unfold is_member. apply swp_bind. eapply swp_slots; [exact Hp|done|cbn; done|].
  intros db' Hp' Hm. cbn in Hp' |- *. specialize (HQ db' (pair_at_expiry _ _ _ _ _ Hp') Hm).
  destruct (z !! m); exact HQ.
Qed.

Lemma member_leases m (Q : res bool -> Db -> Prop) db z e z' e' :
  pair_at db z e z' e' ->
  (forall db', pair_at db' z e z' e' -> micros db' = micros db ->
     Q (Ok (bool_decide (is_Some (z' !! m)))) db') ->
  swp (is_member L m) Q db.
Proof.
  intros Hp HQ. unfold is_member. apply swp_bind. eapply swp_leases; [exact Hp|done|cbn; done|].
  intros db' Hp' Hm. cbn in Hp' |- *. specialize (HQ db' (pair_at_expiry' _ _ _ _ _ Hp') Hm).
  destruct (z' !! m); exact HQ.
Qed.

(** [ZADD] and [EXPIRE]: the member with the time, and the key for its lifetime. *)
Lemma of_zset_insert m s z : of_zset (<[m := s]> z) = Some (RZSet (<[m := s]> z)).
Proof. unfold of_zset. rewrite decide_False; [done|]. apply insert_non_empty. Qed.

Lemma admit_slots m t ttl (Q : res unit -> Db -> Prop) db z e z' e' :
  pair_at db z e z' e' -> 0 < ttl ->
  (forall db', pair_at db' (<[m := t]> z) (Some (server_ms db + 1000 * ttl)) z' e' ->
     micros db' = micros db -> Q (Ok tt) db') ->
  swp (admit_member K t ttl m) Q db.
Proof.
  intros Hp Httl HQ. unfold admit_member. apply swp_bind.
  eapply swp_slots; [exact Hp|done|cbn; done|]. intros db1 [Hk1 Hl1] Hm1. cbn in Hk1 |- *.
  apply swp_bind. eapply (swp_call _ (zset_entry (<[m := t]> z) (Some (server_ms db1 + 1000 * ttl))) (Int 1)).
  - cbn [effect key_of EXPIRE]. rewrite Hk1. unfold zset_entry, entry_of. rewrite of_zset_insert.
    cbn. by rewrite (proj2 (Z.leb_gt _ 0)) by lia.
  - intros db2 (Hk2 & Ho2 & Hm2). cbn in Hk2, Ho2 |- *. apply swp_ret, HQ; [|congruence].
    unfold server_ms in *. rewrite Hm1 in Hk2. split; [done|]. by rewrite Ho2.
Qed.

Lemma admit_leases m t (Q : res Reply -> Db -> Prop) db z e z' e' :
  pair_at db z e z' e' ->
  (forall r db' e1', pair_at db' z e (<[m := t]> z') e1' -> micros db' = micros db -> Q (Ok (Int r)) db') ->
  swp (call (ZADD L t m)) Q db.
Proof.
  intros Hp HQ. eapply swp_leases; [exact Hp|done|cbn; done|]. intros db' Hp' Hm. cbn in Hp' |- *.
  eapply HQ; [exact Hp'|done].
Qed.

Lemma expire_leases ttl (Q : res Reply -> Db -> Prop) db z e z' e' :
  pair_at db z e z' e' -> 0 < ttl ->
  (forall r db' e1', pair_at db' z e z' e1' -> micros db' = micros db -> Q (Ok (Int r)) db') ->
  swp (call (EXPIRE L ttl)) Q db.
Proof.
  intros [Hk Hl] Httl HQ. destruct (decide (z' = ∅)) as [->|Hz].
  - eapply (swp_call _ (None, None) (Int 0)); [cbn [effect key_of EXPIRE]; by rewrite Hl|].
    intros db' (Hl' & Ho & Hm). eapply (HQ 0 db' None); [|done]. split; [by rewrite Ho|done].
  - assert (Hof : of_zset z' = Some (RZSet z')) by (unfold of_zset; by rewrite decide_False).
    eapply (swp_call _ (zset_entry z' (Some (server_ms db + 1000 * ttl))) (Int 1)).
    + cbn [effect key_of EXPIRE]. rewrite Hl. unfold zset_entry, entry_of. rewrite Hof. cbn.
      by rewrite (proj2 (Z.leb_gt _ 0)) by lia.
    + intros db' (Hl' & Ho & Hm). eapply (HQ 1); [|done]. split; [by rewrite Ho|exact Hl'].
Qed.

(** *** The scripts on the pair *)

Lemma acquire_spec max req (Q : res (Z * Z) -> Db -> Prop) db z e z' e' :
  let now := server_s db in
  let z1 := unexpired z (now - T) in
  let z1' := unexpired z' (now - 60) in
  pair_at db z e z' e' ->
  (forall db' e1', pair_at db' (<[req := now]> z1) (Some (server_ms db + 1000 * T)) z1' e1' ->
     micros db' = micros db -> is_Some (z1 !! req) \/ holders z z' now < max -> Q (Ok (1, now)) db') ->
  (forall db' e1 e1', pair_at db' z1 e1 z1' e1' -> e1 = e \/ e1 = None -> micros db' = micros db ->
     z1 !! req = None -> max <= holders z z' now -> Q (Ok (0, now)) db') ->
  swp (acquireScript K L max T req) Q db.
Proof.
  intros now z1 z1' Hp Hyes Hno. unfold acquireScript.
  apply swp_bind. unfold swp at 1, time_s. cbn [fst snd]. fold now.
  apply swp_bind. eapply prune_slots; [exact Hp|]. intros r1 db1 e1 Hp1 He1 Hm1.
  apply swp_bind. eapply prune_leases; [exact Hp1|]. intros r2 db2 e2' Hp2 Hm2.
  apply swp_bind. eapply member_slots; [exact Hp2|]. intros db3 Hp3 Hm3. fold z1.
  assert (Hms : server_ms db3 = server_ms db) by (unfold server_ms; congruence).
  case_bool_decide as Hin.
  - apply swp_bind. eapply admit_slots; [exact Hp3|done|]. intros db4 Hp4 Hm4. rewrite Hms in Hp4.
    apply swp_ret. eapply Hyes; [exact Hp4|congruence|by left].
  - apply swp_bind. eapply card_slots; [exact Hp3|]. intros db4 Hp4 Hm4.
    apply swp_bind. eapply card_leases; [exact Hp4|]. intros db5 Hp5 Hm5. fold z1 z1'.
    change (count z1 + count z1') with (holders z z' now).
    destruct (Z.ltb_spec (holders z z' now) max).
    + apply swp_bind. eapply admit_slots; [exact Hp5|done|]. intros db6 Hp6 Hm6.
      assert (Hms5 : server_ms db5 = server_ms db) by (unfold server_ms; congruence).
      rewrite Hms5 in Hp6. apply swp_ret. eapply Hyes; [exact Hp6|congruence|by right].
    + apply swp_ret. eapply Hno; [exact Hp5|done|congruence| |done].
      by destruct (z1 !! req) eqn:E; [destruct Hin|].
Qed.

Lemma acquire_stepped M max req db z e z' e' : pair_at db z e z' e' -> max <= M ->
  swp (acquireScript K L max T req) (fun _ => stepped M (fun _ => False) z e z') db.
Proof.
  intros Hp Hmax. set (now := server_s db). eapply acquire_spec; [exact Hp|..].
  - intros db' e1' Hp' Hm Hroom. pose proof (now_same _ _ Hm) as Hnow. fold now in Hp', Hroom, Hnow.
    eexists _, _, _, _. split; [exact Hp'|]. rewrite Hnow. split; [|split].
    + unfold holders, count. rewrite unexpired_twice by lia.
      destruct Hroom as [[s Hs]|Hroom].
      * assert (Hold : now - T < s) by (apply map_lookup_filter_Some in Hs as [_ Ho]; exact Ho).
        pose proof (unexpired_refresh _ (now - T) req s now Hs Hold) as Hr.
        rewrite unexpired_twice in Hr by lia. lia.
      * pose proof (unexpired_insert (unexpired z (now - T)) (now - T) req now) as Hi.
        rewrite unexpired_twice in Hi by lia. unfold holders, count in Hroom. lia.
    + intros r s _ Hr Ht Hle. destruct (decide (r = req)) as [->|Hne].
      * exists now. rewrite lookup_insert_eq. split; [done|lia].
      * exists s. rewrite lookup_insert_ne by done. split; [|lia]. by apply map_lookup_filter_Some.
    + intros t Ht _. by apply outlasts_set.
  - intros db' e1 e1' Hp' He1 Hm _ _. apply (stepped_pruned _ _ db). split; [done|].
    eexists _, _, _, _. split; [exact Hp'|]. auto.
Qed.

Lemma count_pruned db z e z' e' : pair_at db z e z' e' ->
  swp (getCountScript K L T) (fun r db' => r = Ok (holders z z' (server_s db)) /\ pruned db z e z' db') db.
Proof.
  intros Hp. unfold getCountScript. apply swp_bind. unfold swp at 1, time_s. cbn [fst snd].
  apply swp_bind. eapply prune_slots; [exact Hp|]. intros r1 db1 e1 Hp1 He1 Hm1.
  apply swp_bind. eapply prune_leases; [exact Hp1|]. intros r2 db2 e2' Hp2 Hm2.
  apply swp_bind. eapply card_slots; [exact Hp2|]. intros db3 Hp3 Hm3.
  apply swp_bind. eapply card_leases; [exact Hp3|]. intros db4 Hp4 Hm4.
  apply swp_ret. split; [done|]. split; [congruence|]. eexists _, _, _, _. split; [exact Hp4|]. auto.
Qed.

(** A command on another key, whatever it answers. *)
Lemma other_then {A} c (k : Reply -> Script Db A) (P : Db -> Prop) db0 db z e z' e' :
  pair_at db z e z' e' -> micros db = micros db0 -> key_of c <> K -> key_of c <> L ->
  (forall db', pair_at db' z e z' e' -> micros db' = micros db0 -> P db') ->
  (forall r db', pair_at db' z e z' e' -> micros db' = micros db0 -> swp (k r) (fun _ => P) db') ->
  swp (sbind (call c) k) (fun _ => P) db.
Proof.
  intros Hp Hm HK HL Herr Hok. apply swp_bind. eapply swp_other; [exact Hp|done|done|].
  intros [r|er] db' Hp' Hm'; rewrite Hm in Hm'; auto.
Qed.

Lemma other_int_then {A} c (k : Z -> Script Db A) (P : Db -> Prop) db0 db z e z' e' :
  pair_at db z e z' e' -> micros db = micros db0 -> key_of c <> K -> key_of c <> L ->
  (forall db', pair_at db' z e z' e' -> micros db' = micros db0 -> P db') ->
  (forall r db', pair_at db' z e z' e' -> micros db' = micros db0 -> swp (k r) (fun _ => P) db') ->
  swp (sbind (call_int c) k) (fun _ => P) db.
Proof.
  intros Hp Hm HK HL Herr Hok. apply swp_bind. unfold call_int. apply swp_bind.
  eapply swp_other; [exact Hp|done|done|].
  intros [r|er] db' Hp' Hm'; rewrite Hm in Hm'; [|auto]. destruct r; try (by apply Herr).
  by apply swp_ret, Hok.
Qed.

Lemma other_member_then {A} key m (k : bool -> Script Db A) (P : Db -> Prop) db0 db z e z' e' :
  pair_at db z e z' e' -> micros db = micros db0 -> key <> K -> key <> L ->
  (forall db', pair_at db' z e z' e' -> micros db' = micros db0 -> P db') ->
  (forall b db', pair_at db' z e z' e' -> micros db' = micros db0 -> swp (k b) (fun _ => P) db') ->
  swp (sbind (is_member key m) k) (fun _ => P) db.
Proof.
  intros Hp Hm HK HL Herr Hok. apply swp_bind. unfold is_member. apply swp_bind.
  eapply swp_other; [exact Hp|done|done|].
  intros [r|er] db' Hp' Hm'; rewrite Hm in Hm'; [|auto]. by apply swp_ret, Hok.
Qed.

(** The state of the leases after the prune, and after a new lease for which there
was room. *)
Lemma lease_pruned M db z e z' db' e1' :
  pair_at db' z e (unexpired z' (server_s db - 60)) e1' -> micros db' = micros db ->
  stepped M (fun _ => False) z e z' db'.
Proof.
  intros Hp Hm. apply (stepped_pruned _ _ db). split; [done|].
  eexists _, _, _, _. split; [exact Hp|]. auto.
Qed.

Lemma lease_added M db z e z' lease db' e1' :
  let z1' := unexpired z' (server_s db - 60) in
  count z + count z1' < M ->
  pair_at db' z e (<[lease := server_s db]> z1') e1' -> micros db' = micros db ->
  stepped M (fun _ => False) z e z' db'.
Proof.
  intros z1' Hroom Hp Hm. pose proof (now_same _ _ Hm) as Hnow. set (now := server_s db) in *.
  eexists _, _, _, _. split; [exact Hp|]. rewrite Hnow. split; [|split].
  - pose proof (unexpired_insert z1' (now - 60) lease now) as Hi.
    unfold z1' in Hi at 2. rewrite unexpired_twice in Hi by lia. fold z1' in Hi.
    pose proof (unexpired_size z (now - T)). unfold holders, count in *. lia.
  - intros r s _ Hr Ht Hle. exists s. split; [done|lia].
  - auto.
Qed.

(** A lease that counts for this pair as its account's; the keys of the user and of
the API key are others. *)
Lemma account_lease_stepped M aMax uMax uR uL api lease repl db z e z' e' :
  pair_at db z e z' e' -> 0 < aMax -> aMax + (if repl =? 1 then 1 else 0) <= M ->
  uR <> K /\ uR <> L -> uL <> K /\ uL <> L -> api <> K /\ api <> L ->
  swp (acquireLiveLeaseScript K L uR uL api aMax uMax 60 lease repl)
    (fun _ => stepped M (fun _ => False) z e z') db.
Proof.
  intros Hp Hpos HM [HuRK HuRL] [HuLK HuLL] [HaK HaL]. set (now := server_s db).
  unfold acquireLiveLeaseScript. apply swp_bind. unfold swp at 1, time_s. cbn [fst snd]. fold now.
  apply swp_bind. eapply prune_leases; [exact Hp|]. intros r1 db1 e1 Hp1 Hm1.
  set (z1' := unexpired z' (now - 60)) in *.
  eapply (other_then _ _ _ db); [exact Hp1|done|done|done|intros; by eapply lease_pruned|].
  intros _ db2 Hp2 Hm2.
  eapply (other_then _ _ _ db); [exact Hp2|done|done|done|intros; by eapply lease_pruned|].
  intros _ db3 Hp3 Hm3.
  apply swp_bind. eapply member_leases; [exact Hp3|]. intros db4 Hp4 Hm4. rewrite Hm3 in Hm4.
  case_bool_decide; [by eapply swp_ret, lease_pruned|].
  apply swp_bind. eapply card_slots; [exact Hp4|]. intros db5 Hp5 Hm5. rewrite Hm4 in Hm5.
  apply swp_bind. eapply card_leases; [exact Hp5|]. intros db6 Hp6 Hm6. rewrite Hm5 in Hm6.
  eapply (other_int_then _ _ _ db); [exact Hp6|done|done|done|intros; by eapply lease_pruned|].
  intros u1 db7 Hp7 Hm7.
  eapply (other_int_then _ _ _ db); [exact Hp7|done|done|done|intros; by eapply lease_pruned|].
  intros u2 db8 Hp8 Hm8. cbv zeta. rewrite (proj2 (Z.ltb_lt 0 aMax)) by done. cbn [andb].
  destruct (Z.leb_spec (aMax + (if repl =? 1 then 1 else 0)) (count z + count z1')) as [|Hroom];
    [by eapply swp_ret, lease_pruned|].
  match goal with |- swp (if ?c then _ else _) _ _ => destruct c end; [by eapply swp_ret, lease_pruned|].
  assert (HroomM : count z + count z1' < M) by lia.
  apply swp_bind. eapply admit_leases; [exact Hp8|]. intros r9 db9 e9 Hp9 Hm9. rewrite Hm8 in Hm9.
  eapply (other_then _ _ _ db); [exact Hp9|done|done|done|intros; by eapply lease_added|].
  intros _ db10 Hp10 Hm10.
  eapply (other_then _ _ _ db); [exact Hp10|done|done|done|intros; by eapply lease_added|].
  intros _ db11 Hp11 Hm11.
  apply swp_bind. eapply expire_leases; [exact Hp11|done|]. intros r12 db12 e12 Hp12 Hm12.
  rewrite Hm11 in Hm12.
  eapply (other_then _ _ _ db); [exact Hp12|done|done|done|intros; by eapply lease_added|].
  intros _ db13 Hp13 Hm13.
  eapply (other_then _ _ _ db); [exact Hp13|done|done|done|intros; by eapply lease_added|].
  intros _ db14 Hp14 Hm14. by eapply swp_ret, lease_added.
Qed.

Lemma nothing_stepped M released db z e z' e' db' :
  pair_at db' z e z' e' -> micros db' = micros db -> stepped M released z e z' db'.
Proof.
  intros Hp Hm. apply (stepped_pruned _ _ db). split; [done|].
  eexists _, _, _, _. split; [exact Hp|]. auto.
Qed.

(** The same lease as its user's. *)
Lemma user_lease_stepped M aMax uMax aR aL api lease repl db z e z' e' :
  pair_at db z e z' e' -> 0 < uMax -> uMax + (if repl =? 1 then 1 else 0) <= M ->
  aR <> K /\ aR <> L -> aL <> K /\ aL <> L -> api <> K /\ api <> L ->
  swp (acquireLiveLeaseScript aR aL K L api aMax uMax 60 lease repl)
    (fun _ => stepped M (fun _ => False) z e z') db.
Proof.
  intros Hp Hpos HM [HaRK HaRL] [HaLK HaLL] [HaK HaL]. set (now := server_s db).
  unfold acquireLiveLeaseScript. apply swp_bind. unfold swp at 1, time_s. cbn [fst snd]. fold now.
  eapply (other_then _ _ _ db); [exact Hp|done|done|done|intros; by eapply nothing_stepped|].
  intros _ db1 Hp1 Hm1.
  apply swp_bind. eapply prune_leases; [exact Hp1|]. intros r2 db2 e2 Hp2 Hm2. rewrite Hm1 in Hm2.
  set (z1' := unexpired z' (now - 60)) in *.
  eapply (other_then _ _ _ db); [exact Hp2|done|done|done|intros; by eapply lease_pruned|].
  intros _ db3 Hp3 Hm3.
  eapply (other_member_then _ _ _ _ db); [exact Hp3|done|done|done|intros; by eapply lease_pruned|].
  intros held db4 Hp4 Hm4. destruct held; [by eapply swp_ret, lease_pruned|].
  eapply (other_int_then _ _ _ db); [exact Hp4|done|done|done|intros; by eapply lease_pruned|].
  intros a1 db5 Hp5 Hm5.
  eapply (other_int_then _ _ _ db); [exact Hp5|done|done|done|intros; by eapply lease_pruned|].
  intros a2 db6 Hp6 Hm6.
  apply swp_bind. eapply card_slots; [exact Hp6|]. intros db7 Hp7 Hm7. rewrite Hm6 in Hm7.
  apply swp_bind. eapply card_leases; [exact Hp7|]. intros db8 Hp8 Hm8. rewrite Hm7 in Hm8.
  cbv zeta.
  match goal with |- swp (if ?c then _ else _) _ _ => destruct c end; [by eapply swp_ret, lease_pruned|].
  rewrite (proj2 (Z.ltb_lt 0 uMax)) by done. cbn [andb].
  destruct (Z.leb_spec (uMax + (if repl =? 1 then 1 else 0)) (count z + count z1')) as [|Hroom];
    [by eapply swp_ret, lease_pruned|].
  assert (HroomM : count z + count z1' < M) by lia.
  eapply (other_then _ _ _ db); [exact Hp8|done|done|done|intros; by eapply lease_pruned|].
  intros _ db9 Hp9 Hm9.
  apply swp_bind. eapply admit_leases; [exact Hp9|]. intros r10 db10 e10 Hp10 Hm10.
  rewrite Hm9 in Hm10.
  eapply (other_then _ _ _ db); [exact Hp10|done|done|done|intros; by eapply lease_added|].
  intros _ db11 Hp11 Hm11.
  eapply (other_then _ _ _ db); [exact Hp11|done|done|done|intros; by eapply lease_added|].
  intros _ db12 Hp12 Hm12.
  apply swp_bind. eapply expire_leases; [exact Hp12|done|]. intros r13 db13 e13 Hp13 Hm13.
  rewrite Hm12 in Hm13.
  eapply (other_then _ _ _ db); [exact Hp13|done|done|done|intros; by eapply lease_added|].
  intros _ db14 Hp14 Hm14. by eapply swp_ret, lease_added.
Qed.

(** *** The refresh of a live lease *)

(** The leases after some prunes and refreshes of [lease]. *)
Definition refreshed (lease : string) (db0 : Db) (z : zset) (e : option Z) (z' : zset) (db : Db) : Prop :=
  micros db = micros db0 /\
  exists z1' e1', pair_at db z e z1' e1' /\
    (size (unexpired z1' (server_s db0 - 60)) <= size (unexpired z' (server_s db0 - 60)))%nat.

Lemma refreshed_stepped M lease db0 z e z' db :
  refreshed lease db0 z e z' db -> stepped M (fun _ => False) z e z' db.
Proof.
  intros (Hm & z1' & e1' & Hp & Hsize). eapply (stepped_shrink _ _ db0); [done|exact Hp|done|done| |done].
  by intros r s _ Hr _.
Qed.

(** And with the lease among them. *)
Definition held (lease : string) (db0 : Db) (z : zset) (e : option Z) (z' : zset) (db : Db) : Prop :=
  micros db = micros db0 /\
  exists z1' e1' s, pair_at db z e z1' e1' /\
    (size (unexpired z1' (server_s db0 - 60)) <= size (unexpired z' (server_s db0 - 60)))%nat /\
    z1' !! lease = Some s /\ server_s db0 - 60 < s.

Lemma held_refreshed lease db0 z e z' db : held lease db0 z e z' db -> refreshed lease db0 z e z' db.
Proof. intros (Hm & z1' & e1' & s & Hp & Hsize & _). split; [done|]. eauto. Qed.

(** Which of the two after some keys. *)
Definition refresh_state (seen : bool) lease db0 z e z' db : Prop :=
  if seen then held lease db0 z e z' db else refreshed lease db0 z e z' db.

Lemma refresh_state_weak seen lease db0 z e z' db :
  refresh_state seen lease db0 z e z' db -> refreshed lease db0 z e z' db.
Proof. destruct seen; [apply held_refreshed|done]. Qed.

(** A command on another key. *)
Lemma refresh_state_other seen lease db0 z e z' c db :
  key_of c <> K -> key_of c <> L -> refresh_state seen lease db0 z e z' db ->
  swp (call c) (fun _ => refresh_state seen lease db0 z e z') db.
Proof.
  intros HK HL Hs. destruct seen.
  - destruct Hs as (Hm & z1' & e1' & s & Hp & Hrest). eapply swp_other; [exact Hp|done|done|].
    intros r db' Hp' Hm'. split; [congruence|]. eauto 7.
  - destruct Hs as (Hm & z1' & e1' & Hp & Hrest). eapply swp_other; [exact Hp|done|done|].
    intros r db' Hp' Hm'. split; [congruence|]. eauto.
Qed.

Lemma lease_everywhere_spec keys seen lease db0 z e z' db :
  K ∉ keys -> refresh_state seen lease db0 z e z' db ->
  swp (lease_everywhere keys (server_s db0 - 60) lease)
    (fun r db' => refreshed lease db0 z e z' db' /\
       (r = Ok true -> refresh_state (seen || bool_decide (L ∈ keys)) lease db0 z e z' db')) db.
Proof.
  revert seen db; induction keys as [|k keys IH]; intros seen db HK Hs.
  - apply swp_ret. split; [by eapply refresh_state_weak|]. intros _.
    rewrite bool_decide_eq_false_2 by apply not_elem_of_nil. by rewrite orb_false_r.
  - apply not_elem_of_cons in HK as [Hk HK]. cbn [lease_everywhere].
    destruct (decide (k = L)) as [->|HkL].
    + apply refresh_state_weak in Hs as (Hm & z1' & e1' & Hp & Hsize).
      apply swp_bind. eapply prune_leases; [exact Hp|]. intros r1 db1 e1 Hp1 Hm1.
      apply swp_bind. eapply member_leases; [exact Hp1|]. intros db2 Hp2 Hm2.
      rewrite Hm1, Hm in Hm2.
      assert (Hsize2 : (size (unexpired (unexpired z1' (server_s db0 - 60)) (server_s db0 - 60)) <=
                        size (unexpired z' (server_s db0 - 60)))%nat) by (rewrite unexpired_twice; lia).
      destruct (decide (is_Some (unexpired z1' (server_s db0 - 60) !! lease))) as [Hin|Hin];
        [rewrite (bool_decide_eq_true_2 _ Hin)|rewrite (bool_decide_eq_false_2 _ Hin)].
      * destruct Hin as [s Hin]. eapply swp_mono; [apply (IH true); [done|]|].
        -- split; [done|]. eexists _, _, s. split; [exact Hp2|]. split; [done|]. split; [done|].
           by apply map_lookup_filter_Some in Hin as [_ Hin].
        -- intros r db3 [Hr Ht]. split; [done|]. intros Hok. specialize (Ht Hok).
           rewrite (bool_decide_eq_true_2 (L ∈ L :: keys)) by constructor. by rewrite orb_true_r.
      * apply swp_ret. split; [|done]. split; [done|]. eauto.
    + apply swp_bind. eapply swp_mono; [apply (refresh_state_other seen); [done..|exact Hs]|].
      intros [r1|er] db1 Hs1; [|split; [by eapply refresh_state_weak|done]].
      apply swp_bind. unfold is_member. apply swp_bind.
      eapply swp_mono; [apply (refresh_state_other seen); [done..|exact Hs1]|].
      intros [r2|er] db2 Hs2; [|split; [by eapply refresh_state_weak|done]].
      apply swp_ret.
      assert (Hno : swp (sret false) (fun r db' => refreshed lease db0 z e z' db' /\
        (r = Ok true -> refresh_state (seen || bool_decide (L ∈ k :: keys)) lease db0 z e z' db')) db2)
        by (apply swp_ret; split; [by eapply refresh_state_weak|done]).
      destruct r2; try exact Hno;
        (eapply swp_mono; [apply (IH seen); [done|exact Hs2]|]; intros r db3 [Hr Ht]; (split; [done|]);
         intros Hok; specialize (Ht Hok);
         rewrite (bool_decide_ext (L ∈ k :: keys) (L ∈ keys)) by (rewrite elem_of_cons; naive_solver);
         exact Ht).
Qed.

Lemma admit_everywhere_spec keys seen lease db0 z e z' db :
  K ∉ keys -> (L ∈ keys -> seen = true) -> refresh_state seen lease db0 z e z' db ->
  swp (admit_everywhere keys (server_s db0) 60 lease) (fun _ => refreshed lease db0 z e z') db.
Proof.
  revert db; induction keys as [|k keys IH]; intros db HK Hseen Hs.
  - apply swp_ret. by eapply refresh_state_weak.
  - apply not_elem_of_cons in HK as [Hk HK]. cbn [admit_everywhere]. unfold admit_member.
    assert (Hseen' : L ∈ keys -> seen = true) by (intros; apply Hseen; by constructor).
    apply swp_bind, swp_bind. destruct (decide (k = L)) as [->|HkL].
    + rewrite (Hseen ltac:(constructor)) in *.
      destruct Hs as (Hm & z1' & e1' & s & Hp & Hsize & Hin & Hlive).
      eapply admit_leases; [exact Hp|]. intros r1 db1 e1 Hp1 Hm1.
      apply swp_bind. eapply expire_leases; [exact Hp1|done|]. intros r2 db2 e2 Hp2 Hm2.
      apply swp_ret. apply IH; [done|done|]. split; [congruence|].
      eexists _, _, (server_s db0). split; [exact Hp2|]. split; [|split; [apply lookup_insert_eq|lia]].
      pose proof (unexpired_refresh z1' (server_s db0 - 60) lease s (server_s db0) Hin Hlive). lia.
    + eapply swp_mono; [apply (refresh_state_other seen); [done..|exact Hs]|].
      intros [r1|er] db1 Hs1; [|by eapply refresh_state_weak].
      apply swp_bind. eapply swp_mono; [apply (refresh_state_other seen); [done..|exact Hs1]|].
      intros [r2|er] db2 Hs2; [|by eapply refresh_state_weak].
      apply swp_ret. by apply IH.
Qed.

Lemma refresh_lease_stepped M keys lease db z e z' e' :
  pair_at db z e z' e' -> K ∉ keys ->
  swp (refreshLiveLeaseScript keys 60 lease) (fun _ => stepped M (fun _ => False) z e z') db.
Proof.
  intros Hp HK. unfold refreshLiveLeaseScript. apply swp_bind. unfold swp at 1, time_s. cbn [fst snd].
  assert (H0 : refresh_state false lease db z e z' db) by (split; [done|]; eauto).
  apply swp_bind. eapply swp_mono; [by apply (lease_everywhere_spec keys false lease db z e z')|].
  intros [[]|er] db1 [Hr Ht]; [|by eapply swp_ret, refreshed_stepped|by eapply refreshed_stepped].
  specialize (Ht eq_refl). apply swp_bind.
  eapply swp_mono; [eapply admit_everywhere_spec; [done| |exact Ht]|].
  - intros Hin. by rewrite bool_decide_eq_true_2.
  - intros [r|er] db2 Hs; [by eapply swp_ret, refreshed_stepped|by eapply refreshed_stepped].
Qed.

(** *** Removal and clean-up *)

Lemma expire_slots (Q : res Reply -> Db -> Prop) db z e z' e' :
  pair_at db z e z' e' ->
  (forall r db' e1, pair_at db' z e1 z' e' ->
     e1 = None \/ e1 = Some (server_ms db + 1000 * T) -> micros db' = micros db -> Q (Ok (Int r)) db') ->
  swp (call (EXPIRE K T)) Q db.
Proof.
  intros [Hk Hl] HQ. destruct (decide (z = ∅)) as [->|Hz].
  - eapply (swp_call _ (None, None) (Int 0)); [cbn [effect key_of EXPIRE]; by rewrite Hk|].
    intros db' (Hk' & Ho & Hm). eapply (HQ 0 db' None); [|by left|done]. split; [done|by rewrite Ho].
  - assert (Hof : of_zset z = Some (RZSet z)) by (unfold of_zset; by rewrite decide_False).
    eapply (swp_call _ (zset_entry z (Some (server_ms db + 1000 * T))) (Int 1)).
    + cbn [effect key_of EXPIRE]. rewrite Hk. unfold zset_entry, entry_of. rewrite Hof. cbn.
      by rewrite (proj2 (Z.leb_gt _ 0)) by lia.
    + intros db' (Hk' & Ho & Hm). eapply (HQ 1); [|by right|done]. split; [exact Hk'|by rewrite Ho].
Qed.

Lemma del_slots (Q : res Reply -> Db -> Prop) db z e z' e' :
  pair_at db z e z' e' ->
  (forall r db', pair_at db' ∅ None z' e' -> micros db' = micros db -> Q (Ok (Int r)) db') ->
  swp (call (DEL K)) Q db.
Proof.
  intros [Hk Hl] HQ. eapply swp_call; [cbn; done|]. intros db' (Hk' & Ho & Hm). cbn in *.
  apply HQ; [|done]. split; [done|by rewrite Ho].
Qed.

(** What the last commands of the clean-ups do: the key goes with its last member,
or lives on. *)
Lemma drop_or_expire {A} (a : A) M released db0 db z e z' z1 e1 z1' e1' :
  pair_at db z1 e1 z1' e1' -> micros db = micros db0 -> e1 = e \/ e1 = None ->
  (forall db' e2, (forall t, t <= server_s db0 -> outlasts e t -> outlasts e2 t) ->
     pair_at db' z1 e2 z1' e1' -> micros db' = micros db0 -> stepped M released z e z' db') ->
  swp (sbind (if count z1 =? 0 then call (DEL K) else call (EXPIRE K T)) (fun _ => sret a))
    (fun _ => stepped M released z e z') db.
Proof.
  intros Hp Hm He Hdone. apply swp_bind. destruct (Z.eqb_spec (count z1) 0) as [Hz|Hz].
  - assert (z1 = ∅) as -> by (apply map_size_empty_inv; unfold count in Hz; lia).
    eapply del_slots; [exact Hp|]. intros r db' Hp' Hm'. apply swp_ret.
    eapply Hdone; [|exact Hp'|congruence]. done.
  - eapply expire_slots; [exact Hp|]. intros r db' e2 Hp' He2 Hm'. apply swp_ret.
    eapply Hdone; [|exact Hp'|congruence]. intros t Ht _.
    destruct He2 as [->| ->]; [done|]. apply outlasts_set. by rewrite (now_same _ _ Hm).
Qed.

Lemma cleanup_stepped M db z e z' e' : pair_at db z e z' e' ->
  swp (cleanupExpiredSlotsScript K T) (fun _ => stepped M (fun _ => False) z e z') db.
Proof.
  intros Hp. unfold cleanupExpiredSlotsScript. apply swp_bind. unfold swp at 1, time_s. cbn [fst snd].
  apply swp_bind. eapply prune_slots; [exact Hp|]. intros r1 db1 e1 Hp1 He1 Hm1.
  apply swp_bind. eapply card_slots; [exact Hp1|]. intros db2 Hp2 Hm2. rewrite Hm1 in Hm2.
  assert (Hend : swp (sbind (if count (unexpired z (server_s db - T)) =? 0 then call (DEL K)
      else call (EXPIRE K T)) (fun _ => sret 1)) (fun _ => stepped M (fun _ => False) z e z') db2).
  { eapply (drop_or_expire 1 _ _ db); [exact Hp2|done|done|]. intros db' e2 He2 Hp' Hm'.
    eapply (stepped_shrink _ _ db); [done|exact Hp'| |done| |done].
    - by rewrite unexpired_twice by lia.
    - intros r s _ Hr Hs. by apply map_lookup_filter_Some. }
  destruct (count (unexpired z (server_s db - T)) =? 0); exact Hend.
Qed.

Lemma remove_slot_stepped M m db z e z' e' : pair_at db z e z' e' ->
  swp (call (ZREM K m)) (fun _ => stepped M (fun r => r = m) z e z') db.
Proof.
  intros Hp. eapply swp_slots; [exact Hp|done|cbn; done|]. intros db' Hp' Hm. cbn in Hp'.
  eapply (stepped_shrink _ _ db); [done|exact Hp'|apply unexpired_delete|done| |].
  - intros r s Hr Hs _. by rewrite lookup_delete_ne.
  - intros t _ Ht. by case_decide.
Qed.

Lemma remove_lease_stepped M m db z e z' e' : pair_at db z e z' e' ->
  swp (call (ZREM L m)) (fun _ => stepped M (fun _ => False) z e z') db.
Proof.
  intros Hp. eapply swp_leases; [exact Hp|done|cbn; done|]. intros db' Hp' Hm. cbn in Hp'.
  eapply (stepped_shrink _ _ db); [done|exact Hp'|done|apply unexpired_delete| |done]. done.
Qed.

(** The loop of the start-up clean-up. *)
Lemma remove_foreign_spec prefix members n db0 db z e z' z1 e1 e1' :
  pair_at db z1 e1 z' e1' -> micros db = micros db0 -> e1 = e \/ e1 = None -> z1 ⊆ z ->
  (forall r s, HasPrefix r prefix = true -> z !! r = Some s -> z1 !! r = Some s) ->
  swp (remove_foreign K prefix members n) (fun r db' => exists n z2 e2, r = Ok n /\
    pair_at db' z2 e2 z' e1' /\ micros db' = micros db0 /\ (e2 = e \/ e2 = None) /\ z2 ⊆ z /\
    forall r s, HasPrefix r prefix = true -> z !! r = Some s -> z2 !! r = Some s) db.
Proof.
  revert n db z1 e1; induction members as [|m members IH]; intros n db z1 e1 Hp Hm He Hsub Hkeep.
  - apply swp_ret. eauto 10.
  - cbn [remove_foreign]. destruct (HasPrefix m prefix) eqn:Hpre; [by eapply IH|].
    apply swp_bind. unfold call_int. apply swp_bind. eapply swp_slots; [exact Hp|done|cbn; done|].
    intros db1 Hp1 Hm1. cbn in Hp1 |- *. eapply IH; [exact Hp1|congruence| | |].
    + case_decide; auto.
    + etrans; [apply delete_subseteq|done].
    + intros r s Hr Hs. rewrite lookup_delete_ne; [by apply Hkeep|]. congruence.
Qed.

Lemma startup_stepped M prefix db z e z' e' : pair_at db z e z' e' ->
  swp (startupCleanupSlotScript K prefix T)
    (fun _ => stepped M (fun r => HasPrefix r prefix = false) z e z') db.
Proof.
  intros Hp. unfold startupCleanupSlotScript. apply swp_bind.
  eapply swp_slots; [exact Hp|done|cbn; done|]. intros db1 Hp1 Hm1. apply pair_at_expiry in Hp1. cbn.
  apply swp_bind. eapply swp_mono; [eapply remove_foreign_spec; [exact Hp1|exact Hm1|by left|done|done]|].
  intros r db2 (n & z2 & e2 & -> & Hp2 & Hm2 & He2 & Hsub & Hkeep).
  apply swp_bind. eapply card_slots; [exact Hp2|]. intros db3 Hp3 Hm3. rewrite Hm2 in Hm3.
  eapply (drop_or_expire _ _ _ db); [exact Hp3|done|done|]. intros db' e3 He3 Hp' Hm'.
  eapply (stepped_shrink _ _ db); [done|exact Hp'| |done| |done].
  - apply map_subseteq_size. by apply map_filter_mono || (apply map_subseteq_spec; intros r s;
      unfold unexpired; rewrite !map_lookup_filter_Some; intros [Hr Hs]; split; [|done];
      by eapply lookup_weaken).
  - intros r s Hr Hs _. apply Hkeep; [|done]. by destruct (HasPrefix r prefix).
Qed.

End Pair.

(** ** Histories

What clients do to the pair of keys [K], [L]: the slots and the live leases of one
account, or of one user.  The keys of the other side of a live lease, and those of
the API key, are parameters of the operation; a prune of a pipeline uses a time
that was read [late] seconds ago. *)
Inductive SlotOp : Type :=
  | OpAcquire (max : Z) (req : string)
  | OpCount
  | OpAccountLease (uR uL api : string) (aMax uMax : Z) (lease : string) (replacing : Z)
  | OpUserLease (aR aL api : string) (aMax uMax : Z) (lease : string) (replacing : Z)
  | OpRefreshLease (keys : list string) (lease : string)
  | OpRemoveSlot (req : string)
  | OpRemoveLease (lease : string)
  | OpCleanup
  | OpStartup (prefix : string)
  | OpPruneSlots (late : Z)
  | OpPruneLeases (late : Z)
  | OpCardSlots
  | OpCardLeases
  | OpElsewhere (c : Command)
  | OpElapse (n : Z).

Section Histories.
Context `{Redis Db} (K L : string) (HKL : K <> L) (T : Z) (HT : 0 < T).
Implicit Types (db : Db) (z : zset) (e : option Z).

Definition elsewhere (k : string) : Prop := k <> K /\ k <> L.

(** The limits of the operations are at most [M]; a lease that replaces a regular
slot may exceed its limit by one. *)
Definition legal (M : Z) (op : SlotOp) : Prop :=
  match op with
  | OpAcquire max _ => max <= M
  | OpAccountLease uR uL api aMax _ _ repl =>
      0 < aMax /\ aMax + (if repl =? 1 then 1 else 0) <= M /\
      elsewhere uR /\ elsewhere uL /\ elsewhere api
  | OpUserLease aR aL api _ uMax _ repl =>
      0 < uMax /\ uMax + (if repl =? 1 then 1 else 0) <= M /\
      elsewhere aR /\ elsewhere aL /\ elsewhere api
  | OpRefreshLease keys _ => K ∉ keys
  | OpPruneSlots late | OpPruneLeases late => 0 <= late
  | OpElsewhere c => elsewhere (key_of c)
  | _ => True
  end.

(** The requests whose slots an operation gives back. *)
Definition released (op : SlotOp) (req : string) : Prop :=
  match op with
  | OpRemoveSlot r => req = r
  | OpStartup prefix => HasPrefix req prefix = false
  | _ => False
  end.

Definition run_op (op : SlotOp) (db : Db) : Db :=
  match op with
  | OpAcquire max req => (acquireScript K L max T req db).1
  | OpCount => (getCountScript K L T db).1
  | OpAccountLease uR uL api aMax uMax lease repl =>
      (acquireLiveLeaseScript K L uR uL api aMax uMax liveLeaseTTLSeconds lease repl db).1
  | OpUserLease aR aL api aMax uMax lease repl =>
      (acquireLiveLeaseScript aR aL K L api aMax uMax liveLeaseTTLSeconds lease repl db).1
  | OpRefreshLease keys lease => (refreshLiveLeaseScript keys liveLeaseTTLSeconds lease db).1
  | OpRemoveSlot req => (call (ZREM K req) db).1
  | OpRemoveLease lease => (call (ZREM L lease) db).1
  | OpCleanup => (cleanupExpiredSlotsScript K T db).1
  | OpStartup prefix => (startupCleanupSlotScript K prefix T db).1
  | OpPruneSlots late => (call (ZREMRANGEBYSCORE K (server_s db - late - T)) db).1
  | OpPruneLeases late => (call (ZREMRANGEBYSCORE L (server_s db - late - 60)) db).1
  | OpCardSlots => (call (ZCARD K) db).1
  | OpCardLeases => (call (ZCARD L) db).1
  | OpElsewhere c => (call c db).1
  | OpElapse n => elapse n db
  end.

Definition run_ops (ops : list SlotOp) (db : Db) : Db := foldl (fun db op => run_op op db) db ops.

Lemma late_prune M now' db z e z' db' c z2 e2 z2' e2' :
  micros db' = micros db -> pair_at K L db' z2 e2 z2' e2' -> now' = server_s db ->
  c <= now' -> z2 = z \/ z2 = unexpired z (c - T) -> e2 = e \/ e2 = None ->
  z2' = z' \/ z2' = unexpired z' (c - 60) ->
  stepped K L T M (fun _ => False) z e z' db'.
Proof.
  intros Hm Hp -> Hc Hz He Hz'. eapply (stepped_shrink K L T _ _ db); [done|exact Hp| | | |].
  - destruct Hz as [->| ->]; [done|]. by rewrite unexpired_twice by lia.
  - destruct Hz' as [->| ->]; [done|]. by rewrite unexpired_twice by lia.
  - intros r s _ Hr Hs. destruct Hz as [->| ->]; [done|]. apply map_lookup_filter_Some. simpl.
    split; [done|lia].
  - intros t _ Ht. by destruct He as [->| ->].
Qed.

Lemma op_stepped M op db z e z' e' : legal M op -> pair_at K L db z e z' e' ->
  match op with
  | OpElapse _ => True
  | _ => stepped K L T M (released op) z e z' (run_op op db)
  end.
Proof.
  intros Hl Hp. destruct op; cbn [legal run_op released] in *; try done.
  - by eapply acquire_stepped.
  - eapply (stepped_pruned K L T _ _ db). by eapply count_pruned.
  - destruct Hl as (? & ? & ? & ? & ?). by eapply account_lease_stepped.
  - destruct Hl as (? & ? & ? & ? & ?). by eapply user_lease_stepped.
  - by eapply refresh_lease_stepped.
  - by eapply remove_slot_stepped.
  - by eapply remove_lease_stepped.
  - by eapply cleanup_stepped.
  - by eapply startup_stepped.
  - assert (Hk : swp (call (ZREMRANGEBYSCORE K (server_s db - late - T)))
      (fun _ => stepped K L T M (fun _ => False) z e z') db); [|exact Hk].
    eapply prune_slots; [done..|exact Hp|]. intros r db' e1 Hp' He1 Hm.
    eapply (late_prune M (server_s db) db _ _ _ _ (server_s db - late)); [done|exact Hp'|done|lia|auto..].
  - assert (Hk : swp (call (ZREMRANGEBYSCORE L (server_s db - late - 60)))
      (fun _ => stepped K L T M (fun _ => False) z e z') db); [|exact Hk].
    eapply prune_leases; [done..|exact Hp|]. intros r db' e1 Hp' Hm.
    eapply (late_prune M (server_s db) db _ _ _ _ (server_s db - late)); [done|exact Hp'|done|lia|auto..].
  - assert (Hk : swp (call (ZCARD K)) (fun _ => stepped K L T M (fun _ => False) z e z') db); [|exact Hk].
    eapply swp_slots; [done..|exact Hp|done|cbn; done|]. intros db' Hp' Hm. cbn in Hp'.
    eapply nothing_stepped; [done..|by apply pair_at_expiry in Hp'|exact Hm].
  - assert (Hk : swp (call (ZCARD L)) (fun _ => stepped K L T M (fun _ => False) z e z') db); [|exact Hk].
    eapply swp_leases; [done..|exact Hp|done|cbn; done|]. intros db' Hp' Hm. cbn in Hp'.
    eapply nothing_stepped; [done..|by apply pair_at_expiry' in Hp'|exact Hm].
  - destruct Hl as [HK HL].
    assert (Hk : swp (call c) (fun _ => stepped K L T M (fun _ => False) z e z') db); [|exact Hk].
    eapply swp_other; [done..|exact Hp|done|done|]. intros r db' Hp' Hm. by eapply nothing_stepped.
Qed.

Lemma elapse_pair n db z e z' e' : pair_at K L db z e z' e' ->
  exists z2 z2', pair_at K L (elapse n db) z2 e z2' e' /\ z2 ⊆ z /\ z2' ⊆ z' /\
    (alive (server_ms (elapse n db)) e = true -> z2 = z).
Proof.
  intros [Hk Hl].
  assert (Hgone : forall k (zk : zset) ek, peek db k = zset_entry zk ek ->
    exists z2, peek (elapse n db) k = zset_entry z2 ek /\ z2 ⊆ zk /\
      (alive (server_ms (elapse n db)) ek = true -> z2 = zk)).
  { intros k zk ek Hek. rewrite elapse_peek, Hek. fold (server_ms (elapse n db)).
    unfold zset_entry, entry_of, of_zset. destruct (decide (zk = ∅)) as [->|Hz]; cbn.
    - by exists ∅.
    - destruct (alive _ ek) eqn:E.
      + exists zk. rewrite decide_False by done. done.
      + exists ∅. split; [done|]. split; [apply map_empty_subseteq|done]. }
  destruct (Hgone K z e Hk) as (z2 & H1 & H2 & H3). destruct (Hgone L z' e' Hl) as (z2' & H4 & H5 & _).
  exists z2, z2'. repeat split; done.
Qed.

Lemma server_s_mono db db' : micros db <= micros db' -> server_s db <= server_s db'.
Proof. intros Hm. unfold server_s. apply Z.div_le_mono; lia. Qed.

(** The number of unexpired holders is within the limit. *)
Definition within (M : Z) (db : Db) : Prop :=
  exists z e z' e', pair_at K L db z e z' e' /\ holders T z z' (server_s db) <= M.

(** The holder of a slot since [t]. *)
Definition holds (req : string) (t : Z) (db : Db) : Prop :=
  exists z e z' e' s, pair_at K L db z e z' e' /\ z !! req = Some s /\ t <= s <= server_s db /\
    outlasts T e t.

Lemma holders_le z z' z2 z2' now now2 : z2 ⊆ z -> z2' ⊆ z' -> now <= now2 ->
  holders T z2 z2' now2 <= holders T z z' now.
Proof.
  intros Hz Hz' Hnow. unfold holders, count.
  assert (Hsub : forall (y x : zset) c, y ⊆ x -> (size (unexpired y c) <= size (unexpired x c))%nat).
  { intros y x c Hyx. apply map_subseteq_size, map_subseteq_spec. intros m s.
    unfold unexpired. rewrite !map_lookup_filter_Some. intros [Hm Hs]. split; [|done].
    by eapply lookup_weaken. }
  pose proof (Hsub z2 z (now2 - T) Hz). pose proof (Hsub z2' z' (now2 - 60) Hz').
  pose proof (unexpired_mono z (now - T) (now2 - T) ltac:(lia)).
  pose proof (unexpired_mono z' (now - 60) (now2 - 60) ltac:(lia)). lia.
Qed.

Lemma elapse_mono n db : server_s db <= server_s (elapse n db).
Proof. apply server_s_mono. rewrite elapse_micros. lia. Qed.

(** What an operation is told of: it changes nothing but by scripts, or time. *)
Lemma op_cases op : (exists n, op = OpElapse n) \/ forall M db z e z' e', legal M op ->
  pair_at K L db z e z' e' -> stepped K L T M (released op) z e z' (run_op op db).
Proof.
  destruct op; try (right; intros M db z e z' e' Hl Hp; exact (op_stepped M _ db z e z' e' Hl Hp)).
  left. eauto.
Qed.

Lemma quiet_scripts :
  (forall keys now m, quiet (lease_everywhere keys now m)) /\
  (forall keys now ttl m, quiet (admit_everywhere keys now ttl m)) /\
  (forall key prefix members n, quiet (remove_foreign key prefix members n)).
Proof.
  split; [|split].
  - intros keys now m. induction keys as [|k keys IH]; [done|]. cbn [lease_everywhere]. unfold is_member.
    repeat first [exact IH | quiet_step].
  - intros keys now ttl m. induction keys as [|k keys IH]; [done|]. cbn [admit_everywhere].
    unfold admit_member. repeat first [exact IH | quiet_step].
  - intros key prefix members. induction members as [|m members IH]; intros n; [done|].
    cbn [remove_foreign]. repeat first [apply IH | quiet_step].
Qed.

Lemma slot_op_micros op db : micros db <= micros (run_op op db).
Proof.
  destruct quiet_scripts as (H1 & H2 & H3).
  destruct op; cbn [run_op];
    try (match goal with |- _ <= micros (?s db).1 =>
           assert (Hs : quiet s) by (unfold acquireScript, getCountScript, acquireLiveLeaseScript,
             refreshLiveLeaseScript, cleanupExpiredSlotsScript, startupCleanupSlotScript, admit_member,
             is_member; repeat first [apply H1 | apply H2 | apply H3 | quiet_step]);
           rewrite Hs; lia end).
  rewrite elapse_micros. lia.
Qed.

Lemma within_step M op db : legal M op -> within M db -> within M (run_op op db).
Proof.
  intros Hl (z & e & z' & e' & Hp & Hle).
  pose proof (server_s_mono _ _ (slot_op_micros op db)) as Hnow.
  destruct (op_cases op) as [[n ->]|Hs].
  - destruct (elapse_pair n db z e z' e' Hp) as (z2 & z2' & Hp2 & Hz & Hz' & _).
    exists z2, e, z2', e'. split; [exact Hp2|].
    pose proof (holders_le z z' z2 z2' _ _ Hz Hz' (elapse_mono n db)). cbn [run_op] in *. lia.
  - destruct (Hs M db z e z' e' Hl Hp) as (z2 & e2 & z2' & e2' & Hp2 & Hh & _).
    exists z2, e2, z2', e2'. split; [exact Hp2|].
    pose proof (holders_le z z' z z' _ _ ltac:(done) ltac:(done) Hnow). lia.
Qed.

(** A slot that is not given back is kept for its time to live. *)
Lemma holds_step M op req t db : legal M op -> ~ released op req -> holds req t db ->
  server_s (run_op op db) < t + T -> holds req t (run_op op db).
Proof.
  intros Hl Hr (z & e & z' & e' & s & Hp & Hz & Ht & He) Hnow.
  pose proof (server_s_mono _ _ (slot_op_micros op db)) as Hmono.
  destruct (op_cases op) as [[n ->]|Hs].
  - destruct (elapse_pair n db z e z' e' Hp) as (z2 & z2' & Hp2 & _ & _ & Hall). cbn [run_op] in *.
    assert (Halive : alive (server_ms (elapse n db)) e = true).
    { destruct e as [x|]; [|done]. cbn in He |- *. apply Z.leb_le.
      assert (Hms : server_ms (elapse n db) < 1000 * (t + T)).
      { unfold server_s, server_ms in *.
        assert (micros (elapse n db) / 1000000 = micros (elapse n db) / 1000 / 1000)
          by (rewrite Z.div_div; done).
        pose proof (Z.mul_succ_div_gt (micros (elapse n db) / 1000) 1000). lia. }
      lia. }
    rewrite (Hall Halive) in Hp2. exists z, e, z2', e', s. split; [exact Hp2|]. split; [done|].
    split; [lia|done].
  - destruct (Hs M db z e z' e' Hl Hp) as (z2 & e2 & z2' & e2' & Hp2 & _ & Hkeep & Hexp).
    destruct (Hkeep req s Hr Hz) as (s2 & Hs2 & Hle); [lia|lia|].
    exists z2, e2, z2', e2', s2. split; [exact Hp2|]. split; [done|]. split; [lia|].
    apply Hexp; [lia|done].
Qed.

End Histories.
