(* ===== verification/SlotRuns.v ===== *)
(** * Slots of an account: calls, waiting requests, examples

What histories of the cache of [Slots] keep and what single calls answer, the
counters of waiting requests,
and runs on a concrete server. *)
From S2P Require Import Prelude GoText Programs Redis Slots SlotLimits.
From Stdlib Require Import Bool.

Local Open Scope string_scope.
Local Open Scope Z_scope.

(** ** Keys *)

Lemma account_keys_apart id : accountSlotKey id <> liveAccountSlotKey id.
Proof. unfold accountSlotKey, liveAccountSlotKey. cbn. discriminate. Qed.

Lemma account_index_apart id :
  accountActiveIndexKey <> accountSlotKey id /\ accountActiveIndexKey <> liveAccountSlotKey id.
Proof.
  unfold accountSlotKey, liveAccountSlotKey, accountActiveIndexKey, FormatInt. split; [|discriminate].
  assert (Hhead : forall n acc, 0 <= n -> exists c r d, format_digits 20 n acc = String c r /\ digit_of c = Some d)
    by (intros; by apply format_digits_head; [lia|]).
  destruct (id <? 0) eqn:E; [discriminate|]. apply Z.ltb_ge in E.
  destruct (Hhead id "" E) as (c & r & d & -> & Hd). cbn. intros [= <- _]. by vm_compute in Hd.
Qed.

Lemma wait_key_apart id : accountActiveIndexKey <> accountWaitKey id.
Proof. unfold accountWaitKey, accountActiveIndexKey. cbn. discriminate. Qed.

(** ** Histories *)

Section Limits.
Context `{Redis Db}.

(** C15. In every history of the scripts on the slots and the live leases of an account,
or of a user, at most [M] holders are unexpired, where [M] is the highest limit
that a request or a lease brings, and one more for a lease that replaces a regular
slot. *)
Theorem slots_stay_within_the_limit K L T M ops db :
  K <> L -> 0 < T -> Forall (legal K L M) ops -> within K L T M db ->
  within K L T M (run_ops K L T ops db).
Proof.
  intros HKL HT Hl. revert db; induction Hl as [|op ops Hop _ IH]; intros db Hw; [done|].
  apply IH. by apply within_step.
Qed.

(** C27. A request that has got a slot keeps it for its time to live, under operations
with limits of at most [M], unless its slot is given back or it belongs to another
process prefix than that of a start-up clean-up, which removes it: no acquisition, lease
or refresh, no removal of another slot, no other clean-up and no expiry takes it. *)
Theorem slot_is_kept_for_its_lifetime K L T M ops req t db :
  K <> L -> 0 < T -> Forall (legal K L M) ops -> Forall (fun op => ~ released op req) ops ->
  holds K L T req t db -> server_s (run_ops K L T ops db) < t + T ->
  holds K L T req t (run_ops K L T ops db).
Proof.
  intros HKL HT Hl. revert db; induction Hl as [|op ops Hop Hl IH]; intros db Hr Hh Hnow; [done|].
  apply Forall_cons in Hr as [Hro Hr]. cbn in *. apply IH; [done| |done].
  eapply holds_step; [done..|].
  assert (Hmono : micros (run_op K L T op db) <= micros (run_ops K L T ops (run_op K L T op db))).
  { generalize (run_op K L T op db) as db1. clear. induction ops as [|op ops IH]; intros db1; cbn; [lia|].
    pose proof (slot_op_micros K L T op db1). specialize (IH (run_op K L T op db1)). unfold run_ops in IH. lia. }
  apply server_s_mono in Hmono. unfold run_ops in *. lia.
Qed.

End Limits.

(** ** Calls of a client that is alone *)

Section Calls.
Context `{Redis Db} (c : concurrencyCache) (id : Z).
Context (HT : 0 < slotTTLSeconds c).
Implicit Types (w : World Db) (z : zset) (e : option Z).

Let K := accountSlotKey id.
Let L := liveAccountSlotKey id.
Let HKL : K <> L := account_keys_apart id.

Definition account_pair (db : Db) := pair_at K L db.

(** Marking the index does not touch the pair. *)
Lemma touch_alone expireAt z e z' e' Q w : turns w = [] -> account_pair (server w) z e z' e' ->
  (forall db', account_pair db' z e z' e' -> micros db' = micros (server w) ->
     Q (Ok tt) (with_server db' w)) ->
  wp0 (touchActiveIndexAt accountActiveIndexKey id expireAt) Q w.
Proof.
  intros Hw Hp HQ. unfold touchActiveIndexAt.
  destruct ((id <=? 0) || (expireAt <=? 0)); [apply wp0_ret; specialize (HQ _ Hp eq_refl); by destruct w|].
  unfold best_effort. apply wp0_bind, wp0_try, wp0_alone; [done|].
  destruct (account_index_apart id) as [H1 H2].
  eapply swp_other; [exact Hp|exact H1|exact H2|]. intros r db' Hp' Hm. by apply wp0_ret, HQ.
Qed.

Lemma acquire_slot_alone max req z e z' e' (Q : res bool -> World Db -> Prop) w :
  let now := server_s (server w) in
  let T := slotTTLSeconds c in
  turns w = [] -> account_pair (server w) z e z' e' ->
  (forall db' e1', account_pair db' (<[req := now]> (unexpired z (now - T)))
       (Some (server_ms (server w) + 1000 * T)) (unexpired z' (now - 60)) e1' ->
     micros db' = micros (server w) ->
     is_Some (unexpired z (now - T) !! req) \/ holders T z z' now < max ->
     Q (Ok true) (with_server db' w)) ->
  (forall db' e1 e1', account_pair db' (unexpired z (now - T)) e1 (unexpired z' (now - 60)) e1' ->
     micros db' = micros (server w) -> unexpired z (now - T) !! req = None ->
     max <= holders T z z' now -> Q (Ok false) (with_server db' w)) ->
  wp0 (AcquireAccountSlot c id max req) Q w.
Proof.
  intros now T Hw Hp Hyes Hno. unfold AcquireAccountSlot. apply wp0_bind, wp0_alone; [done|].
  eapply (acquire_spec K L HKL T HT); [exact Hp|..].
  - intros db' e1' Hp' Hm Hroom. cbn [fst snd]. rewrite Z.eqb_refl. apply wp0_bind.
    eapply touch_alone; [done|exact Hp'|]. intros db2 Hp2 Hm2. apply wp0_ret.
    eapply Hyes; [exact Hp2|cbn in Hm2; congruence|done].
  - intros db' e1 e1' Hp' _ Hm Hnone Hfull. cbn [fst snd]. apply wp0_bind, wp0_ret, wp0_ret.
    by eapply Hno.
Qed.

End Calls.

Section Theorems.
Context `{Redis Db} (c : concurrencyCache) (id : Z).
Implicit Types (w : World Db) (z : zset) (e : option Z).

(** [AcquireAccountSlot] admits a request exactly if it holds a slot already or if
fewer than the limit are held; then it holds one from now on. *)
Theorem acquire_admits_while_there_is_room max req z e z' e' w :
  let now := server_s (server w) in
  let T := slotTTLSeconds c in
  0 < T -> turns w = [] ->
  pair_at (accountSlotKey id) (liveAccountSlotKey id) (server w) z e z' e' ->
  wp0 (AcquireAccountSlot c id max req) (fun r w' =>
    r = Ok (bool_decide (is_Some (unexpired z (now - T) !! req)) || (holders T z z' now <? max)) /\
    (r = Ok true ->
       holds (accountSlotKey id) (liveAccountSlotKey id) T req now (server w'))) w.
Proof.
  intros now T HT Hw Hp. eapply acquire_slot_alone; [exact HT|done|exact Hp|..].
  - intros db' e1' Hp' Hm Hroom. pose proof (now_same _ _ Hm) as Hnow. fold now in Hp', Hroom, Hnow. split.
    + f_equal. symmetry. apply orb_true_iff.
      destruct Hroom; [left; by apply bool_decide_eq_true_2|right; by apply Z.ltb_lt].
    + intros _. eexists _, _, _, _, now. split; [exact Hp'|]. rewrite lookup_insert_eq.
      split; [done|]. cbn [server with_server]. rewrite Hnow. split; [lia|].
      by apply outlasts_set.
  - intros db' e1 e1' Hp' Hm Hnone Hfull. split; [|discriminate]. f_equal. symmetry.
    apply orb_false_iff. split; [|by apply Z.ltb_ge].
    apply bool_decide_eq_false_2. fold now in Hnone. unfold now, T in *. rewrite Hnone. by intros [? ?].
Qed.

End Theorems.

(** ** Waiting requests

Histories of one counter: requests that join and leave, the clean-up at start-up,
which deletes the counter, readers, and other keys. *)
Inductive WaitOp : Type :=
  | OpJoin (maxWait ttl : Z)
  | OpLeave
  | OpDelete
  | OpRead
  | OpElsewhere (c : Command)
  | OpElapse (n : Z).

Section Waiting.
Context `{Redis Db} (key : string).
Implicit Types db : Db.

Definition run_wait (op : WaitOp) (db : Db) : Db :=
  match op with
  | OpJoin maxWait ttl => (incrementWaitScript key maxWait ttl db).1
  | OpLeave => (decrementWaitScript key db).1
  | OpDelete => (call (DEL key) db).1
  | OpRead => (call (GET key) db).1
  | OpElsewhere c => (call c db).1
  | OpElapse n => elapse n db
  end.

Definition run_waits (ops : list WaitOp) (db : Db) : Db := foldl (fun db op => run_wait op db) db ops.

(** The limits are at most [M], lifetimes are positive, and others keep to their keys. *)
Definition legal_wait (M : Z) (op : WaitOp) : Prop :=
  match op with
  | OpJoin maxWait ttl => maxWait <= M /\ 0 < ttl
  | OpElsewhere c => key_of c <> key
  | _ => True
  end.

(** The counter of a key, absent when nobody waits or has waited. *)
Definition waiting (db : Db) (n : option Z) : Prop :=
  match n with
  | None => peek db key = (None, None)
  | Some n => (peek db key).1 = Some (RString (FormatInt n))
  end.

Definition bounded_wait (M : Z) (db : Db) : Prop :=
  exists n, waiting db n /\ match n with Some n => 0 <= n <= M | None => True end.

Lemma get_number_spec n (Q : res (option Z) -> Db -> Prop) db :
  waiting db n -> match n with Some n => in_i64 n | None => True end ->
  (forall db', peek db' key = peek db key -> micros db' = micros db -> Q (Ok n) db') ->
  swp (get_number key) Q db.
Proof.
  intros Hn Hr HQ. unfold get_number. apply swp_bind. eapply swp_call; [cbn; done|].
  intros db' (Hk & _ & Hm). cbn in Hk |- *. destruct n as [n|]; cbn in Hn; rewrite Hn; cbn.
  - rewrite ParseInt_FormatInt by done. by apply swp_ret, HQ.
  - by apply swp_ret, HQ.
Qed.

(** [INCR] by one in either direction. *)
Lemma incr_spec n step (Q : res Reply -> Db -> Prop) db :
  waiting db n -> in_i64 (default 0 n) -> in_i64 (default 0 n + step) ->
  (forall db', waiting db' (Some (default 0 n + step)) -> Q (Ok (Int (default 0 n + step))) db') ->
  swp (call (INCR key step)) Q db.
Proof.
  intros Hn Hr Hr' HQ.
  assert (Hin : (- two63 <=? default 0 n + step) && (default 0 n + step <? two63) = true).
  { unfold in_i64 in Hr'. apply andb_true_iff. split; [apply Z.leb_le|apply Z.ltb_lt]; lia. }
  eapply (swp_call _ (Some (RString (FormatInt (default 0 n + step))), (peek db key).2)
    (Int (default 0 n + step))).
  - cbn [effect key_of]. destruct n as [n|]; cbn in Hn, Hr, Hin |- *; rewrite Hn.
    + rewrite ParseInt_FormatInt by done. by rewrite Hin.
    + cbn [fst snd]. by rewrite Hin.
  - intros db' (Hk & _ & _). apply HQ. cbn in *. by rewrite Hk.
Qed.

Lemma join_spec M maxWait ttl db n : waiting db n -> match n with Some n => 0 <= n <= M | None => True end ->
  maxWait <= M -> 0 < ttl -> M < two63 ->
  swp (incrementWaitScript key maxWait ttl) (fun r db' =>
    r = Ok (if default 0 n <? maxWait then 1 else 0, server_s db) /\
    (if default 0 n <? maxWait then waiting db' (Some (default 0 n + 1)) else waiting db' n)) db.
Proof.
  intros Hn Hb Hmax Httl HM.
  assert (Hr : in_i64 (default 0 n)) by (destruct n; cbn; unfold in_i64, two63 in *; lia).
  unfold incrementWaitScript. apply swp_bind.
  eapply get_number_spec; [exact Hn|destruct n; [exact Hr|done]|]. intros db1 Hk1 Hm1.
  apply swp_bind. unfold swp at 1, time_s. cbn [fst snd].
  assert (Hn1 : waiting db1 n) by (destruct n; cbn in *; by rewrite Hk1).
  assert (Hs : server_s db1 = server_s db) by (unfold server_s; by rewrite Hm1).
  rewrite Hs. destruct (Z.leb_spec maxWait (default 0 n)) as [Hfull|Hroom].
  - rewrite (proj2 (Z.ltb_ge _ _)) by done. by apply swp_ret.
  - rewrite (proj2 (Z.ltb_lt _ _)) by done. apply swp_bind.
    assert (Hr' : in_i64 (default 0 n + 1)) by (destruct n; cbn in *; unfold in_i64, two63 in *; lia).
    eapply incr_spec; [exact Hn1|exact Hr|exact Hr'|]. intros db2 Hn2. cbn.
    apply swp_bind. eapply (swp_call _ (Some (RString (FormatInt (default 0 n + 1))), Some (server_ms db2 + 1000 * ttl)) (Int 1)).
    + cbn [effect key_of EXPIRE]. cbn in Hn2. rewrite Hn2. cbn.
      by rewrite (proj2 (Z.leb_gt _ 0)) by lia.
    + intros db3 (Hk3 & _ & _). cbn in Hk3. apply swp_ret. split; [done|]. cbn. by rewrite Hk3.
Qed.

Lemma leave_spec M db n : waiting db n -> match n with Some n => 0 <= n <= M | None => True end ->
  M < two63 ->
  swp (decrementWaitScript key) (fun r db' => r = Ok 1 /\
    waiting db' (option_map (fun n => Z.max 0 (n - 1)) n)) db.
Proof.
  intros Hn Hb HM. unfold decrementWaitScript. apply swp_bind.
  eapply get_number_spec; [exact Hn|destruct n; [unfold in_i64, two63 in *; lia|done]|].
  intros db1 Hk1 Hm1. destruct n as [n|]; cbn in Hn |- *.
  - destruct (Z.ltb_spec 0 n).
    + apply swp_bind. eapply (incr_spec (Some n)); [cbn; by rewrite Hk1|cbn; unfold in_i64, two63 in *; lia..|].
      intros db2 Hn2. apply swp_ret. split; [done|]. cbn in *. by rewrite Z.max_r by lia.
    + apply swp_ret. split; [done|]. replace (Z.max 0 (n - 1)) with n by lia. by rewrite Hk1.
  - apply swp_ret. split; [done|]. by rewrite Hk1.
Qed.

Lemma wait_step M op db : M < two63 -> legal_wait M op -> bounded_wait M db ->
  bounded_wait M (run_wait op db).
Proof.
  intros HM Hl (n & Hn & Hb). destruct op; cbn [run_wait legal_wait] in *.
  - destruct Hl as [Hmax Httl]. pose proof (join_spec M maxWait ttl db n Hn Hb Hmax Httl HM) as Hs.
    destruct Hs as [_ Hs]. destruct (Z.ltb_spec (default 0 n) maxWait); [|by exists n].
    eexists. split; [exact Hs|]. destruct n; cbn in *; lia.
  - destruct (leave_spec M db n Hn Hb HM) as [_ Hs]. eexists. split; [exact Hs|].
    destruct n; cbn; [lia|done].
  - exists None. split; [|done]. cbn. rewrite call_db. by rewrite (exec_key (DEL key)).
  - exists n. split; [|done]. assert (Hk : peek (call (GET key) db).1 key = peek db key)
      by (rewrite call_db; by rewrite (exec_key (GET key))).
    destruct n; cbn in *; by rewrite Hk.
  - exists n. split; [|done]. assert (Hk : peek (call c db).1 key = peek db key)
      by (rewrite call_db; by apply exec_other).
    destruct n; cbn in *; by rewrite Hk.
  - pose proof (elapse_peek n0 db key) as Hk.
    destruct (alive _ _); [exists n|exists None]; (split; [|done]); [|exact Hk].
    destruct n; cbn in *; by rewrite Hk.
Qed.

(** Over any history, with requests that leave more than once, counters that expire
and clean-ups, a counter of waiting requests is between zero and the limit. *)
Theorem waiting_counts_are_bounded M ops db :
  M < two63 -> Forall (legal_wait M) ops -> bounded_wait M db -> bounded_wait M (run_waits ops db).
Proof.
  intros HM Hl. revert db; induction Hl as [|op ops Hop _ IH]; intros db Hb; [done|].
  apply IH. by apply wait_step.
Qed.

End Waiting.

(** ** The clean-up at start-up *)

Section Startup.
Context `{Redis Db} (key : string).
Implicit Types (db : Db) (z : zset) (e : option Z).

(** The slots of the running process. *)
Definition own (prefix : string) (z : zset) : zset := filter (fun p => HasPrefix p.1 prefix = true) z.
Definition foreign (prefix : string) (z : zset) : zset := filter (fun p => HasPrefix p.1 prefix = false) z.

Lemma remove_foreign_exact prefix members n z e db (Q : res Z -> Db -> Prop) :
  NoDup members -> (forall m, HasPrefix m prefix = false -> is_Some (z !! m) -> m ∈ members) ->
  (forall m, m ∈ members -> is_Some (z !! m)) ->
  peek db key = zset_entry z e ->
  (forall db' e', peek db' key = zset_entry (own prefix z) e' -> micros db' = micros db ->
     Q (Ok (n + count (foreign prefix z))) db') ->
  swp (remove_foreign key prefix members n) Q db.
Proof.
  revert n z e db; induction members as [|m members IH]; intros n z e db Hnd Hall Hin Hp HQ.
  - apply swp_ret. assert (Hown : own prefix z = z).
    { apply map_filter_id. intros m s Hm. simpl. destruct (HasPrefix m prefix) eqn:E; [done|].
      specialize (Hall m E (mk_is_Some _ _ Hm)). by apply not_elem_of_nil in Hall. }
    assert (Hfor : foreign prefix z = ∅).
    { apply map_empty_filter_2. intros m s Hm. simpl. intros E.
      specialize (Hall m E (mk_is_Some _ _ Hm)). by apply not_elem_of_nil in Hall. }
    rewrite Hown, Hfor in HQ. specialize (HQ db e Hp eq_refl). unfold count in HQ.
    by rewrite map_size_empty, Z.add_0_r in HQ.
  - apply NoDup_cons in Hnd as [Hm Hnd]. cbn [remove_foreign].
    destruct (HasPrefix m prefix) eqn:Hpre.
    + eapply IH; [done| | |exact Hp|exact HQ].
      * intros m' Hm' Hs. pose proof (Hall m' Hm' Hs) as [E|E]%elem_of_cons; [congruence|done].
      * intros m' Hm'. apply Hin. by constructor.
    + destruct (Hin m ltac:(constructor)) as [s Hs].
      apply swp_bind. unfold call_int. apply swp_bind.
      eapply swp_call; [cbn [effect key_of]; rewrite Hp; apply on_zset_entry|].
      intros db1 (Hp1 & _ & Hm1). cbn in Hp1 |- *. rewrite decide_True by eauto.
      eapply IH; [done| | |exact Hp1|].
      * intros m' Hm' [s' Hs']. apply lookup_delete_Some in Hs' as [Hne Hs'].
        pose proof (Hall m' Hm' (mk_is_Some _ _ Hs')) as [E|E]%elem_of_cons; [congruence|done].
      * intros m' Hm'. rewrite lookup_delete_ne by (intros ->; done). apply Hin. by constructor.
      * intros db' e' Hp' Hm'. assert (Hown : own prefix (delete m z) = own prefix z).
        { unfold own. apply map_filter_delete_not. intros y Hy. simpl. congruence. }
        assert (Hfor : count (foreign prefix z) = 1 + count (foreign prefix (delete m z))).
        { unfold foreign, count. rewrite map_filter_delete.
          rewrite map_size_delete_Some; [|exists s; by apply map_lookup_filter_Some].
          assert (0 < size (filter (fun p : string * Z => HasPrefix p.1 prefix = false) z))%nat; [|lia].
          apply Nat.neq_0_lt_0. intros Hz. apply map_size_empty_inv in Hz.
          rewrite map_empty in Hz. specialize (Hz m). rewrite map_lookup_filter_None in Hz.
          destruct Hz as [Hz|Hz]; [congruence|]. by apply (Hz s Hs). }
        rewrite Hown in Hp'. rewrite Hfor in HQ. specialize (HQ db' e' Hp' ltac:(congruence)).
        by rewrite <- Z.add_assoc.
Qed.

Lemma zset_order_members z : NoDup (map fst (zset_order z)) /\
  forall m, m ∈ map fst (zset_order z) <-> is_Some (z !! m).
Proof.
  unfold zset_order. change (map fst) with (fmap (M := list) (@fst string Z)). split.
  - rewrite stable_sort_perm. apply NoDup_fst_map_to_list.
  - intros m. rewrite list_elem_of_fmap. setoid_rewrite stable_sort_perm. split.
    + intros ([m' s] & -> & Hm). apply elem_of_map_to_list in Hm. by exists s.
    + intros [s Hs]. exists (m, s). split; [done|]. by apply elem_of_map_to_list.
Qed.

(** The start-up clean-up leaves in a set exactly the slots of the running process,
and answers how many it has removed and how many are left. *)
Theorem startup_keeps_own_slots prefix ttl z e db :
  0 < ttl -> peek db key = zset_entry z e ->
  swp (startupCleanupSlotScript key prefix ttl) (fun r db' =>
    r = Ok (count (foreign prefix z), count (own prefix z)) /\
    exists e', peek db' key = zset_entry (own prefix z) e') db.
Proof.
  intros Httl Hp. unfold startupCleanupSlotScript. destruct (zset_order_members z) as [Hnd Hmem].
  apply swp_bind. eapply swp_call; [cbn [effect key_of]; rewrite Hp; apply on_zset_entry|].
  intros db1 (Hp1 & _ & _). cbn in Hp1 |- *.
  apply swp_bind. eapply remove_foreign_exact; [exact Hnd| | |exact Hp1|].
  { intros m _. apply Hmem. } { intros m. apply Hmem. }
  intros db2 e2 Hp2 _. rewrite Z.add_0_l. apply swp_bind. unfold call_int. apply swp_bind.
  eapply swp_call; [cbn [effect key_of]; rewrite Hp2; apply on_zset_entry|].
  intros db3 (Hp3 & _ & _). cbn in Hp3 |- *. apply swp_bind. fold (count (own prefix z)).
  destruct (Z.eqb_spec (count (own prefix z)) 0) as [Hz|Hz].
  - eapply swp_call; [cbn; done|]. intros db4 (Hp4 & _ & _). apply swp_ret. split; [by rewrite Hz|].
    exists None. assert (own prefix z = ∅) as -> by (apply map_size_empty_inv; unfold count in Hz; lia).
    exact Hp4.
  - assert (Hne : own prefix z <> ∅) by (intros E; rewrite E in Hz; by unfold count in Hz).
    assert (Hof : of_zset (own prefix z) = Some (RZSet (own prefix z))) by (unfold of_zset; by rewrite decide_False).
    eapply (swp_call _ (zset_entry (own prefix z) (Some (server_ms db3 + 1000 * ttl))) (Int 1)).
    + cbn [effect key_of EXPIRE]. rewrite Hp3. unfold zset_entry, entry_of. rewrite Hof. cbn.
      by rewrite (proj2 (Z.leb_gt _ 0)) by lia.
    + intros db4 (Hp4 & _ & _). apply swp_ret. split; [done|]. eauto.
Qed.

End Startup.

(** ** Examples: account 7 with slots of fifteen minutes *)

Definition ex_cache : concurrencyCache := NewConcurrencyCache 0 0.
Definition ex_slots : string := accountSlotKey 7.
Definition ex_leases : string := liveAccountSlotKey 7.

Definition ex_world (db : MapRedis) : World MapRedis := mkWorld db 0 false [].
Definition after {A} (m : Client MapRedis A) (db : MapRedis) : MapRedis :=
  server (m (ex_world db) []).1.2.
Definition answer {A} (m : Client MapRedis A) (db : MapRedis) : res A := (m (ex_world db) []).1.1.

Example ex_lifetime : slotTTLSeconds ex_cache = 900.
Proof. reflexivity. Qed.

Definition ex_one : MapRedis := after (AcquireAccountSlot ex_cache 7 2 "r1-1") empty_redis.
Definition ex_two : MapRedis := after (AcquireAccountSlot ex_cache 7 2 "r1-2") (elapse 600000000 ex_one).

(** The limit, a retry of a holder, a release, and the index. *)
Example ex_limit :
  answer (AcquireAccountSlot ex_cache 7 2 "r1-3") ex_two = Ok false /\
  answer (AcquireAccountSlot ex_cache 7 2 "r1-2") ex_two = Ok true /\
  answer (AcquireAccountSlot ex_cache 7 2 "r1-3")
    (after (ReleaseAccountSlot ex_cache 7 "r1-1") ex_two) = Ok true /\
  value_of ex_two accountActiveIndexKey = Some (RZSet {["7" := 1500]}) /\
  entries (after (ReleaseAccountSlot ex_cache 7 "r1-1")
             (after (ReleaseAccountSlot ex_cache 7 "r1-2") ex_two)) = ∅.
Proof. vm_compute. repeat split. Qed.

(** A slot that has expired still counts when a live lease is acquired, whose script
prunes the leases only: the lease is refused where a request would be admitted. *)
Example expired_slots_refuse_leases :
  let db := elapse 400000000 ex_two in
  answer (AcquireLiveLease 7 2 9 0 11 "lease" false) db = Ok false /\
  answer (AcquireAccountSlot ex_cache 7 2 "r1-3") db = Ok true /\
  answer (GetAccountConcurrency ex_cache 7) db = Ok 1 /\
  answer (AcquireLiveLease 7 2 9 0 11 "lease" false)
    (after (GetAccountConcurrency ex_cache 7) db) = Ok true.
Proof. vm_compute. repeat split. Qed.

(** A release that reads the load, and is overtaken by a request before it drops the
account from the index: the slot is held, and the index does not know. *)
Example index_forgets_a_holder :
  let quiet := mkTurn (fun db : MapRedis => db) 0 false in
  let overtake := mkTurn (after (AcquireAccountSlot ex_cache 7 2 "r1-9")) 0 false in
  match ReleaseAccountSlot ex_cache 7 "r1-1"
          (mkWorld ex_one 0 false [quiet; quiet; quiet; quiet; quiet; overtake]) [] with
  | (r, w, _) => r = Ok tt /\ value_of (server w) ex_slots = Some (RZSet {["r1-9" := 0]}) /\
                 value_of (server w) accountActiveIndexKey = None
  end.
Proof. vm_compute. repeat split. Qed.

(** Waiting requests, up to one. *)
Example ex_waiting :
  let db := after (IncrementAccountWaitCount ex_cache 7 1) empty_redis in
  answer (IncrementAccountWaitCount ex_cache 7 1) db = Ok false /\
  answer (GetAccountWaitingCount 7) db = Ok 1 /\
  answer (GetAccountsLoadBatch ex_cache [mkWithConcurrency 7 4]) (after (DecrementAccountWaitCount ex_cache 7) ex_two) =
    Ok {[7 := mkLoadInfo 7 2 0 50]} /\
  answer (GetAccountWaitingCount 7)
    (after (DecrementAccountWaitCount ex_cache 7) (after (DecrementAccountWaitCount ex_cache 7) db)) = Ok 0.
Proof. vm_compute. repeat split. Qed.

(** A restart of the process: the slots of the old one go, its counters too. *)
Example ex_restart :
  let db := after (CleanupStaleProcessSlots ex_cache (fun _ => []) "r2")
              (after (AcquireAccountSlot ex_cache 7 3 "r2-1")
                (after (IncrementAccountWaitCount ex_cache 7 5) ex_two)) in
  value_of db ex_slots = Some (RZSet {["r2-1" := 600]}) /\
  value_of db (accountWaitKey 7) = None /\
  value_of db accountActiveIndexKey = Some (RZSet {["7" := 1500]}).
Proof. vm_compute. repeat split. Qed.

(** *** Witnesses *)

Lemma ex_empty_pair : pair_at ex_slots ex_leases empty_redis ∅ None ∅ None.
Proof. split; reflexivity. Qed.

Definition ex_history : list SlotOp :=
  [SlotLimits.OpAcquire 2 "r1-1"; OpAccountLease "u" "ul" "k" 1 0 "lease" 1; SlotLimits.OpElapse 5000000;
   OpRefreshLease [ex_leases; "ul"; "k"] "lease"; SlotLimits.OpAcquire 2 "r1-2"; OpCleanup; OpCount].

Lemma ex_history_legal : Forall (legal ex_slots ex_leases 3) ex_history.
Proof.
  unfold ex_history. repeat apply Forall_cons_2; try apply Forall_nil_2; cbn [legal]; try done; try lia.
  intros Hin. repeat (apply elem_of_cons in Hin as [Hin|Hin]; [discriminate Hin|]).
  by apply not_elem_of_nil in Hin.
Qed.

Lemma slots_stay_within_the_limit_witness :
  within ex_slots ex_leases 900 3 (run_ops ex_slots ex_leases 900 ex_history empty_redis).
Proof.
  apply (slots_stay_within_the_limit ex_slots ex_leases 900 3 ex_history empty_redis
    (account_keys_apart 7) eq_refl ex_history_legal).
  exists ∅, None, ∅, None. split; [apply ex_empty_pair|]. vm_compute. discriminate.
Defined.

Definition ex_held : MapRedis := (acquireScript ex_slots ex_leases 2 900 "r1-1" empty_redis).1.

Lemma slot_is_kept_for_its_lifetime_witness :
  holds ex_slots ex_leases 900 "r1-1" 0 (run_ops ex_slots ex_leases 900 ex_history ex_held).
Proof.
  apply (slot_is_kept_for_its_lifetime ex_slots ex_leases 900 3 ex_history "r1-1" 0 ex_held
    (account_keys_apart 7) eq_refl ex_history_legal).
  - unfold ex_history. repeat apply Forall_cons_2; try apply Forall_nil_2; cbn; tauto.
  - exists {["r1-1" := 0]}, (Some 900000), ∅, None, 0. split; [split; reflexivity|].
    split; [reflexivity|]. split; [split; vm_compute; discriminate|]. vm_compute. discriminate.
  - vm_compute. reflexivity.
Defined.

Lemma acquire_admits_while_there_is_room_witness :
  wp0 (AcquireAccountSlot ex_cache 7 2 "r1-2") (fun r w' => r = Ok true /\
    (r = Ok true -> holds ex_slots ex_leases 900 "r1-2" 0 (server w'))) (ex_world ex_held).
Proof.
  eapply wp0_mono; [apply (acquire_admits_while_there_is_room ex_cache 7 2 "r1-2" {["r1-1" := 0]}
    (Some 900000) ∅ None (ex_world ex_held) eq_refl eq_refl); split; reflexivity|].
  intros r w' [Hr Hh]. split; [rewrite Hr; reflexivity|exact Hh].
Defined.

Lemma waiting_counts_are_bounded_witness :
  bounded_wait (accountWaitKey 7) 3 (run_waits (accountWaitKey 7)
    [OpJoin 3 60; OpLeave; OpLeave; OpJoin 1 60; OpRead; OpElapse 70000000; OpDelete] empty_redis).
Proof.
  apply (waiting_counts_are_bounded (accountWaitKey 7) 3
    [OpJoin 3 60; OpLeave; OpLeave; OpJoin 1 60; OpRead; OpElapse 70000000; OpDelete] empty_redis eq_refl).
  - repeat apply Forall_cons_2; try apply Forall_nil_2; cbn; lia || done.
  - exists None. by split.
Defined.

Lemma startup_keeps_own_slots_witness :
  swp (startupCleanupSlotScript ex_slots "r2" 900) (fun r db' => r = Ok (1, 0) /\
    exists e', peek db' ex_slots = zset_entry ∅ e') ex_held.
Proof.
  assert (Hown : own "r2" {["r1-1" := 0]} = ∅) by (vm_compute; reflexivity).
  eapply swp_mono; [apply (startup_keeps_own_slots ex_slots "r2" 900 {["r1-1" := 0]} (Some 900000)
    ex_held eq_refl); reflexivity|].
  intros r db' [-> [e' He]]. rewrite Hown in He. split; [vm_compute; reflexivity|]. by exists e'.
Defined.
