(* ===== verification/Sessions.v ===== *)
(** * Session limits and cached window costs

[repository/session_limit_cache.go]: the sorted set of the active sessions of an
account, kept by scripts, and the cached cost of an account's window.  The second part
follows histories of the scripts on one account. *)
From S2P Require Import Prelude GoText Programs Redis Slots SlotLimits.
From Stdlib Require Import Bool.

Local Open Scope string_scope.
Local Open Scope Z_scope.

Definition sessionLimitKeyPrefix := "session_limit:account:".
Definition windowCostKeyPrefix := "window_cost:account:".
Definition windowCostCacheTTL : Duration := 30 * Second.

Definition sessionLimitKey (accountID : Z) : string := sessionLimitKeyPrefix +:+ FormatInt accountID.
Definition windowCostKey (accountID : Z) : string := windowCostKeyPrefix +:+ FormatInt accountID.

(** ** Scripts *)

Section Scripts.
Context `{Redis Db}.

Definition registerSessionScript (key : string) (maxSessions idleTimeout : Z) (sessionUUID : string)
    : Script Db Z :=
  do! now := time_s in
  let expireBefore := now - idleTimeout in
  do! _ := call (ZREMRANGEBYSCORE key expireBefore) in
  do! exists_ := is_member key sessionUUID in
  if exists_ then
    do! _ := admit_member key now (idleTimeout + 60) sessionUUID in sret 1
  else
    do! count := call_int (ZCARD key) in
    if count <? maxSessions then
      do! _ := admit_member key now (idleTimeout + 60) sessionUUID in sret 1
    else sret 0.

Definition refreshSessionScript (key : string) (idleTimeout : Z) (sessionUUID : string) : Script Db Z :=
  do! now := time_s in
  do! exists_ := is_member key sessionUUID in
  if exists_ then
    do! _ := admit_member key now (idleTimeout + 60) sessionUUID in sret 1
  else sret 1.

Definition getActiveSessionCountScript (key : string) (idleTimeout : Z) : Script Db Z :=
  do! now := time_s in
  let expireBefore := now - idleTimeout in
  do! _ := call (ZREMRANGEBYSCORE key expireBefore) in
  call_int (ZCARD key).

Definition isSessionActiveScript (key : string) (idleTimeout : Z) (sessionUUID : string) : Script Db Z :=
  do! now := time_s in
  let expireBefore := now - idleTimeout in
  do! score := call (ZSCORE key sessionUUID) in
  match score with
  | Int score => if score <=? expireBefore then sret 0 else sret 1
  | _ => sret 0
  end.

(** [MGET]: nil for a key that holds no string. *)
Fixpoint MGET (keys : list string) : Script Db (list (option string)) := fun db =>
  match keys with
  | [] => (db, Ok [])
  | key :: keys =>
      let '(db1, r) := exec (GET key) db in
      match MGET keys db1 with
      | (db2, Ok vals) => (db2, Ok (match r with Bulk s => Some s | _ => None end :: vals))
      | (db2, Err e) => (db2, Err e)
      end
  end.

(** A pipeline of scripts; others may act between them. *)
Fixpoint pipe_scripts {A} (scripts : list (Script Db A)) (w : World Db) : list (res A) * World Db :=
  match scripts with
  | [] => ([], w)
  | s :: scripts =>
      let w := arrive w in
      let '(db, r) := s (server w) in
      let '(rs, w) := pipe_scripts scripts (with_server db w) in (r :: rs, w)
  end.

End Scripts.

(** ** The cache *)

(** The text of a number as the client library writes and reads it. *)
Class CostText : Type := {
  FormatFloat : Z -> string;
  ParseFloat : string -> option Z;
  ParseFloat_FormatFloat z : in_i64 z -> ParseFloat (FormatFloat z) = Some z
}.

Record sessionLimitCache : Type := mkSessionCache { defaultIdleTimeout : Duration }.

Definition NewSessionLimitCache (defaultIdleTimeoutMinutes : Z) : sessionLimitCache :=
  let minutes := if defaultIdleTimeoutMinutes <=? 0 then 5 else defaultIdleTimeoutMinutes in
  mkSessionCache (minutes *! Minute).

(** [int(d.Seconds())], for durations that a double represents to the nanosecond. *)
Definition whole_seconds (d : Duration) : Z := Z.quot d Second.

Section Cache.
Context `{Redis Db} `{CostText} (c : sessionLimitCache).

Definition idle_seconds (idleTimeout : Duration) : Z :=
  if whole_seconds idleTimeout <=? 0 then whole_seconds (defaultIdleTimeout c)
  else whole_seconds idleTimeout.

(** The answer and the error, which are returned together. *)
Definition RegisterSession (accountID : Z) (sessionUUID : string) (maxSessions : Z)
    (idleTimeout : Duration) : Client Db (bool * option goerr) :=
  if String.eqb sessionUUID "" || (maxSessions <=? 0) then tret (true, None)
  else
    let! r := ttry (request (registerSessionScript (sessionLimitKey accountID) maxSessions
                               (idle_seconds idleTimeout) sessionUUID)) in
    match r with
    | Err e => tret (true, Some e)
    | Ok result => tret (result =? 1, None)
    end.

Definition UnregisterSession (accountID : Z) (sessionUUID : string) : Client Db unit :=
  if String.eqb sessionUUID "" then tret tt
  else let! _ := request (call (ZREM (sessionLimitKey accountID) sessionUUID)) in tret tt.

Definition RefreshSession (accountID : Z) (sessionUUID : string) (idleTimeout : Duration)
    : Client Db unit :=
  if String.eqb sessionUUID "" then tret tt
  else
    let! _ := request (refreshSessionScript (sessionLimitKey accountID)
                         (idle_seconds idleTimeout) sessionUUID) in
    tret tt.

Definition GetActiveSessionCount (accountID : Z) : Client Db Z :=
  request (getActiveSessionCountScript (sessionLimitKey accountID)
             (whole_seconds (defaultIdleTimeout c))).

(** The timeout of an account in a batch. *)
Definition batch_idle (idleTimeouts : gmap Z Duration) (accountID : Z) : Duration :=
  match idleTimeouts !! accountID with
  | Some t => if 0 <? t then t else defaultIdleTimeout c
  | None => defaultIdleTimeout c
  end.

(** The replies by account: the last command of an account is the one that is read. *)
Fixpoint session_counts (replies : list (Z * res Z)) (results : gmap Z Z) : gmap Z Z :=
  match replies with
  | [] => results
  | (id, Ok n) :: replies => session_counts replies (<[id := n]> results)
  | (id, Err _) :: replies => session_counts replies (delete id results)
  end.

Definition GetActiveSessionCountBatch (accountIDs : list Z) (idleTimeouts : gmap Z Duration)
    : Client Db (gmap Z Z) :=
  match accountIDs with
  | [] => tret ∅
  | _ =>
      let! rs := ttry (autocommit (pipe_scripts (map (fun id =>
        getActiveSessionCountScript (sessionLimitKey id) (whole_seconds (batch_idle idleTimeouts id)))
        accountIDs))) in
      match rs with
      | Ok rs => tret (session_counts (zip accountIDs rs) ∅)
      | Err _ => tret ∅
      end
  end.

Definition IsSessionActive (accountID : Z) (sessionUUID : string) : Client Db bool :=
  if String.eqb sessionUUID "" then tret false
  else
    let! result := request (isSessionActiveScript (sessionLimitKey accountID)
                              (whole_seconds (defaultIdleTimeout c)) sessionUUID) in
    tret (result =? 1).

(** The cost, or [None] for a miss. *)
Definition GetWindowCost (accountID : Z) : Client Db (option Z) :=
  let! r := request (call (GET (windowCostKey accountID))) in
  match r with
  | Nil => tret None
  | Bulk s => match ParseFloat s with
              | Some cost => tret (Some cost)
              | None => tfail (ErrMsg "strconv.ParseFloat")
              end
  | _ => tfail (ErrMsg "redis: unexpected type")
  end.

Definition SetWindowCost (accountID cost : Z) : Client Db unit :=
  let! _ := request (call (SET (windowCostKey accountID) (FormatFloat cost) false
                             (expiration windowCostCacheTTL))) in
  tret tt.

Fixpoint window_costs (vals : list (Z * option string)) (results : gmap Z Z) : gmap Z Z :=
  match vals with
  | [] => results
  | (id, Some v) :: vals =>
      window_costs vals (match ParseFloat v with Some cost => <[id := cost]> results | None => results end)
  | (_, None) :: vals => window_costs vals results
  end.

Definition GetWindowCostBatch (accountIDs : list Z) : Client Db (gmap Z Z) :=
  match accountIDs with
  | [] => tret ∅
  | _ =>
      let! vals := request (MGET (map windowCostKey accountIDs)) in
      tret (window_costs (zip accountIDs vals) ∅)
  end.

End Cache.

(** ** The scripts on the sessions of an account *)

Section Account.
Context `{Redis Db} (K : string).
Implicit Types (db : Db) (z : zset) (e : option Z).

Definition sessions_at (db : Db) (z : zset) (e : option Z) : Prop := peek db K = zset_entry z e.

Lemma swp_sessions f c (Q : res Reply -> Db -> Prop) db z e :
  sessions_at db z e -> key_of c = K -> (forall en, effect (server_ms db) c en = on_zset en f) ->
  (forall db' e', sessions_at db' (f z).1 e' -> e' = e \/ e' = None -> micros db' = micros db ->
     Q (reply_res (f z).2) db') ->
  swp (call c) Q db.
Proof.
  intros Hz Hk Hf HQ. eapply swp_call; [by rewrite Hk, Hz, Hf, on_zset_entry|].
  intros db' (Hk' & _ & Hm). rewrite Hk in *. eapply HQ; [exact Hk'| |done]. case_decide; auto.
Qed.

(** Commands that only read. *)
Lemma read_sessions r c (Q : res Reply -> Db -> Prop) db z e :
  sessions_at db z e -> key_of c = K ->
  (forall en, effect (server_ms db) c en = on_zset en (fun z => (z, r z))) ->
  (forall db', sessions_at db' z e -> micros db' = micros db -> Q (reply_res (r z)) db') ->
  swp (call c) Q db.
Proof.
  intros Hz Hk Hf HQ. eapply swp_call; [by rewrite Hk, Hz, Hf, on_zset_entry|].
  intros db' (Hk' & _ & Hm). rewrite Hk in *. cbn in *. rewrite empty_expiry in Hk'. by apply HQ.
Qed.

Lemma prune_sessions cutoff (Q : res Reply -> Db -> Prop) db z e :
  sessions_at db z e ->
  (forall n db' e', sessions_at db' (unexpired z cutoff) e' -> e' = e \/ e' = None ->
     micros db' = micros db -> Q (Ok (Int n)) db') ->
  swp (call (ZREMRANGEBYSCORE K cutoff)) Q db.
Proof.
  intros Hz HQ. eapply swp_sessions; [exact Hz|done|cbn; done|]. intros db' e' Hz'. by eapply HQ.
Qed.

Lemma card_sessions (Q : res Z -> Db -> Prop) db z e :
  sessions_at db z e ->
  (forall db', sessions_at db' z e -> micros db' = micros db -> Q (Ok (count z)) db') ->
  swp (call_int (ZCARD K)) Q db.
Proof.
  intros Hz HQ. unfold call_int. apply swp_bind. eapply read_sessions; [exact Hz|done|cbn; done|].
  intros db' Hz' Hm. by apply swp_ret, HQ.
Qed.

Lemma member_session m (Q : res bool -> Db -> Prop) db z e :
  sessions_at db z e ->
  (forall db', sessions_at db' z e -> micros db' = micros db ->
     Q (Ok (bool_decide (is_Some (z !! m)))) db') ->
  swp (is_member K m) Q db.
Proof.
  intros Hz HQ. unfold is_member. apply swp_bind. eapply read_sessions; [exact Hz|done|cbn; done|].
  intros db' Hz' Hm. specialize (HQ db' Hz' Hm). cbn. destruct (z !! m); exact HQ.
Qed.

Lemma admit_session m t ttl (Q : res unit -> Db -> Prop) db z e :
  sessions_at db z e -> 0 < ttl ->
  (forall db', sessions_at db' (<[m := t]> z) (Some (server_ms db + 1000 * ttl)) ->
     micros db' = micros db -> Q (Ok tt) db') ->
  swp (admit_member K t ttl m) Q db.
Proof.
  intros Hz Httl HQ. unfold admit_member. apply swp_bind.
  eapply swp_sessions; [exact Hz|done|cbn; done|]. intros db1 e1 Hz1 _ Hm1. cbn in Hz1 |- *.
  apply swp_bind.
  eapply (swp_call _ (zset_entry (<[m := t]> z) (Some (server_ms db1 + 1000 * ttl))) (Int 1)).
  - cbn [effect key_of EXPIRE]. rewrite Hz1. unfold zset_entry, entry_of. rewrite of_zset_insert.
    cbn. by rewrite (proj2 (Z.leb_gt _ 0)) by lia.
  - intros db2 (Hz2 & _ & Hm2). cbn in Hz2 |- *. apply swp_ret, HQ; [|congruence].
    unfold sessions_at. rewrite Hz2. unfold server_ms. by rewrite Hm1.
Qed.

Lemma register_spec max idle uuid (Q : res Z -> Db -> Prop) db z e :
  let now := server_s db in
  let z1 := unexpired z (now - idle) in
  sessions_at db z e -> 0 <= idle ->
  (forall db', sessions_at db' (<[uuid := now]> z1) (Some (server_ms db + 1000 * (idle + 60))) ->
     micros db' = micros db -> is_Some (z1 !! uuid) \/ count z1 < max -> Q (Ok 1) db') ->
  (forall db' e', sessions_at db' z1 e' -> e' = e \/ e' = None -> micros db' = micros db ->
     z1 !! uuid = None -> max <= count z1 -> Q (Ok 0) db') ->
  swp (registerSessionScript K max idle uuid) Q db.
Proof.
  intros now z1 Hz Hidle Hyes Hno. unfold registerSessionScript.
  apply swp_bind. unfold swp at 1, time_s. cbn [fst snd]. fold now.
  apply swp_bind. eapply prune_sessions; [exact Hz|]. intros n db1 e1 Hz1 He1 Hm1. fold z1 in Hz1.
  apply swp_bind. eapply member_session; [exact Hz1|]. intros db2 Hz2 Hm2.
  assert (Hms : server_ms db2 = server_ms db) by (unfold server_ms; congruence).
  assert (Hadm : forall db3, sessions_at db3 z1 e1 -> micros db3 = micros db ->
    is_Some (z1 !! uuid) \/ count z1 < max ->
    swp (do! _ := admit_member K now (idle + 60) uuid in sret 1) Q db3).
  { intros db3 Hz3 Hm3 Hroom. apply swp_bind. eapply admit_session; [exact Hz3|lia|].
    intros db4 Hz4 Hm4. apply swp_ret, Hyes; [|congruence|done].
    unfold server_ms in *. by rewrite <- Hm3. }
  case_bool_decide as Hin; [apply Hadm; [done|congruence|auto]|].
  apply swp_bind. eapply card_sessions; [exact Hz2|]. intros db3 Hz3 Hm3.
  destruct (Z.ltb_spec (count z1) max); [apply Hadm; [done|congruence|auto]|].
  apply swp_ret. eapply Hno; [exact Hz3|done|congruence| |done]. by apply eq_None_not_Some.
Qed.

(** *** Histories *)

Inductive SessionOp : Type :=
  | OpRegister (max idle : Z) (uuid : string)
  | OpUnregister (uuid : string)
  | OpRefresh (idle : Z) (uuid : string)
  | OpCount (idle : Z)
  | OpIsActive (idle : Z) (uuid : string)
  | OpElsewhere (c : Command)
  | OpElapse (n : Z).

(** The server, and the sessions that have been admitted and not been given back since,
with the time of the last admission. *)
Definition history : Type := Db * gmap string Z.

Definition session_step (op : SessionOp) (h : history) : history :=
  let '(db, admitted) := h in
  match op with
  | OpRegister max idle uuid =>
      let '(db', r) := registerSessionScript K max idle uuid db in
      (db', if decide (r = Ok 1) then <[uuid := server_s db]> admitted else admitted)
  | OpUnregister uuid => ((call (ZREM K uuid) db).1, delete uuid admitted)
  | OpRefresh idle uuid => ((refreshSessionScript K idle uuid db).1, admitted)
  | OpCount idle => ((getActiveSessionCountScript K idle db).1, admitted)
  | OpIsActive idle uuid => ((isSessionActiveScript K idle uuid db).1, admitted)
  | OpElsewhere c => ((call c db).1, admitted)
  | OpElapse n => (elapse n db, admitted)
  end.

Definition session_run (ops : list SessionOp) (h : history) : history :=
  foldl (fun h op => session_step op h) h ops.

(** Limits of at most [M], idle timeouts of at least [T] seconds. *)
Definition legal_session (M T : Z) (op : SessionOp) : Prop :=
  match op with
  | OpRegister max idle _ => max <= M /\ T <= idle
  | OpRefresh idle _ | OpCount idle => T <= idle
  | OpElsewhere c => key_of c <> K
  | _ => True
  end.

(** The sessions that were admitted less than [T] seconds ago. *)
Definition recent (T : Z) (h : history) : gmap string Z :=
  filter (fun p => server_s h.1 - T < p.2) h.2.

(** At most [M] sessions, all recent ones among them, and the key outlasts these. *)
Definition sessions_inv (M T : Z) (h : history) : Prop :=
  exists z e, sessions_at h.1 z e /\ count z <= M /\
    (forall u t, recent T h !! u = Some t -> exists s, z !! u = Some s /\ t <= s) /\
    (forall u t, recent T h !! u = Some t -> outlasts T e t) /\
    (forall u t, h.2 !! u = Some t -> t <= server_s h.1).

Lemma recent_lookup T h u t : recent T h !! u = Some t <-> h.2 !! u = Some t /\ server_s h.1 - T < t.
Proof. unfold recent. rewrite map_lookup_filter_Some. done. Qed.

Lemma recent_within M T h : sessions_inv M T h -> count (recent T h) <= M.
Proof.
  intros (z & e & _ & Hm & Hrec & _). etrans; [|exact Hm]. unfold count. apply inj_le.
  rewrite <- !size_dom. apply subseteq_size. intros u Hu%elem_of_dom.
  destruct Hu as [t Hu]. apply Hrec in Hu as (s & Hs & _). by apply elem_of_dom.
Qed.

(** *** Each operation keeps the invariant *)

Definition inv_at (M T : Z) (h : history) (z : zset) (e : option Z) : Prop :=
  sessions_at h.1 z e /\ count z <= M /\
  (forall u t, recent T h !! u = Some t -> exists s, z !! u = Some s /\ t <= s) /\
  (forall u t, recent T h !! u = Some t -> outlasts T e t) /\
  (forall u t, h.2 !! u = Some t -> t <= server_s h.1).

Lemma inv_step M T db log db' log' z e z' e' :
  inv_at M T (db, log) z e -> micros db' = micros db -> sessions_at db' z' e' -> count z' <= M ->
  log' ⊆ log ->
  (forall u s, is_Some (log' !! u) -> z !! u = Some s -> server_s db - T < s ->
     exists s', z' !! u = Some s' /\ (s <= s' \/ server_s db <= s')) ->
  (forall t, t <= server_s db -> outlasts T e t -> outlasts T e' t) ->
  inv_at M T (db', log') z' e'.
Proof.
  intros (Hz & Hc & Hrec & Hexp & Hle) Hm Hz' Hc' Hlog Hkeep Hexp'.
  pose proof (now_same _ _ Hm) as Hnow.
  assert (Hr : forall u t, recent T (db', log') !! u = Some t ->
    is_Some (log' !! u) /\ recent T (db, log) !! u = Some t /\ t <= server_s db /\ server_s db - T < t).
  { intros u t Hu. apply recent_lookup in Hu as [Hu Ht]. cbn in Hu, Ht.
    pose proof (lookup_weaken _ _ _ _ Hu Hlog) as Hu'. rewrite Hnow in Ht.
    split; [by eexists|]. split; [by apply recent_lookup|]. split; [by apply (Hle u)|done]. }
  split; [done|]. split; [done|]. split; [|split].
  - intros u t Hu. destruct (Hr u t Hu) as (Hin & Hu' & _ & Ht).
    destruct (Hrec u t Hu') as (s & Hs & Hts).
    destruct (Hkeep u s Hin Hs) as (s' & Hs' & Hss); [lia|]. exists s'.
    split; [done|]. pose proof (Hle u t) as Hut. apply recent_lookup in Hu' as [Hu' _].
    specialize (Hut Hu'). cbn in Hut. lia.
  - intros u t Hu. destruct (Hr u t Hu) as (_ & Hu' & Ht & _). apply Hexp'; [done|]. by apply (Hexp u).
  - intros u t Hu. cbn in *. rewrite Hnow. apply (Hle u). by eapply lookup_weaken.
Qed.

Lemma inv_admit M T db log z e u :
  inv_at M T (db, log) z e -> z !! u = Some (server_s db) -> outlasts T e (server_s db) ->
  inv_at M T (db, <[u := server_s db]> log) z e.
Proof.
  intros (Hz & Hc & Hrec & Hexp & Hle) Hu He. split; [done|]. split; [done|]. split; [|split].
  - intros u' t [Hu' Ht]%recent_lookup. cbn in Hu', Ht.
    apply lookup_insert_Some in Hu' as [[<- <-]|[_ Hu']]; [by eexists|].
    apply (Hrec u'). by apply recent_lookup.
  - intros u' t [Hu' Ht]%recent_lookup. cbn in Hu', Ht.
    apply lookup_insert_Some in Hu' as [[<- <-]|[_ Hu']]; [done|].
    apply (Hexp u'). by apply recent_lookup.
  - intros u' t Hu'. cbn in *. apply lookup_insert_Some in Hu' as [[<- <-]|[_ Hu']]; [done|].
    by apply (Hle u').
Qed.

Lemma count_le z z' : z' ⊆ z -> count z' <= count z.
Proof. intros Hz. unfold count. apply inj_le. by apply map_subseteq_size. Qed.

Lemma unexpired_le z c : count (unexpired z c) <= count z.
Proof. apply count_le, map_filter_subseteq. Qed.

Lemma count_insert z u s : count (<[u := s]> z) = if decide (is_Some (z !! u)) then count z else count z + 1.
Proof.
  unfold count. rewrite map_size_insert. destruct (z !! u) eqn:E.
  - rewrite decide_True by eauto. done.
  - rewrite decide_False by (intros [? ?]; congruence). lia.
Qed.

Lemma expiry_kept T e e' : e' = e \/ e' = None -> forall t, outlasts T e t -> outlasts T e' t.
Proof. intros [->| ->] t; [done|]. intros _. exact I. Qed.

Lemma expiry_set T db idle t : T <= idle -> t <= server_s db ->
  outlasts T (Some (server_ms db + 1000 * (idle + 60))) t.
Proof.
  intros HT Ht. pose proof (outlasts_set T db t Ht) as Ho. unfold outlasts in *. lia.
Qed.

(** What the scripts do with an unexpired session that they do not touch, and with one
that they refresh. *)
Lemma unexpired_keeps z now idle T u s : T <= idle -> z !! u = Some s -> now - T < s ->
  unexpired z (now - idle) !! u = Some s.
Proof. intros HT Hu Hs. apply map_lookup_filter_Some. cbn. split; [done|lia]. Qed.

Lemma insert_keeps z now uuid u s : z !! u = Some s ->
  exists s', <[uuid := now]> z !! u = Some s' /\ (s <= s' \/ now <= s').
Proof.
  intros Hu. destruct (decide (u = uuid)) as [->|Hne].
  - exists now. rewrite lookup_insert_eq. split; [done|lia].
  - exists s. rewrite lookup_insert_ne by done. split; [done|lia].
Qed.

Lemma register_inv M T db log z e max idle uuid :
  0 < T -> max <= M -> T <= idle -> inv_at M T (db, log) z e ->
  sessions_inv M T (session_step (OpRegister max idle uuid) (db, log)).
Proof.
  intros HT Hmax Hidle Hinv.
  assert (Hs : swp (registerSessionScript K max idle uuid)
    (fun r db' => sessions_inv M T (db', if decide (r = Ok 1) then <[uuid := server_s db]> log else log)) db).
  { pose proof Hinv as (Hz & Hc & _). pose proof (unexpired_le z (server_s db - idle)) as Hu.
    apply (register_spec _ _ _ _ _ z e); [done|lia|..].
    - intros db' Hz' Hm Hroom. rewrite decide_True by done.
      rewrite <- (now_same _ _ Hm) at 1. eexists _, _. apply inv_admit.
      + eapply inv_step; [exact Hinv|exact Hm|exact Hz'| |done| |].
        * rewrite count_insert. case_decide; [lia|]. destruct Hroom; [done|lia].
        * intros u s _ Hs Hlt. by eapply insert_keeps, unexpired_keeps.
        * intros t Ht _. by apply expiry_set.
      + rewrite lookup_insert_eq. by rewrite (now_same _ _ Hm).
      + rewrite (now_same _ _ Hm). by apply expiry_set.
    - intros db' e' Hz' He' Hm _ _. rewrite decide_False by discriminate.
      eexists _, _. eapply inv_step; [exact Hinv|exact Hm|exact Hz'|lia|done| |].
      + intros u s _ Hs Hlt. exists s. split; [by eapply unexpired_keeps|lia].
      + intros t _. by apply expiry_kept. }
  unfold session_step, swp in *. by destruct (registerSessionScript K max idle uuid db).
Qed.

Lemma refresh_inv M T db log z e idle uuid : 0 < T -> T <= idle -> inv_at M T (db, log) z e ->
  swp (refreshSessionScript K idle uuid) (fun _ db' => sessions_inv M T (db', log)) db.
Proof.
  intros HT Hidle Hinv. pose proof Hinv as (Hz & Hc & _). unfold refreshSessionScript.
  apply swp_bind. unfold swp at 1, time_s. cbn [fst snd].
  apply swp_bind. eapply member_session; [exact Hz|]. intros db1 Hz1 Hm1.
  case_bool_decide as Hin.
  - apply swp_bind. eapply admit_session; [exact Hz1|lia|]. intros db2 Hz2 Hm2. apply swp_ret.
    eexists _, _. eapply inv_step; [exact Hinv|by rewrite Hm2|exact Hz2| |done| |].
    + rewrite count_insert, decide_True by done. done.
    + intros u s _ Hs _. by apply insert_keeps.
    + intros t Ht _. assert (server_ms db1 = server_ms db) as -> by (unfold server_ms; by rewrite Hm1).
      by apply expiry_set.
  - apply swp_ret. eexists _, _. eapply inv_step; [exact Hinv|exact Hm1|exact Hz1|done|done| |done].
    intros u s _ Hs _. exists s. split; [done|lia].
Qed.

Lemma count_inv M T db log z e idle : T <= idle -> inv_at M T (db, log) z e ->
  swp (getActiveSessionCountScript K idle) (fun _ db' => sessions_inv M T (db', log)) db.
Proof.
  intros Hidle Hinv. pose proof Hinv as (Hz & Hc & _). unfold getActiveSessionCountScript.
  apply swp_bind. unfold swp at 1, time_s. cbn [fst snd].
  apply swp_bind. eapply prune_sessions; [exact Hz|]. intros n db1 e1 Hz1 He1 Hm1.
  eapply card_sessions; [exact Hz1|]. intros db2 Hz2 Hm2.
  pose proof (unexpired_le z (server_s db - idle)).
  eexists _, _. eapply inv_step; [exact Hinv|by rewrite Hm2|exact Hz2|lia|done| |].
  - intros u s _ Hs Hlt. exists s. split; [by eapply unexpired_keeps|lia].
  - intros t _. by apply expiry_kept.
Qed.

Lemma active_inv M T db log z e idle uuid : inv_at M T (db, log) z e ->
  swp (isSessionActiveScript K idle uuid) (fun _ db' => sessions_inv M T (db', log)) db.
Proof.
  intros Hinv. pose proof Hinv as (Hz & Hc & _). unfold isSessionActiveScript.
  apply swp_bind. unfold swp at 1, time_s. cbn [fst snd]. apply swp_bind.
  eapply read_sessions; [exact Hz|done|cbn; done|]. intros db1 Hz1 Hm1.
  assert (Hi : sessions_inv M T (db1, log)).
  { eexists _, _. eapply inv_step; [exact Hinv|exact Hm1|exact Hz1|done|done| |done].
    intros u s _ Hs _. exists s. split; [done|lia]. }
  cbn. destruct (z !! uuid); cbn; [case_match|]; by apply swp_ret.
Qed.

Lemma unregister_inv M T db log z e uuid : inv_at M T (db, log) z e ->
  swp (call (ZREM K uuid)) (fun _ db' => sessions_inv M T (db', delete uuid log)) db.
Proof.
  intros Hinv. pose proof Hinv as (Hz & Hc & _).
  eapply swp_sessions; [exact Hz|done|cbn; done|]. intros db1 e1 Hz1 He1 Hm1. cbn in Hz1.
  pose proof (count_le z (delete uuid z) (delete_subseteq _ _)).
  eexists _, _. eapply inv_step; [exact Hinv|exact Hm1|exact Hz1|lia|apply delete_subseteq| |].
  - intros u s [t Ht] Hs _. apply lookup_delete_Some in Ht as [Hne _]. exists s.
    rewrite lookup_delete_ne by done. split; [done|lia].
  - intros t _. by apply expiry_kept.
Qed.

Lemma elapse_inv M T db log z e n : 0 <= M -> inv_at M T (db, log) z e ->
  sessions_inv M T (elapse n db, log).
Proof.
  intros HM (Hz & Hc & Hrec & Hexp & Hle).
  pose proof (elapse_mono n db) as Hmono. pose proof (elapse_peek n db K) as Hk.
  unfold sessions_at in Hz. cbn in Hz. rewrite Hz in Hk.
  assert (Hr : forall u t, recent T (elapse n db, log) !! u = Some t -> recent T (db, log) !! u = Some t).
  { intros u t [Hu Ht]%recent_lookup. apply recent_lookup. cbn in *. split; [done|lia]. }
  assert (Hnow : forall u t, log !! u = Some t -> t <= server_s (elapse n db)).
  { intros u t Hu. specialize (Hle u t Hu). cbn in Hle. lia. }
  destruct (alive _ _) eqn:Ha.
  - exists z, e. split; [exact Hk|]. split; [done|]. split; [|split]; eauto.
  - exists ∅, None. split; [exact Hk|]. split; [exact HM|].
    assert (Hno : forall u t, recent T (elapse n db, log) !! u = Some t -> False).
    { intros u t Hu. specialize (Hexp u t (Hr u t Hu)).
      assert (He : exists x, e = Some x /\ x < server_ms (elapse n db)).
      { unfold zset_entry, entry_of in Ha. cbn in Ha. destruct (of_zset z); cbn in Ha; [|done].
        destruct e as [x|]; [|done]. cbn in Ha. apply Z.leb_gt in Ha. by exists x. }
      destruct He as (x & -> & Hx). apply recent_lookup in Hu as [_ Hu]. cbn in Hu, Hexp.
      unfold server_s, server_ms in *.
      assert (micros (elapse n db) / 1000000 = micros (elapse n db) / 1000 / 1000)
        by (rewrite Z.div_div; done).
      pose proof (Z.div_mod (micros (elapse n db) / 1000) 1000).
      pose proof (Z.mod_pos_bound (micros (elapse n db) / 1000) 1000). lia. }
    split; [|split]; [intros u t Hu; destruct (Hno u t Hu)..|exact Hnow].
Qed.

Lemma session_step_inv M T op h : 0 < T -> 0 <= M -> legal_session M T op -> sessions_inv M T h ->
  sessions_inv M T (session_step op h).
Proof.
  intros HT HM Hl. destruct h as [db log]. intros (z & e & Hinv). destruct op; cbn [legal_session] in Hl.
  - destruct Hl. by eapply register_inv.
  - by eapply unregister_inv.
  - by eapply refresh_inv.
  - by eapply count_inv.
  - by eapply active_inv.
  - pose proof Hinv as (Hz & Hc & _). eexists _, _. cbn.
    eapply inv_step; [exact Hinv|rewrite call_db; apply exec_micros| |exact Hc|done| |done].
    + unfold sessions_at. rewrite call_db, exec_other by done. exact Hz.
    + intros u s _ Hs _. exists s. split; [done|lia].
  - by eapply elapse_inv.
Qed.

End Account.

(** ** What histories keep *)

Section Theorems.
Context `{Redis Db} (K : string).

Lemma session_run_inv M T ops h : 0 < T -> 0 <= M -> Forall (legal_session K M T) ops ->
  sessions_inv K M T h -> sessions_inv K M T (session_run K ops h).
Proof.
  intros HT HM Hl. revert h; induction Hl as [|op ops Hop _ IH]; intros h Hh; [done|].
  apply IH. by apply session_step_inv.
Qed.

Lemma no_sessions_inv M T db : 0 <= M -> peek db K = (None, None) -> sessions_inv K M T (db, ∅).
Proof.
  intros HM Hk. exists ∅, None. split; [exact Hk|]. split; [exact HM|].
  split; [|split]; intros u t; [intros [Hu _]%recent_lookup..|intros Hu]; cbn in Hu; by rewrite lookup_empty in Hu.
Qed.

(** C38. In every history of the scripts on an account's sessions, from an account
without sessions, let [M] be at least the limit of every registration and [T] at most
the idle timeout of every operation, counts and refreshes included: at most [M] sessions
are admitted less than [T] seconds ago and not given back since, and every one of these
is still active. An operation with a shorter timeout drops longer sessions, see
[counting_drops_long_sessions], so that [T] has to be the shortest. *)
Theorem admitted_sessions_within_the_limit M T ops db :
  0 < T -> 0 <= M -> Forall (legal_session K M T) ops -> peek db K = (None, None) ->
  let h := session_run K ops (db, ∅) in
  count (recent T h) <= M /\
  forall u, is_Some (recent T h !! u) -> swp (isSessionActiveScript K T u) (fun r _ => r = Ok 1) h.1.
Proof.
  intros HT HM Hl Hk h.
  assert (Hinv : sessions_inv K M T h) by (apply session_run_inv, no_sessions_inv; done).
  split; [by eapply recent_within|]. intros u [t Hu]. destruct Hinv as (z & e & Hz & _ & Hrec & _).
  destruct (Hrec u t Hu) as (s & Hs & Hts). apply recent_lookup in Hu as [_ Ht].
  unfold isSessionActiveScript. apply swp_bind. unfold swp at 1, time_s. cbn [fst snd].
  apply swp_bind. eapply read_sessions; [exact Hz|done|cbn; done|]. intros db1 _ _. cbn. rewrite Hs. cbn.
  rewrite (proj2 (Z.leb_gt _ _)) by lia. by apply swp_ret.
Qed.

End Theorems.

(** ** Examples: account 7 with two sessions of five minutes *)

#[export] Instance decimal_costs : CostText := {
  FormatFloat := FormatInt; ParseFloat := ParseInt; ParseFloat_FormatFloat := ParseInt_FormatInt
}.

Definition ex_sessions : sessionLimitCache := NewSessionLimitCache 0.
Definition ex_client (db : MapRedis) : World MapRedis := mkWorld db 0 false [].
Definition then_ {A} (db : MapRedis) (m : Client MapRedis A) : MapRedis := server (m (ex_client db) []).1.2.
Definition told {A} (db : MapRedis) (m : Client MapRedis A) : res A := (m (ex_client db) []).1.1.

Definition ex_both : MapRedis :=
  then_ (elapse 60000000 (then_ empty_redis (RegisterSession ex_sessions 7 "a" 2 (5 * Minute))))
    (RegisterSession ex_sessions 7 "b" 2 (5 * Minute)).

Example ex_third_session :
  told ex_both (RegisterSession ex_sessions 7 "c" 2 (5 * Minute)) = Ok (false, None) /\
  told ex_both (RegisterSession ex_sessions 7 "a" 2 (5 * Minute)) = Ok (true, None) /\
  told (elapse 240000000 ex_both) (RegisterSession ex_sessions 7 "c" 2 (5 * Minute)) = Ok (true, None) /\
  told (then_ ex_both (UnregisterSession 7 "b")) (RegisterSession ex_sessions 7 "c" 2 0) = Ok (true, None) /\
  told ex_both (GetActiveSessionCountBatch ex_sessions [7; 8] ∅) = Ok {[7 := 2; 8 := 0]}.
Proof. vm_compute. repeat split. Qed.

(** An error of the server lets a session pass. *)
Example ex_fail_open :
  let r := RegisterSession ex_sessions 7 "c" 2 (5 * Minute) (ex_client ex_both) [Some (Refused "timeout")] in
  r.1.1 = Ok (true, Some (ErrWrap "driver" (ErrMsg "timeout"))) /\ server r.1.2 = ex_both.
Proof. vm_compute. by split. Qed.

(** The count without a timeout of the account's own drops the sessions of an account
whose timeout is longer, and lets one more in. *)
Example counting_drops_long_sessions :
  let db := elapse 360000000 (then_ empty_redis (RegisterSession ex_sessions 7 "a" 1 (30 * Minute))) in
  told db (RegisterSession ex_sessions 7 "b" 1 (30 * Minute)) = Ok (false, None) /\
  told (then_ db (GetActiveSessionCount ex_sessions 7)) (RegisterSession ex_sessions 7 "b" 1 (30 * Minute)) =
    Ok (true, None).
Proof. vm_compute. by split. Qed.

Example ex_window_cost :
  let db := then_ empty_redis (SetWindowCost 7 125) in
  told db (GetWindowCost 7) = Ok (Some 125) /\ told db (GetWindowCost 8) = Ok None /\
  told db (GetWindowCostBatch [8; 7]) = Ok {[7 := 125]} /\
  told (elapse 31000000 db) (GetWindowCost 7) = Ok None.
Proof. vm_compute. repeat split. Qed.

Definition ex_session_history : list SessionOp :=
  [OpRegister 2 300 "a"; OpElapse 60000000; OpRegister 2 600 "b"; OpRegister 2 300 "c"; OpCount 300;
   OpRefresh 300 "a"; OpUnregister "b"; OpRegister 1 300 "c"; OpIsActive 10 "a"].

Lemma admitted_sessions_within_the_limit_witness :
  let h := session_run (sessionLimitKey 7) ex_session_history (empty_redis, ∅) in
  count (recent 300 h) <= 2 /\
  forall u, is_Some (recent 300 h !! u) ->
    swp (isSessionActiveScript (sessionLimitKey 7) 300 u) (fun r _ => r = Ok 1) h.1.
Proof.
  apply (admitted_sessions_within_the_limit (sessionLimitKey 7) 2 300 ex_session_history empty_redis
    eq_refl ltac:(discriminate)); [|reflexivity].
  unfold ex_session_history. repeat apply Forall_cons_2; try apply Forall_nil_2; cbn; lia || done.
Defined.
