(* ===== verification/RateCounters.v ===== *)
(** * Requests per minute

The counters of requests per minute in Redis: of accounts ([repository/rpm_cache.go]),
and of users and their groups ([repository/user_rpm_cache.go]), with the check of a
request against the limits ([checkRPM] of [service/billing_cache_service.go]).  A
counter is one key per minute of the server's time, which is read by a request of its
own. *)
From S2P Require Import Prelude GoText Programs Redis SlotLimits SlotRuns.
From Stdlib Require Import Bool.

Local Open Scope string_scope.
Local Open Scope Z_scope.

Definition rpmKeyPrefix := "rpm:".
Definition rpmKeyTTL : Duration := 120 * Second.
Definition userGroupRPMKeyPrefix := "rpm:ug:".
Definition userRPMKeyPrefix := "rpm:u:".
Definition userRPMKeyTTL : Duration := 120 * Second.

Definition rpmKey (accountID minute : Z) : string :=
  rpmKeyPrefix +:+ FormatInt accountID +:+ ":" +:+ FormatInt minute.
Definition userGroupRPMKey (userID groupID minute : Z) : string :=
  userGroupRPMKeyPrefix +:+ FormatInt userID +:+ ":" +:+ FormatInt groupID +:+ ":" +:+ FormatInt minute.
Definition userRPMKey (userID minute : Z) : string :=
  userRPMKeyPrefix +:+ FormatInt userID +:+ ":" +:+ FormatInt minute.

Definition ErrGroupRPMExceeded : goerr := ErrApp 429 "GROUP_RPM_EXCEEDED".
Definition ErrUserRPMExceeded : goerr := ErrApp 429 "USER_RPM_EXCEEDED".

(** An error with a message before it, as [fmt.Errorf] wraps it. *)
Definition wrapped {Db A} (prefix : string) (m : Client Db A) : Client Db A :=
  let! r := ttry m in
  match r with Ok a => tret a | Err e => tfail (ErrWrap prefix e) end.

Section Counters.
Context `{Redis Db}.

(** The two commands of [TxPipeline]: the count, and the lifetime of the key. *)
Definition incr_expire (key : string) (ttl : Duration) : Script Db Z :=
  do! rs := multi [INCR key 1; EXPIRE key (Z.quot ttl Second)] in
  match rs with
  | Int n :: _ => sret n
  | _ => sret 0
  end.

(** [Get(key).Int()], zero for a key that does not exist. *)
Definition get_count (prefix key : string) : Client Db Z :=
  let! r := ttry (request (call (GET key))) in
  match r with
  | Err e => tfail (ErrWrap prefix e)
  | Ok Nil => tret 0
  | Ok r => match reply_int r with Ok n => tret n | Err e => tfail (ErrWrap prefix e) end
  end.

(** *** Accounts *)

Definition currentMinute : Client Db Z :=
  let! now := wrapped "redis TIME" (request time_s) in tret (now / 60).

Definition currentMinuteKey (accountID : Z) : Client Db string :=
  let! minuteTS := currentMinute in tret (rpmKey accountID minuteTS).

Definition currentMinuteSuffix : Client Db string :=
  let! minuteTS := currentMinute in tret (FormatInt minuteTS).

Definition IncrementRPM (accountID : Z) : Client Db Z :=
  let! key := wrapped "rpm increment" (currentMinuteKey accountID) in
  wrapped "rpm increment" (request (incr_expire key rpmKeyTTL)).

Definition GetRPM (accountID : Z) : Client Db Z :=
  let! key := wrapped "rpm get" (currentMinuteKey accountID) in
  get_count "rpm get" key.

(** The counts of a batch: zero for a reply that is not a number. *)
Fixpoint counts_by_id (replies : list (Z * Reply)) (result : gmap Z Z) : gmap Z Z :=
  match replies with
  | [] => result
  | (id, r) :: replies =>
      counts_by_id replies (<[id := match reply_int r with Ok n => n | Err _ => 0 end]> result)
  end.

Definition GetRPMBatch (accountIDs : list Z) : Client Db (gmap Z Z) :=
  match accountIDs with
  | [] => tret ∅
  | _ =>
      let! minuteSuffix := wrapped "rpm batch get" currentMinuteSuffix in
      let! rs := wrapped "rpm batch get" (pipeline (map (fun id =>
        GET (rpmKeyPrefix +:+ FormatInt id +:+ ":" +:+ minuteSuffix)) accountIDs)) in
      tret (counts_by_id (zip accountIDs rs) ∅)
  end.

(** *** Users and groups *)

Definition minuteTS : Client Db Z :=
  let! t := wrapped "redis TIME" (request time_s) in tret (t / 60).

Definition atomicIncr (key : string) : Client Db Z :=
  wrapped "user rpm increment" (request (incr_expire key userRPMKeyTTL)).

Definition IncrementUserGroupRPM (userID groupID : Z) : Client Db Z :=
  let! minute := minuteTS in atomicIncr (userGroupRPMKey userID groupID minute).

Definition IncrementUserRPM (userID : Z) : Client Db Z :=
  let! minute := minuteTS in atomicIncr (userRPMKey userID minute).

Definition GetUserGroupRPM (userID groupID : Z) : Client Db Z :=
  let! minute := minuteTS in get_count "user group rpm get" (userGroupRPMKey userID groupID minute).

Definition GetUserRPM (userID : Z) : Client Db Z :=
  let! minute := minuteTS in get_count "user rpm get" (userRPMKey userID minute).

(** *** The check of a request *)

Record RPMUser : Type := mkRPMUser { user_ID : Z; user_RPMLimit : Z; UserGroupRPMOverride : option Z }.
Record RPMGroup : Type := mkRPMGroup { group_ID : Z; group_RPMLimit : Z }.

(** The override of a user in a group: the snapshot's, or what the repository answers,
which is an input; [None] for a service without the repository. *)
Definition rpm_override (user : RPMUser) (lookup : option (res (option Z))) : option Z :=
  match UserGroupRPMOverride user with
  | Some o => Some o
  | None => match lookup with Some (Ok o) => o | _ => None end
  end.

(** The count is an error of the group when it is above the limit. *)
Definition count_group (user : RPMUser) (group : RPMGroup) (limit : Z) : Client Db (option goerr) :=
  let! count := ttry (IncrementUserGroupRPM (user_ID user) (group_ID group)) in
  match count with
  | Err _ => tret None
  | Ok count => tret (if limit <? count then Some ErrGroupRPMExceeded else None)
  end.

Definition check_group_rpm (user : RPMUser) (group : option RPMGroup)
    (lookup : option (res (option Z))) : Client Db (option goerr) :=
  match group with
  | None => tret None
  | Some group =>
      match rpm_override user lookup with
      | Some override => if 0 <? override then count_group user group override else tret None
      | None => if 0 <? group_RPMLimit group then count_group user group (group_RPMLimit group)
                else tret None
      end
  end.

Definition check_user_rpm (user : RPMUser) : Client Db (option goerr) :=
  if 0 <? user_RPMLimit user then
    let! count := ttry (IncrementUserRPM (user_ID user)) in
    match count with
    | Err _ => tret None
    | Ok count => tret (if user_RPMLimit user <? count then Some ErrUserRPMExceeded else None)
    end
  else tret None.

(** [checkRPM] of a service that has the cache, for a user that is known. *)
Definition checkRPM (user : RPMUser) (group : option RPMGroup) (lookup : option (res (option Z)))
    : Client Db (option goerr) :=
  let! refused := check_group_rpm user group lookup in
  match refused with
  | Some e => tret (Some e)
  | None => check_user_rpm user
  end.

End Counters.

(** ** The counter of one minute *)

Section Minute.
Context `{Redis Db} (key : string) (m : Z).
Implicit Types db : Db.

(** What clients do to the key of minute [m]; the answers of the increments are kept. *)
Inductive RateOp : Type :=
  | OpIncr
  | OpGet
  | OpElsewhere (c : Command)
  | OpElapse (n : Z).

Definition rate_step (op : RateOp) (h : Db * list Z) : Db * list Z :=
  let '(db, answers) := h in
  match op with
  | OpIncr => let '(db', r) := incr_expire key userRPMKeyTTL db in
              (db', match r with Ok n => answers ++ [n] | Err _ => answers end)%list
  | OpGet => ((call (GET key) db).1, answers)
  | OpElsewhere c => ((call c db).1, answers)
  | OpElapse n => (elapse n db, answers)
  end.

Definition rate_run (ops : list RateOp) (h : Db * list Z) : Db * list Z :=
  foldl (fun h op => rate_step op h) h ops.

(** A client that has read minute [m] increments its key within this minute or the
next; nobody else writes the key. *)
Definition timely_op (op : RateOp) (db : Db) : Prop :=
  match op with
  | OpIncr => 60 * m <= server_s db < 60 * m + 120
  | OpElsewhere c => key_of c <> key
  | _ => True
  end.

Fixpoint timely (ops : list RateOp) (h : Db * list Z) : Prop :=
  match ops with
  | [] => True
  | op :: ops => timely_op op h.1 /\ timely ops (rate_step op h)
  end.

(** The milliseconds before which the key cannot expire. *)
Definition horizon : Z := 60000 * m + 120000.

Definition rate_inv (h : Db * list Z) : Prop :=
  h.2 = seqZ 1 (Z.of_nat (length h.2)) /\
  (h.2 = [] /\ peek h.1 key = (None, None) \/
   (exists e, peek h.1 key = (Some (RString (FormatInt (Z.of_nat (length h.2)))), Some e) /\ horizon <= e) \/
   horizon < server_ms h.1).

Lemma seconds_of_ms db : server_s db = server_ms db / 1000.
Proof. unfold server_s, server_ms. by rewrite Z.div_div. Qed.

Lemma incr_expire_spec n (Q : res Z -> Db -> Prop) db :
  waiting key db n -> in_i64 (default 0 n) -> in_i64 (default 0 n + 1) ->
  (forall db', peek db' key = (Some (RString (FormatInt (default 0 n + 1))), Some (server_ms db + 120000)) ->
     (forall k, k <> key -> peek db' k = peek db k) ->
     micros db' = micros db -> Q (Ok (default 0 n + 1)) db') ->
  swp (incr_expire key userRPMKeyTTL) Q db.
Proof.
  intros Hn Hr Hr' HQ. unfold incr_expire. apply swp_bind, swp_multi_cons.
  assert (Hin : (- two63 <=? default 0 n + 1) && (default 0 n + 1 <? two63) = true).
  { unfold in_i64 in Hr'. apply andb_true_iff. split; [apply Z.leb_le|apply Z.ltb_lt]; lia. }
  eapply (swp_call _ (Some (RString (FormatInt (default 0 n + 1))), (peek db key).2)
    (Int (default 0 n + 1))).
  { cbn [effect key_of]. destruct n as [n|]; cbn in Hn, Hr, Hin |- *; rewrite Hn.
    - rewrite ParseInt_FormatInt by done. by rewrite Hin.
    - cbn [fst snd]. by rewrite Hin. }
  intros db1 (Hk1 & Ho1 & Hm1). exists (Int (default 0 n + 1)). split; [done|].
  apply swp_multi_cons. cbn in Hk1, Ho1.
  assert (Hms : server_ms db1 = server_ms db) by (unfold server_ms; by rewrite Hm1).
  eapply (swp_call _ (Some (RString (FormatInt (default 0 n + 1))), Some (server_ms db + 120000)) (Int 1)).
  { cbn [effect key_of EXPIRE]. rewrite Hk1. cbn. by rewrite Hms. }
  intros db2 (Hk2 & Ho2 & Hm2). exists (Int 1). split; [done|]. apply swp_multi_nil, swp_ret, HQ.
  - exact Hk2.
  - intros k Hk. rewrite Ho2 by done. by apply Ho1.
  - by rewrite Hm2.
Qed.

Lemma peek_waiting h : rate_inv h -> server_ms h.1 < horizon ->
  exists o, waiting key h.1 o /\ default 0 o = Z.of_nat (length h.2).
Proof.
  intros (_ & [[-> Hp]|[(e & Hp & _)|Hp]]) Hms; [by exists None|eexists (Some _)|lia].
  cbn. by rewrite Hp.
Qed.

Lemma rate_step_inv op h : rate_inv h -> timely_op op h.1 ->
  Z.of_nat (length h.2) + 1 < two63 -> rate_inv (rate_step op h).
Proof.
  intros Hinv Ht Hlen. destruct h as [db answers]. pose proof Hinv as [Hseq Hpeek]. cbn in Hseq, Hlen, Ht.
  destruct op; cbn [rate_step timely_op] in *.
  - destruct Ht as [Ht1 Ht2]. rewrite seconds_of_ms in Ht1, Ht2.
    assert (Hms : 60000 * m <= server_ms db < horizon).
    { unfold horizon. pose proof (Z.div_mod (server_ms db) 1000).
      pose proof (Z.mod_pos_bound (server_ms db) 1000). lia. }
    assert (Hs : swp (incr_expire key userRPMKeyTTL) (fun r db' => rate_inv
      (db', match r with Ok n => answers ++ [n] | Err _ => answers end)%list) db).
    { set (n := Z.of_nat (length answers)).
      assert (Hdone : forall db', peek db' key = (Some (RString (FormatInt (n + 1))), Some (server_ms db + 120000)) ->
        rate_inv (db', answers ++ [n + 1])%list).
      { intros db' Hk. assert (Hl : Z.of_nat (length (answers ++ [n + 1])%list) = n + 1)
          by (rewrite length_app; cbn; lia).
        split; cbn [fst snd]; rewrite Hl.
        - rewrite Hseq at 1. fold n. rewrite seqZ_app by lia. cbn. by rewrite Z.add_comm.
        - right; left. exists (server_ms db + 120000). unfold horizon. split; [done|lia]. }
      destruct (peek_waiting _ Hinv (proj2 Hms)) as (o & Hw & Ho). cbn in Ho. fold n in Ho.
      eapply (incr_expire_spec o _ db Hw); rewrite Ho; [unfold in_i64, two63 in *; lia..|].
      intros db' Hk _ _. by apply Hdone. }
    unfold swp in Hs. by destruct (incr_expire key userRPMKeyTTL db).
  - split; [done|]. cbn. rewrite call_db.
    assert (Hk : peek (exec (GET key) db).1 key = peek db key) by by rewrite (exec_key (GET key)).
    rewrite Hk, exec_ms. exact Hpeek.
  - split; [done|]. cbn. rewrite call_db, exec_other, exec_ms by done. exact Hpeek.
  - split; [done|]. cbn in Hpeek |- *. pose proof (elapse_peek n db key) as Hk.
    assert (Hmono : server_ms db <= server_ms (elapse n db)).
    { unfold server_ms. apply Z.div_le_mono; [lia|]. rewrite elapse_micros. lia. }
    destruct Hpeek as [[-> Hp]|[(e & Hp & He)|Hp]].
    + left. split; [done|]. rewrite Hk, Hp. by case_match.
    + rewrite Hp in Hk. cbn in Hk. fold (server_ms (elapse n db)) in Hk.
      destruct (Z.leb_spec (server_ms (elapse n db)) e); [right; left; by exists e|].
      right; right. lia.
    + right; right. lia.
Qed.

End Minute.

Definition is_incr (op : RateOp) : bool := match op with OpIncr => true | _ => false end.
Definition increments (ops : list RateOp) : Z := Z.of_nat (length (List.filter is_incr ops)).

Section Run.
Context `{Redis Db} (key : string) (m : Z).

(** Every timely increment is answered. *)
Lemma rate_step_length op h : rate_inv key m h -> timely_op key m op h.1 ->
  Z.of_nat (length h.2) + 1 < two63 ->
  length (rate_step key op h).2 = (length h.2 + (if is_incr op then 1 else 0))%nat.
Proof.
  intros Hinv Ht Hlen. pose proof (rate_step_inv key m op h Hinv Ht Hlen) as Hinv'.
  destruct h as [db answers]. destruct op; cbn in *; try lia.
  destruct Ht as [Ht1 Ht2]. rewrite seconds_of_ms in Ht1, Ht2.
  assert (Hms : server_ms db < horizon m).
  { unfold horizon. pose proof (Z.div_mod (server_ms db) 1000).
    pose proof (Z.mod_pos_bound (server_ms db) 1000). lia. }
  destruct (peek_waiting key m _ Hinv Hms) as (o & Hw & Ho). cbn in Ho.
  assert (Hs : swp (incr_expire key userRPMKeyTTL) (fun r _ => exists n, r = Ok n) db).
  { eapply (incr_expire_spec key o _ db Hw); rewrite Ho; [unfold in_i64, two63 in *; lia..|].
    intros db' _ _ _. eauto. }
  unfold swp in Hs. destruct (incr_expire key userRPMKeyTTL db) as [db' r]. destruct Hs as [n Hr].
  cbn in Hr. subst r. cbn. by rewrite length_app.
Qed.

Lemma rate_run_inv ops h : rate_inv key m h -> timely key m ops h ->
  Z.of_nat (length h.2) + Z.of_nat (length ops) < two63 ->
  rate_inv key m (rate_run key ops h) /\
  Z.of_nat (length (rate_run key ops h).2) = Z.of_nat (length h.2) + increments ops.
Proof.
  unfold increments. revert h; induction ops as [|op ops IH]; intros h Hinv Ht Hlen; [by rewrite Z.add_0_r|].
  destruct Ht as [Hop Ht]. cbn [length] in Hlen.
  assert (Hlt : Z.of_nat (length h.2) + 1 < two63) by lia.
  pose proof (rate_step_length op h Hinv Hop Hlt) as Hl.
  destruct (IH (rate_step key op h)) as [IH1 IH2]; [by apply rate_step_inv|done| |].
  { rewrite Hl. destruct (is_incr op); lia. }
  split; [exact IH1|]. cbn [rate_run foldl List.filter]. unfold rate_run in IH2. rewrite IH2, Hl.
  destruct (is_incr op); cbn [length]; lia.
Qed.

Lemma admitted_of_seqZ L n : 0 <= n ->
  length (filter (fun a => a <= L) (seqZ 1 n)) = Z.to_nat (Z.max 0 (Z.min L n)).
Proof.
  intros Hn. pattern n. apply natlike_ind; [| |done].
  - cbn. by rewrite Z.max_l by lia.
  - clear n Hn. intros n Hn IH. rewrite <- Z.add_1_r, seqZ_app by lia.
    rewrite filter_app, length_app, IH. replace (seqZ (1 + n) 1) with [1 + n] by (cbn; f_equal; lia).
    rewrite filter_cons, filter_nil. case_decide; cbn [length]; lia.
Qed.

(** In every history of a minute's counter - its increments reach the server within
that minute or the next, between them others read, write other keys and let time pass -
the increments are numbered from one without a gap, so that a limit of [L] admits
exactly the first [L] requests of the minute. *)
Theorem minute_admits_the_first_requests L ops db :
  peek db key = (None, None) -> timely key m ops (db, []) -> Z.of_nat (length ops) < two63 ->
  let answers := (rate_run key ops (db, [])).2 in
  answers = seqZ 1 (increments ops) /\
  length (filter (fun count => count <= L) answers) = Z.to_nat (Z.max 0 (Z.min L (increments ops))).
Proof.
  intros Hk Ht Hlen answers.
  destruct (rate_run_inv ops (db, [])) as [[Hseq _] Hl]; [split; [done|by left]|done|done|].
  cbn [snd length] in Hl. rewrite Z.add_0_l in Hl. rewrite Hl in Hseq. split; [exact Hseq|].
  unfold answers. rewrite Hseq. apply admitted_of_seqZ. unfold increments. lia.
Qed.

End Run.

(** ** The check of a request that is alone *)

Section Check.
Context `{Redis Db}.
Implicit Types w : World Db.

(** The count of a key, zero for a key that does not exist. *)
Definition counter (db : Db) (key : string) (n : Z) : Prop :=
  exists o, waiting key db o /\ default 0 o = n /\ 0 <= n < two63 - 1.

(** The limit that holds for the user in the group: the override, where there is one,
in place of the limit of the group; not positive for none. *)
Definition group_limit (user : RPMUser) (group : option RPMGroup) (lookup : option (res (option Z))) : Z :=
  match group with
  | None => 0
  | Some g => default (group_RPMLimit g) (rpm_override user lookup)
  end.

(** What the documentation promises: both limits hold at once. *)
Definition rpm_verdict (glimit ulimit g u : Z) : option goerr :=
  if (0 <? glimit) && (glimit <=? g) then Some ErrGroupRPMExceeded
  else if (0 <? ulimit) && (ulimit <=? u) then Some ErrUserRPMExceeded
  else None.

Definition group_key (user : RPMUser) (group : option RPMGroup) (minute : Z) : string :=
  userGroupRPMKey (user_ID user) (match group with Some g => group_ID g | None => 0 end) minute.

Lemma with_server_turns db w : turns (with_server db w) = turns w.
Proof. done. Qed.

Lemma increment_alone key n (Q : res Z -> World Db -> Prop) w :
  turns w = [] -> counter (server w) key n ->
  (forall db', waiting key db' (Some (n + 1)) -> (forall k, k <> key -> peek db' k = peek (server w) k) ->
     micros db' = micros (server w) -> Q (Ok (n + 1)) (with_server db' w)) ->
  wp0 (atomicIncr key) Q w.
Proof.
  intros Hw (o & Ho & Hn & Hr) HQ. unfold atomicIncr, wrapped. apply wp0_bind, wp0_try, wp0_alone; [done|].
  eapply (incr_expire_spec key o _ _ Ho); rewrite Hn; [unfold in_i64, two63 in *; lia..|].
  intros db' Hk Hoth Hm. apply wp0_ret, HQ; [|done|done]. cbn. by rewrite Hk.
Qed.

Lemma minute_alone (Q : res Z -> World Db -> Prop) w :
  turns w = [] -> Q (Ok (server_s (server w) / 60)) w -> wp0 minuteTS Q w.
Proof.
  intros Hw HQ. unfold minuteTS, wrapped. apply wp0_bind, wp0_bind, wp0_try, wp0_alone; [done|].
  unfold swp, time_s. cbn [fst snd]. apply wp0_ret, wp0_ret. by destruct w.
Qed.

Lemma keys_apart user group minute : group_key user group minute <> userRPMKey (user_ID user) minute.
Proof. unfold group_key, userGroupRPMKey, userRPMKey, userGroupRPMKeyPrefix, userRPMKeyPrefix. cbn. discriminate. Qed.

(** What the two layers leave: the counts of the keys that were looked at. *)
Definition counts_after (user : RPMUser) (group : option RPMGroup) (minute g u : Z) (db : Db) : Prop :=
  (exists o, waiting (group_key user group minute) db o /\ default 0 o = g) /\
  (exists o, waiting (userRPMKey (user_ID user) minute) db o /\ default 0 o = u).

Lemma waiting_same key db db' o : peek db' key = peek db key -> waiting key db o -> waiting key db' o.
Proof. intros Hk. destruct o; cbn; by rewrite Hk. Qed.

Lemma check_user_alone user group g u (Q : res (option goerr) -> World Db -> Prop) w :
  let minute := server_s (server w) / 60 in
  turns w = [] -> counts_after user group minute g u (server w) -> 0 <= u < two63 - 1 ->
  (forall w', counts_after user group minute g (u + if 0 <? user_RPMLimit user then 1 else 0) (server w') ->
     Q (Ok (if (0 <? user_RPMLimit user) && (user_RPMLimit user <=? u)
            then Some ErrUserRPMExceeded else None)) w') ->
  wp0 (check_user_rpm user) Q w.
Proof.
  intros minute Hw (Hg & o & Ho & Hu) Hr HQ. unfold check_user_rpm. destruct (0 <? user_RPMLimit user).
  - apply wp0_bind, wp0_try, wp0_bind, minute_alone; [done|]. fold minute.
    eapply increment_alone; [done|exists o; done|]. intros db' Hk Hoth Hm.
    assert (Hc : counts_after user group minute g (u + 1) db').
    { split; [|by exists (Some (u + 1))]. destruct Hg as (og & Hog & Hg). exists og. split; [|done].
      eapply waiting_same; [|exact Hog]. apply Hoth, keys_apart. }
    apply wp0_ret. specialize (HQ (with_server db' w) Hc). cbn in HQ |- *.
    replace (user_RPMLimit user <? u + 1) with (user_RPMLimit user <=? u); [exact HQ|].
    destruct (Z.leb_spec (user_RPMLimit user) u), (Z.ltb_spec (user_RPMLimit user) (u + 1)); lia.
  - apply wp0_ret. apply (HQ w). rewrite Z.add_0_r. split; [done|]. by exists o.
Qed.

(** What the layer of the group leaves. *)
Definition group_layer (user : RPMUser) (group : option RPMGroup) (g u glimit : Z) (w : World Db)
    (r : res (option goerr)) (w' : World Db) : Prop :=
  turns w' = [] /\ server_s (server w') = server_s (server w) /\
  r = Ok (if (0 <? glimit) && (glimit <=? g) then Some ErrGroupRPMExceeded else None) /\
  counts_after user group (server_s (server w) / 60) (g + if 0 <? glimit then 1 else 0) u (server w').

Lemma count_group_alone user group limit g u w :
  turns w = [] -> counter (server w) (group_key user (Some group) (server_s (server w) / 60)) g ->
  counter (server w) (userRPMKey (user_ID user) (server_s (server w) / 60)) u -> 0 < limit ->
  wp0 (count_group user group limit) (group_layer user (Some group) g u limit w) w.
Proof.
  intros Hw Hg (ou & Hou & Hu & _) Hlim. unfold count_group, group_layer.
  rewrite (proj2 (Z.ltb_lt _ _)) by done.
  apply wp0_bind, wp0_try, wp0_bind, minute_alone; [done|].
  eapply increment_alone; [done|exact Hg|]. intros db' Hk Hoth Hm. apply wp0_ret.
  split; [done|]. split; [by apply now_same|]. split.
  - do 2 f_equal. destruct (Z.leb_spec limit g), (Z.ltb_spec limit (g + 1)); done || lia.
  - split; [by exists (Some (g + 1))|]. exists ou. split; [|done].
    eapply waiting_same; [|exact Hou]. apply Hoth, not_eq_sym, (keys_apart user (Some group)).
Qed.

Lemma check_group_alone user group lookup g u w :
  turns w = [] -> counter (server w) (group_key user group (server_s (server w) / 60)) g ->
  counter (server w) (userRPMKey (user_ID user) (server_s (server w) / 60)) u ->
  wp0 (check_group_rpm user group lookup)
    (group_layer user group g u (group_limit user group lookup) w) w.
Proof.
  intros Hw Hg Hu.
  assert (Hnone : forall limit, limit <= 0 -> group_layer user group g u limit w (Ok None) w).
  { intros limit Hlim. unfold group_layer. rewrite (proj2 (Z.ltb_ge _ _)) by done. rewrite Z.add_0_r.
    destruct Hg as (og & ? & ? & _), Hu as (ou & ? & ? & _).
    repeat (split; [done|]). split; [by exists og|by exists ou]. }
  unfold check_group_rpm, group_limit. destruct group as [group|]; [|by apply wp0_ret, Hnone].
  destruct (rpm_override user lookup) as [o|]; cbn [default];
    (case_Z; [by apply count_group_alone|by apply wp0_ret, Hnone]).
Qed.

(** [checkRPM] refuses a request exactly if it is above the limit of the group, or of
the override in place of it, or else above the limit of the user, which holds whatever
the override; it counts the request against every limit that it has looked at. *)
Theorem rpm_decision user group lookup g u w :
  let minute := server_s (server w) / 60 in
  let glimit := group_limit user group lookup in
  turns w = [] -> counter (server w) (group_key user group minute) g ->
  counter (server w) (userRPMKey (user_ID user) minute) u ->
  wp0 (checkRPM user group lookup) (fun r w' =>
    r = Ok (rpm_verdict glimit (user_RPMLimit user) g u) /\
    counts_after user group minute (g + if 0 <? glimit then 1 else 0)
      (u + if (0 <? user_RPMLimit user) && negb ((0 <? glimit) && (glimit <=? g)) then 1 else 0)
      (server w')) w.
Proof.
  intros minute glimit Hw Hg Hu. unfold checkRPM. apply wp0_bind.
  eapply wp0_mono; [by apply (check_group_alone user group lookup g u)|].
  intros r w' (Hw' & Hnow & -> & Hc). fold minute glimit in Hc |- *. unfold rpm_verdict.
  destruct ((0 <? glimit) && (glimit <=? g)); cbn [negb].
  - apply wp0_ret. split; [done|]. by rewrite andb_false_r, Z.add_0_r.
  - rewrite andb_true_r. destruct Hu as (_ & _ & _ & Hu).
    eapply (check_user_alone user group _ u); [done|rewrite Hnow; exact Hc|exact Hu|].
    rewrite Hnow. intros w2 Hc2. by split.
Qed.

End Check.

(** ** Examples *)

Definition ex_user : RPMUser := mkRPMUser 5 3 None.
Definition ex_group : RPMGroup := mkRPMGroup 9 2.
Definition ex_minute_ops : list RateOp :=
  [OpIncr; OpIncr; OpElapse 70000000; OpGet; OpIncr; OpElsewhere (GET "other"); OpElapse 200000000].

Lemma minute_admits_the_first_requests_witness :
  (rate_run (userRPMKey 5 0) ex_minute_ops (empty_redis, [])).2 = [1; 2; 3] /\
  length (filter (fun count => count <= 2)
    (rate_run (userRPMKey 5 0) ex_minute_ops (empty_redis, [])).2) = 2%nat.
Proof.
  apply (minute_admits_the_first_requests (userRPMKey 5 0) 0 2 ex_minute_ops empty_redis);
    [reflexivity| |reflexivity].
  repeat split; vm_compute; done.
Defined.

(** The counts of one request after another: the third is above the limit of the group;
an override of zero leaves the limit of the user. *)
Example ex_checks :
  let w0 := ex_world empty_redis in
  let run user w := (checkRPM user (Some ex_group) (Some (Ok None)) w []).1 in
  let exempt := mkRPMUser 5 3 (Some 0) in
  let w1 := (run ex_user w0).2 in
  let w2 := (run ex_user w1).2 in
  (run ex_user w0).1 = Ok None /\ (run ex_user w1).1 = Ok None /\
  (run ex_user w2).1 = Ok (Some ErrGroupRPMExceeded) /\
  (run exempt w2).1 = Ok None /\ (run exempt (run exempt w2).2).1 = Ok (Some ErrUserRPMExceeded).
Proof. vm_compute. repeat split. Qed.

(** A failure of the server lets a request pass. *)
Example ex_rpm_fails_open :
  (checkRPM ex_user (Some ex_group) None (ex_world empty_redis)
     [Some (Refused "down"); Some (Refused "down")]).1.1 = Ok None.
Proof. reflexivity. Qed.

Lemma rpm_decision_witness :
  wp0 (checkRPM ex_user (Some ex_group) (Some (Ok (Some 7)))) (fun r w' =>
    r = Ok None /\ counts_after ex_user (Some ex_group) 0 1 1 (server w')) (ex_world empty_redis).
Proof.
  eapply wp0_mono; [apply (rpm_decision ex_user (Some ex_group) (Some (Ok (Some 7))) 0 0
    (ex_world empty_redis) eq_refl);
    (exists None; repeat split; vm_compute; congruence)|].
  intros r w' [-> Hc]. split; [reflexivity|exact Hc].
Defined.
