(* ===== verification/AccountQuota.v ===== *)
(** * Quota windows of accounts

The daily and weekly quotas of an account as [service/account.go] reads and saves them,
on the rows that [Billing] charges.  The decoded values of [Extra] are those of
[extra_window]; the reading of [time.Now] is an input, and so is the zone, whose
conversions are those of [BillingParams].

The theorems: fixed resets partition time, the computation in Go and the one in SQL
give the same instants, and after any charges the two agree on whether a window has
expired, although one looks at the start of the window and the other at its end. *)
From S2P Require Import Prelude GoText GoTime SubscriptionWindow Wallets BillingStore Billing BillingQuota.
From Stdlib Require Import Bool.

Local Open Scope string_scope.
Local Open Scope Z_scope.

Section Definitions.
Context `{BillingParams}.

(** ** Settings *)

Definition GetQuotaResetMode (w : extra_window) : string :=
  if String.eqb (default "" (w_reset_mode w)) "fixed" then "fixed" else "rolling".
Definition GetQuotaResetHour (w : extra_window) : Z := default 0 (w_reset_hour w).
Definition GetQuotaWeeklyResetDay (w : extra_window) : Z := default 1 (w_reset_day w).

(** The name of the zone; a name that cannot be loaded is UTC too. *)
Definition GetQuotaResetTimezone (a : account_row) : string :=
  let tz := default "" (quota_reset_timezone a) in if String.eqb tz "" then "UTC" else tz.

Definition window_start (w : extra_window) : Time := default zeroTime (w_start w).

(** ** Fixed resets *)

(** [time.Date] of today's date and an hour, in a zone. *)
Definition today_reset (hour : Z) (tz : string) (t : Time) : Time :=
  let '(y, m, d) := Date_of (at_zone tz t) in from_zone tz (Date y m d + hour * Hour).

(** [t.AddDate(0, 0, days)] of a time in a zone. *)
Definition add_days (tz : string) (t : Time) (days : Z) : Time :=
  from_zone tz (AddDate (at_zone tz t) 0 0 days).

Definition nextFixedDailyReset (hour : Z) (tz : string) (after : Time) : Time :=
  let today := today_reset hour tz after in
  if negb (Before after today) then add_days tz today 1 else today.

Definition lastFixedDailyReset (hour : Z) (tz : string) (now : Time) : Time :=
  let today := today_reset hour tz now in
  if Before now today then add_days tz today (-1) else today.

Definition nextFixedWeeklyReset (day hour : Z) (tz : string) (after : Time) : Time :=
  let todayReset := today_reset hour tz after in
  let currentDay := Weekday (at_zone tz todayReset) in
  let daysForward := Z.rem (day - currentDay + 7) 7 in
  let daysForward := if (daysForward =? 0) && negb (Before after todayReset) then 7 else daysForward in
  add_days tz todayReset daysForward.

Definition lastFixedWeeklyReset (day hour : Z) (tz : string) (now : Time) : Time :=
  let todayReset := today_reset hour tz now in
  let currentDay := Weekday (at_zone tz todayReset) in
  let daysBack := Z.rem (currentDay - day + 7) 7 in
  let daysBack := if (daysBack =? 0) && Before now todayReset then 7 else daysBack in
  add_days tz todayReset (- daysBack).

(** ** Readers *)

Definition isPeriodExpired (periodStart : Time) (dur : Duration) (now : Time) : bool :=
  if IsZero periodStart then true else dur <=? Sub now periodStart.

Definition isFixedDailyPeriodExpired (tz : string) (w : extra_window) (periodStart now : Time) : bool :=
  if IsZero periodStart then true
  else Before periodStart (lastFixedDailyReset (GetQuotaResetHour w) tz now).

Definition isFixedWeeklyPeriodExpired (tz : string) (w : extra_window) (periodStart now : Time) : bool :=
  if IsZero periodStart then true
  else Before periodStart
         (lastFixedWeeklyReset (GetQuotaWeeklyResetDay w) (GetQuotaResetHour w) tz now).

Definition IsDailyQuotaPeriodExpired (tz : string) (w : extra_window) (now : Time) : bool :=
  if String.eqb (GetQuotaResetMode w) "fixed" then isFixedDailyPeriodExpired tz w (window_start w) now
  else isPeriodExpired (window_start w) (24 * Hour) now.

Definition IsWeeklyQuotaPeriodExpired (tz : string) (w : extra_window) (now : Time) : bool :=
  if String.eqb (GetQuotaResetMode w) "fixed" then isFixedWeeklyPeriodExpired tz w (window_start w) now
  else isPeriodExpired (window_start w) (7 * 24 * Hour) now.

(** A window that is not over and is used up. *)
Definition window_exceeded (expired : bool) (w : extra_window) : bool :=
  (0 <? default 0 (w_limit w)) && negb expired && (default 0 (w_limit w) <=? default 0 (w_used w)).

Definition IsQuotaExceeded (now : Time) (a : account_row) : bool :=
  let tz := GetQuotaResetTimezone a in
  let limit := default 0 (extra_quota_limit a) in
  if (0 <? limit) && (limit <=? default 0 (extra_quota_used a)) then true
  else if window_exceeded (IsDailyQuotaPeriodExpired tz (extra_daily a) now) (extra_daily a) then true
  else window_exceeded (IsWeeklyQuotaPeriodExpired tz (extra_weekly a) now) (extra_weekly a).

(** ** Saving an account *)

Definition with_reset_at (r : option Time) (w : extra_window) : extra_window :=
  mkWindow (w_limit w) (w_used w) (w_start w) (w_reset_mode w) r (w_reset_hour w) (w_reset_day w).

Definition restarted (start : Time) (w : extra_window) : extra_window :=
  mkWindow (w_limit w) (Some 0) (Some start) (w_reset_mode w) (w_reset_at w) (w_reset_hour w)
    (w_reset_day w).

Definition with_windows (daily weekly : extra_window) (a : account_row) : account_row :=
  mkAccount (extra_quota_used a) (extra_quota_limit a) daily weekly (quota_reset_timezone a)
    (account_deleted a).

Definition clamped_hour (w : extra_window) : Z :=
  let hour := default 0 (w_reset_hour w) in if (hour <? 0) || (23 <? hour) then 0 else hour.
Definition clamped_day (w : extra_window) : Z :=
  let day := default 1 (w_reset_day w) in if (day <? 0) || (6 <? day) then 1 else day.

Definition is_fixed (w : extra_window) : bool := String.eqb (default "" (w_reset_mode w)) "fixed".

Definition ComputeQuotaResetAt (now : Time) (a : account_row) : account_row :=
  let tz := GetQuotaResetTimezone a in
  let daily := extra_daily a in
  let weekly := extra_weekly a in
  with_windows
    (with_reset_at (if is_fixed daily then Some (nextFixedDailyReset (clamped_hour daily) tz now)
                    else None) daily)
    (with_reset_at (if is_fixed weekly
                    then Some (nextFixedWeeklyReset (clamped_day weekly) (clamped_hour weekly) tz now)
                    else None) weekly) a.

Definition normalize_window (lastReset : Time) (w : extra_window) : extra_window :=
  if is_fixed w && (0 <? default 0 (w_limit w)) then
    if IsZero (window_start w) || Before (window_start w) lastReset then restarted lastReset w else w
  else w.

Definition NormalizeFixedQuotaWindows (now : Time) (a : account_row) : account_row :=
  let tz := GetQuotaResetTimezone a in
  let daily := extra_daily a in
  let weekly := extra_weekly a in
  with_windows (normalize_window (lastFixedDailyReset (clamped_hour daily) tz now) daily)
    (normalize_window (lastFixedWeeklyReset (clamped_day weekly) (clamped_hour weekly) tz now) weekly) a.

(** The two calls of [service/admin_account.go] before an account is stored. *)
Definition save_quota (now : Time) (a : account_row) : account_row :=
  NormalizeFixedQuotaWindows now (ComputeQuotaResetAt now a).

Definition in_range (v : option Z) (low high : Z) : bool :=
  match v with Some z => (low <=? z) && (z <=? high) | None => true end.
Definition valid_mode (mode : option string) : bool :=
  match mode with Some m => String.eqb m "rolling" || String.eqb m "fixed" | None => true end.

(** [loadable]: what [time.LoadLocation] accepts. *)
Definition ValidateQuotaResetConfig (loadable : string -> bool) (a : account_row) : res unit :=
  let daily := extra_daily a in
  let weekly := extra_weekly a in
  if match quota_reset_timezone a with
     | Some tz => negb (String.eqb tz "") && negb (loadable tz)
     | None => false
     end
  then Err (ErrMsg "invalid quota_reset_timezone: must be a valid IANA timezone name")
  else if negb (valid_mode (w_reset_mode daily)) then
    Err (ErrMsg "quota_daily_reset_mode must be 'rolling' or 'fixed'")
  else if negb (in_range (w_reset_hour daily) 0 23) then
    Err (ErrMsg "quota_daily_reset_hour must be between 0 and 23")
  else if negb (valid_mode (w_reset_mode weekly)) then
    Err (ErrMsg "quota_weekly_reset_mode must be 'rolling' or 'fixed'")
  else if negb (in_range (w_reset_day weekly) 0 6) then
    Err (ErrMsg "quota_weekly_reset_day must be between 0 (Sunday) and 6 (Saturday)")
  else if negb (in_range (w_reset_hour weekly) 0 23) then
    Err (ErrMsg "quota_weekly_reset_hour must be between 0 and 23")
  else Ok tt.

(** ** May an account be scheduled *)

Record AccountState : Type := mkAccountState {
  IsActive : bool;
  Schedulable : bool;
  AutoPauseOnExpired : bool;
  ExpiresAt : option Time;
  OverloadUntil : option Time;
  RateLimitResetAt : option Time;
  TempUnschedulableUntil : option Time;
  IsAPIKeyOrBedrock : bool;
  quotas : account_row
}.

(** [t != nil && now.Before( *t )] *)
Definition still_before (now : Time) (t : option Time) : bool :=
  match t with Some t => Before now t | None => false end.

Definition IsSchedulable (now : Time) (a : AccountState) : bool :=
  if negb (IsActive a) || negb (Schedulable a) then false
  else if AutoPauseOnExpired a && match ExpiresAt a with Some t => negb (Before now t) | None => false end
       then false
  else if still_before now (OverloadUntil a) then false
  else if still_before now (RateLimitResetAt a) then false
  else if still_before now (TempUnschedulableUntil a) then false
  else if IsAPIKeyOrBedrock a && IsQuotaExceeded now (quotas a) then false
  else true.

End Definitions.

(** ** Periods *)

Lemma AddDate_shift t n : AddDate t 0 0 n = t + n * Day.
Proof.
  unfold AddDate. pose proof (Date_of_spec t) as H. destruct (Date_of t) as [[y m] k].
  rewrite !Z.add_0_r, Date_in_year by lia.
  pose proof (Z.div_mod t Day ltac:(done)). unfold day_of in H. lia.
Qed.

(** The start of the period that contains an instant: periods of a length, one of which
starts at an anchor. *)
Definition period_start (length anchor t : Z) : Z := (t - anchor) / length * length + anchor.

Lemma period_start_bounds length anchor t : 0 < length ->
  period_start length anchor t <= t < period_start length anchor t + length.
Proof.
  intros Hl. unfold period_start. pose proof (Z.div_mod (t - anchor) length).
  pose proof (Z.mod_pos_bound (t - anchor) length Hl). lia.
Qed.

Lemma period_start_unique length anchor k t : 0 < length ->
  k * length + anchor <= t < k * length + anchor + length -> period_start length anchor t = k * length + anchor.
Proof.
  intros Hl Ht. unfold period_start. replace ((t - anchor) / length) with k; [done|].
  apply (Z.div_unique_pos _ _ k (t - anchor - k * length)); lia.
Qed.

(** An instant of the period before [r] is before the start of the period of [now] when
[now] has reached [r], and only then. *)
Lemma period_passed length anchor k s now : 0 < length ->
  let r := k * length + anchor in r - length <= s < r ->
  (s <? period_start length anchor now) = (r <=? now).
Proof.
  intros Hl r Hs. pose proof (period_start_bounds length anchor now Hl) as Hb.
  destruct (Z.leb_spec r now) as [Hr|Hr].
  - apply Z.ltb_lt. assert (k * length <= (now - anchor) / length * length); [|unfold period_start; lia].
    apply Z.mul_le_mono_nonneg_r; [lia|]. apply Z.div_le_lower_bound; lia.
  - apply Z.ltb_ge. assert ((now - anchor) / length * length <= (k - 1) * length); [|unfold period_start; lia].
    apply Z.mul_le_mono_nonneg_r; [lia|].
    assert ((now - anchor) / length < k); [|lia]. apply Z.div_lt_upper_bound; lia.
Qed.

Section Zone.
Context `{BillingParams} (tz : string) (off : Z).
Context (Hat : forall t, at_zone tz t = t + off) (Hfrom : forall t, from_zone tz t = t - off).

Definition daily_anchor (hour : Z) : Z := hour * Hour - off.
Definition weekly_anchor (day hour : Z) : Z := (day - 1) * Day + hour * Hour - off.

Lemma today_reset_eq hour t : today_reset hour tz t = day_of (t + off) * Day + daily_anchor hour.
Proof.
  unfold today_reset, daily_anchor. rewrite Hat. pose proof (Date_of_day (t + off)) as Hd.
  destruct (Date_of (t + off)) as [[y m] d]. rewrite Hfrom, Hd. lia.
Qed.

Lemma add_days_eq t n : add_days tz t n = t + n * Day.
Proof. unfold add_days. rewrite Hat, Hfrom, AddDate_shift. lia. Qed.

Lemma last_daily_eq hour now : 0 <= hour < 24 ->
  lastFixedDailyReset hour tz now = period_start Day (daily_anchor hour) now.
Proof.
  intros Hh. unfold lastFixedDailyReset, Before. rewrite add_days_eq, today_reset_eq.
  pose proof (day_of_bounds (now + off)) as Hd. unfold daily_anchor, Hour, Day in *. symmetry.
  case_Z; [replace (day_of (now + off) * 86400000000000 + (hour * 3600000000000 - off) + -1 * 86400000000000)
             with ((day_of (now + off) - 1) * 86400000000000 + (hour * 3600000000000 - off)) by lia|];
    apply period_start_unique; lia.
Qed.

Lemma next_daily_eq hour now : 0 <= hour < 24 ->
  nextFixedDailyReset hour tz now = period_start Day (daily_anchor hour) now + Day.
Proof.
  intros Hh. rewrite <- last_daily_eq by done. unfold nextFixedDailyReset, lastFixedDailyReset, Before.
  rewrite !add_days_eq. case_Z; cbn [negb]; lia.
Qed.

Lemma weekday_of_reset hour t : 0 <= hour < 24 ->
  Weekday (at_zone tz (today_reset hour tz t)) = (day_of (t + off) + 1) mod 7.
Proof.
  intros Hh. rewrite Hat, today_reset_eq. unfold Weekday. f_equal. unfold daily_anchor.
  replace (day_of (t + off) * Day + (hour * Hour - off) + off) with (hour * Hour + day_of (t + off) * Day) by lia.
  unfold day_of at 1. rewrite Z.div_add by done.
  rewrite (Z.div_small (hour * Hour)) by (unfold Hour, Day; lia). lia.
Qed.

Lemma last_weekly_eq day hour now : 0 <= day < 7 -> 0 <= hour < 24 ->
  lastFixedWeeklyReset day hour tz now = period_start (7 * Day) (weekly_anchor day hour) now /\
  nextFixedWeeklyReset day hour tz now = period_start (7 * Day) (weekly_anchor day hour) now + 7 * Day.
Proof.
  intros Hd Hh. unfold lastFixedWeeklyReset, nextFixedWeeklyReset, Before.
  rewrite weekday_of_reset, !add_days_eq, today_reset_eq by done.
  set (n := day_of (now + off)). set (wd := (n + 1) mod 7).
  assert (Hwd : 0 <= wd < 7) by (apply Z.mod_pos_bound; lia).
  rewrite !Z.rem_mod_nonneg by lia.
  pose proof (day_of_bounds (now + off)) as Hb. fold n in Hb.
  pose proof (Z.div_mod (n + 1) 7 ltac:(lia)) as Hn. fold wd in Hn. set (q := (n + 1) / 7) in *.
  (* the weekday is the reset's, or after it, or before it *)
  assert (Hp : forall k, k * (7 * Day) + weekly_anchor day hour <= now < (k + 1) * (7 * Day) + weekly_anchor day hour ->
    period_start (7 * Day) (weekly_anchor day hour) now = k * (7 * Day) + weekly_anchor day hour).
  { intros k Hk. apply period_start_unique; [done|]. lia. }
  unfold weekly_anchor, daily_anchor, Hour, Day in *.
  assert (Hcase : wd = day \/ day < wd \/ wd < day) by lia. destruct Hcase as [Hc|[Hc|Hc]].
  - replace (wd - day + 7) with (0 + 1 * 7) by lia. replace (day - wd + 7) with (0 + 1 * 7) by lia.
    rewrite Z.mod_add by lia. change (0 mod 7) with 0. rewrite Z.eqb_refl. cbn [andb].
    destruct (Z.ltb_spec now (n * 86400000000000 + (hour * 3600000000000 - off))); cbn [negb].
    + rewrite (Hp (q - 1)) by lia. lia.
    + rewrite (Hp q) by lia. lia.
  - replace (wd - day + 7) with ((wd - day) + 1 * 7) by lia. rewrite Z.mod_add by lia.
    rewrite (Z.mod_small (wd - day)), (Z.mod_small (day - wd + 7)) by lia.
    rewrite !(proj2 (Z.eqb_neq _ _)) by lia. cbn [andb]. rewrite (Hp q) by lia. lia.
  - replace (day - wd + 7) with ((day - wd) + 1 * 7) by lia. rewrite Z.mod_add by lia.
    rewrite (Z.mod_small (day - wd)), (Z.mod_small (wd - day + 7)) by lia.
    rewrite !(proj2 (Z.eqb_neq _ _)) by lia. cbn [andb]. rewrite (Hp (q - 1)) by lia. lia.
Qed.

End Zone.

(** ** The statements of a charge and the readers *)

Section Agreement.
Context `{BillingParams} (tz : string) (off : Z).
Context (Hat : forall t, at_zone tz t = t + off) (Hfrom : forall t, from_zone tz t = t - off).
Context (Hoff : off mod Second = 0).

Lemma to_seconds_id t : t mod Second = 0 -> to_seconds t = t.
Proof. intros Ht. unfold to_seconds. pose proof (Z.div_mod t Second ltac:(done)). lia. Qed.

Lemma period_start_seconds len_s anchor_s t : 0 < len_s ->
  (period_start (len_s * Second) (anchor_s * Second - off) t) mod Second = 0.
Proof.
  intros Hl. unfold period_start.
  replace ((t - (anchor_s * Second - off)) / (len_s * Second) * (len_s * Second) + (anchor_s * Second - off))
    with (- off + ((t - (anchor_s * Second - off)) / (len_s * Second) * len_s + anchor_s) * Second) by lia.
  rewrite Z.mod_add by done. apply Z.mod_opp_l_z; done.
Qed.

Lemma daily_seconds hour t : (period_start Day (daily_anchor off hour) t) mod Second = 0.
Proof.
  replace Day with (86400 * Second) by done. unfold daily_anchor, Hour.
  replace (hour * 3600000000000 - off) with (hour * 3600 * Second - off) by (unfold Second; lia).
  by apply period_start_seconds.
Qed.

Lemma weekly_seconds day hour t : (period_start (7 * Day) (weekly_anchor off day hour) t) mod Second = 0.
Proof.
  replace (7 * Day) with (604800 * Second) by done. unfold weekly_anchor, Hour, Day.
  replace ((day - 1) * 86400000000000 + hour * 3600000000000 - off)
    with (((day - 1) * 86400 + hour * 3600) * Second - off) by (unfold Second; lia).
  by apply period_start_seconds.
Qed.

Lemma fixed_sql w : String.eqb (default "rolling" (w_reset_mode w)) "fixed" = is_fixed w.
Proof. unfold is_fixed. by destruct (w_reset_mode w). Qed.

Lemma reset_point_eq now w : from_zone tz (reset_point tz now w) = today_reset (GetQuotaResetHour w) tz now.
Proof.
  rewrite (today_reset_eq tz off), Hfrom by done. unfold reset_point, trunc_day, daily_anchor, GetQuotaResetHour.
  rewrite Hat. unfold day_of. change (24 * Hour) with Day. lia.
Qed.

Lemma reset_point_add now w n : from_zone tz (reset_point tz now w + n * Day) =
  today_reset (GetQuotaResetHour w) tz now + n * Day.
Proof. rewrite <- reset_point_eq, !Hfrom. lia. Qed.

Lemma sql_daily now w : 0 <= GetQuotaResetHour w < 24 -> nextDailyResetAtExpr tz now w =
  if is_fixed w then Some (nextFixedDailyReset (GetQuotaResetHour w) tz now) else None.
Proof.
  intros Hh. unfold nextDailyResetAtExpr. rewrite fixed_sql. destruct (is_fixed w); [|done].
  change (24 * Hour) with (1 * Day). rewrite reset_point_add, reset_point_eq. f_equal.
  assert (Heq : (if today_reset (GetQuotaResetHour w) tz now <=? now
                 then today_reset (GetQuotaResetHour w) tz now + 1 * Day
                 else today_reset (GetQuotaResetHour w) tz now) =
                nextFixedDailyReset (GetQuotaResetHour w) tz now).
  { unfold nextFixedDailyReset, Before. rewrite (add_days_eq tz off) by done.
    rewrite Z.ltb_antisym, negb_involutive. done. }
  transitivity (to_seconds (nextFixedDailyReset (GetQuotaResetHour w) tz now)); [by f_equal|].
  apply to_seconds_id. rewrite (next_daily_eq tz off) by done.
  replace Day with (86400 * Second) at 2 by done. rewrite Z.mod_add by done. apply daily_seconds.
Qed.

Lemma sql_weekly now w : 0 <= GetQuotaResetHour w < 24 -> 0 <= GetQuotaWeeklyResetDay w < 7 ->
  nextWeeklyResetAtExpr tz now w =
  if is_fixed w
  then Some (nextFixedWeeklyReset (GetQuotaWeeklyResetDay w) (GetQuotaResetHour w) tz now) else None.
Proof.
  intros Hh Hd. unfold nextWeeklyResetAtExpr. rewrite fixed_sql. destruct (is_fixed w); [|done].
  change (168 * Hour) with (7 * Day). change (24 * Hour) with Day.
  rewrite !reset_point_add, reset_point_eq. f_equal.
  assert (Heq : (if (days_forward tz now w =? 0) && (today_reset (GetQuotaResetHour w) tz now <=? now)
                 then today_reset (GetQuotaResetHour w) tz now + 7 * Day
                 else today_reset (GetQuotaResetHour w) tz now + days_forward tz now w * Day) =
                nextFixedWeeklyReset (GetQuotaWeeklyResetDay w) (GetQuotaResetHour w) tz now).
  { unfold nextFixedWeeklyReset, Before. rewrite (add_days_eq tz off) by done.
    rewrite (weekday_of_reset tz off) by done. unfold days_forward, GetQuotaWeeklyResetDay, Weekday.
    rewrite Hat, Z.ltb_antisym, negb_involutive.
    destruct (_ && _); lia. }
  transitivity (to_seconds (nextFixedWeeklyReset (GetQuotaWeeklyResetDay w) (GetQuotaResetHour w) tz now));
    [by f_equal|].
  apply to_seconds_id. destruct (last_weekly_eq tz off Hat Hfrom _ _ now Hd Hh) as [_ ->].
  replace (7 * Day) with (604800 * Second) at 2 by done. rewrite Z.mod_add by done. apply weekly_seconds.
Qed.

(** A window with fixed resets whose start lies in the period that ends at its reset. *)
Definition in_step (length anchor : Z) (w : extra_window) : Prop :=
  is_fixed w = true -> exists k s, w_reset_at w = Some (k * length + anchor) /\ w_start w = Some s /\
    0 < s /\ k * length + anchor - length <= s < k * length + anchor.

Lemma epoch_pos : 0 < epoch.
Proof. by vm_compute. Qed.

(** Readers of a rolling window. *)
Lemma rolling_agrees dur w now : 0 < dur < two63 -> epoch + dur <= now -> is_fixed w = false ->
  isPeriodExpired (window_start w) dur now = expiredExpr now dur w.
Proof.
  intros Hdur Hnow Hf. pose proof epoch_pos. unfold expiredExpr, isPeriodExpired, window_start.
  rewrite fixed_sql, Hf. destruct (w_start w) as [s|]; cbn [default from_option id].
  - unfold IsZero. destruct (Z.eqb_spec s 0) as [->|Hs]; [symmetry; apply Z.leb_le; lia|].
    unfold Sub, two63 in *. destruct (Z.leb_spec (s + dur) now); [apply Z.leb_le|apply Z.leb_gt]; lia.
  - symmetry. apply Z.leb_le. lia.
Qed.

Lemma fixed_agrees length anchor w now : 0 < length -> in_step length anchor w -> is_fixed w = true ->
  (if IsZero (window_start w) then true
   else Before (window_start w) (period_start length anchor now)) =
  (default epoch (w_reset_at w) <=? now).
Proof.
  intros Hl Hin Hf. destruct (Hin Hf) as (k & s & Hr & Hs & Hpos & Hb). unfold window_start, IsZero.
  rewrite Hr, Hs. cbn [default from_option id]. rewrite (proj2 (Z.eqb_neq s 0)) by lia. unfold Before.
  by apply period_passed.
Qed.

Lemma daily_agrees w now : 0 <= GetQuotaResetHour w < 24 ->
  in_step Day (daily_anchor off (GetQuotaResetHour w)) w -> epoch + 7 * Day <= now ->
  IsDailyQuotaPeriodExpired tz w now = expiredExpr now (24 * Hour) w.
Proof.
  intros Hh Hin Hnow. unfold IsDailyQuotaPeriodExpired, GetQuotaResetMode. fold (is_fixed w).
  destruct (is_fixed w) eqn:Hf; cbn [String.eqb].
  - cbn. unfold isFixedDailyPeriodExpired. rewrite (last_daily_eq tz off) by done.
    rewrite (fixed_agrees Day _ w now) by done. unfold expiredExpr. by rewrite fixed_sql, Hf.
  - cbn. apply rolling_agrees; [done| |done]. unfold Hour, Day in *. lia.
Qed.

Lemma weekly_agrees w now : 0 <= GetQuotaResetHour w < 24 -> 0 <= GetQuotaWeeklyResetDay w < 7 ->
  in_step (7 * Day) (weekly_anchor off (GetQuotaWeeklyResetDay w) (GetQuotaResetHour w)) w ->
  epoch + 7 * Day <= now -> IsWeeklyQuotaPeriodExpired tz w now = expiredExpr now (168 * Hour) w.
Proof.
  intros Hh Hd Hin Hnow. unfold IsWeeklyQuotaPeriodExpired, GetQuotaResetMode. fold (is_fixed w).
  destruct (is_fixed w) eqn:Hf; cbn [String.eqb].
  - cbn. unfold isFixedWeeklyPeriodExpired. rewrite (proj1 (last_weekly_eq tz off Hat Hfrom _ _ now Hd Hh)).
    rewrite (fixed_agrees (7 * Day) _ w now) by done. unfold expiredExpr. by rewrite fixed_sql, Hf.
  - cbn. change (7 * 24 * Hour) with (168 * Hour). apply rolling_agrees; [done| |done].
    unfold Hour, Day in *. lia.
Qed.

End Agreement.

(** ** Saves and charges keep a window in step *)

Section Keeping.
Context `{BillingParams} (off : Z) (Hoff : off mod Second = 0).

(** A start and a reset of the period of one instant. *)
Lemma in_step_of length anchor t s w : 0 < length -> 0 < s ->
  w_reset_at w = Some (period_start length anchor t + length) -> w_start w = Some s ->
  period_start length anchor t <= s <= t -> in_step length anchor w.
Proof.
  intros Hl Hpos Hr Hs Hb _. pose proof (period_start_bounds length anchor t Hl).
  exists ((t - anchor) / length + 1), s. rewrite Hr, Hs. unfold period_start in *.
  split; [f_equal; lia|]. split; [done|]. lia.
Qed.

Lemma nowUTC_bounds last now : last mod Second = 0 -> last <= now -> last <= nowUTC now <= now.
Proof.
  intros Hs Hle. unfold nowUTC. pose proof (Z.div_mod now Microsecond ltac:(done)).
  pose proof (Z.mod_pos_bound now Microsecond ltac:(done)). split; [|lia].
  pose proof (Z.div_mod last Second ltac:(done)). unfold Second, Microsecond in *.
  assert (last = last / 1000000000 * 1000000 * 1000) as -> by lia.
  apply Z.mul_le_mono_nonneg_r; [lia|]. apply Z.div_le_lower_bound; lia.
Qed.

(** A charge of a window whose next reset is the one of the code. *)
Lemma charge_in_step length anchor period now amount w :
  0 < length -> 0 < default 0 (w_limit w) -> in_step length anchor w ->
  period_start length anchor now mod Second = 0 -> 0 < period_start length anchor now ->
  in_step length anchor (charge_window now period
    (if is_fixed w then Some (period_start length anchor now + length) else None) amount w).
Proof.
  intros Hl Hlim Hin Hsec Hpos. unfold charge_window. rewrite (proj2 (Z.ltb_lt _ _)) by done.
  intros Hf. cbn in Hf. fold (is_fixed w) in Hf. unfold is_fixed in Hf. cbn in Hf.
  assert (Hf' : is_fixed w = true) by exact Hf. rewrite Hf'.
  pose proof (nowUTC_bounds _ now Hsec (proj1 (period_start_bounds length anchor now Hl))) as Hu.
  destruct (expiredExpr now period w).
  - apply (in_step_of length anchor now (nowUTC now)); cbn; [done|lia|done|done|done|done].
  - destruct (Hin Hf') as (k & s & Hr & Hs & Hb). exists k, s. cbn. rewrite Hs. done.
Qed.

Lemma save_in_step length anchor now w :
  0 < length -> 0 < default 0 (w_limit w) -> window_start w <= now -> 0 < period_start length anchor now ->
  in_step length anchor (normalize_window (period_start length anchor now)
    (with_reset_at (if is_fixed w then Some (period_start length anchor now + length) else None) w)).
Proof.
  intros Hl Hlim Hle Hpos. unfold normalize_window.
  change (is_fixed (with_reset_at _ w)) with (is_fixed w). cbn [w_limit with_reset_at].
  rewrite (proj2 (Z.ltb_lt _ _)) by done. destruct (is_fixed w) eqn:Hf; cbn [andb]; [|intros Hf'; change (is_fixed w = true) in Hf'; congruence].
  pose proof (period_start_bounds length anchor now Hl) as Hb.
  change (window_start (with_reset_at _ w)) with (window_start w).
  destruct (IsZero (window_start w) || Before (window_start w) (period_start length anchor now)) eqn:E.
  - apply (in_step_of length anchor now (period_start length anchor now)); cbn; try done. lia.
  - apply orb_false_iff in E as [E1 E2]. unfold IsZero, Before in *. bool_prop.
    destruct (w_start w) as [s|] eqn:Hs; unfold window_start in *; rewrite Hs in *; cbn in *; [|done].
    apply (in_step_of length anchor now s); cbn; try done; lia.
Qed.

End Keeping.

(** The resets that an account is configured with are valid. *)
Definition valid_resets (w : extra_window) : Prop :=
  0 <= GetQuotaResetHour w < 24 /\ 0 <= GetQuotaWeeklyResetDay w < 7.

Lemma in_range_default v d low high : in_range v low high = true -> low <= d <= high ->
  low <= default d v <= high.
Proof. destruct v; cbn; intros Hv Hd; [bool_prop; lia|done]. Qed.

Lemma validated_resets loadable a : ValidateQuotaResetConfig loadable a = Ok tt ->
  0 <= GetQuotaResetHour (extra_daily a) < 24 /\ valid_resets (extra_weekly a).
Proof.
  unfold ValidateQuotaResetConfig. intros Hv.
  destruct (match quota_reset_timezone a with Some _ => _ | None => _ end); [done|].
  destruct (valid_mode (w_reset_mode (extra_daily a))); [|done].
  destruct (in_range (w_reset_hour (extra_daily a)) 0 23) eqn:Hd; [|done].
  destruct (valid_mode (w_reset_mode (extra_weekly a))); [|done].
  destruct (in_range (w_reset_day (extra_weekly a)) 0 6) eqn:Hw; [|done].
  destruct (in_range (w_reset_hour (extra_weekly a)) 0 23) eqn:Hh; [|done].
  pose proof (in_range_default _ 0 _ _ Hd ltac:(lia)). pose proof (in_range_default _ 1 _ _ Hw ltac:(lia)).
  pose proof (in_range_default _ 0 _ _ Hh ltac:(lia)).
  unfold valid_resets, GetQuotaResetHour, GetQuotaWeeklyResetDay. lia.
Qed.

Lemma clamped_valid w : 0 <= GetQuotaResetHour w < 24 -> clamped_hour w = GetQuotaResetHour w.
Proof.
  unfold clamped_hour, GetQuotaResetHour. intros Hh.
  by rewrite (proj2 (Z.ltb_ge _ 0)), (proj2 (Z.ltb_ge 23 _)) by lia.
Qed.

Lemma clamped_day_valid w : 0 <= GetQuotaWeeklyResetDay w < 7 -> clamped_day w = GetQuotaWeeklyResetDay w.
Proof.
  unfold clamped_day, GetQuotaWeeklyResetDay. intros Hh.
  by rewrite (proj2 (Z.ltb_ge _ 0)), (proj2 (Z.ltb_ge 6 _)) by lia.
Qed.

(** ** Theorems *)

Section Theorems.
Context `{BillingParams}.

(** In a zone with a constant offset, every instant lies in exactly one fixed period of
an account, daily or weekly: the last reset is not after it, the next one is, they are
one day or one week apart, at the configured hour and weekday, and every instant
between them has the same last reset. *)
Theorem fixed_resets_partition_time tz off day hour now :
  (forall t, at_zone tz t = t + off) -> (forall t, from_zone tz t = t - off) ->
  0 <= day < 7 -> 0 <= hour < 24 ->
  let daily := lastFixedDailyReset hour tz now in
  let weekly := lastFixedWeeklyReset day hour tz now in
  (daily <= now < daily + Day /\ nextFixedDailyReset hour tz now = daily + Day /\
   at_zone tz daily mod Day = hour * Hour /\
   forall t, daily <= t < daily + Day -> lastFixedDailyReset hour tz t = daily) /\
  (weekly <= now < weekly + 7 * Day /\ nextFixedWeeklyReset day hour tz now = weekly + 7 * Day /\
   at_zone tz weekly mod Day = hour * Hour /\ Weekday (at_zone tz weekly) = day /\
   forall t, weekly <= t < weekly + 7 * Day -> lastFixedWeeklyReset day hour tz t = weekly).
Proof.
  intros Hat Hfrom Hd Hh daily weekly. unfold daily, weekly.
  destruct (last_weekly_eq tz off Hat Hfrom day hour now Hd Hh) as [-> ->].
  rewrite (next_daily_eq tz off), (last_daily_eq tz off) by done.
  pose proof (period_start_bounds Day (daily_anchor off hour) now ltac:(done)).
  pose proof (period_start_bounds (7 * Day) (weekly_anchor off day hour) now ltac:(done)).
  split; split_and!; try done; try lia.
  - rewrite Hat. unfold period_start, daily_anchor.
    set (q := _ / _). replace (q * Day + (hour * Hour - off) + off) with (hour * Hour + q * Day) by lia.
    rewrite Z.mod_add by done. apply Z.mod_small. unfold Hour, Day. lia.
  - intros t Ht. rewrite (last_daily_eq tz off) by done. by apply period_start_unique.
  - rewrite Hat. unfold period_start, weekly_anchor. set (q := _ / _).
    replace (q * (7 * Day) + ((day - 1) * Day + hour * Hour - off) + off)
      with (hour * Hour + (q * 7 + day - 1) * Day) by lia.
    rewrite Z.mod_add by done. apply Z.mod_small. unfold Hour, Day. lia.
  - rewrite Hat. unfold period_start, weekly_anchor. set (q := _ / _). unfold Weekday, day_of.
    replace (q * (7 * Day) + ((day - 1) * Day + hour * Hour - off) + off)
      with (hour * Hour + (q * 7 + day - 1) * Day) by lia.
    rewrite Z.div_add, (Z.div_small (hour * Hour)) by (unfold Hour, Day; lia).
    replace (0 + (q * 7 + day - 1) + 1) with (day + q * 7) by lia.
    rewrite Z.mod_add by lia. by apply Z.mod_small.
  - intros t Ht. destruct (last_weekly_eq tz off Hat Hfrom day hour t Hd Hh) as [-> _].
    by apply period_start_unique.
Qed.

(** The two quotas of an account, in step with the zone and the configuration. *)
Definition quotas_in_step (off : Z) (a : account_row) : Prop :=
  (0 < default 0 (w_limit (extra_daily a)) ->
     in_step Day (daily_anchor off (GetQuotaResetHour (extra_daily a))) (extra_daily a)) /\
  (0 < default 0 (w_limit (extra_weekly a)) ->
     in_step (7 * Day) (weekly_anchor off (GetQuotaWeeklyResetDay (extra_weekly a))
       (GetQuotaResetHour (extra_weekly a))) (extra_weekly a)).

(** What charges leave of the configuration. *)
Definition same_config (w w' : extra_window) : Prop :=
  w_limit w' = w_limit w /\ w_reset_mode w' = w_reset_mode w /\
  w_reset_hour w' = w_reset_hour w /\ w_reset_day w' = w_reset_day w.

Lemma charge_config now period next amount w : same_config w (charge_window now period next amount w).
Proof. unfold charge_window. by case_match. Qed.

Lemma config_readings w w' : same_config w w' ->
  GetQuotaResetHour w' = GetQuotaResetHour w /\ GetQuotaWeeklyResetDay w' = GetQuotaWeeklyResetDay w.
Proof. intros (_ & _ & Hh & Hd). unfold GetQuotaResetHour, GetQuotaWeeklyResetDay. by rewrite Hh, Hd. Qed.

Definition charges (l : list (Time * Amount)) (a : account_row) : account_row :=
  foldl (fun a x => charge_account x.1 x.2 a) a l.

Lemma charge_account_in_step off tz a now amount :
  (forall t, at_zone tz t = t + off) -> (forall t, from_zone tz t = t - off) -> off mod Second = 0 ->
  default "UTC" (quota_reset_timezone a) = tz ->
  0 <= GetQuotaResetHour (extra_daily a) < 24 -> valid_resets (extra_weekly a) ->
  epoch + 7 * Day <= now -> quotas_in_step off a -> quotas_in_step off (charge_account now amount a).
Proof.
  intros Hat Hfrom Hoff Htz Hh [Hwh Hwd] Hnow [Hd Hw]. pose proof epoch_pos as Hepoch.
  unfold charge_account. rewrite Htz. split; cbn [extra_daily extra_weekly].
  - rewrite (sql_daily tz off Hat Hfrom Hoff now _ Hh), (next_daily_eq tz off Hat Hfrom _ now Hh).
    set (w := extra_daily a) in *. set (next := if is_fixed w then _ else _). intros Hlim.
    pose proof (charge_config now (24 * Hour) next amount w) as Hc.
    destruct (config_readings _ _ Hc) as [-> _]. destruct Hc as [Hc _]. rewrite Hc in Hlim.
    pose proof (period_start_bounds Day (daily_anchor off (GetQuotaResetHour w)) now ltac:(done)).
    apply charge_in_step; [done|done|by apply Hd|by apply daily_seconds|unfold Day in *; lia].
  - rewrite (sql_weekly tz off Hat Hfrom Hoff now _ Hwh Hwd).
    rewrite (proj2 (last_weekly_eq tz off Hat Hfrom _ _ now Hwd Hwh)).
    set (w := extra_weekly a) in *. set (next := if is_fixed w then _ else _). intros Hlim.
    pose proof (charge_config now (168 * Hour) next amount w) as Hc.
    destruct (config_readings _ _ Hc) as [-> ->]. destruct Hc as [Hc _]. rewrite Hc in Hlim.
    pose proof (period_start_bounds (7 * Day)
      (weekly_anchor off (GetQuotaWeeklyResetDay w) (GetQuotaResetHour w)) now ltac:(done)).
    apply charge_in_step; [done|done|by apply Hw|by apply weekly_seconds|lia].
Qed.

(** Charges keep what the theorems need of the configuration. *)
Definition config_ok (tz : string) (a : account_row) : Prop :=
  default "UTC" (quota_reset_timezone a) = tz /\ GetQuotaResetTimezone a = tz /\
  0 <= GetQuotaResetHour (extra_daily a) < 24 /\ valid_resets (extra_weekly a).

Lemma config_ok_same tz a a' : config_ok tz a -> quota_reset_timezone a' = quota_reset_timezone a ->
  same_config (extra_daily a) (extra_daily a') -> same_config (extra_weekly a) (extra_weekly a') ->
  config_ok tz a'.
Proof.
  unfold config_ok, valid_resets, GetQuotaResetTimezone. intros (? & ? & Hd & Hw) -> Hcd Hcw.
  destruct (config_readings _ _ Hcd) as [-> _]. by destruct (config_readings _ _ Hcw) as [-> ->].
Qed.

Lemma config_ok_charge tz now amount a : config_ok tz a -> config_ok tz (charge_account now amount a).
Proof. intros Hc. eapply config_ok_same; [exact Hc|done|apply charge_config..]. Qed.

Lemma charges_in_step off tz l a :
  (forall t, at_zone tz t = t + off) -> (forall t, from_zone tz t = t - off) -> off mod Second = 0 ->
  Forall (fun x => epoch + 7 * Day <= x.1) l -> config_ok tz a -> quotas_in_step off a ->
  config_ok tz (charges l a) /\ quotas_in_step off (charges l a).
Proof.
  intros Hat Hfrom Hoff Hl. revert a; induction Hl as [|x l Hx _ IH]; intros a Hc Hs; [done|].
  apply IH; [by apply config_ok_charge|]. destruct Hc as (Htz & _ & Hd & Hw).
  by apply (charge_account_in_step off tz).
Qed.

Lemma save_quota_in_step off tz now a :
  (forall t, at_zone tz t = t + off) -> (forall t, from_zone tz t = t - off) ->
  config_ok tz a -> epoch + 7 * Day <= now ->
  window_start (extra_daily a) <= now -> window_start (extra_weekly a) <= now ->
  config_ok tz (save_quota now a) /\ quotas_in_step off (save_quota now a).
Proof.
  intros Hat Hfrom (Htz & Hgtz & Hd & Hwh & Hwd) Hnow Hsd Hsw. pose proof epoch_pos.
  pose proof (period_start_bounds Day (daily_anchor off (GetQuotaResetHour (extra_daily a))) now ltac:(done)) as Hbd.
  pose proof (period_start_bounds (7 * Day) (weekly_anchor off (GetQuotaWeeklyResetDay (extra_weekly a))
    (GetQuotaResetHour (extra_weekly a))) now ltac:(done)) as Hbw.
  unfold save_quota, NormalizeFixedQuotaWindows, ComputeQuotaResetAt.
  change (GetQuotaResetTimezone (with_windows _ _ a)) with (GetQuotaResetTimezone a). rewrite Hgtz.
  cbn [extra_daily extra_weekly with_windows].
  set (d := extra_daily a) in *. set (w := extra_weekly a) in *.
  change (clamped_hour (with_reset_at _ d)) with (clamped_hour d).
  change (clamped_hour (with_reset_at _ w)) with (clamped_hour w).
  change (clamped_day (with_reset_at _ w)) with (clamped_day w).
  rewrite !clamped_valid, clamped_day_valid by done.
  rewrite (next_daily_eq tz off), (last_daily_eq tz off) by done.
  destruct (last_weekly_eq tz off Hat Hfrom _ _ now Hwd Hwh) as [-> ->].
  assert (Hcfg : forall r s x, same_config x (normalize_window s (with_reset_at r x))).
  { intros r s x. unfold normalize_window. repeat case_match; done. }
  split; [eapply config_ok_same;
    [exact (conj Htz (conj Hgtz (conj Hd (conj Hwh Hwd))))|done|apply Hcfg..]|].
  assert (Hread : forall r s x, GetQuotaResetHour (normalize_window s (with_reset_at r x)) = GetQuotaResetHour x /\
    GetQuotaWeeklyResetDay (normalize_window s (with_reset_at r x)) = GetQuotaWeeklyResetDay x /\
    w_limit (normalize_window s (with_reset_at r x)) = w_limit x).
  { intros r s x. pose proof (config_readings _ _ (Hcfg r s x)) as [-> ->]. by destruct (Hcfg r s x) as [-> _]. }
  split; cbn [extra_daily extra_weekly with_windows]; intros Hlim.
  - match goal with |- context [normalize_window ?s (with_reset_at ?r d)] =>
      destruct (Hread r s d) as (-> & _ & Hl); rewrite Hl in Hlim end.
    apply save_in_step; [done|done|done|unfold Day in *; lia].
  - match goal with |- context [normalize_window ?s (with_reset_at ?r w)] =>
      destruct (Hread r s w) as (-> & -> & Hl); rewrite Hl in Hlim end.
    apply save_in_step; [done|done|done|lia].
Qed.

(** Usage that counts has reached a positive limit. *)
Definition used_up (limit used : Amount) : bool := (0 <? limit) && (limit <=? used).

Lemma window_used_up expired now period w :
  (0 < default 0 (w_limit w) -> expired = expiredExpr now period w) ->
  window_exceeded expired w = used_up (default 0 (w_limit w)) (effective_used now period w).
Proof.
  unfold window_exceeded, used_up, effective_used. intros He.
  destruct (Z.ltb_spec 0 (default 0 (w_limit w))) as [Hl|]; [|done]. rewrite (He Hl).
  destruct (expiredExpr now period w); cbn [negb andb]; [|done].
  symmetry. apply Z.leb_gt. lia.
Qed.

(** An account whose configuration has been validated and saved, and has been charged
any number of times since, counts as exhausted to the scheduler exactly when the usage
to which the next charge would be added has reached a limit.  The scheduler compares the
start of a window with its last reset, in Go, and the charge compares the stored next
reset with the time, in SQL. *)
Theorem exhausted_when_the_charges_say_so loadable off a t0 l now :
  let tz := GetQuotaResetTimezone a in
  ValidateQuotaResetConfig loadable a = Ok tt -> quota_reset_timezone a <> Some "" ->
  (forall t, at_zone tz t = t + off) -> (forall t, from_zone tz t = t - off) -> off mod Second = 0 ->
  window_start (extra_daily a) <= t0 -> window_start (extra_weekly a) <= t0 ->
  epoch + 7 * Day <= t0 -> epoch + 7 * Day <= now -> Forall (fun x => epoch + 7 * Day <= x.1) l ->
  let a' := charges l (save_quota t0 a) in
  IsQuotaExceeded now a' =
    used_up (default 0 (extra_quota_limit a')) (default 0 (extra_quota_used a')) ||
    used_up (default 0 (w_limit (extra_daily a'))) (effective_used now (24 * Hour) (extra_daily a')) ||
    used_up (default 0 (w_limit (extra_weekly a'))) (effective_used now (168 * Hour) (extra_weekly a')).
Proof.
  intros tz Hv Htz Hat Hfrom Hoff Hsd Hsw Ht0 Hnow Ht a'.
  destruct (validated_resets _ _ Hv) as [Hd Hw].
  assert (Hc : config_ok tz a).
  { split; [|done]. unfold tz, GetQuotaResetTimezone.
    destruct (quota_reset_timezone a) as [z|]; [|done]. cbn.
    destruct (String.eqb_spec z ""); [subst|]; done. }
  destruct (save_quota_in_step off tz t0 a Hat Hfrom Hc Ht0 Hsd Hsw) as [Hc1 Hs1].
  destruct (charges_in_step off tz l _ Hat Hfrom Hoff Ht Hc1 Hs1) as [(Htz' & Hgtz & Hd' & Hw') [Hsd' Hsw']].
  fold a' in Htz', Hgtz, Hd', Hw', Hsd', Hsw'. unfold IsQuotaExceeded. rewrite Hgtz.
  rewrite (window_used_up _ now (24 * Hour)), (window_used_up _ now (168 * Hour)).
  - fold (used_up (default 0 (extra_quota_limit a')) (default 0 (extra_quota_used a'))).
    destruct (used_up (default 0 (extra_quota_limit a')) _); [done|]. cbn [orb].
    by destruct (used_up (default 0 (w_limit (extra_daily a'))) _).
  - intros Hl. destruct Hw'. apply (weekly_agrees tz off Hat Hfrom); auto.
  - intros Hl. apply (daily_agrees tz off Hat Hfrom); auto.
Qed.

End Theorems.

(** ** Examples: five dollars a day from nine o'clock, UTC, and twenty a week *)

Definition ex_account : account_row := mkAccount None None
  (mkWindow (Some (usd 5)) (Some (usd 7)) (Some (Date 2026 3 9 + 20 * Hour)) (Some "fixed") None (Some 9) None)
  (mkWindow (Some (usd 20)) (Some (usd 7)) None (Some "fixed") None None (Some 3))
  None false.

(** The save starts the windows; a charge of six dollars uses up the day, until nine. *)
Example ex_quota_day :
  let a := save_quota ex_now ex_account in
  let spent := charges [(ex_now, usd 6)] a in
  w_reset_at (extra_daily a) = Some (Date 2026 3 10 + 9 * Hour) /\
  w_used (extra_daily a) = Some (usd 7) /\ w_used (extra_weekly a) = Some 0 /\
  w_start (extra_weekly a) = Some (Date 2026 3 4) /\ w_reset_at (extra_weekly a) = Some (Date 2026 3 11) /\
  IsQuotaExceeded ex_now spent = true /\ IsQuotaExceeded (ex_now + 4 * Hour) spent = false /\
  IsSchedulable (ex_now + 4 * Hour) (mkAccountState true true true (Some (Date 2026 4 1)) None None
    (Some ex_now) true spent) = true.
Proof. vm_compute. repeat split. Qed.

Lemma fixed_resets_partition_time_witness :
  let daily := lastFixedDailyReset 9 "UTC" ex_now in
  let weekly := lastFixedWeeklyReset 3 9 "UTC" ex_now in
  (daily <= ex_now < daily + Day /\ nextFixedDailyReset 9 "UTC" ex_now = daily + Day /\
   at_zone "UTC" daily mod Day = 9 * Hour /\
   forall t, daily <= t < daily + Day -> lastFixedDailyReset 9 "UTC" t = daily) /\
  (weekly <= ex_now < weekly + 7 * Day /\ nextFixedWeeklyReset 3 9 "UTC" ex_now = weekly + 7 * Day /\
   at_zone "UTC" weekly mod Day = 9 * Hour /\ Weekday (at_zone "UTC" weekly) = 3 /\
   forall t, weekly <= t < weekly + 7 * Day -> lastFixedWeeklyReset 3 9 "UTC" t = weekly).
Proof.
  apply (fixed_resets_partition_time "UTC" 0 3 9 ex_now); try lia; intros t; cbn; lia.
Defined.

Lemma exhausted_when_the_charges_say_so_witness :
  IsQuotaExceeded (ex_now + Hour) (charges [(ex_now, usd 1); (ex_now, usd 2)] (save_quota ex_now ex_account)) = true.
Proof.
  rewrite (exhausted_when_the_charges_say_so (fun _ => true) 0 ex_account ex_now
    [(ex_now, usd 1); (ex_now, usd 2)] (ex_now + Hour)); try reflexivity; try discriminate;
    try (intros t; cbn; lia); try (vm_compute; discriminate).
  repeat apply Forall_cons_2; try apply Forall_nil_2; vm_compute; discriminate.
Defined.
