(* ===== verification/AccountLimits.v ===== *)
(** * Limits of accounts in scheduling

The checks of [service/gateway_scheduling.go] that an Anthropic account passes before it
is scheduled - the cost of its five-hour window, its requests per minute, its sessions -
with the settings and the zones of [service/account.go].  They read through the caches
of [Sessions] and [RateCounters].  The values of [Extra] are given decoded, and what the
usage log answers is an input. *)
From S2P Require Import Prelude GoText Programs Redis Slots SlotLimits Sessions RateCounters.
From Stdlib Require Import Bool.

Local Open Scope string_scope.
Local Open Scope Z_scope.

(** ** Accounts *)

(** The settings in [Extra] that are present, decoded. *)
Record AccountExtra : Type := mkExtra {
  window_cost_limit : option Z;
  window_cost_sticky_reserve : option Z;
  max_sessions : option Z;
  session_idle_timeout_minutes : option Z;
  base_rpm : option Z;
  rpm_strategy : option string;
  rpm_sticky_buffer : option Z
}.

Record Account : Type := mkAccount {
  account_ID : Z;
  Platform : string;
  AccountType : string;
  Concurrency : Z;
  SessionWindowStart : option Time;
  SessionWindowEnd : option Time;
  Extra : AccountExtra
}.

Definition IsAnthropicOAuthOrSetupToken (a : Account) : bool :=
  String.eqb (Platform a) "anthropic" &&
  (String.eqb (AccountType a) "oauth" || String.eqb (AccountType a) "setup-token").

Inductive WindowCostSchedulability : Type :=
  | WindowCostSchedulable
  | WindowCostStickyOnly
  | WindowCostNotSchedulable.

(** A setting that counts if it is positive. *)
Definition positive_or (v : option Z) (d : Z) : Z :=
  match v with Some z => if 0 <? z then z else d | None => d end.

Definition GetWindowCostLimit (a : Account) : Z := default 0 (window_cost_limit (Extra a)).
(** Ten dollars. *)
Definition GetWindowCostStickyReserve (a : Account) : Z :=
  positive_or (window_cost_sticky_reserve (Extra a)) 100000000000.
Definition GetMaxSessions (a : Account) : Z := default 0 (max_sessions (Extra a)).
Definition GetSessionIdleTimeoutMinutes (a : Account) : Z :=
  positive_or (session_idle_timeout_minutes (Extra a)) 5.
Definition GetBaseRPM (a : Account) : Z := positive_or (base_rpm (Extra a)) 0.
Definition GetRPMStrategy (a : Account) : string :=
  match rpm_strategy (Extra a) with
  | Some s => if String.eqb s "sticky_exempt" then "sticky_exempt" else "tiered"
  | None => "tiered"
  end.

Definition GetRPMStickyBuffer (a : Account) : Z :=
  let computed :=
    let base := GetBaseRPM a in
    if base <=? 0 then 0
    else
      let conc := if Concurrency a <? 0 then 0 else Concurrency a in
      let sess := if GetMaxSessions a <? 0 then 0 else GetMaxSessions a in
      let buffer := conc +! sess in
      let floor := Z.quot base 5 in
      let floor := if floor <? 1 then 1 else floor in
      if buffer <? floor then floor else buffer in
  positive_or (rpm_sticky_buffer (Extra a)) computed.

Definition CheckRPMSchedulability (a : Account) (currentRPM : Z) : WindowCostSchedulability :=
  let baseRPM := GetBaseRPM a in
  if baseRPM <=? 0 then WindowCostSchedulable
  else if currentRPM <? baseRPM then WindowCostSchedulable
  else if String.eqb (GetRPMStrategy a) "sticky_exempt" then WindowCostStickyOnly
  else if currentRPM <? baseRPM +! GetRPMStickyBuffer a then WindowCostStickyOnly
  else WindowCostNotSchedulable.

Definition CheckWindowCostSchedulability (a : Account) (currentWindowCost : Z) : WindowCostSchedulability :=
  let limit := GetWindowCostLimit a in
  if limit <=? 0 then WindowCostSchedulable
  else if currentWindowCost <? limit then WindowCostSchedulable
  else if currentWindowCost <? limit + GetWindowCostStickyReserve a then WindowCostStickyOnly
  else WindowCostNotSchedulable.

(** The start of the current window, the full hour for one that is over or unknown, in
a zone whose offset is whole hours. *)
Definition GetCurrentWindowStartTime (a : Account) (now : Time) : Time :=
  match SessionWindowStart a, SessionWindowEnd a with
  | Some s, Some e => if Before now e then s else now / Hour * Hour
  | _, _ => now / Hour * Hour
  end.

(** What the three states mean for a request. *)
Definition schedulable (s : WindowCostSchedulability) (isSticky : bool) : bool :=
  match s with
  | WindowCostSchedulable => true
  | WindowCostStickyOnly => isSticky
  | WindowCostNotSchedulable => false
  end.

(** ** The service *)

Section Service.
Context `{Redis Db} `{CostText}.

(** The values that were fetched for a whole list of accounts, if they were. *)
Definition windowCostFromPrefetchContext (prefetched : option (gmap Z Z)) (accountID : Z) : option Z :=
  if accountID <=? 0 then None
  else match prefetched with Some m => m !! accountID | None => None end.

(** [stats]: the cost that the usage log answers for an account since a time. *)
Definition isAccountSchedulableForWindowCost (cache : option sessionLimitCache)
    (prefetched : option (gmap Z Z)) (stats : Z -> Time -> res Z) (a : Account) (isSticky : bool)
    : Client Db bool :=
  if negb (IsAnthropicOAuthOrSetupToken a) then tret true
  else if GetWindowCostLimit a <=? 0 then tret true
  else
    match windowCostFromPrefetchContext prefetched (account_ID a) with
    | Some cost => tret (schedulable (CheckWindowCostSchedulability a cost) isSticky)
    | None =>
        let! hit := (match cache with
                     | Some _ => ttry (GetWindowCost (account_ID a))
                     | None => tret (Ok None)
                     end) in
        match hit with
        | Ok (Some cost) => tret (schedulable (CheckWindowCostSchedulability a cost) isSticky)
        | _ =>
            let! now := time_now in
            match stats (account_ID a) (GetCurrentWindowStartTime a now) with
            | Err _ => tret true
            | Ok cost =>
                let! _ := (match cache with
                           | Some _ => best_effort (SetWindowCost (account_ID a) cost)
                           | None => tret tt
                           end) in
                tret (schedulable (CheckWindowCostSchedulability a cost) isSticky)
            end
        end
    end.

(** *** The prefetch of costs *)

(** The accounts whose cost counts, by identifier; the last of one identifier. *)
Definition costed (accounts : list Account) : list Account :=
  filter (fun a => IsAnthropicOAuthOrSetupToken a && (0 <? GetWindowCostLimit a) = true) accounts.

Fixpoint account_by_id (accounts : list Account) : gmap Z Account :=
  match accounts with
  | [] => ∅
  | a :: accounts =>
      let rest := account_by_id accounts in
      if decide (is_Some (rest !! account_ID a)) then rest else <[account_ID a := a]> rest
  end.

(** [t.Unix()] *)
Definition Unix (t : Time) : Z := (t - unixEpoch) / Second.

(** The loop over the misses: the accounts by the start of their window, and the start. *)
Fixpoint missing_by_start (byID : gmap Z Account) (costs : gmap Z Z) (ids : list Z)
    (missing : gmap Z (list Z * Time)) : Client Db (gmap Z (list Z * Time)) :=
  match ids with
  | [] => tret missing
  | id :: ids =>
      match costs !! id, byID !! id with
      | None, Some a =>
          let! now := time_now in
          let startTime := GetCurrentWindowStartTime a now in
          let known := default [] (fst <$> missing !! Unix startTime) in
          missing_by_start byID costs ids (<[Unix startTime := (app known [id], startTime)]> missing)
      | _, _ => missing_by_start byID costs ids missing
      end
  end.

(** The costs of a batch; an account that the answer leaves out has cost nothing. *)
Fixpoint keep_batch (ids : list Z) (stats : gmap Z Z) (costs : gmap Z Z) : Client Db (gmap Z Z) :=
  match ids with
  | [] => tret costs
  | id :: ids =>
      let cost := default 0 (stats !! id) in
      let! _ := best_effort (SetWindowCost id cost) in
      keep_batch ids stats (<[id := cost]> costs)
  end.

Fixpoint keep_single (ids : list Z) (startTime : Time) (stats : Z -> Time -> res Z) (costs : gmap Z Z)
    : Client Db (gmap Z Z) :=
  match ids with
  | [] => tret costs
  | id :: ids =>
      match stats id startTime with
      | Err _ => keep_single ids startTime stats costs
      | Ok cost =>
          let! _ := best_effort (SetWindowCost id cost) in
          keep_single ids startTime stats (<[id := cost]> costs)
      end
  end.

(** The loop over the starts, in the order of the map's iteration, which is an input. *)
Fixpoint fetch_missing (keys : list Z) (missing : gmap Z (list Z * Time))
    (batch : option (list Z -> Time -> res (gmap Z Z))) (stats : Z -> Time -> res Z) (costs : gmap Z Z)
    : Client Db (gmap Z Z) :=
  match keys with
  | [] => tret costs
  | key :: keys =>
      match missing !! key with
      | None => fetch_missing keys missing batch stats costs
      | Some (ids, startTime) =>
          let! costs := (match batch with
                         | Some query => match query ids startTime with
                                         | Ok found => keep_batch ids found costs
                                         | Err _ => keep_single ids startTime stats costs
                                         end
                         | None => keep_single ids startTime stats costs
                         end) in
          fetch_missing keys missing batch stats costs
      end
  end.

(** [withWindowCostPrefetch]: what the context holds afterwards. *)
Definition withWindowCostPrefetch (order : list Z -> list Z) (cache : option sessionLimitCache)
    (batch : option (list Z -> Time -> res (gmap Z Z))) (stats : option (Z -> Time -> res Z))
    (accounts : list Account) (prefetched : option (gmap Z Z)) : Client Db (option (gmap Z Z)) :=
  match cache, stats, costed accounts with
  | Some _, Some stats, (_ :: _) as accounts =>
      let ids := map account_ID accounts in
      let! cached := ttry (GetWindowCostBatch ids) in
      let costs := match cached with Ok costs => costs | Err _ => ∅ end in
      let! missing := missing_by_start (account_by_id accounts) costs ids ∅ in
      let! costs := fetch_missing (order (map fst (map_to_list missing))) missing batch stats costs in
      tret (Some costs)
  | _, _, _ => tret prefetched
  end.

(** *** Requests per minute *)

Definition rpmFromPrefetchContext (prefetched : option (gmap Z Z)) (accountID : Z) : option Z :=
  match prefetched with Some m => m !! accountID | None => None end.

Definition withRPMPrefetch (hasCache : bool) (accounts : list Account) (prefetched : option (gmap Z Z))
    : Client Db (option (gmap Z Z)) :=
  if negb hasCache then tret prefetched
  else
    let ids := map account_ID (filter (fun a =>
      IsAnthropicOAuthOrSetupToken a && (0 <? GetBaseRPM a) = true) accounts) in
    match ids with
    | [] => tret prefetched
    | _ =>
        let! counts := ttry (GetRPMBatch ids) in
        match counts with Err _ => tret prefetched | Ok counts => tret (Some counts) end
    end.

Definition isAccountSchedulableForRPM (hasCache : bool) (prefetched : option (gmap Z Z)) (a : Account)
    (isSticky : bool) : Client Db bool :=
  if negb (IsAnthropicOAuthOrSetupToken a) then tret true
  else if GetBaseRPM a <=? 0 then tret true
  else
    match rpmFromPrefetchContext prefetched (account_ID a) with
    | Some currentRPM => tret (schedulable (CheckRPMSchedulability a currentRPM) isSticky)
    | None =>
        let! count := (if hasCache then ttry (GetRPM (account_ID a)) else tret (Ok 0)) in
        let currentRPM := match count with Ok n => n | Err _ => 0 end in
        tret (schedulable (CheckRPMSchedulability a currentRPM) isSticky)
    end.

Definition IncrementAccountRPM (hasCache : bool) (accountID : Z) : Client Db unit :=
  if hasCache then let! _ := IncrementRPM accountID in tret tt else tret tt.

(** *** Sessions *)

Definition checkAndRegisterSession (cache : option sessionLimitCache) (a : Account) (sessionID : string)
    : Client Db bool :=
  if negb (IsAnthropicOAuthOrSetupToken a) then tret true
  else
    let maxSessions := GetMaxSessions a in
    if (maxSessions <=? 0) || String.eqb sessionID "" then tret true
    else
      match cache with
      | None => tret true
      | Some c =>
          let idleTimeout := GetSessionIdleTimeoutMinutes a *! Minute in
          let! r := RegisterSession c (account_ID a) sessionID maxSessions idleTimeout in
          match r with
          | (_, Some _) => tret true
          | (allowed, None) => tret allowed
          end
      end.

Definition ReleaseAccountSession (cache : option sessionLimitCache) (a : option Account)
    (sessionID : string) : Client Db unit :=
  match cache, a with
  | Some _, Some a =>
      if String.eqb sessionID "" then tret tt
      else if negb (IsAnthropicOAuthOrSetupToken a) then tret tt
      else if GetMaxSessions a <=? 0 then tret tt
      else best_effort (UnregisterSession (account_ID a) sessionID)
  | _, _ => tret tt
  end.

End Service.

(** ** The check of sessions *)

Section SessionCheck.
Context `{Redis Db}.

(** Accounts whose sessions are not limited. *)
Definition unlimited_sessions (a : Account) (sessionID : string) : bool :=
  negb (IsAnthropicOAuthOrSetupToken a) || (GetMaxSessions a <=? 0) || String.eqb sessionID "".

Theorem session_check_decision c a sessionID z e (w : World Db) :
  let T := idle_seconds c (GetSessionIdleTimeoutMinutes a *! Minute) in
  let now := server_s (server w) in
  let active := unexpired z (now - T) in
  turns w = [] -> 0 <= T -> sessions_at (sessionLimitKey (account_ID a)) (server w) z e ->
  wp0 (checkAndRegisterSession (Some c) a sessionID) (fun r w' =>
    r = Ok (unlimited_sessions a sessionID || bool_decide (is_Some (active !! sessionID)) ||
            (count active <? GetMaxSessions a)) /\
    (r = Ok true -> unlimited_sessions a sessionID = false -> exists e',
       sessions_at (sessionLimitKey (account_ID a)) (server w') (<[sessionID := now]> active) e')) w.
Proof.
  intros T now active Hw HT Hz. unfold checkAndRegisterSession, unlimited_sessions.
  destruct (IsAnthropicOAuthOrSetupToken a); cbn [negb orb]; [|by apply wp0_ret].
  destruct ((GetMaxSessions a <=? 0) || String.eqb sessionID "") eqn:Hlim; cbn [orb]; [by apply wp0_ret|].
  unfold RegisterSession. rewrite orb_comm, Hlim. apply wp0_bind, wp0_bind, wp0_try, wp0_alone; [done|].
  fold T. apply (register_spec _ _ _ _ _ _ z e); [done|done|..]; fold now active.
  - intros db' Hz' Hm Hroom. cbn [fst snd]. rewrite Z.eqb_refl. apply wp0_ret, wp0_ret.
    split; [|intros _ _; by eexists]. f_equal. symmetry. apply orb_true_iff.
    destruct Hroom; [left; by apply bool_decide_eq_true_2|right; by apply Z.ltb_lt].
  - intros db' e' Hz' _ Hm Hnone Hfull. apply wp0_ret, wp0_ret. split; [|discriminate].
    f_equal. symmetry. apply orb_false_iff. split; [|by apply Z.ltb_ge].
    apply bool_decide_eq_false_2. rewrite Hnone. by intros [? ?].
Qed.

End SessionCheck.

(** ** The prefetch decides as single checks do *)

Section Prefetch.
Context `{Redis Db} `{CostText} (c : sessionLimitCache) (stats : Z -> Time -> res Z).
Implicit Types (db : Db) (w : World Db).

(** The cost that the server holds for an account, if it holds one. *)
Definition cached_cost (db : Db) (id : Z) : option Z :=
  match value_of db (windowCostKey id) with Some (RString s) => ParseFloat s | _ => None end.

(** The cost that counts for an account, [None] if nobody knows it. *)
Definition cost_of (db : Db) (now : Time) (a : Account) : option Z :=
  match cached_cost db (account_ID a) with
  | Some cost => Some cost
  | None => match stats (account_ID a) (GetCurrentWindowStartTime a now) with
            | Ok cost => Some cost
            | Err _ => None
            end
  end.

Definition cost_limited (a : Account) : bool :=
  IsAnthropicOAuthOrSetupToken a && (0 <? GetWindowCostLimit a).

Definition decision (db : Db) (now : Time) (a : Account) (isSticky : bool) : bool :=
  if cost_limited a then
    match cost_of db now a with
    | Some cost => schedulable (CheckWindowCostSchedulability a cost) isSticky
    | None => true
    end
  else true.

Definition same_keys (db db' : Db) : Prop := forall k, peek db' k = peek db k.

Lemma same_cached db db' id : same_keys db db' -> cached_cost db' id = cached_cost db id.
Proof. intros Hk. unfold cached_cost, value_of. by rewrite Hk. Qed.

Lemma get_cost_alone id (Q : res (res (option Z)) -> World Db -> Prop) w :
  turns w = [] ->
  (forall r db', same_keys (server w) db' -> micros db' = micros (server w) ->
     match cached_cost (server w) id with
     | Some cost => r = Ok (Some cost)
     | None => forall cost, r <> Ok (Some cost)
     end -> Q (Ok r) (with_server db' w)) ->
  wp0 (ttry (GetWindowCost id)) Q w.
Proof.
  intros Hw HQ. unfold GetWindowCost. apply wp0_try, wp0_bind, wp0_alone; [done|].
  eapply swp_call; [cbn; done|]. intros db' (Hk & Ho & Hm). cbn in Hk, Ho.
  assert (Hs : same_keys (server w) db').
  { intros k. destruct (decide (k = windowCostKey id)) as [->|Hne]; [done|by apply Ho]. }
  specialize (HQ) as HQ'. unfold cached_cost, value_of in HQ'.
  destruct (peek (server w) (windowCostKey id)) as [[[s|l|z]|] e]; cbn in HQ' |- *.
  - destruct (ParseFloat s); [apply wp0_ret|apply wp0_fail]; by eapply HQ'.
  - by eapply HQ'.
  - by eapply HQ'.
  - apply wp0_ret. by eapply HQ'.
Qed.

(** What a stored cost changes. *)
Lemma set_cost_alone id cost (Q : res unit -> World Db -> Prop) w :
  turns w = [] -> in_i64 cost ->
  (forall db', cached_cost db' id = Some cost ->
     (forall k, k <> windowCostKey id -> peek db' k = peek (server w) k) ->
     micros db' = micros (server w) -> Q (Ok tt) (with_server db' w)) ->
  wp0 (best_effort (SetWindowCost id cost)) Q w.
Proof.
  intros Hw Hc HQ. unfold best_effort, SetWindowCost. apply wp0_bind, wp0_try, wp0_bind, wp0_alone; [done|].
  eapply swp_call; [cbn; done|]. intros db' (Hk & Ho & Hm). cbn in Hk, Ho. cbn [reply_res].
  apply wp0_ret, wp0_ret, HQ; [|done|done].
  unfold cached_cost, value_of. rewrite Hk. by apply ParseFloat_FormatFloat.
Qed.

Lemma window_cost_key_inj a b : in_i64 a -> in_i64 b -> windowCostKey a = windowCostKey b -> a = b.
Proof.
  intros Ha Hb E. unfold windowCostKey in E. apply FormatInt_inj; [done..|]. by injection E.
Qed.

(** A single check, of which the usage log answers in range. *)
Definition stats_in_range : Prop := forall id t cost, stats id t = Ok cost -> in_i64 cost.

Lemma single_check prefetched a isSticky w :
  turns w = [] -> stats_in_range -> windowCostFromPrefetchContext prefetched (account_ID a) = None ->
  wp0 (isAccountSchedulableForWindowCost (Some c) prefetched stats a isSticky)
    (fun r _ => r = Ok (decision (server w) (clock w) a isSticky)) w.
Proof.
  intros Hw Hst Hp. unfold isAccountSchedulableForWindowCost, decision, cost_limited.
  destruct (IsAnthropicOAuthOrSetupToken a); cbn [negb andb]; [|by apply wp0_ret].
  destruct (Z.leb_spec (GetWindowCostLimit a) 0); [rewrite (proj2 (Z.ltb_ge _ _)) by done; by apply wp0_ret|].
  rewrite (proj2 (Z.ltb_lt _ _)), Hp by done. apply wp0_bind, get_cost_alone; [done|].
  intros r db' _ Hm Hr. unfold cost_of. destruct (cached_cost (server w) (account_ID a)) as [cost|].
  - subst r. by apply wp0_ret.
  - assert (Hlog : wp0 (let! now := time_now in
      match stats (account_ID a) (GetCurrentWindowStartTime a now) with
      | Err _ => tret true
      | Ok cost => let! _ := best_effort (SetWindowCost (account_ID a) cost) in
                   tret (schedulable (CheckWindowCostSchedulability a cost) isSticky)
      end) (fun r _ => r = Ok match (match stats (account_ID a) (GetCurrentWindowStartTime a (clock w)) with
                                     | Ok cost => Some cost | Err _ => None end) with
                              | Some cost => schedulable (CheckWindowCostSchedulability a cost) isSticky
                              | None => true end) (with_server db' w)).
    { apply wp0_bind, wp0_now. cbn [clock with_server].
      destruct (stats (account_ID a) _) as [cost|e] eqn:E; [|by apply wp0_ret].
      apply wp0_bind, set_cost_alone; [done|by eapply Hst|]. intros. by apply wp0_ret. }
    destruct r as [[cost|]|e]; [by destruct (Hr cost)|exact Hlog|exact Hlog].
Qed.

(** *** The batch of cached costs *)

Definition string_at (db : Db) (k : string) : option string :=
  match value_of db k with Some (RString s) => Some s | _ => None end.

Lemma MGET_spec keys db :
  swp (MGET keys) (fun r db' => r = Ok (map (string_at db) keys) /\ same_keys db db' /\
    micros db' = micros db) db.
Proof.
  revert db; induction keys as [|k keys IH]; intros db; [by repeat split|].
  unfold swp. cbn [MGET]. pose proof (exec_reply (GET k) db) as Hr. pose proof (exec_micros (GET k) db) as Hm.
  assert (Hs : same_keys db (exec (GET k) db).1).
  { intros k'. destruct (decide (k' = k)) as [->|Hne]; [by rewrite (exec_key (GET k))|by apply exec_other]. }
  destruct (exec (GET k) db) as [db1 r]. cbn in Hr, Hs, Hm. specialize (IH db1). unfold swp in IH.
  destruct (MGET keys db1) as [db2 vals]. cbn in IH. destruct IH as (-> & Hs2 & Hm2). cbn.
  split; [|split; [intros k'; by rewrite Hs2|congruence]]. f_equal. f_equal.
  - subst r. unfold string_at, value_of. by destruct (peek db k) as [[[]|] ?].
  - apply map_ext. intros k'. unfold string_at, value_of. by rewrite Hs.
Qed.

Lemma window_costs_lookup db ids acc id :
  window_costs (zip ids (map (string_at db) (map windowCostKey ids))) acc !! id =
  match (if decide (id ∈ ids) then cached_cost db id else None) with
  | Some cost => Some cost
  | None => acc !! id
  end.
Proof.
  revert acc; induction ids as [|i ids IH]; intros acc; [done|]. cbn [map zip zip_with window_costs].
  assert (Hcached : cached_cost db i = match string_at db (windowCostKey i) with Some s => ParseFloat s | None => None end).
  { unfold cached_cost, string_at. by destruct (value_of db (windowCostKey i)) as [[]|]. }
  destruct (string_at db (windowCostKey i)) as [s|] eqn:Es; rewrite IH; clear IH.
  - destruct (decide (id = i)) as [->|Hne].
    + rewrite (decide_True (P := i ∈ i :: ids)) by constructor. rewrite Hcached.
      destruct (ParseFloat s) as [cost|]; [rewrite lookup_insert_eq|]; by case_decide.
    + assert (Hin : id ∈ i :: ids <-> id ∈ ids) by (rewrite elem_of_cons; tauto).
      assert (Hacc : match ParseFloat s with Some cost => <[i := cost]> acc | None => acc end !! id = acc !! id)
        by (case_match; [by rewrite lookup_insert_ne|done]).
      rewrite Hacc. by rewrite (decide_ext _ _ _ _ Hin).
  - destruct (decide (id = i)) as [->|Hne].
    + rewrite (decide_True (P := i ∈ i :: ids)) by constructor. rewrite Hcached. by case_decide.
    + assert (Hin : id ∈ i :: ids <-> id ∈ ids) by (rewrite elem_of_cons; tauto).
      by rewrite (decide_ext _ _ _ _ Hin).
Qed.

(** *** The misses *)

Section Misses.
Context (byID : gmap Z Account) (now : Time).

Definition whole_start (a : Account) : Prop :=
  GetCurrentWindowStartTime a now = Unix (GetCurrentWindowStartTime a now) * Second + unixEpoch.
Context (Hwhole : forall id a, byID !! id = Some a -> whole_start a).

(** A group holds misses whose windows start at its time. *)
Definition grouped (costs : gmap Z Z) (missing : gmap Z (list Z * Time)) : Prop :=
  forall key ids start id, missing !! key = Some (ids, start) -> Unix start = key /\
    start = key * Second + unixEpoch /\
    (id ∈ ids -> exists a, byID !! id = Some a /\ costs !! id = None /\ GetCurrentWindowStartTime a now = start).

Definition in_group (missing : gmap Z (list Z * Time)) (id : Z) : Prop :=
  exists key ids start, missing !! key = Some (ids, start) /\ id ∈ ids.

Lemma missing_spec costs ids missing w : clock w = now -> grouped costs missing ->
  wp0 (missing_by_start byID costs ids missing) (fun r w' => w' = w /\ exists m, r = Ok m /\ grouped costs m /\
    (forall id, in_group missing id -> in_group m id) /\
    (forall id a, id ∈ ids -> byID !! id = Some a -> costs !! id = None -> in_group m id)) w.
Proof.
  intros Hw. revert missing; induction ids as [|i ids IH]; intros missing Hg.
  - apply wp0_ret. split; [done|]. exists missing. split_and!; try done. by intros id a Hin%elem_of_nil.
  - cbn [missing_by_start].
    destruct (costs !! i) eqn:Ec; [|destruct (byID !! i) as [a|] eqn:Ea].
    + eapply wp0_mono; [by apply IH|]. intros r w' (-> & m & -> & Hm1 & Hm2 & Hm3). split; [done|].
      exists m. split_and!; try done. intros id a [->|Hin]%elem_of_cons Ha Hn; [congruence|by eapply Hm3].
    + apply wp0_bind, wp0_now. rewrite Hw. set (start := GetCurrentWindowStartTime a now).
      set (known := default [] (fst <$> missing !! Unix start)).
      eapply wp0_mono; [apply IH|].
      * intros key ids' start' id Hk. apply lookup_insert_Some in Hk as [[<- [= <- <-]]|[Hne Hk]]; [|by eapply Hg].
        split; [done|]. split; [by apply (Hwhole i)|]. intros Hin. apply elem_of_app in Hin as [Hin|Hin].
        -- unfold known in Hin. destruct (missing !! Unix start) as [[l s]|] eqn:E; cbn in Hin; [|by apply elem_of_nil in Hin].
           destruct (Hg _ _ _ id E) as (_ & Hs & Hall). destruct (Hall Hin) as (a' & ? & ? & Ha').
           exists a'. split_and!; try done. rewrite Ha', Hs. symmetry. by apply (Hwhole i).
        -- apply list_elem_of_singleton in Hin as ->. by exists a.
      * intros r w' (-> & m & -> & Hm1 & Hm2 & Hm3). split; [done|]. exists m. split_and!; try done.
        -- intros id (key & l & s & Hk & Hin). apply Hm2. destruct (decide (key = Unix start)) as [->|Hne].
           ++ exists (Unix start), (app known [i]), start. rewrite lookup_insert_eq. split; [done|].
              apply elem_of_app. left. unfold known. by rewrite Hk.
           ++ exists key, l, s. by rewrite lookup_insert_ne.
        -- intros id a' [->|Hin]%elem_of_cons Ha Hn; [|by eapply Hm3]. apply Hm2.
           exists (Unix start), (app known [i]), start. rewrite lookup_insert_eq. split; [done|].
           apply elem_of_app. right. by apply list_elem_of_singleton.
    + eapply wp0_mono; [by apply IH|]. intros r w' (-> & m & -> & Hm1 & Hm2 & Hm3). split; [done|].
      exists m. split_and!; try done. intros id a [->|Hin]%elem_of_cons Ha Hn; [congruence|by eapply Hm3].
Qed.

End Misses.

(** *** The costs that are fetched *)

Section Fetch.
Context (byID : gmap Z Account) (now : Time) (db0 : Db) (Hstats : stats_in_range).
Context (Hids : forall id a, byID !! id = Some a -> account_ID a = id /\ in_i64 id).

(** The costs are those that count, and the server has learnt no others. *)
Definition fetched (costs : gmap Z Z) (w : World Db) : Prop :=
  turns w = [] /\ clock w = now /\
  (forall id a cost, byID !! id = Some a -> costs !! id = Some cost -> cost_of db0 now a = Some cost) /\
  (forall id a, byID !! id = Some a -> cost_of db0 now a = None -> cached_cost (server w) id = None).

(** Every account of a list whose cost is known to somebody has one. *)
Definition settled (ids : list Z) (costs : gmap Z Z) : Prop :=
  forall id a, id ∈ ids -> byID !! id = Some a -> is_Some (cost_of db0 now a) -> is_Some (costs !! id).

Definition grown (costs costs' : gmap Z Z) : Prop :=
  forall id, is_Some (costs !! id) -> is_Some (costs' !! id).

(** One answer of the usage log for an account that the cache does not know. *)
Lemma fetched_insert costs w id a cost db' :
  fetched costs w -> byID !! id = Some a -> cost_of db0 now a = Some cost ->
  cached_cost db' id = Some cost ->
  (forall k, k <> windowCostKey id -> peek db' k = peek (server w) k) ->
  fetched (<[id := cost]> costs) (with_server db' w).
Proof.
  intros (Hw & Hc & H1 & H2) Ha Hcost Hdb Hoth. split; [done|]. split; [done|]. split.
  - intros id' a' cost' Ha' [[<- <-]|[_ Hl]]%lookup_insert_Some; [congruence|by eapply H1].
  - intros id' a' Ha' Hnone. cbn. destruct (decide (id' = id)) as [->|Hne]; [congruence|].
    unfold cached_cost, value_of. rewrite Hoth; [by apply (H2 id' a')|].
    intros E. apply Hne. destruct (Hids _ _ Ha), (Hids _ _ Ha'). by apply window_cost_key_inj.
Qed.

(** The accounts of one group: not in the cache, with windows from one start. *)
Definition group (ids : list Z) (start : Time) : Prop :=
  forall id, id ∈ ids -> exists a, byID !! id = Some a /\ cached_cost db0 id = None /\
    GetCurrentWindowStartTime a now = start.

Lemma group_cost ids start id a : group ids start -> id ∈ ids -> byID !! id = Some a ->
  cost_of db0 now a = match stats id start with Ok cost => Some cost | Err _ => None end.
Proof.
  intros Hg Hin Ha. destruct (Hg id Hin) as (a' & Ha' & Hc & Hs). assert (a' = a) as -> by congruence.
  unfold cost_of. destruct (Hids _ _ Ha) as [-> _]. by rewrite Hc, Hs.
Qed.

Lemma keep_single_spec ids start costs w : fetched costs w -> group ids start ->
  wp0 (keep_single ids start stats costs) (fun r w' => exists costs', r = Ok costs' /\
    fetched costs' w' /\ grown costs costs' /\ settled ids costs') w.
Proof.
  revert costs w; induction ids as [|id ids IH]; intros costs w Hf Hg.
  - apply wp0_ret. exists costs. split; [done|]. split; [done|]. split; [by intros ?|]. by intros id a Hin%elem_of_nil.
  - assert (Hg' : group ids start) by (intros i Hi; apply Hg; by constructor).
    destruct (Hg id ltac:(constructor)) as (a & Ha & _).
    pose proof (group_cost _ _ id a Hg ltac:(constructor) Ha) as Hcost. cbn [keep_single].
    destruct (stats id start) as [cost|e] eqn:E.
    + apply wp0_bind. destruct Hf as (Hw & Hf). apply set_cost_alone; [done|by eapply Hstats|].
      intros db' Hdb Hoth Hm.
      eapply wp0_mono; [apply IH; [by eapply fetched_insert|done]|].
      intros r w' (costs' & -> & Hf' & Hgrow & Hset). exists costs'. split; [done|]. split; [done|]. split.
      * intros i Hi. apply Hgrow. destruct (decide (i = id)) as [->|]; [by rewrite lookup_insert_eq|by rewrite lookup_insert_ne].
      * intros i a' [->|Hi]%elem_of_cons Ha' Hs; [apply Hgrow; by rewrite lookup_insert_eq|by eapply Hset].
    + eapply wp0_mono; [by apply IH|]. intros r w' (costs' & -> & Hf' & Hgrow & Hset).
      exists costs'. split; [done|]. split; [done|]. split; [done|]. intros i a' [->|Hi]%elem_of_cons Ha' Hs; [|by eapply Hset].
      assert (a' = a) as -> by congruence. rewrite Hcost in Hs. by destruct Hs.
Qed.

Lemma keep_batch_spec ids start found costs w : fetched costs w -> group ids start ->
  (forall id, id ∈ ids -> stats id start = Ok (default 0 (found !! id))) ->
  wp0 (keep_batch ids found costs) (fun r w' => exists costs', r = Ok costs' /\
    fetched costs' w' /\ grown costs costs' /\ settled ids costs') w.
Proof.
  revert costs w; induction ids as [|id ids IH]; intros costs w Hf Hg Hb.
  - apply wp0_ret. exists costs. split; [done|]. split; [done|]. split; [by intros ?|]. by intros id a Hin%elem_of_nil.
  - assert (Hg' : group ids start) by (intros i Hi; apply Hg; by constructor).
    destruct (Hg id ltac:(constructor)) as (a & Ha & _).
    pose proof (group_cost _ _ id a Hg ltac:(constructor) Ha) as Hcost.
    pose proof (Hb id ltac:(constructor)) as E. rewrite E in Hcost.
    cbn [keep_batch]. apply wp0_bind. pose proof Hf as (Hw & _).
    apply set_cost_alone; [done|by eapply Hstats|]. intros db' Hdb Hoth Hm.
    eapply wp0_mono; [apply IH; [by eapply fetched_insert|done|intros i Hi; apply Hb; by constructor]|].
    intros r w' (costs' & -> & Hf' & Hgrow & Hset). exists costs'. split; [done|]. split; [done|]. split.
    + intros i Hi. apply Hgrow. destruct (decide (i = id)) as [->|]; [by rewrite lookup_insert_eq|by rewrite lookup_insert_ne].
    + intros i a' [->|Hi]%elem_of_cons Ha' Hs; [apply Hgrow; by rewrite lookup_insert_eq|by eapply Hset].
Qed.

(** The batch answers what the single queries answer. *)
Definition batch_agrees (batch : option (list Z -> Time -> res (gmap Z Z))) : Prop :=
  forall query ids start found id, batch = Some query -> query ids start = Ok found -> id ∈ ids ->
    stats id start = Ok (default 0 (found !! id)).

Lemma fetch_missing_spec keys missing batch costs w : batch_agrees batch -> fetched costs w ->
  (forall key ids start, missing !! key = Some (ids, start) -> group ids start) ->
  wp0 (fetch_missing keys missing batch stats costs) (fun r w' => exists costs', r = Ok costs' /\
    fetched costs' w' /\ grown costs costs' /\
    forall key ids start, key ∈ keys -> missing !! key = Some (ids, start) -> settled ids costs') w.
Proof.
  intros Hb. revert costs w; induction keys as [|key keys IH]; intros costs w Hf Hm.
  - apply wp0_ret. exists costs. split; [done|]. split; [done|]. split; [by intros ?|]. by intros key ids start Hin%elem_of_nil.
  - cbn [fetch_missing]. destruct (missing !! key) as [[ids start]|] eqn:E.
    + assert (Hstep : wp0 (match batch with
        | Some query => match query ids start with
                        | Ok found => keep_batch ids found costs
                        | Err _ => keep_single ids start stats costs
                        end
        | None => keep_single ids start stats costs
        end) (fun r w' => exists costs', r = Ok costs' /\ fetched costs' w' /\ grown costs costs' /\ settled ids costs') w).
      { pose proof (Hm _ _ _ E) as Hg. destruct batch as [query|]; [|by apply keep_single_spec].
        destruct (query ids start) as [found|e] eqn:Eq; [|by apply keep_single_spec].
        eapply keep_batch_spec; [done|exact Hg|]. intros id Hid. by eapply Hb. }
      apply wp0_bind. eapply wp0_mono; [exact Hstep|]. intros r w' (costs1 & -> & Hf1 & Hg1 & Hs1).
      eapply wp0_mono; [by apply IH|]. intros r w2 (costs2 & -> & Hf2 & Hg2 & Hs2).
      exists costs2. split; [done|]. split; [done|]. split; [intros i Hi; by apply Hg2, Hg1|].
      intros k l s [->|Hk]%elem_of_cons Hl; [|by eapply Hs2].
      rewrite E in Hl. injection Hl as <- <-. intros i a Hi Ha Hc. by eapply Hg2, Hs1.
    + eapply wp0_mono; [by apply IH|]. intros r w' (costs' & -> & Hf' & Hg' & Hs').
      exists costs'. split; [done|]. split; [done|]. split; [done|]. intros k l s [->|Hk]%elem_of_cons Hl; [congruence|by eapply Hs'].
Qed.

End Fetch.

End Prefetch.

Lemma account_by_id_spec accounts id a : account_by_id accounts !! id = Some a ->
  a ∈ accounts /\ account_ID a = id.
Proof.
  induction accounts as [|x accounts IH]; cbn [account_by_id]; [done|]. case_decide as Hx; intros Ha.
  - destruct (IH Ha). split; [by constructor|done].
  - apply lookup_insert_Some in Ha as [[<- <-]|[_ Ha]]; [by split; [constructor|]|].
    destruct (IH Ha). split; [by constructor|done].
Qed.

Lemma account_by_id_lookup accounts a : NoDup (map account_ID accounts) -> a ∈ accounts ->
  account_by_id accounts !! account_ID a = Some a.
Proof.
  induction accounts as [|x accounts IH]; cbn [account_by_id map]; [by intros _ ?%elem_of_nil|].
  intros [Hx Hnd]%NoDup_cons [->|Ha]%elem_of_cons.
  - rewrite decide_False; [by rewrite lookup_insert_eq|]. intros [y Hy].
    apply account_by_id_spec in Hy as [Hy E]. apply Hx, list_elem_of_fmap. by exists y.
  - assert (Hne : account_ID a <> account_ID x).
    { intros E. apply Hx, list_elem_of_fmap. exists a. by rewrite E. }
    case_decide; [by apply IH|]. rewrite lookup_insert_ne by done. by apply IH.
Qed.

Section Agreement.
Context `{Redis Db} `{CostText} (c : sessionLimitCache) (stats : Z -> Time -> res Z).
Implicit Types (w : World Db).

Lemma batch_alone ids (Q : res (res (gmap Z Z)) -> World Db -> Prop) w : ids <> [] -> turns w = [] ->
  (forall costs db', same_keys (server w) db' -> micros db' = micros (server w) ->
     (forall id, costs !! id = if decide (id ∈ ids) then cached_cost (server w) id else None) ->
     Q (Ok (Ok costs)) (with_server db' w)) ->
  wp0 (ttry (GetWindowCostBatch ids)) Q w.
Proof.
  intros Hne Hw HQ. unfold GetWindowCostBatch. destruct ids as [|i ids]; [done|].
  apply wp0_try, wp0_bind, wp0_alone; [done|]. eapply swp_mono; [apply MGET_spec|].
  intros r db' (-> & Hs & Hm). apply wp0_ret, HQ; [done|done|]. intros id.
  rewrite (window_costs_lookup stats), lookup_empty. by case_match.
Qed.

(** What the prefetch knows afterwards. *)
Lemma prefetch_spec order batch accounts w :
  turns w = [] -> stats_in_range stats -> batch_agrees stats batch -> (forall l, order l ≡ₚ l) ->
  NoDup (map account_ID accounts) -> costed accounts <> [] ->
  (forall a, a ∈ accounts -> in_i64 (account_ID a) /\ whole_start (clock w) a) ->
  wp0 (withWindowCostPrefetch order (Some c) batch (Some stats) accounts None) (fun r w' =>
    exists costs, r = Ok (Some costs) /\ turns w' = [] /\ clock w' = clock w /\
      forall a, a ∈ costed accounts -> costs !! account_ID a = cost_of stats (server w) (clock w) a /\
        (cost_of stats (server w) (clock w) a = None -> cached_cost (server w') (account_ID a) = None)) w.
Proof.
  intros Hw Hst Hb Ho Hnd Hne Hacc. unfold withWindowCostPrefetch.
  set (l := costed accounts) in *. destruct l as [|a0 l0] eqn:El; [done|]. rewrite <- El in *. clear a0 l0 El.
  set (ids := map account_ID l). set (byID := account_by_id l).
  assert (Hin : forall a, a ∈ l -> a ∈ accounts) by (intros a Ha; by apply list_elem_of_filter in Ha as [_ Ha]).
  assert (Hndl : NoDup (map account_ID l)).
  { revert Hnd. unfold l, costed. clear. induction accounts as [|x accounts IH]; [done|].
    cbn [map]. intros [Hx Hnd]%NoDup_cons. rewrite filter_cons. case_decide; [|by apply IH].
    cbn [map]. constructor; [|by apply IH]. intros (y & E & Hy)%list_elem_of_fmap. apply Hx.
    apply list_elem_of_fmap. exists y. split; [done|]. by apply list_elem_of_filter in Hy as [_ Hy]. }
  assert (Hby : forall id a, byID !! id = Some a -> a ∈ l /\ account_ID a = id) by apply account_by_id_spec.
  assert (Hids : forall id a, byID !! id = Some a -> account_ID a = id /\ in_i64 id).
  { intros id a Ha. destruct (Hby id a Ha) as [Hal <-]. split; [done|]. by apply Hacc, Hin. }
  assert (Hid : forall id a, byID !! id = Some a -> id ∈ ids).
  { intros id a Ha. destruct (Hby id a Ha) as [Hal <-]. by apply list_elem_of_fmap_2. }
  apply wp0_bind, batch_alone; [by destruct l|done|]. intros costs db' Hs Hm Hcosts.
  apply wp0_bind. eapply wp0_mono.
  { apply (missing_spec byID (clock w)); [|done|].
    - intros id a Ha. apply Hacc, Hin. by apply (Hby id).
    - intros key ids' start id Hk. by rewrite lookup_empty in Hk. }
  intros r w1 (-> & missing & -> & Hg & _ & Hall). apply wp0_bind.
  assert (Hf : fetched stats byID (clock w) (server w) costs (with_server db' w)).
  { split; [done|]. split; [done|]. split.
    - intros id a cost Ha Hl. rewrite Hcosts, decide_True in Hl by eauto.
      unfold cost_of. destruct (Hids _ _ Ha) as [-> _]. by rewrite Hl.
    - intros id a Ha Hn. cbn. rewrite (same_cached _ _ _ Hs). unfold cost_of in Hn.
      destruct (Hids _ _ Ha) as [E _]. rewrite E in Hn. by destruct (cached_cost (server w) id). }
  eapply wp0_mono.
  { apply (fetch_missing_spec stats byID (clock w) (server w) Hst Hids); [exact Hb|exact Hf|].
    intros key ids' start Hk id Hi. destruct (Hg _ _ _ id Hk) as (_ & _ & Hgi).
    destruct (Hgi Hi) as (a & Ha & Hn & Hsa). exists a. split; [done|]. split; [|done].
    rewrite Hcosts, decide_True in Hn by eauto. done. }
  intros r w2 (costs' & -> & (Hw2 & Hc2 & H1 & H2) & Hgrow & Hset). apply wp0_ret.
  exists costs'. split; [done|]. split; [done|]. split; [done|]. intros a Ha.
  pose proof (account_by_id_lookup l a Hndl Ha) as Hba. fold byID in Hba. split; [|by apply H2].
  destruct (costs' !! account_ID a) as [cost|] eqn:Ec; [symmetry; by eapply H1|].
  destruct (cost_of stats (server w) (clock w) a) as [cost|] eqn:Et; [exfalso|done].
  assert (His : is_Some (costs' !! account_ID a)); [|rewrite Ec in His; by destruct His].
  destruct (costs !! account_ID a) as [x|] eqn:Ex; [apply Hgrow; by eexists|].
  destruct (Hall (account_ID a) a ltac:(by eapply Hid) Hba Ex) as (key & ids' & start & Hk & Hi).
  eapply (Hset key ids' start); [|exact Hk|exact Hi|exact Hba|by rewrite Et].
  rewrite Ho. apply list_elem_of_fmap. exists (key, (ids', start)). split; [done|].
  by apply elem_of_map_to_list.
Qed.

Lemma no_prefetch id : windowCostFromPrefetchContext None id = None.
Proof. unfold windowCostFromPrefetchContext. by case_match. Qed.

(** The costs that are fetched for a list of accounts at once - from the cache in one
request, and from the usage log in one query per start of a window, in any order - decide
about every account of the list as the check of that account alone does. *)
Theorem prefetch_decides_like_single_checks order batch accounts a isSticky w :
  turns w = [] -> stats_in_range stats -> batch_agrees stats batch -> (forall l, order l ≡ₚ l) ->
  NoDup (map account_ID accounts) ->
  (forall a, a ∈ accounts -> in_i64 (account_ID a) /\ 0 < account_ID a /\ whole_start (clock w) a) ->
  a ∈ accounts ->
  wp0 (isAccountSchedulableForWindowCost (Some c) None stats a isSticky)
    (fun r _ => r = Ok (decision stats (server w) (clock w) a isSticky)) w /\
  wp0 (let! costs := withWindowCostPrefetch order (Some c) batch (Some stats) accounts None in
       isAccountSchedulableForWindowCost (Some c) costs stats a isSticky)
    (fun r _ => r = Ok (decision stats (server w) (clock w) a isSticky)) w.
Proof.
  intros Hw Hst Hb Ho Hnd Hacc Ha. split; [apply single_check; [done|done|apply no_prefetch]|].
  apply wp0_bind. destruct (costed accounts) as [|a0 l0] eqn:El.
  - unfold withWindowCostPrefetch. rewrite El. apply wp0_ret. apply single_check; [done|done|apply no_prefetch].
  - eapply wp0_mono.
    { apply prefetch_spec; try done; [by rewrite El|]. intros x Hx. by destruct (Hacc x Hx) as (? & _ & ?). }
    intros r w' (costs & -> & Hw' & Hc' & Hall).
    destruct (Hacc a Ha) as (_ & Hpos & _).
    assert (Hpre : windowCostFromPrefetchContext (Some costs) (account_ID a) = costs !! account_ID a).
    { unfold windowCostFromPrefetchContext. by rewrite (proj2 (Z.leb_gt _ _)). }
    destruct (cost_limited a) eqn:Hlim; unfold decision; rewrite Hlim.
    + destruct (Hall a) as [Hcost Hnone]; [by apply list_elem_of_filter|].
      destruct (cost_of stats (server w) (clock w) a) as [cost|] eqn:Et.
      * unfold isAccountSchedulableForWindowCost. rewrite Hpre, Hcost.
        unfold cost_limited in Hlim. apply andb_true_iff in Hlim as [-> Hl]. cbn [negb].
        rewrite Z.leb_antisym, Hl. by apply wp0_ret.
      * eapply wp0_mono; [apply single_check; [done|done|by rewrite Hpre]|].
        intros r w2 ->. f_equal. unfold decision. rewrite Hlim. unfold cost_of in Et |- *.
        rewrite (Hnone eq_refl), Hc'. destruct (cached_cost (server w) (account_ID a)); [done|].
        by destruct (stats (account_ID a) _).
    + unfold isAccountSchedulableForWindowCost, cost_limited in *.
      destruct (IsAnthropicOAuthOrSetupToken a); cbn [negb andb] in *; [|by apply wp0_ret].
      rewrite Z.leb_antisym, Hlim. by apply wp0_ret.
Qed.

End Agreement.

(** ** Examples: account 7 with ten dollars a window, two sessions, ten requests a minute *)

Definition ex_extra : AccountExtra :=
  mkExtra (Some 100000000000) (Some 20000000000) (Some 2) None (Some 10) None None.
Definition ex_7 : Account := mkAccount 7 "anthropic" "oauth" 3 None None ex_extra.
Definition ex_8 : Account := mkAccount 8 "anthropic" "setup-token" 3 (Some (unixEpoch + 5 * Second))
  (Some (unixEpoch + 5 * Hour)) ex_extra.
Definition ex_9 : Account := mkAccount 9 "openai" "oauth" 3 None None ex_extra.

(** The usage log: account 8 has spent eleven dollars, the others nothing. *)
Definition ex_stats (id : Z) (start : Time) : res Z := Ok (if id =? 8 then 110000000000 else 0).
Definition ex_batch (ids : list Z) (start : Time) : res (gmap Z Z) := Ok {[8 := 110000000000]}.

Definition ex_time : Time := unixEpoch + 2 * Hour + 1.
Definition ex_start : World MapRedis := mkWorld empty_redis ex_time false [].

(** The zones of a cost and of a rate: below the limit, for sticky sessions only, and over. *)
Example ex_zones :
  map (CheckWindowCostSchedulability ex_7) [99999999999; 100000000000; 119999999999; 120000000000] =
    [WindowCostSchedulable; WindowCostStickyOnly; WindowCostStickyOnly; WindowCostNotSchedulable] /\
  GetRPMStickyBuffer ex_7 = 5 /\
  map (CheckRPMSchedulability ex_7) [9; 10; 14; 15] =
    [WindowCostSchedulable; WindowCostStickyOnly; WindowCostStickyOnly; WindowCostNotSchedulable].
Proof. vm_compute. repeat split. Qed.

(** The first check asks the usage log; the next ones find its answer in the cache. *)
Example ex_window_checks :
  let check stats w a isSticky :=
    (isAccountSchedulableForWindowCost (Some ex_sessions) None stats a isSticky w []).1 in
  let after := (check ex_stats ex_start ex_8 false).2 in
  (check ex_stats ex_start ex_8 false).1 = Ok false /\
  (check (fun _ _ => Err (ErrMsg "down")) after ex_8 true).1 = Ok true /\
  (check (fun _ _ => Err (ErrMsg "down")) after ex_8 false).1 = Ok false /\
  (check (fun _ _ => Err (ErrMsg "down")) ex_start ex_8 false).1 = Ok true.
Proof. vm_compute. repeat split. Qed.

Example ex_rpm_check :
  let counted n := Nat.iter n (fun w => (IncrementAccountRPM true 7 w []).1.2) ex_start in
  (isAccountSchedulableForRPM true None ex_7 false (counted 9%nat) []).1.1 = Ok true /\
  (isAccountSchedulableForRPM true None ex_7 false (counted 10%nat) []).1.1 = Ok false /\
  (isAccountSchedulableForRPM true None ex_7 true (counted 10%nat) []).1.1 = Ok true /\
  (isAccountSchedulableForRPM true None ex_9 false (counted 10%nat) []).1.1 = Ok true /\
  (withRPMPrefetch true [ex_7; ex_8; ex_9] None (counted 2%nat) []).1.1 = Ok (Some {[7 := 2; 8 := 0]}).
Proof. vm_compute. repeat split. Qed.

Lemma session_check_decision_witness :
  wp0 (checkAndRegisterSession (Some ex_sessions) ex_7 "a") (fun r w' => r = Ok true /\
    (r = Ok true -> unlimited_sessions ex_7 "a" = false -> exists e',
       sessions_at (sessionLimitKey 7) (server w') {["a" := 0]} e')) ex_start.
Proof.
  eapply wp0_mono; [apply (session_check_decision ex_sessions ex_7 "a" ∅ None ex_start eq_refl);
    [vm_compute; discriminate|reflexivity]|].
  intros r w' [-> Ha]. split; [reflexivity|exact Ha].
Defined.

Example ex_decision : decision ex_stats empty_redis ex_time ex_8 false = false.
Proof. vm_compute. reflexivity. Qed.

Lemma prefetch_decides_like_single_checks_witness :
  wp0 (isAccountSchedulableForWindowCost (Some ex_sessions) None ex_stats ex_8 false)
    (fun r _ => r = Ok (decision ex_stats empty_redis ex_time ex_8 false)) ex_start /\
  wp0 (let! costs := withWindowCostPrefetch (@rev Z) (Some ex_sessions) (Some ex_batch) (Some ex_stats)
         [ex_7; ex_8; ex_9] None in
       isAccountSchedulableForWindowCost (Some ex_sessions) costs ex_stats ex_8 false)
    (fun r _ => r = Ok (decision ex_stats empty_redis ex_time ex_8 false)) ex_start.
Proof.
  apply (prefetch_decides_like_single_checks ex_sessions ex_stats (@rev Z) (Some ex_batch)
    [ex_7; ex_8; ex_9] ex_8 false ex_start eq_refl).
  - intros id t cost. unfold ex_stats. case_match; intros [= <-]; vm_compute; split; congruence.
  - intros query ids start found id [= <-] [= <-] _. unfold ex_stats.
    destruct (Z.eqb_spec id 8) as [->|Hne]; [reflexivity|]. by rewrite lookup_singleton_ne by congruence.
  - intros l. symmetry. apply Permutation_rev.
  - vm_compute. repeat constructor; set_solver.
  - intros a Ha. repeat (apply elem_of_cons in Ha as [->|Ha]; [vm_compute; repeat split; congruence|]).
    by apply elem_of_nil in Ha.
  - set_solver.
Defined.
