(* ===== verification/MessageQueue.v ===== *)
(** * The message queue of an account

User messages of one account are forwarded one after the other, with a delay between
them that follows its requests per minute: the lock, the time of the last message and
the index of locks in Redis ([repository/user_msg_queue_cache.go]), the delay
([service/user_msg_queue_service.go]) and the wait of a request
([handler/user_msg_queue_helper.go]).

Random draws are inputs; products that the code computes in float64 are computed
exactly and rounded as there. *)
From S2P Require Import Prelude GoText Programs Redis Slots SlotLimits SlotRuns RateCounters.
From Stdlib Require Import Bool.

Local Open Scope string_scope.
Local Open Scope Z_scope.

Definition umqKeyPrefix := "umq:".
Definition umqLockSuffix := ":lock".
Definition umqLastSuffix := ":last".
Definition umqLockIndexKey := "umq:lock:index".
Definition umqLockIndexCleanupBatchSize : Z := 1000.

Definition umqLockKey (accountID : Z) : string :=
  umqKeyPrefix +:+ "{" +:+ FormatInt accountID +:+ "}" +:+ umqLockSuffix.
Definition umqLastKey (accountID : Z) : string :=
  umqKeyPrefix +:+ "{" +:+ FormatInt accountID +:+ "}" +:+ umqLastSuffix.

(** ** Scripts *)

Section Scripts.
Context `{Redis Db}.

(** Whether the lock was acquired, and when it expires, in milliseconds. *)
Definition acquireLockScript (key requestID : string) (ttl : Z) : Script Db (Z * Z) :=
  do! cur := call (GET key) in
  match cur with
  | Bulk holder =>
      if String.eqb holder requestID then
        do! _ := call (PEXPIRE key ttl) in
        do! ms := time_ms in
        sret (1, ms + ttl)
      else
        do! ms := time_ms in
        do! pttl := call_int (PTTL key) in
        if 0 <? pttl then sret (0, ms + pttl) else sret (0, ms)
  | _ =>
      do! _ := call (SET key requestID false (Some ttl)) in
      do! ms := time_ms in
      sret (1, ms + ttl)
  end.

Definition releaseLockScript (lockKey lastKey requestID : string) : Script Db Z :=
  do! cur := call (GET lockKey) in
  match cur with
  | Bulk holder =>
      if String.eqb holder requestID then
        do! _ := call (DEL lockKey) in
        do! ms := time_ms in
        do! _ := call (SET lastKey (FormatInt ms) false (Some 60000)) in
        sret 1
      else sret 0
  | _ => sret 0
  end.

Definition reconcileLockScript (key : string) : Script Db (Z * Z) :=
  do! pttl := call_int (PTTL key) in
  if pttl =? -2 then sret (-2, 0)
  else if pttl =? -1 then
    do! _ := call (DEL key) in sret (-1, 0)
  else sret (1, pttl).

End Scripts.

(** ** The cache *)

Section Cache.
Context `{Redis Db}.

Definition AcquireLock (accountID : Z) (requestID : string) (lockTtlMs : Z) : Client Db bool :=
  let! result := wrapped "umq acquire lock"
    (request (acquireLockScript (umqLockKey accountID) requestID lockTtlMs)) in
  let '(acquired, expireAtMs) := result in
  let! _ := (if 0 <? expireAtMs
             then best_effort (request (call (ZADD umqLockIndexKey expireAtMs (FormatInt accountID))))
             else tret tt) in
  tret (acquired =? 1).

Definition ReleaseLock (accountID : Z) (requestID : string) : Client Db bool :=
  let! result := wrapped "umq release lock"
    (request (releaseLockScript (umqLockKey accountID) (umqLastKey accountID) requestID)) in
  let! _ := (if result =? 1
             then best_effort (request (call (ZREM umqLockIndexKey (FormatInt accountID))))
             else tret tt) in
  tret (result =? 1).

Definition GetLastCompletedMs (accountID : Z) : Client Db Z :=
  let! val := wrapped "umq get last completed" (request (call (GET (umqLastKey accountID)))) in
  match val with
  | Nil => tret 0
  | Bulk s => match ParseInt s with
              | Some ms => tret ms
              | None => tfail (ErrWrap "umq parse last completed" (ErrMsg "strconv.ParseInt"))
              end
  | _ => tfail (ErrWrap "umq get last completed" (ErrMsg "redis: unexpected type"))
  end.

Definition GetCurrentTimeMs : Client Db Z := wrapped "umq get redis time" (request time_ms).

Definition removeLockIndexMember (member : string) : Client Db unit :=
  best_effort (request (call (ZREM umqLockIndexKey member))).

(** The loop over the candidates: how many locks were removed, and the error that ends it. *)
Fixpoint reconcile_members (members : list string) (nowMs cleaned : Z) : Client Db (Z * option goerr) :=
  match members with
  | [] => tret (cleaned, None)
  | member :: members =>
      match parse_member member with
      | None =>
          let! _ := removeLockIndexMember member in
          reconcile_members members nowMs cleaned
      | Some accountID =>
          let! result := ttry (request (reconcileLockScript (umqLockKey accountID))) in
          match result with
          | Err e => tret (cleaned, Some (ErrWrap "umq reconcile lock" e))
          | Ok (status, pttl) =>
              if status =? -2 then
                let! _ := removeLockIndexMember member in
                reconcile_members members nowMs cleaned
              else if status =? -1 then
                let! _ := removeLockIndexMember member in
                reconcile_members members nowMs (cleaned + 1)
              else
                let! _ := best_effort (request (call (ZADD umqLockIndexKey (nowMs + pttl) member))) in
                reconcile_members members nowMs cleaned
          end
      end
  end.

Definition ReconcileExpiredLockCandidates (maxCount : Z) : Client Db (Z * option goerr) :=
  let maxCount := if maxCount <=? 0 then umqLockIndexCleanupBatchSize else maxCount in
  let! nowMs := ttry GetCurrentTimeMs in
  match nowMs with
  | Err e => tret (0, Some e)
  | Ok nowMs =>
      let! members := ttry (request (call (ZRANGEBYSCORE umqLockIndexKey nowMs maxCount))) in
      match members with
      | Err e => tret (0, Some (ErrWrap "umq read lock index" e))
      | Ok members => reconcile_members (reply_members members) nowMs 0
      end
  end.

End Cache.

(** ** The delay *)

Record UserMessageQueueConfig : Type := mkQueueConfig {
  LockTTLMs : Z;
  MinDelayMs : Z;
  MaxDelayMs : Z
}.

(** [rand.Float64()]: a draw of 53 bits over their number. *)
Definition two53 : Z := 9007199254740992.

(** A jitter of so many per cent, of 15 below. *)
Definition applyJitter (d : Duration) (percent draw : Z) : Duration :=
  if (d <=? 0) || (percent <=? 0) then d
  else Z.quot (d * (100 * two53 + percent * (2 * draw - two53))) (100 * two53).

(** The two delays of the configuration, or the defaults, the smaller one first. *)
Definition delay_range (cfg : UserMessageQueueConfig) : Duration * Duration :=
  let minDelay := MinDelayMs cfg *! Millisecond in
  let maxDelay := MaxDelayMs cfg *! Millisecond in
  let minDelay := if minDelay <=? 0 then 200 * Millisecond else minDelay in
  let maxDelay := if maxDelay <=? 0 then 2000 * Millisecond else maxDelay in
  if maxDelay <? minDelay then (maxDelay, minDelay) else (minDelay, maxDelay).

(** The delay for a rate, before the jitter: the minimum below half of the base rate, the
maximum from four fifths of it, and a line between them, rounded to the nanosecond. *)
Definition rpm_delay (minDelay maxDelay : Duration) (currentRPM baseRPM : Z) : Duration :=
  if 2 * currentRPM <? baseRPM then minDelay
  else if 4 * baseRPM <=? 5 * currentRPM then maxDelay
  else
    let rise := (2 * currentRPM - baseRPM) * 5 * (maxDelay - minDelay) in
    let run := 3 * baseRPM in
    minDelay + (2 * rise + run) / (2 * run).

Section Service.
Context `{Redis Db} (cfg : UserMessageQueueConfig) (hasRPM : bool).

Definition CalculateRPMAwareDelay (accountID baseRPM draw : Z) : Client Db Duration :=
  let '(minDelay, maxDelay) := delay_range cfg in
  if (baseRPM <=? 0) || negb hasRPM then tret (applyJitter minDelay 15 draw)
  else
    let! currentRPM := ttry (GetRPM accountID) in
    match currentRPM with
    | Err _ => tret (applyJitter minDelay 15 draw)
    | Ok currentRPM => tret (applyJitter (rpm_delay minDelay maxDelay currentRPM baseRPM) 15 draw)
    end.

(** *** The service: [None] for a service without a cache *)

Record QueueLockResult : Type := mkLockResult { Acquired : bool; LockRequestID : string }.

(** The new request identifier is an input. *)
Definition TryAcquire (hasCache : bool) (accountID : Z) (requestID : string) : Client Db QueueLockResult :=
  if negb hasCache then tret (mkLockResult true "")
  else
    let lockTTL := if LockTTLMs cfg <=? 0 then 120000 else LockTTLMs cfg in
    let! acquired := ttry (AcquireLock accountID requestID lockTTL) in
    match acquired with
    | Err _ => tret (mkLockResult true "")
    | Ok acquired => tret (mkLockResult acquired requestID)
    end.

Definition Release (hasCache : bool) (accountID : Z) (requestID : string) : Client Db unit :=
  if negb hasCache || String.eqb requestID "" then tret tt
  else let! _ := ReleaseLock accountID requestID in tret tt.

(** The error of the context, if it ends during the delay. *)
Definition EnforceDelay (hasCache : bool) (accountID baseRPM draw : Z) : Client Db (option goerr) :=
  if negb hasCache then tret None
  else
    let! last := ttry (GetLastCompletedMs accountID) in
    match last with
    | Err _ => tret None
    | Ok lastMs =>
        if lastMs =? 0 then tret None
        else
          let! delay := CalculateRPMAwareDelay accountID baseRPM draw in
          if delay <=? 0 then tret None
          else
            let! now := ttry GetCurrentTimeMs in
            match now with
            | Err _ => tret None
            | Ok nowMs =>
                let elapsed := (nowMs -! lastMs) *! Millisecond in
                if elapsed <? 0 then tret None
                else
                  let remaining := delay -! elapsed in
                  if remaining <=? 0 then tret None
                  else
                    let! ended := pause remaining in
                    tret (if ended then Some ErrContextCanceled else None)
            end
    end.

End Service.

(** ** The wait of a request *)

Definition initialBackoff : Duration := 100 * Millisecond.
Definition maxBackoff : Duration := 2 * Second.

(** Half as much again, with a jitter of a fifth, between the two bounds. *)
Definition nextBackoff (current : Duration) (draw : Z) : Duration :=
  let next := Z.quot (current * 3) 2 in
  let next := if maxBackoff <? next then maxBackoff else next in
  let jittered := Z.quot (next * (8 * two53 + 4 * draw)) (10 * two53) in
  if jittered <? initialBackoff then initialBackoff
  else if maxBackoff <? jittered then maxBackoff
  else jittered.

(** What the [select] of the wait receives: the end of the context, a tick of the ping
with what the write of it answers, or the timer, with the request identifier and the
draws of the attempt. *)
Inductive WaitEvent : Type :=
  | CtxDone
  | Ping (written : res unit)
  | Timer (requestID : string) (delayDraw backoffDraw : Z).

(** The identifier that the release function releases, or the error. *)
Inductive Admission : Type :=
  | Granted (requestID : string)
  | Refused (e : goerr)
  | StillWaiting (backoff : Duration).

Section Helper.
Context `{Redis Db} (cfg : UserMessageQueueConfig) (hasCache hasRPM : bool) (accountID baseRPM : Z).

(** What follows an acquisition: the delay, and the release if the context ends in it. *)
Definition admit_after_delay (requestID : string) (delayDraw : Z) : Client Db Admission :=
  let! err := EnforceDelay cfg hasRPM hasCache accountID baseRPM delayDraw in
  match err with
  | Some e =>
      let! _ := ttry (Release hasCache accountID requestID) in tret (Refused e)
  | None => tret (Granted requestID)
  end.

Fixpoint waitForLockWithPing (events : list WaitEvent) (backoff : Duration) : Client Db Admission :=
  match events with
  | [] => tret (StillWaiting backoff)
  | CtxDone :: _ => tret (Refused (ErrMsg "umq wait timeout for account"))
  | Ping (Err e) :: _ => tret (Refused e)
  | Ping (Ok _) :: events => waitForLockWithPing events backoff
  | Timer requestID delayDraw backoffDraw :: events =>
      let! result := TryAcquire cfg hasCache accountID requestID in
      if Acquired result then admit_after_delay (LockRequestID result) delayDraw
      else waitForLockWithPing events (nextBackoff backoff backoffDraw)
  end.

Definition AcquireWithWait (requestID : string) (delayDraw : Z) (events : list WaitEvent)
    : Client Db Admission :=
  let! result := TryAcquire cfg hasCache accountID requestID in
  if Acquired result then admit_after_delay (LockRequestID result) delayDraw
  else waitForLockWithPing events initialBackoff.

(** The softer mode: the delay only, during which pings are written; the first write that
fails, if one does, ends it. *)
Definition ThrottleWithPing (delayDraw : Z) (pingFails : option goerr) : Client Db (option goerr) :=
  let! delay := CalculateRPMAwareDelay cfg hasRPM accountID baseRPM delayDraw in
  if delay <=? 0 then tret None
  else
    match pingFails with
    | Some e => tret (Some e)
    | None => let! ended := pause delay in tret (if ended then Some ErrContextCanceled else None)
    end.

End Helper.

(** ** One message at a time *)

Section Lock.
Context `{Redis Db} (key : string).
Implicit Types db : Db.

(** What clients do to the lock of an account, and the requests that have been told that
they hold it, until when, and have not released it. *)
Inductive LockOp : Type :=
  | OpAcquire (requestID : string) (ttl : Z)
  | OpRelease (lastKey requestID : string)
  | OpReconcile
  | OpElsewhere (c : Command)
  | OpElapse (n : Z).

Definition lock_step (op : LockOp) (h : Db * gmap string Z) : Db * gmap string Z :=
  let '(db, told) := h in
  match op with
  | OpAcquire requestID ttl =>
      let '(db', r) := acquireLockScript key requestID ttl db in
      (db', match r with Ok (1, until) => <[requestID := until]> told | _ => told end)
  | OpRelease lastKey requestID =>
      ((releaseLockScript key lastKey requestID db).1, delete requestID told)
  | OpReconcile => ((reconcileLockScript key db).1, told)
  | OpElsewhere c => ((call c db).1, told)
  | OpElapse n => (elapse n db, told)
  end.

Definition lock_run (ops : list LockOp) (h : Db * gmap string Z) : Db * gmap string Z :=
  foldl (fun h op => lock_step op h) h ops.

Definition legal_lock (op : LockOp) : Prop :=
  match op with
  | OpAcquire _ ttl => 0 < ttl
  | OpRelease lastKey _ => lastKey <> key
  | OpElsewhere c => key_of c <> key
  | _ => True
  end.

(** A request whose time is not over has the lock, at least until then. *)
Definition lock_inv (h : Db * gmap string Z) : Prop :=
  ((peek h.1 key = (None, None)) \/ exists v e, peek h.1 key = (Some (RString v), e)) /\
  forall r e, h.2 !! r = Some e -> server_ms h.1 <= e ->
    exists e', peek h.1 key = (Some (RString r), Some e') /\ e <= e'.

(** A step after which the key and the time are as before. *)
Lemma lock_inv_same db db' told : lock_inv (db, told) -> peek db' key = peek db key ->
  server_ms db' = server_ms db -> lock_inv (db', told).
Proof. unfold lock_inv. cbn. by intros Hinv -> ->. Qed.

Lemma read_key c (Q : res Reply -> Db -> Prop) db :
  key_of c = key -> (effect (server_ms db) c (peek db key)).1 = peek db key ->
  (forall db', peek db' key = peek db key -> (forall k, k <> key -> peek db' k = peek db k) ->
     micros db' = micros db -> Q (reply_res (effect (server_ms db) c (peek db key)).2) db') ->
  swp (call c) Q db.
Proof.
  intros Hk He HQ. eapply swp_call; [rewrite Hk; apply surjective_pairing|].
  intros db' (Hk' & Ho & Hm). rewrite Hk in Hk', Ho. apply HQ; [by rewrite Hk'|exact Ho|done].
Qed.

(** The answers of the script that acquires, for each state of the key. *)
Lemma acquire_lock_spec req ttl (Q : res (Z * Z) -> Db -> Prop) db :
  0 < ttl -> (peek db key = (None, None) \/ exists v e, peek db key = (Some (RString v), e)) ->
  (forall db', (value_of db key = None \/ value_of db key = Some (RString req)) ->
     peek db' key = (Some (RString req), Some (server_ms db + ttl)) ->
     (forall k, k <> key -> peek db' k = peek db k) -> micros db' = micros db ->
     Q (Ok (1, server_ms db + ttl)) db') ->
  (forall db' v e, peek db key = (Some (RString v), e) -> v <> req -> peek db' key = peek db key ->
     (forall k, k <> key -> peek db' k = peek db k) -> micros db' = micros db ->
     Q (Ok (0, server_ms db + match e with Some x => Z.max 0 (x - server_ms db) | None => 0 end)) db') ->
  swp (acquireLockScript key req ttl) Q db.
Proof.
  intros Httl Hst Hyes Hno. unfold acquireLockScript. apply swp_bind.
  apply read_key; [done|done|]. intros db1 Hk1 Ho1 Hm1.
  assert (Hms1 : server_ms db1 = server_ms db) by (unfold server_ms; by rewrite Hm1).
  destruct Hst as [Hp|(v & e & Hp)]; rewrite Hp; cbn [effect fst snd reply_res].
  - apply swp_bind. eapply (swp_call _ (Some (RString req), Some (server_ms db1 + ttl)) StatusOK).
    { cbn [effect]. by rewrite (proj2 (Z.leb_gt _ _)). }
    intros db2 (Hk2 & Ho2 & Hm2). cbn [key_of] in Hk2, Ho2. cbn [reply_res].
    apply swp_bind. unfold swp at 1, time_ms. cbn [fst snd]. apply swp_ret.
    assert (Hms2 : server_ms db2 = server_ms db) by (unfold server_ms in *; by rewrite Hm2).
    rewrite Hms2. apply Hyes.
    + left. unfold value_of. by rewrite Hp.
    + by rewrite Hk2, Hms1.
    + intros k Hk. rewrite Ho2 by done. by apply Ho1.
    + by rewrite Hm2.
  - destruct (String.eqb_spec v req) as [->|Hne].
    + apply swp_bind. eapply (swp_call _ (Some (RString req), Some (server_ms db1 + ttl)) (Int 1)).
      { cbn [effect key_of]. rewrite Hk1, Hp. cbn. by rewrite (proj2 (Z.leb_gt _ _)). }
      intros db2 (Hk2 & Ho2 & Hm2). cbn [key_of] in Hk2, Ho2. cbn [reply_res].
      apply swp_bind. unfold swp at 1, time_ms. cbn [fst snd]. apply swp_ret.
      assert (Hms2 : server_ms db2 = server_ms db) by (unfold server_ms in *; by rewrite Hm2).
      rewrite Hms2. apply Hyes.
      * right. unfold value_of. by rewrite Hp.
      * by rewrite Hk2, Hms1.
      * intros k Hk. rewrite Ho2 by done. by apply Ho1.
      * by rewrite Hm2.
    + apply swp_bind. unfold swp at 1, time_ms. cbn [fst snd]. rewrite Hms1.
      apply swp_bind. unfold call_int. apply swp_bind.
      eapply swp_call; [cbn [effect key_of]; reflexivity|].
      intros db2 (Hk2 & Ho2 & Hm2). cbn [key_of effect] in Hk2, Ho2. rewrite Hk1, Hp. cbn [fst] in Hk2.
      assert (Hfin : swp (sret (0, server_ms db + match e with Some x => Z.max 0 (x - server_ms db) | None => 0 end)) Q db2).
      { apply swp_ret, (Hno db2 v); [done|done|by rewrite Hk2|intros k Hk; rewrite Ho2 by done; by apply Ho1|by rewrite Hm2]. }
      destruct e as [x|]; cbn [reply_res]; apply swp_ret; rewrite ?Hms1.
      * destruct (Z.ltb_spec 0 (x - server_ms db)); [by rewrite Z.max_r in Hfin by lia|].
        rewrite Z.max_l, Z.add_0_r in Hfin by lia. exact Hfin.
      * cbn. by rewrite Z.add_0_r in Hfin.
Qed.

Lemma release_lock_spec lastKey req (Q : res Z -> Db -> Prop) db :
  lastKey <> key -> (peek db key = (None, None) \/ exists v e, peek db key = (Some (RString v), e)) ->
  (forall db', value_of db key = Some (RString req) -> peek db' key = (None, None) ->
     peek db' lastKey = (Some (RString (FormatInt (server_ms db))), Some (server_ms db + 60000)) ->
     (forall k, k <> key -> k <> lastKey -> peek db' k = peek db k) -> micros db' = micros db ->
     Q (Ok 1) db') ->
  (forall db', value_of db key <> Some (RString req) -> peek db' key = peek db key ->
     (forall k, k <> key -> peek db' k = peek db k) -> micros db' = micros db -> Q (Ok 0) db') ->
  swp (releaseLockScript key lastKey req) Q db.
Proof.
  intros Hne Hst Hyes Hno. unfold releaseLockScript. apply swp_bind.
  apply read_key; [done|done|]. intros db1 Hk1 Ho1 Hm1.
  assert (Hms1 : server_ms db1 = server_ms db) by (unfold server_ms; by rewrite Hm1).
  destruct Hst as [Hp|(v & e & Hp)]; rewrite Hp; cbn [effect fst snd reply_res].
  - apply swp_ret, Hno; try done. unfold value_of. by rewrite Hp.
  - destruct (String.eqb_spec v req) as [->|Hv].
    + apply swp_bind. eapply swp_call; [cbn [effect key_of]; reflexivity|].
      intros db2 (Hk2 & Ho2 & Hm2). cbn [key_of] in Hk2, Ho2. cbn [reply_res].
      apply swp_bind. unfold swp at 1, time_ms. cbn [fst snd].
      assert (Hms2 : server_ms db2 = server_ms db) by (unfold server_ms in *; by rewrite Hm2).
      rewrite Hms2. apply swp_bind.
      eapply (swp_call _ (Some (RString (FormatInt (server_ms db))), Some (server_ms db2 + 60000)) StatusOK); [done|].
      intros db3 (Hk3 & Ho3 & Hm3). cbn [key_of] in Hk3, Ho3. cbn [reply_res]. apply swp_ret, Hyes.
      * unfold value_of. by rewrite Hp.
      * by rewrite Ho3, Hk2 by done.
      * by rewrite Hk3, Hms2.
      * intros k Hk Hk'. rewrite Ho3, Ho2 by done. by apply Ho1.
      * by rewrite Hm3, Hm2.
    + apply swp_ret, Hno; try done. unfold value_of. rewrite Hp. intros [= E]. done.
Qed.

(** What the reconciliation removes has no time left. *)
Lemma reconcile_lock_spec (Q : res (Z * Z) -> Db -> Prop) db :
  (forall r db', (peek db' key = peek db key \/
       (peek db' key = (None, None) /\ forall x, expiry_of db key = Some x -> x < server_ms db)) ->
     (forall k, k <> key -> peek db' k = peek db k) -> micros db' = micros db -> Q r db') ->
  swp (reconcileLockScript key) Q db.
Proof.
  intros HQ. unfold reconcileLockScript. apply swp_bind. unfold call_int. apply swp_bind.
  apply read_key; [done|done|]. intros db1 Hk1 Ho1 Hm1.
  assert (Hdel : (forall x, expiry_of db key = Some x -> x < server_ms db) ->
    swp (sbind (call (DEL key)) (fun _ => sret (-1, 0))) Q db1).
  { intros Hgone. apply swp_bind. eapply swp_call; [cbn [effect key_of]; reflexivity|].
    intros db2 (Hk2 & Ho2 & Hm2). cbn [key_of] in Hk2, Ho2. cbn [reply_res]. apply swp_ret, HQ.
    - right. by split.
    - intros k Hk. rewrite Ho2 by done. by apply Ho1.
    - by rewrite Hm2. }
  assert (Hkeep : forall x, swp (sret x) Q db1) by (intros x; apply swp_ret, HQ; auto).
  unfold expiry_of in Hdel. destruct (peek db key) as [[v|] [x|]]; cbn [effect snd reply_res fst] in *;
    apply swp_ret; try apply Hkeep; try (apply Hdel; done).
  destruct (Z.eqb_spec (x - server_ms db) (-2)); [apply Hkeep|].
  destruct (Z.eqb_spec (x - server_ms db) (-1)); [|apply Hkeep].
  apply Hdel. intros ? [= <-]. lia.
Qed.

Lemma lock_step_inv op h : legal_lock op -> lock_inv h -> lock_inv (lock_step op h).
Proof.
  destruct h as [db told]. intros Hop [Hst Hinv]. cbn [fst snd] in *.
  destruct op as [req ttl|lastKey req| |c|n]; cbn [lock_step legal_lock] in *.
  - revert Hop. intros Httl. destruct (acquireLockScript key req ttl db) as [db' r] eqn:E.
    assert (Hs : swp (acquireLockScript key req ttl) (fun r db' =>
      lock_inv (db', match r with Ok (1, until) => <[req := until]> told | _ => told end)) db).
    2: { unfold swp in Hs. by rewrite E in Hs. }
    apply acquire_lock_spec; [done|done| |].
    + intros db2 Hv Hk Ho Hm. assert (Hms : server_ms db2 = server_ms db) by (unfold server_ms; by rewrite Hm).
      split; cbn [fst snd]; [right; by eauto|]. intros r' e. rewrite Hms, Hk.
      destruct (decide (r' = req)) as [->|Hne].
      * rewrite lookup_insert_eq. intros [= <-] _. eexists. split; [done|lia].
      * rewrite lookup_insert_ne by done. intros Ht Hle. destruct (Hinv _ _ Ht Hle) as (e' & Hp & _).
        unfold value_of in Hv. rewrite Hp in Hv. cbn in Hv. destruct Hv as [Hv|[= Hv]]; [done|]. by subst.
    + intros db2 v e Hp Hne Hk Ho Hm. apply (lock_inv_same db); [by split|done|].
      unfold server_ms. by rewrite Hm.
  - pose (Q := fun (_ : res Z) db' => lock_inv (db', delete req told)).
    change (Q (releaseLockScript key lastKey req db).2 (releaseLockScript key lastKey req db).1).
    apply release_lock_spec; [done|done| |]; unfold Q.
    + intros db2 Hv Hk _ Ho Hm. split; cbn [fst snd]; [by left|]. intros r e Ht Hle. exfalso.
      apply lookup_delete_Some in Ht as [Hne Ht]. unfold server_ms in Hle. rewrite Hm in Hle.
      destruct (Hinv _ _ Ht Hle) as (e' & Hp & _). unfold value_of in Hv. rewrite Hp in Hv. by injection Hv.
    + intros db2 _ Hk Ho Hm. split; cbn [fst snd]; [by rewrite Hk|]. intros r e Ht.
      apply lookup_delete_Some in Ht as [_ Ht]. unfold server_ms. rewrite Hm, Hk. by apply Hinv.
  - pose (Q := fun (_ : res (Z * Z)) db' => lock_inv (db', told)).
    change (Q (reconcileLockScript key db).2 (reconcileLockScript key db).1).
    apply reconcile_lock_spec. intros r db2 [Hk|[Hk Hgone]] Ho Hm; unfold Q;
      assert (Hms : server_ms db2 = server_ms db) by (unfold server_ms; by rewrite Hm).
    + by apply (lock_inv_same db).
    + split; cbn [fst snd]; [by left|]. rewrite Hms. intros r' e Ht Hle.
      destruct (Hinv _ _ Ht Hle) as (e' & Hp & He). unfold expiry_of in Hgone. rewrite Hp in Hgone.
      specialize (Hgone _ eq_refl). lia.
  - rewrite call_db. apply (lock_inv_same db); [by split|by apply exec_other|apply exec_ms].
  - unfold lock_inv, server_ms. cbn [fst snd]. rewrite elapse_peek. split.
    + destruct (alive _ _); [done|by left].
    + intros r e Ht Hle. assert (Hle' : server_ms db <= e).
      { unfold server_ms. etransitivity; [|exact Hle]. apply Z.div_le_mono; [done|]. rewrite elapse_micros. lia. }
      destruct (Hinv _ _ Ht Hle') as (e' & Hp & He). rewrite Hp. cbn [alive snd].
      rewrite (proj2 (Z.leb_le _ _)) by lia. eauto.
Qed.

Lemma lock_run_inv ops h : Forall legal_lock ops -> lock_inv h -> lock_inv (lock_run ops h).
Proof.
  revert h. induction ops as [|op ops IH]; intros h; [done|].
  inversion_clear 1. intros Hh. cbn [lock_run foldl]. apply IH; [done|]. by apply lock_step_inv.
Qed.

(** C39. At most one message of an account is in flight: over every history of
acquisitions, releases and reconciliations by any number of processes, with any other
commands on other keys and any passing of time between them, two requests that have been
told that they hold the lock of the account, have not released it, and whose time has not
run out are the same request. *)
Theorem one_message_at_a_time ops db r1 e1 r2 e2 :
  Forall legal_lock ops -> peek db key = (None, None) ->
  let h := lock_run ops (db, ∅) in
  h.2 !! r1 = Some e1 -> server_ms h.1 <= e1 ->
  h.2 !! r2 = Some e2 -> server_ms h.1 <= e2 -> r1 = r2.
Proof.
  intros Hops Hdb h H1 Hle1 H2 Hle2.
  destruct (lock_run_inv ops (db, ∅) Hops) as [_ Hinv]; [by split; [left|]|]. fold h in Hinv.
  destruct (Hinv _ _ H1 Hle1) as (e1' & Hp1 & _), (Hinv _ _ H2 Hle2) as (e2' & Hp2 & _).
  rewrite Hp1 in Hp2. by injection Hp2.
Qed.

End Lock.

(** ** The delay is within bounds *)

Lemma jitter_bounds d draw : 0 < d -> 0 <= draw < two53 ->
  85 * d / 100 <= applyJitter d 15 draw <= 115 * d / 100.
Proof.
  intros Hd Hdraw. unfold applyJitter. rewrite (proj2 (Z.leb_gt _ _)) by done. cbn [orb Z.leb Z.compare].
  assert (Ht : 0 < two53) by done.
  rewrite Z.quot_div_nonneg by nia. split.
  - rewrite <- (Z.div_mul_cancel_r (85 * d) 100 two53) by lia. apply Z.div_le_mono; nia.
  - rewrite <- (Z.div_mul_cancel_r (115 * d) 100 two53) by lia. apply Z.div_le_mono; nia.
Qed.

Lemma delay_between lo hi n base : lo <= hi -> 0 < base -> lo <= rpm_delay lo hi n base <= hi.
Proof.
  intros Hle Hb. unfold rpm_delay. case_match eqn:E1; [lia|]. case_match eqn:E2; [lia|].
  apply Z.ltb_ge in E1. apply Z.leb_gt in E2.
  pose proof (Z.div_pos (2 * ((2 * n - base) * 5 * (hi - lo)) + 3 * base) (2 * (3 * base))) as Hp.
  assert ((2 * ((2 * n - base) * 5 * (hi - lo)) + 3 * base) / (2 * (3 * base)) < (hi - lo) + 1); [|nia].
  apply Z.div_lt_upper_bound; nia.
Qed.

Definition modest (cfg : UserMessageQueueConfig) : Prop :=
  0 <= MinDelayMs cfg <= 10 ^ 9 /\ 0 <= MaxDelayMs cfg <= 10 ^ 9.

Lemma delay_range_bounds cfg : modest cfg ->
  0 < (delay_range cfg).1 <= (delay_range cfg).2 /\ (delay_range cfg).2 <= 10 ^ 15.
Proof.
  unfold modest, delay_range, Millisecond. intros [Hmin Hmax].
  rewrite !i64_id by (unfold in_i64, two63; lia).
  repeat case_Z; cbn [fst snd]; lia.
Qed.

(** ** The admission of a request that is alone *)

Lemma lock_key_not_last id : umqLockKey id <> umqLastKey id.
Proof.
  unfold umqLockKey, umqLastKey, umqKeyPrefix. intros E.
  by apply (inj (String.append _)), (inj (String.append _)), (inj (String.append _)) in E.
Qed.

Lemma index_key_apart id minute : umqLockKey id <> umqLockIndexKey /\ umqLastKey id <> umqLockIndexKey /\
  rpmKey id minute <> umqLockKey id /\ rpmKey id minute <> umqLockIndexKey.
Proof. by repeat split. Qed.

Section Admission.
Context `{Redis Db} (cfg : UserMessageQueueConfig) (id base : Z).
Implicit Types w : World Db.

Definition same (db db' : Db) : Prop := (forall k, peek db' k = peek db k) /\ micros db' = micros db.

Lemma same_ms db db' : same db db' -> server_ms db' = server_ms db.
Proof. intros [_ Hm]. unfold server_ms. by rewrite Hm. Qed.

Lemma same_trans db db1 db2 : same db db1 -> same db1 db2 -> same db db2.
Proof. intros [Hp Hm] [Hp' Hm']. split; [intros k; by rewrite Hp'|by rewrite Hm']. Qed.

Lemma swp_get key (Q : res Reply -> Db -> Prop) db :
  (forall db', same db db' -> Q (reply_res (effect (server_ms db) (GET key) (peek db key)).2) db') ->
  swp (call (GET key)) Q db.
Proof.
  intros HQ. apply (read_key key); [done|done|]. intros db' Hk Ho Hm. apply HQ. split; [|done].
  intros k. destruct (decide (k = key)) as [->|Hne]; [done|by apply Ho].
Qed.

(** What the admission reads: when the last message of the account was completed, and
the requests of the minute. *)
Definition paced (last n : Z) (db : Db) : Prop :=
  value_of db (umqLastKey id) = Some (RString (FormatInt last)) /\ in_i64 last /\
  counter db (rpmKey id (server_s db / 60)) n.

Lemma paced_same last n db db' : same db db' -> paced last n db -> paced last n db'.
Proof.
  intros [Hp Hm] (Hl & Hr & o & Ho & Hn). unfold paced, value_of, counter, server_s in *. rewrite Hm, Hp.
  split; [done|]. split; [done|]. exists o. split; [|done]. eapply waiting_same; [apply Hp|exact Ho].
Qed.

Lemma get_rpm_alone n (Q : res (res Z) -> World Db -> Prop) w :
  turns w = [] -> counter (server w) (rpmKey id (server_s (server w) / 60)) n ->
  (forall db', same (server w) db' -> Q (Ok (Ok n)) (with_server db' w)) -> wp0 (ttry (GetRPM id)) Q w.
Proof.
  intros Hw (o & Ho & Hn & Hr) HQ. unfold GetRPM, wrapped, currentMinuteKey, currentMinute.
  apply wp0_try, wp0_bind, wp0_bind, wp0_try, wp0_bind, wp0_bind, wp0_bind, wp0_try, wp0_alone; [done|].
  unfold swp, time_s. cbn [fst snd]. apply wp0_ret, wp0_ret, wp0_ret, wp0_ret.
  unfold get_count. apply wp0_bind, wp0_try, wp0_alone; [done|].
  apply swp_get. intros db' Hs. cbn [server with_server effect snd].
  specialize (HQ db' Hs). destruct o as [z|]; cbn in Ho, Hn; rewrite Ho; cbn [reply_res fst reply_int].
  - subst z. rewrite ParseInt_FormatInt by (unfold in_i64; lia). by apply wp0_ret.
  - subst n. by apply wp0_ret.
Qed.

(** The delay that the code computes. *)
Definition delay_for (n draw : Z) : Duration :=
  if base <=? 0 then applyJitter (delay_range cfg).1 15 draw
  else applyJitter (rpm_delay (delay_range cfg).1 (delay_range cfg).2 n base) 15 draw.

Lemma calculate_alone n draw (Q : res Duration -> World Db -> Prop) w :
  turns w = [] -> counter (server w) (rpmKey id (server_s (server w) / 60)) n ->
  (forall db', same (server w) db' -> Q (Ok (delay_for n draw)) (with_server db' w)) ->
  wp0 (CalculateRPMAwareDelay cfg true id base draw) Q w.
Proof.
  intros Hw Hn HQ. unfold CalculateRPMAwareDelay, delay_for in *.
  destruct (delay_range cfg) as [lo hi]. cbn [negb fst snd] in *. rewrite orb_false_r.
  destruct (base <=? 0).
  - apply wp0_ret. specialize (HQ (server w)). destruct w. apply HQ. by split.
  - apply wp0_bind, (get_rpm_alone n); [done|done|]. intros db' Hs. by apply wp0_ret, HQ.
Qed.

Lemma delay_for_bounds n draw : modest cfg -> 0 <= draw < two53 ->
  85 * (delay_range cfg).1 / 100 <= delay_for n draw <= 115 * (delay_range cfg).2 / 100.
Proof.
  intros Hcfg Hdraw. destruct (delay_range_bounds cfg Hcfg) as [Hlo Hhi]. unfold delay_for.
  set (lo := (delay_range cfg).1) in *. set (hi := (delay_range cfg).2) in *.
  assert (Hmono : forall d, lo <= d <= hi ->
    85 * lo / 100 <= applyJitter d 15 draw <= 115 * hi / 100).
  { intros d Hd. destruct (jitter_bounds d draw) as [H1 H2]; [lia|done|]. split.
    - etransitivity; [|exact H1]. apply Z.div_le_mono; lia.
    - etransitivity; [exact H2|]. apply Z.div_le_mono; lia. }
  case_match eqn:E; apply Hmono; [lia|]. apply Z.leb_gt in E. apply delay_between; lia.
Qed.

Lemma enforce_alone last n draw (Q : res (option goerr) -> World Db -> Prop) w :
  let elapsed := (server_ms (server w) - last) * Millisecond in
  turns w = [] -> ctx_done w = false -> paced last n (server w) -> 0 < last ->
  0 <= server_ms (server w) - last <= 60000 -> modest cfg -> 0 <= draw < two53 ->
  (forall db', same (server w) db' ->
     Q (Ok None) (with_clock (clock w + Z.max 0 (delay_for n draw - elapsed)) (with_server db' w))) ->
  wp0 (EnforceDelay cfg true true id base draw) Q w.
Proof.
  intros elapsed Hw Hctx Hp Hlast Hel Hcfg Hdraw HQ. unfold EnforceDelay. cbn [negb].
  destruct (delay_for_bounds n draw Hcfg Hdraw) as [Hd1 Hd2].
  destruct (delay_range_bounds cfg Hcfg) as [Hlo Hhi].
  assert (Hd : 0 <= delay_for n draw <= 10 ^ 16).
  { split; [etransitivity; [|exact Hd1]; apply Z.div_pos; lia|]. etransitivity; [exact Hd2|].
    apply Z.div_le_upper_bound; lia. }
  apply wp0_bind, wp0_try. unfold GetLastCompletedMs, wrapped. apply wp0_bind, wp0_bind, wp0_try, wp0_alone; [done|].
  apply swp_get. intros db1 Hs1. destruct Hp as (Hl & Hr & Hp). unfold value_of in Hl.
  cbn [effect snd]. rewrite Hl. cbn [reply_res]. apply wp0_ret. rewrite ParseInt_FormatInt by done.
  apply wp0_ret. rewrite (proj2 (Z.eqb_neq _ _)) by lia.
  assert (Hp1 : counter db1 (rpmKey id (server_s db1 / 60)) n).
  { apply (paced_same last n (server w)); [done|by split]. }
  apply wp0_bind, (calculate_alone n); [done|done|]. intros db2 Hs2. cbn [server with_server] in Hs2.
  assert (Hs : same (server w) db2) by by apply (same_trans _ db1).
  assert (Hnone : delay_for n draw - elapsed <= 0 -> Q (Ok None) (with_server db2 w)).
  { intros Hle. specialize (HQ db2 Hs). rewrite Z.max_l, Z.add_0_r in HQ by done. by destruct w. }
  unfold Millisecond in elapsed. case_match eqn:E0; [apply Z.leb_le in E0; apply wp0_ret, Hnone; lia|].
  apply wp0_bind, wp0_try. unfold GetCurrentTimeMs, wrapped. apply wp0_bind, wp0_try, wp0_alone; [done|].
  unfold swp, time_ms. cbn [fst snd server with_server]. apply wp0_ret. rewrite (same_ms _ _ Hs).
  rewrite (i64_id (_ - last)) by (unfold in_i64, two63; lia).
  rewrite i64_id by (unfold in_i64, two63, Millisecond; lia). fold Millisecond in elapsed.
  change (wp0 (if elapsed <? 0 then tret None else
    let remaining := delay_for n draw -! elapsed in
    if remaining <=? 0 then tret None
    else tbind (pause remaining) (fun ended => tret (if ended then Some ErrContextCanceled else None))) Q
    (with_server db2 w)).
  rewrite (proj2 (Z.ltb_ge elapsed 0)) by (unfold elapsed, Millisecond; lia). cbv zeta.
  rewrite i64_id by (unfold in_i64, two63, elapsed, Millisecond; lia).
  case_match eqn:E1; [apply Z.leb_le in E1; by apply wp0_ret, Hnone|]. apply Z.leb_gt in E1.
  apply wp0_bind. unfold wp0, pause. cbn [fst snd]. unfold paused, arrive. cbn [turns with_server]. rewrite Hw.
  cbn [ctx_done with_server with_clock clock]. rewrite Hctx. cbn [ctx_done with_clock with_server]. rewrite Hctx.
  split; [done|]. split; [done|]. specialize (HQ db2 Hs). rewrite Z.max_r in HQ by lia.
  by rewrite Z.max_r by lia.
Qed.

Lemma try_acquire_alone req (Q : res QueueLockResult -> World Db -> Prop) w :
  let ttl := if LockTTLMs cfg <=? 0 then 120000 else LockTTLMs cfg in
  turns w = [] -> peek (server w) (umqLockKey id) = (None, None) ->
  (forall db', peek db' (umqLockKey id) = (Some (RString req), Some (server_ms (server w) + ttl)) ->
     (forall k, k <> umqLockKey id -> k <> umqLockIndexKey -> peek db' k = peek (server w) k) ->
     micros db' = micros (server w) -> Q (Ok (mkLockResult true req)) (with_server db' w)) ->
  wp0 (TryAcquire cfg true id req) Q w.
Proof.
  intros ttl Hw Hk HQ. unfold TryAcquire. cbn [negb]. fold ttl.
  assert (Httl : 0 < ttl) by (unfold ttl; case_Z; lia).
  apply wp0_bind, wp0_try. unfold AcquireLock, wrapped. apply wp0_bind, wp0_bind, wp0_try, wp0_alone; [done|].
  apply acquire_lock_spec; [done|by left| |]; [|intros db1 v e Hp; by rewrite Hk in Hp].
  intros db1 _ Hk1 Ho1 Hm1. apply wp0_ret.
  destruct (index_key_apart id 0) as (Hne & _).
  assert (Hfin : forall db2, (forall k, k <> umqLockIndexKey -> peek db2 k = peek db1 k) ->
    micros db2 = micros db1 -> Q (Ok (mkLockResult true req)) (with_server db2 w)).
  { intros db2 Ho2 Hm2. apply HQ; [by rewrite Ho2| |by rewrite Hm2].
    intros k Hk1' Hk2'. rewrite Ho2 by done. by apply Ho1. }
  apply wp0_bind. case_match.
  - unfold best_effort. apply wp0_bind, wp0_try, wp0_alone; [done|]. unfold swp. cbn [fst snd].
    rewrite call_db. cbn [with_server server]. apply wp0_ret, wp0_ret, wp0_ret.
    apply Hfin; [intros k Hk'; by apply exec_other|apply exec_micros].
  - apply wp0_ret, wp0_ret, wp0_ret. by apply Hfin.
Qed.

(** The next message of an account keeps its distance from the one before: when the
lock of the account is free and its last message was completed at [last], a request that
is alone is admitted with the lock, after what is left of the delay that the configured
range, the requests of the minute and the draw of the jitter give; between the completion
and the admission there are at least 85 per cent of the smallest configured delay, and
the request never waits longer than 115 per cent of the largest. *)
Theorem next_message_waits req events last n draw w :
  let elapsed := (server_ms (server w) - last) * Millisecond in
  let ttl := if LockTTLMs cfg <=? 0 then 120000 else LockTTLMs cfg in
  turns w = [] -> ctx_done w = false -> peek (server w) (umqLockKey id) = (None, None) ->
  paced last n (server w) -> 0 < last -> 0 <= server_ms (server w) - last <= 60000 ->
  modest cfg -> 0 <= draw < two53 ->
  wp0 (AcquireWithWait cfg true true id base req draw events) (fun r w' =>
    r = Ok (Granted req) /\
    peek (server w') (umqLockKey id) = (Some (RString req), Some (server_ms (server w) + ttl)) /\
    clock w' - clock w = Z.max 0 (delay_for n draw - elapsed) /\
    85 * (delay_range cfg).1 / 100 <= elapsed + (clock w' - clock w) /\
    clock w' - clock w <= 115 * (delay_range cfg).2 / 100) w.
Proof.
  intros elapsed ttl Hw Hctx Hk Hp Hlast Hel Hcfg Hdraw. unfold AcquireWithWait.
  apply wp0_bind, try_acquire_alone; [done|done|]. fold ttl. intros db1 Hk1 Ho1 Hm1. cbn [Acquired LockRequestID].
  destruct (index_key_apart id (server_s (server w) / 60)) as (_ & Hi & Hr & Hri).
  pose proof (lock_key_not_last id) as Hne.
  assert (Hms : server_ms db1 = server_ms (server w)) by (unfold server_ms; by rewrite Hm1).
  assert (Hp1 : paced last n db1).
  { destruct Hp as (Hl & Hin & o & Ho & Hn). unfold paced, value_of, counter in *.
    rewrite (now_same _ _ Hm1). rewrite Ho1 by (by auto using not_eq_sym). split; [done|]. split; [done|].
    exists o. split; [|done]. eapply waiting_same; [by apply Ho1|exact Ho]. }
  unfold admit_after_delay. apply wp0_bind, (enforce_alone last n); try done.
  { cbn [server with_server]. by rewrite Hms. }
  cbn [server with_server]. rewrite Hms. fold elapsed. intros db2 [Hp2 Hm2]. apply wp0_ret.
  split; [done|]. cbn [server with_server with_clock clock]. rewrite Hp2. split; [done|].
  destruct (delay_for_bounds n draw Hcfg Hdraw) as [Hlo Hhi].
  destruct (delay_range_bounds cfg Hcfg) as [Hd1 Hd2].
  assert (0 <= 115 * (delay_range cfg).2 / 100) by (apply Z.div_pos; lia).
  assert (0 <= elapsed) by (unfold elapsed, Millisecond; lia). lia.
Qed.

End Admission.

(** ** Examples *)

Definition queue_config : UserMessageQueueConfig := mkQueueConfig 0 200 2000.

(** One message is completed, and another arrives in the same millisecond: it waits 80
per cent of the way between the delays, and gives up the lock when it is done. *)
Definition busy_account : World MapRedis :=
  mkWorld (mkMapRedis {[ umqLockKey 7 := (RString "a", Some 1900000);
                         rpmKey 7 30 := (RString "11", Some 1920000) ]} 1800000000) 0 false [].

Definition after_release : World MapRedis := (Release true 7 "a" busy_account []).1.2.

Example released_and_admitted :
  let '(r, w, _) := AcquireWithWait queue_config true true 7 15 "b" (two53 / 2) [] after_release [] in
  r = Ok (Granted "b") /\ clock w = 1600 * Millisecond /\
  map_peek (server w) (umqLockKey 7) = (Some (RString "b"), Some 1920000).
Proof. by vm_compute. Qed.

(** A request that finds the lock taken polls with growing delays, and fails when a ping
cannot be written. *)
Example waits_and_fails :
  (AcquireWithWait queue_config true true 7 15 "b" 0
     [Timer "c" 0 0; Ping (Ok tt); Timer "d" 0 (two53 / 2); Ping (Err (ErrMsg "broken pipe"))] busy_account []).1.1 =
    Ok (Refused (ErrMsg "broken pipe")) /\
  (AcquireWithWait queue_config true true 7 15 "b" 0 [Timer "c" 0 0; Timer "d" 0 (two53 / 2)] busy_account []).1.1 =
    Ok (StillWaiting (180 * Millisecond)).
Proof. by vm_compute. Qed.

Lemma next_message_waits_witness :
  let w := after_release in
  let elapsed := (server_ms (server w) - 1800000) * Millisecond in
  elapsed = 0 /\ delay_for queue_config 15 11 (two53 / 2) = 1600 * Millisecond /\
  wp0 (AcquireWithWait queue_config true true 7 15 "b" (two53 / 2) []) (fun r w' =>
    r = Ok (Granted "b") /\
    peek (server w') (umqLockKey 7) = (Some (RString "b"), Some (server_ms (server w) + 120000)) /\
    clock w' - clock w = Z.max 0 (delay_for queue_config 15 11 (two53 / 2) - elapsed) /\
    85 * (delay_range queue_config).1 / 100 <= elapsed + (clock w' - clock w) /\
    clock w' - clock w <= 115 * (delay_range queue_config).2 / 100) w.
Proof.
  intros w elapsed. split; [by vm_compute|]. split; [by vm_compute|].
  apply (next_message_waits queue_config 7 15 "b" [] 1800000 11 (two53 / 2) w);
    [by vm_compute|by vm_compute|by vm_compute| |by vm_compute|by vm_compute|by vm_compute|by vm_compute].
  split; [by vm_compute|]. split; [by vm_compute|]. exists (Some 11). by vm_compute.
Defined.

Lemma one_message_at_a_time_witness :
  let ops := [OpAcquire "a" 1000; OpElapse 900000; OpAcquire "a" 1000; OpAcquire "b" 1000;
              OpReconcile; OpElapse 900000] in
  let h := lock_run "umq:{7}:lock" ops (empty_redis, ∅) in
  h.2 !! "a" = Some 1900 /\ h.2 !! "b" = None /\ server_ms h.1 = 1800 /\ "a" = "a".
Proof.
  intros ops h. split; [by vm_compute|]. split; [by vm_compute|]. split; [by vm_compute|].
  apply (one_message_at_a_time "umq:{7}:lock" ops empty_redis "a" 1900 "a" 1900);
    [repeat constructor|by vm_compute|by vm_compute|by vm_compute|by vm_compute|by vm_compute].
Defined.
