(* ===== verification/SlotService.v ===== *)
(** * The policy of the concurrency slots

What the gateway does with the slots of [Slots]: requests acquire slots with a function
that gives them back, wait for a slot in a bounded queue, keep a lease for a WebSocket
session, and read the load of accounts through a cache of a fifth of a second
([service/concurrency_service.go], [handler/gateway_helper.go]).

The service has a cache: [hasCache] is false where the code guards against a service
without one; [AcquireAccountSlot] and [AcquireUserSlot] do not.  The identifiers of
requests, the hash of a batch and the iteration over a map are inputs. *)
From S2P Require Import Prelude GoText Programs Redis Slots SlotLimits SlotRuns RateCounters MessageQueue.
From Stdlib Require Import Bool.

Local Open Scope string_scope.
Local Open Scope Z_scope.

(** ** Identifiers *)

Definition digit36 (d : Z) : ascii := ascii_of_N (Z.to_N (if d <? 10 then 48 + d else 87 + d)).

(** [strconv.FormatUint(n, 36)]: thirteen digits are enough for 64 bits. *)
Fixpoint format36 (fuel : nat) (n : Z) (acc : string) : string :=
  match fuel with
  | O => acc
  | S fuel =>
      let acc := String (digit36 (n mod 36)) acc in
      if n <? 36 then acc else format36 fuel (n / 36) acc
  end.
Definition FormatUint36 (n : Z) : string := format36 13 n "".

Definition generateRequestID (requestIDPrefix : string) (seq : Z) : string :=
  requestIDPrefix +:+ "-" +:+ FormatUint36 seq.

(** ** Slots and the functions that give them back *)

Inductive Held : Type :=
  | HeldAccount (accountID : Z) (requestID : string)
  | HeldUser (userID : Z) (requestID : string)
  | HeldAPIKey (apiKeyID : Z) (requestID : string).

(** A release function: what it gives back, in order; nothing for the function that does
nothing. *)
Definition ReleaseFunc : Type := list Held.

(** [None] when the slot was not acquired. *)
Definition AcquireResult : Type := option ReleaseFunc.

Definition defaultExtraWaitSlots : Z := 20.

Definition CalculateMaxWait (userConcurrency : Z) : Z :=
  let userConcurrency := if userConcurrency <=? 0 then 1 else userConcurrency in
  userConcurrency +! defaultExtraWaitSlots.

Section Service.
Context `{Redis Db} (c : concurrencyCache) (hasCache : bool).

Definition release_one (h : Held) : Client Db unit :=
  match h with
  | HeldAccount id req => best_effort (Slots.ReleaseAccountSlot c id req)
  | HeldUser id req => best_effort (Slots.ReleaseUserSlot c id req)
  | HeldAPIKey id req => best_effort (Slots.ReleaseAPIKeySlot id req)
  end.

Fixpoint release (f : ReleaseFunc) : Client Db unit :=
  match f with
  | [] => tret tt
  | h :: f => let! _ := release_one h in release f
  end.

Definition AcquireAccountSlot (accountID maxConcurrency : Z) (requestID : string) : Client Db AcquireResult :=
  if maxConcurrency <=? 0 then tret (Some [])
  else
    let! acquired := Slots.AcquireAccountSlot c accountID maxConcurrency requestID in
    tret (if acquired then Some [HeldAccount accountID requestID] else None).

Definition AcquireUserSlot (userID maxConcurrency : Z) (requestID : string) : Client Db AcquireResult :=
  if maxConcurrency <=? 0 then tret (Some [])
  else
    let! acquired := Slots.AcquireUserSlot c userID maxConcurrency requestID in
    tret (if acquired then Some [HeldUser userID requestID] else None).

Definition TrackAPIKeySlot (apiKeyID : Z) (requestID : string) : Client Db ReleaseFunc :=
  if negb hasCache || (apiKeyID <=? 0) then tret []
  else
    let! r := ttry (Slots.TrackAPIKeySlot c apiKeyID requestID) in
    tret (match r with Ok _ => [HeldAPIKey apiKeyID requestID] | Err _ => [] end).

Definition zeroAPIKeyConcurrencyMap (apiKeyIDs : list Z) : gmap Z Z :=
  foldl (fun result id => <[id := 0]> result) ∅ apiKeyIDs.

Definition GetAPIKeyConcurrencyBatch (apiKeyIDs : list Z) : Client Db (gmap Z Z) :=
  let result := zeroAPIKeyConcurrencyMap apiKeyIDs in
  match apiKeyIDs with
  | [] => tret result
  | _ =>
      if negb hasCache then tret result
      else
        let! counts := ttry (Slots.GetAPIKeyConcurrencyBatch c apiKeyIDs) in
        tret (match counts with
              | Err _ => result
              | Ok counts => foldl (fun result id => <[id := default 0 (counts !! id)]> result) result apiKeyIDs
              end)
  end.

Definition GetAccountConcurrencyBatch (accountIDs : list Z) : Client Db (gmap Z Z) :=
  match accountIDs with
  | [] => tret ∅
  | _ => if negb hasCache then tret (zeroAPIKeyConcurrencyMap accountIDs)
         else Slots.GetAccountConcurrencyBatch c accountIDs
  end.

(** *** Waiting: an error of the cache lets the request wait *)

Definition fail_open (m : Client Db bool) : Client Db bool :=
  if negb hasCache then tret true
  else let! r := ttry m in tret (match r with Ok b => b | Err _ => true end).

Definition IncrementWaitCount (userID maxWait : Z) : Client Db bool :=
  fail_open (Slots.IncrementWaitCount c userID maxWait).
Definition IncrementAccountWaitCount (accountID maxWait : Z) : Client Db bool :=
  fail_open (Slots.IncrementAccountWaitCount c accountID maxWait).

Definition DecrementWaitCount (userID : Z) : Client Db unit :=
  if negb hasCache then tret tt else best_effort (Slots.DecrementWaitCount c userID).
Definition DecrementAccountWaitCount (accountID : Z) : Client Db unit :=
  if negb hasCache then tret tt else best_effort (Slots.DecrementAccountWaitCount c accountID).

Definition GetAccountWaitingCount (accountID : Z) : Client Db Z :=
  if negb hasCache then tret 0 else Slots.GetAccountWaitingCount accountID.

Definition GetUsersLoadBatch (users : list AccountWithConcurrency) : Client Db (gmap Z AccountLoadInfo) :=
  if negb hasCache then tret ∅ else Slots.GetUsersLoadBatch c users.

(** *** Clean-up: one run of the worker, and the one at start-up *)

Definition CleanupExpiredAccountSlots (accountID : Z) : Client Db unit :=
  if negb hasCache then tret tt else Slots.CleanupExpiredAccountSlots c accountID.

Definition runSlotCleanup : Client Db unit := best_effort (Slots.CleanupExpiredAccountSlotKeys c).

Definition CleanupStaleProcessSlots (scan : string -> list (list string)) (requestIDPrefix : string)
    : Client Db unit :=
  if negb hasCache then tret tt else Slots.CleanupStaleProcessSlots c scan requestIDPrefix.

End Service.

(** ** Leases of WebSocket sessions *)

Definition openAIWSIngressLeaseTTL : Duration := 60 * Second.
Definition ErrOpenAIWSIngressLeaseLost : goerr := ErrMsg "openai websocket ingress lease lost".

Section Leases.
Context `{Redis Db} (hasCache : bool).

(** No lease where the limit is switched off; [None] with [false] where there is no room. *)
Definition AcquireOpenAIWSIngressLease (apiKeyID maxConnections : Z) (leaseID : string)
    : Client Db (option string * bool) :=
  if maxConnections <=? 0 then tret (None, true)
  else if negb hasCache || (apiKeyID <=? 0) then
    tfail (ErrMsg "openai websocket ingress lease cache is unavailable")
  else
    let! acquired := Slots.AcquireOpenAIWSIngressLease apiKeyID maxConnections leaseID in
    tret (if acquired then (Some leaseID, true) else (None, false)).

(** When the lease was last confirmed, and whether it is lost. *)
Definition lease_refresh (apiKeyID : Z) (leaseID : string) (lastConfirmedAt : Time) : Client Db (Time * bool) :=
  let! owned := ttry (Slots.RefreshOpenAIWSIngressLease apiKeyID leaseID) in
  match owned with
  | Ok true => let! now := time_now in tret (now, false)
  | Ok false => tret (lastConfirmedAt, true)
  | Err _ =>
      let! now := time_now in
      tret (lastConfirmedAt, openAIWSIngressLeaseTTL <=? Sub now lastConfirmedAt)
  end.

(** [Release], whose body runs once. *)
Definition lease_release (apiKeyID : Z) (leaseID : string) : Client Db unit :=
  if negb hasCache || (apiKeyID <=? 0) || String.eqb leaseID "" then tret tt
  else best_effort (Slots.ReleaseOpenAIWSIngressLease apiKeyID leaseID).

(** What the loop receives: the end of the session, the release, or a tick, which comes
after a wait.  The cause with which it cancels the session, if it does. *)
Inductive LeaseEvent : Type := LeaseDone | LeaseStopped | LeaseTick.

Fixpoint refreshLoop (apiKeyID : Z) (leaseID : string) (events : list LeaseEvent) (lastConfirmedAt : Time)
    : Client Db (option goerr) :=
  match events with
  | [] | LeaseDone :: _ | LeaseStopped :: _ => tret None
  | LeaseTick :: events =>
      let! _ := pause (20 * Second) in
      let! r := lease_refresh apiKeyID leaseID lastConfirmedAt in
      if r.2 then tret (Some ErrOpenAIWSIngressLeaseLost)
      else refreshLoop apiKeyID leaseID events r.1
  end.

End Leases.

(** ** Requests that wait *)

Inductive SlotType : Type := UserSlots | AccountSlots.

(** [&ConcurrencyError] for a time-out, and [&WaitQueueFullError]. *)
Definition slot_type (t : SlotType) : string := match t with UserSlots => "user" | AccountSlots => "account" end.
Definition ErrSlotTimeout (t : SlotType) : goerr :=
  ErrMsg ("timeout waiting for " +:+ slot_type t +:+ " concurrency slot").
Definition ErrWaitQueueFull : goerr := ErrMsg "Too many pending requests, please retry later".

(** What the wait receives: the end of its context, with the error of the request if the
request has ended; a tick of the ping with what the write of it answers; the timer, with
the identifier and the draw of the attempt. *)
Inductive SlotEvent : Type :=
  | SlotCtxDone (parent : option goerr)
  | SlotPing (written : res unit)
  | SlotTimer (requestID : string) (backoffDraw : Z).

Section Helper.
Context `{Redis Db} (c : concurrencyCache) (hasCache : bool).

Definition acquireSlot (slotType : SlotType) (id maxConcurrency : Z) (requestID : string)
    : Client Db AcquireResult :=
  match slotType with
  | UserSlots => AcquireUserSlot c id maxConcurrency requestID
  | AccountSlots => AcquireAccountSlot c id maxConcurrency requestID
  end.

(** The release function, or [None] while the request still waits. *)
Fixpoint wait_for_slot (slotType : SlotType) (id maxConcurrency : Z) (events : list SlotEvent)
    (backoff : Duration) : Client Db (option ReleaseFunc) :=
  match events with
  | [] => tret None
  | SlotCtxDone (Some e) :: _ => tfail e
  | SlotCtxDone None :: _ => tfail (ErrSlotTimeout slotType)
  | SlotPing (Err e) :: _ => tfail e
  | SlotPing (Ok _) :: events => wait_for_slot slotType id maxConcurrency events backoff
  | SlotTimer requestID draw :: events =>
      let! result := acquireSlot slotType id maxConcurrency requestID in
      match result with
      | Some f => tret (Some f)
      | None => wait_for_slot slotType id maxConcurrency events (nextBackoff backoff draw)
      end
  end.

(** [immediate] is the identifier of the attempt before the wait, if one is made; [canPing]
is false where pings are needed and the writer cannot flush. *)
Definition waitForSlotWithPingTimeout (slotType : SlotType) (id maxConcurrency : Z)
    (immediate : option string) (canPing : bool) (events : list SlotEvent) : Client Db (option ReleaseFunc) :=
  let! result := (match immediate with
                  | Some requestID => acquireSlot slotType id maxConcurrency requestID
                  | None => tret None
                  end) in
  match result with
  | Some f => tret (Some f)
  | None =>
      if negb canPing then tfail (ErrMsg "streaming not supported")
      else wait_for_slot slotType id maxConcurrency events initialBackoff
  end.

Definition AcquireAccountSlotWithWaitTimeout (accountID maxConcurrency : Z) (requestID : string)
    (canPing : bool) (events : list SlotEvent) : Client Db (option ReleaseFunc) :=
  waitForSlotWithPingTimeout AccountSlots accountID maxConcurrency (Some requestID) canPing events.

Definition AcquireAccountSlotWithWait (accountID maxConcurrency : Z) (requestID : string)
    (canPing : bool) (events : list SlotEvent) : Client Db (option ReleaseFunc) :=
  let! result := AcquireAccountSlot c accountID maxConcurrency requestID in
  match result with
  | Some f => tret (Some f)
  | None => waitForSlotWithPingTimeout AccountSlots accountID maxConcurrency None canPing events
  end.

(** The key of the request, if its context has one, and the identifier of its slot. *)
Definition withAPIKeySlot (apiKey : option (Z * string)) (f : ReleaseFunc) : Client Db ReleaseFunc :=
  match apiKey with
  | None => tret f
  | Some (apiKeyID, requestID) =>
      if apiKeyID <=? 0 then tret f
      else let! g := TrackAPIKeySlot c hasCache apiKeyID requestID in tret (f ++ g)%list
  end.

Definition TryAcquireUserSlotForAPIKey (userID maxConcurrency : Z) (requestID : string) (apiKey : Z * string)
    : Client Db AcquireResult :=
  let! result := AcquireUserSlot c userID maxConcurrency requestID in
  match result with
  | None => tret None
  | Some f => let! f := withAPIKeySlot (Some apiKey) f in tret (Some f)
  end.

Definition queue_limit (maxConcurrency : Z) : Z :=
  let queueLimit := CalculateMaxWait maxConcurrency -! maxConcurrency in
  if queueLimit <? 1 then 1 else queueLimit.

(** [AcquireUserSlotWithWait]; the deferred decrement comes after the slot of the key. *)
Definition acquireUserSlotWithWaitTimeout (userID maxConcurrency : Z) (requestID : string)
    (apiKey : option (Z * string)) (canPing : bool) (events : list SlotEvent)
    : Client Db (option ReleaseFunc) :=
  let! result := AcquireUserSlot c userID maxConcurrency requestID in
  match result with
  | Some f => let! f := withAPIKeySlot apiKey f in tret (Some f)
  | None =>
      let! canWait := IncrementWaitCount c hasCache userID (queue_limit maxConcurrency) in
      if negb canWait then tfail ErrWaitQueueFull
      else
        let! waited := ttry (waitForSlotWithPingTimeout UserSlots userID maxConcurrency None canPing events) in
        match waited with
        | Err e => let! _ := DecrementWaitCount c hasCache userID in tfail e
        | Ok None => tret None
        | Ok (Some f) =>
            let! f := withAPIKeySlot apiKey f in
            let! _ := DecrementWaitCount c hasCache userID in
            tret (Some f)
        end
  end.

End Helper.

(** [wrapReleaseOnDone]: the release function is registered for the end of the context and
is called by the handler, once in all: whether it is still registered, whether it has run,
and how often the wrapped function has been called. *)
Inductive DoneEvent : Type := ContextEnds | HandlerReleases.

Definition on_done (st : bool * bool * Z) (e : DoneEvent) : bool * bool * Z :=
  let '(registered, ran, calls) := st in
  let once := (true, if ran then calls else calls + 1) in
  match e with
  | ContextEnds => if registered then (false, once.1, once.2) else (false, ran, calls)
  | HandlerReleases => (false, once.1, once.2)
  end.

Definition wrapReleaseOnDone (events : list DoneEvent) : Z := (foldl on_done (true, false, 0) events).2.

Theorem release_runs_once events : wrapReleaseOnDone events = if decide (events = []) then 0 else 1.
Proof.
  assert (Hgo : forall l r, (foldl on_done (r, true, 1) l).2 = 1).
  { induction l as [|e l IH]; intros r; [done|]. destruct e; cbn [foldl on_done fst snd]; [destruct r|]; apply IH. }
  destruct events as [|e l]; [done|]. unfold wrapReleaseOnDone. destruct e; apply Hgo.
Qed.

(** ** The cache of loads *)

Definition defaultAccountLoadBatchCacheTTL : Duration := 200 * Millisecond.
Definition maxAccountLoadBatchCacheEntries : Z := 256.

Definition LoadMap : Type := gmap Z AccountLoadInfo.

Record cachedAccountLoadBatch : Type := mkCachedBatch { loadMap : LoadMap; expiresAt : Time }.

Record ConcurrencyService : Type := mkService {
  accountLoadCacheTTL : Duration;
  accountLoadCache : gmap string cachedAccountLoadBatch
}.

Definition NewConcurrencyService : ConcurrencyService := mkService defaultAccountLoadBatchCacheTTL ∅.

Definition SetAccountLoadBatchCacheTTL (ttl : Duration) (s : ConcurrencyService) : ConcurrencyService :=
  mkService ttl (if ttl <=? 0 then ∅ else accountLoadCache s).

Definition with_cache (m : gmap string cachedAccountLoadBatch) (s : ConcurrencyService) : ConcurrencyService :=
  mkService (accountLoadCacheTTL s) m.

Definition getCachedAccountLoadBatch (key : string) (now : Time) (s : ConcurrencyService)
    : option LoadMap * ConcurrencyService :=
  match accountLoadCache s !! key with
  | None => (None, s)
  | Some cached =>
      if negb (Before now (expiresAt cached)) then (None, with_cache (delete key (accountLoadCache s)) s)
      else (Some (loadMap cached), s)
  end.

(** The loop that drops entries while the cache is full; [order] is the iteration over the
map. *)
Fixpoint drop_entries (order : list string) (m : gmap string cachedAccountLoadBatch)
    : gmap string cachedAccountLoadBatch :=
  if Z.of_nat (size m) <? maxAccountLoadBatchCacheEntries then m
  else match order with
       | [] => m
       | key :: order => drop_entries order (delete key m)
       end.

Definition storeCachedAccountLoadBatch (order : gmap string cachedAccountLoadBatch -> list string)
    (key : string) (loads : LoadMap) (now : Time) (expires : Time) (s : ConcurrencyService) : ConcurrencyService :=
  let m := accountLoadCache s in
  let m := if maxAccountLoadBatchCacheEntries <=? Z.of_nat (size m) then
             let m := filter (fun p => Before now (expiresAt p.2) = true) m in drop_entries (order m) m
           else m in
  with_cache (<[key := mkCachedBatch loads expires]> m) s.

Section Loads.
Context (hash : list AccountWithConcurrency -> string).
Context (order : gmap string cachedAccountLoadBatch -> list string).

Definition accountLoadBatchCacheKey (accounts : list AccountWithConcurrency) : string :=
  FormatInt (Z.of_nat (length accounts)) +:+ ":" +:+ hash accounts.

(** A read by a service with a cache of slots: the time of the call, the time within the
flight, what a fetch would answer, and the time at which the result is stored.  Calls for
one key that overlap share the flight of the first; here they come one after another. *)
Record LoadRead : Type := mkRead {
  read_accounts : list AccountWithConcurrency;
  allowCache : bool;
  called_at : Time;
  flight_at : Time;
  stored_at : Time;
  fetched_loads : res LoadMap
}.

Definition getAccountsLoadBatch (r : LoadRead) (s : ConcurrencyService) : res LoadMap * ConcurrencyService :=
  match read_accounts r with
  | [] => (Ok ∅, s)
  | accounts =>
      let ttl := accountLoadCacheTTL s in
      if negb (allowCache r) || (ttl <=? 0) then (fetched_loads r, s)
      else
        let key := accountLoadBatchCacheKey accounts in
        match getCachedAccountLoadBatch key (called_at r) s with
        | (Some loads, s) => (Ok loads, s)
        | (None, s) =>
            match getCachedAccountLoadBatch key (flight_at r) s with
            | (Some loads, s) => (Ok loads, s)
            | (None, s) =>
                match fetched_loads r with
                | Err e => (Err e, s)
                | Ok loads =>
                    (Ok loads, storeCachedAccountLoadBatch order key loads (stored_at r) (flight_at r + ttl) s)
                end
            end
        end
  end.

(** *** Histories of reads *)

Inductive LoadOp : Type := OpLoad (r : LoadRead) | OpTTL (ttl : Duration).

(** What was fetched, for whom and when, and what the reads answered. *)
Record LoadLog : Type := mkLog {
  fetches : list (list AccountWithConcurrency * Time * LoadMap);
  answers : list (LoadRead * res LoadMap)
}.

Definition load_step (op : LoadOp) (h : ConcurrencyService * LoadLog) : ConcurrencyService * LoadLog :=
  let '(s, log) := h in
  match op with
  | OpTTL ttl => (SetAccountLoadBatchCacheTTL ttl s, log)
  | OpLoad r =>
      let '(a, s') := getAccountsLoadBatch r s in
      (s', mkLog (match fetched_loads r with
                  | Ok loads => (read_accounts r, flight_at r, loads) :: fetches log
                  | Err _ => fetches log
                  end) ((r, a) :: answers log))
  end.

Definition load_run (ops : list LoadOp) (h : ConcurrencyService * LoadLog) : ConcurrencyService * LoadLog :=
  foldl (fun h op => load_step op h) h ops.

(** An answer is an error of the fetch or the loads of the same accounts, as fetched within
[T] before. *)
Definition explained (T : Duration) (log : LoadLog) (a : LoadRead * res LoadMap) : Prop :=
  match a.2 with
  | Err e => fetched_loads a.1 = Err e
  | Ok loads =>
      (read_accounts a.1 = [] /\ loads = ∅) \/
      exists t, (read_accounts a.1, t, loads) ∈ fetches log /\
        (t = flight_at a.1 \/ called_at a.1 < t + T \/ flight_at a.1 < t + T)
  end.

(** Of the batches in use no two have the same key, for want of a collision of SHA-256, and the iteration goes over all keys. *)
Context (in_use : list AccountWithConcurrency -> Prop).
Context (no_collision : forall a b, in_use a -> in_use b ->
  accountLoadBatchCacheKey a = accountLoadBatchCacheKey b -> a = b).
Context (order_complete : forall m k, is_Some (m !! k) -> k ∈ order m).

Definition legal_load (T : Duration) (op : LoadOp) : Prop :=
  match op with OpTTL ttl => ttl <= T | OpLoad r => in_use (read_accounts r) end.

Definition backed (T : Duration) (log : LoadLog) (key : string) (b : cachedAccountLoadBatch) : Prop :=
  exists accounts t, key = accountLoadBatchCacheKey accounts /\ in_use accounts /\
    (accounts, t, loadMap b) ∈ fetches log /\ expiresAt b <= t + T.

Definition cache_inv (T : Duration) (s : ConcurrencyService) (log : LoadLog) : Prop :=
  accountLoadCacheTTL s <= T /\
  Z.of_nat (size (accountLoadCache s)) <= maxAccountLoadBatchCacheEntries /\
  map_Forall (backed T log) (accountLoadCache s).

Lemma drop_entries_spec l m : (forall k, is_Some (m !! k) -> k ∈ l) ->
  Z.of_nat (size (drop_entries l m)) < maxAccountLoadBatchCacheEntries /\ drop_entries l m ⊆ m.
Proof.
  revert m. induction l as [|k l IH]; intros m Hl; cbn [drop_entries].
  - assert (m = ∅) as ->.
    { apply map_empty. intros k. apply eq_None_not_Some. intros Hk. by apply Hl, not_elem_of_nil in Hk. }
    by vm_compute.
  - case_Z; [done|]. destruct (IH (delete k m)) as [H1 H2].
    + intros k' [b Hb]. apply lookup_delete_Some in Hb as [Hne Hb].
      destruct (proj1 (elem_of_cons _ _ _) (Hl k' (mk_is_Some _ _ Hb))) as [E|E]; [congruence|done].
    + split; [done|]. etrans; [exact H2|apply delete_subseteq].
Qed.

Lemma backed_more T log log' (m : gmap string cachedAccountLoadBatch) : (forall x, x ∈ fetches log -> x ∈ fetches log') ->
  map_Forall (backed T log) m -> map_Forall (backed T log') m.
Proof.
  intros Hsub Hm key b Hb. destruct (Hm key b Hb) as (accounts & t & ? & ? & ? & ?).
  exists accounts, t. auto.
Qed.

Lemma inv_shrink T s log m : m ⊆ accountLoadCache s -> cache_inv T s log -> cache_inv T (with_cache m s) log.
Proof.
  intros Hm (Ht & Hs & Hb). split; [done|]. split; [cbn; apply map_subseteq_size in Hm; lia|].
  intros key b Hk. apply Hb. by eapply lookup_weaken.
Qed.

Lemma cached_spec T log key now s : cache_inv T s log ->
  let '(a, s') := getCachedAccountLoadBatch key now s in
  cache_inv T s' log /\ accountLoadCacheTTL s' = accountLoadCacheTTL s /\
  match a with
  | Some loads => exists accounts t, key = accountLoadBatchCacheKey accounts /\ in_use accounts /\
      (accounts, t, loads) ∈ fetches log /\ now < t + T
  | None => True
  end.
Proof.
  intros Hinv. unfold getCachedAccountLoadBatch. destruct (accountLoadCache s !! key) as [b|] eqn:Hb; [|done].
  destruct (Before now (expiresAt b)) eqn:Hnow; cbn [negb].
  - split; [done|]. split; [done|]. destruct Hinv as (_ & _ & Hall).
    destruct (Hall key b Hb) as (accounts & t & Hk & Hu & Hf & He). exists accounts, t.
    unfold Before in Hnow. apply Z.ltb_lt in Hnow. repeat split; [done..|lia].
  - split; [|done]. apply inv_shrink; [apply delete_subseteq|done].
Qed.

Lemma store_spec T log key loads now expires s accounts t : cache_inv T s log ->
  key = accountLoadBatchCacheKey accounts -> in_use accounts -> (accounts, t, loads) ∈ fetches log ->
  expires <= t + T -> cache_inv T (storeCachedAccountLoadBatch order key loads now expires s) log.
Proof.
  intros (Ht & Hs & Hb) Hk Hu Hf He. unfold storeCachedAccountLoadBatch.
  set (m := if _ : bool then _ else _).
  assert (Hm : m ⊆ accountLoadCache s /\ Z.of_nat (size m) < maxAccountLoadBatchCacheEntries).
  { unfold m. case_Z; [|done]. set (m' := filter _ _).
    destruct (drop_entries_spec (order m') m') as [H1 H2]; [by intros k; apply order_complete|].
    split; [|done]. etrans; [exact H2|apply map_filter_subseteq]. }
  destruct Hm as [Hsub Hsize]. split; [done|]. split.
  - cbn. pose proof (map_size_insert key (mkCachedBatch loads expires) m) as E. rewrite E. case_match; unfold id; lia.
  - cbn. apply map_Forall_insert_2; [by exists accounts, t|]. intros k b Hkb. apply Hb. by eapply lookup_weaken.
Qed.

Lemma explained_more T log log' : (forall x, x ∈ fetches log -> x ∈ fetches log') ->
  Forall (explained T log) (answers log) -> Forall (explained T log') (answers log).
Proof.
  intros Hsub Ha. eapply Forall_impl; [exact Ha|]. intros [r [loads|e]]; [|done]. unfold explained. cbn [fst snd].
  intros [?|(t & Hf & Ht)]; [auto|]. right. exists t. auto.
Qed.

(** A read by itself: what it leaves and what it answers. *)
Lemma read_spec T r s log : in_use (read_accounts r) -> cache_inv T s log ->
  let log' := mkLog (match fetched_loads r with
                     | Ok loads => (read_accounts r, flight_at r, loads) :: fetches log
                     | Err _ => fetches log
                     end) (answers log) in
  let '(a, s') := getAccountsLoadBatch r s in
  cache_inv T s' log' /\ explained T log' (r, a).
Proof.
  intros Hu Hinv log'.
  assert (Hmore : forall x, x ∈ fetches log -> x ∈ fetches log').
  { intros x Hx. unfold log'. cbn. destruct (fetched_loads r); [by right|done]. }
  assert (Hinv' : forall s', cache_inv T s' log -> cache_inv T s' log').
  { intros s' (? & ? & Hb). split; [done|]. split; [done|]. by eapply backed_more. }
  assert (Hfresh : explained T log' (r, fetched_loads r)).
  { unfold explained, log'. cbn. destruct (fetched_loads r) as [loads|e]; [|done]. right.
    exists (flight_at r). split; [by left|by left]. }
  assert (Hhit : forall now loads, (now = called_at r \/ now = flight_at r) ->
    (exists accounts t, accountLoadBatchCacheKey (read_accounts r) = accountLoadBatchCacheKey accounts /\
       in_use accounts /\ (accounts, t, loads) ∈ fetches log /\ now < t + T) ->
    explained T log' (r, Ok loads)).
  { intros now loads Hnow (accounts & t & Hk & Ha & Hf & Hlt). unfold explained. cbn [fst snd]. right. exists t.
    rewrite (no_collision _ _ Hu Ha Hk). split; [by apply Hmore|]. destruct Hnow; subst; auto. }
  assert (Hnew : forall loads, fetched_loads r = Ok loads ->
    (read_accounts r, flight_at r, loads) ∈ fetches log').
  { intros loads Ef. unfold log'. rewrite Ef. by left. }
  clearbody log'. unfold getAccountsLoadBatch. destruct (read_accounts r) as [|a0 l] eqn:Er.
  { split; [by apply Hinv'|]. unfold explained. cbn. auto. }
  rewrite <- Er in *. clear a0 l Er.
  destruct (negb (allowCache r) || (accountLoadCacheTTL s <=? 0)); [by split; [apply Hinv'|]|].
  set (key := accountLoadBatchCacheKey (read_accounts r)) in *.
  pose proof (cached_spec T log key (called_at r) s Hinv) as H1.
  destruct (getCachedAccountLoadBatch key (called_at r) s) as [[loads|] s1]; destruct H1 as (Hi1 & Ht1 & H1).
  { split; [by apply Hinv'|]. by apply (Hhit (called_at r)); [left|]. }
  pose proof (cached_spec T log key (flight_at r) s1 Hi1) as H2.
  destruct (getCachedAccountLoadBatch key (flight_at r) s1) as [[loads|] s2]; destruct H2 as (Hi2 & Ht2 & H2).
  { split; [by apply Hinv'|]. by apply (Hhit (flight_at r)); [right|]. }
  destruct (fetched_loads r) as [loads|e] eqn:Ef; [|split; [by apply Hinv'|exact Hfresh]].
  split; [|exact Hfresh]. apply (store_spec T log' key loads _ _ s2 (read_accounts r) (flight_at r)); try done.
  - by apply Hinv'.
  - by apply Hnew.
  - destruct Hinv as (Ht & _). lia.
Qed.

Lemma load_step_inv T op s log : legal_load T op -> cache_inv T s log -> Forall (explained T log) (answers log) ->
  let h := load_step op (s, log) in
  cache_inv T h.1 h.2 /\ Forall (explained T h.2) (answers h.2).
Proof.
  intros Hop Hinv Hans. destruct op as [r|ttl]; cbn [load_step legal_load] in *.
  - pose proof (read_spec T r s log Hop Hinv) as Hr. destruct (getAccountsLoadBatch r s) as [a s'].
    destruct Hr as [(Ht & Hs & Hb) He]. cbn [fst snd] in *. split; [by split|].
    cbn [answers]. constructor; [exact He|]. eapply explained_more; [|exact Hans].
    intros x Hx. cbn. destruct (fetched_loads r); [by right|done].
  - split; [|done]. destruct Hinv as (Ht & Hs & Hb). cbn. unfold cache_inv, SetAccountLoadBatchCacheTTL. cbn.
    case_Z; split; try done.
Qed.

(** The load of accounts that the scheduler reads is never stale: over every history
of reads and changes of the lifetime, an answer is what a fetch for the same accounts gave,
within the longest lifetime before the read; an error is the fetch's own; and at most 256
batches are kept. *)
Theorem loads_are_fresh T ops :
  defaultAccountLoadBatchCacheTTL <= T -> Forall (legal_load T) ops ->
  let h := load_run ops (NewConcurrencyService, mkLog [] []) in
  Forall (explained T h.2) (answers h.2) /\
  Z.of_nat (size (accountLoadCache h.1)) <= maxAccountLoadBatchCacheEntries.
Proof.
  intros HT Hops h.
  assert (Hgo : forall s log, cache_inv T s log -> Forall (explained T log) (answers log) ->
    let h := load_run ops (s, log) in cache_inv T h.1 h.2 /\ Forall (explained T h.2) (answers h.2)).
  { clear h. induction Hops as [|op ops Hop _ IH]; intros s log Hi Ha; [done|].
    destruct (load_step_inv T op s log Hop Hi Ha) as [Hi' Ha'].
    change (load_run (op :: ops) (s, log)) with (load_run ops (load_step op (s, log))).
    destruct (load_step op (s, log)) as [s' log']. by apply IH. }
  destruct (Hgo NewConcurrencyService (mkLog [] [])) as [(_ & Hs & _) Ha]; [|done|done].
  split; [done|]. split; [done|]. apply map_Forall_empty.
Qed.

End Loads.

(** ** Examples *)

Definition ex_batch : list AccountWithConcurrency := [mkWithConcurrency 7 2].
Definition ex_loads (n : Z) : LoadMap := {[7 := mkLoadInfo 7 n 0 (50 * n)]}.
Definition ex_read (t n : Z) : LoadOp := OpLoad (mkRead ex_batch true t t t (Ok (ex_loads n))).
Definition ex_order (m : gmap string cachedAccountLoadBatch) : list string := map fst (map_to_list m).

(** Three reads within half a second: the second is answered from the cache. *)
Definition ex_reads : list LoadOp :=
  [ex_read 0 1; ex_read (100 * Millisecond) 2; ex_read (250 * Millisecond) 0].

Example reads_are_cached :
  map snd (answers (load_run (fun _ => "h") ex_order ex_reads (NewConcurrencyService, mkLog [] [])).2) =
  [Ok (ex_loads 0); Ok (ex_loads 1); Ok (ex_loads 1)].
Proof. by vm_compute. Qed.

Lemma ex_order_complete m k : is_Some (m !! k) -> k ∈ ex_order m.
Proof.
  intros [b Hb]. unfold ex_order. apply list_elem_of_fmap. exists (k, b). split; [done|].
  by apply elem_of_map_to_list.
Qed.

Lemma loads_are_fresh_witness :
  let h := load_run (fun _ => "h") ex_order ex_reads (NewConcurrencyService, mkLog [] []) in
  Forall (explained (200 * Millisecond) h.2) (answers h.2) /\
  Z.of_nat (size (accountLoadCache h.1)) <= maxAccountLoadBatchCacheEntries.
Proof.
  apply (loads_are_fresh (fun _ => "h") ex_order (fun a => a = ex_batch));
    [by intros ? ? -> ->|apply ex_order_complete|done|by repeat constructor].
Defined.
