(* ===== verification/SlotWaits.v ===== *)
(** * Requests that wait for a slot

The counter of the waiting requests of a user in [SlotService]: a request that waits is
counted while it waits and not afterwards, whichever way its wait ends, among others that
join and leave; examples. *)
From S2P Require Import Prelude GoText Programs Redis Slots SlotLimits SlotRuns RateCounters MessageQueue.
From S2P Require Import SlotService.
From Stdlib Require Import Bool.

Local Open Scope string_scope.
Local Open Scope Z_scope.

Fixpoint sum (ds : list Z) : Z := match ds with [] => 0 | d :: ds => d + sum ds end.

(** ** What leaves the counter alone *)

Section Tally.
Context `{Redis Db} (key : string) (B : Z).

(** The counter of a key, zero for a key that does not exist. *)
Definition counts (db : Db) (n : Z) : Prop := exists o, waiting key db o /\ default 0 o = n.

(** In a turn, others join and leave: the counter moves by [d]. *)
Definition shifts (d : Z) (t : Turn Db) : Prop :=
  forall db n, counts db n -> 0 <= n <= B -> 0 <= n + d <= B -> counts (others t db) (n + d).

(** [own] for the request itself, and [n] for the others: there are never fewer than none
of them, nor more than the bound, and [total] of them in the end. *)
Definition tally (own total : Z) (w : World Db) : Prop :=
  exists n ds, counts (server w) (own + n) /\ Forall2 shifts ds (turns w) /\
    (forall k, 0 <= n + sum (take k ds) <= B - 1) /\ n + sum ds = total.

Lemma counts_same db db' n : peek db' key = peek db key -> counts db n -> counts db' n.
Proof. intros Hk (o & Ho & Hn). exists o. split; [|done]. by eapply waiting_same. Qed.

Lemma tally_server own total db w : peek db key = peek (server w) key ->
  tally own total w -> tally own total (with_server db w).
Proof. intros Hk (n & ds & Hn & Hr). exists n, ds. split; [by eapply counts_same|exact Hr]. Qed.

Lemma tally_arrive own total w : 0 <= own <= 1 -> tally own total w -> tally own total (arrive w).
Proof.
  intros Ho (n & ds & Hn & Hs & Hb & Ht). unfold arrive. destruct (turns w) as [|t ts] eqn:E.
  { exists n, ds. by rewrite E. }
  apply Forall2_cons_inv_r in Hs as (d & ds' & Hd & Hs & ->). exists (n + d), ds'. cbn.
  pose proof (Hb 0%nat) as H0. pose proof (Hb 1%nat) as H1. cbn in H0, H1.
  rewrite take_0 in H1. cbn in H1. split; [|split; [done|split]].
  - replace (own + (n + d)) with (own + n + d) by lia. apply Hd; [done|lia..].
  - intros k. specialize (Hb (S k)). cbn in Hb. lia.
  - cbn in Ht. lia.
Qed.

Definition unmoved {A} (s : Script Db A) : Prop := forall db, peek (s db).1 key = peek db key.

Lemma unmoved_call c : key_of c <> key -> unmoved (call c).
Proof. intros Hc db. rewrite call_db. apply exec_other. congruence. Qed.

Lemma unmoved_get k : unmoved (call (GET k)).
Proof.
  intros db. rewrite call_db. destruct (decide (key = k)) as [->|Hk]; [|by apply exec_other].
  by rewrite (exec_key (GET k)).
Qed.

Lemma unmoved_bind {A B'} (m : Script Db A) (k : A -> Script Db B') :
  unmoved m -> (forall a, unmoved (k a)) -> unmoved (sbind m k).
Proof.
  intros Hm Hk db. unfold sbind. specialize (Hm db). destruct (m db) as [db' [a|e]]; [|done].
  rewrite Hk. exact Hm.
Qed.

Lemma unmoved_ret {A} (a : A) : unmoved (sret a).
Proof. done. Qed.

Lemma unmoved_fail {A} e : unmoved (sfail e : Script Db A).
Proof. done. Qed.

Lemma unmoved_time : unmoved time_s /\ unmoved time_ms.
Proof. done. Qed.

Lemma unmoved_int c : key_of c <> key -> unmoved (call_int c).
Proof.
  intros Hc. apply unmoved_bind; [by apply unmoved_call|]. intros r. destruct r; [..]; apply unmoved_ret || apply unmoved_fail.
Qed.

Lemma unmoved_member k m : k <> key -> unmoved (is_member k m).
Proof. intros Hk. apply unmoved_bind; [by apply unmoved_call|]. intros r. apply unmoved_ret. Qed.

Lemma unmoved_admit k now ttl m : k <> key -> unmoved (admit_member k now ttl m).
Proof. intros Hk. unfold admit_member. repeat (apply unmoved_bind; [by apply unmoved_call|]; intros ?). apply unmoved_ret. Qed.

Lemma unmoved_acquire k l max ttl req : k <> key -> l <> key -> unmoved (acquireScript k l max ttl req).
Proof.
  intros Hk Hl. unfold acquireScript. apply unmoved_bind; [done|]. intros now.
  do 2 (apply unmoved_bind; [by apply unmoved_call|]; intros ?).
  apply unmoved_bind; [by apply unmoved_member|]. intros [].
  - apply unmoved_bind; [by apply unmoved_admit|]. intros. apply unmoved_ret.
  - do 2 (apply unmoved_bind; [by apply unmoved_int|]; intros ?). case_match; [|apply unmoved_ret].
    apply unmoved_bind; [by apply unmoved_admit|]. intros. apply unmoved_ret.
Qed.

Lemma unmoved_track k ttl req : k <> key -> unmoved (trackSlotScript k ttl req).
Proof.
  intros Hk. unfold trackSlotScript. apply unmoved_bind; [done|]. intros now.
  apply unmoved_bind; [by apply unmoved_call|]. intros.
  apply unmoved_bind; [by apply unmoved_admit|]. intros. apply unmoved_ret.
Qed.

(** A program that leaves the counter alone, when no answer is lost. *)
Definition passive {A} (m : Client Db A) : Prop :=
  forall own total w, 0 <= own <= 1 -> tally own total w -> wp0 m (fun _ w' => tally own total w') w.

Lemma passive_ret {A} (a : A) : passive (tret a).
Proof. intros own total w _ Hw. by apply wp0_ret. Qed.

Lemma passive_fail {A} e : passive (tfail e : Client Db A).
Proof. intros own total w _ Hw. by apply wp0_fail. Qed.

Lemma passive_bind {A B'} (m : Client Db A) (k : A -> Client Db B') :
  passive m -> (forall a, passive (k a)) -> passive (tbind m k).
Proof.
  intros Hm Hk own total w Ho Hw. apply wp0_bind. eapply wp0_mono; [by apply Hm|].
  intros [a|e] w' Hw'; [by apply Hk|done].
Qed.

Lemma passive_try {A} (m : Client Db A) : passive m -> passive (ttry m).
Proof. intros Hm own total w Ho Hw. apply wp0_try. by apply Hm. Qed.

Lemma passive_request {A} (s : Script Db A) : unmoved s -> passive (request s).
Proof.
  intros Hs own total w Ho Hw. apply wp0_request. apply tally_server; [apply Hs|by apply tally_arrive].
Qed.

Lemma passive_best_effort {A} (m : Client Db A) : passive m -> passive (best_effort m).
Proof. intros Hm. unfold best_effort. apply passive_bind; [by apply passive_try|]. intros. apply passive_ret. Qed.

Lemma passive_pipeline cs : Forall (fun c => unmoved (call c)) cs -> passive (pipeline cs).
Proof.
  intros Hcs. unfold pipeline. apply passive_bind.
  - intros own total w Ho Hw. apply wp0_autocommit. clear -Hcs Ho Hw. revert w Hw.
    induction Hcs as [|c cs Hc _ IH]; intros w Hw; cbn [pipe_run snd]; [done|].
    apply tally_arrive in Hw; [|done]. destruct (exec c (server (arrive w))) as [db r] eqn:E.
    assert (Hw' : tally own total (with_server db (arrive w))).
    { apply tally_server; [|done]. specialize (Hc (server (arrive w))). rewrite call_db, E in Hc. exact Hc. }
    specialize (IH _ Hw'). by destruct (pipe_run cs _) as [rs w2].
  - intros rs. repeat case_match; apply passive_ret || apply passive_fail.
Qed.

End Tally.

(** [passive_step]: one step of a program that leaves the counter alone. *)
Ltac passive_step :=
  lazymatch goal with
  | |- passive _ _ (best_effort _) => apply passive_best_effort
  | |- passive _ _ (request _) => apply passive_request
  | |- passive _ _ (tbind _ _) => apply passive_bind; [|intros ?]
  | |- passive _ _ (ttry _) => apply passive_try
  | |- passive _ _ (tret _) => apply passive_ret
  | |- passive _ _ (tfail _) => apply passive_fail
  | |- passive _ _ (match _ with _ => _ end) => case_match
  end.

(** ** A request of a user *)

Section Waits.
Context `{Redis Db} (c : concurrencyCache) (user B : Z).

Let key := waitQueueKey user.
Notation passive := (passive key B).
Notation unmoved := (unmoved key).
Notation tally := (tally key B).

Lemma user_keys_apart id : userSlotKey id <> key /\ liveUserSlotKey id <> key /\
  apiKeySlotKey id <> key /\ userActiveIndexKey <> key.
Proof. unfold key. repeat split; cbn; discriminate. Qed.

Lemma touch_passive id t : passive (touchActiveIndexAt userActiveIndexKey id t).
Proof. unfold touchActiveIndexAt. repeat passive_step. by apply unmoved_call. Qed.

Lemma refresh_passive id : passive (refreshUserActiveIndex c id).
Proof.
  unfold refreshUserActiveIndex, refreshActiveIndex, redisUnixSeconds, readActiveLoadForKey.
  destruct (user_keys_apart id) as (H1 & _ & _ & H2).
  repeat first [passive_step|apply touch_passive|by apply unmoved_call|done].
  apply passive_pipeline. repeat constructor; [by apply unmoved_call..|apply unmoved_get].
Qed.

Lemma acquire_passive id max req : passive (AcquireUserSlot c id max req).
Proof.
  destruct (user_keys_apart id) as (H1 & H2 & _). unfold AcquireUserSlot, Slots.AcquireUserSlot.
  repeat first [passive_step|apply touch_passive|by apply unmoved_acquire].
Qed.

Lemma wait_passive max events backoff : passive (wait_for_slot c UserSlots user max events backoff).
Proof.
  revert backoff. induction events as [|e events IH]; intros backoff; cbn [wait_for_slot]; [apply passive_ret|].
  destruct e as [[e|]|[u|e]|req draw]; try apply passive_fail; [apply IH|].
  apply passive_bind; [apply acquire_passive|]. intros [f|]; [apply passive_ret|apply IH].
Qed.

(** The slot of the key is tracked as well as possible: an error is not reported. *)
Lemma with_key_alone own total apiKey f w (Q : res ReleaseFunc -> World Db -> Prop) :
  0 <= own <= 1 -> tally own total w -> (forall g w', tally own total w' -> Q (Ok g) w') ->
  wp0 (withAPIKeySlot c true apiKey f) Q w.
Proof.
  intros Ho Hw HQ. unfold withAPIKeySlot. destruct apiKey as [[id req]|]; [|by apply wp0_ret, HQ].
  case_match; [by apply wp0_ret, HQ|]. apply wp0_bind. unfold TrackAPIKeySlot. cbn [negb orb].
  case_match; [by apply wp0_ret, wp0_ret, HQ|]. apply wp0_bind, wp0_try.
  assert (Hp : passive (Slots.TrackAPIKeySlot c id req)).
  { unfold Slots.TrackAPIKeySlot. repeat first [passive_step|apply unmoved_track; by apply user_keys_apart]. }
  eapply wp0_mono; [by apply (Hp own total)|]. intros r w' Hw'. by apply wp0_ret, wp0_ret, HQ.
Qed.

Context (HB : 0 <= B < two63) (Httl : 0 < waitQueueTTLSeconds c).

Lemma join_alone total max w (Q : res bool -> World Db -> Prop) : max < two63 -> tally 0 total w ->
  (forall b w', tally (if b : bool then 1 else 0) total w' -> Q (Ok b) w') ->
  wp0 (IncrementWaitCount c true user max) Q w.
Proof.
  intros Hmax Hw HQ. unfold IncrementWaitCount, fail_open, Slots.IncrementWaitCount. cbn [negb].
  apply wp0_bind, wp0_try, wp0_bind, wp0_request. apply tally_arrive in Hw; [|done].
  destruct Hw as (n & ds & (o & Ho & Hn) & Hs & Hb & Ht). pose proof (Hb 0%nat) as H0. rewrite take_0 in H0. cbn in H0, Hn.
  fold key. set (M := Z.max B max).
  destruct (join_spec key M max (waitQueueTTLSeconds c) _ o Ho) as [Hr Hk];
    [destruct o; cbn in Hn |- *; [lia|done]|lia|done|lia|].
  cbv zeta. destruct (incrementWaitScript _ _ _ _) as [db r]. cbn [fst snd] in Hr, Hk |- *. subst r.
  rewrite Z.add_0_l in Hn. rewrite Hn in Hk |- *. assert (Hfin : forall b : bool, tally (if b then 1 else 0) total (with_server db (arrive w)) ->
    wp0 (tret b) (fun r w' => wp0 (tret match r with Ok b => b | Err _ => true end) Q w')
      (with_server db (arrive w))).
  { intros b Hb'. by apply wp0_ret, wp0_ret, HQ. }
  destruct (n <? max); cbn [fst snd Z.eqb].
  - apply wp0_bind. assert (Hw1 : tally 1 total (with_server db (arrive w))).
    { exists n, ds. split; [|by split]. eexists. split; [exact Hk|]. cbn. lia. }
    eapply wp0_mono; [apply (touch_passive user _ 1 total); [lia|done]|]. intros [[]|e] w' Hw'; [by apply wp0_ret, wp0_ret, HQ|].
    by apply wp0_ret, (HQ true).
  - apply wp0_bind, wp0_ret, Hfin. exists n, ds. split; [|by split]. exists o. split; [exact Hk|cbn; lia].
Qed.

Lemma leave_alone total w (Q : res unit -> World Db -> Prop) : tally 1 total w ->
  (forall r w', tally 0 total w' -> Q r w') -> wp0 (DecrementWaitCount c true user) Q w.
Proof.
  intros Hw HQ. unfold DecrementWaitCount, Slots.DecrementWaitCount, best_effort. cbn [negb].
  apply wp0_bind, wp0_try, wp0_bind, wp0_request. apply tally_arrive in Hw; [|done].
  destruct Hw as (n & ds & (o & Ho & Hn) & Hs & Hb & Ht). pose proof (Hb 0%nat) as H0. rewrite take_0 in H0. cbn in H0.
  fold key. destruct (leave_spec key B _ o Ho) as [Hr Hk]; [destruct o; cbn in Hn |- *; [lia|done]|lia|].
  cbv zeta. destruct (decrementWaitScript _ _) as [db r]. cbn [fst snd] in Hr, Hk |- *. subst r.
  eapply wp0_mono; [apply (refresh_passive user 0 total); [done|]|].
  - exists n, ds. split; [|by split]. eexists. split; [exact Hk|]. destruct o; cbn in Hn |- *; lia.
  - intros r w' Hw'. by apply wp0_ret, HQ.
Qed.

(** A request that waits for a slot is counted as long as it waits and no longer: when
every call to the cache is answered, then however its wait ends - with a slot, with a full
queue, by a time-out, by the end of the request or by a failed ping - the counter is what
the other requests make of it, who may join and leave at any moment in between. *)
Theorem waits_are_counted_back total max req apiKey canPing events w :
  tally 0 total w ->
  wp0 (acquireUserSlotWithWaitTimeout c true user max req apiKey canPing events) (fun r w' =>
    tally (match r with Ok None => 1 | _ => 0 end) total w') w.
Proof.
  intros Hw. unfold acquireUserSlotWithWaitTimeout. apply wp0_bind.
  eapply wp0_mono; [by apply (acquire_passive user max req 0 total)|]. intros [[f|]|e] w1 Hw1; [|clear w Hw|done].
  { apply wp0_bind, (with_key_alone 0 total); [done|done|]. intros g w2 Hw2. by apply wp0_ret. }
  apply wp0_bind. apply (join_alone total); [|done|].
  { unfold queue_limit. case_Z; [done|]. apply (i64_range (CalculateMaxWait max - max)). }
  intros [] w2 Hw2; cbn [negb]; [|by apply wp0_fail].
  apply wp0_bind, wp0_try. unfold waitForSlotWithPingTimeout.
  assert (Hp : passive (if negb canPing then tfail (ErrMsg "streaming not supported")
                        else wait_for_slot c UserSlots user max events initialBackoff)).
  { destruct canPing; [apply wait_passive|apply passive_fail]. }
  apply wp0_bind, wp0_ret. eapply wp0_mono; [apply (Hp 1 total); [lia|done]|].
  intros [[f|]|e] w3 Hw3; [|by apply wp0_ret|].
  - apply wp0_bind, (with_key_alone 1 total); [lia|done|]. intros g w4 Hw4.
    apply wp0_bind, (leave_alone total); [done|]. intros [[]|e] w5 Hw5; [by apply wp0_ret|done].
  - apply wp0_bind, (leave_alone total); [done|]. intros [[]|e'] w4 Hw4; [by apply wp0_fail|done].
Qed.

End Waits.

(** ** Examples: user 9 with one slot *)

Definition wait_cache : concurrencyCache := NewConcurrencyCache 0 0.
Definition user_world (db : MapRedis) (ts : list (Turn MapRedis)) : World MapRedis := mkWorld db 0 false ts.

(** Another request holds the slot, and three wait. *)
Definition busy_user : MapRedis :=
  mkMapRedis {[ userSlotKey 9 := (RZSet {["r1-1" := 0]}, Some 900000);
                waitQueueKey 9 := (RString "3", Some 900000) ]} 1000.

(** Another request joins while this one acquires, and leaves while it waits. *)
Definition joins (n : Z) : Turn MapRedis :=
  mkTurn (fun db => (call (INCR (waitQueueKey 9) n) db).1) 0 false.

Definition waiting_run : res (option ReleaseFunc) * World MapRedis * faults :=
  acquireUserSlotWithWaitTimeout wait_cache true 9 1 "r2-1" None true
    [SlotTimer "r2-2" 0; SlotPing (Ok tt); SlotCtxDone None] (user_world busy_user [joins 1; joins (-1)]) [].

Example times_out_and_leaves :
  waiting_run.1.1 = Err (ErrSlotTimeout UserSlots) /\
  value_of (server waiting_run.1.2) (waitQueueKey 9) = Some (RString "3").
Proof. by vm_compute. Qed.

(** The slot is given back by the others while the request waits. *)
Example waits_and_gets_the_slot :
  let free := mkTurn (fun db => (call (ZREM (userSlotKey 9) "r1-1") db).1) 0 false in
  let idle := mkTurn id 0 false in
  let r := acquireUserSlotWithWaitTimeout wait_cache true 9 1 "r2-1" (Some (4, "r2-2")) true
             [SlotTimer "r2-3" 0] (user_world busy_user [idle; idle; idle; free]) [] in
  r.1.1 = Ok (Some [HeldUser 9 "r2-3"; HeldAPIKey 4 "r2-2"]) /\
  value_of (server r.1.2) (waitQueueKey 9) = Some (RString "3") /\
  entries (server (release wait_cache [HeldUser 9 "r2-3"; HeldAPIKey 4 "r2-2"] r.1.2 []).1.2) !! userSlotKey 9 = None.
Proof. by vm_compute. Qed.

(** When the increment fails the request waits all the same, and what it takes back when
it leaves is the place of another. *)
Lemma failed_join_takes_back_another :
  let r := acquireUserSlotWithWaitTimeout wait_cache true 9 1 "r2-1" None true
             [SlotTimer "r2-2" 0; SlotCtxDone None] (user_world busy_user []) [None; Some (Programs.Refused "i/o timeout")] in
  r.1.1 = Err (ErrSlotTimeout UserSlots) /\ value_of (server r.1.2) (waitQueueKey 9) = Some (RString "2").
Proof. by vm_compute. Qed.

Lemma joins_shift n : shifts (waitQueueKey 9) 100 n (joins n).
Proof.
  intros db m (o & Ho & Hm) H0 H1. cbn [joins others].
  pose (Q := fun (_ : res Reply) db' => counts (waitQueueKey 9) db' (m + n)).
  change (Q (call (INCR (waitQueueKey 9) n) db).2 (call (INCR (waitQueueKey 9) n) db).1).
  eapply (incr_spec (waitQueueKey 9) o n Q); [exact Ho|unfold in_i64, two63; lia..|].
  intros db' Hw. exists (Some (default 0 o + n)). split; [exact Hw|]. cbn. by rewrite Hm.
Qed.

Lemma waits_are_counted_back_witness :
  tally (waitQueueKey 9) 100 0 3 (user_world busy_user [joins 1; joins (-1)]) /\
  wp0 (acquireUserSlotWithWaitTimeout wait_cache true 9 1 "r2-1" None true
         [SlotTimer "r2-2" 0; SlotPing (Ok tt); SlotCtxDone None])
    (fun r w' => tally (waitQueueKey 9) 100 (match r with Ok None => 1 | _ => 0 end) 3 w')
    (user_world busy_user [joins 1; joins (-1)]).
Proof.
  assert (Hw : tally (waitQueueKey 9) 100 0 3 (user_world busy_user [joins 1; joins (-1)])).
  { exists 3, [1; -1]. split; [by exists (Some 3)|]. split; [repeat constructor; apply joins_shift|].
    split; [|done]. intros [|[|[|k]]]; cbn; lia. }
  split; [exact Hw|].
  apply (waits_are_counted_back wait_cache 9 100); [unfold two63; lia|by vm_compute|exact Hw].
Defined.
