(* ===== verification/ModelNames.v ===== *)
(** * Names of models

The spellings of one model that the gateway takes for the same: the aliases of the
OpenAI models ([service/openai_model_alias.go], [service/openai_codex_transform.go],
[pkg/openai/constants.go]), the short names of the Claude models
([pkg/claude/constants.go]) and the suffixes of reasoning effort
([service/openai_compat_model.go]).

[strings.Fields] of a string with bytes outside ASCII is a parameter, as the other
Unicode tables of [GoText] are. *)
From S2P Require Import Prelude GoText.
From Stdlib Require Import Bool.

Local Open Scope string_scope.
Local Open Scope Z_scope.

(** ** Functions of the package strings *)

Class GoFields : Type := { fields_slow : string -> list string }.

#[export] Instance AsciiFields : GoFields := { fields_slow := fun s => [s] }.

(** The parts between the characters that satisfy [sep], the empty ones left out;
[cur] is the part so far. *)
Fixpoint fields_by (sep : ascii -> bool) (s cur : string) : list string :=
  let flush := if String.eqb cur "" then [] else [cur] in
  match s with
  | EmptyString => flush
  | String a r => if sep a then (flush ++ fields_by sep r "")%list else fields_by sep r (cur +:+ String a "")
  end.

Definition Fields `{GoFields} (s : string) : list string :=
  if is_ascii s then fields_by is_ascii_space s "" else fields_slow s.

(** [strings.FieldsFunc] for a function that holds of ASCII characters only. *)
Definition FieldsFunc (sep : ascii -> bool) (s : string) : list string := fields_by sep s "".

(** [strings.Split] by one character: the empty parts stay. *)
Fixpoint split_at (sep : ascii) (s cur : string) : list string :=
  match s with
  | EmptyString => [cur]
  | String a r => if Ascii.eqb a sep then cur :: split_at sep r "" else split_at sep r (cur +:+ String a "")
  end.
Definition Split (s : string) (sep : ascii) : list string := split_at sep s "".

Definition last_part (parts : list string) : string := default "" (last parts).

Fixpoint Join (parts : list string) (sep : string) : string :=
  match parts with
  | [] => ""
  | [p] => p
  | p :: parts => p +:+ sep +:+ Join parts sep
  end.

(** [strings.ReplaceAll]: from the left, without overlap, of a part that is not empty. *)
Fixpoint replace_all (fuel : nat) (s from to : string) : string :=
  match fuel with
  | O => s
  | S fuel =>
      match s with
      | EmptyString => EmptyString
      | String a r =>
          if HasPrefix s from then to +:+ replace_all fuel (str_drop (String.length from) s) from to
          else String a (replace_all fuel r from to)
      end
  end.
Definition ReplaceAll (s from to : string) : string := replace_all (String.length s) s from to.

(** What follows the last occurrence of a character, if it occurs. *)
Fixpoint after_last (s : string) (c : ascii) : option string :=
  match s with
  | EmptyString => None
  | String a r =>
      match after_last r c with
      | Some t => Some t
      | None => if Ascii.eqb a c then Some r else None
      end
  end.

(** The first entry of a table. *)
Fixpoint assoc {A} (key : string) (table : list (string * A)) : option A :=
  match table with
  | [] => None
  | (k, v) :: table => if String.eqb k key then Some v else assoc key table
  end.

Section Names.
Context `{GoUnicode, GoFields}.

(** ** OpenAI *)

(** [for strings.Contains(normalized, "--")]: every round shortens the string. *)
Fixpoint squeeze_dashes (fuel : nat) (s : string) : string :=
  match fuel with
  | O => s
  | S fuel => if Contains s "--" then squeeze_dashes fuel (ReplaceAll s "--" "-") else s
  end.

Definition alias_replacements : list (string * string) :=
  [("gpt-5.4mini", "gpt-5.4-mini"); ("gpt-5.4nano", "gpt-5.4-nano");
   ("gpt-5.3-codexspark", "gpt-5.3-codex-spark"); ("gpt-5.3codexspark", "gpt-5.3-codex-spark");
   ("gpt-5.3codex", "gpt-5.3-codex")].

Definition CanonicalizeOpenAIModelAliasSpelling (model : string) : string :=
  let model := TrimSpace model in
  let model := match after_last model "/" with Some rest => TrimSpace rest | None => model end in
  let model := ToLower model in
  if String.eqb model "" then ""
  else
    let normalized := ReplaceAll model "_" "-" in
    let normalized := Join (Fields normalized) "-" in
    let normalized := squeeze_dashes (String.length normalized) normalized in
    let normalized := if HasPrefix normalized "gpt5" then "gpt-5" +:+ TrimPrefix normalized "gpt5"
                      else normalized in
    if negb (HasPrefix normalized "gpt-") && negb (Contains normalized "codex") then ""
    else foldl (fun s r => ReplaceAll s r.1 r.2) normalized alias_replacements.

Definition lastOpenAIModelSegment (model : string) : string :=
  let model := TrimSpace model in
  if String.eqb model "" then ""
  else TrimSpace (if Contains model "/" then last_part (Split model "/") else model).

Definition IsGPTImageGenerationModel (model : string) : bool :=
  HasPrefix (ToLower (TrimSpace model)) "gpt-image-".

Definition isGrokImageGenerationModel (model : string) : bool :=
  let model := ToLower (TrimSpace model) in
  String.eqb model "grok-imagine" || String.eqb model "grok-imagine-edit" ||
  HasPrefix model "grok-imagine-image".

Definition isOpenAIImageGenerationModel (model : string) : bool :=
  IsGPTImageGenerationModel model || isGrokImageGenerationModel model.

Definition codexModelMap : list (string * string) :=
  [("gpt-6-astra", "gpt-6-astra"); ("gpt-5.6-sol", "gpt-5.6-sol"); ("gpt-5.6-terra", "gpt-5.6-terra");
   ("gpt-5.6-luna", "gpt-5.6-luna"); ("gpt-5.5", "gpt-5.5"); ("gpt-5.5-pro", "gpt-5.5-pro");
   ("codex-auto-review", "codex-auto-review"); ("gpt-5.4", "gpt-5.4"); ("gpt-5.4-mini", "gpt-5.4-mini");
   ("gpt-5.4-none", "gpt-5.4"); ("gpt-5.4-low", "gpt-5.4"); ("gpt-5.4-medium", "gpt-5.4");
   ("gpt-5.4-high", "gpt-5.4"); ("gpt-5.4-xhigh", "gpt-5.4"); ("gpt-5.4-chat-latest", "gpt-5.4");
   ("gpt-5.3", "gpt-5.3-codex"); ("gpt-5.3-none", "gpt-5.3-codex"); ("gpt-5.3-low", "gpt-5.3-codex");
   ("gpt-5.3-medium", "gpt-5.3-codex"); ("gpt-5.3-high", "gpt-5.3-codex");
   ("gpt-5.3-xhigh", "gpt-5.3-codex"); ("gpt-5.3-codex", "gpt-5.3-codex");
   ("gpt-5.3-codex-spark", "gpt-5.3-codex-spark"); ("gpt-5.3-codex-low", "gpt-5.3-codex");
   ("gpt-5.3-codex-medium", "gpt-5.3-codex"); ("gpt-5.3-codex-high", "gpt-5.3-codex");
   ("gpt-5.3-codex-xhigh", "gpt-5.3-codex"); ("gpt-5.2", "gpt-5.2"); ("gpt-5.2-none", "gpt-5.2");
   ("gpt-5.2-low", "gpt-5.2"); ("gpt-5.2-medium", "gpt-5.2"); ("gpt-5.2-high", "gpt-5.2");
   ("gpt-5.2-xhigh", "gpt-5.2"); ("gpt-5", "gpt-5.4"); ("gpt-5-mini", "gpt-5.4"); ("gpt-5-nano", "gpt-5.4");
   ("gpt-5.1", "gpt-5.4"); ("gpt-5.1-codex", "gpt-5.3-codex"); ("gpt-5.1-codex-max", "gpt-5.3-codex");
   ("gpt-5.1-codex-mini", "gpt-5.3-codex"); ("gpt-5.2-codex", "gpt-5.2");
   ("codex-mini-latest", "gpt-5.3-codex"); ("gpt-5-codex", "gpt-5.3-codex")].

Definition codexVersionModelPrefixes : list (string * string) :=
  map (fun p => (p, p))
    ["gpt-5.6-sol"; "gpt-5.6-terra"; "gpt-5.6-luna"; "gpt-5.3-codex-spark"; "gpt-5.3-codex";
     "gpt-5.4-mini"; "gpt-5.4-nano"; "gpt-5.5-pro"; "gpt-5.5"; "gpt-5.4"; "gpt-5.2"].

Definition is_digit (a : ascii) : bool := let n := ascii_byte a in (48 <=? n) && (n <=? 57).

Fixpoint all_digits (s : string) : bool :=
  match s with EmptyString => true | String a r => is_digit a && all_digits r end.

Definition isCodexDateSuffix (suffix : string) : bool :=
  match Split suffix "-" with
  | [y; m; d] => (len y =? 4) && (len m =? 2) && (len d =? 2) && forallb all_digits [y; m; d]
  | _ => false
  end.

Definition isKnownCodexModelSuffix (suffix : string) : bool :=
  existsb (String.eqb suffix) ["none"; "minimal"; "low"; "medium"; "high"; "xhigh"] ||
  isCodexDateSuffix suffix.

Definition codexModelLookupKey (modelID : string) : string :=
  let modelID := TrimSpace modelID in
  if String.eqb modelID "" then ""
  else
    let modelID := if Contains modelID "/" then last_part (Split modelID "/") else modelID in
    ToLower (Join (Fields modelID) "-").

(** [None] is the empty string. *)
Definition getNormalizedCodexModel (modelID : string) : option string :=
  let key := codexModelLookupKey modelID in
  if String.eqb key "" then None else assoc key codexModelMap.

(** The cases of the switch that look for a part, before and after the one of gpt-5.6. *)
Definition gpt56_parts : list string := ["gpt-5.6-sol"; "gpt-5.6-terra"; "gpt-5.6-luna"].
Definition alias_parts : list (string * string) :=
  [("gpt-5.5-pro", "gpt-5.5-pro"); ("gpt-5.5", "gpt-5.5"); ("gpt-5.4-mini", "gpt-5.4-mini");
   ("gpt-5.4-nano", "gpt-5.4-nano"); ("gpt-5.4", "gpt-5.4"); ("gpt-5.2", "gpt-5.2");
   ("gpt-5.3-codex-spark", "gpt-5.3-codex-spark"); ("gpt-5.3-codex", "gpt-5.3-codex");
   ("gpt-5.3", "gpt-5.3-codex"); ("codex", "gpt-5.3-codex"); ("gpt-5", "gpt-5.4")].

Fixpoint first_part (s : string) (table : list (string * string)) : option string :=
  match table with
  | [] => None
  | (part, target) :: table => if Contains s part then Some target else first_part s table
  end.

Definition alias_switch (normalized : string) : option string :=
  if String.eqb normalized "gpt-6" || String.eqb normalized "gpt-6-astra" then Some "gpt-6-astra"
  else
    match first_part normalized (map (fun p => (p, p)) gpt56_parts) with
    | Some target => Some target
    | None =>
        if String.eqb normalized "gpt-5.6" then Some "gpt-5.6-sol"
        else if HasPrefix normalized "gpt-5.6-" then
          let suffix := TrimPrefix normalized "gpt-5.6-" in
          if String.eqb suffix "max" || isKnownCodexModelSuffix suffix then Some "gpt-5.6-sol" else None
        else first_part normalized alias_parts
    end.

Definition normalizeKnownOpenAICodexModel (model : string) : option string :=
  let normalized := CanonicalizeOpenAIModelAliasSpelling model in
  if String.eqb normalized "" then None
  else
    match getNormalizedCodexModel normalized with
    | Some mapped => Some mapped
    | None =>
        match (if HasSuffix normalized "-openai-compact"
               then getNormalizedCodexModel (TrimSuffix normalized "-openai-compact") else None) with
        | Some mapped => Some mapped
        | None => alias_switch normalized
        end
    end.

(** The loop over the prefixes of versions. *)
Fixpoint version_target (key : string) (table : list (string * string)) : option string :=
  match table with
  | [] => None
  | (prefix, target) :: table =>
      if String.eqb key prefix then Some target
      else if HasPrefix key (prefix +:+ "-") && isKnownCodexModelSuffix (TrimPrefix key (prefix +:+ "-"))
      then Some target
      else version_target key table
  end.

Definition normalizeKnownCodexModel (model : string) : option string :=
  let model := TrimSpace model in
  if String.eqb model "" then None
  else if isOpenAIImageGenerationModel model then Some model
  else
    let modelID := lastOpenAIModelSegment model in
    let normalized := CanonicalizeOpenAIModelAliasSpelling modelID in
    let modelID := if String.eqb normalized "" then modelID else normalized in
    match normalizeKnownOpenAICodexModel modelID with
    | Some mapped => Some mapped
    | None =>
        let key := codexModelLookupKey modelID in
        if String.eqb key "" then None
        else
          match getNormalizedCodexModel key with
          | Some mapped => Some mapped
          | None => version_target key codexVersionModelPrefixes
          end
    end.

Definition normalizeCodexModel (model : string) : string :=
  let model := TrimSpace model in
  if String.eqb model "" then "gpt-5.4"
  else default model (normalizeKnownCodexModel model).

Definition isCodexSparkModel (model : string) : bool :=
  String.eqb (normalizeCodexModel model) "gpt-5.3-codex-spark".

Definition isOpenAIGPT56Model (model : string) : bool :=
  let normalized := CanonicalizeOpenAIModelAliasSpelling model in
  if String.eqb normalized "gpt-5.6" then true
  else
    let suffix := TrimPrefix normalized "gpt-5.6-" in
    (HasPrefix normalized "gpt-5.6-" && (String.eqb suffix "max" || isKnownCodexModelSuffix suffix)) ||
    existsb (fun prefix => String.eqb normalized prefix || HasPrefix normalized (prefix +:+ "-")) gpt56_parts.

Definition isOpenAIGPT6AstraModel (model : string) : bool :=
  let normalized := CanonicalizeOpenAIModelAliasSpelling model in
  String.eqb normalized "gpt-6" || String.eqb normalized "gpt-6-astra" || HasPrefix normalized "gpt-6-astra-".

(** ** Suffixes of reasoning effort *)

(** The model without the suffix and the effort, if there is one. (The replacer of the
code removes from the last part the characters that separate the parts: none is left.) *)
Definition splitOpenAICompatReasoningModel (model : string) : string * string * bool :=
  let trimmed := TrimSpace model in
  if String.eqb trimmed "" then ("", "", false)
  else
    let modelID := if Contains trimmed "/" then last_part (Split trimmed "/") else trimmed in
    let modelID := TrimSpace modelID in
    if negb (HasPrefix (ToLower modelID) "gpt-") then (trimmed, "", false)
    else
      let parts := FieldsFunc (fun a => existsb (Ascii.eqb a) ["-"; "_"; " "]%char) (ToLower modelID) in
      match last parts with
      | None => (trimmed, "", false)
      | Some last =>
          if existsb (String.eqb last) ["none"; "minimal"] then (normalizeCodexModel modelID, "", true)
          else if existsb (String.eqb last) ["low"; "medium"; "high"] then
            (normalizeCodexModel modelID, last, true)
          else if existsb (String.eqb last) ["xhigh"; "extrahigh"] then
            (normalizeCodexModel modelID, "xhigh", true)
          else (trimmed, "", false)
      end.

Definition NormalizeOpenAICompatRequestedModel (model : string) : string :=
  let trimmed := TrimSpace model in
  if String.eqb trimmed "" then ""
  else
    let '(normalized, _, ok) := splitOpenAICompatReasoningModel trimmed in
    if negb ok || String.eqb normalized "" then trimmed else normalized.

Definition openAIReasoningEffortToClaudeOutputEffort (effort : string) : string :=
  if existsb (String.eqb (TrimSpace effort)) ["low"; "medium"; "high"] then effort
  else if String.eqb (TrimSpace effort) "xhigh" then "max"
  else "".

End Names.

(** ** Claude *)

Definition ModelIDOverrides : list (string * string) :=
  [("claude-sonnet-4-5", "claude-sonnet-4-5-20250929"); ("claude-opus-4-5", "claude-opus-4-5-20251101");
   ("claude-haiku-4-5", "claude-haiku-4-5-20251001")].
Definition ModelIDReverseOverrides : list (string * string) :=
  [("claude-sonnet-4-5-20250929", "claude-sonnet-4-5"); ("claude-opus-4-5-20251101", "claude-opus-4-5");
   ("claude-haiku-4-5-20251001", "claude-haiku-4-5")].

Definition NormalizeModelID (id : string) : string :=
  if String.eqb id "" then id else default id (assoc id ModelIDOverrides).
Definition DenormalizeModelID (id : string) : string :=
  if String.eqb id "" then id else default id (assoc id ModelIDReverseOverrides).

Example names_of_one_model :
  map normalizeCodexModel ["openai/GPT-5.3 codex-high"; "gpt5.4mini"; "gpt-5.2-2025-12-11"; " gpt-5.6_max ";
    "gpt-5--codex-openai-compact"; "GPT-image-1"; "claude-opus-4-5"; ""; "gpt-4o"] =
  ["gpt-5.3-codex"; "gpt-5.4-mini"; "gpt-5.2"; "gpt-5.6-sol"; "gpt-5.3-codex"; "GPT-image-1"; "claude-opus-4-5";
   "gpt-5.4"; "gpt-4o"].
Proof. by vm_compute. Qed.

(** ** Normalising twice *)

Section Idempotent.
Context `{GoUnicode, !GoUnicodeLaws, GoFields}.

(** What the tables map to. *)
Definition codex_targets : list string :=
  map snd codexModelMap ++ map snd codexVersionModelPrefixes ++ gpt56_parts ++ map snd alias_parts ++
  ["gpt-6-astra"; "gpt-5.6-sol"].

Lemma targets_are_fixed t : t ∈ codex_targets -> normalizeCodexModel t = t.
Proof.
  intros Ht. apply list_elem_of_In in Ht. revert t Ht. apply List.Forall_forall.
  repeat (apply List.Forall_cons; [by vm_compute|]). apply List.Forall_nil.
Qed.

Lemma assoc_target {A} key (table : list (string * A)) v : assoc key table = Some v -> v ∈ map snd table.
Proof.
  induction table as [|[k w] table IH]; cbn; [done|]. case_match; [intros [= ->]; left|right; auto].
Qed.

Lemma first_part_target s table t : first_part s table = Some t -> t ∈ map snd table.
Proof.
  induction table as [|[p w] table IH]; cbn; [done|]. case_match; [intros [= ->]; left|right; auto].
Qed.

Lemma version_target_elem key table t : version_target key table = Some t -> t ∈ map snd table.
Proof.
  induction table as [|[p w] table IH]; cbn; [done|].
  case_match; [intros [= ->]; left|case_match; [intros [= ->]; left|right; auto]].
Qed.

Lemma in_targets t : t ∈ map snd codexModelMap \/ t ∈ map snd codexVersionModelPrefixes \/
  t ∈ gpt56_parts \/ t ∈ map snd alias_parts \/ t ∈ ["gpt-6-astra"; "gpt-5.6-sol"] -> t ∈ codex_targets.
Proof. unfold codex_targets. rewrite !elem_of_app. tauto. Qed.

Lemma looked_up_target m t : getNormalizedCodexModel m = Some t -> t ∈ codex_targets.
Proof.
  unfold getNormalizedCodexModel. case_match; [done|]. intros Ht%assoc_target. apply in_targets. auto.
Qed.

Lemma alias_target m t : alias_switch m = Some t -> t ∈ codex_targets.
Proof.
  unfold alias_switch. intros Ht. apply in_targets.
  repeat case_match; simplify_eq;
    repeat match goal with H : first_part _ _ = Some _ |- _ => apply first_part_target in H end.
  all: try (do 4 right; by repeat constructor).
  - do 2 right. left. done.
  - do 3 right. by left.
Qed.

Lemma known_alias_target m t : normalizeKnownOpenAICodexModel m = Some t -> t ∈ codex_targets.
Proof.
  unfold normalizeKnownOpenAICodexModel. case_match; [done|].
  case_match eqn:E1; [intros [= <-]; by apply looked_up_target in E1|].
  case_match eqn:E2; [|apply alias_target]. intros [= <-].
  case_match; [by apply looked_up_target in E2|done].
Qed.

Lemma known_target m t : normalizeKnownCodexModel m = Some t ->
  t ∈ codex_targets \/ (t = TrimSpace m /\ isOpenAIImageGenerationModel t = true).
Proof.
  unfold normalizeKnownCodexModel. intros Ht. repeat case_match; simplify_eq.
  all: try (by left; eapply known_alias_target); try (by left; eapply looked_up_target); auto.
  all: left; apply version_target_elem in Ht; apply in_targets; auto.
Qed.

(** Normalising the name of a model is idempotent: the result, whatever spelling it comes
from, is a name that is normalised to itself. *)
Theorem normalizing_twice m : normalizeCodexModel (normalizeCodexModel m) = normalizeCodexModel m.
Proof.
  unfold normalizeCodexModel at 2 3. destruct (String.eqb_spec (TrimSpace m) "") as [_|Hne]; [by vm_compute|].
  destruct (normalizeKnownCodexModel (TrimSpace m)) as [t|] eqn:E; cbn [default from_option id].
  - apply known_target in E as [Ht|[-> Hi]]; [by apply targets_are_fixed|]. rewrite TrimSpace_idem in Hi |- *.
    unfold normalizeCodexModel. rewrite TrimSpace_idem, (proj2 (String.eqb_neq _ _)) by done.
    unfold normalizeKnownCodexModel. rewrite TrimSpace_idem, (proj2 (String.eqb_neq _ _)) by done.
    by rewrite Hi.
  - unfold normalizeCodexModel. by rewrite TrimSpace_idem, (proj2 (String.eqb_neq _ _)), E.
Qed.

End Idempotent.

Lemma normalizing_twice_witness :
  normalizeCodexModel "openai/GPT-5.3 codex-high" = "gpt-5.3-codex" /\
  normalizeCodexModel (normalizeCodexModel "openai/GPT-5.3 codex-high") =
  normalizeCodexModel "openai/GPT-5.3 codex-high".
Proof. split; [by vm_compute|]. apply (normalizing_twice "openai/GPT-5.3 codex-high"). Defined.
