(* ===== verification/ModelAllowlist.v ===== *)
(** * The allowlist of models of a group

Which models the requests of a group may name, and which ones the listing of models
shows ([service/group_model_allowlist.go]); the spellings that count as one model are
those of [ModelNames]. *)
From S2P Require Import Prelude GoText ModelNames.
From Stdlib Require Import Bool.

Local Open Scope string_scope.
Local Open Scope Z_scope.

Record GroupModelAllowlist : Type := mkAllowlist { Enabled : bool; Models : list string }.

#[export] Instance allowlist_eq_dec : EqDecision GroupModelAllowlist.
Proof. solve_decision. Defined.

Definition ErrInvalidAllowlist : goerr := ErrApp 400 "INVALID_MODEL_ALLOWLIST".

Section Allowlist.
Context `{GoUnicode, GoFields}.

(** The loop over the entries: the keys seen and the entries kept so far. *)
Fixpoint normalize_entries (models seen kept : list string) : res (list string) :=
  match models with
  | [] => Ok kept
  | model :: models =>
      let model := TrimSpace model in
      if String.eqb model "" then normalize_entries models seen kept
      else if Contains (TrimSuffix model "*") "*" then Err ErrInvalidAllowlist
      else
        let key := ToLower model in
        if bool_decide (key ∈ seen) then normalize_entries models seen kept
        else normalize_entries models (key :: seen) (kept ++ [model])%list
  end.

Definition normalizeGroupModelAllowlist (cfg : GroupModelAllowlist) : res GroupModelAllowlist :=
  match Models cfg with
  | [] => if Enabled cfg then Err ErrInvalidAllowlist else Ok (mkAllowlist false [])
  | models =>
      match normalize_entries models [] [] with
      | Err e => Err e
      | Ok [] => if Enabled cfg then Err ErrInvalidAllowlist else Ok (mkAllowlist false [])
      | Ok kept => Ok (mkAllowlist (Enabled cfg) kept)
      end
  end.

Definition add_candidate (candidates : list string) (value : string) : list string :=
  let value := ToLower (TrimSpace value) in
  if String.eqb value "" || bool_decide (value ∈ candidates) then candidates else (candidates ++ [value])%list.

Definition groupModelAllowlistCandidates (model : string) : list string :=
  foldl add_candidate []
    [model; TrimPrefix model "models/"; NormalizeModelID (TrimSuffix model "-thinking");
     NormalizeOpenAICompatRequestedModel model].

(** One entry of the loop of [Allows]. *)
Definition entry_allows (candidates : list string) (entry : string) : bool :=
  let entry := TrimSpace entry in
  if String.eqb entry "" then false
  else
    let entry := ToLower entry in
    if HasSuffix entry "*" then existsb (fun candidate => HasPrefix candidate (TrimSuffix entry "*")) candidates
    else existsb (fun candidate => String.eqb candidate entry) candidates.

Definition Allows (a : GroupModelAllowlist) (model : string) : bool :=
  if negb (Enabled a) then true
  else
    let model := TrimSpace model in
    if String.eqb model "" then true
    else existsb (entry_allows (groupModelAllowlistCandidates model)) (Models a).

Definition allowlistSourcePatternAllowsModel (patterns : list string) (model : string) : bool :=
  existsb (fun pattern =>
    EqualFold pattern model ||
    (HasSuffix pattern "*" && HasPrefix (ToLower model) (ToLower (TrimSuffix pattern "*")))) patterns ||
  (let normalizedClaudeModel := NormalizeModelID (TrimSuffix model "-thinking") in
   negb (EqualFold normalizedClaudeModel model) &&
   existsb (fun pattern => EqualFold pattern normalizedClaudeModel) patterns).

(** A model that has not been listed yet in another case. *)
Definition add_listed (listed : list string) (model : string) : list string :=
  if bool_decide (ToLower model ∈ map ToLower listed) then listed else (listed ++ [model])%list.

Definition listing_entry (patterns : list string) (listed : list string) (entry : string) : list string :=
  let entry := TrimSpace entry in
  if String.eqb entry "" then listed
  else if HasSuffix entry "*" then
    let prefix := ToLower (TrimSuffix entry "*") in
    foldl add_listed listed (List.filter (fun pattern => HasPrefix (ToLower pattern) prefix) patterns)
  else if allowlistSourcePatternAllowsModel patterns entry then add_listed listed entry
  else listed.

Definition FilterForListing (a : GroupModelAllowlist) (source : list string) : list string :=
  if negb (Enabled a) then source
  else
    match Models a with
    | [] => []
    | models =>
        let patterns := List.filter (fun pattern => negb (String.eqb pattern "")) (map TrimSpace source) in
        match patterns with
        | [] => []
        | _ => foldl (listing_entry patterns) [] models
        end
    end.

End Allowlist.

(** Lower case is taken letter by letter, so a star at the end stays. *)
Class GoLowerStar `{GoUnicode} : Prop := {
  lower_slow_star s : is_ascii s = false -> lower_slow (s +:+ "*") = lower_slow s +:+ "*"
}.

Lemma to_lower_ascii_app s t : to_lower_ascii (s +:+ t) = to_lower_ascii s +:+ to_lower_ascii t.
Proof. induction s as [|a s IH]; [done|]. change (String a s +:+ t) with (String a (s +:+ t)). cbn. by rewrite IH. Qed.

#[export] Instance AsciiLowerStar : @GoLowerStar AsciiUnicode.
Proof. split. intros s _. apply to_lower_ascii_app. Qed.

Lemma suffix_split s p : HasSuffix s p = true -> s = TrimSuffix s p +:+ p.
Proof.
  unfold TrimSuffix. intros E. rewrite E. unfold HasSuffix in E. apply andb_true_iff in E as [Hl E].
  apply String.eqb_eq in E. rewrite <- E at 2. generalize (String.length s - String.length p)%nat. clear.
  intros n. revert s. induction n as [|n IH]; intros [|a s]; [done..|]. cbn.
  change (String a s = String a (str_take n s +:+ str_drop n s)). by rewrite <- IH.
Qed.

Lemma length_app_str s t : String.length (s +:+ t) = (String.length s + String.length t)%nat.
Proof. induction s as [|a s IH]; [done|]. change (String a s +:+ t) with (String a (s +:+ t)). cbn. by rewrite IH. Qed.

Lemma str_take_app s t : str_take (String.length s) (s +:+ t) = s.
Proof. induction s as [|a s IH]; [by destruct t|]. change (String a s +:+ t) with (String a (s +:+ t)). cbn. by rewrite IH. Qed.

Lemma suffix_app s p : HasSuffix (s +:+ p) p = true /\ TrimSuffix (s +:+ p) p = s.
Proof.
  assert (Hs : HasSuffix (s +:+ p) p = true).
  { unfold HasSuffix, len. rewrite length_app_str. apply andb_true_iff. split; [apply Z.leb_le; lia|].
    replace (String.length s + String.length p - String.length p)%nat with (String.length s) by lia.
    by rewrite str_drop_app, String.eqb_refl. }
  split; [done|]. unfold TrimSuffix. rewrite Hs, length_app_str.
  replace (String.length s + String.length p - String.length p)%nat with (String.length s) by lia.
  apply str_take_app.
Qed.

Section Facts.
Context `{GoUnicode, !GoUnicodeLaws, GoFields}.

Lemma ToLower_star `{!GoLowerStar} s : ToLower (s +:+ "*") = ToLower s +:+ "*".
Proof.
  unfold ToLower. rewrite is_ascii_app, andb_true_r. destruct (is_ascii s) eqn:E; [apply to_lower_ascii_app|].
  by apply lower_slow_star.
Qed.

(** The model itself is a candidate. *)
Lemma own_candidate m : TrimSpace m = m -> m <> "" -> ToLower m ∈ groupModelAllowlistCandidates m.
Proof.
  intros Ht Hne. unfold groupModelAllowlistCandidates. cbn [foldl].
  assert (Hadd : forall v c, ToLower m ∈ c -> ToLower m ∈ add_candidate c v).
  { intros v c Hc. unfold add_candidate. case_match; [done|]. apply elem_of_app. by left. }
  do 3 apply Hadd. unfold add_candidate. rewrite Ht, (proj2 (String.eqb_neq _ _)) by by apply ToLower_nonempty.
  rewrite bool_decide_eq_false_2 by apply not_elem_of_nil. by left.
Qed.

Lemma elem_of_listed m l listed : m ∈ foldl add_listed listed l -> m ∈ listed \/ m ∈ l.
Proof.
  revert listed. induction l as [|x l IH]; intros listed; cbn; [auto|]. intros [Hm|Hm]%IH; [|right; by right].
  unfold add_listed in Hm. case_match; [auto|]. apply elem_of_app in Hm as [Hm|Hm%list_elem_of_singleton]; [auto|].
  right. subst. by left.
Qed.

Lemma entry_allows_spec c entry candidate : TrimSpace entry <> "" -> candidate ∈ c ->
  (if HasSuffix (ToLower (TrimSpace entry)) "*"
   then HasPrefix candidate (TrimSuffix (ToLower (TrimSpace entry)) "*") = true
   else candidate = ToLower (TrimSpace entry)) ->
  entry_allows c entry = true.
Proof.
  intros Hne Hc Hm. unfold entry_allows. rewrite (proj2 (String.eqb_neq _ _)) by done.
  destruct (HasSuffix _ _); apply existsb_exists; exists candidate; rewrite <- list_elem_of_In; (split; [done|]);
    [done|by apply String.eqb_eq].
Qed.

(** A model that an entry lists is allowed by the entry. *)
Lemma listed_by_entry `{!GoLowerStar} patterns listed entry m :
  Forall (fun p => TrimSpace p = p /\ p <> "") patterns -> m ∈ listing_entry patterns listed entry ->
  m ∈ listed \/ (TrimSpace m = m /\ m <> "" /\ entry_allows (groupModelAllowlistCandidates m) entry = true).
Proof.
  intros Hp. unfold listing_entry. destruct (String.eqb_spec (TrimSpace entry) "") as [|Hne]; [auto|].
  destruct (HasSuffix (TrimSpace entry) "*") eqn:Es.
  - intros [Hm|Hm]%elem_of_listed; [auto|]. right. apply list_elem_of_In, filter_In in Hm as [Hm Hpre].
    rewrite Forall_forall in Hp. rewrite <- list_elem_of_In in Hm. destruct (Hp _ Hm) as [Ht Hn].
    split; [done|]. split; [done|]. apply (entry_allows_spec _ _ (ToLower m)); [done|by apply own_candidate|].
    apply suffix_split in Es. rewrite Es, ToLower_star. destruct (suffix_app (ToLower (TrimSuffix (TrimSpace entry) "*")) "*") as [-> ->].
    exact Hpre.
  - case_match; [|auto]. unfold add_listed. case_match; [auto|].
    intros [Hm|Hm%list_elem_of_singleton]%elem_of_app; [auto|]. subst m. right.
    split; [apply TrimSpace_idem|]. split; [done|].
    apply (entry_allows_spec _ _ (ToLower (TrimSpace entry))); [done|apply own_candidate; [apply TrimSpace_idem|done]|].
    case_match; [|done]. apply HasPrefix_spec. exists "*". by apply suffix_split.
Qed.

(** C37. What a client sees it may call: every model that the listing of a group shows,
whatever models its accounts and platforms offer, passes the check of the allowlist of
the group. *)
Theorem listed_models_are_allowed `{!GoLowerStar} a source m :
  m ∈ FilterForListing a source -> Allows a m = true.
Proof.
  unfold FilterForListing, Allows. destruct (Enabled a); cbn [negb]; [|done].
  set (patterns := List.filter _ _).
  assert (Hp : Forall (fun p => TrimSpace p = p /\ p <> "") patterns).
  { apply Forall_forall. intros p Hp. apply list_elem_of_In, filter_In in Hp as [Hp Hne].
    apply in_map_iff in Hp as (q & <- & _). rewrite TrimSpace_idem. split; [done|].
    by apply negb_true_iff, String.eqb_neq in Hne. }
  assert (Hgo : forall models listed, m ∈ foldl (listing_entry patterns) listed models -> m ∈ listed \/
    (TrimSpace m = m /\ m <> "" /\ existsb (entry_allows (groupModelAllowlistCandidates m)) models = true)).
  { induction models as [|entry models IH]; intros listed; cbn [foldl existsb]; [auto|].
    intros [Hm|(Ht & Hn & He)]%IH; [|right; by rewrite He, orb_true_r].
    apply listed_by_entry in Hm as [Hm|(Ht & Hn & He)]; [auto|right; by rewrite He|done]. }
  destruct (Models a) as [|e models]; [by intros ?%not_elem_of_nil|].
  destruct patterns; [by intros ?%not_elem_of_nil|].
  intros [Hm|(Ht & Hn & He)]%Hgo; [by apply not_elem_of_nil in Hm|]. by rewrite Ht, (proj2 (String.eqb_neq _ _)), He.
Qed.

(** ** What is stored allows what was submitted *)

Lemma entry_allows_key c e e' : TrimSpace e <> "" -> TrimSpace e' <> "" ->
  ToLower (TrimSpace e) = ToLower (TrimSpace e') -> entry_allows c e = entry_allows c e'.
Proof. intros He He' Hk. unfold entry_allows. by rewrite !(proj2 (String.eqb_neq _ _)), Hk. Qed.

Definition clean (e : string) : Prop :=
  TrimSpace e = e /\ e <> "" /\ Contains (TrimSuffix e "*") "*" = false.

Lemma normalize_entries_spec c models seen kept out :
  normalize_entries models seen kept = Ok out ->
  seen ≡ₚ map ToLower kept -> NoDup seen -> Forall clean kept ->
  Forall clean out /\ NoDup (map ToLower out) /\
  existsb (entry_allows c) out = existsb (entry_allows c) kept || existsb (entry_allows c) models.
Proof.
  revert seen kept. induction models as [|m models IH]; intros seen kept; cbn [normalize_entries existsb].
  - intros [= <-] Hs Hnd Hk. split; [done|]. split; [by rewrite <- Hs|]. by rewrite orb_false_r.
  - destruct (String.eqb_spec (TrimSpace m) "") as [E|Hne].
    { intros Hout Hs Hnd Hk. destruct (IH _ _ Hout Hs Hnd Hk) as (Hc & Hd & He). split; [done|]. split; [done|].
      rewrite He. unfold entry_allows at 4. rewrite E. done. }
    case_match eqn:Ec; [done|]. case_bool_decide as Hin; intros Hout Hs Hnd Hk.
    + destruct (IH _ _ Hout Hs Hnd Hk) as (Hc & Hd & He). split; [done|]. split; [done|]. rewrite He.
      rewrite Hs in Hin. apply list_elem_of_fmap in Hin as (k & Hkey & Hin).
      rewrite Forall_forall in Hk. destruct (Hk _ Hin) as (Ht & Hn & _).
      rewrite (entry_allows_key c m k) by (rewrite ?Ht; done).
      destruct (entry_allows c k) eqn:Ek; [|done].
      rewrite (proj2 (existsb_exists _ kept)); [done|]. exists k. by rewrite <- list_elem_of_In.
    + destruct (IH _ _ Hout) as (Hc & Hd & He).
      * rewrite Hs, map_app. cbn. by rewrite Permutation_app_comm.
      * by constructor.
      * apply Forall_app. split; [done|]. repeat constructor; [apply TrimSpace_idem|done|done].
      * split; [done|]. split; [done|]. rewrite He, existsb_app. cbn. rewrite orb_false_r.
        rewrite (entry_allows_key c (TrimSpace m) m) by (rewrite ?TrimSpace_idem; done).
        by rewrite orb_assoc.
Qed.

Lemma clean_is_kept out seen kept : Forall clean out -> NoDup (map ToLower out) ->
  (forall e, e ∈ out -> ToLower e ∉ seen) -> normalize_entries out seen kept = Ok (kept ++ out)%list.
Proof.
  revert seen kept. induction out as [|e out IH]; intros seen kept Hc Hd Hs; cbn; [by rewrite app_nil_r|].
  apply Forall_cons in Hc as [(Ht & Hn & He) Hc]. apply NoDup_cons in Hd as [Hnin Hd].
  rewrite Ht, (proj2 (String.eqb_neq _ _)), He, bool_decide_eq_false_2 by (done || apply Hs; by left).
  rewrite IH, <- app_assoc; [done..|]. intros e' He'. rewrite elem_of_cons. intros [Heq|Hin].
  - apply Hnin. rewrite <- Heq. by apply list_elem_of_fmap_2.
  - by apply (Hs e'); [right|].
Qed.

(** An administrator's allowlist means the same after it has been normalised for
storage: it allows the same models, normalising it again changes nothing, and it is
never enabled without an entry. *)
Theorem stored_allowlist_means_the_same cfg out :
  normalizeGroupModelAllowlist cfg = Ok out ->
  (forall model, Allows out model = Allows cfg model) /\
  normalizeGroupModelAllowlist out = Ok out /\
  (Enabled out = true -> Models out <> []).
Proof.
  unfold normalizeGroupModelAllowlist, Allows. destruct cfg as [en [|m models]]; cbn [Enabled Models].
  { destruct en; [done|]. by intros [= <-]. }
  destruct (normalize_entries (m :: models) [] []) as [kept|e] eqn:E; [|done].
  assert (Hspec := fun c => normalize_entries_spec c _ _ _ _ E (reflexivity _) (NoDup_nil_2) (Forall_nil_2 _)).
  destruct kept as [|k kept]; [destruct en; [done|]; by intros [= <-]|]. intros [= <-]. cbn [Enabled Models].
  split; [|split; [|done]].
  - intros model. destruct en; [cbn [negb]|done]. case_match; [done|].
    destruct (Hspec (groupModelAllowlistCandidates (TrimSpace model))) as (_ & _ & He). exact He.
  - destruct (Hspec []) as (Hc & Hd & _). rewrite (clean_is_kept (k :: kept) [] []); [done|done|done|].
    intros e _. apply not_elem_of_nil.
Qed.

End Facts.

(** ** Examples *)

Definition ex_allowlist : GroupModelAllowlist :=
  mkAllowlist true ["Claude-Sonnet-4-5-20250929 "; "gpt-5.4*"; "gemini-2.5-pro"; "claude-sonnet-4-5-20250929"].

Example allowlist_admission :
  map (Allows ex_allowlist) ["claude-sonnet-4-5-thinking"; "GPT-5.4-mini"; "models/gemini-2.5-pro"; "gpt-5.3"; ""] =
    [true; true; true; false; true] /\
  FilterForListing ex_allowlist ["gpt-5.4"; "claude-*"; "GPT-5.4"; "gpt-5.4-mini"; "gpt-5.2"] =
    ["Claude-Sonnet-4-5-20250929"; "gpt-5.4"; "gpt-5.4-mini"].
Proof. by vm_compute. Qed.

(** The converse of the listing does not hold: a model that is offered under a spelling that
the check accepts is not listed. *)
Lemma allowed_model_is_not_listed :
  Allows ex_allowlist "models/gemini-2.5-pro" = true /\
  FilterForListing ex_allowlist ["models/gemini-2.5-pro"] = [].
Proof. by vm_compute. Qed.

Lemma listed_models_are_allowed_witness :
  "Claude-Sonnet-4-5-20250929" ∈ FilterForListing ex_allowlist ["claude-*"] /\
  Allows ex_allowlist "Claude-Sonnet-4-5-20250929" = true.
Proof.
  assert (Hin : "Claude-Sonnet-4-5-20250929" ∈ FilterForListing ex_allowlist ["claude-*"])
    by (vm_compute; left).
  split; [exact Hin|]. by apply (listed_models_are_allowed ex_allowlist ["claude-*"]).
Defined.

Definition ex_stored : GroupModelAllowlist :=
  mkAllowlist true ["Claude-Sonnet-4-5-20250929"; "gpt-5.4*"; "gemini-2.5-pro"].

Lemma stored_allowlist_means_the_same_witness :
  normalizeGroupModelAllowlist ex_allowlist = Ok ex_stored /\
  (forall model, Allows ex_stored model = Allows ex_allowlist model) /\
  normalizeGroupModelAllowlist ex_stored = Ok ex_stored /\ (Enabled ex_stored = true -> Models ex_stored <> []).
Proof.
  assert (Hn : normalizeGroupModelAllowlist ex_allowlist = Ok ex_stored) by by vm_compute.
  split; [exact Hn|]. by apply (stored_allowlist_means_the_same ex_allowlist ex_stored).
Defined.
