(* ===== verification/TimePricing.v ===== *)
(** * Prices by the time of day

The multipliers of [service/custom_channel_time_pricing.go]: periods of a day in the
time zone of a channel, each with its multiplier.  Prices and multipliers, float64 in
the code, are rationals. *)
From S2P Require Import Prelude GoText GoTime ModelNames.
From Stdlib Require Import Bool QArith Qround Qabs Lqa.

Local Open Scope string_scope.
Local Open Scope Z_scope.

(** ** Rationals *)

Definition Qltb (x y : Q) : bool := negb (Qle_bool y x).

Lemma Qltb_spec x y : Bool.reflect (x < y)%Q (Qltb x y).
Proof.
  unfold Qltb. destruct (Qle_bool y x) eqn:E; constructor.
  - apply Qle_bool_iff in E. lra.
  - apply Qnot_le_lt. intros H%Qle_bool_iff. congruence.
Qed.

(** [math.Round]: to the nearest integer, halves away from zero. *)
Definition Round (x : Q) : Z :=
  if Qltb x 0 then - Qfloor (- x + (1 # 2)) else Qfloor (x + (1 # 2)).

(** ** Configuration *)

Record ChannelTimePricingPeriod : Type := mkPeriod {
  StartTime : string;
  EndTime : string;
  period_Multiplier : Q
}.

Record ChannelTimePricing : Type := mkTimePricing {
  Timezone : string;
  WeekdaysOnly : bool;
  Periods : list ChannelTimePricingPeriod
}.

Record parsedChannelTimePeriod : Type := mkParsedPeriod {
  start : Z;
  end_ : Z;
  multiplier : Q
}.

(** The database of time zones: what is to be added to an instant to read its wall
clock in the zone of that name. *)
Class GoZones : Type := { LoadLocation : string -> option (Time -> Duration) }.

(** Two decimal digits. *)
Definition digits2 (a b : ascii) : option Z :=
  if is_digit a && is_digit b then Some (10 * (ascii_byte a - 48) + (ascii_byte b - 48)) else None.

Definition clock (h m s : option Z) : option Z :=
  match h, m, s with
  | Some h, Some m, Some s =>
      if (h <? 24) && (m <? 60) && (s <? 60) then Some (h * 60 * 60 + m * 60 + s) else None
  | _, _, _ => None
  end.

(** [time.Parse] of "15:04:05" or "15:04", for a value that [Format] gives back: the
fields have two digits each and nothing else follows. *)
Definition parse_clock (value : string) : option Z :=
  match value with
  | String h1 (String h2 (String ":" (String m1 (String m2 rest)))) =>
      match rest with
      | "" => clock (digits2 h1 h2) (digits2 m1 m2) (Some 0)
      | String ":" (String s1 (String s2 "")) => clock (digits2 h1 h2) (digits2 m1 m2) (digits2 s1 s2)
      | _ => None
      end
  | _ => None
  end.

Definition ErrTimeFormat : goerr := ErrMsg "time must use HH:mm or HH:mm:ss format".
Definition ErrMultiplierPositive : goerr := ErrMsg "multiplier must be finite and greater than 0".
Definition ErrMultiplierSmall : goerr := ErrMsg "multiplier must be at least 0.01".
Definition ErrMultiplierPlaces : goerr := ErrMsg "multiplier must have at most two decimal places".
Definition ErrStartEnd : goerr := ErrMsg "start time must be before end time".
Definition ErrPeriodsOverlap : goerr := ErrMsg "time pricing periods overlap".

Definition parseChannelTime (value : string) (atEnd : bool) : res Z :=
  if atEnd && (String.eqb value "00:00" || String.eqb value "00:00:00") then Ok (24 * 60 * 60)
  else match parse_clock value with Some t => Ok t | None => Err ErrTimeFormat end.

(** One turn of the first loop of [parseChannelTimePeriods]. *)
Definition parse_period (period : ChannelTimePricingPeriod) : res parsedChannelTimePeriod :=
  let m := period_Multiplier period in
  if Qle_bool m 0 then Err ErrMultiplierPositive
  else if Qltb m (1 # 100) then Err ErrMultiplierSmall
  else
    let scaled := (m * 100)%Q in
    if Qltb (1 # 1000000000) (Qabs (scaled - inject_Z (Round scaled))) then Err ErrMultiplierPlaces
    else match parseChannelTime (StartTime period) false with
    | Err e => Err e
    | Ok s =>
        match parseChannelTime (EndTime period) true with
        | Err e => Err e
        | Ok e =>
            if String.eqb (StartTime period) (EndTime period) || (e <=? s) then Err ErrStartEnd
            else Ok (mkParsedPeriod s e m)
        end
    end.

Fixpoint parse_each (periods : list ChannelTimePricingPeriod) : res (list parsedChannelTimePeriod) :=
  match periods with
  | [] => Ok []
  | period :: periods =>
      match parse_period period with
      | Err e => Err e
      | Ok p => match parse_each periods with Err e => Err e | Ok ps => Ok (p :: ps) end
      end
  end.

(** The second loop: a period that starts before the one before it has ended. *)
Fixpoint periods_overlap (sorted : list parsedChannelTimePeriod) : bool :=
  match sorted with
  | p :: (q :: _) as rest => (start q <? end_ p) || periods_overlap rest
  | _ => false
  end.

Definition starts_before (p q : parsedChannelTimePeriod) : bool := start p <? start q.

Definition parseChannelTimePeriods (periods : list ChannelTimePricingPeriod) : res (list parsedChannelTimePeriod) :=
  match parse_each periods with
  | Err e => Err e
  | Ok parsed =>
      let parsed := stable_sort starts_before parsed in
      if periods_overlap parsed then Err ErrPeriodsOverlap else Ok parsed
  end.

Section Zones.
Context `{GoUnicode, GoZones}.

(** The cache of locations holds what [time.LoadLocation] has answered for their names
and is left out. *)
Definition loadChannelTimePricingLocation (name : string) : res (Time -> Duration) :=
  if String.eqb (TrimSpace name) "" then Err (ErrMsg "timezone is required")
  else if String.eqb name "Local" then Err (ErrMsg "local is not a supported timezone")
  else match LoadLocation name with
  | Some location => Ok location
  | None => Err (ErrMsg "unknown time zone")
  end.

(** [None] is the nil error. *)
Definition validateChannelTimePricing (config : option ChannelTimePricing) : option goerr :=
  match config with
  | None => None
  | Some config =>
      match Periods config with
      | [] => None
      | periods =>
          match loadChannelTimePricingLocation (Timezone config) with
          | Err e => Some (ErrWrap "timezone" e)
          | Ok _ => match parseChannelTimePeriods periods with Err e => Some e | Ok _ => None end
          end
      end
  end.

Definition in_period (second : Z) (p : parsedChannelTimePeriod) : bool :=
  (start p <=? second) && (second <? end_ p).

(** The second of the day on the wall clock. *)
Definition second_of_day (local : Time) : Z := local mod Day / Second.

Definition MultiplierAt (config : option ChannelTimePricing) (at_ : Time) : Q :=
  match config with
  | None => 1
  | Some config' =>
      match Periods config' with
      | [] => 1
      | periods =>
          if IsZero at_ then 1
          else match validateChannelTimePricing config with
          | Some _ => 1
          | None =>
              match loadChannelTimePricingLocation (Timezone config') with
              | Err _ => 1
              | Ok location =>
                  match parseChannelTimePeriods periods with
                  | Err _ => 1
                  | Ok parsed =>
                      let local := Add at_ (location at_) in
                      if WeekdaysOnly config' && ((Weekday local =? 6) || (Weekday local =? 0)) then 1
                      else match find (in_period (second_of_day local)) parsed with
                      | Some p => multiplier p
                      | None => 1
                      end
                  end
              end
          end
      end
  end%Q.

End Zones.

(** ** Facts *)

(** A relation that composes over well-formed elements, checked between neighbours,
holds between any two. *)
Lemma neighbours_sorted {A} (P : A -> Prop) (R : A -> A -> Prop) l :
  (forall x y z, P y -> R x y -> R y z -> R x z) -> Forall P l -> Sorted R l -> StronglySorted R l.
Proof.
  intros HR HP HS. induction HS as [|x l HS IH Hx]; [constructor|]. inversion_clear HP as [|? ? Px Pl].
  specialize (IH Pl). constructor; [done|]. destruct Hx as [|y l Hxy]; [constructor|].
  apply StronglySorted_inv in IH as [_ Hy]. apply Forall_cons in Pl as [Py _]. constructor; [done|].
  eapply Forall_impl; [done|]. cbn. intros z Hz. by eapply HR.
Qed.

(** Two elements of such a list are the same or related, one way or the other. *)
Lemma sorted_apart {A} (R : A -> A -> Prop) l x y :
  StronglySorted R l -> x ∈ l -> y ∈ l -> x = y \/ R x y \/ R y x.
Proof.
  induction 1 as [|z l HS IH Hz]; [by intros ?%elem_of_nil|]. rewrite Forall_forall in Hz.
  intros [->|Hx]%elem_of_cons [->|Hy]%elem_of_cons; auto.
Qed.

(** The search for an element finds the only one that passes. *)
Lemma find_only {A} (p : A -> bool) l x :
  x ∈ l -> p x = true -> (forall y, y ∈ l -> p y = true -> y = x) -> find p l = Some x.
Proof.
  intros Hx Hp Honly. destruct (find p l) as [y|] eqn:E.
  - apply find_some in E as [Hy Hpy]. f_equal. apply Honly; [by apply list_elem_of_In|done].
  - apply list_elem_of_In in Hx. by rewrite (find_none _ _ E _ Hx) in Hp.
Qed.

#[export] Instance starts_before_weak : StrictWeak starts_before.
Proof.
  split; unfold starts_before; [intros x y | intros x y z]; rewrite ?Z.ltb_lt, ?Z.ltb_ge; lia.
Qed.

Definition proper_period (p : parsedChannelTimePeriod) : Prop :=
  start p < end_ p /\ (1 # 100 <= multiplier p)%Q.

Lemma parse_period_ok period p : parse_period period = Ok p ->
  proper_period p /\ multiplier p = period_Multiplier period.
Proof.
  unfold parse_period. destruct (Qle_bool _ _); [done|].
  destruct (Qltb_spec (period_Multiplier period) (1 # 100)) as [|Hm]; [done|].
  destruct (Qltb _ _); [done|]. destruct (parseChannelTime _ false); [|done].
  destruct (parseChannelTime _ true); [|done]. destruct (_ || _) eqn:E; [done|]. bool_prop.
  intros [= <-]. split; [split; cbn|done]; [lia|]. lra.
Qed.

Lemma parse_each_ok periods ps : parse_each periods = Ok ps ->
  Forall2 (fun period p => parse_period period = Ok p) periods ps.
Proof.
  revert ps. induction periods as [|period periods IH]; intros ps; cbn; [intros [= <-]; constructor|].
  destruct (parse_period period) eqn:E; [|done]. destruct (parse_each periods); [|done].
  intros [= <-]. constructor; [done|by apply IH].
Qed.

Lemma parsed_periods_proper periods ps : parse_each periods = Ok ps -> Forall proper_period ps.
Proof.
  intros H%parse_each_ok. induction H as [|x y l k Hxy _ IH]; constructor; [|done]. by apply parse_period_ok in Hxy as [? _].
Qed.

Lemma no_overlap_sorted ps : periods_overlap ps = false -> Sorted (fun p q => end_ p <= start q) ps.
Proof.
  induction ps as [|p [|q ps] IH]; cbn; [repeat constructor..|]. intros [Hpq Hrest]%orb_false_iff.
  bool_prop. constructor; [by apply IH|]. by constructor.
Qed.

(** The periods of a configuration that parses lie apart. *)
Lemma parsed_periods_apart periods parsed : parseChannelTimePeriods periods = Ok parsed ->
  exists ps, parse_each periods = Ok ps /\ parsed ≡ₚ ps /\ Forall proper_period parsed /\
    StronglySorted (fun p q => end_ p <= start q) parsed.
Proof.
  unfold parseChannelTimePeriods. destruct (parse_each periods) as [ps|] eqn:E; [|done].
  destruct (periods_overlap _) eqn:Eo; [done|]. intros [= <-]. exists ps. split; [done|].
  pose proof (stable_sort_perm starts_before ps) as Hp. split; [done|].
  assert (HF : Forall proper_period (stable_sort starts_before ps)).
  { rewrite Hp. by eapply parsed_periods_proper. }
  split; [done|]. apply (neighbours_sorted proper_period); [|done|by apply no_overlap_sorted].
  intros x y z [Hy _]. lia.
Qed.

Section Multipliers.
Context `{GoUnicode, GoZones}.

(** The period that a local second of the day lies in decides the multiplier of a
valid configuration, in whatever order the periods are stored: on the days on which the
configuration applies it is that period's multiplier.  Valid periods never compete. *)
Theorem period_multiplier_applies config location at_ period p :
  validateChannelTimePricing (Some config) = None -> loadChannelTimePricingLocation (Timezone config) = Ok location ->
  IsZero at_ = false -> (WeekdaysOnly config = false \/ 1 <= Weekday (Add at_ (location at_)) <= 5) ->
  period ∈ Periods config -> parse_period period = Ok p ->
  in_period (second_of_day (Add at_ (location at_))) p = true ->
  MultiplierAt (Some config) at_ = period_Multiplier period.
Proof.
  intros Hv Hl Hz Hd Hin Hp Hs. unfold MultiplierAt. rewrite Hz, Hv, Hl. cbn in Hv. rewrite Hl in Hv.
  destruct (Periods config) as [|period0 periods] eqn:EP; [by apply elem_of_nil in Hin|].
  destruct (parseChannelTimePeriods _) as [parsed|] eqn:Ep; [|done].
  assert (Hday : WeekdaysOnly config && ((Weekday (Add at_ (location at_)) =? 6) || (Weekday (Add at_ (location at_)) =? 0)) = false).
  { destruct Hd as [->|Hd]; [done|]. apply andb_false_iff. right. apply orb_false_iff. rewrite !Z.eqb_neq. lia. }
  rewrite Hday.
  apply parsed_periods_apart in Ep as (ps & Hps & Hperm & HF & HS).
  apply parse_each_ok in Hps. destruct (proj1 (list_elem_of_lookup _ _) Hin) as [i Hi].
  destruct (Forall2_lookup_l _ _ _ _ _ Hps Hi) as (p' & Hp'i & Hp'). rewrite Hp in Hp'. injection Hp' as <-.
  assert (Hpin : p ∈ parsed) by (rewrite Hperm; by eapply list_elem_of_lookup_2).
  rewrite (find_only _ _ p); [by apply parse_period_ok in Hp as [_ ?]|done..|].
  intros q Hq Hqs. unfold in_period in *. bool_prop.
  destruct (sorted_apart _ _ _ _ HS Hq Hpin) as [?|[?|?]]; [done|lia..].
Qed.

(** Whatever is stored, time can neither make a request free nor turn its price. *)
Theorem time_multiplier_bounded config at_ : (1 # 100 <= MultiplierAt config at_)%Q.
Proof.
  unfold MultiplierAt. destruct config as [config|]; [|done]. destruct (Periods config) as [|p0 ps0] eqn:EP; [done|].
  destruct (IsZero _); [done|]. destruct (validateChannelTimePricing _); [done|].
  destruct (loadChannelTimePricingLocation _); [|done].
  destruct (parseChannelTimePeriods _) as [parsed|] eqn:Ep; [|done]. destruct (_ && _); [done|].
  destruct (find _ _) as [p|] eqn:Ef; [|done]. apply find_some in Ef as [Hin%list_elem_of_In _].
  apply parsed_periods_apart in Ep as (_ & _ & _ & HF & _). rewrite Forall_forall in HF. by apply HF in Hin as [_ ?].
Qed.

End Multipliers.

(** ** Examples *)

Definition shanghai : GoZones := {| LoadLocation name :=
  if String.eqb name "Asia/Shanghai" then Some (fun _ => 8 * Hour) else if String.eqb name "UTC" then Some (fun _ => 0) else None |}.

Definition night : ChannelTimePricing := mkTimePricing "Asia/Shanghai" true
  [mkPeriod "22:30" "00:00" (1 # 2); mkPeriod "09:00" "12:00:30" (3 # 2)].

Example night_is_valid : @validateChannelTimePricing AsciiUnicode shanghai (Some night) = None.
Proof. by vm_compute. Qed.

Example mornings_cost_more : map (@MultiplierAt AsciiUnicode shanghai (Some night))
    [Hour; 4 * Hour; 4 * Hour + 30 * Second; 15 * Hour; 5 * Day + 2 * Hour] = [(3 # 2); (3 # 2); 1; (1 # 2); 1]%Q.
Proof. by vm_compute. Qed.

Lemma period_multiplier_applies_witness :
  @MultiplierAt AsciiUnicode shanghai (Some night) (15 * Hour) = (1 # 2)%Q.
Proof.
  refine (@period_multiplier_applies AsciiUnicode shanghai night (fun _ => 8 * Hour) (15 * Hour)
    (mkPeriod "22:30" "00:00" (1 # 2)) (mkParsedPeriod 81000 86400 (1 # 2)) _ _ _ _ _ _ _);
    [by vm_compute..| | | |by vm_compute].
  - right. vm_compute. by split.
  - left.
  - by vm_compute.
Defined.
