(* ===== verification/ChannelPricing.v ===== *)
(** * The prices of a channel

The price cards of [service/channel.go] and what [service/channel_service.go] checks
before it stores them: intervals of tokens that do not overlap, patterns of model names
that do not compete, prices that are not negative.  The columns of identity and
bookkeeping of the rows are left out, and the texts of errors are abbreviated. *)
From S2P Require Import Prelude GoText GoTime ModelNames TimePricing.
From Stdlib Require Import Bool QArith Lqa.

Local Open Scope string_scope.
Local Open Scope Z_scope.

(** ** Data *)

Definition BillingModeToken := "token".
Definition BillingModePerRequest := "per_request".
Definition BillingModeImage := "image".
Definition BillingModeVideo := "video".

Definition BillingMode_IsValid (m : string) : bool :=
  existsb (String.eqb m) [BillingModeToken; BillingModePerRequest; BillingModeImage; BillingModeVideo; ""].

(** The modes that count requests instead of tokens. *)
Definition counts_requests (m : string) : bool :=
  String.eqb m BillingModePerRequest || String.eqb m BillingModeImage || String.eqb m BillingModeVideo.

Record PricingInterval : Type := mkInterval {
  MinTokens : Z;
  MaxTokens : option Z;
  TierLabel : string;
  iv_InputPrice : option Q;
  iv_OutputPrice : option Q;
  iv_CacheWritePrice : option Q;
  iv_CacheWrite1hPrice : option Q;
  iv_CacheReadPrice : option Q;
  iv_InputMultiplier : option Q;
  iv_OutputMultiplier : option Q;
  iv_CacheWriteMultiplier : option Q;
  iv_CacheReadMultiplier : option Q;
  iv_PerRequestPrice : option Q
}.

Record ChannelModelPricing : Type := mkCard {
  cp_Platform : string;
  cp_Models : list string;
  cp_BillingMode : string;
  cp_InputPrice : option Q;
  cp_OutputPrice : option Q;
  cp_CacheWritePrice : option Q;
  cp_CacheWrite1hPrice : option Q;
  cp_CacheReadPrice : option Q;
  cp_FastMultiplier : option Q;
  cp_FlexMultiplier : option Q;
  cp_MaxReasoningEffortMultiplier : option Q;
  cp_ImageInputPrice : option Q;
  cp_ImageOutputPrice : option Q;
  cp_PerRequestPrice : option Q;
  cp_Intervals : list PricingInterval;
  cp_TimePricing : option ChannelTimePricing
}.

(** ** Intervals *)

Definition in_interval (totalTokens : Z) (iv : PricingInterval) : bool :=
  (MinTokens iv <? totalTokens) &&
  match MaxTokens iv with None => true | Some m => totalTokens <=? m end.

Definition FindMatchingInterval (intervals : list PricingInterval) (totalTokens : Z) : option PricingInterval :=
  find (in_interval totalTokens) intervals.

Definition GetIntervalForContext (p : ChannelModelPricing) (totalTokens : Z) : option PricingInterval :=
  FindMatchingInterval (cp_Intervals p) totalTokens.

Definition is_set (q : option Q) : bool := match q with Some _ => true | None => false end.
Definition negative (q : option Q) : bool := match q with Some q => Qltb q 0 | None => false end.
Definition not_positive (q : option Q) : bool := match q with Some q => Qle_bool q 0 | None => false end.

Definition iv_prices (iv : PricingInterval) : list (option Q) :=
  [iv_InputPrice iv; iv_OutputPrice iv; iv_CacheWritePrice iv; iv_CacheWrite1hPrice iv;
   iv_CacheReadPrice iv; iv_PerRequestPrice iv].
Definition iv_multipliers (iv : PricingInterval) : list (option Q) :=
  [iv_InputMultiplier iv; iv_OutputMultiplier iv; iv_CacheWriteMultiplier iv; iv_CacheReadMultiplier iv].

(** Whether an interval has any of its price fields. *)
Definition interval_has_value (iv : PricingInterval) : bool :=
  existsb is_set (iv_prices iv) || existsb is_set (iv_multipliers iv).

Definition validateIntervalPrices (iv : PricingInterval) : option goerr :=
  if existsb negative (iv_prices iv) then Some (ErrMsg "interval price must be >= 0")
  else if existsb not_positive (iv_multipliers iv) then Some (ErrMsg "interval multiplier must be > 0")
  else None.

Definition validateSingleInterval (iv : PricingInterval) : option goerr :=
  if MinTokens iv <? 0 then Some (ErrMsg "min_tokens must be >= 0")
  else match MaxTokens iv with
  | Some m =>
      if m <=? 0 then Some (ErrMsg "max_tokens must be > 0")
      else if m <=? MinTokens iv then Some (ErrMsg "max_tokens must be > min_tokens")
      else validateIntervalPrices iv
  | None => validateIntervalPrices iv
  end.

(** The loop of [validateIntervalOverlap], with the interval before. *)
Fixpoint overlap_from (prev : option PricingInterval) (sorted : list PricingInterval) : option goerr :=
  match sorted with
  | [] => None
  | iv :: rest =>
      if negb (bool_decide (is_Some (MaxTokens iv))) && negb (match rest with [] => true | _ => false end)
      then Some (ErrMsg "unbounded interval must be the last one")
      else match prev with
      | None => overlap_from (Some iv) rest
      | Some p =>
          if match MaxTokens p with None => true | Some m => MinTokens iv <? m end
          then Some (ErrMsg "intervals overlap")
          else overlap_from (Some iv) rest
      end
  end.

Definition validateIntervalOverlap (sorted : list PricingInterval) : option goerr := overlap_from None sorted.

(** The first error of a loop. *)
Fixpoint first_error {A} (check : A -> option goerr) (l : list A) : option goerr :=
  match l with
  | [] => None
  | x :: l => match check x with Some e => Some e | None => first_error check l end
  end.

Definition min_below (a b : PricingInterval) : bool := MinTokens a <? MinTokens b.

(** [sort.Slice] may permute intervals with the same lower bound; since these overlap,
only the text of an error depends on it. *)
Definition ValidateIntervals (intervals : list PricingInterval) (mode : string) : option goerr :=
  match intervals with
  | [] => None
  | _ =>
      let sorted := stable_sort min_below intervals in
      match first_error validateSingleInterval sorted with
      | Some e => Some e
      | None => if counts_requests mode then None else validateIntervalOverlap sorted
      end
  end.

(** ** Patterns of model names *)

Section Names.
Context `{GoUnicode}.

Definition normalizeChannelPricingModelName (model : string) : string :=
  let model := ToLower (TrimSpace model) in
  if HasPrefix model "claude-" then ReplaceAll model "." "-" else model.

Definition splitWildcardSuffix (pattern : string) : string * bool :=
  if HasSuffix pattern "*" then (TrimSuffix pattern "*", true) else (pattern, false).

Record modelEntry : Type := mkEntry { prefix : string; wildcard : bool }.

Definition conflictsBetween (a b : modelEntry) : bool :=
  if wildcard a then
    if wildcard b then HasPrefix (prefix a) (prefix b) || HasPrefix (prefix b) (prefix a)
    else HasPrefix (prefix b) (prefix a)
  else
    if wildcard b then HasPrefix (prefix a) (prefix b)
    else String.eqb (prefix a) (prefix b).

Definition toModelEntry (pattern : string) : modelEntry :=
  let '(p, wild) := splitWildcardSuffix (ToLower pattern) in mkEntry p wild.

Definition toPricingModelEntry (pattern : string) : modelEntry :=
  let '(p, wild) := splitWildcardSuffix pattern in mkEntry (normalizeChannelPricingModelName p) wild.

Fixpoint detectConflicts (entries : list modelEntry) : bool :=
  match entries with
  | [] => false
  | e :: entries => existsb (conflictsBetween e) entries || detectConflicts entries
  end.

(** [byPlatform[platform]] *)
Definition platform_entries (platform : string) (pricingList : list ChannelModelPricing) : list modelEntry :=
  flat_map (fun p => if String.eqb (cp_Platform p) platform then map toPricingModelEntry (cp_Models p) else [])
    pricingList.

Definition ErrModelPatternConflict : goerr := ErrApp 400 "MODEL_PATTERN_CONFLICT".
Definition ErrMappingPatternConflict : goerr := ErrApp 400 "MAPPING_PATTERN_CONFLICT".
Definition ErrInvalidIntervals : goerr := ErrApp 400 "INVALID_PRICING_INTERVALS".
Definition ErrModeMissingPrice : goerr := ErrApp 400 "BILLING_MODE_MISSING_PRICE".
Definition ErrNegativePrice : goerr := ErrApp 400 "NEGATIVE_PRICE".
Definition ErrInvalidMultiplier : goerr := ErrApp 400 "INVALID_MULTIPLIER".
Definition ErrIntervalMissingPrice : goerr := ErrApp 400 "INTERVAL_MISSING_PRICE".
Definition ErrTimePricingMode : goerr := ErrApp 400 "TIME_PRICING_UNSUPPORTED_MODE".
Definition ErrInvalidTimePricing : goerr := ErrApp 400 "INVALID_TIME_PRICING".
Definition ErrAccountStatsTimePricing : goerr := ErrApp 400 "ACCOUNT_STATS_TIME_PRICING_UNSUPPORTED".

(** The errors of the platforms have one code, so the order of Go's map does not show. *)
Definition validateNoConflictingModels (pricingList : list ChannelModelPricing) : option goerr :=
  if existsb (fun p => detectConflicts (platform_entries (cp_Platform p) pricingList)) pricingList
  then Some ErrModelPatternConflict else None.

(** The mapping of a channel: platforms, each with its sources and targets, as one order
of iteration lists them. *)
Definition ModelMapping : Type := list (string * list (string * string)).

Definition validateNoConflictingMappings (mapping : ModelMapping) : option goerr :=
  if existsb (fun pm => detectConflicts (map (fun st => toModelEntry st.1) pm.2)) mapping
  then Some ErrMappingPatternConflict else None.

Definition validatePricingIntervals (pricingList : list ChannelModelPricing) : option goerr :=
  first_error (fun p => match ValidateIntervals (cp_Intervals p) (cp_BillingMode p) with
    Some _ => Some ErrInvalidIntervals | None => None end) pricingList.

Definition checkBillingModeRequirements (p : ChannelModelPricing) : option goerr :=
  if counts_requests (cp_BillingMode p) && negb (is_set (cp_PerRequestPrice p)) &&
     match cp_Intervals p with [] => true | _ => false end
  then Some ErrModeMissingPrice else None.

Definition cp_prices (p : ChannelModelPricing) : list (option Q) :=
  [cp_InputPrice p; cp_OutputPrice p; cp_CacheWritePrice p; cp_CacheWrite1hPrice p; cp_CacheReadPrice p;
   cp_ImageInputPrice p; cp_ImageOutputPrice p; cp_PerRequestPrice p].

Definition checkPricesNotNegative (p : ChannelModelPricing) : option goerr :=
  if existsb negative (cp_prices p) then Some ErrNegativePrice
  else if existsb not_positive [cp_FastMultiplier p; cp_FlexMultiplier p] then Some ErrInvalidMultiplier
  else None.

Definition checkIntervalsHavePrices (p : ChannelModelPricing) : option goerr :=
  if forallb interval_has_value (cp_Intervals p) then None else Some ErrIntervalMissingPrice.

Definition validatePricingBillingMode (pricing : list ChannelModelPricing) : option goerr :=
  first_error (fun p =>
    match checkBillingModeRequirements p with
    | Some e => Some e
    | None => match checkPricesNotNegative p with Some e => Some e | None => checkIntervalsHavePrices p end
    end) pricing.

Definition set_TimePricing (p : ChannelModelPricing) (t : option ChannelTimePricing) : ChannelModelPricing :=
  mkCard (cp_Platform p) (cp_Models p) (cp_BillingMode p) (cp_InputPrice p) (cp_OutputPrice p)
    (cp_CacheWritePrice p) (cp_CacheWrite1hPrice p) (cp_CacheReadPrice p) (cp_FastMultiplier p)
    (cp_FlexMultiplier p) (cp_MaxReasoningEffortMultiplier p) (cp_ImageInputPrice p) (cp_ImageOutputPrice p)
    (cp_PerRequestPrice p) (cp_Intervals p) t.

Context `{GoZones}.

(** The loop of [validatePricingTimePricing], which drops configurations without periods
from the cards it is given. *)
Fixpoint validatePricingTimePricing (pricing : list ChannelModelPricing) : res (list ChannelModelPricing) :=
  match pricing with
  | [] => Ok []
  | p :: pricing =>
      match match cp_TimePricing p with
            | None => Ok p
            | Some config =>
                match Periods config with
                | [] => Ok (set_TimePricing p None)
                | _ =>
                    if negb (String.eqb (cp_BillingMode p) "") && negb (String.eqb (cp_BillingMode p) BillingModeToken)
                    then Err ErrTimePricingMode
                    else match validateChannelTimePricing (Some config) with
                         | Some _ => Err ErrInvalidTimePricing
                         | None => Ok p
                         end
                end
            end with
      | Err e => Err e
      | Ok p => match validatePricingTimePricing pricing with Err e => Err e | Ok ps => Ok (p :: ps) end
      end
  end.

Definition validatePricingEntries (pricing : list ChannelModelPricing) : res (list ChannelModelPricing) :=
  match validateNoConflictingModels pricing with
  | Some e => Err e
  | None =>
      match validatePricingIntervals pricing with
      | Some e => Err e
      | None =>
          match validatePricingBillingMode pricing with
          | Some e => Err e
          | None => validatePricingTimePricing pricing
          end
      end
  end.

Definition validateChannelConfig (pricing : list ChannelModelPricing) (mapping : ModelMapping) :
    res (list ChannelModelPricing) :=
  match validatePricingEntries pricing with
  | Err e => Err e
  | Ok pricing => match validateNoConflictingMappings mapping with Some e => Err e | None => Ok pricing end
  end.

(** The cards of each rule, as the validation leaves them. *)
Fixpoint validateAccountStatsPricingRules (rules : list (list ChannelModelPricing)) :
    res (list (list ChannelModelPricing)) :=
  match rules with
  | [] => Ok []
  | rule :: rules =>
      if existsb (fun p => match cp_TimePricing p with Some t => negb (match Periods t with [] => true | _ => false end)
                           | None => false end) rule
      then Err (ErrWrap "account stats pricing rule" ErrAccountStatsTimePricing)
      else match validatePricingEntries rule with
      | Err e => Err (ErrWrap "account stats pricing rule" e)
      | Ok rule => match validateAccountStatsPricingRules rules with Err e => Err e | Ok rs => Ok (rule :: rs) end
      end
  end.

End Names.

(** ** Facts *)

#[export] Instance min_below_weak : StrictWeak min_below.
Proof.
  split; unfold min_below; [intros x y | intros x y z]; rewrite ?Z.ltb_lt, ?Z.ltb_ge; lia.
Qed.

Lemma first_error_none {A} (check : A -> option goerr) l :
  first_error check l = None <-> Forall (fun x => check x = None) l.
Proof.
  induction l as [|x l IH]; cbn; [split; [constructor|done]|].
  destruct (check x) eqn:E; [split; [done|by intros [? _]%Forall_cons; congruence]|].
  rewrite IH, Forall_cons. tauto.
Qed.

(** [before]: an interval ends where another begins, or earlier. *)
Definition before (a b : PricingInterval) : Prop := exists m, MaxTokens a = Some m /\ m <= MinTokens b.
Definition proper_interval (iv : PricingInterval) : Prop := forall m, MaxTokens iv = Some m -> MinTokens iv < m.

Lemma single_proper iv : validateSingleInterval iv = None -> proper_interval iv /\ validateIntervalPrices iv = None.
Proof.
  unfold validateSingleInterval. case_Z; [done|]. unfold proper_interval. destruct (MaxTokens iv) as [m|]; [|done].
  repeat case_Z; [done..|]. intros Hp. split; [|done]. intros m' [= <-]. lia.
Qed.

Lemma overlap_none prev l : overlap_from prev l = None ->
  Sorted before l /\ match prev with None => True | Some p => HdRel before p l end.
Proof.
  revert prev. induction l as [|iv rest IH]; intros prev; cbn; [destruct prev; repeat constructor|].
  destruct (_ && _); [done|]. destruct prev as [p|].
  - unfold before. destruct (MaxTokens p) as [m|] eqn:Em; [|done]. case_Z; [done|]. intros [HS Hd]%IH.
    repeat constructor; [done..|]. by exists m.
  - intros [HS Hd]%IH. by repeat constructor.
Qed.

Lemma before_excludes n a b : before a b -> in_interval n a = true -> in_interval n b = true -> False.
Proof. intros (m & Hm & Hab) Ha Hb. unfold in_interval in *. rewrite Hm in Ha. bool_prop. lia. Qed.

(** The intervals of a card that counts tokens, once validated, do not compete: the
interval in which a number of tokens lies is the one that the search finds, in whatever
order the intervals have been stored. *)
Theorem validated_interval_is_found intervals mode iv totalTokens :
  ValidateIntervals intervals mode = None -> counts_requests mode = false ->
  iv ∈ intervals -> in_interval totalTokens iv = true ->
  FindMatchingInterval intervals totalTokens = Some iv.
Proof.
  intros Hv Hmode Hin Hn. unfold ValidateIntervals in Hv.
  destruct intervals as [|iv0 ivs] eqn:EI; [by apply elem_of_nil in Hin|]. rewrite <- EI in *. clear EI iv0 ivs.
  rewrite Hmode in Hv. pose proof (stable_sort_perm min_below intervals) as Hp.
  destruct (first_error _ _) eqn:Ef; [done|]. apply first_error_none in Ef. apply overlap_none in Hv as [HS _].
  apply (neighbours_sorted proper_interval) in HS.
  - apply find_only; [done..|]. intros y Hy Hyn. rewrite <- Hp in Hin, Hy.
    destruct (sorted_apart _ _ _ _ HS Hy Hin) as [?|[Hb|Hb]]; [done|exfalso; by eapply before_excludes..].
  - intros x y z Hy (m & Hm & Hxy) (k & Hk & Hyz). specialize (Hy _ Hk). exists m. split; [done|]. lia.
  - eapply Forall_impl; [exact Ef|]. cbn. intros x Hx. by apply single_proper in Hx as [? _].
Qed.

Lemma prefix_of_both m p q : HasPrefix m p = true -> HasPrefix m q = true ->
  HasPrefix p q = true \/ HasPrefix q p = true.
Proof.
  revert m q. induction p as [|a p IH]; intros m q; [by right; destruct q|].
  destruct q as [|b q]; [by left|]. destruct m as [|c m]; [done|]. cbn. intros [Ha Hp]%andb_true_iff [Hb Hq]%andb_true_iff.
  apply Ascii.eqb_eq in Ha as ->, Hb as ->. rewrite Ascii.eqb_refl. by apply (IH m).
Qed.

(** A name falls under an entry. *)
Definition entry_covers (name : string) (e : modelEntry) : bool :=
  if wildcard e then HasPrefix name (prefix e) else String.eqb name (prefix e).

Lemma covered_conflict name a b : entry_covers name a = true -> entry_covers name b = true ->
  conflictsBetween a b = true.
Proof.
  unfold entry_covers, conflictsBetween. destruct (wildcard a), (wildcard b); intros Ha Hb; bool_prop; subst; try done.
  - apply orb_true_iff. by eapply prefix_of_both.
  - by apply String.eqb_eq.
Qed.

(** Without conflicts a name falls under one entry of a list at most. *)
Lemma covered_once name entries i j a b : detectConflicts entries = false ->
  entries !! i = Some a -> entries !! j = Some b -> entry_covers name a = true -> entry_covers name b = true -> i = j.
Proof.
  revert i j. induction entries as [|e entries IH]; intros i j Hd Hi Hj Ha Hb; [done|].
  cbn in Hd. apply orb_false_iff in Hd as [He Hd].
  assert (Hno : forall c, c ∈ entries -> entry_covers name e = true -> entry_covers name c = true -> False).
  { intros c Hc Hce Hcc. rewrite <- not_true_iff_false in He. apply He, existsb_exists. exists c.
    split; [by apply list_elem_of_In|]. by eapply covered_conflict. }
  destruct i as [|i], j as [|j]; cbn in Hi, Hj; [done|..].
  - injection Hi as ->. exfalso. eapply Hno; [by eapply list_elem_of_lookup_2|done..].
  - injection Hj as ->. exfalso. eapply Hno; [by eapply list_elem_of_lookup_2|done..].
  - f_equal. by eapply IH.
Qed.

(** ** Examples *)

Definition plain_interval (lo : Z) (hi : option Z) (price : Q) : PricingInterval :=
  mkInterval lo hi "" (Some price) None None None None None None None None None.

Definition three_tiers : list PricingInterval :=
  [plain_interval 200000 None (3 # 1); plain_interval 0 (Some 32000) (1 # 1); plain_interval 32000 (Some 200000) (2 # 1)].

Example tiers_are_left_open : ValidateIntervals three_tiers "" = None /\
  map (fun n => iv ← FindMatchingInterval three_tiers n; iv_InputPrice iv) [0; 1; 32000; 32001; 200001] =
  [None; Some (1 # 1); Some (1 # 1); Some (2 # 1); Some (3 # 1)]%Q.
Proof. by vm_compute. Qed.

Lemma validated_interval_is_found_witness :
  FindMatchingInterval three_tiers 32000 = Some (plain_interval 0 (Some 32000) (1 # 1)).
Proof.
  apply (validated_interval_is_found three_tiers BillingModeToken); [by vm_compute..| |by vm_compute].
  right. left.
Defined.
