(* ===== verification/ChannelCache.v ===== *)
(** * The cache of channels

The snapshot of all channels that [service/channel_service.go] keeps in memory: how it
is built from the rows, how long it serves, and how prices, mappings and restrictions of
a model are looked up in it.  The rows behind the pointers of the cache are not changed
once it is built, so they are values here. *)
From S2P Require Import Prelude GoText GoTime Composite ModelNames ModelAllowlist TimePricing ChannelPricing.
From Stdlib Require Import Bool QArith.

Local Open Scope string_scope.
Local Open Scope Z_scope.

(** ** Data *)

Definition StatusActive := "active".
Definition BillingModelSourceChannelMapped := "channel_mapped".

Record Channel : Type := mkChannel {
  ch_ID : Z;
  ch_Status : string;
  ch_BillingModelSource : string;
  ch_RestrictModels : bool;
  ch_GroupIDs : list Z;
  ch_ModelPricing : list ChannelModelPricing;
  ch_ModelMapping : ModelMapping
}.

Definition IsActive (c : Channel) : bool := String.eqb (ch_Status c) StatusActive.

Definition normalizeBillingModelSource (c : Channel) : Channel :=
  if String.eqb (ch_BillingModelSource c) ""
  then mkChannel (ch_ID c) (ch_Status c) BillingModelSourceChannelMapped (ch_RestrictModels c) (ch_GroupIDs c)
         (ch_ModelPricing c) (ch_ModelMapping c)
  else c.

(** [channelModelKey] and [channelGroupPlatformKey]. *)
Definition modelKey : Type := Z * string * string.
Definition platformKey : Type := Z * string.

Record channelCache : Type := mkCache {
  pricingByGroupModel : gmap modelKey ChannelModelPricing;
  wildcardByGroupPlatform : gmap platformKey (list (string * ChannelModelPricing));
  mappingByGroupModel : gmap modelKey string;
  wildcardMappingByGP : gmap platformKey (list (string * string));
  channelByGroupID : gmap Z Channel;
  groupPlatform : gmap Z string;
  byID : gmap Z Channel;
  loadedAt : Time
}.

Definition newEmptyChannelCache : channelCache := mkCache ∅ ∅ ∅ ∅ ∅ ∅ ∅ zeroTime.

Definition with_pricing (c : channelCache) p w : channelCache :=
  mkCache p w (mappingByGroupModel c) (wildcardMappingByGP c) (channelByGroupID c) (groupPlatform c) (byID c) (loadedAt c).
Definition with_mapping (c : channelCache) m w : channelCache :=
  mkCache (pricingByGroupModel c) (wildcardByGroupPlatform c) m w (channelByGroupID c) (groupPlatform c) (byID c) (loadedAt c).
Definition with_channel (c : channelCache) (gid : Z) (ch : Channel) : channelCache :=
  mkCache (pricingByGroupModel c) (wildcardByGroupPlatform c) (mappingByGroupModel c) (wildcardMappingByGP c)
    (<[gid := ch]> (channelByGroupID c)) (groupPlatform c) (byID c) (loadedAt c).
Definition with_id (c : channelCache) (ch : Channel) : channelCache :=
  mkCache (pricingByGroupModel c) (wildcardByGroupPlatform c) (mappingByGroupModel c) (wildcardMappingByGP c)
    (channelByGroupID c) (groupPlatform c) (<[ch_ID ch := ch]> (byID c)) (loadedAt c).

(** ** Building *)

Definition isPlatformPricingMatch (groupPlatform pricingPlatform : string) : bool :=
  if String.eqb groupPlatform PlatformComposite then isConcreteRequestPlatform pricingPlatform
  else String.eqb groupPlatform pricingPlatform.

Definition matchingPlatforms (groupPlatform : string) : list string :=
  if String.eqb groupPlatform PlatformComposite
  then [PlatformAnthropic; PlatformGemini; PlatformOpenAI; PlatformAntigravity; PlatformGrok; PlatformKimi;
        PlatformZhipu; PlatformDeepseek; PlatformMiniMax; PlatformOpenCodeGo; PlatformWorkbuddy; PlatformQoder;
        PlatformTrae]
  else [groupPlatform].

Section Cache.
Context `{GoUnicode}.

(** One pattern of a card. *)
Definition expand_model (gid : Z) (pricing : ChannelModelPricing) (cache : channelCache) (model : string) : channelCache :=
  if HasSuffix model "*" then
    let gpKey := (gid, cp_Platform pricing) in
    let entry := (normalizeChannelPricingModelName (TrimSuffix model "*"), pricing) in
    with_pricing cache (pricingByGroupModel cache)
      (<[gpKey := (default [] (wildcardByGroupPlatform cache !! gpKey) ++ [entry])%list]> (wildcardByGroupPlatform cache))
  else
    with_pricing cache
      (<[(gid, cp_Platform pricing, normalizeChannelPricingModelName model) := pricing]> (pricingByGroupModel cache))
      (wildcardByGroupPlatform cache).

Definition expand_card (gid : Z) (platform : string) (cache : channelCache) (pricing : ChannelModelPricing) : channelCache :=
  if isPlatformPricingMatch platform (cp_Platform pricing)
  then foldl (expand_model gid pricing) cache (cp_Models pricing) else cache.

Definition expandPricingToCache (cache : channelCache) (ch : Channel) (gid : Z) (platform : string) : channelCache :=
  foldl (expand_card gid platform) cache (ch_ModelPricing ch).

Definition expand_source (gid : Z) (mappingPlatform : string) (cache : channelCache) (st : string * string) : channelCache :=
  let '(src, dst) := st in
  if HasSuffix src "*" then
    let gpKey := (gid, mappingPlatform) in
    let entry := (ToLower (TrimSuffix src "*"), dst) in
    with_mapping cache (mappingByGroupModel cache)
      (<[gpKey := (default [] (wildcardMappingByGP cache !! gpKey) ++ [entry])%list]> (wildcardMappingByGP cache))
  else
    with_mapping cache (<[(gid, mappingPlatform, ToLower src) := dst]> (mappingByGroupModel cache))
      (wildcardMappingByGP cache).

Definition expand_platform (gid : Z) (mapping : ModelMapping) (cache : channelCache) (mappingPlatform : string) : channelCache :=
  match assoc mappingPlatform mapping with
  | None => cache
  | Some platformMapping => foldl (expand_source gid mappingPlatform) cache platformMapping
  end.

Definition expandMappingToCache (cache : channelCache) (ch : Channel) (gid : Z) (platform : string) : channelCache :=
  foldl (expand_platform gid (ch_ModelMapping ch)) cache (matchingPlatforms platform).

(** One group of a channel. *)
Definition populate_group (groupPlatforms : gmap Z string) (ch : Channel) (cache : channelCache) (gid : Z) : channelCache :=
  let platform := default "" (groupPlatforms !! gid) in
  expandMappingToCache (expandPricingToCache (with_channel cache gid ch) ch gid platform) ch gid platform.

Definition populate_channel (groupPlatforms : gmap Z string) (cache : channelCache) (ch : Channel) : channelCache :=
  let ch := normalizeBillingModelSource ch in
  foldl (populate_group groupPlatforms ch) (with_id cache ch) (ch_GroupIDs ch).

Definition populateChannelCache (now : Time) (channels : list Channel) (groupPlatforms : gmap Z string) : channelCache :=
  foldl (populate_channel groupPlatforms) (mkCache ∅ ∅ ∅ ∅ ∅ groupPlatforms ∅ now) channels.

(** ** Lookups *)

Definition matchWildcard (c : channelCache) (groupID : Z) (platform modelLower : string) : option ChannelModelPricing :=
  snd <$> find (fun wc => HasPrefix modelLower wc.1) (default [] (wildcardByGroupPlatform c !! (groupID, platform))).

Definition matchWildcardMapping (c : channelCache) (groupID : Z) (platform modelLower : string) : string :=
  default "" (snd <$> find (fun wc => HasPrefix modelLower wc.1) (default [] (wildcardMappingByGP c !! (groupID, platform)))).

(** The first answer of a loop over platforms. *)
Fixpoint first_some {A B} (f : A -> option B) (l : list A) : option B :=
  match l with
  | [] => None
  | x :: l => match f x with Some y => Some y | None => first_some f l end
  end.

Definition lookupPricingAcrossPlatforms (cache : channelCache) (groupID : Z) (groupPlatform modelLower : string) :
    option ChannelModelPricing :=
  let modelLower := normalizeChannelPricingModelName modelLower in
  match first_some (fun p => pricingByGroupModel cache !! (groupID, p, modelLower)) (matchingPlatforms groupPlatform) with
  | Some pricing => Some pricing
  | None => first_some (fun p => matchWildcard cache groupID p modelLower) (matchingPlatforms groupPlatform)
  end.

Definition lookupMappingAcrossPlatforms (cache : channelCache) (groupID : Z) (groupPlatform modelLower : string) : string :=
  match first_some (fun p => mappingByGroupModel cache !! (groupID, p, modelLower)) (matchingPlatforms groupPlatform) with
  | Some mapped => mapped
  | None =>
      default "" (first_some (fun p => let mapped := matchWildcardMapping cache groupID p modelLower in
        if String.eqb mapped "" then None else Some mapped) (matchingPlatforms groupPlatform))
  end.

(** ** The service

The context of a request is that of [Composite], with the key of a forced platform. *)
Definition ForcePlatform := "ctx_force_platform".

Definition channelLookupPlatform (ctx : Ctx) (groupPlatform : string) : string :=
  match StringFromContext ForcePlatform ctx with
  | Some forced => forced
  | None =>
      if String.eqb groupPlatform PlatformComposite
      then default groupPlatform (ResolvedTargetPlatformFromContext ctx) else groupPlatform
  end.

Definition channelCacheTTL : Duration := 10 * Minute.
Definition channelErrorTTL : Duration := 5 * Second.

(** What the repository answers to one rebuild: its channels, and the platforms of the
groups that it is then asked for. *)
Record Repository : Type := mkRepository {
  ListAll : res (list Channel);
  GetGroupPlatforms : list Z -> res (gmap Z string)
}.

(** The empty snapshot that stands in for a failed rebuild until [channelErrorTTL] has passed. *)
Definition errorCache (now : Time) : channelCache :=
  mkCache ∅ ∅ ∅ ∅ ∅ ∅ ∅ (Add now (- (channelCacheTTL - channelErrorTTL))).

Definition fetchChannelData (repo : Repository) : res (list Channel * gmap Z string) :=
  match ListAll repo with
  | Err e => Err (ErrWrap "list all channels" e)
  | Ok channels =>
      match flat_map ch_GroupIDs channels with
      | [] => Ok (channels, ∅)
      | allGroupIDs =>
          match GetGroupPlatforms repo allGroupIDs with
          | Err e => Err (ErrWrap "get group platforms" e)
          | Ok groupPlatforms => Ok (channels, groupPlatforms)
          end
      end
  end.

(** [now] is the instant at which the rebuild has read its rows, or has failed to; the
result is followed by the snapshot that is kept. *)
Definition buildCache (repo : Repository) (now : Time) : res channelCache * channelCache :=
  match fetchChannelData repo with
  | Err e => (Err e, errorCache now)
  | Ok (channels, groupPlatforms) =>
      let cache := populateChannelCache now channels groupPlatforms in (Ok cache, cache)
  end.

Definition fresh (now : Time) (cached : channelCache) : bool := Sub now (loadedAt cached) <? channelCacheTTL.

(** [loadCache] at the instant [now]; a rebuild, which concurrent callers share, ends at
[built]. *)
Definition loadCache (repo : Repository) (now built : Time) (cached : option channelCache) :
    res channelCache * option channelCache :=
  match cached with
  | Some c => if fresh now c then (Ok c, cached) else let '(r, c) := buildCache repo built in (r, Some c)
  | None => let '(r, c) := buildCache repo built in (r, Some c)
  end.

(** [invalidateCache]: the snapshot is dropped and built again. *)
Definition invalidateCache (repo : Repository) (built : Time) : option channelCache := Some (buildCache repo built).2.

(** [clearCache], also what a notification of another instance does. *)
Definition clearCache : option channelCache := None.

(** What [lookupGroupChannel] finds in a loaded snapshot. *)
Definition lookupGroupChannel (ctx : Ctx) (cache : channelCache) (groupID : Z) : option (Channel * string) :=
  match channelByGroupID cache !! groupID with
  | Some ch =>
      if IsActive ch then Some (ch, channelLookupPlatform ctx (default "" (groupPlatform cache !! groupID))) else None
  | None => None
  end.

Definition GetChannelForGroup (cache : res channelCache) (groupID : Z) : res (option Channel) :=
  match cache with
  | Err e => Err e
  | Ok cache =>
      match channelByGroupID cache !! groupID with
      | Some ch => Ok (if IsActive ch then Some ch else None)
      | None => Ok None
      end
  end.

Definition GetGroupPlatform (cache : res channelCache) (groupID : Z) : string :=
  match cache with Err _ => "" | Ok cache => default "" (groupPlatform cache !! groupID) end.

Definition GetChannelModelPricing (ctx : Ctx) (cache : res channelCache) (groupID : Z) (model : string) :
    option ChannelModelPricing :=
  match cache with
  | Err _ => None
  | Ok cache =>
      match lookupGroupChannel ctx cache groupID with
      | None => None
      | Some (_, platform) => lookupPricingAcrossPlatforms cache groupID platform (ToLower model)
      end
  end.

(** A card that has no price of its own. *)
Definition pricingNeedsFallback (p : option ChannelModelPricing) : bool :=
  match p with
  | None => true
  | Some p =>
      if existsb is_set [cp_InputPrice p; cp_OutputPrice p; cp_CacheWritePrice p; cp_CacheWrite1hPrice p;
           cp_CacheReadPrice p; cp_ImageOutputPrice p; cp_PerRequestPrice p] then false
      else negb (existsb (fun iv => existsb is_set (iv_prices iv)) (cp_Intervals p))
  end.

Definition HasChannelModelPricing (ctx : Ctx) (cache : res channelCache) (groupID : Z) (model : string) : bool :=
  match cache with
  | Err _ => false
  | Ok cache =>
      match lookupGroupChannel ctx cache groupID with
      | None => false
      | Some (_, platform) =>
          negb (pricingNeedsFallback (lookupPricingAcrossPlatforms cache groupID platform (ToLower model)))
      end
  end.

Record ChannelMappingResult : Type := mkMapping {
  MappedModel : string;
  map_ChannelID : Z;
  Mapped : bool;
  map_BillingModelSource : string
}.

Definition unmapped (model : string) : ChannelMappingResult := mkMapping model 0 false "".

Definition resolveMapping (cache : channelCache) (channel : Channel) (platform : string) (groupID : Z) (model : string) :
    ChannelMappingResult :=
  let mapped := lookupMappingAcrossPlatforms cache groupID platform (ToLower model) in
  if String.eqb mapped "" then mkMapping model (ch_ID channel) false (ch_BillingModelSource channel)
  else mkMapping mapped (ch_ID channel) true (ch_BillingModelSource channel).

Definition ResolveChannelMapping (ctx : Ctx) (cache : res channelCache) (groupID : Z) (model : string) :
    ChannelMappingResult :=
  match cache with
  | Err _ => unmapped model
  | Ok cache =>
      match lookupGroupChannel ctx cache groupID with
      | None => unmapped model
      | Some (ch, platform) => resolveMapping cache ch platform groupID model
      end
  end.

Definition checkRestricted (cache : channelCache) (channel : Channel) (platform : string) (groupID : Z) (model : string) : bool :=
  if negb (ch_RestrictModels channel) then false
  else match lookupPricingAcrossPlatforms cache groupID platform (ToLower model) with
  | Some _ => false
  | None => true
  end.

Definition IsModelRestricted (ctx : Ctx) (cache : res channelCache) (groupID : Z) (model : string) : bool :=
  match cache with
  | Err _ => false
  | Ok cache =>
      match lookupGroupChannel ctx cache groupID with
      | None => false
      | Some (ch, platform) => checkRestricted cache ch platform groupID model
      end
  end.

Definition ResolveChannelMappingAndRestrict (ctx : Ctx) (cache : res channelCache) (groupID : option Z)
    (model : string) : ChannelMappingResult * bool :=
  match groupID with
  | None => (unmapped model, false)
  | Some groupID => (ResolveChannelMapping ctx cache groupID model, false)
  end.

Definition arrow : string :=
  String (ascii_of_N 226) (String (ascii_of_N 134) (String (ascii_of_N 146) "")).

Definition BuildModelMappingChain (r : ChannelMappingResult) (reqModel upstreamModel : string) : string :=
  if negb (Mapped r) then
    if negb (String.eqb upstreamModel "") && negb (String.eqb upstreamModel reqModel)
    then reqModel +:+ arrow +:+ upstreamModel else ""
  else if negb (String.eqb upstreamModel "") && negb (String.eqb upstreamModel (MappedModel r))
  then reqModel +:+ arrow +:+ MappedModel r +:+ arrow +:+ upstreamModel
  else reqModel +:+ arrow +:+ MappedModel r.

Record ChannelUsageFields : Type := mkUsageFields {
  uf_ChannelID : Z;
  OriginalModel : string;
  ChannelMappedModel : string;
  uf_BillingModelSource : string;
  ModelMappingChain : string
}.

Definition ToUsageFields (r : ChannelMappingResult) (reqModel upstreamModel : string) : ChannelUsageFields :=
  mkUsageFields (map_ChannelID r) reqModel (if Mapped r then MappedModel r else reqModel)
    (map_BillingModelSource r) (BuildModelMappingChain r reqModel upstreamModel).

End Cache.
