(* ===== verification/ChannelLookups.v ===== *)
(** * What the cache of channels answers

The lookups of [ChannelCache] find the card, the mapping target and the restriction that
the rows of the channel say, and a snapshot serves for a bounded time. *)
From S2P Require Import Prelude GoText GoTime Composite ModelNames ModelAllowlist TimePricing ChannelPricing ChannelCache.
From Stdlib Require Import Bool QArith.

Local Open Scope string_scope.
Local Open Scope Z_scope.

(** ** Indexes

Prices and mappings are indexed alike: exact names in one map, prefixes in the lists of
another.  A row says under which group and platform an entry leads to a value. *)
Section Index.
Context {V : Type}.

Definition row : Type := platformKey * modelEntry * V.

Definition find_in (e : gmap modelKey V) (w : gmap platformKey (list (string * V))) (k : platformKey) (name : string) : option V :=
  match e !! (k, name) with
  | Some v => Some v
  | None => snd <$> find (fun wc => HasPrefix name wc.1) (default [] (w !! k))
  end.

Record indexed (e : gmap modelKey V) (w : gmap platformKey (list (string * V))) (rows : list row) : Prop := {
  exact_sound k name v : e !! (k, name) = Some v -> (k, mkEntry name false, v) ∈ rows;
  exact_complete k name v : (k, mkEntry name false, v) ∈ rows -> is_Some (e !! (k, name));
  wildcard_iff k p v : (p, v) ∈ default [] (w !! k) <-> (k, mkEntry p true, v) ∈ rows
}.

Lemma indexed_nil : indexed ∅ ∅ [].
Proof.
  split; intros k n v; [by rewrite lookup_empty|by intros ?%elem_of_nil|].
  rewrite lookup_empty. cbn. by rewrite !elem_of_nil.
Qed.

Lemma indexed_exact e w rows k name v :
  indexed e w rows -> indexed (<[(k, name) := v]> e) w (rows ++ [(k, mkEntry name false, v)])%list.
Proof.
  intros [Hs Hc Hw]. split; intros k' n' v'; rewrite ?elem_of_app, ?list_elem_of_singleton.
  - destruct (decide ((k, name) = (k', n'))) as [[= <- <-]|Hne].
    + rewrite lookup_insert_eq. intros [= ->]. by right.
    + rewrite lookup_insert_ne by done. intros ?%Hs. by left.
  - intros [Hr|[= -> -> ->]].
    + destruct (decide ((k, name) = (k', n'))) as [[= <- <-]|Hne]; [by rewrite lookup_insert_eq|].
      rewrite lookup_insert_ne by done. by eapply Hc.
    + by rewrite lookup_insert_eq.
  - rewrite Hw. split; [auto|]. by intros [?|[= ]].
Qed.

Lemma indexed_wildcard e w rows k p v :
  indexed e w rows ->
  indexed e (<[k := (default [] (w !! k) ++ [(p, v)])%list]> w) (rows ++ [(k, mkEntry p true, v)])%list.
Proof.
  intros [Hs Hc Hw]. split; intros k' n' v'; rewrite ?elem_of_app, ?list_elem_of_singleton.
  - intros ?%Hs. by left.
  - intros [Hr|[= ]]. by eapply Hc.
  - destruct (decide (k = k')) as [<-|Hne].
    + rewrite lookup_insert_eq. cbn. rewrite elem_of_app, list_elem_of_singleton, Hw.
      split; (intros [?|[= ]]; [by left|]); subst; by right.
    + rewrite lookup_insert_ne by done. rewrite Hw. split; [auto|]. intros [?|[= ]]; [done|congruence].
Qed.

Lemma find_in_sound e w rows k name v : indexed e w rows -> find_in e w k name = Some v ->
  exists entry, (k, entry, v) ∈ rows /\ entry_covers name entry = true.
Proof.
  intros [Hs _ Hw]. unfold find_in. destruct (e !! _) as [v'|] eqn:E.
  - intros [= ->]. exists (mkEntry name false). split; [by apply Hs|]. cbn. by apply String.eqb_eq.
  - destruct (find _ _) as [[p v']|] eqn:Ef; [|done]. intros [= ->].
    apply find_some in Ef as [Hin%list_elem_of_In Hp]. exists (mkEntry p true). split; [by apply Hw|done].
Qed.

Lemma find_in_complete e w rows k name entry v : indexed e w rows -> (k, entry, v) ∈ rows ->
  entry_covers name entry = true -> is_Some (find_in e w k name).
Proof.
  intros [_ Hc Hw] Hr Hcov. unfold find_in. destruct (e !! _) eqn:E; [done|].
  destruct entry as [p []]; cbn in Hcov.
  - apply Hw, list_elem_of_In in Hr. destruct (find _ _) eqn:Ef; [done|].
    by pose proof (find_none _ _ Ef _ Hr) as Hn; cbn in Hn; rewrite Hcov in Hn.
  - apply String.eqb_eq in Hcov as <-. apply Hc in Hr as [? Hr]. by rewrite Hr in E.
Qed.

End Index.
Arguments row V : clear implicits.

Section Lookups.
Context `{GoUnicode}.

(** ** The index of prices *)

Definition prices_indexed (c : channelCache) : list (row ChannelModelPricing) -> Prop :=
  indexed (pricingByGroupModel c) (wildcardByGroupPlatform c).
Definition mappings_indexed (c : channelCache) : list (row string) -> Prop :=
  indexed (mappingByGroupModel c) (wildcardMappingByGP c).

Lemma map_as_flat_map {A B} (f : A -> B) l : map f l = flat_map (fun x => [f x]) l.
Proof. induction l as [|x l IH]; [done|]. cbn. by rewrite IH. Qed.

(** A fold adds the rows of its elements. *)
Lemma foldl_indexed {A V} (I : channelCache -> list (row V) -> Prop) (f : channelCache -> A -> channelCache)
    (g : A -> list (row V)) l c rows :
  (forall c rows x, I c rows -> I (f c x) (rows ++ g x)%list) -> I c rows -> I (foldl f c l) (rows ++ flat_map g l)%list.
Proof.
  intros Hf. revert c rows. induction l as [|x l IH]; intros c rows Hc; cbn; [by rewrite app_nil_r|].
  rewrite app_assoc. apply IH. by apply Hf.
Qed.

Definition card_rows (gid : Z) (platform : string) (pricing : ChannelModelPricing) : list (row ChannelModelPricing) :=
  if isPlatformPricingMatch platform (cp_Platform pricing)
  then map (fun model => ((gid, cp_Platform pricing), toPricingModelEntry model, pricing)) (cp_Models pricing) else [].

Lemma expand_card_indexed gid platform c rows pricing : prices_indexed c rows ->
  prices_indexed (expand_card gid platform c pricing) (rows ++ card_rows gid platform pricing)%list.
Proof.
  intros Hc. unfold expand_card, card_rows. destruct (isPlatformPricingMatch _ _); [|by rewrite app_nil_r].
  rewrite map_as_flat_map.
  apply (foldl_indexed prices_indexed); [|done]. clear. intros c rows model Hc.
  unfold expand_model, toPricingModelEntry, splitWildcardSuffix. destruct (HasSuffix model "*");
    [by apply indexed_wildcard|by apply indexed_exact].
Qed.

Definition source_entry (src : string) : modelEntry :=
  if HasSuffix src "*" then mkEntry (ToLower (TrimSuffix src "*")) true else mkEntry (ToLower src) false.

Definition platform_rows (gid : Z) (mapping : ModelMapping) (mp : string) : list (row string) :=
  map (fun st => ((gid, mp), source_entry st.1, st.2)) (default [] (assoc mp mapping)).

Lemma expand_platform_indexed gid mapping c rows mp : mappings_indexed c rows ->
  mappings_indexed (expand_platform gid mapping c mp) (rows ++ platform_rows gid mapping mp)%list.
Proof.
  intros Hc. unfold expand_platform, platform_rows. destruct (assoc mp mapping) as [pm|]; [|cbn; by rewrite app_nil_r].
  cbn. rewrite map_as_flat_map. apply (foldl_indexed mappings_indexed); [|done]. clear.
  intros c rows [src dst] Hc. unfold expand_source, source_entry. cbn.
  destruct (HasSuffix src "*"); [by apply indexed_wildcard|by apply indexed_exact].
Qed.

(** ** Building keeps the index *)

Lemma foldl_keeps {A B} (p : channelCache -> B) (f : channelCache -> A -> channelCache) l c :
  (forall c x, p (f c x) = p c) -> p (foldl f c l) = p c.
Proof. intros Hf. revert c. induction l as [|x l IH]; intros c; [done|]. cbn. by rewrite IH, Hf. Qed.

Lemma pricing_keeps {B} (p : channelCache -> B) c ch gid platform :
  (forall c e w, p (with_pricing c e w) = p c) -> p (expandPricingToCache c ch gid platform) = p c.
Proof.
  intros Hp. apply foldl_keeps. clear c. intros c pricing. unfold expand_card. destruct (isPlatformPricingMatch _ _); [|done].
  apply foldl_keeps. intros c' model. unfold expand_model. by destruct (HasSuffix _ _).
Qed.

Lemma mapping_keeps {B} (p : channelCache -> B) c ch gid platform :
  (forall c e w, p (with_mapping c e w) = p c) -> p (expandMappingToCache c ch gid platform) = p c.
Proof.
  intros Hp. apply foldl_keeps. clear c. intros c mp. unfold expand_platform. destruct (assoc _ _); [|done].
  apply foldl_keeps. intros c' [src dst]. unfold expand_source. by destruct (HasSuffix _ _).
Qed.

Definition group_prices (gp : gmap Z string) (ch : Channel) (gid : Z) : list (row ChannelModelPricing) :=
  flat_map (card_rows gid (default "" (gp !! gid))) (ch_ModelPricing ch).
Definition group_sources (gp : gmap Z string) (ch : Channel) (gid : Z) : list (row string) :=
  flat_map (platform_rows gid (ch_ModelMapping ch)) (matchingPlatforms (default "" (gp !! gid))).

Lemma group_prices_indexed gp ch c rows gid : prices_indexed c rows ->
  prices_indexed (populate_group gp ch c gid) (rows ++ group_prices gp ch gid)%list.
Proof.
  intros Hc. unfold populate_group, prices_indexed.
  rewrite (mapping_keeps pricingByGroupModel), (mapping_keeps wildcardByGroupPlatform) by done.
  apply (foldl_indexed prices_indexed); [|done]. intros. by apply expand_card_indexed.
Qed.

Lemma group_sources_indexed gp ch c rows gid : mappings_indexed c rows ->
  mappings_indexed (populate_group gp ch c gid) (rows ++ group_sources gp ch gid)%list.
Proof.
  intros Hc. apply (foldl_indexed mappings_indexed); [intros; by apply expand_platform_indexed|].
  unfold mappings_indexed. rewrite (pricing_keeps mappingByGroupModel), (pricing_keeps wildcardMappingByGP) by done.
  exact Hc.
Qed.

Lemma normalized_same ch :
  ch_GroupIDs (normalizeBillingModelSource ch) = ch_GroupIDs ch /\
  ch_ModelPricing (normalizeBillingModelSource ch) = ch_ModelPricing ch /\
  ch_ModelMapping (normalizeBillingModelSource ch) = ch_ModelMapping ch /\
  ch_RestrictModels (normalizeBillingModelSource ch) = ch_RestrictModels ch /\
  ch_Status (normalizeBillingModelSource ch) = ch_Status ch /\ ch_ID (normalizeBillingModelSource ch) = ch_ID ch.
Proof. unfold normalizeBillingModelSource. by destruct (String.eqb _ _). Qed.

Lemma populated_prices now channels gp : prices_indexed (populateChannelCache now channels gp)
  (flat_map (fun ch => flat_map (group_prices gp ch) (ch_GroupIDs ch)) channels).
Proof.
  apply (foldl_indexed prices_indexed _ _ channels _ []); [|apply indexed_nil].
  intros c rows ch Hc. unfold populate_channel. destruct (normalized_same ch) as (-> & Hp & _).
  apply (foldl_indexed prices_indexed); [|exact Hc]. intros c' rows' gid Hc'.
  pose proof (group_prices_indexed gp (normalizeBillingModelSource ch) _ _ gid Hc') as HI.
  unfold group_prices in *. by rewrite Hp in HI.
Qed.

Lemma populated_sources now channels gp : mappings_indexed (populateChannelCache now channels gp)
  (flat_map (fun ch => flat_map (group_sources gp ch) (ch_GroupIDs ch)) channels).
Proof.
  apply (foldl_indexed mappings_indexed _ _ channels _ []); [|apply indexed_nil].
  intros c rows ch Hc. unfold populate_channel. destruct (normalized_same ch) as (-> & _ & Hm & _).
  apply (foldl_indexed mappings_indexed); [|exact Hc]. intros c' rows' gid Hc'.
  pose proof (group_sources_indexed gp (normalizeBillingModelSource ch) _ _ gid Hc') as HI.
  unfold group_sources in *. by rewrite Hm in HI.
Qed.

Lemma populated_platforms now channels gp : groupPlatform (populateChannelCache now channels gp) = gp.
Proof.
  unfold populateChannelCache. rewrite (foldl_keeps groupPlatform); [done|].
  intros c ch. unfold populate_channel. rewrite (foldl_keeps groupPlatform); [done|].
  intros c' gid. unfold populate_group. by rewrite mapping_keeps, pricing_keeps.
Qed.

Lemma populate_group_channel gp ch c gid :
  channelByGroupID (populate_group gp ch c gid) = <[gid := ch]> (channelByGroupID c).
Proof. unfold populate_group. by rewrite mapping_keeps, pricing_keeps. Qed.

Lemma populate_groups_channel gp ch gids c gid :
  channelByGroupID (foldl (populate_group gp ch) c gids) !! gid =
  if bool_decide (gid ∈ gids) then Some ch else channelByGroupID c !! gid.
Proof.
  revert c. induction gids as [|g gids IH]; intros c; cbn; [by rewrite bool_decide_eq_false_2 by apply not_elem_of_nil|].
  rewrite IH, populate_group_channel. destruct (decide (gid ∈ gids)).
  - by rewrite !bool_decide_eq_true_2 by (rewrite ?elem_of_cons; auto).
  - rewrite (bool_decide_eq_false_2 (gid ∈ gids)) by done. destruct (decide (g = gid)) as [->|].
    + rewrite lookup_insert_eq, bool_decide_eq_true_2; [done|]. by left.
    + rewrite lookup_insert_ne by done. rewrite bool_decide_eq_false_2; [done|].
      intros [?|?]%elem_of_cons; congruence.
Qed.

(** The channel of a group that belongs to one channel only. *)
Lemma populated_channel now channels gp ch gid :
  ch ∈ channels -> gid ∈ ch_GroupIDs ch -> (forall ch', ch' ∈ channels -> gid ∈ ch_GroupIDs ch' -> ch' = ch) ->
  channelByGroupID (populateChannelCache now channels gp) !! gid = Some (normalizeBillingModelSource ch).
Proof.
  intros Hin Hg. unfold populateChannelCache. generalize (mkCache ∅ ∅ ∅ ∅ ∅ gp ∅ now).
  induction channels as [|x channels IH] using rev_ind; intros c Honly; [by apply elem_of_nil in Hin|].
  rewrite foldl_app. cbn. unfold populate_channel. rewrite populate_groups_channel.
  destruct (normalized_same x) as (-> & _). destruct (decide (gid ∈ ch_GroupIDs x)) as [Hx|Hx].
  - rewrite bool_decide_eq_true_2 by done. rewrite (Honly x); [done| |done]. apply elem_of_app. right. by left.
  - rewrite bool_decide_eq_false_2 by done. cbn. apply elem_of_app in Hin as [Hin|Hin%list_elem_of_singleton]; [|congruence].
    apply IH; [done|]. intros ch' Hch'. apply Honly, elem_of_app. by left.
Qed.

(** Only its own channel has rows for such a group. *)
Lemma rows_of_group {V} (f : Channel -> Z -> list (row V)) channels ch k entry v :
  (forall c gid r, r ∈ f c gid -> r.1.1.1 = gid) ->
  (forall ch', ch' ∈ channels -> k.1 ∈ ch_GroupIDs ch' -> ch' = ch) -> ch ∈ channels -> k.1 ∈ ch_GroupIDs ch ->
  (k, entry, v) ∈ flat_map (fun ch => flat_map (f ch) (ch_GroupIDs ch)) channels <-> (k, entry, v) ∈ f ch k.1.
Proof.
  intros Hf Honly Hch Hk. rewrite list_elem_of_In, in_flat_map. setoid_rewrite in_flat_map. split.
  - intros (c & Hc%list_elem_of_In & gid & Hgid%list_elem_of_In & Hr%list_elem_of_In).
    pose proof (Hf _ _ _ Hr) as E. cbn in E. subst gid. by rewrite (Honly c Hc Hgid) in Hr.
  - intros Hr. exists ch. split; [by apply list_elem_of_In|]. exists k.1. split; by apply list_elem_of_In.
Qed.

(** ** Lookups *)

Definition sole_channel (channels : list Channel) (gid : Z) (ch : Channel) : Prop :=
  ch ∈ channels /\ gid ∈ ch_GroupIDs ch /\ forall ch', ch' ∈ channels -> gid ∈ ch_GroupIDs ch' -> ch' = ch.

(** A card names a model: one of its patterns covers the name. *)
Definition card_names (card : ChannelModelPricing) (model : string) : Prop :=
  exists pattern, pattern ∈ cp_Models card /\
    entry_covers (normalizeChannelPricingModelName (ToLower model)) (toPricingModelEntry pattern) = true.

Lemma concrete_platform q : q <> PlatformComposite -> matchingPlatforms q = [q].
Proof. intros Hq. unfold matchingPlatforms. by rewrite (proj2 (String.eqb_neq _ _)). Qed.

Lemma lookup_pricing_find c gid q name : q <> PlatformComposite ->
  lookupPricingAcrossPlatforms c gid q name =
  find_in (pricingByGroupModel c) (wildcardByGroupPlatform c) (gid, q) (normalizeChannelPricingModelName name).
Proof.
  intros Hq. unfold lookupPricingAcrossPlatforms, find_in, matchWildcard. rewrite concrete_platform by done. cbn.
  destruct (pricingByGroupModel c !! _); [done|]. by destruct (find _ _).
Qed.

Lemma lookup_mapping_find c gid q name : q <> PlatformComposite ->
  lookupMappingAcrossPlatforms c gid q name =
  default "" (find_in (mappingByGroupModel c) (wildcardMappingByGP c) (gid, q) name).
Proof.
  intros Hq. unfold lookupMappingAcrossPlatforms, find_in, matchWildcardMapping. rewrite concrete_platform by done. cbn.
  destruct (mappingByGroupModel c !! _); [done|]. destruct (find _ _) as [[p t]|]; cbn; [|done].
  by destruct (String.eqb_spec t "") as [->|].
Qed.

Lemma elem_of_group_prices gp ch gid gid' q entry card :
  ((gid', q), entry, card) ∈ group_prices gp ch gid <->
  gid' = gid /\ card ∈ ch_ModelPricing ch /\ q = cp_Platform card /\
  isPlatformPricingMatch (default "" (gp !! gid)) q = true /\
  exists pattern, pattern ∈ cp_Models card /\ entry = toPricingModelEntry pattern.
Proof.
  unfold group_prices, card_rows. rewrite (list_elem_of_In (flat_map _ _)), in_flat_map. split.
  - intros (card' & Hc%list_elem_of_In & Hr%list_elem_of_In). destruct (isPlatformPricingMatch _ _) eqn:E; [|by apply elem_of_nil in Hr].
    apply list_elem_of_fmap in Hr as (m & [= -> -> -> ->] & Hm). eauto 10.
  - intros (-> & Hc & -> & Hm & m & Hp & ->). exists card. split; [by apply list_elem_of_In|].
    rewrite Hm. apply list_elem_of_In, list_elem_of_fmap. eauto.
Qed.

Lemma detect_app l k : detectConflicts (l ++ k)%list = false ->
  detectConflicts l = false /\ detectConflicts k = false /\
  forall a b, a ∈ l -> b ∈ k -> conflictsBetween a b = false.
Proof.
  induction l as [|e l IH]; cbn; [intros ?; repeat split; [done|]; by intros a b ?%elem_of_nil|].
  rewrite existsb_app, !orb_false_iff. intros ([He Hk] & (Hl & Hk' & Hlk)%IH). repeat split; [done..|].
  intros a b [->|Ha]%elem_of_cons Hb; [|by apply Hlk]. rewrite <- not_true_iff_false in Hk |- *. intros Hc. apply Hk, existsb_exists.
  exists b. split; [by apply list_elem_of_In|done].
Qed.

(** Lists of entries that do not conflict with each other: a name falls under one list at
most. *)
Lemma listed_once {A} (f : A -> list modelEntry) l x y name a b : detectConflicts (flat_map f l) = false ->
  x ∈ l -> y ∈ l -> a ∈ f x -> b ∈ f y -> entry_covers name a = true -> entry_covers name b = true -> x = y.
Proof.
  intros Hd Hx Hy Ha Hb Hna Hnb. induction l as [|z l IH]; [by apply elem_of_nil in Hx|].
  cbn in Hd. apply detect_app in Hd as (_ & Hd & Hzl).
  assert (Hin : forall e w, w ∈ l -> e ∈ f w -> e ∈ flat_map f l).
  { intros e w Hw He. apply list_elem_of_In, in_flat_map. exists w. split; by apply list_elem_of_In. }
  pose proof (covered_conflict _ _ _ Hna Hnb) as Hab. pose proof (covered_conflict _ _ _ Hnb Hna) as Hba.
  apply elem_of_cons in Hx as [->|Hx], Hy as [->|Hy]; [done| | |by apply IH].
  - by rewrite (Hzl a b Ha (Hin _ _ Hy Hb)) in Hab.
  - by rewrite (Hzl b a Hb (Hin _ _ Hx Ha)) in Hba.
Qed.

(** Two cards of one platform never name one model, once the patterns are validated. *)
Lemma named_once pricing c1 c2 model : validateNoConflictingModels pricing = None ->
  c1 ∈ pricing -> c2 ∈ pricing -> cp_Platform c1 = cp_Platform c2 -> card_names c1 model -> card_names c2 model -> c1 = c2.
Proof.
  unfold validateNoConflictingModels. destruct (existsb _ _) eqn:E; [done|].
  intros _ H1 H2 Hp (p1 & Hm1 & Hc1) (p2 & Hm2 & Hc2).
  assert (Hd : detectConflicts (platform_entries (cp_Platform c1) pricing) = false).
  { destruct (detectConflicts _) eqn:Ed; [|done]. rewrite <- E. symmetry. apply existsb_exists.
    exists c1. split; [by apply list_elem_of_In|done]. }
  eapply (listed_once _ _ c1 c2 _ _ _ Hd); [done..| | |exact Hc1|exact Hc2].
  - rewrite String.eqb_refl. by apply list_elem_of_fmap_2.
  - rewrite <- Hp, String.eqb_refl. by apply list_elem_of_fmap_2.
Qed.

Lemma looked_up_channel ctx now channels gp gid ch : sole_channel channels gid ch -> IsActive ch = true ->
  lookupGroupChannel ctx (populateChannelCache now channels gp) gid =
  Some (normalizeBillingModelSource ch, channelLookupPlatform ctx (default "" (gp !! gid))).
Proof.
  intros (H1 & H2 & H3) Ha. unfold lookupGroupChannel. rewrite (populated_channel _ _ _ ch) by done.
  unfold IsActive in *. destruct (normalized_same ch) as (_ & _ & _ & _ & -> & _).
  by rewrite Ha, populated_platforms.
Qed.

(** The cards that the snapshot answers are the cards of the channel that name the model. *)
Lemma looked_up_card now channels gp gid ch q model card : sole_channel channels gid ch -> q <> PlatformComposite ->
  isPlatformPricingMatch (default "" (gp !! gid)) q = true -> validateNoConflictingModels (ch_ModelPricing ch) = None ->
  lookupPricingAcrossPlatforms (populateChannelCache now channels gp) gid q (ToLower model) = Some card <->
  card ∈ ch_ModelPricing ch /\ cp_Platform card = q /\ card_names card model.
Proof.
  intros (Hch & Hg & Honly) Hq Hm Hv. rewrite lookup_pricing_find by done.
  pose proof (populated_prices now channels gp) as HI.
  assert (Hrow : forall entry v, ((gid, q), entry, v) ∈ flat_map (fun ch => flat_map (group_prices gp ch) (ch_GroupIDs ch)) channels
    <-> ((gid, q), entry, v) ∈ group_prices gp ch gid).
  { intros. apply rows_of_group; [|done..]. intros c g [[[g' q'] e] v'] Hr. by apply elem_of_group_prices in Hr as [-> _]. }
  assert (Hsound : forall card', find_in (pricingByGroupModel (populateChannelCache now channels gp))
      (wildcardByGroupPlatform (populateChannelCache now channels gp)) (gid, q)
      (normalizeChannelPricingModelName (ToLower model)) = Some card' ->
      card' ∈ ch_ModelPricing ch /\ cp_Platform card' = q /\ card_names card' model).
  { intros card' (entry & Hr & Hc)%(find_in_sound _ _ _ _ _ _ HI).
    apply Hrow, elem_of_group_prices in Hr as (_ & Hin & -> & _ & pattern & Hp & ->). unfold card_names. eauto. }
  split; [apply Hsound|]. intros (Hin & Hp & Hn). destruct Hn as (pattern & Hpat & Hcov).
  destruct (find_in_complete _ _ _ (gid, q) (normalizeChannelPricingModelName (ToLower model)) (toPricingModelEntry pattern) card HI) as [card' Hf]; [|exact Hcov|].
  - apply Hrow, elem_of_group_prices. eauto 10.
  - rewrite Hf. destruct (Hsound _ Hf) as (Hin' & Hp' & Hn'). f_equal.
    eapply named_once; [exact Hv|done|done|congruence|done|]. unfold card_names. eauto.
Qed.

(** C35. In a snapshot of validated channels the price card of a model is the card of the
group's channel, on the platform of the request, one of whose patterns covers the model:
there is one at most, and exact names and wildcards never compete.  A channel that
restricts its models restricts exactly those that no card names. *)
Theorem lookup_finds_the_card ctx now channels gp gid ch q model :
  sole_channel channels gid ch -> IsActive ch = true -> validateNoConflictingModels (ch_ModelPricing ch) = None ->
  q = channelLookupPlatform ctx (default "" (gp !! gid)) -> q <> PlatformComposite ->
  isPlatformPricingMatch (default "" (gp !! gid)) q = true ->
  (forall card, GetChannelModelPricing ctx (Ok (populateChannelCache now channels gp)) gid model = Some card <->
     card ∈ ch_ModelPricing ch /\ cp_Platform card = q /\ card_names card model) /\
  (IsModelRestricted ctx (Ok (populateChannelCache now channels gp)) gid model = true <->
     ch_RestrictModels ch = true /\
     forall card, card ∈ ch_ModelPricing ch -> cp_Platform card = q -> ~ card_names card model).
Proof.
  intros Hs Ha Hv -> Hq Hm. cbn. rewrite (looked_up_channel _ _ _ _ _ ch) by done.
  split; [intros card; by apply looked_up_card|]. unfold checkRestricted.
  destruct (normalized_same ch) as (_ & _ & _ & -> & _). destruct (ch_RestrictModels ch); cbn; [|by split; [|intros [? _]]].
  destruct (lookupPricingAcrossPlatforms _ _ _ _) as [card|] eqn:E.
  - apply (looked_up_card _ _ _ _ ch) in E as (Hin & Hp & Hn); [|done..]. split; [done|]. intros [_ Hno]. by destruct (Hno card Hin Hp).
  - split; [|done]. intros _. split; [done|]. intros card Hin Hp Hn.
    assert (lookupPricingAcrossPlatforms (populateChannelCache now channels gp) gid
      (channelLookupPlatform ctx (default "" (gp !! gid))) (ToLower model) = Some card) as Hl
      by (by apply (looked_up_card _ _ _ _ ch)). congruence.
Qed.

(** ** Mappings *)

Lemma elem_of_group_sources gp ch gid gid' q entry dst :
  ((gid', q), entry, dst) ∈ group_sources gp ch gid <->
  gid' = gid /\ q ∈ matchingPlatforms (default "" (gp !! gid)) /\
  exists src pm, assoc q (ch_ModelMapping ch) = Some pm /\ (src, dst) ∈ pm /\ entry = source_entry src.
Proof.
  unfold group_sources, platform_rows. rewrite (list_elem_of_In (flat_map _ _)), in_flat_map. split.
  - intros (mp & Hmp%list_elem_of_In & Hr%list_elem_of_In). apply list_elem_of_fmap in Hr as ([src d] & [= -> -> -> ->] & Hst).
    destruct (assoc mp _) as [pm|] eqn:E; [|by apply elem_of_nil in Hst]. cbn in *. eauto 10.
  - intros (-> & Hq & src & pm & Ha & Hst & ->). exists q. split; [by apply list_elem_of_In|].
    rewrite Ha. apply list_elem_of_In, list_elem_of_fmap. by exists (src, dst).
Qed.

End Lookups.

(** Lowering a string neither makes nor moves a star at its end. *)
Class GoLowerNoStar `{GoUnicode} : Prop := {
  lower_slow_no_star s : is_ascii s = false -> HasSuffix (lower_slow s) "*" = true -> HasSuffix s "*" = true
}.

Lemma to_lower_length s : String.length (to_lower_ascii s) = String.length s.
Proof. induction s as [|a s IH]; [done|]. cbn. by rewrite IH. Qed.

Lemma to_lower_drop n s : str_drop n (to_lower_ascii s) = to_lower_ascii (str_drop n s).
Proof. revert s. induction n as [|n IH]; intros [|a s]; cbn; [done..|]. apply IH. Qed.

Lemma to_lower_star t : to_lower_ascii t = "*" -> t = "*".
Proof.
  destruct t as [|a [|b t]]; cbn; [done| |done]. intros [= H]. f_equal. revert H.
  destruct a as [[] [] [] [] [] [] [] []]; vm_compute; congruence.
Qed.

Lemma to_lower_suffix s : HasSuffix (to_lower_ascii s) "*" = true -> HasSuffix s "*" = true.
Proof.
  unfold HasSuffix, len. rewrite to_lower_length, to_lower_drop. intros [Hl Hs]%andb_true_iff.
  apply String.eqb_eq, to_lower_star in Hs. by rewrite Hl, Hs.
Qed.

#[export] Instance AsciiLowerNoStar : @GoLowerNoStar AsciiUnicode.
Proof. split. intros s _. apply to_lower_suffix. Qed.

Section Mappings.
Context `{GoUnicode, !GoLowerStar, !GoLowerNoStar}.

(** The entries that are validated are those of the cache. *)
Lemma validated_source src : source_entry src = toModelEntry src.
Proof.
  unfold source_entry, toModelEntry, splitWildcardSuffix. destruct (HasSuffix src "*") eqn:E.
  - assert (HT : ToLower src = ToLower (TrimSuffix src "*") +:+ "*").
    { rewrite <- ToLower_star. f_equal. by apply suffix_split. }
    rewrite HT. destruct (suffix_app (ToLower (TrimSuffix src "*")) "*") as [-> ->]. done.
  - assert (HasSuffix (ToLower src) "*" = false) as ->; [|done].
    apply not_true_iff_false. intros Hl. rewrite <- not_true_iff_false in E. apply E.
    unfold ToLower in Hl. destruct (is_ascii src) eqn:Ea; [by apply to_lower_suffix|by apply lower_slow_no_star].
Qed.

(** With validated mappings the model that a request is mapped to is the target of the
only source pattern, of its platform, that covers the name.  The order in which Go's
iteration has listed the mapping for the snapshot therefore never shows. *)
Theorem mapping_follows_the_source ctx now channels gp gid ch q model dst :
  sole_channel channels gid ch -> IsActive ch = true -> validateNoConflictingMappings (ch_ModelMapping ch) = None ->
  q = channelLookupPlatform ctx (default "" (gp !! gid)) -> q <> PlatformComposite ->
  q ∈ matchingPlatforms (default "" (gp !! gid)) -> dst <> "" ->
  (Mapped (ResolveChannelMapping ctx (Ok (populateChannelCache now channels gp)) gid model) = true /\
   MappedModel (ResolveChannelMapping ctx (Ok (populateChannelCache now channels gp)) gid model) = dst) <->
  exists src pm, assoc q (ch_ModelMapping ch) = Some pm /\ (src, dst) ∈ pm /\
    entry_covers (ToLower model) (toModelEntry src) = true.
Proof.
  intros Hs Ha Hv Hplat Hq Hm Hne. unfold ResolveChannelMapping. rewrite (looked_up_channel _ _ _ _ _ ch) by done.
  rewrite <- Hplat. unfold resolveMapping. rewrite lookup_mapping_find by done. destruct Hs as (Hch & Hg & Honly).
  pose proof (populated_sources now channels gp) as HI. set (c := populateChannelCache now channels gp) in *.
  assert (Hrow : forall entry v, ((gid, q), entry, v) ∈ flat_map (fun ch => flat_map (group_sources gp ch) (ch_GroupIDs ch)) channels
    <-> ((gid, q), entry, v) ∈ group_sources gp ch gid).
  { intros. apply rows_of_group; [|done..]. intros c' g [[[g' q'] e] v'] Hr. by apply elem_of_group_sources in Hr as [-> _]. }
  transitivity (find_in (mappingByGroupModel c) (wildcardMappingByGP c) (gid, q) (ToLower model) = Some dst).
  { destruct (find_in _ _ _ _) as [d|]; cbn; [|by split; [intros [? _]|]].
    destruct (String.eqb_spec d "") as [->|Hd]; cbn; [split; [by intros [? _]|congruence]|].
    split; [by intros [_ ->]|by intros [= ->]]. }
  assert (Hsound : forall d, find_in (mappingByGroupModel c) (wildcardMappingByGP c) (gid, q) (ToLower model) = Some d ->
    exists src pm, assoc q (ch_ModelMapping ch) = Some pm /\ (src, d) ∈ pm /\
      entry_covers (ToLower model) (toModelEntry src) = true).
  { intros d (entry & Hr & Hc)%(find_in_sound _ _ _ _ _ _ HI).
    apply Hrow, elem_of_group_sources in Hr as (_ & _ & src & pm & Hpm & Hst & ->). rewrite validated_source in Hc. eauto. }
  split; [apply Hsound|]. intros (src & pm & Hpm & Hst & Hcov).
  destruct (find_in_complete _ _ _ (gid, q) (ToLower model) (source_entry src) dst HI) as [d Hf].
  - apply Hrow, elem_of_group_sources. eauto 10.
  - by rewrite validated_source.
  - rewrite Hf. destruct (Hsound _ Hf) as (src' & pm' & Hpm' & Hst' & Hcov'). rewrite Hpm in Hpm'. injection Hpm' as <-.
    assert (Hd : detectConflicts (map (fun st => toModelEntry st.1) pm) = false).
    { unfold validateNoConflictingMappings in Hv. destruct (existsb _ _) eqn:E; [done|]. apply not_true_iff_false. intros Hd.
      rewrite <- not_true_iff_false in E. apply E, existsb_exists.
      apply assoc_target, list_elem_of_fmap in Hpm as (x & -> & Hx). exists x. split; [by apply list_elem_of_In|done]. }
    rewrite map_as_flat_map in Hd. f_equal.
    assert ((src', d) = (src, dst)) as [= _ ->]; [|done].
    eapply (listed_once _ pm _ _ (ToLower model) (toModelEntry src') (toModelEntry src) Hd); [done..| | |done|done]; by left.
Qed.

End Mappings.

(** ** Snapshots in time

What the service has gone through: its snapshot, and the rebuilds so far, each with what
the repository answered and its instant. *)
Section Snapshots.
Context `{GoUnicode}.

Definition kept (now : Time) (cached : option channelCache) : bool :=
  match cached with Some c => fresh now c | None => false end.

Inductive served : option channelCache -> list (Repository * Time) -> Prop :=
  | served_start : served None []
  | served_load repo now built cached past :
      served cached past ->
      served (loadCache repo now built cached).2 (if kept now cached then past else (repo, built) :: past)
  | served_invalidate repo built cached past :
      served cached past -> served (invalidateCache repo built) ((repo, built) :: past)
  | served_clear cached past : served cached past -> served clearCache past.

Lemma load_rebuilds repo now built cached : kept now cached = false ->
  loadCache repo now built cached = let '(r, c) := buildCache repo built in (r, Some c).
Proof. unfold kept, loadCache. destruct cached; [|done]. by intros ->. Qed.

(** A snapshot was made by a rebuild. *)
Lemma served_made cached past c : served cached past -> cached = Some c ->
  exists repo t, (repo, t) ∈ past /\ c = (buildCache repo t).2.
Proof.
  intros Hs. revert c. induction Hs as [|repo now built cached past Hs IH|repo built cached past Hs IH|]; intros c; [done| | |done].
  - destruct (kept now cached) eqn:Ek.
    + unfold kept in Ek. destruct cached as [c'|]; [|done]. cbn. rewrite Ek. apply IH.
    + rewrite load_rebuilds by done. destruct (buildCache repo built) as [r c'] eqn:E. cbn. intros [= <-].
      exists repo, built. rewrite E. split; [by left|done].
  - intros [= <-]. exists repo, built. split; [by left|done].
Qed.

Lemma populated_at now channels gp : loadedAt (populateChannelCache now channels gp) = now.
Proof.
  unfold populateChannelCache. rewrite (foldl_keeps loadedAt); [done|].
  intros c ch. unfold populate_channel. rewrite (foldl_keeps loadedAt); [done|].
  intros c' gid. unfold populate_group. by rewrite mapping_keeps, pricing_keeps.
Qed.

(** Whatever loads, invalidations and notifications have come before, and whatever the
database has answered, a load serves the rows that a rebuild has read less than ten
minutes ago, or, for less than five seconds after a rebuild that failed, no rows. *)
Theorem loads_serve_recent_rows cached past repo now built c :
  served cached past -> (loadCache repo now built cached).1 = Ok c ->
  (exists channels gp, fetchChannelData repo = Ok (channels, gp) /\ c = populateChannelCache built channels gp) \/
  exists repo' t, (repo', t) ∈ past /\
    ((exists channels gp, fetchChannelData repo' = Ok (channels, gp) /\
        c = populateChannelCache t channels gp /\ now - t < 10 * Minute) \/
     (exists e, fetchChannelData repo' = Err e /\ c = errorCache t /\ now - t < 5 * Second)).
Proof.
  intros Hs Hl. destruct (kept now cached) eqn:Ek.
  - right. unfold kept in Ek. destruct cached as [c'|]; [|done]. cbn in Hl. rewrite Ek in Hl. injection Hl as ->.
    destruct (served_made _ _ _ Hs eq_refl) as (repo' & t & Hin & Hc). exists repo', t. split; [done|].
    unfold fresh in Ek. apply Z.ltb_lt, Sub_lt in Ek; [|by vm_compute]. unfold buildCache in Hc.
    destruct (fetchChannelData repo') as [[channels gp]|e]; cbn in Hc; subst c.
    + left. rewrite populated_at in Ek. exists channels, gp. repeat split. exact Ek.
    + right. exists e. repeat split. cbn in Ek. unfold Add, channelCacheTTL, channelErrorTTL in Ek. lia.
  - left. rewrite load_rebuilds in Hl by done. unfold buildCache in Hl.
    destruct (fetchChannelData repo) as [[channels gp]|e]; [|done]. injection Hl as <-. eauto.
Qed.

(** While the empty snapshot serves, no group has a channel: no prices, no mapping, and no
restriction. *)
Lemma outage_has_no_channels ctx t gid model :
  GetChannelModelPricing ctx (Ok (errorCache t)) gid model = None /\
  IsModelRestricted ctx (Ok (errorCache t)) gid model = false /\
  ResolveChannelMapping ctx (Ok (errorCache t)) gid model = unmapped model.
Proof. by unfold GetChannelModelPricing, IsModelRestricted, ResolveChannelMapping, lookupGroupChannel. Qed.

End Snapshots.

(** ** Examples *)

Definition token_card (platform : string) (models : list string) (price : option Q) : ChannelModelPricing :=
  mkCard platform models "" price None None None None None None None None None None [] None.

Definition opus_card : ChannelModelPricing := token_card "anthropic" ["claude-opus-4.5"; "Claude-Opus-4.1"] (Some (15 # 1)%Q).
Definition haiku_card : ChannelModelPricing := token_card "anthropic" ["claude-haiku-*"] (Some (1 # 1)%Q).
Definition gpt_card : ChannelModelPricing := token_card "openai" ["gpt-5*"] (Some (2 # 1)%Q).

Definition resale : Channel := mkChannel 7 "active" "" true [3] [opus_card; haiku_card; gpt_card]
  [("anthropic", [("claude-fast*", "claude-haiku-4-5"); ("claude-best", "claude-opus-4-5")])].
Definition other : Channel := mkChannel 8 "active" "requested" false [4] [] [].

Definition two_channels : channelCache :=
  @populateChannelCache AsciiUnicode 1000 [resale; other] (<[3 := "anthropic"]> (<[4 := "openai"]> ∅)).

#[local] Existing Instance AsciiUnicode.

Example prices_of_resale :
  map (GetChannelModelPricing None (Ok two_channels) 3) ["CLAUDE-opus-4-5"; "claude-haiku-4.5"; "gpt-5"; "claude-sonnet"] =
  [Some opus_card; Some haiku_card; None; None].
Proof. by vm_compute. Qed.

Example maps_of_resale :
  map (fun m => MappedModel (ResolveChannelMapping None (Ok two_channels) 3 m)) ["claude-fastest"; "Claude-Best"; "gpt-5"] =
  ["claude-haiku-4-5"; "claude-opus-4-5"; "gpt-5"].
Proof. by vm_compute. Qed.

Lemma resale_is_sole : sole_channel [resale; other] 3 resale.
Proof.
  split; [left|]. split; [left|]. intros ch [->|[->|[]%elem_of_nil]%elem_of_cons]%elem_of_cons; [done|].
  cbn. intros [?|[]%elem_of_nil]%elem_of_cons. done.
Qed.

Lemma lookup_finds_the_card_witness :
  GetChannelModelPricing None (Ok two_channels) 3 "CLAUDE-opus-4-5" = Some opus_card.
Proof.
  apply (lookup_finds_the_card None 1000 [resale; other] (<[3 := "anthropic"]> (<[4 := "openai"]> ∅)) 3 resale "anthropic");
    [apply resale_is_sole|by vm_compute..|].
  split; [left|]. split; [by vm_compute|]. exists "claude-opus-4.5". split; [left|by vm_compute].
Defined.

Lemma mapping_follows_the_source_witness :
  Mapped (ResolveChannelMapping None (Ok two_channels) 3 "claude-fastest") = true /\
  MappedModel (ResolveChannelMapping None (Ok two_channels) 3 "claude-fastest") = "claude-haiku-4-5".
Proof.
  apply (mapping_follows_the_source None 1000 [resale; other] (<[3 := "anthropic"]> (<[4 := "openai"]> ∅)) 3 resale "anthropic");
    [apply resale_is_sole|by vm_compute..|left|done|].
  exists "claude-fast*", [("claude-fast*", "claude-haiku-4-5"); ("claude-best", "claude-opus-4-5")].
  split; [by vm_compute|]. split; [left|by vm_compute].
Defined.

Definition rows_answer : Repository := mkRepository (Ok [resale; other]) (fun _ => Ok (<[3 := "anthropic"]> (<[4 := "openai"]> ∅))).
Definition rows_fail : Repository := mkRepository (Err (ErrMsg "down")) (fun _ => Err (ErrMsg "down")).

Lemma loads_serve_recent_rows_witness :
  exists c, (loadCache rows_fail (1000 + 9 * Minute) (1000 + 9 * Minute) (loadCache rows_answer 999 1000 None).2).1 = Ok c /\
  ((exists channels gp, fetchChannelData rows_fail = Ok (channels, gp) /\
      c = populateChannelCache (1000 + 9 * Minute) channels gp) \/
  exists repo' t, (repo', t) ∈ [(rows_answer, 1000)] /\
    ((exists channels gp, fetchChannelData repo' = Ok (channels, gp) /\
        c = populateChannelCache t channels gp /\ 1000 + 9 * Minute - t < 10 * Minute) \/
     (exists e, fetchChannelData repo' = Err e /\ c = errorCache t /\ 1000 + 9 * Minute - t < 5 * Second))).
Proof.
  exists two_channels. split; [by vm_compute|].
  apply (loads_serve_recent_rows (loadCache rows_answer 999 1000 None).2 [(rows_answer, 1000)] rows_fail _ (1000 + 9 * Minute));
    [|by vm_compute].
  exact (served_load rows_answer 999 1000 None [] served_start).
Defined.
