(* ===== verification/ModelPricing.v ===== *)
(** * The price of a model

[ModelPricing] of [service/billing_service.go]: how an entry of the catalog becomes the
prices of a model, the corrections for particular models, and the prices that the card
of a channel puts in their place.  Prices, float64 in the code, are rationals, without
the rounding of their products and quotients.  The catalog and the built-in table of
prices are data: fields of the service. *)
From S2P Require Import Prelude GoText GoTime ModelNames TimePricing ChannelPricing.
From Stdlib Require Import Bool QArith Lqa.

Local Open Scope string_scope.
Local Open Scope Z_scope.

(** ** Data *)

Record ModelPricing : Type := mkPricing {
  InputPricePerToken : Q;
  InputPricePerTokenPriority : Q;
  ImageInputPricePerToken : Q;
  ImageCacheReadPricePerToken : Q;
  OutputPricePerToken : Q;
  OutputPricePerTokenPriority : Q;
  CacheCreationPricePerToken : Q;
  CacheCreationPricePerTokenPriority : Q;
  CacheCreationPriceExplicit : bool;
  CacheReadPricePerToken : Q;
  CacheReadPricePerTokenPriority : Q;
  FastMultiplier : option Q;
  FlexMultiplier : option Q;
  MaxReasoningEffortMultiplier : option Q;
  CacheCreation5mPrice : Q;
  CacheCreation1hPrice : Q;
  SupportsCacheBreakdown : bool;
  LongContextInputThreshold : Z;
  LongContextThresholdInclusive : bool;
  LongContextInputMultiplier : Q;
  LongContextOutputMultiplier : Q;
  ImageOutputPricePerToken : Q;
  ImageOutputPriceExplicit : bool
}.

Definition set_input (std : Q) (prio : Q) (p : ModelPricing) : ModelPricing :=
  mkPricing
    std prio (ImageInputPricePerToken p) (ImageCacheReadPricePerToken p) (OutputPricePerToken p)
    (OutputPricePerTokenPriority p) (CacheCreationPricePerToken p) (CacheCreationPricePerTokenPriority p)
    (CacheCreationPriceExplicit p) (CacheReadPricePerToken p) (CacheReadPricePerTokenPriority p)
    (FastMultiplier p) (FlexMultiplier p) (MaxReasoningEffortMultiplier p) (CacheCreation5mPrice p)
    (CacheCreation1hPrice p) (SupportsCacheBreakdown p) (LongContextInputThreshold p)
    (LongContextThresholdInclusive p) (LongContextInputMultiplier p) (LongContextOutputMultiplier p)
    (ImageOutputPricePerToken p) (ImageOutputPriceExplicit p).

Definition set_output (std : Q) (prio : Q) (p : ModelPricing) : ModelPricing :=
  mkPricing
    (InputPricePerToken p) (InputPricePerTokenPriority p) (ImageInputPricePerToken p)
    (ImageCacheReadPricePerToken p) std prio (CacheCreationPricePerToken p)
    (CacheCreationPricePerTokenPriority p) (CacheCreationPriceExplicit p) (CacheReadPricePerToken p)
    (CacheReadPricePerTokenPriority p) (FastMultiplier p) (FlexMultiplier p) (MaxReasoningEffortMultiplier p)
    (CacheCreation5mPrice p) (CacheCreation1hPrice p) (SupportsCacheBreakdown p) (LongContextInputThreshold p)
    (LongContextThresholdInclusive p) (LongContextInputMultiplier p) (LongContextOutputMultiplier p)
    (ImageOutputPricePerToken p) (ImageOutputPriceExplicit p).

Definition set_cache_creation (std : Q) (prio : Q) (p : ModelPricing) : ModelPricing :=
  mkPricing
    (InputPricePerToken p) (InputPricePerTokenPriority p) (ImageInputPricePerToken p)
    (ImageCacheReadPricePerToken p) (OutputPricePerToken p) (OutputPricePerTokenPriority p) std prio
    (CacheCreationPriceExplicit p) (CacheReadPricePerToken p) (CacheReadPricePerTokenPriority p)
    (FastMultiplier p) (FlexMultiplier p) (MaxReasoningEffortMultiplier p) (CacheCreation5mPrice p)
    (CacheCreation1hPrice p) (SupportsCacheBreakdown p) (LongContextInputThreshold p)
    (LongContextThresholdInclusive p) (LongContextInputMultiplier p) (LongContextOutputMultiplier p)
    (ImageOutputPricePerToken p) (ImageOutputPriceExplicit p).

Definition set_cache_read (std : Q) (prio : Q) (p : ModelPricing) : ModelPricing :=
  mkPricing
    (InputPricePerToken p) (InputPricePerTokenPriority p) (ImageInputPricePerToken p)
    (ImageCacheReadPricePerToken p) (OutputPricePerToken p) (OutputPricePerTokenPriority p)
    (CacheCreationPricePerToken p) (CacheCreationPricePerTokenPriority p) (CacheCreationPriceExplicit p) std
    prio (FastMultiplier p) (FlexMultiplier p) (MaxReasoningEffortMultiplier p) (CacheCreation5mPrice p)
    (CacheCreation1hPrice p) (SupportsCacheBreakdown p) (LongContextInputThreshold p)
    (LongContextThresholdInclusive p) (LongContextInputMultiplier p) (LongContextOutputMultiplier p)
    (ImageOutputPricePerToken p) (ImageOutputPriceExplicit p).

Definition set_cache_ttls (p5m : Q) (p1h : Q) (p : ModelPricing) : ModelPricing :=
  mkPricing
    (InputPricePerToken p) (InputPricePerTokenPriority p) (ImageInputPricePerToken p)
    (ImageCacheReadPricePerToken p) (OutputPricePerToken p) (OutputPricePerTokenPriority p)
    (CacheCreationPricePerToken p) (CacheCreationPricePerTokenPriority p) (CacheCreationPriceExplicit p)
    (CacheReadPricePerToken p) (CacheReadPricePerTokenPriority p) (FastMultiplier p) (FlexMultiplier p)
    (MaxReasoningEffortMultiplier p) p5m p1h (SupportsCacheBreakdown p) (LongContextInputThreshold p)
    (LongContextThresholdInclusive p) (LongContextInputMultiplier p) (LongContextOutputMultiplier p)
    (ImageOutputPricePerToken p) (ImageOutputPriceExplicit p).

Definition set_cache_flags (explicit : bool) (breakdown : bool) (p : ModelPricing) : ModelPricing :=
  mkPricing
    (InputPricePerToken p) (InputPricePerTokenPriority p) (ImageInputPricePerToken p)
    (ImageCacheReadPricePerToken p) (OutputPricePerToken p) (OutputPricePerTokenPriority p)
    (CacheCreationPricePerToken p) (CacheCreationPricePerTokenPriority p) explicit (CacheReadPricePerToken p)
    (CacheReadPricePerTokenPriority p) (FastMultiplier p) (FlexMultiplier p) (MaxReasoningEffortMultiplier p)
    (CacheCreation5mPrice p) (CacheCreation1hPrice p) breakdown (LongContextInputThreshold p)
    (LongContextThresholdInclusive p) (LongContextInputMultiplier p) (LongContextOutputMultiplier p)
    (ImageOutputPricePerToken p) (ImageOutputPriceExplicit p).

Definition set_tiers (fast : option Q) (flex : option Q) (effort : option Q) (p : ModelPricing) : ModelPricing :=
  mkPricing
    (InputPricePerToken p) (InputPricePerTokenPriority p) (ImageInputPricePerToken p)
    (ImageCacheReadPricePerToken p) (OutputPricePerToken p) (OutputPricePerTokenPriority p)
    (CacheCreationPricePerToken p) (CacheCreationPricePerTokenPriority p) (CacheCreationPriceExplicit p)
    (CacheReadPricePerToken p) (CacheReadPricePerTokenPriority p) fast flex effort (CacheCreation5mPrice p)
    (CacheCreation1hPrice p) (SupportsCacheBreakdown p) (LongContextInputThreshold p)
    (LongContextThresholdInclusive p) (LongContextInputMultiplier p) (LongContextOutputMultiplier p)
    (ImageOutputPricePerToken p) (ImageOutputPriceExplicit p).

Definition set_images (input : Q) (output : Q) (explicit : bool) (p : ModelPricing) : ModelPricing :=
  mkPricing
    (InputPricePerToken p) (InputPricePerTokenPriority p) input (ImageCacheReadPricePerToken p)
    (OutputPricePerToken p) (OutputPricePerTokenPriority p) (CacheCreationPricePerToken p)
    (CacheCreationPricePerTokenPriority p) (CacheCreationPriceExplicit p) (CacheReadPricePerToken p)
    (CacheReadPricePerTokenPriority p) (FastMultiplier p) (FlexMultiplier p) (MaxReasoningEffortMultiplier p)
    (CacheCreation5mPrice p) (CacheCreation1hPrice p) (SupportsCacheBreakdown p) (LongContextInputThreshold p)
    (LongContextThresholdInclusive p) (LongContextInputMultiplier p) (LongContextOutputMultiplier p) output
    explicit.

(** [&ModelPricing{}] *)
Definition zeroPricing : ModelPricing :=
  mkPricing 0 0 0 0 0 0 0 0 false 0 0 None None None 0 0 false 0 false 0 0 0 false.

(** An entry of the catalog, as far as prices of tokens are read from it. *)
Record LiteLLMModelPricing : Type := mkLiteLLM {
  InputCostPerToken : Q;
  InputCostPerTokenPriority : Q;
  OutputCostPerToken : Q;
  OutputCostPerTokenPriority : Q;
  CacheCreationInputTokenCost : Q;
  CacheCreationInputTokenCostPriority : Q;
  CacheCreationInputTokenCostAbove1hr : Q;
  CacheReadInputTokenCost : Q;
  CacheReadInputTokenCostPriority : Q;
  LongContextInputTokenThreshold : Z;
  LongContextInputCostMultiplier : Q;
  LongContextOutputCostMultiplier : Q;
  LiteLLMProvider : string;
  OutputCostPerImageToken : Q;
  InputCostPerImageToken : Q;
  CacheReadInputImageTokenCost : Q;
  TokenPricingAbsent : bool
}.

(** [pricingService] is [PricingService.GetModelPricing], if there is one;
[getFallbackPricing] the built-in prices; [DefaultRateMultiplier] is configured. *)
Record BillingService : Type := mkBillingService {
  pricingService : option (string -> option LiteLLMModelPricing);
  getFallbackPricing : string -> option ModelPricing;
  DefaultRateMultiplier : Q
}.

Definition ErrModelPricingUnavailable : goerr := ErrMsg "pricing not found".

(** ** Service tiers *)

Section Models.
Context `{GoUnicode, GoFields}.

Definition normalizeBillingServiceTier (serviceTier : string) : string := ToLower (TrimSpace serviceTier).

Definition is_fast_tier (tier : string) : bool := String.eqb tier "priority" || String.eqb tier "fast".

Definition usePriorityServiceTierPricing (serviceTier : string) (pricing : ModelPricing) : bool :=
  is_fast_tier (normalizeBillingServiceTier serviceTier) && negb (is_set (FastMultiplier pricing)) &&
  (Qltb 0 (InputPricePerTokenPriority pricing) || Qltb 0 (OutputPricePerTokenPriority pricing) ||
   Qltb 0 (CacheCreationPricePerTokenPriority pricing) || Qltb 0 (CacheReadPricePerTokenPriority pricing)).

Definition OpenAIFastTierUltrafast := "ultrafast".

Definition serviceTierCostMultiplier (serviceTier : string) : Q :=
  let tier := normalizeBillingServiceTier serviceTier in
  if is_fast_tier tier || String.eqb tier OpenAIFastTierUltrafast then 2 # 1
  else if String.eqb tier "flex" then 1 # 2 else 1.

Definition configuredServiceTierMultiplier (serviceTier : string) (pricing : ModelPricing) : Q :=
  let tier := normalizeBillingServiceTier serviceTier in
  let configured := if is_fast_tier tier then FastMultiplier pricing
    else if String.eqb tier "flex" then FlexMultiplier pricing else None in
  default (serviceTierCostMultiplier serviceTier) configured.

Definition pricingWithPriorityMultiplier (base : ModelPricing) (m : Q) : ModelPricing :=
  (set_input (InputPricePerToken base) (InputPricePerToken base * m)
    (set_output (OutputPricePerToken base) (OutputPricePerToken base * m)
      (set_cache_creation (CacheCreationPricePerToken base) (CacheCreationPricePerToken base * m)
        (set_cache_read (CacheReadPricePerToken base) (CacheReadPricePerToken base * m) base))))%Q.

(** ** Reasoning effort *)

(** What follows the first occurrence of a part, as [strings.Index] finds it. *)
Fixpoint after_first (s part : string) : option string :=
  if HasPrefix s part then Some (TrimPrefix s part)
  else match s with
  | EmptyString => None
  | String _ r => after_first r part
  end.

Definition isClaudeFable51Model (model : string) : bool :=
  let model := ToLower (TrimSpace model) in
  existsb (fun marker =>
    match after_first model marker with
    | None => false
    | Some EmptyString => true
    | Some (String a _) => negb (is_digit a)
    end) ["fable-5-1"; "fable-5.1"; "fable5.1"; "fable51"].

Definition defaultMaxReasoningEffortMultiplier (model : string) : option Q :=
  if isClaudeFable51Model model then Some (3 # 1)%Q else None.

(** [strings.NewReplacer("-", "", "_", "", " ", "")] *)
Fixpoint strip_separators (s : string) : string :=
  match s with
  | EmptyString => EmptyString
  | String a r =>
      if Ascii.eqb a "-" || Ascii.eqb a "_" || Ascii.eqb a " " then strip_separators r
      else String a (strip_separators r)
  end.

Definition NormalizeMaxReasoningEffort (raw : string) : string :=
  let value := strip_separators (ToLower (TrimSpace raw)) in
  if String.eqb value "extrahigh" then "xhigh"
  else if existsb (String.eqb value) ["minimal"; "low"; "medium"; "high"; "xhigh"; "max"] then value else "".

Definition maxReasoningEffortBillingMultiplier (model effort : string) (pricing : option ModelPricing) : Q :=
  if negb (String.eqb (NormalizeMaxReasoningEffort effort) "max") then 1
  else
    let configured := match pricing with
      | Some p => match MaxReasoningEffortMultiplier p with
                  | Some m => if Qltb 0 m then Some m else None
                  | None => None
                  end
      | None => None
      end in
    match configured with
    | Some m => m
    | None => default 1 (defaultMaxReasoningEffortMultiplier model)
    end%Q.

(** ** DeepSeek *)

Definition isDeepSeekModel (model : string) : bool := HasPrefix (ToLower (TrimSpace model)) "deepseek-".
Definition isDeepSeekProModel (model : string) : bool := Contains (ToLower (TrimSpace model)) "deepseek-v4-pro".

(** Twice the price on working days in Beijing, from 1 to 4 and from 6 to 10 UTC. *)
Definition deepseekPeakMultiplierAt (now : Time) : Q :=
  let day := Weekday (Add now (8 * Hour)) in
  let h := now mod Day / Hour in
  if (day =? 6) || (day =? 0) then 1
  else if ((1 <=? h) && (h <? 4)) || ((6 <=? h) && (h <? 10)) then 2 # 1 else 1.

Definition deepseekProRoutesToFlashAt : Time := Add (Date 2026 9 14) (4 * Hour).

Definition deepseekProBilledAsFlash (now pricingAt : Time) : bool :=
  negb (Before (if IsZero pricingAt then now else pricingAt) deepseekProRoutesToFlashAt).

Definition set_standard (input output cacheRead : Q) (p : ModelPricing) : ModelPricing :=
  set_input input (InputPricePerTokenPriority p)
    (set_output output (OutputPricePerTokenPriority p) (set_cache_read cacheRead (CacheReadPricePerTokenPriority p) p)).

Definition deepseek_flash : ModelPricing -> ModelPricing := set_standard (15 # 100000000) (6 # 10000000) (3 # 1000000000).
Definition deepseek_pro : ModelPricing -> ModelPricing := set_standard (66 # 100000000) (198 # 100000000) (22 # 1000000000).

(** ** Corrections for particular models *)

Definition openAIModelFastPricingRatio (normalized : string) : Q :=
  if existsb (String.eqb normalized) ["gpt-5.4"; "gpt-5.6-sol"; "gpt-5.6-terra"; "gpt-5.6-luna"; "gpt-6-astra"]
  then 2 # 1
  else if String.eqb normalized "gpt-5.5" then 5 # 2
  else if isOpenAIGPT6AstraModel normalized then 2 # 1 else 0.

Definition enforceOpenAIFastPricingRatio (ratio : Q) (p : ModelPricing) : ModelPricing :=
  if Qle_bool ratio 0 then p
  else
    (set_input (InputPricePerToken p) (InputPricePerToken p * ratio)
      (set_output (OutputPricePerToken p) (OutputPricePerToken p * ratio)
        (set_cache_read (CacheReadPricePerToken p)
          (if Qltb 0 (CacheReadPricePerToken p) then CacheReadPricePerToken p * ratio else CacheReadPricePerTokenPriority p)
          (set_cache_creation (CacheCreationPricePerToken p)
            (if Qltb 0 (CacheCreationPricePerToken p) then CacheCreationPricePerToken p * ratio
             else CacheCreationPricePerTokenPriority p) p))))%Q.

(** The price of writing to the cache that GPT-5.6 models have where none is given. *)
Definition gpt56_cache_creation (p : ModelPricing) : ModelPricing :=
  if CacheCreationPriceExplicit p then p
  else
    set_cache_creation
      (if Qle_bool (CacheCreationPricePerToken p) 0 then InputPricePerToken p * (5 # 4) else CacheCreationPricePerToken p)
      (if Qle_bool (CacheCreationPricePerTokenPriority p) 0 then InputPricePerTokenPriority p * (5 # 4)
       else CacheCreationPricePerTokenPriority p) p.

Definition applyModelSpecificPricingPolicyEx (model : string) (pricing : ModelPricing) (forceDeepSeekRates : bool)
    (now pricingAt : Time) : ModelPricing :=
  if forceDeepSeekRates && isDeepSeekModel model then
    if isDeepSeekProModel model && negb (deepseekProBilledAsFlash now pricingAt)
    then deepseek_pro pricing else deepseek_flash pricing
  else
    let normalized := default "" (normalizeKnownOpenAICodexModel model) in
    let isGPT56 := isOpenAIGPT56Model normalized in
    let needsEffort := isClaudeFable51Model model && negb (is_set (MaxReasoningEffortMultiplier pricing)) in
    let needsCacheCreation := isGPT56 && negb (CacheCreationPriceExplicit pricing) &&
      (Qle_bool (CacheCreationPricePerToken pricing) 0 ||
       (Qltb 0 (InputPricePerTokenPriority pricing) && Qle_bool (CacheCreationPricePerTokenPriority pricing) 0)) in
    let fastRatio := openAIModelFastPricingRatio normalized in
    if negb needsCacheCreation && Qle_bool fastRatio 0 && negb needsEffort then pricing
    else
      let p := if needsEffort
        then set_tiers (FastMultiplier pricing) (FlexMultiplier pricing) (defaultMaxReasoningEffortMultiplier model) pricing
        else pricing in
      let p := if isGPT56 then gpt56_cache_creation p else p in
      if Qltb 0 fastRatio then enforceOpenAIFastPricingRatio fastRatio p else p.

(** ** The catalog *)

(** The prices of an entry; five minutes and one hour of cache are told apart only if the
hour has a price of its own, above the other. *)
Definition catalog_pricing (l : LiteLLMModelPricing) : ModelPricing :=
  let price5m := CacheCreationInputTokenCost l in
  let price1h := CacheCreationInputTokenCostAbove1hr l in
  mkPricing (InputCostPerToken l) (InputCostPerTokenPriority l) (InputCostPerImageToken l)
    (CacheReadInputImageTokenCost l) (OutputCostPerToken l) (OutputCostPerTokenPriority l)
    (CacheCreationInputTokenCost l) (CacheCreationInputTokenCostPriority l) false
    (CacheReadInputTokenCost l) (CacheReadInputTokenCostPriority l) None None None
    price5m price1h (Qltb 0 price1h && Qltb price5m price1h)
    (LongContextInputTokenThreshold l) (EqualFold (LiteLLMProvider l) "xai")
    (LongContextInputCostMultiplier l) (LongContextOutputCostMultiplier l) (OutputCostPerImageToken l) false.

Definition getModelPricingAt (s : BillingService) (model : string) (now pricingAt : Time) : res ModelPricing :=
  let model := ToLower model in
  let entry := match pricingService s with
    | Some find => match find model with
                   | Some l => if TokenPricingAbsent l then None else Some l
                   | None => None
                   end
    | None => None
    end in
  match entry with
  | Some l => Ok (applyModelSpecificPricingPolicyEx model (catalog_pricing l) true now pricingAt)
  | None =>
      match getFallbackPricing s model with
      | Some fallback => Ok (applyModelSpecificPricingPolicyEx model fallback true now pricingAt)
      | None => Err (ErrWrap "pricing not found for model" ErrModelPricingUnavailable)
      end
  end.

Definition GetModelPricing (s : BillingService) (model : string) (now : Time) : res ModelPricing :=
  getModelPricingAt s model now now.

(** ** Prices of a channel *)

Definition channelTierOverridePrice (baseStandard baseTier channelStandard : Q) : Q :=
  if Qltb 0 baseStandard && Qltb 0 baseTier then channelStandard * (baseTier / baseStandard) else 0.

(** The steps of [applyChannelTokenPriceOverrides], also for the prices of an interval. *)
Definition override_input (price : Q) (p : ModelPricing) : ModelPricing :=
  set_input price (channelTierOverridePrice (InputPricePerToken p) (InputPricePerTokenPriority p) price) p.
Definition override_output (price : Q) (p : ModelPricing) : ModelPricing :=
  set_output price (channelTierOverridePrice (OutputPricePerToken p) (OutputPricePerTokenPriority p) price) p.
Definition override_cache_read (price : Q) (p : ModelPricing) : ModelPricing :=
  set_cache_read price (channelTierOverridePrice (CacheReadPricePerToken p) (CacheReadPricePerTokenPriority p) price) p.
Definition override_cache_write (price : Q) (price1h : option Q) (p : ModelPricing) : ModelPricing :=
  set_cache_creation price
    (channelTierOverridePrice (CacheCreationPricePerToken p) (CacheCreationPricePerTokenPriority p) price)
    (set_cache_flags true (SupportsCacheBreakdown p)
      (set_cache_ttls price (if is_set price1h then CacheCreation1hPrice p else price) p)).
Definition override_1h (price : Q) (p : ModelPricing) : ModelPricing :=
  set_cache_flags (CacheCreationPriceExplicit p) true (set_cache_ttls (CacheCreation5mPrice p) price p).

(** A step for a price that may not be set. *)
Definition if_set (f : Q -> ModelPricing -> ModelPricing) (price : option Q) (p : ModelPricing) : ModelPricing :=
  match price with Some price => f price p | None => p end.

Definition applyChannelTokenPriceOverrides (card : ChannelModelPricing) (p : ModelPricing) : ModelPricing :=
  let p := if_set override_input (cp_InputPrice card) p in
  let p := if_set override_output (cp_OutputPrice card) p in
  let p := if_set (fun price => override_cache_write price (cp_CacheWrite1hPrice card)) (cp_CacheWritePrice card) p in
  let p := if_set override_1h (cp_CacheWrite1hPrice card) p in
  if_set override_cache_read (cp_CacheReadPrice card) p.

(** What a card says about tiers and images: a price of image output or input that it does
not give is zero. *)
Definition apply_card_rest (card : ChannelModelPricing) (p : ModelPricing) : ModelPricing :=
  set_images (default 0%Q (cp_ImageInputPrice card)) (default 0%Q (cp_ImageOutputPrice card)) true
    (set_tiers (cp_FastMultiplier card) (cp_FlexMultiplier card)
      (if is_set (cp_MaxReasoningEffortMultiplier card) then cp_MaxReasoningEffortMultiplier card
       else MaxReasoningEffortMultiplier p) p).

Definition GetModelPricingWithChannel (s : BillingService) (model : string) (card : option ChannelModelPricing) (now : Time) :
    res ModelPricing :=
  match GetModelPricing s model now with
  | Err e => Err e
  | Ok p =>
      match card with
      | None => Ok p
      | Some card => Ok (apply_card_rest card (applyChannelTokenPriceOverrides card p))
      end
  end.

End Models.
