(* ===== verification/PricingResolver.v ===== *)
(** * Which price applies

[service/model_pricing_resolver.go] and [service/group_free_models.go]: the price of a
model for a group is that of the group's own cards, of its list of free models, of the
channel, of the catalog, or a built-in one; and [service/model_pricing_gate.go], which
refuses models that none of them knows. *)
From S2P Require Import Prelude GoText GoTime Composite ModelNames TimePricing ChannelPricing ChannelCache ModelPricing.
From Stdlib Require Import Bool QArith Lqa.

Local Open Scope string_scope.
Local Open Scope Z_scope.

(** ** Data *)

Definition PricingSourceGroup := "group".
Definition PricingSourceChannel := "channel".
Definition PricingSourceLiteLLM := "litellm".
Definition PricingSourceFallback := "fallback".

Record ResolvedPricing : Type := mkResolved {
  Mode : string;
  BasePricing : option ModelPricing;
  Intervals : list PricingInterval;
  RequestTiers : list PricingInterval;
  DefaultPerRequestPrice : Q;
  rp_Source : string;
  rp_SupportsCacheBreakdown : bool;
  channelPricing : option ChannelModelPricing;
  longContextPricingEnabled : bool
}.

(** A group, as far as its prices go. *)
Record PricedGroup : Type := mkPricedGroup {
  group_ID : Z;
  group_ModelPricing : list ChannelModelPricing;
  FreeModels : list string;
  LongContextPricingEnabled : bool
}.

(** [channelService] is the snapshot that the channel service serves while a request is
priced, with the context of the request; [None] if there is no channel service. *)
Record ModelPricingResolver : Type := mkPricingResolver {
  channelService : option (Ctx * res channelCache);
  billingService : BillingService
}.

Section Resolver.
Context `{GoUnicode, GoFields}.

(** ** Free models *)

Definition ErrInvalidFreeModels : goerr := ErrApp 400 "INVALID_GROUP_FREE_MODELS".

Fixpoint normalize_free (models seen out : list string) : res (list string) :=
  match models with
  | [] => Ok out
  | model :: models =>
      let model := TrimSpace model in
      if String.eqb model "" then normalize_free models seen out
      else if Contains (TrimSuffix model "*") "*" then Err ErrInvalidFreeModels
      else
        let key := ToLower model in
        if bool_decide (key ∈ seen) then normalize_free models seen out
        else normalize_free models (key :: seen) (out ++ [model])%list
  end.

Definition normalizeGroupFreeModels (models : list string) : res (list string) := normalize_free models [] [].

(** One entry of [groupFreeModelMatches]. *)
Definition free_entry_matches (target entry : string) : bool :=
  let pattern := normalizeChannelPricingModelName entry in
  if String.eqb pattern "" then false
  else if HasSuffix pattern "*" then HasPrefix target (TrimSuffix pattern "*")
  else String.eqb pattern target.

Definition groupFreeModelMatches (models : list string) (model : string) : bool :=
  let target := normalizeChannelPricingModelName model in
  if String.eqb target "" then false else existsb (free_entry_matches target) models.

Definition GroupModelIsFree (g : option PricedGroup) (model : string) : bool :=
  match g with Some g => groupFreeModelMatches (FreeModels g) model | None => false end.

Definition groupFreeModelPricing (model : string) : ChannelModelPricing :=
  let price := Some 0%Q in
  mkCard "" [model] "" price price price price price None None None price price price [] None.

(** ** Cards of a group *)

Definition groupPriceCardHasValue (p : option ChannelModelPricing) : bool :=
  match p with
  | None => false
  | Some p => existsb is_set (cp_prices p) || existsb interval_has_value (cp_Intervals p)
  end.

(** Whether a pattern is the model's name, or a wildcard above it. *)
Definition exact_pattern (model pattern : string) : bool :=
  String.eqb (normalizeChannelPricingModelName pattern) model.
Definition wildcard_pattern (model pattern : string) : bool :=
  let normalized := normalizeChannelPricingModelName pattern in
  HasSuffix normalized "*" && HasPrefix model (TrimSuffix normalized "*").

(** The patterns of one card: [inl] is the exact hit that ends the search, [inr] the first
wildcard hit so far. *)
Fixpoint match_patterns (entry : ChannelModelPricing) (model : string) (patterns : list string)
    (wildcard : option ChannelModelPricing) : ChannelModelPricing + option ChannelModelPricing :=
  match patterns with
  | [] => inr wildcard
  | pattern :: patterns =>
      if exact_pattern model pattern then inl entry
      else
        match_patterns entry model patterns
          (if wildcard_pattern model pattern && negb (bool_decide (is_Some wildcard)) then Some entry else wildcard)
  end.

Fixpoint match_cards (model : string) (cards : list ChannelModelPricing) (wildcard : option ChannelModelPricing) :
    option ChannelModelPricing :=
  match cards with
  | [] => wildcard
  | entry :: cards =>
      match match_patterns entry model (cp_Models entry) wildcard with
      | inl entry => Some entry
      | inr wildcard => match_cards model cards wildcard
      end
  end.

Definition matchGroupModelPricing (group : option PricedGroup) (model : string) : option ChannelModelPricing :=
  match group with
  | None => None
  | Some group => match_cards (normalizeChannelPricingModelName model) (group_ModelPricing group) None
  end.

(** The loops of [hasGroupModelPriceCard], which judge a card in place. *)
Fixpoint judge_patterns (entry : ChannelModelPricing) (model : string) (patterns : list string)
    (wildcard : option ChannelModelPricing) : bool + option ChannelModelPricing :=
  match patterns with
  | [] => inr wildcard
  | pattern :: patterns =>
      if exact_pattern model pattern then inl (groupPriceCardHasValue (Some entry))
      else
        judge_patterns entry model patterns
          (if wildcard_pattern model pattern && negb (bool_decide (is_Some wildcard)) then Some entry else wildcard)
  end.

Fixpoint judge_cards (model : string) (cards : list ChannelModelPricing) (wildcard : option ChannelModelPricing) : bool :=
  match cards with
  | [] => groupPriceCardHasValue wildcard
  | entry :: cards =>
      match judge_patterns entry model (cp_Models entry) wildcard with
      | inl verdict => verdict
      | inr wildcard => judge_cards model cards wildcard
      end
  end.

Definition hasGroupModelPriceCard (group : option PricedGroup) (model : string) : bool :=
  match group with
  | None => false
  | Some group => judge_cards (normalizeChannelPricingModelName model) (group_ModelPricing group) None
  end.

Definition hasGroupModelPricing (group : option PricedGroup) (model : string) : bool :=
  match group with
  | None => false
  | Some g => if hasGroupModelPriceCard group model then true else groupFreeModelMatches (FreeModels g) model
  end.

Definition groupModelFreeDeclared (group : option PricedGroup) (model : string) : bool :=
  match group with
  | None => false
  | Some g => if negb (groupFreeModelMatches (FreeModels g) model) then false else negb (hasGroupModelPriceCard group model)
  end.

(** The card, and whether the list of free models made it. *)
Definition resolveGroupModelPricing (group : option PricedGroup) (model : string) : option ChannelModelPricing * bool :=
  match group with
  | None => (None, false)
  | Some g =>
      let matched := matchGroupModelPricing group model in
      if groupPriceCardHasValue matched then (matched, false)
      else if groupFreeModelMatches (FreeModels g) model then (Some (groupFreeModelPricing model), true)
      else (None, false)
  end.

(** ** Resolving *)

Definition filterValidIntervals (intervals : list PricingInterval) : list PricingInterval :=
  List.filter interval_has_value intervals.

Definition resolveBasePricing (r : ModelPricingResolver) (model : string) (now : Time) : option ModelPricing * string :=
  match GetModelPricing (billingService r) model now with
  | Err _ => (None, PricingSourceFallback)
  | Ok p => (Some p, PricingSourceLiteLLM)
  end.

Definition set_Base (p : ModelPricing) (breakdown : bool) (intervals : list PricingInterval) (r : ResolvedPricing) : ResolvedPricing :=
  mkResolved (Mode r) (Some p) intervals (RequestTiers r) (DefaultPerRequestPrice r) (rp_Source r) breakdown
    (channelPricing r) (longContextPricingEnabled r).

Definition applyTokenOverrides (card : ChannelModelPricing) (r : ResolvedPricing) : ResolvedPricing :=
  let p := applyChannelTokenPriceOverrides card (default zeroPricing (BasePricing r)) in
  let hours := is_set (cp_CacheWrite1hPrice card) || existsb (fun iv => is_set (iv_CacheWrite1hPrice iv)) (cp_Intervals card) in
  let p := if hours then set_cache_flags (CacheCreationPriceExplicit p) true p else p in
  set_Base (apply_card_rest card p) (rp_SupportsCacheBreakdown r || hours) (filterValidIntervals (cp_Intervals card)) r.

Definition applyRequestTierOverrides (card : ChannelModelPricing) (r : ResolvedPricing) : ResolvedPricing :=
  mkResolved (Mode r) (BasePricing r) (Intervals r) (filterValidIntervals (cp_Intervals card))
    (default (DefaultPerRequestPrice r) (cp_PerRequestPrice card)) (rp_Source r) (rp_SupportsCacheBreakdown r)
    (channelPricing r) (longContextPricingEnabled r).

(** The mode of a card; the empty one counts tokens. *)
Definition mode_of (card : ChannelModelPricing) : string :=
  if String.eqb (cp_BillingMode card) "" then BillingModeToken else cp_BillingMode card.

Definition new_resolved (mode source : string) (card : option ChannelModelPricing) (longContext : bool) : ResolvedPricing :=
  mkResolved mode None [] [] 0 source false card longContext.

(** The prices of the catalog or the table as the base of a result. *)
Definition with_base (base : option ModelPricing) (r : ResolvedPricing) : ResolvedPricing :=
  mkResolved (Mode r) base (Intervals r) (RequestTiers r) (DefaultPerRequestPrice r) (rp_Source r)
    (match base with Some p => SupportsCacheBreakdown p | None => false end) (channelPricing r) (longContextPricingEnabled r).

Definition resolveConfiguredPricing (r : ModelPricingResolver) (config : ChannelModelPricing) (model source : string)
    (longContext : bool) (now : Time) : ResolvedPricing :=
  let mode := mode_of config in
  let resolved := new_resolved mode source (Some config) longContext in
  if counts_requests mode then applyRequestTierOverrides config resolved
  else applyTokenOverrides config (with_base (resolveBasePricing r model now).1 resolved).

Definition zeroOutFreePricing (r : ResolvedPricing) : ResolvedPricing :=
  mkResolved (Mode r) (Some zeroPricing) (Intervals r) [] 0 (rp_Source r) false (channelPricing r) (longContextPricingEnabled r).

Definition set_cp_Intervals (p : ChannelModelPricing) (ivs : list PricingInterval) : ChannelModelPricing :=
  mkCard (cp_Platform p) (cp_Models p) (cp_BillingMode p) (cp_InputPrice p) (cp_OutputPrice p)
    (cp_CacheWritePrice p) (cp_CacheWrite1hPrice p) (cp_CacheReadPrice p) (cp_FastMultiplier p)
    (cp_FlexMultiplier p) (cp_MaxReasoningEffortMultiplier p) (cp_ImageInputPrice p) (cp_ImageOutputPrice p)
    (cp_PerRequestPrice p) ivs (cp_TimePricing p).

(** The name that a variant of an OpenAI model has in the catalog, if it is another. *)
Definition normalized_variant (model : string) : option string :=
  match normalizeKnownOpenAICodexModel model with
  | None => None
  | Some normalized => if EqualFold normalized (TrimSpace model) then None else Some normalized
  end.

Definition lookupChannelPricingNormalized (r : ModelPricingResolver) (groupID : Z) (model : string) : option ChannelModelPricing :=
  match channelService r with
  | None => None
  | Some (ctx, cache) =>
      match GetChannelModelPricing ctx cache groupID model with
      | Some card => Some card
      | None =>
          match normalized_variant model with
          | None => None
          | Some normalized => GetChannelModelPricing ctx cache groupID normalized
          end
      end
  end.

Definition hasChannelPricingNormalized (r : ModelPricingResolver) (groupID : Z) (model : string) : bool :=
  match channelService r with
  | None => false
  | Some (ctx, cache) =>
      if HasChannelModelPricing ctx cache groupID model then true
      else match normalized_variant model with
      | None => false
      | Some normalized => HasChannelModelPricing ctx cache groupID normalized
      end
  end.

(** [Resolve], whose last step looks the channel up again only when it had no card: with
one snapshot it has none then either. *)
Definition Resolve (r : ModelPricingResolver) (model : string) (groupID : option Z) (group : option PricedGroup) (now : Time) :
    ResolvedPricing :=
  let longContext := match group with None => true | Some g => LongContextPricingEnabled g end in
  match resolveGroupModelPricing group model with
  | (Some card, fromFreeList) =>
      let card := if String.eqb (cp_BillingMode card) "" || String.eqb (cp_BillingMode card) BillingModeToken
        then set_cp_Intervals card [] else card in
      let resolved := resolveConfiguredPricing r card model PricingSourceGroup longContext now in
      if fromFreeList then zeroOutFreePricing resolved else resolved
  | (None, _) =>
      let card := groupID ← groupID; lookupChannelPricingNormalized r groupID model in
      match card with
      | Some card =>
          let mode := mode_of card in
          if counts_requests mode
          then applyRequestTierOverrides card (new_resolved mode PricingSourceChannel (Some card) longContext)
          else
            applyTokenOverrides card
              (with_base (resolveBasePricing r model now).1
                (new_resolved BillingModeToken PricingSourceChannel (Some card) longContext))
      | None =>
          let '(base, source) := resolveBasePricing r model now in
          with_base base (new_resolved BillingModeToken source None longContext)
      end
  end.

(** ** Prices of an interval and of a tier *)

(** A price that an interval sets, or a multiplier that it applies instead. *)
Definition price_or_multiplier (price : option Q) (m : option Q) (set_price scale : Q -> ModelPricing -> ModelPricing)
    (p : ModelPricing) : ModelPricing :=
  match price with Some price => set_price price p | None => if_set scale m p end.

Definition scale_cache_write (m : Q) (p : ModelPricing) : ModelPricing :=
  (set_cache_creation (CacheCreationPricePerToken p * m) (CacheCreationPricePerTokenPriority p * m)
    (set_cache_ttls (CacheCreation5mPrice p * m) (CacheCreation1hPrice p * m) p))%Q.

Definition intervalToModelPricing (iv : PricingInterval) (base : option ModelPricing) (card : option ChannelModelPricing) :
    ModelPricing :=
  let p := default zeroPricing base in
  let p := price_or_multiplier (iv_InputPrice iv) (iv_InputMultiplier iv) override_input
    (fun m p => set_input (InputPricePerToken p * m) (InputPricePerTokenPriority p * m) p)%Q p in
  let p := price_or_multiplier (iv_OutputPrice iv) (iv_OutputMultiplier iv) override_output
    (fun m p => set_output (OutputPricePerToken p * m) (OutputPricePerTokenPriority p * m) p)%Q p in
  let p := price_or_multiplier (iv_CacheWritePrice iv) (iv_CacheWriteMultiplier iv)
    (fun price => override_cache_write price (iv_CacheWrite1hPrice iv)) scale_cache_write p in
  let p := if_set override_1h (iv_CacheWrite1hPrice iv) p in
  let p := price_or_multiplier (iv_CacheReadPrice iv) (iv_CacheReadMultiplier iv) override_cache_read
    (fun m p => set_cache_read (CacheReadPricePerToken p * m) (CacheReadPricePerTokenPriority p * m) p)%Q p in
  match card with
  | None => p
  | Some card =>
      set_images (default 0%Q (cp_ImageInputPrice card)) (default (ImageOutputPricePerToken p) (cp_ImageOutputPrice card)) true p
  end.

Definition GetIntervalPricing (resolved : ResolvedPricing) (totalContextTokens : Z) : option ModelPricing :=
  match Intervals resolved with
  | [] => BasePricing resolved
  | intervals =>
      match FindMatchingInterval intervals totalContextTokens with
      | None => BasePricing resolved
      | Some iv =>
          let p := intervalToModelPricing iv (BasePricing resolved) (channelPricing resolved) in
          Some (set_cache_flags (CacheCreationPriceExplicit p) (rp_SupportsCacheBreakdown resolved) p)
      end
  end.

Definition GetRequestTierPrice (resolved : ResolvedPricing) (tierLabel : string) : Q :=
  match find (fun tier => String.eqb (TierLabel tier) tierLabel && is_set (iv_PerRequestPrice tier)) (RequestTiers resolved) with
  | Some tier => default 0%Q (iv_PerRequestPrice tier)
  | None => 0
  end.

Definition GetRequestTierPriceByContext (resolved : ResolvedPricing) (totalContextTokens : Z) : Q :=
  match FindMatchingInterval (RequestTiers resolved) totalContextTokens with
  | Some iv => default 0%Q (iv_PerRequestPrice iv)
  | None => 0
  end.

(** ** The gate *)

(** [HasPricing] of a gate that is wired to a resolver. *)
Definition HasPricing (r : ModelPricingResolver) (model : string) (group : option PricedGroup) (now : Time) : bool :=
  let model := TrimSpace model in
  if String.eqb model "" then false
  else
    match group with
    | Some g =>
        hasGroupModelPricing group model || ((0 <? group_ID g) && hasChannelPricingNormalized r (group_ID g) model) ||
        is_ok (GetModelPricing (billingService r) model now)
    | None => is_ok (GetModelPricing (billingService r) model now)
    end.

Definition HasPricingForGroups (r : ModelPricingResolver) (model : string) (groups : list (option PricedGroup)) (now : Time) : bool :=
  match groups with
  | [] => HasPricing r model None now
  | _ => existsb (fun group => bool_decide (is_Some group) && HasPricing r model group now) groups
  end.

(** The loop of [FilterPriced] and [FilterPricedForGroups] over a test. *)
Fixpoint filter_priced (priced : string -> bool) (models seen : list string) : list string :=
  match models with
  | [] => []
  | model :: models =>
      let trimmed := TrimSpace model in
      if String.eqb trimmed "" || bool_decide (trimmed ∈ seen) || negb (priced trimmed) then filter_priced priced models seen
      else trimmed :: filter_priced priced models (trimmed :: seen)
  end.

Definition FilterPriced (enabled : bool) (r : ModelPricingResolver) (models : list string) (group : option PricedGroup)
    (now : Time) : list string :=
  if negb enabled then models else filter_priced (fun m => HasPricing r m group now) models [].

Definition FilterPricedForGroups (enabled : bool) (r : ModelPricingResolver) (models : list string)
    (groups : list (option PricedGroup)) (now : Time) : list string :=
  if negb enabled then models else filter_priced (fun m => HasPricingForGroups r m groups now) models [].

End Resolver.
