(* ===== verification/TokenCosts.v ===== *)
(** * What a request costs

The costs of [service/billing_service.go]: tokens by kind, the tier of service, long
contexts, caches of five minutes and of an hour, prices by request, and the one entry
[CalculateCostUnified] with [service/billing_token_cost_request.go] in front of it.
Costs, float64 in the code, are rationals. *)
From S2P Require Import Prelude GoText GoTime Composite ModelNames TimePricing ChannelPricing.
From S2P Require Import ChannelCache ModelPricing PricingResolver.
From Stdlib Require Import Bool QArith Lqa.

Local Open Scope string_scope.
Local Open Scope Z_scope.

(** ** Data *)

Record UsageTokens : Type := mkTokens {
  InputTokens : Z;
  ImageInputTokens : Z;
  ImageCacheReadTokens : Z;
  OutputTokens : Z;
  CacheCreationTokens : Z;
  CacheReadTokens : Z;
  CacheCreation5mTokens : Z;
  CacheCreation1hTokens : Z;
  ImageOutputTokens : Z
}.

Record CostBreakdown : Type := mkCost {
  InputCost : Q;
  ImageInputCost : Q;
  OutputCost : Q;
  ImageOutputCost : Q;
  CacheCreationCost : Q;
  CacheReadCost : Q;
  TotalCost : Q;
  ActualCost : Q;
  cost_BillingMode : string;
  LongContextBillingApplied : bool
}.

(** [&CostBreakdown{TotalCost: total, ActualCost: actual, BillingMode: mode}] *)
Definition plain_cost (total actual : Q) (mode : string) : CostBreakdown := mkCost 0 0 0 0 0 0 total actual mode false.

Definition applyCostBreakdownMultiplier (m : Q) (c : CostBreakdown) : CostBreakdown :=
  if Qeq_bool m 1 then c
  else
    mkCost (InputCost c * m) (ImageInputCost c * m) (OutputCost c * m) (ImageOutputCost c * m)
      (CacheCreationCost c * m) (CacheReadCost c * m) (TotalCost c * m) (ActualCost c * m)
      (cost_BillingMode c) (LongContextBillingApplied c).

Definition set_BillingMode (mode : string) (c : CostBreakdown) : CostBreakdown :=
  mkCost (InputCost c) (ImageInputCost c) (OutputCost c) (ImageOutputCost c) (CacheCreationCost c) (CacheReadCost c)
    (TotalCost c) (ActualCost c) mode (LongContextBillingApplied c).

(** [float64(n)] *)
Notation float64 := inject_Z.

(** A negative multiplier counts as zero. *)
Definition not_negative (rate : Q) : Q := if Qltb rate 0 then 0%Q else rate.

(** ** Caches *)

Definition normalizeCacheCreationBreakdown (tokens : UsageTokens) : Z * Z :=
  let t5m := Z.max 0 (CacheCreation5mTokens tokens) in
  let t1h := Z.max 0 (CacheCreation1hTokens tokens) in
  let aggregate := CacheCreationTokens tokens in
  if (aggregate <=? 0) || ((t5m <=? aggregate) && (t1h <=? aggregate -! t5m)) then (t5m, t1h)
  else
    let detailTotal := (float64 t5m + float64 t1h)%Q in
    let normalized5m := Round (float64 aggregate * float64 t5m / detailTotal) in
    let t5m := if aggregate <=? normalized5m then aggregate else normalized5m in
    (t5m, aggregate -! t5m).

Definition computeCacheCreationCost (pricing : ModelPricing) (tokens : UsageTokens) (price m : Q) : Q :=
  (if SupportsCacheBreakdown pricing && (Qltb 0 (CacheCreation5mPrice pricing) || Qltb 0 (CacheCreation1hPrice pricing)) then
    let '(t5m, t1h) := normalizeCacheCreationBreakdown tokens in
    if (t5m =? 0)%Z && (t1h =? 0)%Z && (0 <? CacheCreationTokens tokens)%Z
    then float64 (CacheCreationTokens tokens) * CacheCreation5mPrice pricing * m
    else float64 t5m * CacheCreation5mPrice pricing * m + float64 t1h * CacheCreation1hPrice pricing * m
  else float64 (CacheCreationTokens tokens) * price * m)%Q.

(** ** Long contexts *)

Definition longContextMultiplierOrOne (m : Q) : Q := if Qle_bool m 0 then 1%Q else m.

(** The tokens of a request that count as its context. *)
Definition total_context (tokens : UsageTokens) : Z :=
  InputTokens tokens +! CacheCreationTokens tokens +! CacheReadTokens tokens.

Definition shouldApplySessionLongContextPricing (tokens : UsageTokens) (pricing : ModelPricing) : bool :=
  if LongContextInputThreshold pricing <=? 0 then false
  else if Qle_bool (LongContextInputMultiplier pricing) 1 && Qle_bool (LongContextOutputMultiplier pricing) 1 then false
  else if LongContextThresholdInclusive pricing then LongContextInputThreshold pricing <=? total_context tokens
  else LongContextInputThreshold pricing <? total_context tokens.

(** ** Tokens *)

Section Costs.
Context `{GoUnicode, GoFields}.

(** The price of a tier if the tier has prices of its own and this one is among them. *)
Definition tier_price (priority : bool) (standard tier : Q) : Q := if priority && Qltb 0 tier then tier else standard.

(** The costs of text and image input. *)
Definition input_costs (pricing : ModelPricing) (tokens : UsageTokens) (inputPrice : Q) : Q * Q :=
  (if (0 <? ImageInputTokens tokens)%Z then
    let text := (InputTokens tokens -! ImageInputTokens tokens)%Z in
    let '(text, image) := if (text <? 0)%Z then (0, InputTokens tokens)%Z else (text, ImageInputTokens tokens) in
    let imagePrice := if Qeq_bool (ImageInputPricePerToken pricing) 0 then inputPrice else ImageInputPricePerToken pricing in
    (float64 text * inputPrice, float64 image * imagePrice)
  else (float64 (InputTokens tokens) * inputPrice, 0))%Q.

(** The costs of text and image output. *)
Definition output_costs (pricing : ModelPricing) (tokens : UsageTokens) (outputPrice : Q) : Q * Q :=
  let text := OutputTokens tokens -! ImageOutputTokens tokens in
  let text := if text <? 0 then 0 else text in
  (float64 text * outputPrice,
   if (0 <? ImageOutputTokens tokens)%Z then
     let imagePrice := if Qeq_bool (ImageOutputPricePerToken pricing) 0 && negb (ImageOutputPriceExplicit pricing)
       then outputPrice else ImageOutputPricePerToken pricing in
     float64 (ImageOutputTokens tokens) * imagePrice
   else 0)%Q.

Definition cache_read_cost (pricing : ModelPricing) (tokens : UsageTokens) (cacheReadPrice : Q) : Q :=
  let imageCached := Z.min (Z.max (ImageCacheReadTokens tokens) 0) (Z.max (CacheReadTokens tokens) 0) in
  (if (0 <? imageCached)%Z && Qltb 0 (ImageCacheReadPricePerToken pricing)
   then float64 (CacheReadTokens tokens -! imageCached) * cacheReadPrice + float64 imageCached * ImageCacheReadPricePerToken pricing
   else float64 (CacheReadTokens tokens) * cacheReadPrice)%Q.

(** [computeTokenBreakdown] once it is settled whether the prices of a long context apply. *)
Definition token_breakdown (pricing : ModelPricing) (tokens : UsageTokens) (rateMultiplier : Q) (serviceTier : string)
    (longContext : bool) : CostBreakdown :=
  let rateMultiplier := not_negative rateMultiplier in
  let priority := usePriorityServiceTierPricing serviceTier pricing in
  let tierMultiplier := if priority then 1%Q else configuredServiceTierMultiplier serviceTier pricing in
  let longInput := if longContext then longContextMultiplierOrOne (LongContextInputMultiplier pricing) else 1%Q in
  let longOutput := if longContext then longContextMultiplierOrOne (LongContextOutputMultiplier pricing) else 1%Q in
  let inputPrice := (tier_price priority (InputPricePerToken pricing) (InputPricePerTokenPriority pricing) * longInput)%Q in
  let outputPrice := (tier_price priority (OutputPricePerToken pricing) (OutputPricePerTokenPriority pricing) * longOutput)%Q in
  let cacheReadPrice := (tier_price priority (CacheReadPricePerToken pricing) (CacheReadPricePerTokenPriority pricing) * longInput)%Q in
  let cacheCreationPrice := tier_price priority (CacheCreationPricePerToken pricing) (CacheCreationPricePerTokenPriority pricing) in
  let '(input, imageInput) := input_costs pricing tokens inputPrice in
  let '(output, imageOutput) := output_costs pricing tokens outputPrice in
  let cacheCreation := computeCacheCreationCost pricing tokens cacheCreationPrice longInput in
  let cacheRead := cache_read_cost pricing tokens cacheReadPrice in
  let tiered cost := if Qeq_bool tierMultiplier 1 then cost else (cost * tierMultiplier)%Q in
  let total := (tiered input + tiered imageInput + tiered output + tiered imageOutput + tiered cacheCreation + tiered cacheRead)%Q in
  mkCost (tiered input) (tiered imageInput) (tiered output) (tiered imageOutput) (tiered cacheCreation) (tiered cacheRead)
    total (total * rateMultiplier) "" false.

Definition computeTokenBreakdown (pricing : ModelPricing) (tokens : UsageTokens) (rateMultiplier : Q) (serviceTier : string)
    (applyLongCtx : bool) : CostBreakdown :=
  if applyLongCtx && shouldApplySessionLongContextPricing tokens pricing then
    let baseline := token_breakdown pricing tokens rateMultiplier serviceTier false in
    let c := token_breakdown pricing tokens rateMultiplier serviceTier true in
    mkCost (InputCost c) (ImageInputCost c) (OutputCost c) (ImageOutputCost c) (CacheCreationCost c) (CacheReadCost c)
      (TotalCost c) (ActualCost c) "" (Qltb (ActualCost baseline) (ActualCost c))
  else token_breakdown pricing tokens rateMultiplier serviceTier false.

(** ** The catalog alone *)

Definition calculateCostInternalWithPolicy (s : BillingService) (model : string) (tokens : UsageTokens) (rateMultiplier : Q)
    (serviceTier : string) (card : option ChannelModelPricing) (longContextBillingEnabled : bool) (now : Time) : res CostBreakdown :=
  match GetModelPricingWithChannel s model card now with
  | Err e => Err e
  | Ok pricing => Ok (computeTokenBreakdown pricing tokens rateMultiplier serviceTier longContextBillingEnabled)
  end.

Definition CalculateCost (s : BillingService) (model : string) (tokens : UsageTokens) (rateMultiplier : Q) (now : Time) :
    res CostBreakdown :=
  calculateCostInternalWithPolicy s model tokens rateMultiplier "" None true now.

Definition CalculateCostWithServiceTier (s : BillingService) (model : string) (tokens : UsageTokens) (rateMultiplier : Q)
    (serviceTier : string) (now : Time) : res CostBreakdown :=
  calculateCostInternalWithPolicy s model tokens rateMultiplier serviceTier None true now.

Definition CalculateCostWithConfig (s : BillingService) (model : string) (tokens : UsageTokens) (now : Time) : res CostBreakdown :=
  CalculateCost s model tokens (if Qle_bool (DefaultRateMultiplier s) 0 then 1%Q else DefaultRateMultiplier s) now.

Definition GetEstimatedCost (s : BillingService) (model : string) (input output : Z) (now : Time) : res Q :=
  match CalculateCostWithConfig s model (mkTokens input 0 0 output 0 0 0 0 0) now with
  | Err e => Err e
  | Ok c => Ok (ActualCost c)
  end.

(** ** One entry for all modes *)

Context `{GoZones}.

Record CostInput : Type := mkCostInput {
  ci_Model : string;
  ci_GroupID : option Z;
  ci_Group : option PricedGroup;
  Tokens : UsageTokens;
  RequestCount : Z;
  UsageUnits : Q;
  SizeTier : string;
  RateMultiplier : Q;
  PricingAt : Time;
  ServiceTier : string;
  ReasoningEffort : string;
  Resolver : option ModelPricingResolver;
  Resolved : option ResolvedPricing;
  LongContextBillingEnabled : option bool
}.

Definition resolvedChannelTimeMultiplier (resolved : ResolvedPricing) (at_ : Time) : Q :=
  match channelPricing resolved with
  | Some card => if String.eqb (rp_Source resolved) PricingSourceChannel then MultiplierAt (cp_TimePricing card) at_ else 1%Q
  | None => 1%Q
  end.

(** The prices of DeepSeek's own card double at peak times. *)
Definition deepseek_peak (resolved : ResolvedPricing) (model : string) (pricingAt : Time) (p : ModelPricing) : ModelPricing :=
  let m := deepseekPeakMultiplierAt pricingAt in
  if String.eqb (rp_Source resolved) PricingSourceLiteLLM && isDeepSeekModel model && Qltb 1 m
  then set_standard (InputPricePerToken p * m) (OutputPricePerToken p * m) (CacheReadPricePerToken p * m) p
  else p.

(** Whether prices by the size of the context apply. *)
Definition context_tiers_enabled (resolved : ResolvedPricing) (input : CostInput) : bool :=
  match LongContextBillingEnabled input with Some true => true | _ => longContextPricingEnabled resolved end.

Definition calculateTokenCost (resolved : ResolvedPricing) (input : CostInput) (now : Time) : res CostBreakdown :=
  let tiers := context_tiers_enabled resolved input in
  let pricingContext := if tiers then total_context (Tokens input) else 1 in
  match GetIntervalPricing resolved pricingContext with
  | None => Err (ErrWrap "no pricing available for model" ErrModelPricingUnavailable)
  | Some pricing =>
      let pricingAt := if IsZero (PricingAt input) then now else PricingAt input in
      let pricing := applyModelSpecificPricingPolicyEx (ci_Model input) pricing
        (String.eqb (rp_Source resolved) PricingSourceLiteLLM) now pricingAt in
      let pricing := deepseek_peak resolved (ci_Model input) pricingAt pricing in
      let applyLongCtx := match Intervals resolved with [] => tiers | _ => false end in
      let breakdown := computeTokenBreakdown pricing (Tokens input) (RateMultiplier input) (ServiceTier input) applyLongCtx in
      let breakdown := applyCostBreakdownMultiplier (resolvedChannelTimeMultiplier resolved (PricingAt input)) breakdown in
      Ok (applyCostBreakdownMultiplier
            (maxReasoningEffortBillingMultiplier (ci_Model input) (ReasoningEffort input) (Some pricing)) breakdown)
  end.

Definition calculatePerRequestCost (resolved : ResolvedPricing) (input : CostInput) : CostBreakdown :=
  let units := if Qle_bool (UsageUnits input) 0
    then float64 (if RequestCount input <=? 0 then 1 else RequestCount input) else UsageUnits input in
  let unitPrice := if String.eqb (SizeTier input) "" then 0%Q else GetRequestTierPrice resolved (SizeTier input) in
  let unitPrice := if Qeq_bool unitPrice 0 then GetRequestTierPriceByContext resolved (total_context (Tokens input)) else unitPrice in
  let unitPrice := if Qeq_bool unitPrice 0 then DefaultPerRequestPrice resolved else unitPrice in
  plain_cost (unitPrice * units) (unitPrice * units * RateMultiplier input) "".

Definition set_RateMultiplier (rate : Q) (i : CostInput) : CostInput :=
  mkCostInput (ci_Model i) (ci_GroupID i) (ci_Group i) (Tokens i) (RequestCount i) (UsageUnits i) (SizeTier i) rate
    (PricingAt i) (ServiceTier i) (ReasoningEffort i) (Resolver i) (Resolved i) (LongContextBillingEnabled i).

Definition CalculateCostUnified (s : BillingService) (input : CostInput) (now : Time) : res CostBreakdown :=
  match Resolver input with
  | None =>
      match calculateCostInternalWithPolicy s (ci_Model input) (Tokens input) (RateMultiplier input) (ServiceTier input) None
              (default true (LongContextBillingEnabled input)) now with
      | Err e => Err e
      | Ok c => Ok (applyCostBreakdownMultiplier
                      (maxReasoningEffortBillingMultiplier (ci_Model input) (ReasoningEffort input) None) c)
      end
  | Some r =>
      let resolved := match Resolved input with
        | Some resolved => resolved
        | None => Resolve r (ci_Model input) (ci_GroupID input) (ci_Group input) now
        end in
      let input := set_RateMultiplier (not_negative (RateMultiplier input)) input in
      let breakdown := if counts_requests (Mode resolved) then Ok (calculatePerRequestCost resolved input)
        else calculateTokenCost resolved input now in
      match breakdown with
      | Err e => Err e
      | Ok c => Ok (set_BillingMode (if String.eqb (Mode resolved) "" then BillingModeToken else Mode resolved) c)
      end
  end.

(** [TokenCostRequest], of which [tokenCostInput] makes the input of one request. *)
Record TokenCostRequest : Type := mkRequest {
  tr_Model : string;
  tr_Group : option PricedGroup;
  tr_Tokens : UsageTokens;
  tr_RateMultiplier : Q;
  tr_PricingAt : Time;
  tr_ServiceTier : string;
  tr_ReasoningEffort : string;
  tr_Resolver : option ModelPricingResolver;
  tr_Resolved : option ResolvedPricing
}.

Definition tokenCostInput (req : TokenCostRequest) (resolved : option ResolvedPricing) : CostInput :=
  mkCostInput (tr_Model req) (group_ID <$> tr_Group req) (tr_Group req) (tr_Tokens req) 1 0 "" (tr_RateMultiplier req)
    (tr_PricingAt req) (tr_ServiceTier req) (tr_ReasoningEffort req) (tr_Resolver req) resolved None.

Definition CalculateTokenCostForRequest (s : BillingService) (req : TokenCostRequest) (now : Time) : res CostBreakdown :=
  let unified := CalculateCostUnified s (tokenCostInput req (tr_Resolved req)) now in
  let configured := match tr_Resolved req with
    | Some resolved => String.eqb (rp_Source resolved) PricingSourceGroup || String.eqb (rp_Source resolved) PricingSourceChannel
    | None => false
    end in
  if configured then unified
  else if bool_decide (is_Some (tr_Resolver req)) && bool_decide (is_Some (tr_Group req)) then unified
  else if negb (String.eqb (tr_ReasoningEffort req) "") then unified
  else CalculateCost s (tr_Model req) (tr_Tokens req) (tr_RateMultiplier req) now.

(** ** Searches *)

Definition CalculateWebSearchCost (callCount : Z) (groupPrice : option Q) (rateMultiplier : Q) : CostBreakdown :=
  if callCount <=? 0 then plain_cost 0 0 ""
  else
    let unitPrice := match groupPrice with Some p => if Qltb p 0 then 1 # 100 else p | None => 1 # 100 end in
    let total := (unitPrice * float64 callCount)%Q in
    plain_cost total (total * not_negative rateMultiplier) BillingModePerRequest.

Definition CalculateSearchCost (numCalls : Z) (groupPricePer1k : option Q) (rateMultiplier : Q) : CostBreakdown :=
  if numCalls <=? 0 then plain_cost 0 0 ""
  else
    let price := default (5 # 1)%Q groupPricePer1k in
    if Qle_bool price 0 then plain_cost 0 0 ""
    else
      let total := (price / (1000 # 1) * float64 numCalls)%Q in
      plain_cost total (total * not_negative rateMultiplier) BillingModePerRequest.

End Costs.
