(* ===== verification/CostFacts.v ===== *)
(** * What pricing promises

The gate, the list of free models and the costs agree with each other; costs add up, are
never negative, and follow the counts that the provider has reported. *)
From S2P Require Import Prelude GoText GoTime Composite ModelNames ModelAllowlist TimePricing.
From S2P Require Import ChannelPricing ChannelCache ChannelLookups ModelPricing PricingResolver TokenCosts.
From Stdlib Require Import Bool QArith Qround Qabs Lqa.

Local Open Scope string_scope.
Local Open Scope Z_scope.

(** ** The gate and the cards of a group *)

Section Gate.
Context `{GoUnicode, GoFields}.

Lemma judged_patterns entry model patterns wildcard :
  judge_patterns entry model patterns wildcard =
  match match_patterns entry model patterns wildcard with
  | inl entry => inl (groupPriceCardHasValue (Some entry))
  | inr wildcard => inr wildcard
  end.
Proof.
  revert wildcard. induction patterns as [|p patterns IH]; intros wildcard; cbn; [done|].
  destruct (exact_pattern model p); [done|]. apply IH.
Qed.

Lemma judged_cards model cards wildcard :
  judge_cards model cards wildcard = groupPriceCardHasValue (match_cards model cards wildcard).
Proof.
  revert wildcard. induction cards as [|entry cards IH]; intros wildcard; cbn; [done|].
  rewrite judged_patterns. by destruct (match_patterns _ _ _ _).
Qed.

Lemma judged_group group model :
  hasGroupModelPriceCard group model = groupPriceCardHasValue (matchGroupModelPricing group model).
Proof. destruct group; [apply judged_cards|done]. Qed.

(** C31. The gate and the badge, which judge the cards of a group in place, agree with what
is billed: the gate lets the group's prices count exactly if the billing has a card from
them, and a model is shown as free exactly if it is billed by the list of free models. *)
Theorem gate_agrees_with_billing group model :
  hasGroupModelPricing group model = bool_decide (is_Some (resolveGroupModelPricing group model).1) /\
  groupModelFreeDeclared group model = (resolveGroupModelPricing group model).2.
Proof.
  unfold hasGroupModelPricing, groupModelFreeDeclared, resolveGroupModelPricing. destruct group as [g|]; [|done].
  rewrite judged_group. destruct (groupPriceCardHasValue _) eqn:E.
  - destruct (matchGroupModelPricing _ _) eqn:Em; [|done]. cbn. by destruct (groupFreeModelMatches _ _).
  - by destruct (groupFreeModelMatches _ _).
Qed.

(** A channel whose card is found has a card for the billing as well. *)
Lemma has_channel_card r gid model :
  hasChannelPricingNormalized r gid model = true -> is_Some (lookupChannelPricingNormalized r gid model).
Proof.
  unfold hasChannelPricingNormalized, lookupChannelPricingNormalized. destruct (channelService r) as [[ctx cache]|]; [|done].
  assert (Hhas : forall m, HasChannelModelPricing ctx cache gid m = true -> is_Some (GetChannelModelPricing ctx cache gid m)).
  { intros m. unfold HasChannelModelPricing, GetChannelModelPricing. destruct cache as [c|]; [|done].
    destruct (lookupGroupChannel _ _ _) as [[]|]; [|done]. by destruct (lookupPricingAcrossPlatforms _ _ _ _). }
  destruct (HasChannelModelPricing ctx cache gid model) eqn:E.
  - intros _. destruct (Hhas _ E) as [card ->]. done.
  - destruct (GetChannelModelPricing ctx cache gid model); [done|]. destruct (normalized_variant model); [|done]. apply Hhas.
Qed.

(** What is resolved has a price for tokens, or counts requests. *)
Definition has_price (r : ResolvedPricing) : Prop := counts_requests (Mode r) = true \/ is_Some (BasePricing r).

Lemma configured_has_price r card model source lc now : has_price (resolveConfiguredPricing r card model source lc now).
Proof. unfold resolveConfiguredPricing, has_price. destruct (counts_requests (mode_of card)) eqn:E; [by left|by right]. Qed.

Lemma admitted_has_price r model g now : TrimSpace model = model -> HasPricing r model (Some g) now = true ->
  has_price (Resolve r model (Some (group_ID g)) (Some g) now).
Proof.
  unfold HasPricing. intros ->. destruct (String.eqb _ _); [done|].
  destruct (gate_agrees_with_billing (Some g) model) as [Hgate _]. rewrite Hgate. unfold Resolve.
  destruct (resolveGroupModelPricing _ _) as [[card|] free].
  - intros _. destruct free; [by right|apply configured_has_price].
  - cbn [fst]. rewrite bool_decide_eq_false_2 by (by intros []). cbn [orb]. intros Hp. cbn [mbind option_bind].
    change (match Some (group_ID g) with Some x => lookupChannelPricingNormalized r x model | None => None end)
      with (lookupChannelPricingNormalized r (group_ID g) model).
    destruct (lookupChannelPricingNormalized r (group_ID g) model) as [card|] eqn:El.
    + destruct (counts_requests (mode_of card)) eqn:E; [by left|by right].
    + apply orb_true_iff in Hp as [[_ Hc]%andb_true_iff|Hp].
      * apply has_channel_card in Hc as [? Hc]. congruence.
      * unfold resolveBasePricing. destruct (GetModelPricing _ _ _); [by right|done].
Qed.

Lemma price_at_interval resolved n : is_Some (BasePricing resolved) -> is_Some (GetIntervalPricing resolved n).
Proof.
  intros Hb. unfold GetIntervalPricing. destruct (Intervals resolved); [done|]. by destruct (FindMatchingInterval _ _).
Qed.

Context `{GoZones}.

Lemma priced_is_billed s input now resolved r :
  Resolver input = Some r ->
  resolved = match Resolved input with Some x => x | None => Resolve r (ci_Model input) (ci_GroupID input) (ci_Group input) now end ->
  has_price resolved -> exists cost, CalculateCostUnified s input now = Ok cost.
Proof.
  intros Hr -> Hp. unfold CalculateCostUnified. rewrite Hr. revert Hp.
  generalize (match Resolved input with Some x => x | None => Resolve r (ci_Model input) (ci_GroupID input) (ci_Group input) now end).
  intros resolved Hp. destruct (counts_requests (Mode resolved)) eqn:E; [by eexists|].
  destruct Hp as [Hp|Hp]; [congruence|]. unfold calculateTokenCost.
  match goal with |- context [GetIntervalPricing resolved ?n] => destruct (price_at_interval resolved n Hp) as [p ->] end.
  by eexists.
Qed.

(** C32. What the gate admits for a group can be billed for it: for a model that passes the
gate the calculation of the cost never ends for lack of a price, whichever source has
the price and whatever the request has used. *)
Theorem admitted_models_are_billed s r g now model tokens rate at_ tier effort :
  TrimSpace model = model -> HasPricing r model (Some g) now = true ->
  exists cost, CalculateTokenCostForRequest s (mkRequest model (Some g) tokens rate at_ tier effort (Some r) None) now = Ok cost.
Proof.
  intros Ht Hp. eapply (priced_is_billed _ (tokenCostInput _ None)); [done|done|]. cbn. by apply admitted_has_price.
Qed.

End Gate.

(** ** Free models *)

Record zero_prices (p : ModelPricing) : Prop := {
  zero_input : (InputPricePerToken p == 0)%Q;
  zero_input_prio : (InputPricePerTokenPriority p == 0)%Q;
  zero_image_input : (ImageInputPricePerToken p == 0)%Q;
  zero_image_read : (ImageCacheReadPricePerToken p == 0)%Q;
  zero_output : (OutputPricePerToken p == 0)%Q;
  zero_output_prio : (OutputPricePerTokenPriority p == 0)%Q;
  zero_write : (CacheCreationPricePerToken p == 0)%Q;
  zero_write_prio : (CacheCreationPricePerTokenPriority p == 0)%Q;
  zero_read : (CacheReadPricePerToken p == 0)%Q;
  zero_read_prio : (CacheReadPricePerTokenPriority p == 0)%Q;
  zero_5m : (CacheCreation5mPrice p == 0)%Q;
  zero_1h : (CacheCreation1hPrice p == 0)%Q;
  zero_image_output : (ImageOutputPricePerToken p == 0)%Q
}.

Lemma zero_zero : zero_prices zeroPricing.
Proof. by split. Qed.

Lemma times_zero_l x y : (x == 0 -> x * y == 0)%Q.
Proof. intros ->. ring. Qed.
Lemma times_zero_r x y : (y == 0 -> x * y == 0)%Q.
Proof. intros ->. ring. Qed.
Lemma plus_zero x y : (x == 0 -> y == 0 -> x + y == 0)%Q.
Proof. intros -> ->. ring. Qed.

Create HintDb zero.
#[local] Hint Resolve times_zero_l times_zero_r plus_zero Qeq_refl : zero.
#[local] Hint Resolve zero_input zero_input_prio zero_image_input zero_image_read zero_output zero_output_prio zero_write
  zero_write_prio zero_read zero_read_prio zero_5m zero_1h zero_image_output : zero.

Section Free.
Context `{GoUnicode, GoFields, GoZones}.

Lemma policy_keeps_zero model p now at_ : zero_prices p ->
  zero_prices (applyModelSpecificPricingPolicyEx model p false now at_).
Proof.
  intros Hz. unfold applyModelSpecificPricingPolicyEx. cbn [andb]. destruct (_ && _); [done|].
  assert (Hfast : forall ratio q, zero_prices q -> zero_prices (enforceOpenAIFastPricingRatio ratio q)).
  { intros ratio q Hq. unfold enforceOpenAIFastPricingRatio. destruct (Qle_bool ratio 0); [done|].
    split; cbn; repeat case_match; auto with zero. }
  assert (Hcc : forall q, zero_prices q -> zero_prices (gpt56_cache_creation q)).
  { intros q Hq. unfold gpt56_cache_creation. destruct (CacheCreationPriceExplicit q); [done|].
    split; cbn; repeat case_match; auto with zero. }
  assert (He : zero_prices (set_tiers (FastMultiplier p) (FlexMultiplier p) (defaultMaxReasoningEffortMultiplier model) p))
    by (split; cbn; auto with zero).
  destruct (isClaudeFable51Model model && _); destruct (isOpenAIGPT56Model _); destruct (Qltb 0 _); auto.
Qed.

Lemma input_costs_zero p tokens price : zero_prices p -> (price == 0)%Q ->
  ((input_costs p tokens price).1 == 0 /\ (input_costs p tokens price).2 == 0)%Q.
Proof. intros Hz Hp. unfold input_costs. repeat case_match; cbn; auto with zero. Qed.

Lemma output_costs_zero p tokens price : zero_prices p -> (price == 0)%Q ->
  ((output_costs p tokens price).1 == 0 /\ (output_costs p tokens price).2 == 0)%Q.
Proof. intros Hz Hp. unfold output_costs. cbn. repeat case_match; auto with zero. Qed.

Lemma cache_creation_zero p tokens price m : zero_prices p -> (price == 0)%Q ->
  (computeCacheCreationCost p tokens price m == 0)%Q.
Proof. intros Hz Hp. unfold computeCacheCreationCost. repeat case_match; auto with zero. Qed.

Lemma cache_read_zero p tokens price : zero_prices p -> (price == 0)%Q -> (cache_read_cost p tokens price == 0)%Q.
Proof. intros Hz Hp. unfold cache_read_cost. repeat case_match; auto with zero. Qed.

Lemma tokens_cost_nothing p tokens rate tier long : zero_prices p ->
  (TotalCost (computeTokenBreakdown p tokens rate tier long) == 0 /\
   ActualCost (computeTokenBreakdown p tokens rate tier long) == 0)%Q.
Proof.
  intros Hz. assert (Hb : forall lc, (TotalCost (token_breakdown p tokens rate tier lc) == 0 /\
    ActualCost (token_breakdown p tokens rate tier lc) == 0)%Q).
  { intros lc. unfold token_breakdown. set (prio := usePriorityServiceTierPricing _ _).
    assert (Ht : forall s t, (s == 0 -> t == 0 -> tier_price prio s t == 0)%Q)
      by (intros s t Hs Htt; unfold tier_price; by case_match).
    set (li := if lc then longContextMultiplierOrOne (LongContextInputMultiplier p) else 1%Q).
    set (lo := if lc then longContextMultiplierOrOne (LongContextOutputMultiplier p) else 1%Q).
    match goal with |- context [input_costs p tokens ?pr] =>
      pose proof (input_costs_zero p tokens pr Hz) as Hi; destruct (input_costs p tokens pr) as [i ii] end.
    match goal with |- context [output_costs p tokens ?pr] =>
      pose proof (output_costs_zero p tokens pr Hz) as Ho; destruct (output_costs p tokens pr) as [o io] end.
    destruct Hi as [Hi Hii]; [auto with zero|]. destruct Ho as [Ho Hio]; [auto with zero|]. cbn [fst snd] in *.
    match goal with |- context [computeCacheCreationCost p tokens ?pr ?m] =>
      pose proof (cache_creation_zero p tokens pr m Hz) as Hc end.
    match goal with |- context [cache_read_cost p tokens ?pr] => pose proof (cache_read_zero p tokens pr Hz) as Hr end.
    assert (Htier : forall c t, (c == 0 -> (if Qeq_bool t 1 then c else c * t) == 0)%Q)
      by (intros c t Hc0; case_match; auto with zero).
    cbn [TotalCost ActualCost]. split; [|apply times_zero_l]; auto 20 with zero. }
  unfold computeTokenBreakdown. destruct (_ && _); [|apply Hb]. exact (Hb true).
Qed.

Lemma multiplied_nothing m c : (TotalCost c == 0 /\ ActualCost c == 0 ->
  TotalCost (applyCostBreakdownMultiplier m c) == 0 /\ ActualCost (applyCostBreakdownMultiplier m c) == 0)%Q.
Proof. intros [Ht Ha]. unfold applyCostBreakdownMultiplier. case_match; cbn; auto with zero. Qed.

(** C33. A model on a group's list of free models that no card of the group prices costs
nothing, whatever the channel, the catalog or the built-in table say: for every usage,
tier, effort, multiplier and time the cost is calculated, and it is zero. *)
Theorem free_models_cost_nothing s r g now input :
  Resolver input = Some r -> Resolved input = None -> ci_Group input = Some g ->
  groupModelFreeDeclared (Some g) (ci_Model input) = true ->
  exists cost, CalculateCostUnified s input now = Ok cost /\ (TotalCost cost == 0)%Q /\ (ActualCost cost == 0)%Q.
Proof.
  intros Hr Hres Hg Hf. destruct (gate_agrees_with_billing (Some g) (ci_Model input)) as [Hgate Hfree].
  unfold CalculateCostUnified. rewrite Hr, Hres, Hg. unfold Resolve. rewrite Hfree in Hf. clear Hfree Hgate.
  destruct (resolveGroupModelPricing (Some g) (ci_Model input)) as [card free] eqn:E. cbn in Hf. subst free.
  assert (card = Some (groupFreeModelPricing (ci_Model input))) as ->.
  { unfold resolveGroupModelPricing in E. destruct (groupPriceCardHasValue _); [done|].
    destruct (groupFreeModelMatches _ _); [by injection E as <-|done]. }
  cbn -[calculateTokenCost not_negative GetModelPricing].
  match goal with |- context [calculateTokenCost ?res ?i now] =>
    assert (exists c, calculateTokenCost res i now = Ok c /\ (TotalCost c == 0 /\ ActualCost c == 0)%Q) as (c & -> & Hc) end;
    [|eexists; split; [done|exact Hc]].
  unfold calculateTokenCost. cbn -[applyModelSpecificPricingPolicyEx not_negative applyCostBreakdownMultiplier
    maxReasoningEffortBillingMultiplier computeTokenBreakdown]. eexists. split; [done|].
  apply multiplied_nothing, multiplied_nothing, tokens_cost_nothing.
  apply policy_keeps_zero, zero_zero.
Qed.

End Free.

(** ** Caches of five minutes and of an hour *)

Lemma Round_nonneg x : (0 <= x)%Q -> Round x = Qfloor (x + (1 # 2)).
Proof. intros Hx. unfold Round. destruct (Qltb_spec x 0); [lra|done]. Qed.

(** A share of an aggregate, rounded: within half a token of the exact one. *)
Lemma Round_share a x n : 0 <= a -> 0 <= x <= n -> 0 < n ->
  0 <= Round (inject_Z a * inject_Z x / inject_Z n) <= a /\
  2 * Z.abs (Round (inject_Z a * inject_Z x / inject_Z n) * n - a * x) <= n.
Proof.
  intros Ha Hx Hn. assert (Hq : (inject_Z a * inject_Z x / inject_Z n == (a * x) # Z.to_pos n)%Q).
  { unfold Qdiv, Qeq, Qmult, Qinv, inject_Z. cbn. destruct n as [|n|n]; [lia| |lia]. cbn. lia. }
  assert (Hfl : Round (inject_Z a * inject_Z x / inject_Z n) = (2 * (a * x) + n) / (2 * n)).
  { rewrite Round_nonneg.
    - rewrite Hq. unfold Qfloor, Qplus. cbn. destruct n as [|n|n]; [lia| |lia]. cbn.
      f_equal; lia.
    - rewrite Hq. unfold Qle. cbn. nia. }
  rewrite Hfl. clear Hq Hfl. pose proof (Z.div_mod (2 * (a * x) + n) (2 * n) ltac:(lia)) as Hd.
  pose proof (Z.mod_pos_bound (2 * (a * x) + n) (2 * n) ltac:(lia)) as Hm.
  set (q := (2 * (a * x) + n) / (2 * n)) in *. set (m := (2 * (a * x) + n) mod (2 * n)) in *.
  split; [split|]; [apply Z.div_pos; nia| |nia].
  assert (q < a + 1); [|lia]. apply Z.div_lt_upper_bound; nia.
Qed.

(** The tokens of the two caches that are billed: reports that fit their aggregate are
billed as they are; reports that contradict it are billed as the aggregate, split in the
reported ratio to within half a token.  Negative reports count as none. *)
Theorem cache_breakdown_fits tokens t5m t1h x y :
  in_i64 (CacheCreationTokens tokens) -> t5m = Z.max 0 (CacheCreation5mTokens tokens) ->
  t1h = Z.max 0 (CacheCreation1hTokens tokens) -> normalizeCacheCreationBreakdown tokens = (x, y) ->
  0 <= x /\ 0 <= y /\
  (CacheCreationTokens tokens <= 0 \/ t5m + t1h <= CacheCreationTokens tokens -> x = t5m /\ y = t1h) /\
  (0 < CacheCreationTokens tokens < t5m + t1h ->
     x + y = CacheCreationTokens tokens /\ 2 * Z.abs (x * (t5m + t1h) - CacheCreationTokens tokens * t5m) <= t5m + t1h).
Proof.
  intros Hrange -> -> E. unfold normalizeCacheCreationBreakdown in E.
  set (t5m := Z.max 0 (CacheCreation5mTokens tokens)) in *. set (t1h := Z.max 0 (CacheCreation1hTokens tokens)) in *.
  set (a := CacheCreationTokens tokens) in *.
  assert (0 <= t5m /\ 0 <= t1h) as [H5 H1] by lia. destruct (_ || _) eqn:Ec.
  - injection E as <- <-. split; [lia|]. split; [lia|]. split; [done|]. intros Hbig. exfalso.
    apply orb_true_iff in Ec as [Hc|[Hc1 Hc2]%andb_true_iff]; bool_prop; [lia|].
    rewrite i64_id in * by go_lia. lia.
  - apply orb_false_iff in Ec as [Hc1%Z.leb_gt Hc2].
    assert (Hbig : a < t5m + t1h).
    { apply andb_false_iff in Hc2 as [Hc2%Z.leb_gt|Hc2%Z.leb_gt]; [lia|].
      destruct (decide (a < t5m)); [lia|]. rewrite i64_id in Hc2 by go_lia. lia. }
    destruct (Round_share a t5m (t5m + t1h)) as [Hr Hs]; [lia..|].
    rewrite inject_Z_plus in Hr, Hs.
    set (n := Round (inject_Z a * inject_Z t5m / (inject_Z t5m + inject_Z t1h))) in *.
    assert (E' : x = n /\ y = a - n).
    { destruct (Z.leb_spec a n); injection E as <- <-; rewrite i64_id by go_lia; lia. }
    destruct E' as [-> ->]. split; [lia|]. split; [lia|]. split; [lia|]. intros _. split; [lia|exact Hs].
Qed.

Example contradicting_reports :
  normalizeCacheCreationBreakdown (mkTokens 0 0 0 0 100 0 90 60 0) = (60, 40) /\
  normalizeCacheCreationBreakdown (mkTokens 0 0 0 0 0 0 90 (-1) 0) = (90, 0).
Proof. by vm_compute. Qed.

Lemma cache_breakdown_fits_witness : 60 + 40 = 100 /\ 2 * Z.abs (60 * 150 - 100 * 90) <= 150.
Proof.
  destruct (cache_breakdown_fits (mkTokens 0 0 0 0 100 0 90 60 0) 90 60 60 40) as (_ & _ & _ & H); [by vm_compute..|].
  apply H. by vm_compute.
Defined.

(** ** Images among the input *)

Definition without_images (t : UsageTokens) : UsageTokens :=
  mkTokens (InputTokens t) 0 (ImageCacheReadTokens t) (OutputTokens t) (CacheCreationTokens t) (CacheReadTokens t)
    (CacheCreation5mTokens t) (CacheCreation1hTokens t) (ImageOutputTokens t).

Lemma split_input p tokens price : (ImageInputPricePerToken p == 0)%Q -> 0 <= InputTokens tokens < two63 ->
  0 <= ImageInputTokens tokens < two63 ->
  ((input_costs p tokens price).1 + (input_costs p tokens price).2 ==
   (input_costs p (without_images tokens) price).1 + (input_costs p (without_images tokens) price).2)%Q.
Proof.
  intros Hz Hi Him. unfold input_costs. cbn [ImageInputTokens without_images InputTokens].
  rewrite (proj2 (Z.ltb_ge 0 0)) by lia. destruct (Z.ltb_spec 0 (ImageInputTokens tokens)); [|done].
  rewrite (Qeq_eq_bool _ _ Hz), i64_id by go_lia. case_Z; cbn [fst snd]; [|unfold Z.sub; rewrite inject_Z_plus, inject_Z_opp];
    rewrite ?inject_Z_plus; ring.
Qed.

Section Images.
Context `{GoUnicode}.

(** Telling image tokens from text tokens does not change what a request costs unless
images have a price of their own: the total is the one of text alone, in every tier and
context. *)
Theorem images_leave_the_total p tokens rate tier long :
  (ImageInputPricePerToken p == 0)%Q -> 0 <= InputTokens tokens < two63 -> 0 <= ImageInputTokens tokens < two63 ->
  (TotalCost (computeTokenBreakdown p tokens rate tier long) ==
   TotalCost (computeTokenBreakdown p (without_images tokens) rate tier long))%Q.
Proof.
  intros Hz Hi Him. assert (Hb : forall lc, (TotalCost (token_breakdown p tokens rate tier lc) ==
    TotalCost (token_breakdown p (without_images tokens) rate tier lc))%Q).
  { intros lc. unfold token_breakdown. set (prio := usePriorityServiceTierPricing _ _).
    match goal with |- context [input_costs p tokens ?pr] => pose proof (split_input p tokens pr Hz Hi Him) as Hs;
      destruct (input_costs p tokens pr) as [i ii], (input_costs p (without_images tokens) pr) as [i' ii'] end.
    cbn [fst snd] in Hs.
    change (output_costs p (without_images tokens)) with (output_costs p tokens).
    change (computeCacheCreationCost p (without_images tokens)) with (computeCacheCreationCost p tokens).
    change (cache_read_cost p (without_images tokens)) with (cache_read_cost p tokens).
    destruct (output_costs _ _ _) as [o io]. cbn [TotalCost].
    destruct (Qeq_bool _ 1); [by rewrite Hs|].
    rewrite <- !Qmult_plus_distr_l. by rewrite Hs. }
  unfold computeTokenBreakdown. change (shouldApplySessionLongContextPricing (without_images tokens) p) with
    (shouldApplySessionLongContextPricing tokens p). destruct (_ && _); [|apply Hb]. exact (Hb true).
Qed.

End Images.

Lemma images_leave_the_total_witness :
  (TotalCost (@computeTokenBreakdown AsciiUnicode (set_input (1 # 2) (3 # 4) zeroPricing) (mkTokens 30 12 0 0 0 0 0 0 0) 1 "fast" true) ==
   TotalCost (@computeTokenBreakdown AsciiUnicode (set_input (1 # 2) (3 # 4) zeroPricing) (mkTokens 30 0 0 0 0 0 0 0 0) 1 "fast" true))%Q.
Proof.
  apply (@images_leave_the_total AsciiUnicode (set_input (1 # 2) (3 # 4) zeroPricing) (mkTokens 30 12 0 0 0 0 0 0 0) 1 "fast" true);
    by vm_compute.
Defined.
