(* ===== verification/CostBounds.v ===== *)
(** * Costs are sums of their parts and never negative

From validated cards and a catalog without negative prices, through every step that
overrides, scales or corrects a price, to the cost of a request. *)
From S2P Require Import Prelude GoText GoTime Composite ModelNames ModelAllowlist TimePricing.
From S2P Require Import ChannelPricing ChannelCache ChannelLookups ModelPricing PricingResolver TokenCosts.
From Stdlib Require Import Bool QArith Qround Qabs Lqa.

Local Open Scope string_scope.
Local Open Scope Z_scope.

Create HintDb fair.

(** ** Prices *)

Definition opt_fair (q : option Q) : Prop := forall x, q = Some x -> (0 <= x)%Q.

Record fair (p : ModelPricing) : Prop := {
  fair_input : (0 <= InputPricePerToken p)%Q;
  fair_input_prio : (0 <= InputPricePerTokenPriority p)%Q;
  fair_image_input : (0 <= ImageInputPricePerToken p)%Q;
  fair_image_read : (0 <= ImageCacheReadPricePerToken p)%Q;
  fair_output : (0 <= OutputPricePerToken p)%Q;
  fair_output_prio : (0 <= OutputPricePerTokenPriority p)%Q;
  fair_write : (0 <= CacheCreationPricePerToken p)%Q;
  fair_write_prio : (0 <= CacheCreationPricePerTokenPriority p)%Q;
  fair_read : (0 <= CacheReadPricePerToken p)%Q;
  fair_read_prio : (0 <= CacheReadPricePerTokenPriority p)%Q;
  fair_5m : (0 <= CacheCreation5mPrice p)%Q;
  fair_1h : (0 <= CacheCreation1hPrice p)%Q;
  fair_image_output : (0 <= ImageOutputPricePerToken p)%Q;
  fair_fast : opt_fair (FastMultiplier p);
  fair_flex : opt_fair (FlexMultiplier p)
}.

Lemma zero_is_fair : fair zeroPricing.
Proof. split; try done; by intros x [=]. Qed.

Lemma tier_override_fair a b c : (0 <= c -> 0 <= channelTierOverridePrice a b c)%Q.
Proof.
  intros Hc. unfold channelTierOverridePrice. destruct (Qltb_spec 0 a), (Qltb_spec 0 b); cbn; try done.
  apply Qmult_le_0_compat; [done|]. apply Qlt_le_weak, Qlt_shift_div_l; [done|]. lra.
Qed.

Lemma inject_fair z : 0 <= z -> (0 <= inject_Z z)%Q.
Proof. intros Hz. by rewrite <- (Zle_Qle 0). Qed.

#[export] Hint Resolve zero_is_fair tier_override_fair Qmult_le_0_compat inject_fair Qle_refl : fair.
#[export] Hint Resolve fair_input fair_input_prio fair_image_input fair_image_read fair_output fair_output_prio fair_write
  fair_write_prio fair_read fair_read_prio fair_5m fair_1h fair_image_output fair_fast fair_flex : fair.

(** [fair_fields]: the fields of an updated price, one by one. *)
Ltac fair_fields := split; cbn; repeat case_match; auto 10 with fair; try discriminate.

Section Fairness.
Context `{GoUnicode, GoFields}.

Lemma deepseek_fair p : fair p -> fair (deepseek_flash p) /\ fair (deepseek_pro p).
Proof. intros Hp. split; fair_fields. Qed.

Lemma fast_ratio_fair ratio p : fair p -> fair (enforceOpenAIFastPricingRatio ratio p).
Proof.
  intros Hp. unfold enforceOpenAIFastPricingRatio. destruct (Qle_bool ratio 0) eqn:E; [done|].
  assert (0 <= ratio)%Q by (apply Qlt_le_weak, Qnot_le_lt; rewrite <- Qle_bool_iff; congruence). fair_fields.
Qed.

Lemma gpt56_fair p : fair p -> fair (gpt56_cache_creation p).
Proof.
  intros Hp. unfold gpt56_cache_creation. destruct (CacheCreationPriceExplicit p); [done|].
  assert (0 <= 5 # 4)%Q by done. fair_fields.
Qed.

Lemma policy_fair model p force now at_ : fair p -> fair (applyModelSpecificPricingPolicyEx model p force now at_).
Proof.
  intros Hp. unfold applyModelSpecificPricingPolicyEx. destruct (force && _).
  - destruct (_ && _); by apply deepseek_fair.
  - destruct (_ && _); [done|].
    assert (He : fair (set_tiers (FastMultiplier p) (FlexMultiplier p) (defaultMaxReasoningEffortMultiplier model) p)) by fair_fields.
    destruct (isClaudeFable51Model model && _); destruct (isOpenAIGPT56Model _); destruct (Qltb 0 _);
      auto using fast_ratio_fair, gpt56_fair.
Qed.

Lemma peak_fair resolved model at_ p : fair p -> fair (deepseek_peak resolved model at_ p).
Proof.
  intros Hp. unfold deepseek_peak. destruct (_ && _) eqn:E; [|done]. apply andb_true_iff in E as [_ E].
  destruct (Qltb_spec 1 (deepseekPeakMultiplierAt at_)) as [Hm|]; [|done].
  assert (0 <= deepseekPeakMultiplierAt at_)%Q by lra. fair_fields.
Qed.

(** An entry of the catalog without negative prices. *)
Definition fair_entry (l : LiteLLMModelPricing) : Prop :=
  Forall (Qle 0) [InputCostPerToken l; InputCostPerTokenPriority l; OutputCostPerToken l; OutputCostPerTokenPriority l;
    CacheCreationInputTokenCost l; CacheCreationInputTokenCostPriority l; CacheCreationInputTokenCostAbove1hr l;
    CacheReadInputTokenCost l; CacheReadInputTokenCostPriority l; OutputCostPerImageToken l; InputCostPerImageToken l;
    CacheReadInputImageTokenCost l].

Definition fair_service (s : BillingService) : Prop :=
  (forall find m l, pricingService s = Some find -> find m = Some l -> fair_entry l) /\
  (forall m p, getFallbackPricing s m = Some p -> fair p).

Lemma catalog_fair l : fair_entry l -> fair (catalog_pricing l).
Proof. intros Hl. unfold fair_entry in Hl. rewrite !Forall_cons in Hl. destruct_and! Hl. split; cbn; done. Qed.

Lemma catalog_price_fair s model now p : fair_service s -> GetModelPricing s model now = Ok p -> fair p.
Proof.
  intros [Hs Hf] E. unfold GetModelPricing, getModelPricingAt in E.
  destruct (pricingService s) as [find|] eqn:Es.
  - destruct (find (ToLower model)) as [l|] eqn:El; [destruct (TokenPricingAbsent l)|].
    + destruct (getFallbackPricing s _) eqn:Eg; [|done]. injection E as <-. eapply policy_fair, Hf, Eg.
    + injection E as <-. eapply policy_fair, catalog_fair, Hs; done.
    + destruct (getFallbackPricing s _) eqn:Eg; [|done]. injection E as <-. eapply policy_fair, Hf, Eg.
  - destruct (getFallbackPricing s _) eqn:Eg; [|done]. injection E as <-. eapply policy_fair, Hf, Eg.
Qed.

(** ** Cards *)

Definition fair_interval (iv : PricingInterval) : Prop := Forall opt_fair (iv_prices iv) /\ Forall opt_fair (iv_multipliers iv).

Definition fair_card (card : ChannelModelPricing) : Prop :=
  Forall opt_fair (cp_prices card) /\ opt_fair (cp_FastMultiplier card) /\ opt_fair (cp_FlexMultiplier card) /\
  Forall fair_interval (cp_Intervals card).

Lemma existsb_none {A} (f : A -> bool) l : existsb f l = false -> Forall (fun x => f x = false) l.
Proof. induction l as [|x l IH]; cbn; [constructor|]. intros [? ?]%orb_false_iff. constructor; auto. Qed.

Lemma not_negative_fair q : negative q = false -> opt_fair q.
Proof. intros Hn x ->. cbn in Hn. destruct (Qltb_spec x 0); [done|]. lra. Qed.

Lemma positive_fair q : not_positive q = false -> opt_fair q.
Proof.
  intros Hn x ->. cbn in Hn. apply Qlt_le_weak, Qnot_le_lt. rewrite <- Qle_bool_iff. congruence.
Qed.

Lemma checked_fair (f : option Q -> bool) l : (forall q, f q = false -> opt_fair q) -> existsb f l = false -> Forall opt_fair l.
Proof. intros Hf Hl. eapply Forall_impl; [by apply existsb_none|]. exact Hf. Qed.

Context `{GoZones}.

Lemma interval_validated iv : validateSingleInterval iv = None -> fair_interval iv.
Proof.
  intros [_ Hv]%single_proper. unfold validateIntervalPrices in Hv.
  destruct (existsb negative _) eqn:E1; [done|]. destruct (existsb not_positive _) eqn:E2; [done|].
  split; [by apply (checked_fair _ _ not_negative_fair)|by apply (checked_fair _ _ positive_fair)].
Qed.

(** Cards that are validated are fair. *)
Lemma validated_cards_are_fair cards cards' : validatePricingEntries cards = Ok cards' -> Forall fair_card cards'.
Proof.
  unfold validatePricingEntries. destruct (validateNoConflictingModels cards); [done|].
  destruct (validatePricingIntervals cards) eqn:Ei; [done|]. destruct (validatePricingBillingMode cards) eqn:Em; [done|].
  unfold validatePricingIntervals in Ei. apply first_error_none in Ei. apply first_error_none in Em.
  intros E. assert (Hf : Forall fair_card cards).
  { apply Forall_forall. intros card Hin. rewrite Forall_forall in Ei, Em. specialize (Ei _ Hin). specialize (Em _ Hin). cbn in Ei, Em.
    destruct (ValidateIntervals _ _) eqn:Ev; [done|]. destruct (checkBillingModeRequirements card); [done|].
    destruct (checkPricesNotNegative card) eqn:Ep; [done|]. unfold checkPricesNotNegative in Ep.
    destruct (existsb negative _) eqn:E1; [done|]. destruct (existsb not_positive _) eqn:E2; [done|].
    cbn [existsb] in E2. rewrite !orb_false_iff in E2. destruct E2 as (E2 & E3 & _).
    split; [by apply (checked_fair _ _ not_negative_fair)|]. split; [by apply positive_fair|]. split; [by apply positive_fair|].
    unfold ValidateIntervals in Ev. destruct (cp_Intervals card) as [|iv0 ivs] eqn:EI; [constructor|]. rewrite <- EI in *.
    destruct (first_error _ _) eqn:Ef; [done|]. apply first_error_none in Ef.
    rewrite (stable_sort_perm min_below) in Ef. eapply Forall_impl; [exact Ef|]. apply interval_validated. }
  clear Ei Em. revert cards' E. induction cards as [|card cards IH]; intros cards' E; cbn in E; [by injection E as <-|].
  apply Forall_cons in Hf as [Hc Hf].
  assert (Hone : forall x, match cp_TimePricing card with
            | None => Ok card
            | Some config => match Periods config with
                | [] => Ok (set_TimePricing card None)
                | _ => if negb (String.eqb (cp_BillingMode card) "") && negb (String.eqb (cp_BillingMode card) BillingModeToken)
                    then Err ErrTimePricingMode
                    else match validateChannelTimePricing (Some config) with Some _ => Err ErrInvalidTimePricing | None => Ok card end
                end
            end = Ok x -> fair_card x).
  { intros x. destruct (cp_TimePricing card) as [config|]; [|by intros [= <-]].
    destruct (Periods config); [by intros [= <-]|]. destruct (_ && _); [done|].
    destruct (validateChannelTimePricing _); [done|by intros [= <-]]. }
  destruct (match cp_TimePricing card with Some _ => _ | None => _ end) as [x|] eqn:Ex; [|done].
  destruct (validatePricingTimePricing cards) as [xs|]; [|done]. injection E as <-. constructor; [by apply Hone|by apply IH].
Qed.

(** ** Overrides *)

Lemma default_fair d q : (0 <= d)%Q -> opt_fair q -> (0 <= default d q)%Q.
Proof. intros Hd Hq. destruct q as [x|]; [by apply Hq|done]. Qed.

Lemma if_set_fair f q p : (forall x p, (0 <= x)%Q -> fair p -> fair (f x p)) -> opt_fair q -> fair p -> fair (if_set f q p).
Proof. intros Hf Hq Hp. destruct q as [x|]; [|done]. apply Hf; [by apply Hq|done]. Qed.

Lemma override_input_fair x p : (0 <= x)%Q -> fair p -> fair (override_input x p).
Proof. intros Hx Hp. fair_fields. Qed.
Lemma override_output_fair x p : (0 <= x)%Q -> fair p -> fair (override_output x p).
Proof. intros Hx Hp. fair_fields. Qed.
Lemma override_read_fair x p : (0 <= x)%Q -> fair p -> fair (override_cache_read x p).
Proof. intros Hx Hp. fair_fields. Qed.
Lemma override_write_fair q x p : (0 <= x)%Q -> fair p -> fair (override_cache_write x q p).
Proof. intros Hx Hp. fair_fields. Qed.
Lemma override_1h_fair x p : (0 <= x)%Q -> fair p -> fair (override_1h x p).
Proof. intros Hx Hp. fair_fields. Qed.
Lemma flags_fair a b p : fair p -> fair (set_cache_flags a b p).
Proof. intros Hp. fair_fields. Qed.
Lemma images_fair a b c p : (0 <= a -> 0 <= b -> fair p -> fair (set_images a b c p))%Q.
Proof. intros Ha Hb Hp. fair_fields. Qed.

Hint Resolve if_set_fair override_input_fair override_output_fair override_read_fair override_write_fair override_1h_fair
  flags_fair images_fair default_fair : fair.

Lemma overridden_fair card p : fair_card card -> fair p -> fair (apply_card_rest card (applyChannelTokenPriceOverrides card p)).
Proof.
  intros (Hc & Hfast & Hflex & _) Hp. unfold cp_prices in Hc. rewrite !Forall_cons in Hc. destruct_and! Hc.
  assert (Ho : fair (applyChannelTokenPriceOverrides card p)) by (unfold applyChannelTokenPriceOverrides; auto 20 with fair).
  unfold apply_card_rest. apply images_fair; [by apply default_fair..|].
  split; cbn; auto with fair.
Qed.

(** ** What is resolved *)

Record fair_resolved (r : ResolvedPricing) : Prop := {
  fair_base : forall p, BasePricing r = Some p -> fair p;
  fair_intervals : Forall fair_interval (Intervals r);
  fair_tiers : Forall fair_interval (RequestTiers r);
  fair_default : (0 <= DefaultPerRequestPrice r)%Q;
  fair_channel : forall card, channelPricing r = Some card -> fair_card card
}.

(** The prices behind a resolver: the catalog's, and those of the cards that channels
answer. *)
Definition fair_resolver (r : ModelPricingResolver) : Prop :=
  fair_service (billingService r) /\
  forall gid model card, lookupChannelPricingNormalized r gid model = Some card -> fair_card card.

Lemma valid_intervals_fair ivs : Forall fair_interval ivs -> Forall fair_interval (filterValidIntervals ivs).
Proof.
  intros Hf. apply Forall_forall. intros iv Hin%list_elem_of_In. apply filter_In in Hin as [Hin%list_elem_of_In _].
  rewrite Forall_forall in Hf. auto.
Qed.

Lemma token_overrides_fair card r : fair_card card -> fair_resolved r -> fair_resolved (applyTokenOverrides card r).
Proof.
  intros Hc [Hb Hi Ht Hd Hch]. split; cbn; [|by apply valid_intervals_fair, Hc|done..].
  intros p [= <-]. assert (Hbase : fair (default zeroPricing (BasePricing r))).
  { destruct (BasePricing r); [by apply Hb|apply zero_is_fair]. }
  assert (Hflag : forall q a b, fair (apply_card_rest card q) -> fair (apply_card_rest card (set_cache_flags a b q))).
  { intros q a b []. split; cbn; done. }
  destruct (_ || _); [apply Hflag|]; by apply overridden_fair.
Qed.

Lemma tier_overrides_fair card r : fair_card card -> fair_resolved r -> fair_resolved (applyRequestTierOverrides card r).
Proof.
  intros (Hc & _ & _ & Hiv) [Hb Hi Ht Hd Hch]. split; cbn; [done..| by apply valid_intervals_fair| |done].
  apply default_fair; [done|]. unfold cp_prices in Hc. rewrite !Forall_cons in Hc. by destruct_and! Hc.
Qed.

Lemma new_fair mode source card lc : (forall c, card = Some c -> fair_card c) -> fair_resolved (new_resolved mode source card lc).
Proof. intros Hc. by split. Qed.

Lemma based_fair b r : (forall p, b = Some p -> fair p) -> fair_resolved r -> fair_resolved (with_base b r).
Proof. intros Hp [Hb Hi Ht Hd Hch]. by split. Qed.

Lemma base_fair r model now p : fair_service (billingService r) -> (resolveBasePricing r model now).1 = Some p -> fair p.
Proof.
  intros Hs. unfold resolveBasePricing. destruct (GetModelPricing _ _ _) eqn:E; [|done]. intros [= <-]. by eapply catalog_price_fair.
Qed.

Lemma free_card_fair model : fair_card (groupFreeModelPricing model).
Proof. repeat split; try (intros x [= <-]; done); repeat constructor; by intros x [= <-]. Qed.

Lemma matched_card_in model cards wildcard card : match_cards model cards wildcard = Some card ->
  card ∈ cards \/ wildcard = Some card.
Proof.
  revert wildcard. induction cards as [|entry cards IH]; intros wildcard; cbn; [by right|].
  assert (Hp : forall patterns w, match match_patterns entry model patterns w with
    | inl e => e = entry | inr w' => w' = w \/ w' = Some entry end).
  { induction patterns as [|p patterns IHp]; intros w; cbn; [by left|]. destruct (exact_pattern model p); [done|].
    destruct (_ && _).
    - specialize (IHp (Some entry)). destruct (match_patterns _ _ _ _); [done|]. destruct IHp as [->| ->]; auto.
    - apply IHp. }
  specialize (Hp (cp_Models entry) wildcard). destruct (match_patterns _ _ _ _) as [e|w'].
  - intros [= <-]. subst e. left. by left.
  - intros [Hin| ->]%IH; [left; by right|]. destruct Hp as [->|[= ->]]; [by right|left; by left].
Qed.

Lemma group_card_fair g model card free : Forall fair_card (group_ModelPricing g) ->
  resolveGroupModelPricing (Some g) model = (Some card, free) -> fair_card card.
Proof.
  intros Hg E. unfold resolveGroupModelPricing in E. destruct (groupPriceCardHasValue _).
  - injection E as E _. cbn in E. apply matched_card_in in E as [Hin|]; [|done]. rewrite Forall_forall in Hg. auto.
  - destruct (groupFreeModelMatches _ _); [|done]. injection E as <- _. apply free_card_fair.
Qed.

Lemma configured_fair r card model source lc now : fair_service (billingService r) -> fair_card card ->
  fair_resolved (resolveConfiguredPricing r card model source lc now).
Proof.
  intros Hs Hc. unfold resolveConfiguredPricing. assert (Hn : forall m, fair_resolved (new_resolved m source (Some card) lc)).
  { intros m. apply new_fair. by intros c [= <-]. }
  destruct (counts_requests _); [by apply tier_overrides_fair|].
  apply token_overrides_fair; [done|]. apply based_fair; [|done]. intros p. by apply base_fair.
Qed.

Lemma resolved_fair r model gid group now : fair_resolver r ->
  (forall g, group = Some g -> Forall fair_card (group_ModelPricing g)) -> fair_resolved (Resolve r model gid group now).
Proof.
  intros [Hs Hch] Hg. unfold Resolve. destruct (resolveGroupModelPricing group model) as [[card|] free] eqn:E.
  - assert (Hc : fair_card card).
    { destruct group as [g|]; [|done]. eapply group_card_fair; [by apply Hg|exact E]. }
    match goal with |- context [resolveConfiguredPricing r ?x _ _ _ _] => assert (Hx : fair_card x) end.
    { destruct (_ || _); [|done]. destruct Hc as (Hc1 & Hc2 & Hc3 & _). by repeat split. }
    pose proof (configured_fair r _ model PricingSourceGroup
      (match group with None => true | Some g => LongContextPricingEnabled g end) now Hs Hx) as Hf.
    destruct free; [|done]. destruct Hf. split; cbn; [|done..]. intros p [= <-]. apply zero_is_fair.
  - destruct (gid ≫= fun gid => lookupChannelPricingNormalized r gid model) as [card|] eqn:El.
    + assert (Hc : fair_card card) by (destruct gid; [by eapply Hch|done]).
      assert (Hn : forall m, fair_resolved (new_resolved m PricingSourceChannel (Some card)
        (match group with None => true | Some g => LongContextPricingEnabled g end))).
      { intros m. apply new_fair. by intros c [= <-]. }
      destruct (counts_requests _); [by apply tier_overrides_fair|].
      apply token_overrides_fair; [done|]. apply based_fair; [|done]. intros p. by apply base_fair.
    + pose proof (base_fair r model now) as Hb. destruct (resolveBasePricing r model now) as [b src].
      apply based_fair; [intros p Hp; by apply Hb|]. by apply new_fair.
Qed.

(** ** Intervals *)

Lemma scaled_fair f price m p : (forall x p, (0 <= x)%Q -> fair p -> fair (f x p)) ->
  forall g, (forall x p, (0 <= x)%Q -> fair p -> fair (g x p)) -> opt_fair price -> opt_fair m -> fair p ->
  fair (price_or_multiplier price m f g p).
Proof. intros Hf g Hg Hp Hm Hfair. destruct price as [x|]; [apply Hf; [by apply Hp|done]|]. by apply if_set_fair. Qed.

Lemma interval_price_fair iv b card : fair_interval iv -> (forall p, b = Some p -> fair p) ->
  (forall c, card = Some c -> fair_card c) -> fair (intervalToModelPricing iv b card).
Proof.
  intros [Hp Hm] Hb Hc. unfold iv_prices in Hp. rewrite !Forall_cons in Hp. destruct_and! Hp.
  unfold iv_multipliers in Hm. rewrite !Forall_cons in Hm. destruct_and! Hm.
  assert (Hz : fair (default zeroPricing b)) by (destruct b; [by apply Hb|apply zero_is_fair]).
  unfold intervalToModelPricing. cbv zeta.
  match goal with |- fair (match card with None => ?x | Some _ => _ end) => assert (Hx : fair x) end.
  { repeat first [apply scaled_fair | apply if_set_fair]; auto with fair; intros x p Hx Hp; fair_fields. }
  destruct card as [card|]; [|done]. destruct (Hc card eq_refl) as (Hcp & _).
  unfold cp_prices in Hcp. rewrite !Forall_cons in Hcp. destruct_and! Hcp.
  apply images_fair; [by apply default_fair|apply default_fair; auto with fair|done].
Qed.

Lemma interval_pricing_fair r n p : fair_resolved r -> GetIntervalPricing r n = Some p -> fair p.
Proof.
  intros [Hb Hi _ _ Hch] E. unfold GetIntervalPricing in E. destruct (Intervals r) as [|iv0 ivs] eqn:EI; [by apply Hb|].
  destruct (FindMatchingInterval _ _) as [iv|] eqn:Ef; [|by apply Hb]. injection E as <-.
  apply flags_fair, interval_price_fair; [|done..].
  apply find_some in Ef as [Hin%list_elem_of_In _]. rewrite Forall_forall in Hi. auto.
Qed.

(** ** Costs *)

(** Counts that a provider can report: not negative, within the width of an [int]. *)
Definition reported (t : UsageTokens) : Prop :=
  Forall (fun n => 0 <= n < two63)
    [InputTokens t; ImageInputTokens t; ImageCacheReadTokens t; OutputTokens t; CacheCreationTokens t; CacheReadTokens t;
     CacheCreation5mTokens t; CacheCreation1hTokens t; ImageOutputTokens t].

Definition parts (c : CostBreakdown) : list Q :=
  [InputCost c; ImageInputCost c; OutputCost c; ImageOutputCost c; CacheCreationCost c; CacheReadCost c].

(** A cost adds up: its parts are not negative, the total is their sum, and what is charged
is the total times the multiplier of the rate. *)
Definition adds_up (rate : Q) (c : CostBreakdown) : Prop :=
  Forall (Qle 0) (parts c) /\
  (TotalCost c == InputCost c + ImageInputCost c + OutputCost c + ImageOutputCost c + CacheCreationCost c + CacheReadCost c)%Q /\
  (ActualCost c == TotalCost c * rate)%Q.

Lemma long_fair m : (0 <= longContextMultiplierOrOne m)%Q.
Proof.
  unfold longContextMultiplierOrOne. destruct (Qle_bool m 0) eqn:E; [done|].
  apply Qlt_le_weak, Qnot_le_lt. rewrite <- Qle_bool_iff. congruence.
Qed.

Lemma tier_price_fair b s t : (0 <= s -> 0 <= t -> 0 <= tier_price b s t)%Q.
Proof. intros Hs Ht. unfold tier_price. by case_match. Qed.

Lemma plus_fair x y : (0 <= x -> 0 <= y -> 0 <= x + y)%Q.
Proof. lra. Qed.

Hint Resolve long_fair tier_price_fair plus_fair : fair.

(** Sums of products of counts and prices. *)
Ltac fair_cost :=
  repeat match goal with
    | |- (0 <= _ + _)%Q => apply plus_fair
    | |- (0 <= _ * _)%Q => apply Qmult_le_0_compat
    | |- (0 <= inject_Z _)%Q => apply inject_fair
    end; auto with fair.

Lemma input_costs_fair p tokens price : fair p -> reported tokens -> (0 <= price)%Q ->
  (0 <= (input_costs p tokens price).1 /\ 0 <= (input_costs p tokens price).2)%Q.
Proof.
  intros Hp Ht Hprice. unfold reported in Ht. rewrite !Forall_cons in Ht. destruct_and! Ht. unfold input_costs.
  destruct (Z.ltb_spec 0 (ImageInputTokens tokens)); [|cbn; split; [|done]; apply Qmult_le_0_compat; [apply inject_fair; lia|done]].
  assert (Hi : (0 <= if Qeq_bool (ImageInputPricePerToken p) 0 then price else ImageInputPricePerToken p)%Q)
    by (case_match; auto with fair).
  destruct (Z.ltb_spec (InputTokens tokens -! ImageInputTokens tokens) 0) as [Hn|Hn]; cbn [fst snd];
    split; (apply Qmult_le_0_compat; [apply inject_fair; lia|done]).
Qed.

Lemma output_costs_fair p tokens price : fair p -> reported tokens -> (0 <= price)%Q ->
  (0 <= (output_costs p tokens price).1 /\ 0 <= (output_costs p tokens price).2)%Q.
Proof.
  intros Hp Ht Hprice. unfold reported in Ht. rewrite !Forall_cons in Ht. destruct_and! Ht. unfold output_costs. cbn. split.
  - apply Qmult_le_0_compat; [|done]. apply inject_fair. case_Z; lia.
  - case_match; [|done]. apply Qmult_le_0_compat; [apply inject_fair; lia|]. case_match; auto with fair.
Qed.

Lemma Round_nonneg_le x : (0 <= x)%Q -> 0 <= Round x.
Proof.
  intros Hx. unfold Round. destruct (Qltb_spec x 0); [lra|]. change 0 with (Qfloor 0). apply Qfloor_resp_le. lra.
Qed.

Lemma breakdown_counts tokens : reported tokens ->
  0 <= (normalizeCacheCreationBreakdown tokens).1 /\ 0 <= (normalizeCacheCreationBreakdown tokens).2.
Proof.
  intros Ht. unfold reported in Ht. rewrite !Forall_cons in Ht. destruct_and! Ht.
  destruct (normalizeCacheCreationBreakdown tokens) as [x y] eqn:E. cbn.
  unfold normalizeCacheCreationBreakdown in E. destruct (_ || _); [injection E as <- <-; lia|]. injection E as <- <-.
  match goal with |- context [Round ?q] => assert (Hr : 0 <= Round q) end.
  { apply Round_nonneg_le. apply Qmult_le_0_compat; [apply Qmult_le_0_compat; apply inject_fair; lia|].
    apply Qinv_le_0_compat. apply plus_fair; apply inject_fair; lia. }
  split; [case_Z; lia|]. case_Z; rewrite i64_id by go_lia; lia.
Qed.

Lemma cache_creation_fair p tokens price m : fair p -> reported tokens -> (0 <= price)%Q -> (0 <= m)%Q ->
  (0 <= computeCacheCreationCost p tokens price m)%Q.
Proof.
  intros Hp Ht Hprice Hm. pose proof (breakdown_counts tokens Ht) as Hb. unfold reported in Ht.
  rewrite !Forall_cons in Ht. destruct_and! Ht. unfold computeCacheCreationCost.
  destruct (normalizeCacheCreationBreakdown tokens) as [x y]. cbn [fst snd] in Hb. destruct Hb.
  repeat case_match; fair_cost; lia.
Qed.

Lemma cache_read_fair p tokens price : fair p -> reported tokens -> (0 <= price)%Q -> (0 <= cache_read_cost p tokens price)%Q.
Proof.
  intros Hp Ht Hprice. unfold reported in Ht. rewrite !Forall_cons in Ht. destruct_and! Ht. unfold cache_read_cost.
  case_match; fair_cost; try lia.
  rewrite i64_id by go_lia. lia.
Qed.

Lemma service_tier_fair tier p : fair p -> (0 <= configuredServiceTierMultiplier tier p)%Q.
Proof.
  intros Hp. unfold configuredServiceTierMultiplier. apply default_fair.
  - unfold serviceTierCostMultiplier. by repeat case_match.
  - repeat case_match; auto with fair. by intros x [=].
Qed.

Lemma tokens_add_up p tokens rate tier long : fair p -> reported tokens ->
  adds_up (not_negative rate) (computeTokenBreakdown p tokens rate tier long).
Proof.
  intros Hp Ht. assert (Hb : forall lc, adds_up (not_negative rate) (token_breakdown p tokens rate tier lc)).
  { intros lc. unfold token_breakdown. set (prio := usePriorityServiceTierPricing _ _).
    assert (Hli : (0 <= if lc then longContextMultiplierOrOne (LongContextInputMultiplier p) else 1)%Q) by (case_match; [apply long_fair|done]).
    assert (Hlo : (0 <= if lc then longContextMultiplierOrOne (LongContextOutputMultiplier p) else 1)%Q) by (case_match; [apply long_fair|done]).
    set (li := if lc then longContextMultiplierOrOne (LongContextInputMultiplier p) else 1%Q) in *.
    set (lo := if lc then longContextMultiplierOrOne (LongContextOutputMultiplier p) else 1%Q) in *.
    match goal with |- context [input_costs p tokens ?pr] =>
      pose proof (input_costs_fair p tokens pr Hp Ht) as Hi; destruct (input_costs p tokens pr) as [i ii] end.
    match goal with |- context [output_costs p tokens ?pr] =>
      pose proof (output_costs_fair p tokens pr Hp Ht) as Ho; destruct (output_costs p tokens pr) as [o io] end.
    destruct Hi as [Hi Hii]; [auto with fair|]. destruct Ho as [Ho Hio]; [auto with fair|]. cbn [fst snd] in *.
    match goal with |- context [computeCacheCreationCost p tokens ?pr ?m] =>
      assert (Hc : (0 <= computeCacheCreationCost p tokens pr m)%Q) by (apply cache_creation_fair; auto with fair) end.
    match goal with |- context [cache_read_cost p tokens ?pr] =>
      assert (Hr : (0 <= cache_read_cost p tokens pr)%Q) by (apply cache_read_fair; auto with fair) end.
    match goal with |- context [Qeq_bool ?t 1] => assert (Htm : (0 <= t)%Q) by (case_match; [done|by apply service_tier_fair]) end.
    assert (Htier : forall c t, (0 <= c -> 0 <= t -> 0 <= if Qeq_bool t 1 then c else c * t)%Q)
      by (intros c t Hc0 Ht0; destruct (Qeq_bool t 1); auto with fair).
    split; [|split; cbn; reflexivity]. unfold parts. cbn. repeat constructor; by apply Htier. }
  unfold computeTokenBreakdown. destruct (_ && _); [|apply Hb]. exact (Hb true).
Qed.

Lemma multiplied_adds_up rate m c : (0 <= m)%Q -> adds_up rate c -> adds_up rate (applyCostBreakdownMultiplier m c).
Proof.
  intros Hm (Hp & Ht & Ha). unfold applyCostBreakdownMultiplier. destruct (Qeq_bool m 1); [done|].
  unfold parts in Hp. rewrite !Forall_cons in Hp. destruct_and! Hp.
  split; [unfold parts; cbn; repeat constructor; by apply Qmult_le_0_compat|]. cbn. split; [rewrite Ht; ring|rewrite Ha; ring].
Qed.

Lemma not_negative_nonneg rate : (0 <= not_negative rate)%Q.
Proof. unfold not_negative. destruct (Qltb_spec rate 0); lra. Qed.

Lemma time_fair resolved at_ : (0 <= resolvedChannelTimeMultiplier resolved at_)%Q.
Proof.
  unfold resolvedChannelTimeMultiplier. repeat case_match; try done.
  eapply Qle_trans; [|apply time_multiplier_bounded]. done.
Qed.

Lemma effort_fair model effort p : (0 <= maxReasoningEffortBillingMultiplier model effort p)%Q.
Proof.
  unfold maxReasoningEffortBillingMultiplier, defaultMaxReasoningEffortMultiplier.
  destruct (negb _); [done|]. destruct p as [p|]; [|by case_match].
  destruct (MaxReasoningEffortMultiplier p) as [m|]; [|by case_match].
  destruct (Qltb_spec 0 m); [lra|by case_match].
Qed.

Lemma not_negative_twice rate : not_negative (not_negative rate) = not_negative rate.
Proof. unfold not_negative at 1. destruct (Qltb_spec (not_negative rate) 0) as [Hl|]; [|done]. pose proof (not_negative_nonneg rate). lra. Qed.

Lemma request_price_fair r input : fair_resolved r -> (0 <= TotalCost (calculatePerRequestCost r input))%Q.
Proof.
  intros [_ _ Ht Hd _]. unfold calculatePerRequestCost. cbn.
  assert (Htier : forall iv, iv ∈ RequestTiers r -> (0 <= default 0 (iv_PerRequestPrice iv))%Q).
  { intros iv Hin. rewrite Forall_forall in Ht. destruct (Ht _ Hin) as [Hp _]. unfold iv_prices in Hp.
    rewrite !Forall_cons in Hp. destruct_and! Hp. by apply default_fair. }
  apply Qmult_le_0_compat.
  - assert (Hsize : (0 <= GetRequestTierPrice r (SizeTier input))%Q).
    { unfold GetRequestTierPrice. destruct (find _ _) as [iv|] eqn:Ef; [|done]. apply find_some in Ef as [Hin%list_elem_of_In _]. auto. }
    assert (Hctx : (0 <= GetRequestTierPriceByContext r (total_context (Tokens input)))%Q).
    { unfold GetRequestTierPriceByContext, FindMatchingInterval. destruct (find _ _) as [iv|] eqn:Ef; [|done].
      apply find_some in Ef as [Hin%list_elem_of_In _]. auto. }
    repeat case_match; done.
  - case_match.
    + apply inject_fair. case_Z; lia.
    + apply Qlt_le_weak, Qnot_le_lt. rewrite <- Qle_bool_iff. congruence.
Qed.

Lemma adds_up_sound rate c : (0 <= rate)%Q -> adds_up rate c ->
  (0 <= TotalCost c)%Q /\ (ActualCost c == TotalCost c * rate)%Q /\ (0 <= ActualCost c)%Q /\ adds_up rate c.
Proof.
  intros Hrate Hadd. pose proof Hadd as (Hp & Ht & Ha). unfold parts in Hp. rewrite !Forall_cons in Hp. destruct_and! Hp.
  assert (Ht0 : (0 <= TotalCost c)%Q) by (rewrite Ht; auto 10 with fair).
  repeat split; try done; [rewrite Ha; by apply Qmult_le_0_compat|apply Hadd].
Qed.

(** C34. No request is charged a negative amount: when the catalog has no negative price and
the cards are as validation leaves them, then whatever a request reports, in every mode
and whatever the tier, effort, time and multiplier are, the charge is the total times the
multiplier, a negative multiplier counting as zero, and not negative.  A request that
counts tokens is charged the sum of its parts, none of which is negative. *)
Theorem charges_are_sound s r input now cost :
  Resolver input = Some r -> Resolved input = None -> fair_resolver r ->
  (forall g, ci_Group input = Some g -> Forall fair_card (group_ModelPricing g)) -> reported (Tokens input) ->
  CalculateCostUnified s input now = Ok cost ->
  (0 <= TotalCost cost)%Q /\ (ActualCost cost == TotalCost cost * not_negative (RateMultiplier input))%Q /\
  (0 <= ActualCost cost)%Q /\
  (counts_requests (cost_BillingMode cost) = false -> adds_up (not_negative (RateMultiplier input)) cost).
Proof.
  intros Hr Hres Hfair Hg Ht E. unfold CalculateCostUnified in E. rewrite Hr, Hres in E.
  pose proof (resolved_fair r (ci_Model input) (ci_GroupID input) (ci_Group input) now Hfair Hg) as HR.
  set (resolved := Resolve r _ _ _ now) in *. clearbody resolved.
  set (input' := set_RateMultiplier _ input) in *. pose proof (not_negative_nonneg (RateMultiplier input)) as Hn.
  assert (Hactual : forall c, (0 <= TotalCost c)%Q -> (ActualCost c == TotalCost c * not_negative (RateMultiplier input))%Q ->
    (0 <= ActualCost c)%Q) by (intros c Hc ->; by apply Qmult_le_0_compat).
  destruct (counts_requests (Mode resolved)) eqn:Em.
  - injection E as <-. pose proof (request_price_fair resolved input' HR) as Hp.
    split; [exact Hp|]. split; [done|]. split; [by apply Hactual|]. cbn. intros Hc. exfalso. revert Hc.
    destruct (String.eqb (Mode resolved) "") eqn:E0; [|congruence]. apply String.eqb_eq in E0. by rewrite E0 in Em.
  - unfold calculateTokenCost in E. destruct (GetIntervalPricing _ _) as [p|] eqn:Ep; [|done]. injection E as <-.
    assert (Hadd : forall x y z, adds_up (not_negative (RateMultiplier input)) (set_BillingMode x
      (applyCostBreakdownMultiplier (maxReasoningEffortBillingMultiplier (ci_Model input') (ReasoningEffort input') y)
        (applyCostBreakdownMultiplier (resolvedChannelTimeMultiplier resolved (PricingAt input'))
          (computeTokenBreakdown (deepseek_peak resolved (ci_Model input')
            (if IsZero (PricingAt input') then now else PricingAt input')
            (applyModelSpecificPricingPolicyEx (ci_Model input') p (String.eqb (rp_Source resolved) PricingSourceLiteLLM) now
              (if IsZero (PricingAt input') then now else PricingAt input')))
            (Tokens input') (RateMultiplier input') (ServiceTier input') z))))).
    { intros x y z. apply multiplied_adds_up; [apply effort_fair|]. apply multiplied_adds_up; [apply time_fair|].
      unfold input'. cbn [Tokens RateMultiplier set_RateMultiplier]. rewrite <- (not_negative_twice (RateMultiplier input)) at 1.
      apply tokens_add_up; [|done]. apply peak_fair, policy_fair. by eapply interval_pricing_fair. }
    match goal with |- (0 <= TotalCost ?c)%Q /\ _ => assert (Hc : adds_up (not_negative (RateMultiplier input)) c) by apply Hadd end.
    destruct (adds_up_sound _ _ Hn Hc) as (Ht0 & Ha & Hac & Hadds). repeat (split; [done|]). by intros _.
Qed.

End Fairness.
