(* ===== verification/CostExamples.v ===== *)
(** * Examples of prices and costs

Runs of the resolver, the gate and the costs, on which the theorems of [CostFacts] and
[CostBounds] are applied, and a disagreement of the gate with the billing. *)
From S2P Require Import Prelude GoText GoTime Composite ModelNames ModelAllowlist TimePricing.
From S2P Require Import ChannelPricing ChannelCache ChannelLookups ModelPricing PricingResolver TokenCosts CostFacts.
From S2P Require Import CostBounds.
From Stdlib Require Import Bool QArith Lqa.

Local Open Scope string_scope.
Local Open Scope Z_scope.

#[local] Existing Instance AsciiUnicode.
#[local] Instance NoFields : GoFields := {| fields_slow _ := [] |}.
#[local] Existing Instance shanghai.

(** ** A catalog, a channel and a group *)

Definition sonnet_entry : LiteLLMModelPricing :=
  mkLiteLLM (3 # 1000000) 0 (15 # 1000000) 0 (375 # 100000000) 0 (6 # 1000000) (3 # 10000000) 0 200000 (2 # 1) (3 # 2)
    "anthropic" 0 0 0 false.

Definition catalog : BillingService :=
  mkBillingService (Some (fun m => if String.eqb m "claude-sonnet-5" then Some sonnet_entry else None)) (fun _ => None) 1.

Definition no_catalog : BillingService := mkBillingService None (fun _ => None) 1.

Definition luna_cards : list ChannelModelPricing :=
  [token_card "openai" ["openai/codex-auto-review"] None;
   token_card "openai" ["gpt-5.6-luna"; "codex-auto-review"] (Some (2 # 1000000)%Q)].
Definition luna_channel : Channel := mkChannel 9 "active" "" false [5] luna_cards [].
Definition luna_cache : channelCache := populateChannelCache 1000 [luna_channel] (<[5 := "openai"]> ∅).

Definition resolver_of (s : BillingService) : ModelPricingResolver := mkPricingResolver (Some (None, Ok luna_cache)) s.
Definition plain_group : PricedGroup := mkPricedGroup 5 [] ["Llama-*"; "gpt-5.6-luna-free"] true.

Definition a_million : UsageTokens := mkTokens 1000000 0 0 0 0 0 0 0 0.

Definition request (s : BillingService) (model : string) (tokens : UsageTokens) (tier : string) : TokenCostRequest :=
  mkRequest model (Some plain_group) tokens 1 0 tier "" (Some (resolver_of s)) None.

Definition total (s : BillingService) (model : string) (tokens : UsageTokens) (tier : string) : option Q :=
  match CalculateTokenCostForRequest s (request s model tokens tier) 1000 with
  | Ok c => Some (Qred (TotalCost c))
  | Err _ => None
  end.

Example luna_is_billed_by_its_card : total catalog "gpt-5.6-luna" a_million "" = Some (2 # 1)%Q.
Proof. by vm_compute. Qed.

Example luna_costs_twice_on_the_fast_tier : total catalog "gpt-5.6-luna" a_million "fast" = Some (4 # 1)%Q.
Proof. by vm_compute. Qed.

Example sonnet_has_a_long_context :
  map (fun n => total catalog "claude-sonnet-5" (mkTokens n 0 0 0 0 0 0 0 0) "") [200000; 200001] =
  [Some (3 # 5); Some (600003 # 500000)]%Q.
Proof. by vm_compute. Qed.

Example unknown_models_are_not_billed : total catalog "mystery" a_million "" = None.
Proof. by vm_compute. Qed.

Lemma catalog_is_fair : fair_resolver (resolver_of catalog).
Proof.
  assert (Hcards : forall card, card ∈ luna_cards -> fair_card card).
  { intros card [->|[->|[]%elem_of_nil]%elem_of_cons]%elem_of_cons;
      (repeat split; try (intros x [= <-]; done); repeat constructor; try (by intros x [= <-]); by intros x [=]). }
  split; [split|].
  - intros find m l [= <-]. cbn. destruct (String.eqb m _); [|done]. intros [= <-]. repeat constructor; done.
  - done.
  - intros gid model card. unfold lookupChannelPricingNormalized, resolver_of. cbn [channelService].
    assert (Hin : forall m c, GetChannelModelPricing None (Ok luna_cache) gid m = Some c -> c ∈ luna_cards).
    { intros m c. unfold GetChannelModelPricing, lookupGroupChannel.
      destruct (decide (gid = 5)) as [->|Hne].
      - assert (channelByGroupID luna_cache !! 5 = Some (normalizeBillingModelSource luna_channel)) as -> by by vm_compute.
        cbn [IsActive ch_Status normalizeBillingModelSource luna_channel].
        change (channelLookupPlatform None (default "" (groupPlatform luna_cache !! 5))) with "openai".
        intros Hl. assert (Hs : sole_channel [luna_channel] 5 luna_channel).
        { split; [left|]. split; [left|]. by intros ch [->|[]%elem_of_nil]%elem_of_cons. }
        pose proof (looked_up_card 1000 [luna_channel] (<[5 := "openai"]> ∅) 5 luna_channel "openai" m c Hs) as Hlc.
        apply Hlc in Hl as [Hin _]; [done|by vm_compute..].
      - assert (channelByGroupID luna_cache = {[5 := normalizeBillingModelSource luna_channel]}) as -> by by vm_compute.
        by rewrite lookup_singleton_ne. }
    destruct (GetChannelModelPricing _ _ _ _) as [c|] eqn:E; [intros [= <-]; by eapply Hcards, Hin|].
    destruct (normalized_variant model); [|done]. intros Hc. by eapply Hcards, Hin.
Qed.

(** ** The theorems at work *)

Lemma admitted_models_are_billed_witness : exists cost,
  CalculateTokenCostForRequest catalog (request catalog "claude-sonnet-5" a_million "flex") 1000 = Ok cost.
Proof.
  apply (admitted_models_are_billed catalog (resolver_of catalog) plain_group 1000 "claude-sonnet-5" a_million 1 0 "flex" "");
    by vm_compute.
Defined.

Definition free_input : CostInput :=
  mkCostInput "llama-70b" (Some 5) (Some plain_group) a_million 1 0 "" 3 0 "priority" "max" (Some (resolver_of catalog)) None None.

Lemma free_models_cost_nothing_witness : exists cost,
  CalculateCostUnified catalog free_input 1000 = Ok cost /\ (TotalCost cost == 0)%Q /\ (ActualCost cost == 0)%Q.
Proof.
  apply (free_models_cost_nothing catalog (resolver_of catalog) plain_group 1000 free_input); [done..|by vm_compute].
Defined.

Definition luna_input : CostInput :=
  mkCostInput "gpt-5.6-luna" (Some 5) (Some plain_group) a_million 1 0 "" (-3) 0 "" "" (Some (resolver_of catalog)) None None.

Lemma charges_are_sound_witness : exists cost, CalculateCostUnified catalog luna_input 1000 = Ok cost /\
  (0 <= TotalCost cost)%Q /\ (ActualCost cost == TotalCost cost * not_negative (-3))%Q /\ (0 <= ActualCost cost)%Q /\
  (counts_requests (cost_BillingMode cost) = false -> adds_up (not_negative (-3)) cost).
Proof.
  eexists. split; [by vm_compute|].
  apply (charges_are_sound catalog (resolver_of catalog) luna_input 1000); [done|done|apply catalog_is_fair| | |by vm_compute].
  - intros g [= <-]. constructor.
  - repeat constructor; done.
Defined.

(** ** The gate and an empty card

A spelling of a model has a card without prices, and the model itself one with prices;
neither the catalog nor the built-in table has any.  The gate looks the model up when the
spelling has no price; the billing does not, since the spelling has a card.  The spelling
is admitted and costs nothing. *)
Theorem empty_card_is_admitted_and_free :
  HasPricing (resolver_of no_catalog) "openai/codex-auto-review" (Some plain_group) 1000 = true /\
  hasGroupModelPricing (Some plain_group) "openai/codex-auto-review" = false /\
  total no_catalog "codex-auto-review" a_million "" = Some (2 # 1)%Q /\
  total no_catalog "openai/codex-auto-review" a_million "" = Some 0%Q.
Proof. by vm_compute. Qed.
