(* ===== verification/Interleave.v ===== *)
(** * Programs whose statements interleave

Code that talks to a database statement by statement, while other instances of it
do the same.  A program is a tree of its statements; a statement is one atomic
step, which may be refused, or may take effect while its answer is lost.  A
schedule starts programs, lets one of them take a step, or lets the outside
change the state.  [safe] is a weakest precondition under interference: every
state between two statements may be replaced by one that the relation [R] allows,
and every statement must be one that [R] allows.  [schedule_sound]: if all programs
are [safe], every schedule stays within [R]. *)
From S2P Require Import Prelude Programs.

Local Open Scope Z_scope.

Section Interleave.
Context {W : Type}.

(** [Get] reads something that cannot fail, such as the clock. *)
Inductive Prog (A : Type) : Type :=
  | Ret (a : A)
  | Get {R : Type} (f : W -> R) (k : R -> Prog A)
  | Step {R : Type} (act : W -> W * R) (k : res R -> Prog A).
Arguments Ret {A} a.
Arguments Get {A R} f k.
Arguments Step {A R} act k.

Fixpoint pbind {A B} (p : Prog A) (f : A -> Prog B) : Prog B :=
  match p with
  | Ret a => f a
  | Get g k => Get g (fun r => pbind (k r) f)
  | Step act k => Step act (fun r => pbind (k r) f)
  end.

(** Programs that may fail; a statement that answers an error has failed as much as
one that the driver refuses. *)
Definition Act (A : Type) : Type := Prog (res A).

Definition aret {A} (a : A) : Act A := Ret (Ok a).
Definition afail {A} (e : goerr) : Act A := Ret (Err e).
Definition abind {A B} (m : Act A) (k : A -> Act B) : Act B :=
  pbind m (fun r => match r with Ok a => k a | Err e => Ret (Err e) end).

(** A call whose error the caller looks at. *)
Definition atry {A} (m : Act A) : Act (res A) := pbind m (fun r => Ret (Ok r)).

(** [fmt.Errorf("...: %w", err)] around a call. *)
Definition awrap {A} (prefix : string) (m : Act A) : Act A :=
  pbind m (fun r => Ret (match r with Ok a => Ok a | Err e => Err (ErrWrap prefix e) end)).

Definition flat {A} (r : res (res A)) : res A := match r with Ok r => r | Err e => Err e end.

(** A statement, or a transaction: one step, which changes nothing if it fails. *)
Definition statement {A} (act : W -> W * res A) : Act A :=
  Step (fun w => match (act w).2 with Ok _ => act w | Err _ => (w, (act w).2) end)
    (fun r => Ret (flat r)).

Definition select {A} (f : W -> res A) : Act A := statement (fun w => (w, f w)).

Definition get {A} (f : W -> A) : Act A := Get f (fun a => Ret (Ok a)).

(** ** Runs of one program, alone and without faults *)

Fixpoint run {A} (p : Prog A) (w : W) : W * A :=
  match p with
  | Ret a => (w, a)
  | Get f k => run (k (f w)) w
  | Step act k => run (k (Ok (act w).2)) (act w).1
  end.

Lemma run_bind {A B} (p : Prog A) (f : A -> Prog B) w :
  run (pbind p f) w = run (f (run p w).2) (run p w).1.
Proof. revert w; induction p as [a|R g k IH|R act k IH]; intros w; cbn; auto. Qed.

(** [m], alone and without faults, answers [a] and leaves [w']. *)
Definition yields {A} (m : Act A) (w : W) (a : A) (w' : W) : Prop := run m w = (w', Ok a).

Lemma yields_ret {A} (a : A) w : yields (aret a) w a w.
Proof. reflexivity. Qed.

Lemma yields_bind {A B} (m : Act A) (k : A -> Act B) w a w1 b w2 :
  yields m w a w1 -> yields (k a) w1 b w2 -> yields (abind m k) w b w2.
Proof. unfold yields. intros Hm Hk. unfold abind. by rewrite run_bind, Hm. Qed.

Lemma yields_try {A} (m : Act A) w w' r : run m w = (w', r) -> yields (atry m) w r w'.
Proof. unfold yields, atry. intros Hm. by rewrite run_bind, Hm. Qed.

Lemma yields_try_ok {A} (m : Act A) w a w' : yields m w a w' -> yields (atry m) w (Ok a) w'.
Proof. apply yields_try. Qed.

Lemma yields_wrap {A} prefix (m : Act A) w a w' : yields m w a w' -> yields (awrap prefix m) w a w'.
Proof. unfold yields, awrap. intros Hm. by rewrite run_bind, Hm. Qed.

Lemma yields_get {A} (f : W -> A) w : yields (get f) w (f w) w.
Proof. reflexivity. Qed.

Lemma run_statement {A} (act : W -> W * res A) w :
  run (statement act) w = match (act w).2 with Ok _ => act w | Err e => (w, Err e) end.
Proof. unfold statement. cbn. by destruct (act w) as [w' [a|e]]. Qed.

Lemma yields_statement {A} (act : W -> W * res A) w a w' : act w = (w', Ok a) -> yields (statement act) w a w'.
Proof. intros E. unfold yields. by rewrite run_statement, E. Qed.

Lemma run_select {A} (f : W -> res A) w : run (select f) w = (w, f w).
Proof. unfold select. rewrite run_statement. cbn. by destruct (f w). Qed.

Lemma yields_select {A} (f : W -> res A) w a : f w = Ok a -> yields (select f) w a w.
Proof. intros E. unfold yields. by rewrite run_select, E. Qed.

(** ** Schedules *)

Inductive Event : Type :=
  | Spawn (p : Prog unit)
  | Turn (i : nat) (f : option fault)
  | Outside (g : W -> W).

(** One step of a program, which a fault may hit. *)
Definition take_turn (f : option fault) (p : Prog unit) (w : W) : Prog unit * W :=
  match p with
  | Ret a => (Ret a, w)
  | Get g k => (k (g w), w)
  | Step act k =>
      match f with
      | None => (k (Ok (act w).2), (act w).1)
      | Some (Refused m) => (k (Err (DriverErr (Refused m))), w)
      | Some (AnswerLost m) => (k (Err (DriverErr (AnswerLost m))), (act w).1)
      end
  end.

Definition event (e : Event) (c : W * list (Prog unit)) : W * list (Prog unit) :=
  match e with
  | Spawn p => (c.1, (c.2 ++ [p])%list)
  | Outside g => (g c.1, c.2)
  | Turn i f =>
      match c.2 !! i with
      | Some p => let '(p', w') := take_turn f p c.1 in (w', <[i := p']> c.2)
      | None => c
      end
  end.

Definition schedule (es : list Event) (c : W * list (Prog unit)) : W * list (Prog unit) :=
  foldl (fun c e => event e c) c es.

(** The programs that a schedule starts, and what it does from outside. *)
Definition spawned (es : list Event) : list (Prog unit) :=
  omap (fun e => match e with Spawn p => Some p | _ => None end) es.
Definition outside (es : list Event) : list (W -> W) :=
  omap (fun e => match e with Outside g => Some g | _ => None end) es.

(** ** Safety under interference *)

Section Safe.
Context (R : W -> W -> Prop) `{!PreOrder R}.

Fixpoint safe {A} (p : Prog A) (Q : A -> W -> Prop) (w : W) : Prop :=
  match p with
  | Ret a => forall w', R w w' -> Q a w'
  | Get f k => forall w', R w w' -> safe (k (f w')) Q w'
  | Step act k => forall w', R w w' ->
      R w' (act w').1 /\ safe (k (Ok (act w').2)) Q (act w').1 /\
      forall f, safe (k (Err (DriverErr f))) Q w' /\ safe (k (Err (DriverErr f))) Q (act w').1
  end.

Lemma safe_rely {A} (p : Prog A) Q w w' : R w w' -> safe p Q w -> safe p Q w'.
Proof. destruct p; cbn; intros Hw Hs w2 Hw2; apply Hs; by etrans. Qed.

Lemma safe_mono {A} (p : Prog A) (P Q : A -> W -> Prop) w :
  safe p P w -> (forall a w', R w w' -> P a w' -> Q a w') -> safe p Q w.
Proof.
  revert w; induction p as [a|T f k IH|T act k IH]; cbn; intros w Hs HPQ w' Hw'.
  - by apply HPQ, Hs.
  - apply (IH _ _ (Hs w' Hw')). intros a w2 Hw2. apply HPQ. by etrans.
  - destruct (Hs w' Hw') as (Hr & Hok & Herr). split; [done|].
    assert (Hlate : forall a w2, R (act w').1 w2 -> P a w2 -> Q a w2).
    { intros a w2 Hw2. apply HPQ. etrans; [exact Hw'|]. by etrans. }
    split; [by apply (IH _ _ Hok)|]. intros f. destruct (Herr f) as [Hno Hlost].
    split; [|by apply (IH _ _ Hlost)]. apply (IH _ _ Hno). intros a w2 Hw2. apply HPQ. by etrans.
Qed.

Lemma safe_ret {A} (a : A) (Q : A -> W -> Prop) w : (forall w', R w w' -> Q a w') -> safe (Ret a) Q w.
Proof. done. Qed.

Lemma safe_bind {A B} (p : Prog A) (f : A -> Prog B) Q w :
  safe p (fun a w' => safe (f a) Q w') w -> safe (pbind p f) Q w.
Proof.
  revert w; induction p as [a|T g k IH|T act k IH]; cbn; intros w Hs.
  - by apply Hs.
  - intros w' Hw'. by apply IH, Hs.
  - intros w' Hw'. destruct (Hs w' Hw') as (Hr & Hok & Herr).
    split; [done|]. split; [by apply IH|]. intros g. destruct (Herr g). by split; apply IH.
Qed.

Lemma safe_abind {A B} (m : Act A) (k : A -> Act B) Q w :
  safe m (fun r w' => match r with
                      | Ok a => safe (k a) Q w'
                      | Err e => forall w2, R w' w2 -> Q (Err e) w2
                      end) w ->
  safe (abind m k) Q w.
Proof.
  intros Hm. apply safe_bind. eapply safe_mono; [exact Hm|]. by intros [a|e] w' _.
Qed.

Lemma safe_try {A} (m : Act A) Q w :
  safe m (fun r w' => forall w2, R w' w2 -> Q (Ok r) w2) w -> safe (atry m) Q w.
Proof. intros Hm. apply safe_bind. eapply safe_mono; [exact Hm|]. by intros r w' _. Qed.

Lemma safe_wrap {A} prefix (m : Act A) Q w :
  safe m (fun r w' => forall w2, R w' w2 ->
            Q (match r with Ok a => Ok a | Err e => Err (ErrWrap prefix e) end) w2) w ->
  safe (awrap prefix m) Q w.
Proof. intros Hm. apply safe_bind. eapply safe_mono; [exact Hm|]. by intros r w' _. Qed.

Lemma safe_get {A} (f : W -> A) (Q : res A -> W -> Prop) w :
  (forall w', R w w' -> forall w2, R w' w2 -> Q (Ok (f w')) w2) -> safe (get f) Q w.
Proof. intros HQ w' Hw' w2 Hw2. exact (HQ w' Hw' w2 Hw2). Qed.

(** A statement that [R] allows; [Q] of its answer, and of an error, which can come
before or after its effect. *)
Lemma safe_statement {A} (act : W -> W * res A) (Q : res A -> W -> Prop) w :
  (forall w', R w w' -> is_ok (act w').2 = true -> R w' (act w').1) ->
  (forall w' w2, R w w' ->
     R (match (act w').2 with Ok _ => (act w').1 | Err _ => w' end) w2 -> Q (act w').2 w2) ->
  (forall f w2, R w w2 -> Q (Err (DriverErr f)) w2) ->
  safe (statement act) Q w.
Proof.
  intros HR Hok Herr w' Hw'. specialize (HR w' Hw'). specialize (Hok w').
  assert (Hstep : R w' (match (act w').2 with Ok _ => (act w').1 | Err _ => w' end)).
  { destruct (act w').2; [by apply HR|done]. }
  destruct ((act w').2) as [a|e] eqn:E; cbn in *; rewrite ?E.
  - split; [done|]. split; [intros w2 Hw2; by apply Hok|].
    intros f. split; intros w2 Hw2; apply Herr; [by etrans|]. etrans; [exact Hw'|]. by etrans.
  - split; [done|]. split; [intros w2 Hw2; by apply Hok|].
    intros f. split; intros w2 Hw2; apply Herr; by etrans.
Qed.

Lemma safe_select {A} (f : W -> res A) (Q : res A -> W -> Prop) w :
  (forall w' w2, R w w' -> R w' w2 -> Q (f w') w2) ->
  (forall g w2, R w w2 -> Q (Err (DriverErr g)) w2) ->
  safe (select f) Q w.
Proof.
  intros Hok Herr. apply safe_statement; [done| |done].
  intros w' w2 Hw' Hw2. cbn in *. destruct (f w') eqn:E; rewrite <- E; by apply Hok.
Qed.

(** Programs that are safe whatever happens before they start. *)
Definition always_safe (w0 : W) (p : Prog unit) : Prop :=
  forall w, R w0 w -> safe p (fun _ _ => True) w.

Lemma take_turn_safe f (p : Prog unit) w :
  safe p (fun _ _ => True) w ->
  R w (take_turn f p w).2 /\ safe (take_turn f p w).1 (fun _ _ => True) (take_turn f p w).2.
Proof.
  destruct p as [a|T g k|T act k]; cbn; intros Hs; [done|by split; [|apply Hs]|].
  destruct (Hs w) as (Hr & Hok & Herr); [done|].
  destruct f as [[m|m]|]; cbn; [split; [done|apply (Herr (Refused m))]|split; [done|apply (Herr (AnswerLost m))]|done].
Qed.

Theorem schedule_sound es w ps :
  Forall (fun p => safe p (fun _ _ => True) w) ps ->
  Forall (always_safe w) (spawned es) ->
  Forall (fun g => forall w', R w w' -> R w' (g w')) (outside es) ->
  R w (schedule es (w, ps)).1.
Proof.
  intros Hps Hsp Hout.
  enough (Hgo : forall w1 ps1, R w w1 -> Forall (fun p => safe p (fun _ _ => True) w1) ps1 ->
    R w (schedule es (w1, ps1)).1) by by apply Hgo.
  clear Hps. induction es as [|e es IH]; intros w1 ps1 Hw1 Hps1; [done|].
  unfold schedule. cbn [foldl]. fold (schedule es (event e (w1, ps1))).
  destruct e as [p|i f|g]; cbn in Hsp, Hout.
  - apply Forall_cons in Hsp as [Hp Hsp]. apply IH; [done..|]. apply Forall_app. split; [done|].
    apply Forall_singleton. by apply Hp.
  - cbn. destruct (ps1 !! i) as [p|] eqn:Hi; [|by apply IH].
    pose proof (Forall_lookup_1 _ _ _ _ Hps1 Hi) as Hp. cbn in Hp.
    destruct (take_turn_safe f p w1 Hp) as [Hr Hs]. destruct (take_turn f p w1) as [p' w']. cbn in Hr, Hs.
    apply IH; [done..|by etrans|]. apply Forall_insert; [|done].
    eapply Forall_impl; [exact Hps1|]. intros q. by apply safe_rely.
  - apply Forall_cons in Hout as [Hg Hout]. cbn.
    specialize (Hg w1 Hw1). apply IH; [done..|by etrans|].
    eapply Forall_impl; [exact Hps1|]. intros q. by apply safe_rely.
Qed.

End Safe.

(** ** Triples

[OK] is an invariant of all states between statements, [Move] what any number of
steps may do.  A fact that every move keeps can be carried from one statement to
the next; [does F m P]: where the fact [F] holds, [m] moves, and if it answers [a]
the fact [P a] holds then. *)

Section Triples.
Context (OK : W -> Prop) (Move : W -> W -> Prop) `{!PreOrder Move}.

Definition guarded (w w' : W) : Prop := OK w -> OK w' /\ Move w w'.

#[export] Instance guarded_preorder : PreOrder guarded.
Proof.
  split; [by intros w Hw; split|]. intros w1 w2 w3 H12 H23 H1.
  destruct (H12 H1) as [H2 M12], (H23 H2) as [H3 M23]. split; [done|by etrans].
Qed.

Class Stable (F : W -> Prop) : Prop := stable w w' : OK w -> OK w' -> Move w w' -> F w -> F w'.

#[export] Instance stable_const (P : Prop) : Stable (fun _ => P).
Proof. by intros w w'. Qed.

#[export] Instance stable_and F G : Stable F -> Stable G -> Stable (fun w => F w /\ G w).
Proof. intros HF HG w w' Hw Hw' Hm [? ?]. split; [by apply (HF w w')|by apply (HG w w')]. Qed.

#[export] Instance stable_res {A} (r : res A) (F : A -> W -> Prop) (G : goerr -> W -> Prop) :
  (forall a, Stable (F a)) -> (forall e, Stable (G e)) ->
  Stable (fun w => match r with Ok a => F a w | Err e => G e w end).
Proof. intros HF HG w w' Hw Hw' Hm. destruct r; [by apply HF|by apply HG]. Qed.

#[export] Instance stable_option {A} (r : option A) (F : A -> W -> Prop) (G : W -> Prop) :
  (forall a, Stable (F a)) -> Stable G ->
  Stable (fun w => match r with Some a => F a w | None => G w end).
Proof. intros HF HG w w' Hw Hw' Hm. destruct r; [by apply HF|by apply HG]. Qed.

Definition answers {A} (P : A -> W -> Prop) (r : res A) (w : W) : Prop :=
  match r with Ok a => P a w | Err _ => True end.

#[export] Instance stable_answers {A} (P : A -> W -> Prop) r : (forall a, Stable (P a)) -> Stable (answers P r).
Proof. intros HP w w' Hw Hw' Hm. destruct r; [by apply HP|done]. Qed.

Definition does {A} (F : W -> Prop) (m : Act A) (P : A -> W -> Prop) : Prop :=
  forall w, OK w -> F w -> safe guarded m (fun r w' => OK w' /\ F w' /\ answers P r w') w.

Lemma stable_move F w w' : Stable F -> OK w -> guarded w w' -> F w -> OK w' /\ Move w w' /\ F w'.
Proof. intros HF Hw Hg Hf. destruct (Hg Hw). repeat split; [done..|]. by apply (HF w w'). Qed.

Lemma does_ret {A} F (a : A) (P : A -> W -> Prop) :
  Stable F -> (forall w, OK w -> F w -> P a w) -> does F (aret a) P.
Proof. intros HF HP w Hw Hf w' Hw'. destruct (stable_move F w w') as (? & ? & ?); auto. cbn. auto. Qed.

Lemma does_fail {A} F e (P : A -> W -> Prop) : Stable F -> does F (afail e) P.
Proof. intros HF w Hw Hf w' Hw'. destruct (stable_move F w w') as (? & ? & ?); auto. cbn. auto. Qed.

Lemma does_bind {A B} F (P : A -> W -> Prop) (m : Act A) (k : A -> Act B) (Q : B -> W -> Prop) :
  Stable F -> does F m P -> (forall a, does (fun w => F w /\ P a w) (k a) Q) -> does F (abind m k) Q.
Proof.
  intros HF Hm Hk w Hw Hf. apply (safe_abind guarded). eapply (safe_mono guarded); [by apply Hm|].
  intros [a|e] w' _ (Hw' & Hf' & Ha).
  - eapply (safe_mono guarded); [by apply (Hk a w' Hw')|]. cbn. tauto.
  - intros w2 Hw2. destruct (stable_move F w' w2) as (? & ? & ?); [done..|]. by repeat split.
Qed.

Lemma does_try {A} F (m : Act A) (P : A -> W -> Prop) :
  Stable F -> (forall a, Stable (P a)) -> does F m P -> does F (atry m) (answers P).
Proof.
  intros HF HP Hm w Hw Hf. apply (safe_try guarded). eapply (safe_mono guarded); [by apply Hm|].
  intros r w' _ (Hw' & Hf' & Ha) w2 Hw2.
  by destruct (stable_move (fun w => F w /\ answers P r w) w' w2 _) as (? & ? & ? & ?).
Qed.

Lemma does_wrap {A} F prefix (m : Act A) (P : A -> W -> Prop) :
  Stable F -> (forall a, Stable (P a)) -> does F m P -> does F (awrap prefix m) P.
Proof.
  intros HF HP Hm w Hw Hf. apply (safe_wrap guarded). eapply (safe_mono guarded); [by apply Hm|].
  intros r w' _ (Hw' & Hf' & Ha) w2 Hw2.
  destruct (stable_move (fun w => F w /\ answers P r w) w' w2 _) as (? & ? & ? & ?); [done..|].
  by destruct r.
Qed.

Lemma does_get {A} F (f : W -> A) (P : A -> W -> Prop) :
  Stable F -> (forall a, Stable (P a)) -> (forall w, OK w -> F w -> P (f w) w) -> does F (get f) P.
Proof.
  intros HF HP Hf w Hw Hfw. apply (safe_get guarded). intros w' Hw' w2 Hw2.
  destruct (stable_move F w w') as (? & ? & ?); [done..|].
  destruct (stable_move (fun x => F x /\ P (f w') x) w' w2) as (? & ? & ? & ?); [apply _|done..| |by repeat split].
  split; [done|by apply Hf].
Qed.

Lemma does_statement {A} F (act : W -> W * res A) (P : A -> W -> Prop) :
  Stable F -> (forall a, Stable (P a)) ->
  (forall w w' a, OK w -> F w -> act w = (w', Ok a) -> OK w' /\ Move w w' /\ P a w') ->
  does F (statement act) P.
Proof.
  intros HF HP Hact w Hw Hfw.
  assert (Hstep : forall w1, OK w1 -> F w1 -> is_ok (act w1).2 = true -> OK (act w1).1 /\ Move w1 (act w1).1).
  { intros w1 H1 Hf1. destruct (act w1) as [w2 [a|e]] eqn:E; [|done]. intros _.
    by destruct (Hact w1 w2 a) as (? & ? & ?). }
  apply (safe_statement guarded).
  - intros w' Hw' Hok H'. destruct (stable_move F w w') as (? & ? & ?); auto.
  - intros w' w2 Hw' Hw2. destruct (stable_move F w w') as (H1 & ? & Hf1); auto.
    destruct (act w') as [w1 [a|e]] eqn:E; cbn in *.
    + destruct (Hact w' w1 a) as (H2 & Hm & Ha); auto.
      destruct (stable_move (fun x => F x /\ P a x) w1 w2) as (? & ? & ? & ?); auto; [apply _|].
      split; [|done]. by apply (HF w' w1).
    + destruct (stable_move F w' w2) as (? & ? & ?); auto.
  - intros f w2 Hw2. destruct (stable_move F w w2) as (? & ? & ?); auto. cbn. auto.
Qed.

Lemma does_select {A} F (f : W -> res A) (P : A -> W -> Prop) :
  Stable F -> (forall a, Stable (P a)) -> (forall w a, OK w -> F w -> f w = Ok a -> P a w) ->
  does F (select f) P.
Proof.
  intros HF HP Hf. apply does_statement; [done..|]. intros w w' a Hw Hfw [= <- Ha].
  split; [done|]. split; [done|]. by apply Hf.
Qed.

Lemma does_weaken {A} (F G : W -> Prop) (m : Act A) (P Q : A -> W -> Prop) :
  Stable F -> does G m P -> (forall w, OK w -> F w -> G w) -> (forall a w, OK w -> F w -> P a w -> Q a w) ->
  does F m Q.
Proof.
  intros HF Hm HFG HPQ w Hw Hf. eapply (safe_mono guarded); [apply Hm; auto|].
  intros r w' Hw' (H1 & Hg & Ha). destruct (stable_move F w w') as (? & ? & ?); auto.
  repeat split; [done..|]. destruct r; cbn in *; auto.
Qed.

(** The answer is not looked at. *)
Definition discard {A} (m : Act A) : Prog unit := pbind m (fun _ => Ret tt).

Lemma does_discard {A} (m : Act A) P w0 :
  OK w0 -> does (fun _ => True) m P -> always_safe guarded w0 (discard m).
Proof.
  intros H0 Hm w Hw. destruct (Hw H0) as [H1 _]. apply (safe_bind guarded).
  eapply (safe_mono guarded); [by apply Hm|]. by intros.
Qed.

Theorem triples_sound es w :
  OK w ->
  Forall (always_safe guarded w) (spawned es) ->
  Forall (fun g => forall w', OK w' -> OK (g w') /\ Move w' (g w')) (outside es) ->
  OK (schedule es (w, [])).1 /\ Move w (schedule es (w, [])).1.
Proof.
  intros Hw Hsp Hout. apply (schedule_sound guarded es w []); [done|done| |done].
  eapply Forall_impl; [exact Hout|]. intros g Hg w' _ H'. by apply Hg.
Qed.

End Triples.
End Interleave.

#[global] Existing Instance guarded_preorder.
#[global] Existing Instance stable_const.
#[global] Existing Instance stable_and.
#[global] Existing Instance stable_res.
#[global] Existing Instance stable_option.
#[global] Existing Instance stable_answers.

Arguments Prog : clear implicits.
Arguments Act : clear implicits.
Arguments Ret {W A} a.
Arguments Get {W A R} f k.
Arguments Step {W A R} act k.
Arguments Event : clear implicits.

Notation "'let*' x := m 'in' k" := (abind m (fun x => k))
  (at level 200, x binder, m at level 100, k at level 200, right associativity).
