(* ===== verification/PaymentStore.v ===== *)
(** * Payment orders: money and tables

Currencies and amounts of [payment/currency.go], [payment/fee.go] and
[service/payment_amounts.go], and the tables that payments read and write, with
one function per statement.  Amounts are integers in units of 10^-10; a number
that a provider sends may be no number at all.  A column of two decimals rounds
what it stores, and a time is stored in microseconds.  A row of
[payment_orders] is in three parts: what is written when the order is created,
what is known of the payment, and of a refund; columns that no modelled code reads
are left out.  Audit records are unique for an order and an action
([migrations/131_affiliate_rebate_hardening.sql]); of their text only what is read
back is kept; of a failure the error, not its text.  The lengths of text columns
are not checked. *)
From S2P Require Import Prelude GoText GoTime SubscriptionWindow Redis Programs Interleave.
From Stdlib Require Import Bool.

Local Open Scope string_scope.
Local Open Scope Z_scope.

(** ** Money *)

Notation Money := Z (only parsing).
Definition unit_ : Money := 10000000000.

(** A [float64] from outside. *)
Inductive Float : Type :=
  | Num (a : Money)
  | NaNOrInf.

(** Rounding to a multiple of [k], halves away from zero, as [decimal.Round] and the
columns do. *)
Definition round_to (k x : Money) : Money :=
  if 0 <=? x then (x + k / 2) / k * k else - ((- x + k / 2) / k * k).

(** Rounding away from zero. *)
Definition round_up (k x : Money) : Money :=
  if 0 <=? x then (x + k - 1) / k * k else - ((- x + k - 1) / k * k).

(** [decimal(20,2)] and [decimal(20,8)]. *)
Definition cent : Money := 100000000.
Definition numeric2 (x : Money) : Money := round_to cent x.
Definition numeric8 (x : Money) : Money := round_to 100 x.

(** *** Currencies *)

Definition DefaultPaymentCurrency := "CNY".

Record paymentCurrencyAmountUnit : Type := mkAmountUnit { apiMinorUnit : Z; maxFractionDigits : Z }.

Definition zeroDecimalAmountUnit := mkAmountUnit 0 0.
Definition twoDecimalAmountUnit := mkAmountUnit 2 2.
Definition threeDecimalAmountUnit := mkAmountUnit 3 3.
Definition stripeLegacyZeroAmount := mkAmountUnit 2 0.

Definition paymentCurrencyAmountUnits : list (string * paymentCurrencyAmountUnit) :=
  (map (fun c => (c, zeroDecimalAmountUnit))
    ["BIF"; "CLP"; "DJF"; "GNF"; "JPY"; "KMF"; "KRW"; "MGA"; "PYG"; "RWF"; "VND"; "VUV"; "XAF";
     "XOF"; "XPF"] ++
   map (fun c => (c, stripeLegacyZeroAmount)) ["ISK"; "UGX"] ++
   map (fun c => (c, threeDecimalAmountUnit)) ["BHD"; "IQD"; "JOD"; "KWD"; "LYD"; "OMR"; "TND"])%list.

Definition is_upper_letter (a : ascii) : bool := (65 <=? ascii_byte a) && (ascii_byte a <=? 90).

Section Money.
Context `{GoUnicode, GoUpper}.

Definition NormalizePaymentCurrency (raw : string) : res string :=
  let currency := ToUpper (TrimSpace raw) in
  if String.eqb currency "" then Ok DefaultPaymentCurrency
  else if negb (len currency =? 3) then Err (ErrMsg "payment currency must be a 3-letter ISO currency code")
  else if negb (forallb is_upper_letter (String.list_ascii_of_string currency)) then
    Err (ErrMsg "payment currency must be a 3-letter ISO currency code")
  else Ok currency.

Definition paymentCurrencyAmountUnitFor (currency : string) : paymentCurrencyAmountUnit :=
  match NormalizePaymentCurrency currency with
  | Err _ => twoDecimalAmountUnit
  | Ok normalized =>
      match find (fun p => String.eqb p.1 normalized) paymentCurrencyAmountUnits with
      | Some (_, amountUnit) => amountUnit
      | None => twoDecimalAmountUnit
      end
  end.

Definition CurrencyMinorUnit (currency : string) : Z := apiMinorUnit (paymentCurrencyAmountUnitFor currency).
Definition CurrencyMaxFractionDigits (currency : string) : Z :=
  maxFractionDigits (paymentCurrencyAmountUnitFor currency).

(** The smallest amount with so many fraction digits. *)
Definition grain (digits : Z) : Money := unit_ / 10 ^ digits.

(** The amount that [CalculatePayAmountForCurrency] formats; the fee is in percent,
counted like an amount. *)
Definition CalculatePayAmountForCurrency (rechargeAmount : Money) (feeRate : Z) (currency : string) : Money :=
  let k := grain (CurrencyMaxFractionDigits currency) in
  if feeRate <=? 0 then round_to k rechargeAmount
  else
    let fee := round_up (k * (100 * unit_)) (rechargeAmount * feeRate) / (100 * unit_) in
    round_to k (rechargeAmount + fee).

(** *** Amounts of orders *)

Definition defaultBalanceRechargeMultiplier : Z := unit_.

Definition normalizeBalanceRechargeMultiplier (multiplier : Float) : Z :=
  match multiplier with
  | Num m => if m <=? 0 then defaultBalanceRechargeMultiplier else m
  | NaNOrInf => defaultBalanceRechargeMultiplier
  end.

Definition calculateCreditedBalance (paymentAmount : Money) (multiplier : Float) : Money :=
  round_to (cent * unit_) (paymentAmount * normalizeBalanceRechargeMultiplier multiplier) / unit_.

Definition amountToleranceCNY : Money := cent.

Definition paymentAmountToleranceForCurrency (currency : string) : Money :=
  let minorUnit := CurrencyMinorUnit currency in
  if minorUnit <=? 2 then amountToleranceCNY else grain minorUnit / 2.

Definition isValidProviderAmount (amount : Float) : bool :=
  match amount with Num a => 0 <? a | NaNOrInf => false end.

(** The product over the order's amount, rounded once: the sixteen digits that
[decimal.Div] keeps do not change what the rounding to a currency's digits gives. *)
Definition calculateGatewayRefundAmount (orderAmount payAmount refundAmount : Money) (currency : string)
    : Money :=
  if (orderAmount <=? 0) || (payAmount <=? 0) || (refundAmount <=? 0) then 0
  else
    let k := grain (CurrencyMaxFractionDigits currency) in
    if Z.abs (refundAmount - orderAmount) <=? paymentAmountToleranceForCurrency currency
    then round_to k payAmount
    else (2 * payAmount * refundAmount + k * orderAmount) / (2 * k * orderAmount) * k.

End Money.

(** ** Rows *)

Inductive OrderStatus : Type :=
  | OrderStatusPending
  | OrderStatusPaid
  | OrderStatusRecharging
  | OrderStatusCompleted
  | OrderStatusExpired
  | OrderStatusCancelled
  | OrderStatusFailed
  | OrderStatusRefundRequested
  | OrderStatusRefunding
  | OrderStatusRefundPending
  | OrderStatusPartiallyRefunded
  | OrderStatusRefunded
  | OrderStatusRefundFailed.

#[global] Instance order_status_eq_dec : EqDecision OrderStatus.
Proof. solve_decision. Defined.

Definition status_in (s : OrderStatus) (l : list OrderStatus) : bool := bool_decide (s ∈ l).

Definition OrderTypeBalance := "balance".
Definition OrderTypeSubscription := "subscription".

(** A value of the JSON column [provider_snapshot]. *)
Inductive SnapshotValue : Type :=
  | SnapString (s : string)
  | SnapNumber (n : Z)
  | SnapOther.

Record OrderSpec : Type := mkOrderSpec {
  ID : Z;
  UserID : Z;
  Amount : Money;
  RechargeCode : string;
  OutTradeNo : string;
  PaymentType : string;
  OrderType : string;
  PlanID : option Z;
  SubscriptionDays : option Z;
  ProviderSnapshot : gmap string SnapshotValue;
  ExpiresAt : Time;
  CreatedAt : Time
}.

Record OrderPayment : Type := mkOrderPayment {
  PayAmount : Money;
  PaymentTradeNo : string;
  ProviderInstanceID : option string;
  ProviderKey : option string;
  PaidAt : option Time
}.

Record OrderRefund : Type := mkOrderRefund {
  RefundAmount : Money;
  RefundReason : option string;
  RefundAt : option Time;
  ForceRefund : bool;
  RefundRequestedAt : option Time;
  RefundRequestReason : option string;
  RefundRequestedBy : option string
}.

Record PaymentOrder : Type := mkOrder {
  order_spec :> OrderSpec;
  order_payment :> OrderPayment;
  order_refund :> OrderRefund;
  Status : OrderStatus;
  CompletedAt : option Time;
  FailedAt : option Time;
  FailedReason : option goerr;
  UpdatedAt : Time
}.

(** What the database stores of an instant. *)
Definition timestamptz (t : Time) : Time := (t + 500) / 1000 * 1000.

(** The setters of an update. *)
Definition SetStatus (v : OrderStatus) (o : PaymentOrder) : PaymentOrder :=
  mkOrder o o o v (CompletedAt o) (FailedAt o) (FailedReason o) (UpdatedAt o).
Definition SetUpdatedAt (v : Time) (o : PaymentOrder) : PaymentOrder :=
  mkOrder o o o (Status o) (CompletedAt o) (FailedAt o) (FailedReason o) (timestamptz v).
Definition SetCompletedAt (v : Time) (o : PaymentOrder) : PaymentOrder :=
  mkOrder o o o (Status o) (Some (timestamptz v)) (FailedAt o) (FailedReason o) (UpdatedAt o).
Definition set_failed (at_ : option Time) (reason : option goerr) (o : PaymentOrder) : PaymentOrder :=
  mkOrder o o o (Status o) (CompletedAt o) at_ reason (UpdatedAt o).
Definition set_payment (p : OrderPayment) (o : PaymentOrder) : PaymentOrder :=
  mkOrder o p o (Status o) (CompletedAt o) (FailedAt o) (FailedReason o) (UpdatedAt o).
Definition set_refund (r : OrderRefund) (o : PaymentOrder) : PaymentOrder :=
  mkOrder o o r (Status o) (CompletedAt o) (FailedAt o) (FailedReason o) (UpdatedAt o).

Definition SetPaymentTradeNo (v : string) (o : PaymentOrder) : PaymentOrder :=
  set_payment (mkOrderPayment (PayAmount o) v (ProviderInstanceID o) (ProviderKey o) (PaidAt o)) o.
Definition SetPaid (amount : Money) (tradeNo : string) (at_ : Time) (o : PaymentOrder) : PaymentOrder :=
  set_payment (mkOrderPayment (numeric2 amount) tradeNo (ProviderInstanceID o) (ProviderKey o)
                 (Some (timestamptz at_))) o.

(** The table's key has the order's number as text, which names it. *)
Inductive AuditDetail : Type :=
  | DetailOther
  | DetailRefundPending (RefundID : string) (DeductionRollbackOK : bool).

Record AuditLog : Type := mkAuditLog { Detail : AuditDetail; Operator : string; LoggedAt : Time }.

Definition StatusUnused := "unused".
Definition StatusUsed := "used".
Definition StatusExpired := "expired".
Definition RedeemTypeBalance := "balance".
Definition RedeemTypeConcurrency := "concurrency".
Definition RedeemTypeSubscription := "subscription".
Definition RedeemTypeInvitation := "invitation".

(** A redeem code is named by its text, which is unique. *)
Record RedeemCode : Type := mkRedeemCode {
  Code : string;
  Type_ : string;
  Value : Money;
  CodeStatus : string;
  UsedBy : option Z;
  UsedAt : option Time;
  CodeExpiresAt : option Time;
  ValidityDays : Z
}.

Record UserRow : Type := mkUser { Balance : Money; TotalRecharged : Money; Concurrency : Z }.

(** A wallet as payments see it; a row that has been deleted is not in the table. *)
Record WalletRow : Type := mkWallet {
  wallet_user : Z;
  wallet_plan : option Z;
  wallet_expires : Time;
  wallet_status : string;
  wallet_notes : string;
  wallet_limit : option Money;
  wallet_period : string;
  wallet_window : Time;
  wallet_created : Time
}.

Record PlanRow : Type := mkPlan { plan_limit : option Money; plan_period : string }.

Record PaymentProviderInstance : Type := mkInstance {
  InstanceID : Z;
  InstanceProviderKey : string;
  SupportedTypes : string;
  PaymentMode : string;
  Enabled : bool;
  RefundEnabled : bool;
  AllowUserRefund : bool;
  SortOrder : Z
}.

Record RefundRequest : Type := mkRefundRequest {
  refund_trade_no : string;
  refund_order : string;
  refund_amount : Money;
  refund_reason : string
}.

(** The tables, with those of the affiliate program as they are; the clock; and what
the gateways have been asked to pay back, the latest request first. *)
Record Store (Aff : Type) : Type := mkStore {
  orders : gmap Z PaymentOrder;
  logs : gmap (Z * string) AuditLog;
  redeem_codes : gmap string RedeemCode;
  users : gmap Z UserRow;
  wallets : gmap Z WalletRow;
  plans : gmap Z PlanRow;
  instances : gmap Z PaymentProviderInstance;
  affiliate : Aff;
  clock : Time;
  gateway : list RefundRequest
}.
Arguments mkStore {Aff}.
Arguments orders {Aff}.
Arguments logs {Aff}.
Arguments redeem_codes {Aff}.
Arguments users {Aff}.
Arguments wallets {Aff}.
Arguments plans {Aff}.
Arguments instances {Aff}.
Arguments affiliate {Aff}.
Arguments clock {Aff}.
Arguments gateway {Aff}.

(** ** Statements *)

Definition ErrRowNotFound : goerr := ErrMsg "ent: not found".
Definition ErrNotSingular : goerr := ErrMsg "ent: not singular".
Definition ErrConstraint : goerr := ErrMsg "ent: constraint failed".
Definition ErrUserNotFound : goerr := ErrApp 404 "USER_NOT_FOUND".
Definition ErrRedeemCodeNotFound : goerr := ErrApp 404 "REDEEM_CODE_NOT_FOUND".
Definition ErrRedeemCodeUsed : goerr := ErrApp 409 "REDEEM_CODE_USED".
Definition ErrRedeemCodeExpired : goerr := ErrApp 409 "REDEEM_CODE_EXPIRED".
Definition ErrRedeemRateLimited : goerr := ErrApp 429 "REDEEM_RATE_LIMITED".
Definition ErrRedeemCodeLocked : goerr := ErrApp 409 "REDEEM_CODE_LOCKED".
Definition ErrSubscriptionNotFound : goerr := ErrApp 404 "SUBSCRIPTION_NOT_FOUND".
Definition ErrAdjustWouldExpire : goerr := ErrApp 400 "ADJUST_WOULD_EXPIRE".

(** [errors.Is] *)
Fixpoint errors_Is (e target : goerr) : bool :=
  bool_decide (e = target) || match e with ErrWrap _ cause => errors_Is cause target | _ => false end.

Definition wrap_err {A} (prefix : string) (r : res A) : res A :=
  match r with Ok a => Ok a | Err e => Err (ErrWrap prefix e) end.

Section Statements.
Context {Aff : Type}.
Implicit Types w : Store Aff.

Definition with_orders v (w : Store Aff) : Store Aff :=
  mkStore v (logs w) (redeem_codes w) (users w) (wallets w) (plans w) (instances w) (affiliate w) (clock w) (gateway w).
Definition with_logs v (w : Store Aff) : Store Aff :=
  mkStore (orders w) v (redeem_codes w) (users w) (wallets w) (plans w) (instances w) (affiliate w) (clock w) (gateway w).
Definition with_redeem_codes v (w : Store Aff) : Store Aff :=
  mkStore (orders w) (logs w) v (users w) (wallets w) (plans w) (instances w) (affiliate w) (clock w) (gateway w).
Definition with_users v (w : Store Aff) : Store Aff :=
  mkStore (orders w) (logs w) (redeem_codes w) v (wallets w) (plans w) (instances w) (affiliate w) (clock w) (gateway w).
Definition with_wallets v (w : Store Aff) : Store Aff :=
  mkStore (orders w) (logs w) (redeem_codes w) (users w) v (plans w) (instances w) (affiliate w) (clock w) (gateway w).
Definition with_affiliate v (w : Store Aff) : Store Aff :=
  mkStore (orders w) (logs w) (redeem_codes w) (users w) (wallets w) (plans w) (instances w) v (clock w) (gateway w).
Definition with_clock v (w : Store Aff) : Store Aff :=
  mkStore (orders w) (logs w) (redeem_codes w) (users w) (wallets w) (plans w) (instances w) (affiliate w) v (gateway w).
Definition with_gateway v (w : Store Aff) : Store Aff :=
  mkStore (orders w) (logs w) (redeem_codes w) (users w) (wallets w) (plans w) (instances w) (affiliate w) (clock w) v.

Definition time_now : Act (Store Aff) Time := get clock.

(** A number that no row of a table has. *)
Definition next_id {A} (t : gmap Z A) : Z := 1 + map_fold (fun i _ n => Z.max i n) 0 t.

(** *** Orders *)

Definition order_row (id : Z) (w : Store Aff) : res PaymentOrder :=
  match orders w !! id with Some o => Ok o | None => Err ErrRowNotFound end.

Definition order_get (id : Z) : Act (Store Aff) PaymentOrder := select (order_row id).

(** [Query().Where(OutTradeNo(t)).Only()] *)
Definition order_by_trade_no (outTradeNo : string) : Act (Store Aff) PaymentOrder :=
  select (fun w =>
    match filter (fun o : PaymentOrder => OutTradeNo o = outTradeNo) (map snd (map_to_list (orders w))) with
    | [o] => Ok o
    | [] => Err ErrRowNotFound
    | _ => Err ErrNotSingular
    end).

(** [Update().Where(IDEQ(id), p).Set...Save()]: the number of rows.  An update stamps
the row, unless it sets [updated_at] itself. *)
Definition update_order (id : Z) (p : PaymentOrder -> bool) (set : PaymentOrder -> PaymentOrder) (w : Store Aff)
    : Store Aff * res Z :=
  match orders w !! id with
  | Some o =>
      if p o then (with_orders (<[id := set (SetUpdatedAt (clock w) o)]> (orders w)) w, Ok 1)
      else (w, Ok 0)
  | None => (w, Ok 0)
  end.

Definition order_update id p set : Act (Store Aff) Z := statement (update_order id p set).

(** [UpdateOneID(id).Set...Save()] *)
Definition update_one_order (id : Z) (set : PaymentOrder -> PaymentOrder) (w : Store Aff)
    : Store Aff * res PaymentOrder :=
  match orders w !! id with
  | Some o =>
      let o' := set (SetUpdatedAt (clock w) o) in (with_orders (<[id := o']> (orders w)) w, Ok o')
  | None => (w, Err ErrRowNotFound)
  end.

Definition order_update_one id set : Act (Store Aff) PaymentOrder := statement (update_one_order id set).

(** *** Audit records *)

Definition insert_log (oid : Z) (action : string) (detail : AuditDetail) (op : string) (w : Store Aff)
    : Store Aff * res unit :=
  match logs w !! (oid, action) with
  | Some _ => (w, Err ErrConstraint)
  | None => (with_logs (<[(oid, action) := mkAuditLog detail op (timestamptz (clock w))]> (logs w)) w, Ok tt)
  end.

(** [writeAuditLog]: an error is only logged. *)
Definition write_audit (oid : Z) (action : string) (detail : AuditDetail) (op : string) : Act (Store Aff) unit :=
  let* _ := atry (statement (insert_log oid action detail op)) in aret tt.
Definition writeAuditLog (oid : Z) (action op : string) : Act (Store Aff) unit :=
  write_audit oid action DetailOther op.

Definition has_log (oid : Z) (action : string) (w : Store Aff) : bool := bool_decide (is_Some (logs w !! (oid, action))).

(** [hasAuditLog]: a count that fails is none. *)
Definition hasAuditLog (oid : Z) (action : string) : Act (Store Aff) bool :=
  let* c := atry (select (fun w => Ok (has_log oid action w))) in
  aret (match c with Ok b => b | Err _ => false end).

(** *** Users *)

Definition user_by_id (id : Z) (w : Store Aff) : res UserRow :=
  match users w !! id with Some u => Ok u | None => Err ErrUserNotFound end.

Definition GetUserByID (id : Z) : Act (Store Aff) UserRow := select (user_by_id id).

Definition with_user (id : Z) (w : Store Aff) (f : UserRow -> UserRow) : res (Store Aff) :=
  match users w !! id with
  | Some u => Ok (with_users (<[id := f u]> (users w)) w)
  | None => Err ErrUserNotFound
  end.

Definition UpdateBalance (id : Z) (amount : Money) (w : Store Aff) : res (Store Aff) :=
  with_user id w (fun u =>
    mkUser (numeric8 (Balance u + amount))
      (if 0 <? amount then numeric8 (TotalRecharged u + amount) else TotalRecharged u) (Concurrency u)).

Definition ApplyRedeemBalanceAdjustment (id : Z) (delta : Money) (w : Store Aff) : res (Store Aff) :=
  with_user id w (fun u =>
    mkUser (Z.max (numeric8 (Balance u + delta)) 0) (TotalRecharged u) (Concurrency u)).

Definition UpdateConcurrency (id : Z) (amount : Z) (w : Store Aff) : res (Store Aff) :=
  with_user id w (fun u => mkUser (Balance u) (TotalRecharged u) (Concurrency u + amount)).

Definition ApplyRedeemConcurrencyAdjustment (id : Z) (delta : Z) (w : Store Aff) : res (Store Aff) :=
  with_user id w (fun u => mkUser (Balance u) (TotalRecharged u) (Z.max (Concurrency u + delta) 0)).

(** What has been deducted, which is at most what is there. *)
Definition DeductAvailableBalance (id : Z) (amount : Money) (w : Store Aff) : Store Aff * res Money :=
  if amount <? 0 then (w, Err (ErrMsg "deduction amount must be nonnegative"))
  else
    match users w !! id with
    | None => (w, Err ErrUserNotFound)
    | Some u =>
        let balance := numeric8 (Balance u - Z.min amount (Z.max (Balance u) 0)) in
        (with_users (<[id := mkUser balance (TotalRecharged u) (Concurrency u)]> (users w)) w,
         Ok (Balance u - balance))
    end.

(** A function that answers the tables it leaves, as a statement. *)
Definition effect (f : Store Aff -> res (Store Aff)) : Act (Store Aff) unit :=
  statement (fun w => match f w with Ok w' => (w', Ok tt) | Err e => (w, Err e) end).

(** *** Provider instances *)

Definition instance_get (id : Z) : Act (Store Aff) PaymentProviderInstance :=
  select (fun w => match instances w !! id with Some i => Ok i | None => Err ErrRowNotFound end).

Definition instances_where (p : PaymentProviderInstance -> bool) : Act (Store Aff) (list PaymentProviderInstance) :=
  select (fun w => Ok (filter (fun i => p i = true) (map snd (map_to_list (instances w))))).

End Statements.

Lemma next_id_fresh {A} (t : gmap Z A) : t !! next_id t = None.
Proof.
  assert (Hle : forall (t : gmap Z A) i, is_Some (t !! i) -> i <= map_fold (fun i _ n => Z.max i n) 0 t).
  { intros t'. apply (map_fold_weak_ind (fun n t => forall i, is_Some (t !! i) -> i <= n)).
    - intros i [x Hx]. by rewrite lookup_empty in Hx.
    - intros j x t0 n _ IH i Hi. destruct (decide (i = j)) as [->|Hne]; [lia|].
      rewrite lookup_insert_ne in Hi by done. specialize (IH i Hi). lia. }
  destruct (t !! next_id t) as [x|] eqn:E; [|done]. specialize (Hle t (next_id t) ltac:(by eexists)).
  unfold next_id in *. lia.
Qed.
