(* ===== verification/PaymentProviders.v ===== *)
(** * Payment providers of an order

Which provider instance an order belongs to, and what a notification must say to
be its payment: [service/payment_order_provider_snapshot.go], the resolution of
instances in [service/payment_refund.go], [service/payment_order_lifecycle.go] and
[service/payment_webhook_provider.go], and [payment/registry.go].  A provider is
what its gateway answers; how an instance's configuration becomes a provider is an
input, as the gateways' own libraries do it. *)
From S2P Require Import Prelude GoText GoTime SubscriptionWindow Redis Programs Interleave PaymentStore.
From Stdlib Require Import Bool.

Local Open Scope string_scope.
Local Open Scope Z_scope.

(** ** What gateways answer *)

Record QueryOrderResponse : Type := mkQueryOrderResponse {
  resp_trade_no : string;
  resp_status : string;
  resp_amount : Float;
  resp_metadata : gmap string string
}.

Record RefundResponse : Type := mkRefundResponse { RefundID : string; refund_status : string }.

Record RefundQueryRequest : Type := mkRefundQueryRequest {
  query_trade_no : string;
  query_order : string;
  query_refund : string;
  query_amount : Money
}.

(** A provider: its answer to the first query and to a second one, to a refund (a
response may come with an error), and to the query of a refund if it has one. *)
Record Provider : Type := mkProvider {
  ProviderKey_ : string;
  SupportedTypes_ : list string;
  QueryOrder : nat -> string -> res QueryOrderResponse;
  Refund_ : RefundRequest -> option RefundResponse * option goerr;
  QueryRefund : option (RefundQueryRequest -> option RefundResponse * option goerr);
  MerchantIdentityMetadata : option (gmap string string)
}.

Definition ProviderStatusPending := "pending".
Definition ProviderStatusPaid := "paid".
Definition ProviderStatusSuccess := "success".
Definition ProviderStatusFailed := "failed".
Definition ProviderStatusRefunded := "refunded".

Definition TypeAlipay := "alipay".
Definition TypeWxpay := "wxpay".
Definition TypeAlipayDirect := "alipay_direct".
Definition TypeWxpayDirect := "wxpay_direct".
Definition TypeStripe := "stripe".
Definition TypeCard := "card".
Definition TypeLink := "link".
Definition TypeEasyPay := "easypay".
Definition TypeAirwallex := "airwallex".

Definition GetBasePaymentType (t : string) : string :=
  if String.eqb t TypeEasyPay then TypeEasyPay
  else if String.eqb t TypeAirwallex then TypeAirwallex
  else if String.eqb t TypeStripe || String.eqb t TypeCard || String.eqb t TypeLink then TypeStripe
  else if HasPrefix t TypeAlipay then TypeAlipay
  else if HasPrefix t TypeWxpay then TypeWxpay
  else t.

(** ** The registry *)

Notation Registry := (gmap string Provider).

Definition ErrProviderNotFound : goerr := ErrApp 404 "PROVIDER_NOT_FOUND".

(** The provider takes every type that it supports. *)
Definition Register (p : Provider) (r : Registry) : Registry :=
  foldl (fun r t => <[t := p]> r) r (SupportedTypes_ p).

Definition GetProvider (r : Registry) (t : string) : res Provider :=
  match r !! t with Some p => Ok p | None => Err ErrProviderNotFound end.

Definition GetProviderKey (r : Registry) (t : string) : string :=
  match r !! t with Some p => ProviderKey_ p | None => "" end.

(** Go visits the map in any order. *)
Definition GetProviderByKey (r : Registry) (key : string) : res Provider :=
  match find (fun p => String.eqb (ProviderKey_ p) key) (map snd (map_to_list r)) with
  | Some p => Ok p
  | None => Err ErrProviderNotFound
  end.

(** The registry as it is, and how an instance becomes a provider. *)
Record Gateways : Type := mkGateways {
  registry : Registry;
  providersLoaded : bool;
  create_provider : PaymentProviderInstance -> res Provider
}.

(** ** The snapshot of an order *)

Record paymentOrderProviderSnapshot : Type := mkSnapshot {
  SchemaVersion : Z;
  snap_instance : string;
  snap_key : string;
  snap_mode : string;
  MerchantAppID : string;
  MerchantID : string;
  snap_currency : string
}.

Definition psStringValue (value : option string) : string := default "" value.

Section Providers.
Context `{GoUnicode, GoUpper}.

Definition psSnapshotStringValue (value : option SnapshotValue) : string :=
  match value with Some (SnapString typed) => TrimSpace typed | _ => "" end.

Definition psSnapshotIntValue (value : option SnapshotValue) : Z :=
  match value with
  | Some (SnapNumber n) => n
  | Some (SnapString typed) => default 0 (ParseInt (TrimSpace typed))
  | _ => 0
  end.

Definition psOrderProviderSnapshot (order : PaymentOrder) : option paymentOrderProviderSnapshot :=
  let m := ProviderSnapshot order in
  if decide (m = ∅) then None
  else
    let snapshot := mkSnapshot (psSnapshotIntValue (m !! "schema_version"))
      (psSnapshotStringValue (m !! "provider_instance_id")) (psSnapshotStringValue (m !! "provider_key"))
      (psSnapshotStringValue (m !! "payment_mode")) (psSnapshotStringValue (m !! "merchant_app_id"))
      (psSnapshotStringValue (m !! "merchant_id")) (psSnapshotStringValue (m !! "currency")) in
    if (SchemaVersion snapshot =? 0) && String.eqb (snap_instance snapshot) ""
       && String.eqb (snap_key snapshot) "" && String.eqb (snap_mode snapshot) ""
       && String.eqb (MerchantAppID snapshot) "" && String.eqb (MerchantID snapshot) ""
       && String.eqb (snap_currency snapshot) ""
    then None else Some snapshot.

Definition PaymentOrderCurrency (order : PaymentOrder) : string :=
  match psOrderProviderSnapshot order with
  | Some snapshot =>
      match NormalizePaymentCurrency (snap_currency snapshot) with
      | Ok currency => currency
      | Err _ => DefaultPaymentCurrency
      end
  | None => DefaultPaymentCurrency
  end.

(** *** What a notification says of the merchant *)

(** An expectation of the snapshot; the value in the metadata, as the provider's
case compares it. *)
Definition must_match (expected actual : string) (what : string) : res unit :=
  if String.eqb expected "" then Ok tt
  else if String.eqb actual "" then Err (ErrMsg (what ++ " missing"))
  else if EqualFold expected actual then Ok tt
  else Err (ErrMsg (what ++ " mismatch")).

(** A state that, if there, must be the final one. *)
Definition state_is (actual final : string) (what : string) : res unit :=
  if String.eqb actual "" || EqualFold actual final then Ok tt else Err (ErrMsg (what ++ " mismatch")).

Fixpoint all_ok (l : list (res unit)) : res unit :=
  match l with [] => Ok tt | Ok _ :: l => all_ok l | Err e :: _ => Err e end.

Definition validateProviderSnapshotMetadata (order : PaymentOrder) (providerKey : string)
    (metadata : gmap string string) : res unit :=
  if decide (metadata = ∅) then Ok tt
  else
    match psOrderProviderSnapshot order with
    | None => Ok tt
    | Some snapshot =>
        let field k := TrimSpace (default "" (metadata !! k)) in
        let appid := TrimSpace (MerchantAppID snapshot) in
        let merchant := TrimSpace (MerchantID snapshot) in
        let currency := TrimSpace (snap_currency snapshot) in
        let key := TrimSpace providerKey in
        if String.eqb key TypeWxpay then
          all_ok [must_match appid (field "appid") "wxpay appid";
                  must_match merchant (field "mchid") "wxpay mchid";
                  must_match currency (ToUpper (field "currency")) "wxpay currency";
                  state_is (field "trade_state") "SUCCESS" "wxpay trade_state"]
        else if String.eqb key TypeAlipay then must_match appid (field "app_id") "alipay app_id"
        else if String.eqb key TypeEasyPay then must_match merchant (field "pid") "easypay pid"
        else if String.eqb key TypeStripe then
          must_match currency (ToUpper (field "currency")) "stripe currency"
        else if String.eqb key TypeAirwallex then
          all_ok [must_match merchant (field "account_id") "airwallex account_id";
                  must_match currency (ToUpper (field "currency")) "airwallex currency";
                  state_is (field "status") "SUCCEEDED" "airwallex status"]
        else Ok tt
    end.

Definition providerMerchantIdentityMetadata (prov : Provider) : gmap string string :=
  default ∅ (MerchantIdentityMetadata prov).

Definition expectedNotificationProviderKey (r : Registry)
    (orderPaymentType orderProviderKey instanceProviderKey : string) : string :=
  if negb (String.eqb (TrimSpace instanceProviderKey) "") then TrimSpace instanceProviderKey
  else if negb (String.eqb (TrimSpace orderProviderKey) "") then TrimSpace orderProviderKey
  else if negb (String.eqb (TrimSpace (GetProviderKey r orderPaymentType)) "")
  then TrimSpace (GetProviderKey r orderPaymentType)
  else TrimSpace orderPaymentType.

Definition expectedNotificationProviderKeyForOrder (r : Registry) (order : PaymentOrder)
    (instanceProviderKey : string) : string :=
  let orderProviderKey :=
    match psOrderProviderSnapshot order with
    | Some snapshot => if String.eqb (snap_key snapshot) "" then psStringValue (ProviderKey order)
                       else snap_key snapshot
    | None => psStringValue (ProviderKey order)
    end in
  expectedNotificationProviderKey r (PaymentType order) orderProviderKey instanceProviderKey.

(** ** The instance of an order *)

Section Instances.
Context {Aff : Type}.
Notation World := (Store Aff).

Definition resolveSnapshotOrderProviderInstance (order : PaymentOrder) (snapshot : paymentOrderProviderSnapshot)
    : Act World PaymentProviderInstance :=
  let columnInstanceID := TrimSpace (psStringValue (ProviderInstanceID order)) in
  let snapshotInstanceID :=
    if String.eqb (TrimSpace (snap_instance snapshot)) "" then columnInstanceID
    else TrimSpace (snap_instance snapshot) in
  if String.eqb snapshotInstanceID "" then afail (ErrMsg "provider snapshot is missing provider_instance_id")
  else if negb (String.eqb columnInstanceID "") && negb (String.eqb (snap_instance snapshot) "")
          && negb (EqualFold columnInstanceID (snap_instance snapshot))
  then afail (ErrMsg "provider snapshot instance mismatch")
  else
    match ParseInt snapshotInstanceID with
    | None => afail (ErrMsg "provider snapshot instance id is invalid")
    | Some instID =>
        let* inst := instance_get instID in
        if negb (String.eqb (snap_key snapshot) "")
           && negb (EqualFold (TrimSpace (InstanceProviderKey inst)) (snap_key snapshot))
        then afail (ErrMsg "provider snapshot key mismatch")
        else aret inst
    end.

Definition normalizeVisibleMethodSupportType (paymentType : string) : string :=
  let t := TrimSpace paymentType in
  if String.eqb t TypeAlipay || String.eqb t TypeAlipayDirect then TypeAlipay
  else if String.eqb t TypeWxpay || String.eqb t TypeWxpayDirect then TypeWxpay
  else t.

(** [strings.Split] at a byte. *)
Fixpoint split_at (sep : ascii) (s : string) : list string :=
  match s with
  | EmptyString => [""]
  | String c r =>
      if Ascii.eqb c sep then "" :: split_at sep r
      else match split_at sep r with [] => [String c ""] | x :: l => String c x :: l end
  end.

Definition InstanceSupportsType (supportedTypes target : string) : bool :=
  String.eqb supportedTypes "" ||
  existsb (fun t =>
    let supported := TrimSpace t in
    String.eqb supported target
    || String.eqb (normalizeVisibleMethodSupportType supported) (normalizeVisibleMethodSupportType target))
    (split_at "," supportedTypes).

Definition psLegacyOrderMatchesInstance (orderPaymentType : string) (inst : PaymentProviderInstance) : bool :=
  let baseType := GetBasePaymentType (TrimSpace orderPaymentType) in
  let instanceProviderKey := TrimSpace (InstanceProviderKey inst) in
  if String.eqb baseType "" then false
  else if String.eqb baseType TypeStripe then String.eqb instanceProviderKey TypeStripe
  else if String.eqb instanceProviderKey TypeStripe then false
  else if String.eqb instanceProviderKey baseType then true
  else InstanceSupportsType (SupportedTypes inst) baseType.

Definition psFilterLegacyOrderProviderInstances (orderPaymentType : string)
    (instances : list PaymentProviderInstance) : list PaymentProviderInstance :=
  if String.eqb (TrimSpace orderPaymentType) "" then instances
  else List.filter (psLegacyOrderMatchesInstance orderPaymentType) instances.

Definition the_only {A} (l : list A) : option A := match l with [x] => Some x | _ => None end.

Definition resolveUniqueLegacyOrderProviderInstance (o : PaymentOrder)
    : Act World (option PaymentProviderInstance) :=
  let paymentType := GetBasePaymentType (TrimSpace (PaymentType o)) in
  let providerKey := TrimSpace (psStringValue (ProviderKey o)) in
  if negb (String.eqb providerKey "") then
    let* instances := instances_where (fun i => String.eqb (InstanceProviderKey i) providerKey) in
    aret (the_only (psFilterLegacyOrderProviderInstances paymentType instances))
  else if String.eqb paymentType "" then aret None
  else
    let* instances := instances_where (fun _ => true) in
    aret (the_only (psFilterLegacyOrderProviderInstances paymentType instances)).

Definition getOrderProviderInstance (o : PaymentOrder) : Act World (option PaymentProviderInstance) :=
  match psOrderProviderSnapshot o with
  | Some snapshot => let* inst := resolveSnapshotOrderProviderInstance o snapshot in aret (Some inst)
  | None =>
      let instIDStr := TrimSpace (psStringValue (ProviderInstanceID o)) in
      if String.eqb instIDStr "" then resolveUniqueLegacyOrderProviderInstance o
      else
        match ParseInt instIDStr with
        | None => aret None
        | Some instID => let* inst := instance_get instID in aret (Some inst)
        end
  end.

(** A refund goes to a known instance or to none. *)
Definition getRefundOrderProviderInstance (o : PaymentOrder) : Act World (option PaymentProviderInstance) :=
  match psOrderProviderSnapshot o with
  | Some snapshot => let* inst := resolveSnapshotOrderProviderInstance o snapshot in aret (Some inst)
  | None =>
      let instIDStr := TrimSpace (psStringValue (ProviderInstanceID o)) in
      if String.eqb instIDStr "" then aret None
      else
        match ParseInt instIDStr with
        | None => afail (ErrMsg "refund provider instance id is invalid")
        | Some instID => let* inst := instance_get instID in aret (Some inst)
        end
  end.

(** ** The provider of an order *)

Context (g : Gateways).

Definition paymentOrderAllowsRegistryFallback (order : PaymentOrder) : bool :=
  match psOrderProviderSnapshot order with
  | Some _ => false
  | None => String.eqb (TrimSpace (psStringValue (ProviderInstanceID order))) ""
            && String.eqb (TrimSpace (psStringValue (ProviderKey order))) ""
  end.

Definition paymentOrderFallbackProviderKey (order : PaymentOrder) : string :=
  let key := TrimSpace (GetProviderKey (registry g) (PaymentType order)) in
  if String.eqb key "" then TrimSpace (GetBasePaymentType (TrimSpace (PaymentType order))) else key.

Definition webhookRegistryFallbackAllowed (providerKey : string) : Act World bool :=
  let providerKey := TrimSpace providerKey in
  if String.eqb providerKey "" then aret false
  else
    let* count := atry (instances_where (fun i => String.eqb (InstanceProviderKey i) providerKey && Enabled i)) in
    aret (match count with Ok l => (length l <=? 1)%nat | Err _ => false end).

(** [loadProviders]: an instance that cannot be made a provider is left out. *)
Definition loadProviders (r : Registry) : Act World Registry :=
  let* instances := atry (instances_where Enabled) in
  aret (match instances with
        | Err _ => r
        | Ok l => foldl (fun r inst => match create_provider g inst with Ok p => Register p r | Err _ => r end) r l
        end).

(** The registry that the call leaves. *)
Definition EnsureProviders : Act World Registry :=
  if providersLoaded g then aret (registry g) else loadProviders (registry g).

Definition getOrderProvider (o : PaymentOrder) : Act World Provider :=
  let* inst := awrap "load order provider instance" (getOrderProviderInstance o) in
  match inst with
  | Some inst => match create_provider g inst with Ok p => aret p | Err e => afail e end
  | None =>
      if negb (paymentOrderAllowsRegistryFallback o) then afail (ErrMsg "provider instance is unresolved")
      else
        let providerKey := paymentOrderFallbackProviderKey o in
        if String.eqb providerKey "" then afail (ErrMsg "provider fallback key is missing")
        else
          let* allowed := webhookRegistryFallbackAllowed providerKey in
          if negb allowed then afail (ErrMsg "provider fallback is ambiguous")
          else
            let* r := EnsureProviders in
            match GetProvider r (PaymentType o) with Ok p => aret p | Err e => afail e end
  end.

Definition getRefundProvider (o : PaymentOrder) : Act World Provider :=
  let* inst := getRefundOrderProviderInstance o in
  match inst with
  | None => afail (ErrMsg "refund provider instance is unavailable")
  | Some inst => match create_provider g inst with Ok p => aret p | Err e => afail e end
  end.

(** *** The providers that may verify a webhook *)

Definition psHasPinnedProviderInstance (order : PaymentOrder) : bool :=
  match psOrderProviderSnapshot order with
  | Some _ => true
  | None => match ProviderInstanceID order with
            | Some id => negb (String.eqb (TrimSpace id) "")
            | None => false
            end
  end.

Definition getPinnedOrderProvider (o : PaymentOrder) : Act World Provider :=
  let* inst := awrap "load order provider instance" (getOrderProviderInstance o) in
  match inst with
  | None => afail (ErrMsg "provider instance is missing")
  | Some inst => match create_provider g inst with Ok p => aret p | Err e => afail e end
  end.

Definition sort_order_less (a b : PaymentProviderInstance) : bool := SortOrder a <? SortOrder b.

Definition getEnabledWebhookProvidersByKey (providerKey : string) : Act World (list Provider) :=
  let providerKey := TrimSpace providerKey in
  let* instances := instances_where (fun i => String.eqb (InstanceProviderKey i) providerKey && Enabled i) in
  let providers := omap (fun inst => match create_provider g inst with Ok p => Some p | Err _ => None end)
                     (stable_sort sort_order_less instances) in
  match providers with [] => afail ErrProviderNotFound | _ => aret providers end.

(** Without an instance of the order's own. *)
Definition webhook_fallback (providerKey : string) : Act World (list Provider) :=
  if String.eqb (TrimSpace providerKey) TypeWxpay then getEnabledWebhookProvidersByKey providerKey
  else
    let* allowed := webhookRegistryFallbackAllowed providerKey in
    if negb allowed then afail (ErrMsg "webhook provider fallback is ambiguous")
    else
      let* r := EnsureProviders in
      match GetProviderByKey r providerKey with Ok p => aret [p] | Err e => afail e end.

Definition GetWebhookProviders (providerKey outTradeNo : string) : Act World (list Provider) :=
  if String.eqb outTradeNo "" then webhook_fallback providerKey
  else
    let* order := atry (order_by_trade_no outTradeNo) in
    match order with
    | Err _ => webhook_fallback providerKey
    | Ok order =>
        if psHasPinnedProviderInstance order then
          let* prov := getPinnedOrderProvider order in aret [prov]
        else
          let* inst := awrap "load order provider instance" (getOrderProviderInstance order) in
          match inst with
          | Some inst => match create_provider g inst with Ok p => aret [p] | Err e => afail e end
          | None => webhook_fallback providerKey
          end
    end.

Definition GetWebhookProvider (providerKey outTradeNo : string) : Act World Provider :=
  let* providers := GetWebhookProviders providerKey outTradeNo in
  match providers with [] => afail ErrProviderNotFound | p :: _ => aret p end.

End Instances.
End Providers.
