(* ===== verification/Redeem.v ===== *)
(** * Redeem codes

[service/redeem_service.go] with the statements of [repository/redeem_code_repo.go]
and the methods of [service/redeem_code.go]: creation and redemption of a code.
Whether the lock of a code is free and how many failed attempts a user has made
are inputs, as Redis keeps them; so is what the subscription service makes of the
wallets for a code that grants or shortens a subscription.  Values have the eight
decimals of their column. *)
From S2P Require Import Prelude GoText GoTime SubscriptionWindow Redis Programs Interleave PaymentStore.
From Stdlib Require Import Bool.

Local Open Scope string_scope.
Local Open Scope Z_scope.

Definition redeemMaxFailedAttempts : Z := 30.

Inductive redeemRateLimitPolicy : Type :=
  | enforceRedeemRateLimit
  | bypassRedeemRateLimit.

(** ** Codes *)

Definition IsUsed (r : RedeemCode) : bool := String.eqb (CodeStatus r) StatusUsed.

Definition IsExpiredAt (r : RedeemCode) (now : Time) : bool :=
  String.eqb (CodeStatus r) StatusExpired ||
  (String.eqb (CodeStatus r) StatusUnused &&
   match CodeExpiresAt r with Some e => negb (After e now) | None => false end).

Definition CanUse (r : RedeemCode) (now : Time) : bool :=
  String.eqb (CodeStatus r) StatusUnused && negb (IsExpiredAt r now).

Section Redeem.
Context `{GoUnicode} {Aff : Type}.
Notation World := (Store Aff).
Implicit Types w : World.

(** ** The repository *)

Definition code_row (code : string) w : res RedeemCode :=
  match redeem_codes w !! code with Some r => Ok r | None => Err ErrRedeemCodeNotFound end.

Definition GetByCode (code : string) : Act World RedeemCode := select (code_row code).

Definition Create (r : RedeemCode) w : World * res unit :=
  match redeem_codes w !! Code r with
  | Some _ => (w, Err ErrConstraint)
  | None => (with_redeem_codes (<[Code r := r]> (redeem_codes w)) w, Ok tt)
  end.

(** A code, used by a user. *)
Definition mark_used (userID : Z) (at_ : Time) (r : RedeemCode) : RedeemCode :=
  mkRedeemCode (Code r) (Type_ r) (Value r) StatusUsed (Some userID) (Some (timestamptz at_))
    (CodeExpiresAt r) (ValidityDays r).

(** [WHERE status = 'unused'] *)
Definition Use (code : string) (userID : Z) w : res World :=
  match redeem_codes w !! code with
  | Some r =>
      if String.eqb (CodeStatus r) StatusUnused then
        Ok (with_redeem_codes (<[code := mark_used userID (clock w) r]> (redeem_codes w)) w)
      else Err ErrRedeemCodeUsed
  | None => Err ErrRedeemCodeUsed
  end.

(** ** The service *)

Definition CreateCode (code : RedeemCode) : Act World unit :=
  let text := TrimSpace (Code code) in
  let type := if String.eqb (Type_ code) "" then RedeemTypeBalance else Type_ code in
  let status := if String.eqb (CodeStatus code) "" then StatusUnused else CodeStatus code in
  let code := mkRedeemCode text type (Value code) status (UsedBy code) (UsedAt code)
                (CodeExpiresAt code) (ValidityDays code) in
  if String.eqb text "" then afail (ErrMsg "code is required")
  else if negb (String.eqb type RedeemTypeInvitation) && (Value code =? 0) then
    afail (ErrMsg "value must not be zero")
  else
    let* now := time_now in
    if IsExpiredAt code now then afail ErrRedeemCodeExpired
    else
      let* r := atry (statement (Create code)) in
      match r with Ok _ => aret tt | Err e => afail (ErrWrap "create redeem code" e) end.

(** What Redis answers: whether the lock was acquired, and the failed attempts. *)
Record RedeemCache : Type := mkRedeemCache { lock_acquired : bool; failed_attempts : option Z }.

(** What the other services do: the benefit of a code for a subscription, and the
rebate of an inviter, if there is an affiliate service. *)
Record RedeemPeers : Type := mkRedeemPeers {
  redeem_subscription : Z -> RedeemCode -> Time -> gmap Z WalletRow -> res (gmap Z WalletRow);
  accrue : option (Z -> Money -> option Z -> Aff -> res (Aff * Money))
}.
Context (peers : RedeemPeers).

Definition checkRedeemRateLimit (cache : RedeemCache) : res unit :=
  match failed_attempts cache with
  | Some count => if redeemMaxFailedAttempts <=? count then Err ErrRedeemRateLimited else Ok tt
  | None => Ok tt
  end.

Definition unsupportedRedeemTypeError (codeType : string) : goerr := ErrApp 400 "REDEEM_CODE_UNSUPPORTED_TYPE".

(** The effect of a code on its user, inside the transaction. *)
Definition apply_benefit (userID : Z) (r : RedeemCode) w : res World :=
  if String.eqb (Type_ r) RedeemTypeBalance then
    wrap_err "update user balance"
      (if Value r <? 0 then ApplyRedeemBalanceAdjustment userID (Value r) w
       else UpdateBalance userID (Value r) w)
  else if String.eqb (Type_ r) RedeemTypeConcurrency then
    let delta := Z.quot (Value r) unit_ in
    wrap_err "update user concurrency"
      (if delta <? 0 then ApplyRedeemConcurrencyAdjustment userID delta w else UpdateConcurrency userID delta w)
  else if String.eqb (Type_ r) RedeemTypeSubscription then
    match redeem_subscription peers userID r (clock w) (wallets w) with
    | Ok t => Ok (with_wallets t w)
    | Err e => Err e
    end
  else Err (unsupportedRedeemTypeError (Type_ r)).

(** The transaction: the code is marked first. *)
Definition redeem_tx (userID : Z) (r : RedeemCode) w : res World :=
  match Use (Code r) userID w with
  | Err e => Err e
  | Ok w' => apply_benefit userID r w'
  end.

Definition redeemable_type (t : string) : bool :=
  String.eqb t RedeemTypeBalance || String.eqb t RedeemTypeConcurrency ||
  String.eqb t RedeemTypeSubscription.

Definition tryAccrueAffiliateRebateForRedeem (skip : bool) (userID : Z) (amount : Money) : Act World unit :=
  match skip, accrue peers with
  | false, Some acc =>
      let* _ := atry (effect (fun w => match acc userID amount None (affiliate w) with
                                       | Ok (a, _) => Ok (with_affiliate a w)
                                       | Err e => Err e
                                       end)) in
      aret tt
  | _, _ => aret tt
  end.

Definition redeem (cache : RedeemCache) (skipAffiliate : bool) (userID : Z) (code : string)
    (policy : redeemRateLimitPolicy) : Act World RedeemCode :=
  match match policy with enforceRedeemRateLimit => checkRedeemRateLimit cache | bypassRedeemRateLimit => Ok tt end with
  | Err e => afail e
  | Ok _ =>
      if negb (lock_acquired cache) then afail ErrRedeemCodeLocked
      else
        let* found := atry (GetByCode code) in
        let* redeemCode := (match found with
                            | Ok r => aret r
                            | Err e => if errors_Is e ErrRedeemCodeNotFound then afail ErrRedeemCodeNotFound
                                       else afail (ErrWrap "get redeem code" e)
                            end) in
        let* now := time_now in
        if IsExpiredAt redeemCode now then afail ErrRedeemCodeExpired
        else if negb (CanUse redeemCode now) then afail ErrRedeemCodeUsed
        else if negb (redeemable_type (Type_ redeemCode)) then
          afail (unsupportedRedeemTypeError (Type_ redeemCode))
        else
          let* _ := awrap "get user" (GetUserByID userID) in
          let* _ := effect (redeem_tx userID redeemCode) in
          let* _ := (if String.eqb (Type_ redeemCode) RedeemTypeBalance && (0 <? Value redeemCode)
                     then tryAccrueAffiliateRebateForRedeem skipAffiliate userID (Value redeemCode)
                     else aret tt) in
          awrap "get updated redeem code" (GetByCode (Code redeemCode))
  end.

Definition redeemForPaymentFulfillment (cache : RedeemCache) (userID : Z) (code : string) : Act World RedeemCode :=
  redeem cache true userID code bypassRedeemRateLimit.

Definition Redeem (cache : RedeemCache) (userID : Z) (code : string) : Act World RedeemCode :=
  redeem cache false userID code enforceRedeemRateLimit.

Definition RedeemForAdminFulfillment (cache : RedeemCache) (userID : Z) (code : string) : Act World RedeemCode :=
  redeem cache false userID code bypassRedeemRateLimit.

End Redeem.
