(* ===== verification/Payments.v ===== *)
(** * Payment fulfilment

[service/payment_fulfillment.go]: what a notification of a payment does to its
order, up to the credit of the balance or the grant of a wallet.  A function that
issues statements is an [Act]; a transaction is one step of it.  The answers of
Redis, of the gateways and of the cache are inputs.  Notification mails are left
out. *)
From S2P Require Import Prelude GoText GoTime SubscriptionWindow Redis Programs Interleave PaymentStore PaymentProviders Redeem.
From Stdlib Require Import Bool.

Local Open Scope string_scope.
Local Open Scope Z_scope.

(** ** Errors *)

Definition NotFound (reason : string) : goerr := ErrApp 404 reason.
Definition Conflict (reason : string) : goerr := ErrApp 409 reason.
Definition BadRequest (reason : string) : goerr := ErrApp 400 reason.
Definition Forbidden (reason : string) : goerr := ErrApp 403 reason.

Definition ErrOrderNotFound : goerr := ErrMsg "payment order not found".

(** ** Constants *)

Definition paymentFulfillmentLeaseDuration : Duration := 5 * Minute.
Definition paymentGraceMinutes : Z := 5.
Definition orderIDPrefix := "sub2_".
Definition pendingPaymentReconcileLimit : nat := 20.
Definition checkPaidResultAlreadyPaid := "already_paid".
Definition checkPaidResultCancelled := "cancelled".
Definition NotificationStatusSuccess := "success".
Definition MaxExpiresAt : Time := Date 2099 12 31 + 23 * Hour + 59 * Minute + 59 * Second.
Definition MaxValidityDays : Z := 36500.
Definition SubscriptionStatusActive := "active".

Record PaymentNotification : Type := mkNotification {
  TradeNo : string;
  OrderID : string;
  PaidAmount : Float;
  NotificationStatus : string;
  Metadata : gmap string string
}.

Definition psIsRefundStatus (s : OrderStatus) : bool :=
  status_in s [OrderStatusRefundRequested; OrderStatusRefunding; OrderStatusRefundPending;
               OrderStatusPartiallyRefunded; OrderStatusRefunded; OrderStatusRefundFailed].

(** The lease of a worker is the time of its claim. *)
Definition lease_version : Type := Time.

Inductive redeemAction : Type :=
  | redeemActionCreate
  | redeemActionRedeem
  | redeemActionSkipCompleted.

Definition resolveRedeemAction (existing : res RedeemCode) : res redeemAction :=
  match existing with
  | Err e => if errors_Is e ErrRedeemCodeNotFound then Ok redeemActionCreate
             else Err (ErrWrap "lookup payment redeem code" e)
  | Ok r => Ok (if IsUsed r then redeemActionSkipCompleted else redeemActionRedeem)
  end.

(** Amounts may differ by 10^-8. *)
Definition validatePaymentRedeemCode (o : PaymentOrder) (code : RedeemCode) : res unit :=
  if negb (String.eqb (Code code) (RechargeCode o)) then Err (ErrMsg "payment redeem code mismatch")
  else if negb (String.eqb (Type_ code) RedeemTypeBalance) then Err (ErrMsg "payment redeem code type mismatch")
  else if 100 <? Z.abs (Value code - Amount o) then Err (ErrMsg "payment redeem code amount mismatch")
  else if String.eqb (CodeStatus code) StatusUnused then
    match UsedBy code with
    | Some _ => Err (ErrMsg "unused payment redeem code has a user")
    | None => Ok tt
    end
  else if String.eqb (CodeStatus code) StatusUsed then
    match UsedBy code with
    | Some u => if u =? UserID o then Ok tt else Err (ErrMsg "payment redeem code user mismatch")
    | None => Err (ErrMsg "payment redeem code user mismatch")
    end
  else Err (ErrMsg "payment redeem code has invalid status").

Definition affiliateRebateBaseAmount (o : PaymentOrder) : Money :=
  if String.eqb (OrderType o) OrderTypeBalance || String.eqb (OrderType o) OrderTypeSubscription
  then Amount o else 0.

Definition normalizeSubLimit (v : option Money) : option Money :=
  match v with Some l => if l <=? 0 then None else Some l | None => None end.

Definition normalizeAssignValidityDays (days : Z) : Z := Z.min (if days <=? 0 then 30 else days) MaxValidityDays.

Definition paymentSubscriptionOrderNote (orderID : Z) : string := "payment order " ++ FormatInt orderID.

Definition CR : ascii := ascii_of_N 13.
Definition LF : ascii := ascii_of_N 10.

(** [strings.ReplaceAll(s, "\r\n", "\n")] *)
Fixpoint crlf_to_lf (s : string) : string :=
  match s with
  | String c ((String d _) as r) => if Ascii.eqb c CR && Ascii.eqb d LF then crlf_to_lf r else String c (crlf_to_lf r)
  | _ => s
  end.

Section Payments.
Context `{GoUnicode, GoUpper} {Aff : Type}.
Notation World := (Store Aff).
Implicit Types w : World.

Definition hasPaymentSubscriptionOrderNote (notes orderNote : string) : bool :=
  existsb (fun line => String.eqb (TrimSpace line) orderNote) (split_at LF (crlf_to_lf notes)).

Definition parseLegacyPaymentOrderID (orderID : string) (lookupErr : goerr) : option Z :=
  if negb (errors_Is lookupErr ErrRowNotFound) then None
  else
    let orderID := TrimSpace orderID in
    if negb (HasPrefix orderID orderIDPrefix) then None
    else
      let trimmed := TrimPrefix orderID orderIDPrefix in
      if String.eqb trimmed "" || String.eqb trimmed orderID then None
      else match ParseInt trimmed with
           | Some oid => if oid <=? 0 then None else Some oid
           | None => None
           end.

(** What the other services answer; the caches, once their entries are dropped. *)
Record Services : Type := mkServices {
  peers : RedeemPeers (Aff := Aff);
  redeem_cache : string -> RedeemCache;
  gateways : Gateways;
  invalidateSubscriptionCaches : res unit
}.
Context (s : Services).

(** ** The affiliate rebate *)

Definition rebate_logged (oid : Z) w : bool :=
  has_log oid "AFFILIATE_REBATE_APPLIED" w || has_log oid "AFFILIATE_REBATE_SKIPPED" w.

(** [updateClaimedAffiliateRebateAudit] *)
Definition rename_claim (oid : Z) (action : string) w : World :=
  match logs w !! (oid, "AFFILIATE_REBATE_APPLIED") with
  | Some l => with_logs (<[(oid, action) := l]> (delete (oid, "AFFILIATE_REBATE_APPLIED") (logs w))) w
  | None => w
  end.

(** The transaction: a claim that is there ends it, as one that another worker
inserts first does. *)
Definition rebate_tx (acc : Z -> Money -> option Z -> Aff -> res (Aff * Money)) (o : PaymentOrder) (base : Money) w
    : res World :=
  if rebate_logged (ID o) w then Ok w
  else
    let w1 := (insert_log (ID o) "AFFILIATE_REBATE_APPLIED" DetailOther "system" w).1 in
    match acc (UserID o) base (Some (ID o)) (affiliate w1) with
    | Err e => Err (ErrWrap "accrue affiliate rebate" e)
    | Ok (a, rebateAmount) =>
        let w2 := with_affiliate a w1 in
        Ok (if rebateAmount <=? 0 then rename_claim (ID o) "AFFILIATE_REBATE_SKIPPED" w2 else w2)
    end.

Definition applyAffiliateRebateForOrder (o : PaymentOrder) : Act World unit :=
  let baseAmount := affiliateRebateBaseAmount o in
  if baseAmount <=? 0 then aret tt
  else
    match accrue (peers s) with
    | None => aret tt
    | Some acc =>
        let* r := atry (effect (rebate_tx acc o baseAmount)) in
        match r with
        | Ok _ => aret tt
        | Err e => let* _ := writeAuditLog (ID o) "AFFILIATE_REBATE_FAILED" "system" in afail e
        end
    end.

(** ** Leases *)

Definition lease_free (staleBefore : Time) (o : PaymentOrder) : bool :=
  status_in (Status o) [OrderStatusPaid; OrderStatusFailed]
  || (bool_decide (Status o = OrderStatusRecharging) && (UpdatedAt o <=? staleBefore)).

Definition claim_lease (now : Time) (o : PaymentOrder) : PaymentOrder :=
  set_failed None None (SetUpdatedAt now (SetStatus OrderStatusRecharging o)).

(** [time.Now().UTC().Truncate(time.Microsecond)] *)
Definition now_micros : Act World Time := let* now := time_now in aret (now / Microsecond * Microsecond).

Definition acquirePaymentFulfillmentLease (o : PaymentOrder) : Act World (option lease_version) :=
  let* now := now_micros in
  let staleBefore := Add now (- paymentFulfillmentLeaseDuration) in
  let* updated := awrap "acquire fulfillment lease"
                    (order_update (ID o) (lease_free staleBefore) (claim_lease now)) in
  if updated =? 0 then
    let* current := awrap "reload fulfillment lease" (order_get (ID o)) in
    if bool_decide (Status current = OrderStatusCompleted) then aret None
    else afail (Conflict "CONFLICT")
  else
    let* claimed := awrap "reload acquired fulfillment lease" (order_get (ID o)) in
    if negb (bool_decide (Status claimed = OrderStatusRecharging)) then afail (Conflict "CONFLICT")
    else aret (Some (UpdatedAt claimed)).

(** The claim of this worker and no later one. *)
Definition lease_held (lease : lease_version) (o : PaymentOrder) : bool :=
  bool_decide (Status o = OrderStatusRecharging) && (UpdatedAt o =? lease).

Definition markCompleted (o : PaymentOrder) (lease : lease_version) (auditAction : string) : Act World unit :=
  let* now := time_now in
  let* updated := awrap "mark completed" (order_update (ID o) (lease_held lease)
                    (fun o => SetCompletedAt now (SetStatus OrderStatusCompleted o))) in
  if updated =? 0 then
    let* current := atry (order_get (ID o)) in
    match current with
    | Ok current => if bool_decide (Status current = OrderStatusCompleted) then aret tt
                    else afail (Conflict "CONFLICT")
    | Err _ => afail (Conflict "CONFLICT")
    end
  else
    let* logged := hasAuditLog (ID o) auditAction in
    if logged then aret tt else writeAuditLog (ID o) auditAction "system".

Definition markFailed (oid : Z) (lease : lease_version) (cause : goerr) : Act World unit :=
  let* now := time_now in
  let* c := atry (order_update oid (lease_held lease)
                    (fun o => set_failed (Some (timestamptz now)) (Some cause) (SetStatus OrderStatusFailed o))) in
  match c with
  | Ok c => if 0 <? c then writeAuditLog oid "FULFILLMENT_FAILED" "system" else aret tt
  | Err _ => aret tt
  end.

(** ** Recharges *)

Definition payment_code (o : PaymentOrder) : RedeemCode :=
  mkRedeemCode (RechargeCode o) RedeemTypeBalance (Amount o) StatusUnused None None None 0.

(** [redeemService.GetByCode]: the error of the repository, wrapped. *)
Definition lookup_code (code : string) : Act World (res RedeemCode) :=
  let* r := atry (GetByCode code) in
  aret (match r with Ok c => Ok c | Err e => Err (ErrWrap "get redeem code" e) end).

Definition doBalance (o : PaymentOrder) (lease : lease_version) : Act World unit :=
  let* existing := lookup_code (RechargeCode o) in
  match resolveRedeemAction existing with
  | Err e => afail e
  | Ok action =>
      match match existing with Ok r => validatePaymentRedeemCode o r | Err _ => Ok tt end with
      | Err e => afail e
      | Ok _ =>
          match action with
          | redeemActionSkipCompleted =>
              let* _ := applyAffiliateRebateForOrder o in
              markCompleted o lease "RECHARGE_SUCCESS"
          | _ =>
              let* _ := (match action with
                         | redeemActionCreate => awrap "create redeem code" (CreateCode (payment_code o))
                         | _ => aret tt
                         end) in
              let* _ := awrap "redeem balance"
                          (redeemForPaymentFulfillment (peers s) (redeem_cache s (RechargeCode o)) (UserID o)
                             (RechargeCode o)) in
              let* _ := applyAffiliateRebateForOrder o in
              markCompleted o lease "RECHARGE_SUCCESS"
          end
      end
  end.

(** An order that can be fulfilled. *)
Definition fulfillable (st : OrderStatus) : bool :=
  status_in st [OrderStatusPaid; OrderStatusFailed; OrderStatusRecharging].

Definition order_or_404 (oid : Z) : Act World PaymentOrder :=
  let* o := atry (order_get oid) in
  match o with Ok o => aret o | Err _ => afail (NotFound "NOT_FOUND") end.

Definition ExecuteBalanceFulfillment (oid : Z) : Act World unit :=
  let* o := order_or_404 oid in
  if bool_decide (Status o = OrderStatusCompleted) then aret tt
  else if psIsRefundStatus (Status o) then afail (BadRequest "INVALID_STATUS")
  else if negb (fulfillable (Status o)) then afail (BadRequest "INVALID_STATUS")
  else
    let* lease := acquirePaymentFulfillmentLease o in
    match lease with
    | None => aret tt
    | Some lease =>
        let* r := atry (doBalance o lease) in
        match r with
        | Ok _ => aret tt
        | Err e => let* _ := markFailed oid lease e in afail e
        end
    end.

(** ** Subscriptions *)

Definition subscriptionPlanQuotaSnapshot (planID : option Z) : Act World (option Money) :=
  match planID with
  | None => aret None
  | Some p =>
      if p <=? 0 then aret None
      else select (fun w => match plans w !! p with
                            | Some plan => Ok (normalizeSubLimit (plan_limit plan))
                            | None => Err (BadRequest "PLAN_NOT_FOUND")
                            end)
  end.

Definition hasPaymentSubscriptionAssignmentAudit (oid : Z) w : bool :=
  has_log oid "SUBSCRIPTION_ASSIGNED" w || has_log oid "SUBSCRIPTION_SUCCESS" w.

(** The wallets of a user, the latest first. *)
Definition ListByUserID (userID : Z) w : list (Z * WalletRow) :=
  stable_sort (fun a b => wallet_created b.2 <? wallet_created a.2)
    (filter (fun p => wallet_user p.2 = userID) (map_to_list (wallets w))).

Definition locate_wallet (userID orderID : Z) w : option (Z * WalletRow) :=
  let orderNote := paymentSubscriptionOrderNote orderID in
  find (fun p => hasPaymentSubscriptionOrderNote (wallet_notes p.2) orderNote) (ListByUserID userID w).

Definition locatePaymentSubscriptionForOrder (userID orderID : Z) : Act World (option (Z * WalletRow)) :=
  select (fun w => Ok (locate_wallet userID orderID w)).

(** [createSubscription] for an input without a reset period, which
[NormalizeSubscriptionResetPeriod] takes for none. *)
Definition createSubscription (userID : Z) (planID : option Z) (days : Z) (notes : string) (limit : option Money) w
    : World :=
  let expiresAt := AddDate (clock w) 0 0 (normalizeAssignValidityDays days) in
  let row := mkWallet userID planID
               (timestamptz (if After expiresAt MaxExpiresAt then MaxExpiresAt else expiresAt))
               SubscriptionStatusActive notes (normalizeSubLimit limit)
               (NormalizeSubscriptionResetPeriod "") zeroTime (timestamptz (clock w)) in
  with_wallets (<[next_id (wallets w) := row]> (wallets w)) w.

(** The transaction.  A second one that does not see the record of the first fails on
its unique index, and is rolled back: it then does what one does that sees it. *)
Definition assign_tx (o : PaymentOrder) (days : Z) (limit : option Money) w : res World :=
  if hasPaymentSubscriptionAssignmentAudit (ID o) w then Ok w
  else
    let w1 := match locate_wallet (UserID o) (ID o) w with
              | Some _ => w
              | None => createSubscription (UserID o) (PlanID o) days (paymentSubscriptionOrderNote (ID o)) limit w
              end in
    match insert_log (ID o) "SUBSCRIPTION_ASSIGNED" DetailOther "system" w1 with
    | (w2, Ok _) => Ok w2
    | (_, Err e) => Err e
    end.

Definition ensurePaymentSubscriptionAssigned (o : PaymentOrder) (days : Z) : Act World unit :=
  let* limitUSD := subscriptionPlanQuotaSnapshot (PlanID o) in
  let* _ := effect (assign_tx o days limitUSD) in
  match invalidateSubscriptionCaches s with
  | Ok _ => aret tt
  | Err e => afail (ErrWrap "invalidate subscription cache after fulfillment" e)
  end.

Definition doSub (o : PaymentOrder) (days : Z) (lease : lease_version) : Act World unit :=
  let* _ := ensurePaymentSubscriptionAssigned o days in
  let* _ := applyAffiliateRebateForOrder o in
  markCompleted o lease "SUBSCRIPTION_SUCCESS".

Definition ExecuteSubscriptionFulfillment (oid : Z) : Act World unit :=
  let* o := order_or_404 oid in
  if bool_decide (Status o = OrderStatusCompleted) then aret tt
  else if psIsRefundStatus (Status o) then afail (BadRequest "INVALID_STATUS")
  else if negb (fulfillable (Status o)) then afail (BadRequest "INVALID_STATUS")
  else
    match SubscriptionDays o with
    | None => afail (BadRequest "INVALID_STATUS")
    | Some days =>
        let* lease := acquirePaymentFulfillmentLease o in
        match lease with
        | None => aret tt
        | Some lease =>
            let* r := atry (doSub o days lease) in
            match r with
            | Ok _ => aret tt
            | Err e => let* _ := markFailed oid lease e in afail e
            end
        end
    end.

(** ** Notifications *)

Definition executeFulfillment (oid : Z) : Act World unit :=
  let* o := awrap "get order" (order_get oid) in
  if String.eqb (OrderType o) OrderTypeSubscription then ExecuteSubscriptionFulfillment oid
  else ExecuteBalanceFulfillment oid.

Definition alreadyProcessed (o : PaymentOrder) : Act World unit :=
  let* cur := atry (order_get (ID o)) in
  match cur with
  | Err _ => aret tt
  | Ok cur =>
      match Status cur with
      | OrderStatusFailed | OrderStatusPaid | OrderStatusRecharging => executeFulfillment (ID o)
      | OrderStatusExpired => writeAuditLog (ID o) "PAYMENT_AFTER_EXPIRY" "system"
      | _ => aret tt
      end
  end.

(** An order that a payment finds: one that has expired only for some minutes. *)
Definition payable (grace : Time) (o : PaymentOrder) : bool :=
  status_in (Status o) [OrderStatusPending; OrderStatusCancelled]
  || (bool_decide (Status o = OrderStatusExpired) && (grace <=? UpdatedAt o)).

Definition mark_paid (paid : Money) (tradeNo : string) (now : Time) (o : PaymentOrder) : PaymentOrder :=
  set_failed None None (SetPaid paid tradeNo now (SetStatus OrderStatusPaid o)).

Definition toPaid (o : PaymentOrder) (tradeNo : string) (paid : Money) (pk : string) : Act World unit :=
  let* now := time_now in
  let grace := Add now (- (paymentGraceMinutes * Minute)) in
  let* c := awrap "update to PAID" (order_update (ID o) (payable grace) (mark_paid paid tradeNo now)) in
  if c =? 0 then alreadyProcessed o
  else
    let* _ := (if status_in (Status o) [OrderStatusCancelled; OrderStatusExpired]
               then writeAuditLog (ID o) "ORDER_RECOVERED" pk else aret tt) in
    let* _ := writeAuditLog (ID o) "ORDER_PAID" pk in
    executeFulfillment (ID o).

(** The amount of a payment is the order's. *)
Definition amount_matches (o : PaymentOrder) (paid : Money) : bool :=
  Z.abs (paid - PayAmount o) <=? paymentAmountToleranceForCurrency (PaymentOrderCurrency o).

Definition confirmPayment (oid : Z) (tradeNo : string) (paid : Float) (pk : string) (metadata : gmap string string)
    : Act World unit :=
  let* o := atry (order_get oid) in
  match o with
  | Err _ => aret tt
  | Ok o =>
      let* inst := atry (getOrderProviderInstance o) in
      let instanceProviderKey := match inst with Ok (Some inst) => InstanceProviderKey inst | _ => "" end in
      let expected := expectedNotificationProviderKeyForOrder (registry (gateways s)) o instanceProviderKey in
      if negb (String.eqb expected "") && negb (String.eqb (TrimSpace pk) "")
         && negb (EqualFold expected (TrimSpace pk))
      then
        let* _ := writeAuditLog (ID o) "PAYMENT_PROVIDER_MISMATCH" pk in
        afail (ErrMsg "provider mismatch")
      else
        match validateProviderSnapshotMetadata o pk metadata with
        | Err e => let* _ := writeAuditLog (ID o) "PAYMENT_PROVIDER_METADATA_MISMATCH" pk in afail e
        | Ok _ =>
            match paid with
            | NaNOrInf =>
                let* _ := writeAuditLog (ID o) "PAYMENT_INVALID_AMOUNT" pk in
                afail (ErrMsg "invalid paid amount from provider")
            | Num a =>
                if negb (isValidProviderAmount paid) then
                  let* _ := writeAuditLog (ID o) "PAYMENT_INVALID_AMOUNT" pk in
                  afail (ErrMsg "invalid paid amount from provider")
                else if negb (amount_matches o a) then
                  let* _ := writeAuditLog (ID o) "PAYMENT_AMOUNT_MISMATCH" pk in
                  afail (ErrMsg "amount mismatch")
                else toPaid o tradeNo a pk
            end
        end
  end.

Definition HandlePaymentNotification (n : PaymentNotification) (pk : string) : Act World unit :=
  if negb (String.eqb (NotificationStatus n) NotificationStatusSuccess) then aret tt
  else
    let* order := atry (order_by_trade_no (OrderID n)) in
    match order with
    | Ok o => confirmPayment (ID o) (TradeNo n) (PaidAmount n) pk (Metadata n)
    | Err e =>
        match parseLegacyPaymentOrderID (OrderID n) e with
        | Some oid => confirmPayment oid (TradeNo n) (PaidAmount n) pk (Metadata n)
        | None => if errors_Is e ErrRowNotFound then afail ErrOrderNotFound
                  else afail (ErrWrap "lookup order failed" e)
        end
    end.

Definition RetryFulfillment (oid : Z) : Act World unit :=
  let* o := order_or_404 oid in
  match PaidAt o with
  | None => afail (BadRequest "INVALID_STATUS")
  | Some _ =>
      if psIsRefundStatus (Status o) then afail (BadRequest "INVALID_STATUS")
      else if bool_decide (Status o = OrderStatusCompleted) then afail (BadRequest "INVALID_STATUS")
      else if negb (fulfillable (Status o)) then afail (BadRequest "INVALID_STATUS")
      else
        let* _ := writeAuditLog oid "RECHARGE_RETRY" "admin" in
        executeFulfillment oid
  end.

End Payments.
