(* ===== verification/PaymentLifecycle.v ===== *)
(** * The life of an order before it is paid

[service/payment_order_lifecycle.go] and the periodic sweep of
[service/payment_order_expiry_service.go]: an order is cancelled or expires only
after its gateway has been asked, and an order whose notification was missed is
found by asking.  Times of day are UTC. *)
From S2P Require Import Prelude GoText GoTime SubscriptionWindow Redis Programs Interleave PaymentStore PaymentProviders Redeem Payments.
From Stdlib Require Import Bool.

Local Open Scope string_scope.
Local Open Scope Z_scope.

Definition rateLimitUnitDay := "day".
Definition rateLimitUnitMinute := "minute".
Definition rateLimitUnitHour := "hour".
Definition rateLimitModeFixed := "fixed".

Record PaymentConfig : Type := mkPaymentConfig {
  CancelRateLimitEnabled : bool;
  CancelRateLimitMax : Z;
  CancelRateLimitWindow : Z;
  CancelRateLimitUnit : string;
  CancelRateLimitMode : string
}.

(** [t.Truncate(d)] *)
Definition Truncate (t : Time) (d : Duration) : Time := t / d * d.

Definition cancelRateLimitWindowStart (cfg : PaymentConfig) (now : Time) : Time :=
  let w := if CancelRateLimitWindow cfg <=? 0 then 1 else CancelRateLimitWindow cfg in
  let unit := if String.eqb (CancelRateLimitUnit cfg) "" then rateLimitUnitDay else CancelRateLimitUnit cfg in
  if String.eqb (CancelRateLimitMode cfg) rateLimitModeFixed then
    if String.eqb unit rateLimitUnitMinute then Add (Truncate now Minute) (- ((w - 1) * Minute))
    else if String.eqb unit rateLimitUnitDay then
      let '(y, m, d) := Date_of now in AddDate (Date y m d) 0 0 (- (w - 1))
    else Add (Truncate now Hour) (- ((w - 1) * Hour))
  else
    if String.eqb unit rateLimitUnitMinute then Add now (- (w * Minute))
    else if String.eqb unit rateLimitUnitDay then AddDate now 0 0 (- w)
    else Add now (- (w * Hour)).

Definition user_operator (userID : Z) : string := "user:" ++ FormatInt userID.

(** [out_trade_no] has at most 64 of these bytes. *)
Definition is_trade_no_byte (a : ascii) : bool :=
  let n := ascii_byte a in
  ((97 <=? n) && (n <=? 122)) || ((65 <=? n) && (n <=? 90)) || ((48 <=? n) && (n <=? 57))
  || (n =? 95) || (n =? 45).

Section Lifecycle.
Context `{GoUnicode, GoUpper} {Aff : Type}.
Notation World := (Store Aff).
Implicit Types w : World.
Context (s : Services (Aff := Aff)).

(** A count that fails lets the user through. *)
Definition checkCancelRateLimit (userID : Z) (cfg : PaymentConfig) : Act World unit :=
  if negb (CancelRateLimitEnabled cfg) || (CancelRateLimitMax cfg <=? 0) then aret tt
  else
    let* now := time_now in
    let windowStart := cancelRateLimitWindowStart cfg now in
    let* count := atry (select (fun w =>
      Ok (Z.of_nat (length (filter (fun p : (Z * string) * AuditLog =>
            p.1.2 = "ORDER_CANCELLED" /\ Operator p.2 = user_operator userID /\ windowStart <= LoggedAt p.2)
            (map_to_list (logs w))))))) in
    match count with
    | Ok c => if CancelRateLimitMax cfg <=? c then afail (ErrApp 429 "CANCEL_RATE_LIMITED") else aret tt
    | Err _ => aret tt
    end.

(** ** Asking the gateway *)

Definition paymentOrderQueryReference (order : PaymentOrder) (prov : Provider) : string :=
  let providerKey := TrimSpace (ProviderKey_ prov) in
  let providerKey :=
    if String.eqb providerKey "" then
      match psOrderProviderSnapshot order with Some snapshot => TrimSpace (snap_key snapshot) | None => "" end
    else providerKey in
  let providerKey :=
    if String.eqb providerKey "" then TrimSpace (psStringValue (ProviderKey order)) else providerKey in
  let providerKey := if String.eqb providerKey "" then TrimSpace (PaymentType order) else providerKey in
  let base := GetBasePaymentType providerKey in
  if String.eqb base TypeAlipay || String.eqb base TypeEasyPay || String.eqb base TypeWxpay
  then TrimSpace (OutTradeNo order)
  else
    let tradeNo := TrimSpace (PaymentTradeNo order) in
    if String.eqb tradeNo "" then TrimSpace (OutTradeNo order) else tradeNo.

Definition paymentOrderShouldPersistUpstreamTradeNo (queryRef upstreamTradeNo currentTradeNo : string) : bool :=
  let upstreamTradeNo := TrimSpace upstreamTradeNo in
  negb (String.eqb upstreamTradeNo "")
  && negb (EqualFold upstreamTradeNo (TrimSpace currentTradeNo))
  && negb (EqualFold upstreamTradeNo (TrimSpace queryRef)).

Definition requeryPaidOrderOnce (prov : Provider) (queryRef : string) : option QueryOrderResponse :=
  if String.eqb (TrimSpace queryRef) "" then None
  else
    match QueryOrder prov 1 queryRef with
    | Err _ => None
    | Ok resp =>
        if String.eqb (resp_status resp) ProviderStatusPaid && isValidProviderAmount (resp_amount resp)
        then Some resp else None
    end.

(** A response that says paid, with an amount, if need be after a second query. *)
Definition paid_response (o : PaymentOrder) (prov : Provider) (queryRef : string) (resp : QueryOrderResponse)
    : Act World (option QueryOrderResponse) :=
  if isValidProviderAmount (resp_amount resp) then aret (Some resp)
  else
    let* _ := writeAuditLog (ID o) "PAYMENT_INVALID_AMOUNT" (ProviderKey_ prov) in
    aret (requeryPaidOrderOnce prov queryRef).

(** The result of the payment, as if its notification had come. *)
Definition confirm_response (o : PaymentOrder) (prov : Provider) (queryRef : string) (resp : QueryOrderResponse)
    : Act World string :=
  let upstreamTradeNo := TrimSpace (resp_trade_no resp) in
  let persist := paymentOrderShouldPersistUpstreamTradeNo queryRef upstreamTradeNo (PaymentTradeNo o) in
  let* _ := (if persist
             then let* _ := atry (order_update (ID o) (fun _ => true) (SetPaymentTradeNo upstreamTradeNo)) in aret tt
             else aret tt) in
  let notificationTradeNo := if persist then upstreamTradeNo else PaymentTradeNo o in
  let* _ := atry (HandlePaymentNotification s
                    (mkNotification notificationTradeNo (OutTradeNo o) (resp_amount resp) ProviderStatusSuccess
                       (resp_metadata resp)) (ProviderKey_ prov)) in
  aret checkPaidResultAlreadyPaid.

(** What the gateway makes of the cancellation of an unpaid order is not looked at;
the call is left out. *)
Definition checkPaidWithOptions (o : PaymentOrder) : Act World string :=
  let* prov := atry (getOrderProvider (gateways s) o) in
  match prov with
  | Err _ => aret ""
  | Ok prov =>
      let queryRef := paymentOrderQueryReference o prov in
      if String.eqb queryRef "" then aret ""
      else
        match QueryOrder prov 0 queryRef with
        | Err _ => aret ""
        | Ok resp =>
            if String.eqb (resp_status resp) ProviderStatusPaid then
              let* resp := paid_response o prov queryRef resp in
              match resp with
              | None => aret ""
              | Some resp => confirm_response o prov queryRef resp
              end
            else aret ""
        end
  end.

Definition checkPaid (o : PaymentOrder) : Act World string := checkPaidWithOptions o.
Definition reconcilePaid (o : PaymentOrder) : Act World string := checkPaidWithOptions o.

(** ** Cancellation *)

Definition cancelCore (o : PaymentOrder) (fs : OrderStatus) (op : string) : Act World string :=
  let* paid := (if negb (String.eqb (PaymentTradeNo o) "") || negb (String.eqb (PaymentType o) "")
                then checkPaid o else aret "") in
  if String.eqb paid checkPaidResultAlreadyPaid then aret checkPaidResultAlreadyPaid
  else
    let* c := awrap "update order status"
                (order_update (ID o) (fun o => bool_decide (Status o = OrderStatusPending)) (SetStatus fs)) in
    let* _ := (if 0 <? c
               then writeAuditLog (ID o)
                      (if bool_decide (fs = OrderStatusExpired) then "ORDER_EXPIRED" else "ORDER_CANCELLED") op
               else aret tt) in
    aret checkPaidResultCancelled.

Definition CancelOrder (orderID userID : Z) : Act World string :=
  let* o := order_or_404 orderID in
  if negb (UserID o =? userID) then afail (Forbidden "FORBIDDEN")
  else if negb (bool_decide (Status o = OrderStatusPending)) then afail (BadRequest "INVALID_STATUS")
  else cancelCore o OrderStatusCancelled (user_operator userID).

Definition AdminCancelOrder (orderID : Z) : Act World string :=
  let* o := order_or_404 orderID in
  if negb (bool_decide (Status o = OrderStatusPending)) then afail (BadRequest "INVALID_STATUS")
  else cancelCore o OrderStatusCancelled "admin".

(** ** Orders by their trade number *)

Definition normalizeOrderLookupOutTradeNo (raw : string) : res string :=
  let outTradeNo := TrimSpace raw in
  if String.eqb outTradeNo "" then Err (BadRequest "INVALID_OUT_TRADE_NO")
  else if 64 <? len outTradeNo then Err (BadRequest "INVALID_OUT_TRADE_NO")
  else if forallb is_trade_no_byte (String.list_ascii_of_string outTradeNo) then Ok outTradeNo
  else Err (BadRequest "INVALID_OUT_TRADE_NO").

Definition VerifyOrderByOutTradeNo (outTradeNo : string) (userID : Z) : Act World PaymentOrder :=
  match normalizeOrderLookupOutTradeNo outTradeNo with
  | Err e => afail e
  | Ok outTradeNo =>
      let* o := atry (order_by_trade_no outTradeNo) in
      match o with
      | Err _ => afail (NotFound "NOT_FOUND")
      | Ok o =>
          if negb (UserID o =? userID) then afail (Forbidden "FORBIDDEN")
          else if status_in (Status o) [OrderStatusPending; OrderStatusExpired] then
            let* result := reconcilePaid o in
            if String.eqb result checkPaidResultAlreadyPaid then awrap "reload order" (order_get (ID o))
            else aret o
          else aret o
      end
  end.

Definition VerifyOrderPublic (outTradeNo : string) : Act World PaymentOrder :=
  match normalizeOrderLookupOutTradeNo outTradeNo with
  | Err e => afail e
  | Ok outTradeNo =>
      let* o := atry (order_by_trade_no outTradeNo) in
      match o with Ok o => aret o | Err _ => afail (NotFound "NOT_FOUND") end
  end.

(** ** The sweep *)

(** Orders that [p] holds of. *)
Definition orders_where (p : Time -> PaymentOrder -> bool) (now : Time) : Act World (list PaymentOrder) :=
  select (fun w => Ok (List.filter (p now) (map snd (map_to_list (orders w))))).

Definition type_of (base t : string) : bool := String.eqb t base || HasPrefix t (base ++ "_").

Definition reconcilable (now : Time) (o : PaymentOrder) : bool :=
  bool_decide (Status o = OrderStatusPending) && (now <? ExpiresAt o)
  && existsb (fun base => type_of base (PaymentType o)
                          || match ProviderKey o with Some k => type_of base k | None => false end)
       [TypeWxpay; TypeAlipay].

Definition created_less (a b : PaymentOrder) : bool := CreatedAt a <? CreatedAt b.

Fixpoint reconcile_all (l : list PaymentOrder) (recovered : Z) : Act World Z :=
  match l with
  | [] => aret recovered
  | order :: l =>
      let* result := reconcilePaid order in
      reconcile_all l (if String.eqb result checkPaidResultAlreadyPaid then recovered + 1 else recovered)
  end.

Definition ReconcilePendingPaymentOrders : Act World Z :=
  let* now := time_now in
  let* l := awrap "query pending payment orders" (orders_where reconcilable now) in
  reconcile_all (take pendingPaymentReconcileLimit (stable_sort created_less l)) 0.

Definition timed_out (now : Time) (o : PaymentOrder) : bool :=
  bool_decide (Status o = OrderStatusPending) && (ExpiresAt o <=? now).

(** An order whose cancellation fails is left for the next sweep. *)
Fixpoint expire_all (l : list PaymentOrder) (n : Z) : Act World Z :=
  match l with
  | [] => aret n
  | o :: l =>
      let* outcome := atry (cancelCore o OrderStatusExpired "system") in
      expire_all l (match outcome with
                    | Ok r => if String.eqb r checkPaidResultAlreadyPaid then n else n + 1
                    | Err _ => n
                    end)
  end.

Definition ExpireTimedOutOrders : Act World Z :=
  let* now := time_now in
  let* l := awrap "query expired" (orders_where timed_out now) in
  expire_all l 0.

(** [runOnce] of the instance that is the leader. *)
Definition sweep_once : Act World unit :=
  let* _ := atry ReconcilePendingPaymentOrders in
  let* _ := atry ExpireTimedOutOrders in
  aret tt.

End Lifecycle.
