(* ===== verification/PaymentMoves.v ===== *)
(** * What payments may do to the tables

Every statement of the payment code, whatever runs beside it, is a [moved]: orders
keep what was ordered and do not go back before they were paid, a used code stays
as it is, and what users have recharged grows by the codes that come to be used.
[sound] is kept: a completed order has been delivered.  On top, an invariant [I] of
a client of this file, kept by the [change]s of orders and the uses of codes. *)
From S2P Require Import Prelude GoText GoTime SubscriptionWindow Redis Programs Interleave PaymentStore PaymentProviders Redeem Payments PaymentLifecycle.
From Stdlib Require Import Bool.

Local Open Scope string_scope.
Local Open Scope Z_scope.

(** ** Rounding *)

Lemma round_to_add k m x : 0 < k -> 0 <= m * k -> 0 <= x -> round_to k (m * k + x) = m * k + round_to k x.
Proof.
  intros Hk Hm Hx. unfold round_to. rewrite !(proj2 (Z.leb_le 0 _)) by lia.
  replace (m * k + x + k / 2) with (m * k + (x + k / 2)) by lia. rewrite Z.div_add_l by lia. lia.
Qed.

Lemma round_to_multiple k x : 0 < k -> exists m, round_to k x = m * k.
Proof. intros Hk. unfold round_to. case_match; eexists; [reflexivity|]. symmetry. apply Z.mul_opp_l. Qed.

Lemma round_to_nonneg k x : 0 < k -> 0 <= x -> 0 <= round_to k x.
Proof.
  intros Hk Hx. unfold round_to. rewrite (proj2 (Z.leb_le 0 _)) by lia.
  apply Z.mul_nonneg_nonneg; [|lia]. apply Z.div_pos; [|lia]. pose proof (Z.div_pos k 2). lia.
Qed.

(** ** Accounts *)

(** What a code has brought a user. *)
Definition credit (u : Z) (r : RedeemCode) : Money :=
  if String.eqb (CodeStatus r) StatusUsed && bool_decide (UsedBy r = Some u)
     && String.eqb (Type_ r) RedeemTypeBalance && (0 <? Value r)
  then numeric8 (Value r) else 0.

Definition credits (u : Z) (codes : gmap string RedeemCode) : Money :=
  map_fold (fun _ r n => credit u r + n) 0 codes.

Lemma credits_insert_new u c r codes : codes !! c = None -> credits u (<[c := r]> codes) = credit u r + credits u codes.
Proof. intros Hc. unfold credits. apply (map_fold_insert_L (fun _ r n => credit u r + n)); [intros; lia|done]. Qed.

Lemma credits_insert u c r r' codes : codes !! c = Some r ->
  credits u (<[c := r']> codes) = credits u codes - credit u r + credit u r'.
Proof.
  intros Hc. rewrite <- insert_delete_eq, credits_insert_new by apply lookup_delete_eq.
  enough (credits u codes = credit u r + credits u (delete c codes)) by lia.
  unfold credits. apply (map_fold_delete_L (fun _ r n => credit u r + n)); [intros; lia|done].
Qed.

(** ** Orders *)

(** Orders that have been paid, or have failed, or were refunded. *)
Definition started (st : OrderStatus) : bool :=
  negb (status_in st [OrderStatusPending; OrderStatusCancelled; OrderStatusExpired]).

Section Moves.
Context `{GoUnicode, GoUpper} {Aff : Type}.
Notation World := (Store Aff).
Implicit Types w : World.

Definition recharged (u : Z) w : Money := match users w !! u with Some x => TotalRecharged x | None => 0 end.

(** The code of an order, with its amount and used by its user. *)
Definition settled (o : OrderSpec) w : Prop :=
  exists r, redeem_codes w !! RechargeCode o = Some r /\ Type_ r = RedeemTypeBalance /\
    Z.abs (Value r - Amount o) <= 100 /\ CodeStatus r = StatusUsed /\ UsedBy r = Some (UserID o).

Definition is_subscription (o : OrderSpec) : bool := String.eqb (OrderType o) OrderTypeSubscription.

Definition delivered (o : OrderSpec) w : Prop :=
  if is_subscription o then hasPaymentSubscriptionAssignmentAudit (ID o) w = true else settled o w.

Record sound w : Prop := mkSound {
  orders_keyed : map_Forall (fun id (o : PaymentOrder) => ID o = id) (orders w);
  codes_keyed : map_Forall (fun c r => Code r = c) (redeem_codes w);
  codes_trimmed : map_Forall (fun _ (o : PaymentOrder) => TrimSpace (RechargeCode o) = RechargeCode o) (orders w);
  users_sane : map_Forall (fun _ x => 0 <= TotalRecharged x /\ exists m, TotalRecharged x = m * 100) (users w);
  completed_delivered :
    map_Forall (fun _ (o : PaymentOrder) => Status o = OrderStatusCompleted -> delivered o w) (orders w)
}.

(** How an order may look later. *)
Definition later (o o' : PaymentOrder) : Prop :=
  order_spec o' = order_spec o /\
  (started (Status o) = true -> started (Status o') = true) /\
  (started (Status o') = false -> PayAmount o' = PayAmount o).

(** How a code may look later. *)
Definition code_later (r r' : RedeemCode) : Prop :=
  Code r' = Code r /\ Type_ r' = Type_ r /\ Value r' = Value r /\ CodeExpiresAt r' = CodeExpiresAt r /\
  (CodeStatus r = StatusUsed -> r' = r).

Record moved w w' : Prop := mkMoved {
  moved_orders : map_Forall (fun id o => exists o', orders w' !! id = Some o' /\ later o o') (orders w);
  moved_codes : map_Forall (fun c r => exists r', redeem_codes w' !! c = Some r' /\ code_later r r') (redeem_codes w);
  moved_audit : forall id, hasPaymentSubscriptionAssignmentAudit id w = true ->
                hasPaymentSubscriptionAssignmentAudit id w' = true;
  moved_money : forall u, recharged u w' - credits u (redeem_codes w') = recharged u w - credits u (redeem_codes w)
}.

Lemma later_refl o : later o o.
Proof. by repeat split. Qed.

Lemma code_later_refl r : code_later r r.
Proof. by repeat split. Qed.

#[local] Hint Resolve later_refl code_later_refl : core.

#[export] Instance moved_preorder : PreOrder moved.
Proof.
  split.
  - intros w. split; [| |done..]; intros k x Hx; eauto.
  - intros w1 w2 w3 [A1 B1 C1 D1] [A2 B2 C2 D2]. split.
    + intros id o Ho. destruct (A1 id o Ho) as (o2 & Ho2 & S2 & T2 & P2).
      destruct (A2 id o2 Ho2) as (o3 & Ho3 & S3 & T3 & P3).
      exists o3. split; [done|]. split; [congruence|]. split; [auto|]. intros E.
      rewrite P3 by done. apply P2. destruct (started (Status o2)) eqn:E2; [|done]. rewrite T3 in E; done.
    + intros c r Hr. destruct (B1 c r Hr) as (r2 & Hr2 & (? & ? & ? & ? & U2)).
      destruct (B2 c r2 Hr2) as (r3 & Hr3 & (? & ? & ? & ? & U3)).
      exists r3. split; [done|]. repeat split; try congruence. intros E. rewrite U3; [auto|]. by rewrite U2.
    + auto.
    + intros u. by rewrite D2, D1.
Qed.

(** ** Facts that last *)

(** The order that has been read: it is there, and later than it was. *)
Definition known (o : PaymentOrder) w : Prop := exists cur, orders w !! ID o = Some cur /\ later o cur.

(** Its code is there and is its own. *)
Definition coded (o : OrderSpec) w : Prop :=
  exists r, redeem_codes w !! RechargeCode o = Some r /\ Type_ r = RedeemTypeBalance /\
    Z.abs (Value r - Amount o) <= 100.

Definition used_by (c : string) (u : Z) w : Prop :=
  exists r, redeem_codes w !! c = Some r /\ CodeStatus r = StatusUsed /\ UsedBy r = Some u.

Lemma coded_used o w : coded o w -> used_by (RechargeCode o) (UserID o) w -> settled o w.
Proof. intros (r & Hr & ? & ?) (r' & Hr' & ? & ?). simplify_eq. by exists r. Qed.

Section Stability.
Context (OK : World -> Prop).
Notation Stable := (Stable OK moved).

#[export] Instance known_stable o : Stable (known o).
Proof.
  intros w w' _ _ Hm (cur & Hcur & S1 & T1 & P1). destruct (moved_orders _ _ Hm _ _ Hcur) as (o' & Ho' & S2 & T2 & P2).
  exists o'. split; [done|]. split; [congruence|]. split; [auto|]. intros E. rewrite P2 by done. apply P1.
  destruct (started (Status cur)) eqn:E2; [|done]. rewrite T2 in E; done.
Qed.

#[export] Instance coded_stable o : Stable (coded o).
Proof.
  intros w w' _ _ Hm (r & Hr & Ht & Hv). destruct (moved_codes _ _ Hm _ _ Hr) as (r' & Hr' & (? & Et & Ev & ?)).
  exists r'. by rewrite Et, Ev.
Qed.

#[export] Instance used_by_stable c u : Stable (used_by c u).
Proof.
  intros w w' _ _ Hm (r & Hr & Hs & Hu). destruct (moved_codes _ _ Hm _ _ Hr) as (r' & Hr' & (? & ? & ? & ? & E)).
  rewrite E in Hr' by done. by exists r.
Qed.

#[export] Instance settled_stable o : Stable (settled o).
Proof.
  intros w w' _ _ Hm (r & Hr & Ht & Hv & Hs & Hu). destruct (moved_codes _ _ Hm _ _ Hr) as (r' & Hr' & (? & ? & ? & ? & E)).
  rewrite E in Hr' by done. by exists r.
Qed.

#[export] Instance delivered_stable o : Stable (delivered o).
Proof.
  intros w w' Hw Hw' Hm. unfold delivered. destruct (is_subscription o); [apply (moved_audit _ _ Hm)|].
  by apply (settled_stable o w w').
Qed.

End Stability.

Lemma settled_moved o w w' : moved w w' -> settled o w -> settled o w'.
Proof. by apply (settled_stable (fun _ => True)). Qed.

Lemma delivered_moved o w w' : moved w w' -> delivered o w -> delivered o w'.
Proof. by apply (delivered_stable (fun _ => True)). Qed.

(** ** What the statements do *)

(** Statements on the audit log, the wallets and the affiliate program. *)
Definition aside w w' : Prop :=
  orders w' = orders w /\ redeem_codes w' = redeem_codes w /\ users w' = users w /\
  forall id, hasPaymentSubscriptionAssignmentAudit id w = true -> hasPaymentSubscriptionAssignmentAudit id w' = true.

Lemma aside_moved w w' : aside w w' -> moved w w'.
Proof.
  intros (Eo & Ec & Eu & El). split.
  - intros id o Ho. exists o. by rewrite Eo.
  - intros c r Hr. exists r. by rewrite Ec.
  - done.
  - intros u. unfold recharged. by rewrite Ec, Eu.
Qed.

Lemma aside_sound w w' : aside w w' -> sound w -> sound w'.
Proof.
  intros Ha [S1 S2 S3 S4 S5]. pose proof (aside_moved _ _ Ha) as Hm. destruct Ha as (Eo & Ec & Eu & El).
  split; rewrite ?Eo, ?Ec, ?Eu; [done..|]. intros id o Ho Hs. by apply (delivered_moved _ w), (S5 id).
Qed.

(** How a statement of the payment code may change an order; [pay] are the amounts
that it may find paid. *)
Inductive change (pay : Z -> Money -> Prop) w (o o' : PaymentOrder) : Prop :=
  | change_close : Status o = OrderStatusPending -> started (Status o') = false ->
      PayAmount o' = PayAmount o -> change pay w o o'
  | change_trade_no : Status o' = Status o -> PayAmount o' = PayAmount o -> change pay w o o'
  | change_paid a : started (Status o) = false -> amount_matches o a = true -> pay (ID o) a ->
      Status o' = OrderStatusPaid -> PayAmount o' = numeric2 a -> change pay w o o'
  | change_lease : started (Status o) = true -> Status o <> OrderStatusCompleted ->
      Status o' = OrderStatusRecharging -> PayAmount o' = PayAmount o -> change pay w o o'
  | change_completed : Status o = OrderStatusRecharging -> delivered o w ->
      Status o' = OrderStatusCompleted -> PayAmount o' = PayAmount o -> change pay w o o'
  | change_failed : Status o = OrderStatusRecharging -> Status o' = OrderStatusFailed ->
      PayAmount o' = PayAmount o -> change pay w o o'.

Lemma change_later pay w o o' : order_spec o' = order_spec o -> change pay w o o' -> later o o'.
Proof.
  intros Hs Hc. destruct Hc as [E1 E2 E3|E1 E2|a E1 E2 E3 E4 E5|E1 E2 E3 E4|E1 E2 E3 E4|E1 E2 E3]; repeat split; try done;
    rewrite ?E1, ?E2, ?E3, ?E4; done.
Qed.

Lemma change_moved pay w id o o' : order_spec o' = order_spec o -> orders w !! id = Some o -> change pay w o o' ->
  moved w (with_orders (<[id := o']> (orders w)) w).
Proof.
  intros Hs Ho Hc. split; [| |done..].
  - intros j x Hx. cbn. destruct (decide (j = id)) as [->|Hj].
    + exists o'. rewrite lookup_insert_eq. split; [done|]. simplify_eq. by eapply change_later.
    + exists x. by rewrite lookup_insert_ne.
  - intros c r Hr. by exists r.
Qed.

Lemma change_sound pay w id o o' : order_spec o' = order_spec o -> orders w !! id = Some o -> change pay w o o' ->
  sound w -> sound (with_orders (<[id := o']> (orders w)) w).
Proof.
  intros Hs Ho Hc [S1 S2 S3 S4 S5]. split; cbn; [|done| |done|].
  - apply map_Forall_insert_2; [|done]. by rewrite Hs, (S1 id).
  - apply map_Forall_insert_2; [|done]. rewrite Hs. by apply (S3 id).
  - apply map_Forall_insert_2; [|by apply S5]. intros E. unfold delivered. rewrite Hs.
    destruct Hc as [E1 E2|E1|a E1 E2 E3 E4 E5|E1 E2 E3 E4|E1 E2 E3 E4|E1 E2 E3]; try congruence.
    + by rewrite E in E2.
    + apply (S5 id o Ho). congruence.
    + exact E2.
Qed.

(** A code that is created. *)
Lemma create_moved w r : redeem_codes w !! Code r = None -> CodeStatus r = StatusUnused ->
  moved w (with_redeem_codes (<[Code r := r]> (redeem_codes w)) w).
Proof.
  intros Hn Hs. split; [| |done|].
  - intros id o Ho. by exists o.
  - intros c x Hx. exists x. cbn. by rewrite lookup_insert_ne by congruence.
  - intros u. cbn. rewrite credits_insert_new by done. unfold credit. rewrite Hs. cbn. unfold recharged. cbn. lia.
Qed.

Lemma create_sound w r : redeem_codes w !! Code r = None -> CodeStatus r = StatusUnused ->
  sound w -> sound (with_redeem_codes (<[Code r := r]> (redeem_codes w)) w).
Proof.
  intros Hn Hs Hw. pose proof (create_moved w r Hn Hs) as Hm. destruct Hw as [S1 S2 S3 S4 S5].
  split; cbn; [done| |done|done|].
  - by apply map_Forall_insert_2.
  - intros id o Ho E. by apply (delivered_moved _ w), (S5 id).
Qed.

(** *** The transaction of a redemption *)

Lemma with_user_ok id w f w' : with_user id w f = Ok w' ->
  exists x, users w !! id = Some x /\ w' = with_users (<[id := f x]> (users w)) w.
Proof. unfold with_user. destruct (users w !! id) as [x|]; [|done]. intros [= <-]. by exists x. Qed.

Lemma wrap_err_ok {A} p (r : res A) a : wrap_err p r = Ok a -> r = Ok a.
Proof. by destruct r. Qed.

(** The gain of a user: what the benefit of a code adds to it. *)
Definition gain (r : RedeemCode) : Money :=
  if String.eqb (Type_ r) RedeemTypeBalance && (0 <? Value r) then numeric8 (Value r) else 0.

Lemma apply_benefit_effect (peers : RedeemPeers (Aff := Aff)) u r w w' : sound w ->
  apply_benefit peers u r w = Ok w' ->
  orders w' = orders w /\ redeem_codes w' = redeem_codes w /\ logs w' = logs w /\
  (forall v, recharged v w' = recharged v w + (if decide (v = u) then gain r else 0)) /\
  map_Forall (fun _ x => 0 <= TotalRecharged x /\ exists m, TotalRecharged x = m * 100) (users w').
Proof.
  intros Hw. pose proof (users_sane _ Hw) as Hu. unfold apply_benefit, gain.
  assert (Hset : forall x y v, users w !! u = Some x ->
    recharged v (with_users (<[u := y]> (users w)) w) =
      recharged v w + (if decide (v = u) then TotalRecharged y - TotalRecharged x else 0)).
  { intros x y v Hx. unfold recharged. cbn. destruct (decide (v = u)) as [->|].
    - rewrite lookup_insert_eq, Hx. lia.
    - rewrite lookup_insert_ne by done. lia. }
  destruct (String.eqb (Type_ r) RedeemTypeBalance) eqn:Et.
  - intros H1%wrap_err_ok. destruct (Value r <? 0) eqn:En.
    + apply with_user_ok in H1 as (x & Hx & ->). cbn. split_and!; [done..| |].
      * intros v. rewrite (Hset x) by done. cbn.
        replace (0 <? Value r) with false by lia. case_decide; lia.
      * apply map_Forall_insert_2; [|done]. exact (Hu u x Hx).
    + apply with_user_ok in H1 as (x & Hx & ->). cbn. destruct (Hu u x Hx) as (Hpos & m & Hm).
      destruct (0 <? Value r) eqn:Ep.
      * assert (Hadd : numeric8 (TotalRecharged x + Value r) = TotalRecharged x + numeric8 (Value r)).
        { unfold numeric8. rewrite Hm. apply round_to_add; lia. }
        split_and!; [done..| |].
        -- intros v. rewrite (Hset x) by done. cbn. rewrite Hadd. case_decide; lia.
        -- apply map_Forall_insert_2; [|done]. cbn. rewrite Hadd. split.
           ++ pose proof (round_to_nonneg 100 (Value r)). unfold numeric8. lia.
           ++ destruct (round_to_multiple 100 (Value r)) as [k Hk]; [lia|]. exists (m + k). unfold numeric8. lia.
      * split_and!; [done..| |].
        -- intros v. rewrite (Hset x) by done. cbn. case_decide; lia.
        -- apply map_Forall_insert_2; [|done]. exact (Hu u x Hx).
  - cbn. destruct (String.eqb (Type_ r) RedeemTypeConcurrency).
    + intros H1%wrap_err_ok. set (delta := Z.quot (Value r) unit_) in *. destruct (delta <? 0);
        apply with_user_ok in H1 as (x & Hx & ->); cbn; (split_and!; [done..| |]).
      1,3: intros v; rewrite (Hset x) by done; cbn; case_decide; lia.
      all: apply map_Forall_insert_2; [|done]; exact (Hu u x Hx).
    + destruct (String.eqb (Type_ r) RedeemTypeSubscription); [|done].
      destruct (redeem_subscription _ _ _ _ _) as [t|]; [|done]. intros [= <-]. split_and!; [done..| |done].
      intros v. unfold recharged. cbn. case_decide; lia.
Qed.

Lemma Use_ok c u w w' : Use c u w = Ok w' ->
  exists r, redeem_codes w !! c = Some r /\ CodeStatus r = StatusUnused /\
    w' = with_redeem_codes (<[c := mark_used u (clock w) r]> (redeem_codes w)) w.
Proof.
  unfold Use. destruct (redeem_codes w !! c) as [r|]; [|done].
  destruct (String.eqb (CodeStatus r) StatusUnused) eqn:Es; [|done]. intros [= <-]. exists r.
  by apply String.eqb_eq in Es.
Qed.

Lemma use_code_later u t r : CodeStatus r = StatusUnused -> code_later r (mark_used u t r).
Proof. intros Hs. repeat split. by rewrite Hs. Qed.

(** The code that was read has the type and the value of the one that is marked. *)
Lemma redeem_tx_effect (peers : RedeemPeers (Aff := Aff)) u r w w' : sound w ->
  (exists r0, redeem_codes w !! Code r = Some r0 /\ code_later r r0) ->
  redeem_tx peers u r w = Ok w' ->
  exists r0, redeem_codes w !! Code r = Some r0 /\ CodeStatus r0 = StatusUnused /\
    orders w' = orders w /\ redeem_codes w' = <[Code r := mark_used u (clock w) r0]> (redeem_codes w) /\
    moved w w' /\ sound w' /\ used_by (Code r) u w'.
Proof.
  intros Hw (r0 & Hr0 & Hl). unfold redeem_tx. destruct (Use (Code r) u w) as [w1|] eqn:Eu; [|done].
  apply Use_ok in Eu as (r1 & Hr1 & Hs & ->). assert (r1 = r0) as -> by congruence. set (w1 := with_redeem_codes _ w).
  intros Hb. exists r0. split; [done|]. split; [done|].
  assert (Hm1 : forall v, credits v (redeem_codes w1) =
            credits v (redeem_codes w) + (if decide (v = u) then gain r else 0)).
  { intros v. cbn. rewrite (credits_insert v _ r0) by done. unfold credit, gain. cbn. rewrite Hs.
    destruct Hl as (_ & -> & -> & _). cbn.
    destruct (decide (v = u)) as [->|Hv]; [rewrite bool_decide_true by done|rewrite bool_decide_false by congruence];
      cbn; lia. }
  assert (Hs1 : sound w1).
  { destruct Hw as [S1 S2 S3 S4 S5]. split; cbn; [done| |done|done|].
    - apply map_Forall_insert_2; [exact (S2 _ _ Hr0)|done].
    - intros id o Ho E. specialize (S5 id o Ho E). unfold delivered in *. destruct (is_subscription o); [done|].
      destruct S5 as (x & Hx & Ht & Hv & Hu & Hub). exists x. cbn. rewrite lookup_insert_ne; [done|].
      intros Ec. rewrite <- Ec in Hx. assert (x = r0) as -> by congruence. by rewrite Hs in Hu. }
  destruct (apply_benefit_effect peers u r w1 w' Hs1 Hb) as (Eo & Ec & El & Er & Hu'). cbn in Eo, Ec.
  split; [done|]. split; [done|].
  assert (Hm : moved w w').
  { split.
    - intros id o Ho. exists o. by rewrite Eo.
    - intros c x Hx. rewrite Ec. destruct (decide (c = Code r)) as [->|].
      + rewrite lookup_insert_eq. simplify_eq. eexists. split; [done|]. by apply use_code_later.
      + rewrite lookup_insert_ne by done. by exists x.
    - unfold hasPaymentSubscriptionAssignmentAudit, has_log. by rewrite El.
    - intros v. rewrite Er, Ec. specialize (Hm1 v). cbn in Hm1. rewrite Hm1. unfold recharged. cbn. lia. }
  split; [done|]. split.
  - destruct Hs1 as [S1 S2 S3 S4 S5]. split; rewrite ?Eo, ?Ec; [done..|].
    intros id o Ho E. apply (delivered_moved _ w); [done|]. by apply (completed_delivered _ Hw id).
  - exists (mark_used u (clock w) r0). by rewrite Ec, lookup_insert_eq.
Qed.

End Moves.
