(* ===== verification/PaymentSafety.v ===== *)
(** * Payments under interleaving and faults

The triples of the payment code: whatever runs beside it and whatever statement
fails, each function only does what [PaymentMoves] says.  A client brings an
invariant [I] of its own with its [Guard]: which payments may be found ([pay]) and
which codes users may redeem ([may]). *)
From S2P Require Import Prelude GoText GoTime SubscriptionWindow Redis Programs Interleave PaymentStore PaymentProviders Redeem Payments PaymentLifecycle PaymentMoves.
From Stdlib Require Import Bool.

Local Open Scope string_scope.
Local Open Scope Z_scope.

Section Safety.
Context `{GoUnicode, GoUpper} {Aff : Type}.
Notation World := (Store Aff).
Implicit Types w : World.
Context (I : World -> Prop) (pay : Z -> Money -> Prop) (may : string -> Z -> Prop).

(** A redemption by a user who may, or by the payment of an order. *)
Definition may_use (c : string) (u : Z) w : Prop :=
  may c u \/ exists o : PaymentOrder, known o w /\ started (Status o) = true /\ c = RechargeCode o /\ u = UserID o.

Class Guard : Prop := {
  guard_frame w w' : orders w' = orders w -> redeem_codes w' = redeem_codes w -> I w -> I w';
  guard_change w id o o' : sound w -> I w -> orders w !! id = Some o -> order_spec o' = order_spec o ->
    change pay w o o' -> I (with_orders (<[id := o']> (orders w)) w);
  guard_create w (o : PaymentOrder) : sound w -> I w -> known o w -> started (Status o) = true ->
    redeem_codes w !! RechargeCode o = None ->
    I (with_redeem_codes (<[RechargeCode o := payment_code o]> (redeem_codes w)) w);
  guard_use w c u r t : sound w -> I w -> redeem_codes w !! c = Some r -> CodeStatus r = StatusUnused ->
    may_use c u w -> I (with_redeem_codes (<[c := mark_used u t r]> (redeem_codes w)) w)
}.
Context `{!Guard}.

Definition good w : Prop := sound w /\ I w.
Notation Stable := (Stable good moved).
Notation does := (does good moved).

#[local] Instance may_use_stable c u : Stable (may_use c u).
Proof.
  intros w w' Hw Hw' Hm [?|(o & Ho & ?)]; [by left|]. right. exists o. split; [|done].
  by apply (known_stable good o w w').
Qed.

(** ** Statements *)

Lemma aside_good w w' : aside w w' -> good w -> good w' /\ moved w w'.
Proof.
  intros Ha [Hs Hi]. split; [|by apply aside_moved]. split; [by apply (aside_sound w)|].
  destruct Ha as (? & ? & _). by apply (guard_frame w).
Qed.

Lemma insert_log_aside oid action d op w : aside w (insert_log oid action d op w).1.
Proof.
  unfold insert_log. destruct (logs w !! (oid, action)); [by repeat split|]. split_and!; [done..|].
  intros id. unfold hasPaymentSubscriptionAssignmentAudit, has_log. cbn. rewrite !orb_true_iff, !bool_decide_eq_true.
  rewrite !lookup_insert_is_Some'. tauto.
Qed.

Lemma does_log F oid action d op : Stable F -> does F (write_audit oid action d op) (fun _ _ => True).
Proof.
  intros HF. eapply (does_bind good moved); [apply _| |].
  - eapply (does_try good moved _ _ (fun _ _ => True)); [apply _..|]. apply (does_statement good moved); [apply _..|].
    intros w w' a Hw Hf E. pose proof (insert_log_aside oid action d op w) as Ha. rewrite E in Ha.
    by destruct (aside_good _ _ Ha Hw).
  - intros a. by apply (does_ret good moved); [apply _|].
Qed.

Lemma does_aside F (f : World -> res World) :
  Stable F -> (forall w w', good w -> F w -> f w = Ok w' -> aside w w') -> does F (effect f) (fun _ _ => True).
Proof.
  intros HF Hf. apply (does_statement good moved); [apply _..|]. intros w w' a Hw Hfw.
  destruct (f w) as [w1|] eqn:E; [|done]. intros [= -> _]. by destruct (aside_good w w' (Hf w w' Hw Hfw E) Hw).
Qed.

Lemma does_now F : Stable F -> does F (time_now : Act World Time) (fun _ _ => True).
Proof. intros HF. by apply (does_get good moved); [apply _..|]. Qed.

(** An order as it is read. *)
Definition read (o : PaymentOrder) w : Prop := known o w /\ TrimSpace (RechargeCode o) = RechargeCode o.

Lemma read_row w id o : good w -> orders w !! id = Some o -> read o w /\ ID o = id.
Proof.
  intros [Hs _] Ho. pose proof (orders_keyed _ Hs _ _ Ho) as Hid. cbn in Hid. split; [|done].
  split; [exists o; rewrite Hid; by split; [|apply later_refl]|]. exact (codes_trimmed _ Hs _ _ Ho).
Qed.

#[local] Instance read_stable o : Stable (read o).
Proof. apply _. Qed.

Lemma does_order_get F id : Stable F -> does F (order_get id) (fun o w => read o w /\ ID o = id).
Proof.
  intros HF. apply (does_select good moved); [apply _..|]. intros w o Hw Hf. unfold order_row.
  destruct (orders w !! id) eqn:E; [|done]. intros [= <-]. by apply read_row.
Qed.

Lemma does_order_by_trade_no F t : Stable F -> does F (order_by_trade_no t) (fun o w => read o w /\ OutTradeNo o = t).
Proof.
  intros HF. apply (does_select good moved); [apply _..|]. intros w o Hw Hf E.
  assert (Hin : o ∈ filter (fun o : PaymentOrder => OutTradeNo o = t) (map snd (map_to_list (orders w)))).
  { destruct (filter _ _) as [|x [|]]; try done. injection E as ->. apply list_elem_of_singleton. done. }
  apply list_elem_of_filter in Hin as [Ht Hin]. apply list_elem_of_fmap in Hin as ([id x] & -> & Hx%elem_of_map_to_list).
  by destruct (read_row w id x Hw Hx).
Qed.

Lemma does_update F id p (set : PaymentOrder -> PaymentOrder) : Stable F ->
  (forall w o, good w -> F w -> orders w !! id = Some o -> p o = true ->
     let o' := set (SetUpdatedAt (clock w) o) in order_spec o' = order_spec o /\ change pay w o o') ->
  does F (order_update id p set) (fun _ _ => True).
Proof.
  intros HF Hset. apply (does_statement good moved); [apply _..|]. intros w w' n Hw Hf. unfold update_order.
  destruct (orders w !! id) as [o|] eqn:Eo; [|by intros [= <- <-]]. destruct (p o) eqn:Ep; [|by intros [= <- <-]].
  intros [= <- <-]. destruct (Hset w o Hw Hf Eo Ep) as [Hs Hc]. cbn in Hs, Hc. destruct Hw as [Hsd Hi].
  split_and!; [|by eapply change_moved|done]. split; [by eapply change_sound|]. by eapply guard_change.
Qed.

(** ** Automation

[skim] follows a program of whose answers nothing need be known: it splits calls,
and looks at what is tested. *)

(** Reads. *)
Lemma does_query {A} F (f : World -> res A) : Stable F -> does F (select f) (fun _ _ => True).
Proof. intros HF. by apply (does_select good moved); [apply _..|]. Qed.

Lemma does_then {A B} F (m : Act World A) (k : A -> Act World B) (Q : B -> World -> Prop) :
  Stable F -> does F m (fun _ _ => True) -> (forall a, does F (k a) Q) -> does F (abind m k) Q.
Proof.
  intros HF Hm Hk. eapply (does_bind good moved); [apply _|exact Hm|]. intros a.
  eapply (does_weaken good moved); [apply _|apply Hk|tauto|tauto].
Qed.

Lemma does_any {A} F (m : Act World A) (P : A -> World -> Prop) :
  Stable F -> does F m P -> does F m (fun _ _ => True).
Proof. intros HF Hm. eapply (does_weaken good moved); [apply _|exact Hm|done..]. Qed.

Lemma does_try_any {A} F (m : Act World A) :
  Stable F -> does F m (fun _ _ => True) -> does F (atry m) (fun _ _ => True).
Proof.
  intros HF Hm. apply (does_any F _ (answers (fun _ _ => True))); [apply _|].
  by apply (does_try good moved); [apply _..|].
Qed.

Lemma does_wrap_any {A} F prefix (m : Act World A) :
  Stable F -> does F m (fun _ _ => True) -> does F (awrap prefix m) (fun _ _ => True).
Proof. intros HF Hm. by apply (does_wrap good moved); [apply _..|]. Qed.

Ltac skim1 :=
  match goal with
  | |- Interleave.does _ _ _ (abind _ _) _ => apply does_then; [apply _| |intros ?]
  | |- Interleave.does _ _ _ (aret _) _ => apply (does_ret good moved); [apply _|done]
  | |- Interleave.does _ _ _ (afail _) _ => apply (does_fail good moved); apply _
  | |- Interleave.does _ _ _ (atry _) _ => apply does_try_any; [apply _|]
  | |- Interleave.does _ _ _ (awrap _ _) _ => apply does_wrap_any; [apply _|]
  | |- Interleave.does _ _ _ (writeAuditLog _ _ _) _ => apply does_log; apply _
  | |- Interleave.does _ _ _ (write_audit _ _ _ _) _ => apply does_log; apply _
  | |- Interleave.does _ _ _ time_now _ => apply does_now; apply _
  | |- Interleave.does _ _ _ (select _) _ => apply does_query; apply _
  | |- Interleave.does _ _ _ (if ?b then _ else _) _ => destruct b eqn:?
  | |- Interleave.does _ _ _ (match ?x with _ => _ end) _ => destruct x eqn:?
  | HF : Interleave.Stable _ _ ?F |- Interleave.does _ _ ?F _ _ => solve [eauto]
  end.
Ltac skim := repeat skim1.

(** ** Providers *)

Lemma does_instance_get F id : Stable F -> does F (instance_get id) (fun _ _ => True).
Proof. intros HF. by apply does_query. Qed.

Lemma does_instances_where F p : Stable F -> does F (instances_where p) (fun _ _ => True).
Proof. intros HF. by apply does_query. Qed.

#[local] Hint Resolve does_instance_get does_instances_where : core.

Lemma does_resolve_snapshot F o snap : Stable F ->
  does F (resolveSnapshotOrderProviderInstance o snap) (fun _ _ => True).
Proof. intros HF. unfold resolveSnapshotOrderProviderInstance. skim. Qed.

Lemma does_resolve_legacy F o : Stable F -> does F (resolveUniqueLegacyOrderProviderInstance o) (fun _ _ => True).
Proof. intros HF. unfold resolveUniqueLegacyOrderProviderInstance. skim. Qed.

#[local] Hint Resolve does_resolve_snapshot does_resolve_legacy : core.

Lemma does_getOrderProviderInstance F o : Stable F -> does F (getOrderProviderInstance o) (fun _ _ => True).
Proof. intros HF. unfold getOrderProviderInstance. skim. Qed.

Lemma does_webhookRegistryFallbackAllowed F k : Stable F -> does F (webhookRegistryFallbackAllowed k) (fun _ _ => True).
Proof. intros HF. unfold webhookRegistryFallbackAllowed. skim. Qed.

#[local] Hint Resolve does_getOrderProviderInstance does_webhookRegistryFallbackAllowed : core.

(** What holds of all providers that the gateways make. *)
Definition all_registered (P : Provider -> Prop) (r : Registry) : Prop := map_Forall (fun _ p => P p) r.

Definition all_providers (P : Provider -> Prop) (g : Gateways) : Prop :=
  all_registered P (registry g) /\ forall i p, create_provider g i = Ok p -> P p.

Lemma all_registered_Register P p r : P p -> all_registered P r -> all_registered P (Register p r).
Proof.
  intros Hp. unfold Register. revert r. induction (SupportedTypes_ p) as [|t l IH]; intros r Hr; [done|]. cbn.
  apply IH. by apply map_Forall_insert_2.
Qed.

Lemma does_loadProviders F P g r : Stable F -> all_providers P g -> all_registered P r ->
  does F (loadProviders g r) (fun r' _ => all_registered P r').
Proof.
  intros HF [_ Hc] Hr. unfold loadProviders. apply does_then; [apply _| |intros l].
  - apply does_try_any; [apply _|]. auto.
  - apply (does_ret good moved); [apply _|]. intros w _ _. destruct l as [l|]; [|done].
    revert r Hr. induction l as [|i l IH]; intros r Hr; [done|]. cbn. apply IH.
    destruct (create_provider g i) eqn:E; [|done]. apply all_registered_Register; [by eapply Hc|done].
Qed.

Lemma does_getOrderProvider F P g o : Stable F -> all_providers P g -> does F (getOrderProvider g o) (fun p _ => P p).
Proof.
  intros HF Hg. unfold getOrderProvider. apply does_then; [apply _|apply does_wrap_any; [apply _|auto]|].
  intros [inst|].
  - destruct (create_provider g inst) eqn:E; [|apply (does_fail good moved); apply _].
    apply (does_ret good moved); [apply _|]. intros _ _ _. by eapply (proj2 Hg).
  - destruct (negb _); [apply (does_fail good moved); apply _|].
    destruct (String.eqb _ _); [apply (does_fail good moved); apply _|].
    apply does_then; [apply _|auto|]. intros [|]; [|apply (does_fail good moved); apply _]. cbn.
    eapply (does_bind good moved _ (fun r _ => all_registered P r)); [apply _| |].
    + unfold EnsureProviders. destruct (providersLoaded g); [|by apply does_loadProviders; [|done|apply Hg]].
      apply (does_ret good moved); [apply _|]. intros. apply Hg.
    + intros r. unfold GetProvider. destruct (r !! PaymentType o) eqn:E; [|apply (does_fail good moved); apply _].
      apply (does_ret good moved); [apply _|]. intros w _ [_ Hr]. by eapply Hr.
Qed.

(** ** Redemptions *)

Definition code_read (code : string) (r : RedeemCode) w : Prop :=
  Code r = code /\ exists r0, redeem_codes w !! Code r = Some r0 /\ code_later r r0.

#[local] Instance code_read_stable code r : Stable (code_read code r).
Proof.
  intros w w' _ _ Hm (Hc & r0 & Hr0 & (? & ? & ? & ? & E0)). split; [done|].
  destruct (moved_codes _ _ Hm _ _ Hr0) as (r1 & Hr1 & (? & ? & ? & ? & E1)). exists r1. split; [done|].
  repeat split; try congruence. intros E. rewrite E1; [auto|]. by rewrite (E0 E).
Qed.

Lemma does_GetByCode F code : Stable F -> does F (GetByCode code) (code_read code).
Proof.
  intros HF. apply (does_select good moved); [apply _..|]. intros w r [Hs _] Hf. unfold code_row.
  destruct (redeem_codes w !! code) eqn:E; [|done]. intros [= <-]. pose proof (codes_keyed _ Hs _ _ E) as Hk.
  cbn in Hk. split; [done|]. exists r0. rewrite Hk. split; [done|]. apply code_later_refl.
Qed.

Lemma rebate_aside acc o base w w' : rebate_tx acc o base w = Ok w' -> aside w w'.
Proof.
  unfold rebate_tx. destruct (rebate_logged (ID o) w) eqn:El; [by intros [= <-]|]. cbn.
  set (w1 := (insert_log _ _ _ _ w).1). pose proof (insert_log_aside (ID o) "AFFILIATE_REBATE_APPLIED" DetailOther "system" w) as Ha1.
  fold w1 in Ha1. destruct (acc _ _ _ _) as [[a n]|]; [|done]. intros [= <-].
  destruct Ha1 as (Eo & Ec & Eu & Ea).
  assert (Ha2 : aside w (with_affiliate a w1)) by (split_and!; done).
  destruct (n <=? 0); [|done]. unfold rename_claim. cbn. destruct (logs w1 !! _) as [l|] eqn:E1; [|done].
  split_and!; [done..|]. intros id Hid. specialize (Ea id Hid). revert Ea.
  unfold hasPaymentSubscriptionAssignmentAudit, has_log. cbn. rewrite !orb_true_iff, !bool_decide_eq_true.
  rewrite !(lookup_insert_ne _ (ID o, "AFFILIATE_REBATE_SKIPPED")), !lookup_delete_ne by (by intros [=]). done.
Qed.

Lemma does_accrue F prs skip u amount : Stable F ->
  does F (tryAccrueAffiliateRebateForRedeem prs skip u amount) (fun _ _ => True).
Proof.
  intros HF. unfold tryAccrueAffiliateRebateForRedeem. destruct skip; [skim|]. destruct (accrue prs); [|skim].
  apply does_then; [apply _| |intros; skim]. apply does_try_any; [apply _|]. apply does_aside; [apply _|].
  intros w w' _ _ E. repeat case_match; simplify_eq. by split_and!.
Qed.

Lemma does_redeem F prs cache skip u code policy : Stable F ->
  (forall w, good w -> F w -> may_use code u w) ->
  does F (redeem prs cache skip u code policy) (fun _ => used_by code u).
Proof.
  intros HF Hmay. unfold redeem.
  destruct (match policy with enforceRedeemRateLimit => checkRedeemRateLimit cache | bypassRedeemRateLimit => Ok tt end);
    [|apply (does_fail good moved); apply _].
  destruct (negb _); [apply (does_fail good moved); apply _|].
  eapply (does_bind good moved); [apply _|eapply (does_try good moved); [apply _..|by apply does_GetByCode]|].
  intros found.
  eapply (does_bind good moved _ (fun r => code_read code r)); [apply _| |].
  { destruct found as [r|e]; [apply (does_ret good moved); [apply _|]; by intros w _ [_ ?]|].
    destruct (errors_Is _ _); apply (does_fail good moved); apply _. }
  intros r. apply does_then; [apply _|apply does_now; apply _|]. intros now.
  destruct (IsExpiredAt r now); [apply (does_fail good moved); apply _|].
  destruct (negb (CanUse r now)); [apply (does_fail good moved); apply _|].
  destruct (negb (redeemable_type _)); [apply (does_fail good moved); apply _|].
  apply does_then; [apply _|apply does_wrap_any; [apply _|by apply does_query; apply _]|]. intros _.
  eapply (does_bind good moved _ (fun _ => used_by code u)); [apply _| |].
  { apply (does_statement good moved); [apply _..|]. intros w w' n [Hs Hi] Hfs.
    assert (Hf : F w) by tauto. assert (Hcr : code_read code r w) by tauto. destruct Hcr as [Hc Hr].
    destruct (redeem_tx prs u r w) as [w1|] eqn:E; [|done]. intros [= -> _].
    destruct (redeem_tx_effect prs u r w w' Hs Hr E) as (r0 & Hr0 & Hs0 & Eo & Ec & Hm & Hs' & Hu).
    rewrite Hc in Hu. split_and!; [|done|done]. split; [done|].
    apply (guard_frame (with_redeem_codes (<[Code r := mark_used u (clock w) r0]> (redeem_codes w)) w)); [done..|].
    apply guard_use; [done..|]. rewrite Hc. apply Hmay; [by split|done]. }
  intros []. apply does_then; [apply _|destruct (_ && _); [by apply does_accrue; apply _|skim]|]. intros _.
  apply (does_weaken good moved _ (fun _ => True) _ (fun _ _ => True)); [apply _| |done|tauto].
  apply does_wrap_any; [apply _|]. eapply does_any; [apply _|]. by apply does_GetByCode; apply _.
Qed.

(** ** Fulfilment *)

Context (s : Services (Aff := Aff)).

Lemma CreateCode_payment (o : PaymentOrder) :
  CreateCode (payment_code o) =
    (let code := mkRedeemCode (TrimSpace (RechargeCode o)) RedeemTypeBalance (Amount o) StatusUnused None None None 0 in
     if String.eqb (TrimSpace (RechargeCode o)) "" then afail (ErrMsg "code is required")
     else if Amount o =? 0 then afail (ErrMsg "value must not be zero")
     else
       let* now := time_now in
       if IsExpiredAt code now then afail ErrRedeemCodeExpired
       else
         let* r := atry (statement (Create code)) in
         match r with Ok _ => aret tt | Err e => afail (ErrWrap "create redeem code" e) end : Act World unit).
Proof. reflexivity. Qed.

Lemma does_CreateCode F (o : PaymentOrder) : Stable F -> (forall w, F w -> read o w) -> started (Status o) = true ->
  does F (CreateCode (payment_code o)) (fun _ => coded o).
Proof.
  intros HF Hread Hst. rewrite CreateCode_payment. cbv zeta.
  destruct (String.eqb _ ""); [apply (does_fail good moved); apply _|].
  destruct (Amount o =? 0); [apply (does_fail good moved); apply _|].
  apply does_then; [apply _|apply does_now; apply _|]. intros now.
  destruct (IsExpiredAt _ _); [apply (does_fail good moved); apply _|].
  eapply (does_bind good moved); [apply _| |].
  { apply (does_try good moved _ _ (fun _ => coded o)); [apply _..|].
    apply (does_statement good moved); [apply _..|]. intros w w' n [Hs Hi] Hfw.
    destruct (Hread w Hfw) as [Hk Ht]. unfold Create. cbn. rewrite Ht.
    destruct (redeem_codes w !! RechargeCode o) eqn:Ec; [done|]. intros [= <- _].
    pose proof (create_moved w (payment_code o) Ec eq_refl) as Hm.
    pose proof (create_sound w (payment_code o) Ec eq_refl Hs) as Hs'. cbn in Hm, Hs'.
    split_and!; [split; [done|]|done|].
    - by apply guard_create.
    - exists (payment_code o). cbn. rewrite lookup_insert_eq. split_and!; [done..|]. lia. }
  intros [[]|e]; [|apply (does_fail good moved); apply _].
  apply (does_ret good moved); [apply _|]. by intros w _ [_ ?].
Qed.

Lemma does_applyAffiliateRebate F o : Stable F -> does F (applyAffiliateRebateForOrder s o) (fun _ _ => True).
Proof.
  intros HF. unfold applyAffiliateRebateForOrder. destruct (_ <=? 0); [skim|]. destruct (accrue (peers s)); [|skim].
  apply does_then; [apply _| |intros; skim]. apply does_try_any; [apply _|].
  apply does_aside; [apply _|]. intros w w' _ _. apply rebate_aside.
Qed.

Lemma does_acquire F o : Stable F -> does F (acquirePaymentFulfillmentLease o) (fun _ _ => True).
Proof.
  intros HF. unfold acquirePaymentFulfillmentLease. apply does_then; [apply _|unfold now_micros; skim|]. intros now.
  assert (Hget : does F (order_get (ID o)) (fun _ _ => True)) by (eapply does_any; [apply _|by apply does_order_get]).
  apply does_then; [apply _| |intros n; skim]. apply does_wrap_any; [apply _|].
  apply does_update; [apply _|]. intros w cur _ _ _ Hp. cbn. split; [done|].
  unfold lease_free, status_in in Hp. rewrite orb_true_iff, andb_true_iff, !bool_decide_eq_true in Hp.
  apply change_lease; cbn; [| |done|done].
  - destruct Hp as [Hp|[-> _]]; [|done]. by apply elem_of_cons in Hp as [->|Hp]; [|apply list_elem_of_singleton in Hp as ->].
  - intros E. rewrite E in Hp. destruct Hp as [Hp|[Hp _]]; [|done]. set_solver.
Qed.

Lemma does_markCompleted F o lease action : Stable F ->
  (forall w, F w -> known o w) -> (forall w, F w -> delivered o w) ->
  does F (markCompleted o lease action) (fun _ _ => True).
Proof.
  intros HF Hk Hd. unfold markCompleted. apply does_then; [apply _|skim|]. intros now.
  assert (Hget : does F (order_get (ID o)) (fun _ _ => True)) by (eapply does_any; [apply _|by apply does_order_get]).
  apply does_then; [apply _| |intros n; unfold hasAuditLog; skim]. apply does_wrap_any; [apply _|].
  apply does_update; [apply _|]. intros w cur _ Hf Ho Hp. cbn. split; [done|].
  unfold lease_held in Hp. rewrite andb_true_iff, bool_decide_eq_true in Hp. destruct Hp as [Hp _].
  apply change_completed; cbn; [done| |done|done]. destruct (Hk w Hf) as (cur' & Ho' & Hs & _).
  rewrite Ho in Ho'. injection Ho' as <-. rewrite Hs. by apply Hd.
Qed.

Lemma does_markFailed F oid lease cause : Stable F -> does F (markFailed oid lease cause) (fun _ _ => True).
Proof.
  intros HF. unfold markFailed. apply does_then; [apply _|skim|]. intros now.
  apply does_then; [apply _| |intros n; skim]. apply does_try_any; [apply _|].
  apply does_update; [apply _|]. intros w cur _ _ _ Hp. cbn. split; [done|].
  unfold lease_held in Hp. rewrite andb_true_iff, bool_decide_eq_true in Hp. destruct Hp. by apply change_failed.
Qed.

(** A code that is in order. *)
Lemma validate_ok (o : PaymentOrder) r : validatePaymentRedeemCode o r = Ok tt ->
  Code r = RechargeCode o /\ Type_ r = RedeemTypeBalance /\ Z.abs (Value r - Amount o) <= 100 /\
  (CodeStatus r = StatusUnused \/ CodeStatus r = StatusUsed /\ UsedBy r = Some (UserID o)).
Proof.
  unfold validatePaymentRedeemCode. repeat case_match; try done; intros _; rewrite ?negb_false_iff, ?String.eqb_eq in *;
    split_and!; try done; try lia; auto. right. split; [done|]. f_equal. lia.
Qed.

Lemma does_lookup_code F code : Stable F -> does F (lookup_code code) (fun r => answers (code_read code) r).
Proof.
  intros HF. unfold lookup_code.
  eapply (does_bind good moved); [apply _|eapply (does_try good moved); [apply _..|by apply does_GetByCode]|].
  intros [r|e]; (apply (does_ret good moved); [apply _|]); cbn; by intros w _ [_ ?].
Qed.

Lemma code_read_coded (o : PaymentOrder) r w : code_read (RechargeCode o) r w -> validatePaymentRedeemCode o r = Ok tt ->
  coded o w.
Proof.
  intros (Hc & r0 & Hr0 & (_ & Ht & Hv & _)) (_ & Hty & Ha & _)%validate_ok. rewrite Hc in Hr0.
  exists r0. by rewrite Ht, Hv.
Qed.

Lemma code_read_used (o : PaymentOrder) r w : code_read (RechargeCode o) r w -> validatePaymentRedeemCode o r = Ok tt ->
  IsUsed r = true -> used_by (RechargeCode o) (UserID o) w.
Proof.
  intros (Hc & r0 & Hr0 & (_ & _ & _ & _ & Hu)) (_ & _ & _ & Hst)%validate_ok Hi.
  unfold IsUsed in Hi. apply String.eqb_eq in Hi. rewrite Hc in Hr0. exists r0. rewrite (Hu Hi) in Hr0 |- *.
  destruct Hst as [Hst|[? ?]]; [by rewrite Hst in Hi|done].
Qed.

Lemma does_doBalance F o lease : Stable F -> (forall w, F w -> read o w) -> started (Status o) = true ->
  is_subscription o = false -> does F (doBalance s o lease) (fun _ _ => True).
Proof.
  intros HF Hread Hst Hty. unfold doBalance.
  eapply (does_bind good moved); [apply _|by apply does_lookup_code|]. intros existing.
  destruct (resolveRedeemAction existing) as [action|e] eqn:Ea; [|apply (does_fail good moved); apply _].
  destruct (match existing with Ok r => validatePaymentRedeemCode o r | Err _ => Ok tt end) as [[]|e] eqn:Ev;
    [|apply (does_fail good moved); apply _].
  assert (Hdone : forall G : World -> Prop, Stable G -> (forall w, G w -> F w /\ settled o w) ->
            does G (let* _ := applyAffiliateRebateForOrder s o in markCompleted o lease "RECHARGE_SUCCESS")
              (fun _ _ => True)).
  { intros G HG HGF. apply does_then; [apply _|by apply does_applyAffiliateRebate|]. intros _.
    apply does_markCompleted; [apply _| |]; intros w Hg; destruct (HGF w Hg) as [Hf Hs].
    - by apply Hread.
    - unfold delivered. by rewrite Hty. }
  assert (Hredeem : forall G : World -> Prop, Stable G -> (forall w, G w -> F w /\ coded o w) ->
            does G (let* _ := awrap "redeem balance"
                      (redeemForPaymentFulfillment (peers s) (redeem_cache s (RechargeCode o)) (UserID o) (RechargeCode o)) in
                    let* _ := applyAffiliateRebateForOrder s o in markCompleted o lease "RECHARGE_SUCCESS")
              (fun _ _ => True)).
  { intros G HG HGF. eapply (does_bind good moved _ (fun _ => used_by (RechargeCode o) (UserID o))); [apply _| |].
    - apply (does_wrap good moved); [apply _..|]. apply does_redeem; [apply _|]. intros w _ Hg. right.
      exists o. split_and!; [|done..]. apply (Hread w). by destruct (HGF w Hg).
    - intros _. apply Hdone; [apply _|]. intros w [Hg Hu]. destruct (HGF w Hg). split; [done|]. by apply coded_used. }
  destruct existing as [r|e]; cbn in Ea.
  - destruct (IsUsed r) eqn:Eu; injection Ea as <-.
    + apply Hdone; [apply _|]. intros w [Hf Hr]. split; [done|].
      apply coded_used; [by eapply code_read_coded|by eapply code_read_used].
    + apply does_then; [apply _|skim|]. intros _. apply Hredeem; [apply _|]. intros w [Hf Hr]. split; [done|].
      by eapply code_read_coded.
  - destruct (errors_Is e ErrRedeemCodeNotFound); [|done]. injection Ea as <-.
    eapply (does_bind good moved _ (fun _ => coded o)); [apply _| |].
    + apply (does_wrap good moved); [apply _..|]. apply does_CreateCode; [apply _| |done]. intros w [Hf _]. by apply Hread.
    + intros _. apply Hredeem; [apply _|]. tauto.
Qed.

Lemma does_pure {A} F (P : Prop) (m : Act World A) Q :
  (forall w, good w -> F w -> P) -> (P -> does F m Q) -> does F m Q.
Proof. intros HP Hm w Hw Hf. by apply (Hm (HP w Hw Hf)). Qed.

(** *** Subscriptions *)

Definition assigned (id : Z) w : Prop := hasPaymentSubscriptionAssignmentAudit id w = true.

#[local] Instance assigned_stable id : Stable (assigned id).
Proof. intros w w' _ _ Hm. apply (moved_audit _ _ Hm). Qed.

Lemma assign_aside o days limit w w' : assign_tx o days limit w = Ok w' -> aside w w' /\ assigned (ID o) w'.
Proof.
  unfold assign_tx. destruct (hasPaymentSubscriptionAssignmentAudit (ID o) w) eqn:Ea; [by intros [= <-]|].
  set (w1 := match locate_wallet (UserID o) (ID o) w with Some _ => w | None => _ end).
  assert (Hw1 : aside w w1 /\ logs w1 = logs w) by (subst w1; case_match; by split_and!).
  destruct Hw1 as [(Eo & Ec & Eu & El) Hl]. unfold insert_log. destruct (logs w1 !! _) eqn:E1; [done|]. intros [= <-].
  assert (Hins : forall id, assigned id w -> assigned id (with_logs (<[(ID o, "SUBSCRIPTION_ASSIGNED") :=
            mkAuditLog DetailOther "system" (timestamptz (clock w1))]> (logs w1)) w1)).
  { intros id. unfold assigned, hasPaymentSubscriptionAssignmentAudit, has_log. cbn. rewrite Hl.
    rewrite !orb_true_iff, !bool_decide_eq_true, !lookup_insert_is_Some'. tauto. }
  split; [by split_and!|]. unfold assigned, hasPaymentSubscriptionAssignmentAudit, has_log. cbn.
  rewrite lookup_insert_eq. by rewrite bool_decide_true by done.
Qed.

Lemma does_ensureAssigned F o days : Stable F ->
  does F (ensurePaymentSubscriptionAssigned s o days) (fun _ => assigned (ID o)).
Proof.
  intros HF. unfold ensurePaymentSubscriptionAssigned.
  apply does_then; [apply _|unfold subscriptionPlanQuotaSnapshot; skim|]. intros limit.
  eapply (does_bind good moved _ (fun _ => assigned (ID o))); [apply _| |].
  - apply (does_statement good moved); [apply _..|]. intros w w' n Hw _.
    destruct (assign_tx o days limit w) as [w1|] eqn:E; [|done]. intros [= -> _].
    destruct (assign_aside _ _ _ _ _ E) as [Ha Has]. by destruct (aside_good w w' Ha Hw).
  - intros _. destruct (invalidateSubscriptionCaches s); [|apply (does_fail good moved); apply _].
    apply (does_ret good moved); [apply _|]. by intros w _ [_ ?].
Qed.

Lemma does_doSub F o days lease : Stable F -> (forall w, F w -> known o w) -> is_subscription o = true ->
  does F (doSub s o days lease) (fun _ _ => True).
Proof.
  intros HF Hk Hty. unfold doSub. eapply (does_bind good moved); [apply _|by apply does_ensureAssigned|]. intros [].
  apply does_then; [apply _|by apply does_applyAffiliateRebate; apply _|]. intros _.
  apply does_markCompleted; [apply _| |]; intros w [Hf Ha]; [by apply Hk|]. unfold delivered. by rewrite Hty.
Qed.

(** *** Execution *)

Lemma does_try_order_get F id : Stable F ->
  does F (atry (order_get id)) (answers (fun o w => read o w /\ ID o = id)).
Proof. intros HF. apply (does_try good moved); [apply _..|]. by apply does_order_get. Qed.

Lemma does_order_or_404 F id : Stable F -> does F (order_or_404 id) (fun o w => read o w /\ ID o = id).
Proof.
  intros HF. unfold order_or_404.
  eapply (does_bind good moved); [apply _|by apply does_try_order_get|].
  intros [o|e]; [|apply (does_fail good moved); apply _]. apply (does_ret good moved); [apply _|]. by intros w _ [_ ?].
Qed.

Lemma fulfillable_started st : negb (fulfillable st) = false -> started st = true.
Proof. by destruct st. Qed.

(** The order of this number is, or is not, for a subscription. *)
Definition kind_is (id : Z) (b : bool) w : Prop :=
  exists o : PaymentOrder, known o w /\ ID o = id /\ is_subscription o = b.

#[local] Instance kind_is_stable id b : Stable (kind_is id b).
Proof. intros w w' Hw Hw' Hm (o & Ho & ?). exists o. split; [|done]. by apply (known_stable good o w w'). Qed.

Lemma kind_is_read (o : PaymentOrder) id b w : kind_is id b w -> read o w -> ID o = id -> is_subscription o = b.
Proof.
  intros (o1 & (c1 & Hc1 & S1 & _) & <- & <-) [(c & Hc & S & _) _] Hid. rewrite Hid in Hc.
  rewrite Hc in Hc1. injection Hc1 as ->. unfold is_subscription. by rewrite <- S1, <- S.
Qed.

Lemma does_ExecuteBalanceFulfillment F oid : Stable F -> (forall w, F w -> kind_is oid false w) ->
  does F (ExecuteBalanceFulfillment s oid) (fun _ _ => True).
Proof.
  intros HF Hk. unfold ExecuteBalanceFulfillment.
  eapply (does_bind good moved); [apply _|by apply does_order_or_404|]. intros o.
  destruct (bool_decide _); [skim|]. destruct (psIsRefundStatus _); [skim|].
  destruct (negb (fulfillable _)) eqn:Ef; [skim|]. apply fulfillable_started in Ef.
  apply (does_pure _ (is_subscription o = false)).
  { intros w _ [Hf [Hr Hid]]. eapply kind_is_read; [by apply Hk|done..]. }
  intros Hty. apply does_then; [apply _|by apply does_acquire; apply _|]. intros [lease|]; [|skim].
  apply does_then; [apply _| |intros r; destruct r; [skim|]].
  - apply does_try_any; [apply _|]. apply does_doBalance; [apply _| |done|done]. intros w. tauto.
  - apply does_then; [apply _|by apply does_markFailed; apply _|intros; skim].
Qed.

Lemma does_ExecuteSubscriptionFulfillment F oid : Stable F -> (forall w, F w -> kind_is oid true w) ->
  does F (ExecuteSubscriptionFulfillment s oid) (fun _ _ => True).
Proof.
  intros HF Hk. unfold ExecuteSubscriptionFulfillment.
  eapply (does_bind good moved); [apply _|by apply does_order_or_404|]. intros o.
  destruct (bool_decide _); [skim|]. destruct (psIsRefundStatus _); [skim|].
  destruct (negb (fulfillable _)); [skim|]. destruct (SubscriptionDays o) as [days|]; [|skim].
  apply (does_pure _ (is_subscription o = true)).
  { intros w _ [Hf [Hr Hid]]. eapply kind_is_read; [by apply Hk|done..]. }
  intros Hty. apply does_then; [apply _|by apply does_acquire; apply _|]. intros [lease|]; [|skim].
  apply does_then; [apply _| |intros r; destruct r; [skim|]].
  - apply does_try_any; [apply _|]. apply does_doSub; [apply _| |done]. intros w [_ [[? _] _]]. done.
  - apply does_then; [apply _|by apply does_markFailed; apply _|intros; skim].
Qed.

Lemma does_executeFulfillment F oid : Stable F -> does F (executeFulfillment s oid) (fun _ _ => True).
Proof.
  intros HF. unfold executeFulfillment.
  eapply (does_bind good moved _ (fun o w => read o w /\ ID o = oid));
    [apply _|apply (does_wrap good moved); [apply _..|by apply does_order_get]|].
  intros o. destruct (String.eqb (OrderType o) OrderTypeSubscription) eqn:Et;
    [apply does_ExecuteSubscriptionFulfillment|apply does_ExecuteBalanceFulfillment]; try apply _;
    intros w [_ [[Hr _] Hid]]; by exists o.
Qed.

(** *** Notifications *)

Lemma currency_of_spec (o o' : PaymentOrder) : order_spec o = order_spec o' -> PaymentOrderCurrency o = PaymentOrderCurrency o'.
Proof. intros E. unfold PaymentOrderCurrency, psOrderProviderSnapshot. by rewrite E. Qed.

Lemma does_alreadyProcessed F o : Stable F -> does F (alreadyProcessed s o) (fun _ _ => True).
Proof.
  intros HF. unfold alreadyProcessed. apply does_then; [apply _| |intros [cur|e]; [|skim]].
  - apply does_try_any; [apply _|]. eapply does_any; [apply _|by apply does_order_get].
  - destruct (Status cur); try by apply does_executeFulfillment. all: skim.
Qed.

Lemma payable_not_started grace o : payable grace o = true -> started (Status o) = false.
Proof. unfold payable. by destruct (Status o). Qed.

Lemma does_toPaid F o tradeNo paid pk : Stable F -> (forall w, F w -> read o w) ->
  amount_matches o paid = true -> pay (ID o) paid -> does F (toPaid s o tradeNo paid pk) (fun _ _ => True).
Proof.
  intros HF Hr Ha Hp. unfold toPaid. apply does_then; [apply _|skim|]. intros now.
  apply does_then; [apply _| |intros c; destruct (c =? 0)].
  - apply does_wrap_any; [apply _|]. apply does_update; [apply _|]. intros w cur [Hs _] Hf Ho Hpay. cbn. split; [done|].
    pose proof (payable_not_started _ _ Hpay) as Hn. destruct (Hr w Hf) as [(cur' & Ho' & S & _ & P) _].
    rewrite Ho in Ho'. injection Ho' as <-.
    apply (change_paid _ _ _ _ paid); [done| | |done|done].
    + unfold amount_matches in *. by rewrite P, (currency_of_spec cur o) by done.
    + by rewrite (orders_keyed _ Hs _ _ Ho).
  - by apply does_alreadyProcessed.
  - apply does_then; [apply _|destruct (status_in _ _); skim|]. intros _.
    apply does_then; [apply _|skim|]. intros _. by apply does_executeFulfillment.
Qed.

Lemma does_confirmPayment F oid tradeNo paid pk metadata : Stable F ->
  (forall a, paid = Num a -> pay oid a) -> does F (confirmPayment s oid tradeNo paid pk metadata) (fun _ _ => True).
Proof.
  intros HF Hp. unfold confirmPayment.
  eapply (does_bind good moved); [apply _|by apply does_try_order_get|].
  intros [o|e]; [|skim].
  apply does_then; [apply _|apply does_try_any; [apply _|apply does_getOrderProviderInstance; apply _]|]. intros inst.
  cbv zeta. destruct (_ && _); [skim|]. destruct (validateProviderSnapshotMetadata o pk metadata); [|skim].
  destruct paid as [a'|]; [|skim]. destruct (negb (isValidProviderAmount _)); [skim|].
  destruct (negb (amount_matches o a')) eqn:Ha; [skim|]. apply negb_false_iff in Ha.
  apply (does_pure _ (ID o = oid)); [by intros w _ [_ [_ ?]]|]. intros <-.
  apply does_toPaid; [apply _|by intros w [_ [? _]]|done|by apply Hp].
Qed.

(** The payments that a notification may be of. *)
Definition pays (n : PaymentNotification) : Prop :=
  forall a, PaidAmount n = Num a ->
    (forall (o : PaymentOrder) w, good w -> read o w -> OutTradeNo o = OrderID n -> pay (ID o) a) /\
    (forall e oid, parseLegacyPaymentOrderID (OrderID n) e = Some oid -> pay oid a).

Lemma does_HandlePaymentNotification F n pk : Stable F -> pays n ->
  does F (HandlePaymentNotification s n pk) (fun _ _ => True).
Proof.
  intros HF Hn. unfold HandlePaymentNotification. destruct (negb _); [skim|].
  eapply (does_bind good moved _ (answers (fun o w => read o w /\ OutTradeNo o = OrderID n)));
    [apply _|apply (does_try good moved); [apply _..|by apply does_order_by_trade_no]|].
  intros [o|e].
  - apply (does_pure _ (forall a, PaidAmount n = Num a -> pay (ID o) a)).
    + intros w Hw [_ [Hr Ht]] a Ha. by apply (proj1 (Hn a Ha) o w).
    + intros Hp. by apply does_confirmPayment; [apply _|].
  - destruct (parseLegacyPaymentOrderID (OrderID n) e) as [oid|] eqn:E; [|destruct (errors_Is _ _); skim].
    apply does_confirmPayment; [apply _|]. intros a Ha. by eapply (proj2 (Hn a Ha)).
Qed.

Lemma does_RetryFulfillment F oid : Stable F -> does F (RetryFulfillment s oid) (fun _ _ => True).
Proof.
  intros HF. unfold RetryFulfillment. apply does_then; [apply _|eapply does_any; [apply _|by apply does_order_or_404]|].
  intros o. destruct (PaidAt o); [|skim]. destruct (psIsRefundStatus _); [skim|]. destruct (bool_decide _); [skim|].
  destruct (negb _); [skim|]. apply does_then; [apply _|skim|]. intros _. by apply does_executeFulfillment.
Qed.

(** ** Queries, cancellation and expiry *)

(** What gateways report as paid may be found paid. *)
Definition answers_pay (p : Provider) : Prop :=
  forall i ref resp a, QueryOrder p i ref = Ok resp -> resp_status resp = ProviderStatusPaid ->
    resp_amount resp = Num a -> forall id, pay id a.

Context (Hgw : all_providers answers_pay (gateways s)).

Lemma does_confirm_response F o prov ref resp : Stable F ->
  (forall a, resp_amount resp = Num a -> forall id, pay id a) ->
  does F (confirm_response s o prov ref resp) (fun _ _ => True).
Proof.
  intros HF Hp. unfold confirm_response. cbv zeta. apply does_then; [apply _| |intros _].
  - destruct (paymentOrderShouldPersistUpstreamTradeNo _ _ _); [|skim].
    apply does_then; [apply _| |intros; skim]. apply does_try_any; [apply _|].
    apply does_update; [apply _|]. intros w cur _ _ _ _. split; [done|]. by apply change_trade_no.
  - apply does_then; [apply _| |intros; skim]. apply does_try_any; [apply _|].
    apply does_HandlePaymentNotification; [apply _|]. intros a Ha. cbn in Ha. split; intros; by apply Hp.
Qed.

Lemma does_checkPaid F o : Stable F -> does F (checkPaidWithOptions s o) (fun _ _ => True).
Proof.
  intros HF. unfold checkPaidWithOptions.
  eapply (does_bind good moved _ (answers (fun p _ => answers_pay p)));
    [apply _|apply (does_try good moved); [apply _..|by apply does_getOrderProvider]|].
  intros [prov|e]; [|skim]. apply (does_pure _ (answers_pay prov)); [by intros w _ [_ ?]|]. intros Hprov.
  cbv zeta. destruct (String.eqb _ ""); [skim|]. destruct (QueryOrder prov 0 _) as [resp|e] eqn:Eq; [|skim].
  destruct (String.eqb (resp_status resp) ProviderStatusPaid) eqn:Es; [|skim]. apply String.eqb_eq in Es.
  eapply (does_bind good moved _ (fun r _ => match r with
     | Some r => forall a, resp_amount r = Num a -> forall id, pay id a | None => True end)); [apply _| |].
  - unfold paid_response. destruct (isValidProviderAmount _).
    + apply (does_ret good moved); [apply _|]. intros _ _ _ a Ha. by eapply Hprov.
    + apply does_then; [apply _|skim|]. intros _. apply (does_ret good moved); [apply _|]. intros _ _ _.
      unfold requeryPaidOrderOnce. destruct (String.eqb _ ""); [done|].
      destruct (QueryOrder prov 1 _) as [r2|] eqn:E2; [|done]. destruct (_ && _) eqn:E3; [|done].
      apply andb_true_iff in E3 as [E3%String.eqb_eq _]. intros a Ha. by eapply Hprov.
  - intros [r|]; [|skim]. apply (does_pure _ (forall a, resp_amount r = Num a -> forall id, pay id a)).
    + by intros w _ [_ ?].
    + intros Hr. by apply does_confirm_response; [apply _|].
Qed.

Lemma does_cancelCore F o fs op : Stable F -> started fs = false -> does F (cancelCore s o fs op) (fun _ _ => True).
Proof.
  intros HF Hfs. unfold cancelCore. apply does_then; [apply _|destruct (_ || _); [by apply does_checkPaid|skim]|].
  intros paid. destruct (String.eqb paid _); [skim|]. apply does_then; [apply _| |intros c; skim].
  apply does_wrap_any; [apply _|]. apply does_update; [apply _|]. intros w cur _ _ _ Hp. split; [done|].
  apply bool_decide_eq_true in Hp. by apply change_close.
Qed.

Lemma does_CancelOrder F oid u : Stable F -> does F (CancelOrder s oid u) (fun _ _ => True).
Proof.
  intros HF. unfold CancelOrder. apply does_then; [apply _|eapply does_any; [apply _|by apply does_order_or_404]|].
  intros o. destruct (negb _); [skim|]. destruct (negb _); [skim|]. by apply does_cancelCore.
Qed.

Lemma does_AdminCancelOrder F oid : Stable F -> does F (AdminCancelOrder s oid) (fun _ _ => True).
Proof.
  intros HF. unfold AdminCancelOrder. apply does_then; [apply _|eapply does_any; [apply _|by apply does_order_or_404]|].
  intros o. destruct (negb _); [skim|]. by apply does_cancelCore.
Qed.

Lemma does_VerifyOrder F t u : Stable F -> does F (VerifyOrderByOutTradeNo s t u) (fun _ _ => True).
Proof.
  intros HF. unfold VerifyOrderByOutTradeNo. destruct (normalizeOrderLookupOutTradeNo t); [|skim].
  apply does_then; [apply _|apply does_try_any; [apply _|]; eapply does_any; [apply _|by apply does_order_by_trade_no]|].
  intros [o|e]; [|skim]. destruct (negb _); [skim|]. destruct (status_in _ _); [|skim].
  apply does_then; [apply _|by apply does_checkPaid|]. intros r. destruct (String.eqb _ _); [|skim].
  apply does_wrap_any; [apply _|]. eapply does_any; [apply _|by apply does_order_get].
Qed.

Lemma does_reconcile_all F l n : Stable F -> does F (reconcile_all s l n) (fun _ _ => True).
Proof.
  intros HF. revert n. induction l as [|o l IH]; intros n; cbn [reconcile_all]; [skim|].
  apply does_then; [apply _|by apply does_checkPaid|]. intros r. apply IH.
Qed.

Lemma does_expire_all F l n : Stable F -> does F (expire_all s l n) (fun _ _ => True).
Proof.
  intros HF. revert n. induction l as [|o l IH]; intros n; cbn [expire_all]; [skim|].
  apply does_then; [apply _|apply does_try_any; [apply _|by apply does_cancelCore]|]. intros r. apply IH.
Qed.

Lemma does_sweep F : Stable F -> does F (sweep_once s) (fun _ _ => True).
Proof.
  intros HF. unfold sweep_once, ReconcilePendingPaymentOrders, ExpireTimedOutOrders, orders_where.
  apply does_then; [apply _|apply does_try_any; [apply _|]|intros _].
  - apply does_then; [apply _|skim|]. intros now.
    apply does_then; [apply _|skim|]. intros l. by apply does_reconcile_all.
  - apply does_then; [apply _|apply does_try_any; [apply _|]|intros; skim].
    apply does_then; [apply _|skim|]. intros now.
    apply does_then; [apply _|skim|]. intros l. by apply does_expire_all.
Qed.

End Safety.
