(* ===== verification/PaymentFlows.v ===== *)
(** * Payments: what holds of every schedule

Calls of the payment code start at any time and interleave statement by statement;
any statement may be refused, or take effect while its answer is lost, and a call may
never be resumed; each call has its own answers of Redis and of the gateways. *)
From S2P Require Import Prelude GoText GoTime SubscriptionWindow Redis Programs Interleave PaymentStore PaymentProviders Redeem Payments PaymentLifecycle PaymentMoves PaymentSafety.
From Stdlib Require Import Bool.

Local Open Scope string_scope.
Local Open Scope Z_scope.

Section Flows.
Context `{GoUnicode, GoUpper} {Aff : Type}.
Notation World := (Store Aff).
Implicit Types w : World.

(** ** Calls and schedules *)

Inductive Call : Type :=
  | Notified (n : PaymentNotification) (pk : string)
  | Retried (oid : Z)
  | Verified (outTradeNo : string) (userID : Z)
  | Cancelled (oid userID : Z)
  | AdminCancelled (oid : Z)
  | Swept
  | Redeemed (userID : Z) (code : string)
  | AdminRedeemed (userID : Z) (code : string).

Definition program (s : Services (Aff := Aff)) (c : Call) : Prog World unit :=
  match c with
  | Notified n pk => discard (HandlePaymentNotification s n pk)
  | Retried oid => discard (RetryFulfillment s oid)
  | Verified t u => discard (VerifyOrderByOutTradeNo s t u)
  | Cancelled oid u => discard (CancelOrder s oid u)
  | AdminCancelled oid => discard (AdminCancelOrder s oid)
  | Swept => discard (sweep_once s)
  | Redeemed u code => discard (Redeem (peers s) (redeem_cache s code) u code)
  | AdminRedeemed u code => discard (RedeemForAdminFulfillment (peers s) (redeem_cache s code) u code)
  end.

Inductive Happening : Type :=
  | Starts (s : Services (Aff := Aff)) (c : Call)
  | Continues (i : nat) (f : option fault)
  | Elsewhere (g : World -> World).

Definition event_of (h : Happening) : Event World :=
  match h with
  | Starts s c => Spawn (program s c)
  | Continues i f => Turn i f
  | Elsewhere g => Outside g
  end.

Definition after (hs : list Happening) w : World := (schedule (map event_of hs) (w, [])).1.

(** ** The payments and the redemptions of a schedule *)

Section Guarded.
Context (I : World -> Prop) (pay : Z -> Money -> Prop) (may : string -> Z -> Prop).

Definition call_allowed (s : Services (Aff := Aff)) (c : Call) : Prop :=
  all_providers (answers_pay pay) (gateways s) /\
  match c with
  | Notified n pk => pays I pay n
  | Redeemed u code | AdminRedeemed u code => may code u
  | _ => True
  end.

(** Outside, the tables are changed as they are by the payment code. *)
Definition admissible (h : Happening) : Prop :=
  match h with
  | Starts s c => call_allowed s c
  | Continues _ _ => True
  | Elsewhere g => forall w, good I w -> good I (g w) /\ moved w (g w)
  end.

Lemma program_safe `{!Guard I pay may} s c w : good I w -> call_allowed s c ->
  always_safe (guarded (good I) moved) w (program s c).
Proof.
  intros Hw [Hg Hc].
  destruct c; cbn in Hc; cbn [program]; eapply (does_discard (good I) moved); try exact Hw.
  - eapply (does_HandlePaymentNotification I pay may); [apply _|exact Hc].
  - eapply (does_RetryFulfillment I pay may); apply _.
  - eapply (does_VerifyOrder I pay may); [exact Hg|apply _].
  - eapply (does_CancelOrder I pay may); [exact Hg|apply _].
  - eapply (does_AdminCancelOrder I pay may); [exact Hg|apply _].
  - eapply (does_sweep I pay may); [exact Hg|apply _].
  - eapply (does_redeem I pay may); [apply _|]. intros. by left.
  - eapply (does_redeem I pay may); [apply _|]. intros. by left.
Qed.

Lemma after_moved `{!Guard I pay may} hs w : good I w -> Forall admissible hs ->
  good I (after hs w) /\ moved w (after hs w).
Proof.
  intros Hw Hhs. apply (triples_sound (good I) moved); [done| |].
  - apply Forall_forall. intros p Hp. apply list_elem_of_omap in Hp as (e & He & Hp).
    apply list_elem_of_fmap in He as (h & -> & Hh). rewrite Forall_forall in Hhs. specialize (Hhs h Hh).
    destruct h as [s c|i f|g]; [|done|done]. injection Hp as <-. by apply program_safe.
  - apply Forall_forall. intros g Hg. apply list_elem_of_omap in Hg as (e & He & Hg).
    apply list_elem_of_fmap in He as (h & -> & Hh). rewrite Forall_forall in Hhs. specialize (Hhs h Hh).
    destruct h as [s c|i f|g']; [done|done|]. injection Hg as <-. exact Hhs.
Qed.

End Guarded.
(** ** Every recharge is a code that has come to be used *)

Definition anything_goes (h : Happening) : Prop :=
  match h with
  | Elsewhere g => forall w, sound w -> sound (g w) /\ moved w (g w)
  | _ => True
  end.

#[local] Instance no_guard : Guard (fun _ : World => True) (fun _ _ => True) (fun _ _ => True).
Proof. by split. Qed.

Lemma anything_allowed h : anything_goes h -> admissible (fun _ : World => True) (fun _ _ => True) (fun _ _ => True) h.
Proof.
  destruct h as [s c|i f|g]; [intros _; split|done|].
  - split; [intros t p _|intros i p _]; by intros ?.
  - by destruct c.
  - intros Hg w [Hw _]. by destruct (Hg w Hw).
Qed.

Lemma after_sound hs w : sound w -> Forall anything_goes hs -> sound (after hs w) /\ moved w (after hs w).
Proof.
  intros Hw Hhs. destruct (after_moved (fun _ => True) (fun _ _ => True) (fun _ _ => True) hs w) as [[? _] ?]; [done| |done].
  eapply Forall_impl; [exact Hhs|]. apply anything_allowed.
Qed.

(** C4. Whatever notifications, retries, verifications, cancellations, expiry sweeps and
redemptions run at the same time, with whatever statements refused or answers lost: what
a user has recharged grows by exactly the values of the positive balance codes that have
come to be used by that user, each of which is counted once; a used code never changes,
and an order keeps what was ordered. The tables are sound at first; refunds are not
among these calls: the roll-back of a refund counts as a recharge; other writers change
the tables only in the ways of these calls. *)
Theorem recharges_are_used_codes hs w : sound w -> Forall anything_goes hs ->
  let w' := after hs w in
  (forall u, recharged u w' = recharged u w + (credits u (redeem_codes w') - credits u (redeem_codes w))) /\
  (forall c r, redeem_codes w !! c = Some r -> CodeStatus r = StatusUsed -> redeem_codes w' !! c = Some r) /\
  (forall id o, orders w !! id = Some o -> exists o', orders w' !! id = Some o' /\ order_spec o' = order_spec o).
Proof.
  intros Hw Hhs. destruct (after_sound hs w Hw Hhs) as [_ Hm]. cbn. split_and!.
  - intros u. pose proof (moved_money _ _ Hm u). lia.
  - intros c r Hr Hu. destruct (moved_codes _ _ Hm c r Hr) as (r' & Hr' & (_ & _ & _ & _ & E)). by rewrite Hr', E.
  - intros id o Ho. destruct (moved_orders _ _ Hm id o Ho) as (o' & Ho' & E & _). by exists o'.
Qed.

(** C11. In every such schedule an order is completed only when it has been delivered:
the code of a recharge is there with the amount of the order and used by its user; a
subscription has the record of its assignment. *)
Theorem completed_orders_are_delivered hs w id o : sound w -> Forall anything_goes hs ->
  orders (after hs w) !! id = Some o -> Status o = OrderStatusCompleted -> delivered o (after hs w).
Proof. intros Hw Hhs. destruct (after_sound hs w Hw Hhs) as [Hs _]. apply (completed_delivered _ Hs id). Qed.

(** ** An order that is not paid is not credited *)

Section Unpaid.
Context (oid : Z) (o0 : PaymentOrder).

Definition unpaid w : Prop :=
  (exists o, orders w !! oid = Some o /\ order_spec o = order_spec o0 /\ PayAmount o = PayAmount o0 /\
             started (Status o) = false) /\
  redeem_codes w !! RechargeCode o0 = None /\
  map_Forall (fun id (o : PaymentOrder) => RechargeCode o = RechargeCode o0 -> id = oid) (orders w).

(** No payment of the order's amount is reported for it. *)
Definition not_its_payment (id : Z) (a : Money) : Prop := id = oid -> amount_matches o0 a = false.

Lemma amount_matches_same (o o' : PaymentOrder) a : order_spec o = order_spec o' -> PayAmount o = PayAmount o' ->
  amount_matches o a = amount_matches o' a.
Proof. intros Es Ep. unfold amount_matches. by rewrite Ep, (currency_of_spec o o'). Qed.

Lemma known_unpaid (o : PaymentOrder) w : sound w -> unpaid w -> known o w -> started (Status o) = true ->
  RechargeCode o <> RechargeCode o0.
Proof.
  intros Hs ((u & Hu & _ & _ & Hst) & _ & Huniq) (cur & Hcur & Hspec & Hstart & _) Ho Hc.
  specialize (Huniq _ _ Hcur). cbn beta in Huniq. rewrite Hspec in Huniq. specialize (Huniq Hc). rewrite Huniq in Hcur.
  rewrite Hu in Hcur. injection Hcur as <-. by rewrite Hstart in Hst.
Qed.

#[local] Instance unpaid_guard : Guard unpaid not_its_payment (fun _ _ => True).
Proof.
  split.
  - intros w w' Eo Ec. unfold unpaid. by rewrite Eo, Ec.
  - intros w id o o' Hs ((u & Hu & Hsp & Hpa & Hst) & Hn & Huniq) Ho Espec Hc. split_and!; [|done|].
    + destruct (decide (id = oid)) as [->|Hid]; [|exists u; cbn; by rewrite lookup_insert_ne].
      exists o'. cbn. rewrite lookup_insert_eq. assert (u = o) as -> by congruence.
      destruct Hc as [E1 E2 E3|E1 E2|a E1 E2 E3 E4 E5|E1 E2 E3 E4|E1 E2 E3 E4|E1 E2 E3].
      * split_and!; congruence.
      * split_and!; congruence.
      * exfalso. rewrite (amount_matches_same o o0) in E2 by done. rewrite E3 in E2; [done|].
        exact (orders_keyed _ Hs _ _ Ho).
      * congruence.
      * by rewrite E1 in Hst.
      * by rewrite E1 in Hst.
    + apply map_Forall_insert_2; [|done]. rewrite Espec. by apply (Huniq id).
  - intros w o Hs Hi Hk Hst Hc. pose proof (known_unpaid o w Hs Hi Hk Hst) as Hne.
    destruct Hi as (Hu & Hn & Huniq). split_and!; [done| |done]. cbn. by rewrite lookup_insert_ne.
  - intros w c u r t Hs (Hu & Hn & Huniq) Hr _ _. split_and!; [done| |done]. cbn.
    rewrite lookup_insert_ne; [done|]. intros ->. congruence.
Qed.

(** What may happen without a payment of the order: notifications of its amount are
of other orders, and no gateway reports a payment of that amount. *)
Definition without_payment (h : Happening) : Prop :=
  match h with
  | Starts s c =>
      all_providers (answers_pay not_its_payment) (gateways s) /\
      match c with
      | Notified n pk => forall a, PaidAmount n = Num a -> amount_matches o0 a = true ->
          OrderID n <> OutTradeNo o0 /\ forall e, parseLegacyPaymentOrderID (OrderID n) e <> Some oid
      | _ => True
      end
  | Continues _ _ => True
  | Elsewhere g => forall w, sound w -> unpaid w -> (sound (g w) /\ unpaid (g w)) /\ moved w (g w)
  end.

Lemma without_payment_allowed h : without_payment h -> admissible unpaid not_its_payment (fun _ _ => True) h.
Proof.
  destruct h as [s c|i f|g]; [|done|by intros Hg w [? ?]; apply Hg].
  intros [Hg Hc]. split; [done|]. destruct c; try done. intros a Ha. split.
  - intros o w [Hs ((u & Hu & Hsp & _) & _)] [(cur & Hcur & Hspec & _) _] Ht Hid.
    destruct (amount_matches o0 a) eqn:E; [|done]. destruct (Hc a Ha E) as [Hne _]. exfalso. apply Hne.
    rewrite <- Ht. rewrite Hid, Hu in Hcur. injection Hcur as <-. by rewrite <- Hspec, Hsp.
  - intros e id He ->. destruct (amount_matches o0 a) eqn:E; [|done]. destruct (Hc a Ha E) as [_ Hne].
    by destruct (Hne e).
Qed.

(** C14. An order for which no payment of its amount is reported, by a notification or
by its gateway, stays unpaid whatever else happens: notifications with other amounts,
retries, verification, cancellation and expiry.  Its code is never made. *)
Theorem unpaid_orders_are_not_credited hs w : sound w -> unpaid w -> Forall without_payment hs ->
  (exists o, orders (after hs w) !! oid = Some o /\ started (Status o) = false) /\
  redeem_codes (after hs w) !! RechargeCode o0 = None.
Proof.
  intros Hw Hu Hhs. destruct (after_moved unpaid not_its_payment (fun _ _ => True) hs w) as [[_ Hu'] _]; [done| |].
  - eapply Forall_impl; [exact Hhs|]. apply without_payment_allowed.
  - destruct Hu' as ((o & Ho & _ & _ & Hst) & Hn & _). split; [by exists o|done].
Qed.

End Unpaid.
End Flows.
