(* ===== verification/PaymentDelivery.v ===== *)
(** * A notification that is processed alone

What [HandlePaymentNotification] does to a recharge when it runs without faults and
without others: whatever an earlier attempt has left, it completes the order, and
the user has the amount once. *)
From S2P Require Import Prelude GoText GoTime SubscriptionWindow Redis Programs Interleave PaymentStore PaymentProviders Redeem Payments PaymentLifecycle PaymentMoves PaymentSafety.
From Stdlib Require Import Bool.

Local Open Scope string_scope.
Local Open Scope Z_scope.

Section Delivery.
Context `{GoUnicode, GoUpper} {Aff : Type}.
Notation World := (Store Aff).
Implicit Types w : World.

(** Records and rebates change neither orders nor codes nor users. *)
Definition calm w w' : Prop :=
  orders w' = orders w /\ redeem_codes w' = redeem_codes w /\ users w' = users w /\ clock w' = clock w.

#[export] Instance calm_preorder : PreOrder calm.
Proof.
  split; [by intros w|]. intros w1 w2 w3 (? & ? & ? & ?) (? & ? & ? & ?). split_and!; congruence.
Qed.

Lemma insert_log_calm oid action d op w : calm w (insert_log oid action d op w).1.
Proof. unfold insert_log. by destruct (logs w !! (oid, action)). Qed.

Lemma write_audit_runs oid action op w : exists w', yields (writeAuditLog oid action op) w tt w' /\ calm w w'.
Proof.
  destruct (insert_log oid action DetailOther op w) as [w1 r] eqn:E.
  pose proof (insert_log_calm oid action DetailOther op w) as Hc. rewrite E in Hc. cbn in Hc.
  exists (match r with Ok _ => w1 | Err _ => w end). split.
  - eapply yields_bind; [|apply yields_ret]. apply yields_try. rewrite run_statement, E. by destruct r.
  - by destruct r.
Qed.

(** *** Runs of the parts of a program *)

Lemma with_logs_same w : with_logs (logs w) w = w.
Proof. by destruct w. Qed.

Lemma audit_runs oid action d op w : exists l, yields (write_audit oid action d op) w tt (with_logs l w).
Proof.
  destruct (insert_log oid action d op w) as [w1 [[]|e]] eqn:E.
  - assert (exists l, w1 = with_logs l w) as [l ->].
    { unfold insert_log in E. destruct (logs w !! _); [done|]. injection E as <-. by eexists. }
    exists l. eapply yields_bind; [|apply yields_ret]. apply yields_try. by rewrite run_statement, E.
  - exists (logs w). rewrite with_logs_same. eapply yields_bind; [|apply yields_ret].
    apply yields_try. by rewrite run_statement, E.
Qed.

Lemma update_one_runs id (set : PaymentOrder -> PaymentOrder) w o : orders w !! id = Some o ->
  yields (order_update_one id set) w (set (SetUpdatedAt (clock w) o))
    (with_orders (<[id := set (SetUpdatedAt (clock w) o)]> (orders w)) w).
Proof. intros Ho. apply yields_statement. unfold update_one_order. by rewrite Ho. Qed.

Lemma run_bind_inv {A B} (m : Act World A) (k : A -> Act World B) w w' b : run (abind m k) w = (w', Ok b) ->
  exists a w1, run m w = (w1, Ok a) /\ run (k a) w1 = (w', Ok b).
Proof.
  unfold abind. rewrite run_bind. destruct (run m w) as [w1 [a|e]] eqn:E; [by exists a, w1|done].
Qed.

Lemma run_after {A B} (m : Act World A) (k : A -> Act World B) w a w1 : yields m w a w1 -> run (abind m k) w = run (k a) w1.
Proof. unfold yields, abind. intros Hm. by rewrite run_bind, Hm. Qed.

Lemma run_try {A} (m : Act World A) w : run (atry m) w = ((run m w).1, Ok (run m w).2).
Proof. unfold atry. by rewrite run_bind. Qed.

(** ** The world of a delivery *)

Context (s : Services (Aff := Aff)).

Definition rebate_works : Prop :=
  match accrue (peers s) with
  | None => True
  | Some acc => forall u base oid a, is_ok (acc u base oid a) = true
  end.

Lemma rebate_runs o w : rebate_works -> exists w', yields (applyAffiliateRebateForOrder s o) w tt w' /\ calm w w'.
Proof.
  intros Hw. unfold applyAffiliateRebateForOrder. cbv zeta. destruct (_ <=? 0); [by exists w|].
  unfold rebate_works in Hw. destruct (accrue (peers s)) as [acc|]; [|by exists w].
  destruct (rebate_tx acc o (affiliateRebateBaseAmount o) w) as [w1|e] eqn:E.
  - exists w1. split.
    + eapply yields_bind; [apply yields_try_ok, yields_statement; by rewrite E|]. apply yields_ret.
    + unfold rebate_tx in E. destruct (rebate_logged (ID o) w); [by injection E as <-|].
      pose proof (insert_log_calm (ID o) "AFFILIATE_REBATE_APPLIED" DetailOther "system" w) as Hc.
      destruct (acc _ _ _ _) as [[a n]|]; [|done]. injection E as <-. etrans; [exact Hc|].
      destruct (n <=? 0); [|done]. unfold rename_claim. by destruct (_ !! _).
  - exfalso. unfold rebate_tx in E. destruct (rebate_logged (ID o) w); [done|].
    specialize (Hw (UserID o) (affiliateRebateBaseAmount o) (Some (ID o))
                  (affiliate (insert_log (ID o) "AFFILIATE_REBATE_APPLIED" DetailOther "system" w).1)).
    destruct (acc _ _ _ _) as [[a n]|]; done.
Qed.

(** A user who has been credited. *)
Definition credited (v : Money) (x : UserRow) : UserRow :=
  mkUser (numeric8 (Balance x + v)) (numeric8 (TotalRecharged x + v)) (Concurrency x).

Lemma redeem_runs cache u c r x w :
  lock_acquired cache = true -> redeem_codes w !! c = Some r -> Code r = c -> CodeStatus r = StatusUnused ->
  CodeExpiresAt r = None -> Type_ r = RedeemTypeBalance -> 0 < Value r -> users w !! u = Some x ->
  exists r' w', yields (redeemForPaymentFulfillment (peers s) cache u c) w r' w' /\
    orders w' = orders w /\ clock w' = clock w /\ redeem_codes w' = <[c := mark_used u (clock w) r]> (redeem_codes w) /\
    users w' = <[u := credited (Value r) x]> (users w).
Proof.
  intros Hlock Hr Hk Hs He Ht Hv Hx. unfold redeemForPaymentFulfillment, redeem. rewrite Hlock. cbn [negb].
  assert (Hpos : (0 <? Value r) = true) by lia. assert (Hneg : (Value r <? 0) = false) by lia.
  eexists _, _. split.
  - eapply yields_bind; [apply yields_try, run_select|]. unfold code_row. rewrite Hr.
    eapply yields_bind; [apply yields_ret|]. eapply yields_bind; [apply yields_get|].
    unfold CanUse, IsExpiredAt. rewrite Hs, He. cbn [String.eqb Ascii.eqb Bool.eqb StatusUnused StatusExpired andb orb negb].
    unfold redeemable_type. rewrite Ht. cbn [String.eqb Ascii.eqb Bool.eqb RedeemTypeBalance andb orb negb].
    eapply yields_bind; [apply yields_wrap, yields_select; unfold user_by_id; by rewrite Hx|].
    eapply yields_bind.
    { apply yields_statement. unfold redeem_tx, Use. rewrite Hk, Hr, Hs. cbn [String.eqb Ascii.eqb Bool.eqb StatusUnused].
      unfold apply_benefit. rewrite Ht. cbn [String.eqb Ascii.eqb Bool.eqb RedeemTypeBalance].
      rewrite Hneg. unfold UpdateBalance, with_user. cbn [users with_redeem_codes]. rewrite Hx, Hpos.
      cbn [wrap_err]. reflexivity. }
    rewrite Hpos. cbn [andb tryAccrueAffiliateRebateForRedeem].
    eapply yields_bind; [apply yields_ret|].
    apply yields_wrap, yields_select. unfold code_row. cbn. rewrite Hk, lookup_insert_eq. reflexivity.
  - done.
Qed.

Lemma create_runs (o : PaymentOrder) w :
  TrimSpace (RechargeCode o) = RechargeCode o -> RechargeCode o <> "" -> 0 < Amount o ->
  redeem_codes w !! RechargeCode o = None ->
  yields (CreateCode (payment_code o)) w tt (with_redeem_codes (<[RechargeCode o := payment_code o]> (redeem_codes w)) w).
Proof.
  intros Ht Hne Ha Hn. rewrite CreateCode_payment. cbv zeta. rewrite Ht.
  rewrite (proj2 (String.eqb_neq _ _)) by done. rewrite (proj2 (Z.eqb_neq _ _)) by lia.
  eapply yields_bind; [apply yields_get|]. unfold IsExpiredAt.
  cbn [CodeStatus CodeExpiresAt String.eqb Ascii.eqb Bool.eqb StatusUnused StatusExpired andb orb].
  eapply yields_bind; [apply yields_try_ok, yields_statement|apply yields_ret].
  unfold Create. cbn [Code]. rewrite Hn. reflexivity.
Qed.

(** ** Fulfilment *)

(** What an update that finds its row does. *)
Lemma update_runs id p (set : PaymentOrder -> PaymentOrder) w o : orders w !! id = Some o -> p o = true ->
  yields (order_update id p set) w 1 (with_orders (<[id := set (SetUpdatedAt (clock w) o)]> (orders w)) w).
Proof. intros Ho Hp. apply yields_statement. unfold update_order. by rewrite Ho, Hp. Qed.

Lemma get_runs id w o : orders w !! id = Some o -> yields (order_get id) w o w.
Proof. intros Ho. apply yields_select. unfold order_row. by rewrite Ho. Qed.

Lemma hasAuditLog_runs oid action w : yields (hasAuditLog oid action) w (has_log oid action w) w.
Proof. eapply yields_bind; [apply yields_try, run_select|apply yields_ret]. Qed.

Definition completed (t : Time) (o : PaymentOrder) : PaymentOrder :=
  SetCompletedAt t (SetStatus OrderStatusCompleted (SetUpdatedAt t o)).

Lemma markCompleted_runs (o : PaymentOrder) lease action w cur : orders w !! ID o = Some cur ->
  lease_held lease cur = true ->
  exists w', yields (markCompleted o lease action) w tt w' /\
    orders w' = <[ID o := completed (clock w) cur]> (orders w) /\
    redeem_codes w' = redeem_codes w /\ users w' = users w.
Proof.
  intros Ho Hl. unfold markCompleted. set (w1 := with_orders (<[ID o := completed (clock w) cur]> (orders w)) w).
  assert (H1 : exists w', yields (let* logged := hasAuditLog (ID o) action in
                                  if logged then aret tt else writeAuditLog (ID o) action "system") w1 tt w' /\ calm w1 w').
  { destruct (write_audit_runs (ID o) action "system" w1) as (w' & Hr & Hc).
    destruct (has_log (ID o) action w1) eqn:E; [exists w1|exists w']; (split; [|done]);
      (eapply yields_bind; [apply hasAuditLog_runs|]; rewrite E); [apply yields_ret|done]. }
  destruct H1 as (w' & Hr & (Eo & Ec & Eu & _)). exists w'. split; [|done].
  eapply yields_bind; [apply yields_get|]. eapply yields_bind; [apply yields_wrap, update_runs; done|]. exact Hr.
Qed.

(** The code of the order is not there yet, or is in order. *)
Definition code_open (o : PaymentOrder) w : Prop :=
  match redeem_codes w !! RechargeCode o with
  | None => True
  | Some r => validatePaymentRedeemCode o r = Ok tt /\ CodeExpiresAt r = None
  end.

(** The users once the order has been credited. *)
Definition users_credited (o : PaymentOrder) (x : UserRow) w : gmap Z UserRow :=
  match redeem_codes w !! RechargeCode o with
  | None => <[UserID o := credited (Amount o) x]> (users w)
  | Some r => if IsUsed r then users w else <[UserID o := credited (Value r) x]> (users w)
  end.

(** What a recharge needs to be delivered. *)
Record rechargeable (o : PaymentOrder) (x : UserRow) w : Prop := mkRechargeable {
  rc_type : is_subscription o = false;
  rc_trim : TrimSpace (RechargeCode o) = RechargeCode o;
  rc_code : RechargeCode o <> "";
  rc_amount : 100 < Amount o;
  rc_open : code_open o w;
  rc_user : users w !! UserID o = Some x;
  rc_lock : lock_acquired (redeem_cache s (RechargeCode o)) = true;
  rc_rebate : rebate_works
}.

Lemma code_of_order_value (o : PaymentOrder) r : 100 < Amount o -> validatePaymentRedeemCode o r = Ok tt -> 0 < Value r.
Proof. intros Ha (_ & _ & Hv & _)%validate_ok. lia. Qed.

Lemma validate_payment_code (o : PaymentOrder) : validatePaymentRedeemCode o (payment_code o) = Ok tt.
Proof.
  unfold validatePaymentRedeemCode, payment_code. cbn [Code Type_ Value CodeStatus UsedBy].
  by rewrite String.eqb_refl, Z.sub_diag.
Qed.

Lemma wrapped_not_found : errors_Is (ErrWrap "get redeem code" ErrRedeemCodeNotFound) ErrRedeemCodeNotFound = true.
Proof. reflexivity. Qed.

Lemma doBalance_runs (o : PaymentOrder) lease x w cur : rechargeable o x w -> orders w !! ID o = Some cur ->
  lease_held lease cur = true ->
  exists w', yields (doBalance s o lease) w tt w' /\
    orders w' = <[ID o := completed (clock w) cur]> (orders w) /\ settled o w' /\ users w' = users_credited o x w.
Proof.
  intros [Hty Ht Hne Ha Hopen Hx Hlock Hreb] Ho Hl. unfold doBalance.
  (* the end of every case *)
  assert (Hend : forall w1, orders w1 = orders w -> clock w1 = clock w -> exists w',
    yields (let* _ := applyAffiliateRebateForOrder s o in markCompleted o lease "RECHARGE_SUCCESS") w1 tt w' /\
    orders w' = <[ID o := completed (clock w) cur]> (orders w) /\ redeem_codes w' = redeem_codes w1 /\ users w' = users w1).
  { intros w1 Eo Et. destruct (rebate_runs o w1 Hreb) as (w2 & Hr2 & (Eo2 & Ec2 & Eu2 & Et2)).
    destruct (markCompleted_runs o lease "RECHARGE_SUCCESS" w2 cur) as (w3 & Hr3 & Eo3 & Ec3 & Eu3);
      [by rewrite Eo2, Eo|done|].
    exists w3. split; [by eapply yields_bind|]. rewrite Eo3, Ec3, Eu3, Ec2, Eu2, Eo2, Eo, Et2, Et. done. }
  (* from an unused code on *)
  assert (Hredeem : forall w1 r, orders w1 = orders w -> clock w1 = clock w -> users w1 = users w ->
    redeem_codes w1 !! RechargeCode o = Some r -> validatePaymentRedeemCode o r = Ok tt -> CodeExpiresAt r = None ->
    CodeStatus r = StatusUnused -> exists w',
    yields (let* _ := awrap "redeem balance" (redeemForPaymentFulfillment (peers s)
              (redeem_cache s (RechargeCode o)) (UserID o) (RechargeCode o)) in
            let* _ := applyAffiliateRebateForOrder s o in markCompleted o lease "RECHARGE_SUCCESS") w1 tt w' /\
    orders w' = <[ID o := completed (clock w) cur]> (orders w) /\ settled o w' /\
    users w' = <[UserID o := credited (Value r) x]> (users w)).
  { intros w1 r Eo Et Eu Hr Hv He Hs. pose proof (validate_ok o r Hv) as (Hk & Hty' & Hval & _).
    destruct (redeem_runs (redeem_cache s (RechargeCode o)) (UserID o) (RechargeCode o) r x w1)
      as (r' & w2 & Hr2 & Eo2 & Et2 & Ec2 & Eu2); try done; [by eapply code_of_order_value|by rewrite Eu|].
    destruct (Hend w2) as (w3 & Hr3 & Eo3 & Ec3 & Eu3); [congruence|congruence|].
    exists w3. split; [eapply yields_bind; [by apply yields_wrap|exact Hr3]|]. split; [done|]. split.
    - exists (mark_used (UserID o) (clock w1) r). by rewrite Ec3, Ec2, lookup_insert_eq.
    - by rewrite Eu3, Eu2, Eu. }
  unfold code_open in Hopen. unfold users_credited.
  destruct (redeem_codes w !! RechargeCode o) as [r|] eqn:Hr.
  - destruct Hopen as [Hv He].
    assert (Hlook : yields (lookup_code (RechargeCode o)) w (Ok r) w).
    { eapply yields_bind; [apply yields_try, run_select|]. unfold code_row. rewrite Hr. apply yields_ret. }
    destruct (validate_ok o r Hv) as (Hk & Hty' & Hval & Hst). destruct (IsUsed r) eqn:Eu.
    + destruct (Hend w) as (w' & Hr' & Eo' & Ec' & Eu'); [done..|]. exists w'. split_and!; [|done| |done].
      * eapply yields_bind; [exact Hlook|]. cbn [resolveRedeemAction]. rewrite Eu, Hv. exact Hr'.
      * unfold IsUsed in Eu. apply String.eqb_eq in Eu. exists r. rewrite Ec'. split_and!; try done.
        destruct Hst as [Hst|[_ ?]]; [by rewrite Hst in Eu|done].
    + assert (Hs : CodeStatus r = StatusUnused).
      { destruct Hst as [?|[Hst _]]; [done|]. unfold IsUsed in Eu. by rewrite Hst in Eu. }
      destruct (Hredeem w r) as (w' & Hr' & Eo' & Ec' & Eu'); [done..|]. exists w'. split_and!; try done.
      eapply yields_bind; [exact Hlook|]. cbn [resolveRedeemAction]. rewrite Eu, Hv.
      eapply yields_bind; [apply yields_ret|]. exact Hr'.
  - set (w1 := with_redeem_codes (<[RechargeCode o := payment_code o]> (redeem_codes w)) w).
    destruct (Hredeem w1 (payment_code o)) as (w' & Hr' & Eo' & Ec' & Eu'); try done.
    + cbn. by rewrite lookup_insert_eq.
    + apply validate_payment_code.
    + exists w'. split_and!; try done. eapply yields_bind; [eapply yields_bind; [apply yields_try, run_select|]|].
      * unfold code_row. rewrite Hr. apply yields_ret.
      * unfold resolveRedeemAction. rewrite wrapped_not_found.
        eapply yields_bind; [apply yields_wrap, create_runs; try done; lia|]. exact Hr'.
Qed.

(** What has been delivered: the order is complete, its code used, and its user
credited if it was not. *)
Definition finished (o : PaymentOrder) (x : UserRow) w w' : Prop :=
  (exists o', orders w' !! ID o = Some o' /\ order_spec o' = order_spec o /\ Status o' = OrderStatusCompleted) /\
  settled o w' /\ users w' = users_credited o x w.

(** The lease that is claimed at [t], and the order that it is of. *)
Definition lease_before (t : Time) : Time := Add (t / Microsecond * Microsecond) (- paymentFulfillmentLeaseDuration).
Definition leased (t : Time) (o : PaymentOrder) : PaymentOrder :=
  claim_lease (t / Microsecond * Microsecond) (SetUpdatedAt t o).

Lemma acquire_runs (o : PaymentOrder) w cur : orders w !! ID o = Some cur -> lease_free (lease_before (clock w)) cur = true ->
  yields (acquirePaymentFulfillmentLease o) w (Some (UpdatedAt (leased (clock w) cur)))
    (with_orders (<[ID o := leased (clock w) cur]> (orders w)) w).
Proof.
  intros Ho Hl. eapply yields_bind; [eapply yields_bind; [apply yields_get|apply yields_ret]|].
  eapply yields_bind; [apply yields_wrap, update_runs; done|]. cbn [Z.eqb].
  eapply yields_bind; [apply yields_wrap, get_runs; apply lookup_insert_eq|]. apply yields_ret.
Qed.

Lemma rechargeable_same (o o' : PaymentOrder) x w w' : order_spec o' = order_spec o ->
  redeem_codes w' = redeem_codes w -> users w' = users w -> rechargeable o x w -> rechargeable o' x w'.
Proof.
  intros Es Ec Eu [Hty Ht Hne Ha Hopen Hx Hlock Hreb]. split; rewrite ?Es, ?Eu; try done.
  unfold code_open in *. rewrite Ec, Es. destruct (redeem_codes w !! RechargeCode o); [|done].
  unfold validatePaymentRedeemCode in *. by rewrite Es.
Qed.

Lemma finished_same (o o' : PaymentOrder) x w w1 w' : order_spec o' = order_spec o ->
  redeem_codes w1 = redeem_codes w -> users w1 = users w -> finished o' x w1 w' -> finished o x w w'.
Proof.
  intros Es Ec Eu ((o2 & Ho2 & Es2 & Hst) & Hs & Hu). rewrite Es in Ho2, Hs. split_and!; [|done|].
  - exists o2. by rewrite Es2, Es.
  - rewrite Hu. unfold users_credited. by rewrite Ec, Eu, Es.
Qed.

Lemma order_or_404_runs oid w o : orders w !! oid = Some o -> yields (order_or_404 oid) w o w.
Proof. intros Ho. eapply yields_bind; [apply yields_try_ok, get_runs; done|apply yields_ret]. Qed.

Lemma executeFulfillment_runs (o : PaymentOrder) x w : rechargeable o x w -> orders w !! ID o = Some o ->
  fulfillable (Status o) = true -> lease_free (lease_before (clock w)) o = true ->
  exists w', yields (executeFulfillment s (ID o)) w tt w' /\ finished o x w w'.
Proof.
  intros Hre Ho Hf Hl. set (w1 := with_orders (<[ID o := leased (clock w) o]> (orders w)) w).
  assert (Hre1 : rechargeable o x w1) by (by apply (rechargeable_same o o x w)).
  destruct (doBalance_runs o (UpdatedAt (leased (clock w) o)) x w1 (leased (clock w) o)) as (w' & Hr & Eo & Hs & Hu);
    [done|apply lookup_insert_eq|by unfold lease_held; rewrite bool_decide_true, Z.eqb_refl|].
  exists w'. split.
  - eapply yields_bind; [apply yields_wrap, get_runs; done|].
    pose proof (rc_type _ _ _ Hre) as Hty. unfold is_subscription in Hty. rewrite Hty.
    eapply yields_bind; [by apply order_or_404_runs|].
    rewrite bool_decide_false by (intros E; by rewrite E in Hf).
    assert (Hnr : psIsRefundStatus (Status o) = false) by (by destruct (Status o)). rewrite Hnr, Hf. cbn [negb].
    eapply yields_bind; [by apply acquire_runs|]. cbv iota.
    eapply yields_bind; [apply yields_try_ok; exact Hr|]. apply yields_ret.
  - split_and!; [|done|done]. eexists. rewrite Eo, lookup_insert_eq. by split.
Qed.

(** ** Notifications *)

(** Programs that only read. *)
Definition reads {A} (m : Act World A) : Prop := forall w, (run m w).1 = w.

Lemma reads_bind {A B} (m : Act World A) (k : A -> Act World B) : reads m -> (forall a, reads (k a)) -> reads (abind m k).
Proof.
  intros Hm Hk w. unfold abind. rewrite run_bind. specialize (Hm w). destruct (run m w) as [w1 [a|e]]; cbn in *; subst;
    [apply Hk|done].
Qed.

Lemma reads_ret {A} (a : A) : reads (aret a).
Proof. done. Qed.

Lemma reads_fail {A} e : reads (afail e : Act World A).
Proof. done. Qed.

Lemma reads_select {A} (f : World -> res A) : reads (select f).
Proof. intros w. by rewrite run_select. Qed.

#[local] Hint Resolve reads_ret reads_fail reads_select : core.

Lemma getOrderProviderInstance_reads o : reads (getOrderProviderInstance (Aff := Aff) o).
Proof.
  unfold getOrderProviderInstance, resolveSnapshotOrderProviderInstance, resolveUniqueLegacyOrderProviderInstance,
    instance_get, instances_where.
  repeat match goal with
         | |- forall _, reads _ => intros ?
         | |- reads (abind _ _) => apply reads_bind
         | |- reads (match ?x with _ => _ end) => destruct x
         | |- reads (if ?x then _ else _) => destruct x
         | |- reads _ => solve [auto]
         end.
Qed.

(** The provider that the notification of an order is expected from. *)
Definition expected_key (o : PaymentOrder) w : string :=
  expectedNotificationProviderKeyForOrder (registry (gateways s)) o
    (match (run (getOrderProviderInstance o) w).2 with Ok (Some inst) => InstanceProviderKey inst | _ => "" end).

Definition provider_mismatch (o : PaymentOrder) (pk : string) w : bool :=
  negb (String.eqb (expected_key o w) "") && negb (String.eqb (TrimSpace pk) "")
  && negb (EqualFold (expected_key o w) (TrimSpace pk)).

(** A notification that is of this order and in order. *)
Record accepted (o : PaymentOrder) (n : PaymentNotification) (a : Money) (pk : string) w : Prop := mkAccepted {
  ac_row : orders w !! ID o = Some o;
  ac_number : OrderID n = OutTradeNo o;
  ac_unique : map_Forall (fun id (o' : PaymentOrder) => OutTradeNo o' = OutTradeNo o -> id = ID o) (orders w);
  ac_status : NotificationStatus n = NotificationStatusSuccess;
  ac_provider : provider_mismatch o pk w = false;
  ac_metadata : validateProviderSnapshotMetadata o pk (Metadata n) = Ok tt;
  ac_paid : PaidAmount n = Num a;
  ac_positive : 0 < a;
  ac_matches : amount_matches o a = true
}.

Lemma filter_none {A} (P : A -> Prop) `{!forall x, Decision (P x)} (l : list A) :
  (forall x, x ∈ l -> ~ P x) -> filter P l = [].
Proof.
  induction l as [|x l IH]; intros Hl; [done|]. rewrite filter_cons_False by (apply Hl; left).
  apply IH. intros y Hy. apply Hl. by right.
Qed.

Lemma the_order_of_a_number w id (o : PaymentOrder) t : orders w !! id = Some o -> OutTradeNo o = t ->
  map_Forall (fun i (o' : PaymentOrder) => OutTradeNo o' = t -> i = id) (orders w) ->
  yields (order_by_trade_no t) w o w.
Proof.
  intros Ho Ht Hu. apply yields_select.
  assert (Hp : filter (fun o : PaymentOrder => OutTradeNo o = t) (map snd (map_to_list (orders w))) ≡ₚ [o]).
  { rewrite <- (insert_id _ _ _ Ho), <- insert_delete_eq, map_to_list_insert by apply lookup_delete_eq. cbn [map snd].
    rewrite filter_cons_True by done. f_equiv.
    rewrite filter_none; [done|]. intros o' Hin.
    apply list_elem_of_fmap in Hin as ([i x] & -> & Hx%elem_of_map_to_list). cbn. intros Et.
    destruct (decide (i = id)) as [->|Hne]; [by rewrite lookup_delete_eq in Hx|].
    rewrite lookup_delete_ne in Hx by done. by apply Hne, (Hu i x Hx). }
  apply Permutation_singleton_r in Hp. by rewrite Hp.
Qed.

(** An order that a notification finds as it can be: waiting for its payment, or
paid with no worker on it, or complete. *)
Definition ready (o : PaymentOrder) w : Prop :=
  payable (Add (clock w) (- (paymentGraceMinutes * Minute))) o = true \/
  (fulfillable (Status o) = true /\ lease_free (lease_before (clock w)) o = true) \/
  (Status o = OrderStatusCompleted /\ settled o w).

Lemma update_none_runs id p (set : PaymentOrder -> PaymentOrder) w o : orders w !! id = Some o -> p o = false ->
  yields (order_update id p set) w 0 w.
Proof. intros Ho Hp. apply yields_statement. unfold update_order. by rewrite Ho, Hp. Qed.

Lemma settled_finished (o : PaymentOrder) x w : orders w !! ID o = Some o -> Status o = OrderStatusCompleted ->
  settled o w -> finished o x w w.
Proof.
  intros Ho Hst Hs. split_and!; [by exists o|done|]. destruct Hs as (r & Hr & _ & _ & Hu & _).
  unfold users_credited. rewrite Hr. unfold IsUsed. by rewrite Hu.
Qed.

Lemma alreadyProcessed_runs (o : PaymentOrder) x w : rechargeable o x w -> orders w !! ID o = Some o ->
  (fulfillable (Status o) = true /\ lease_free (lease_before (clock w)) o = true) \/
  (Status o = OrderStatusCompleted /\ settled o w) ->
  exists w', yields (alreadyProcessed s o) w tt w' /\ finished o x w w'.
Proof.
  intros Hre Ho [[Hf Hl]|[Hst Hs]].
  - destruct (executeFulfillment_runs o x w Hre Ho Hf Hl) as (w' & Hr & Hfin). exists w'. split; [|done].
    eapply yields_bind; [apply yields_try_ok, get_runs; done|].
    clear - Hr Hf. cbv beta iota. destruct (Status o); first [exact Hr|vm_compute in Hf; discriminate Hf].
  - exists w. split; [|by apply settled_finished].
    eapply yields_bind; [apply yields_try_ok, get_runs; done|].
    cbv beta iota. rewrite Hst. apply yields_ret.
Qed.

Lemma toPaid_runs (o : PaymentOrder) x w tradeNo a pk : rechargeable o x w -> orders w !! ID o = Some o -> ready o w ->
  exists w', yields (toPaid s o tradeNo a pk) w tt w' /\ finished o x w w'.
Proof.
  intros Hre Ho Hready. unfold toPaid. set (grace := Add (clock w) (- (paymentGraceMinutes * Minute))) in *.
  destruct (payable grace o) eqn:Hp.
  - set (o1 := mark_paid a tradeNo (clock w) (SetUpdatedAt (clock w) o)).
    set (w1 := with_orders (<[ID o := o1]> (orders w)) w).
    assert (Hlog : exists w2, yields (if status_in (Status o) [OrderStatusCancelled; OrderStatusExpired]
                     then writeAuditLog (ID o) "ORDER_RECOVERED" pk else aret tt) w1 tt w2 /\ calm w1 w2).
    { destruct (status_in _ _); [apply write_audit_runs|exists w1; by split]. }
    destruct Hlog as (w2 & Hr2 & Hc2). destruct (write_audit_runs (ID o) "ORDER_PAID" pk w2) as (w3 & Hr3 & Hc3).
    assert (Hc : calm w1 w3) by (by etrans). destruct Hc as (Eo & Ec & Eu & _).
    destruct (executeFulfillment_runs o1 x w3) as (w' & Hr & Hfin); [| |done|done|].
    { by apply (rechargeable_same o o1 x w). }
    { rewrite Eo. apply lookup_insert_eq. }
    exists w'. split; [|by apply (finished_same o o1 x w w3)].
    eapply yields_bind; [apply yields_get|]. eapply yields_bind; [apply yields_wrap, update_runs; done|]. cbn [Z.eqb].
    eapply yields_bind; [exact Hr2|]. eapply yields_bind; [exact Hr3|]. exact Hr.
  - destruct (alreadyProcessed_runs o x w Hre Ho) as (w' & Hr & Hfin).
    { destruct Hready as [Hpay|Hrest]; [fold grace in Hpay; congruence|done]. }
    exists w'. split; [|done]. eapply yields_bind; [apply yields_get|].
    eapply yields_bind; [apply yields_wrap; by eapply update_none_runs|]. exact Hr.
Qed.

Lemma notification_runs (o : PaymentOrder) n a pk x w : accepted o n a pk w -> rechargeable o x w -> ready o w ->
  exists w', yields (HandlePaymentNotification s n pk) w tt w' /\ finished o x w w'.
Proof.
  intros [Ho Hn Hu Hst Hp Hmd Hpaid Hpos Hm] Hre Hready.
  destruct (toPaid_runs o x w (TradeNo n) a pk Hre Ho Hready) as (w' & Hr & Hfin). exists w'. split; [|done].
  unfold HandlePaymentNotification. rewrite Hst. cbn [String.eqb Ascii.eqb Bool.eqb NotificationStatusSuccess negb].
  eapply yields_bind; [apply yields_try_ok; rewrite Hn; by apply (the_order_of_a_number w (ID o))|].
  unfold confirmPayment. eapply yields_bind; [apply yields_try_ok, get_runs; done|].
  eapply yields_bind.
  { apply yields_try. rewrite (surjective_pairing (run (getOrderProviderInstance o) w)).
    by rewrite getOrderProviderInstance_reads. }
  cbv zeta. fold (expected_key o w). fold (provider_mismatch o pk w). rewrite Hp, Hmd, Hpaid. cbn [isValidProviderAmount].
  rewrite (proj2 (Z.ltb_lt _ _)) by done. rewrite Hm. exact Hr.
Qed.

End Delivery.
