(* ===== verification/PaymentRecovery.v ===== *)
(** * Payments: a paid order is completed by the next notification

Whatever has happened since an order was made - a worker that died half-way, faults,
other calls at the same time - the next notification of its payment that runs to its
end completes it, and the user has been credited once. *)
From S2P Require Import Prelude GoText GoTime SubscriptionWindow Redis Programs Interleave PaymentStore PaymentProviders Redeem Payments PaymentLifecycle PaymentMoves PaymentSafety PaymentFlows PaymentDelivery.
From Stdlib Require Import Bool.

Local Open Scope string_scope.
Local Open Scope Z_scope.

Section Recovery.
Context `{GoUnicode, GoUpper} {Aff : Type}.
Notation World := (Store Aff).
Implicit Types w : World.

Lemma tolerance_nonneg c : 0 <= paymentAmountToleranceForCurrency c.
Proof.
  unfold paymentAmountToleranceForCurrency. cbv zeta. destruct (_ <=? 2); [done|].
  apply Z.div_pos; [|lia]. unfold grain. apply Z_div_nonneg_nonneg; [done|]. apply Z.pow_nonneg. lia.
Qed.

(** The order [oid], made as [o0], of which a payment of [a] is reported. *)
Context (oid : Z) (o0 : PaymentOrder) (a : Money) (Hcents : numeric2 a = a).

Definition payment_status (st : OrderStatus) : bool := negb (psIsRefundStatus st).

(** The order and its code are its own. *)
Definition own w : Prop :=
  map_Forall (fun id (o : PaymentOrder) => RechargeCode o = RechargeCode o0 \/ OutTradeNo o = OutTradeNo o0 -> id = oid)
    (orders w).

(** The order is as its payment needs it. *)
Definition awaiting w : Prop :=
  (exists o, orders w !! oid = Some o /\ order_spec o = order_spec o0 /\ amount_matches o a = true /\
             payment_status (Status o) = true /\ code_open o w) /\
  own w.

(** Only this payment is reported of it, and nobody else redeems its code. *)
Definition only_payment (id : Z) (a' : Money) : Prop := id = oid -> a' = a.
Definition other_codes (c : string) (u : Z) : Prop := c <> RechargeCode o0.

Lemma code_open_spec (o o' : PaymentOrder) w w' : order_spec o = order_spec o' ->
  redeem_codes w' !! RechargeCode o = redeem_codes w !! RechargeCode o -> code_open o w -> code_open o' w'.
Proof.
  intros Es Ec. unfold code_open. rewrite <- Es, Ec. destruct (redeem_codes w !! _); [|done].
  unfold validatePaymentRedeemCode. by rewrite Es.
Qed.

Lemma known_own (o : PaymentOrder) w : own w -> known o w ->
  (RechargeCode o = RechargeCode o0 \/ OutTradeNo o = OutTradeNo o0) -> ID o = oid.
Proof.
  intros Ho (cur & Hcur & Hs & _) Hc. apply (Ho _ _ Hcur). by rewrite Hs.
Qed.

Lemma known_spec (o : PaymentOrder) w u : known o w -> ID o = oid -> orders w !! oid = Some u -> order_spec o = order_spec u.
Proof. intros (cur & Hcur & Hs & _) Hid Hu. rewrite Hid in Hcur. by simplify_eq. Qed.

Lemma validate_used (o : PaymentOrder) r t : validatePaymentRedeemCode o r = Ok tt ->
  validatePaymentRedeemCode o (mark_used (UserID o) t r) = Ok tt.
Proof.
  unfold validatePaymentRedeemCode. cbn [Code Type_ Value CodeStatus UsedBy mark_used].
  destruct (negb (String.eqb (Code r) _)); [done|]. destruct (negb (String.eqb (Type_ r) _)); [done|].
  destruct (100 <? _); [done|]. intros _. cbn. by rewrite Z.eqb_refl.
Qed.

#[export] Instance awaiting_guard : Guard awaiting only_payment other_codes.
Proof.
  split.
  - intros w w' Eo Ec [(o & Ho & Hs & Hm & Hst & Hc) Hown]. unfold awaiting, own. rewrite Eo. split; [|done].
    exists o. split_and!; try done. apply (code_open_spec o o w); [done|by rewrite Ec|done].
  - intros w id o o' Hsd [(u & Hu & Hs & Hm & Hst & Hc) Hown] Ho Espec Hch. split.
    + destruct (decide (id = oid)) as [->|Hid]; [|exists u; cbn; by rewrite lookup_insert_ne].
      assert (u = o) as -> by congruence. exists o'. cbn. rewrite lookup_insert_eq.
      assert (Hco : code_open o' (with_orders (<[oid := o']> (orders w)) w)) by (by apply (code_open_spec o o' w)).
      pose proof (amount_matches_same o' o a Espec) as Hsame.
      destruct Hch as [E1 E2 E3|E1 E2|a' E1 E2 E3 E4 E5|E1 E2 E3 E4|E1 E2 E3 E4|E1 E2 E3].
      * split_and!; try done; [congruence|by rewrite Hsame|by destruct (Status o')].
      * split_and!; try done; [congruence|by rewrite Hsame|by rewrite E1].
      * rewrite (E3 (orders_keyed _ Hsd _ _ Ho)), Hcents in E5.
        split_and!; try done; [congruence| |by rewrite E4]. unfold amount_matches. rewrite E5, Z.sub_diag. cbn.
        apply Z.leb_le, tolerance_nonneg.
      * split_and!; try done; [congruence|by rewrite Hsame|by rewrite E3].
      * split_and!; try done; [congruence|by rewrite Hsame|by rewrite E3].
      * split_and!; try done; [congruence|by rewrite Hsame|by rewrite E2].
    + apply map_Forall_insert_2; [|done]. rewrite Espec. by apply (Hown id).
  - intros w o Hsd [(u & Hu & Hs & Hm & Hst & Hc) Hown] Hk _ Hn. split; [|done].
    exists u. split_and!; try done. destruct (decide (RechargeCode o = RechargeCode o0)) as [Ec|Ec].
    + pose proof (known_own o w Hown Hk (or_introl Ec)) as Hid. pose proof (known_spec o w u Hk Hid Hu) as Es.
      unfold code_open. cbn. rewrite <- Es, lookup_insert_eq. split; [|done].
      pose proof (validate_payment_code o) as Hv. unfold validatePaymentRedeemCode in *. by rewrite <- Es.
    + apply (code_open_spec u u w); [done| |done]. cbn. rewrite lookup_insert_ne; [done|]. by rewrite Hs.
  - intros w c u r t Hsd [(v & Hv & Hs & Hm & Hst & Hc) Hown] Hr Hus Hmay. split; [|done].
    exists v. split_and!; try done. destruct (decide (c = RechargeCode o0)) as [->|Hne].
    + destruct Hmay as [Hother|(o & Hk & _ & Ec & ->)]; [done|].
      pose proof (known_own o w Hown Hk (or_introl (eq_sym Ec))) as Hid. pose proof (known_spec o w v Hk Hid Hv) as Es.
      unfold code_open in *. cbn. rewrite Hs in Hc |- *. rewrite Hr in Hc. rewrite lookup_insert_eq.
      destruct Hc as [Hval He]. split; [|done]. rewrite Es. by apply validate_used.
    + apply (code_open_spec v v w); [done| |done]. cbn. rewrite lookup_insert_ne; [done|]. by rewrite Hs.
Qed.

(** What may happen between: any call, if gateways and notifications report only this
payment of the order, and users redeem only other codes. *)
Definition this_payment_only (h : Happening) : Prop :=
  match h with
  | Starts s c =>
      all_providers (answers_pay only_payment) (gateways s) /\
      match c with
      | Notified n _ => forall a', PaidAmount n = Num a' -> a' <> a ->
          OrderID n <> OutTradeNo o0 /\ forall e, parseLegacyPaymentOrderID (OrderID n) e <> Some oid
      | Redeemed _ code | AdminRedeemed _ code => code <> RechargeCode o0
      | _ => True
      end
  | Continues _ _ => True
  | Elsewhere g => forall w, sound w -> awaiting w -> (sound (g w) /\ awaiting (g w)) /\ moved w (g w)
  end.

Lemma this_payment_allowed h : this_payment_only h -> admissible awaiting only_payment other_codes h.
Proof.
  destruct h as [s c|i f|g]; [|done|by intros Hg w [? ?]; apply Hg].
  intros [Hg Hc]. split; [done|]. destruct c; try done. intros a' Ha'. split.
  - intros o w [Hs [(u & Hu & Hsp & _) _]] [(cur & Hcur & Hspec & _) _] Ht Hid.
    destruct (decide (a' = a)) as [|Hne]; [done|]. destruct (Hc a' Ha' Hne) as [Hnum _]. exfalso. apply Hnum.
    rewrite <- Ht. rewrite Hid, Hu in Hcur. injection Hcur as <-. by rewrite <- Hspec, Hsp.
  - intros e id He ->. destruct (decide (a' = a)) as [|Hne]; [done|]. destruct (Hc a' Ha' Hne) as [_ Hleg].
    by destruct (Hleg e).
Qed.

(** A notification of this payment. *)
Record notification_of (n : PaymentNotification) (pk : string) : Prop := mkNotificationOf {
  no_number : OrderID n = OutTradeNo o0;
  no_status : NotificationStatus n = NotificationStatusSuccess;
  no_paid : PaidAmount n = Num a;
  no_positive : 0 < a;
  no_metadata : validateProviderSnapshotMetadata o0 pk (Metadata n) = Ok tt
}.

(** No worker has a lease on the order, and it has not been expired for too long. *)
Definition unclaimed (o : PaymentOrder) w : Prop :=
  payable (Add (clock w) (- (paymentGraceMinutes * Minute))) o = true \/
  lease_free (lease_before (clock w)) o = true \/ Status o = OrderStatusCompleted.

Lemma unclaimed_ready (o : PaymentOrder) w : sound w -> orders w !! oid = Some o -> is_subscription o = false ->
  unclaimed o w -> ready o w.
Proof.
  intros Hs Ho Hty [Hp|[Hl|Hc]]; [by left| |].
  - right; left. split; [|done]. unfold lease_free in Hl. clear - Hl.
    destruct (Status o); first [reflexivity|vm_compute in Hl; discriminate Hl].
  - right; right. split; [done|]. pose proof (completed_delivered _ Hs oid o Ho Hc) as Hd. unfold delivered in Hd.
    by rewrite Hty in Hd.
Qed.

(** C7. A payment can be recovered. Take an order that is not for a subscription, with a
code and an amount above 10^-8, on which only this payment is reported, and any schedule
of notifications, retries, verifications, cancellations, sweeps and redemptions of other
codes, with workers that stop anywhere, refused statements and lost answers, other
writers moving the tables only as these calls do. Afterwards the order is still there,
and a further notification of its payment that runs alone to its end completes it: its
code is used by its user, who is credited now if that had not happened before, and not
again if it had. This needs that the order is unclaimed (pending, cancelled, expired
within the grace period, paid or failed or claimed by a lease that has run out, or
already completed), that the provider is the one of the order, that the lock of the code
is free, and that the rebate works. *)
Theorem redelivery_completes_the_order s n pk hs w x :
  sound w -> awaiting w -> Forall this_payment_only hs -> notification_of n pk ->
  is_subscription o0 = false -> RechargeCode o0 <> "" -> 100 < Amount o0 ->
  lock_acquired (redeem_cache s (RechargeCode o0)) = true -> rebate_works s ->
  let w1 := after hs w in
  users w1 !! UserID o0 = Some x ->
  exists o, orders w1 !! oid = Some o /\ order_spec o = order_spec o0 /\
    (unclaimed o w1 -> provider_mismatch s o pk w1 = false ->
     exists w', run (HandlePaymentNotification s n pk) w1 = (w', Ok tt) /\ finished o x w1 w').
Proof.
  intros Hw Ha Hhs [Hnum Hst Hpaid Hpos Hmd] Hty Hne Hamt Hlock Hreb w1 Hx.
  destruct (after_moved awaiting only_payment other_codes hs w) as [[Hs1 [(o & Ho & Es & Hm & Hps & Hc) Hown]] _]; [done| |].
  { eapply Forall_impl; [exact Hhs|]. apply this_payment_allowed. }
  fold w1 in Hs1, Ho, Hc, Hown. exists o. split_and!; [done..|]. intros Hun Hprov.
  pose proof (orders_keyed _ Hs1 _ _ Ho) as Hid. cbn in Hid.
  destruct (notification_runs s o n a pk x w1) as (w' & Hrun & Hfin); [| | |exists w'; split; [exact Hrun|exact Hfin]].
  - split; try done; rewrite ?Hid; try done.
    + by rewrite Hnum, Es.
    + intros id o' Ho' E. apply (Hown id o' Ho'). right. by rewrite E, Es.
    + unfold validateProviderSnapshotMetadata, psOrderProviderSnapshot in *. by rewrite Es.
  - split; rewrite ?Es; try done. rewrite <- Es. exact (codes_trimmed _ Hs1 _ _ Ho).
  - apply unclaimed_ready; [done..|by rewrite Es|done].
Qed.

End Recovery.
