(* ===== verification/PaymentExamples.v ===== *)
(** * Payments: examples

One recharge of 10 CNY and its notification, run through the theorems of
[PaymentFlows] and [PaymentRecovery]: its delivery, a worker that stops half-way, and
a redelivery after the lease of that worker. *)
From S2P Require Import Prelude GoText GoTime SubscriptionWindow Redis Programs Interleave PaymentStore PaymentProviders Redeem Payments PaymentLifecycle PaymentMoves PaymentSafety PaymentFlows PaymentDelivery PaymentRecovery.
From Stdlib Require Import Bool.

Local Open Scope string_scope.
Local Open Scope Z_scope.

#[local] Instance AsciiUpper : GoUpper := { upper_slow := to_upper_ascii }.

Definition ex_now : Time := Date 2026 1 15 + 12 * Hour.

Definition ex_order : PaymentOrder :=
  mkOrder (mkOrderSpec 7 1 (10 * unit_) "PAY7" "sub2_abc" "alipay" OrderTypeBalance None None ∅
             (ex_now + 30 * Minute) ex_now)
    (mkOrderPayment (10 * unit_) "" None None None)
    (mkOrderRefund 0 None None false None None None)
    OrderStatusPending None None None ex_now.

Definition ex_store : Store unit :=
  mkStore {[7 := ex_order]} ∅ ∅ {[1 := mkUser (3 * unit_) (5 * unit_) 5]} ∅ ∅ ∅ tt ex_now [].

Definition ex_services : Services (Aff := unit) :=
  mkServices (mkRedeemPeers (fun _ _ _ t => Ok t) None) (fun _ => mkRedeemCache true (Some 0))
    (mkGateways ∅ true (fun _ => Err (ErrMsg "no gateway"))) (Ok tt).

Definition ex_paid (a : Money) : PaymentNotification :=
  mkNotification "T1" "sub2_abc" (Num a) NotificationStatusSuccess ∅.

Definition ex_notified (a : Money) : Happening (Aff := unit) := Starts ex_services (Notified (ex_paid a) "alipay").

(** The first worker runs [n] statements. *)
Definition ex_steps (n : nat) : list (Happening (Aff := unit)) := repeat (Continues 0 None) n.

Lemma ex_sound : sound ex_store.
Proof.
  split; cbn; repeat match goal with |- map_Forall _ ∅ => apply map_Forall_empty | |- map_Forall _ {[_ := _]} =>
    apply map_Forall_singleton end; try done.
  split; [done|]. by exists (5 * 100000000).
Qed.

Example one_delivery : let w := after (ex_notified (10 * unit_) :: ex_steps 40) ex_store in
  (Status <$> orders w !! 7, users w !! 1) = (Some OrderStatusCompleted, Some (mkUser (13 * unit_) (15 * unit_) 5)).
Proof. vm_compute. reflexivity. Qed.

(** The redemption takes effect and its answer is lost; a second notification runs. *)
Definition ex_lost : list (Happening (Aff := unit)) :=
  (ex_notified (10 * unit_) :: ex_steps 17 ++ [Continues 0 (Some (AnswerLost "reset"))] ++ ex_steps 4
   ++ [ex_notified (10 * unit_)] ++ repeat (Continues 1 None) 40)%list.

Lemma repeat_Forall {A} (P : A -> Prop) x n : P x -> Forall P (repeat x n).
Proof. intros Hx. induction n; by constructor. Qed.

Lemma ex_lost_goes : Forall anything_goes ex_lost.
Proof.
  unfold ex_lost, ex_steps. rewrite Forall_cons, !Forall_app, !Forall_singleton.
  split_and!; [done|by apply repeat_Forall|done|by apply repeat_Forall|done|by apply repeat_Forall].
Qed.

Example recharges_witness :
  (let w' := after ex_lost ex_store in
   (forall u, recharged u w' = recharged u ex_store + (credits u (redeem_codes w') - credits u (redeem_codes ex_store))) /\
   (forall c r, redeem_codes ex_store !! c = Some r -> CodeStatus r = StatusUsed -> redeem_codes w' !! c = Some r) /\
   (forall id o, orders ex_store !! id = Some o -> exists o', orders w' !! id = Some o' /\ order_spec o' = order_spec o)) /\
  recharged 1 (after ex_lost ex_store) = 15 * unit_.
Proof. split; [apply recharges_are_used_codes; [apply ex_sound|apply ex_lost_goes]|vm_compute; reflexivity]. Defined.

Definition ex_final : PaymentOrder := default ex_order (orders (after ex_lost ex_store) !! 7).

Example completed_witness : Status ex_final = OrderStatusCompleted /\ delivered ex_final (after ex_lost ex_store).
Proof.
  split; [vm_compute; reflexivity|].
  apply (completed_orders_are_delivered ex_lost ex_store 7);
    [apply ex_sound|apply ex_lost_goes|vm_compute; reflexivity..].
Defined.

(** A payment of another amount, retries, a sweep and a verification. *)
Definition ex_unpaid : list (Happening (Aff := unit)) :=
  ([ex_notified (9 * unit_); Starts ex_services (Retried 7); Starts ex_services Swept;
    Starts ex_services (Verified "sub2_abc" 1); Starts ex_services (Cancelled 7 1)]
   ++ flat_map (fun i => repeat (Continues i None) 12) (seq 0 5))%list.

Lemma ex_gateways P : all_providers P (gateways ex_services).
Proof. split; [apply map_Forall_empty|done]. Qed.

Lemma ex_unpaid_goes : Forall (without_payment 7 ex_order) ex_unpaid.
Proof.
  unfold ex_unpaid. apply Forall_app. split.
  - repeat (apply Forall_cons; split; [split; [apply ex_gateways|]|]); try done.
    intros a [= <-] Hm. vm_compute in Hm. discriminate Hm.
  - cbn [seq flat_map]. repeat (apply Forall_app; split); (apply repeat_Forall || apply Forall_nil); done.
Qed.

Example unpaid_witness :
  ((exists o, orders (after ex_unpaid ex_store) !! 7 = Some o /\ started (Status o) = false) /\
   redeem_codes (after ex_unpaid ex_store) !! "PAY7" = None) /\
  Status <$> orders (after ex_unpaid ex_store) !! 7 = Some OrderStatusCancelled.
Proof.
  split; [|vm_compute; reflexivity]. apply (unpaid_orders_are_not_credited 7 ex_order).
  - apply ex_sound.
  - split; [by exists ex_order|]. split; [done|]. by apply map_Forall_singleton.
  - apply ex_unpaid_goes.
Defined.

(** A worker stops after the credit; its lease runs out. *)
Definition ex_crash : list (Happening (Aff := unit)) :=
  (ex_notified (10 * unit_) :: ex_steps 19 ++ [Elsewhere (with_clock (ex_now + 6 * Minute))])%list.

Lemma ex_awaiting : awaiting 7 ex_order (10 * unit_) ex_store.
Proof.
  split.
  - exists ex_order. split_and!; done.
  - apply map_Forall_singleton. done.
Qed.

Lemma with_clock_aside t (w : Store unit) : aside w (with_clock t w).
Proof. by repeat split. Qed.

Lemma ex_crash_goes : Forall (this_payment_only 7 ex_order (10 * unit_)) ex_crash.
Proof.
  unfold ex_crash. apply Forall_cons. split; [split; [apply ex_gateways|]|apply Forall_app; split].
  - intros a [= <-] Hne. by destruct Hne.
  - by apply repeat_Forall.
  - apply Forall_singleton. intros w Hw Ha. pose proof (with_clock_aside (ex_now + 6 * Minute) w) as Hs.
    split_and!; [by apply (aside_sound w)|exact Ha|by apply aside_moved].
Qed.

Definition ex_stopped : PaymentOrder := default ex_order (orders (after ex_crash ex_store) !! 7).

Example redelivery_witness :
  Status ex_stopped = OrderStatusRecharging /\
  exists w', run (HandlePaymentNotification ex_services (ex_paid (10 * unit_)) "alipay") (after ex_crash ex_store) = (w', Ok tt) /\
    finished ex_stopped (mkUser (13 * unit_) (15 * unit_) 5) (after ex_crash ex_store) w'.
Proof.
  split; [vm_compute; reflexivity|].
  destruct (redelivery_completes_the_order 7 ex_order (10 * unit_) eq_refl ex_services (ex_paid (10 * unit_)) "alipay"
              ex_crash ex_store (mkUser (13 * unit_) (15 * unit_) 5)) as (o & Ho & _ & Hrun).
  - apply ex_sound.
  - apply ex_awaiting.
  - apply ex_crash_goes.
  - split; [done..|vm_compute; reflexivity].
  - reflexivity.
  - discriminate.
  - vm_compute; reflexivity.
  - reflexivity.
  - exact I.
  - vm_compute; reflexivity.
  - assert (o = ex_stopped) as -> by (unfold ex_stopped; by rewrite Ho).
    apply Hrun; [|vm_compute; reflexivity]. right; left. vm_compute. reflexivity.
Defined.
