(* ===== verification/PaymentMethods.v ===== *)
(** * Payment methods and the choice of an instance

What a user may pay with, within which limits, and the provider instance that an
order goes to: [service/payment_visible_method_instances.go],
[service/payment_config_limits.go], the sources of a method in
[service/payment_resume_service.go], and [payment/load_balancer.go].  The decoded
configuration and limits of an instance, columns that hold JSON, and the settings are
inputs. *)
From S2P Require Import Prelude GoText GoTime SubscriptionWindow Redis Programs Interleave PaymentStore PaymentProviders.
From Stdlib Require Import Bool.

Local Open Scope string_scope.
Local Open Scope Z_scope.

Record ChannelLimits : Type := mkChannelLimits { DailyLimit : Money; SingleMin : Money; SingleMax : Money }.

Definition no_limits : ChannelLimits := mkChannelLimits 0 0 0.

Notation InstanceLimits := (gmap string ChannelLimits).

Definition ErrSettingNotFound : goerr := ErrMsg "setting not found".

(** The value of a setting; the configuration of an instance, none if it is empty or
cannot be read; its limits, none if there are none or they cannot be read. *)
Record MethodSettings : Type := mkMethodSettings {
  setting_value : string -> res string;
  instance_config : PaymentProviderInstance -> option (gmap string string);
  instance_limits : PaymentProviderInstance -> option InstanceLimits
}.

Definition VisibleMethodSourceOfficialAlipay := "official_alipay".
Definition VisibleMethodSourceEasyPayAlipay := "easypay_alipay".
Definition VisibleMethodSourceOfficialWechat := "official_wxpay".
Definition VisibleMethodSourceEasyPayWechat := "easypay_wxpay".
Definition SettingPaymentVisibleMethodAlipaySource := "payment_visible_method_alipay_source".
Definition SettingPaymentVisibleMethodWxpaySource := "payment_visible_method_wxpay_source".

Definition ErrInvalidSource : goerr := ErrApp 400 "INVALID_PAYMENT_VISIBLE_METHOD_SOURCE".

Definition one_of (s : string) (l : list string) : bool := existsb (String.eqb s) l.

Section Methods.
Context `{GoUnicode, GoUpper}.
Notation Instance_ := PaymentProviderInstance.

Definition splitTypes (s : string) : list string :=
  if String.eqb s "" then []
  else List.filter (fun p => negb (String.eqb p "")) (map TrimSpace (split_at "," s)).

Definition NormalizeVisibleMethod (method : string) : string := GetBasePaymentType (TrimSpace method).

(** ** The source of a method *)

Definition NormalizeVisibleMethodSource (method source : string) : string :=
  let source := TrimSpace (ToLower source) in
  let method := NormalizeVisibleMethod method in
  if String.eqb method TypeAlipay then
    if one_of source [VisibleMethodSourceOfficialAlipay; TypeAlipay; TypeAlipayDirect; "official"]
    then VisibleMethodSourceOfficialAlipay
    else if one_of source [VisibleMethodSourceEasyPayAlipay; TypeEasyPay] then VisibleMethodSourceEasyPayAlipay
    else ""
  else if String.eqb method TypeWxpay then
    if one_of source [VisibleMethodSourceOfficialWechat; TypeWxpay; TypeWxpayDirect; "wechat"; "official"]
    then VisibleMethodSourceOfficialWechat
    else if one_of source [VisibleMethodSourceEasyPayWechat; TypeEasyPay] then VisibleMethodSourceEasyPayWechat
    else ""
  else "".

Definition VisibleMethodProviderKeyForSource (method source : string) : string * bool :=
  let normalized := NormalizeVisibleMethodSource method source in
  let for_ t := String.eqb (NormalizeVisibleMethod method) t in
  if String.eqb normalized VisibleMethodSourceOfficialAlipay then (TypeAlipay, for_ TypeAlipay)
  else if String.eqb normalized VisibleMethodSourceEasyPayAlipay then (TypeEasyPay, for_ TypeAlipay)
  else if String.eqb normalized VisibleMethodSourceOfficialWechat then (TypeWxpay, for_ TypeWxpay)
  else if String.eqb normalized VisibleMethodSourceEasyPayWechat then (TypeEasyPay, for_ TypeWxpay)
  else ("", false).

Definition normalizeVisibleMethodSettingSource (method source : string) : res string :=
  let source := TrimSpace source in
  if String.eqb source "" then Ok ""
  else
    let normalized := NormalizeVisibleMethodSource method source in
    if String.eqb normalized "" then Err ErrInvalidSource else Ok normalized.

Definition visibleMethodSourceSettingKey (method : string) : string :=
  let method := NormalizeVisibleMethod method in
  if String.eqb method TypeAlipay then SettingPaymentVisibleMethodAlipaySource
  else if String.eqb method TypeWxpay then SettingPaymentVisibleMethodWxpaySource
  else "".

(** ** The instances of a method *)

(** The methods that an instance of the provider offers, as a set. *)
Definition method_set (providerKey supportedTypes : string) : gset string :=
  let key := TrimSpace providerKey in
  let official t :=
    if String.eqb (TrimSpace supportedTypes) "" then {[t]}
    else if existsb (fun x => String.eqb (NormalizeVisibleMethod x) t) (splitTypes supportedTypes) then {[t]}
    else ∅ in
  if String.eqb key TypeAlipay then official TypeAlipay
  else if String.eqb key TypeWxpay then official TypeWxpay
  else if String.eqb key TypeEasyPay then
    list_to_set (List.filter (fun m => negb (String.eqb m "")) (map NormalizeVisibleMethod (splitTypes supportedTypes)))
  else ∅.

(** Each method of the set once, in the order of [l]. *)
Fixpoint pick_methods (l : list string) (set : gset string) : list string :=
  match l with
  | [] => []
  | m :: l => if decide (m ∈ set) then m :: pick_methods l (set ∖ {[m]}) else pick_methods l set
  end.

Definition enabledVisibleMethodsForProvider (providerKey supportedTypes : string) : list string :=
  pick_methods ([TypeAlipay; TypeWxpay] ++ map NormalizeVisibleMethod (splitTypes supportedTypes))%list
    (method_set providerKey supportedTypes).

Definition providerSupportsVisibleMethod (inst : Instance_) (method : string) : bool :=
  Enabled inst &&
  one_of (NormalizeVisibleMethod method)
    (enabledVisibleMethodsForProvider (InstanceProviderKey inst) (SupportedTypes inst)).

Definition filterEnabledVisibleMethodInstances (instances : list Instance_) (method : string) : list Instance_ :=
  List.filter (fun i => providerSupportsVisibleMethod i method) instances.

Definition has_key (key : string) (i : Instance_) : bool :=
  EqualFold (TrimSpace (InstanceProviderKey i)) (TrimSpace key).

Definition filterVisibleMethodInstancesByProviderKey (instances : list Instance_) (method providerKey : string)
    : list Instance_ :=
  List.filter (fun i => providerSupportsVisibleMethod i method && has_key providerKey i) instances.

Fixpoint distinct_keys (seen : list string) (instances : list Instance_) : list string :=
  match instances with
  | [] => []
  | i :: l =>
      let key := TrimSpace (InstanceProviderKey i) in
      if String.eqb key "" || one_of (ToLower key) seen then distinct_keys seen l
      else key :: distinct_keys (ToLower key :: seen) l
  end.

Definition distinctVisibleMethodProviderKeys (instances : list Instance_) : list string := distinct_keys [] instances.

Definition selectVisibleMethodInstanceByProviderKey (instances : list Instance_) (providerKey : string)
    : option Instance_ :=
  if String.eqb (TrimSpace providerKey) "" then None else find (has_key providerKey) instances.

Context (cfg : MethodSettings).

Definition resolveVisibleMethodSourceProviderKey (method : string) : res string :=
  let method := NormalizeVisibleMethod method in
  let sourceKey := visibleMethodSourceSettingKey method in
  let raw :=
    if String.eqb sourceKey "" then Ok ""
    else
      match setting_value cfg sourceKey with
      | Ok value => Ok value
      | Err e => if errors_Is e ErrSettingNotFound then Ok "" else Err (ErrWrap "get source" e)
      end in
  match raw with
  | Err e => Err e
  | Ok rawSource =>
      match normalizeVisibleMethodSettingSource method rawSource with
      | Err e => Err e
      | Ok normalizedSource =>
          if String.eqb normalizedSource "" then Ok ""
          else
            let '(providerKey, ok) := VisibleMethodProviderKeyForSource method normalizedSource in
            if ok then Ok providerKey else Err ErrInvalidSource
      end
  end.

Definition resolveVisibleMethodProviderKey (method : string) (matching : list Instance_) : res string :=
  match distinctVisibleMethodProviderKeys matching with
  | [] => Ok ""
  | [key] => Ok (TrimSpace key)
  | _ =>
      match resolveVisibleMethodSourceProviderKey method with
      | Err e => Err e
      | Ok providerKey =>
          if String.eqb providerKey "" then Ok ""
          else
            match selectVisibleMethodInstanceByProviderKey matching providerKey with
            | None => Err ErrInvalidSource
            | Some selected => Ok (TrimSpace (InstanceProviderKey selected))
            end
      end
  end.

(** The instance that stands for a method: none; the provider key that it must have;
or, with an empty key, any. *)
Definition resolve_enabled_instance (method : string) (instances : list Instance_) : res (option string) :=
  let method := NormalizeVisibleMethod method in
  if String.eqb method "" then Ok None
  else
    let matching := filterEnabledVisibleMethodInstances instances method in
    match resolveVisibleMethodProviderKey method matching with
    | Err e => Err e
    | Ok providerKey =>
        if String.eqb providerKey "" then Ok (match matching with [] => None | _ => Some "" end)
        else Ok (InstanceProviderKey <$> selectVisibleMethodInstanceByProviderKey matching providerKey)
    end.

(** *** Grouping *)

(** The instances of each payment type, in the order of [instances]; each once. *)
Definition add_to_group (key : string) (inst : Instance_) (m : gmap string (list Instance_)) : gmap string (list Instance_) :=
  let group := default [] (m !! key) in
  if existsb (fun i => InstanceID i =? InstanceID inst) group then m else <[key := (group ++ [inst])%list]> m.

Definition pcGroupByPaymentType (instances : list Instance_) : gmap string (list Instance_) :=
  foldl (fun m inst =>
    if String.eqb (InstanceProviderKey inst) TypeStripe then add_to_group TypeStripe inst m
    else foldl (fun m t => add_to_group t inst m) m (splitTypes (SupportedTypes inst))) ∅ instances.

Definition apply_visible_method (instances : list Instance_) (filtered : gmap string (list Instance_)) (method : string)
    : gmap string (list Instance_) :=
  let matching := filterEnabledVisibleMethodInstances instances method in
  match resolveVisibleMethodProviderKey method matching with
  | Err _ => delete method filtered
  | Ok providerKey =>
      if String.eqb providerKey "" then
        match matching with [] => delete method filtered | _ => <[method := matching]> filtered end
      else
        match filterVisibleMethodInstancesByProviderKey instances method providerKey with
        | [] => delete method filtered
        | selectedInstances => <[method := selectedInstances]> filtered
        end
  end.

Definition pcApplyEnabledVisibleMethodInstances (typeInstances : gmap string (list Instance_)) (instances : list Instance_)
    : gmap string (list Instance_) :=
  if decide (typeInstances = ∅) then typeInstances
  else foldl (apply_visible_method instances) typeInstances [TypeAlipay; TypeWxpay].

(** *** Currencies *)

Definition paymentProviderConfigCurrency (providerKey : string) (config : gmap string string) : string :=
  if one_of (TrimSpace providerKey) [TypeStripe; TypeAirwallex] then
    match NormalizePaymentCurrency (default "" (config !! "currency")) with
    | Ok currency => currency
    | Err _ => DefaultPaymentCurrency
    end
  else DefaultPaymentCurrency.

Definition pcInstancePaymentCurrency (inst : Instance_) : string :=
  paymentProviderConfigCurrency (InstanceProviderKey inst) (default ∅ (instance_config cfg inst)).

Fixpoint aggregate_currency (currency : string) (instances : list Instance_) : option string :=
  match instances with
  | [] => Some (if String.eqb currency "" then DefaultPaymentCurrency else currency)
  | inst :: l =>
      let next := pcInstancePaymentCurrency inst in
      if String.eqb next "" then aggregate_currency currency l
      else if String.eqb currency "" then aggregate_currency next l
      else if String.eqb currency next then aggregate_currency currency l
      else None
  end.

Definition pcAggregateMethodCurrency (instances : list Instance_) : option string := aggregate_currency "" instances.

(** *** Limits *)

Record MethodLimits : Type := mkMethodLimits {
  ml_type : string;
  ml_currency : string;
  ml_limits : ChannelLimits
}.

Definition pcInstanceTypeLimits (inst : Instance_) (pt : string) : option ChannelLimits :=
  match instance_limits cfg inst with Some limits => limits !! pt | None => None end.

(** The wider of two bounds; a zero is no bound.  The flag tells whether there is
still one. *)
Definition unionFloat (agg : Money) (limited : bool) (val : Money) (wantMin : bool) : Money * bool :=
  if val =? 0 then (agg, false)
  else if negb limited then (agg, false)
  else if agg =? 0 then (val, true)
  else if wantMin && (val <? agg) then (val, true)
  else if negb wantMin && (agg <? val) then (val, true)
  else (agg, true).

Definition unlimited_is_zero (x : Money * bool) : Money := if x.2 then x.1 else 0.

Fixpoint aggregate_limits (pt : string) (instances : list Instance_) (mn mx daily : Money * bool)
    : option ((Money * bool) * (Money * bool) * (Money * bool)) :=
  match instances with
  | [] => Some (mn, mx, daily)
  | inst :: l =>
      match pcInstanceTypeLimits inst pt with
      | None => None
      | Some cl =>
          aggregate_limits pt l (unionFloat mn.1 mn.2 (SingleMin cl) true) (unionFloat mx.1 mx.2 (SingleMax cl) false)
            (unionFloat daily.1 daily.2 (DailyLimit cl) false)
      end
  end.

Definition pcAggregateMethodLimits (pt : string) (instances : list Instance_) : ChannelLimits :=
  match aggregate_limits pt instances (0, true) (0, true) (0, true) with
  | None => no_limits
  | Some (mn, mx, daily) =>
      mkChannelLimits (unlimited_is_zero daily) (unlimited_is_zero mn) (unlimited_is_zero mx)
  end.

(** Go visits the methods in any order. *)
Definition pcComputeGlobalRange (methods : list MethodLimits) : Money * Money :=
  let '(mn, mx) := foldl (fun '(mn, mx) ml =>
    (unionFloat mn.1 mn.2 (SingleMin (ml_limits ml)) true, unionFloat mx.1 mx.2 (SingleMax (ml_limits ml)) false))
    ((0, true), (0, true)) methods in
  (unlimited_is_zero mn, unlimited_is_zero mx).

(** The limits of a method, unless its instances disagree on the currency.  The
display names of methods are left out. *)
Definition method_limits (pt : string) (instances : list Instance_) : option MethodLimits :=
  match pcAggregateMethodCurrency instances with
  | Some currency => Some (mkMethodLimits pt currency (pcAggregateMethodLimits pt instances))
  | None => None
  end.

Context {Aff : Type}.
Notation World := (Store Aff).

Definition GetAvailableMethodLimits : Act World (gmap string MethodLimits * (Money * Money)) :=
  let* instances := awrap "query provider instances" (instances_where Enabled) in
  let typeInstances := pcApplyEnabledVisibleMethodInstances (pcGroupByPaymentType instances) instances in
  let methods := map_imap method_limits typeInstances in
  aret (methods, pcComputeGlobalRange (map snd (map_to_list methods))).

Definition GetMethodLimits (types : list string) : Act World (list MethodLimits) :=
  let* instances := awrap "query provider instances" (instances_where Enabled) in
  aret (omap (fun pt => method_limits pt (List.filter (fun i => InstanceSupportsType (SupportedTypes i) pt) instances)) types).

Definition ValidateMethodCurrencyConsistency (paymentType : string) : Act World string :=
  let method := NormalizeVisibleMethod paymentType in
  if String.eqb method "" then aret DefaultPaymentCurrency
  else
    let* instances := awrap "query provider instances" (instances_where Enabled) in
    let typeInstances := pcApplyEnabledVisibleMethodInstances (pcGroupByPaymentType instances) instances in
    match default [] (typeInstances !! method) with
    | [] => aret DefaultPaymentCurrency
    | matching =>
        match pcAggregateMethodCurrency matching with
        | Some currency => aret currency
        | None => afail (ErrApp 503 "PAYMENT_METHOD_CURRENCY_CONFLICT")
        end
    end.

Definition resolveEnabledVisibleMethodInstance (method : string) : Act World (option string) :=
  if String.eqb (NormalizeVisibleMethod method) "" then aret None
  else
    let* instances := awrap "query enabled payment providers" (instances_where Enabled) in
    match resolve_enabled_instance method (stable_sort sort_order_less instances) with
    | Ok r => aret r
    | Err e => afail e
    end.

End Methods.

(** ** Limits of a method: the widest of its instances *)

Definition union_all (wantMin : bool) (st : Money * bool) (vals : list Money) : Money * bool :=
  foldl (fun st v => unionFloat st.1 st.2 v wantMin) st vals.

(** Whether [x] is at least as wide as [v]. *)
Definition as_wide (wantMin : bool) (x v : Money) : Prop := if wantMin then x <= v else v <= x.

Lemma union_step wantMin agg v : 0 <= agg -> 0 < v ->
  exists x, unionFloat agg true v wantMin = (x, true) /\ 0 < x /\ (x = v \/ x = agg) /\ as_wide wantMin x v /\
    (0 < agg -> as_wide wantMin x agg).
Proof.
  intros Ha Hv. unfold unionFloat, as_wide. rewrite (proj2 (Z.eqb_neq v 0)) by lia. cbn [negb].
  destruct (agg =? 0) eqn:E0; [exists v; apply Z.eqb_eq in E0; destruct wantMin; split_and!; auto; lia|].
  apply Z.eqb_neq in E0. destruct wantMin; cbn [andb negb].
  - destruct (v <? agg) eqn:E; [exists v|exists agg]; apply Z.ltb_lt in E || apply Z.ltb_ge in E; split_and!; auto; lia.
  - destruct (agg <? v) eqn:E; [exists v|exists agg]; apply Z.ltb_lt in E || apply Z.ltb_ge in E; split_and!; auto; lia.
Qed.

Lemma union_unlimited wantMin vals agg : (union_all wantMin (agg, false) vals).2 = false.
Proof.
  revert agg. induction vals as [|v vals IH]; intros agg; [done|]. cbn. unfold unionFloat at 2. cbn [negb].
  destruct (v =? 0); apply IH.
Qed.

(** A zero anywhere means no bound; without one the result is the widest value. *)
Lemma union_all_spec wantMin vals agg : 0 <= agg -> Forall (fun v => 0 <= v) vals ->
  let x := unlimited_is_zero (union_all wantMin (agg, true) vals) in
  (0 ∈ vals -> x = 0) /\
  (0 ∉ vals -> (x = agg \/ x ∈ vals) /\ Forall (as_wide wantMin x) vals /\ (0 < agg -> as_wide wantMin x agg) /\
     (vals <> [] -> 0 < x)).
Proof.
  revert agg. induction vals as [|v vals IH]; intros agg Ha Hv; cbv zeta.
  - split; [by intros ?%not_elem_of_nil|]. intros _. split_and!; [by left|constructor| |done].
    intros _. unfold as_wide. cbn. destruct wantMin; lia.
  - apply Forall_cons in Hv as [Hv Hvs]. cbn [union_all foldl fst snd]. destruct (decide (v = 0)) as [->|Hne].
    + assert (Hz : unlimited_is_zero (foldl (fun st v => unionFloat st.1 st.2 v wantMin) (agg, false) vals) = 0).
      { unfold unlimited_is_zero. pose proof (union_unlimited wantMin vals agg) as Hu. unfold union_all in Hu. by rewrite Hu. }
      split; [intros _; exact Hz|]. intros Hn. exfalso. apply Hn. by left.
    + destruct (union_step wantMin agg v Ha) as (x & -> & Hx & Hor & Hw & Hwa); [lia|].
      destruct (IH x) as [IHz IHn]; [lia|done|]. cbv zeta in IHz, IHn. fold (union_all wantMin (x, true) vals). split.
      * intros [?|Hin]%elem_of_cons; [done|by apply IHz].
      * intros Hn%not_elem_of_cons. destruct Hn as [_ Hn]. destruct (IHn Hn) as (Hin & Hall & Hagg & Hpos).
        set (y := unlimited_is_zero _) in *. assert (Hy : as_wide wantMin y x) by auto.
        assert (Hpy : 0 < y) by (destruct vals; [destruct Hin as [->|?%not_elem_of_nil]; [done|done]|by apply Hpos]).
        assert (Htr : forall z, as_wide wantMin x z -> as_wide wantMin y z) by (unfold as_wide in *; destruct wantMin; lia).
        split_and!; [|constructor; auto|auto|done].
        destruct Hin as [->|Hin]; [destruct Hor as [-> | ->]; [right; by left|by left]|right; by right].
Qed.

Section MethodFacts.
Context (cfg : MethodSettings).

Definition limits_of_all (pt : string) (instances : list PaymentProviderInstance) : option (list ChannelLimits) :=
  mapM (fun i => pcInstanceTypeLimits cfg i pt) instances.

Lemma aggregate_limits_spec pt instances mn mx daily :
  aggregate_limits cfg pt instances mn mx daily =
  (fun l => (union_all true mn (map SingleMin l), union_all false mx (map SingleMax l), union_all false daily (map DailyLimit l)))
    <$> limits_of_all pt instances.
Proof.
  revert mn mx daily. induction instances as [|i l IH]; intros mn mx daily; [done|]. cbn.
  destruct (pcInstanceTypeLimits cfg i pt) as [cl|]; [|done]. cbn. rewrite IH.
  unfold limits_of_all. by destruct (mapM _ l).
Qed.

(** What a single payment is allowed to be. *)
Definition in_range (cl : ChannelLimits) (a : Money) : Prop :=
  (0 < SingleMin cl -> SingleMin cl <= a) /\ (0 < SingleMax cl -> a <= SingleMax cl).

(** The range that a user is shown for a method admits whatever some instance admits,
and each of its bounds is the bound of an instance. *)
Theorem method_limits_are_the_union pt instances :
  Forall (fun i => match pcInstanceTypeLimits cfg i pt with
                   | Some cl => 0 <= SingleMin cl /\ 0 <= SingleMax cl /\ 0 <= DailyLimit cl | None => True end) instances ->
  let cl := pcAggregateMethodLimits cfg pt instances in
  (forall i c a, i ∈ instances -> pcInstanceTypeLimits cfg i pt = Some c -> in_range c a -> in_range cl a) /\
  (SingleMin cl <> 0 -> exists i c, i ∈ instances /\ pcInstanceTypeLimits cfg i pt = Some c /\ SingleMin c = SingleMin cl) /\
  (SingleMax cl <> 0 -> exists i c, i ∈ instances /\ pcInstanceTypeLimits cfg i pt = Some c /\ SingleMax c = SingleMax cl).
Proof.
  intros Hpos. cbv zeta. unfold pcAggregateMethodLimits. rewrite aggregate_limits_spec.
  destruct (limits_of_all pt instances) as [l|] eqn:El; cbn [fmap option_fmap option_map].
  2: { split_and!; [|done|done]. intros i c a _ _ _. split; cbn; lia. }
  apply mapM_Some in El.
  assert (Hin : forall c, c ∈ l -> exists i, i ∈ instances /\ pcInstanceTypeLimits cfg i pt = Some c).
  { intros c Hc. apply list_elem_of_lookup in Hc as [k Hk].
    destruct (Forall2_lookup_r _ _ _ _ _ El Hk) as (i & Hi & Hl). exists i. split; [by eapply list_elem_of_lookup_2|done]. }
  assert (Hout : forall i c, i ∈ instances -> pcInstanceTypeLimits cfg i pt = Some c -> c ∈ l).
  { intros i c Hi Hc. apply list_elem_of_lookup in Hi as [k Hk].
    destruct (Forall2_lookup_l _ _ _ _ _ El Hk) as (c' & Hc' & Hl).
    assert (c = c') as -> by congruence. by eapply list_elem_of_lookup_2. }
  assert (Hnn : forall f : ChannelLimits -> Money,
    (forall c, 0 <= SingleMin c /\ 0 <= SingleMax c /\ 0 <= DailyLimit c -> 0 <= f c) -> Forall (fun v => 0 <= v) (map f l)).
  { intros f Hf. apply List.Forall_map. apply Forall_forall. intros c Hc. destruct (Hin c Hc) as (i & Hi & Hl).
    rewrite Forall_forall in Hpos. specialize (Hpos i Hi). rewrite Hl in Hpos. by apply Hf. }
  pose proof (union_all_spec true (map SingleMin l) 0 ltac:(lia) (Hnn SingleMin ltac:(tauto))) as [Hz1 Hn1].
  pose proof (union_all_spec false (map SingleMax l) 0 ltac:(lia) (Hnn SingleMax ltac:(tauto))) as [Hz2 Hn2].
  cbv zeta in *. set (mn := unlimited_is_zero (union_all true (0, true) (map SingleMin l))) in *.
  set (mx := unlimited_is_zero (union_all false (0, true) (map SingleMax l))) in *.
  cbn [SingleMin SingleMax].
  assert (Hpick : forall f x, (x = 0 \/ x ∈ map f l) -> x <> 0 ->
    exists i c, i ∈ instances /\ pcInstanceTypeLimits cfg i pt = Some c /\ f c = x).
  { intros f x [?|Hx] Hne; [done|]. apply list_elem_of_fmap in Hx as (c & -> & Hc).
    destruct (Hin c Hc) as (i & Hi & Hl). by exists i, c. }
  split_and!.
  - intros i c a Hi Hc [H1 H2]. specialize (Hout i c Hi Hc). split; cbn.
    + intros Hm. destruct (decide (0 ∈ map SingleMin l)) as [Hz|Hz]; [specialize (Hz1 Hz); fold mn in Hm; lia|].
      destruct (Hn1 Hz) as (_ & Hall & _). rewrite Forall_forall in Hall.
      assert (Hle : mn <= SingleMin c) by (apply (Hall (SingleMin c)), list_elem_of_fmap; by exists c).
      fold mn in Hm. fold mn. lia.
    + intros Hm. destruct (decide (0 ∈ map SingleMax l)) as [Hz|Hz]; [specialize (Hz2 Hz); fold mx in Hm; lia|].
      destruct (Hn2 Hz) as (_ & Hall & _). rewrite Forall_forall in Hall.
      assert (Hin' : SingleMax c ∈ map SingleMax l) by (apply list_elem_of_fmap; by exists c).
      pose proof (Hall (SingleMax c) Hin') as Hle. unfold as_wide in Hle.
      assert (SingleMax c <> 0) by congruence.
      rewrite Forall_forall in Hpos. specialize (Hpos i Hi). rewrite Hc in Hpos. fold mx. lia.
  - apply (Hpick SingleMin). destruct (decide (0 ∈ map SingleMin l)); [left; auto|]. by apply Hn1.
  - apply (Hpick SingleMax). destruct (decide (0 ∈ map SingleMax l)); [left; auto|]. by apply Hn2.
Qed.

End MethodFacts.
