(* ===== verification/PaymentBalancer.v ===== *)
(** * The load balancer of payments

[payment/load_balancer.go], with the wrapper of [service/payment_resume_service.go]
that follows the configured source of a method: which instance an order goes to.  The
counter of the round robin is an input of a call.  Times of day are UTC. *)
From S2P Require Import Prelude GoText GoTime SubscriptionWindow Redis Programs Interleave PaymentStore PaymentProviders PaymentMethods.
From Stdlib Require Import Bool.

Local Open Scope string_scope.
Local Open Scope Z_scope.

Definition StrategyRoundRobin := "round-robin".
Definition StrategyLeastAmount := "least-amount".

Record instanceCandidate : Type := mkCandidate { inst : PaymentProviderInstance; dailyUsed : Money }.

Record InstanceSelection : Type := mkSelection {
  sel_instance : string;
  sel_key : string;
  sel_config : gmap string string;
  sel_types : string;
  sel_mode : string
}.

Definition startOfDay (t : Time) : Time := let '(y, m, d) := Date_of t in Date y m d.

(** ** The choice among candidates *)

(** [candidates[counter.Add(1) % len(candidates)]]; [None] for a panic. *)
Definition round_robin {A} (counter : Z) (candidates : list A) : option A :=
  match candidates with
  | [] => None
  | _ => candidates !! Z.to_nat (u64 (counter + 1) mod Z.of_nat (length candidates))
  end.

Definition pickLeastAmount (c : instanceCandidate) (candidates : list instanceCandidate) : instanceCandidate :=
  foldl (fun best c => if dailyUsed c <? dailyUsed best then c else best) c candidates.

Definition pickByStrategy (counter : Z) (candidates : list instanceCandidate) (strategy : string)
    : option instanceCandidate :=
  match candidates with
  | c :: d :: l => if String.eqb strategy StrategyLeastAmount then Some (pickLeastAmount c (d :: l))
                   else round_robin counter candidates
  | _ => round_robin counter candidates
  end.

Section Balancer.
Context `{GoUnicode, GoUpper}.
Context (cfg : MethodSettings).

Definition legacyVisibleMethodAlias (paymentType : string) : string :=
  let t := normalizeVisibleMethodSupportType paymentType in
  if String.eqb t TypeAlipay then TypeAlipayDirect
  else if String.eqb t TypeWxpay then TypeWxpayDirect
  else "".

Definition resolveWxpayJSAPIAppID (config : gmap string string) : string :=
  let appID := TrimSpace (default "" (config !! "mpAppId")) in
  if String.eqb appID "" then TrimSpace (default "" (config !! "appId")) else appID.

Definition getInstanceChannelLimits (i : PaymentProviderInstance) (paymentType : string) : ChannelLimits :=
  match instance_limits cfg i with
  | None => no_limits
  | Some limits =>
      let lookupKey := if String.eqb (InstanceProviderKey i) TypeStripe then TypeStripe else paymentType in
      match limits !! lookupKey with
      | Some cl => cl
      | None =>
          let aliasKey := legacyVisibleMethodAlias lookupKey in
          if String.eqb aliasKey "" then no_limits else default no_limits (limits !! aliasKey)
      end
  end.

(** Whether the limits of a channel admit an amount beside what was used. *)
Definition admits (cl : ChannelLimits) (used amount : Money) : bool :=
  negb ((0 <? SingleMin cl) && (amount <? SingleMin cl))
  && negb ((0 <? SingleMax cl) && (SingleMax cl <? amount))
  && negb ((0 <? DailyLimit cl) && (DailyLimit cl <? used + amount)).

Definition has_room (paymentType : string) (orderAmount : Money) (c : instanceCandidate) : bool :=
  admits (getInstanceChannelLimits (inst c) paymentType) (dailyUsed c) orderAmount.

Definition filterByLimits (candidates : list instanceCandidate) (paymentType : string) (orderAmount : Money)
    : list instanceCandidate :=
  List.filter (has_room paymentType orderAmount) candidates.

Definition buildSelection (selected : PaymentProviderInstance) : InstanceSelection :=
  let config := default ∅ (instance_config cfg selected) in
  let config := if String.eqb (PaymentMode selected) "" then config else <["paymentMode" := PaymentMode selected]> config in
  mkSelection (FormatInt (InstanceID selected)) (InstanceProviderKey selected) config (SupportedTypes selected)
    (PaymentMode selected).

(** ** Queries *)

(** Whether an enabled instance serves_type the type; for a payment inside WeChat, with the
application that is expected. *)
Definition serves_type (expectedWxpayJSAPIAppID paymentType : string) (i : PaymentProviderInstance) : bool :=
  if String.eqb paymentType TypeStripe then String.eqb (InstanceProviderKey i) TypeStripe
  else
    InstanceSupportsType (SupportedTypes i) paymentType &&
    (if negb (String.eqb expectedWxpayJSAPIAppID "")
        && String.eqb (normalizeVisibleMethodSupportType paymentType) TypeWxpay
        && String.eqb (InstanceProviderKey i) TypeWxpay
     then String.eqb (resolveWxpayJSAPIAppID (default ∅ (instance_config cfg i))) expectedWxpayJSAPIAppID
     else true).

Definition counts_today (st : OrderStatus) : bool :=
  status_in st [OrderStatusPending; OrderStatusPaid; OrderStatusCompleted; OrderStatusRecharging].

Context {Aff : Type}.
Notation World := (Store Aff).
Implicit Types w : World.

Definition queryEnabledInstances (appID providerKey paymentType : string) : Act World (list PaymentProviderInstance) :=
  let* instances := awrap "query provider instances"
    (instances_where (fun i => Enabled i && (String.eqb providerKey "" || String.eqb (InstanceProviderKey i) providerKey))) in
  match List.filter (serves_type appID paymentType) (stable_sort sort_order_less instances) with
  | [] => afail (ErrMsg "no enabled instance for payment type")
  | matched => aret matched
  end.

(** What the orders of an instance since [todayStart] add up to. *)
Definition usage_since (todayStart : Time) (i : PaymentProviderInstance) w : Money :=
  map_fold (fun _ (o : PaymentOrder) sum =>
    if bool_decide (ProviderInstanceID o = Some (FormatInt (InstanceID i))) && counts_today (Status o)
       && (todayStart <=? CreatedAt o)
    then PayAmount o + sum else sum) 0 (orders w).

(** If the query fails nothing has been used. *)
Definition attachDailyUsage (instances : list PaymentProviderInstance) : Act World (list instanceCandidate) :=
  let* now := time_now in
  let todayStart := startOfDay now in
  let* rows := atry (select (fun w => Ok (map (fun i => mkCandidate i (usage_since todayStart i w)) instances))) in
  aret (match rows with Ok candidates => candidates | Err _ => map (fun i => mkCandidate i 0) instances end).

Definition SelectInstance (counter : Z) (appID providerKey paymentType strategy : string) (orderAmount : Money)
    : Act World InstanceSelection :=
  let* instances := queryEnabledInstances appID providerKey paymentType in
  let* candidates := attachDailyUsage instances in
  let available := match filterByLimits candidates paymentType orderAmount with [] => candidates | l => l end in
  match pickByStrategy counter available strategy with
  | Some selected => aret (buildSelection (inst selected))
  | None => afail (ErrMsg "panic: integer divide by zero")
  end.

(** The wrapper: methods that several providers offer go to the configured one. *)
Definition SelectVisibleInstance (counter : Z) (appID providerKey paymentType strategy : string) (orderAmount : Money)
    : Act World InstanceSelection :=
  let visibleMethod := NormalizeVisibleMethod paymentType in
  if negb (String.eqb providerKey "") || negb (one_of visibleMethod [TypeAlipay; TypeWxpay])
  then SelectInstance counter appID providerKey paymentType strategy orderAmount
  else
    let* source := resolveEnabledVisibleMethodInstance cfg visibleMethod in
    match source with
    | None => afail (ErrMsg "visible payment method has no enabled provider instance")
    | Some key => SelectInstance counter appID key paymentType strategy orderAmount
    end.

End Balancer.

(** ** The round robin is fair *)

Lemma u64_small x : 0 <= x < two64 -> u64 x = x.
Proof. intros Hx. unfold u64. by apply Z.mod_small. Qed.

(** What [n] calls in a row choose. *)
Definition rounds {A} (counter : Z) (l : list A) (n : nat) : list (option A) :=
  map (fun k => round_robin (counter + Z.of_nat k) l) (seq 0 n).

Lemma seq_mod_perm (c : Z) (n : nat) : (0 < n)%nat ->
  map (fun k => Z.to_nat ((c + Z.of_nat k) mod Z.of_nat n)) (seq 0 n) ≡ₚ seq 0 n.
Proof.
  intros Hn. symmetry. apply NoDup_Permutation_bis.
  - apply List.seq_NoDup.
  - by rewrite length_map.
  - intros x Hx%in_seq. apply in_map_iff. exists (Z.to_nat ((Z.of_nat x - c) mod Z.of_nat n)).
    pose proof (Z.mod_pos_bound (Z.of_nat x - c) (Z.of_nat n)) as Hb. split.
    + rewrite Z2Nat.id, Zplus_mod_idemp_r by lia. replace (c + (Z.of_nat x - c)) with (Z.of_nat x) by lia.
      rewrite Z.mod_small; lia.
    + apply in_seq. lia.
Qed.

Lemma map_lookup_seq {A} (l : list A) : map (fun i => l !! i) (seq 0 (length l)) = map Some l.
Proof.
  apply list_eq. intros i. rewrite !list_lookup_fmap. destruct (decide (i < length l)%nat) as [Hi|Hi].
  - rewrite lookup_seq_lt by done. cbn. destruct (lookup_lt_is_Some_2 l i Hi) as [x Hx]. by rewrite Hx.
  - rewrite lookup_seq_ge by lia. by rewrite (lookup_ge_None_2 l i) by lia.
Qed.

(** While the counter does not wrap, as many calls as there are candidates choose each
of them once. *)
Theorem round_robin_is_fair {A} (counter : Z) (l : list A) :
  l <> [] -> 0 <= counter -> counter + Z.of_nat (length l) < two64 ->
  rounds counter l (length l) ≡ₚ map Some l.
Proof.
  intros Hl Hc Hw. assert (Hn : (0 < length l)%nat) by (destruct l; [done|cbn; lia]).
  rewrite <- map_lookup_seq.
  rewrite <- (seq_mod_perm (counter + 1) (length l) Hn), map_map. unfold rounds.
  assert (E : map (fun k => round_robin (counter + Z.of_nat k) l) (seq 0 (length l)) =
              map (fun k => l !! Z.to_nat ((counter + 1 + Z.of_nat k) mod Z.of_nat (length l))) (seq 0 (length l))).
  { apply map_ext_in. intros k Hk%in_seq. unfold round_robin. destruct l as [|x l']; [done|].
    rewrite u64_small by lia. do 3 f_equal. lia. }
  by rewrite E.
Qed.

(** ** The choice keeps within the limits *)

Lemma round_robin_in {A} counter (l : list A) : l <> [] -> exists x, round_robin counter l = Some x /\ x ∈ l.
Proof.
  intros Hl. unfold round_robin. destruct l as [|y l']; [done|].
  set (n := Z.of_nat (length (y :: l'))). assert (0 < n) by (unfold n; cbn; lia).
  pose proof (Z.mod_pos_bound (u64 (counter + 1)) n).
  destruct (lookup_lt_is_Some_2 (y :: l') (Z.to_nat (u64 (counter + 1) mod n))) as [x Hx]; [unfold n in *; lia|].
  exists x. split; [done|]. by eapply list_elem_of_lookup_2.
Qed.

Lemma pickLeastAmount_spec c l : pickLeastAmount c l ∈ c :: l /\ Forall (fun d => dailyUsed (pickLeastAmount c l) <= dailyUsed d) (c :: l).
Proof.
  revert c. induction l as [|d l IH]; intros c; cbn.
  - split; [by apply list_elem_of_singleton|]. constructor; [lia|constructor].
  - destruct (dailyUsed d <? dailyUsed c) eqn:E.
    + destruct (IH d) as [Hin Hall]. split; [set_solver|]. constructor; [|done].
      inversion Hall; subst. apply Z.ltb_lt in E. fold (pickLeastAmount d l) in *. lia.
    + destruct (IH c) as [Hin Hall]. split; [set_solver|]. inversion Hall; subst. apply Z.ltb_ge in E.
      fold (pickLeastAmount c l) in *. constructor; [done|]. constructor; [lia|done].
Qed.

(** One of the candidates is chosen; by the least amount, one of which least was used. *)
Lemma pickByStrategy_spec counter l strategy : l <> [] ->
  exists c, pickByStrategy counter l strategy = Some c /\ c ∈ l /\
    (strategy = StrategyLeastAmount -> Forall (fun d => dailyUsed c <= dailyUsed d) l).
Proof.
  intros Hl. destruct l as [|c [|d l]]; [done| |].
  - exists c. assert (E : round_robin counter [c] = Some c) by (unfold round_robin; cbn; by rewrite Z.mod_1_r).
    cbn. split_and!; [exact E|by apply list_elem_of_singleton|]. intros _. constructor; [lia|constructor].
  - cbn [pickByStrategy]. destruct (String.eqb strategy StrategyLeastAmount) eqn:E.
    + exists (pickLeastAmount c (d :: l)). destruct (pickLeastAmount_spec c (d :: l)).
      split_and!; [done|done|by intros _].
    + destruct (round_robin_in counter (c :: d :: l)) as (x & Hx & Hin); [done|]. exists x. split_and!; [done..|].
      intros ->. by rewrite String.eqb_refl in E.
Qed.

Section Selection.
Context `{GoUnicode, GoUpper} (cfg : MethodSettings) {Aff : Type}.
Notation World := (Store Aff).
Implicit Types w : World.

(** The instances that may serve a payment, with what was used of them today. *)
Definition serving_candidates (appID providerKey paymentType : string) w : list instanceCandidate :=
  map (fun i => mkCandidate i (usage_since (startOfDay (clock w)) i w))
    (List.filter (serves_type cfg appID paymentType)
       (stable_sort sort_order_less
          (filter (fun i => Enabled i && (String.eqb providerKey "" || String.eqb (InstanceProviderKey i) providerKey) = true)
             (map snd (map_to_list (instances w)))))).

Definition any_has_room (paymentType : string) (amount : Money) (l : list instanceCandidate) : bool :=
  existsb (has_room cfg paymentType amount) l.

(** What the limits leave, or all if that is nothing. *)
Definition available_of (paymentType : string) (amount : Money) (l : list instanceCandidate) : list instanceCandidate :=
  match filterByLimits cfg l paymentType amount with [] => l | m => m end.

Lemma available_spec paymentType amount l : l <> [] ->
  available_of paymentType amount l <> [] /\
  (forall d, d ∈ available_of paymentType amount l <->
     d ∈ l /\ has_room cfg paymentType amount d = any_has_room paymentType amount l).
Proof.
  intros Hl. unfold available_of, filterByLimits, any_has_room. destruct (existsb (has_room cfg paymentType amount) l) eqn:Ex.
  - apply existsb_exists in Ex as (x & Hx & Hf).
    assert (Hin : In x (List.filter (has_room cfg paymentType amount) l)) by (by apply filter_In).
    destruct (List.filter (has_room cfg paymentType amount) l) as [|y m] eqn:Em; [done|]. split; [done|]. intros d.
    rewrite <- Em, !list_elem_of_In, filter_In. tauto.
  - assert (Hno : forall d, d ∈ l -> has_room cfg paymentType amount d = false).
    { intros d Hd. apply not_true_is_false. intros Hf. rewrite <- not_true_iff_false, existsb_exists in Ex.
      apply Ex. exists d. by rewrite <- list_elem_of_In. }
    destruct (List.filter (has_room cfg paymentType amount) l) as [|y m] eqn:Em.
    + split; [done|]. intros d. split; [|tauto]. intros Hd. by rewrite Hno.
    + exfalso. assert (Hy : In y (List.filter (has_room cfg paymentType amount) l)) by (rewrite Em; by left).
      apply filter_In in Hy as [Hy Hf]. by rewrite Hno in Hf by (by apply list_elem_of_In).
Qed.

(** What the limits of an instance say of a payment: a bound that is zero is none. *)
Definition affordable (paymentType : string) (amount : Money) (c : instanceCandidate) : Prop :=
  let cl := getInstanceChannelLimits cfg (inst c) paymentType in
  (0 < SingleMin cl -> SingleMin cl <= amount) /\ (0 < SingleMax cl -> amount <= SingleMax cl) /\
  (0 < DailyLimit cl -> dailyUsed c + amount <= DailyLimit cl).

Lemma has_room_affordable paymentType amount c : has_room cfg paymentType amount c = true <-> affordable paymentType amount c.
Proof.
  unfold has_room, admits, affordable. cbv zeta. rewrite !andb_true_iff, !negb_true_iff, !andb_false_iff, !Z.ltb_ge. lia.
Qed.

Lemma any_has_room_spec paymentType amount l :
  any_has_room paymentType amount l = true <-> exists d, d ∈ l /\ affordable paymentType amount d.
Proof.
  unfold any_has_room. rewrite existsb_exists. split; intros (d & Hd & Ha); exists d;
    (split; [by apply list_elem_of_In|by apply has_room_affordable]).
Qed.

(** A selection that runs alone and finds an enabled instance for the payment
never fails, and chooses one of these instances; one whose limits the payment keeps
beside what was used today, if there is one; and by the least amount, one of which
no more was used than of any other such instance. *)
Theorem selection_is_admitted counter appID providerKey paymentType strategy amount w :
  let l := serving_candidates appID providerKey paymentType w in
  l <> [] ->
  exists c, run (SelectInstance cfg counter appID providerKey paymentType strategy amount) w
              = (w, Ok (buildSelection cfg (inst c))) /\
    c ∈ l /\
    ((exists d, d ∈ l /\ affordable paymentType amount d) -> affordable paymentType amount c) /\
    (strategy = StrategyLeastAmount ->
     forall d, d ∈ l -> affordable paymentType amount d -> dailyUsed c <= dailyUsed d).
Proof.
  intros l Hl. destruct (available_spec paymentType amount l Hl) as [Hne Hav].
  destruct (pickByStrategy_spec counter (available_of paymentType amount l) strategy Hne) as (c & Hp & Hc & Hleast).
  exists c. apply Hav in Hc as [Hc Hf]. split_and!; [|done| |].
  - unfold SelectInstance. eapply yields_bind.
    { unfold queryEnabledInstances. eapply yields_bind; [apply yields_wrap, yields_select; reflexivity|]. cbv beta.
      unfold l, serving_candidates in Hl. destruct (List.filter _ _) eqn:Em; [done|]. rewrite <- Em. apply yields_ret. }
    eapply yields_bind.
    { unfold attachDailyUsage. eapply yields_bind; [apply yields_get|]. cbv zeta.
      eapply yields_bind; [apply yields_try_ok, yields_select; reflexivity|apply yields_ret]. }
    fold (serving_candidates appID providerKey paymentType w). fold l. unfold available_of in Hp. rewrite Hp. apply yields_ret.
  - intros He%any_has_room_spec. apply has_room_affordable. by rewrite Hf.
  - intros Hs d Hd Ha. specialize (Hleast Hs). rewrite Forall_forall in Hleast. apply Hleast. apply Hav. split; [done|].
    assert (He : any_has_room paymentType amount l = true) by (apply any_has_room_spec; by exists d).
    rewrite He. by apply has_room_affordable.
Qed.

End Selection.
