(* ===== verification/PaymentCreate.v ===== *)
(** * The creation of payment orders

[service/payment_order.go]: the checks of a request, the amount to pay, the choice of
an instance, the limits of a user, and the row of the order; the call of the gateway
and what is kept of its answer.  What the code asks of other services - the
configuration, plans and groups, the state of a user, the WeChat application, the
random part of a number, what the gateway answers - is an input of a call.  A
transaction reads with statements of its own: others may commit between them.  Texts
that go to the gateway or to the browser only are left out. *)
From S2P Require Import Prelude GoText GoTime SubscriptionWindow Redis Programs Interleave PaymentStore PaymentProviders Redeem Payments PaymentLifecycle PaymentMethods PaymentBalancer.
From Stdlib Require Import Bool.

Local Open Scope string_scope.
Local Open Scope Z_scope.

Definition defaultOrderTimeoutMin : Z := 30.
Definition defaultMaxPendingOrders : Z := 3.

(** The settings that an order is created under. *)
Record OrderConfig : Type := mkOrderConfig {
  cancel_config :> PaymentConfig;
  PaymentsEnabled : bool;
  MinAmount : Money;
  MaxAmount : Money;
  UserDailyLimit : Money;
  OrderTimeoutMin : Z;
  MaxPendingOrders : Z;
  BalanceDisabled : bool;
  BalanceRechargeMultiplier : Float;
  SubscriptionUSDToCNYRate : Float;
  RechargeFeeRate : Z;
  LoadBalanceStrategy : string
}.

Record CreateOrderRequest : Type := mkCreateRequest {
  req_user : Z;
  req_amount : Float;
  req_type : string;
  req_open_id : string;
  req_wechat_browser : bool;
  req_order_type : string;
  req_plan : Z
}.

Record SubscriptionPlan : Type := mkSubscriptionPlan {
  sp_id : Z;
  sp_group : Z;
  sp_price : Money;
  sp_days : Z;
  sp_unit : string;
  sp_for_sale : bool
}.

(** What other services answer. *)
Record Surroundings : Type := mkSurroundings {
  order_config : res OrderConfig;
  plan_by_id : Z -> option SubscriptionPlan;
  group_active : Z -> bool;
  user_active : Z -> bool;
  method_settings : MethodSettings;
  wechat_app : res string;
  oauth_start : res unit;
  rr_counter : Z;
  random_part : nat -> string;
  create_payment : InstanceSelection -> string -> Money -> res string
}.

(** An order, or the way to the WeChat login. *)
Inductive CreateOrderResponse : Type :=
  | OrderCreated (order : PaymentOrder)
  | OAuthRequired (amount payAmount : Money).

Definition validityUnitWeek := "week".
Definition validityUnitWeeks := "weeks".
Definition validityUnitMonth := "month".
Definition validityUnitMonths := "months".

Definition psComputeValidityDays (days : Z) (unit : string) : Z :=
  if one_of unit [validityUnitWeek; validityUnitWeeks] then i64 (days * 7)
  else if one_of unit [validityUnitMonth; validityUnitMonths] then i64 (days * 30)
  else days.

Definition psStartOfDayUTC (t : Time) : Time := let '(y, m, d) := Date_of t in Date y m d.

(** [n] in at least [width] digits. *)
Fixpoint zero_padded (width : nat) (s : string) : string :=
  match width with
  | O => s
  | S w => if (String.length s <? S w)%nat then String "0" (zero_padded w s) else s
  end.

(** [Format("20060102")] *)
Definition format_date (t : Time) : string :=
  let '(y, m, d) := Date_of t in zero_padded 4 (FormatInt y) ++ zero_padded 2 (FormatInt m) ++ zero_padded 2 (FormatInt d).

Definition generateOutTradeNo (now : Time) (random : string) : string := orderIDPrefix ++ format_date now ++ random.

Definition psNilIfEmpty (s : string) : option string := if String.eqb s "" then None else Some s.

Fixpoint removePostgresTextNUL (s : string) : string :=
  match s with
  | EmptyString => EmptyString
  | String c r => if Ascii.eqb c "000" then removePostgresTextNUL r else String c (removePostgresTextNUL r)
  end.

Definition normalizeSubscriptionUSDToCNYRate (rate : Float) : Z :=
  match rate with Num r => if r <? 0 then 0 else r | NaNOrInf => 0 end.

Section Create.
Context `{GoUnicode, GoUpper}.

(** ** Amounts *)

(** An amount with no more digits than the currency allows, in its smallest unit. *)
Definition AmountToMinorUnit (amount : Money) (currency : string) : res Z :=
  match NormalizePaymentCurrency currency with
  | Err e => Err e
  | Ok normalized =>
      let u := paymentCurrencyAmountUnitFor normalized in
      if negb (amount * 10 ^ maxFractionDigits u mod unit_ =? 0) then Err (ErrMsg "payment amount has too many digits")
      else Ok (Z.quot (amount * 10 ^ apiMinorUnit u) unit_)
  end.

Definition ErrInvalidAmount : goerr := ErrApp 400 "INVALID_AMOUNT".

Definition validateCreateOrderAmountCurrency (amount : Money) (currency : string) : res unit :=
  match AmountToMinorUnit amount currency with Ok _ => Ok tt | Err _ => Err ErrInvalidAmount end.

Definition calculateSubscriptionGatewayBaseAmount (amount : Money) (usdToCnyRate : Float) (currency : string) : Money :=
  let rate := normalizeSubscriptionUSDToCNYRate usdToCnyRate in
  if (rate <=? 0) || negb (String.eqb currency DefaultPaymentCurrency) then amount
  else round_to (grain (CurrencyMaxFractionDigits currency) * unit_) (amount * rate) / unit_.

Definition calculateCreateOrderPayAmount (limitAmount : Money) (feeRate : Z) (currency : string) : res Money :=
  match validateCreateOrderAmountCurrency limitAmount currency with
  | Err e => Err e
  | Ok _ =>
      let payAmount := CalculatePayAmountForCurrency limitAmount feeRate currency in
      match AmountToMinorUnit payAmount currency with
      | Err _ => Err ErrInvalidAmount
      | Ok _ => Ok payAmount
      end
  end.

Definition calculateCreateOrderPayAmountForOrderType (limitAmount : Money) (feeRate : Z) (currency orderType : string)
    (usdToCnyRate : Float) : res Money :=
  let paymentAmount :=
    if String.eqb orderType OrderTypeSubscription then calculateSubscriptionGatewayBaseAmount limitAmount usdToCnyRate currency
    else limitAmount in
  calculateCreateOrderPayAmount paymentAmount feeRate currency.

(** ** The request *)

Context (env : Surroundings).

Definition validateSubOrder (req : CreateOrderRequest) : res SubscriptionPlan :=
  if req_plan req =? 0 then Err (ErrApp 400 "INVALID_INPUT")
  else
    match plan_by_id env (req_plan req) with
    | Some plan =>
        if negb (sp_for_sale plan) then Err (ErrApp 404 "PLAN_NOT_AVAILABLE")
        else if negb (group_active env (sp_group plan)) then Err (ErrApp 404 "GROUP_NOT_FOUND")
        else Ok plan
    | None => Err (ErrApp 404 "PLAN_NOT_AVAILABLE")
    end.

(** The plan, if one is bought, and the amount that the limits count. *)
Definition validateOrderInput (req : CreateOrderRequest) (cfg : OrderConfig) : res (option SubscriptionPlan * Money) :=
  if String.eqb (req_order_type req) OrderTypeBalance && BalanceDisabled cfg then Err (ErrApp 403 "BALANCE_PAYMENT_DISABLED")
  else if String.eqb (req_order_type req) OrderTypeSubscription then
    match validateSubOrder req with Ok plan => Ok (Some plan, sp_price plan) | Err e => Err e end
  else
    match req_amount req with
    | NaNOrInf => Err ErrInvalidAmount
    | Num a =>
        if a <=? 0 then Err ErrInvalidAmount
        else if ((0 <? MinAmount cfg) && (a <? MinAmount cfg)) || ((0 <? MaxAmount cfg) && (MaxAmount cfg <? a))
        then Err ErrInvalidAmount
        else Ok (None, a)
    end.

(** What the order delivers. *)
Definition order_amount (req : CreateOrderRequest) (cfg : OrderConfig) (plan : option SubscriptionPlan) (limitAmount : Money)
    : Money :=
  match plan with
  | Some plan => sp_price plan
  | None => if String.eqb (req_order_type req) OrderTypeBalance
            then calculateCreditedBalance limitAmount (BalanceRechargeMultiplier cfg) else limitAmount
  end.

(** ** The snapshot of the instance *)

Definition paymentOrderSnapshotWxpayAppID (sel : InstanceSelection) (req : CreateOrderRequest) : string :=
  if negb (String.eqb (TrimSpace (sel_key sel)) TypeWxpay) then ""
  else if negb (String.eqb (TrimSpace (req_open_id req)) "") then TrimSpace (resolveWxpayJSAPIAppID (sel_config sel))
  else TrimSpace (default "" (sel_config sel !! "appId")).

(** A field, if its value is not empty. *)
Definition with_field (key value : string) (m : gmap string SnapshotValue) : gmap string SnapshotValue :=
  if String.eqb value "" then m else <[key := SnapString value]> m.

Definition buildPaymentOrderProviderSnapshot (sel : InstanceSelection) (req : CreateOrderRequest) : gmap string SnapshotValue :=
  let conf k := TrimSpace (default "" (sel_config sel !! k)) in
  let providerKey := TrimSpace (sel_key sel) in
  let is_ t := String.eqb providerKey t in
  let m := {["schema_version" := SnapNumber 2]} in
  let m := with_field "provider_instance_id" (TrimSpace (sel_instance sel)) m in
  let m := with_field "provider_key" providerKey m in
  let m := with_field "payment_mode" (TrimSpace (sel_mode sel)) m in
  let m := if is_ TypeWxpay
           then <["currency" := SnapString DefaultPaymentCurrency]>
                  (with_field "merchant_id" (conf "mchId")
                     (with_field "merchant_app_id" (paymentOrderSnapshotWxpayAppID sel req) m))
           else m in
  let m := if is_ TypeAlipay then with_field "merchant_app_id" (conf "appId") m else m in
  let m := if is_ TypeEasyPay then with_field "merchant_id" (conf "pid") m else m in
  let m := if is_ TypeStripe
           then <["currency" := SnapString (paymentProviderConfigCurrency providerKey (sel_config sel))]> m else m in
  let m := if is_ TypeAirwallex
           then <["currency" := SnapString (paymentProviderConfigCurrency providerKey (sel_config sel))]>
                  (with_field "merchant_id" (conf "accountId") m)
           else m in
  if (size m =? 1)%nat then ∅ else m.

(** ** The transaction *)

Context {Aff : Type}.
Notation World := (Store Aff).
Implicit Types w : World.

Definition pending_orders (userID : Z) w : list (Z * PaymentOrder) :=
  filter (fun p : Z * PaymentOrder => UserID p.2 = userID /\ Status p.2 = OrderStatusPending) (map_to_list (orders w)).

Definition checkPendingLimit (userID : Z) (max : Z) : Act World unit :=
  let max := if max <=? 0 then defaultMaxPendingOrders else max in
  let* c := awrap "count pending orders" (select (fun w => Ok (Z.of_nat (length (pending_orders userID w))))) in
  if max <=? c then afail (ErrApp 429 "TOO_MANY_PENDING") else aret tt.

(** A recharge counts by what was paid, anything else by its amount. *)
Definition used_since (userID : Z) (ts : Time) w : Money :=
  map_fold (fun _ (o : PaymentOrder) used =>
    if (UserID o =? userID)
       && status_in (Status o) [OrderStatusPaid; OrderStatusRecharging; OrderStatusCompleted]
       && match PaidAt o with Some t => ts <=? t | None => false end
    then (if String.eqb (OrderType o) OrderTypeBalance then PayAmount o else Amount o) + used
    else used) 0 (orders w).

Definition checkDailyLimit (userID : Z) (amount limit : Money) : Act World unit :=
  if limit <=? 0 then aret tt
  else
    let* now := time_now in
    let* used := awrap "query daily usage" (select (fun w => Ok (used_since userID (psStartOfDayUTC now) w))) in
    if limit <? used + amount then afail (ErrApp 429 "DAILY_LIMIT_EXCEEDED") else aret tt.

Definition trade_no_taken (t : string) w : bool :=
  existsb (fun p : Z * PaymentOrder => String.eqb (OutTradeNo p.2) t) (map_to_list (orders w)).

(** The attempts that are left. *)
Fixpoint allocate_attempts (remaining attempt : nat) : Act World string :=
  match remaining with
  | O => afail (ErrMsg "generate unique out_trade_no: exhausted attempts")
  | S remaining =>
      let* now := time_now in
      let candidate := generateOutTradeNo now (random_part env attempt) in
      let* exists_ := awrap "check out_trade_no uniqueness" (select (fun w => Ok (trade_no_taken candidate w))) in
      if exists_ : bool then allocate_attempts remaining (S attempt) else aret candidate
  end.

Definition allocateOutTradeNo : Act World string := allocate_attempts 5 0.

Definition recharge_code (id : Z) (now : Time) : string :=
  "PAY-" ++ FormatInt id ++ "-" ++ FormatInt ((now - Date 1970 1 1) mod 100000).

(** The row, with its code, once the transaction has committed. *)
Definition new_order (id : Z) (req : CreateOrderRequest) (plan : option SubscriptionPlan) (orderAmount payAmount : Money)
    (sel : InstanceSelection) (outTradeNo : string) (exp now : Time) : PaymentOrder :=
  mkOrder
    (mkOrderSpec id (req_user req) (numeric2 orderAmount) (recharge_code id now) outTradeNo (req_type req)
       (req_order_type req) (sp_id <$> plan) ((fun p => psComputeValidityDays (sp_days p) (sp_unit p)) <$> plan)
       (buildPaymentOrderProviderSnapshot sel req) (timestamptz exp) (timestamptz now))
    (mkOrderPayment (numeric2 payAmount) "" (psNilIfEmpty (TrimSpace (sel_instance sel)))
       (psNilIfEmpty (TrimSpace (sel_key sel))) None)
    (mkOrderRefund 0 None None false None None None)
    OrderStatusPending None None None (timestamptz now).

(** The number of an order is unique. *)
Definition insert_order (req : CreateOrderRequest) (plan : option SubscriptionPlan) (orderAmount payAmount : Money)
    (sel : InstanceSelection) (outTradeNo : string) (exp : Time) w : World * res PaymentOrder :=
  if negb (String.eqb outTradeNo "") && trade_no_taken outTradeNo w then (w, Err (ErrWrap "create order" ErrConstraint))
  else
    let id := next_id (orders w) in
    let order := new_order id req plan orderAmount payAmount sel outTradeNo exp (clock w) in
    (with_orders (<[id := order]> (orders w)) w, Ok order).

Definition createOrderInTx (req : CreateOrderRequest) (plan : option SubscriptionPlan) (cfg : OrderConfig)
    (orderAmount limitAmount payAmount : Money) (sel : InstanceSelection) : Act World PaymentOrder :=
  let* _ := checkPendingLimit (req_user req) (MaxPendingOrders cfg) in
  let* _ := checkDailyLimit (req_user req) limitAmount (UserDailyLimit cfg) in
  let tm := if OrderTimeoutMin cfg <=? 0 then defaultOrderTimeoutMin else OrderTimeoutMin cfg in
  let* now := time_now in
  let exp := Add now (tm * Minute) in
  let* outTradeNo := allocateOutTradeNo in
  statement (insert_order req plan orderAmount payAmount sel outTradeNo exp).

(** ** The gateway *)

Definition requestNeedsWeChatJSAPICompatibility (req : CreateOrderRequest) : bool :=
  String.eqb (GetBasePaymentType (req_type req)) TypeWxpay
  && (req_wechat_browser req || negb (String.eqb (TrimSpace (req_open_id req)) "")).

(** A key that is empty stands for an instance of any provider. *)
Definition usesOfficialWxpayVisibleMethod : Act World bool :=
  let* inst := atry (resolveEnabledVisibleMethodInstance (method_settings env) TypeWxpay) in
  aret (match inst with Ok (Some key) => String.eqb key TypeWxpay | _ => false end).

(** The WeChat application that the instance must have, if any. *)
Definition prepareCreateOrderSelectionContext (req : CreateOrderRequest) : Act World string :=
  if negb (requestNeedsWeChatJSAPICompatibility req) then aret ""
  else
    let* official := usesOfficialWxpayVisibleMethod in
    if negb official then aret ""
    else match wechat_app env with Ok appID => aret (TrimSpace appID) | Err e => afail e end.

Definition selectCreateOrderInstance (req : CreateOrderRequest) (cfg : OrderConfig) (payAmount : Money)
    : Act World InstanceSelection :=
  let* appID := prepareCreateOrderSelectionContext req in
  let* sel := atry (SelectVisibleInstance (method_settings env) (rr_counter env) appID "" (req_type req)
                      (LoadBalanceStrategy cfg) payAmount) in
  match sel with Ok sel => aret sel | Err _ => afail (ErrApp 503 "PAYMENT_GATEWAY_ERROR") end.

Definition requiresWeChatJSAPICompatibleSelection (req : CreateOrderRequest) (sel : InstanceSelection) : bool :=
  String.eqb (sel_key sel) TypeWxpay && requestNeedsWeChatJSAPICompatibility req.

Definition validateSelectedCreateOrderInstance (req : CreateOrderRequest) (sel : InstanceSelection) : res unit :=
  if negb (requiresWeChatJSAPICompatibleSelection req sel) then Ok tt
  else
    match wechat_app env with
    | Err e => Err e
    | Ok expectedAppID =>
        let selectedAppID := resolveWxpayJSAPIAppID (sel_config sel) in
        if String.eqb selectedAppID "" || negb (String.eqb selectedAppID expectedAppID)
        then Err (ErrApp 429 "NO_AVAILABLE_INSTANCE") else Ok tt
    end.

Definition validateSelectedCreateOrderAmountCurrency (payAmount : Money) (sel : InstanceSelection) : res unit :=
  validateCreateOrderAmountCurrency payAmount (paymentProviderConfigCurrency (sel_key sel) (sel_config sel)).

(** Whether the user has to log in to WeChat first. *)
Definition needs_oauth (req : CreateOrderRequest) (sel : InstanceSelection) : bool :=
  (String.eqb (sel_key sel) "" || String.eqb (sel_key sel) TypeWxpay)
  && String.eqb (TrimSpace (req_open_id req)) "" && req_wechat_browser req
  && String.eqb (GetBasePaymentType (req_type req)) TypeWxpay.

Definition maybeBuildWeChatOAuthRequiredResponseForSelection (req : CreateOrderRequest) (amount payAmount : Money)
    (sel : InstanceSelection) : res (option CreateOrderResponse) :=
  if negb (needs_oauth req sel) then Ok None
  else
    match wechat_app env with
    | Err e => Err e
    | Ok _ => match oauth_start env with Err e => Err e | Ok _ => Ok (Some (OAuthRequired amount payAmount)) end
    end.

(** Empty values leave the columns as they are. *)
Definition set_payment_details (tradeNo : string) (sel : InstanceSelection) (o : PaymentOrder) : PaymentOrder :=
  set_payment (mkOrderPayment (PayAmount o) (if String.eqb tradeNo "" then PaymentTradeNo o else tradeNo)
                 (if String.eqb (sel_instance sel) "" then ProviderInstanceID o else Some (sel_instance sel))
                 (if String.eqb (sel_key sel) "" then ProviderKey o else Some (sel_key sel)) (PaidAt o)) o.

Definition invokeProvider (order : PaymentOrder) (req : CreateOrderRequest) (payAmount : Money) (sel : InstanceSelection)
    : Act World CreateOrderResponse :=
  match create_payment env sel (OutTradeNo order) payAmount with
  | Err e => afail e
  | Ok tradeNo =>
      let* _ := awrap "update order with payment details"
                  (order_update_one (ID order) (set_payment_details (removePostgresTextNUL tradeNo) sel)) in
      let* _ := writeAuditLog (ID order) "ORDER_CREATED" (user_operator (req_user req)) in
      aret (OrderCreated order)
  end.

(** ** The whole *)

Definition normalize_request (req : CreateOrderRequest) : CreateOrderRequest :=
  let orderType := if String.eqb (req_order_type req) "" then OrderTypeBalance else req_order_type req in
  let normalized := NormalizeVisibleMethod (req_type req) in
  mkCreateRequest (req_user req) (req_amount req) (if String.eqb normalized "" then req_type req else normalized)
    (req_open_id req) (req_wechat_browser req) orderType (req_plan req).

Definition lift_res {A} (r : res A) : Act World A := match r with Ok a => aret a | Err e => afail e end.

Definition CreateOrder (req : CreateOrderRequest) : Act World CreateOrderResponse :=
  let req := normalize_request req in
  let* cfg := awrap "get payment config" (lift_res (order_config env)) in
  if negb (PaymentsEnabled cfg) then afail (ErrApp 403 "PAYMENT_DISABLED")
  else
    let* input := lift_res (validateOrderInput req cfg) in
    let '(plan, limitAmount) := input in
    let* _ := checkCancelRateLimit (req_user req) cfg in
    let* _ := awrap "get user" (GetUserByID (req_user req)) in
    if negb (user_active env (req_user req)) then afail (ErrApp 403 "USER_INACTIVE")
    else
      let orderAmount := order_amount req cfg plan limitAmount in
      let pay currency := calculateCreateOrderPayAmountForOrderType limitAmount (RechargeFeeRate cfg) currency
                            (req_order_type req) (SubscriptionUSDToCNYRate cfg) in
      let* methodCurrency := ValidateMethodCurrencyConsistency (method_settings env) (req_type req) in
      let* payAmount := lift_res (pay methodCurrency) in
      let* sel := selectCreateOrderInstance req cfg payAmount in
      let* _ := lift_res (validateSelectedCreateOrderInstance req sel) in
      let selectedCurrency := paymentProviderConfigCurrency (sel_key sel) (sel_config sel) in
      let* payAmount := (if String.eqb selectedCurrency methodCurrency then aret payAmount
                         else lift_res (pay selectedCurrency)) in
      let* _ := lift_res (validateSelectedCreateOrderAmountCurrency payAmount sel) in
      let* oauth := lift_res (maybeBuildWeChatOAuthRequiredResponseForSelection req limitAmount payAmount sel) in
      match oauth with
      | Some resp => aret resp
      | None =>
          let* order := createOrderInTx req plan cfg orderAmount limitAmount payAmount sel in
          let* resp := atry (invokeProvider order req payAmount sel) in
          match resp with
          | Ok resp => aret resp
          | Err e =>
              let* _ := atry (order_update_one (ID order) (SetStatus OrderStatusFailed)) in
              afail e
          end
      end.

End Create.
