(* ===== verification/PaymentCreateRuns.v ===== *)
(** * Orders that are created alone

What [CreateOrder] leaves when it answers with an order, and that the payment of such
an order is delivered: the composition of the creation with the notification of
[PaymentDelivery]. *)
From S2P Require Import Prelude GoText GoTime SubscriptionWindow Redis Programs Interleave PaymentStore PaymentProviders Redeem Payments PaymentLifecycle PaymentMoves PaymentDelivery PaymentMethods PaymentBalancer PaymentCreate.
From Stdlib Require Import Bool.

Local Open Scope string_scope.
Local Open Scope Z_scope.

(** ** The code of an order has no white space *)

Definition visible (c : ascii) : bool := is_ascii_byte c && negb (is_ascii_space c).

Fixpoint all_visible (s : string) : bool :=
  match s with EmptyString => true | String c r => visible c && all_visible r end.

Lemma all_visible_app s t : all_visible (s ++ t) = all_visible s && all_visible t.
Proof.
  induction s as [|c s IH]; [done|]. change (visible c && all_visible (s ++ t) = visible c && all_visible s && all_visible t).
  by rewrite IH, andb_assoc.
Qed.

Lemma visible_ascii s : all_visible s = true -> is_ascii s = true.
Proof. induction s as [|c s IH]; cbn; [done|]. unfold visible. intros [[-> _]%andb_true_iff Hs]%andb_true_iff. by rewrite IH. Qed.

Lemma visible_trim s : all_visible s = true -> trim_ascii s = s.
Proof.
  intros Hs. unfold trim_ascii.
  assert (Hl : trim_left_ascii s = s).
  { destruct s as [|c s]; [done|]. cbn in Hs |- *. apply andb_true_iff in Hs as [Hc _].
    unfold visible in Hc. apply andb_true_iff in Hc as [_ Hc%negb_true_iff]. by rewrite Hc. }
  rewrite Hl. clear Hl. induction s as [|c s IH]; [done|]. cbn in Hs |- *. apply andb_true_iff in Hs as [Hc Hs].
  rewrite IH by done. unfold visible in Hc. apply andb_true_iff in Hc as [_ Hc%negb_true_iff].
  by rewrite Hc, andb_false_r.
Qed.

Lemma visible_digit d : 0 <= d < 10 -> visible (digit d) = true.
Proof.
  intros Hd. assert (Hc : d = 0 \/ d = 1 \/ d = 2 \/ d = 3 \/ d = 4 \/ d = 5 \/ d = 6 \/ d = 7 \/ d = 8 \/ d = 9) by lia.
  by decompose [or] Hc; subst.
Qed.

Lemma visible_digits fuel n acc : 0 <= n -> all_visible acc = true -> all_visible (format_digits fuel n acc) = true.
Proof.
  revert n acc. induction fuel as [|f IH]; intros n acc Hn Ha; [done|]. cbn [format_digits].
  assert (Hacc : all_visible (String (digit (n mod 10)) acc) = true).
  { cbn. rewrite visible_digit by (apply Z.mod_pos_bound; lia). done. }
  destruct (n <? 10); [done|]. apply IH; [apply Z.div_pos; lia|done].
Qed.

Lemma visible_FormatInt n : all_visible (FormatInt n) = true.
Proof.
  unfold FormatInt. destruct (n <? 0) eqn:E; [|apply visible_digits; [apply Z.ltb_ge in E; lia|done]].
  apply Z.ltb_lt in E. cbn [all_visible]. rewrite visible_digits by (done || lia). done.
Qed.

Lemma recharge_code_trim `{GoUnicode} id now : TrimSpace (recharge_code id now) = recharge_code id now.
Proof.
  assert (Hv : all_visible (recharge_code id now) = true).
  { unfold recharge_code. rewrite !all_visible_app, !visible_FormatInt. done. }
  unfold TrimSpace. rewrite visible_ascii by done. by apply visible_trim.
Qed.

Section CreateRuns.
Context `{GoUnicode, GoUpper} {Aff : Type}.
Notation World := (Store Aff).
Implicit Types w : World.
Context (env : Surroundings).

(** ** Reads *)

#[local] Hint Resolve reads_ret reads_fail reads_select : core.

Lemma reads_try {A} (m : Act World A) : reads m -> reads (atry m).
Proof. intros Hm w. unfold atry. rewrite run_bind. cbn. apply Hm. Qed.

Lemma reads_wrap {A} prefix (m : Act World A) : reads m -> reads (awrap prefix m).
Proof. intros Hm w. unfold awrap. rewrite run_bind. cbn. apply Hm. Qed.

Lemma reads_now : reads (time_now : Act World Time).
Proof. done. Qed.

Lemma reads_lift {A} (r : res A) : reads (lift_res r : Act World A).
Proof. by destruct r. Qed.

#[local] Hint Resolve reads_now reads_lift : core.

Ltac peruse :=
  repeat match goal with
         | |- forall _, reads _ => intros ?
         | |- reads (abind _ _) => apply reads_bind
         | |- reads (atry _) => apply reads_try
         | |- reads (awrap _ _) => apply reads_wrap
         | |- reads (match ?x with _ => _ end) => destruct x
         | |- reads (if ?x then _ else _) => destruct x
         | |- reads _ => solve [auto]
         end.

Lemma checkCancelRateLimit_reads u cfg : reads (checkCancelRateLimit (Aff := Aff) u cfg).
Proof. unfold checkCancelRateLimit. cbv zeta. peruse. Qed.

Lemma currency_reads ms t : reads (ValidateMethodCurrencyConsistency (Aff := Aff) ms t).
Proof. unfold ValidateMethodCurrencyConsistency, instances_where. cbv zeta. peruse. Qed.

Lemma resolve_reads ms m : reads (resolveEnabledVisibleMethodInstance (Aff := Aff) ms m).
Proof. unfold resolveEnabledVisibleMethodInstance, instances_where. peruse. Qed.

Lemma select_reads ms c a k t st am : reads (SelectInstance (Aff := Aff) ms c a k t st am).
Proof. unfold SelectInstance, queryEnabledInstances, attachDailyUsage, instances_where. cbv zeta. peruse. Qed.

#[local] Hint Resolve checkCancelRateLimit_reads currency_reads resolve_reads select_reads : core.

Lemma select_visible_reads ms c a k t st am : reads (SelectVisibleInstance (Aff := Aff) ms c a k t st am).
Proof. unfold SelectVisibleInstance. cbv zeta. peruse. Qed.

#[local] Hint Resolve select_visible_reads : core.

Lemma choose_reads req cfg pay : reads (selectCreateOrderInstance env (Aff := Aff) req cfg pay).
Proof. unfold selectCreateOrderInstance, prepareCreateOrderSelectionContext, usesOfficialWxpayVisibleMethod. peruse. Qed.

Lemma pending_limit_reads u max : reads (checkPendingLimit (Aff := Aff) u max).
Proof. unfold checkPendingLimit. cbv zeta. peruse. Qed.

Lemma daily_limit_reads u a l : reads (checkDailyLimit (Aff := Aff) u a l).
Proof. unfold checkDailyLimit. cbv zeta. peruse. Qed.

Lemma allocate_reads n k : reads (allocate_attempts env (Aff := Aff) n k).
Proof. revert k. induction n as [|n IH]; intros k; cbn [allocate_attempts]; [auto|]. cbv zeta. peruse. Qed.

Lemma user_reads u : reads (GetUserByID (Aff := Aff) u).
Proof. apply reads_select. Qed.

#[local] Hint Resolve choose_reads pending_limit_reads daily_limit_reads allocate_reads user_reads : core.

(** What comes before a read in a run that succeeds. *)
Lemma run_reads {A B} (m : Act World A) (k : A -> Act World B) w w' b : reads m ->
  run (abind m k) w = (w', Ok b) -> exists a, run m w = (w, Ok a) /\ run (k a) w = (w', Ok b).
Proof.
  intros Hm. unfold abind. rewrite run_bind. specialize (Hm w). destruct (run m w) as [w1 [a|e]]; cbn in Hm; subst w1; cbn.
  - intros Hk. by exists a.
  - intros [= ? ?].
Qed.

Lemma lift_ok {A} (r : res A) w w' a : run (lift_res r : Act World A) w = (w', Ok a) -> r = Ok a /\ w' = w.
Proof. destruct r; cbn; [|done]. by intros [= -> ->]. Qed.

Lemma run_try_inv {A} (m : Act World A) w w' r : run (atry m) w = (w', Ok r) -> run m w = (w', r).
Proof. unfold atry. rewrite run_bind. cbn. intros [= <- <-]. by destruct (run m w). Qed.

Lemma run_wrap_ok {A} prefix (m : Act World A) w w' a : run (awrap prefix m) w = (w', Ok a) -> run m w = (w', Ok a).
Proof. unfold awrap. rewrite run_bind. cbn. destruct (run m w) as [w1 [x|e]]; [|done]. by intros [= -> ->]. Qed.

(** ** The transaction *)

Definition max_pending (cfg : OrderConfig) : Z :=
  if MaxPendingOrders cfg <=? 0 then defaultMaxPendingOrders else MaxPendingOrders cfg.

Lemma pending_limit_ok u max w w' : run (checkPendingLimit (Aff := Aff) u max) w = (w', Ok tt) ->
  Z.of_nat (length (pending_orders u w)) < (if max <=? 0 then defaultMaxPendingOrders else max).
Proof.
  unfold checkPendingLimit. cbv zeta. intros (c & Hc & Hk)%run_reads; [|apply reads_wrap, reads_select].
  apply run_wrap_ok in Hc. rewrite run_select in Hc. injection Hc as <-.
  destruct (_ <=? _) eqn:E in Hk; [done|]. by apply Z.leb_gt in E.
Qed.

Lemma daily_limit_ok u amount limit w w' : run (checkDailyLimit (Aff := Aff) u amount limit) w = (w', Ok tt) ->
  limit <= 0 \/ used_since u (psStartOfDayUTC (clock w)) w + amount <= limit.
Proof.
  unfold checkDailyLimit. destruct (limit <=? 0) eqn:E; [left; by apply Z.leb_le|].
  intros (now & Hn & Hk)%run_reads; [|done]. injection Hn as <-.
  apply run_reads in Hk as (used & Hu & Hk); [|apply reads_wrap, reads_select].
  apply run_wrap_ok in Hu. rewrite run_select in Hu. injection Hu as <-.
  destruct (_ <? _) eqn:E2 in Hk; [done|]. right. by apply Z.ltb_ge in E2.
Qed.

Lemma allocate_ok n k w w' t : run (allocate_attempts env (Aff := Aff) n k) w = (w', Ok t) -> trade_no_taken t w = false.
Proof.
  revert k. induction n as [|n IH]; intros k; [done|]. cbn [allocate_attempts].
  intros (now & Hn & Hk)%run_reads; [|auto]. cbv zeta in Hk.
  apply run_reads in Hk as (b & Hb & Hk); [|apply reads_wrap, reads_select].
  apply run_wrap_ok in Hb. rewrite run_select in Hb. injection Hb as <-.
  destruct (trade_no_taken (generateOutTradeNo now (random_part env k)) w) eqn:E; [by apply (IH (S k))|]. cbn in Hk. by injection Hk as _ <-.
Qed.

Lemma createOrderInTx_inv req plan cfg orderAmount limitAmount payAmount sel w w' o :
  run (createOrderInTx env req plan cfg orderAmount limitAmount payAmount sel) w = (w', Ok o) ->
  Z.of_nat (length (pending_orders (req_user req) w)) < max_pending cfg /\
  (UserDailyLimit cfg <= 0 \/ used_since (req_user req) (psStartOfDayUTC (clock w)) w + limitAmount <= UserDailyLimit cfg) /\
  exists t exp, trade_no_taken t w = false /\
    o = new_order (next_id (orders w)) req plan orderAmount payAmount sel t exp (clock w) /\
    w' = with_orders (<[next_id (orders w) := o]> (orders w)) w.
Proof.
  unfold createOrderInTx. intros ([] & Hp & Hk)%run_reads; [|auto]. apply pending_limit_ok in Hp.
  apply run_reads in Hk as ([] & Hd & Hk); [|auto]. apply daily_limit_ok in Hd.
  apply run_reads in Hk as (now & Hn & Hk); [|auto].
  apply run_reads in Hk as (t & Ht & Hk); [|apply allocate_reads]. apply allocate_ok in Ht.
  split; [done|]. split; [done|].
  rewrite run_statement in Hk. unfold insert_order in Hk. rewrite Ht, andb_false_r in Hk. cbn in Hk. injection Hk as <- <-.
  by exists t, (Add now ((if OrderTimeoutMin cfg <=? 0 then defaultOrderTimeoutMin else OrderTimeoutMin cfg) * Minute)).
Qed.

(** ** The whole *)

(** What an answer with an order says of its creation: the request was checked, the
user was within the limits, the amounts are those of the code, and the row is there. *)
Record created (req : CreateOrderRequest) (o : PaymentOrder) w w' (cfg : OrderConfig)
    (plan : option SubscriptionPlan) (limitAmount payAmount : Money) (sel : InstanceSelection) : Prop := mkCreated {
  cr_config : order_config env = Ok cfg;
  cr_enabled : PaymentsEnabled cfg = true;
  cr_input : validateOrderInput env req cfg = Ok (plan, limitAmount);
  cr_active : user_active env (req_user req) = true;
  cr_user : is_Some (users w !! req_user req);
  cr_pending : Z.of_nat (length (pending_orders (req_user req) w)) < max_pending cfg;
  cr_daily : UserDailyLimit cfg <= 0 \/
             used_since (req_user req) (psStartOfDayUTC (clock w)) w + limitAmount <= UserDailyLimit cfg;
  cr_pay : calculateCreateOrderPayAmountForOrderType limitAmount (RechargeFeeRate cfg)
             (paymentProviderConfigCurrency (sel_key sel) (sel_config sel)) (req_order_type req) (SubscriptionUSDToCNYRate cfg)
             = Ok payAmount;
  cr_row : exists t exp, trade_no_taken t w = false /\
             o = new_order (next_id (orders w)) req plan (order_amount req cfg plan limitAmount) payAmount sel t exp (clock w);
  cr_state : exists tradeNo l,
    w' = with_logs l (with_orders (<[ID o := set_payment_details tradeNo sel (SetUpdatedAt (clock w) o)]> (orders w)) w)
}.

Lemma invokeProvider_inv o req payAmount sel w w' r :
  run (invokeProvider env (Aff := Aff) o req payAmount sel) w = (w', Ok (OrderCreated r)) -> orders w !! ID o = Some o ->
  r = o /\ exists tradeNo l,
    w' = with_logs l (with_orders (<[ID o := set_payment_details tradeNo sel (SetUpdatedAt (clock w) o)]> (orders w)) w).
Proof.
  unfold invokeProvider. destruct (create_payment env sel (OutTradeNo o) payAmount) as [tradeNo|]; [|done]. intros Hk Ho.
  set (o1 := set_payment_details (removePostgresTextNUL tradeNo) sel (SetUpdatedAt (clock w) o)).
  set (w1 := with_orders (<[ID o := o1]> (orders w)) w).
  rewrite (run_after _ _ _ o1 w1) in Hk by (by apply yields_wrap, update_one_runs).
  destruct (audit_runs (ID o) "ORDER_CREATED" DetailOther (user_operator (req_user req)) w1) as (l & Hl).
  unfold writeAuditLog in Hk. rewrite (run_after _ _ _ tt _ Hl) in Hk. cbn in Hk. injection Hk as <- <-.
  split; [done|]. by exists (removePostgresTextNUL tradeNo), l.
Qed.

Lemma CreateOrder_inv req w w' o : run (CreateOrder env req) w = (w', Ok (OrderCreated o)) ->
  exists cfg plan limitAmount payAmount sel,
    created (normalize_request req) o w w' cfg plan limitAmount payAmount sel.
Proof.
  unfold CreateOrder. cbv zeta. set (rq := normalize_request req).
  intros (cfg & Hc & Hk)%run_reads; [|auto using reads_wrap].
  apply run_wrap_ok, lift_ok in Hc as [Hc _].
  destruct (PaymentsEnabled cfg) eqn:Hen; [cbn [negb] in Hk|done].
  apply run_reads in Hk as ([plan limitAmount] & Hin & Hk); [|auto]. apply lift_ok in Hin as [Hin _].
  apply run_reads in Hk as ([] & _ & Hk); [|auto].
  apply run_reads in Hk as (u & Hu & Hk); [|auto using reads_wrap].
  apply run_wrap_ok in Hu. unfold GetUserByID in Hu. rewrite run_select in Hu. injection Hu as Hu.
  destruct (user_active env (req_user rq)) eqn:Hact; [cbn [negb] in Hk|done].
  apply run_reads in Hk as (currency & Hcur & Hk); [|auto].
  apply run_reads in Hk as (pay0 & Hp0 & Hk); [|auto]. apply lift_ok in Hp0 as [Hp0 _].
  apply run_reads in Hk as (sel & Hsel & Hk); [|auto].
  apply run_reads in Hk as ([] & _ & Hk); [|auto].
  apply run_reads in Hk as (pay & Hpay & Hk); [|destruct (String.eqb _ _); auto].
  apply run_reads in Hk as ([] & _ & Hk); [|auto].
  apply run_reads in Hk as (oauth & Hoa & Hk); [|auto]. apply lift_ok in Hoa as [Hoa _].
  assert (Hpay' : calculateCreateOrderPayAmountForOrderType limitAmount (RechargeFeeRate cfg)
    (paymentProviderConfigCurrency (sel_key sel) (sel_config sel)) (req_order_type rq) (SubscriptionUSDToCNYRate cfg) = Ok pay).
  { destruct (String.eqb _ currency) eqn:E; [|by apply lift_ok in Hpay as [? _]].
    apply String.eqb_eq in E. rewrite E. cbn in Hpay. by injection Hpay as <-. }
  destruct oauth as [resp|].
  { cbn in Hk. injection Hk as _ ->. unfold maybeBuildWeChatOAuthRequiredResponseForSelection in Hoa.
    destruct (negb _); [done|]. destruct (wechat_app env); [|done]. by destruct (oauth_start env). }
  apply run_bind_inv in Hk as (o1 & w1 & Ho1 & Hk).
  apply createOrderInTx_inv in Ho1 as (Hpend & Hdaily & t & exp & Ht & Eo & Ew).
  apply run_bind_inv in Hk as (r & w2 & Hr & Hk). apply run_try_inv in Hr. destruct r as [r|e].
  2: { apply run_bind_inv in Hk as (? & ? & _ & Hk). done. }
  cbn in Hk. injection Hk as <- ->.
  assert (Hid : ID o1 = next_id (orders w)) by (by rewrite Eo).
  apply invokeProvider_inv in Hr as [-> (tradeNo & l & Ew2)]; [|rewrite Ew, Hid; apply lookup_insert_eq].
  exists cfg, plan, limitAmount, pay, sel. split; try done.
  - unfold user_by_id in Hu. destruct (users w !! _); [by eexists|done].
  - by exists t, exp.
  - exists tradeNo, l. rewrite Ew2, Ew. cbn. by rewrite Hid, insert_insert_eq.
Qed.

(** ** What a created order is *)

Lemma created_row req o w w' cfg plan limitAmount payAmount sel :
  created req o w w' cfg plan limitAmount payAmount sel ->
  exists o1, orders w !! ID o = None /\ orders w' = <[ID o := o1]> (orders w) /\ order_spec o1 = order_spec o /\
    Status o1 = OrderStatusPending /\ PayAmount o1 = PayAmount o /\ redeem_codes w' = redeem_codes w /\ users w' = users w /\
    clock w' = clock w.
Proof.
  intros [_ _ _ _ _ _ _ _ (t & exp & _ & Eo) (tradeNo & l & ->)].
  eexists. split_and!; [|reflexivity|done|by rewrite Eo|done|done|done|done]. rewrite Eo. apply next_id_fresh.
Qed.

Lemma trade_no_free t w id (o : PaymentOrder) : trade_no_taken t w = false -> orders w !! id = Some o -> OutTradeNo o <> t.
Proof.
  intros Ht Ho E. rewrite <- not_true_iff_false in Ht. apply Ht. unfold trade_no_taken. apply existsb_exists.
  exists (id, o). split; [|by apply String.eqb_eq]. apply list_elem_of_In, elem_of_map_to_list. done.
Qed.

(** C28. A request that runs alone, with nothing failing, and is answered with an order
keeps the limits: the user has at most the permitted number of pending orders, this one
among them, and its amount fits into what the day leaves; the order has a number that no
order has had, and no other row has changed. (Requests that run at the same time can
exceed the limits together, see [pending_limit_is_exceeded].) *)
Theorem created_order_is_within_limits req w w' o :
  run (CreateOrder env req) w = (w', Ok (OrderCreated o)) ->
  exists cfg plan limitAmount,
    order_config env = Ok cfg /\ validateOrderInput env (normalize_request req) cfg = Ok (plan, limitAmount) /\
    Z.of_nat (length (pending_orders (req_user req) w')) <= max_pending cfg /\
    (UserDailyLimit cfg <= 0 \/
     used_since (req_user req) (psStartOfDayUTC (clock w)) w + limitAmount <= UserDailyLimit cfg) /\
    (forall id (o' : PaymentOrder), orders w !! id = Some o' -> OutTradeNo o' <> OutTradeNo o /\ id <> ID o /\ orders w' !! id = Some o').
Proof.
  intros (cfg & plan & limitAmount & payAmount & sel & Hcr)%CreateOrder_inv.
  destruct (created_row _ _ _ _ _ _ _ _ _ Hcr) as (o1 & Hfresh & Eo & Es & Hst & _).
  pose proof Hcr as [Hc _ Hin _ _ Hp Hd _ (t & exp & Ht & Eno) _].
  exists cfg, plan, limitAmount. split_and!; [done|done| |done|].
  - assert (Hperm : pending_orders (req_user req) w' ≡ₚ (ID o, o1) :: pending_orders (req_user req) w).
    { unfold pending_orders. rewrite Eo, map_to_list_insert by done. apply reflexive_eq, filter_cons_True.
      cbn. rewrite Es. split; [by rewrite Eno|done]. }
    rewrite Hperm. cbn [length]. cbn in Hp. lia.
  - intros id o' Ho'. assert (Hne : id <> ID o) by (intros ->; congruence). split_and!; [|done|].
    + rewrite Eno. cbn. by apply (trade_no_free t w id).
    + by rewrite Eo, lookup_insert_ne.
Qed.

(** ** From the order to the credit *)

(** C8. An order that was created and is then paid is delivered. Take a request that is
not for a subscription and creates an order, with nothing else running and nothing
failing, and next, also alone, a notification of its payment, from its provider and for
the amount to pay, of an order worth more than 10^-8, with its code unused and its lock
free and with a rebate that works. The notification completes the order and credits the
user once with what the request was worth under the settings: for a balance order the
amount times the multiplier of recharges, to the cent; an order of an unknown type is
credited with the plain amount. *)
Theorem paid_order_is_delivered s req n pk a x w w1 o o1 :
  run (CreateOrder env req) w = (w1, Ok (OrderCreated o)) -> orders w1 !! ID o = Some o1 ->
  req_order_type req <> OrderTypeSubscription ->
  OrderID n = OutTradeNo o -> NotificationStatus n = NotificationStatusSuccess -> PaidAmount n = Num a -> 0 < a ->
  amount_matches o1 a = true -> provider_mismatch s o1 pk w1 = false ->
  validateProviderSnapshotMetadata o1 pk (Metadata n) = Ok tt ->
  users w !! req_user req = Some x -> redeem_codes w !! RechargeCode o = None -> 100 < Amount o ->
  lock_acquired (redeem_cache s (RechargeCode o)) = true -> rebate_works s ->
  (exists cfg v, order_config env = Ok cfg /\ req_amount req = Num v /\
     Amount o = numeric2 (if String.eqb (req_order_type (normalize_request req)) OrderTypeBalance
                          then calculateCreditedBalance v (BalanceRechargeMultiplier cfg) else v)) /\
  exists w', run (HandlePaymentNotification s n pk) w1 = (w', Ok tt) /\
    Status <$> orders w' !! ID o = Some OrderStatusCompleted /\
    users w' = <[req_user req := credited (Amount o) x]> (users w).
Proof.
  intros Hrun Ho1 Hty Hnum Hst Hpaid Hpos Hm Hprov Hmd Hx Hcode Hamt Hlock Hreb.
  destruct (CreateOrder_inv _ _ _ _ Hrun) as (cfg & plan & limitAmount & payAmount & sel & Hcr).
  destruct (created_row _ _ _ _ _ _ _ _ _ Hcr) as (o1' & Hfresh & Eo & Es & Hpend & _ & Ec & Eu & Et).
  rewrite Eo, lookup_insert_eq in Ho1. injection Ho1 as ->.
  pose proof Hcr as [Hc _ Hin _ _ _ _ _ (t & exp & Ht & Eno) _].
  assert (Hty' : req_order_type (normalize_request req) <> OrderTypeSubscription).
  { unfold normalize_request. cbn. by destruct (String.eqb (req_order_type req) ""). }
  split.
  { exists cfg. unfold validateOrderInput in Hin. destruct (_ && _); [done|].
    rewrite (proj2 (String.eqb_neq _ _)) in Hin by done. cbn [req_amount normalize_request] in Hin.
    destruct (req_amount req) as [v|]; [|done]. exists v. split_and!; [done|done|].
    destruct (v <=? 0); [done|]. destruct (_ || _); [done|]. injection Hin as <- <-. by rewrite Eno. }
  destruct (notification_runs s o1 n a pk x w1) as (w' & Hn & Hfin).
  - split; try done.
    + by rewrite Es, Eo, lookup_insert_eq.
    + by rewrite Es.
    + rewrite Eo, Es. apply map_Forall_insert_2; [done|]. intros id o' Ho' E. exfalso.
      rewrite Eno in E. exact (trade_no_free t w id o' Ht Ho' E).
  - split; rewrite ?Es; try done.
    + unfold is_subscription. rewrite ?Es, Eno. cbn. by apply String.eqb_neq.
    + rewrite Eno. apply recharge_code_trim.
    + rewrite Eno. done.
    + unfold code_open. by rewrite Ec, Es, Hcode.
    + rewrite Eu, Eno. done.
  - left. unfold payable. by rewrite Hpend.
  - exists w'. destruct Hfin as ((o2 & Ho2 & _ & Hst2) & _ & Hus). rewrite Es in Ho2. split_and!.
    + exact Hn.
    + by rewrite Ho2; cbn; rewrite Hst2.
    + rewrite Hus. unfold users_credited. rewrite Ec, Es, Hcode, Eu. by rewrite Eno.
Qed.

End CreateRuns.

(** * Examples of creations *)

#[local] Instance CreateUpper : GoUpper := { upper_slow := to_upper_ascii }.

Definition cx_now : Time := Date 2026 1 15 + 12 * Hour.

Definition cx_instance (id : Z) : PaymentProviderInstance := mkInstance id "alipay" "alipay" "" true true true 0.

Definition cx_store : Store unit :=
  mkStore ∅ ∅ ∅ {[1 := mkUser 0 0 5]} ∅ ∅ {[3 := cx_instance 3; 4 := cx_instance 4]} tt cx_now [].

Definition cx_config (balanceDisabled : bool) : OrderConfig :=
  mkOrderConfig (mkPaymentConfig false 0 0 "" "") true unit_ (1000 * unit_) 0 30 1 balanceDisabled (Num (unit_ * 3 / 2)) (Num 0)
    (2 * unit_) StrategyRoundRobin.

(** Limits of 5 for the first instance. *)
Definition cx_settings : MethodSettings :=
  mkMethodSettings (fun _ => Err ErrSettingNotFound) (fun _ => Some {["appId" := "app"]})
    (fun i => if InstanceID i =? 3 then Some {["alipay" := mkChannelLimits 0 0 (5 * unit_)]} else None).

Definition cx_env (balanceDisabled : bool) (random : string) : Surroundings :=
  mkSurroundings (Ok (cx_config balanceDisabled)) (fun _ => None) (fun _ => true) (fun _ => true) cx_settings
    (Err (ErrMsg "no WeChat")) (Ok tt) 0 (fun _ => random) (fun _ _ _ => Ok "T9").

Definition cx_request (orderType : string) : CreateOrderRequest := mkCreateRequest 1 (Num (10 * unit_)) "alipay" "" false orderType 0.

Definition cx_services : Services (Aff := unit) :=
  mkServices (mkRedeemPeers (fun _ _ _ t => Ok t) None) (fun _ => mkRedeemCache true (Some 0))
    (mkGateways ∅ true (fun _ => Err (ErrMsg "no gateway"))) (Ok tt).

Definition cx_created : Store unit := (run (CreateOrder (cx_env false "aB3kX9mQ") (cx_request "")) cx_store).1.
Definition cx_order : PaymentOrder :=
  match (run (CreateOrder (cx_env false "aB3kX9mQ") (cx_request "")) cx_store).2 with
  | Ok (OrderCreated o) => o
  | _ => new_order 0 (cx_request "") None 0 0 (mkSelection "" "" ∅ "" "") "" 0 0
  end.
Definition cx_row : PaymentOrder := default cx_order (orders cx_created !! ID cx_order).

(** The fee is 2 percent; the order goes to the second instance, and is worth half as
much again. *)
Example the_order : (OutTradeNo cx_order, ProviderInstanceID cx_row, PayAmount cx_order, Amount cx_order)
  = ("sub2_20260115aB3kX9mQ", Some "4", 10 * unit_ + 20 * cent, 15 * unit_).
Proof. vm_compute. reflexivity. Qed.

Lemma cx_run : run (CreateOrder (cx_env false "aB3kX9mQ") (cx_request "")) cx_store = (cx_created, Ok (OrderCreated cx_order)).
Proof.
  vm_compute. reflexivity.
Qed.

Definition cx_paid : PaymentNotification :=
  mkNotification "T9" "sub2_20260115aB3kX9mQ" (Num (10 * unit_ + 20 * cent)) NotificationStatusSuccess ∅.

Example paid_order_witness :
  exists w', run (HandlePaymentNotification cx_services cx_paid "alipay") cx_created = (w', Ok tt) /\
    Status <$> orders w' !! ID cx_order = Some OrderStatusCompleted /\
    users w' = <[1 := credited (15 * unit_) (mkUser 0 0 5)]> {[1 := mkUser 0 0 5]}.
Proof.
  assert (Ea : Amount cx_order = 15 * unit_) by (vm_compute; reflexivity). rewrite <- Ea.
  apply (paid_order_is_delivered (cx_env false "aB3kX9mQ") cx_services (cx_request "") cx_paid "alipay"
    (10 * unit_ + 20 * cent) (mkUser 0 0 5) cx_store cx_created cx_order cx_row).
  - apply cx_run.
  - vm_compute. reflexivity.
  - discriminate.
  - vm_compute. reflexivity.
  - reflexivity.
  - reflexivity.
  - vm_compute. reflexivity.
  - vm_compute. reflexivity.
  - vm_compute. reflexivity.
  - vm_compute. reflexivity.
  - reflexivity.
  - reflexivity.
  - vm_compute. reflexivity.
  - reflexivity.
  - exact I.
Defined.

Example created_order_witness :
  exists cfg plan limitAmount,
    order_config (cx_env false "aB3kX9mQ") = Ok cfg /\
    validateOrderInput (cx_env false "aB3kX9mQ") (normalize_request (cx_request "")) cfg = Ok (plan, limitAmount) /\
    Z.of_nat (length (pending_orders 1 cx_created)) <= max_pending cfg.
Proof.
  destruct (created_order_is_within_limits (cx_env false "aB3kX9mQ") (cx_request "") cx_store cx_created cx_order cx_run)
    as (cfg & plan & limitAmount & Hc & Hin & Hp & _).
  exists cfg, plan, limitAmount. exact (conj Hc (conj Hin Hp)).
Defined.

(** The limit of the first instance is below the order, so it goes to the second one. *)
Example selection_witness :
  let l := serving_candidates cx_settings "" "alipay" "alipay" cx_store in
  exists c, run (SelectInstance cx_settings 7 "" "alipay" "alipay" StrategyRoundRobin (10 * unit_)) cx_store
    = (cx_store, Ok (buildSelection cx_settings (inst c))) /\ InstanceID (inst c) = 4.
Proof.
  cbv zeta. destruct (selection_is_admitted cx_settings 7 "" "alipay" "alipay" StrategyRoundRobin (10 * unit_) cx_store)
    as (c & Hr & Hin & Hf & _).
  - vm_compute. discriminate.
  - exists c. split; [exact Hr|]. revert Hin Hf.
    assert (El : serving_candidates cx_settings "" "alipay" "alipay" cx_store
                 = [mkCandidate (cx_instance 3) 0; mkCandidate (cx_instance 4) 0]) by (vm_compute; reflexivity).
    rewrite El. intros Hin Hf. apply elem_of_cons in Hin as [->|Hin].
    + destruct Hf as (_ & Hmax & _).
      * exists (mkCandidate (cx_instance 4) 0). split; [right; by left|].
        split_and!; intros Hlt; vm_compute in Hlt; discriminate Hlt.
      * exfalso. assert (Hle : 10 * unit_ <= 5 * unit_) by (apply Hmax; vm_compute; reflexivity).
        vm_compute in Hle. by apply Hle.
    + apply list_elem_of_singleton in Hin as ->. reflexivity.
Defined.

(** ** What the checks let through *)

(** Recharges are disabled; a request whose type is neither a recharge nor a
subscription is taken all the same, and its payment is credited as a recharge. *)
Definition cx_unknown : Store unit := (run (CreateOrder (cx_env true "aB3kX9mQ") (cx_request "topup")) cx_store).1.

Example unknown_types_recharge :
  (run (CreateOrder (cx_env true "aB3kX9mQ") (cx_request "balance")) cx_store).2 = Err (ErrApp 403 "BALANCE_PAYMENT_DISABLED") /\
  users (run (HandlePaymentNotification cx_services cx_paid "alipay") cx_unknown).1 !! 1
    = Some (mkUser (10 * unit_) (10 * unit_) 5).
Proof. split; vm_compute; reflexivity. Qed.

(** One pending order is permitted; two requests count before either commits. *)
Definition cx_race : Store unit :=
  let p random := discard (CreateOrder (cx_env false random) (cx_request "")) in
  (schedule ([Spawn (p "aaaaaaaa"); Spawn (p "bbbbbbbb")] ++ repeat (Turn 0 None) 10 ++ repeat (Turn 1 None) 30
             ++ repeat (Turn 0 None) 30)%list (cx_store, [])).1.

Example pending_limit_is_exceeded :
  max_pending (cx_config false) = 1 /\ length (pending_orders 1 cx_race) = 2%nat.
Proof. split; vm_compute; reflexivity. Qed.
