(* ===== verification/PaymentRefunds.v ===== *)
(** * Refunds

[service/payment_refund.go]: requests of users, the preparation of a refund, its
execution - the claim of the order, the deduction, the call of the gateway, and what
follows from its answer - and the confirmation of a refund that was pending; and the
two operations of [service/subscription_service.go] that take days from a wallet.
The call of a gateway is a statement that leaves its request in the store. *)
From S2P Require Import Prelude GoText GoTime SubscriptionWindow Redis Programs Interleave PaymentStore PaymentProviders Redeem Payments.
From Stdlib Require Import Bool.

Local Open Scope string_scope.
Local Open Scope Z_scope.

Inductive DeductionType : Type :=
  | DeductionTypeBalance
  | DeductionTypeSubscription
  | DeductionTypeNone.

#[global] Instance deduction_type_eq_dec : EqDecision DeductionType.
Proof. solve_decision. Defined.

Record RefundPlan : Type := mkRefundPlan {
  plan_order : PaymentOrder;
  plan_amount : Money;
  GatewayAmount : Money;
  plan_reason : string;
  Force : bool;
  plan_deduction : DeductionType;
  BalanceToDeduct : Money;
  SubDaysToDeduct : Z;
  SubscriptionID : Z
}.

Definition with_deduction (t : DeductionType) (balance : Money) (days sub : Z) (p : RefundPlan) : RefundPlan :=
  mkRefundPlan (plan_order p) (plan_amount p) (GatewayAmount p) (plan_reason p) (Force p) t balance days sub.

Definition set_balance (balance : Money) (p : RefundPlan) : RefundPlan :=
  with_deduction (plan_deduction p) balance (SubDaysToDeduct p) (SubscriptionID p) p.
Definition set_days (days : Z) (p : RefundPlan) : RefundPlan :=
  with_deduction (plan_deduction p) (BalanceToDeduct p) days (SubscriptionID p) p.

Record RefundResult : Type := mkRefundResult {
  Success : bool;
  Warning : string;
  RequireForce : bool;
  BalanceDeducted : Money;
  SubDaysDeducted : Z
}.

Definition refused (warning : string) (requireForce : bool) : RefundResult :=
  mkRefundResult false warning requireForce 0 0.

Definition SubscriptionStatusExpired := "expired".

Definition InternalServer (reason : string) : goerr := ErrApp 500 reason.

(** The states that a refund may start from. *)
Definition refundable (st : OrderStatus) : bool :=
  status_in st [OrderStatusCompleted; OrderStatusRefundRequested; OrderStatusRefundPending; OrderStatusRefundFailed].

Section Refunds.
Context `{GoUnicode, GoUpper} {Aff : Type}.
Notation World := (Store Aff).
Implicit Types w : World.
Context (s : Services (Aff := Aff)).

(** ** Days of a wallet *)

Definition with_wallet (id : Z) (f : WalletRow -> WalletRow) w : World :=
  match wallets w !! id with Some r => with_wallets (<[id := f r]> (wallets w)) w | None => w end.

(** The transaction of [ExtendSubscription]. *)
Definition extend_tx (subscriptionID days : Z) w : res World :=
  match wallets w !! subscriptionID with
  | None => Err ErrSubscriptionNotFound
  | Some sub =>
      let days := Z.max (Z.min days MaxValidityDays) (- MaxValidityDays) in
      let now := clock w in
      let isExpired := negb (After (wallet_expires sub) now) in
      if isExpired && (days <? 0) then Err (BadRequest "CANNOT_SHORTEN_EXPIRED")
      else
        let newExpiresAt := AddDate (if isExpired then now else wallet_expires sub) 0 0 days in
        let newExpiresAt := if After newExpiresAt MaxExpiresAt then MaxExpiresAt else newExpiresAt in
        if negb (After newExpiresAt now) then Err ErrAdjustWouldExpire
        else
          Ok (with_wallet subscriptionID (fun r =>
                mkWallet (wallet_user r) (wallet_plan r) (timestamptz newExpiresAt)
                  (if String.eqb (wallet_status r) SubscriptionStatusExpired then SubscriptionStatusActive
                   else wallet_status r)
                  (wallet_notes r) (wallet_limit r) (wallet_period r) (wallet_window r) (wallet_created r)) w)
  end.

Definition wallet_get (id : Z) : Act World WalletRow :=
  select (fun w => match wallets w !! id with Some r => Ok r | None => Err ErrSubscriptionNotFound end).

Definition ExtendSubscription (subscriptionID days : Z) : Act World WalletRow :=
  let* _ := effect (extend_tx subscriptionID days) in
  wallet_get subscriptionID.

(** A wallet is deleted softly: it leaves the table that payments see. *)
Definition RevokeSubscription (subscriptionID : Z) : Act World unit :=
  let* _ := wallet_get subscriptionID in
  let* _ := effect (fun w => Ok (with_wallets (delete subscriptionID (wallets w)) w)) in
  match invalidateSubscriptionCaches s with Ok _ => aret tt | Err e => afail e end.

(** Days are taken; a wallet that would expire by it is revoked. *)
Definition take_days (p : RefundPlan) : Act World unit :=
  let* r := atry (ExtendSubscription (SubscriptionID p) (- SubDaysToDeduct p)) in
  match r with
  | Ok _ => aret tt
  | Err e =>
      if errors_Is e ErrAdjustWouldExpire then awrap "revoke subscription" (RevokeSubscription (SubscriptionID p))
      else afail (ErrWrap "deduct subscription days" e)
  end.

(** ** Requests of users *)

Definition validateRefundRequest (oid uid : Z) : Act World PaymentOrder :=
  let* o := order_or_404 oid in
  if negb (UserID o =? uid) then afail (Forbidden "FORBIDDEN")
  else if negb (String.eqb (OrderType o) OrderTypeBalance) then afail (BadRequest "INVALID_ORDER_TYPE")
  else if negb (bool_decide (Status o = OrderStatusCompleted)) then afail (BadRequest "INVALID_STATUS")
  else
    let* inst := atry (getRefundOrderProviderInstance o) in
    match inst with
    | Ok (Some inst) =>
        if AllowUserRefund inst then aret o else afail (Forbidden "USER_REFUND_DISABLED")
    | _ => afail (Forbidden "USER_REFUND_DISABLED")
    end.

Definition set_request (now : Time) (reason by_ : string) (amount : Money) (o : PaymentOrder) : PaymentOrder :=
  set_refund (mkOrderRefund (numeric2 amount) (RefundReason o) (RefundAt o) (ForceRefund o)
                (Some (timestamptz now)) (Some reason) (Some by_)) (SetStatus OrderStatusRefundRequested o).

Definition RequestRefund (oid uid : Z) (reason : string) : Act World unit :=
  let* o := validateRefundRequest oid uid in
  let* u := awrap "get user" (GetUserByID (UserID o)) in
  if Balance u <? Amount o then afail (BadRequest "BALANCE_NOT_ENOUGH")
  else
    let nr := TrimSpace reason in
    let* now := time_now in
    let* c := awrap "update"
      (order_update oid
         (fun r => (UserID r =? uid) && bool_decide (Status r = OrderStatusCompleted)
                   && String.eqb (OrderType r) OrderTypeBalance)
         (set_request now nr (FormatInt uid) (Amount o))) in
    if c =? 0 then afail (Conflict "CONFLICT")
    else writeAuditLog oid "REFUND_REQUESTED" ("user:" ++ FormatInt uid).

(** ** Preparation *)

(** The plan with what is to be deducted, or the answer that force is required. *)
Definition prepDeduct (o : PaymentOrder) (p : RefundPlan) (force : bool) : Act World (RefundPlan + RefundResult) :=
  if String.eqb (OrderType o) OrderTypeSubscription then
    match SubscriptionDays o with
    | None => aret (inl (with_deduction DeductionTypeSubscription (BalanceToDeduct p) (SubDaysToDeduct p) (SubscriptionID p) p))
    | Some days =>
        let* sub := atry (locatePaymentSubscriptionForOrder (UserID o) (ID o)) in
        match sub with
        | Ok (Some (id, _)) => aret (inl (with_deduction DeductionTypeSubscription (BalanceToDeduct p) days id p))
        | _ =>
            if force then aret (inl (with_deduction DeductionTypeSubscription (BalanceToDeduct p) days (SubscriptionID p) p))
            else aret (inr (refused "cannot find active subscription for deduction, use force" true))
        end
    end
  else
    let* u := atry (GetUserByID (UserID o)) in
    match u with
    | Err _ => if force then aret (inl p) else aret (inr (refused "cannot fetch user balance, use force" true))
    | Ok u =>
        if (Balance u <? plan_amount p) && negb force then
          aret (inr (refused "user balance is insufficient for deduction, use force" true))
        else
          aret (inl (with_deduction DeductionTypeBalance (Z.max 0 (Z.min (plan_amount p) (Balance u)))
                       (SubDaysToDeduct p) (SubscriptionID p) p))
    end.

Definition default_reason (o : PaymentOrder) : string := "refund order:" ++ FormatInt (ID o).

Definition PrepareRefund (oid : Z) (amt : Float) (reason : string) (force deduct : bool)
    : Act World (RefundPlan + RefundResult) :=
  let* o := order_or_404 oid in
  if negb (refundable (Status o)) then afail (BadRequest "INVALID_STATUS")
  else
    let* inst := atry (getRefundOrderProviderInstance o) in
    match inst with
    | Err _ => afail (InternalServer "PROVIDER_LOOKUP_FAILED")
    | Ok None => afail (Forbidden "REFUND_DISABLED")
    | Ok (Some inst) =>
        if negb (RefundEnabled inst) then afail (Forbidden "REFUND_DISABLED")
        else
          match amt with
          | NaNOrInf => afail (BadRequest "INVALID_AMOUNT")
          | Num a =>
              let amt := if a <=? 0 then Amount o else a in
              let orderCurrency := PaymentOrderCurrency o in
              if paymentAmountToleranceForCurrency orderCurrency <? amt - Amount o then
                afail (BadRequest "REFUND_AMOUNT_EXCEEDED")
              else
                let ga := calculateGatewayRefundAmount (Amount o) (PayAmount o) amt orderCurrency in
                let rr := TrimSpace reason in
                let rr := if String.eqb rr "" then psStringValue (RefundRequestReason o) else rr in
                let rr := if String.eqb rr "" then default_reason o else rr in
                let p := mkRefundPlan o amt ga rr force DeductionTypeNone 0 0 0 in
                if deduct then prepDeduct o p force else aret (inl p)
          end
    end.

(** ** Execution *)

(** Errors of the update are ignored. *)
Definition restoreStatus (p : RefundPlan) : Act World unit :=
  let rs := if bool_decide (Status (plan_order p) = OrderStatusRefundRequested) then OrderStatusRefundRequested
            else OrderStatusCompleted in
  let* _ := atry (order_update_one (ID (plan_order p)) (SetStatus rs)) in aret tt.

(** [m], or the order as it was and an error. *)
Definition or_restore {A} (p : RefundPlan) (m : Act World A) : Act World A :=
  let* r := atry m in
  match r with
  | Ok a => aret a
  | Err e => let* _ := restoreStatus p in afail e
  end.

Definition ROLLBACK_FAILED := "REFUND_ROLLBACK_FAILED".

(** The balance, unless an earlier attempt has taken it and failed to give it back. *)
Definition deduct_balance (p : RefundPlan) : Act World RefundPlan :=
  if bool_decide (plan_deduction p = DeductionTypeBalance) && (0 <? BalanceToDeduct p) then
    let* skip := hasAuditLog (ID (plan_order p)) ROLLBACK_FAILED in
    if skip then aret (set_balance 0 p)
    else
      let* deducted := or_restore p (awrap "deduction"
                         (statement (DeductAvailableBalance (UserID (plan_order p)) (BalanceToDeduct p)))) in
      aret (set_balance deducted p)
  else aret p.

Definition has_days (p : RefundPlan) : bool :=
  bool_decide (plan_deduction p = DeductionTypeSubscription) && (0 <? SubDaysToDeduct p) && (0 <? SubscriptionID p).

Definition deduct_days (p : RefundPlan) : Act World RefundPlan :=
  if has_days p then
    let* skip := hasAuditLog (ID (plan_order p)) ROLLBACK_FAILED in
    if skip then aret (set_days 0 p)
    else
      let* _ := or_restore p (take_days p) in
      aret p
  else aret p.

Definition validateRefundProviderResponse (resp : option RefundResponse) : res RefundResponse :=
  match resp with
  | None => Err (ErrMsg "payment refund response missing")
  | Some r =>
      let status := TrimSpace (refund_status r) in
      if String.eqb status ProviderStatusSuccess || String.eqb status ProviderStatusRefunded
         || String.eqb status ProviderStatusPending then Ok r
      else if String.eqb status ProviderStatusFailed then Err (ErrMsg "payment refund failed")
      else Err (ErrMsg "payment refund returned unknown status")
  end.

Definition formatGatewayRefundAmount (amount : Money) (order : PaymentOrder) : Money :=
  round_to (grain (CurrencyMaxFractionDigits (PaymentOrderCurrency order))) amount.

(** The request has reached the gateway when its answer, or none, comes back. *)
Definition gateway_refund (prov : Provider) (req : RefundRequest)
    : Act World (option RefundResponse * option goerr) :=
  statement (fun w => (with_gateway (req :: gateway w) w, Ok (Refund_ prov req))).

(** A pending response counts even when it comes with an error. *)
Definition refund_answer (r : option RefundResponse * option goerr) : res RefundResponse :=
  match r with
  | (Some resp, Some e) =>
      if String.eqb (TrimSpace (refund_status resp)) ProviderStatusPending then Ok resp else Err e
  | (None, Some e) => Err e
  | (resp, None) => validateRefundProviderResponse resp
  end.

Definition gwRefund (p : RefundPlan) : Act World RefundResponse :=
  let o := plan_order p in
  if String.eqb (PaymentTradeNo o) "" then
    let* _ := writeAuditLog (ID o) "REFUND_NO_TRADE_NO" "admin" in
    aret (mkRefundResponse "" ProviderStatusSuccess)
  else
    let* prov := awrap "get refund provider" (getRefundProvider (gateways s) o) in
    match validateProviderSnapshotMetadata o (ProviderKey_ prov) (providerMerchantIdentityMetadata prov) with
    | Err e => let* _ := writeAuditLog (ID o) "REFUND_PROVIDER_METADATA_MISMATCH" "admin" in afail e
    | Ok _ =>
        let* r := gateway_refund prov (mkRefundRequest (PaymentTradeNo o) (OutTradeNo o)
                                         (formatGatewayRefundAmount (GatewayAmount p) o) (plan_reason p)) in
        match refund_answer r with Ok resp => aret resp | Err e => afail e end
    end.

(** *** Afterwards *)

(** Whether all that was deducted has been given back. *)
Definition RollbackRefund (p : RefundPlan) : Act World bool :=
  let o := plan_order p in
  let* balance := (if bool_decide (plan_deduction p = DeductionTypeBalance) && (0 <? BalanceToDeduct p)
                   then atry (effect (UpdateBalance (UserID o) (BalanceToDeduct p))) else aret (Ok tt)) in
  match balance with
  | Err _ => let* _ := writeAuditLog (ID o) ROLLBACK_FAILED "admin" in aret false
  | Ok _ =>
      if has_days p then
        let* r := atry (ExtendSubscription (SubscriptionID p) (SubDaysToDeduct p)) in
        match r with
        | Err _ => let* _ := writeAuditLog (ID o) ROLLBACK_FAILED "admin" in aret false
        | Ok _ => aret true
        end
      else aret true
  end.

Definition mark_refund_failed (oid : Z) (e : goerr) : Act World unit :=
  let* now := time_now in
  let* _ := atry (order_update_one oid
                    (fun o => set_failed (Some (timestamptz now)) (Some e) (SetStatus OrderStatusRefundFailed o))) in
  writeAuditLog oid "REFUND_FAILED" "admin".

Definition handleGwFail (p : RefundPlan) (gErr : goerr) : Act World RefundResult :=
  let oid := ID (plan_order p) in
  let* rolledBack := RollbackRefund p in
  if rolledBack : bool then
    let* _ := restoreStatus p in
    let* _ := writeAuditLog oid "REFUND_GATEWAY_FAILED" "admin" in
    aret (refused "gateway failed, rolled back" false)
  else
    let* _ := mark_refund_failed oid gErr in
    afail (InternalServer "REFUND_FAILED").

Definition set_refunded (p : RefundPlan) (now : Time) (o : PaymentOrder) : PaymentOrder :=
  let fs := if plan_amount p <? Amount (plan_order p) then OrderStatusPartiallyRefunded else OrderStatusRefunded in
  set_refund (mkOrderRefund (numeric2 (plan_amount p)) (Some (plan_reason p)) (Some (timestamptz now)) (Force p)
                (RefundRequestedAt o) (RefundRequestReason o) (RefundRequestedBy o)) (SetStatus fs o).

Definition refund_success (p : RefundPlan) : RefundResult :=
  mkRefundResult true "" false (BalanceToDeduct p) (SubDaysToDeduct p).

Definition markRefundOk (p : RefundPlan) : Act World RefundResult :=
  let* now := time_now in
  let* _ := awrap "mark refund" (order_update_one (ID (plan_order p)) (set_refunded p now)) in
  let* _ := writeAuditLog (ID (plan_order p)) "REFUND_SUCCESS" "admin" in
  aret (refund_success p).

Definition refundResponseID (resp : RefundResponse) : string := TrimSpace (RefundID resp).

Definition set_refund_pending (p : RefundPlan) (o : PaymentOrder) : PaymentOrder :=
  set_failed None None
    (set_refund (mkOrderRefund (numeric2 (plan_amount p)) (Some (plan_reason p)) None (Force p)
                   (RefundRequestedAt o) (RefundRequestReason o) (RefundRequestedBy o))
       (SetStatus OrderStatusRefundPending o)).

(** What was deducted is given back until the refund is confirmed. *)
Definition markRefundPending (p : RefundPlan) (resp : RefundResponse) : Act World RefundResult :=
  let* rollbackOK := RollbackRefund p in
  let* _ := awrap "mark refund pending" (order_update_one (ID (plan_order p)) (set_refund_pending p)) in
  let* _ := write_audit (ID (plan_order p)) "REFUND_PENDING" (DetailRefundPending (refundResponseID resp) rollbackOK) "admin" in
  aret (refused (if rollbackOK : bool then "gateway refund is pending confirmation"
                 else "gateway refund is pending confirmation; refund deduction rollback failed") false).

Definition finishRefund (p : RefundPlan) (resp : RefundResponse) : Act World RefundResult :=
  match validateRefundProviderResponse (Some resp) with
  | Err e => handleGwFail p e
  | Ok _ =>
      let status := TrimSpace (refund_status resp) in
      if String.eqb status ProviderStatusSuccess || String.eqb status ProviderStatusRefunded then markRefundOk p
      else markRefundPending p resp
  end.

Definition ExecuteRefund (p : RefundPlan) : Act World RefundResult :=
  let* c := awrap "lock" (order_update (ID (plan_order p)) (fun o => refundable (Status o))
                            (SetStatus OrderStatusRefunding)) in
  if c =? 0 then afail (Conflict "CONFLICT")
  else
    let* p := deduct_balance p in
    let* p := deduct_days p in
    let* resp := atry (gwRefund p) in
    match resp with
    | Err e => handleGwFail p e
    | Ok resp => finishRefund p resp
    end.

(** ** Refunds that are pending *)

(** The record, unique for an order; without one, nothing is known to be missing. *)
Definition latestRefundPendingDetail (oid : Z) : Act World (string * bool) :=
  let* entry := atry (select (fun w => Ok (logs w !! (oid, "REFUND_PENDING")))) in
  aret (match entry with
        | Ok (Some l) => match Detail l with
                         | DetailRefundPending id ok => (TrimSpace id, ok)
                         | DetailOther => ("", true)
                         end
        | _ => ("", true)
        end).

Definition refundFinalizePlan (o : PaymentOrder) : RefundPlan :=
  let reason := TrimSpace (psStringValue (RefundReason o)) in
  mkRefundPlan o (RefundAmount o)
    (calculateGatewayRefundAmount (Amount o) (PayAmount o) (RefundAmount o) (PaymentOrderCurrency o))
    (if String.eqb reason "" then default_reason o else reason) (ForceRefund o) DeductionTypeBalance
    (if String.eqb (OrderType o) OrderTypeBalance then RefundAmount o else 0) 0 0.

Definition finalizeRefundFailed (o : PaymentOrder) (gErr : goerr) : Act World RefundResult :=
  let* _ := mark_refund_failed (ID o) gErr in
  aret (refused "gateway refund failed" false).

(** [take_days] in the transaction: the wallet is deleted if it would expire. *)
Definition take_days_tx (p : RefundPlan) w : res World :=
  match extend_tx (SubscriptionID p) (- SubDaysToDeduct p) w with
  | Ok w' => Ok w'
  | Err e =>
      if errors_Is e ErrAdjustWouldExpire then
        match invalidateSubscriptionCaches s with
        | Ok _ => Ok (with_wallets (delete (SubscriptionID p) (wallets w)) w)
        | Err e => Err (ErrWrap "revoke subscription" e)
        end
      else Err (ErrWrap "deduct subscription days" e)
  end.

Definition applyRefundFinalDeduction (p : RefundPlan) w : res (World * RefundPlan) :=
  let balance :=
    if bool_decide (plan_deduction p = DeductionTypeBalance) && (0 <? BalanceToDeduct p) then
      match DeductAvailableBalance (UserID (plan_order p)) (BalanceToDeduct p) w with
      | (w', Ok deducted) => Ok (w', set_balance deducted p)
      | (_, Err e) => Err (ErrWrap "deduction" e)
      end
    else Ok (w, p) in
  match balance with
  | Err e => Err e
  | Ok (w, p) =>
      if has_days p then
        match take_days_tx p w with Ok w' => Ok (w', p) | Err e => Err e end
      else Ok (w, p)
  end.

Definition markRefundOkTx (p : RefundPlan) w : res World :=
  match update_one_order (ID (plan_order p)) (set_refunded p (clock w)) w with
  | (_, Err e) => Err (ErrWrap "mark refund" e)
  | (w, Ok _) =>
      match insert_log (ID (plan_order p)) "REFUND_SUCCESS" DetailOther "admin" w with
      | (_, Err e) => Err (ErrWrap "write refund audit" e)
      | (w, Ok _) => Ok w
      end
  end.

Definition finalizePendingRefundSuccess (p : RefundPlan) : Act World RefundResult :=
  statement (fun w =>
    match update_order (ID (plan_order p)) (fun o => bool_decide (Status o = OrderStatusRefundPending))
            (SetStatus OrderStatusRefunding) w with
    | (_, Err e) => (w, Err (ErrWrap "claim pending refund" e))
    | (w1, Ok claimed) =>
        if claimed =? 0 then (w, Err (Conflict "CONFLICT"))
        else
          match applyRefundFinalDeduction p w1 with
          | Err e => (w, Err e)
          | Ok (w2, p) =>
              match markRefundOkTx p w2 with
              | Err e => (w, Err e)
              | Ok w3 => (w3, Ok (refund_success p))
              end
          end
    end).

Definition QueryAndFinalizeRefund (oid : Z) : Act World RefundResult :=
  let* o := order_or_404 oid in
  if negb (bool_decide (Status o = OrderStatusRefundPending)) then afail (BadRequest "INVALID_STATUS")
  else
    let* prov := awrap "get refund provider" (getRefundProvider (gateways s) o) in
    match QueryRefund prov with
    | None => afail (BadRequest "REFUND_QUERY_UNSUPPORTED")
    | Some query =>
        let* detail := latestRefundPendingDetail oid in
        match query (mkRefundQueryRequest (PaymentTradeNo o) (OutTradeNo o) detail.1
                       (formatGatewayRefundAmount (RefundAmount o) o)) with
        | (_, Some e) => afail (ErrWrap "query refund" e)
        | (resp, None) =>
            match validateRefundProviderResponse resp with
            | Err e => finalizeRefundFailed o e
            | Ok resp =>
                let plan := refundFinalizePlan o in
                let* early := (if negb detail.2 then aret (inl (set_days 0 (set_balance 0 plan)))
                               else if String.eqb (OrderType o) OrderTypeSubscription then prepDeduct o plan true
                               else aret (inl plan)) in
                match early with
                | inr result => aret result
                | inl plan =>
                    let status := TrimSpace (refund_status resp) in
                    if String.eqb status ProviderStatusSuccess || String.eqb status ProviderStatusRefunded then
                      finalizePendingRefundSuccess plan
                    else
                      let* _ := writeAuditLog oid "REFUND_QUERY_PENDING" "admin" in
                      aret (refused "gateway refund is still pending confirmation" false)
                end
            end
        end
    end.

End Refunds.
