(* ===== verification/PaymentRefundRuns.v ===== *)
(** * Refunds that run alone

What [ExecuteRefund] and [QueryAndFinalizeRefund] leave when they run without faults
and without others, for each answer of the gateway; and the bounds of a prepared
refund. *)
From S2P Require Import Prelude GoText GoTime SubscriptionWindow Redis Programs Interleave PaymentStore PaymentProviders Redeem Payments PaymentMoves PaymentDelivery PaymentRefunds.
From Stdlib Require Import Bool.

Local Open Scope string_scope.
Local Open Scope Z_scope.

(** ** Rounding *)

Lemma round_to_mono k x y : 0 < k -> x <= y -> round_to k x <= round_to k y.
Proof.
  intros Hk Hxy. unfold round_to.
  assert (Hh : 0 <= k / 2) by (apply Z.div_pos; lia).
  destruct (0 <=? x) eqn:Ex, (0 <=? y) eqn:Ey; apply Z.leb_le in Ex || apply Z.leb_gt in Ex;
    apply Z.leb_le in Ey || apply Z.leb_gt in Ey; [|lia| |].
  - apply Z.mul_le_mono_nonneg_r; [lia|]. apply Z.div_le_mono; lia.
  - assert (0 <= (- x + k / 2) / k) by (apply Z.div_pos; lia).
    assert (0 <= (y + k / 2) / k) by (apply Z.div_pos; lia). nia.
  - apply Z.opp_le_mono. rewrite !Z.opp_involutive. apply Z.mul_le_mono_nonneg_r; [lia|]. apply Z.div_le_mono; lia.
Qed.

Lemma numeric8_mono x y : x <= y -> numeric8 x <= numeric8 y.
Proof. by apply round_to_mono. Qed.

(** Rounding what is rounded changes nothing. *)
Lemma round_to_idem k x : 0 < k -> round_to k (round_to k x) = round_to k x.
Proof.
  intros Hk. destruct (round_to_multiple k x Hk) as [m ->].
  assert (Hh : 0 <= k / 2 < k) by (split; [apply Z.div_pos; lia|apply Z.div_lt_upper_bound; lia]).
  unfold round_to. destruct (0 <=? m * k).
  - rewrite Z.div_add_l, (Z.div_small (k / 2)) by lia. lia.
  - replace (- (m * k) + k / 2) with (- m * k + k / 2) by lia.
    rewrite Z.div_add_l, (Z.div_small (k / 2)) by lia. lia.
Qed.

Section Runs.
Context `{GoUnicode, GoUpper} {Aff : Type}.
Notation World := (Store Aff).
Implicit Types w : World.

(** ** Statements *)

Lemma with_users_same w : with_users (users w) w = w.
Proof. by destruct w. Qed.

(** The provider of a refund depends only on the instances. *)
Lemma getRefundProvider_frame g (o : PaymentOrder) w w' prov : instances w' = instances w ->
  yields (getRefundProvider g o) w prov w -> yields (getRefundProvider g o) w' prov w'.
Proof.
  intros Hi. unfold yields, getRefundProvider, getRefundOrderProviderInstance, resolveSnapshotOrderProviderInstance.
  destruct (psOrderProviderSnapshot o) as [sn|]; cbv zeta;
    repeat first
      [ case_match; cbn [abind pbind afail aret run]; try congruence
      | progress unfold instance_get, select, statement, abind, afail, aret; cbn [pbind run fst snd flat]
      | rewrite Hi ]; intros E; repeat (case_match; cbn in *; try congruence); cbn in *; congruence.
Qed.

(** ** A refund that is prepared *)

(** What there is to deduct of [amount] from a balance. *)
Definition deductible (amount : Money) (x : UserRow) : Money := Z.max 0 (Z.min amount (Balance x)).

Record prepared_for (o : PaymentOrder) (x : UserRow) (p : RefundPlan) : Prop := mkPrepared {
  pp_order : plan_order p = o;
  pp_deduction : plan_deduction p = DeductionTypeBalance;
  pp_balance : BalanceToDeduct p = deductible (plan_amount p) x;
  pp_days : SubDaysToDeduct p = 0;
  pp_amount : plan_amount p - Amount o <= paymentAmountToleranceForCurrency (PaymentOrderCurrency o);
  pp_gateway : GatewayAmount p = calculateGatewayRefundAmount (Amount o) (PayAmount o) (plan_amount p) (PaymentOrderCurrency o);
  pp_status : refundable (Status o) = true
}.

Lemma getRefundOrderProviderInstance_state (o : PaymentOrder) w : (run (getRefundOrderProviderInstance o) w).1 = w.
Proof.
  unfold getRefundOrderProviderInstance, resolveSnapshotOrderProviderInstance, instance_get, select, statement, abind, afail, aret.
  cbv zeta. repeat (case_match; cbn in *; try done).
Qed.

Lemma prepared_spec (o : PaymentOrder) x amt reason force p w w' :
  orders w !! ID o = Some o -> OrderType o = OrderTypeBalance -> users w !! UserID o = Some x ->
  run (PrepareRefund (ID o) amt reason force true) w = (w', Ok (inl p)) -> w' = w /\ prepared_for o x p.
Proof.
  intros Ho Hty Hx. unfold PrepareRefund. intros (o' & w1 & E1 & E2)%run_bind_inv.
  assert (o' = o /\ w1 = w) as [-> ->].
  { unfold order_or_404, order_get in E1. apply run_bind_inv in E1 as (r & w2 & Er & E1).
    rewrite run_try, run_select in Er. injection Er as <- <-. unfold order_row in E1. rewrite Ho in E1.
    cbn in E1. by injection E1 as -> ->. }
  destruct (refundable (Status o)) eqn:Hst; [cbn [negb] in E2|done].
  apply run_bind_inv in E2 as (inst & w2 & Ei & E2). rewrite run_try in Ei. injection Ei as <- <-.
  rewrite getRefundOrderProviderInstance_state in E2.
  destruct (run (getRefundOrderProviderInstance o) w).2 as [[inst|]|e]; [|done|done].
  destruct (RefundEnabled inst); [cbn [negb] in E2|done]. destruct amt as [a|]; [|done].
  cbv zeta in E2. set (am := if a <=? 0 then Amount o else a) in E2.
  destruct (paymentAmountToleranceForCurrency (PaymentOrderCurrency o) <? am - Amount o) eqn:Htol; [done|].
  apply Z.ltb_ge in Htol. unfold prepDeduct in E2. rewrite Hty in E2.
  cbn [String.eqb Ascii.eqb Bool.eqb OrderTypeBalance OrderTypeSubscription] in E2.
  apply run_bind_inv in E2 as (u & w2 & Eu & E2). unfold GetUserByID in Eu. rewrite run_try, run_select in Eu.
  injection Eu as <- <-. unfold user_by_id in E2. cbn [fst snd] in E2. rewrite Hx in E2.
  cbn [plan_amount] in E2. destruct ((Balance x <? am) && negb force); [done|].
  cbn in E2. injection E2 as <- <-. by split.
Qed.

(** *** Bounds *)

Lemma grain_even c : exists h, grain (CurrencyMaxFractionDigits c) = 2 * h /\ 0 < h.
Proof.
  unfold CurrencyMaxFractionDigits, paymentCurrencyAmountUnitFor.
  assert (Hall : forall u, In u (map snd paymentCurrencyAmountUnits) \/ u = twoDecimalAmountUnit ->
    exists h, grain (maxFractionDigits u) = 2 * h /\ 0 < h).
  { intros u Hu. exists (grain (maxFractionDigits u) / 2). revert u Hu.
    enough (Hf : Forall (fun u => grain (maxFractionDigits u) = 2 * (grain (maxFractionDigits u) / 2) /\
                   0 < grain (maxFractionDigits u) / 2) (twoDecimalAmountUnit :: map snd paymentCurrencyAmountUnits)).
    { rewrite List.Forall_forall in Hf. intros u [Hu| ->]; apply Hf; [by right|by left]. }
    cbn. repeat constructor. }
  destruct (NormalizePaymentCurrency c); [|apply Hall; by right].
  destruct (find _ _) as [[k u]|] eqn:E; [|apply Hall; by right].
  apply Hall. left. apply find_some in E as [E _]. apply (in_map snd _ _ E).
Qed.

Lemma gateway_amount_bounds orderAmount payAmount refundAmount c :
  refundAmount - orderAmount <= paymentAmountToleranceForCurrency c ->
  let k := grain (CurrencyMaxFractionDigits c) in
  0 <= calculateGatewayRefundAmount orderAmount payAmount refundAmount c <= Z.max 0 (round_to k payAmount).
Proof.
  intros Htol k. unfold calculateGatewayRefundAmount. fold k.
  destruct ((orderAmount <=? 0) || (payAmount <=? 0) || (refundAmount <=? 0)) eqn:E; [lia|].
  apply orb_false_iff in E as [[Eo Ep]%orb_false_iff Er].
  apply Z.leb_gt in Eo, Ep, Er. destruct (grain_even c) as (h & Hk & Hh). fold k in Hk.
  assert (Hr : round_to k payAmount = (payAmount + h) / k * k).
  { unfold round_to. rewrite (proj2 (Z.leb_le _ _)) by lia. by replace (k / 2) with h by (rewrite Hk; symmetry; rewrite Z.mul_comm; apply Z.div_mul; lia). }
  pose proof (Z.div_pos (payAmount + h) k ltac:(lia) ltac:(lia)) as Hpos.
  destruct (Z.abs (refundAmount - orderAmount) <=? _) eqn:Et; [rewrite Hr; nia|]. apply Z.leb_gt in Et.
  assert (Hle : refundAmount <= orderAmount) by lia.
  assert (Hq : (2 * payAmount * refundAmount + k * orderAmount) / (2 * k * orderAmount) <= (payAmount + h) / k).
  { apply Z.div_le_lower_bound; [lia|].
    pose proof (Z.mul_div_le (2 * payAmount * refundAmount + k * orderAmount) (2 * k * orderAmount) ltac:(nia)) as Hm.
    set (q := (2 * payAmount * refundAmount + k * orderAmount) / (2 * k * orderAmount)) in *.
    assert (2 * payAmount * refundAmount <= 2 * payAmount * orderAmount) by nia.
    assert (2 * orderAmount * (k * q) <= 2 * orderAmount * (payAmount + h)) by nia. nia. }
  split; [|rewrite Hr; nia].
  pose proof (Z.div_pos (2 * payAmount * refundAmount + k * orderAmount) (2 * k * orderAmount) ltac:(nia) ltac:(nia)). nia.
Qed.

(** ** Execution *)

Context (s : Services (Aff := Aff)).

(** A user from whom [d] has been taken, and one to whom it has been given back, which
counts as a recharge. *)
Definition less (d : Money) (x : UserRow) : UserRow := mkUser (Balance x - d) (TotalRecharged x) (Concurrency x).
Definition given_back (d : Money) (x : UserRow) : UserRow :=
  mkUser (Balance x) (if 0 <? d then numeric8 (TotalRecharged x + d) else TotalRecharged x) (Concurrency x).

(** What is taken, as the column stores it. *)
Definition taken (amount : Money) (x : UserRow) : Money := Balance x - numeric8 (Balance x - deductible amount x).

(** A balance as a column holds it. *)
Definition stored_balance (x : UserRow) : Prop := 0 <= Balance x /\ numeric8 (Balance x) = Balance x.

Lemma taken_nonneg amount x : stored_balance x -> 0 <= taken amount x.
Proof.
  intros [Hp Hs]. unfold taken.
  pose proof (numeric8_mono (Balance x - deductible amount x) (Balance x)) as Hm.
  unfold deductible in *. lia.
Qed.

Lemma taken_zero amount x : stored_balance x -> deductible amount x <= 0 -> taken amount x = 0.
Proof.
  intros [Hp Hs] Hd. unfold taken. assert (deductible amount x = 0) as -> by (unfold deductible in *; lia).
  rewrite Z.sub_0_r, Hs. lia.
Qed.

Lemma less_zero x : less 0 x = x.
Proof. unfold less. rewrite Z.sub_0_r. by destruct x. Qed.

(** The verdict of a gateway. *)
Inductive RefundVerdict : Type := RefundDone | RefundInFlight | RefundDenied.

Definition verdict_of (status : string) : RefundVerdict :=
  let status := TrimSpace status in
  if String.eqb status ProviderStatusSuccess || String.eqb status ProviderStatusRefunded then RefundDone
  else if String.eqb status ProviderStatusPending then RefundInFlight
  else RefundDenied.

(** A pending refund may come with an error; any other error, or no response, denies. *)
Definition verdict (r : option RefundResponse * option goerr) : RefundVerdict :=
  match r with
  | (None, _) => RefundDenied
  | (Some resp, None) => verdict_of (refund_status resp)
  | (Some resp, Some _) =>
      if String.eqb (TrimSpace (refund_status resp)) ProviderStatusPending then RefundInFlight else RefundDenied
  end.

Lemma verdict_spec r :
  match verdict r with
  | RefundDenied => exists e, refund_answer r = Err e
  | v => exists resp, refund_answer r = Ok resp /\ verdict_of (refund_status resp) = v
  end.
Proof.
  destruct r as [[resp|] [e|]]; cbn; try by eexists.
  - unfold verdict_of. destruct (String.eqb (TrimSpace (refund_status resp)) ProviderStatusPending) eqn:E; [|by eexists].
    exists resp. split; [done|]. cbv zeta. rewrite E. apply String.eqb_eq in E. by rewrite E.
  - unfold verdict_of. cbv zeta. set (st := TrimSpace (refund_status resp)).
    destruct (String.eqb st ProviderStatusSuccess) eqn:Es; [exists resp; fold st; by rewrite ?Es|].
    destruct (String.eqb st ProviderStatusRefunded) eqn:Er; [exists resp; fold st; by rewrite ?Es, ?Er|].
    destruct (String.eqb st ProviderStatusPending) eqn:Ep; cbn.
    + exists resp. fold st. by rewrite ?Es, ?Er, ?Ep.
    + destruct (String.eqb st ProviderStatusFailed); by eexists.
Qed.

Lemma response_valid resp : verdict_of (refund_status resp) <> RefundDenied ->
  validateRefundProviderResponse (Some resp) = Ok resp.
Proof.
  unfold verdict_of, validateRefundProviderResponse. cbv zeta.
  destruct (_ || _); [done|]. by destruct (String.eqb _ ProviderStatusPending).
Qed.

(** *** The deduction and its roll-back *)

Definition users_with (u : Z) (x : UserRow) w : World := with_users (<[u := x]> (users w)) w.

Lemma users_with_same u x w : users w !! u = Some x -> users_with u x w = w.
Proof. intros Hx. unfold users_with. rewrite insert_id by done. apply with_users_same. Qed.

Lemma deduct_balance_runs (o : PaymentOrder) x p w : prepared_for o x p -> stored_balance x ->
  users w !! UserID o = Some x -> logs w !! (ID o, ROLLBACK_FAILED) = None ->
  let d := taken (plan_amount p) x in
  yields (deduct_balance p) w (set_balance d p) (users_with (UserID o) (less d x) w).
Proof.
  intros [Ep Ed Eb _ _ _ _] Hst Hx Hl d. unfold deduct_balance. rewrite Ed, Eb, bool_decide_eq_true_2 by done. cbn [andb].
  destruct (0 <? deductible (plan_amount p) x) eqn:Epos.
  - apply Z.ltb_lt in Epos. eapply yields_bind; [apply hasAuditLog_runs|]. rewrite Ep. unfold has_log. rewrite Hl.
    rewrite bool_decide_eq_false_2 by (by intros []). eapply yields_bind; [|apply yields_ret]. unfold or_restore.
    eapply (yields_bind _ _ _ (Ok d)); [|apply yields_ret]. apply yields_try_ok, yields_wrap, yields_statement.
    unfold DeductAvailableBalance. rewrite (proj2 (Z.ltb_ge _ _)) by lia. rewrite Hx. cbv zeta.
    assert (Z.min (deductible (plan_amount p) x) (Z.max (Balance x) 0) = deductible (plan_amount p) x) as ->.
    { unfold deductible in *. lia. }
    unfold users_with, less, d, taken. do 2 f_equal. f_equal. f_equal. lia.
  - apply Z.ltb_ge in Epos. assert (Hd : d = 0) by (by apply taken_zero).
    assert (E0 : BalanceToDeduct p = 0) by (rewrite Eb; unfold deductible in *; lia).
    rewrite Hd, less_zero, users_with_same by done.
    assert (set_balance 0 p = p) as -> by (rewrite <- E0; by destruct p). apply yields_ret.
Qed.

Lemma rollback_runs (o : PaymentOrder) x p d w : plan_order p = o -> plan_deduction p = DeductionTypeBalance ->
  stored_balance x -> 0 <= d -> users w !! UserID o = Some (less d x) ->
  yields (RollbackRefund (set_balance d p)) w true (users_with (UserID o) (given_back d x) w).
Proof.
  intros Ep Ed [Hp Hs] Hd Hx. unfold RollbackRefund, has_days. cbn [plan_order plan_deduction BalanceToDeduct set_balance with_deduction].
  rewrite Ep, Ed, bool_decide_eq_true_2, bool_decide_eq_false_2 by done. cbn [andb]. destruct (0 <? d) eqn:E.
  - eapply yields_bind.
    + apply yields_try_ok, yields_statement. unfold UpdateBalance, with_user. by rewrite Hx.
    + cbn iota. rewrite E. unfold less. cbn [Balance TotalRecharged Concurrency].
      unfold users_with, given_back. rewrite E. replace (Balance x - d + d) with (Balance x) by lia. rewrite Hs. apply yields_ret.
  - apply Z.ltb_ge in E. assert (d = 0) as -> by lia. rewrite less_zero in Hx.
    assert (given_back 0 x = x) as -> by (by destruct x). rewrite users_with_same by done. done.
Qed.

(** *** The call of the gateway *)

(** What a refund of a recharge needs. *)
Record refund_ready (o : PaymentOrder) (x : UserRow) (prov : Provider) w : Prop := mkRefundReady {
  rr_order : orders w !! ID o = Some o;
  rr_type : OrderType o = OrderTypeBalance;
  rr_trade : PaymentTradeNo o <> "";
  rr_user : users w !! UserID o = Some x;
  rr_balance : stored_balance x;
  rr_provider : yields (getRefundProvider (gateways s) o) w prov w;
  rr_metadata : validateProviderSnapshotMetadata o (ProviderKey_ prov) (providerMerchantIdentityMetadata prov) = Ok tt;
  rr_clean : logs w !! (ID o, ROLLBACK_FAILED) = None
}.

(** What the gateway is asked. *)
Definition asked (o : PaymentOrder) (p : RefundPlan) : RefundRequest :=
  mkRefundRequest (PaymentTradeNo o) (OutTradeNo o) (formatGatewayRefundAmount (GatewayAmount p) o) (plan_reason p).

Definition with_request (req : RefundRequest) w : World := with_gateway (req :: gateway w) w.

Lemma gwRefund_runs (o : PaymentOrder) p prov w : plan_order p = o -> PaymentTradeNo o <> "" ->
  yields (getRefundProvider (gateways s) o) w prov w ->
  validateProviderSnapshotMetadata o (ProviderKey_ prov) (providerMerchantIdentityMetadata prov) = Ok tt ->
  yields (atry (gwRefund s p)) w (refund_answer (Refund_ prov (asked o p))) (with_request (asked o p) w).
Proof.
  intros Ep Ht Hp Hm. apply yields_try. unfold gwRefund. rewrite Ep. rewrite (proj2 (String.eqb_neq _ _)) by done.
  unfold abind at 1. rewrite run_bind.
  assert (run (awrap "get refund provider" (getRefundProvider (gateways s) o)) w = (w, Ok prov)) as -> by (by apply yields_wrap).
  cbn [fst snd]. rewrite Hm. unfold abind. rewrite run_bind. unfold gateway_refund. rewrite run_statement. cbn [fst snd].
  unfold asked. by destruct (refund_answer _).
Qed.

Definition claimed_by_refund (t : Time) (o : PaymentOrder) : PaymentOrder := SetStatus OrderStatusRefunding (SetUpdatedAt t o).

Definition order_with (id : Z) (o : PaymentOrder) w : World := with_orders (<[id := o]> (orders w)) w.

(** The state in which the gateway answers. *)
Definition at_gateway (o : PaymentOrder) (x : UserRow) (p : RefundPlan) w : World :=
  with_request (asked o p)
    (users_with (UserID o) (less (taken (plan_amount p) x) x) (order_with (ID o) (claimed_by_refund (clock w) o) w)).

Lemma execute_runs (o : PaymentOrder) x prov p w r w' : refund_ready o x prov w -> prepared_for o x p ->
  let d := taken (plan_amount p) x in
  yields (match refund_answer (Refund_ prov (asked o p)) with
          | Ok resp => finishRefund (set_balance d p) resp
          | Err e => handleGwFail (set_balance d p) e
          end) (at_gateway o x p w) r w' ->
  yields (ExecuteRefund s p) w r w'.
Proof.
  intros [Ho _ Ht Hx Hb Hp Hm Hc] Hpp d Hrest. pose proof Hpp as [Ep Ed _ _ _ _ Hst].
  unfold ExecuteRefund. rewrite Ep.
  eapply yields_bind; [apply yields_wrap, update_runs; done|]. cbn [Z.eqb].
  eapply yields_bind; [by apply deduct_balance_runs|]. fold d.
  eapply yields_bind.
  { unfold deduct_days, has_days. cbn [plan_deduction set_balance with_deduction].
    rewrite Ed, bool_decide_eq_false_2 by done. apply yields_ret. }
  eapply yields_bind; [|exact Hrest].
  apply (gwRefund_runs o (set_balance d p)); [done|done| |done]. by apply (getRefundProvider_frame _ _ w).
Qed.

(** *** After the answer *)

Lemma denied_runs (o : PaymentOrder) x p d e w cur : plan_order p = o -> plan_deduction p = DeductionTypeBalance ->
  stored_balance x -> 0 <= d -> users w !! UserID o = Some (less d x) -> orders w !! ID o = Some cur ->
  let st := if bool_decide (Status o = OrderStatusRefundRequested) then OrderStatusRefundRequested else OrderStatusCompleted in
  exists l, yields (handleGwFail (set_balance d p) e) w (refused "gateway failed, rolled back" false)
    (with_logs l (order_with (ID o) (SetStatus st (SetUpdatedAt (clock w) cur)) (users_with (UserID o) (given_back d x) w))).
Proof.
  intros Ep Ed Hb Hd Hx Ho st.
  destruct (audit_runs (ID o) "REFUND_GATEWAY_FAILED" DetailOther "admin"
              (order_with (ID o) (SetStatus st (SetUpdatedAt (clock w) cur)) (users_with (UserID o) (given_back d x) w)))
    as [l Hl].
  exists l. unfold handleGwFail. cbn [plan_order set_balance with_deduction]. rewrite Ep. cbv zeta.
  eapply yields_bind; [by apply (rollback_runs o)|]. cbv iota.
  eapply yields_bind.
  { unfold restoreStatus. cbn [plan_order set_balance with_deduction]. rewrite Ep. cbv zeta.
    eapply yields_bind; [apply yields_try_ok, update_one_runs; exact Ho|apply yields_ret]. }
  eapply yields_bind; [exact Hl|apply yields_ret].
Qed.

Lemma in_flight_runs (o : PaymentOrder) x p d resp w cur : plan_order p = o -> plan_deduction p = DeductionTypeBalance ->
  stored_balance x -> 0 <= d -> users w !! UserID o = Some (less d x) -> orders w !! ID o = Some cur ->
  exists l, yields (markRefundPending (set_balance d p) resp) w (refused "gateway refund is pending confirmation" false)
    (with_logs l (order_with (ID o) (set_refund_pending p (SetUpdatedAt (clock w) cur)) (users_with (UserID o) (given_back d x) w))).
Proof.
  intros Ep Ed Hb Hd Hx Ho.
  destruct (audit_runs (ID o) "REFUND_PENDING" (DetailRefundPending (refundResponseID resp) true) "admin"
              (order_with (ID o) (set_refund_pending p (SetUpdatedAt (clock w) cur)) (users_with (UserID o) (given_back d x) w)))
    as [l Hl].
  exists l. unfold markRefundPending. eapply yields_bind; [by apply (rollback_runs o)|].
  cbn [plan_order set_balance with_deduction]. rewrite Ep.
  eapply yields_bind; [apply yields_wrap, update_one_runs; exact Ho|].
  eapply yields_bind; [exact Hl|apply yields_ret].
Qed.

Lemma done_runs (o : PaymentOrder) p d w cur : plan_order p = o -> SubDaysToDeduct p = 0 -> orders w !! ID o = Some cur ->
  exists l, yields (markRefundOk (set_balance d p)) w (mkRefundResult true "" false d 0)
    (with_logs l (order_with (ID o) (set_refunded p (clock w) (SetUpdatedAt (clock w) cur)) w)).
Proof.
  intros Ep Es Ho.
  destruct (audit_runs (ID o) "REFUND_SUCCESS" DetailOther "admin"
              (order_with (ID o) (set_refunded p (clock w) (SetUpdatedAt (clock w) cur)) w)) as [l Hl].
  exists l. unfold markRefundOk. eapply yields_bind; [apply yields_get|].
  cbn [plan_order set_balance with_deduction]. rewrite Ep.
  eapply yields_bind; [apply yields_wrap, update_one_runs; exact Ho|].
  eapply yields_bind; [exact Hl|]. unfold refund_success. cbn [BalanceToDeduct SubDaysToDeduct set_balance with_deduction].
  rewrite Es. apply yields_ret.
Qed.

Lemma finish_spec p resp : verdict_of (refund_status resp) <> RefundDenied ->
  finishRefund p resp =
  (match verdict_of (refund_status resp) with RefundDone => markRefundOk p | _ => markRefundPending p resp end
     : Act World RefundResult).
Proof.
  intros Hn. unfold finishRefund. rewrite response_valid by done. unfold verdict_of in *. cbv zeta in *.
  destruct (_ || _); [done|]. by destruct (String.eqb _ _).
Qed.

(** The most that a refund of the order may ask for: what has been paid. *)
Definition paid_amount (o : PaymentOrder) : Money :=
  Z.max 0 (round_to (grain (CurrencyMaxFractionDigits (PaymentOrderCurrency o))) (PayAmount o)).

Lemma asked_bounds (o : PaymentOrder) x p : prepared_for o x p -> 0 <= refund_amount (asked o p) <= paid_amount o.
Proof.
  intros [_ _ _ _ Htol Eg _]. cbn [asked refund_amount]. unfold formatGatewayRefundAmount, paid_amount.
  pose proof (gateway_amount_bounds (Amount o) (PayAmount o) (plan_amount p) (PaymentOrderCurrency o) Htol) as Hb.
  rewrite <- Eg in Hb. cbv zeta in Hb. destruct (grain_even (PaymentOrderCurrency o)) as (h & Hk & Hh).
  set (k := grain _) in *. assert (Hkp : 0 < k) by lia. split; [apply round_to_nonneg; lia|].
  etrans; [apply round_to_mono; [done|apply Hb]|].
  destruct (Z.max_spec 0 (round_to k (PayAmount o))) as [[_ ->]|[_ ->]]; [rewrite round_to_idem by done; lia|].
  unfold round_to. rewrite (proj2 (Z.leb_le 0 0)) by lia. rewrite Z.add_0_l, Z.div_small; [lia|].
  split; [apply Z.div_pos; lia|apply Z.div_lt_upper_bound; lia].
Qed.

(** C12. A refund of a recharge that has a trade number and no record of a failed
roll-back, prepared with deduction and then run alone with nothing failing, asks the
gateway once, with the trade number of the order and for at most what has been paid, and
changes only its order, its user and records. If the gateway has paid, the order is
refunded, in part or in full, and the user has lost exactly what is reported; if the
refund is pending, the order says so; if it was denied, the order keeps its refund
columns and is completed again, whatever refundable status it had before, or requested
again if it was. In both these cases the user's balance is as it was, and what was given
back counts as a recharge. *)
Theorem refund_outcomes (o : PaymentOrder) x prov amt reason force p w :
  refund_ready o x prov w ->
  run (PrepareRefund (ID o) amt reason force true) w = (w, Ok (inl p)) ->
  let d := taken (plan_amount p) x in
  exists w' o' r,
    run (ExecuteRefund s p) w = (w', Ok r) /\ gateway w' = asked o p :: gateway w /\
    0 <= refund_amount (asked o p) <= paid_amount o /\
    orders w' = <[ID o := o']> (orders w) /\ order_spec o' = order_spec o /\ order_payment o' = order_payment o /\
    match verdict (Refund_ prov (asked o p)) with
    | RefundDone =>
        r = mkRefundResult true "" false d 0 /\
        Status o' = (if plan_amount p <? Amount o then OrderStatusPartiallyRefunded else OrderStatusRefunded) /\
        RefundAmount o' = numeric2 (plan_amount p) /\ users w' = <[UserID o := less d x]> (users w)
    | RefundInFlight =>
        Success r = false /\ Status o' = OrderStatusRefundPending /\
        RefundAmount o' = numeric2 (plan_amount p) /\ users w' = <[UserID o := given_back d x]> (users w)
    | RefundDenied =>
        Success r = false /\
        Status o' = (if bool_decide (Status o = OrderStatusRefundRequested) then OrderStatusRefundRequested
                     else OrderStatusCompleted) /\
        order_refund o' = order_refund o /\ users w' = <[UserID o := given_back d x]> (users w)
    end.
Proof.
  intros Hr Hprep d. pose proof Hr as [Ho Hty Ht Hx Hb Hp Hm Hc].
  destruct (prepared_spec o x amt reason force p w w Ho Hty Hx Hprep) as [_ Hpp].
  pose proof Hpp as [Ep Ed Eb Es _ _ _].
  pose proof (verdict_spec (Refund_ prov (asked o p))) as Hv.
  assert (Hd : 0 <= d) by (by apply taken_nonneg).
  assert (Hcur : orders (at_gateway o x p w) !! ID o = Some (claimed_by_refund (clock w) o)) by apply lookup_insert_eq.
  assert (Husr : users (at_gateway o x p w) !! UserID o = Some (less d x)) by apply lookup_insert_eq.
  destruct (verdict (Refund_ prov (asked o p))).
  - destruct Hv as (resp & Ha & Hv). destruct (done_runs o p d _ _ Ep Es Hcur) as (l & Hrun).
    eexists _, _, _. split_and!;
      [eapply execute_runs; [done..|]; rewrite Ha, finish_spec, Hv by (by rewrite Hv); exact Hrun|done|by eapply asked_bounds|by eapply asked_bounds|try done; cbn; by rewrite ?insert_insert_eq, ?Ep..].
  - destruct Hv as (resp & Ha & Hv). destruct (in_flight_runs o x p d resp _ _ Ep Ed Hb Hd Husr Hcur) as (l & Hrun).
    eexists _, _, _. split_and!;
      [eapply execute_runs; [done..|]; rewrite Ha, finish_spec, Hv by (by rewrite Hv); exact Hrun|done|by eapply asked_bounds|by eapply asked_bounds|try done; cbn; by rewrite ?insert_insert_eq..].
  - destruct Hv as (e & Ha). destruct (denied_runs o x p d e _ _ Ep Ed Hb Hd Husr Hcur) as (l & Hrun).
    eexists _, _, _. split_and!;
      [eapply execute_runs; [done..|]; rewrite Ha; exact Hrun|done|by eapply asked_bounds|by eapply asked_bounds|try done; cbn; by rewrite ?insert_insert_eq..].
Qed.

(** ** Confirmation of a pending refund *)

(** What the record of a pending refund says: its number, and whether the deduction
was given back. *)
Definition pending_record (oid : Z) w : string * bool :=
  match logs w !! (oid, "REFUND_PENDING") with
  | Some l => match Detail l with DetailRefundPending id ok => (TrimSpace id, ok) | DetailOther => ("", true) end
  | None => ("", true)
  end.

Record confirmable (o : PaymentOrder) (x : UserRow) (prov : Provider)
    (query : RefundQueryRequest -> option RefundResponse * option goerr) w : Prop := mkConfirmable {
  cf_order : orders w !! ID o = Some o;
  cf_type : OrderType o = OrderTypeBalance;
  cf_status : Status o = OrderStatusRefundPending;
  cf_user : users w !! UserID o = Some x;
  cf_balance : stored_balance x;
  cf_provider : yields (getRefundProvider (gateways s) o) w prov w;
  cf_query : QueryRefund prov = Some query;
  cf_record : logs w !! (ID o, "REFUND_SUCCESS") = None
}.

Definition queried (o : PaymentOrder) w : RefundQueryRequest :=
  mkRefundQueryRequest (PaymentTradeNo o) (OutTradeNo o) (pending_record (ID o) w).1
    (formatGatewayRefundAmount (RefundAmount o) o).

Lemma record_runs oid w : yields (latestRefundPendingDetail oid) w (pending_record oid w) w.
Proof.
  unfold latestRefundPendingDetail, pending_record. eapply yields_bind; [apply yields_try_ok, yields_select; done|].
  destruct (logs w !! (oid, "REFUND_PENDING")) as [l|]; [|apply yields_ret]. destruct (Detail l); apply yields_ret.
Qed.

(** The plan once its deduction has been made, and that it leaves the order as the plan. *)
Lemma markRefundOkTx_runs (o : PaymentOrder) p q w cur : plan_order p = o -> q = p \/ (exists d, q = set_balance d p) ->
  orders w !! ID o = Some cur -> logs w !! (ID o, "REFUND_SUCCESS") = None ->
  exists l, markRefundOkTx q w = Ok (with_logs l (order_with (ID o) (set_refunded p (clock w) (SetUpdatedAt (clock w) cur)) w)).
Proof.
  intros Ep Hq Ho Hl.
  assert (Eq : plan_order q = o) by (by destruct Hq as [->|[d ->]]).
  assert (Er : forall t, set_refunded q t = set_refunded p t) by (by destruct Hq as [->|[d ->]]).
  unfold markRefundOkTx, update_one_order. rewrite Eq, Ho. unfold insert_log. cbn [logs with_orders]. rewrite Hl, Er.
  by eexists.
Qed.

(** The transaction. *)
Lemma finalize_runs (o : PaymentOrder) x p w : orders w !! ID o = Some o -> Status o = OrderStatusRefundPending ->
  users w !! UserID o = Some x -> stored_balance x -> logs w !! (ID o, "REFUND_SUCCESS") = None ->
  plan_order p = o -> plan_deduction p = DeductionTypeBalance -> SubDaysToDeduct p = 0 -> 0 <= BalanceToDeduct p ->
  let d := taken (BalanceToDeduct p) x in
  exists l, yields (finalizePendingRefundSuccess s p) w (mkRefundResult true "" false d 0)
    (with_logs l (order_with (ID o) (set_refunded p (clock w) (SetUpdatedAt (clock w) (claimed_by_refund (clock w) o)))
                    (users_with (UserID o) (less d x) (order_with (ID o) (claimed_by_refund (clock w) o) w)))).
Proof.
  intros Ho Hst Hx Hb Hl Ep Ed Es Hn d.
  set (w1 := order_with (ID o) (claimed_by_refund (clock w) o) w).
  assert (Hded : exists q, applyRefundFinalDeduction s p w1 = Ok (users_with (UserID o) (less d x) w1, q) /\
    (q = p \/ exists e, q = set_balance e p) /\ refund_success q = mkRefundResult true "" false d 0).
  { unfold applyRefundFinalDeduction, has_days. rewrite Ed, bool_decide_eq_true_2, Ep by done. cbn [andb].
    destruct (0 <? BalanceToDeduct p) eqn:E.
    - apply Z.ltb_lt in E. unfold DeductAvailableBalance. rewrite (proj2 (Z.ltb_ge _ _)) by lia.
      cbn [users w1 order_with with_orders]. rewrite Hx. cbv zeta. cbn [plan_deduction set_balance with_deduction].
      rewrite Ed, bool_decide_eq_false_2 by done. cbn [andb].
      assert (Z.min (BalanceToDeduct p) (Z.max (Balance x) 0) = deductible (BalanceToDeduct p) x) as ->.
      { destruct Hb. unfold deductible. lia. }
      fold (taken (BalanceToDeduct p) x). fold d. eexists. split_and!; [|right; by eexists|].
      + unfold users_with, less. do 3 f_equal. f_equal. f_equal. unfold d, taken. lia.
      + unfold refund_success. cbn. by rewrite Es.
    - apply Z.ltb_ge in E. assert (E0 : BalanceToDeduct p = 0) by lia.
      assert (d = 0) as -> by (unfold d; rewrite E0; apply taken_zero; [done|]; destruct Hb; unfold deductible; lia).
      rewrite Ed, bool_decide_eq_false_2 by done. cbn [andb]. exists p. rewrite less_zero, users_with_same by done.
      split_and!; [done|by left|]. unfold refund_success. by rewrite E0, Es. }
  destruct Hded as (q & Hded & Hq & Hres).
  destruct (markRefundOkTx_runs o p q (users_with (UserID o) (less d x) w1) (claimed_by_refund (clock w) o)) as (l & Hmark);
    [done..|apply lookup_insert_eq|done|].
  exists l. apply yields_statement. rewrite Ep. unfold update_order at 1. rewrite Ho, bool_decide_eq_true_2 by done.
  cbn [Z.eqb]. fold (claimed_by_refund (clock w) o). fold (order_with (ID o) (claimed_by_refund (clock w) o) w). fold w1.
  by rewrite Hded, Hmark, Hres.
Qed.

(** The plan of a confirmation: nothing is deducted twice. *)
Definition confirmed_plan (o : PaymentOrder) w : RefundPlan :=
  if (pending_record (ID o) w).2 then refundFinalizePlan o else set_days 0 (set_balance 0 (refundFinalizePlan o)).

Lemma confirmed_plan_spec (o : PaymentOrder) w : OrderType o = OrderTypeBalance ->
  let p := confirmed_plan o w in
  plan_order p = o /\ plan_deduction p = DeductionTypeBalance /\ SubDaysToDeduct p = 0 /\ plan_amount p = RefundAmount o /\
  BalanceToDeduct p = if (pending_record (ID o) w).2 then RefundAmount o else 0.
Proof.
  intros Hty p. unfold p, confirmed_plan, refundFinalizePlan. cbv zeta. rewrite Hty. by destruct (_.2).
Qed.

(** C13. The confirmation of a pending refund of a recharge that runs alone, when no
success has been recorded before: an error of the query changes nothing; a refund that
the gateway has paid marks the order refunded and is deducted once, or not at all if an
earlier attempt has not given its deduction back; one that is still pending leaves order
and user as they are; one that failed marks the order and leaves the user. *)
Theorem pending_refund_is_confirmed (o : PaymentOrder) x prov query w :
  confirmable o x prov query w -> 0 <= RefundAmount o ->
  let d := if (pending_record (ID o) w).2 then taken (RefundAmount o) x else 0 in
  exists w' r, run (QueryAndFinalizeRefund s (ID o)) w = (w', r) /\ gateway w' = gateway w /\
    match query (queried o w) with
    | (_, Some e) => r = Err (ErrWrap "query refund" e) /\ w' = w
    | (resp, None) =>
        exists o', orders w' = <[ID o := o']> (orders w) /\ order_spec o' = order_spec o /\ order_payment o' = order_payment o /\
        match verdict (resp, None) with
        | RefundDone =>
            r = Ok (mkRefundResult true "" false d 0) /\
            Status o' = (if RefundAmount o <? Amount o then OrderStatusPartiallyRefunded else OrderStatusRefunded) /\
            users w' = <[UserID o := less d x]> (users w)
        | RefundInFlight => (exists warning, r = Ok (refused warning false)) /\ o' = o /\ users w' = users w
        | RefundDenied =>
            (exists warning, r = Ok (refused warning false)) /\ Status o' = OrderStatusRefundFailed /\
            order_refund o' = order_refund o /\ users w' = users w
        end
    end.
Proof.
  intros [Ho Hty Hst Hx Hb Hp Hq Hl] Ha d. unfold QueryAndFinalizeRefund.
  rewrite (run_after _ _ _ _ _ (order_or_404_runs _ _ _ Ho)), bool_decide_eq_true_2 by done. cbn [negb].
  rewrite (run_after _ _ _ _ _ (yields_wrap _ _ _ _ _ Hp)), Hq, (run_after _ _ _ _ _ (record_runs _ _)).
  fold (queried o w). destruct (query (queried o w)) as [resp [e|]]; [by eexists _, _|].
  pose proof (verdict_spec (resp, None)) as Hv.
  destruct (verdict (resp, None)) eqn:Ev.
  3: { destruct Hv as (e & Hv). unfold refund_answer in Hv.
       assert (validateRefundProviderResponse resp = Err e) as -> by (by destruct resp).
       destruct (audit_runs (ID o) "REFUND_FAILED" DetailOther "admin" (order_with (ID o)
         (set_failed (Some (timestamptz (clock w))) (Some e) (SetStatus OrderStatusRefundFailed (SetUpdatedAt (clock w) o))) w)) as (l & Hl').
       eexists _, _. split.
       - unfold finalizeRefundFailed. eapply (yields_bind _ _ _ tt); [|apply yields_ret].
         unfold mark_refund_failed. eapply yields_bind; [apply yields_get|].
         eapply yields_bind; [apply yields_try_ok, update_one_runs; exact Ho|]. exact Hl'.
       - split; [done|]. eexists. split_and!; [reflexivity|done|done|by eexists|done..]. }
  all: destruct Hv as (resp' & Hv & Hvd); unfold refund_answer in Hv.
  all: assert (validateRefundProviderResponse resp = Ok resp') as -> by (by destruct resp).
  all: destruct (confirmed_plan_spec o w Hty) as (Ep & Ed & Es & Eam & Eb); cbv zeta in *.
  all: rewrite (run_after _ _ _ (inl (confirmed_plan o w)) w).
  2, 4: unfold confirmed_plan; rewrite Hty; by destruct (_.2).
  all: unfold verdict_of in Hvd; cbv zeta in Hvd.
  - destruct (_ || _); [|by destruct (String.eqb _ _)].
    destruct (finalize_runs o x (confirmed_plan o w) w) as (l & Hrun); [done..|rewrite Eb; by case_match|].
    assert (Hd : taken (BalanceToDeduct (confirmed_plan o w)) x = d).
    { rewrite Eb. unfold d. destruct (_.2); [done|]. apply taken_zero; [done|]. destruct Hb. unfold deductible. lia. }
    rewrite Hd in Hrun. eexists _, _. split; [exact Hrun|]. split; [done|]. eexists.
    split_and!; [cbn; by rewrite insert_insert_eq|done|done|done| |done]. cbn. by rewrite Ep, Eam.
  - destruct (_ || _); [done|]. destruct (audit_runs (ID o) "REFUND_QUERY_PENDING" DetailOther "admin" w) as (l & Hl').
    eexists _, _. split; [eapply yields_bind; [exact Hl'|apply yields_ret]|]. split; [done|]. exists o.
    split_and!; [|done|done|by eexists|done|done]. cbn. by rewrite insert_id.
Qed.

End Runs.
