(* ===== verification/PaymentRefundFlows.v ===== *)
(** * Refunds that interleave

Refunds and their confirmations that start at any time, are interleaved statement by
statement, stop anywhere and meet faults: an order that has been refunded stays as it
is, and the gateway is not asked again for it. *)
From S2P Require Import Prelude GoText GoTime SubscriptionWindow Redis Programs Interleave PaymentStore PaymentProviders Redeem Payments PaymentRefunds PaymentRefundRuns.
From Stdlib Require Import Bool.

Local Open Scope string_scope.
Local Open Scope Z_scope.

Section RefundFlows.
Context `{GoUnicode, GoUpper} {Aff : Type}.
Notation World := (Store Aff).
Implicit Types w : World.

(** ** Calls and schedules *)

Inductive RefundCall : Type :=
  | Requested (oid uid : Z) (reason : string)
  | Prepared (oid : Z) (amt : Float) (reason : string) (force deduct : bool)
  | Executed (p : RefundPlan)
  | Confirmed (oid : Z).

Definition refund_program (s : Services (Aff := Aff)) (c : RefundCall) : Prog World unit :=
  match c with
  | Requested oid uid reason => discard (RequestRefund oid uid reason)
  | Prepared oid amt reason force deduct => discard (PrepareRefund oid amt reason force deduct)
  | Executed p => discard (ExecuteRefund s p)
  | Confirmed oid => discard (QueryAndFinalizeRefund s oid)
  end.

Inductive RefundEvent : Type :=
  | RefundStarts (s : Services (Aff := Aff)) (c : RefundCall)
  | RefundContinues (i : nat) (f : option fault)
  | RefundElsewhere (g : World -> World).

Definition refund_event (h : RefundEvent) : Event World :=
  match h with
  | RefundStarts s c => Spawn (refund_program s c)
  | RefundContinues i f => Turn i f
  | RefundElsewhere g => Outside g
  end.

Definition after_refunds (hs : list RefundEvent) w : World := (schedule (map refund_event hs) (w, [])).1.

(** ** An order that has been refunded *)

Section Spared.
Context (oid : Z) (o0 : PaymentOrder) (asked0 : list RefundRequest).

Definition final (st : OrderStatus) : bool := status_in st [OrderStatusRefunded; OrderStatusPartiallyRefunded].
Context (Hfinal : final (Status o0) = true).

(** What has been asked of the gateway for the order. *)
Definition requests_for (t : string) w : list RefundRequest :=
  List.filter (fun r => String.eqb (refund_order r) t) (gateway w).

Definition spared w : Prop :=
  orders w !! oid = Some o0 /\ requests_for (OutTradeNo o0) w = asked0 /\ map_Forall (fun id (o : PaymentOrder) => ID o = id) (orders w).

Definition any_move w w' : Prop := True.
#[export] Instance any_move_preorder : PreOrder any_move.
Proof. by split. Qed.

Definition spares_then {A} (m : Act World A) (P : A -> Prop) : Prop :=
  does spared any_move (fun _ => True) m (fun a _ => P a).
Notation spares m := (spares_then m (fun _ => True)).

Lemma spares_statement {A} (act : World -> World * res A) (P : A -> Prop) :
  (forall w w' a, spared w -> act w = (w', Ok a) -> spared w' /\ P a) -> spares_then (statement act) P.
Proof.
  intros Hact. apply (does_statement spared any_move); [apply _..|]. intros w w' a Hw _ E.
  by destruct (Hact w w' a Hw E).
Qed.

Lemma spares_bind {A B} (m : Act World A) (P : A -> Prop) (k : A -> Act World B) (Q : B -> Prop) :
  spares_then m P -> (forall a, P a -> spares_then (k a) Q) -> spares_then (abind m k) Q.
Proof.
  intros Hm Hk. eapply (does_bind spared any_move _ (fun a _ => P a)); [apply _|exact Hm|].
  intros a w Hw [_ Ha]. eapply (does_weaken spared any_move _ (fun _ => True)); [apply _|by apply Hk|done|done|done|by split].
Qed.

Lemma spares_ret {A} (a : A) : spares (aret a).
Proof. by apply (does_ret spared any_move); [apply _|]. Qed.

Lemma spares_fail {A} e : spares (afail e : Act World A).
Proof. apply (does_fail spared any_move); apply _. Qed.

Lemma spares_try {A} (m : Act World A) (P : A -> Prop) : spares_then m P ->
  spares_then (atry m) (fun r => match r with Ok a => P a | Err _ => True end).
Proof.
  intros Hm. eapply (does_weaken spared any_move); [apply _|apply (does_try spared any_move); [apply _..|exact Hm]|done|].
  intros r w _ _ Hr. by destruct r.
Qed.

Lemma spares_wrap {A} prefix (m : Act World A) (P : A -> Prop) : spares_then m P -> spares_then (awrap prefix m) P.
Proof. intros Hm. by apply (does_wrap spared any_move); [apply _..|]. Qed.

Lemma spares_weaken {A} (m : Act World A) (P Q : A -> Prop) : spares_then m P -> (forall a, P a -> Q a) -> spares_then m Q.
Proof.
  intros Hm HPQ. eapply (does_weaken spared any_move); [apply _|exact Hm|done|]. intros a w _ _. apply HPQ.
Qed.

(** ** Statements *)

(** What has nothing to do with orders and the gateway. *)
Lemma spared_frame w w' : orders w' = orders w -> gateway w' = gateway w -> spared w -> spared w'.
Proof. intros Eo Eg. unfold spared, requests_for. by rewrite Eo, Eg. Qed.

Lemma spares_effect (f : World -> res World) :
  (forall w w', f w = Ok w' -> orders w' = orders w /\ gateway w' = gateway w) -> spares (effect f).
Proof.
  intros Hf. apply spares_statement. intros w w' a Hw. destruct (f w) as [w1|] eqn:E; [|done]. intros [= -> _].
  destruct (Hf w w' E). split; [by apply (spared_frame w)|done].
Qed.

Lemma spares_select {A} (f : World -> res A) (P : A -> Prop) :
  (forall w a, spared w -> f w = Ok a -> P a) -> spares_then (select f) P.
Proof. intros Hf. apply spares_statement. intros w w' a Hw [= <- E]. split; [done|by eapply Hf]. Qed.

Lemma spares_get {A} (f : World -> A) : spares (get f).
Proof. by apply (does_get spared any_move); [apply _..|]. Qed.

Lemma spares_log id action d op : spares (write_audit id action d op).
Proof.
  eapply spares_bind; [|intros; apply spares_ret]. apply (spares_try _ (fun _ => True)), spares_statement. intros w w' a Hw E.
  split; [|done]. unfold insert_log in E. destruct (logs w !! _); [done|]. injection E as <- <-. by apply (spared_frame w).
Qed.

(** A row of the order itself is not changed. *)
Lemma spared_insert w id o o' : spared w -> id <> oid -> orders w !! id = Some o -> order_spec o' = order_spec o ->
  spared (with_orders (<[id := o']> (orders w)) w).
Proof.
  intros (Ho & Hr & Hk) Hne Hid Es. split_and!; [cbn; by rewrite lookup_insert_ne|done|].
  apply map_Forall_insert_2; [|done]. rewrite Es. by apply Hk.
Qed.

(** The number of rows that an update has changed is nothing for this order. *)
Lemma spares_update id p (set : PaymentOrder -> PaymentOrder) :
  (forall o, order_spec (set o) = order_spec o) -> p o0 = false ->
  spares_then (order_update id p set) (fun c => c <> 0 -> id <> oid).
Proof.
  intros Hset Hp. apply spares_statement. intros w w' c Hw. unfold update_order.
  destruct (orders w !! id) as [o|] eqn:Ho; [|intros [= <- <-]; by split; [|intros []]].
  destruct (p o) eqn:Epo; [|intros [= <- <-]; by split; [|intros []]]. intros [= <- <-].
  assert (Hne : id <> oid) by (intros ->; destruct Hw as [Ho' _]; congruence).
  split; [|done]. apply (spared_insert _ _ o); try done. by rewrite Hset.
Qed.

Lemma spares_update_one id (set : PaymentOrder -> PaymentOrder) :
  (forall o, order_spec (set o) = order_spec o) -> id <> oid -> spares (order_update_one id set).
Proof.
  intros Hset Hne. apply spares_statement. intros w w' c Hw. unfold update_one_order.
  destruct (orders w !! id) as [o|] eqn:Ho; [|done]. intros [= <- _]. split; [|done]. apply (spared_insert _ _ o); try done. by rewrite Hset.
Qed.

(** An order that is read is not pending if it is this one. *)
Lemma spares_order id : spares_then (order_or_404 id)
  (fun o : PaymentOrder => ID o = id /\ (id = oid -> o = o0)).
Proof.
  unfold order_or_404. eapply spares_bind.
  - apply spares_try, (spares_select _ (fun o : PaymentOrder => ID o = id /\ (id = oid -> o = o0))). intros w o (Ho & _ & Hk).
    unfold order_row. destruct (orders w !! id) as [o'|] eqn:E; [|done]. intros [= <-].
    split; [by apply (Hk id)|]. intros ->. congruence.
  - intros [o|e] Hr; [|apply (does_fail spared any_move); apply _].
    apply (does_ret spared any_move); [apply _|]. done.
Qed.

(** *** Automation: a program of whose answers nothing need be known *)

Lemma spares_any {A} (m : Act World A) (P : A -> Prop) : spares_then m P -> spares m.
Proof. intros Hm. by apply (spares_weaken m P). Qed.

Lemma spares_seq {A B} (m : Act World A) (k : A -> Act World B) :
  spares m -> (forall a, spares (k a)) -> spares (abind m k).
Proof. intros Hm Hk. eapply spares_bind; [exact Hm|]. intros a _. apply Hk. Qed.

Lemma spares_try_any {A} (m : Act World A) : spares m -> spares (atry m).
Proof. intros Hm. eapply spares_any, spares_try, Hm. Qed.

Lemma spares_query {A} (f : World -> res A) : spares (select f).
Proof. by apply spares_select. Qed.

Lemma spares_effect_wallets (f : World -> res World) :
  (forall w w', f w = Ok w' -> exists x, w' = with_wallets x w) -> spares (effect f).
Proof. intros Hf. apply spares_effect. intros w w' E. by destruct (Hf w w' E) as [x ->]. Qed.

Ltac amble1 :=
  match goal with
  | |- spares_then (abind _ _) _ => apply spares_seq; [|intros ?]
  | |- spares_then (aret _) _ => apply spares_ret
  | |- spares_then (afail _) _ => apply spares_fail
  | |- spares_then (atry _) _ => apply spares_try_any
  | |- spares_then (awrap _ _) _ => apply spares_wrap
  | |- spares_then (writeAuditLog _ _ _) _ => apply spares_log
  | |- spares_then (write_audit _ _ _ _) _ => apply spares_log
  | |- spares_then time_now _ => apply spares_get
  | |- spares_then (select _) _ => apply spares_query
  | |- spares_then (if ?b then _ else _) _ => destruct b eqn:?
  | |- spares_then (match ?x with _ => _ end) _ => destruct x eqn:?
  | |- spares_then _ _ => solve [eauto]
  end.
Ltac amble := repeat amble1.

(** ** Refunds of other orders *)

Context (s : Services (Aff := Aff)).

Lemma spares_hasAuditLog id action : spares (hasAuditLog id action).
Proof. unfold hasAuditLog. amble. Qed.

Lemma spares_instance (o : PaymentOrder) : spares (getRefundOrderProviderInstance o).
Proof. unfold getRefundOrderProviderInstance, resolveSnapshotOrderProviderInstance, instance_get. cbv zeta. amble. Qed.

Lemma spares_provider g (o : PaymentOrder) : spares (getRefundProvider g o).
Proof. pose proof (spares_instance o). unfold getRefundProvider. amble. Qed.

Lemma spares_user id : spares (GetUserByID id).
Proof. apply spares_query. Qed.

Lemma extend_tx_wallets id days w w' : extend_tx id days w = Ok w' -> exists x, w' = with_wallets x w.
Proof.
  unfold extend_tx. destruct (wallets w !! id) as [sub|] eqn:E; [|done]. cbv zeta.
  destruct (_ && _); [done|]. destruct (negb _); [done|]. intros [= <-]. unfold with_wallet. rewrite E. by eexists.
Qed.

Lemma spares_extend id days : spares (ExtendSubscription id days).
Proof.
  unfold ExtendSubscription, wallet_get. amble. apply spares_effect_wallets. intros w w'. apply extend_tx_wallets.
Qed.

Lemma spares_revoke id : spares (RevokeSubscription s id).
Proof.
  unfold RevokeSubscription, wallet_get. amble. apply spares_effect_wallets. intros w w' [= <-]. by eexists.
Qed.

Hint Resolve spares_hasAuditLog spares_instance spares_provider spares_user spares_extend spares_revoke : core.

Lemma spares_take_days p : spares (take_days s p).
Proof. unfold take_days. amble. Qed.

Lemma spares_deduct_statement id amount : spares (statement (DeductAvailableBalance (Aff := Aff) id amount)).
Proof.
  apply spares_statement. intros w w' a Hw. unfold DeductAvailableBalance. destruct (amount <? 0); [done|].
  destruct (users w !! id); [|done]. intros [= <- _]. split; [by apply (spared_frame w)|done].
Qed.

Lemma spares_update_balance id amount : spares (effect (UpdateBalance (Aff := Aff) id amount)).
Proof.
  apply spares_effect. intros w w'. unfold UpdateBalance, with_user. destruct (users w !! id); [|done]. by intros [= <-].
Qed.

Hint Resolve spares_take_days spares_deduct_statement spares_update_balance : core.

Lemma spares_restore p : ID (plan_order p) <> oid -> spares (restoreStatus p).
Proof. intros Hne. unfold restoreStatus. cbv zeta. amble. by apply spares_update_one. Qed.

Lemma spares_or_restore {A} p (m : Act World A) : ID (plan_order p) <> oid -> spares m -> spares (or_restore p m).
Proof. intros Hne Hm. pose proof (spares_restore p Hne). unfold or_restore. amble. Qed.

Lemma spares_rollback p : spares (RollbackRefund p).
Proof. unfold RollbackRefund. cbv zeta. amble. Qed.

Lemma spares_mark_failed id e : id <> oid -> spares (mark_refund_failed id e).
Proof. intros Hne. unfold mark_refund_failed. amble. by apply spares_update_one. Qed.

Hint Resolve spares_restore spares_or_restore spares_rollback spares_mark_failed : core.

Lemma spares_handleGwFail p e : ID (plan_order p) <> oid -> spares (handleGwFail p e).
Proof. intros Hne. unfold handleGwFail. cbv zeta. amble. Qed.

Lemma spares_finishRefund p resp : ID (plan_order p) <> oid -> spares (finishRefund p resp).
Proof.
  intros Hne. pose proof (spares_handleGwFail p). unfold finishRefund, markRefundOk, markRefundPending. cbv zeta. amble.
  all: by apply spares_update_one.
Qed.

Lemma spares_gateway prov req : refund_order req <> OutTradeNo o0 -> spares (gateway_refund prov req).
Proof.
  intros Hne. apply spares_statement. intros w w' a (Ho & Hr & Hk) [= <- _]. split; [|done]. split_and!; [done| |done].
  unfold requests_for in *. cbn. by rewrite (proj2 (String.eqb_neq _ _)).
Qed.

Lemma spares_gwRefund p : OutTradeNo (plan_order p) <> OutTradeNo o0 -> spares (gwRefund s p).
Proof. intros Hne. unfold gwRefund. amble. by apply spares_gateway. Qed.

(** ** The calls *)

Lemma final_not_refundable : refundable (Status o0) = false.
Proof. revert Hfinal. unfold final, refundable. by destruct (Status o0). Qed.

Lemma final_status st : final st = false -> bool_decide (Status o0 = st) = false.
Proof. intros Hs. apply bool_decide_eq_false_2. intros E. rewrite <- E, Hfinal in Hs. done. Qed.

(** The plans of other orders have other numbers. *)
Definition own_number (p : RefundPlan) : Prop := ID (plan_order p) = oid \/ OutTradeNo (plan_order p) <> OutTradeNo o0.

Lemma spares_ExecuteRefund p : own_number p -> spares (ExecuteRefund s p).
Proof.
  intros Hp. unfold ExecuteRefund. eapply spares_bind.
  - apply spares_wrap, spares_update; [done|apply final_not_refundable].
  - intros c Hc. destruct (c =? 0) eqn:E; [apply spares_fail|]. apply Z.eqb_neq in E. specialize (Hc E).
    assert (Hother : OutTradeNo (plan_order p) <> OutTradeNo o0) by (by destruct Hp).
    (* the plan that is carried on belongs to the same order *)
    eapply (spares_bind _ (fun q => plan_order q = plan_order p)).
    { unfold deduct_balance. destruct (_ && _); [|by apply (does_ret spared any_move); [apply _|]].
      eapply spares_bind; [apply spares_hasAuditLog|]. intros [] _; [by apply (does_ret spared any_move); [apply _|]|].
      eapply spares_bind; [apply spares_or_restore; [done|apply spares_wrap, spares_deduct_statement]|].
      intros d _. by apply (does_ret spared any_move); [apply _|]. }
    intros q Hq. eapply (spares_bind _ (fun q => plan_order q = plan_order p)).
    { unfold deduct_days. destruct (has_days q); [|by apply (does_ret spared any_move); [apply _|]].
      eapply spares_bind; [apply spares_hasAuditLog|]. intros [] _; [by apply (does_ret spared any_move); [apply _|]|].
      eapply spares_bind; [apply spares_or_restore; [by rewrite Hq|apply spares_take_days]|].
      intros d _. by apply (does_ret spared any_move); [apply _|]. }
    intros q' Hq'. pose proof (spares_gwRefund q'). pose proof (spares_handleGwFail q'). pose proof (spares_finishRefund q').
    rewrite Hq' in *. amble.
Qed.

Lemma spares_prepDeduct (o : PaymentOrder) p force : spares (prepDeduct o p force).
Proof. unfold prepDeduct, locatePaymentSubscriptionForOrder. cbv zeta. amble. Qed.

Lemma spares_PrepareRefund id amt reason force deduct : spares (PrepareRefund id amt reason force deduct).
Proof.
  unfold PrepareRefund. apply spares_seq; [eapply spares_any, spares_order|]. intros o.
  pose proof (spares_prepDeduct o). cbv zeta. amble.
Qed.

Lemma spares_RequestRefund id uid reason : spares (RequestRefund id uid reason).
Proof.
  unfold RequestRefund, validateRefundRequest. apply spares_seq.
  { apply spares_seq; [eapply spares_any, spares_order|]. intros o. amble. }
  intros o. cbv zeta. amble. eapply spares_any, spares_update; [done|]. rewrite final_status by done. by rewrite andb_false_r.
Qed.

Lemma final_deduction_frame p w w' q : applyRefundFinalDeduction s p w = Ok (w', q) ->
  orders w' = orders w /\ gateway w' = gateway w /\ plan_order q = plan_order p.
Proof.
  assert (Hdays : forall q w w', take_days_tx s q w = Ok w' -> exists x, w' = with_wallets x w).
  { intros r v v'. unfold take_days_tx. destruct (extend_tx _ _ v) as [v1|e] eqn:E.
    - intros [= <-]. by eapply extend_tx_wallets.
    - destruct (errors_Is _ _); [|done]. destruct (invalidateSubscriptionCaches s); [|done]. intros [= <-]. by eexists. }
  assert (Hend : forall r v, orders v = orders w -> gateway v = gateway w -> plan_order r = plan_order p ->
    (if has_days r then match take_days_tx s r v with Ok v' => Ok (v', r) | Err e => Err e end else Ok (v, r)) = Ok (w', q) ->
    orders w' = orders w /\ gateway w' = gateway w /\ plan_order q = plan_order p).
  { intros r v Eo Eg Ep. destruct (has_days r); [|by intros [= <- <-]].
    destruct (take_days_tx s r v) as [v'|] eqn:E; [|done]. intros [= <- <-]. by destruct (Hdays _ _ _ E) as [x ->]. }
  unfold applyRefundFinalDeduction. cbv zeta. destruct (_ && _); [|by apply Hend].
  unfold DeductAvailableBalance. destruct (_ <? 0); [done|]. destruct (users w !! _); [|done]. by apply Hend.
Qed.

Lemma spares_finalize p : spares (finalizePendingRefundSuccess s p).
Proof.
  apply spares_statement. intros w w' r Hw E. split; [|done].
  destruct (update_order (ID (plan_order p)) _ _ w) as [w1 [c|]] eqn:Eu; [|done].
  destruct (c =? 0) eqn:Ec; [done|]. apply Z.eqb_neq in Ec.
  unfold update_order in Eu. destruct (orders w !! ID (plan_order p)) as [o|] eqn:Ho; [|by injection Eu as <- <-].
  destruct (bool_decide _) eqn:Est; [|by injection Eu as <- <-]. injection Eu as <- <-.
  assert (Hne : ID (plan_order p) <> oid).
  { intros Eid. destruct Hw as [Ho' _]. rewrite Eid, Ho' in Ho. injection Ho as <-. by rewrite final_status in Est. }
  set (w1 := with_orders _ _) in E. assert (Hw1 : spared w1) by (by apply (spared_insert _ _ o)).
  destruct (applyRefundFinalDeduction s p w1) as [[w2 q]|] eqn:Ed; [|done].
  destruct (final_deduction_frame _ _ _ _ Ed) as (Eo & Eg & Ep).
  assert (Hw2 : spared w2) by (by apply (spared_frame w1)).
  destruct (markRefundOkTx q w2) as [w3|] eqn:Em; [|done]. injection E as <- _.
  unfold markRefundOkTx, update_one_order in Em. rewrite Ep in Em.
  destruct (orders w2 !! ID (plan_order p)) as [o2|] eqn:Ho2; [|done].
  unfold insert_log in Em. cbn [logs with_orders] in Em. destruct (logs w2 !! _); [done|]. injection Em as <-.
  apply (spared_frame (with_orders (<[ID (plan_order p) := set_refunded q (clock w2) (SetUpdatedAt (clock w2) o2)]> (orders w2)) w2));
    [done..|]. by apply (spared_insert _ _ o2).
Qed.

Lemma spares_QueryAndFinalizeRefund id : spares (QueryAndFinalizeRefund s id).
Proof.
  unfold QueryAndFinalizeRefund. eapply spares_bind; [apply spares_order|]. intros o [Hid Hsame].
  destruct (negb (bool_decide (Status o = OrderStatusRefundPending))) eqn:Est; [apply spares_fail|].
  assert (Hne : ID o <> oid).
  { rewrite Hid. intros ->. by rewrite (Hsame eq_refl), final_status in Est. }
  pose proof (spares_mark_failed (ID o)). pose proof (spares_finalize). pose proof (spares_prepDeduct o).
  unfold latestRefundPendingDetail, finalizeRefundFailed. cbv zeta. amble.
Qed.

End Spared.
(** ** Every schedule *)

Definition others_only (oid : Z) (o0 : PaymentOrder) (h : RefundEvent) : Prop :=
  match h with
  | RefundStarts _ (Executed p) => own_number oid o0 p
  | RefundStarts _ _ | RefundContinues _ _ => True
  | RefundElsewhere g => forall asked w, spared oid o0 asked w -> spared oid o0 asked (g w)
  end.

(** C9. An order that has been refunded, in part or in full, is not touched by any
refund or confirmation that starts later, whatever plans were prepared for it before,
and however the calls are interleaved, stopped and hit by faults: its row stays as it
is, and the gateway is not asked again to pay back its payment. *)
Theorem refunded_orders_stay_refunded oid o0 hs w :
  orders w !! oid = Some o0 -> final (Status o0) = true -> map_Forall (fun id (o : PaymentOrder) => ID o = id) (orders w) ->
  Forall (others_only oid o0) hs ->
  let w' := after_refunds hs w in
  orders w' !! oid = Some o0 /\ requests_for (OutTradeNo o0) w' = requests_for (OutTradeNo o0) w.
Proof.
  intros Ho Hf Hk Hhs. set (q := requests_for (OutTradeNo o0) w).
  assert (Hw : spared oid o0 q w) by (by split_and!).
  destruct (triples_sound (spared oid o0 q) any_move (map refund_event hs) w) as [(? & ? & _) _]; [done| | |done].
  - apply Forall_forall. intros p Hp. apply list_elem_of_omap in Hp as (e & He & Hp).
    apply list_elem_of_fmap in He as (h & -> & Hh). rewrite Forall_forall in Hhs. specialize (Hhs h Hh).
    destruct h as [s c|i f|g]; [|done|done]. injection Hp as <-.
    destruct c; cbn [refund_program]; (eapply (does_discard (spared oid o0 q) any_move); [exact Hw|]).
    + by apply spares_RequestRefund.
    + by apply spares_PrepareRefund.
    + by apply spares_ExecuteRefund.
    + by apply spares_QueryAndFinalizeRefund.
  - apply Forall_forall. intros g Hg. apply list_elem_of_omap in Hg as (e & He & Hg).
    apply list_elem_of_fmap in He as (h & -> & Hh). rewrite Forall_forall in Hhs. specialize (Hhs h Hh).
    destruct h as [s c|i f|g']; [done|done|]. injection Hg as <-. intros w' Hw'. split; [by apply Hhs|done].
Qed.

End RefundFlows.

(** * Examples of refunds *)

#[local] Instance RefundUpper : GoUpper := { upper_slow := to_upper_ascii }.

Definition rx_now : Time := Date 2026 1 15 + 12 * Hour.

Definition rx_order_in (st : OrderStatus) (refunded : Money) : PaymentOrder :=
  mkOrder (mkOrderSpec 7 1 (10 * unit_) "PAY7" "sub2_abc" "alipay" OrderTypeBalance None None ∅ rx_now rx_now)
    (mkOrderPayment (10 * unit_) "T1" (Some "3") None (Some rx_now))
    (mkOrderRefund refunded None None false None None None) st (Some rx_now) None None rx_now.

Definition rx_store_in (st : OrderStatus) (refunded : Money) : Store unit :=
  mkStore {[7 := rx_order_in st refunded]} ∅ ∅ {[1 := mkUser (13 * unit_) (15 * unit_) 5]} ∅ ∅
    {[3 := mkInstance 3 "alipay" "" "" true true true 0]} tt rx_now [].

Definition rx_user : UserRow := mkUser (13 * unit_) (15 * unit_) 5.

(** A gateway that answers a refund, and a query of it, with one status. *)
Definition rx_provider (status : string) : Provider :=
  mkProvider "alipay" ["alipay"] (fun _ _ => Err (ErrMsg "unused")) (fun _ => (Some (mkRefundResponse "R1" status), None))
    (Some (fun _ => (Some (mkRefundResponse "R1" status), None))) None.

Definition rx_services (status : string) : Services (Aff := unit) :=
  mkServices (mkRedeemPeers (fun _ _ _ t => Ok t) None) (fun _ => mkRedeemCache true (Some 0))
    (mkGateways ∅ true (fun _ => Ok (rx_provider status))) (Ok tt).

(** The plan for 4 of the 10. *)
Definition rx_plan : RefundPlan :=
  match (run (PrepareRefund 7 (Num (4 * unit_)) "too much" false true) (rx_store_in OrderStatusCompleted 0)).2 with
  | Ok (inl p) => p
  | _ => mkRefundPlan (rx_order_in OrderStatusCompleted 0) 0 0 "" false DeductionTypeNone 0 0 0
  end.

Lemma rx_balance : stored_balance rx_user.
Proof. split; [vm_compute; discriminate|vm_compute; reflexivity]. Qed.

Example refund_outcomes_witness :
  exists w' o' r,
    run (ExecuteRefund (rx_services "success") rx_plan) (rx_store_in OrderStatusCompleted 0) = (w', Ok r) /\
    gateway w' = [mkRefundRequest "T1" "sub2_abc" (4 * unit_) "too much"] /\
    orders w' !! 7 = Some o' /\ Status o' = OrderStatusPartiallyRefunded /\
    users w' !! 1 = Some (mkUser (9 * unit_) (15 * unit_) 5).
Proof.
  destruct (refund_outcomes (rx_services "success") (rx_order_in OrderStatusCompleted 0) rx_user (rx_provider "success")
              (Num (4 * unit_)) "too much" false rx_plan (rx_store_in OrderStatusCompleted 0))
    as (w' & o' & r & Hrun & Hg & _ & Ho & _ & _ & Hv).
  - split; [reflexivity|reflexivity|discriminate|reflexivity|apply rx_balance|vm_compute; reflexivity..].
  - vm_compute. reflexivity.
  - assert (Hd : verdict (Refund_ (rx_provider "success") (asked (rx_order_in OrderStatusCompleted 0) rx_plan)) = RefundDone)
      by (vm_compute; reflexivity).
    rewrite Hd in Hv. destruct Hv as (_ & Hst & _ & Hu). exists w', o', r.
    split_and!; [exact Hrun|rewrite Hg; vm_compute; reflexivity|rewrite Ho; apply lookup_insert_eq
      |rewrite Hst; vm_compute; reflexivity|rewrite Hu; vm_compute; reflexivity].
Defined.

Example pending_refund_witness :
  exists w' r,
    run (QueryAndFinalizeRefund (rx_services "success") 7) (rx_store_in OrderStatusRefundPending (4 * unit_)) = (w', Ok r) /\
    gateway w' = [] /\ users w' = <[1 := mkUser (9 * unit_) (15 * unit_) 5]> {[1 := rx_user]}.
Proof.
  set (o := rx_order_in OrderStatusRefundPending (4 * unit_)).
  destruct (pending_refund_is_confirmed (rx_services "success") o rx_user (rx_provider "success")
              (fun _ => (Some (mkRefundResponse "R1" "success"), None)) (rx_store_in OrderStatusRefundPending (4 * unit_)))
    as (w' & r & Hrun & Hg & o' & _ & _ & _ & Hv).
  - split; [reflexivity|reflexivity|reflexivity|reflexivity|apply rx_balance|vm_compute; reflexivity..].
  - vm_compute. discriminate.
  - assert (Hd : verdict (Some (mkRefundResponse "R1" "success"), None) = RefundDone) by (vm_compute; reflexivity).
    rewrite Hd in Hv. destruct Hv as (Hr & _ & Hu). exists w', (mkRefundResult true "" false (4 * unit_) 0).
    split_and!; [exact (eq_trans Hrun (f_equal (pair w') Hr))|exact Hg|rewrite Hu; reflexivity].
Defined.

(** ** Schedules *)

Definition rx_turns (i n : nat) : list (RefundEvent (Aff := unit)) := repeat (RefundContinues i None) n.

(** The same plan is carried out again, and the refund confirmed again. *)
Definition rx_again : list (RefundEvent (Aff := unit)) :=
  ([RefundStarts (rx_services "success") (Executed rx_plan); RefundStarts (rx_services "failed") (Confirmed 7)]
   ++ rx_turns 0 3 ++ rx_turns 1 5 ++ rx_turns 0 20 ++ rx_turns 1 20)%list.

Lemma repeat_each {A} (P : A -> Prop) x n : P x -> Forall P (repeat x n).
Proof. intros Hx. induction n; by constructor. Qed.

Example refunded_witness :
  let o := rx_order_in OrderStatusPartiallyRefunded (4 * unit_) in
  let w := rx_store_in OrderStatusPartiallyRefunded (4 * unit_) in
  orders (after_refunds rx_again w) !! 7 = Some o /\ requests_for "sub2_abc" (after_refunds rx_again w) = [].
Proof.
  cbv zeta. apply (refunded_orders_stay_refunded 7 (rx_order_in OrderStatusPartiallyRefunded (4 * unit_)) rx_again
                     (rx_store_in OrderStatusPartiallyRefunded (4 * unit_))).
  - reflexivity.
  - reflexivity.
  - by apply map_Forall_singleton.
  - unfold rx_again, rx_turns. rewrite !Forall_app, !Forall_cons.
    split_and!; [left; vm_compute; reflexivity|done|done|by apply repeat_each..].
Defined.

(** Two confirmations of a pending refund at once: the query of the first is answered
with a status that the code does not know; before it writes, the second confirms the
refund.  The first then marks the refunded order as failed, from which it may be
refunded again. *)
Definition rx_race : list (RefundEvent (Aff := unit)) :=
  ([RefundStarts (rx_services "processing") (Confirmed 7); RefundStarts (rx_services "success") (Confirmed 7)]
   ++ rx_turns 0 3 ++ rx_turns 1 20 ++ rx_turns 0 20)%list.

Example late_failure_reopens_the_refund :
  let w := rx_store_in OrderStatusRefundPending (4 * unit_) in
  Status <$> orders (after_refunds (firstn 25 rx_race) w) !! 7 = Some OrderStatusPartiallyRefunded /\
  Status <$> orders (after_refunds rx_race w) !! 7 = Some OrderStatusRefundFailed.
Proof. split; vm_compute; reflexivity. Qed.
