(* ===== verification/Subscriptions.v ===== *)
(** * Subscriptions: the table and the service

[service/subscription_service.go] and [service/subscription_claim.go] on the table of
[repository/user_subscription_repo.go], with the part of [service/redeem_service.go]
that shortens a subscription and the cycle of [service/subscription_expiry_service.go].
A row keeps all its columns but [updated_at], which nothing reads.  Amounts are counted
in units of 10^-10 USD as in [Wallets]; the column of limits keeps eight decimals.  A
statement is one step, and so is a transaction, whose row is locked from the read to
the commit.  What invalidating the caches answers is an input. *)
From S2P Require Import Prelude GoText GoTime Redis PaymentStore Payments PaymentCreate.
From S2P Require Import SubscriptionWindow Wallets Programs Interleave.
From Stdlib Require Import Bool QArith.

Local Open Scope string_scope.
Local Open Scope Z_scope.

Definition SubscriptionStatusExpired := "expired".
Definition SubscriptionStatusSuspended := "suspended".

Definition ErrSubscriptionExpired : goerr := ErrApp 403 "SUBSCRIPTION_EXPIRED".
Definition ErrSubscriptionSuspended : goerr := ErrApp 403 "SUBSCRIPTION_SUSPENDED".
Definition ErrSubscriptionAssignConflict : goerr := ErrApp 409 "SUBSCRIPTION_ASSIGN_CONFLICT".
Definition ErrSubscriptionNotRevoked : goerr := ErrApp 409 "SUBSCRIPTION_NOT_REVOKED".
Definition ErrSubscriptionRestoreConflict : goerr := ErrApp 409 "SUBSCRIPTION_RESTORE_CONFLICT".
Definition ErrSubscriptionQuotaExhausted : goerr := ErrApp 429 "SUBSCRIPTION_QUOTA_EXHAUSTED".
Definition ErrCannotShortenExpired : goerr := ErrApp 400 "CANNOT_SHORTEN_EXPIRED".
Definition ErrSubscriptionNotClaimable : goerr := ErrApp 400 "SUBSCRIPTION_NOT_CLAIMABLE".
Definition ErrClaimUnauthorized : goerr := ErrApp 401 "SUBSCRIPTION_CLAIM_UNAUTHORIZED".
Definition ErrPlanNotFound : goerr := ErrApp 404 "PLAN_NOT_FOUND".

(** ** The table *)

(** A window start of zero is a column that is null. *)
Record SubRow : Type := mkRow {
  row_user : Z;
  row_plan : option Z;
  row_starts : Time;
  row_expires : Time;
  row_status : string;
  row_limit : option Amount;
  row_usage : Amount;
  row_period : string;
  row_window : Time;
  row_assigned_by : option Z;
  row_assigned_at : Time;
  row_notes : string;
  row_created : Time;
  row_deleted : option Time
}.

#[global] Instance subrow_eq_dec : EqDecision SubRow.
Proof. solve_decision. Defined.

Record SubscriptionPlan : Type := mkSubPlan {
  plan_name : string;
  plan_total_limit : option Amount;
  plan_reset_period : string;
  plan_validity_days : Z;
  plan_validity_unit : string;
  plan_for_sale : bool;
  plan_self_claimable : bool;
  plan_sort_order : Z
}.

Record SubDB : Type := mkSubDB {
  rows : gmap Z SubRow;
  sub_plans : gmap Z SubscriptionPlan;
  now : Time
}.

Definition with_rows v (w : SubDB) : SubDB := mkSubDB v (sub_plans w) (now w).
Definition with_now v (w : SubDB) : SubDB := mkSubDB (rows w) (sub_plans w) v.

(** Setters of one column, or of several that are written together. *)
Definition set_term (starts expires : Time) (status : string) (r : SubRow) : SubRow :=
  mkRow (row_user r) (row_plan r) starts expires status (row_limit r) (row_usage r) (row_period r) (row_window r)
    (row_assigned_by r) (row_assigned_at r) (row_notes r) (row_created r) (row_deleted r).
Definition set_expires (v : Time) (r : SubRow) : SubRow := set_term (row_starts r) v (row_status r) r.
Definition set_status (v : string) (r : SubRow) : SubRow := set_term (row_starts r) (row_expires r) v r.
Definition set_limit (v : option Amount) (r : SubRow) : SubRow :=
  mkRow (row_user r) (row_plan r) (row_starts r) (row_expires r) (row_status r) v (row_usage r) (row_period r)
    (row_window r) (row_assigned_by r) (row_assigned_at r) (row_notes r) (row_created r) (row_deleted r).
Definition set_usage (window : Time) (v : Amount) (r : SubRow) : SubRow :=
  mkRow (row_user r) (row_plan r) (row_starts r) (row_expires r) (row_status r) (row_limit r) v (row_period r)
    window (row_assigned_by r) (row_assigned_at r) (row_notes r) (row_created r) (row_deleted r).
Definition set_notes (v : string) (r : SubRow) : SubRow :=
  mkRow (row_user r) (row_plan r) (row_starts r) (row_expires r) (row_status r) (row_limit r) (row_usage r)
    (row_period r) (row_window r) (row_assigned_by r) (row_assigned_at r) v (row_created r) (row_deleted r).
Definition set_deleted (v : option Time) (r : SubRow) : SubRow :=
  mkRow (row_user r) (row_plan r) (row_starts r) (row_expires r) (row_status r) (row_limit r) (row_usage r)
    (row_period r) (row_window r) (row_assigned_by r) (row_assigned_at r) (row_notes r) (row_created r) v.

(** A column of eight decimals: rounded half away from zero. *)
Definition numeric8 (x : Amount) : Amount := Z.sgn x * ((Z.abs x + 50) / 100 * 100).

(** A row with its number, as the service has it. *)
Notation Sub_row := (Z * SubRow)%type (only parsing).

(** [userSubscriptionEntityToService]: the wallet of a row. *)
Definition wallet_of (p : Sub_row) : UserSubscription Amount :=
  mkSubscription p.1 (row_user p.2) (row_status p.2) (row_expires p.2) (row_limit p.2) (row_usage p.2)
    (NormalizeSubscriptionResetPeriod (row_period p.2)) (row_window p.2) None.

Definition row_deleted_not (r : SubRow) : bool := match row_deleted r with None => true | Some _ => false end.

(** ** Statements *)

Implicit Types (w : SubDB) (r : SubRow).

Definition time_now : Act SubDB Time := get now.

(** A transaction, or a statement that answers nothing. *)
Definition effect (f : SubDB -> res SubDB) : Act SubDB unit :=
  statement (fun w => match f w with Ok w' => (w', Ok tt) | Err e => (w, Err e) end).

(** [GetByID], [GetByIDForUpdate] *)
Definition sub_row (id : Z) w : res SubRow :=
  match rows w !! id with
  | Some r => if row_deleted_not r then Ok r else Err ErrSubscriptionNotFound
  | None => Err ErrSubscriptionNotFound
  end.

Definition GetByID (id : Z) : Act SubDB Sub_row :=
  select (fun w => match sub_row id w with Ok r => Ok (id, r) | Err e => Err e end).

Definition GetByIDIncludeDeleted (id : Z) : Act SubDB SubRow :=
  select (fun w => match rows w !! id with Some r => Ok r | None => Err ErrSubscriptionNotFound end).

(** [UpdateOneID(id).Set...Save()]: deleted rows are updated as well. *)
Definition update_one (id : Z) (set : SubRow -> SubRow) w : res SubDB :=
  match rows w !! id with
  | Some r => Ok (with_rows (<[id := set r]> (rows w)) w)
  | None => Err ErrSubscriptionNotFound
  end.

(** The row that [Create] inserts for a subscription. *)
Definition inserted_row (sub : SubRow) w : SubRow :=
  let period := NormalizeSubscriptionResetPeriod (row_period sub) in
  let starts := if IsZero (row_starts sub) then now w else row_starts sub in
  let window :=
    if IsRecurringSubscriptionResetPeriod period then
      if IsZero (row_window sub) then SubscriptionWindowStart period starts else row_window sub
    else zeroTime in
  mkRow (row_user sub) (row_plan sub) (timestamptz starts) (timestamptz (row_expires sub))
    (if String.eqb (row_status sub) "" then SubscriptionStatusActive else row_status sub)
    (option_map numeric8 (row_limit sub)) (row_usage sub) period window (row_assigned_by sub)
    (timestamptz (if IsZero (row_assigned_at sub) then now w else row_assigned_at sub))
    (row_notes sub) (timestamptz (now w)) None.

Definition Create (sub : SubRow) : Act SubDB Z :=
  statement (fun w => let id := next_id (rows w) in
                      (with_rows (<[id := inserted_row sub w]> (rows w)) w, Ok id)).

(** [Update]: all but the columns of the limit, of the period and of its window. *)
Definition Update (id : Z) (sub : SubRow) : SubDB -> res SubDB :=
  update_one id (fun r =>
    mkRow (row_user sub) (match row_plan sub with Some p => Some p | None => row_plan r end)
      (timestamptz (row_starts sub)) (timestamptz (row_expires sub)) (row_status sub) (row_limit r)
      (row_usage sub) (row_period r) (row_window r)
      (match row_assigned_by sub with Some b => Some b | None => row_assigned_by r end)
      (timestamptz (row_assigned_at sub)) (row_notes sub) (row_created r) (row_deleted r)).

(** [Delete], turned into an update of the rows that are not deleted. *)
Definition Delete (id : Z) w : res SubDB :=
  Ok (match rows w !! id with
      | Some r => if row_deleted_not r
                  then with_rows (<[id := set_deleted (Some (timestamptz (now w))) r]> (rows w)) w else w
      | None => w
      end).

Definition Restore (id : Z) (status : string) : Act SubDB Sub_row :=
  let* _ := effect (update_one id (fun r => set_deleted None (set_status status r))) in GetByID id.

Definition live_rows (p : Sub_row -> bool) w : list Sub_row :=
  List.filter (fun x => row_deleted_not x.2 && p x) (map_to_list (rows w)).

(** The rows of a user, the latest first. *)
Definition ListByUserID (userID : Z) w : list Sub_row :=
  stable_sort (fun a b => row_created b.2 <? row_created a.2)
    (live_rows (fun x => row_user x.2 =? userID) w).

Definition row_active (at_ : Time) r : bool :=
  String.eqb (row_status r) SubscriptionStatusActive && (timestamptz at_ <? row_expires r).

(** The active rows of a user, the first to expire first. *)
Definition ListActiveByUserID (userID : Z) w : list Sub_row :=
  stable_sort (fun a b => row_expires a.2 <? row_expires b.2)
    (live_rows (fun x => (row_user x.2 =? userID) && row_active (now w) x.2) w).

Definition ExistsActiveByUserID (userID : Z) w : bool :=
  existsb (fun x => (row_user x.2 =? userID) && row_active (now w) x.2) (live_rows (fun _ => true) w).

Definition UpdateAssignedLimit (id : Z) (total : option Amount) w : res SubDB :=
  match total with
  | None => Ok w
  | Some t => update_one id (set_limit (if 0 <? t then Some (numeric8 t) else None)) w
  end.

Definition ExtendExpiry (id : Z) (newExpiresAt : Time) : SubDB -> res SubDB :=
  update_one id (set_expires (timestamptz newExpiresAt)).
Definition UpdateStatus (id : Z) (status : string) : SubDB -> res SubDB := update_one id (set_status status).
Definition UpdateNotes (id : Z) (notes : string) : SubDB -> res SubDB := update_one id (set_notes notes).
Definition ResetUsage (id : Z) : SubDB -> res SubDB := update_one id (fun r => set_usage (row_window r) 0 r).

(** [usage_window_start IS NULL OR usage_window_start < start] *)
Definition window_before (start : Time) r : bool := IsZero (row_window r) || (row_window r <? start).

Definition reset_window (id : Z) (start : Time) w : SubDB :=
  match rows w !! id with
  | Some r =>
      if row_deleted_not r && negb (String.eqb (row_period r) SubscriptionResetPeriodNone) && window_before start r
      then with_rows (<[id := set_usage start 0 r]> (rows w)) w else w
  | None => w
  end.

(** With the zero time for the window, as [IncrementUsage] calls it. *)
Definition ResetUsageWindowIfExpired (id : Z) : Act SubDB unit :=
  let* found := atry (select (sub_row id)) in
  match found with
  | Err e => if bool_decide (e = ErrSubscriptionNotFound) then aret tt else afail e
  | Ok r =>
      let period := NormalizeSubscriptionResetPeriod (row_period r) in
      if negb (IsRecurringSubscriptionResetPeriod period) then aret tt
      else
        let* at_ := time_now in
        let start := SubscriptionWindowStart period at_ in
        if IsZero start then aret tt else effect (fun w => Ok (reset_window id start w))
  end.

Definition add_usage (id : Z) (costUSD : Amount) w : res SubDB :=
  match sub_row id w with
  | Ok r => Ok (with_rows (<[id := set_usage (row_window r) (row_usage r + costUSD) r]> (rows w)) w)
  | Err e => Err e
  end.

Definition IncrementUsage (id : Z) (costUSD : Amount) : Act SubDB unit :=
  let* _ := ResetUsageWindowIfExpired id in effect (add_usage id costUSD).

(** One of the three statements of [BatchResetExpiredUsageWindows]. *)
Definition batch_reset (period : string) (start : Time) w : SubDB :=
  with_rows ((fun r =>
    if row_deleted_not r && String.eqb (row_status r) SubscriptionStatusActive &&
       String.eqb (row_period r) period && window_before start r
    then set_usage start 0 r else r) <$> rows w) w.

Definition batch_reset_step (at_ : Time) (period : string) : Act SubDB unit :=
  let start := SubscriptionWindowStart period at_ in
  if IsZero start then aret tt else effect (fun w => Ok (batch_reset period start w)).

Definition BatchResetExpiredUsageWindows (at_ : Time) : Act SubDB unit :=
  let* _ := batch_reset_step at_ SubscriptionResetPeriodDaily in
  let* _ := batch_reset_step at_ SubscriptionResetPeriodWeekly in
  batch_reset_step at_ SubscriptionResetPeriodMonthly.

Definition batch_expire w : SubDB :=
  with_rows ((fun r =>
    if String.eqb (row_status r) SubscriptionStatusActive && (row_expires r <=? timestamptz (now w))
    then set_status SubscriptionStatusExpired r else r) <$> rows w) w.

Definition BatchUpdateExpiredStatus : Act SubDB unit := effect (fun w => Ok (batch_expire w)).

(** A cycle of the expiry service, without its mail. *)
Definition runOnce : Act SubDB unit :=
  let* _ := BatchUpdateExpiredStatus in
  let* at_ := time_now in
  let* _ := atry (BatchResetExpiredUsageWindows at_) in aret tt.

(** ** The service *)

Record AssignSubscriptionInput : Type := mkAssign {
  in_user : Z;
  in_plan : option Z;
  in_days : Z;
  in_by : Z;
  in_notes : string;
  in_limit : option Amount;
  in_period : string
}.

(** What the caches answer; [cache_service] is false without a billing cache service. *)
Record CachePeers : Type := mkCaches {
  cache_service : bool;
  InvalidateSubscription : Z -> res unit;
  PublishSubscriptionCacheInvalidation : Z -> res unit
}.

Definition appendSubscriptionNotes (existingNotes newNotes : string) : string :=
  if String.eqb newNotes "" then existingNotes
  else if String.eqb existingNotes "" then newNotes
  else existingNotes ++ String LF newNotes.

(** An expiry, not after the year 2099. *)
Definition cap_expiry (t : Time) : Time := if After t MaxExpiresAt then MaxExpiresAt else t.

Definition renewedSubscriptionTerm r (notes : string) (startsAt expiresAt : Time) : SubRow :=
  set_notes (appendSubscriptionNotes (row_notes r) notes) (set_term startsAt expiresAt SubscriptionStatusActive r).

Definition isRenewableUnderAssignment r (at_ : Time) : bool :=
  String.eqb (row_status r) SubscriptionStatusExpired ||
  (negb (String.eqb (row_status r) SubscriptionStatusSuspended) && negb (After (row_expires r) at_)).

Section Service.
Context `{GoUnicode} (caches : CachePeers).

Definition invalidateSubscriptionCaches (userID : Z) : res unit :=
  if negb (cache_service caches) then Ok tt
  else match InvalidateSubscription caches userID with
       | Err e => Err (ErrWrap "invalidate billing subscription cache" e)
       | Ok _ => wrap_err "publish subscription cache invalidation"
                   (PublishSubscriptionCacheInvalidation caches userID)
       end.

Definition invalidate (userID : Z) : Act SubDB unit :=
  match invalidateSubscriptionCaches userID with Ok _ => aret tt | Err e => afail e end.

(** The steps of a transaction. *)
Definition rbind (m : res SubDB) (k : SubDB -> res SubDB) : res SubDB :=
  match m with Ok w => k w | Err e => Err e end.

(** [updateExistingSubscriptionTerm], the body of the transaction. *)
Definition update_term (id validityDays : Z) (notes : string) (assignmentSemantics : bool) w : res SubDB :=
  match sub_row id w with
  | Err e => Err (ErrWrap "lock subscription for renewal" e)
  | Ok r =>
      if assignmentSemantics && String.eqb (row_status r) SubscriptionStatusSuspended then Ok w
      else
        let isExpired := if assignmentSemantics then isRenewableUnderAssignment r (now w)
                         else negb (After (row_expires r) (now w)) in
        let newExpiresAt := cap_expiry (AddDate (if isExpired then now w else row_expires r) 0 0 validityDays) in
        let notes := if assignmentSemantics && String.eqb (TrimSpace (row_notes r)) (TrimSpace notes)
                     then "" else notes in
        if isExpired then
          wrap_err "renew expired subscription" (Update id (renewedSubscriptionTerm r notes (now w) newExpiresAt) w)
        else
          rbind (wrap_err "extend subscription" (ExtendExpiry id newExpiresAt w)) (fun w =>
          rbind (if String.eqb (row_status r) SubscriptionStatusActive then Ok w
                 else wrap_err "update subscription status" (UpdateStatus id SubscriptionStatusActive w)) (fun w =>
          if String.eqb notes "" then Ok w
          else wrap_err "update subscription notes"
                 (UpdateNotes id (appendSubscriptionNotes (row_notes r) notes) w)))
  end.

Definition updateExistingSubscriptionTerm id days notes semantics : Act SubDB unit :=
  effect (update_term id days notes semantics).

Definition applyAssignedLimit (p : Sub_row) (input : AssignSubscriptionInput) : Act SubDB unit :=
  match in_limit input with
  | None => aret tt
  | Some _ =>
      let* _ := effect (UpdateAssignedLimit p.1 (in_limit input)) in
      invalidate (row_user p.2)
  end.

(** The loop of [findAssignmentTarget]. *)
Definition better_target (planID : option Z) (at_ : Time) (target : option Sub_row) (p : Sub_row) : option Sub_row :=
  match planID with
  | Some plan =>
      if negb (bool_decide (row_plan p.2 = Some plan)) then target
      else match target with
           | None => Some p
           | Some t => if After (row_created p.2) (row_created t.2) then Some p else target
           end
  | None =>
      if negb (String.eqb (row_status p.2) SubscriptionStatusActive) || negb (After (row_expires p.2) at_) then target
      else match target with
           | None => Some p
           | Some t => if After (row_expires p.2) (row_expires t.2) then Some p else target
           end
  end.

Definition assignment_target (planID : option Z) (at_ : Time) (l : list Sub_row) : option Sub_row :=
  foldl (better_target planID at_) None l.

Definition list_user (userID : Z) : Act SubDB (list Sub_row) := select (fun w => Ok (ListByUserID userID w)).

Definition findAssignmentTarget (userID : Z) (planID : option Z) : Act SubDB (option Sub_row) :=
  let* l := list_user userID in
  let* at_ := time_now in
  aret (assignment_target planID at_ l).

(** The row of an input, as the service builds it at an instant. *)
Definition new_subscription (input : AssignSubscriptionInput) (at_ : Time) : SubRow :=
  let period := NormalizeSubscriptionResetPeriod (in_period input) in
  mkRow (in_user input) (in_plan input) at_
    (cap_expiry (AddDate at_ 0 0 (normalizeAssignValidityDays (in_days input))))
    SubscriptionStatusActive (Wallets.normalizeSubLimit (in_limit input)) 0 period
    (if IsRecurringSubscriptionResetPeriod period then SubscriptionWindowStart period at_ else zeroTime)
    (if 0 <? in_by input then Some (in_by input) else None) at_ (in_notes input) zeroTime None.

Definition createSubscription (input : AssignSubscriptionInput) : Act SubDB Sub_row :=
  let* at_ := time_now in
  let* id := Create (new_subscription input at_) in
  GetByID id.

Definition AssignOrExtendSubscription (input : AssignSubscriptionInput) : Act SubDB (Sub_row * bool) :=
  let* existing := findAssignmentTarget (in_user input) (in_plan input) in
  match existing with
  | Some p =>
      let* _ := updateExistingSubscriptionTerm p.1 (normalizeAssignValidityDays (in_days input)) (in_notes input) false in
      let* _ := applyAssignedLimit p input in
      let* sub := GetByID p.1 in
      aret (sub, true)
  | None => let* sub := createSubscription input in aret (sub, false)
  end.

Definition detectAssignSemanticConflict r (input : AssignSubscriptionInput) : option string :=
  match in_limit input with
  | Some _ => None
  | None =>
      let expected := cap_expiry (AddDate (row_starts r) 0 0 (normalizeAssignValidityDays (in_days input))) in
      if negb (IsZero (row_starts r)) && negb (row_expires r =? expected) then Some "validity_days_mismatch"
      else if negb (String.eqb (TrimSpace (row_notes r)) (TrimSpace (in_notes input))) then Some "notes_mismatch"
      else None
  end.

Definition assignSubscriptionWithReuse (input : AssignSubscriptionInput) : Act SubDB (Sub_row * bool) :=
  let* existing := findAssignmentTarget (in_user input) (in_plan input) in
  match existing with
  | Some p =>
      let* at_ := time_now in
      if isRenewableUnderAssignment p.2 at_ then
        let* _ := updateExistingSubscriptionTerm p.1 (normalizeAssignValidityDays (in_days input)) (in_notes input) true in
        let* _ := applyAssignedLimit p input in
        let* sub := GetByID p.1 in
        aret (sub, true)
      else
        match detectAssignSemanticConflict p.2 input with
        | Some reason => afail (ErrWrap reason ErrSubscriptionAssignConflict)
        | None => let* _ := applyAssignedLimit p input in aret (p, true)
        end
  | None => let* sub := createSubscription input in aret (sub, false)
  end.

Definition AssignSubscription (input : AssignSubscriptionInput) : Act SubDB Sub_row :=
  let* answer := assignSubscriptionWithReuse input in aret answer.1.

(** *** Many users at once *)

Record BulkAssignResult : Type := mkBulk {
  SuccessCount : Z;
  CreatedCount : Z;
  ReusedCount : Z;
  FailedCount : Z;
  Subscriptions_ : list Sub_row;
  Errors : list (Z * goerr);
  Statuses : gmap Z string
}.

Definition bulk_add (userID : Z) (answer : res (Sub_row * bool)) (b : BulkAssignResult) : BulkAssignResult :=
  match answer with
  | Err e => mkBulk (SuccessCount b) (CreatedCount b) (ReusedCount b) (FailedCount b + 1) (Subscriptions_ b)
               (Errors b ++ [(userID, e)])%list (<[userID := "failed"]> (Statuses b))
  | Ok (sub, true) => mkBulk (SuccessCount b + 1) (CreatedCount b) (ReusedCount b + 1) (FailedCount b)
               (Subscriptions_ b ++ [sub])%list (Errors b) (<[userID := "reused"]> (Statuses b))
  | Ok (sub, false) => mkBulk (SuccessCount b + 1) (CreatedCount b + 1) (ReusedCount b) (FailedCount b)
               (Subscriptions_ b ++ [sub])%list (Errors b) (<[userID := "created"]> (Statuses b))
  end.

(** The input of one user: the reset period is not passed on. *)
Definition bulk_input (input : AssignSubscriptionInput) (userID : Z) : AssignSubscriptionInput :=
  mkAssign userID (in_plan input) (in_days input) (in_by input) (in_notes input) (in_limit input) "".

Fixpoint bulk_assign (users : list Z) (input : AssignSubscriptionInput) (b : BulkAssignResult)
    : Act SubDB BulkAssignResult :=
  match users with
  | [] => aret b
  | u :: users =>
      let* answer := atry (assignSubscriptionWithReuse (bulk_input input u)) in
      bulk_assign users input (bulk_add u answer b)
  end.

Definition BulkAssignSubscription (users : list Z) (input : AssignSubscriptionInput) : Act SubDB BulkAssignResult :=
  bulk_assign users input (mkBulk 0 0 0 0 [] [] ∅).

(** *** The life of a subscription *)

Definition RevokeSubscription (id : Z) : Act SubDB unit :=
  let* sub := GetByID id in
  let* _ := effect (Delete id) in
  invalidate (row_user sub.2).

Definition RestoreSubscription (id : Z) : Act SubDB Sub_row :=
  let* r := GetByIDIncludeDeleted id in
  match row_deleted r with
  | None => afail ErrSubscriptionNotRevoked
  | Some _ =>
      let* exists_ := select (fun w => Ok (ExistsActiveByUserID (row_user r) w)) in
      if exists_ : bool then afail ErrSubscriptionRestoreConflict
      else
        let* at_ := time_now in
        let status := if String.eqb (row_status r) SubscriptionStatusActive && negb (After (row_expires r) at_)
                      then SubscriptionStatusExpired else row_status r in
        let* restored := Restore id status in
        let* _ := invalidate (row_user restored.2) in
        aret restored
  end.

Definition clamp_days (days : Z) : Z :=
  let days := if MaxValidityDays <? days then MaxValidityDays else days in
  if days <? - MaxValidityDays then - MaxValidityDays else days.

(** The body of the transaction of [ExtendSubscription]. *)
Definition extend_tx (id days : Z) w : res SubDB :=
  match sub_row id w with
  | Err _ => Err ErrSubscriptionNotFound
  | Ok r =>
      let days := clamp_days days in
      let isExpired := negb (After (row_expires r) (now w)) in
      if isExpired && (days <? 0) then Err ErrCannotShortenExpired
      else
        let newExpiresAt := cap_expiry (AddDate (if isExpired then now w else row_expires r) 0 0 days) in
        if negb (After newExpiresAt (now w)) then Err ErrAdjustWouldExpire
        else
          rbind (ExtendExpiry id newExpiresAt w) (fun w =>
          if String.eqb (row_status r) SubscriptionStatusExpired then UpdateStatus id SubscriptionStatusActive w
          else Ok w)
  end.

Definition ExtendSubscription (id days : Z) : Act SubDB Sub_row :=
  let* _ := effect (extend_tx id days) in GetByID id.

Definition AdminResetQuota (id : Z) : Act SubDB Sub_row :=
  let* _ := GetByID id in
  let* _ := effect (ResetUsage id) in
  GetByID id.

(** The answer, and the expiry it notes in the table. *)
Definition ValidateSubscription (p : Sub_row) : Act SubDB unit :=
  if String.eqb (row_status p.2) SubscriptionStatusExpired then afail ErrSubscriptionExpired
  else if String.eqb (row_status p.2) SubscriptionStatusSuspended then afail ErrSubscriptionSuspended
  else
    let* at_ := time_now in
    if IsExpired (wallet_of p) at_ then
      let* _ := atry (effect (UpdateStatus p.1 SubscriptionStatusExpired)) in afail ErrSubscriptionExpired
    else aret tt.

Definition CheckUsageLimits (p : Sub_row) (additionalCost : Amount) : Act SubDB unit :=
  let* at_ := time_now in
  if CheckLimitAt (wallet_of p) additionalCost at_ then aret tt else afail ErrSubscriptionQuotaExhausted.

(** *** Usage *)

Definition RecordUsage (id : Z) (costUSD : Amount) : Act SubDB unit := IncrementUsage id costUSD.

(** What has been written, and the error that ended it. *)
Fixpoint record_all (l written : list SubscriptionAllocation)
    : Act SubDB (list SubscriptionAllocation * option goerr) :=
  match l with
  | [] => aret (written, None)
  | a :: l =>
      let* answer := atry (IncrementUsage (SubscriptionID a) (AllocAmount a)) in
      match answer with
      | Ok _ => record_all l (written ++ [a])%list
      | Err e => aret (written, Some (if errors_Is e ErrSubscriptionNotFound
                                      then ErrWrap "subscription disappeared while recording usage" e else e))
      end
  end.

Definition AllocateAndRecordUsage (userID : Z) (costUSD : Amount)
    : Act SubDB (list SubscriptionAllocation * option goerr) :=
  if costUSD <=? 0 then aret ([], None)
  else
    let* subs := atry (select (fun w => Ok (ListActiveByUserID userID w))) in
    match subs with
    | Err e => aret ([], Some e)
    | Ok [] => aret ([], Some ErrSubscriptionNotFound)
    | Ok subs =>
        let* at_ := time_now in
        let '(allocations, ok) := AllocateSubscriptionUsage at_ (map (fun p => Some (wallet_of p)) subs) costUSD in
        if ok : bool then record_all allocations [] else aret ([], Some ErrSubscriptionQuotaExhausted)
    end.

(** *** Progress, as a user sees it *)

Record SubscriptionProgress : Type := mkProgress {
  ProgressID : Z;
  ProgressExpiresAt : Time;
  ExpiresInDays : Z;
  ProgressLimit : option Amount;
  ProgressUsage : Amount;
  RemainingUSD : option Amount;
  Percentage : Q;
  Unlimited : bool;
  ProgressPeriod : string;
  WindowResetsAt : option Time
}.

(** The share of a limit that has been used, in percent. *)
Definition percentage_of (limit : option Amount) (usage : Amount) : Q :=
  match limit with
  | Some l =>
      if 0 <? l then
        let p := (inject_Z usage / inject_Z l * 100)%Q in
        let p := if Qle_bool p 100 then p else 100%Q in
        if Qle_bool 0 p then p else 0%Q
      else 0%Q
  | None => 0%Q
  end.

Definition calculateProgress (p : Sub_row) (at_ : Time) : SubscriptionProgress :=
  let sub := wallet_of p in
  let windowUsage := EffectiveWindowUsageUSD 0 sub at_ in
  mkProgress p.1 (row_expires p.2) (daysRemainingAt sub at_) (EffectiveTotalLimit sub) windowUsage
    (RemainingUSDAt sub at_) (percentage_of (EffectiveTotalLimit sub) windowUsage) (IsUnlimited sub)
    (NormalizeSubscriptionResetPeriod (ResetPeriod sub)) (SubscriptionWindowResetsAt sub at_).

Definition GetUserSubscriptionsWithProgress (userID : Z) : Act SubDB (list SubscriptionProgress) :=
  let* subs := select (fun w => Ok (ListActiveByUserID userID w)) in
  let* at_ := time_now in
  aret (map (fun p => calculateProgress p at_) subs).

(** [normalizeSubscriptionStatus] *)
Definition shown_status (at_ : Time) r : SubRow :=
  if String.eqb (row_status r) SubscriptionStatusActive && negb (After (row_expires r) at_)
  then set_status SubscriptionStatusExpired r else r.

Definition ListUserSubscriptions (userID : Z) : Act SubDB (list Sub_row) :=
  let* subs := list_user userID in
  let* at_ := time_now in
  aret (map (fun p => (p.1, shown_status at_ p.2)) subs).

(** *** Plans that users claim *)

(** [Format(time.RFC3339)] of an instant in UTC. *)
Definition format_rfc3339 (t : Time) : string :=
  let '(y, m, d) := Date_of t in
  let s := t mod Day / Second in
  zero_padded 4 (FormatInt y) ++ "-" ++ zero_padded 2 (FormatInt m) ++ "-" ++ zero_padded 2 (FormatInt d) ++ "T" ++
  zero_padded 2 (FormatInt (s / 3600)) ++ ":" ++ zero_padded 2 (FormatInt (s / 60 mod 60)) ++ ":" ++
  zero_padded 2 (FormatInt (s mod 60)) ++ "Z".

Definition buildSelfClaimNotes (planName : string) (at_ : Time) : string :=
  let name := TrimSpace planName in
  "self-claimed: " ++ (if String.eqb name "" then "plan" else name) ++ " @" ++ format_rfc3339 at_.

(** A row that counts as held: active and not expired. *)
Definition holds (planID : Z) (at_ : Time) (p : Sub_row) : bool :=
  bool_decide (row_plan p.2 = Some planID) && IsActive (wallet_of p) at_.

Definition findClaimedSubscription (userID planID : Z) : Act SubDB (option Sub_row) :=
  let* subs := list_user userID in
  let* at_ := time_now in
  aret (List.find (holds planID at_) subs).

Definition claim_input (userID planID : Z) (plan : SubscriptionPlan) (at_ : Time) : AssignSubscriptionInput :=
  mkAssign userID (Some planID) (plan_validity_days plan) 0 (buildSelfClaimNotes (plan_name plan) at_)
    (plan_total_limit plan) (NormalizeSubscriptionResetPeriod (plan_reset_period plan)).

(** The subscription, and whether it was there. *)
Definition ClaimSubscription (userID planID : Z) : Act SubDB (Sub_row * bool) :=
  if userID <=? 0 then afail ErrClaimUnauthorized
  else if planID <=? 0 then afail ErrSubscriptionNotClaimable
  else
    let* plan := select (fun w => match sub_plans w !! planID with Some p => Ok p | None => Err ErrPlanNotFound end) in
    if negb (plan_for_sale plan) || negb (plan_self_claimable plan) then afail ErrSubscriptionNotClaimable
    else
      let* existing := findClaimedSubscription userID planID in
      match existing with
      | Some sub => aret (sub, true)
      | None =>
          let* at_ := time_now in
          let* answer := AssignOrExtendSubscription (claim_input userID planID plan at_) in
          aret (answer.1, false)
      end.

(** The plans a user may claim, in order, with the mark of those held. *)
Definition claimable_plans w : list (Z * SubscriptionPlan) :=
  stable_sort (fun a b => plan_sort_order a.2 <? plan_sort_order b.2)
    (List.filter (fun p => plan_for_sale p.2 && plan_self_claimable p.2) (map_to_list (sub_plans w))).

Definition ListClaimablePlans (userID : Z) : Act SubDB (list (Z * SubscriptionPlan * bool)) :=
  let* offered := select (fun w => Ok (claimable_plans w)) in
  match offered with
  | [] => aret []
  | _ =>
      let* held := (if 0 <? userID then list_user userID else aret []) in
      let* at_ := time_now in
      aret (map (fun p => (p, existsb (holds p.1 at_) held)) offered)
  end.

(** *** Redeem codes that take days *)

(** [int(expires.Sub(now).Hours() / 24)], not below zero; the rounding of the float64 is
not modelled. *)
Definition whole_days_left (expires at_ : Time) : Z := Z.max 0 (Z.quot (Sub expires at_) Day).

Definition reduce_target (subs : list Sub_row) : option Sub_row :=
  match List.find (fun p => IsUnlimited (wallet_of p)) subs with
  | Some p => Some p
  | None => head subs
  end.

(** [reduceOrCancelSubscription], in the transaction of the code. *)
Definition reduce_tx (userID reduceDays : Z) (notes : string) w : res SubDB :=
  match reduce_target (ListActiveByUserID userID w) with
  | None => Err ErrSubscriptionNotFound
  | Some (id, r) =>
      let at_ := now w in
      rbind (if whole_days_left (row_expires r) at_ <=? reduceDays then
               rbind (wrap_err "cancel subscription" (UpdateStatus id SubscriptionStatusExpired w)) (fun w =>
               wrap_err "set subscription expiry" (ExtendExpiry id at_ w))
             else wrap_err "reduce subscription" (ExtendExpiry id (AddDate (row_expires r) 0 0 (- reduceDays)) w))
        (fun w => wrap_err "update subscription notes"
                    (UpdateNotes id ((if String.eqb (row_notes r) "" then "" else row_notes r ++ String LF "") ++ notes) w))
  end.

End Service.
