(* ===== verification/SubscriptionFacts.v ===== *)
(** * Subscriptions: what stays true whatever interleaves

Every program of the service keeps the rows of the table well formed and their
identity; none of them but the reset of a quota by an administrator takes usage off a
wallet of one amount. *)
From S2P Require Import Prelude GoText GoTime Redis PaymentStore Payments PaymentCreate.
From S2P Require Import SubscriptionWindow Wallets Programs Interleave Subscriptions.
From Stdlib Require Import Bool.

Local Open Scope string_scope.
Local Open Scope Z_scope.

Implicit Types (w : SubDB) (r : SubRow).

(** ** Times and amounts *)

Lemma timestamptz_mono t u : t <= u -> timestamptz t <= timestamptz u.
Proof. intros H. unfold timestamptz. apply Z.mul_le_mono_nonneg_r; [done|]. apply Z.div_le_mono; lia. Qed.

Lemma timestamptz_idem t : timestamptz (timestamptz t) = timestamptz t.
Proof. unfold timestamptz. f_equal. Z.div_mod_to_equations; lia. Qed.

Lemma timestamptz_max : timestamptz MaxExpiresAt = MaxExpiresAt.
Proof. reflexivity. Qed.

Lemma cap_expiry_le t : cap_expiry t <= MaxExpiresAt.
Proof. unfold cap_expiry, After. destruct (Z.ltb_spec MaxExpiresAt t); lia. Qed.

Lemma cap_expiry_min t : cap_expiry t = Z.min t MaxExpiresAt.
Proof. unfold cap_expiry, After. destruct (Z.ltb_spec MaxExpiresAt t); lia. Qed.

(** Days are added as 24 hours each. *)
Lemma AddDate_add t d : AddDate t 0 0 d = t + d * Day.
Proof.
  unfold AddDate. pose proof (Date_of_spec t) as H. destruct (Date_of t) as [[y m] k].
  rewrite !Z.add_0_r, Date_in_year by lia.
  pose proof (Z.div_mod t Day ltac:(done)) as Ht. unfold day_of in H. nia.
Qed.

Lemma numeric8_nonneg x : 0 <= x -> 0 <= numeric8 x.
Proof.
  intros Hx. unfold numeric8. destruct (Z.eq_dec x 0) as [->|Hn]; [done|].
  rewrite Z.sgn_pos, Z.abs_eq by lia. Z.div_mod_to_equations; lia.
Qed.

Lemma numeric8_bounds x : x - 50 <= numeric8 x <= x + 50.
Proof.
  unfold numeric8. destruct (Z.lt_trichotomy x 0) as [H|[->|H]]; [|done|].
  - rewrite Z.sgn_neg, Z.abs_neq by lia. Z.div_mod_to_equations; lia.
  - rewrite Z.sgn_pos, Z.abs_eq by lia. Z.div_mod_to_equations; lia.
Qed.

Lemma window_start_before period t : 0 <= t -> SubscriptionWindowStart period t <= t.
Proof.
  intros Ht. destruct (normalize_period period) as [[Hn _]|[p ->]]; [|apply window_start_le].
  unfold SubscriptionWindowStart. by rewrite Hn.
Qed.

Lemma window_start_none period t :
  IsRecurringSubscriptionResetPeriod period = false -> SubscriptionWindowStart period t = zeroTime.
Proof.
  unfold IsRecurringSubscriptionResetPeriod, SubscriptionWindowStart. intros H%negb_false_iff. by rewrite H.
Qed.

(** ** The table's invariant, and what a move may change *)

Section Moves.
(** Whether some of the programs charge wallets. *)
Context (charging : bool).

Record sound_row (clock : Time) r : Prop := {
  limit_nonneg : forall l, row_limit r = Some l -> 0 <= l;
  usage_nonneg : 0 <= row_usage r;
  expiry_capped : row_expires r <= MaxExpiresAt;
  period_known : NormalizeSubscriptionResetPeriod (row_period r) = row_period r;
  one_off_no_window : row_period r = SubscriptionResetPeriodNone -> row_window r = zeroTime;
  window_past : row_window r <= clock;
  created_past : row_created r <= timestamptz clock
}.

Record sound w : Prop := {
  clock_pos : 0 <= now w;
  rows_sound : forall id r, rows w !! id = Some r -> sound_row (now w) r
}.

(** What every move keeps of a row. *)
Record same_wallet r r' : Prop := {
  same_user : row_user r' = row_user r;
  same_plan : row_plan r' = row_plan r;
  same_period : row_period r' = row_period r;
  same_created : row_created r' = row_created r;
  usage_kept : row_period r = SubscriptionResetPeriodNone ->
    if charging then row_usage r <= row_usage r' else row_usage r' = row_usage r
}.

Record moves w w' : Prop := {
  clock_forward : now w <= now w';
  wallets_kept : forall id r, rows w !! id = Some r -> exists r', rows w' !! id = Some r' /\ same_wallet r r'
}.

Lemma same_wallet_refl r : same_wallet r r.
Proof. split; try done. by destruct charging. Qed.

Lemma same_columns r r' :
  row_user r' = row_user r -> row_plan r' = row_plan r -> row_period r' = row_period r ->
  row_created r' = row_created r -> row_usage r' = row_usage r -> same_wallet r r'.
Proof. intros ? ? ? ? Hu. split; try done. intros _. rewrite Hu. by destruct charging. Qed.

#[export] Instance moves_preorder : PreOrder moves.
Proof.
  split.
  - intros w. split; [lia|]. intros id r Hr. exists r. split; [done|apply same_wallet_refl].
  - intros w1 w2 w3 [C12 K12] [C23 K23]. split; [lia|]. intros id r Hr.
    destruct (K12 id r Hr) as (r2 & H2 & [U2 P2 Q2 D2 G2]). destruct (K23 id r2 H2) as (r3 & H3 & [U3 P3 Q3 D3 G3]).
    exists r3. split; [done|]. split; try congruence. intros Hp. specialize (G2 Hp). rewrite Q2 in G3. specialize (G3 Hp).
    destruct charging; [lia|congruence].
Qed.

Lemma sound_row_later t t' r : t <= t' -> sound_row t r -> sound_row t' r.
Proof.
  intros Ht [? ? ? ? ? ? ?]. pose proof (timestamptz_mono t t' Ht). split; try done; lia.
Qed.

(** A row that is written in place of another. *)
Lemma write_row w id r r' :
  sound w -> rows w !! id = Some r -> sound_row (now w) r' -> same_wallet r r' ->
  sound (with_rows (<[id := r']> (rows w)) w) /\ moves w (with_rows (<[id := r']> (rows w)) w).
Proof.
  intros [Hc Hs] Hr Hr' Hsame. split.
  - split; [done|]. cbn. intros i q. destruct (decide (i = id)) as [->|Hne].
    + rewrite lookup_insert_eq. by intros [= <-].
    + rewrite lookup_insert_ne by done. apply Hs.
  - split; [done|]. cbn. intros i q Hq. destruct (decide (i = id)) as [->|Hne].
    + rewrite lookup_insert_eq. exists r'. split; [done|]. by simplify_eq.
    + rewrite lookup_insert_ne by done. exists q. split; [done|apply same_wallet_refl].
Qed.

(** A change of a row that a statement makes. *)
Definition harmless (clock : Time) (set : SubRow -> SubRow) : Prop :=
  forall r, sound_row clock r -> sound_row clock (set r) /\ same_wallet r (set r).

Definition good (w : SubDB) (m : res SubDB) : Prop :=
  sound w -> forall w', m = Ok w' -> sound w' /\ moves w w' /\ now w' = now w.

Lemma update_one_good w id set : harmless (now w) set -> good w (update_one id set w).
Proof.
  intros Hset Hw w'. unfold update_one. destruct (rows w !! id) as [r|] eqn:Hr; [|done]. intros [= <-].
  destruct (Hset r (rows_sound _ Hw id r Hr)) as [Hr' Hsame].
  destruct (write_row w id r (set r)); done.
Qed.

Lemma update_all w (f : SubRow -> SubRow) :
  sound w -> harmless (now w) f -> sound (with_rows (f <$> rows w) w) /\ moves w (with_rows (f <$> rows w) w).
Proof.
  intros [Hc Hs] Hf. split.
  - split; [done|]. cbn. intros i q. intros (r & <- & Hr)%lookup_fmap_Some. by apply Hf, (Hs i).
  - split; [done|]. cbn. intros i q Hq. exists (f q). split; [apply lookup_fmap_Some; by exists q|].
    by apply Hf, (Hs i).
Qed.

Lemma rbind_good w m k : good w m -> (forall w', now w' = now w -> good w' (k w')) -> good w (rbind m k).
Proof.
  intros Hm Hk Hw w'. unfold rbind. destruct m as [w1|e]; [|done]. intros Hk1.
  destruct (Hm Hw w1) as (S1 & M1 & N1); [done|]. destruct (Hk w1 N1 S1 w') as (S2 & M2 & N2); [done|].
  split; [done|]. split; [by etrans|congruence].
Qed.

Lemma wrap_good w prefix m : good w m -> good w (wrap_err prefix m).
Proof. intros Hm Hw w'. destruct m; [apply Hm, Hw|done]. Qed.

Lemma ok_good w : good w (Ok w).
Proof. intros Hw w' [= <-]. split; [done|]. split; [|done]. done. Qed.

Lemma err_good w e : good w (Err e).
Proof. by intros Hw w'. Qed.

(** ** The statements keep the invariant *)

Lemma set_status_harmless t v : harmless t (set_status v).
Proof. intros r Hr. split; [by destruct Hr|by apply same_columns]. Qed.

Lemma set_expires_harmless t v : v <= MaxExpiresAt -> harmless t (set_expires v).
Proof. intros Hv r Hr. split; [by destruct Hr|by apply same_columns]. Qed.

Lemma set_notes_harmless t v : harmless t (set_notes v).
Proof. intros r Hr. split; [by destruct Hr|by apply same_columns]. Qed.

Lemma set_deleted_harmless t v : harmless t (set_deleted v).
Proof. intros r Hr. split; [by destruct Hr|by apply same_columns]. Qed.

Lemma set_limit_harmless t v : (forall l, v = Some l -> 0 <= l) -> harmless t (set_limit v).
Proof. intros Hv r Hr. split; [by destruct Hr|by apply same_columns]. Qed.

(** A window that starts anew, for a subscription that has windows. *)
Lemma set_window_sound t start r :
  start <= t -> sound_row t r -> row_period r <> SubscriptionResetPeriodNone ->
  sound_row t (set_usage start 0 r) /\ same_wallet r (set_usage start 0 r).
Proof. intros Hs [] Hp. by split; split. Qed.

Lemma capped_expiry t : timestamptz (cap_expiry t) <= MaxExpiresAt.
Proof. rewrite <- timestamptz_max. apply timestamptz_mono, cap_expiry_le. Qed.

Create HintDb subs.
#[local] Hint Resolve set_status_harmless set_notes_harmless set_deleted_harmless capped_expiry : subs.

Lemma sub_row_rows id w r : sub_row id w = Ok r -> rows w !! id = Some r /\ row_deleted r = None.
Proof.
  unfold sub_row, row_deleted_not. destruct (rows w !! id) as [q|]; [|done]. destruct (row_deleted q) eqn:E; [done|].
  by intros [= ->].
Qed.

Lemma extend_expiry_good w id t : good w (ExtendExpiry id (cap_expiry t) w).
Proof. apply update_one_good, set_expires_harmless, capped_expiry. Qed.

Lemma update_status_good w id v : good w (UpdateStatus id v w).
Proof. apply update_one_good. auto with subs. Qed.

Lemma update_notes_good w id v : good w (UpdateNotes id v w).
Proof. apply update_one_good. auto with subs. Qed.

Lemma update_limit_good w id v : good w (UpdateAssignedLimit id v w).
Proof.
  destruct v as [t|]; [|apply ok_good]. apply update_one_good, set_limit_harmless.
  destruct (Z.ltb_spec 0 t); [|done]. intros l [= <-]. apply numeric8_nonneg. lia.
Qed.

Lemma delete_good w id : good w (Delete id w).
Proof.
  intros Hw w' [= <-]. destruct (rows w !! id) as [r|] eqn:Hr; [|by destruct (ok_good w Hw w)].
  destruct (row_deleted_not r); [|by destruct (ok_good w Hw w)].
  destruct (set_deleted_harmless (now w) (Some (timestamptz (now w))) r) as [Hs Hm]; [by apply (rows_sound _ Hw id)|].
  by destruct (write_row w id r _ Hw Hr Hs Hm).
Qed.

Lemma reset_window_good w id start : start <= now w -> good w (Ok (reset_window id start w)).
Proof.
  intros Hs Hw w' [= <-]. unfold reset_window. destruct (rows w !! id) as [r|] eqn:Hr; [|by destruct (ok_good w Hw w)].
  destruct (_ && _ && _) eqn:E; [|by destruct (ok_good w Hw w)]. bool_prop.
  destruct (set_window_sound (now w) start r) as [Hnew Hsame]; [done|by apply (rows_sound _ Hw id)|done|].
  by destruct (write_row w id r _ Hw Hr Hnew Hsame).
Qed.

Lemma add_usage_good w id cost : charging = true -> 0 <= cost -> good w (add_usage id cost w).
Proof.
  intros Hcharge Hc Hw w'. unfold add_usage. destruct (sub_row id w) as [r|] eqn:Hr; [|done]. intros [= <-].
  apply sub_row_rows in Hr as [Hr _]. destruct (rows_sound _ Hw id r Hr).
  destruct (write_row w id r (set_usage (row_window r) (row_usage r + cost) r) Hw Hr); [..|done].
  - split; try done. cbn. lia.
  - split; try done. intros _. rewrite Hcharge. cbn. lia.
Qed.

Lemma batch_reset_good w period start :
  start <= now w -> period <> SubscriptionResetPeriodNone -> good w (Ok (batch_reset period start w)).
Proof.
  intros Hs Hp Hw w' [= <-].
  destruct (update_all w (fun r =>
    if row_deleted_not r && String.eqb (row_status r) SubscriptionStatusActive &&
       String.eqb (row_period r) period && window_before start r
    then set_usage start 0 r else r)); [done| |done].
  intros r Hr. destruct (_ && _ && _ && _) eqn:E; [|by split; [|apply same_wallet_refl]]. bool_prop.
  apply set_window_sound; [done..|congruence].
Qed.

Lemma batch_expire_good w : good w (Ok (batch_expire w)).
Proof.
  intros Hw w' [= <-].
  destruct (update_all w (fun r =>
    if String.eqb (row_status r) SubscriptionStatusActive && (row_expires r <=? timestamptz (now w))
    then set_status SubscriptionStatusExpired r else r)); [done| |done].
  intros r Hr. destruct (_ && _); [by apply set_status_harmless|by split; [|apply same_wallet_refl]].
Qed.

(** A limit that the service hands to the column. *)
Lemma stored_limit_nonneg v l : option_map numeric8 (Wallets.normalizeSubLimit v) = Some l -> 0 <= l.
Proof.
  unfold Wallets.normalizeSubLimit. destruct v as [x|]; [|done]. destruct (Z.leb_spec x 0); [done|]. cbn.
  intros [= <-]. apply numeric8_nonneg. lia.
Qed.

(** A row that the service asks for at an instant that has passed. *)
Lemma inserted_row_sound w input t :
  0 <= t <= now w -> sound_row (now w) (inserted_row (new_subscription input t) w).
Proof.
  intros Ht. unfold inserted_row, new_subscription. cbn [row_period row_starts row_window row_expires row_limit].
  set (period := NormalizeSubscriptionResetPeriod _).
  assert (Hidem : NormalizeSubscriptionResetPeriod period = period).
  { unfold period. destruct (normalize_period (in_period input)) as [[-> _]|[p ->]]; by rewrite ?normalize_name. }
  pose proof (window_start_before period t ltac:(lia)) as Hwin. rewrite Hidem.
  split; cbn -[timestamptz AddDate SubscriptionWindowStart IsRecurringSubscriptionResetPeriod].
  - apply stored_limit_nonneg.
  - done.
  - apply capped_expiry.
  - done.
  - intros ->. done.
  - destruct (IsRecurringSubscriptionResetPeriod period); [|unfold zeroTime; lia].
    destruct (IsZero (SubscriptionWindowStart period t)); [|lia]. etrans; [apply window_start_before|].
    all: destruct (IsZero t); lia.
  - done.
Qed.

(** ** The programs *)

Abbreviation keeps F m P := (does sound moves F m P).
Abbreviation always := (fun _ : SubDB => True).

(** An instant that has passed. *)
Definition passed (t : Time) w : Prop := 0 <= t <= now w.

#[export] Instance passed_stable t : Stable sound moves (passed t).
Proof. intros w w' _ _ [Hc _] Ht. unfold passed in *. lia. Qed.

Lemma time_keeps F : Stable sound moves F -> keeps F time_now passed.
Proof.
  intros HF. apply does_get; [done|apply _|]. intros w [Hc _] _. unfold passed. lia.
Qed.

Lemma effect_keeps F f : Stable sound moves F -> (forall w, sound w -> F w -> good w (f w)) ->
  keeps F (effect f) (fun _ => always).
Proof.
  intros HF Hf. apply does_statement; [apply _..|]. intros w w' a Hw Hfw.
  destruct (f w) as [w1|e] eqn:E; [|done]. intros [= <- _]. by destruct (Hf w Hw Hfw Hw w1 E) as (? & ? & ?).
Qed.

Lemma select_keeps {A} F (f : SubDB -> res A) : Stable sound moves F -> keeps F (select f) (fun _ => always).
Proof. intros HF. by apply does_select; try apply _. Qed.

Lemma bind_keeps {A B} F (P : A -> SubDB -> Prop) (m : Act SubDB A) (k : A -> Act SubDB B) :
  Stable sound moves F -> keeps F m P -> (forall a, keeps (fun w => F w /\ P a w) (k a) (fun _ => always)) ->
  keeps F (abind m k) (fun _ => always).
Proof. intros HF Hm Hk. by apply (does_bind _ _ F P). Qed.

(** A program that does as it is told whatever else is known. *)
Lemma forget {A} F (m : Act SubDB A) : Stable sound moves F -> keeps always m (fun _ => always) ->
  keeps F m (fun _ => always).
Proof. intros HF Hm. by apply (does_weaken _ _ F always m (fun _ => always)). Qed.

Lemma try_keeps {A} F (m : Act SubDB A) : Stable sound moves F -> keeps F m (fun _ => always) ->
  keeps F (atry m) (fun _ => always).
Proof.
  intros HF Hm. apply (does_weaken _ _ F F (atry m) (answers (fun _ => always))); [done| |done..].
  by apply does_try; try apply _.
Qed.

(** [keep]: the steps of a program, one by one; [what] proves that a statement is good. *)
Ltac keep_step :=
  lazymatch goal with
  | |- does _ _ _ (aret _) _ => apply does_ret; [apply _|done]
  | |- does _ _ _ (afail _) _ => apply does_fail; apply _
  | |- does _ _ _ (abind time_now _) _ => apply (bind_keeps _ passed); [apply _|apply time_keeps, _|intros]
  | |- does _ _ _ (abind _ _) _ => apply (bind_keeps _ (fun _ => always)); [apply _| |intros]
  | |- does _ _ _ (atry _) _ => apply try_keeps; [apply _|]
  | |- does _ _ _ (select _) _ => apply select_keeps, _
  | |- does _ _ _ (GetByID _) _ => apply select_keeps, _
  | |- does _ _ _ (if ?b then _ else _) _ => destruct b
  | |- does _ _ _ (match ?x with _ => _ end) _ => destruct x
  | |- does _ _ _ (let '(_, _) := ?x in _) _ => destruct x
  end.
Ltac keep := repeat keep_step.

#[local] Hint Resolve extend_expiry_good update_status_good update_notes_good update_limit_good delete_good
  batch_expire_good add_usage_good : subs.

Section Programs_keep.
Context `{GoUnicode} (caches : CachePeers).

Lemma invalidate_keeps F userID : Stable sound moves F -> keeps F (invalidate caches userID) (fun _ => always).
Proof. intros HF. unfold invalidate. keep. Qed.

(** The renewal writes the usage that it has read under the lock. *)
Lemma renewal_good w id r notes t :
  rows w !! id = Some r ->
  good w (Update id (renewedSubscriptionTerm r notes (now w) (cap_expiry t)) w).
Proof.
  intros Hr Hw w'. unfold Update, update_one. rewrite Hr. intros [= <-].
  destruct (rows_sound _ Hw id r Hr). edestruct (write_row w id r); [done..| | |split; [eassumption|by split]].
  - split; cbn -[timestamptz cap_expiry]; try done. apply capped_expiry.
  - apply same_columns; cbn; try done. by destruct (row_plan r).
Qed.

Lemma update_term_good w id days notes semantics : good w (update_term id days notes semantics w).
Proof.
  unfold update_term. destruct (sub_row id w) as [r|] eqn:Hr; [|apply err_good].
  apply sub_row_rows in Hr as [Hr Hlive]. destruct (_ && _); [apply ok_good|]. cbv zeta.
  destruct (if semantics then _ else _).
  - by apply wrap_good, renewal_good.
  - apply rbind_good; [apply wrap_good; auto with subs|]. intros w1 _. apply rbind_good.
    + destruct (String.eqb _ _); [apply ok_good|apply wrap_good; auto with subs].
    + intros w2 _. destruct (String.eqb _ _); [apply ok_good|apply wrap_good; auto with subs].
Qed.

Lemma extend_tx_good w id days : good w (extend_tx id days w).
Proof.
  unfold extend_tx. destruct (sub_row id w) as [r|]; [|apply err_good]. cbv zeta.
  destruct (_ && _); [apply err_good|]. destruct (negb _); [apply err_good|].
  apply rbind_good; [auto with subs|]. intros w1 _. destruct (String.eqb _ _); [auto with subs|apply ok_good].
Qed.

Lemma elem_of_live p w x :
  x ∈ live_rows p w <-> rows w !! x.1 = Some x.2 /\ row_deleted x.2 = None /\ p x = true.
Proof.
  unfold live_rows. rewrite list_elem_of_In, filter_In, <- list_elem_of_In. destruct x as [id r]. cbn.
  rewrite elem_of_map_to_list, andb_true_iff. unfold row_deleted_not. destruct (row_deleted r); intuition congruence.
Qed.

Lemma elem_of_active userID w x :
  x ∈ ListActiveByUserID userID w <->
  rows w !! x.1 = Some x.2 /\ row_deleted x.2 = None /\ row_user x.2 = userID /\
  row_status x.2 = SubscriptionStatusActive /\ timestamptz (now w) < row_expires x.2.
Proof.
  unfold ListActiveByUserID. rewrite stable_sort_perm, elem_of_live. unfold row_active.
  rewrite !andb_true_iff, Z.eqb_eq, String.eqb_eq, Z.ltb_lt. tauto.
Qed.

Lemma reduce_target_in l p : reduce_target l = Some p -> p ∈ l.
Proof.
  unfold reduce_target. destruct (List.find _ l) as [q|] eqn:E.
  - intros [= <-]. apply find_some in E as [Hin _]. by apply list_elem_of_In.
  - destruct l; [done|]. intros [= ->]. apply list_elem_of_here.
Qed.

Lemma reduce_tx_good w userID days notes : 0 <= days -> good w (reduce_tx userID days notes w).
Proof.
  intros Hd Hw. unfold reduce_tx. destruct (reduce_target _) as [[id r]|] eqn:E; [|by apply err_good].
  apply reduce_target_in, elem_of_active in E as (Hr & _ & _ & _ & Hexp). cbn in Hr, Hexp.
  pose proof (expiry_capped _ _ (rows_sound _ Hw id r Hr)) as Hcap.
  assert (Hset : forall w1 t, t <= row_expires r -> timestamptz t <= MaxExpiresAt).
  { intros _ t Ht. rewrite <- timestamptz_max. apply timestamptz_mono. lia. }
  revert Hw. apply rbind_good; [|intros w1 _; apply wrap_good; auto with subs].
  destruct (_ <=? _).
  - apply rbind_good; [apply wrap_good; auto with subs|]. intros w1 _. apply wrap_good, update_one_good, set_expires_harmless.
    lia.
  - apply wrap_good, update_one_good, set_expires_harmless, (Hset w). rewrite AddDate_add. unfold Day. lia.
Qed.

Lemma createSubscription_keeps F input : Stable sound moves F -> keeps F (createSubscription input) (fun _ => always).
Proof.
  intros HF. unfold createSubscription. keep_step. apply (bind_keeps _ (fun _ => always)); [apply _| |intros; keep].
  unfold Create. apply does_statement; [apply _..|]. intros w w' id Hw [_ Ht] [= <- <-].
  assert (Hrow : sound_row (now w) (inserted_row (new_subscription input a) w)) by by apply inserted_row_sound.
  destruct Hw as [Hc Hs]. split.
  - split; [done|]. cbn. intros i q. destruct (decide (i = next_id (rows w))) as [->|Hne].
    + rewrite lookup_insert_eq. by intros [= <-].
    + rewrite lookup_insert_ne by done. apply Hs.
  - split; [|done]. split; [done|]. cbn. intros i q Hq. exists q. split; [|apply same_wallet_refl].
    rewrite lookup_insert_ne; [done|]. intros <-. by rewrite next_id_fresh in Hq.
Qed.

Lemma applyAssignedLimit_keeps F p input : Stable sound moves F -> keeps F (applyAssignedLimit caches p input) (fun _ => always).
Proof.
  intros HF. unfold applyAssignedLimit. destruct (in_limit input); [|keep].
  keep_step; [|apply invalidate_keeps, _]. apply effect_keeps; [done|]. auto with subs.
Qed.

Lemma update_term_keeps F id days notes semantics : Stable sound moves F ->
  keeps F (updateExistingSubscriptionTerm id days notes semantics) (fun _ => always).
Proof. intros HF. apply effect_keeps; [done|]. intros w _ _. apply update_term_good. Qed.

Lemma find_target_keeps F userID planID : Stable sound moves F ->
  keeps F (findAssignmentTarget userID planID) (fun _ => always).
Proof. intros HF. unfold findAssignmentTarget, list_user. keep. Qed.

Lemma AssignOrExtend_keeps F input : Stable sound moves F ->
  keeps F (AssignOrExtendSubscription caches input) (fun _ => always).
Proof.
  intros HF. unfold AssignOrExtendSubscription. keep_step; [by apply find_target_keeps|]. keep.
  - apply update_term_keeps, _.
  - apply applyAssignedLimit_keeps, _.
  - apply createSubscription_keeps, _.
Qed.

Lemma assign_keeps F input : Stable sound moves F ->
  keeps F (assignSubscriptionWithReuse caches input) (fun _ => always).
Proof.
  intros HF. unfold assignSubscriptionWithReuse. keep_step; [by apply find_target_keeps|].
  keep; first [apply update_term_keeps, _|apply applyAssignedLimit_keeps, _|apply createSubscription_keeps, _].
Qed.

Lemma bulk_keeps F users input : Stable sound moves F -> keeps F (BulkAssignSubscription caches users input) (fun _ => always).
Proof.
  unfold BulkAssignSubscription. generalize (mkBulk 0 0 0 0 [] [] ∅). revert F.
  induction users as [|u users IH]; intros F b HF; cbn [bulk_assign]; [keep|].
  keep_step; [|by apply IH; apply _]. apply try_keeps; [done|]. by apply assign_keeps.
Qed.

Lemma Revoke_keeps F id : Stable sound moves F -> keeps F (RevokeSubscription caches id) (fun _ => always).
Proof.
  intros HF. unfold RevokeSubscription. keep; [|apply invalidate_keeps, _]. apply effect_keeps; [apply _|]. auto with subs.
Qed.

Lemma restore_good w id status : good w (update_one id (fun r => set_deleted None (set_status status r)) w).
Proof. apply update_one_good. intros r Hr. split; [by destruct Hr|by apply same_columns]. Qed.

Lemma Restore_keeps F id : Stable sound moves F -> keeps F (RestoreSubscription caches id) (fun _ => always).
Proof.
  intros HF. unfold RestoreSubscription, GetByIDIncludeDeleted, Restore. keep; [|apply invalidate_keeps, _..].
  all: apply effect_keeps; [apply _|]; intros; apply restore_good.
Qed.

Lemma Extend_keeps F id days : Stable sound moves F -> keeps F (ExtendSubscription id days) (fun _ => always).
Proof.
  intros HF. unfold ExtendSubscription. keep. apply effect_keeps; [apply _|]. intros. apply extend_tx_good.
Qed.

Lemma Validate_keeps F p : Stable sound moves F -> keeps F (ValidateSubscription p) (fun _ => always).
Proof.
  intros HF. unfold ValidateSubscription. keep. apply effect_keeps; [apply _|]. auto with subs.
Qed.

Lemma Increment_keeps F id cost : Stable sound moves F -> charging = true -> 0 <= cost -> keeps F (IncrementUsage id cost) (fun _ => always).
Proof.
  intros HF Hcharge Hc. unfold IncrementUsage, ResetUsageWindowIfExpired. keep; apply effect_keeps; try apply _; [|by auto with subs..].
  intros w Hw [_ Ht]. apply reset_window_good. unfold passed in Ht.
  etrans; [apply window_start_before|]; lia.
Qed.

Lemma runOnce_keeps F : Stable sound moves F -> keeps F runOnce (fun _ => always).
Proof.
  intros HF. unfold runOnce, BatchUpdateExpiredStatus. keep; [apply effect_keeps; [apply _|auto with subs]|].
  unfold BatchResetExpiredUsageWindows, batch_reset_step. keep.
  all: apply effect_keeps; [apply _|]; intros w Hw Ht; apply batch_reset_good; [|done]; unfold passed in Ht;
    (etrans; [apply window_start_before|]); decompose [and] Ht; lia.
Qed.

Lemma Claim_keeps F userID planID : Stable sound moves F -> keeps F (ClaimSubscription caches userID planID) (fun _ => always).
Proof.
  intros HF. unfold ClaimSubscription, findClaimedSubscription, list_user. keep. apply AssignOrExtend_keeps, _.
Qed.

Lemma reduce_keeps F userID days notes : Stable sound moves F -> 0 <= days ->
  keeps F (effect (reduce_tx userID days notes)) (fun _ => always).
Proof. intros HF Hd. apply effect_keeps; [done|]. intros. by apply reduce_tx_good. Qed.

(** Allocations are not negative. *)
Lemma record_all_keeps F l written : charging = true -> Stable sound moves F -> Forall (fun a => 0 <= AllocAmount a) l ->
  keeps F (record_all l written) (fun _ => always).
Proof.
  intros Hcharge HF Hl. revert F HF written. induction Hl as [|a l Ha _ IH]; intros F HF written; cbn [record_all]; [keep|].
  keep; [|apply IH, _]. apply Increment_keeps; [apply _|done..].
Qed.

Lemma taken_amounts_nonneg at_ l allocs : taken_from at_ l allocs -> Forall (fun a => 0 <= AllocAmount a) allocs.
Proof.
  intros (ws & _ & Hws). induction Hws as [|s a ws' l' (_ & Ha & _) _ IH]; constructor; [|done].
  unfold subscriptionAllocationEpsilon in Ha. lia.
Qed.

Lemma allocation_taken wall subs cost allocs :
  0 < cost -> AllocateSubscriptionUsage wall subs cost = (allocs, true) ->
  taken_from wall (active_rows wall subs) allocs /\ cost - subscriptionAllocationEpsilon <= paid allocs <= cost.
Proof.
  unfold AllocateSubscriptionUsage. intros Hc E. pose proof (allocation_spec wall subs cost wall Hc) as Hs.
  rewrite E in Hs. destruct Hs as [[Hpaid Hw] _]; [done|]. split; [by eapply waterfall_taken|done].
Qed.

Lemma Allocate_keeps F userID cost : charging = true -> Stable sound moves F -> keeps F (AllocateAndRecordUsage userID cost) (fun _ => always).
Proof.
  intros Hcharge HF. unfold AllocateAndRecordUsage. destruct (Z.leb_spec cost 0); [keep|].
  keep_step; [by apply try_keeps, select_keeps|]. destruct a as [[|p l]|e]; [keep| |keep].
  keep_step. destruct (AllocateSubscriptionUsage _ _ _) as [allocs [|]] eqn:E; [|keep].
  apply record_all_keeps; [done|apply _|]. apply allocation_taken in E as [E _]; [|done]. by eapply taken_amounts_nonneg.
Qed.

(** What a request, an administrator, a user or a cycle of the service runs; the reset
of a quota by an administrator is not among them. *)
Inductive service_program : Prog SubDB unit -> Prop :=
  | run_assign input : service_program (discard (AssignSubscription caches input))
  | run_assign_or_extend input : service_program (discard (AssignOrExtendSubscription caches input))
  | run_bulk users input : service_program (discard (BulkAssignSubscription caches users input))
  | run_claim userID planID : service_program (discard (ClaimSubscription caches userID planID))
  | run_revoke id : service_program (discard (RevokeSubscription caches id))
  | run_restore id : service_program (discard (RestoreSubscription caches id))
  | run_extend id days : service_program (discard (ExtendSubscription id days))
  | run_validate p : service_program (discard (ValidateSubscription p))
  | run_record id cost : charging = true -> 0 <= cost -> service_program (discard (RecordUsage id cost))
  | run_allocate userID cost : charging = true -> service_program (discard (AllocateAndRecordUsage userID cost))
  | run_reduce userID days notes : 0 <= days -> service_program (discard (effect (reduce_tx userID days notes)))
  | run_cycle : service_program (discard runOnce).

Lemma assign_one_keeps F input : Stable sound moves F -> keeps F (AssignSubscription caches input) (fun _ => always).
Proof. intros HF. unfold AssignSubscription. keep. by apply assign_keeps. Qed.

Lemma service_programs_safe w p : sound w -> service_program p -> always_safe (guarded sound moves) w p.
Proof.
  intros Hw Hp. destruct Hp; eapply (does_discard sound moves _ (fun _ => always)); try done.
  - apply assign_one_keeps, _.
  - apply AssignOrExtend_keeps, _.
  - apply bulk_keeps, _.
  - apply Claim_keeps, _.
  - apply Revoke_keeps, _.
  - apply Restore_keeps, _.
  - apply Extend_keeps, _.
  - apply Validate_keeps, _.
  - apply Increment_keeps; [apply _|done..].
  - by apply Allocate_keeps; [|apply _].
  - by apply reduce_keeps; [apply _|].
  - apply runOnce_keeps, _.
Qed.

(** The clock advances, and plans change. *)
Inductive outer_change : (SubDB -> SubDB) -> Prop :=
  | tick d : 0 <= d -> outer_change (fun w => with_now (now w + d) w)
  | replan v : outer_change (fun w => mkSubDB (rows w) v (now w)).

Lemma outer_changes_move g w : outer_change g -> sound w -> sound (g w) /\ moves w (g w).
Proof.
  intros Hg [Hc Hs]. destruct Hg as [d Hd|v]; (split; [split|split]); cbn; try lia.
  - intros id r Hr. eapply sound_row_later; [|by apply (Hs id)]. lia.
  - intros id r Hr. exists r. split; [done|apply same_wallet_refl].
  - exact Hs.
  - intros id r Hr. exists r. split; [done|apply same_wallet_refl].
Qed.

(** C19. No charge is lost to administration other than a reset. Assignments, renewals,
claims, extensions, revocations, restorations, redeem codes of not less than zero days,
expiry cycles and charges of not less than zero may interleave statement by statement,
any statement may fail, and the answer of any may be lost: the rows stay well formed
(limits and usage not negative, expiry not after 2099, no window without a period, none
in the future), every wallet keeps its user, plan and period, and no wallet of one
amount has less usage than before, and if nothing is charged ([charging] is false) its
usage is exactly what it was. The reset of a quota by an administrator, single or in
bulk, sets the usage to zero and is not among these programs; outside, only the clock
advances and plans change. *)
Theorem no_charge_is_lost es w :
  sound w -> Forall service_program (spawned es) -> Forall outer_change (outside es) ->
  let w' := (schedule es (w, [])).1 in
  sound w' /\ now w <= now w' /\
  forall id r, rows w !! id = Some r ->
    exists r', rows w' !! id = Some r' /\ row_user r' = row_user r /\ row_plan r' = row_plan r /\
      row_period r' = row_period r /\
      (row_period r = SubscriptionResetPeriodNone ->
       if charging then row_usage r <= row_usage r' else row_usage r' = row_usage r).
Proof.
  intros Hw Hsp Hout w'.
  destruct (triples_sound sound moves es w Hw) as [Hw' [Hc Hk]].
  - eapply Forall_impl; [exact Hsp|]. intros p. by apply service_programs_safe.
  - eapply Forall_impl; [exact Hout|]. intros g Hg u Hu. by apply outer_changes_move.
  - split; [done|]. split; [done|]. intros id r Hr. destruct (Hk id r Hr) as (r' & Hr' & []). by exists r'.
Qed.

End Programs_keep.
End Moves.
