(* ===== verification/SubscriptionRuns.v ===== *)
(** * Subscriptions: what the operations do, one at a time

Assignment, renewal, extension, restoration, claims and charges, each run alone. *)
From S2P Require Import Prelude GoText GoTime Redis PaymentStore Payments PaymentCreate.
From S2P Require Import SubscriptionWindow Wallets Programs Interleave Subscriptions SubscriptionFacts.
From Stdlib Require Import Bool.

Local Open Scope string_scope.
Local Open Scope Z_scope.

Implicit Types (w : SubDB) (r : SubRow).

(** ** Runs *)

Lemma run_abind {A B} (m : Act SubDB A) (k : A -> Act SubDB B) w :
  run (abind m k) w = match run m w with (w1, Ok a) => run (k a) w1 | (w1, Err e) => (w1, Err e) end.
Proof. unfold abind. rewrite run_bind. by destruct (run m w) as [w1 [a|e]]. Qed.

Lemma run_atry {A} (m : Act SubDB A) w : run (atry m) w = ((run m w).1, Ok (run m w).2).
Proof. unfold atry. by rewrite run_bind. Qed.

Lemma run_effect f w : run (effect f) w = match f w with Ok w' => (w', Ok tt) | Err e => (w, Err e) end.
Proof. unfold effect. rewrite run_statement. by destruct (f w). Qed.

Lemma run_time w : run time_now w = (w, Ok (now w)).
Proof. reflexivity. Qed.

Lemma run_ret {A} (a : A) w : run (aret a : Act SubDB A) w = (w, Ok a).
Proof. reflexivity. Qed.

Lemma run_fail {A} e w : run (afail e : Act SubDB A) w = (w, Err e).
Proof. reflexivity. Qed.

Lemma run_GetByID id w :
  run (GetByID id) w = (w, match sub_row id w with Ok r => Ok (id, r) | Err e => Err e end).
Proof. unfold GetByID. by rewrite run_select. Qed.

(** [run_simpl]: run the steps that are known. *)
Ltac run_simpl :=
  repeat first [rewrite run_abind | rewrite run_atry | rewrite run_effect | rewrite run_time
               | rewrite run_ret | rewrite run_fail | rewrite run_GetByID | rewrite run_select]; cbn [fst snd].

(** A row that is there and not deleted. *)
Definition live w (id : Z) r : Prop := rows w !! id = Some r /\ row_deleted r = None.

Lemma live_row w id r : live w id r -> sub_row id w = Ok r.
Proof. unfold sub_row, row_deleted_not. intros [-> E]. by rewrite E. Qed.

Lemma sub_row_live w id r : sub_row id w = Ok r -> live w id r.
Proof. apply sub_row_rows. Qed.

Lemma live_insert w id r : row_deleted r = None -> live (with_rows (<[id := r]> (rows w)) w) id r.
Proof. intros Hd. split; [apply lookup_insert_eq|done]. Qed.

Lemma live_other w id i r q : i <> id -> live (with_rows (<[id := r]> (rows w)) w) i q <-> live w i q.
Proof. intros Hne. unfold live. cbn. by rewrite lookup_insert_ne. Qed.

Lemma with_rows_rows w m m' : with_rows m (with_rows m' w) = with_rows m w.
Proof. reflexivity. Qed.

Lemma write_same w id r : rows w !! id = Some r -> with_rows (<[id := r]> (rows w)) w = w.
Proof. intros Hr. unfold with_rows. rewrite insert_id by done. by destruct w. Qed.

Lemma update_one_live w id r set : rows w !! id = Some r -> update_one id set w = Ok (with_rows (<[id := set r]> (rows w)) w).
Proof. unfold update_one. by intros ->. Qed.

(** ** Charges *)

(** The usage of a row in its window at an instant. *)
Definition usage_at (t : Time) r : Amount := EffectiveWindowUsageUSD 0 (wallet_of (0, r)) t.

Lemma usage_at_wallet t id r : EffectiveWindowUsageUSD 0 (wallet_of (id, r)) t = usage_at t r.
Proof. reflexivity. Qed.

Lemma usage_at_eq t r :
  usage_at t r =
    if SubscriptionWindowExpired (NormalizeSubscriptionResetPeriod (row_period r)) (row_window r) t then 0 else row_usage r.
Proof. reflexivity. Qed.

(** Windows begin after the zero time. *)
Definition after_year_one (t : Time) : Prop := forall p, 0 < SubscriptionWindowStart (period_name p) t.

(** A row in the window of an instant, with another usage. *)
Definition in_window (t : Time) (usage : Amount) r : SubRow :=
  set_usage (if SubscriptionWindowExpired (row_period r) (row_window r) t
             then SubscriptionWindowStart (row_period r) t else row_window r) usage r.

Lemma period_cases r t : sound_row t r ->
  row_period r = SubscriptionResetPeriodNone \/ exists p, row_period r = period_name p.
Proof.
  intros Hs. destruct (normalize_period (row_period r)) as [[Hn _]|[p Hp]]; [left|by right; exists p].
  rewrite <- Hn. symmetry. apply (period_known _ _ Hs).
Qed.

Lemma usage_in_window t v r : sound_row t r -> after_year_one t -> usage_at t (in_window t v r) = v.
Proof.
  intros Hs Ht. unfold usage_at, EffectiveWindowUsageUSD, subscriptionWindowEffectiveUsage, in_window. cbn.
  rewrite (period_known _ _ Hs). destruct (period_cases r t Hs) as [->|[p ->]]; [done|].
  destruct (SubscriptionWindowExpired (period_name p) (row_window r) t) eqn:E; rewrite ?E; [|done].
  specialize (Ht p). rewrite expired_name, Z.ltb_irrefl.
  by destruct (Z.eqb_spec (SubscriptionWindowStart (period_name p) t) 0) as [Hz|_]; [lia|].
Qed.

(** The reset and the charge, alone: the usage in the window grows by the cost. *)
Lemma run_increment w id r cost :
  sound w -> after_year_one (now w) -> live w id r ->
  run (IncrementUsage id cost) w =
    (with_rows (<[id := in_window (now w) (usage_at (now w) r + cost) r]> (rows w)) w, Ok tt).
Proof.
  intros Hw Ht Hr. pose proof (rows_sound _ Hw id r (proj1 Hr)) as Hs.
  unfold IncrementUsage, ResetUsageWindowIfExpired, in_window. rewrite usage_at_eq. run_simpl.
  rewrite (live_row w id r Hr). cbv beta iota zeta. rewrite (period_known _ _ Hs). destruct (period_cases r _ Hs) as [Hp|[p Hp]]; rewrite Hp.
  - change (IsRecurringSubscriptionResetPeriod _) with false. cbn [negb]. run_simpl. unfold add_usage.
    by rewrite (live_row w id r Hr).
  - rewrite recurring_name. cbn [negb]. run_simpl. specialize (Ht p).
    unfold IsZero. rewrite (proj2 (Z.eqb_neq _ _)) by lia. run_simpl. destruct Hr as [Hr Hlive].
    unfold reset_window, row_deleted_not, window_before. rewrite Hr, Hlive, Hp, expired_name. unfold IsZero.
    replace (String.eqb (period_name p) SubscriptionResetPeriodNone) with false by by destruct p.
    cbn [andb negb]. destruct (_ || _).
    + unfold add_usage, sub_row, row_deleted_not. cbn. rewrite lookup_insert_eq. cbn. rewrite Hlive.
      by rewrite with_rows_rows, insert_insert_eq.
    + unfold add_usage, sub_row, row_deleted_not. by rewrite Hr, Hlive.
Qed.

(** What a list of allocations takes from a wallet. *)
Definition charged (id : Z) (l : list SubscriptionAllocation) : Amount :=
  total (fun a => if SubscriptionID a =? id then AllocAmount a else 0) l.

Lemma charged_cons id a l : charged id (a :: l) = (if SubscriptionID a =? id then AllocAmount a else 0) + charged id l.
Proof. done. Qed.

(** All but the usage and its window. *)
Definition same_but_usage r r' : Prop := exists window usage, r' = set_usage window usage r.

Lemma same_but_usage_refl r : same_but_usage r r.
Proof. exists (row_window r), (row_usage r). by destruct r. Qed.

Lemma same_but_usage_trans r1 r2 r3 : same_but_usage r1 r2 -> same_but_usage r2 r3 -> same_but_usage r1 r3.
Proof. intros (a & b & ->) (c & d & ->). by exists c, d. Qed.

Lemma in_window_same t v r : same_but_usage r (in_window t v r).
Proof. by eexists _, _. Qed.

(** A charge as a move of the table: the invariant is kept. *)
Lemma in_window_sound w id r v :
  sound w -> rows w !! id = Some r -> 0 <= v -> sound (with_rows (<[id := in_window (now w) v r]> (rows w)) w).
Proof.
  intros Hw Hr Hv. pose proof (rows_sound _ Hw id r Hr) as Hs. destruct Hw as [Hc Hrs].
  split; [done|]. cbn. intros i q. destruct (decide (i = id)) as [->|Hne].
  - rewrite lookup_insert_eq. intros [= <-]. destruct (period_cases r _ Hs) as [Hp|[p Hp]].
    + pose proof (one_off_no_window _ _ Hs Hp) as Hz. destruct Hs. split; cbn; rewrite ?Hp; done.
    + destruct Hs. split; cbn; rewrite ?Hp; try done; [by rewrite normalize_name|by destruct p|].
      destruct (SubscriptionWindowExpired _ _ _); [apply window_start_le|done].
  - rewrite lookup_insert_ne by done. apply Hrs.
Qed.

Lemma usage_at_nonneg t s r : sound_row s r -> 0 <= usage_at t r.
Proof. intros []. rewrite usage_at_eq. by destruct (SubscriptionWindowExpired _ _ _). Qed.

(** The allocations of a list, written one after the other. *)
Lemma run_record_all l w written :
  sound w -> after_year_one (now w) -> Forall (fun a => 0 <= AllocAmount a /\ exists r, live w (SubscriptionID a) r) l ->
  exists w', run (record_all l written) w = (w', Ok ((written ++ l)%list, None)) /\ now w' = now w /\
    sub_plans w' = sub_plans w /\
    forall id, match rows w !! id with
               | Some r => exists r', rows w' !! id = Some r' /\ same_but_usage r r' /\
                             usage_at (now w) r' = usage_at (now w) r + charged id l
               | None => rows w' !! id = None
               end.
Proof.
  revert w written. induction l as [|a l IH]; intros w written Hw Ht Hl; cbn [record_all].
  - exists w. rewrite run_ret, app_nil_r. split_and!; [done..|]. intros id. destruct (rows w !! id) as [r|]; [|done].
    exists r. split; [done|]. split; [apply same_but_usage_refl|]. cbn. lia.
  - apply Forall_cons in Hl as [[Ha [r Hr]] Hl]. run_simpl.
    rewrite (run_increment w _ r) by done. cbn [fst snd].
    pose proof (rows_sound _ Hw _ r (proj1 Hr)) as Hs. pose proof (usage_at_nonneg (now w) _ r Hs) as Hu.
    set (r1 := in_window _ _ r). set (w1 := with_rows _ w).
    assert (Hw1 : sound w1) by (apply in_window_sound; [done|apply Hr|lia]).
    destruct (IH w1 (written ++ [a])%list Hw1 Ht) as (w' & Hrun & Hn & Hp & Hrows).
    { eapply Forall_impl; [exact Hl|]. intros b [Hb [q Hq]]. split; [done|].
      destruct (decide (SubscriptionID b = SubscriptionID a)) as [E|Hne].
      - rewrite E. exists r1. apply live_insert, (proj2 Hr).
      - exists q. by apply live_other. }
    exists w'. rewrite Hrun, <- app_assoc. split_and!; [done..|]. intros id. specialize (Hrows id). rewrite charged_cons.
    destruct (Z.eqb_spec (SubscriptionID a) id) as [E|Hne].
    + unfold w1 in Hrows. cbn in Hrows. rewrite E, lookup_insert_eq in Hrows. rewrite <- E, (proj1 Hr), E.
      destruct Hrows as (r' & Hr' & Hsame & Huse). exists r'. split; [done|].
      split; [eapply same_but_usage_trans; [apply in_window_same|exact Hsame]|].
      unfold r1 in Huse. rewrite (usage_in_window (now w) _ r) in Huse by done. lia.
    + unfold w1 in Hrows. cbn in Hrows. rewrite lookup_insert_ne in Hrows by done. exact Hrows.
Qed.

(** ** The wallets of a user *)

Lemma active_wallets userID w x :
  x ∈ active_rows (now w) (map (fun p => Some (wallet_of p)) (ListActiveByUserID userID w)) ->
  exists r, live w (ID x) r /\ row_user r = userID /\ x = wallet_of (ID x, r) /\ IsActive x (now w) = true.
Proof.
  intros [Hin Ha]%elem_of_active_rows. apply list_elem_of_In, in_map_iff in Hin as ([id r] & [= <-] & Hin).
  apply list_elem_of_In, elem_of_active in Hin as (Hr & Hlive & Hu & _). exists r. by split_and!.
Qed.

Lemma active_ids userID w :
  NoDup (map ID (active_rows (now w) (map (fun p => Some (wallet_of p)) (ListActiveByUserID userID w)))).
Proof.
  assert (Hall : NoDup (map fst (ListActiveByUserID userID w))).
  { unfold ListActiveByUserID. rewrite (Permutation_map fst (stable_sort_perm _ _)).
    unfold live_rows. pose proof (NoDup_fst_map_to_list (rows w)) as Hn. revert Hn.
    generalize (map_to_list (rows w)). induction l as [|x l IH]; cbn; [done|]. intros [Hx Hl]%NoDup_cons.
    destruct (_ && _); cbn; [|by apply IH]. apply NoDup_cons. split; [|by apply IH].
    contradict Hx. apply list_elem_of_In, in_map_iff in Hx as (y & <- & Hy). apply filter_In in Hy as [Hy _].
    apply list_elem_of_In, in_map_iff. by exists y. }
  unfold active_rows. induction (ListActiveByUserID userID w) as [|x l IH]; cbn; [constructor|].
  apply NoDup_cons in Hall as [Hx Hl]. specialize (IH Hl). destruct (IsActive (wallet_of x) (now w)); [|done]. cbn.
  apply NoDup_cons. split; [|done]. contradict Hx.
  apply list_elem_of_In, in_map_iff in Hx as (y & Hy & Hin). apply list_elem_of_In, list_elem_of_omap in Hin as ([s|] & Hin & E); [|done].
  apply list_elem_of_In, in_map_iff in Hin as (z & [= <-] & Hz).
  apply list_elem_of_In, in_map_iff. exists z. split; [|done]. destruct (IsActive (wallet_of z) (now w)); [|done].
  injection E as <-. exact Hy.
Qed.

(** A wallet is charged once at most, and no more than it has. *)
Lemma charged_taken t l allocs id :
  taken_from t l allocs -> NoDup (map ID l) -> charged id allocs <> 0 ->
  exists s, s ∈ l /\ ID s = id /\ forall a, available t s = Some a -> charged id allocs <= a.
Proof.
  intros (ws & Hsub & Hws) Hnd Hne.
  assert (Hwnd : NoDup (map ID ws)).
  { apply submseteq_Permutation in Hsub as [k Hk]. rewrite (Permutation_map ID Hk), map_app in Hnd.
    by apply NoDup_app in Hnd as [? _]. }
  enough (exists s, s ∈ ws /\ ID s = id /\ forall a, available t s = Some a -> charged id allocs <= a) as (s & Hs & ?).
  { exists s. split; [|done]. by eapply elem_of_submseteq. }
  clear Hsub Hnd. induction Hws as [|s a ws allocs (Hid & Ha & Hmax) Hws IH]; [done|].
  rewrite charged_cons in *. cbn in Hwnd. apply NoDup_cons in Hwnd as [Hnot Hwnd].
  destruct (Z.eqb_spec (SubscriptionID a) id) as [E|Hdiff].
  - assert (charged id allocs = 0) as Hzero.
    { destruct (decide (charged id allocs = 0)) as [|Hc]; [done|]. destruct (IH Hc Hwnd) as (u & Hu & Hid' & _).
      destruct Hnot. apply list_elem_of_In, in_map_iff. exists u. split; [congruence|]. by apply list_elem_of_In. }
    rewrite Hzero, Z.add_0_r. exists s. split; [left|]. split; [congruence|done].
  - destruct (IH Hne Hwnd) as (u & Hu & ? & ?). exists u. split; [by right|]. done.
Qed.

Lemma taken_ids t l allocs : taken_from t l allocs ->
  Forall (fun a => 0 <= AllocAmount a /\ exists s, s ∈ l /\ ID s = SubscriptionID a) allocs.
Proof.
  intros (ws & Hsub & Hws). assert (Hin : forall s, s ∈ ws -> s ∈ l) by (intros s Hs; by eapply elem_of_submseteq).
  clear Hsub. induction Hws as [|s a ws allocs (Hid & Ha & _) _ IH]; constructor.
  - unfold subscriptionAllocationEpsilon in Ha. split; [lia|]. exists s. split; [apply Hin; left|done].
  - apply IH. intros u Hu. apply Hin. by right.
Qed.

Lemma run_allocate userID cost w :
  0 < cost ->
  run (AllocateAndRecordUsage userID cost) w =
    let subs := map (fun p => Some (wallet_of p)) (ListActiveByUserID userID w) in
    match subs with
    | [] => (w, Ok ([], Some ErrSubscriptionNotFound))
    | _ =>
        match AllocateSubscriptionUsage (now w) subs cost with
        | (allocs, true) => run (record_all allocs []) w
        | (_, false) => (w, Ok ([], Some ErrSubscriptionQuotaExhausted))
        end
    end.
Proof.
  intros Hc. unfold AllocateAndRecordUsage. rewrite (proj2 (Z.leb_gt _ _)) by done. run_simpl.
  destruct (ListActiveByUserID userID w) as [|p l]; [done|]. run_simpl. cbv zeta. cbn [map].
  by destruct (AllocateSubscriptionUsage _ _ _) as [allocs [|]].
Qed.

(** C24. Charges reach the wallets.  A cost that is charged to a user while nothing else
runs either changes nothing and reports that the user has no active wallet, or that
they cannot cover it; or it is spread, up to the tolerance of 10^-9 USD, over active
wallets of that user alone: each wallet's usage in the window of the present instant
grows by exactly what the answer says was taken from it, a limited wallet that was
charged stays within its limit, and nothing else in the table changes. *)
Theorem charges_reach_the_wallets userID cost w :
  sound w -> after_year_one (now w) -> 0 < cost ->
  let subs := map (fun p => Some (wallet_of p)) (ListActiveByUserID userID w) in
  match run (AllocateAndRecordUsage userID cost) w with
  | (w', Ok (allocs, None)) =>
      cost - subscriptionAllocationEpsilon <= paid allocs <= cost /\
      forall id, match rows w !! id with
                 | None => rows w' !! id = None
                 | Some r => exists r', rows w' !! id = Some r' /\ same_but_usage r r' /\
                     usage_at (now w) r' = usage_at (now w) r + charged id allocs /\
                     (charged id allocs <> 0 ->
                        row_user r = userID /\ row_deleted r = None /\ row_status r = SubscriptionStatusActive /\
                        forall l, EffectiveTotalLimit (wallet_of (id, r)) = Some l -> usage_at (now w) r' <= l)
                 end
  | (w', Ok (allocs, Some e)) =>
      w' = w /\ allocs = [] /\
      (e = ErrSubscriptionNotFound /\ subs = [] \/
       e = ErrSubscriptionQuotaExhausted /\ unlimited_wallets (now w) subs = [] /\
         paid (drain (now w) (limited_wallets (now w) subs)) + subscriptionAllocationEpsilon < cost)
  | (_, Err _) => False
  end.
Proof.
  intros Hw Ht Hc subs. rewrite run_allocate by done. cbv zeta. fold subs.
  assert (Hor : subs = [] \/ subs <> []) by (destruct subs; auto). destruct Hor as [Hnil|Hne].
  { rewrite Hnil. split; [done|]. split; [done|]. by left. }
  destruct (AllocateSubscriptionUsage (now w) subs cost) as [allocs ok] eqn:E.
  assert (Hmatch : forall X (a b : X), match subs with [] => a | _ => b end = b) by (intros; by destruct subs).
  rewrite Hmatch. clear Hmatch Hne. destruct ok.
  - pose proof (allocation_taken _ _ _ _ Hc E) as [Htaken Hpaid].
    destruct (run_record_all allocs w [] Hw Ht) as (w' & -> & Hn & _ & Hrows).
    { eapply Forall_impl; [by eapply taken_ids|]. intros a [Ha (s & Hs & Hid)]. split; [done|].
      apply active_wallets in Hs as (r & Hr & _). exists r. by rewrite <- Hid. }
    cbn [app]. split; [done|]. intros id. specialize (Hrows id). destruct (rows w !! id) as [r|] eqn:Hr; [|done].
    destruct Hrows as (r' & Hr' & Hsame & Huse). exists r'. split_and!; [done..|]. intros Hch.
    destruct (charged_taken _ _ _ id Htaken (active_ids userID w) Hch) as (s & Hs & Hid & Hmax).
    apply active_wallets in Hs as (q & [Hq Hlive] & Huser & Heq & Ha). rewrite Hid in Hq, Heq. simplify_eq.
    apply andb_true_iff in Ha as [Ha%String.eqb_eq _]. split_and!; [done..|]. intros lim Hlim. specialize (Hmax (lim - usage_at (now w) r)).
    unfold available in Hmax. rewrite Hlim in Hmax. specialize (Hmax eq_refl). lia.
  - split; [done|]. split; [done|]. right. split; [done|].
    by apply (allocation_fails_iff (now w) subs cost (now w) Hc), (f_equal snd E).
Qed.

(** * Terms *)

(** ** The wallet that an assignment finds *)

Definition eligible (planID : option Z) (t : Time) (p : Z * SubRow) : bool :=
  match planID with
  | Some plan => bool_decide (row_plan p.2 = Some plan)
  | None => String.eqb (row_status p.2) SubscriptionStatusActive && After (row_expires p.2) t
  end.

Lemma better_skips planID t b p : eligible planID t p = false -> better_target planID t b p = b.
Proof.
  unfold eligible, better_target. destruct planID as [plan|]; [by intros ->|].
  intros H%andb_false_iff. by rewrite <- negb_andb, (proj2 (andb_false_iff _ _)).
Qed.

Lemma better_takes planID t p : eligible planID t p = true -> better_target planID t None p = Some p.
Proof.
  unfold eligible, better_target. destruct planID as [plan|]; [by intros ->|].
  intros [-> ->]%andb_true_iff. done.
Qed.

Lemma better_same planID t p : better_target planID t (Some p) p = Some p.
Proof.
  unfold better_target, After. destruct planID as [plan|]; destruct (_ : bool); try done; by rewrite Z.ltb_irrefl.
Qed.

Lemma better_keeps planID t b p : is_Some b -> is_Some (better_target planID t b p).
Proof.
  intros [c ->]. unfold better_target. destruct planID; destruct (_ : bool); try by eexists.
  all: destruct (After _ _); by eexists.
Qed.

Lemma better_cases planID t b q : better_target planID t b q = Some q \/ better_target planID t b q = b.
Proof.
  unfold better_target. destruct planID; case_match; auto; destruct b; auto; case_match; auto.
Qed.

Lemma no_target planID t l : assignment_target planID t l = None <-> Forall (fun p => eligible planID t p = false) l.
Proof.
  unfold assignment_target. induction l as [|p l IH] using rev_ind; [done|].
  rewrite foldl_snoc, Forall_app, Forall_singleton. destruct (eligible planID t p) eqn:E.
  - split; [|by intros [_ ?]]. intros Hn. exfalso. destruct (foldl _ None l) as [c|].
    + destruct (better_keeps planID t (Some c) p) as [d Hd]; [by eexists|congruence].
    + rewrite better_takes in Hn; done.
  - rewrite better_skips by done. rewrite IH. tauto.
Qed.

Lemma only_target planID t l p :
  p ∈ l -> eligible planID t p = true -> (forall q, q ∈ l -> eligible planID t q = true -> q = p) ->
  assignment_target planID t l = Some p.
Proof.
  unfold assignment_target. intros Hin He Hone.
  assert (Hinv : foldl (better_target planID t) None l = None /\ Forall (fun q => eligible planID t q = false) l \/
                 foldl (better_target planID t) None l = Some p).
  { clear Hin. induction l as [|q l IH] using rev_ind; [by left|]. rewrite foldl_snoc.
    assert (IH' := IH (fun x Hx => Hone x (proj2 (elem_of_app _ _ _) (or_introl Hx)))). clear IH.
    destruct (eligible planID t q) eqn:E.
    - rewrite (Hone q) by (done || (apply elem_of_app; right; apply list_elem_of_singleton; done)).
      right. destruct IH' as [[-> _]| ->]; [by apply better_takes|apply better_same].
    - rewrite better_skips by done. rewrite Forall_app, Forall_singleton. tauto. }
  destruct Hinv as [[_ Hall]|]; [|done]. rewrite Forall_forall in Hall. by rewrite (Hall p Hin) in He.
Qed.

Lemma elem_of_user userID w x :
  x ∈ ListByUserID userID w <-> live w x.1 x.2 /\ row_user x.2 = userID.
Proof.
  unfold ListByUserID. rewrite stable_sort_perm, elem_of_live, Z.eqb_eq. unfold live. tauto.
Qed.

Lemma target_in planID t l p : assignment_target planID t l = Some p -> p ∈ l.
Proof.
  unfold assignment_target. revert p. induction l as [|q l IH] using rev_ind; [done|]. intros p. rewrite foldl_snoc.
  intros Hb. apply elem_of_app. destruct (better_cases planID t (foldl (better_target planID t) None l) q) as [E|E]; rewrite E in Hb.
  - injection Hb as ->. right. by apply list_elem_of_singleton.
  - left. by apply IH.
Qed.

Lemma target_eligible planID t l p : assignment_target planID t l = Some p -> eligible planID t p = true.
Proof.
  unfold assignment_target. revert p. induction l as [|q l IH] using rev_ind; [done|]. intros p. rewrite foldl_snoc.
  destruct (eligible planID t q) eqn:E; [|rewrite better_skips by done; apply IH].
  destruct (better_cases planID t (foldl (better_target planID t) None l) q) as [-> | ->]; [by intros [= <-]|apply IH].
Qed.

Lemma run_find_target userID planID w :
  run (findAssignmentTarget userID planID) w = (w, Ok (assignment_target planID (now w) (ListByUserID userID w))).
Proof. unfold findAssignmentTarget, list_user. by run_simpl. Qed.

(** ** The same assignment again *)

Lemma timestamptz_min a b : timestamptz (Z.min a b) = Z.min (timestamptz a) (timestamptz b).
Proof.
  destruct (Z.le_ge_cases a b) as [Hl|Hl]; pose proof (timestamptz_mono _ _ Hl).
  - by rewrite !Z.min_l.
  - by rewrite !Z.min_r.
Qed.

Lemma timestamptz_add_days t d : timestamptz (t + d * Day) = timestamptz t + d * Day.
Proof.
  unfold timestamptz. replace (t + d * Day + 500) with (t + 500 + (d * 86400000000) * 1000) by (unfold Day; lia).
  rewrite Z.div_add by done. unfold Day. lia.
Qed.

(** The expiry that is computed from a stored start is the one that was stored. *)
Lemma stored_expiry t days :
  cap_expiry (AddDate (timestamptz t) 0 0 days) = timestamptz (cap_expiry (AddDate t 0 0 days)).
Proof. by rewrite !cap_expiry_min, !AddDate_add, timestamptz_min, timestamptz_add_days, timestamptz_max. Qed.

Section Terms.
Context `{GoUnicode} (caches : CachePeers).

Lemma run_create input w :
  run (createSubscription input) w =
    let row := inserted_row (new_subscription input (now w)) w in
    (with_rows (<[next_id (rows w) := row]> (rows w)) w, Ok (next_id (rows w), row)).
Proof.
  unfold createSubscription, Create. run_simpl. rewrite run_statement. cbn [fst snd]. run_simpl.
  by rewrite (live_row _ _ (inserted_row (new_subscription input (now w)) w)) by by apply live_insert.
Qed.

Lemma run_invalidate userID w :
  run (invalidate caches userID) w = (w, invalidateSubscriptionCaches caches userID).
Proof. unfold invalidate. destruct (invalidateSubscriptionCaches caches userID) as [[]|e]; by run_simpl. Qed.

(** The row has the columns of the input. *)
Definition row_of (input : AssignSubscriptionInput) (t : Time) r : Prop :=
  row_user r = in_user input /\ row_plan r = in_plan input /\ row_status r = SubscriptionStatusActive /\
  row_starts r = timestamptz t /\
  row_expires r = timestamptz (cap_expiry (AddDate t 0 0 (normalizeAssignValidityDays (in_days input)))) /\
  row_limit r = option_map numeric8 (Wallets.normalizeSubLimit (in_limit input)) /\ row_usage r = 0 /\
  row_notes r = in_notes input /\ row_deleted r = None.

Lemma inserted_row_of input w : now w <> 0 -> row_of input (now w) (inserted_row (new_subscription input (now w)) w).
Proof.
  intros Hn. unfold row_of, inserted_row, new_subscription. cbn -[timestamptz AddDate cap_expiry]. unfold IsZero.
  destruct (Z.eqb_spec (now w) 0) as [|_]; [done|]. by split_and!.
Qed.

(** What is written again is what is there. *)
Lemma limit_again input w p :
  live w p.1 p.2 -> row_limit p.2 = option_map numeric8 (Wallets.normalizeSubLimit (in_limit input)) ->
  invalidateSubscriptionCaches caches (row_user p.2) = Ok tt ->
  run (applyAssignedLimit caches p input) w = (w, Ok tt).
Proof.
  intros [Hr Hd] Hl Hc. unfold applyAssignedLimit. destruct (in_limit input) as [x|]; [|by run_simpl]. run_simpl.
  unfold UpdateAssignedLimit. rewrite (update_one_live _ _ _ _ Hr).
  assert (Hsame : set_limit (if 0 <? x then Some (numeric8 x) else None) p.2 = p.2).
  { cbn in Hl. destruct (Z.leb_spec x 0) as [H0|H0]; cbn in Hl.
    - rewrite (proj2 (Z.ltb_ge _ _)) by done. destruct (p.2); cbn in *; by subst.
    - rewrite (proj2 (Z.ltb_lt _ _)) by done. destruct (p.2); cbn in *; by subst. }
  rewrite Hsame, write_same by done. by rewrite run_invalidate, Hc.
Qed.

Lemma no_conflict input t r :
  row_of input t r -> detectAssignSemanticConflict r input = None.
Proof.
  intros (_ & _ & _ & Hs & He & _ & _ & Hn & _). unfold detectAssignSemanticConflict. destruct (in_limit input); [done|].
  by rewrite Hs, He, Hn, stored_expiry, Z.eqb_refl, andb_false_r, String.eqb_refl.
Qed.

(** C29. An assignment that creates is idempotent. When an assignment has created a
subscription (answering that it is not reused), the same request repeated at any time
before that expires, if nothing else has changed the table, nothing fails and the caches
answer, finds this very subscription: it answers that it is reused, and writes nothing
that was not there, whether or not the request names a plan or a limit. (Nothing is said
of one that renewed an expired subscription: its notes may then conflict.) *)
Theorem assignment_is_idempotent input w w1 p t :
  sound w -> now w <> 0 ->
  run (assignSubscriptionWithReuse caches input) w = (w1, Ok (p, false)) ->
  invalidateSubscriptionCaches caches (in_user input) = Ok tt ->
  now w <= t < row_expires p.2 ->
  let w2 := with_now t w1 in
  run (assignSubscriptionWithReuse caches input) w2 = (w2, Ok (p, true)) /\
  rows w !! p.1 = None /\ rows w1 = <[p.1 := p.2]> (rows w) /\ row_of input (now w) p.2.
Proof.
  intros Hw Hn Hrun Hc Ht w2. unfold assignSubscriptionWithReuse in *. rewrite run_abind, run_find_target in Hrun.
  destruct (assignment_target _ _ _) as [q|] eqn:Etarget.
  { exfalso. revert Hrun. run_simpl. destruct (isRenewableUnderAssignment _ _).
    - rewrite run_abind. destruct (run _ w) as [u [a|e]]; [|done]. rewrite run_abind.
      destruct (run _ u) as [u' [a'|e]]; [|done]. rewrite run_abind. destruct (run _ u') as [u2 [a2|e]]; [|done]. done.
    - destruct (detectAssignSemanticConflict _ _); [done|]. rewrite run_abind. by destruct (run _ w) as [u [a|e]]. }
  rewrite run_abind, run_create in Hrun. cbv beta iota zeta in Hrun. rewrite run_ret in Hrun. injection Hrun as <- <-.
  cbn [fst snd] in *. set (r := inserted_row _ w) in *. set (id := next_id (rows w)) in *.
  assert (Hrow : row_of input (now w) r) by by apply inserted_row_of.
  assert (Hrows : rows w2 = <[id := r]> (rows w)) by done.
  assert (Hlive : live w2 id r) by (split; [rewrite Hrows; apply lookup_insert_eq|apply Hrow]).
  split_and!; [|apply next_id_fresh|done|done].
  pose proof Hrow as (Hu & Hp & Hst & _ & He & Hl & _ & _ & _).
  assert (Hfound : assignment_target (in_plan input) t (ListByUserID (in_user input) w2) = Some (id, r)).
  { apply no_target in Etarget. rewrite Forall_forall in Etarget. apply only_target.
    - by apply elem_of_user.
    - unfold eligible, After. cbn [fst snd]. rewrite Hp, Hst. destruct (in_plan input); [by apply bool_decide_eq_true|].
      apply Z.ltb_lt. lia.
    - intros [i q] [[Hi Hd] Hq]%elem_of_user Hel. cbn [fst snd] in *. rewrite Hrows in Hi.
      destruct (decide (i = id)) as [->|Hne]; [rewrite lookup_insert_eq in Hi; congruence|].
      rewrite lookup_insert_ne in Hi by done.
      assert (Hold : eligible (in_plan input) (now w) (i, q) = false) by (apply Etarget, elem_of_user; done).
      unfold eligible, After in *. cbn [fst snd] in *. destruct (in_plan input); [congruence|].
      apply andb_true_iff in Hel as [Ha Hb]. rewrite Ha in Hold. cbn [andb] in Hold. apply Z.ltb_lt in Hb. apply Z.ltb_ge in Hold. lia. }
  rewrite run_abind, run_find_target. change (now w2) with t. rewrite Hfound. run_simpl. change (now w2) with t.
  replace (isRenewableUnderAssignment r t) with false.
  - rewrite (no_conflict input (now w)) by done. run_simpl. rewrite limit_again; [done|done|done|cbn [snd]; by rewrite Hu].
  - unfold isRenewableUnderAssignment, After. rewrite Hst. cbn [negb orb]. symmetry. apply negb_false_iff, Z.ltb_lt. lia.
Qed.

(** ** Renewal *)

(** A row whose term, notes and status alone have changed, and which is active. *)
Record renewed (w : SubDB) (days : Z) (notes : string) (r r' : SubRow) : Prop := {
  renewed_columns : row_user r' = row_user r /\ row_plan r' = row_plan r /\ row_period r' = row_period r /\
    row_window r' = row_window r /\ row_created r' = row_created r /\ row_deleted r' = row_deleted r;
  renewed_money : row_usage r' = row_usage r /\ row_limit r' = row_limit r;
  renewed_active : row_status r' = SubscriptionStatusActive;
  renewed_start : row_starts r' = if row_expires r <=? now w then timestamptz (now w) else row_starts r;
  renewed_expiry : row_expires r' = timestamptz (Z.min (Z.max (row_expires r) (now w) + days * Day) MaxExpiresAt);
  renewed_notes : row_notes r' = appendSubscriptionNotes (row_notes r) notes
}.

Lemma update_term_live w id r days notes :
  live w id r ->
  exists r', update_term id days notes false w = Ok (with_rows (<[id := r']> (rows w)) w) /\ renewed w days notes r r'.
Proof.
  intros Hr. unfold update_term. rewrite (live_row w id r Hr). cbn [andb]. cbv zeta. destruct Hr as [Hr Hd].
  unfold After. destruct (Z.ltb_spec (now w) (row_expires r)) as [Hl|Hl]; cbn [negb].
  - unfold ExtendExpiry, UpdateStatus, UpdateNotes. rewrite (update_one_live _ _ _ _ Hr). cbn [wrap_err rbind].
    rewrite cap_expiry_min, AddDate_add.
    set (r1 := set_expires _ r).
    assert (Hr1 : renewed w days "" r (set_status SubscriptionStatusActive r1)).
    { unfold r1. split; cbn -[timestamptz]; try (by split_and!); try done.
      - by rewrite (proj2 (Z.leb_gt _ _)).
      - by rewrite Z.max_l by lia. }
    assert (Hstep : exists r2, renewed w days "" r r2 /\
      (if String.eqb (row_status r) SubscriptionStatusActive then Ok (with_rows (<[id := r1]> (rows w)) w)
       else wrap_err "update subscription status" (update_one id (set_status SubscriptionStatusActive) (with_rows (<[id := r1]> (rows w)) w)))
      = Ok (with_rows (<[id := r2]> (rows w)) w)).
    { destruct (String.eqb_spec (row_status r) SubscriptionStatusActive) as [Ha|_].
      - exists r1. split; [|done]. destruct Hr1 as [C M _ S E N]. by split.
      - exists (set_status SubscriptionStatusActive r1). split; [done|].
        erewrite update_one_live by apply lookup_insert_eq. cbn. by rewrite insert_insert_eq. }
    destruct Hstep as (r2 & H2 & ->). cbn [rbind]. destruct H2 as [C M A S E N].
    destruct (String.eqb_spec notes "") as [->|Hn].
    + exists r2. split; [done|]. by split.
    + erewrite update_one_live by apply lookup_insert_eq. cbn -[appendSubscriptionNotes]. rewrite insert_insert_eq. eexists.
      split; [reflexivity|]. split; cbn -[appendSubscriptionNotes]; try done.
  - unfold Update. rewrite (update_one_live _ _ _ _ Hr). cbn [wrap_err]. eexists. split; [reflexivity|].
    rewrite cap_expiry_min, AddDate_add. split; cbn -[timestamptz appendSubscriptionNotes]; try done.
    + split_and!; try done. by destruct (row_plan r).
    + by rewrite (proj2 (Z.leb_le _ _)).
    + by rewrite Z.max_r by lia.
Qed.

Definition with_assigned_limit (input : AssignSubscriptionInput) r : SubRow :=
  match in_limit input with
  | None => r
  | Some x => set_limit (if 0 <? x then Some (numeric8 x) else None) r
  end.

(** Renewal gives time, not money.  An assignment that renews finds the wallet that
the request names; it ends active, its term grows by the days of the request from its
end, or from now if that has passed, but not beyond 2099; the notes are appended; the
usage, the reset period and its window stay as they are, and the limit changes only if
the request carries one. *)
Theorem renewal_extends_the_term input w p :
  assignment_target (in_plan input) (now w) (ListByUserID (in_user input) w) = Some p ->
  invalidateSubscriptionCaches caches (in_user input) = Ok tt ->
  exists r', renewed w (normalizeAssignValidityDays (in_days input)) (in_notes input) p.2 r' /\
    run (AssignOrExtendSubscription caches input) w =
      (with_rows (<[p.1 := with_assigned_limit input r']> (rows w)) w, Ok (p.1, with_assigned_limit input r', true)).
Proof.
  intros Hfound Hc. pose proof (target_in _ _ _ _ Hfound) as [Hlive Hu]%elem_of_user.
  destruct (update_term_live w p.1 p.2 (normalizeAssignValidityDays (in_days input)) (in_notes input) Hlive) as (r' & Hrun & Hr').
  exists r'. split; [done|]. unfold AssignOrExtendSubscription. rewrite run_abind, run_find_target, Hfound.
  unfold updateExistingSubscriptionTerm. rewrite run_abind, run_effect, Hrun.
  assert (Hd : row_deleted r' = None) by (rewrite (proj2 (proj2 (proj2 (proj2 (proj2 (renewed_columns _ _ _ _ _ Hr')))))); apply Hlive).
  rewrite run_abind. unfold applyAssignedLimit, with_assigned_limit. destruct (in_limit input) as [x|].
  - run_simpl. unfold UpdateAssignedLimit. rewrite (update_one_live _ p.1 r') by apply lookup_insert_eq.
    rewrite run_invalidate, Hu, Hc. cbn [rows with_rows]. rewrite insert_insert_eq, with_rows_rows. run_simpl.
    set (r2 := set_limit _ r'). by rewrite (live_row _ p.1 r2) by (by apply live_insert).
  - run_simpl. by rewrite (live_row _ p.1 r') by (by apply live_insert).
Qed.

(** ** Extension *)

(** What an extension makes of a row at an instant. *)
Definition extension (days : Z) (t : Time) r : res SubRow :=
  let days := Z.max (- MaxValidityDays) (Z.min days MaxValidityDays) in
  let expires := Z.min (Z.max (row_expires r) t + days * Day) MaxExpiresAt in
  if (row_expires r <=? t) && (days <? 0) then Err ErrCannotShortenExpired
  else if expires <=? t then Err ErrAdjustWouldExpire
  else
    let r := set_expires (timestamptz expires) r in
    Ok (if String.eqb (row_status r) SubscriptionStatusExpired then set_status SubscriptionStatusActive r else r).

Lemma clamp_days_eq days : clamp_days days = Z.max (- MaxValidityDays) (Z.min days MaxValidityDays).
Proof.
  unfold clamp_days. destruct (Z.ltb_spec MaxValidityDays days).
  - rewrite Z.min_r by lia. destruct (Z.ltb_spec MaxValidityDays (- MaxValidityDays)); unfold MaxValidityDays in *; lia.
  - rewrite Z.min_l by lia. destruct (Z.ltb_spec days (- MaxValidityDays)); unfold MaxValidityDays in *; lia.
Qed.

Lemma extend_tx_eq id days w r :
  live w id r ->
  extend_tx id days w =
    match extension days (now w) r with
    | Ok r' => Ok (with_rows (<[id := r']> (rows w)) w)
    | Err e => Err e
    end.
Proof.
  intros Hr. unfold extend_tx, extension. rewrite (live_row w id r Hr). cbv zeta. destruct Hr as [Hr _].
  rewrite clamp_days_eq. set (d := Z.max _ _). rewrite cap_expiry_min, AddDate_add. unfold After.
  rewrite <- !Z.leb_antisym.
  replace (if row_expires r <=? now w then now w else row_expires r) with (Z.max (row_expires r) (now w))
    by (destruct (Z.leb_spec (row_expires r) (now w)); lia).
  destruct (_ && _); [done|]. destruct (_ <=? _); [done|]. unfold ExtendExpiry, UpdateStatus.
  rewrite (update_one_live _ _ _ _ Hr). cbn [rbind]. change (row_status (set_expires _ r)) with (row_status r).
  destruct (String.eqb _ _); [|done]. rewrite (update_one_live _ id _ _ (lookup_insert_eq _ _ _)). cbn [rows with_rows].
  by rewrite insert_insert_eq.
Qed.

(** An extension does what its definition says, and nothing on an error. *)
Theorem extension_outcome id days w :
  run (ExtendSubscription id days) w =
    match sub_row id w with
    | Err _ => (w, Err ErrSubscriptionNotFound)
    | Ok r =>
        match extension days (now w) r with
        | Ok r' => (with_rows (<[id := r']> (rows w)) w, Ok (id, r'))
        | Err e => (w, Err e)
        end
    end.
Proof.
  unfold ExtendSubscription. rewrite run_abind, run_effect. destruct (sub_row id w) as [r|e] eqn:E.
  - apply sub_row_live in E. rewrite (extend_tx_eq id days w r E). destruct (extension days (now w) r) as [r'|e] eqn:Ex; [|done].
    rewrite run_GetByID, (live_row _ id r'); [done|]. apply live_insert. destruct E as [_ <-].
    unfold extension in Ex. destruct (_ && _); [done|]. destruct (_ <=? _); [done|]. injection Ex as <-.
    by destruct (String.eqb _ _).
  - unfold extend_tx. by rewrite E.
Qed.

(** ** Restoration *)

(** A subscription is restored only if it was revoked and its user has no active one;
it comes back with its amount, expired if its term has passed, and every other row stays
as it is. *)
Theorem restoration_outcome id w w' p :
  run (RestoreSubscription caches id) w = (w', Ok p) ->
  exists r, rows w !! id = Some r /\ row_deleted r <> None /\
    (forall i q, live w i q -> row_user q = row_user r -> row_active (now w) q = false) /\
    let status := if String.eqb (row_status r) SubscriptionStatusActive && (row_expires r <=? now w)
                  then SubscriptionStatusExpired else row_status r in
    p = (id, set_deleted None (set_status status r)) /\ w' = with_rows (<[id := p.2]> (rows w)) w.
Proof.
  unfold RestoreSubscription, GetByIDIncludeDeleted, Restore. run_simpl.
  destruct (rows w !! id) as [r|] eqn:Hr; [|done]. destruct (row_deleted r) as [d|] eqn:Hd; [|done]. run_simpl.
  destruct (ExistsActiveByUserID (row_user r) w) eqn:Hex; [done|]. run_simpl. unfold After. rewrite <- Z.leb_antisym.
  set (status := if String.eqb (row_status r) SubscriptionStatusActive && (row_expires r <=? now w)
                 then SubscriptionStatusExpired else row_status r).
  rewrite (update_one_live _ _ _ _ Hr).
  run_simpl. set (r' := set_deleted None (set_status status r)).
  rewrite (live_row _ id r') by by apply live_insert. run_simpl.
  rewrite run_invalidate. destruct (invalidateSubscriptionCaches _ _); [|done]. run_simpl. intros [= <- <-].
  exists r. split; [done|]. split; [by rewrite Hd|]. split; [|done]. intros i q [Hi Hq] Hu.
  destruct (row_active (now w) q) eqn:Ha; [|done]. exfalso.
  assert (Hall : existsb (fun x => (row_user x.2 =? row_user r) && row_active (now w) x.2) (live_rows (fun _ => true) w) = true).
  { apply existsb_exists. exists (i, q). split; [by apply list_elem_of_In, elem_of_live|]. cbn. by rewrite Hu, Z.eqb_refl. }
  unfold ExistsActiveByUserID in Hex. congruence.
Qed.

(** ** Claims *)

(** The plan that may be claimed. *)
Definition claimable (plan : SubscriptionPlan) : bool := plan_for_sale plan && plan_self_claimable plan.

(** A claim that succeeds ends with an active row of the plan. *)
Lemma claimed userID planID w w1 p held :
  now w <> 0 -> invalidateSubscriptionCaches caches userID = Ok tt ->
  run (ClaimSubscription caches userID planID) w = (w1, Ok (p, held)) ->
  0 < userID /\ 0 < planID /\ (exists plan, sub_plans w !! planID = Some plan /\ claimable plan = true) /\
  sub_plans w1 = sub_plans w /\ now w1 = now w /\
  live w1 p.1 p.2 /\ row_user p.2 = userID /\ row_plan p.2 = Some planID /\ row_status p.2 = SubscriptionStatusActive.
Proof.
  intros Hn Hc. unfold ClaimSubscription. destruct (Z.leb_spec userID 0); [done|]. destruct (Z.leb_spec planID 0); [done|].
  run_simpl. destruct (sub_plans w !! planID) as [plan|] eqn:Hplan; [|done]. run_simpl.
  destruct (negb _ || negb _) eqn:Hok; [done|]. rewrite <- negb_andb in Hok. apply negb_false_iff in Hok.
  unfold findClaimedSubscription, list_user. run_simpl.
  intros Hrun. split; [done|]. split; [done|]. split; [by exists plan|]. revert Hrun.
  destruct (List.find _ _) as [q|] eqn:Hf.
  - run_simpl. intros [= <- <- <-]. apply find_some in Hf as [Hin Hh]. apply list_elem_of_In, elem_of_user in Hin as [Hl Hu].
    unfold holds in Hh. apply andb_true_iff in Hh as [Hp%bool_decide_eq_true Ha].
    apply andb_true_iff in Ha as [Ha%String.eqb_eq _]. by split_and!.
  - run_simpl. set (input := claim_input _ _ _ _).
    destruct (assignment_target (in_plan input) (now w) (ListByUserID (in_user input) w)) as [q|] eqn:Ht.
    + destruct (renewal_extends_the_term input w q Ht Hc) as (r' & [Hcols _ Ha _ _ _] & ->). run_simpl. intros [= <- <- <-].
      destruct Hcols as (Hu & Hp & _ & _ & _ & Hd). pose proof (target_in _ _ _ _ Ht) as [[_ Hl] Huser]%elem_of_user.
      assert (Hplanq : row_plan q.2 = Some planID).
      { pose proof (target_eligible _ _ _ _ Ht) as He. cbn in He. by apply bool_decide_eq_true in He. }
      change (in_user input) with userID in Huser.
      unfold with_assigned_limit. cbn [in_limit input claim_input fst snd].
      assert (Hout : forall r2, row_user r2 = row_user r' -> row_plan r2 = row_plan r' -> row_status r2 = row_status r' ->
        row_deleted r2 = row_deleted r' -> live (with_rows (<[q.1 := r2]> (rows w)) w) q.1 r2 /\ row_user r2 = userID /\
        row_plan r2 = Some planID /\ row_status r2 = SubscriptionStatusActive).
      { intros r2 E1 E2 E3 E4. split; [apply live_insert; congruence|]. split_and!; congruence. }
      split; [done|]. split; [done|]. by destruct (plan_total_limit plan); apply Hout.
    + unfold AssignOrExtendSubscription. rewrite run_abind, run_find_target, Ht, run_abind, run_create. cbv beta iota zeta.
      run_simpl. intros [= <- <- <-]. destruct (inserted_row_of input w Hn) as (Hu & Hp & Ha & _ & _ & _ & _ & _ & Hd).
      split; [done|]. split; [done|]. split; [by apply live_insert|]. by split_and!.
Qed.

(** Claims do not stack.  Once a user has claimed a plan, every further claim of it, until
the subscription expires and if nothing else runs, answers with a subscription of that plan
that is active then, marks it as already held, and changes nothing. *)
Theorem claims_do_not_stack userID planID w w1 p held t :
  now w <> 0 -> invalidateSubscriptionCaches caches userID = Ok tt ->
  run (ClaimSubscription caches userID planID) w = (w1, Ok (p, held)) ->
  t < row_expires p.2 ->
  exists q, run (ClaimSubscription caches userID planID) (with_now t w1) = (with_now t w1, Ok (q, true)) /\
    live w1 q.1 q.2 /\ row_user q.2 = userID /\ row_plan q.2 = Some planID /\ IsActive (wallet_of q) t = true.
Proof.
  intros Hn Hc Hrun Ht.
  destruct (claimed _ _ _ _ _ _ Hn Hc Hrun) as (Hu & Hpl & (plan & Hplan & Hok) & Hplans & _ & Hlive & Huser & Hp & Ha).
  set (w2 := with_now t w1). assert (Hholds : holds planID t p = true).
  { unfold holds, IsActive, Before. cbn. rewrite Hp, Ha, bool_decide_eq_true_2 by done. by apply Z.ltb_lt. }
  assert (Hin : p ∈ ListByUserID userID w2) by by apply elem_of_user.
  destruct (List.find (holds planID t) (ListByUserID userID w2)) as [q|] eqn:Hf.
  2: { pose proof (find_none _ _ Hf p (proj1 (list_elem_of_In _ _) Hin)). congruence. }
  exists q. split.
  - unfold ClaimSubscription. rewrite (proj2 (Z.leb_gt _ _)), (proj2 (Z.leb_gt planID _)) by done. run_simpl.
    change (sub_plans w2) with (sub_plans w1). rewrite Hplans, Hplan. run_simpl. unfold claimable in Hok.
    rewrite <- negb_andb, Hok. cbn [negb]. unfold findClaimedSubscription, list_user. run_simpl.
    change (now w2) with t. rewrite Hf. by run_simpl.
  - apply find_some in Hf as [Hq Hh]. apply list_elem_of_In, elem_of_user in Hq as [Hq Hqu].
    apply andb_true_iff in Hh as [Hqp%bool_decide_eq_true Hqa]. split; [exact Hq|]. by split_and!.
Qed.

(** A user who claims a plan again when the subscription has expired gets its time
renewed; what has been used of its amount stays used. *)
Theorem reclaim_renews_the_old_wallet userID planID plan w p :
  0 < userID -> 0 < planID -> sub_plans w !! planID = Some plan -> claimable plan = true ->
  invalidateSubscriptionCaches caches userID = Ok tt ->
  Forall (fun q => holds planID (now w) q = false) (ListByUserID userID w) ->
  assignment_target (Some planID) (now w) (ListByUserID userID w) = Some p ->
  exists w' r', run (ClaimSubscription caches userID planID) w = (w', Ok (p.1, r', false)) /\
    row_usage r' = row_usage p.2 /\ row_period r' = row_period p.2 /\ row_window r' = row_window p.2 /\
    row_status r' = SubscriptionStatusActive.
Proof.
  intros Hu Hpl Hplan Hok Hc Hnone Ht.
  set (input := claim_input userID planID plan (now w)).
  destruct (renewal_extends_the_term input w p Ht Hc) as (r' & [Hcols [Husage _] Ha _ _ _] & Hrun).
  exists (with_rows (<[p.1 := with_assigned_limit input r']> (rows w)) w), (with_assigned_limit input r'). split.
  - unfold ClaimSubscription. rewrite (proj2 (Z.leb_gt _ _)), (proj2 (Z.leb_gt planID _)) by done. run_simpl. rewrite Hplan.
    run_simpl. unfold claimable in Hok. rewrite <- negb_andb, Hok. cbn [negb]. unfold findClaimedSubscription, list_user.
    run_simpl. destruct (List.find _ _) as [q|] eqn:Hf.
    + apply find_some in Hf as [Hq Hh]. apply list_elem_of_In in Hq. rewrite Forall_forall in Hnone. by rewrite (Hnone q Hq) in Hh.
    + run_simpl. fold input. by rewrite Hrun.
  - destruct Hcols as (_ & _ & Hper & Hwin & _ & _). unfold with_assigned_limit.
    destruct (in_limit input); cbn; split_and!; congruence.
Qed.

End Terms.
