(* ===== verification/SubscriptionSweeps.v ===== *)
(** * Subscriptions: the periodic cycle is invisible

The cycle of the expiry service writes what readers of the table compute anyway: no
later allocation, progress or existence test tells whether it has run. *)
From S2P Require Import Prelude GoText GoTime Redis PaymentStore Payments PaymentCreate.
From S2P Require Import SubscriptionWindow Wallets Programs Interleave Subscriptions SubscriptionFacts SubscriptionRuns.
From Stdlib Require Import Bool.

Local Open Scope string_scope.
Local Open Scope Z_scope.

Implicit Types (w : SubDB) (r : SubRow).

(** ** Wallets that a reader cannot tell apart *)

Record alike (t : Time) (s s' : UserSubscription Amount) : Prop := {
  alike_id : ID s' = ID s;
  alike_active : IsActive s' t = IsActive s t;
  alike_expiry : ExpiresAt s' = ExpiresAt s;
  alike_limit : TotalLimitUSD s' = TotalLimitUSD s;
  alike_usage : EffectiveWindowUsageUSD 0 s' t = EffectiveWindowUsageUSD 0 s t
}.

Lemma alike_effective t s s' : alike t s s' -> EffectiveTotalLimit s' = EffectiveTotalLimit s.
Proof. intros []. unfold EffectiveTotalLimit. congruence. Qed.

Lemma alike_has_limit t s s' : alike t s s' -> HasEffectiveLimit s' = HasEffectiveLimit s.
Proof. intros Ha. unfold HasEffectiveLimit. by rewrite (alike_effective t s s' Ha). Qed.

Section Alike.
Context (t : Time).
Notation alike_lists := (Forall2 (alike t)).

Lemma alike_insert x x' l l' : alike t x x' -> alike_lists l l' ->
  alike_lists (stable_insert expires_later x l) (stable_insert expires_later x' l').
Proof.
  intros Hx Hl. induction Hl as [|y y' l l' Hy Hl IH]; cbn; [by apply Forall2_cons|].
  unfold expires_later. rewrite (alike_expiry _ _ _ Hx), (alike_expiry _ _ _ Hy).
  destruct (After _ _); apply Forall2_cons; split; try done. by apply Forall2_cons.
Qed.

Lemma alike_filter l l' : alike_lists l l' -> alike_lists (List.filter HasEffectiveLimit l) (List.filter HasEffectiveLimit l').
Proof.
  induction 1 as [|s s' l l' Hs _ IH]; cbn; [constructor|]. rewrite (alike_has_limit t s s' Hs).
  destruct (HasEffectiveLimit s); [by constructor|done].
Qed.

Lemma alike_filter_not l l' : alike_lists l l' ->
  alike_lists (List.filter (fun s => negb (HasEffectiveLimit s)) l) (List.filter (fun s => negb (HasEffectiveLimit s)) l').
Proof.
  induction 1 as [|s s' l l' Hs _ IH]; cbn; [constructor|]. rewrite (alike_has_limit t s s' Hs).
  destruct (HasEffectiveLimit s); [done|by constructor].
Qed.

Lemma alike_byExpiry l l' : alike_lists l l' -> alike_lists (byExpiry l) (byExpiry l').
Proof.
  intros Hl. unfold byExpiry.
  assert (Hfold : forall k k', alike_lists k k' ->
    alike_lists (foldl (fun sorted x => stable_insert expires_later x sorted) k l)
                (foldl (fun sorted x => stable_insert expires_later x sorted) k' l')).
  { induction Hl as [|s s' l l' Hs _ IH]; intros k k' Hk; cbn; [done|]. apply IH. by apply alike_insert. }
  specialize (Hfold [] [] ltac:(constructor)). induction Hfold as [|s s' k k' Hs _ IH]; cbn; [constructor|].
  apply Forall2_app; [done|]. by apply Forall2_cons.
Qed.

Lemma alike_allocate l l' : alike_lists l l' -> forall rem, allocate_limited t l' rem = allocate_limited t l rem.
Proof.
  induction 1 as [|s s' l l' Hs _ IH]; intros rem; cbn; [done|].
  rewrite (alike_effective t s s' Hs), (alike_usage t s s' Hs), (alike_id t s s' Hs). by rewrite !IH.
Qed.

Lemma alike_active_rows l l' : alike_lists l l' ->
  alike_lists (active_rows t (map Some l)) (active_rows t (map Some l')).
Proof.
  induction 1 as [|s s' l l' Hs _ IH]; cbn; [constructor|]. rewrite (alike_active t s s' Hs).
  destruct (IsActive s t); [by constructor|done].
Qed.

Lemma alike_allocation l l' cost : alike_lists l l' ->
  AllocateSubscriptionUsage t (map Some l') cost = AllocateSubscriptionUsage t (map Some l) cost.
Proof.
  intros Hl. unfold AllocateSubscriptionUsage, AllocateSubscriptionUsageAt. destruct (cost <=? 0); [done|].
  pose proof (alike_active_rows l l' Hl) as Ha.
  rewrite (alike_allocate _ _ (alike_byExpiry _ _ (alike_filter _ _ Ha))).
  destruct (allocate_limited _ _ _) as [allocs rem].
  pose proof (alike_byExpiry _ _ (alike_filter_not _ _ Ha)) as Hu. destruct Hu as [|u u' us us' Hu _]; [done|].
  by rewrite (alike_id t u u' Hu).
Qed.

End Alike.

(** ** The cycle, row by row *)

Definition expired_row (t : Time) r : SubRow :=
  if String.eqb (row_status r) SubscriptionStatusActive && (row_expires r <=? timestamptz t)
  then set_status SubscriptionStatusExpired r else r.

Definition window_reset_row (t : Time) (p : Period) r : SubRow :=
  let start := SubscriptionWindowStart (period_name p) t in
  if row_deleted_not r && String.eqb (row_status r) SubscriptionStatusActive &&
     String.eqb (row_period r) (period_name p) && window_before start r
  then set_usage start 0 r else r.

Definition cycled (t : Time) r : SubRow :=
  window_reset_row t Monthly (window_reset_row t Weekly (window_reset_row t Daily (expired_row t r))).

Lemma run_cycle_alone w : after_year_one (now w) -> run runOnce w = (with_rows (cycled (now w) <$> rows w) w, Ok tt).
Proof.
  intros Ht. unfold runOnce, BatchUpdateExpiredStatus, BatchResetExpiredUsageWindows, batch_reset_step. run_simpl.
  change (now (batch_expire w)) with (now w). pose proof (Ht Daily) as Hd. pose proof (Ht Weekly) as Hw. pose proof (Ht Monthly) as Hm.
  cbn [period_name] in *. unfold IsZero.
  destruct (Z.eqb_spec (SubscriptionWindowStart SubscriptionResetPeriodDaily (now w)) 0); [lia|].
  destruct (Z.eqb_spec (SubscriptionWindowStart SubscriptionResetPeriodWeekly (now w)) 0); [lia|].
  destruct (Z.eqb_spec (SubscriptionWindowStart SubscriptionResetPeriodMonthly (now w)) 0); [lia|].
  run_simpl. unfold batch_reset, batch_expire. cbn [rows with_rows sub_plans now]. unfold with_rows. cbn [sub_plans now rows].
  by rewrite <- !map_fmap_compose.
Qed.

Lemma window_start_mono p t u : t <= u -> SubscriptionWindowStart (period_name p) t <= SubscriptionWindowStart (period_name p) u.
Proof.
  intros Htu. rewrite !window_start_spec. apply Z.mul_le_mono_nonneg_r; [done|].
  assert (Hday : day_of t <= day_of u) by (apply Z.div_le_mono; done).
  pose proof (window_days_contain p (day_of t)) as Ct. pose proof (window_days_contain p (day_of u)) as Cu.
  destruct (Z.le_gt_cases (window_days p (day_of t)).1 (window_days p (day_of u)).1) as [|Hgt]; [done|].
  pose proof (window_days_same p (day_of u) (day_of t) ltac:(lia)) as E. rewrite E. done.
Qed.

Lemma expired_row_active n t r : n <= t -> row_active t (expired_row n r) = row_active t r.
Proof.
  intros Hnt. unfold expired_row. destruct (_ && _) eqn:E; [|done]. apply andb_true_iff in E as [_ He].
  apply Z.leb_le in He. pose proof (timestamptz_mono n t Hnt). unfold row_active. cbn.
  symmetry. apply andb_false_iff. right. apply Z.ltb_ge. lia.
Qed.

Lemma expired_row_columns n r :
  row_user (expired_row n r) = row_user r /\ row_deleted (expired_row n r) = row_deleted r.
Proof. unfold expired_row. by case_match. Qed.

(** A row that is active later has not been marked. *)
Lemma active_not_marked n t r : n <= t -> row_active t r = true -> expired_row n r = r.
Proof.
  intros Hnt [Ha Hexp%Z.ltb_lt]%andb_true_iff. unfold expired_row. pose proof (timestamptz_mono n t Hnt).
  rewrite (proj2 (Z.leb_gt _ _)) by lia. by rewrite andb_false_r.
Qed.

(** What a reset of the window keeps: all that a reader at a later instant sees. *)
Record unseen (t : Time) (r r' : SubRow) : Prop := {
  unseen_columns : row_user r' = row_user r /\ row_status r' = row_status r /\ row_expires r' = row_expires r /\
    row_limit r' = row_limit r /\ row_period r' = row_period r /\ row_deleted r' = row_deleted r;
  unseen_usage : usage_at t r' = usage_at t r;
  unseen_reset : forall id, SubscriptionWindowResetsAt (wallet_of (id, r')) t = SubscriptionWindowResetsAt (wallet_of (id, r)) t
}.

Lemma unseen_refl t r : unseen t r r.
Proof. by split. Qed.

Lemma unseen_trans t r1 r2 r3 : unseen t r1 r2 -> unseen t r2 r3 -> unseen t r1 r3.
Proof.
  intros [C12 U12 R12] [C23 U23 R23]. split; [intuition congruence|congruence|].
  intros id. by rewrite R23, R12.
Qed.

Lemma reset_unseen n t p r : after_year_one n -> n <= t -> sound_row n r -> unseen t r (window_reset_row n p r) /\ sound_row n (window_reset_row n p r).
Proof.
  intros Hn Hnt Hs. unfold window_reset_row. destruct (_ && _ && _ && _) eqn:E; [|by split; [apply unseen_refl|]].
  bool_prop. specialize (Hn p). pose proof (window_start_mono p n t Hnt) as Hmono.
  assert (Hp : row_period r = period_name p) by done.
  assert (Hexp : SubscriptionWindowExpired (period_name p) (row_window r) t = true).
  { rewrite expired_name. unfold window_before, IsZero in *. apply orb_true_iff.
    match goal with Hb : (_ || _) = true |- _ => apply orb_true_iff in Hb as [Hz%Z.eqb_eq|Hz%Z.ltb_lt] end.
    - left. by apply Z.eqb_eq.
    - right. apply Z.ltb_lt. lia. }
  split.
  - split; [done| |].
    + rewrite !usage_at_eq. cbn [row_period row_window row_usage set_usage]. rewrite Hp, normalize_name, Hexp. by case_match.
    + intros id. unfold SubscriptionWindowResetsAt.
      cbn [row_period row_window row_expires set_usage wallet_of ResetPeriod UsageWindowStart ExpiresAt fst snd]. rewrite Hp, !normalize_name, Hexp, expired_name.
      destruct (Z.eqb_spec (SubscriptionWindowStart (period_name p) n) 0); [lia|]. cbn [orb].
      destruct (Z.ltb_spec (SubscriptionWindowStart (period_name p) n) (SubscriptionWindowStart (period_name p) t)); [done|].
      by replace (SubscriptionWindowStart (period_name p) n) with (SubscriptionWindowStart (period_name p) t) by lia.
  - apply (set_window_sound true); [apply window_start_le|done|rewrite Hp; by destruct p].
Qed.

Lemma cycled_unseen n t r :
  after_year_one n -> n <= t -> sound_row n r -> unseen t (expired_row n r) (cycled n r).
Proof.
  intros Hn Hnt Hs. unfold cycled.
  assert (He : sound_row n (expired_row n r)).
  { unfold expired_row. destruct (_ && _); [|done]. by apply (set_status_harmless true). }
  destruct (reset_unseen n t Daily _ Hn Hnt He) as [U1 S1].
  destruct (reset_unseen n t Weekly _ Hn Hnt S1) as [U2 S2].
  destruct (reset_unseen n t Monthly _ Hn Hnt S2) as [U3 _].
  eapply unseen_trans; [exact U1|]. by eapply unseen_trans.
Qed.

Lemma unseen_active t u r r' : unseen t r r' -> row_active u r' = row_active u r.
Proof. intros [(_ & Hs & He & _) _ _]. unfold row_active. by rewrite Hs, He. Qed.

Lemma unseen_alike t id r r' : unseen t r r' -> alike t (wallet_of (id, r)) (wallet_of (id, r')).
Proof.
  intros [(_ & Hs & He & Hl & _ & _) Hu _]. split; cbn; try done. unfold IsActive. cbn. by rewrite Hs, He.
Qed.

Lemma unseen_progress t id r r' : unseen t r r' -> calculateProgress (id, r') t = calculateProgress (id, r) t.
Proof.
  intros Hun. pose proof (unseen_alike t id r r' Hun) as Ha. destruct Hun as [(Hu & Hs & He & Hl & Hp & Hd) Husage Hreset].
  unfold calculateProgress. pose proof (alike_effective t _ _ Ha) as Heff. pose proof (alike_usage _ _ _ Ha) as Heu.
  unfold IsUnlimited, RemainingUSDAt. rewrite (alike_has_limit t _ _ Ha), Heff, Heu, Hreset. cbn [fst snd ResetPeriod wallet_of].
  unfold daysRemainingAt. cbn [ExpiresAt wallet_of fst snd]. by rewrite He, Hp.
Qed.

(** ** The lists that readers get *)

Lemma stable_sort_map {A B} (f : A -> B) (lessA : A -> A -> bool) (lessB : B -> B -> bool) l :
  (forall x y, lessB (f x) (f y) = lessA x y) -> stable_sort lessB (map f l) = map f (stable_sort lessA l).
Proof.
  intros Hless.
  assert (Hins : forall x k, stable_insert lessB (f x) (map f k) = map f (stable_insert lessA x k)).
  { intros x k. induction k as [|y k IH]; cbn; [done|]. rewrite Hless. destruct (lessA y x); cbn; [by rewrite IH|done]. }
  unfold stable_sort. induction l as [|x l IH]; cbn; [done|]. by rewrite IH, Hins.
Qed.

Lemma filter_map {A B} (f : A -> B) (p : A -> bool) (q : B -> bool) l :
  (forall x, x ∈ l -> q (f x) = p x) -> List.filter q (map f l) = map f (List.filter p l).
Proof.
  induction l as [|x l IH]; cbn; intros Hp; [done|]. rewrite Hp by left.
  rewrite IH by (intros; apply Hp; by right). by destruct (p x).
Qed.

Definition cycled_pair (n : Time) (p : Z * SubRow) : Z * SubRow := (p.1, cycled n p.2).

Section Invisible.
Context (w : SubDB) (t : Time) (Hw : sound w) (Hn : after_year_one (now w)) (Ht : now w <= t).

Lemma active_after_cycle userID :
  ListActiveByUserID userID (with_now t (with_rows (cycled (now w) <$> rows w) w)) =
  map (cycled_pair (now w)) (ListActiveByUserID userID (with_now t w)).
Proof.
  unfold ListActiveByUserID, live_rows. cbn [rows with_rows with_now now]. rewrite map_to_list_fmap.
  change (prod_map id (cycled (now w)) <$> map_to_list (rows w)) with (map (prod_map id (cycled (now w))) (map_to_list (rows w))).
  change (prod_map id (cycled (now w))) with (cycled_pair (now w)).
  rewrite (filter_map _ (fun x => row_deleted_not x.2 && ((row_user x.2 =? userID) && row_active t x.2))).
  - apply stable_sort_map. intros x y. cbn [cycled_pair snd]. unfold cycled, window_reset_row, expired_row.
    repeat match goal with |- context [if ?b then set_usage _ _ _ else _] => destruct b | |- context [if ?b then set_status _ _ else _] => destruct b end; done.
  - intros [id r] Hin. apply elem_of_map_to_list in Hin. cbn [cycled_pair fst snd].
    pose proof (cycled_unseen _ t r Hn Ht (rows_sound _ Hw id r Hin)) as Hun. pose proof Hun as [(Hu & _ & _ & _ & _ & Hd) _ _].
    rewrite (unseen_active _ t _ _ Hun), (expired_row_active _ _ _ Ht). unfold row_deleted_not.
    destruct (expired_row_columns (now w) r) as [Eu Ed]. by rewrite Hd, Hu, Eu, Ed.
Qed.
Lemma active_rows_unseen userID p :
  p ∈ ListActiveByUserID userID (with_now t w) -> unseen t p.2 (cycled (now w) p.2).
Proof.
  intros (Hr & _ & _ & Hs & He)%elem_of_active. cbn in Hr, He.
  pose proof (cycled_unseen _ t p.2 Hn Ht (rows_sound _ Hw p.1 p.2 Hr)) as Hun.
  rewrite (active_not_marked (now w) t p.2 Ht) in Hun; [done|]. unfold row_active. rewrite Hs. by apply Z.ltb_lt.
Qed.

Lemma exists_by_list userID u : ExistsActiveByUserID userID u = negb (bool_decide (ListActiveByUserID userID u = [])).
Proof.
  unfold ExistsActiveByUserID. destruct (existsb _ _) eqn:E.
  - apply existsb_exists in E as ([id r] & Hin & Hp). symmetry. apply negb_true_iff, bool_decide_eq_false. intros Hnil.
    assert (Hel : (id, r) ∈ ListActiveByUserID userID u).
    { unfold ListActiveByUserID. rewrite stable_sort_perm. apply list_elem_of_In, elem_of_live in Hin as (? & ? & _).
      by apply elem_of_live. }
    rewrite Hnil in Hel. by apply elem_of_nil in Hel.
  - symmetry. apply negb_false_iff, bool_decide_eq_true.
    destruct (ListActiveByUserID userID u) as [|p l] eqn:El; [done|]. exfalso.
    assert (Hin : p ∈ ListActiveByUserID userID u) by (rewrite El; left).
    unfold ListActiveByUserID in Hin. rewrite stable_sort_perm in Hin. apply elem_of_live in Hin as (Hr & Hd & Hp).
    assert (existsb (fun x => (row_user x.2 =? userID) && row_active (now u) x.2) (live_rows (fun _ => true) u) = true); [|congruence].
    apply existsb_exists. exists p. split; [by apply list_elem_of_In, elem_of_live|done].
Qed.
End Invisible.

(** C20. The periodic cycle is invisible.  Whatever the table holds, a cycle of the expiry
service, run alone, answers no error; and at that instant or any later one the active
subscriptions of a user show the same progress (usage in the window, rest, percentage,
next reset), a cost is allocated to the same wallets in the same amounts, and the test
for an active subscription answers the same as if the cycle had not run: nothing depends
on the cycle being on time. *)
Theorem cycle_is_invisible w t userID cost :
  sound w -> after_year_one (now w) -> now w <= t ->
  let before := with_now t w in
  let after := with_now t (run runOnce w).1 in
  (run runOnce w).2 = Ok tt /\
  (run (GetUserSubscriptionsWithProgress userID) after).2 = (run (GetUserSubscriptionsWithProgress userID) before).2 /\
  AllocateSubscriptionUsage t (map (fun p => Some (wallet_of p)) (ListActiveByUserID userID after)) cost =
    AllocateSubscriptionUsage t (map (fun p => Some (wallet_of p)) (ListActiveByUserID userID before)) cost /\
  ExistsActiveByUserID userID after = ExistsActiveByUserID userID before.
Proof.
  intros Hw Hn Ht before after. unfold after. rewrite (run_cycle_alone w Hn). cbn [fst snd]. fold before.
  pose proof (active_after_cycle w t Hw Hn Ht userID) as Hlist. split; [done|].
  pose proof (active_rows_unseen w t Hw Hn Ht userID) as Hun. fold before in Hun, Hlist.
  split; [|split].
  - unfold GetUserSubscriptionsWithProgress. run_simpl. rewrite Hlist, map_map. cbn [now with_now]. f_equal.
    apply map_ext_in. intros p Hp%list_elem_of_In. destruct p as [id r]. exact (unseen_progress t id r _ (Hun (id, r) Hp)).
  - rewrite Hlist. rewrite <- (map_map wallet_of Some), <- (map_map wallet_of Some). apply alike_allocation.
    clear Hlist. induction (ListActiveByUserID userID before) as [|p l IH]; cbn; [constructor|].
    apply Forall2_cons. split; [|apply IH; intros; apply Hun; by right].
    destruct p as [id r]. apply unseen_alike. apply (Hun (id, r)). by left.
  - rewrite !exists_by_list, Hlist. by destruct (ListActiveByUserID userID before).
Qed.
