(* ===== verification/SubscriptionExamples.v ===== *)
(** * Subscriptions: examples

Runs of the operations on a small table, and the instances of the theorems there. *)
From S2P Require Import Prelude GoText GoTime Redis PaymentStore Payments PaymentCreate.
From S2P Require Import SubscriptionWindow Wallets Programs Interleave Subscriptions SubscriptionFacts SubscriptionRuns.
From S2P Require Import SubscriptionSweeps.
From Stdlib Require Import Bool.

Local Open Scope string_scope.
Local Open Scope Z_scope.

(** One dollar. *)
Definition dollar : Amount := 10000000000.

Definition noon : Time := Date 2026 1 15 + 12 * Hour.

Definition quiet : CachePeers := mkCaches false (fun _ => Ok tt) (fun _ => Ok tt).

(** A wallet of a dollar a day, used up the day before, and one of five dollars in all. *)
Definition daily_row : SubRow :=
  mkRow 7 (Some 2) (Date 2026 1 1) (Date 2026 2 1) "active" (Some dollar) dollar "daily" (Date 2026 1 14)
    None (Date 2026 1 1) "" (Date 2026 1 1) None.
Definition pool_row : SubRow :=
  mkRow 7 (Some 3) (Date 2025 12 1) (Date 2026 1 20) "active" (Some (5 * dollar)) (2 * dollar) "none" 0
    None (Date 2025 12 1) "" (Date 2025 12 1) None.

Definition free_plan : SubscriptionPlan := mkSubPlan "Free" (Some dollar) "none" 30 "day" true true 1.

Definition table : SubDB := mkSubDB {[ 1 := daily_row; 2 := pool_row ]} {[ 3 := free_plan; 4 := free_plan ]} noon.

Lemma table_sound : sound table.
Proof.
  split; [done|]. intros id r Hr. cbn [rows table] in Hr.
  apply lookup_insert_Some in Hr as [[_ <-]|[_ Hr]]; [|apply lookup_singleton_Some in Hr as [_ <-]].
  all: split; try (intros l [= <-]); by vm_compute.
Qed.

Lemma noon_after_year_one : after_year_one noon.
Proof. intros []; by vm_compute. Qed.

(** ** Charges *)

(** The pool expires first: it pays what it has, and the new day pays the rest. *)
Example charge_of_three_and_a_half :
  (run (AllocateAndRecordUsage 7 (35 * dollar / 10)) table).2 =
    Ok ([mkAlloc 2 (3 * dollar); mkAlloc 1 (dollar / 2)], None).
Proof. by vm_compute. Qed.

Lemma charges_reach_the_wallets_witness :
  exists w' allocs, run (AllocateAndRecordUsage 7 (35 * dollar / 10)) table = (w', Ok (allocs, None)) /\
    35 * dollar / 10 - subscriptionAllocationEpsilon <= paid allocs <= 35 * dollar / 10.
Proof.
  pose proof (charges_reach_the_wallets 7 (35 * dollar / 10) table table_sound noon_after_year_one eq_refl) as Hc.
  cbv zeta in Hc. destruct (run (AllocateAndRecordUsage 7 (35 * dollar / 10)) table) as [w' [[allocs [e|]]|e]] eqn:E.
  - apply (f_equal snd) in E. vm_compute in E. discriminate.
  - exists w', allocs. split; [reflexivity|]. exact (proj1 Hc).
  - destruct Hc.
Defined.

(** ** Schedules *)

(** A renewal and a charge of the pool, their statements interleaved. *)
Definition renew_pool : AssignSubscriptionInput := mkAssign 7 (Some 3) 10 0 "renewed" None "".

Definition renewal_and_charge : list (Event SubDB) :=
  [Spawn (discard (AssignOrExtendSubscription quiet renew_pool)); Spawn (discard (RecordUsage 2 dollar));
   Turn 0 None; Turn 1 None; Turn 0 None; Turn 1 None; Turn 0 None; Turn 1 None; Turn 0 None;
   Outside (fun w => with_now (now w + Hour) w)].

Lemma no_charge_is_lost_witness :
  sound (schedule renewal_and_charge (table, [])).1 /\
  exists r', rows (schedule renewal_and_charge (table, [])).1 !! 2 = Some r' /\ 2 * dollar <= row_usage r'.
Proof.
  destruct (no_charge_is_lost true quiet renewal_and_charge table table_sound) as (Hs & _ & Hk).
  - repeat constructor; done.
  - constructor; [apply tick; vm_compute; congruence|constructor].
  - split; [exact Hs|]. destruct (Hk 2 pool_row eq_refl) as (r' & Hr' & _ & _ & _ & Hu). exists r'. split; [exact Hr'|].
    exact (Hu eq_refl).
Defined.

Example charge_in_a_renewal :
  match rows (schedule renewal_and_charge (table, [])).1 !! 2 with
  | Some r => (row_usage r =? 3 * dollar) && (row_expires r =? Date 2026 1 30)
  | None => false
  end = true.
Proof. by vm_compute. Qed.

(** Two claims at once: each looks before the other has inserted, and the user holds the
plan twice. *)
Definition two_claims : list (Event SubDB) :=
  let claim := discard (ClaimSubscription quiet 8 4) in
  [Spawn claim; Spawn claim] ++ concat (repeat [Turn 0 None; Turn 1 None] 12).

Example claims_at_once_stack :
  length (ListActiveByUserID 8 (schedule two_claims (table, [])).1) = 2%nat.
Proof. by vm_compute. Qed.

(** ** Terms *)

Definition assign_new : AssignSubscriptionInput := mkAssign 9 None 30 1 " gift " None "".

Lemma assignment_is_idempotent_witness :
  exists w1 p, run (assignSubscriptionWithReuse quiet assign_new) table = (w1, Ok (p, false)) /\
    run (assignSubscriptionWithReuse quiet assign_new) (with_now (noon + Hour) w1) =
      (with_now (noon + Hour) w1, Ok (p, true)).
Proof.
  destruct (run (assignSubscriptionWithReuse quiet assign_new) table) as [w1 [[p [|]]|e]] eqn:E.
  - apply (f_equal snd) in E. vm_compute in E. discriminate.
  - exists w1, p. split; [reflexivity|].
    refine (proj1 (assignment_is_idempotent quiet assign_new table w1 p (noon + Hour) table_sound _ E eq_refl _)).
    + done.
    + apply (f_equal snd) in E. vm_compute in E. injection E as <-. split; vm_compute; congruence.
  - apply (f_equal snd) in E. vm_compute in E. discriminate.
Defined.

Lemma renewal_extends_the_term_witness :
  exists r', renewed table 10 "renewed" pool_row r' /\
    (run (AssignOrExtendSubscription quiet renew_pool) table).2 = Ok (2, r', true).
Proof.
  destruct (renewal_extends_the_term quiet renew_pool table (2, pool_row)) as (r' & Hr' & Hrun).
  - by vm_compute.
  - reflexivity.
  - exists r'. split; [exact Hr'|]. by rewrite Hrun.
Defined.

Lemma claims_do_not_stack_witness :
  exists w1 p q, run (ClaimSubscription quiet 8 4) table = (w1, Ok (p, false)) /\
    run (ClaimSubscription quiet 8 4) (with_now (noon + Hour) w1) = (with_now (noon + Hour) w1, Ok (q, true)).
Proof.
  destruct (run (ClaimSubscription quiet 8 4) table) as [w1 [[p held]|e]] eqn:E.
  - destruct (claims_do_not_stack quiet 8 4 table w1 p held (noon + Hour)) as (q & Hq & _); [done|reflexivity|exact E| |].
    + apply (f_equal snd) in E. vm_compute in E. injection E as <- <-. by vm_compute.
    + exists w1, p, q. split; [|exact Hq]. apply (f_equal snd) in E. vm_compute in E. by injection E as _ <-.
  - apply (f_equal snd) in E. vm_compute in E. discriminate.
Defined.

(** A pool that has been used up is claimed again when it has expired: the row is active
once more, with nothing left in it. *)
Definition spent_table : SubDB :=
  mkSubDB {[ 5 := mkRow 8 (Some 4) (Date 2025 12 1) (Date 2025 12 31) "expired" (Some dollar) dollar "none" 0
                    None (Date 2025 12 1) "" (Date 2025 12 1) None ]} {[ 4 := free_plan ]} noon.

Example reclaimed_pool_is_empty :
  match (run (ClaimSubscription quiet 8 4) spent_table).2 with
  | Ok (p, held) => negb held && IsActive (wallet_of p) noon && bool_decide (RemainingUSDAt (wallet_of p) noon = Some 0)
  | Err _ => false
  end = true.
Proof. by vm_compute. Qed.

(** A plan of one month that is claimed lasts a day; one that is bought lasts thirty. *)
Definition month_plan : SubscriptionPlan := mkSubPlan "Month" (Some dollar) "none" 1 "month" true true 1.

Example claimed_month_lasts_a_day :
  match (run (ClaimSubscription quiet 8 4) (mkSubDB ∅ {[ 4 := month_plan ]} noon)).2 with
  | Ok (p, _) => row_expires p.2 - noon
  | Err _ => 0
  end = Day /\ psComputeValidityDays (plan_validity_days month_plan) (plan_validity_unit month_plan) = 30.
Proof. by vm_compute. Qed.

(** ** The cycle *)

Lemma cycle_is_invisible_witness :
  (run (GetUserSubscriptionsWithProgress 7) (with_now (noon + Hour) (run runOnce table).1)).2 =
  (run (GetUserSubscriptionsWithProgress 7) (with_now (noon + Hour) table)).2.
Proof.
  destruct (cycle_is_invisible table (noon + Hour) 7 dollar table_sound noon_after_year_one) as (_ & Hp & _).
  - vm_compute. congruence.
  - exact Hp.
Defined.

Example cycle_resets_the_day :
  (row_usage <$> rows (run runOnce table).1 !! 1) = Some 0.
Proof. by vm_compute. Qed.
